(* ===== verification/_CoqProject ===== *)
-Q . S2P
Prelude.v
Enums.v
Errors.v
Codec.v
Records.v
Fragmenter.v
Deframer.v
Cipher.v
Extensions.v
Payloads.v
ServerHello.v
ClientHello.v
Messages.v
Send.v
SendFlow.v
SendRange.v
Receive.v
ReceiveSpec.v
InputBuffer.v
Connection.v
ConnectionSpec.v
ConnectionInv.v
Hkdf.v
Tls13Cipher.v
KeySchedule.v
KeyScheduleSpec.v
Tls13Suites.v
Sessions.v
Compress.v
Kx.v
Verify.v
QuicKeys.v
Transcript.v
Outputs.v
ClientConfig.v
Ech.v
Traffic.v
ClientHs13.v
Tls12Secrets.v
Tls12Cipher.v
Handlers.v
EndToEnd.v
ClientHs.v
ClientHs12.v
ToyProvider.v
ClientAuth.v
EchSpec.v
HpkeAwsLc.v
HpkeSpec.v
ClientRun.v
ClientAuth12.v
LimitedCache.v
Ticketer.v
ServerConfig.v
ServerHs13.v
ServerHs.v
ServerHs12.v
ServerAuth.v
ServerAuth12.v
Termination.v
Exchange.v
Exchange12.v
Split.v
Connections.v
