(* ===== verification/Prelude.v ===== *)
(** * A verification development for rustls

    rustls is a TLS library in Rust.  An application owns a connection, gives it the
    bytes that arrive from its transport, takes bytes to send from it, and reads and
    writes application data.  The development models the library from the bytes of a
    record up to whole handshakes of clients and servers of TLS 1.2 and 1.3, as functions
    that can be run, and proves what they promise.  Paths below are relative to [src/];
    [rustls/src/] is left out where it is clear.

    ** The program and its parts

    - Bytes received go into a [TlsInputBuffer]; the deframer finds records in it, the
      receive path decrypts them in place, and the deframer joins handshake messages that
      were cut into several records.  A loop presents messages to the state machine of the
      handshake or of the traffic phase, which may send, change keys or fail.
    - Bytes sent come from application data or from handshake messages; they are cut into
      fragments, encrypted with consecutive sequence numbers and queued.
    - A client handshake makes a ClientHello (with Encrypted ClientHello if configured),
      follows a HelloRetryRequest, and then the server's flight; a server chooses among
      what the hello offers, or resumes a session of its store or of a ticket, and then
      follows the client's flight.  TLS 1.3 has a key schedule that turns the shared secret
      and the transcript into traffic keys, TLS 1.2 a pseudo-random function.
    - Cryptography belongs to a provider.  The provider made with [ring] is modelled as
      far as its code is in the repository, and so is the hybrid public key encryption of
      the one made with [aws-lc-rs]; these two libraries are parameters with laws.
    - After the handshake a connection can be split into a half that sends and one that
      receives, for two threads, which share the send path behind a lock.

    ** Conventions

    A definition has the name it has in the source, inside a module named after the type
    it is a method of; a comment [@src] before it names the file, the lines and the item.
    - A [u8] is a byte; a wider integer is a [Z], wrapped or checked where the source
      does; a [usize] is a [nat].  Where the source subtracts, the model has the check or
      an invariant that makes the subtraction exact.
    - [Result] is [result E A], with a third case [Panic] for [unwrap], [unreachable!],
      [assert!] and slices out of range: theorems say where it does not occur.
    - A method with [&mut self], or one that works on the state of the connection, is an
      [action S E A]: it returns the new state also when it fails.
    - A trait is a class or, for trait objects, a record of its methods, with the laws
      that implementations promise in a class of their own.
    - Borrowing and ownership variants of one type are one type.
    - What belongs to other crates ([ring], [aws-lc-rs], compression, the clock, random numbers,
      session stores, certificate verifiers) is an argument; what is relied on is a named
      hypothesis, and an instance shows that it can hold.

    ** Files

    The wire format:
    - [Prelude]: bytes, integers, [result] and [action], shared lemmas and tactics.
    - [Enums] ([enums.rs], [msgs/enums.rs], [crypto/enums.rs]), [Errors]
      ([error/mod.rs], with the alert that an error sends).
    - [Codec] ([msgs/codec.rs]): readers, length prefixes, lists, and the class
      [CodecLaws].
    - [Extensions] ([msgs/macros.rs], [extension_struct!]), [Payloads]
      ([msgs/handshake.rs]), [ServerHello] ([msgs/server_hello.rs]), [ClientHello]
      ([msgs/client_hello.rs]), [Messages] ([msgs/mod.rs], [msgs/handshake.rs]).

    Records:
    - [Records] ([crypto/cipher/messages.rs]), [Cipher] ([crypto/cipher/mod.rs]),
      [Fragmenter] ([msgs/fragmenter.rs]), [Deframer] ([msgs/deframer/]).
    - [Send] ([conn/send.rs]) with [SendFlow] and [SendRange] about it.
    - [Receive] ([conn/receive.rs]) with [ReceiveSpec] about it; [InputBuffer].
    - [Connection] (the loop of [conn/receive.rs] and [conn/mod.rs]) with
      [ConnectionSpec] and [ConnectionInv] about it.
    - [Split] ([conn/split.rs]): the halves of a connection, runs of calls on them, and
      what is proved of those.

    Keys:
    - [Hkdf] ([crypto/tls13.rs], [crypto/hmac.rs]), [KeySchedule]
      ([tls13/key_schedule.rs]) with [KeyScheduleSpec] about it, [Tls13Cipher] and
      [Tls13Suites] ([rustls-ring/src/tls13.rs]), [QuicKeys] ([quic.rs],
      [rustls-ring/src/quic.rs]), [Kx] ([crypto/kx/mod.rs]).
    - [Tls12Secrets] ([tls12.rs], [crypto/tls12.rs]) and [Tls12Cipher]
      ([rustls-ring/src/tls12.rs]).

    Handshakes:
    - [Sessions] (what is stored of a session), [Compress] ([compress.rs]), [Verify]
      ([verify.rs], [crypto/signer.rs]), [Transcript] ([hash_hs.rs]), [Outputs]
      ([common_state.rs]), [ClientConfig] ([client/config.rs]), [Ech]
      ([client/ech.rs]) with [EchSpec] about it, [HpkeAwsLc]
      ([rustls-aws-lc-rs/src/hpke.rs]) with [HpkeSpec] about it.
    - [ClientHs] ([client/hs.rs]), [ClientHs13] ([client/tls13.rs]) and [ClientHs12]
      ([client/tls12.rs], which implements the class [ClientHandler12] of [ClientHs]), with
      [ClientAuth], [ClientRun] and [ClientAuth12] about them.
    - [LimitedCache] ([limited_cache.rs] and the stores of [client/handy.rs] and
      [server/handy.rs]), [Ticketer] ([ticketer.rs] and those of the providers),
      [ServerConfig] ([server/config.rs], [server/handy.rs]).
    - [ServerHs] ([server/hs.rs]), [ServerHs13] ([server/tls13.rs]) and [ServerHs12]
      ([server/tls12.rs], which implements the class [ServerHandler12] of [ServerHs]), with
      [ServerAuth] and [ServerAuth12] about them.
    - [Traffic]: the states after the handshake, of both sides and versions.
    - [Handlers]: inversion of handlers, and what the proofs about all sides share.
    - [ToyProvider], [Exchange], [Exchange12]: toy providers, with which a client and a
      server exchange the bytes of whole handshakes of both versions, and witnesses.
    - [EndToEnd], [Connections], [Termination]: theorems about all of this together.

    ** What is proved

    - Codecs: reading inverts encoding for every message; where the format is canonical
      encoding inverts reading; no input makes a reader panic.  ClientHello extensions are
      read back exactly, in any of the orders in which they can be sent.
    - Records: fragments join to the payload that was cut and are never too long; the
      deframer refines the reading of a record from a stream; reassembly in place gives
      the messages of the joined stream however records cut it.
    - Sending: sequence numbers are consecutive and never reach the limit of the cipher,
      the assertion that guards this never fails, nonces are never used twice, keys change
      only behind a key update, and nothing follows a fatal alert or close_notify.
    - Receiving: the receive path, the loop and the buffer, with their indices and their
      in-place changes, are a function of the byte stream alone; so they do not depend on
      how reads cut it, they terminate, and every state of a connection is sound.
    - Keys: the schedule is that of RFC 8446 over the HKDF of RFC 5869, both ends derive
      the same secrets in every stage and after every update, and no two derivations share
      an input.  The same for QUIC and for hybrid key exchange.  The PRF of TLS 1.2 is that
      of RFC 5246, and both ends cut the same keys from it.
    - Both halves: what one end writes, key updates included, the other end reads.
    - Handshakes, of a client and of a server, of TLS 1.3 and of TLS 1.2: a run from the
      first ClientHello to application traffic has negotiated what was offered and is no
      downgrade, and the peer that is reported is one that the verifier accepted (for the
      name that was asked for), whose key signed the transcript or the parameters of the
      key exchange, or that of a session which the peer was shown to know; and the
      Finished message was checked.  After a bounded number of messages a handshake has
      failed or is in application traffic.
    - Encrypted ClientHello: the outer hello does not depend on the name inside, not even
      by its length, and the holder of the private key opens it.  The encryption is that of
      RFC 9180, never repeats a nonce, and what is sealed is opened.
    - Split connections: however the calls of the two halves interleave, they return what
      the connection would have returned and send the same bytes in the same order; and the
      receiving half says when the sending half has something to flush.
    - Shared state: the certificate compression cache, with its lock taken twice per call,
      is sound under every interleaving; the session caches implement a bounded queue and
      give a session of the server's store out once; tickets are accepted for one lifetime
      at least and two at most; the age of a ticket is what the peer computes.

    ** Fuel and bounds

    A loop that is not structural takes fuel and [Panic]s without it: the message loop
    of a connection, the deframer, and the coalescing of spans are given the length of
    the input or of the list, and the theorems ([handle_all_stream], [reassembly_correct],
    [deframe_stream]) state results, so that the fuel is shown to be enough.  Sequence
    numbers wrap at 64 bits, and lengths are checked at 8, 16 and 24 bits, as in the
    source.

    ** Not modelled

    - Configuration builders, whose work is in their types, and which only fill in the
      records that are modelled.
    - Certificate verification, which is the crate [rustls-webpki] behind a trait, and the
      primitives of the providers, which are calls into [ring] and [aws-lc-rs].
    - Sockets, files and logging ([rustls-util/], [conn/kernel.rs]), and
      [Debug] and [Display].
    - Locks, except those of the compression cache and of split connections: a call of a session store or of a
      ticketer is one step.
    - The programs that test, fuzz or measure the library.
*)
From stdpp Require Export base tactics list numbers option strings gmap.
From Stdlib Require Export ZArith Lia.
From Stdlib Require Strings.Byte.
From coqutil Require Byte Word.LittleEndianList.

(** ** Machine integers and bytes

    A [u8] is a [Byte.byte]; wider unsigned integers are [Z] values with their
    range stated where it matters; [usize] values that index or measure memory
    are [nat]. *)

From Corelib Require Export Init.Byte.

Abbreviation u8 := Corelib.Init.Byte.byte.

#[global] Instance u8_eq_dec : EqDecision u8 := Stdlib.Strings.Byte.byte_eq_dec.

Module Export U8.
Import coqutil.Byte.

Definition u8_to_Z (b : u8) : Z := byte.unsigned b.

(** The Rust cast [v as u8]: truncation to the low eight bits. *)
Definition u8_of_Z (v : Z) : u8 := byte.of_Z v.

Lemma u8_to_of_Z (v : Z) : u8_to_Z (u8_of_Z v) = (v mod 2 ^ 8)%Z.
Proof. apply byte.unsigned_of_Z. Qed.

Lemma u8_of_to_Z (b : u8) : u8_of_Z (u8_to_Z b) = b.
Proof. apply byte.of_Z_unsigned. Qed.

Lemma u8_to_Z_range (b : u8) : (0 <= u8_to_Z b < 2 ^ 8)%Z.
Proof. apply byte.unsigned_range. Qed.

(** Bitwise operations on bytes. *)
Definition u8_xor (a b : u8) : u8 := u8_of_Z (Z.lxor (u8_to_Z a) (u8_to_Z b)).
Definition u8_or (a b : u8) : u8 := u8_of_Z (Z.lor (u8_to_Z a) (u8_to_Z b)).

#[global] Instance u8_to_Z_inj : Inj (=) (=) u8_to_Z.
Proof. intros a b. apply byte.unsigned_inj. Qed.
End U8.

#[global] Instance u8_inhabited : Inhabited u8 := populate x00.

Lemma Zlxor_mod_pow2 a b n :
  (0 <= n)%Z → (Z.lxor a b mod 2 ^ n = Z.lxor (a mod 2 ^ n) (b mod 2 ^ n))%Z.
Proof.
  intros Hn. apply Z.bits_inj'. intros i Hi. rewrite Z.lxor_spec.
  destruct (decide (i < n)%Z).
  - by rewrite !Z.mod_pow2_bits_low, Z.lxor_spec.
  - by rewrite !Z.mod_pow2_bits_high by lia.
Qed.

Lemma u8_xor_cancel a b : u8_xor (u8_xor a b) b = a.
Proof.
  pose proof (u8_to_Z_range a). pose proof (u8_to_Z_range b).
  unfold u8_xor at 1. unfold u8_xor. rewrite u8_to_of_Z, Zlxor_mod_pow2 by lia.
  rewrite !Z.mod_small by lia. rewrite Z.lxor_assoc, Z.lxor_nilpotent, Z.lxor_0_r.
  apply u8_of_to_Z.
Qed.

Lemma u8_xor_0_l c : u8_xor x00 c = c.
Proof. unfold u8_xor. change (u8_to_Z x00) with 0%Z. rewrite Z.lxor_0_l. apply u8_of_to_Z. Qed.

Lemma u8_xor_zero a b : u8_xor a b = x00 ↔ a = b.
Proof.
  split; [|intros ->; unfold u8_xor; by rewrite Z.lxor_nilpotent].
  intros H. by rewrite <-(u8_xor_cancel a b), H, u8_xor_0_l.
Qed.

Lemma Zlor_mod_pow2 a b n :
  (0 <= n)%Z → (Z.lor a b mod 2 ^ n = Z.lor (a mod 2 ^ n) (b mod 2 ^ n))%Z.
Proof.
  intros Hn. apply Z.bits_inj'. intros i Hi. rewrite Z.lor_spec.
  destruct (decide (i < n)%Z).
  - by rewrite !Z.mod_pow2_bits_low, Z.lor_spec.
  - by rewrite !Z.mod_pow2_bits_high by lia.
Qed.

Lemma u8_or_zero a b : u8_or a b = x00 ↔ a = x00 ∧ b = x00.
Proof.
  pose proof (u8_to_Z_range a). pose proof (u8_to_Z_range b).
  split; [|by intros [-> ->]]. intros H1%(f_equal u8_to_Z). unfold u8_or in H1.
  change (u8_to_Z x00) with 0%Z in H1.
  rewrite u8_to_of_Z, Zlor_mod_pow2, !Z.mod_small in H1 by lia.
  apply Z.lor_eq_0_iff in H1 as [Ha Hb]. split; apply u8_to_Z_inj; by rewrite ?Ha, ?Hb.
Qed.

(** A byte-string literal [b"..."]. *)
Definition byte_str (s : string) : list u8 := String.list_byte_of_string s.

Definition is_u16 (v : Z) : Prop := (0 <= v < 2 ^ 16)%Z.
Definition is_u24 (v : Z) : Prop := (0 <= v < 2 ^ 24)%Z.
Definition is_u32 (v : Z) : Prop := (0 <= v < 2 ^ 32)%Z.
Definition is_u64 (v : Z) : Prop := (0 <= v < 2 ^ 64)%Z.

(** The Rust cast [v as uN]. *)
Definition wrapN (bits : Z) (v : Z) : Z := (v mod 2 ^ bits)%Z.

Lemma wrapN_small (bits v : Z) : (0 <= v < 2 ^ bits)%Z → wrapN bits v = v.
Proof. apply Z.mod_small. Qed.

(** ** Big-endian integers ([to_be_bytes], [from_be_bytes]) *)

Module Export BigEndian.
Import coqutil.Word.LittleEndianList.

Definition be_bytes (n : nat) (v : Z) : list u8 := rev (le_split n v).
Definition be_val (bs : list u8) : Z := le_combine (rev bs).

Lemma be_bytes_length (n : nat) (v : Z) : length (be_bytes n v) = n.
Proof. unfold be_bytes. by rewrite length_rev, length_le_split. Qed.

Lemma be_val_bytes (n : nat) (v : Z) :
  be_val (be_bytes n v) = (v mod 2 ^ (Z.of_nat n * 8))%Z.
Proof. unfold be_val, be_bytes. by rewrite rev_involutive, le_combine_split. Qed.

Lemma be_val_bytes_small (n : nat) (v : Z) :
  (0 <= v < 2 ^ (Z.of_nat n * 8))%Z → be_val (be_bytes n v) = v.
Proof. intros. by rewrite be_val_bytes, Z.mod_small. Qed.

Lemma be_bytes_val (bs : list u8) : be_bytes (length bs) (be_val bs) = bs.
Proof.
  unfold be_val, be_bytes.
  rewrite <-(length_rev bs), split_le_combine. apply rev_involutive.
Qed.

Lemma be_bytes_val' (n : nat) (bs : list u8) :
  length bs = n → be_bytes n (be_val bs) = bs.
Proof. intros <-. apply be_bytes_val. Qed.

Lemma be_val_bound (bs : list u8) :
  (0 <= be_val bs < 2 ^ (8 * Z.of_nat (length bs)))%Z.
Proof.
  unfold be_val. rewrite <-(length_rev bs). apply le_combine_bound.
Qed.

Lemma be_val_inj (bs1 bs2 : list u8) :
  length bs1 = length bs2 → be_val bs1 = be_val bs2 → bs1 = bs2.
Proof.
  intros Hl Hv. rewrite <-(be_bytes_val bs1), <-(be_bytes_val bs2). congruence.
Qed.

Lemma be_bytes_4_low (v : Z) : drop 1 (be_bytes 4 v) = be_bytes 3 v.
Proof. reflexivity. Qed.

Lemma be_val_cons0 (bs : list u8) : be_val (x00 :: bs) = be_val bs.
Proof. unfold be_val. simpl rev. apply le_combine_snoc_0. Qed.

Lemma be_bytes_wrap (n : nat) (bits v : Z) :
  (Z.of_nat n * 8 <= bits)%Z → be_bytes n (wrapN bits v) = be_bytes n v.
Proof.
  intros. unfold be_bytes, wrapN. f_equal.
  rewrite (le_split_mod v), (le_split_mod (v mod 2 ^ bits)). f_equal.
  rewrite <-Znumtheory.Zmod_div_mod; [done|lia..|].
  exists (2 ^ (bits - Z.of_nat n * 8))%Z.
  rewrite <-Z.pow_add_r by lia. f_equal. lia.
Qed.

Lemma le_split_app (a b : nat) (v : Z) :
  le_split (b + a) v = le_split b v ++ le_split a (Z.shiftr v (8 * Z.of_nat b)).
Proof.
  revert v. induction b as [|b IH]; intros v; simpl.
  - by rewrite Z.shiftr_0_r.
  - change (le_split (S (b + a)) v) with (u8_of_Z v :: le_split (b + a) (Z.shiftr v 8)).
    rewrite IH, Z.shiftr_shiftr by lia.
    by replace (8 + 8 * Z.of_nat b)%Z with (8 * Z.of_nat (S b))%Z by lia.
Qed.

(** The high bytes, then the low ones. *)
Lemma be_bytes_app (a b : nat) (v : Z) :
  be_bytes (a + b) v = be_bytes a (Z.shiftr v (8 * Z.of_nat b)) ++ be_bytes b v.
Proof. unfold be_bytes. by rewrite Nat.add_comm, le_split_app, rev_app_distr. Qed.

Lemma be_bytes_0 (n : nat) : be_bytes n 0 = replicate n x00.
Proof.
  apply be_val_inj; [by rewrite be_bytes_length, length_replicate|].
  rewrite be_val_bytes, Zmod_0_l. induction n as [|n IH]; [done|].
  simpl. by rewrite be_val_cons0.
Qed.

Lemma be_bytes_pad (a b : nat) (v : Z) :
  (0 <= v < 2 ^ (8 * Z.of_nat b))%Z → be_bytes (a + b) v = replicate a x00 ++ be_bytes b v.
Proof.
  intros Hv. rewrite be_bytes_app, Z.shiftr_div_pow2, Z.div_small by lia.
  by rewrite be_bytes_0.
Qed.

Lemma be_bytes_inj (n : nat) (v w : Z) :
  (0 <= v < 2 ^ (Z.of_nat n * 8))%Z → (0 <= w < 2 ^ (Z.of_nat n * 8))%Z →
  be_bytes n v = be_bytes n w → v = w.
Proof.
  intros Hv Hw H. rewrite <-(be_val_bytes_small n v), <-(be_val_bytes_small n w) by done.
  congruence.
Qed.

Lemma be_bytes_1 (v : Z) : be_bytes 1 v = [u8_of_Z v].
Proof. reflexivity. Qed.

Lemma be_val_1 (b : u8) : be_val [b] = u8_to_Z b.
Proof. apply le_combine_1. Qed.
End BigEndian.

Arguments be_val : simpl never.
Arguments be_bytes : simpl never.

(** ** Outcomes of Rust functions

    [Ok]/[Err] are [Result]'s variants; [Panic] is an unwinding panic (failed
    [unwrap], out-of-range slice index, [assert!]). *)

Inductive result (E A : Type) : Type :=
  | Ok (a : A)
  | Err (e : E)
  | Panic.
Arguments Ok {E A} a.
Arguments Err {E A} e.
Arguments Panic {E A}.

#[global] Instance result_ret E : MRet (result E) := λ A a, Ok a.
#[global] Instance result_bind E : MBind (result E) := λ A B f m,
  match m with Ok a => f a | Err e => Err e | Panic => Panic end.
#[global] Instance result_fmap E : FMap (result E) := λ A B f m,
  match m with Ok a => Ok (f a) | Err e => Err e | Panic => Panic end.

Definition map_err {E F A} (f : E → F) (r : result E A) : result F A :=
  match r with Ok a => Ok a | Err e => Err (f e) | Panic => Panic end.

Definition ok_or {E A} (o : option A) (e : E) : result E A :=
  match o with Some a => Ok a | None => Err e end.

Definition unwrap {E A} (o : option A) : result E A :=
  match o with Some a => Ok a | None => Panic end.

Definition is_ok {E A} (r : result E A) : bool :=
  match r with Ok _ => true | _ => false end.

Lemma result_bind_ok E A B (m : result E A) (f : A → result E B) b :
  (m ≫= f) = Ok b ↔ ∃ a, m = Ok a ∧ f a = Ok b.
Proof. destruct m; naive_solver. Qed.

Lemma result_fmap_ok E A B (m : result E A) (f : A → B) b :
  (f <$> m) = Ok b ↔ ∃ a, m = Ok a ∧ b = f a.
Proof. destruct m; naive_solver. Qed.

Lemma map_err_ok E F A (f : E → F) (r : result E A) a :
  map_err f r = Ok a ↔ r = Ok a.
Proof. destruct r; naive_solver. Qed.

Lemma bind_Ok_l E A B (a : A) (f : A → result E B) : (Ok a ≫= f) = f a.
Proof. done. Qed.

Lemma map_err_Ok_l E F A (f : E → F) (a : A) : map_err f (Ok a) = Ok a.
Proof. done. Qed.

(** Step over the [?] of a call known to succeed. *)
Ltac step_ok := rewrite ?map_err_Ok_l, ?bind_Ok_l; cbv beta iota.

(** ** Stateful operations

    [action S E A] is a method taking [&mut S] and returning [Result<A, E>]: the
    state after the call is kept on every outcome, since an early return does
    not undo the mutations made before it. *)

Definition action (S E A : Type) : Type := S → S * result E A.

#[global] Instance action_ret S E : MRet (action S E) := λ A a s, (s, Ok a).
#[global] Instance action_bind S E : MBind (action S E) := λ A B f m s,
  match m s with
  | (s', Ok a) => f a s'
  | (s', Err e) => (s', Err e)
  | (s', Panic) => (s', Panic)
  end.

Section actions.
Context {S E : Type}.

Definition fail {A} (e : E) : action S E A := λ s, (s, Err e).
Definition panic {A} : action S E A := λ s, (s, Panic).
Definition lift {A} (r : result E A) : action S E A := λ s, (s, r).
Definition gets {A} (f : S → A) : action S E A := λ s, (s, Ok (f s)).
Definition modify (f : S → S) : action S E unit := λ s, (f s, Ok tt).
Definition assert_ (f : S → bool) : action S E unit := λ s,
  if f s then (s, Ok tt) else (s, Panic).

(** [let r = m;] for a fallible [m] whose error is looked at later. *)
Definition capture {S E A} (m : action S E A) : action S E (result E A) := λ s,
  match m s with
  | (s, Panic) => (s, Panic)
  | (s, r) => (s, Ok r)
  end.

(** [let _ = m;]: run for effect, ignore an error (a panic still unwinds). *)
Definition ignore_err {A} (m : action S E A) : action S E unit := λ s,
  match m s with
  | (s', Panic) => (s', Panic)
  | (s', _) => (s', Ok tt)
  end.

Lemma action_bind_run A B (m : action S E A) (f : A → action S E B) s s' r :
  (m ≫= f) s = (s', r) ↔
    (∃ s1 a, m s = (s1, Ok a) ∧ f a s1 = (s', r)) ∨
    (∃ e, m s = (s', Err e) ∧ r = Err e) ∨
    (m s = (s', Panic) ∧ r = Panic).
Proof.
  unfold mbind, action_bind. destruct (m s) as [s1 [a|e|]]; naive_solver.
Qed.

(** Invariant reasoning over an action, on every outcome. *)
Definition keeps {A} (I : S → Prop) (m : action S E A) : Prop :=
  ∀ s, I s → I (m s).1.

Lemma keeps_ret I A (a : A) : keeps I (mret a : action S E A).
Proof. by intros s. Qed.
Lemma keeps_fail I A (e : E) : keeps I (fail (A:=A) e).
Proof. by intros s. Qed.
Lemma keeps_lift I A (r : result E A) : keeps I (lift r).
Proof. by intros s. Qed.
Lemma keeps_gets I A (f : S → A) : keeps I (gets f).
Proof. by intros s. Qed.
Lemma keeps_modify I f : (∀ s, I s → I (f s)) → keeps I (modify f).
Proof. intros H s Hs. by apply H. Qed.
Lemma keeps_bind I A B (m : action S E A) (f : A → action S E B) :
  keeps I m → (∀ a, keeps I (f a)) → keeps I (m ≫= f).
Proof.
  intros Hm Hf s Hs. unfold mbind, action_bind.
  specialize (Hm s Hs). destruct (m s) as [s1 [a|e|]]; simpl in *; auto.
  by apply Hf.
Qed.
Lemma keeps_ext I A (m m' : action S E A) :
  (∀ s, m s = m' s) → keeps I m' → keeps I m.
Proof. intros He Hm s Hs. rewrite He. by apply Hm. Qed.
End actions.

Create HintDb keeps.
#[export] Hint Resolve keeps_ret keeps_fail keeps_lift keeps_gets : keeps.

(** ** Ranges and slices *)

(** [core::ops::Range<usize>]. *)
Record Range := mkRange { r_start : nat; r_end : nat }.

#[global] Instance Range_eq_dec : EqDecision Range.
Proof. solve_decision. Defined.

(** [ExactSizeIterator::len] of a range: zero when empty or inverted. *)
Definition range_len (r : Range) : nat := r_end r - r_start r.

Section slices.
Context {A : Type}.
Implicit Types (l k : list A) (r : Range).

(** [&l[lo..hi]], when in bounds. *)
Definition slice (lo hi : nat) l : list A := take (hi - lo) (drop lo l).

(** [l.get(range)]. *)
Definition get_range l r : option (list A) :=
  if decide (r_start r ≤ r_end r ∧ r_end r ≤ length l)
  then Some (slice (r_start r) (r_end r) l) else None.

(** [l.split_at_checked(mid)]. *)
Definition split_at_checked l (mid : nat) : option (list A * list A) :=
  if decide (mid ≤ length l) then Some (take mid l, drop mid l) else None.

(** [l.copy_within(from, dest)], which panics out of bounds. *)
Definition copy_within {E} l (from : Range) (dest : nat) : result E (list A) :=
  if decide (r_start from ≤ r_end from ∧ r_end from ≤ length l ∧
             dest + range_len from ≤ length l)
  then Ok (take dest l ++ slice (r_start from) (r_end from) l
           ++ drop (dest + range_len from) l)
  else Panic.

(** [dst[lo..lo+k.len()].copy_from_slice(k)], which panics out of bounds. *)
Definition write_at {E} l (lo : nat) k : result E (list A) :=
  if decide (lo + length k ≤ length l)
  then Ok (take lo l ++ k ++ drop (lo + length k) l) else Panic.

Lemma length_slice lo hi l : hi ≤ length l → length (slice lo hi l) = hi - lo.
Proof. intros. unfold slice. rewrite length_take, length_drop. lia. Qed.

Lemma slice_full l : slice 0 (length l) l = l.
Proof. unfold slice. rewrite drop_0, Nat.sub_0_r. by apply take_ge. Qed.

Lemma slice_empty lo l : slice lo lo l = [].
Proof. unfold slice. by rewrite Nat.sub_diag, take_0. Qed.

Lemma slice_app lo mid hi l :
  lo ≤ mid → mid ≤ hi → slice lo mid l ++ slice mid hi l = slice lo hi l.
Proof.
  intros. unfold slice.
  replace (hi - lo) with ((mid - lo) + (hi - mid)) by lia.
  rewrite <-(take_drop (mid - lo) (take (mid - lo + (hi - mid)) (drop lo l))).
  f_equal.
  - rewrite take_take. f_equal. lia.
  - rewrite <-take_drop_commute, drop_drop. f_equal. f_equal. lia.
Qed.

Lemma slice_prefix lo hi l k :
  hi ≤ length l → slice lo hi (l ++ k) = slice lo hi l.
Proof.
  intros. unfold slice. destruct (decide (lo ≤ hi)).
  - rewrite drop_app_le by lia. rewrite take_app_le; [done|].
    rewrite length_drop. lia.
  - replace (hi - lo) with 0 by lia. by rewrite !take_0.
Qed.

Lemma slice_shift n lo hi l : slice lo hi (drop n l) = slice (n + lo) (n + hi) l.
Proof. unfold slice. rewrite drop_drop. f_equal. lia. Qed.

Lemma slice_app_r lo hi l k :
  length l ≤ lo → slice lo hi (l ++ k) = slice (lo - length l) (hi - length l) k.
Proof.
  intros. unfold slice. rewrite drop_app_ge by lia. f_equal. lia.
Qed.

Lemma lookup_slice lo hi l i :
  slice lo hi l !! i = if decide (i < hi - lo) then l !! (lo + i) else None.
Proof.
  unfold slice. case_decide.
  - by rewrite lookup_take_lt, lookup_drop.
  - rewrite lookup_take_ge; [done|lia].
Qed.

Lemma slice_slice lo hi lo' hi' l :
  hi' ≤ hi - lo → slice lo' hi' (slice lo hi l) = slice (lo + lo') (lo + hi') l.
Proof.
  intros. apply list_eq. intros i. rewrite !lookup_slice.
  repeat case_decide; try lia; [|done]. f_equal. lia.
Qed.

Lemma slice_take lo hi n l : hi ≤ n → slice lo hi (take n l) = slice lo hi l.
Proof.
  intros. apply list_eq. intros i. rewrite !lookup_slice. case_decide; [|done].
  by rewrite lookup_take_lt by lia.
Qed.

(** Moving a range down to [dest]: what is before [dest] and after the range
    stays, and the range's bytes follow [dest]. *)
Lemma copy_within_spec {E} l from dest :
  dest ≤ r_start from → r_start from ≤ r_end from → r_end from ≤ length l →
  ∃ l', copy_within (E:=E) l from dest = Ok l' ∧ length l' = length l ∧
    take dest l' = take dest l ∧
    slice dest (dest + range_len from) l' = slice (r_start from) (r_end from) l ∧
    drop (r_end from) l' = drop (r_end from) l.
Proof.
  intros Hd Hr He. unfold copy_within. rewrite decide_True by (unfold range_len; lia).
  set (k := slice (r_start from) (r_end from) l).
  assert (length k = range_len from) as Hk by (by apply length_slice).
  assert (length (take dest l) = dest) as Ht by (rewrite length_take; lia).
  eexists. split; [done|]. unfold range_len in *.
  rewrite !length_app, length_drop, Hk, Ht. split_and!.
  - lia.
  - rewrite take_app_le, take_take by lia. f_equal. lia.
  - rewrite slice_app_r, slice_prefix by lia. rewrite Ht, Nat.sub_diag.
    replace (dest + _ - dest) with (length k) by lia. apply slice_full.
  - rewrite drop_app_ge, drop_app_ge, drop_drop by lia. f_equal. lia.
Qed.

Lemma get_range_Some l r k :
  get_range l r = Some k ↔
    r_start r ≤ r_end r ∧ r_end r ≤ length l ∧ k = slice (r_start r) (r_end r) l.
Proof. unfold get_range. case_decide; naive_solver. Qed.

Lemma split_at_checked_Some l mid k1 k2 :
  split_at_checked l mid = Some (k1, k2) ↔ l = k1 ++ k2 ∧ length k1 = mid.
Proof.
  unfold split_at_checked. case_decide.
  - split.
    + intros [= <- <-]. rewrite take_drop, length_take. split; [done|lia].
    + intros [-> <-]. by rewrite take_app_length, drop_app_length.
  - split; [done|]. intros [-> <-]. rewrite length_app in *. lia.
Qed.

Lemma split_at_checked_app l k : split_at_checked (l ++ k) (length l) = Some (l, k).
Proof. by apply split_at_checked_Some. Qed.

Lemma split_at_checked_None l mid :
  split_at_checked l mid = None ↔ length l < mid.
Proof. unfold split_at_checked. case_decide; naive_solver lia. Qed.
End slices.

(** ** Closed goals

    Proves a closed decidable fact built from conjunctions, [Forall]s over
    literal lists and existentials, by evaluation. *)
Ltac solve_closed :=
  match goal with
  | |- True => exact I
  | |- _ ∧ _ => split; solve_closed
  | |- Forall ?P ?l =>
      let k := eval hnf in l in change (Forall P k); constructor; solve_closed
  | |- ∃ _, _ => eexists; solve_closed
  | |- _ = _ => first [reflexivity | vm_compute; reflexivity]
  | |- (_ ≤ _)%nat => vm_compute; lia
  | |- _ → False => vm_compute; first [congruence | intuition congruence]
  | |- _ => progress hnf; solve_closed
  end.
