(* ===== verification/Enums.v ===== *)
(** * Protocol enumerations

    Every [enum_builder!] invocation of the crate: the wire value as a record
    around its integer (so unknown values survive, as in the source), the named
    constants and, where the code uses them, the enumeration of the known names and
    its partial inverse. *)
From S2P Require Import Prelude.

Module HandshakeType.
(* @src rustls/src/enums.rs 132-159 HandshakeType *)
Record t := new { val : u8 }.
#[global] Instance eq_dec : EqDecision t.
Proof. solve_decision. Defined.
Definition HelloRequest : t := new x00.
Definition ClientHello : t := new x01.
Definition ServerHello : t := new x02.
Definition HelloVerifyRequest : t := new x03.
Definition NewSessionTicket : t := new x04.
Definition EndOfEarlyData : t := new x05.
Definition HelloRetryRequest : t := new x06.
Definition EncryptedExtensions : t := new x08.
Definition Certificate : t := new x0b.
Definition ServerKeyExchange : t := new x0c.
Definition CertificateRequest : t := new x0d.
Definition ServerHelloDone : t := new x0e.
Definition CertificateVerify : t := new x0f.
Definition ClientKeyExchange : t := new x10.
Definition Finished : t := new x14.
Definition CertificateURL : t := new x15.
Definition CertificateStatus : t := new x16.
Definition KeyUpdate : t := new x18.
Definition CompressedCertificate : t := new x19.
Definition MessageHash : t := new xfe.
End HandshakeType.

Module ContentType.
(* @src rustls/src/enums.rs 161-173 ContentType *)
Record t := new { val : u8 }.
#[global] Instance eq_dec : EqDecision t.
Proof. solve_decision. Defined.
Definition ChangeCipherSpec : t := new x14.
Definition Alert : t := new x15.
Definition Handshake : t := new x16.
Definition ApplicationData : t := new x17.
Definition Heartbeat : t := new x18.
End ContentType.

Module ContentTypeName.
(* @src rustls/src/enums.rs 166-173 ContentTypeName *)
Inductive t :=
  | ChangeCipherSpec
  | Alert
  | Handshake
  | ApplicationData
  | Heartbeat.
(* @src rustls/src/msgs/macros.rs 94-102 TryFrom *)
Definition try_from (value : ContentType.t) : result ContentType.t t :=
  match ContentType.val value with
  | x14 => Ok ChangeCipherSpec
  | x15 => Ok Alert
  | x16 => Ok Handshake
  | x17 => Ok ApplicationData
  | x18 => Ok Heartbeat
  | _ => Err value
  end.
End ContentTypeName.

Module ProtocolVersion.
(* @src rustls/src/enums.rs 175-191 ProtocolVersion *)
Record t := new { val : Z }.
#[global] Instance eq_dec : EqDecision t.
Proof. solve_decision. Defined.
Definition SSLv2 : t := new 0x0002%Z.
Definition SSLv3 : t := new 0x0300%Z.
Definition TLSv1_0 : t := new 0x0301%Z.
Definition TLSv1_1 : t := new 0x0302%Z.
Definition TLSv1_2 : t := new 0x0303%Z.
Definition TLSv1_3 : t := new 0x0304%Z.
Definition DTLSv1_0 : t := new 0xfeff%Z.
Definition DTLSv1_2 : t := new 0xfefd%Z.
Definition DTLSv1_3 : t := new 0xfefc%Z.
End ProtocolVersion.

Module CertificateCompressionAlgorithm.
(* @src rustls/src/enums.rs 193-205 CertificateCompressionAlgorithm *)
Record t := new { val : Z }.
#[global] Instance eq_dec : EqDecision t.
Proof. solve_decision. Defined.
Definition Zlib : t := new 0x0001%Z.
Definition Brotli : t := new 0x0002%Z.
Definition Zstd : t := new 0x0003%Z.
End CertificateCompressionAlgorithm.

Module CertificateType.
(* @src rustls/src/enums.rs 207-219 CertificateType *)
Record t := new { val : u8 }.
#[global] Instance eq_dec : EqDecision t.
Proof. solve_decision. Defined.
Definition X509 : t := new x00.
Definition RawPublicKey : t := new x02.
End CertificateType.

Module EchClientHelloType.
(* @src rustls/src/enums.rs 227-239 EchClientHelloType *)
Record t := new { val : u8 }.
#[global] Instance eq_dec : EqDecision t.
Proof. solve_decision. Defined.
Definition ClientHelloOuter : t := new x00.
Definition ClientHelloInner : t := new x01.
End EchClientHelloType.

Module ClientCertificateType.
(* @src rustls/src/msgs/enums.rs 4-13 ClientCertificateType *)
Record t := new { val : u8 }.
#[global] Instance eq_dec : EqDecision t.
Proof. solve_decision. Defined.
Definition RSASign : t := new x01.
Definition ECDSASign : t := new x40.
End ClientCertificateType.

Module Compression.
(* @src rustls/src/msgs/enums.rs 15-23 Compression *)
Record t := new { val : u8 }.
#[global] Instance eq_dec : EqDecision t.
Proof. solve_decision. Defined.
Definition Null : t := new x00.
End Compression.

Module AlertLevel.
(* @src rustls/src/msgs/enums.rs 25-34 AlertLevel *)
Record t := new { val : u8 }.
#[global] Instance eq_dec : EqDecision t.
Proof. solve_decision. Defined.
Definition Warning : t := new x01.
Definition Fatal : t := new x02.
End AlertLevel.

Module AlertLevelName.
(* @src rustls/src/msgs/enums.rs 30-34 AlertLevelName *)
Inductive t :=
  | Warning
  | Fatal.
(* @src rustls/src/msgs/macros.rs 94-102 TryFrom *)
Definition try_from (value : AlertLevel.t) : result AlertLevel.t t :=
  match AlertLevel.val value with
  | x01 => Ok Warning
  | x02 => Ok Fatal
  | _ => Err value
  end.
End AlertLevelName.

Module ExtensionType.
(* @src rustls/src/msgs/enums.rs 36-85 ExtensionType *)
Record t := new { val : Z }.
#[global] Instance eq_dec : EqDecision t.
Proof. solve_decision. Defined.
Definition ServerName : t := new 0x0000%Z.
Definition MaxFragmentLength : t := new 0x0001%Z.
Definition ClientCertificateUrl : t := new 0x0002%Z.
Definition TrustedCAKeys : t := new 0x0003%Z.
Definition TruncatedHMAC : t := new 0x0004%Z.
Definition StatusRequest : t := new 0x0005%Z.
Definition UserMapping : t := new 0x0006%Z.
Definition ClientAuthz : t := new 0x0007%Z.
Definition ServerAuthz : t := new 0x0008%Z.
Definition CertificateType : t := new 0x0009%Z.
Definition EllipticCurves : t := new 0x000a%Z.
Definition ECPointFormats : t := new 0x000b%Z.
Definition SRP : t := new 0x000c%Z.
Definition SignatureAlgorithms : t := new 0x000d%Z.
Definition UseSRTP : t := new 0x000e%Z.
Definition Heartbeat : t := new 0x000f%Z.
Definition ALProtocolNegotiation : t := new 0x0010%Z.
Definition SCT : t := new 0x0012%Z.
Definition ClientCertificateType : t := new 0x0013%Z.
Definition ServerCertificateType : t := new 0x0014%Z.
Definition Padding : t := new 0x0015%Z.
Definition ExtendedMainSecret : t := new 0x0017%Z.
Definition CompressCertificate : t := new 0x001b%Z.
Definition SessionTicket : t := new 0x0023%Z.
Definition PreSharedKey : t := new 0x0029%Z.
Definition EarlyData : t := new 0x002a%Z.
Definition SupportedVersions : t := new 0x002b%Z.
Definition Cookie : t := new 0x002c%Z.
Definition PSKKeyExchangeModes : t := new 0x002d%Z.
Definition TicketEarlyDataInfo : t := new 0x002e%Z.
Definition CertificateAuthorities : t := new 0x002f%Z.
Definition OIDFilters : t := new 0x0030%Z.
Definition PostHandshakeAuth : t := new 0x0031%Z.
Definition SignatureAlgorithmsCert : t := new 0x0032%Z.
Definition KeyShare : t := new 0x0033%Z.
Definition TransportParameters : t := new 0x0039%Z.
Definition TicketRequest : t := new 0x003a%Z.
Definition NextProtocolNegotiation : t := new 0x3374%Z.
Definition ChannelId : t := new 0x754f%Z.
Definition RenegotiationInfo : t := new 0xff01%Z.
Definition EncryptedClientHello : t := new 0xfe0d%Z.
Definition EncryptedClientHelloOuterExtensions : t := new 0xfd00%Z.
End ExtensionType.

Module ExtensionTypeName.
(* @src rustls/src/msgs/enums.rs 41-85 ExtensionTypeName *)
Inductive t :=
  | ServerName
  | MaxFragmentLength
  | ClientCertificateUrl
  | TrustedCAKeys
  | TruncatedHMAC
  | StatusRequest
  | UserMapping
  | ClientAuthz
  | ServerAuthz
  | CertificateType
  | EllipticCurves
  | ECPointFormats
  | SRP
  | SignatureAlgorithms
  | UseSRTP
  | Heartbeat
  | ALProtocolNegotiation
  | SCT
  | ClientCertificateType
  | ServerCertificateType
  | Padding
  | ExtendedMainSecret
  | CompressCertificate
  | SessionTicket
  | PreSharedKey
  | EarlyData
  | SupportedVersions
  | Cookie
  | PSKKeyExchangeModes
  | TicketEarlyDataInfo
  | CertificateAuthorities
  | OIDFilters
  | PostHandshakeAuth
  | SignatureAlgorithmsCert
  | KeyShare
  | TransportParameters
  | TicketRequest
  | NextProtocolNegotiation
  | ChannelId
  | RenegotiationInfo
  | EncryptedClientHello
  | EncryptedClientHelloOuterExtensions.
(* @src rustls/src/msgs/macros.rs 94-102 TryFrom *)
Definition try_from (value : ExtensionType.t) : result ExtensionType.t t :=
  if decide (ExtensionType.val value = 0x0000%Z) then Ok ServerName else
  if decide (ExtensionType.val value = 0x0001%Z) then Ok MaxFragmentLength else
  if decide (ExtensionType.val value = 0x0002%Z) then Ok ClientCertificateUrl else
  if decide (ExtensionType.val value = 0x0003%Z) then Ok TrustedCAKeys else
  if decide (ExtensionType.val value = 0x0004%Z) then Ok TruncatedHMAC else
  if decide (ExtensionType.val value = 0x0005%Z) then Ok StatusRequest else
  if decide (ExtensionType.val value = 0x0006%Z) then Ok UserMapping else
  if decide (ExtensionType.val value = 0x0007%Z) then Ok ClientAuthz else
  if decide (ExtensionType.val value = 0x0008%Z) then Ok ServerAuthz else
  if decide (ExtensionType.val value = 0x0009%Z) then Ok CertificateType else
  if decide (ExtensionType.val value = 0x000a%Z) then Ok EllipticCurves else
  if decide (ExtensionType.val value = 0x000b%Z) then Ok ECPointFormats else
  if decide (ExtensionType.val value = 0x000c%Z) then Ok SRP else
  if decide (ExtensionType.val value = 0x000d%Z) then Ok SignatureAlgorithms else
  if decide (ExtensionType.val value = 0x000e%Z) then Ok UseSRTP else
  if decide (ExtensionType.val value = 0x000f%Z) then Ok Heartbeat else
  if decide (ExtensionType.val value = 0x0010%Z) then Ok ALProtocolNegotiation else
  if decide (ExtensionType.val value = 0x0012%Z) then Ok SCT else
  if decide (ExtensionType.val value = 0x0013%Z) then Ok ClientCertificateType else
  if decide (ExtensionType.val value = 0x0014%Z) then Ok ServerCertificateType else
  if decide (ExtensionType.val value = 0x0015%Z) then Ok Padding else
  if decide (ExtensionType.val value = 0x0017%Z) then Ok ExtendedMainSecret else
  if decide (ExtensionType.val value = 0x001b%Z) then Ok CompressCertificate else
  if decide (ExtensionType.val value = 0x0023%Z) then Ok SessionTicket else
  if decide (ExtensionType.val value = 0x0029%Z) then Ok PreSharedKey else
  if decide (ExtensionType.val value = 0x002a%Z) then Ok EarlyData else
  if decide (ExtensionType.val value = 0x002b%Z) then Ok SupportedVersions else
  if decide (ExtensionType.val value = 0x002c%Z) then Ok Cookie else
  if decide (ExtensionType.val value = 0x002d%Z) then Ok PSKKeyExchangeModes else
  if decide (ExtensionType.val value = 0x002e%Z) then Ok TicketEarlyDataInfo else
  if decide (ExtensionType.val value = 0x002f%Z) then Ok CertificateAuthorities else
  if decide (ExtensionType.val value = 0x0030%Z) then Ok OIDFilters else
  if decide (ExtensionType.val value = 0x0031%Z) then Ok PostHandshakeAuth else
  if decide (ExtensionType.val value = 0x0032%Z) then Ok SignatureAlgorithmsCert else
  if decide (ExtensionType.val value = 0x0033%Z) then Ok KeyShare else
  if decide (ExtensionType.val value = 0x0039%Z) then Ok TransportParameters else
  if decide (ExtensionType.val value = 0x003a%Z) then Ok TicketRequest else
  if decide (ExtensionType.val value = 0x3374%Z) then Ok NextProtocolNegotiation else
  if decide (ExtensionType.val value = 0x754f%Z) then Ok ChannelId else
  if decide (ExtensionType.val value = 0xff01%Z) then Ok RenegotiationInfo else
  if decide (ExtensionType.val value = 0xfe0d%Z) then Ok EncryptedClientHello else
  if decide (ExtensionType.val value = 0xfd00%Z) then Ok EncryptedClientHelloOuterExtensions else
  Err value.
End ExtensionTypeName.

Module ServerNameType.
(* @src rustls/src/msgs/enums.rs 124-132 ServerNameType *)
Record t := new { val : u8 }.
#[global] Instance eq_dec : EqDecision t.
Proof. solve_decision. Defined.
Definition HostName : t := new x00.
End ServerNameType.

Module ECPointFormat.
(* @src rustls/src/msgs/enums.rs 134-142 ECPointFormat *)
Record t := new { val : u8 }.
#[global] Instance eq_dec : EqDecision t.
Proof. solve_decision. Defined.
Definition Uncompressed : t := new x00.
End ECPointFormat.

Module ECCurveType.
(* @src rustls/src/msgs/enums.rs 144-152 ECCurveType *)
Record t := new { val : u8 }.
#[global] Instance eq_dec : EqDecision t.
Proof. solve_decision. Defined.
Definition NamedCurve : t := new x03.
End ECCurveType.

Module PskKeyExchangeMode.
(* @src rustls/src/msgs/enums.rs 154-163 PskKeyExchangeMode *)
Record t := new { val : u8 }.
#[global] Instance eq_dec : EqDecision t.
Proof. solve_decision. Defined.
Definition PSK_KE : t := new x00.
Definition PSK_DHE_KE : t := new x01.
End PskKeyExchangeMode.

Module KeyUpdateRequest.
(* @src rustls/src/msgs/enums.rs 165-174 KeyUpdateRequest *)
Record t := new { val : u8 }.
#[global] Instance eq_dec : EqDecision t.
Proof. solve_decision. Defined.
Definition UpdateNotRequested : t := new x00.
Definition UpdateRequested : t := new x01.
End KeyUpdateRequest.

Module CertificateStatusType.
(* @src rustls/src/msgs/enums.rs 176-184 CertificateStatusType *)
Record t := new { val : u8 }.
#[global] Instance eq_dec : EqDecision t.
Proof. solve_decision. Defined.
Definition OCSP : t := new x01.
End CertificateStatusType.

Module EchVersion.
(* @src rustls/src/msgs/enums.rs 186-197 EchVersion *)
Record t := new { val : Z }.
#[global] Instance eq_dec : EqDecision t.
Proof. solve_decision. Defined.
Definition V18 : t := new 0xfe0d%Z.
End EchVersion.

Module AlertDescription.
(* @src rustls/src/error/mod.rs 719-937 AlertDescription *)
Record t := new { val : u8 }.
#[global] Instance eq_dec : EqDecision t.
Proof. solve_decision. Defined.
Definition CloseNotify : t := new x00.
Definition UnexpectedMessage : t := new x0a.
Definition BadRecordMac : t := new x14.
Definition DecryptionFailed : t := new x15.
Definition RecordOverflow : t := new x16.
Definition DecompressionFailure : t := new x1e.
Definition HandshakeFailure : t := new x28.
Definition NoCertificate : t := new x29.
Definition BadCertificate : t := new x2a.
Definition UnsupportedCertificate : t := new x2b.
Definition CertificateRevoked : t := new x2c.
Definition CertificateExpired : t := new x2d.
Definition CertificateUnknown : t := new x2e.
Definition IllegalParameter : t := new x2f.
Definition UnknownCa : t := new x30.
Definition AccessDenied : t := new x31.
Definition DecodeError : t := new x32.
Definition DecryptError : t := new x33.
Definition ExportRestriction : t := new x3c.
Definition ProtocolVersion : t := new x46.
Definition InsufficientSecurity : t := new x47.
Definition InternalError : t := new x50.
Definition InappropriateFallback : t := new x56.
Definition UserCanceled : t := new x5a.
Definition NoRenegotiation : t := new x64.
Definition MissingExtension : t := new x6d.
Definition UnsupportedExtension : t := new x6e.
Definition CertificateUnobtainable : t := new x6f.
Definition UnrecognizedName : t := new x70.
Definition BadCertificateStatusResponse : t := new x71.
Definition BadCertificateHashValue : t := new x72.
Definition UnknownPskIdentity : t := new x73.
Definition CertificateRequired : t := new x74.
Definition GeneralError : t := new x75.
Definition NoApplicationProtocol : t := new x78.
Definition EncryptedClientHelloRequired : t := new x79.
End AlertDescription.

Module AlertDescriptionName.
(* @src rustls/src/error/mod.rs 727-937 AlertDescriptionName *)
Inductive t :=
  | CloseNotify
  | UnexpectedMessage
  | BadRecordMac
  | DecryptionFailed
  | RecordOverflow
  | DecompressionFailure
  | HandshakeFailure
  | NoCertificate
  | BadCertificate
  | UnsupportedCertificate
  | CertificateRevoked
  | CertificateExpired
  | CertificateUnknown
  | IllegalParameter
  | UnknownCa
  | AccessDenied
  | DecodeError
  | DecryptError
  | ExportRestriction
  | ProtocolVersion
  | InsufficientSecurity
  | InternalError
  | InappropriateFallback
  | UserCanceled
  | NoRenegotiation
  | MissingExtension
  | UnsupportedExtension
  | CertificateUnobtainable
  | UnrecognizedName
  | BadCertificateStatusResponse
  | BadCertificateHashValue
  | UnknownPskIdentity
  | CertificateRequired
  | GeneralError
  | NoApplicationProtocol
  | EncryptedClientHelloRequired.
(* @src rustls/src/msgs/macros.rs 94-102 TryFrom *)
Definition try_from (value : AlertDescription.t) : result AlertDescription.t t :=
  match AlertDescription.val value with
  | x00 => Ok CloseNotify
  | x0a => Ok UnexpectedMessage
  | x14 => Ok BadRecordMac
  | x15 => Ok DecryptionFailed
  | x16 => Ok RecordOverflow
  | x1e => Ok DecompressionFailure
  | x28 => Ok HandshakeFailure
  | x29 => Ok NoCertificate
  | x2a => Ok BadCertificate
  | x2b => Ok UnsupportedCertificate
  | x2c => Ok CertificateRevoked
  | x2d => Ok CertificateExpired
  | x2e => Ok CertificateUnknown
  | x2f => Ok IllegalParameter
  | x30 => Ok UnknownCa
  | x31 => Ok AccessDenied
  | x32 => Ok DecodeError
  | x33 => Ok DecryptError
  | x3c => Ok ExportRestriction
  | x46 => Ok ProtocolVersion
  | x47 => Ok InsufficientSecurity
  | x50 => Ok InternalError
  | x56 => Ok InappropriateFallback
  | x5a => Ok UserCanceled
  | x64 => Ok NoRenegotiation
  | x6d => Ok MissingExtension
  | x6e => Ok UnsupportedExtension
  | x6f => Ok CertificateUnobtainable
  | x70 => Ok UnrecognizedName
  | x71 => Ok BadCertificateStatusResponse
  | x72 => Ok BadCertificateHashValue
  | x73 => Ok UnknownPskIdentity
  | x74 => Ok CertificateRequired
  | x75 => Ok GeneralError
  | x78 => Ok NoApplicationProtocol
  | x79 => Ok EncryptedClientHelloRequired
  | _ => Err value
  end.
End AlertDescriptionName.

Module CipherSuite.
(* @src rustls/src/crypto/enums.rs 3-361 CipherSuite *)
Record t := new { val : Z }.
#[global] Instance eq_dec : EqDecision t.
Proof. solve_decision. Defined.
Definition TLS_DHE_RSA_WITH_AES_128_GCM_SHA256 : t := new 0x009e%Z.
Definition TLS_DHE_RSA_WITH_AES_256_GCM_SHA384 : t := new 0x009f%Z.
Definition TLS_DHE_PSK_WITH_AES_128_GCM_SHA256 : t := new 0x00aa%Z.
Definition TLS_DHE_PSK_WITH_AES_256_GCM_SHA384 : t := new 0x00ab%Z.
Definition TLS13_AES_128_GCM_SHA256 : t := new 0x1301%Z.
Definition TLS13_AES_256_GCM_SHA384 : t := new 0x1302%Z.
Definition TLS13_CHACHA20_POLY1305_SHA256 : t := new 0x1303%Z.
Definition TLS13_AES_128_CCM_SHA256 : t := new 0x1304%Z.
Definition TLS_ECDHE_ECDSA_WITH_AES_128_GCM_SHA256 : t := new 0xc02b%Z.
Definition TLS_ECDHE_ECDSA_WITH_AES_256_GCM_SHA384 : t := new 0xc02c%Z.
Definition TLS_ECDHE_RSA_WITH_AES_128_GCM_SHA256 : t := new 0xc02f%Z.
Definition TLS_ECDHE_RSA_WITH_AES_256_GCM_SHA384 : t := new 0xc030%Z.
Definition TLS_DHE_RSA_WITH_AES_128_CCM : t := new 0xc09e%Z.
Definition TLS_DHE_RSA_WITH_AES_256_CCM : t := new 0xc09f%Z.
Definition TLS_DHE_PSK_WITH_AES_128_CCM : t := new 0xc0a6%Z.
Definition TLS_DHE_PSK_WITH_AES_256_CCM : t := new 0xc0a7%Z.
Definition TLS_ECDHE_RSA_WITH_CHACHA20_POLY1305_SHA256 : t := new 0xcca8%Z.
Definition TLS_ECDHE_ECDSA_WITH_CHACHA20_POLY1305_SHA256 : t := new 0xcca9%Z.
Definition TLS_DHE_RSA_WITH_CHACHA20_POLY1305_SHA256 : t := new 0xccaa%Z.
Definition TLS_ECDHE_PSK_WITH_CHACHA20_POLY1305_SHA256 : t := new 0xccac%Z.
Definition TLS_DHE_PSK_WITH_CHACHA20_POLY1305_SHA256 : t := new 0xccad%Z.
Definition TLS_ECDHE_PSK_WITH_AES_128_GCM_SHA256 : t := new 0xd001%Z.
Definition TLS_ECDHE_PSK_WITH_AES_256_GCM_SHA384 : t := new 0xd002%Z.
Definition TLS_ECDHE_PSK_WITH_AES_128_CCM_SHA256 : t := new 0xd005%Z.
Definition TLS_RSA_WITH_AES_128_CBC_SHA : t := new 0x002f%Z.
Definition TLS_DHE_RSA_WITH_AES_128_CBC_SHA : t := new 0x0033%Z.
Definition TLS_RSA_WITH_AES_256_CBC_SHA : t := new 0x0035%Z.
Definition TLS_DHE_RSA_WITH_AES_256_CBC_SHA : t := new 0x0039%Z.
Definition TLS_RSA_WITH_AES_128_CBC_SHA256 : t := new 0x003c%Z.
Definition TLS_RSA_WITH_AES_256_CBC_SHA256 : t := new 0x003d%Z.
Definition TLS_DHE_RSA_WITH_AES_128_CBC_SHA256 : t := new 0x0067%Z.
Definition TLS_DHE_RSA_WITH_AES_256_CBC_SHA256 : t := new 0x006b%Z.
Definition TLS_PSK_WITH_AES_128_CBC_SHA : t := new 0x008c%Z.
Definition TLS_PSK_WITH_AES_256_CBC_SHA : t := new 0x008d%Z.
Definition TLS_DHE_PSK_WITH_AES_128_CBC_SHA : t := new 0x0090%Z.
Definition TLS_DHE_PSK_WITH_AES_256_CBC_SHA : t := new 0x0091%Z.
Definition TLS_RSA_PSK_WITH_AES_128_CBC_SHA : t := new 0x0094%Z.
Definition TLS_RSA_PSK_WITH_AES_256_CBC_SHA : t := new 0x0095%Z.
Definition TLS_RSA_WITH_AES_128_GCM_SHA256 : t := new 0x009c%Z.
Definition TLS_RSA_WITH_AES_256_GCM_SHA384 : t := new 0x009d%Z.
Definition TLS_PSK_WITH_AES_128_GCM_SHA256 : t := new 0x00a8%Z.
Definition TLS_PSK_WITH_AES_256_GCM_SHA384 : t := new 0x00a9%Z.
Definition TLS_RSA_PSK_WITH_AES_128_GCM_SHA256 : t := new 0x00ac%Z.
Definition TLS_RSA_PSK_WITH_AES_256_GCM_SHA384 : t := new 0x00ad%Z.
Definition TLS_PSK_WITH_AES_128_CBC_SHA256 : t := new 0x00ae%Z.
Definition TLS_PSK_WITH_AES_256_CBC_SHA384 : t := new 0x00af%Z.
Definition TLS_DHE_PSK_WITH_AES_128_CBC_SHA256 : t := new 0x00b2%Z.
Definition TLS_DHE_PSK_WITH_AES_256_CBC_SHA384 : t := new 0x00b3%Z.
Definition TLS_RSA_PSK_WITH_AES_128_CBC_SHA256 : t := new 0x00b6%Z.
Definition TLS_RSA_PSK_WITH_AES_256_CBC_SHA384 : t := new 0x00b7%Z.
Definition TLS13_SM4_GCM_SM3 : t := new 0x00c6%Z.
Definition TLS13_SM4_CCM_SM3 : t := new 0x00c7%Z.
Definition TLS_EMPTY_RENEGOTIATION_INFO_SCSV : t := new 0x00ff%Z.
Definition TLS13_AES_128_CCM_8_SHA256 : t := new 0x1305%Z.
Definition TLS_FALLBACK_SCSV : t := new 0x5600%Z.
Definition TLS_ECDHE_ECDSA_WITH_AES_128_CBC_SHA : t := new 0xc009%Z.
Definition TLS_ECDHE_ECDSA_WITH_AES_256_CBC_SHA : t := new 0xc00a%Z.
Definition TLS_ECDHE_RSA_WITH_AES_128_CBC_SHA : t := new 0xc013%Z.
Definition TLS_ECDHE_RSA_WITH_AES_256_CBC_SHA : t := new 0xc014%Z.
Definition TLS_ECDHE_ECDSA_WITH_AES_128_CBC_SHA256 : t := new 0xc023%Z.
Definition TLS_ECDHE_ECDSA_WITH_AES_256_CBC_SHA384 : t := new 0xc024%Z.
Definition TLS_ECDHE_RSA_WITH_AES_128_CBC_SHA256 : t := new 0xc027%Z.
Definition TLS_ECDHE_RSA_WITH_AES_256_CBC_SHA384 : t := new 0xc028%Z.
Definition TLS_ECDHE_PSK_WITH_AES_128_CBC_SHA : t := new 0xc035%Z.
Definition TLS_ECDHE_PSK_WITH_AES_256_CBC_SHA : t := new 0xc036%Z.
Definition TLS_ECDHE_PSK_WITH_AES_128_CBC_SHA256 : t := new 0xc037%Z.
Definition TLS_ECDHE_PSK_WITH_AES_256_CBC_SHA384 : t := new 0xc038%Z.
Definition TLS_RSA_WITH_AES_128_CCM : t := new 0xc09c%Z.
Definition TLS_RSA_WITH_AES_256_CCM : t := new 0xc09d%Z.
Definition TLS_RSA_WITH_AES_128_CCM_8 : t := new 0xc0a0%Z.
Definition TLS_RSA_WITH_AES_256_CCM_8 : t := new 0xc0a1%Z.
Definition TLS_DHE_RSA_WITH_AES_128_CCM_8 : t := new 0xc0a2%Z.
Definition TLS_DHE_RSA_WITH_AES_256_CCM_8 : t := new 0xc0a3%Z.
Definition TLS_PSK_WITH_AES_128_CCM : t := new 0xc0a4%Z.
Definition TLS_PSK_WITH_AES_256_CCM : t := new 0xc0a5%Z.
Definition TLS_PSK_WITH_AES_128_CCM_8 : t := new 0xc0a8%Z.
Definition TLS_PSK_WITH_AES_256_CCM_8 : t := new 0xc0a9%Z.
Definition TLS_PSK_DHE_WITH_AES_128_CCM_8 : t := new 0xc0aa%Z.
Definition TLS_PSK_DHE_WITH_AES_256_CCM_8 : t := new 0xc0ab%Z.
Definition TLS_ECDHE_ECDSA_WITH_AES_128_CCM : t := new 0xc0ac%Z.
Definition TLS_ECDHE_ECDSA_WITH_AES_256_CCM : t := new 0xc0ad%Z.
Definition TLS_ECDHE_ECDSA_WITH_AES_128_CCM_8 : t := new 0xc0ae%Z.
Definition TLS_ECDHE_ECDSA_WITH_AES_256_CCM_8 : t := new 0xc0af%Z.
Definition TLS_SHA256_SHA256 : t := new 0xc0b4%Z.
Definition TLS_SHA384_SHA384 : t := new 0xc0b5%Z.
Definition TLS_PSK_WITH_CHACHA20_POLY1305_SHA256 : t := new 0xccab%Z.
Definition TLS_RSA_PSK_WITH_CHACHA20_POLY1305_SHA256 : t := new 0xccae%Z.
Definition TLS_ECDHE_PSK_WITH_AES_128_CCM_8_SHA256 : t := new 0xd003%Z.
End CipherSuite.

Module SignatureScheme.
(* @src rustls/src/crypto/enums.rs 363-389 SignatureScheme *)
Record t := new { val : Z }.
#[global] Instance eq_dec : EqDecision t.
Proof. solve_decision. Defined.
Definition RSA_PKCS1_SHA1 : t := new 0x0201%Z.
Definition ECDSA_SHA1_Legacy : t := new 0x0203%Z.
Definition RSA_PKCS1_SHA256 : t := new 0x0401%Z.
Definition ECDSA_NISTP256_SHA256 : t := new 0x0403%Z.
Definition RSA_PKCS1_SHA384 : t := new 0x0501%Z.
Definition ECDSA_NISTP384_SHA384 : t := new 0x0503%Z.
Definition RSA_PKCS1_SHA512 : t := new 0x0601%Z.
Definition ECDSA_NISTP521_SHA512 : t := new 0x0603%Z.
Definition SM2_SM3 : t := new 0x0708%Z.
Definition RSA_PSS_SHA256 : t := new 0x0804%Z.
Definition RSA_PSS_SHA384 : t := new 0x0805%Z.
Definition RSA_PSS_SHA512 : t := new 0x0806%Z.
Definition ED25519 : t := new 0x0807%Z.
Definition ED448 : t := new 0x0808%Z.
Definition ML_DSA_44 : t := new 0x0904%Z.
Definition ML_DSA_65 : t := new 0x0905%Z.
Definition ML_DSA_87 : t := new 0x0906%Z.
End SignatureScheme.

Module HashAlgorithm.
(* @src rustls/src/crypto/enums.rs 450-464 HashAlgorithm *)
Record t := new { val : u8 }.
#[global] Instance eq_dec : EqDecision t.
Proof. solve_decision. Defined.
Definition NONE : t := new x00.
Definition MD5 : t := new x01.
Definition SHA1 : t := new x02.
Definition SHA224 : t := new x03.
Definition SHA256 : t := new x04.
Definition SHA384 : t := new x05.
Definition SHA512 : t := new x06.
End HashAlgorithm.

Module SignatureAlgorithm.
(* @src rustls/src/crypto/enums.rs 492-505 SignatureAlgorithm *)
Record t := new { val : u8 }.
#[global] Instance eq_dec : EqDecision t.
Proof. solve_decision. Defined.
Definition Anonymous : t := new x00.
Definition RSA : t := new x01.
Definition DSA : t := new x02.
Definition ECDSA : t := new x03.
Definition ED25519 : t := new x07.
Definition ED448 : t := new x08.
End SignatureAlgorithm.

Module NamedGroup.
(* @src rustls/src/crypto/kx/mod.rs 525-567 NamedGroup *)
Record t := new { val : Z }.
#[global] Instance eq_dec : EqDecision t.
Proof. solve_decision. Defined.
Definition secp256r1 : t := new 0x0017%Z.
Definition secp384r1 : t := new 0x0018%Z.
Definition secp521r1 : t := new 0x0019%Z.
Definition X25519 : t := new 0x001d%Z.
Definition X448 : t := new 0x001e%Z.
Definition brainpoolP256r1tls13 : t := new 0x001f%Z.
Definition brainpoolP384r1tls13 : t := new 0x0020%Z.
Definition brainpoolP512r1tls13 : t := new 0x0021%Z.
Definition curveSM2 : t := new 0x0029%Z.
Definition FFDHE2048 : t := new 0x0100%Z.
Definition FFDHE3072 : t := new 0x0101%Z.
Definition FFDHE4096 : t := new 0x0102%Z.
Definition FFDHE6144 : t := new 0x0103%Z.
Definition FFDHE8192 : t := new 0x0104%Z.
Definition MLKEM512 : t := new 0x0200%Z.
Definition MLKEM768 : t := new 0x0201%Z.
Definition MLKEM1024 : t := new 0x0202%Z.
Definition secp256r1MLKEM768 : t := new 0x11eb%Z.
Definition X25519MLKEM768 : t := new 0x11ec%Z.
Definition secp384r1MLKEM1024 : t := new 0x11ed%Z.
End NamedGroup.

Module HpkeKem.
(* @src rustls/src/crypto/hpke.rs 170-184 HpkeKem *)
Record t := new { val : Z }.
#[global] Instance eq_dec : EqDecision t.
Proof. solve_decision. Defined.
Definition DHKEM_P256_HKDF_SHA256 : t := new 0x0010%Z.
Definition DHKEM_P384_HKDF_SHA384 : t := new 0x0011%Z.
Definition DHKEM_P521_HKDF_SHA512 : t := new 0x0012%Z.
Definition DHKEM_X25519_HKDF_SHA256 : t := new 0x0020%Z.
Definition DHKEM_X448_HKDF_SHA512 : t := new 0x0021%Z.
End HpkeKem.

Module HpkeKdf.
(* @src rustls/src/crypto/hpke.rs 186-198 HpkeKdf *)
Record t := new { val : Z }.
#[global] Instance eq_dec : EqDecision t.
Proof. solve_decision. Defined.
Definition HKDF_SHA256 : t := new 0x0001%Z.
Definition HKDF_SHA384 : t := new 0x0002%Z.
Definition HKDF_SHA512 : t := new 0x0003%Z.
End HpkeKdf.

Module HpkeAead.
(* @src rustls/src/crypto/hpke.rs 207-220 HpkeAead *)
Record t := new { val : Z }.
#[global] Instance eq_dec : EqDecision t.
Proof. solve_decision. Defined.
Definition AES_128_GCM : t := new 0x0001%Z.
Definition AES_256_GCM : t := new 0x0002%Z.
Definition CHACHA20_POLY_1305 : t := new 0x0003%Z.
Definition EXPORT_ONLY : t := new 0xffff%Z.
End HpkeAead.

(* @src rustls/src/msgs/enums.rs 96-111 ExtensionType::ech_compress *)
Definition ech_compress (e : ExtensionType.t) : bool :=
  bool_decide (e ∈ [ExtensionType.StatusRequest; ExtensionType.EllipticCurves;
    ExtensionType.SignatureAlgorithms; ExtensionType.SignatureAlgorithmsCert;
    ExtensionType.ALProtocolNegotiation; ExtensionType.SupportedVersions;
    ExtensionType.Cookie; ExtensionType.KeyShare;
    ExtensionType.PSKKeyExchangeModes]).

(* @src rustls/src/msgs/enums.rs 118-121 ExtensionType::is_recognized *)
Definition is_recognized (e : ExtensionType.t) : bool :=
  is_ok (ExtensionTypeName.try_from e).
