(* ===== verification/Errors.v ===== *)
(** * Error values

    The error enumerations of [rustls/src/error/mod.rs] and the mapping from an
    error to the alert that reports it.  Fields whose type belongs to another
    crate ([UnixTime], [AlgorithmIdentifier], [ServerName], boxed errors) only
    feed [Display] and equality and are left out; [RejectedEch] keeps whether
    retry configurations are present. *)
From S2P Require Import Prelude Enums.

Module KeyExchangeAlgorithm.
(* @src rustls/src/crypto/kx/mod.rs 651-658 KeyExchangeAlgorithm *)
Inductive t := DHE | ECDHE.
#[global] Instance eq_dec : EqDecision t.
Proof. solve_decision. Defined.
End KeyExchangeAlgorithm.

Module InconsistentKeys.
(* @src rustls/src/crypto/signer.rs 480-490 InconsistentKeys *)
Inductive t := KeyMismatch | Unknown.
End InconsistentKeys.

Module ExtendedKeyPurpose.
(* @src rustls/src/error/mod.rs 1357-1366 ExtendedKeyPurpose *)
Inductive t := ClientAuth | ServerAuth | Other (values : list nat).
End ExtendedKeyPurpose.

Module RejectedEch.
(* @src rustls/src/error/mod.rs 1520-1524 RejectedEch *)
Record t := new { can_retry : bool }.
End RejectedEch.

Module InvalidMessage.
(* @src rustls/src/error/mod.rs 1077-1138 InvalidMessage *)
Inductive t :=
  | CertificatePayloadTooLarge
  | HandshakePayloadTooLarge
  | InvalidCcs
  | InvalidContentType
  | InvalidCertificateStatusType
  | InvalidCertRequest
  | InvalidDhParams
  | InvalidEmptyPayload
  | InvalidKeyUpdate
  | InvalidServerName
  | MessageTooLarge
  | MessageTooShort
  | MisplacedExtension (a0 : Z)
  | MissingData (a0 : string)
  | MissingKeyExchange
  | NoSignatureSchemes
  | TrailingData (a0 : string)
  | UnexpectedMessage (a0 : string)
  | UnknownProtocolVersion
  | UnsupportedCompression
  | UnsupportedCurveType
  | UnsupportedKeyExchangeAlgorithm (a0 : KeyExchangeAlgorithm.t)
  | EmptyTicketValue
  | IllegalEmptyList (a0 : string)
  | DuplicateExtension (a0 : Z)
  | PreSharedKeyIsNotFinalExtension
  | UnknownHelloRetryRequestExtension
  | UnknownCertificateExtension
  | IllegalEmptyCertificateAuthoritiesExtension.
End InvalidMessage.

Module PeerMisbehaved.
(* @src rustls/src/error/mod.rs 1167-1256 PeerMisbehaved *)
Inductive t :=
  | AttemptedDowngradeToTls12WhenTls13IsSupported
  | BadCertChainExtensions
  | CipherSuiteDifferedOnRetry
  | DisallowedEncryptedExtension
  | DuplicateClientHelloExtensions
  | DuplicateEncryptedExtensions
  | DuplicateHelloRetryRequestExtensions
  | DuplicateNewSessionTicketExtensions
  | DuplicateServerHelloExtensions
  | DuplicateServerNameTypes
  | EarlyDataAttemptedInSecondClientHello
  | EarlyDataExtensionWithoutResumption
  | EarlyDataOfferedWithVariedCipherSuite
  | EchAcceptanceVariedAfterRetry
  | EmptyFragment
  | HandshakeHashVariedAfterRetry
  | IllegalAlertLevel (a0 : u8) (a1 : AlertDescription.t)
  | IllegalHelloRetryRequestWithEmptyCookie
  | IllegalHelloRetryRequestWithNoChanges
  | IllegalHelloRetryRequestWithOfferedGroup
  | IllegalHelloRetryRequestWithUnofferedCipherSuite
  | IllegalHelloRetryRequestWithUnofferedNamedGroup
  | IllegalHelloRetryRequestWithUnsupportedVersion
  | IllegalHelloRetryRequestWithWrongSessionId
  | IllegalHelloRetryRequestWithInvalidEch
  | IllegalMiddleboxChangeCipherSpec
  | IllegalTlsInnerPlaintext
  | IllegalWarningAlert (a0 : AlertDescription.t)
  | IncorrectBinder
  | IncorrectFinished
  | InvalidCertCompression
  | InvalidMaxEarlyDataSize
  | InvalidKeyShare
  | KeyEpochWithPendingFragment
  | KeyUpdateReceivedInQuicConnection
  | MessageInterleavedWithHandshakeMessage
  | MissingBinderInPskExtension
  | MissingKeyShare
  | MissingPskExtensionInSecondClientHello
  | MissingPskModesExtension
  | MissingQuicTransportParameters
  | NoCertificatesPresented
  | NonEmptyRenegotiationInfo
  | OfferedDuplicateCertificateCompressions
  | OfferedDuplicateKeyShares
  | OfferedEarlyDataWithOldProtocolVersion
  | OfferedEmptyApplicationProtocol
  | OfferedIncorrectCompressions
  | PskExtensionMustBeLast
  | PskExtensionWithMismatchedIdsAndBinders
  | RefusedToFollowHelloRetryRequest
  | RejectedEarlyDataInterleavedWithHandshakeMessage
  | ResumptionAttemptedWithVariedEms
  | ResumptionOfferedWithVariedCipherSuite
  | ResumptionOfferedWithVariedEms
  | ResumptionOfferedWithIncompatibleCipherSuite
  | SelectedDifferentCipherSuiteAfterRetry
  | SelectedDifferentProtocolVersionAfterRetry
  | SelectedInvalidPsk
  | SelectedTls12UsingTls13VersionExtension
  | SelectedUnofferedApplicationProtocol
  | SelectedUnofferedCertCompression
  | SelectedUnofferedCipherSuite
  | SelectedUnofferedCompression
  | SelectedUnofferedKxGroup
  | SelectedUnofferedPsk
  | ServerEchoedCompatibilitySessionId
  | ServerHelloMustOfferUncompressedEcPoints
  | ServerNameDifferedOnRetry
  | ServerNameMustContainOneHostName
  | SignedKxWithWrongAlgorithm
  | SignedHandshakeWithUnadvertisedSigScheme
  | TooManyEmptyFragments
  | TooManyConsecutiveHandshakeMessagesAfterHandshake
  | TooManyRenegotiationRequests
  | TooManyWarningAlertsReceived
  | TooMuchEarlyDataReceived
  | UnexpectedCleartextExtension
  | UnmatchedSessionId
  | UnsolicitedCertExtension
  | UnsolicitedEncryptedExtension
  | UnsolicitedSctList
  | UnsolicitedServerHelloExtension
  | WrongGroupForKeyShare
  | UnsolicitedEchExtension
  | IllegalTls13ContentType.
End PeerMisbehaved.

Module PeerIncompatible.
(* @src rustls/src/error/mod.rs 1304-1329 PeerIncompatible *)
Inductive t :=
  | EcPointsExtensionRequired
  | ExtendedMainSecretExtensionRequired
  | IncorrectCertificateTypeExtension
  | KeyShareExtensionRequired
  | MultipleRawKeys
  | NamedGroupsExtensionRequired
  | NoCertificateRequestSignatureSchemesInCommon
  | NoCipherSuitesInCommon
  | NoEcPointFormatsInCommon
  | NoKxGroupsInCommon
  | NoSignatureSchemesInCommon
  | NoServerNameProvided
  | NullCompressionRequired
  | ServerDoesNotSupportTls12Or13
  | ServerSentHelloRetryRequestWithUnknownExtension
  | ServerTlsVersionIsDisabledByOurConfig
  | SignatureAlgorithmsExtensionRequired
  | SupportedVersionsExtensionRequired
  | Tls12NotOffered
  | Tls12NotOfferedOrEnabled
  | Tls13RequiredForQuic
  | UncompressedEcPointsRequired
  | UnknownCertificateType (a0 : u8)
  | UnsolicitedCertificateTypeExtension.
End PeerIncompatible.

Module CertificateError.
(* @src rustls/src/error/mod.rs 346-484 CertificateError *)
Inductive t :=
  | BadEncoding
  | Expired
  | ExpiredContext
  | NotValidYet
  | NotValidYetContext
  | Revoked
  | UnhandledCriticalExtension
  | UnknownIssuer
  | UnknownRevocationStatus
  | ExpiredRevocationList
  | ExpiredRevocationListContext
  | BadSignature
  | UnsupportedSignatureAlgorithm (signature_algorithm_id : list u8)
  | UnsupportedSignatureAlgorithmForPublicKey (signature_algorithm_id : list u8) (public_key_algorithm_id : list u8)
  | NotValidForName
  | NotValidForNameContext (presented : list string)
  | InvalidPurpose
  | InvalidPurposeContext (required : ExtendedKeyPurpose.t) (presented : list ExtendedKeyPurpose.t)
  | InvalidOcspResponse
  | ApplicationVerificationFailure
  | Other.
End CertificateError.

Module CertRevocationListError.
(* @src rustls/src/error/mod.rs 1401-1456 CertRevocationListError *)
Inductive t :=
  | BadSignature
  | UnsupportedSignatureAlgorithm (signature_algorithm_id : list u8)
  | UnsupportedSignatureAlgorithmForPublicKey (signature_algorithm_id : list u8) (public_key_algorithm_id : list u8)
  | InvalidCrlNumber
  | InvalidRevokedCertSerialNumber
  | IssuerInvalidForCrl
  | Other
  | ParseError
  | UnsupportedCrlVersion
  | UnsupportedCriticalExtension
  | UnsupportedDeltaCrl
  | UnsupportedIndirectCrl
  | UnsupportedRevocationReason.
End CertRevocationListError.

Module EncryptedClientHelloError.
(* @src rustls/src/error/mod.rs 1506-1513 EncryptedClientHelloError *)
Inductive t :=
  | InvalidConfigList
  | NoCompatibleConfig
  | SniRequired.
End EncryptedClientHelloError.

Module ApiMisuse.
(* @src rustls/src/error/mod.rs 1562-1720 ApiMisuse *)
Inductive t :=
  | ResumingFromUnknownCipherSuite (a0 : CipherSuite.t)
  | ExporterNotAvailable
  | ExporterContextTooLong
  | ExporterOutputTooLong
  | ExporterOutputZeroLength
  | InvalidQuicHeaderProtectionSampleLength
  | InvalidQuicHeaderProtectionPacketNumberLength
  | InvalidSignerForProtocolVersion
  | QuicRequiresTls13Support
  | NoQuicCompatibleCipherSuites
  | EmptyCertificateChain
  | QuicRestrictsMaxEarlyDataSize
  | NoCipherSuitesConfigured
  | NoKeyExchangeGroupsConfigured
  | NoSignatureVerificationAlgorithms
  | EchRequiresTls13Support
  | EchForbidsTls12Support
  | SecretExtractionRequiresPriorOptIn
  | UnverifiableCertificateType
  | NoSupportedCertificateTypes
  | NonceArraySizeMismatch (expected : nat) (actual : nat)
  | IvLengthExceedsMaximum (actual : nat) (maximum : nat)
  | ResumptionDataProvidedTooLate
  | KeyUpdateNotAvailableForTls12
  | KernelSessionTicketHandlingNotAvailableForTls12
  | SplitDuringHandshake
  | EncryptBufferTooSmall (required : nat) (provided : nat)
  | WriteBeforeHandshakeComplete
  | WriteAfterSendPathClosed
  | KernelConnectionWithPendingSendData.
End ApiMisuse.

Module Error.
(* @src rustls/src/error/mod.rs 24-158 Error *)
Inductive t :=
  | InappropriateMessage (expect_types : list ContentType.t) (got_type : ContentType.t)
  | InappropriateHandshakeMessage (expect_types : list HandshakeType.t) (got_type : HandshakeType.t)
  | InvalidEncryptedClientHello (a0 : EncryptedClientHelloError.t)
  | InvalidMessage (a0 : InvalidMessage.t)
  | UnsupportedNameType
  | DecryptError
  | EncryptError
  | PeerIncompatible (a0 : PeerIncompatible.t)
  | PeerMisbehaved (a0 : PeerMisbehaved.t)
  | AlertReceived (a0 : AlertDescription.t)
  | InvalidCertificate (a0 : CertificateError.t)
  | InvalidCertRevocationList (a0 : CertRevocationListError.t)
  | General (a0 : string)
  | FailedToGetCurrentTime
  | FailedToGetRandomBytes
  | HandshakeNotComplete
  | PeerSentOversizedRecord
  | NoApplicationProtocol
  | NoSuitableCertificate
  | BadMaxFragmentSize
  | InconsistentKeys (a0 : InconsistentKeys.t)
  | RejectedEch (a0 : RejectedEch.t)
  | Unreachable (a0 : string)
  | ApiMisuse (a0 : ApiMisuse.t)
  | Other.
End Error.

#[global] Instance InvalidMessage_eq_dec : EqDecision InvalidMessage.t.
Proof. solve_decision. Defined.

(** ** Error to alert *)

(* @src rustls/src/error/mod.rs 1140-1152 From<InvalidMessage> *)
Definition alert_of_invalid_message (e : InvalidMessage.t) : AlertDescription.t :=
  match e with
  | InvalidMessage.PreSharedKeyIsNotFinalExtension
  | InvalidMessage.DuplicateExtension _
  | InvalidMessage.MisplacedExtension _
  | InvalidMessage.UnsupportedCompression => AlertDescription.IllegalParameter
  | InvalidMessage.UnknownHelloRetryRequestExtension =>
      AlertDescription.UnsupportedExtension
  | InvalidMessage.CertificatePayloadTooLarge => AlertDescription.BadCertificate
  | _ => AlertDescription.DecodeError
  end.

(* @src rustls/src/error/mod.rs 1258-1293 From<PeerMisbehaved> *)
Definition alert_of_peer_misbehaved (e : PeerMisbehaved.t) : AlertDescription.t :=
  match e with
  | PeerMisbehaved.DisallowedEncryptedExtension
  | PeerMisbehaved.IllegalHelloRetryRequestWithInvalidEch
  | PeerMisbehaved.UnexpectedCleartextExtension
  | PeerMisbehaved.UnsolicitedEchExtension
  | PeerMisbehaved.UnsolicitedEncryptedExtension
  | PeerMisbehaved.UnsolicitedServerHelloExtension =>
      AlertDescription.UnsupportedExtension
  | PeerMisbehaved.IllegalMiddleboxChangeCipherSpec
  | PeerMisbehaved.KeyEpochWithPendingFragment
  | PeerMisbehaved.KeyUpdateReceivedInQuicConnection
  | PeerMisbehaved.IllegalTls13ContentType => AlertDescription.UnexpectedMessage
  | PeerMisbehaved.IllegalWarningAlert _ => AlertDescription.DecodeError
  | PeerMisbehaved.IncorrectBinder
  | PeerMisbehaved.IncorrectFinished => AlertDescription.DecryptError
  | PeerMisbehaved.InvalidCertCompression
  | PeerMisbehaved.SelectedUnofferedCertCompression =>
      AlertDescription.BadCertificate
  | PeerMisbehaved.MissingKeyShare
  | PeerMisbehaved.MissingPskExtensionInSecondClientHello
  | PeerMisbehaved.MissingPskModesExtension
  | PeerMisbehaved.MissingQuicTransportParameters =>
      AlertDescription.MissingExtension
  | PeerMisbehaved.NoCertificatesPresented => AlertDescription.CertificateRequired
  | PeerMisbehaved.NonEmptyRenegotiationInfo => AlertDescription.HandshakeFailure
  | _ => AlertDescription.IllegalParameter
  end.

(* @src rustls/src/error/mod.rs 1331-1349 From<PeerIncompatible> *)
Definition alert_of_peer_incompatible (e : PeerIncompatible.t) : AlertDescription.t :=
  match e with
  | PeerIncompatible.NullCompressionRequired => AlertDescription.IllegalParameter
  | PeerIncompatible.ServerTlsVersionIsDisabledByOurConfig
  | PeerIncompatible.SupportedVersionsExtensionRequired
  | PeerIncompatible.Tls12NotOffered
  | PeerIncompatible.Tls12NotOfferedOrEnabled
  | PeerIncompatible.Tls13RequiredForQuic => AlertDescription.ProtocolVersion
  | PeerIncompatible.KeyShareExtensionRequired => AlertDescription.MissingExtension
  | PeerIncompatible.UnknownCertificateType _ =>
      AlertDescription.UnsupportedCertificate
  | _ => AlertDescription.HandshakeFailure
  end.

(* @src rustls/src/error/mod.rs 587-621 From<&CertificateError> *)
Definition alert_of_certificate_error (e : CertificateError.t) : AlertDescription.t :=
  match e with
  | CertificateError.BadEncoding
  | CertificateError.UnhandledCriticalExtension
  | CertificateError.NotValidForName
  | CertificateError.NotValidForNameContext _ => AlertDescription.BadCertificate
  | CertificateError.Expired
  | CertificateError.ExpiredContext
  | CertificateError.NotValidYet
  | CertificateError.NotValidYetContext => AlertDescription.CertificateExpired
  | CertificateError.Revoked => AlertDescription.CertificateRevoked
  | CertificateError.UnknownIssuer
  | CertificateError.UnknownRevocationStatus
  | CertificateError.ExpiredRevocationList
  | CertificateError.ExpiredRevocationListContext => AlertDescription.UnknownCa
  | CertificateError.InvalidOcspResponse =>
      AlertDescription.BadCertificateStatusResponse
  | CertificateError.BadSignature
  | CertificateError.UnsupportedSignatureAlgorithm _
  | CertificateError.UnsupportedSignatureAlgorithmForPublicKey _ _ =>
      AlertDescription.DecryptError
  | CertificateError.InvalidPurpose
  | CertificateError.InvalidPurposeContext _ _ =>
      AlertDescription.UnsupportedCertificate
  | CertificateError.ApplicationVerificationFailure => AlertDescription.AccessDenied
  | CertificateError.Other => AlertDescription.CertificateUnknown
  end.

(* @src rustls/src/error/mod.rs 163-184 TryFrom<&Error> *)
Definition alert_of_error (error : Error.t) : option AlertDescription.t :=
  match error with
  | Error.DecryptError => Some AlertDescription.BadRecordMac
  | Error.InappropriateMessage _ _
  | Error.InappropriateHandshakeMessage _ _ =>
      Some AlertDescription.UnexpectedMessage
  | Error.InvalidCertificate e => Some (alert_of_certificate_error e)
  | Error.InvalidMessage e => Some (alert_of_invalid_message e)
  | Error.NoApplicationProtocol => Some AlertDescription.NoApplicationProtocol
  | Error.PeerMisbehaved e => Some (alert_of_peer_misbehaved e)
  | Error.PeerIncompatible e => Some (alert_of_peer_incompatible e)
  | Error.PeerSentOversizedRecord => Some AlertDescription.RecordOverflow
  | Error.RejectedEch _ => Some AlertDescription.EncryptedClientHelloRequired
  | Error.General _ => Some AlertDescription.GeneralError
  | _ => None
  end.
