(* ===== verification/Codec.v ===== *)
(** * The TLS presentation-language codec ([rustls/src/msgs/codec.rs])

    [Reader] is the unread suffix of a buffer, so a reading function takes the
    buffer and returns its value with what is left.  [Codec] is the trait of the
    same name; [CodecLaws] is what a client of a codec relies on: encoding only
    appends, decoding inverts encoding, and (for canonical codecs) encoding
    inverts decoding. *)
From S2P Require Import Prelude Enums Errors.

(** ** Reader *)

(** A function from [&mut Reader<'a>]: after an error the reader is never used
    again, so only a success carries the remaining bytes. *)
Definition reader (A : Type) : Type :=
  list u8 → result InvalidMessage.t (A * list u8).

#[global] Instance reader_ret : MRet reader := λ A a buf, Ok (a, buf).
#[global] Instance reader_bind : MBind reader := λ A B f m buf,
  match m buf with
  | Ok (a, rest) => f a rest
  | Err e => Err e
  | Panic => Panic
  end.
#[global] Instance reader_fmap : FMap reader := λ A B f m buf,
  match m buf with
  | Ok (a, rest) => Ok (f a, rest)
  | Err e => Err e
  | Panic => Panic
  end.

Definition reader_fail {A} (e : InvalidMessage.t) : reader A := λ _, Err e.

Definition reader_lift {A} (r : result InvalidMessage.t A) : reader A := λ buf,
  (λ a, (a, buf)) <$> r.

Module Reader.
(* @src rustls/src/msgs/codec.rs 515-518 Reader::any_left *)
Definition any_left (buffer : list u8) : bool := negb (bool_decide (buffer = [])).

(* @src rustls/src/msgs/codec.rs 520-523 Reader::left *)
Definition left (buffer : list u8) : nat := length buffer.

(* @src rustls/src/msgs/codec.rs 460-471 Reader::all *)
Definition all {T} (type_name : string) (f : reader T) : reader T := λ buffer,
  match f buffer with
  | Ok (value, rest) =>
      if any_left rest then Err (InvalidMessage.TrailingData type_name)
      else Ok (value, rest)
  | Err e => Err e
  | Panic => Panic
  end.

(* @src rustls/src/msgs/codec.rs 499-506 Reader::take *)
Definition take (length : nat) (buffer : list u8) : option (list u8 * list u8) :=
  split_at_checked buffer length.

(* @src rustls/src/msgs/codec.rs 473-481 Reader::sub *)
Definition sub (length : nat) : reader (list u8) := λ buffer,
  match take length buffer with
  | Some (bytes, rest) => Ok (bytes, rest)
  | None => Err InvalidMessage.MessageTooShort
  end.

(* @src rustls/src/msgs/codec.rs 483-497 Reader::take_array *)
Definition take_array (n : nat) (ty : string) : reader (list u8) := λ buffer,
  match split_at_checked buffer n with
  | Some (chunk, rest) => Ok (chunk, rest)
  | None => Err (InvalidMessage.MissingData ty)
  end.

(* @src rustls/src/msgs/codec.rs 508-513 Reader::rest *)
Definition rest : reader (list u8) := λ buffer, Ok (buffer, []).

(** Use of a sub-reader: [f] runs on the bytes of [sub], whatever it leaves is
    dropped, and the outer reader is where it was. *)
Definition within {T} (sub : list u8) (f : reader T) : reader T := λ buffer,
  match f sub with
  | Ok (v, _) => Ok (v, buffer)
  | Err e => Err e
  | Panic => Panic
  end.
End Reader.

(** ** The trait *)

(* @src rustls/src/msgs/codec.rs 413-441 Codec *)
Class Codec (T : Type) := {
  encode : T → list u8 → list u8;
  read : reader T;
}.

(* @src rustls/src/msgs/codec.rs 425-431 Codec::get_encoding *)
Definition get_encoding `{Codec T} (v : T) : list u8 := encode v [].

(* @src rustls/src/msgs/codec.rs 433-440 Codec::read_bytes *)
Definition read_bytes `{Codec T} (bytes : list u8) : result InvalidMessage.t T :=
  fst <$> Reader.all "read_bytes" read bytes.

(** What clients rely on.  [valid] is the set of values that have an encoding
    (bounded lengths, integers in range). *)
Class CodecLaws (T : Type) `{Codec T} (valid : T → Prop) := {
  encode_app v bytes : encode v bytes = bytes ++ get_encoding v;
  read_encode v rest : valid v → read (get_encoding v ++ rest) = Ok (v, rest);
}.

Class CanonicalCodec (T : Type) `{Codec T} (valid : T → Prop) := {
  read_inv bs v rest :
    read bs = Ok (v, rest) → valid v ∧ bs = get_encoding v ++ rest;
}.

(** Every encoding has a byte, as the elements of a list need. *)
Class NonEmptyEncoding (T : Type) `{Codec T} (valid : T → Prop) : Prop :=
  encoding_nonempty v : valid v → get_encoding v ≠ [].

(** A reader that never panics, whatever bytes it is given. *)
Definition total {T} (r : reader T) : Prop := ∀ bs, r bs ≠ Panic.

Class TotalRead (T : Type) `{Codec T} : Prop := read_total : total (T:=T) read.

(** ** Integers *)

(* @src rustls/src/msgs/codec.rs 324-332 Codec_for_u8 *)
#[global] Instance u8_codec : Codec u8 := {
  encode v bytes := bytes ++ [v];
  read := b ← Reader.take_array 1 "u8"; mret (hd x00 b);
}.

(* @src rustls/src/msgs/codec.rs 334-337 put_u16 *)
Definition put_u16 {E} (v : Z) (out : list u8) : result E (list u8) :=
  if decide (2 ≤ length out) then write_at out 0 (be_bytes 2 v) else Panic.

(* @src rustls/src/msgs/codec.rs 340-344 u16::encode *)
Definition u16_encode (v : Z) (bytes : list u8) : list u8 := bytes ++ be_bytes 2 v.

(* @src rustls/src/msgs/codec.rs 346-349 u16::read *)
Definition u16_read : reader Z := b ← Reader.take_array 2 "u16"; mret (be_val b).

(* @src rustls/src/msgs/codec.rs 365-368 U24::encode *)
Definition u24_encode (v : Z) (bytes : list u8) : list u8 :=
  bytes ++ drop 1 (be_bytes 4 v).

(* @src rustls/src/msgs/codec.rs 370-373 U24::read *)
Definition u24_read : reader Z :=
  b ← Reader.take_array 3 "u24"; mret (be_val (x00 :: b)).

(* @src rustls/src/msgs/codec.rs 377-379 u32::encode *)
Definition u32_encode (v : Z) (bytes : list u8) : list u8 := bytes ++ be_bytes 4 v.

(* @src rustls/src/msgs/codec.rs 381-384 u32::read *)
Definition u32_read : reader Z := b ← Reader.take_array 4 "u32"; mret (be_val b).

(* @src rustls/src/msgs/codec.rs 387-390 put_u64 *)
Definition put_u64 {E} (v : Z) (bytes : list u8) : result E (list u8) :=
  if decide (8 ≤ length bytes) then write_at bytes 0 (be_bytes 8 v) else Panic.

(* @src rustls/src/msgs/codec.rs 393-397 u64::encode *)
Definition u64_encode (v : Z) (bytes : list u8) : list u8 := bytes ++ be_bytes 8 v.

(* @src rustls/src/msgs/codec.rs 399-402 u64::read *)
Definition u64_read : reader Z := b ← Reader.take_array 8 "u64"; mret (be_val b).

(* @src rustls/src/msgs/codec.rs 405-411 Codec_for_() *)
#[global] Instance unit_codec : Codec unit := {
  encode _ bytes := bytes;
  read := Reader.all "Empty" (mret tt);
}.

(** ** Length prefixes *)

Module ListLength.
(* @src rustls/src/msgs/codec.rs 536-560 ListLength *)
Inductive t :=
  | NonZeroU8 (empty_error : InvalidMessage.t)
  | U16
  | NonZeroU16 (empty_error : InvalidMessage.t)
  | U24 (max : Z) (error : InvalidMessage.t)
  | NonZeroU24 (max : Z) (empty_error too_many_error : InvalidMessage.t).

(* @src rustls/src/msgs/codec.rs 563-588 ListLength::read *)
Definition read (self : t) : reader nat :=
  match self with
  | NonZeroU8 empty_error =>
      b ← (Codec.read : reader u8);
      let len := u8_to_Z b in
      if decide (len = 0%Z) then reader_fail empty_error else mret (Z.to_nat len)
  | U16 => len ← u16_read; mret (Z.to_nat len)
  | NonZeroU16 empty_error =>
      len ← u16_read;
      if decide (len = 0%Z) then reader_fail empty_error else mret (Z.to_nat len)
  | U24 max error =>
      len ← u24_read;
      if decide (len > max)%Z then reader_fail error else mret (Z.to_nat len)
  | NonZeroU24 max empty_error too_many_error =>
      len ← u24_read;
      if decide (len = 0%Z) then reader_fail empty_error
      else if decide (len > max)%Z then reader_fail too_many_error
      else mret (Z.to_nat len)
  end.

(** Width in bytes of the length prefix. *)
Definition width (self : t) : nat :=
  match self with
  | NonZeroU8 _ => 1
  | U16 | NonZeroU16 _ => 2
  | U24 _ _ | NonZeroU24 _ _ _ => 3
  end.

(** The body lengths [read] accepts. *)
Definition accepts (self : t) (len : nat) : Prop :=
  (Z.of_nat len < 2 ^ (8 * Z.of_nat (width self)))%Z ∧
  match self with
  | NonZeroU8 _ | NonZeroU16 _ => len ≠ 0
  | U16 => True
  | U24 max _ => (Z.of_nat len <= max)%Z
  | NonZeroU24 max _ _ => len ≠ 0 ∧ (Z.of_nat len <= max)%Z
  end.
End ListLength.

Module LengthPrefixedBuffer.
(* @src rustls/src/msgs/codec.rs 266-271 LengthPrefixedBuffer *)
Record t := mk { buf : list u8; len_offset : nat; size_len : ListLength.t }.

(* @src rustls/src/msgs/codec.rs 274-291 LengthPrefixedBuffer::new *)
Definition new (size_len : ListLength.t) (buf : list u8) : t :=
  {| len_offset := length buf;
     buf := buf ++
       match size_len with
       | ListLength.NonZeroU8 _ => [xff]
       | ListLength.U16 | ListLength.NonZeroU16 _ => [xff; xff]
       | ListLength.U24 _ _ | ListLength.NonZeroU24 _ _ _ => [xff; xff; xff]
       end;
     size_len := size_len |}.

(* @src rustls/src/msgs/codec.rs 295-321 LengthPrefixedBuffer::drop *)
Definition drop {E} (self : t) : result E (list u8) :=
  match size_len self with
  | ListLength.NonZeroU8 _ =>
      if decide (len_offset self + 1 ≤ length (buf self)) then
        let len := length (buf self) - len_offset self - 1 in
        write_at (buf self) (len_offset self) [u8_of_Z (Z.of_nat len)]
      else Panic
  | ListLength.U16 | ListLength.NonZeroU16 _ =>
      if decide (len_offset self + 2 ≤ length (buf self)) then
        let len := length (buf self) - len_offset self - 2 in
        write_at (buf self) (len_offset self) (be_bytes 2 (wrapN 16 (Z.of_nat len)))
      else Panic
  | ListLength.U24 _ _ | ListLength.NonZeroU24 _ _ _ =>
      if decide (len_offset self + 3 ≤ length (buf self)) then
        let len := length (buf self) - len_offset self - 3 in
        let len_bytes := be_bytes 4 (wrapN 32 (Z.of_nat len)) in
        write_at (buf self) (len_offset self) (list.drop 1 len_bytes)
      else Panic
  end.

(** The idiom [let nest = LengthPrefixedBuffer::new(s, bytes); body(nest.buf)]:
    the buffer once [nest] goes out of scope.  [drop] cannot panic when [body]
    appends ([nest_spec] below), so the last case is not reached. *)
Definition nest (s : ListLength.t) (body : list u8 → list u8) (bytes : list u8)
    : list u8 :=
  let n := new s bytes in
  match drop (E:=unit) {| buf := body (buf n); len_offset := len_offset n;
                          size_len := size_len n |} with
  | Ok b => b
  | Err _ | Panic => buf n
  end.
End LengthPrefixedBuffer.

(** ** Lists *)

(* @src rustls/src/msgs/codec.rs 526-534 TlsListElement *)
Class TlsListElement (T : Type) := SIZE_LEN : ListLength.t.

Section vec.
Context {T : Type} `{!Codec T, !TlsListElement T}.

(* @src rustls/src/msgs/codec.rs 223-230 TlsListIter::new *)
Definition TlsListIter_new : reader (list u8) :=
  len ← ListLength.read SIZE_LEN; Reader.sub len.

(* @src rustls/src/msgs/codec.rs 236-241 TlsListIter::next *)
Definition TlsListIter_next (sub : list u8)
    : option (result InvalidMessage.t (T * list u8)) :=
  if Reader.any_left sub then Some (read sub) else None.

(** Exhausting the iterator.  Each element takes at least one byte, so
    [length sub] calls are enough ([read_items_fuel]); a codec that took none
    would make the loop diverge, which is the [Panic] of the fuel running out. *)
(* @src rustls/src/msgs/codec.rs 256-263 Vec::read *)
Fixpoint read_items (fuel : nat) (sub : list u8) : result InvalidMessage.t (list T) :=
  match TlsListIter_next sub with
  | None => Ok []
  | Some item =>
      match fuel with
      | O => Panic
      | S fuel =>
          '(x, rest) ← item;
          xs ← read_items fuel rest;
          mret (x :: xs)
      end
  end.

(* @src rustls/src/msgs/codec.rs 244-264 Codec_for_Vec *)
#[global] Instance vec_codec : Codec (list T) := {
  encode self bytes :=
    LengthPrefixedBuffer.nest SIZE_LEN
      (λ buf, fold_left (λ buf i, encode i buf) self buf) bytes;
  read :=
    sub ← TlsListIter_new;
    reader_lift (read_items (length sub) sub);
}.
End vec.

(** ** Length-delimited payloads *)

(** [Payload<'a>] with its ownership erased: borrowed or owned bytes. *)
Definition Payload : Type := list u8.

(* @src rustls/src/crypto/cipher/messages.rs 520-528 Codec_for_Payload *)
#[global] Instance Payload_codec : Codec Payload := {
  encode self bytes := bytes ++ self;
  read := Reader.rest;
}.

Module PayloadSize.
(** The implementors of the trait [PayloadSize]: [u8], [u16] and [U24]. *)
Inductive t := U8 | U16 | U24.

(* @src rustls/src/msgs/codec.rs 120-142 PayloadSize::length *)
Definition length (self : t) (bytes : list u8) : Z :=
  match self with
  | U24 => wrapN 32 (Z.of_nat (List.length bytes))
  | U16 => wrapN 16 (Z.of_nat (List.length bytes))
  | U8 => wrapN 8 (Z.of_nat (List.length bytes))
  end.

(* @src rustls/src/msgs/codec.rs 120-148 PayloadSize::MAX *)
Definition MAX (self : t) : Z :=
  match self with U24 => 0xFFFFFF | U16 => 0xFFFF | U8 => 0xFF end.

Definition encode (self : t) (v : Z) (bytes : list u8) : list u8 :=
  match self with
  | U24 => u24_encode v bytes
  | U16 => u16_encode v bytes
  | U8 => Codec.encode (u8_of_Z v) bytes
  end.

Definition read (self : t) : reader nat :=
  match self with
  | U24 => Z.to_nat <$> u24_read
  | U16 => Z.to_nat <$> u16_read
  | U8 => (λ b, Z.to_nat (u8_to_Z b)) <$> (Codec.read : reader u8)
  end.
End PayloadSize.

Module Cardinality.
(* @src rustls/src/msgs/codec.rs 150-152 Cardinality *)
Inductive t := MaybeEmpty | NonEmpty.

(* @src rustls/src/msgs/codec.rs 150-166 Cardinality::MIN *)
Definition MIN (self : t) : nat :=
  match self with MaybeEmpty => 0 | NonEmpty => 1 end.
End Cardinality.

(* @src rustls/src/msgs/codec.rs 12-17 SizedPayload *)
Record SizedPayload (L : PayloadSize.t) (C : Cardinality.t) :=
  mkSizedPayload { sp_inner : Payload }.
Arguments mkSizedPayload {L C}.
Arguments sp_inner {L C}.

(* @src rustls/src/msgs/codec.rs 61-81 Codec_for_SizedPayload *)
#[global] Instance SizedPayload_codec L C : Codec (SizedPayload L C) := {
  encode self bytes :=
    let inner := sp_inner self in
    PayloadSize.encode L (PayloadSize.length L inner) bytes ++ inner;
  read :=
    len ← PayloadSize.read L;
    if decide (len < Cardinality.MIN C)
    then reader_fail (InvalidMessage.IllegalEmptyList "SizedPayload")
    else sub ← Reader.sub len;
         Reader.within sub (mkSizedPayload <$> (read : reader Payload));
}.

(* @src rustls/src/msgs/codec.rs 602-607 CERTIFICATE_MAX_SIZE_LIMIT *)
Definition CERTIFICATE_MAX_SIZE_LIMIT : Z := 0x10000.

(** [CertificateDer]: DER bytes of a certificate. *)
Record CertificateDer := mkCertificateDer { der : list u8 }.

(* @src rustls/src/msgs/codec.rs 188-193 CertificateDer::SIZE_LEN *)
#[global] Instance CertificateDer_list : TlsListElement CertificateDer :=
  ListLength.U24 CERTIFICATE_MAX_SIZE_LIMIT InvalidMessage.CertificatePayloadTooLarge.

(* @src rustls/src/msgs/codec.rs 168-186 Codec_for_CertificateDer *)
#[global] Instance CertificateDer_codec : Codec CertificateDer := {
  encode self bytes :=
    LengthPrefixedBuffer.nest (SIZE_LEN (T:=CertificateDer))
      (λ buf, buf ++ der self) bytes;
  read :=
    len ← ListLength.read
      (ListLength.NonZeroU24 CERTIFICATE_MAX_SIZE_LIMIT
         (InvalidMessage.IllegalEmptyList "CertificateDer")
         InvalidMessage.CertificatePayloadTooLarge);
    sub ← Reader.sub len;
    Reader.within sub (mkCertificateDer <$> Reader.rest);
}.

(** [SubjectPublicKeyInfoDer]: DER bytes of a raw public key. *)
Record SubjectPublicKeyInfoDer := mkSubjectPublicKeyInfoDer { spki : list u8 }.

(* @src rustls/src/msgs/codec.rs 209-211 SubjectPublicKeyInfoDer::SIZE_LEN *)
#[global] Instance SubjectPublicKeyInfoDer_list : TlsListElement SubjectPublicKeyInfoDer :=
  SIZE_LEN (T:=CertificateDer).

(* @src rustls/src/msgs/codec.rs 195-207 Codec_for_SubjectPublicKeyInfoDer *)
#[global] Instance SubjectPublicKeyInfoDer_codec : Codec SubjectPublicKeyInfoDer := {
  encode self bytes :=
    LengthPrefixedBuffer.nest (SIZE_LEN (T:=SubjectPublicKeyInfoDer))
      (λ buf, buf ++ spki self) bytes;
  read :=
    len ← ListLength.read (SIZE_LEN (T:=SubjectPublicKeyInfoDer));
    sub ← Reader.sub len;
    Reader.within sub (mkSubjectPublicKeyInfoDer <$> Reader.rest);
}.

(** ** Protocol enumerations *)

(* @src rustls/src/msgs/macros.rs 50-61 Codec_for_struct_name *)
Definition enum_codec {U X} (enc : U → list u8 → list u8) (rd : reader U)
    (new : U → X) (val : X → U) (struct_name : string) : Codec X := {|
  encode self bytes := enc (val self) bytes;
  read := λ r, match rd r with
               | Ok (x, r') => Ok (new x, r')
               | Err _ => Err (InvalidMessage.MissingData struct_name)
               | Panic => Panic
               end;
|}.

#[global] Instance HandshakeType_codec : Codec HandshakeType.t :=
  enum_codec encode read HandshakeType.new HandshakeType.val "HandshakeType".
#[global] Instance ContentType_codec : Codec ContentType.t :=
  enum_codec encode read ContentType.new ContentType.val "ContentType".
#[global] Instance ProtocolVersion_codec : Codec ProtocolVersion.t :=
  enum_codec u16_encode u16_read ProtocolVersion.new ProtocolVersion.val "ProtocolVersion".
#[global] Instance CertificateCompressionAlgorithm_codec : Codec CertificateCompressionAlgorithm.t :=
  enum_codec u16_encode u16_read CertificateCompressionAlgorithm.new CertificateCompressionAlgorithm.val "CertificateCompressionAlgorithm".
#[global] Instance CertificateType_codec : Codec CertificateType.t :=
  enum_codec encode read CertificateType.new CertificateType.val "CertificateType".
#[global] Instance EchClientHelloType_codec : Codec EchClientHelloType.t :=
  enum_codec encode read EchClientHelloType.new EchClientHelloType.val "EchClientHelloType".
#[global] Instance ClientCertificateType_codec : Codec ClientCertificateType.t :=
  enum_codec encode read ClientCertificateType.new ClientCertificateType.val "ClientCertificateType".
#[global] Instance Compression_codec : Codec Compression.t :=
  enum_codec encode read Compression.new Compression.val "Compression".
#[global] Instance AlertLevel_codec : Codec AlertLevel.t :=
  enum_codec encode read AlertLevel.new AlertLevel.val "AlertLevel".
#[global] Instance ExtensionType_codec : Codec ExtensionType.t :=
  enum_codec u16_encode u16_read ExtensionType.new ExtensionType.val "ExtensionType".
#[global] Instance ServerNameType_codec : Codec ServerNameType.t :=
  enum_codec encode read ServerNameType.new ServerNameType.val "ServerNameType".
#[global] Instance ECPointFormat_codec : Codec ECPointFormat.t :=
  enum_codec encode read ECPointFormat.new ECPointFormat.val "ECPointFormat".
#[global] Instance ECCurveType_codec : Codec ECCurveType.t :=
  enum_codec encode read ECCurveType.new ECCurveType.val "ECCurveType".
#[global] Instance PskKeyExchangeMode_codec : Codec PskKeyExchangeMode.t :=
  enum_codec encode read PskKeyExchangeMode.new PskKeyExchangeMode.val "PskKeyExchangeMode".
#[global] Instance KeyUpdateRequest_codec : Codec KeyUpdateRequest.t :=
  enum_codec encode read KeyUpdateRequest.new KeyUpdateRequest.val "KeyUpdateRequest".
#[global] Instance CertificateStatusType_codec : Codec CertificateStatusType.t :=
  enum_codec encode read CertificateStatusType.new CertificateStatusType.val "CertificateStatusType".
#[global] Instance EchVersion_codec : Codec EchVersion.t :=
  enum_codec u16_encode u16_read EchVersion.new EchVersion.val "EchVersion".
#[global] Instance AlertDescription_codec : Codec AlertDescription.t :=
  enum_codec encode read AlertDescription.new AlertDescription.val "AlertDescription".
#[global] Instance CipherSuite_codec : Codec CipherSuite.t :=
  enum_codec u16_encode u16_read CipherSuite.new CipherSuite.val "CipherSuite".
#[global] Instance SignatureScheme_codec : Codec SignatureScheme.t :=
  enum_codec u16_encode u16_read SignatureScheme.new SignatureScheme.val "SignatureScheme".
#[global] Instance HashAlgorithm_codec : Codec HashAlgorithm.t :=
  enum_codec encode read HashAlgorithm.new HashAlgorithm.val "HashAlgorithm".
#[global] Instance SignatureAlgorithm_codec : Codec SignatureAlgorithm.t :=
  enum_codec encode read SignatureAlgorithm.new SignatureAlgorithm.val "SignatureAlgorithm".
#[global] Instance NamedGroup_codec : Codec NamedGroup.t :=
  enum_codec u16_encode u16_read NamedGroup.new NamedGroup.val "NamedGroup".
#[global] Instance HpkeKem_codec : Codec HpkeKem.t :=
  enum_codec u16_encode u16_read HpkeKem.new HpkeKem.val "HpkeKem".
#[global] Instance HpkeKdf_codec : Codec HpkeKdf.t :=
  enum_codec u16_encode u16_read HpkeKdf.new HpkeKdf.val "HpkeKdf".
#[global] Instance HpkeAead_codec : Codec HpkeAead.t :=
  enum_codec u16_encode u16_read HpkeAead.new HpkeAead.val "HpkeAead".

(** ** Laws of the readers *)

Lemma any_left_spec bs : Reader.any_left bs = true ↔ bs ≠ [].
Proof. unfold Reader.any_left. rewrite negb_true_iff. apply bool_decide_eq_false. Qed.

Lemma take_array_app n ty (b rest : list u8) :
  length b = n → Reader.take_array n ty (b ++ rest) = Ok (b, rest).
Proof. intros <-. unfold Reader.take_array. by rewrite split_at_checked_app. Qed.

Lemma take_array_inv n ty bs b rest :
  Reader.take_array n ty bs = Ok (b, rest) → bs = b ++ rest ∧ length b = n.
Proof.
  unfold Reader.take_array. destruct split_at_checked as [[k1 k2]|] eqn:E; [|done].
  intros [= <- <-]. by apply split_at_checked_Some in E.
Qed.

Lemma sub_app (b rest : list u8) : Reader.sub (length b) (b ++ rest) = Ok (b, rest).
Proof. unfold Reader.sub, Reader.take. by rewrite split_at_checked_app. Qed.

Lemma sub_inv n bs b rest :
  Reader.sub n bs = Ok (b, rest) → bs = b ++ rest ∧ length b = n.
Proof.
  unfold Reader.sub, Reader.take.
  destruct split_at_checked as [[k1 k2]|] eqn:E; [|done].
  intros [= <- <-]. by apply split_at_checked_Some in E.
Qed.

Lemma reader_bind_Ok {A B} (m : reader A) (f : A → reader B) bs b rest :
  (m ≫= f) bs = Ok (b, rest) ↔ ∃ a r1, m bs = Ok (a, r1) ∧ f a r1 = Ok (b, rest).
Proof.
  unfold mbind, reader_bind. destruct (m bs) as [[a r1]|e|]; naive_solver.
Qed.

Lemma reader_fmap_Ok {A B} (m : reader A) (f : A → B) bs b rest :
  (f <$> m) bs = Ok (b, rest) ↔ ∃ a, m bs = Ok (a, rest) ∧ b = f a.
Proof.
  unfold fmap, reader_fmap. destruct (m bs) as [[a r1]|e|]; naive_solver.
Qed.

Lemma reader_all_Ok {A} ty (f : reader A) bs v rest :
  Reader.all ty f bs = Ok (v, rest) ↔ rest = [] ∧ f bs = Ok (v, []).
Proof.
  unfold Reader.all. destruct (f bs) as [[a r1]|e|]; [|naive_solver..].
  destruct (Reader.any_left r1) eqn:E.
  - apply any_left_spec in E. naive_solver.
  - destruct r1; [naive_solver|done].
Qed.

(** Decomposes a hypothesis [f bs = Ok (v, rest)] on a composed reader;
    [reader_hook] is extended with the inversion lemmas of the basic readers. *)
Ltac reader_hook := fail.
Ltac reader_inv :=
  repeat match goal with
  | H : (_ ≫= _) _ = Ok _ |- _ => apply reader_bind_Ok in H as (? & ? & ? & H)
  | H : (_ <$> _) _ = Ok _ |- _ => apply reader_fmap_Ok in H as (? & H & ?)
  | H : mret _ _ = Ok _ |- _ => injection H as ? ?
  | H : Reader.within _ (_ <$> _) _ = Ok _ |- _ => injection H as ? ?
  | H : reader_fail _ _ = Ok _ |- _ => discriminate H
  | H : Reader.take_array _ _ _ = Ok _ |- _ => apply take_array_inv in H as [? ?]
  | H : Reader.sub _ _ = Ok _ |- _ => apply sub_inv in H as [? ?]
  | H : (if decide ?P then _ else _) _ = Ok _ |- _ => destruct (decide P)
  | _ => reader_hook
  end; simplify_eq.

(** ** Readers that do not panic *)

Create HintDb total discriminated.

Lemma total_bind {A B} (m : reader A) (f : A → reader B) :
  total m → (∀ a, total (f a)) → total (m ≫= f).
Proof.
  intros Hm Hf bs. unfold mbind, reader_bind. specialize (Hm bs).
  destruct (m bs) as [[a r]| |]; [apply Hf|done..].
Qed.

Lemma total_fmap {A B} (m : reader A) (f : A → B) : total m → total (f <$> m).
Proof.
  intros Hm bs. unfold fmap, reader_fmap. specialize (Hm bs). by destruct (m bs) as [[]| |].
Qed.

Lemma total_ret {A} (a : A) : total (mret a).
Proof. done. Qed.

Lemma total_fail {A} e : total (reader_fail (A:=A) e).
Proof. done. Qed.

Lemma total_decide {A P} `{Decision P} (r1 r2 : reader A) :
  total r1 → total r2 → total (if decide P then r1 else r2).
Proof. by case_decide. Qed.

Lemma total_take_array n ty : total (Reader.take_array n ty).
Proof. intros bs. unfold Reader.take_array. by destruct split_at_checked as [[]|]. Qed.

Lemma total_sub n : total (Reader.sub n).
Proof. intros bs. unfold Reader.sub. by destruct Reader.take as [[]|]. Qed.

Lemma total_rest : total Reader.rest.
Proof. done. Qed.

Lemma total_all {A} ty (f : reader A) : total f → total (Reader.all ty f).
Proof.
  intros Hf bs. unfold Reader.all. specialize (Hf bs). destruct (f bs) as [[v r]| |]; try done.
  by destruct (Reader.any_left r).
Qed.

Lemma total_within {A} sub (f : reader A) : total f → total (Reader.within sub f).
Proof.
  intros Hf bs. unfold Reader.within. specialize (Hf sub). by destruct (f sub) as [[]| |].
Qed.

#[export] Hint Resolve total_bind total_fmap total_ret total_fail total_decide
  total_take_array total_sub total_rest total_all total_within : total.
#[export] Hint Extern 1 (total read) => apply read_total : total.

#[global] Instance u8_total : TotalRead u8.
Proof. unfold TotalRead. cbn [read u8_codec]. auto with total. Qed.

Lemma total_u16 : total u16_read.
Proof. unfold u16_read. auto with total. Qed.

Lemma total_u24 : total u24_read.
Proof. unfold u24_read. auto with total. Qed.

Lemma total_u32 : total u32_read.
Proof. unfold u32_read. auto with total. Qed.

Lemma total_u64 : total u64_read.
Proof. unfold u64_read. auto with total. Qed.

#[export] Hint Resolve total_u16 total_u24 total_u32 total_u64 : total.

Lemma total_list_length s : total (ListLength.read s).
Proof. destruct s; cbn [ListLength.read]; auto 6 with total. Qed.

#[export] Hint Resolve total_list_length : total.

(** ** Integer laws *)

Lemma u24_encode_be v bytes : u24_encode v bytes = bytes ++ be_bytes 3 v.
Proof. unfold u24_encode. by rewrite be_bytes_4_low. Qed.

Section int_laws.
Variables (n : nat) (ty : string).

(** Every integer codec is [be_bytes]/[be_val] at its width. *)
Definition be_read : reader Z := b ← Reader.take_array n ty; mret (be_val b).

Lemma be_read_app v rest :
  (0 <= v < 2 ^ (Z.of_nat n * 8))%Z → be_read (be_bytes n v ++ rest) = Ok (v, rest).
Proof.
  intros. unfold be_read, mbind, reader_bind.
  rewrite take_array_app by apply be_bytes_length.
  by rewrite be_val_bytes_small.
Qed.

Lemma be_read_inv bs v rest :
  be_read bs = Ok (v, rest) →
  (0 <= v < 2 ^ (8 * Z.of_nat n))%Z ∧ bs = be_bytes n v ++ rest.
Proof.
  unfold be_read. intros H. reader_inv. split.
  - apply be_val_bound.
  - by rewrite be_bytes_val.
Qed.
End int_laws.

Lemma u24_read_be bs : u24_read bs = be_read 3 "u24" bs.
Proof.
  unfold u24_read, be_read, mbind, reader_bind.
  destruct Reader.take_array as [[b r]|e|]; [|done..]. by rewrite be_val_cons0.
Qed.

Lemma u16_read_app v rest :
  is_u16 v → u16_read (be_bytes 2 v ++ rest) = Ok (v, rest).
Proof. apply (be_read_app 2 "u16"). Qed.

Lemma u16_read_inv bs v rest :
  u16_read bs = Ok (v, rest) → is_u16 v ∧ bs = be_bytes 2 v ++ rest.
Proof. apply (be_read_inv 2 "u16"). Qed.

Lemma u24_read_app v rest :
  is_u24 v → u24_read (be_bytes 3 v ++ rest) = Ok (v, rest).
Proof. rewrite u24_read_be. apply (be_read_app 3 "u24"). Qed.

Lemma u24_read_inv bs v rest :
  u24_read bs = Ok (v, rest) → is_u24 v ∧ bs = be_bytes 3 v ++ rest.
Proof. rewrite u24_read_be. apply (be_read_inv 3 "u24"). Qed.

Lemma u32_read_app v rest :
  is_u32 v → u32_read (be_bytes 4 v ++ rest) = Ok (v, rest).
Proof. apply (be_read_app 4 "u32"). Qed.

Lemma u32_read_inv bs v rest :
  u32_read bs = Ok (v, rest) → is_u32 v ∧ bs = be_bytes 4 v ++ rest.
Proof. apply (be_read_inv 4 "u32"). Qed.

Lemma u64_read_app v rest :
  is_u64 v → u64_read (be_bytes 8 v ++ rest) = Ok (v, rest).
Proof. apply (be_read_app 8 "u64"). Qed.

Lemma u64_read_inv bs v rest :
  u64_read bs = Ok (v, rest) → is_u64 v ∧ bs = be_bytes 8 v ++ rest.
Proof. apply (be_read_inv 8 "u64"). Qed.

Lemma u8_read_app (v : u8) rest : read (v :: rest) = Ok (v, rest).
Proof. done. Qed.

Lemma u8_read_inv bs (v : u8) rest : read bs = Ok (v, rest) → bs = v :: rest.
Proof.
  simpl. intros H. reader_inv. by destruct x as [|b [|]]; simplify_eq/=.
Qed.

Ltac reader_hook ::=
  match goal with
  | H : u16_read _ = Ok _ |- _ => apply u16_read_inv in H as [? ?]
  | H : u24_read _ = Ok _ |- _ => apply u24_read_inv in H as [? ?]
  | H : u32_read _ = Ok _ |- _ => apply u32_read_inv in H as [? ?]
  | H : u64_read _ = Ok _ |- _ => apply u64_read_inv in H as [? ?]
  | H : @read u8 _ _ = Ok _ |- _ => apply u8_read_inv in H
  end.

#[global] Instance u8_codec_laws : CodecLaws u8 (λ _, True).
Proof. by split. Qed.

#[global] Instance u8_codec_canonical : CanonicalCodec u8 (λ _, True).
Proof. split. intros bs v rest ->%u8_read_inv. done. Qed.

(** ** Length-prefix laws *)

Lemma write_at_prefix {E} (bytes hole k patch : list u8) :
  length patch = length hole →
  write_at (E:=E) (bytes ++ hole ++ k) (length bytes) patch = Ok (bytes ++ patch ++ k).
Proof.
  intros Hl. unfold write_at. rewrite decide_True by (rewrite !length_app; lia).
  do 2 f_equal; [by rewrite take_app_length|]. f_equal.
  rewrite Hl, app_assoc, drop_app_length'; [done|]. by rewrite length_app.
Qed.

Lemma lpb_drop_spec {E} s (bytes hole k : list u8) :
  length hole = ListLength.width s →
  LengthPrefixedBuffer.drop (E:=E)
    {| LengthPrefixedBuffer.buf := bytes ++ hole ++ k;
       LengthPrefixedBuffer.len_offset := length bytes;
       LengthPrefixedBuffer.size_len := s |}
  = Ok (bytes ++ be_bytes (ListLength.width s) (Z.of_nat (length k)) ++ k).
Proof.
  intros Hh. unfold LengthPrefixedBuffer.drop. cbn [LengthPrefixedBuffer.buf
    LengthPrefixedBuffer.len_offset LengthPrefixedBuffer.size_len].
  assert (length (bytes ++ hole ++ k) - length bytes - ListLength.width s = length k)
    as Hlen by (rewrite !length_app; lia).
  destruct s; cbn [ListLength.width] in *; rewrite Hlen;
    (rewrite decide_True by (rewrite !length_app; lia));
    rewrite <-?be_bytes_1; rewrite ?be_bytes_4_low, ?be_bytes_wrap by lia;
    apply write_at_prefix; by rewrite be_bytes_length.
Qed.

(** The nested buffer, once dropped, is the body's length followed by the body;
    [drop] does not panic since the body only appends. *)
Lemma nest_spec s body bytes k :
  (∀ b, body b = b ++ k) →
  LengthPrefixedBuffer.nest s body bytes =
    bytes ++ be_bytes (ListLength.width s) (Z.of_nat (length k)) ++ k.
Proof.
  intros Hb. unfold LengthPrefixedBuffer.nest, LengthPrefixedBuffer.new. simpl.
  rewrite Hb, <-(assoc_L (++)), lpb_drop_spec; [done|]. by destruct s.
Qed.

Lemma list_length_read_app s (len : nat) rest :
  ListLength.accepts s len →
  ListLength.read s (be_bytes (ListLength.width s) (Z.of_nat len) ++ rest)
    = Ok (len, rest).
Proof.
  intros [Hb Ha].
  assert (∀ n ty, n = ListLength.width s →
    be_read n ty (be_bytes n (Z.of_nat len) ++ rest) = Ok (Z.of_nat len, rest)) as Hr.
  { intros n ty ->. apply be_read_app. rewrite Z.mul_comm. lia. }
  destruct s; cbn [ListLength.width ListLength.read] in *;
    unfold mbind, reader_bind, mret, reader_ret.
  - rewrite be_bytes_1. simpl. rewrite u8_to_of_Z, Z.mod_small by lia.
    rewrite decide_False by lia. by rewrite Nat2Z.id.
  - change u16_read with (be_read 2 "u16"). rewrite Hr by done. by rewrite Nat2Z.id.
  - change u16_read with (be_read 2 "u16"). rewrite Hr by done.
    rewrite decide_False by lia. by rewrite Nat2Z.id.
  - rewrite u24_read_be, Hr by done. rewrite decide_False by lia. by rewrite Nat2Z.id.
  - rewrite u24_read_be, Hr by done. destruct Ha.
    rewrite !decide_False by lia. by rewrite Nat2Z.id.
Qed.

Lemma list_length_read_inv s bs len rest :
  ListLength.read s bs = Ok (len, rest) →
  ListLength.accepts s len ∧
  bs = be_bytes (ListLength.width s) (Z.of_nat len) ++ rest.
Proof.
  unfold ListLength.accepts.
  destruct s; cbn [ListLength.width ListLength.read]; intros H; reader_inv;
    try (match goal with b : u8 |- _ => pose proof (u8_to_Z_range b) end);
    unfold is_u16, is_u24 in *; rewrite Z2Nat.id by lia; split; try lia; try done.
  change (x :: rest = [u8_of_Z (u8_to_Z x)] ++ rest). by rewrite u8_of_to_Z.
Qed.

(** ** List laws *)

Section vec_laws.
Context {T : Type} `{!Codec T, !TlsListElement T}.

(** The concatenated encodings of the elements: the body of an encoded list. *)
Definition vec_body (l : list T) : list u8 := concat (get_encoding <$> l).

Lemma vec_body_cons x l : vec_body (x :: l) = get_encoding x ++ vec_body l.
Proof. done. Qed.

(** Reading one element takes at least one byte: what makes the [TlsListIter]
    loop terminate. *)
Class ElementProgress : Prop :=
  elem_consumes bs (x : T) rest : read bs = Ok (x, rest) → length rest < length bs.

Lemma read_items_fuel `{!ElementProgress, !TotalRead T} fuel sub :
  length sub ≤ fuel → read_items (T:=T) fuel sub ≠ Panic.
Proof.
  revert sub. induction fuel as [|fuel IH]; intros sub Hf; simpl;
    unfold TlsListIter_next; destruct (Reader.any_left sub) eqn:E; try done.
  - apply any_left_spec in E. destruct sub; simpl in *; [done|lia].
  - destruct (read sub) as [[x rest]|e|] eqn:Hr; simpl; [|done|].
    + apply elem_consumes in Hr.
      specialize (IH rest ltac:(lia)). by destruct (read_items fuel rest).
    + by apply read_total in Hr.
Qed.

#[global] Instance vec_total `{!ElementProgress, !TotalRead T} : TotalRead (list T).
Proof.
  unfold TotalRead. cbn [read vec_codec]. apply total_bind.
  { unfold TlsListIter_new. auto with total. }
  intros sub bs. unfold reader_lift. pose proof (read_items_fuel (length sub) sub ltac:(lia)).
  by destruct (read_items (length sub) sub).
Qed.

Context (valid : T → Prop) `{!CodecLaws T valid, !NonEmptyEncoding T valid}.

(** The lists that have an encoding: each element does, and the length fits. *)
Definition vec_valid (l : list T) : Prop :=
  Forall valid l ∧ ListLength.accepts SIZE_LEN (length (vec_body l)).

Lemma fold_encode (l : list T) buf :
  fold_left (λ buf i, encode i buf) l buf = buf ++ vec_body l.
Proof using CodecLaws0.
  revert buf. induction l as [|x l IH]; intros buf; simpl.
  - by rewrite app_nil_r.
  - by rewrite IH, encode_app, vec_body_cons, (assoc_L (++)).
Qed.

Lemma vec_encode (l : list T) bytes :
  encode l bytes =
    bytes ++ be_bytes (ListLength.width SIZE_LEN) (Z.of_nat (length (vec_body l)))
          ++ vec_body l.
Proof using CodecLaws0. apply nest_spec. intros b. apply fold_encode. Qed.

Lemma read_items_body fuel (l : list T) :
  Forall valid l → length (vec_body l) ≤ fuel →
  read_items fuel (vec_body l) = Ok l.
Proof using CodecLaws0 NonEmptyEncoding0.
  revert fuel. induction l as [|x l IH]; intros fuel Hv Hf.
  { by destruct fuel. }
  inversion Hv as [|?? Hx Hl]; subst. rewrite vec_body_cons in *.
  pose proof (encoding_nonempty x Hx) as Hn. rewrite length_app in Hf.
  destruct fuel as [|fuel]; [by destruct (get_encoding x); simpl in *; [|lia]|].
  simpl. unfold TlsListIter_next.
  replace (Reader.any_left _) with true
    by (symmetry; apply any_left_spec; by destruct (get_encoding x)).
  rewrite read_encode by done. simpl. rewrite IH; [done|done|].
  destruct (get_encoding x); simpl in *; [done|lia].
Qed.

Lemma read_items_inv `{!CanonicalCodec T valid} fuel sub (l : list T) :
  read_items fuel sub = Ok l → Forall valid l ∧ sub = vec_body l.
Proof.
  revert sub l. induction fuel as [|fuel IH]; intros sub l; simpl;
    unfold TlsListIter_next; destruct (Reader.any_left sub) eqn:E; try done.
  2: destruct (read sub) as [[x rest]| |] eqn:Hr; simpl; try done.
  2: destruct (read_items fuel rest) as [xs| |] eqn:Hxs; simpl; try done.
  2: apply IH in Hxs as [? ->]; apply read_inv in Hr as [? ->]; intros [= <-]; by auto.
  all: intros [= <-]; destruct sub as [|b sub]; [by auto|].
  all: by rewrite (proj2 (any_left_spec (b :: sub))) in E.
Qed.

#[global] Instance element_progress `{!CanonicalCodec T valid} : ElementProgress.
Proof using CodecLaws0 NonEmptyEncoding0.
  intros bs x rest [Hv ->]%read_inv. pose proof (encoding_nonempty x Hv).
  rewrite length_app. destruct (get_encoding x); simpl; [done|lia].
Qed.

#[global] Instance vec_laws : CodecLaws (list T) vec_valid.
Proof using CodecLaws0 NonEmptyEncoding0.
  split.
  - intros. unfold get_encoding. by rewrite !vec_encode.
  - intros l rest [Hv Ha]. unfold get_encoding. rewrite vec_encode.
    cbn [read vec_codec]. unfold TlsListIter_new, mbind, reader_bind.
    simpl. rewrite <-(assoc_L (++)), list_length_read_app by done.
    rewrite sub_app. unfold reader_lift.
    by rewrite read_items_body.
Qed.

#[global] Instance vec_canonical `{!CanonicalCodec T valid} :
  CanonicalCodec (list T) vec_valid.
Proof using CodecLaws0 NonEmptyEncoding0.
  split. intros bs l rest. cbn [read vec_codec]. unfold TlsListIter_new. intros H.
  reader_inv. unfold reader_lift in H. apply result_fmap_ok in H as (l' & H & [= <- <-]).
  apply read_items_inv in H as [Hv Hb]. subst.
  match goal with H : ListLength.read _ _ = _ |- _ =>
    apply list_length_read_inv in H as [Ha ->] end.
  split; [by split|]. etrans; [|apply (f_equal (.++ rest)), eq_sym, (vec_encode l [])].
  simpl. by rewrite <-(assoc_L (++)).
Qed.
End vec_laws.

(** ** Sized payload laws *)

Definition sized_valid {L C} (p : SizedPayload L C) : Prop :=
  Cardinality.MIN C ≤ length (sp_inner p) ∧
  (Z.of_nat (length (sp_inner p)) <= PayloadSize.MAX L)%Z.

Definition size_width (L : PayloadSize.t) : nat :=
  match L with PayloadSize.U8 => 1 | PayloadSize.U16 => 2 | PayloadSize.U24 => 3 end.

Lemma size_encode L (p : list u8) bytes :
  PayloadSize.encode L (PayloadSize.length L p) bytes
  = bytes ++ be_bytes (size_width L) (Z.of_nat (length p)).
Proof.
  destruct L; cbn [PayloadSize.encode PayloadSize.length size_width].
  - cbn [encode u8_codec]. f_equal. by rewrite <-be_bytes_1, (be_bytes_wrap 1 8).
  - unfold u16_encode. f_equal. by rewrite (be_bytes_wrap 2 16).
  - rewrite u24_encode_be. f_equal. by rewrite (be_bytes_wrap 3 32).
Qed.

Lemma size_read_app L (n : nat) rest :
  (Z.of_nat n <= PayloadSize.MAX L)%Z →
  PayloadSize.read L (be_bytes (size_width L) (Z.of_nat n) ++ rest) = Ok (n, rest).
Proof.
  intros Hn; destruct L; cbn [PayloadSize.read size_width PayloadSize.MAX] in *;
    unfold fmap, reader_fmap.
  - rewrite be_bytes_1. simpl. rewrite u8_to_of_Z, Z.mod_small by lia. by rewrite Nat2Z.id.
  - rewrite u16_read_app by (unfold is_u16; lia). by rewrite Nat2Z.id.
  - rewrite u24_read_app by (unfold is_u24; lia). by rewrite Nat2Z.id.
Qed.

Lemma size_read_inv L bs n rest :
  PayloadSize.read L bs = Ok (n, rest) →
  (Z.of_nat n <= PayloadSize.MAX L)%Z ∧
  bs = be_bytes (size_width L) (Z.of_nat n) ++ rest.
Proof.
  destruct L; cbn [PayloadSize.read size_width PayloadSize.MAX]; intros H; reader_inv.
  - pose proof (u8_to_Z_range x). rewrite Z2Nat.id by lia.
    split; [lia|]. by rewrite be_bytes_1, u8_of_to_Z.
  - unfold is_u16 in *. rewrite Z2Nat.id by lia. split; [lia|done].
  - unfold is_u24 in *. rewrite Z2Nat.id by lia. split; [lia|done].
Qed.

#[global] Instance sized_laws L C : CodecLaws (SizedPayload L C) sized_valid.
Proof.
  split.
  - intros. unfold get_encoding. cbn [encode SizedPayload_codec].
    rewrite !size_encode. by rewrite app_nil_l, (assoc_L (++)).
  - intros [p] rest [Hmin Hmax]. unfold get_encoding. cbn [encode SizedPayload_codec read].
    rewrite size_encode. unfold mbind, reader_bind. cbn [sp_inner] in *.
    rewrite app_nil_l, <-(assoc_L (++)), size_read_app by done.
    rewrite decide_False by lia. by rewrite sub_app.
Qed.

Lemma total_size_read L : total (PayloadSize.read L).
Proof. destruct L; cbn [PayloadSize.read]; auto with total. Qed.

#[export] Hint Resolve total_size_read : total.

#[global] Instance sized_total L C : TotalRead (SizedPayload L C).
Proof.
  unfold TotalRead. cbn [read SizedPayload_codec]. auto 8 with total.
Qed.

#[global] Instance sized_canonical L C : CanonicalCodec (SizedPayload L C) sized_valid.
Proof.
  split. intros bs [p] rest. cbn [read SizedPayload_codec]. intros H.
  apply reader_bind_Ok in H as (len & r1 & Hl & H).
  apply size_read_inv in Hl as [Hm ->].
  destruct decide in H; [done|]. reader_inv.
  split; [split; simpl; lia|].
  unfold get_encoding. cbn [encode SizedPayload_codec sp_inner].
  by rewrite size_encode, app_nil_l, (assoc_L (++)).
Qed.

(** ** Certificate and enumeration laws *)

Definition cert_valid (c : CertificateDer) : Prop :=
  0 < length (der c) ∧ (Z.of_nat (length (der c)) <= CERTIFICATE_MAX_SIZE_LIMIT)%Z.

Lemma cert_encode c bytes :
  encode c bytes = bytes ++ be_bytes 3 (Z.of_nat (length (der c))) ++ der c.
Proof. by apply nest_spec. Qed.

#[global] Instance cert_laws : CodecLaws CertificateDer cert_valid.
Proof.
  split.
  - intros. unfold get_encoding. by rewrite !cert_encode.
  - intros [c] rest [Hmin Hmax]. unfold get_encoding. rewrite cert_encode.
    cbn [read CertificateDer_codec der] in *. unfold mbind, reader_bind.
    unfold CERTIFICATE_MAX_SIZE_LIMIT in *.
    rewrite app_nil_l, <-(assoc_L (++)), list_length_read_app.
    + by rewrite sub_app.
    + split; [simpl; lia|]. split; lia.
Qed.

#[global] Instance cert_canonical : CanonicalCodec CertificateDer cert_valid.
Proof.
  split. intros bs [c] rest. cbn [read CertificateDer_codec]. intros H.
  apply reader_bind_Ok in H as (len & r1 & Hl & H).
  apply list_length_read_inv in Hl as [[_ Hm] ->].
  reader_inv.
  split; [split; simpl; lia|].
  etrans; [|apply (f_equal (.++ rest)), eq_sym, (cert_encode (mkCertificateDer c) [])].
  by rewrite app_nil_l, (assoc_L (++)).
Qed.

#[global] Instance cert_nonempty : NonEmptyEncoding CertificateDer cert_valid.
Proof.
  intros c _. unfold get_encoding. rewrite cert_encode. intros Hn%(f_equal length).
  rewrite !length_app, be_bytes_length in Hn. simpl in Hn. lia.
Qed.

#[global] Instance cert_total : TotalRead CertificateDer.
Proof. unfold TotalRead. cbn [read CertificateDer_codec]. auto with total. Qed.

Section enum_laws.
Context {X : Type} (name : string).

Section enum8.
Context (new : u8 → X) (val : X → u8).
Hypotheses (Hvn : ∀ v, val (new v) = v) (Hnv : ∀ x, new (val x) = x).
#[local] Instance C8 : Codec X := enum_codec encode read new val name.

Lemma enum8_laws : CodecLaws X (λ _, True).
Proof using Hnv. split; [done|]. intros v rest _. simpl. by rewrite Hnv. Qed.

Lemma enum8_nonempty : NonEmptyEncoding X (λ _, True).
Proof. done. Qed.

Lemma enum8_total : TotalRead X.
Proof.
  intros bs. cbn [read enum_codec C8]. pose proof (read_total (T:=u8) bs).
  by destruct (read bs) as [[]| |].
Qed.

Lemma enum8_canonical : CanonicalCodec X (λ _, True).
Proof using Hvn.
  split. intros bs v rest H. cbn [read enum_codec C8] in H.
  destruct (read bs) as [[x r]| |] eqn:E; simplify_eq.
  apply u8_read_inv in E as ->. unfold get_encoding; simpl. by rewrite Hvn.
Qed.
End enum8.

Section enum16.
Context (new : Z → X) (val : X → Z).
Hypotheses (Hvn : ∀ v, val (new v) = v) (Hnv : ∀ x, new (val x) = x).
#[local] Instance C16 : Codec X := enum_codec u16_encode u16_read new val name.

Lemma enum16_laws : CodecLaws X (λ x, is_u16 (val x)).
Proof using Hnv.
  split; [done|]. intros v rest Hv. unfold get_encoding. cbn [read encode enum_codec C16].
  unfold u16_encode. rewrite app_nil_l, u16_read_app by done. by rewrite Hnv.
Qed.

Lemma enum16_nonempty : NonEmptyEncoding X (λ x, is_u16 (val x)).
Proof. done. Qed.

Lemma enum16_total : TotalRead X.
Proof.
  intros bs. cbn [read enum_codec C16]. pose proof (total_u16 bs).
  by destruct (u16_read bs) as [[]| |].
Qed.

Lemma enum16_canonical : CanonicalCodec X (λ x, is_u16 (val x)).
Proof using Hvn.
  split. intros bs v rest H. cbn [read enum_codec C16] in H.
  destruct (u16_read bs) as [[x r]| |] eqn:E; simplify_eq.
  apply u16_read_inv in E as [? ->]. unfold get_encoding. cbn [encode enum_codec C16].
  rewrite Hvn. by split.
Qed.
End enum16.
End enum_laws.

#[global] Instance HandshakeType_laws : CodecLaws HandshakeType.t (λ _, True) :=
  enum8_laws "HandshakeType" HandshakeType.new HandshakeType.val (λ x, match x with HandshakeType.new _ => eq_refl end).
#[global] Instance HandshakeType_canonical : CanonicalCodec HandshakeType.t (λ _, True) :=
  enum8_canonical "HandshakeType" HandshakeType.new HandshakeType.val (λ _, eq_refl).
#[global] Instance HandshakeType_nonempty : NonEmptyEncoding HandshakeType.t (λ _, True) :=
  enum8_nonempty "HandshakeType" HandshakeType.new HandshakeType.val.
#[global] Instance HandshakeType_total : TotalRead HandshakeType.t :=
  enum8_total "HandshakeType" HandshakeType.new HandshakeType.val.
#[global] Instance ContentType_laws : CodecLaws ContentType.t (λ _, True) :=
  enum8_laws "ContentType" ContentType.new ContentType.val (λ x, match x with ContentType.new _ => eq_refl end).
#[global] Instance ContentType_canonical : CanonicalCodec ContentType.t (λ _, True) :=
  enum8_canonical "ContentType" ContentType.new ContentType.val (λ _, eq_refl).
#[global] Instance ContentType_nonempty : NonEmptyEncoding ContentType.t (λ _, True) :=
  enum8_nonempty "ContentType" ContentType.new ContentType.val.
#[global] Instance ContentType_total : TotalRead ContentType.t :=
  enum8_total "ContentType" ContentType.new ContentType.val.
#[global] Instance ProtocolVersion_laws : CodecLaws ProtocolVersion.t (λ x, is_u16 (ProtocolVersion.val x)) :=
  enum16_laws "ProtocolVersion" ProtocolVersion.new ProtocolVersion.val (λ x, match x with ProtocolVersion.new _ => eq_refl end).
#[global] Instance ProtocolVersion_canonical : CanonicalCodec ProtocolVersion.t (λ x, is_u16 (ProtocolVersion.val x)) :=
  enum16_canonical "ProtocolVersion" ProtocolVersion.new ProtocolVersion.val (λ _, eq_refl).
#[global] Instance ProtocolVersion_nonempty : NonEmptyEncoding ProtocolVersion.t (λ x, is_u16 (ProtocolVersion.val x)) :=
  enum16_nonempty "ProtocolVersion" ProtocolVersion.new ProtocolVersion.val.
#[global] Instance ProtocolVersion_total : TotalRead ProtocolVersion.t :=
  enum16_total "ProtocolVersion" ProtocolVersion.new ProtocolVersion.val.
#[global] Instance CertificateCompressionAlgorithm_laws : CodecLaws CertificateCompressionAlgorithm.t (λ x, is_u16 (CertificateCompressionAlgorithm.val x)) :=
  enum16_laws "CertificateCompressionAlgorithm" CertificateCompressionAlgorithm.new CertificateCompressionAlgorithm.val (λ x, match x with CertificateCompressionAlgorithm.new _ => eq_refl end).
#[global] Instance CertificateCompressionAlgorithm_canonical : CanonicalCodec CertificateCompressionAlgorithm.t (λ x, is_u16 (CertificateCompressionAlgorithm.val x)) :=
  enum16_canonical "CertificateCompressionAlgorithm" CertificateCompressionAlgorithm.new CertificateCompressionAlgorithm.val (λ _, eq_refl).
#[global] Instance CertificateCompressionAlgorithm_nonempty : NonEmptyEncoding CertificateCompressionAlgorithm.t (λ x, is_u16 (CertificateCompressionAlgorithm.val x)) :=
  enum16_nonempty "CertificateCompressionAlgorithm" CertificateCompressionAlgorithm.new CertificateCompressionAlgorithm.val.
#[global] Instance CertificateCompressionAlgorithm_total : TotalRead CertificateCompressionAlgorithm.t :=
  enum16_total "CertificateCompressionAlgorithm" CertificateCompressionAlgorithm.new CertificateCompressionAlgorithm.val.
#[global] Instance CertificateType_laws : CodecLaws CertificateType.t (λ _, True) :=
  enum8_laws "CertificateType" CertificateType.new CertificateType.val (λ x, match x with CertificateType.new _ => eq_refl end).
#[global] Instance CertificateType_canonical : CanonicalCodec CertificateType.t (λ _, True) :=
  enum8_canonical "CertificateType" CertificateType.new CertificateType.val (λ _, eq_refl).
#[global] Instance CertificateType_nonempty : NonEmptyEncoding CertificateType.t (λ _, True) :=
  enum8_nonempty "CertificateType" CertificateType.new CertificateType.val.
#[global] Instance CertificateType_total : TotalRead CertificateType.t :=
  enum8_total "CertificateType" CertificateType.new CertificateType.val.
#[global] Instance EchClientHelloType_laws : CodecLaws EchClientHelloType.t (λ _, True) :=
  enum8_laws "EchClientHelloType" EchClientHelloType.new EchClientHelloType.val (λ x, match x with EchClientHelloType.new _ => eq_refl end).
#[global] Instance EchClientHelloType_canonical : CanonicalCodec EchClientHelloType.t (λ _, True) :=
  enum8_canonical "EchClientHelloType" EchClientHelloType.new EchClientHelloType.val (λ _, eq_refl).
#[global] Instance EchClientHelloType_nonempty : NonEmptyEncoding EchClientHelloType.t (λ _, True) :=
  enum8_nonempty "EchClientHelloType" EchClientHelloType.new EchClientHelloType.val.
#[global] Instance EchClientHelloType_total : TotalRead EchClientHelloType.t :=
  enum8_total "EchClientHelloType" EchClientHelloType.new EchClientHelloType.val.
#[global] Instance ClientCertificateType_laws : CodecLaws ClientCertificateType.t (λ _, True) :=
  enum8_laws "ClientCertificateType" ClientCertificateType.new ClientCertificateType.val (λ x, match x with ClientCertificateType.new _ => eq_refl end).
#[global] Instance ClientCertificateType_canonical : CanonicalCodec ClientCertificateType.t (λ _, True) :=
  enum8_canonical "ClientCertificateType" ClientCertificateType.new ClientCertificateType.val (λ _, eq_refl).
#[global] Instance ClientCertificateType_nonempty : NonEmptyEncoding ClientCertificateType.t (λ _, True) :=
  enum8_nonempty "ClientCertificateType" ClientCertificateType.new ClientCertificateType.val.
#[global] Instance ClientCertificateType_total : TotalRead ClientCertificateType.t :=
  enum8_total "ClientCertificateType" ClientCertificateType.new ClientCertificateType.val.
#[global] Instance Compression_laws : CodecLaws Compression.t (λ _, True) :=
  enum8_laws "Compression" Compression.new Compression.val (λ x, match x with Compression.new _ => eq_refl end).
#[global] Instance Compression_canonical : CanonicalCodec Compression.t (λ _, True) :=
  enum8_canonical "Compression" Compression.new Compression.val (λ _, eq_refl).
#[global] Instance Compression_nonempty : NonEmptyEncoding Compression.t (λ _, True) :=
  enum8_nonempty "Compression" Compression.new Compression.val.
#[global] Instance Compression_total : TotalRead Compression.t :=
  enum8_total "Compression" Compression.new Compression.val.
#[global] Instance AlertLevel_laws : CodecLaws AlertLevel.t (λ _, True) :=
  enum8_laws "AlertLevel" AlertLevel.new AlertLevel.val (λ x, match x with AlertLevel.new _ => eq_refl end).
#[global] Instance AlertLevel_canonical : CanonicalCodec AlertLevel.t (λ _, True) :=
  enum8_canonical "AlertLevel" AlertLevel.new AlertLevel.val (λ _, eq_refl).
#[global] Instance AlertLevel_nonempty : NonEmptyEncoding AlertLevel.t (λ _, True) :=
  enum8_nonempty "AlertLevel" AlertLevel.new AlertLevel.val.
#[global] Instance AlertLevel_total : TotalRead AlertLevel.t :=
  enum8_total "AlertLevel" AlertLevel.new AlertLevel.val.
#[global] Instance ExtensionType_laws : CodecLaws ExtensionType.t (λ x, is_u16 (ExtensionType.val x)) :=
  enum16_laws "ExtensionType" ExtensionType.new ExtensionType.val (λ x, match x with ExtensionType.new _ => eq_refl end).
#[global] Instance ExtensionType_canonical : CanonicalCodec ExtensionType.t (λ x, is_u16 (ExtensionType.val x)) :=
  enum16_canonical "ExtensionType" ExtensionType.new ExtensionType.val (λ _, eq_refl).
#[global] Instance ExtensionType_nonempty : NonEmptyEncoding ExtensionType.t (λ x, is_u16 (ExtensionType.val x)) :=
  enum16_nonempty "ExtensionType" ExtensionType.new ExtensionType.val.
#[global] Instance ExtensionType_total : TotalRead ExtensionType.t :=
  enum16_total "ExtensionType" ExtensionType.new ExtensionType.val.
#[global] Instance ServerNameType_laws : CodecLaws ServerNameType.t (λ _, True) :=
  enum8_laws "ServerNameType" ServerNameType.new ServerNameType.val (λ x, match x with ServerNameType.new _ => eq_refl end).
#[global] Instance ServerNameType_canonical : CanonicalCodec ServerNameType.t (λ _, True) :=
  enum8_canonical "ServerNameType" ServerNameType.new ServerNameType.val (λ _, eq_refl).
#[global] Instance ServerNameType_nonempty : NonEmptyEncoding ServerNameType.t (λ _, True) :=
  enum8_nonempty "ServerNameType" ServerNameType.new ServerNameType.val.
#[global] Instance ServerNameType_total : TotalRead ServerNameType.t :=
  enum8_total "ServerNameType" ServerNameType.new ServerNameType.val.
#[global] Instance ECPointFormat_laws : CodecLaws ECPointFormat.t (λ _, True) :=
  enum8_laws "ECPointFormat" ECPointFormat.new ECPointFormat.val (λ x, match x with ECPointFormat.new _ => eq_refl end).
#[global] Instance ECPointFormat_canonical : CanonicalCodec ECPointFormat.t (λ _, True) :=
  enum8_canonical "ECPointFormat" ECPointFormat.new ECPointFormat.val (λ _, eq_refl).
#[global] Instance ECPointFormat_nonempty : NonEmptyEncoding ECPointFormat.t (λ _, True) :=
  enum8_nonempty "ECPointFormat" ECPointFormat.new ECPointFormat.val.
#[global] Instance ECPointFormat_total : TotalRead ECPointFormat.t :=
  enum8_total "ECPointFormat" ECPointFormat.new ECPointFormat.val.
#[global] Instance ECCurveType_laws : CodecLaws ECCurveType.t (λ _, True) :=
  enum8_laws "ECCurveType" ECCurveType.new ECCurveType.val (λ x, match x with ECCurveType.new _ => eq_refl end).
#[global] Instance ECCurveType_canonical : CanonicalCodec ECCurveType.t (λ _, True) :=
  enum8_canonical "ECCurveType" ECCurveType.new ECCurveType.val (λ _, eq_refl).
#[global] Instance ECCurveType_nonempty : NonEmptyEncoding ECCurveType.t (λ _, True) :=
  enum8_nonempty "ECCurveType" ECCurveType.new ECCurveType.val.
#[global] Instance ECCurveType_total : TotalRead ECCurveType.t :=
  enum8_total "ECCurveType" ECCurveType.new ECCurveType.val.
#[global] Instance PskKeyExchangeMode_laws : CodecLaws PskKeyExchangeMode.t (λ _, True) :=
  enum8_laws "PskKeyExchangeMode" PskKeyExchangeMode.new PskKeyExchangeMode.val (λ x, match x with PskKeyExchangeMode.new _ => eq_refl end).
#[global] Instance PskKeyExchangeMode_canonical : CanonicalCodec PskKeyExchangeMode.t (λ _, True) :=
  enum8_canonical "PskKeyExchangeMode" PskKeyExchangeMode.new PskKeyExchangeMode.val (λ _, eq_refl).
#[global] Instance PskKeyExchangeMode_nonempty : NonEmptyEncoding PskKeyExchangeMode.t (λ _, True) :=
  enum8_nonempty "PskKeyExchangeMode" PskKeyExchangeMode.new PskKeyExchangeMode.val.
#[global] Instance PskKeyExchangeMode_total : TotalRead PskKeyExchangeMode.t :=
  enum8_total "PskKeyExchangeMode" PskKeyExchangeMode.new PskKeyExchangeMode.val.
#[global] Instance KeyUpdateRequest_laws : CodecLaws KeyUpdateRequest.t (λ _, True) :=
  enum8_laws "KeyUpdateRequest" KeyUpdateRequest.new KeyUpdateRequest.val (λ x, match x with KeyUpdateRequest.new _ => eq_refl end).
#[global] Instance KeyUpdateRequest_canonical : CanonicalCodec KeyUpdateRequest.t (λ _, True) :=
  enum8_canonical "KeyUpdateRequest" KeyUpdateRequest.new KeyUpdateRequest.val (λ _, eq_refl).
#[global] Instance KeyUpdateRequest_nonempty : NonEmptyEncoding KeyUpdateRequest.t (λ _, True) :=
  enum8_nonempty "KeyUpdateRequest" KeyUpdateRequest.new KeyUpdateRequest.val.
#[global] Instance KeyUpdateRequest_total : TotalRead KeyUpdateRequest.t :=
  enum8_total "KeyUpdateRequest" KeyUpdateRequest.new KeyUpdateRequest.val.
#[global] Instance CertificateStatusType_laws : CodecLaws CertificateStatusType.t (λ _, True) :=
  enum8_laws "CertificateStatusType" CertificateStatusType.new CertificateStatusType.val (λ x, match x with CertificateStatusType.new _ => eq_refl end).
#[global] Instance CertificateStatusType_canonical : CanonicalCodec CertificateStatusType.t (λ _, True) :=
  enum8_canonical "CertificateStatusType" CertificateStatusType.new CertificateStatusType.val (λ _, eq_refl).
#[global] Instance CertificateStatusType_nonempty : NonEmptyEncoding CertificateStatusType.t (λ _, True) :=
  enum8_nonempty "CertificateStatusType" CertificateStatusType.new CertificateStatusType.val.
#[global] Instance CertificateStatusType_total : TotalRead CertificateStatusType.t :=
  enum8_total "CertificateStatusType" CertificateStatusType.new CertificateStatusType.val.
#[global] Instance EchVersion_laws : CodecLaws EchVersion.t (λ x, is_u16 (EchVersion.val x)) :=
  enum16_laws "EchVersion" EchVersion.new EchVersion.val (λ x, match x with EchVersion.new _ => eq_refl end).
#[global] Instance EchVersion_canonical : CanonicalCodec EchVersion.t (λ x, is_u16 (EchVersion.val x)) :=
  enum16_canonical "EchVersion" EchVersion.new EchVersion.val (λ _, eq_refl).
#[global] Instance EchVersion_nonempty : NonEmptyEncoding EchVersion.t (λ x, is_u16 (EchVersion.val x)) :=
  enum16_nonempty "EchVersion" EchVersion.new EchVersion.val.
#[global] Instance EchVersion_total : TotalRead EchVersion.t :=
  enum16_total "EchVersion" EchVersion.new EchVersion.val.
#[global] Instance AlertDescription_laws : CodecLaws AlertDescription.t (λ _, True) :=
  enum8_laws "AlertDescription" AlertDescription.new AlertDescription.val (λ x, match x with AlertDescription.new _ => eq_refl end).
#[global] Instance AlertDescription_canonical : CanonicalCodec AlertDescription.t (λ _, True) :=
  enum8_canonical "AlertDescription" AlertDescription.new AlertDescription.val (λ _, eq_refl).
#[global] Instance AlertDescription_nonempty : NonEmptyEncoding AlertDescription.t (λ _, True) :=
  enum8_nonempty "AlertDescription" AlertDescription.new AlertDescription.val.
#[global] Instance AlertDescription_total : TotalRead AlertDescription.t :=
  enum8_total "AlertDescription" AlertDescription.new AlertDescription.val.
#[global] Instance CipherSuite_laws : CodecLaws CipherSuite.t (λ x, is_u16 (CipherSuite.val x)) :=
  enum16_laws "CipherSuite" CipherSuite.new CipherSuite.val (λ x, match x with CipherSuite.new _ => eq_refl end).
#[global] Instance CipherSuite_canonical : CanonicalCodec CipherSuite.t (λ x, is_u16 (CipherSuite.val x)) :=
  enum16_canonical "CipherSuite" CipherSuite.new CipherSuite.val (λ _, eq_refl).
#[global] Instance CipherSuite_nonempty : NonEmptyEncoding CipherSuite.t (λ x, is_u16 (CipherSuite.val x)) :=
  enum16_nonempty "CipherSuite" CipherSuite.new CipherSuite.val.
#[global] Instance CipherSuite_total : TotalRead CipherSuite.t :=
  enum16_total "CipherSuite" CipherSuite.new CipherSuite.val.
#[global] Instance SignatureScheme_laws : CodecLaws SignatureScheme.t (λ x, is_u16 (SignatureScheme.val x)) :=
  enum16_laws "SignatureScheme" SignatureScheme.new SignatureScheme.val (λ x, match x with SignatureScheme.new _ => eq_refl end).
#[global] Instance SignatureScheme_canonical : CanonicalCodec SignatureScheme.t (λ x, is_u16 (SignatureScheme.val x)) :=
  enum16_canonical "SignatureScheme" SignatureScheme.new SignatureScheme.val (λ _, eq_refl).
#[global] Instance SignatureScheme_nonempty : NonEmptyEncoding SignatureScheme.t (λ x, is_u16 (SignatureScheme.val x)) :=
  enum16_nonempty "SignatureScheme" SignatureScheme.new SignatureScheme.val.
#[global] Instance SignatureScheme_total : TotalRead SignatureScheme.t :=
  enum16_total "SignatureScheme" SignatureScheme.new SignatureScheme.val.
#[global] Instance HashAlgorithm_laws : CodecLaws HashAlgorithm.t (λ _, True) :=
  enum8_laws "HashAlgorithm" HashAlgorithm.new HashAlgorithm.val (λ x, match x with HashAlgorithm.new _ => eq_refl end).
#[global] Instance HashAlgorithm_canonical : CanonicalCodec HashAlgorithm.t (λ _, True) :=
  enum8_canonical "HashAlgorithm" HashAlgorithm.new HashAlgorithm.val (λ _, eq_refl).
#[global] Instance HashAlgorithm_nonempty : NonEmptyEncoding HashAlgorithm.t (λ _, True) :=
  enum8_nonempty "HashAlgorithm" HashAlgorithm.new HashAlgorithm.val.
#[global] Instance HashAlgorithm_total : TotalRead HashAlgorithm.t :=
  enum8_total "HashAlgorithm" HashAlgorithm.new HashAlgorithm.val.
#[global] Instance SignatureAlgorithm_laws : CodecLaws SignatureAlgorithm.t (λ _, True) :=
  enum8_laws "SignatureAlgorithm" SignatureAlgorithm.new SignatureAlgorithm.val (λ x, match x with SignatureAlgorithm.new _ => eq_refl end).
#[global] Instance SignatureAlgorithm_canonical : CanonicalCodec SignatureAlgorithm.t (λ _, True) :=
  enum8_canonical "SignatureAlgorithm" SignatureAlgorithm.new SignatureAlgorithm.val (λ _, eq_refl).
#[global] Instance SignatureAlgorithm_nonempty : NonEmptyEncoding SignatureAlgorithm.t (λ _, True) :=
  enum8_nonempty "SignatureAlgorithm" SignatureAlgorithm.new SignatureAlgorithm.val.
#[global] Instance SignatureAlgorithm_total : TotalRead SignatureAlgorithm.t :=
  enum8_total "SignatureAlgorithm" SignatureAlgorithm.new SignatureAlgorithm.val.
#[global] Instance NamedGroup_laws : CodecLaws NamedGroup.t (λ x, is_u16 (NamedGroup.val x)) :=
  enum16_laws "NamedGroup" NamedGroup.new NamedGroup.val (λ x, match x with NamedGroup.new _ => eq_refl end).
#[global] Instance NamedGroup_canonical : CanonicalCodec NamedGroup.t (λ x, is_u16 (NamedGroup.val x)) :=
  enum16_canonical "NamedGroup" NamedGroup.new NamedGroup.val (λ _, eq_refl).
#[global] Instance NamedGroup_nonempty : NonEmptyEncoding NamedGroup.t (λ x, is_u16 (NamedGroup.val x)) :=
  enum16_nonempty "NamedGroup" NamedGroup.new NamedGroup.val.
#[global] Instance NamedGroup_total : TotalRead NamedGroup.t :=
  enum16_total "NamedGroup" NamedGroup.new NamedGroup.val.
#[global] Instance HpkeKem_laws : CodecLaws HpkeKem.t (λ x, is_u16 (HpkeKem.val x)) :=
  enum16_laws "HpkeKem" HpkeKem.new HpkeKem.val (λ x, match x with HpkeKem.new _ => eq_refl end).
#[global] Instance HpkeKem_canonical : CanonicalCodec HpkeKem.t (λ x, is_u16 (HpkeKem.val x)) :=
  enum16_canonical "HpkeKem" HpkeKem.new HpkeKem.val (λ _, eq_refl).
#[global] Instance HpkeKem_nonempty : NonEmptyEncoding HpkeKem.t (λ x, is_u16 (HpkeKem.val x)) :=
  enum16_nonempty "HpkeKem" HpkeKem.new HpkeKem.val.
#[global] Instance HpkeKem_total : TotalRead HpkeKem.t :=
  enum16_total "HpkeKem" HpkeKem.new HpkeKem.val.
#[global] Instance HpkeKdf_laws : CodecLaws HpkeKdf.t (λ x, is_u16 (HpkeKdf.val x)) :=
  enum16_laws "HpkeKdf" HpkeKdf.new HpkeKdf.val (λ x, match x with HpkeKdf.new _ => eq_refl end).
#[global] Instance HpkeKdf_canonical : CanonicalCodec HpkeKdf.t (λ x, is_u16 (HpkeKdf.val x)) :=
  enum16_canonical "HpkeKdf" HpkeKdf.new HpkeKdf.val (λ _, eq_refl).
#[global] Instance HpkeKdf_nonempty : NonEmptyEncoding HpkeKdf.t (λ x, is_u16 (HpkeKdf.val x)) :=
  enum16_nonempty "HpkeKdf" HpkeKdf.new HpkeKdf.val.
#[global] Instance HpkeKdf_total : TotalRead HpkeKdf.t :=
  enum16_total "HpkeKdf" HpkeKdf.new HpkeKdf.val.
#[global] Instance HpkeAead_laws : CodecLaws HpkeAead.t (λ x, is_u16 (HpkeAead.val x)) :=
  enum16_laws "HpkeAead" HpkeAead.new HpkeAead.val (λ x, match x with HpkeAead.new _ => eq_refl end).
#[global] Instance HpkeAead_canonical : CanonicalCodec HpkeAead.t (λ x, is_u16 (HpkeAead.val x)) :=
  enum16_canonical "HpkeAead" HpkeAead.new HpkeAead.val (λ _, eq_refl).
#[global] Instance HpkeAead_nonempty : NonEmptyEncoding HpkeAead.t (λ x, is_u16 (HpkeAead.val x)) :=
  enum16_nonempty "HpkeAead" HpkeAead.new HpkeAead.val.
#[global] Instance HpkeAead_total : TotalRead HpkeAead.t :=
  enum16_total "HpkeAead" HpkeAead.new HpkeAead.val.

(** ** Codecs of composite types

    A type whose encoding is the concatenation of its members' encodings: the
    laws reduce to those of the members. *)

(** The codec of a value that is the last thing in its buffer: reading takes all
    of it (a [Payload] has no length of its own). *)
Class BodyLaws (T : Type) `{Codec T} (valid : T → Prop) : Prop := {
  body_encode_app v bytes : encode v bytes = bytes ++ get_encoding v;
  body_read v : valid v → read (get_encoding v) = Ok (v, []);
}.

#[global] Instance codec_body `{CodecLaws T valid} : BodyLaws T valid.
Proof.
  split; [apply encode_app|]. intros v Hv. rewrite <-(app_nil_r (get_encoding v)).
  by apply read_encode.
Qed.

Lemma codec_laws_intro `{Codec T} (valid : T → Prop) (body : T → list u8) :
  (∀ v bytes, encode v bytes = bytes ++ body v) →
  (∀ v rest, valid v → read (body v ++ rest) = Ok (v, rest)) → CodecLaws T valid.
Proof.
  intros He Hr. assert (∀ v, get_encoding v = body v) as Hb.
  { intros v. unfold get_encoding. by rewrite He. }
  split; intros; rewrite Hb; auto.
Qed.

Lemma body_laws_intro `{Codec T} (valid : T → Prop) (body : T → list u8) :
  (∀ v bytes, encode v bytes = bytes ++ body v) →
  (∀ v, valid v → read (body v) = Ok (v, [])) → BodyLaws T valid.
Proof.
  intros He Hr. assert (∀ v, get_encoding v = body v) as Hb.
  { intros v. unfold get_encoding. by rewrite He. }
  split; intros; rewrite Hb; auto.
Qed.

Section bind_steps.
Context {B : Type}.

Lemma bind_read_encode `{CodecLaws A valid} (v : A) (f : A → reader B) rest :
  valid v → (read ≫= f) (get_encoding v ++ rest) = f v rest.
Proof. intros Hv. unfold mbind, reader_bind. by rewrite read_encode. Qed.

Lemma bind_read_body `{BodyLaws A valid} (v : A) (f : A → reader B) :
  valid v → (read ≫= f) (get_encoding v) = f v [].
Proof. intros Hv. unfold mbind, reader_bind. by rewrite body_read. Qed.

Lemma bind_u8_app (v : u8) (f : u8 → reader B) rest : (read ≫= f) ([v] ++ rest) = f v rest.
Proof. done. Qed.

Lemma bind_u16_app v (f : Z → reader B) rest :
  is_u16 v → (u16_read ≫= f) (be_bytes 2 v ++ rest) = f v rest.
Proof. intros Hv. unfold mbind, reader_bind. by rewrite u16_read_app. Qed.

Lemma bind_u24_app v (f : Z → reader B) rest :
  is_u24 v → (u24_read ≫= f) (be_bytes 3 v ++ rest) = f v rest.
Proof. intros Hv. unfold mbind, reader_bind. by rewrite u24_read_app. Qed.

Lemma bind_u32_app v (f : Z → reader B) rest :
  is_u32 v → (u32_read ≫= f) (be_bytes 4 v ++ rest) = f v rest.
Proof. intros Hv. unfold mbind, reader_bind. by rewrite u32_read_app. Qed.

Lemma bind_sub_app (b : list u8) (f : list u8 → reader B) rest n :
  length b = n → (Reader.sub n ≫= f) (b ++ rest) = f b rest.
Proof. intros <-. unfold mbind, reader_bind. by rewrite sub_app. Qed.

Lemma bind_list_length_app s (len : nat) (f : nat → reader B) rest :
  ListLength.accepts s len →
  (ListLength.read s ≫= f) (be_bytes (ListLength.width s) (Z.of_nat len) ++ rest) = f len rest.
Proof. intros Hv. unfold mbind, reader_bind. by rewrite list_length_read_app. Qed.
End bind_steps.

(** [encode] of a composite, given the name of its codec, is an append. *)
Ltac encode_steps :=
  repeat first [rewrite encode_app | rewrite body_encode_app];
  unfold u16_encode, u32_encode; rewrite ?u24_encode_be; rewrite <-?(assoc_L (++)).

(** Step a composite reader through the members' encodings. *)
Ltac read_steps :=
  rewrite <-?(assoc_L (++));
  repeat first
    [ rewrite bind_read_encode by (simpl; tauto)
    | rewrite bind_u16_app by (simpl; tauto) | rewrite bind_u24_app by (simpl; tauto)
    | rewrite bind_u32_app by (simpl; tauto)
    | rewrite bind_read_body by (simpl; tauto) ].

(** ** Progress *)

(** A successful read takes at least [n] bytes. *)
Definition shrinks {T} (n : nat) (r : reader T) : Prop :=
  ∀ bs v rest, r bs = Ok (v, rest) → n + length rest ≤ length bs.

Create HintDb shrinks discriminated.

Lemma shrinks_bind {A B} n (m : reader A) (f : A → reader B) :
  shrinks n m → (∀ a, shrinks 0 (f a)) → shrinks n (m ≫= f).
Proof.
  intros Hm Hf bs b rest (a & r1 & H1 & H2)%reader_bind_Ok.
  apply Hm in H1. apply Hf in H2. lia.
Qed.

Lemma shrinks_fmap {A B} n (m : reader A) (f : A → B) : shrinks n m → shrinks n (f <$> m).
Proof. intros Hm bs b rest (a & H & _)%reader_fmap_Ok. by apply Hm in H. Qed.

Lemma shrinks_weaken {A} (m : reader A) : shrinks 1 m → shrinks 0 m.
Proof. intros Hm bs b rest H%Hm. lia. Qed.

Lemma shrinks_ret {A} (a : A) : shrinks 0 (mret a).
Proof. by intros bs v rest [= <- <-]. Qed.

Lemma shrinks_fail {A} n e : shrinks n (reader_fail (A:=A) e).
Proof. by intros bs v rest H. Qed.

Lemma shrinks_decide {A P} `{Decision P} n (r1 r2 : reader A) :
  shrinks n r1 → shrinks n r2 → shrinks n (if decide P then r1 else r2).
Proof. by case_decide. Qed.

Lemma shrinks_take_array n ty : shrinks n (Reader.take_array n ty).
Proof. intros bs v rest [-> <-]%take_array_inv. by rewrite length_app. Qed.

Lemma shrinks_sub n : shrinks 0 (Reader.sub n).
Proof. intros bs v rest [-> _]%sub_inv. rewrite length_app. lia. Qed.

Lemma shrinks_all {A} ty (f : reader A) : shrinks 0 (Reader.all ty f).
Proof. intros bs v rest [-> _]%reader_all_Ok. simpl. lia. Qed.

Lemma shrinks_within {A} sub (f : reader A) : shrinks 0 (Reader.within sub f).
Proof.
  intros bs v rest. unfold Reader.within. destruct (f sub) as [[]| |]; [|done..].
  by intros [= -> ->].
Qed.

Lemma shrinks_lift {A} (r : result InvalidMessage.t A) : shrinks 0 (reader_lift r).
Proof. intros bs v rest. unfold reader_lift. by destruct r; intros [= <- <-]. Qed.

Lemma shrinks_u16 : shrinks 1 u16_read.
Proof. intros bs v rest [_ ->]%u16_read_inv. rewrite length_app, be_bytes_length. lia. Qed.

Lemma shrinks_u24 : shrinks 1 u24_read.
Proof. intros bs v rest [_ ->]%u24_read_inv. rewrite length_app, be_bytes_length. lia. Qed.

Lemma shrinks_u32 : shrinks 1 u32_read.
Proof. intros bs v rest [_ ->]%u32_read_inv. rewrite length_app, be_bytes_length. lia. Qed.

Lemma shrinks_list_length s : shrinks 1 (ListLength.read s).
Proof.
  intros bs v rest [_ ->]%list_length_read_inv. rewrite length_app, be_bytes_length.
  destruct s; simpl; lia.
Qed.

Lemma shrinks_canonical `{CanonicalCodec T valid, !NonEmptyEncoding T valid} :
  shrinks 1 (read (T:=T)).
Proof.
  intros bs v rest [Hv ->]%read_inv. pose proof (encoding_nonempty v Hv).
  rewrite length_app. destruct (get_encoding v); simpl; [done|lia].
Qed.

Lemma shrinks_progress `{Codec T} : shrinks 1 (read (T:=T)) → ElementProgress (T:=T).
Proof. intros Hs bs v rest Hr%Hs. lia. Qed.

#[export] Hint Resolve shrinks_bind shrinks_fmap shrinks_ret shrinks_fail shrinks_decide
  shrinks_take_array shrinks_sub shrinks_all shrinks_within shrinks_lift shrinks_u16
  shrinks_u24 shrinks_u32 shrinks_list_length shrinks_canonical : shrinks.
#[export] Hint Extern 5 (shrinks 0 _) => apply shrinks_weaken : shrinks.

#[global] Instance sized_nonempty L C : NonEmptyEncoding (SizedPayload L C) sized_valid.
Proof.
  intros p _ H%(f_equal length). unfold get_encoding in H. cbn [encode SizedPayload_codec] in H.
  rewrite size_encode, !length_app, be_bytes_length in H. destruct L; simpl in H; lia.
Qed.

#[global] Instance Payload_body : BodyLaws Payload (λ _, True).
Proof. by split. Qed.

#[global] Instance Payload_total : TotalRead Payload.
Proof. unfold TotalRead. cbn [read Payload_codec]. auto with total. Qed.

#[global] Instance unit_body : BodyLaws unit (λ _, True).
Proof. split; [by intros [] bytes; rewrite app_nil_r|by intros []]. Qed.

#[global] Instance unit_total : TotalRead unit.
Proof. unfold TotalRead. cbn [read unit_codec]. auto with total. Qed.

(** ** Main results *)

(** [Vec<T>]'s [Codec] is exact for every element type whose codec is: reading
    succeeds precisely on the encoding of an encodable list, and returns that list
    with what follows it.  So encoding then reading gives the list back, no two
    byte strings are read as the same list, and a list whose body length the
    prefix cannot hold is never returned. *)
Theorem vec_read_iff {T : Type} `{!Codec T, !TlsListElement T} (valid : T → Prop)
    `{!CodecLaws T valid, !CanonicalCodec T valid, !NonEmptyEncoding T valid}
    (bs : list u8) (l : list T) rest :
  read bs = Ok (l, rest) ↔ vec_valid valid l ∧ bs = get_encoding l ++ rest.
Proof.
  split.
  - by apply read_inv.
  - intros [Hv ->]. by apply read_encode.
Qed.

Lemma vec_read_iff_witness :
  let c := mkCertificateDer [x30; x00] in
  read (get_encoding [c; c] ++ [x07]) = Ok ([c; c], [x07]).
Proof.
  intros c. apply (vec_read_iff cert_valid).
  split; [|reflexivity]. split.
  - repeat constructor; vm_compute; congruence.
  - split; vm_compute; congruence.
Defined.

(** Reading a list terminates without panicking: when an element read takes
    at least one byte and does not panic, the loop over [TlsListIter] ends within
    as many iterations as there are bytes, whatever the peer sent. *)
Theorem vec_read_total {T : Type} `{!Codec T, !TlsListElement T}
    `{!ElementProgress (T:=T), !TotalRead T} : total (read (T:=list T)).
Proof. apply read_total. Qed.

Lemma vec_read_total_witness :
  read (T:=list CertificateDer) [x00; x00; x02; xff; xff] ≠ Panic.
Proof. apply (vec_read_total (T:=CertificateDer)). Defined.
