(* ===== verification/Records.v ===== *)
(** * Records

    [crypto/cipher/messages.rs] and the record header of [msgs/mod.rs]: the TLS
    record, its header, the gathered plaintext [OutboundPlain], the encryption
    output [EncryptBuffer], and the TLS 1.3 inner plaintext.

    Borrowed slices are lists of bytes.  A [usize] subtraction is [nat]
    subtraction where an invariant proved here makes it exact. *)
From S2P Require Import Prelude Enums Errors Codec.

(* @src rustls/src/msgs/mod.rs 692-693 HEADER_SIZE *)
Definition HEADER_SIZE : nat := 1 + 2 + 2.

(* @src rustls/src/msgs/mod.rs 695-697 MAX_PAYLOAD *)
Definition MAX_PAYLOAD : Z := 16384 + 2048.

(* @src rustls/src/msgs/fragmenter.rs 7 MAX_FRAGMENT_LEN *)
Definition MAX_FRAGMENT_LEN : Z := 16384.

Module QuicVersion.
(* @src rustls/src/quic.rs 918-929 Version *)
Inductive t := V1 | V2.
End QuicVersion.

Module Protocol.
(* @src rustls/src/common_state.rs 397-405 Protocol *)
Inductive t := Tcp | Quic (v : QuicVersion.t).

(* @src rustls/src/common_state.rs 408-410 Protocol::is_quic *)
Definition is_quic (self : t) : bool :=
  match self with Quic _ => true | Tcp => false end.

(* @src rustls/src/common_state.rs 412-417 Protocol::supports_version *)
Definition supports_version (self : t) (version : ProtocolVersion.t) : bool :=
  match self with
  | Quic _ => bool_decide (version = ProtocolVersion.TLSv1_3)
  | Tcp => true
  end.
End Protocol.

Module EncodableVersion.
(* @src rustls/src/crypto/cipher/messages.rs 582-600 EncodableVersion *)
Inductive t :=
  | Legacy (v : ProtocolVersion.t)
  | InitialClientHello (p : Protocol.t).

(* @src rustls/src/crypto/cipher/messages.rs 603-609 EncodableVersion::encode *)
Definition encode (self : t) : ProtocolVersion.t :=
  match self with
  | Legacy _ => ProtocolVersion.TLSv1_2
  | InitialClientHello (Protocol.Tcp | Protocol.Quic _) => ProtocolVersion.TLSv1_0
  end.

(* @src rustls/src/crypto/cipher/messages.rs 611-617 EncodableVersion::version *)
Definition version (self : t) : ProtocolVersion.t :=
  match self with
  | Legacy v => v
  | InitialClientHello (Protocol.Tcp | Protocol.Quic _) => ProtocolVersion.TLSv1_2
  end.
End EncodableVersion.

Module RecordError.
(* @src rustls/src/crypto/cipher/messages.rs 637-648 RecordError *)
Inductive t :=
  | TooShortForHeader
  | TooShortForLength
  | InvalidEmptyPayload
  | MessageTooLarge
  | InvalidContentType
  | UnknownProtocolVersion.
End RecordError.

Module Record_.
(* @src rustls/src/crypto/cipher/messages.rs 10-20 Record *)
Record t (P : Type) := new {
  typ : ContentType.t;
  version : EncodableVersion.t;
  payload : P;
}.
Arguments new {P}.
Arguments typ {P}.
Arguments version {P}.
Arguments payload {P}.
End Record_.

(** ** The record header *)

(* @src rustls/src/crypto/cipher/messages.rs 169-180 encode_record_header *)
Definition encode_record_header (typ : ContentType.t) (version : EncodableVersion.t)
    (len : Z) : list u8 :=
  ContentType.val typ
  :: be_bytes 2 (ProtocolVersion.val (EncodableVersion.encode version))
  ++ be_bytes 2 len.

(* @src rustls/src/msgs/mod.rs 236-266 read_record_header *)
Definition read_record_header (r : list u8)
    : result RecordError.t (ContentType.t * ProtocolVersion.t * Z * list u8) :=
  '(typ, r) ← map_err (λ _, RecordError.TooShortForHeader) (read (T:=ContentType.t) r);
  (* Don't accept any new content-types. *)
  if negb (is_ok (ContentTypeName.try_from typ))
  then Err RecordError.InvalidContentType else
  '(version, r) ← map_err (λ _, RecordError.TooShortForHeader)
                    (read (T:=ProtocolVersion.t) r);
  (* Accept only versions 0x03XX for any XX. *)
  if decide (Z.land (ProtocolVersion.val version) 0xff00 ≠ 0x0300)%Z
  then Err RecordError.UnknownProtocolVersion else
  '(len, r) ← map_err (λ _, RecordError.TooShortForHeader) (u16_read r);
  (* Reject undersize messages *)
  if decide (typ ≠ ContentType.ApplicationData ∧ len = 0%Z)
  then Err RecordError.InvalidEmptyPayload else
  (* Reject oversize messages *)
  if decide (len >= MAX_PAYLOAD)%Z
  then Err RecordError.MessageTooLarge else
  Ok (typ, version, len, r).

(* @src rustls/src/crypto/cipher/messages.rs 34-50 Record::read *)
Definition Record_read (r : list u8)
    : result RecordError.t (Record_.t Payload * list u8) :=
  '(typ, version, len, r) ← read_record_header r;
  '(content, r) ← ok_or (Reader.take (Z.to_nat len) r) RecordError.TooShortForLength;
  Ok (Record_.new typ (EncodableVersion.Legacy version) content, r).

(* @src rustls/src/crypto/cipher/messages.rs 72-79 Record::is_valid_ccs *)
Definition is_valid_ccs (self : Record_.t (list u8)) : bool :=
  bool_decide (Record_.typ self = ContentType.ChangeCipherSpec) &&
  bool_decide (Record_.payload self = [x01]).

(** ** Gathered plaintext *)

Module Chunks.
(* @src rustls/src/crypto/cipher/messages.rs 328-339 Chunks *)
Inductive t :=
  | Single (chunk : option (list u8))
  | Multiple (chunks : list (list u8)) (skip remaining : nat).

(** The [loop] of [next]: each turn takes one chunk off the iterator. *)
(* @src rustls/src/crypto/cipher/messages.rs 355-373 Chunks::next::loop *)
Fixpoint next_loop (chunks : list (list u8)) (skip remaining : nat)
    : option (list u8) * t :=
  if decide (remaining = 0) then (None, Multiple chunks skip remaining) else
  match chunks with
  | [] => (None, Multiple [] skip remaining)
  | chunk :: chunks =>
      match split_at_checked chunk skip with
      | None => next_loop chunks (skip - length chunk) remaining
      | Some (_, []) => next_loop chunks 0 remaining
      | Some (_, chunk) =>
          let take := length chunk `min` remaining in
          (Some (list.take take chunk), Multiple chunks 0 (remaining - take))
      end
  end.

(* @src rustls/src/crypto/cipher/messages.rs 344-374 Chunks::next *)
Definition next (self : t) : option (list u8) * t :=
  match self with
  | Single chunk => (chunk, Single None)
  | Multiple chunks skip remaining => next_loop chunks skip remaining
  end.

(** Exhausting the iterator.  [next] takes at least one chunk off when it
    yields, so [S (size c)] calls are enough ([collect_flat] below). *)
Fixpoint collect (fuel : nat) (self : t) : list (list u8) :=
  match fuel with
  | O => []
  | S fuel =>
      match next self with
      | (None, _) => []
      | (Some chunk, self) => chunk :: collect fuel self
      end
  end.

Definition size (self : t) : nat :=
  match self with
  | Single None => 0
  | Single (Some _) => 1
  | Multiple chunks _ _ => length chunks
  end.

Definition all (self : t) : list (list u8) := collect (S (size self)) self.
End Chunks.

Module OutboundPlain.
(* @src rustls/src/crypto/cipher/messages.rs 182-207 OutboundPlain *)
Inductive t :=
  | Single (chunk : list u8)
  | Multiple (chunks : list (list u8)) (start end_ : nat).

(* @src rustls/src/crypto/cipher/messages.rs 210-225 OutboundPlain::new *)
Definition new (chunks : list (list u8)) : t :=
  match chunks with
  | [chunk] => Single chunk
  | _ => Multiple chunks 0 (sum_list (length <$> chunks))
  end.

(* @src rustls/src/crypto/cipher/messages.rs 227-230 OutboundPlain::new_empty *)
Definition new_empty : t := Single [].

(* @src rustls/src/crypto/cipher/messages.rs 318-325 OutboundPlain::len *)
Definition len (self : t) : nat :=
  match self with
  | Single chunk => length chunk
  | Multiple _ start end_ => end_ - start
  end.

(* @src rustls/src/crypto/cipher/messages.rs 313-316 OutboundPlain::is_empty *)
Definition is_empty (self : t) : bool := bool_decide (len self = 0).

(* @src rustls/src/crypto/cipher/messages.rs 246-258 OutboundPlain::chunks *)
Definition chunks (self : t) : Chunks.t :=
  match self with
  | Single chunk => Chunks.Single (if decide (chunk = []) then None else Some chunk)
  | Multiple chunks start end_ => Chunks.Multiple chunks start (end_ - start)
  end.

(* @src rustls/src/crypto/cipher/messages.rs 239-244 OutboundPlain::copy_to_vec *)
Definition copy_to_vec (self : t) (vec : list u8) : list u8 :=
  fold_left (λ vec chunk, vec ++ chunk) (Chunks.all (chunks self)) vec.

(* @src rustls/src/crypto/cipher/messages.rs 232-237 OutboundPlain::to_vec *)
Definition to_vec (self : t) : list u8 := copy_to_vec self [].

(* @src rustls/src/crypto/cipher/messages.rs 260-275 OutboundPlain::single_chunk *)
Definition single_chunk (self : t) : option (list u8) :=
  match self with
  | Single chunk => Some chunk
  | _ =>
      if is_empty self then Some []
      else
        match Chunks.next (chunks self) with
        | (None, _) => None
        | (Some chunk, it) =>
            if bool_decide (length chunk = len self) &&
               match (Chunks.next it).1 with None => true | Some _ => false end
            then Some chunk else None
        end
  end.

(** The [for] loop of [split_at]: how many whole chunks end at or before [mid],
    and their total length. *)
(* @src rustls/src/crypto/cipher/messages.rs 288-296 OutboundPlain::split_at::for *)
Fixpoint split_skip (chunks : list (list u8)) (mid skip consumed : nat) : nat * nat :=
  match chunks with
  | [] => (skip, consumed)
  | chunk :: chunks =>
      if decide (mid < consumed + length chunk) then (skip, consumed)
      else split_skip chunks mid (S skip) (consumed + length chunk)
  end.

(* @src rustls/src/crypto/cipher/messages.rs 277-311 OutboundPlain::split_at *)
Definition split_at (self : t) (mid : nat) : t * t :=
  match self with
  | Single chunk =>
      let mid := mid `min` length chunk in
      (Single (take mid chunk), Single (drop mid chunk))
  | Multiple chunks start end_ =>
      let mid := (start + mid) `min` end_ in
      let '(skip, consumed) := split_skip chunks mid 0 0 in
      (Multiple chunks start mid,
       Multiple (drop skip chunks) (mid - consumed) (end_ - consumed))
  end.

(** What a payload stands for: the selected range of the concatenated chunks. *)
Definition flat (self : t) : list u8 :=
  match self with
  | Single chunk => chunk
  | Multiple chunks start end_ => slice start end_ (concat chunks)
  end.

(** The cursors are ordered and in range. *)
Definition wf (self : t) : Prop :=
  match self with
  | Single _ => True
  | Multiple chunks start end_ => start ≤ end_ ≤ length (concat chunks)
  end.
End OutboundPlain.

(* @src rustls/src/crypto/cipher/messages.rs 161-166 Record::encode_unencrypted *)
Definition encode_unencrypted (self : Record_.t OutboundPlain.t) (buf : list u8) : list u8 :=
  let len := OutboundPlain.len (Record_.payload self) in
  OutboundPlain.copy_to_vec (Record_.payload self)
    (buf ++ encode_record_header (Record_.typ self) (Record_.version self)
              (wrapN 16 (Z.of_nat len))).

(* @src rustls/src/crypto/cipher/messages.rs 151-159 Record::to_unencrypted_bytes *)
Definition to_unencrypted_bytes (self : Record_.t OutboundPlain.t) : list u8 :=
  encode_unencrypted self [].

(* @src rustls/src/crypto/cipher/messages.rs 52-59 Record::borrow_outbound *)
Definition borrow_outbound (self : Record_.t Payload) : Record_.t OutboundPlain.t :=
  Record_.new (Record_.typ self) (Record_.version self)
    (OutboundPlain.Single (Record_.payload self)).

(** ** The encryption output buffer *)

Module EncryptBuffer.
(* @src rustls/src/crypto/cipher/messages.rs 395-416 EncryptBuffer *)
Record t := mk { buf : list u8; used : nat }.

(* @src rustls/src/crypto/cipher/messages.rs 419-432 EncryptBuffer::new *)
Definition new (out : list u8) (len : nat) : result Error.t t :=
  let provided := length out in
  match get_range out (mkRange 0 len) with
  | Some buf => Ok (mk buf 0)
  | None => Err (Error.ApiMisuse (ApiMisuse.EncryptBufferTooSmall len provided))
  end.

(* @src rustls/src/crypto/cipher/messages.rs 451-459 EncryptBuffer::extend_from_slice *)
Definition extend_from_slice {E} (self : t) (slice : list u8) : result E t :=
  buf ← write_at (buf self) (used self) slice;
  mret (mk buf (used self + length slice)).

(* @src rustls/src/crypto/cipher/messages.rs 434-449 EncryptBuffer::extend_from_chunks *)
Definition extend_from_chunks {E} (self : t) (chunks : OutboundPlain.t) : result E t :=
  match chunks with
  | OutboundPlain.Single chunk => extend_from_slice self chunk
  | chunks =>
      fold_left (λ self chunk, self ← self; extend_from_slice self chunk)
        (Chunks.all (OutboundPlain.chunks chunks)) (Ok self)
  end.

(* @src rustls/src/crypto/cipher/messages.rs 461-464 EncryptBuffer::into_written *)
Definition into_written (self : t) : list u8 := take (used self) (buf self).
End EncryptBuffer.

(** ** Inbound payloads and the TLS 1.3 inner plaintext *)

Module InboundOpaque.
(* @src rustls/src/crypto/cipher/messages.rs 541-550 InboundOpaque::truncate *)
Definition truncate (self : list u8) (len : nat) : list u8 :=
  if decide (length self ≤ len) then self else take len self.

(* @src rustls/src/crypto/cipher/messages.rs 556-565 InboundOpaque::pop *)
Definition pop (self : list u8) : option (u8 * list u8) :=
  if decide (self = []) then None else
  let len := length self in
  last ← self !! (len - 1);
  Some (last, truncate self (len - 1)).
End InboundOpaque.

(** The loop pops one byte a turn: [S (length p)] turns are enough
    ([unpad_spec] below). *)
(* @src rustls/src/crypto/cipher/messages.rs 628-634 unpad_tls13_payload::loop *)
Fixpoint unpad_loop (fuel : nat) (p : list u8) : ContentType.t * list u8 :=
  match fuel with
  | O => (ContentType.new x00, p)
  | S fuel =>
      match InboundOpaque.pop p with
      | Some (content_type, p) =>
          if decide (content_type = x00) then unpad_loop fuel p
          else (ContentType.new content_type, p)
      | None => (ContentType.new x00, p)
      end
  end.

(* @src rustls/src/crypto/cipher/messages.rs 620-635 unpad_tls13_payload *)
Definition unpad_tls13_payload (p : list u8) : ContentType.t * list u8 :=
  unpad_loop (S (length p)) p.

(* @src rustls/src/crypto/cipher/messages.rs 136-147 Record::into_plain_record *)
Definition into_plain_record (self : Record_.t (list u8)) : Record_.t (list u8) := self.

(* @src rustls/src/crypto/cipher/messages.rs 120-134 Record::into_plain_record_range *)
Definition into_plain_record_range {E} (self : Record_.t (list u8)) (range : Range)
    : result E (Record_.t (list u8)) :=
  payload ← unwrap (get_range (Record_.payload self) range);
  mret (Record_.new (Record_.typ self) (Record_.version self) payload).

(* @src rustls/src/crypto/cipher/messages.rs 83-118 Record::into_tls13_unpadded_record *)
Definition into_tls13_unpadded_record (self : Record_.t (list u8))
    : result Error.t (Record_.t (list u8)) :=
  let payload := Record_.payload self in
  if decide (Record_.typ self ≠ ContentType.ApplicationData)
  then Err (Error.PeerMisbehaved PeerMisbehaved.IllegalTls13ContentType) else
  if decide (Z.of_nat (length payload) > MAX_FRAGMENT_LEN + 1)%Z
  then Err Error.PeerSentOversizedRecord else
  let '(typ, payload) := unpad_tls13_payload payload in
  if decide (typ = ContentType.new x00)
  then Err (Error.PeerMisbehaved PeerMisbehaved.IllegalTlsInnerPlaintext) else
  if decide (typ = ContentType.ChangeCipherSpec)
  then Err (Error.PeerMisbehaved PeerMisbehaved.IllegalMiddleboxChangeCipherSpec) else
  if decide (Z.of_nat (length payload) > MAX_FRAGMENT_LEN)%Z
  then Err Error.PeerSentOversizedRecord else
  Ok (into_plain_record
        (Record_.new typ (EncodableVersion.Legacy ProtocolVersion.TLSv1_3) payload)).

(** ** Gathered plaintext: the cursors implement a flat byte string *)

Definition chunks_flat (c : Chunks.t) : list u8 :=
  match c with
  | Chunks.Single o => default [] o
  | Chunks.Multiple chunks skip remaining => take remaining (drop skip (concat chunks))
  end.

(** What one call of [next] does to the bytes still to come. *)
Definition next_ok (bytes : list u8) (n : nat) (r : option (list u8) * Chunks.t) : Prop :=
  match r with
  | (None, _) => bytes = []
  | (Some chunk, c) =>
      chunk ≠ [] ∧ bytes = chunk ++ chunks_flat c ∧ Chunks.size c < n
  end.

Lemma next_loop_ok chunks skip remaining :
  next_ok (take remaining (drop skip (concat chunks))) (length chunks)
    (Chunks.next_loop chunks skip remaining).
Proof.
  revert skip. induction chunks as [|chunk chunks IH]; intros skip;
    cbn [Chunks.next_loop concat foldr].
  { case_decide; simpl; by rewrite drop_nil, take_nil. }
  case_decide as Hr; [by subst|].
  destruct (split_at_checked chunk skip) as [[k1 [|b k2]]|] eqn:E.
  - apply split_at_checked_Some in E as [-> Hk]. rewrite app_nil_r in *.
    specialize (IH 0). rewrite drop_app_ge by lia.
    replace (skip - length k1) with 0 by lia.
    destruct Chunks.next_loop as [[]]; simpl in *; naive_solver lia.
  - apply split_at_checked_Some in E as [-> Hk].
    rewrite <-(assoc_L (++)), drop_app_length' by lia.
    set (k := b :: k2). cbn [next_ok chunks_flat Chunks.size length].
    split_and!; [by destruct remaining| |lia]. rewrite drop_0, take_app.
    destruct (decide (length k ≤ remaining)).
    + rewrite Nat.min_l, !(take_ge k) by lia. done.
    + rewrite Nat.min_r by lia. by replace (remaining - length k) with 0 by lia;
        rewrite Nat.sub_diag, !take_0.
  - apply split_at_checked_None in E. specialize (IH (skip - length chunk)).
    rewrite drop_app_ge by lia.
    destruct Chunks.next_loop as [[]]; simpl in *; naive_solver lia.
Qed.

Lemma next_ok_all c : next_ok (chunks_flat c) (Chunks.size c) (Chunks.next c) ∨
  ∃ chunk, c = Chunks.Single (Some chunk) ∧ Chunks.next c = (Some chunk, Chunks.Single None).
Proof.
  destruct c as [[chunk|]|]; [right; by exists chunk|by left|left; apply next_loop_ok].
Qed.

Lemma collect_flat fuel c :
  Chunks.size c < fuel → concat (Chunks.collect fuel c) = chunks_flat c.
Proof.
  revert c. induction fuel as [|fuel IH]; intros c Hf; [lia|]. simpl.
  destruct (next_ok_all c) as [H|(chunk & -> & ->)].
  - destruct (Chunks.next c) as [[chunk|] c']; simpl in *; [|done].
    destruct H as (_ & -> & ?). by rewrite IH by lia.
  - simpl in *. rewrite IH by (simpl; lia). apply app_nil_r.
Qed.

Lemma fold_left_app {A} (l : list (list A)) acc :
  fold_left (λ vec chunk, vec ++ chunk) l acc = acc ++ concat l.
Proof.
  revert acc. induction l as [|x l IH]; intros acc; simpl; [by rewrite app_nil_r|].
  by rewrite IH, (assoc_L (++)).
Qed.

Lemma chunks_flat_flat p : chunks_flat (OutboundPlain.chunks p) = OutboundPlain.flat p.
Proof. destruct p; simpl; [by case_decide; subst|done]. Qed.

Lemma all_flat p : concat (Chunks.all (OutboundPlain.chunks p)) = OutboundPlain.flat p.
Proof. unfold Chunks.all. rewrite collect_flat by lia. apply chunks_flat_flat. Qed.

Lemma copy_to_vec_flat p vec :
  OutboundPlain.copy_to_vec p vec = vec ++ OutboundPlain.flat p.
Proof. unfold OutboundPlain.copy_to_vec. by rewrite fold_left_app, all_flat. Qed.

Lemma to_vec_flat p : OutboundPlain.to_vec p = OutboundPlain.flat p.
Proof. apply copy_to_vec_flat. Qed.

Lemma len_flat p : OutboundPlain.wf p → OutboundPlain.len p = length (OutboundPlain.flat p).
Proof. destruct p; simpl; [done|]. intros. rewrite length_slice; lia. Qed.

Lemma sum_list_length {A} (l : list (list A)) : sum_list (length <$> l) = length (concat l).
Proof. induction l; csimpl; [done|]. rewrite length_app. lia. Qed.

Lemma new_wf chunks :
  OutboundPlain.wf (OutboundPlain.new chunks) ∧
  OutboundPlain.flat (OutboundPlain.new chunks) = concat chunks.
Proof.
  unfold OutboundPlain.new. rewrite sum_list_length.
  destruct chunks as [|c [|c' cs]]; simpl; rewrite ?app_nil_r; split; auto with lia;
    apply slice_full.
Qed.

(** The chunks passed over by [split_at] are whole, and end at or before [mid]. *)
Lemma split_skip_spec chunks mid skip consumed skip' consumed' :
  consumed ≤ mid →
  OutboundPlain.split_skip chunks mid skip consumed = (skip', consumed') →
  skip ≤ skip' ∧ consumed ≤ consumed' ≤ mid ∧
  drop (consumed' - consumed) (concat chunks) = concat (drop (skip' - skip) chunks) ∧
  consumed' - consumed ≤ length (concat chunks).
Proof.
  revert skip consumed. induction chunks as [|c cs IH]; intros skip consumed Hc; simpl.
  { intros [= <- <-]. rewrite !Nat.sub_diag. simpl. split_and!; auto with lia. }
  case_decide.
  { intros [= <- <-]. rewrite !Nat.sub_diag, !drop_0. split_and!; auto with lia. }
  intros (Hs & Hc' & Hd & Hl)%IH; [|lia].
  replace (skip' - skip) with (S (skip' - S skip)) by lia. simpl.
  rewrite length_app. split_and!; [lia..| |lia].
  rewrite <-Hd, drop_app_ge by lia. f_equal. lia.
Qed.

Lemma split_at_flat p mid :
  OutboundPlain.wf p →
  let '(a, b) := OutboundPlain.split_at p mid in
  OutboundPlain.flat a = take mid (OutboundPlain.flat p) ∧
  OutboundPlain.flat b = drop mid (OutboundPlain.flat p) ∧
  OutboundPlain.wf a ∧ OutboundPlain.wf b.
Proof.
  destruct p as [c|cs s e]; intros Hwf; cbn [OutboundPlain.split_at].
  - cbn [OutboundPlain.flat OutboundPlain.wf]. destruct (decide (mid ≤ length c)).
    + by rewrite Nat.min_l by lia.
    + by rewrite Nat.min_r, !take_ge, !drop_ge by lia.
  - set (m := (s + mid) `min` e).
    destruct (OutboundPlain.split_skip cs m 0 0) as [skip consumed] eqn:E.
    apply split_skip_spec in E as (_ & Hc & Hd & Hl); [|lia].
    rewrite !Nat.sub_0_r in *. simpl in *.
    rewrite <-Hd, length_drop. split_and!; [| |lia..].
    + unfold slice. rewrite take_take. f_equal. lia.
    + rewrite slice_shift. apply list_eq. intros i.
      rewrite lookup_drop, !lookup_slice. repeat case_decide; try lia; f_equal; lia.
Qed.

Lemma single_chunk_flat p c :
  OutboundPlain.wf p → OutboundPlain.single_chunk p = Some c → c = OutboundPlain.flat p.
Proof.
  intros Hwf H. destruct p as [c'|cs s e]; [by simplify_eq/=|].
  unfold OutboundPlain.single_chunk, OutboundPlain.is_empty in H.
  pose proof (len_flat _ Hwf) as Hlen.
  case_bool_decide as He; [simplify_eq; symmetry; apply nil_length_inv; congruence|].
  pose proof (next_loop_ok cs s (e - s)) as Hn.
  cbn [OutboundPlain.chunks Chunks.next] in H.
  destruct (Chunks.next_loop cs s (e - s)) as [[c'|] it]; [|done].
  destruct Hn as (_ & Hn & _). cbn [OutboundPlain.flat OutboundPlain.len] in *.
  unfold slice in *. rewrite Hn in *. rewrite length_app in Hlen.
  case_bool_decide; [|done]. destruct (Chunks.next it).1; simplify_eq/=.
  rewrite (nil_length_inv (chunks_flat it)) by lia. by rewrite app_nil_r.
Qed.

(** ** The encryption buffer collects exactly what is appended *)

Lemma extend_from_slice_spec {E} (b : EncryptBuffer.t) k :
  EncryptBuffer.used b + length k ≤ length (EncryptBuffer.buf b) →
  ∃ b', EncryptBuffer.extend_from_slice (E:=E) b k = Ok b' ∧
    EncryptBuffer.into_written b' = EncryptBuffer.into_written b ++ k ∧
    EncryptBuffer.used b' = EncryptBuffer.used b + length k ∧
    length (EncryptBuffer.buf b') = length (EncryptBuffer.buf b).
Proof.
  intros H. unfold EncryptBuffer.extend_from_slice, write_at.
  rewrite decide_True by lia. eexists. split; [done|].
  unfold EncryptBuffer.into_written. cbn [EncryptBuffer.buf EncryptBuffer.used].
  rewrite !length_app, length_take, length_drop. split_and!; [|done|lia].
  rewrite (assoc_L (++)), take_app_le, take_ge; [done|..];
    rewrite length_app, length_take; lia.
Qed.

Lemma extend_fold {E} chunks (b : EncryptBuffer.t) :
  EncryptBuffer.used b + length (concat chunks) ≤ length (EncryptBuffer.buf b) →
  ∃ b', fold_left (λ self chunk, self ← self; EncryptBuffer.extend_from_slice self chunk)
          chunks (Ok (E:=E) b) = Ok b' ∧
    EncryptBuffer.into_written b' = EncryptBuffer.into_written b ++ concat chunks ∧
    EncryptBuffer.used b' = EncryptBuffer.used b + length (concat chunks) ∧
    length (EncryptBuffer.buf b') = length (EncryptBuffer.buf b).
Proof.
  revert b. induction chunks as [|c cs IH]; intros b; simpl.
  { intros. exists b. rewrite app_nil_r. split_and!; auto with lia. }
  rewrite length_app. intros H.
  destruct (extend_from_slice_spec (E:=E) b c) as (b1 & -> & Hw & Hu & Hl); [lia|].
  destruct (IH b1) as (b2 & -> & Hw2 & Hu2 & Hl2); [lia|].
  exists b2. rewrite Hw2, Hw, (assoc_L (++)). split_and!; auto with lia.
Qed.

Lemma extend_from_chunks_spec {E} (b : EncryptBuffer.t) p :
  EncryptBuffer.used b + length (OutboundPlain.flat p) ≤ length (EncryptBuffer.buf b) →
  ∃ b', EncryptBuffer.extend_from_chunks (E:=E) b p = Ok b' ∧
    EncryptBuffer.into_written b' = EncryptBuffer.into_written b ++ OutboundPlain.flat p ∧
    EncryptBuffer.used b' = EncryptBuffer.used b + length (OutboundPlain.flat p) ∧
    length (EncryptBuffer.buf b') = length (EncryptBuffer.buf b).
Proof.
  destruct p as [c|cs s e]; [apply extend_from_slice_spec|].
  rewrite <-all_flat. apply extend_fold.
Qed.

Lemma extend_from_slice_panic {E} (b : EncryptBuffer.t) k :
  length (EncryptBuffer.buf b) < EncryptBuffer.used b + length k →
  EncryptBuffer.extend_from_slice (E:=E) b k = Panic.
Proof.
  intros H. unfold EncryptBuffer.extend_from_slice, write_at. by rewrite decide_False by lia.
Qed.

Lemma extend_from_chunks_panic {E} (b : EncryptBuffer.t) p :
  EncryptBuffer.used b ≤ length (EncryptBuffer.buf b) →
  length (EncryptBuffer.buf b) < EncryptBuffer.used b + length (OutboundPlain.flat p) →
  EncryptBuffer.extend_from_chunks (E:=E) b p = Panic.
Proof.
  destruct p as [c|cs s e]; intros Hu H; [by apply extend_from_slice_panic|].
  rewrite <-all_flat in H. cbn [EncryptBuffer.extend_from_chunks].
  revert b Hu H. induction (Chunks.all _) as [|c cs' IH]; intros b Hu H; simpl in *; [lia|].
  rewrite length_app in H.
  destruct (decide (EncryptBuffer.used b + length c ≤ length (EncryptBuffer.buf b))).
  - destruct (extend_from_slice_spec (E:=E) b c) as (b1 & -> & _ & Hu1 & Hl1); [done|].
    apply IH; lia.
  - rewrite extend_from_slice_panic by lia. clear. by induction cs'.
Qed.

(** ** TLS 1.3 inner plaintext *)

Lemma pop_snoc p b : InboundOpaque.pop (p ++ [b]) = Some (b, p).
Proof.
  unfold InboundOpaque.pop. rewrite decide_False by (by destruct p).
  rewrite length_app. simpl.
  replace (length p + 1 - 1) with (length p + 0) by lia.
  rewrite lookup_app_r, Nat.add_0_r, Nat.sub_diag by lia. simpl.
  unfold InboundOpaque.truncate. rewrite length_app. simpl.
  by rewrite decide_False, take_app_length by lia.
Qed.

Lemma unpad_loop_zeros n p fuel :
  unpad_loop (n + fuel) (p ++ replicate n x00) = unpad_loop fuel p.
Proof.
  induction n as [|n IH]; simpl; [by rewrite app_nil_r|].
  by rewrite replicate_cons_app, (assoc_L (++)), pop_snoc.
Qed.

Lemma unpad_content p b n :
  b ≠ x00 → unpad_tls13_payload (p ++ b :: replicate n x00) = (ContentType.new b, p).
Proof.
  intros Hb. unfold unpad_tls13_payload.
  rewrite length_app. cbn [length]. rewrite length_replicate.
  replace (S (length p + S n)) with (n + S (S (length p))) by lia.
  rewrite cons_middle, (assoc_L (++)), unpad_loop_zeros.
  cbn [unpad_loop]. by rewrite pop_snoc, decide_False.
Qed.

Lemma unpad_zeros n : unpad_tls13_payload (replicate n x00) = (ContentType.new x00, []).
Proof.
  unfold unpad_tls13_payload. rewrite length_replicate.
  replace (S n) with (n + 1) by lia.
  change (replicate n x00) with ([] ++ replicate n x00). by rewrite unpad_loop_zeros.
Qed.

(** Every payload is padding, or a content, a type and padding. *)
Lemma inner_plaintext_cases (p : list u8) :
  p = replicate (length p) x00 ∨ ∃ q b n, b ≠ x00 ∧ p = q ++ b :: replicate n x00.
Proof.
  induction p as [|b p IH] using rev_ind; [by left|].
  destruct (decide (b = x00)) as [->|Hb]; [|right; by exists p, b, 0].
  rewrite length_app, Nat.add_comm. simpl.
  destruct IH as [IH|(q & c & n & Hc & ->)].
  - left. by rewrite replicate_cons_app, <-IH.
  - right. exists q, c, (S n). split; [done|].
    simpl. by rewrite replicate_cons_app, <-(assoc_L (++)).
Qed.

(** ** The record header *)

(** The headers [read_record_header] accepts. *)
Definition header_ok (typ : ContentType.t) (version : ProtocolVersion.t) (len : Z) : Prop :=
  is_ok (ContentTypeName.try_from typ) = true ∧
  is_u16 (ProtocolVersion.val version) ∧
  Z.land (ProtocolVersion.val version) 0xff00 = 0x0300%Z ∧
  is_u16 len ∧ (len < MAX_PAYLOAD)%Z ∧
  (typ = ContentType.ApplicationData ∨ len ≠ 0%Z).

Definition header_bytes (typ : ContentType.t) (version : ProtocolVersion.t) (len : Z) : list u8 :=
  ContentType.val typ :: be_bytes 2 (ProtocolVersion.val version) ++ be_bytes 2 len.

Lemma encode_record_header_bytes typ version len :
  encode_record_header typ version len = header_bytes typ (EncodableVersion.encode version) len.
Proof. done. Qed.

Lemma length_header typ version len : length (header_bytes typ version len) = HEADER_SIZE.
Proof. done. Qed.

Lemma enum8_read_cons (b : u8) r : read (T:=ContentType.t) (b :: r) = Ok (ContentType.new b, r).
Proof. done. Qed.

Lemma version_read_app v r :
  is_u16 v → read (T:=ProtocolVersion.t) (be_bytes 2 v ++ r) = Ok (ProtocolVersion.new v, r).
Proof. intros. cbn. by rewrite u16_read_app. Qed.

Lemma read_record_header_app typ version len rest :
  header_ok typ version len →
  read_record_header (header_bytes typ version len ++ rest) = Ok (typ, version, len, rest).
Proof.
  intros (Ht & Hv & Hm & Hl & Hmax & Hz). destruct typ as [b], version as [v].
  unfold read_record_header, header_bytes. rewrite <-app_comm_cons, <-(assoc_L (++)).
  cbn [ContentType.val ProtocolVersion.val] in *.
  rewrite enum8_read_cons. step_ok. rewrite Ht. cbn [negb].
  rewrite version_read_app by done. step_ok.
  rewrite decide_False by naive_solver. rewrite u16_read_app by done. step_ok.
  rewrite decide_False by naive_solver. by rewrite decide_False by lia.
Qed.

Lemma read_record_header_inv bs typ version len rest :
  read_record_header bs = Ok (typ, version, len, rest) →
  header_ok typ version len ∧ bs = header_bytes typ version len ++ rest.
Proof.
  unfold read_record_header. intros H.
  apply result_bind_ok in H as ([t r1] & H1 & H). apply map_err_ok in H1.
  apply read_inv in H1 as [_ ->].
  destruct (is_ok (ContentTypeName.try_from t)) eqn:Ht; [|done]. simpl negb in H.
  apply result_bind_ok in H as ([v r2] & H2 & H). apply map_err_ok in H2.
  apply read_inv in H2 as [Hv ->]. case_decide; [done|].
  apply result_bind_ok in H as ([l r3] & H3 & H). apply map_err_ok in H3.
  apply u16_read_inv in H3 as [Hl ->]. repeat case_decide; simplify_eq.
  split; [|unfold header_bytes; by rewrite <-app_comm_cons, <-(assoc_L (++))].
  unfold header_ok. split_and!; try done; [by apply dec_stable|].
  destruct (decide (typ = ContentType.ApplicationData)); naive_solver.
Qed.

Lemma version_read_cons a b r :
  read (T:=ProtocolVersion.t) (a :: b :: r) = Ok (ProtocolVersion.new (be_val [a; b]), r).
Proof. done. Qed.

Lemma u16_read_cons a b r : u16_read (a :: b :: r) = Ok (be_val [a; b], r).
Proof. done. Qed.

(** An error other than [TooShortForHeader] is there to stay. *)
Lemma read_record_header_err bs more e :
  read_record_header bs = Err e →
  (e = RecordError.TooShortForHeader ∧ length bs < HEADER_SIZE) ∨
  (e ≠ RecordError.TooShortForHeader ∧ e ≠ RecordError.TooShortForLength ∧
   read_record_header (bs ++ more) = Err e).
Proof.
  unfold read_record_header, HEADER_SIZE.
  destruct bs as [|t bs]; [intros [= <-]; left; simpl; split; [done|lia]|].
  cbn [app]. rewrite !enum8_read_cons. step_ok.
  destruct (negb _); [intros [= <-]; by right|].
  destruct bs as [|v1 [|v2 bs]];
    [intros [= <-]; left; simpl; split; [done|lia]..|].
  cbn [app]. rewrite !version_read_cons. step_ok.
  case_decide; [intros [= <-]; by right|].
  destruct bs as [|l1 [|l2 bs]];
    [intros [= <-]; left; simpl; split; [done|lia]..|].
  cbn [app]. rewrite !u16_read_cons. step_ok.
  repeat case_decide; intros [= <-]; by right.
Qed.

Lemma read_record_header_no_panic bs : read_record_header bs ≠ Panic.
Proof.
  unfold read_record_header.
  destruct bs as [|t [|v1 [|v2 bs]]]; try done;
    rewrite enum8_read_cons; step_ok; destruct (negb _); try done.
  rewrite version_read_cons. step_ok. case_decide; [done|].
  destruct bs as [|l1 [|l2 bs]]; [done..|].
  rewrite u16_read_cons. step_ok. by repeat case_decide.
Qed.

Lemma Record_read_app typ version payload rest :
  header_ok typ version (Z.of_nat (length payload)) →
  Record_read (header_bytes typ version (Z.of_nat (length payload)) ++ payload ++ rest)
  = Ok (Record_.new typ (EncodableVersion.Legacy version) payload, rest).
Proof.
  intros H. unfold Record_read. rewrite read_record_header_app by done. step_ok.
  unfold Reader.take. by rewrite Nat2Z.id, split_at_checked_app.
Qed.

Lemma Record_read_inv bs r rest :
  Record_read bs = Ok (r, rest) →
  ∃ typ version payload, r = Record_.new typ (EncodableVersion.Legacy version) payload ∧
    header_ok typ version (Z.of_nat (length payload)) ∧
    bs = header_bytes typ version (Z.of_nat (length payload)) ++ payload ++ rest.
Proof.
  unfold Record_read. intros H.
  apply result_bind_ok in H as ([[[typ v] len] r1] & (Hok & ->)%read_record_header_inv & H).
  unfold Reader.take in H. destruct split_at_checked as [[c r2]|] eqn:E; [|done].
  apply split_at_checked_Some in E as [-> Hl]. simplify_eq/=.
  exists typ, v, c. assert (len = Z.of_nat (length c)) as ->; [|done].
  destruct Hok as (_ & _ & _ & [? ?] & _). lia.
Qed.

Lemma Record_read_no_panic bs : Record_read bs ≠ Panic.
Proof.
  unfold Record_read. pose proof (read_record_header_no_panic bs).
  destruct (read_record_header bs) as [[[[typ v] len] r1]| |]; [|done..].
  unfold mbind, result_bind. by destruct Reader.take as [[]|].
Qed.

(** A valid header with too few bytes behind it is the start of a record. *)
Lemma Record_read_complete typ version len r1 :
  header_ok typ version len → length r1 < Z.to_nat len →
  ∃ k r, Record_read ((header_bytes typ version len ++ r1) ++ k) = Ok (r, []).
Proof.
  intros Hok Hs. set (n := Z.to_nat len - length r1).
  exists (replicate n x00). eexists.
  assert (len = Z.of_nat (length (r1 ++ replicate n x00))) as Hlen.
  { rewrite length_app, length_replicate. destruct Hok as (_ & _ & _ & [? ?] & _). lia. }
  rewrite Hlen in Hok |- *. apply (Record_read_app _ _ _ []) in Hok.
  by rewrite app_nil_r, (assoc_L (++)) in Hok.
Qed.

Lemma Record_read_more bs more :
  match Record_read bs with
  | Ok (r, rest) => Record_read (bs ++ more) = Ok (r, rest ++ more)
  | Err e => e ≠ RecordError.TooShortForHeader ∧ e ≠ RecordError.TooShortForLength →
      Record_read (bs ++ more) = Err e
  | Panic => False
  end.
Proof.
  destruct (Record_read bs) as [[r rest]|e|] eqn:H.
  - apply Record_read_inv in H as (typ & v & p & -> & Hok & ->).
    rewrite <-!(assoc_L (++)). by apply Record_read_app.
  - intros [Hh Hl]. unfold Record_read in *.
    destruct (read_record_header bs) as [[[[typ v] len] r1]|e'|] eqn:E; [| |done].
    + unfold Reader.take, mbind, result_bind in H. destruct split_at_checked as [[]|]; by simplify_eq/=.
    + cbn in H. injection H as <-.
      destruct (read_record_header_err _ more _ E) as [[-> ?]|(? & ? & E')]; [done|]. by rewrite E'.
  - by apply Record_read_no_panic in H.
Qed.

(** ** Main results *)

(** [Record::read] separates a prefix of a record from invalid data: a
    successful read does not depend on what follows; [TooShortForHeader] is
    returned only for less than a header; after [TooShortForLength] some
    continuation makes a record; any other error is returned for every
    continuation; and no input panics. *)
Theorem record_read_prefix (bs more : list u8) :
  match Record_read bs with
  | Ok (r, rest) => Record_read (bs ++ more) = Ok (r, rest ++ more)
  | Err RecordError.TooShortForHeader => length bs < HEADER_SIZE
  | Err RecordError.TooShortForLength => ∃ k r, Record_read (bs ++ k) = Ok (r, [])
  | Err e => Record_read (bs ++ more) = Err e
  | Panic => False
  end.
Proof.
  destruct (Record_read bs) as [[r rest]|e|] eqn:H.
  - apply Record_read_inv in H as (typ & v & p & -> & Hok & ->).
    rewrite <-!(assoc_L (++)). by apply Record_read_app.
  - unfold Record_read in *.
    destruct (read_record_header bs) as [[[[typ v] len] r1]|e'|] eqn:E.
    + apply read_record_header_inv in E as [Hok ->].
      unfold Reader.take, mbind, result_bind in H.
      destruct split_at_checked as [[]|] eqn:Hs; simplify_eq/=.
      apply split_at_checked_None in Hs. by apply Record_read_complete.
    + destruct (read_record_header_err _ more _ E) as [[-> ?]|(? & ? & E')];
        simplify_eq/=; [done|]. rewrite E'. by destruct e.
    + done.
  - by apply Record_read_no_panic in H.
Qed.

(** Writing a record unencrypted and reading it back gives its content type,
    its wire version and the bytes of its gathered payload, and leaves what
    follows: the sender's framing is what the receiver's header reader expects. *)
Theorem unencrypted_roundtrip (r : Record_.t OutboundPlain.t) (rest : list u8)
    (Hwf : OutboundPlain.wf (Record_.payload r))
    (Htyp : is_ok (ContentTypeName.try_from (Record_.typ r)) = true)
    (Hlen : (Z.of_nat (OutboundPlain.len (Record_.payload r)) < MAX_PAYLOAD)%Z)
    (Hempty : Record_.typ r = ContentType.ApplicationData ∨
              OutboundPlain.len (Record_.payload r) ≠ 0) :
  Record_read (to_unencrypted_bytes r ++ rest) =
    Ok (Record_.new (Record_.typ r)
          (EncodableVersion.Legacy (EncodableVersion.encode (Record_.version r)))
          (OutboundPlain.to_vec (Record_.payload r)), rest).
Proof.
  unfold to_unencrypted_bytes, encode_unencrypted.
  rewrite copy_to_vec_flat, to_vec_flat, encode_record_header_bytes.
  rewrite (len_flat _ Hwf) in *. unfold MAX_PAYLOAD in *.
  rewrite wrapN_small, app_nil_l, <-(assoc_L (++)) by lia.
  apply Record_read_app. unfold header_ok, is_u16, MAX_PAYLOAD.
  split_and!; try done; try lia; [by destruct (Record_.version r) as [|[]]..|].
  destruct Hempty; [by left|right; lia].
Qed.

Lemma unencrypted_roundtrip_witness :
  let r := Record_.new ContentType.Handshake
             (EncodableVersion.InitialClientHello Protocol.Tcp)
             (OutboundPlain.new [[x01]; []; [x02; x03]]) in
  Record_read (to_unencrypted_bytes r ++ [x17]) =
    Ok (Record_.new ContentType.Handshake
          (EncodableVersion.Legacy ProtocolVersion.TLSv1_0) [x01; x02; x03], [x17]).
Proof.
  intros r. apply (unencrypted_roundtrip r [x17]).
  - vm_compute. lia.
  - reflexivity.
  - reflexivity.
  - right. vm_compute. discriminate.
Defined.

(** [OutboundPlain] implements a byte string: made from chunks it is their
    concatenation, [len] and [to_vec] are the length and the bytes of that
    string, and [split_at] cuts it in two at [mid] (at its end when out of
    range), whatever the chunking, with cursors that stay in range. *)
Theorem outbound_plain_refines (chunks : list (list u8)) (p : OutboundPlain.t) (mid : nat)
    (Hwf : OutboundPlain.wf p) :
  OutboundPlain.wf (OutboundPlain.new chunks) ∧
  OutboundPlain.to_vec (OutboundPlain.new chunks) = concat chunks ∧
  OutboundPlain.len p = length (OutboundPlain.to_vec p) ∧
  (∀ c, OutboundPlain.single_chunk p = Some c → c = OutboundPlain.to_vec p) ∧
  let '(a, b) := OutboundPlain.split_at p mid in
  OutboundPlain.wf a ∧ OutboundPlain.wf b ∧
  OutboundPlain.to_vec a = take mid (OutboundPlain.to_vec p) ∧
  OutboundPlain.to_vec b = drop mid (OutboundPlain.to_vec p).
Proof.
  pose proof (split_at_flat p mid Hwf) as H. rewrite !to_vec_flat.
  destruct (new_wf chunks) as [? ?]. split_and!; [done..|by apply len_flat| |].
  - intros c. by apply single_chunk_flat.
  - destruct (OutboundPlain.split_at p mid) as [a b]. rewrite !to_vec_flat. naive_solver.
Qed.

Lemma outbound_plain_refines_witness :
  let p := OutboundPlain.new [[x01]; []; [x02; x03]] in
  OutboundPlain.to_vec (OutboundPlain.split_at p 2).2 = [x03].
Proof.
  intros p. assert (OutboundPlain.wf p) as Hwf by (vm_compute; lia).
  pose proof (outbound_plain_refines [[x01]; []; [x02; x03]] p 2 Hwf) as (_ & _ & _ & _ & H).
  apply H.
Defined.

(** Appending a gathered payload to an [EncryptBuffer] succeeds exactly when
    it fits the declared length, and then the written prefix grows by the
    payload's bytes; when it does not fit the append panics. *)
Theorem encrypt_buffer_extend (b : EncryptBuffer.t) (p : OutboundPlain.t)
    (Hwf : OutboundPlain.wf p) (Hused : EncryptBuffer.used b ≤ length (EncryptBuffer.buf b)) :
  match EncryptBuffer.extend_from_chunks (E:=Error.t) b p with
  | Ok b' =>
      EncryptBuffer.used b + OutboundPlain.len p ≤ length (EncryptBuffer.buf b) ∧
      EncryptBuffer.into_written b' = EncryptBuffer.into_written b ++ OutboundPlain.to_vec p ∧
      EncryptBuffer.used b' ≤ length (EncryptBuffer.buf b')
  | Err _ => False
  | Panic => length (EncryptBuffer.buf b) < EncryptBuffer.used b + OutboundPlain.len p
  end.
Proof.
  rewrite (len_flat _ Hwf), to_vec_flat.
  destruct (decide (EncryptBuffer.used b + length (OutboundPlain.flat p)
                    ≤ length (EncryptBuffer.buf b))) as [Hfit|Hno].
  - destruct (extend_from_chunks_spec (E:=Error.t) b p Hfit) as (b' & -> & Hw & Hu & Hl).
    split_and!; auto with lia.
  - rewrite extend_from_chunks_panic by lia. lia.
Qed.

Lemma encrypt_buffer_extend_witness :
  match EncryptBuffer.extend_from_chunks (E:=Error.t)
          (EncryptBuffer.mk [xaa; xff; xff; xff] 1) (OutboundPlain.new [[x01]; [x02]]) with
  | Ok b' => EncryptBuffer.into_written b' = [xaa; x01; x02]
  | _ => False
  end.
Proof.
  pose proof (encrypt_buffer_extend (EncryptBuffer.mk [xaa; xff; xff; xff] 1)
    (OutboundPlain.new [[x01]; [x02]]) ltac:(vm_compute; lia) ltac:(vm_compute; lia)) as H.
  vm_compute in H |- *. apply H.
Defined.

(** [into_tls13_unpadded_record] decodes [TLSInnerPlaintext] exactly: it
    returns content [p] of type [b] precisely when the record is of type
    application data, its payload is [p], the byte [b] and zeros, [b] is neither
    zero nor change_cipher_spec, and neither the payload nor the content is
    oversized.  Every other record is an error; none panics. *)
Theorem tls13_unpadded_iff (r : Record_.t (list u8)) (b : u8) (p : list u8) :
  into_tls13_unpadded_record r ≠ Panic ∧
  (into_tls13_unpadded_record r =
     Ok (Record_.new (ContentType.new b)
           (EncodableVersion.Legacy ProtocolVersion.TLSv1_3) p) ↔
   Record_.typ r = ContentType.ApplicationData ∧
   (∃ n, Record_.payload r = p ++ b :: replicate n x00) ∧
   b ≠ x00 ∧ ContentType.new b ≠ ContentType.ChangeCipherSpec ∧
   (Z.of_nat (length (Record_.payload r)) <= MAX_FRAGMENT_LEN + 1)%Z).
Proof.
  split.
  { unfold into_tls13_unpadded_record. destruct unpad_tls13_payload. by repeat case_decide. }
  unfold into_tls13_unpadded_record. cbv zeta.
  destruct (inner_plaintext_cases (Record_.payload r)) as [Hz|(q & c & n & Hc & Hp)].
  - assert (unpad_tls13_payload (Record_.payload r) = (ContentType.new x00, [])) as ->
      by (rewrite Hz; apply unpad_zeros).
    split; [by repeat case_decide|]. intros (_ & (n & Hn) & Hb & _).
    rewrite Hn in Hz. exfalso. apply Hb.
    assert (b ∈ replicate (length (p ++ b :: replicate n x00)) x00) as Hin.
    { rewrite <-Hz. set_solver. }
    by apply elem_of_replicate in Hin as [-> _].
  - assert (unpad_tls13_payload (Record_.payload r) = (ContentType.new c, q)) as ->
      by (rewrite Hp; by apply unpad_content).
    unfold into_plain_record. split.
    + intros H. repeat case_decide; simplify_eq.
      split_and!; [done|by exists n|done..|lia].
    + intros (Ht & (n' & Hn') & Hb & Hccs & Hlen).
      assert (q = p ∧ c = b) as [-> ->].
      { pose proof (unpad_content q c n Hc) as H1. pose proof (unpad_content p b n' Hb) as H2.
        rewrite <-Hp in H1. rewrite <-Hn' in H2. rewrite H1 in H2. by simplify_eq. }
      rewrite (decide_False (P:=Record_.typ r ≠ _)) by naive_solver.
      rewrite !decide_False; [done| | | |]; try naive_solver lia.
      rewrite Hp, length_app in Hlen. simpl in Hlen. lia.
Qed.
