(* ===== verification/Fragmenter.v ===== *)
(** * Fragmentation of outgoing payloads

    [msgs/fragmenter.rs]: splitting one payload into records no larger than the
    configured maximum.  [NonZeroUsize] is a [nat] kept positive by
    [Fragmenter.wf]. *)
From S2P Require Import Prelude Enums Errors Codec Records.

(* @src rustls/src/msgs/fragmenter.rs 8 PACKET_OVERHEAD *)
Definition PACKET_OVERHEAD : nat := 1 + 2 + 2.

(** [MAX_FRAGMENT_LEN] as a [usize]. *)
Definition MAX_FRAGMENT_LEN_usize : nat := Z.to_nat MAX_FRAGMENT_LEN.

(* @src rustls/src/msgs/fragmenter.rs 9 MAX_FRAGMENT_SIZE *)
Definition MAX_FRAGMENT_SIZE : nat := MAX_FRAGMENT_LEN_usize + PACKET_OVERHEAD.

Lemma MAX_FRAGMENT_LEN_Z : Z.of_nat MAX_FRAGMENT_LEN_usize = 16384%Z.
Proof. unfold MAX_FRAGMENT_LEN_usize, MAX_FRAGMENT_LEN. by rewrite Z2Nat.id by lia. Qed.

Lemma MAX_FRAGMENT_SIZE_Z : Z.of_nat MAX_FRAGMENT_SIZE = 16389%Z.
Proof. unfold MAX_FRAGMENT_SIZE. by rewrite Nat2Z.inj_add, MAX_FRAGMENT_LEN_Z. Qed.

#[global] Opaque MAX_FRAGMENT_LEN_usize MAX_FRAGMENT_SIZE.

Module Chunker.
(* @src rustls/src/msgs/fragmenter.rs 75-79 Chunker *)
Record t := new { payload : OutboundPlain.t; limit : nat }.

(* @src rustls/src/msgs/fragmenter.rs 90-98 Chunker::next *)
Definition next (self : t) : option OutboundPlain.t * t :=
  if OutboundPlain.is_empty (payload self) then (None, self) else
  let '(before, after) := OutboundPlain.split_at (payload self) (limit self) in
  (Some before, new after (limit self)).

(** [usize::div_ceil]. *)
Definition div_ceil (a b : nat) : nat :=
  if decide (a `mod` b = 0) then a `div` b else S (a `div` b).

(* @src rustls/src/msgs/fragmenter.rs 107-111 Chunker::len *)
Definition len (self : t) : nat :=
  div_ceil (OutboundPlain.len (payload self)) (limit self).

(** Exhausting the iterator; [len] calls that yield, and no more ([collect_spec]). *)
Fixpoint collect (fuel : nat) (self : t) : list OutboundPlain.t :=
  match next self with
  | (None, _) => []
  | (Some p, self) =>
      match fuel with O => [] | S fuel => p :: collect fuel self end
  end.
End Chunker.

Module Fragmenter.
(* @src rustls/src/msgs/fragmenter.rs 11-13 Fragmenter *)
Record t := mk { max_frag : nat }.

(* @src rustls/src/msgs/fragmenter.rs 68-72 Fragmenter::default *)
Definition default : t := mk MAX_FRAGMENT_LEN_usize.

(** The plaintext limit of [fragment]: never zero. *)
(* @src rustls/src/msgs/fragmenter.rs 16-43 Fragmenter::fragment *)
Definition max_plaintext (self : t) (encryption_overhead : nat) : nat :=
  match max_frag self - encryption_overhead with O => 1 | n => n end.

(* @src rustls/src/msgs/fragmenter.rs 16-43 Fragmenter::fragment *)
Definition fragment (self : t) (typ : ContentType.t) (version : EncodableVersion.t)
    (payload : OutboundPlain.t) (encryption_overhead : nat)
    : list (Record_.t OutboundPlain.t) :=
  let c := Chunker.new payload (max_plaintext self encryption_overhead) in
  Record_.new typ version <$> Chunker.collect (OutboundPlain.len payload) c.

(* @src rustls/src/msgs/fragmenter.rs 45-64 Fragmenter::set_max_fragment_size *)
Definition set_max_fragment_size (max_fragment_size : option nat)
    : action t Error.t unit :=
  match max_fragment_size with
  | Some sz =>
      if decide (32 ≤ sz ≤ MAX_FRAGMENT_SIZE)
      then modify (λ _, mk (sz - PACKET_OVERHEAD))
      else fail Error.BadMaxFragmentSize
  | None => modify (λ _, mk MAX_FRAGMENT_LEN_usize)
  end.

(** The configurations reached: the wire record, header included, is between 32
    bytes and [MAX_FRAGMENT_SIZE]. *)
Definition wf (self : t) : Prop :=
  32 ≤ max_frag self + PACKET_OVERHEAD ≤ MAX_FRAGMENT_SIZE.
End Fragmenter.

(** ** Chunking a payload *)

Lemma chunker_next p limit :
  OutboundPlain.wf p → 0 < limit →
  match Chunker.next (Chunker.new p limit) with
  | (None, _) => OutboundPlain.flat p = []
  | (Some q, c) =>
      OutboundPlain.flat p ≠ [] ∧ OutboundPlain.wf q ∧
      OutboundPlain.flat q = take limit (OutboundPlain.flat p) ∧
      ∃ p', c = Chunker.new p' limit ∧ OutboundPlain.wf p' ∧
            OutboundPlain.flat p' = drop limit (OutboundPlain.flat p)
  end.
Proof.
  intros Hwf Hl. unfold Chunker.next, OutboundPlain.is_empty. simpl.
  rewrite len_flat by done. case_bool_decide as He.
  { by apply nil_length_inv. }
  pose proof (split_at_flat p limit Hwf) as H.
  destruct (OutboundPlain.split_at p limit) as [a b]. destruct H as (Ha & Hb & Hwa & Hwb).
  split_and!; [by intros Hn; rewrite Hn in He|done..|]. by exists b.
Qed.

Lemma div_ceil_small n limit : 0 < n ≤ limit → Chunker.div_ceil n limit = 1.
Proof.
  intros. unfold Chunker.div_ceil. destruct (decide (n = limit)) as [->|].
  - rewrite Nat.Div0.mod_same, Nat.div_same by lia. done.
  - rewrite Nat.mod_small, Nat.div_small by lia. by rewrite decide_False by lia.
Qed.

Lemma div_ceil_step n limit :
  0 < limit → limit ≤ n → Chunker.div_ceil n limit = S (Chunker.div_ceil (n - limit) limit).
Proof.
  intros Hl Hn. unfold Chunker.div_ceil.
  remember (n - limit) as m eqn:Hm. assert (n = m + 1 * limit) as -> by lia.
  rewrite Nat.Div0.mod_add, Nat.div_add by lia. case_decide; lia.
Qed.

(** The fragments: in order, together the payload; each within the limit and not
    empty; all but the last full; as many as [len] announces. *)
Definition chunks_of (limit : nat) (bytes : list u8) (l : list OutboundPlain.t) : Prop :=
  concat (OutboundPlain.flat <$> l) = bytes ∧
  Forall (λ q, OutboundPlain.wf q ∧ 0 < length (OutboundPlain.flat q) ≤ limit) l ∧
  (∀ i q, l !! i = Some q → S i < length l → length (OutboundPlain.flat q) = limit) ∧
  length l = Chunker.div_ceil (length bytes) limit.

Lemma chunks_of_cons limit bytes q l :
  0 < limit → bytes ≠ [] → OutboundPlain.wf q → OutboundPlain.flat q = take limit bytes →
  chunks_of limit (drop limit bytes) l → chunks_of limit bytes (q :: l).
Proof.
  intros Hl Hne Hwf Hq (Hc & Hf & Hfull & Hn).
  assert (0 < length bytes) by (destruct bytes; simpl; [done|lia]).
  rewrite length_drop in Hn. unfold chunks_of. csimpl. rewrite Hc, Hq, take_drop.
  split_and!; [done| | |].
  - constructor; [|done]. rewrite Hq, length_take. split; [done|lia].
  - intros [|i] q' Hi Hlt; simplify_eq/=; [|by apply (Hfull i); [|lia]].
    rewrite Hq, length_take. destruct (decide (limit ≤ length bytes)); [lia|].
    rewrite drop_ge in Hc by lia. destruct l as [|q2 l]; [simpl in Hlt; lia|].
    apply Forall_cons in Hf as [(_ & Hq2) _]. csimpl in Hc.
    apply app_nil in Hc as [Hnil _]. rewrite Hnil in Hq2. simpl in Hq2. lia.
  - rewrite Hn. destruct (decide (limit ≤ length bytes)).
    + by rewrite (div_ceil_step (length bytes)).
    + replace (length bytes - limit) with 0 by lia. rewrite (div_ceil_small (length bytes)) by lia.
      unfold Chunker.div_ceil. by rewrite Nat.Div0.mod_0_l, Nat.Div0.div_0_l.
Qed.

Lemma collect_spec fuel p limit :
  OutboundPlain.wf p → 0 < limit → length (OutboundPlain.flat p) ≤ fuel →
  chunks_of limit (OutboundPlain.flat p) (Chunker.collect fuel (Chunker.new p limit)).
Proof.
  revert p. induction fuel as [|fuel IH]; intros p Hwf Hl Hfuel; simpl;
    pose proof (chunker_next p limit Hwf Hl) as H;
    destruct (Chunker.next (Chunker.new p limit)) as [[q|] c].
  - destruct H as (Hne & _). destruct (OutboundPlain.flat p); simpl in *; [done|lia].
  - rewrite H. unfold chunks_of, Chunker.div_ceil. simpl.
    rewrite Nat.Div0.mod_0_l, Nat.Div0.div_0_l. split_and!; by try constructor.
  - destruct H as (Hne & Hwq & Hq & p' & -> & Hwp' & Hp').
    apply chunks_of_cons; [done..|]. rewrite <-Hp'. apply IH; [done..|].
    rewrite Hp', length_drop. destruct (OutboundPlain.flat p); simpl in *; [done|lia].
  - rewrite H. unfold chunks_of, Chunker.div_ceil. simpl.
    rewrite Nat.Div0.mod_0_l, Nat.Div0.div_0_l. split_and!; by try constructor.
Qed.

Lemma max_plaintext_pos f overhead : 0 < Fragmenter.max_plaintext f overhead.
Proof. unfold Fragmenter.max_plaintext. case_match; lia. Qed.

Lemma max_plaintext_bound f overhead :
  overhead < Fragmenter.max_frag f →
  Fragmenter.max_plaintext f overhead + overhead = Fragmenter.max_frag f.
Proof. unfold Fragmenter.max_plaintext. case_match; lia. Qed.

Lemma fragment_chunks f typ version p overhead :
  OutboundPlain.wf p →
  ∃ l, Fragmenter.fragment f typ version p overhead = Record_.new typ version <$> l ∧
    chunks_of (Fragmenter.max_plaintext f overhead) (OutboundPlain.flat p) l.
Proof.
  intros Hwf. eexists. split; [done|].
  apply collect_spec; [done|apply max_plaintext_pos|by rewrite len_flat].
Qed.

Lemma set_max_fragment_limit new f f' :
  Fragmenter.set_max_fragment_size new f = (f', Ok tt) →
  Fragmenter.max_frag f' ≤ MAX_FRAGMENT_LEN_usize.
Proof.
  pose proof MAX_FRAGMENT_SIZE_Z as Hs. pose proof MAX_FRAGMENT_LEN_Z as Hl.
  unfold Fragmenter.set_max_fragment_size, PACKET_OVERHEAD.
  destruct new as [n|]; [case_decide as Hn; [|by intros [=]]|]; intros [= <-];
    cbn [Fragmenter.max_frag]; lia.
Qed.

(** ** Main results *)

(** C22. Fragmentation loses, repeats and reorders nothing and respects the limit:
    the fragments, all with the given type and version, concatenate to the
    payload; none is empty; they are as many as the iterator announces; and a
    fragment with its header and the encryption overhead fits the configured
    maximum record size (when the overhead leaves room for any plaintext). *)
Theorem fragment_correct (f : Fragmenter.t) typ version (p : OutboundPlain.t) (overhead : nat)
    (Hwf : OutboundPlain.wf p) :
  let l := Fragmenter.fragment f typ version p overhead in
  concat ((λ r, OutboundPlain.to_vec (Record_.payload r)) <$> l) = OutboundPlain.to_vec p ∧
  length l = Chunker.len (Chunker.new p (Fragmenter.max_plaintext f overhead)) ∧
  Forall (λ r, Record_.typ r = typ ∧ Record_.version r = version ∧
    OutboundPlain.wf (Record_.payload r) ∧
    0 < OutboundPlain.len (Record_.payload r) ∧
    (overhead < Fragmenter.max_frag f →
     OutboundPlain.len (Record_.payload r) + overhead ≤ Fragmenter.max_frag f)) l.
Proof.
  intros l. destruct (fragment_chunks f typ version p overhead Hwf)
    as (qs & Hl & Hc & Hf & _ & Hn). subst l. rewrite Hl. split_and!.
  - rewrite <-list_fmap_compose, to_vec_flat, <-Hc. f_equal.
    apply list_fmap_ext. intros. apply to_vec_flat.
  - rewrite length_fmap, Hn. unfold Chunker.len. simpl. by rewrite len_flat.
  - apply Forall_fmap. eapply Forall_impl; [done|]. intros q [Hq Hlen]. simpl.
    rewrite len_flat by done. split_and!; auto with lia.
    intros Ho%max_plaintext_bound. lia.
Qed.

Lemma fragment_correct_witness :
  let l := Fragmenter.fragment (Fragmenter.mk 3) ContentType.Handshake
             (EncodableVersion.Legacy ProtocolVersion.TLSv1_3)
             (OutboundPlain.new [[x01; x02]; [x03; x04; x05]]) 1 in
  concat ((λ r, OutboundPlain.to_vec (Record_.payload r)) <$> l)
    = [x01; x02; x03; x04; x05] ∧ length l = 3.
Proof.
  destruct (fragment_correct (Fragmenter.mk 3) ContentType.Handshake
    (EncodableVersion.Legacy ProtocolVersion.TLSv1_3)
    (OutboundPlain.new [[x01; x02]; [x03; x04; x05]]) 1) as (H & Hl & _);
    [vm_compute; lia|].
  split; [exact H|exact Hl].
Defined.

(** [set_max_fragment_size] accepts exactly [None] and the sizes from 32 to
    16389, then makes records of that wire size; a refused size changes nothing.
    So the fragment limit is always between 27 and 16384. *)
Theorem set_max_fragment_size_spec (f : Fragmenter.t) (sz : option nat)
    (Hwf : Fragmenter.wf f) :
  let '(f', r) := Fragmenter.set_max_fragment_size sz f in
  Fragmenter.wf f' ∧
  match r with
  | Ok _ => Z.of_nat (Fragmenter.max_frag f' + PACKET_OVERHEAD) = from_option Z.of_nat 16389%Z sz
  | Err e => e = Error.BadMaxFragmentSize ∧ f' = f ∧
             ∃ n, sz = Some n ∧ ((Z.of_nat n < 32) ∨ (16389 < Z.of_nat n))%Z
  | Panic => False
  end.
Proof.
  pose proof MAX_FRAGMENT_SIZE_Z. pose proof MAX_FRAGMENT_LEN_Z.
  unfold Fragmenter.set_max_fragment_size, Fragmenter.wf, PACKET_OVERHEAD in *.
  destruct sz as [n|]; [case_decide|]; simpl; [lia| |lia].
  split_and!; [lia..|done|done|]. exists n. split; [done|lia].
Qed.

Lemma set_max_fragment_size_spec_witness :
  Fragmenter.wf (Fragmenter.set_max_fragment_size (Some 100) Fragmenter.default).1.
Proof.
  assert (Fragmenter.wf Fragmenter.default) as Hwf.
  { pose proof MAX_FRAGMENT_SIZE_Z. pose proof MAX_FRAGMENT_LEN_Z.
    unfold Fragmenter.wf, Fragmenter.default, PACKET_OVERHEAD. simpl. lia. }
  pose proof (set_max_fragment_size_spec Fragmenter.default (Some 100) Hwf) as H.
  destruct (Fragmenter.set_max_fragment_size (Some 100) Fragmenter.default). apply H.
Defined.
