(* ===== verification/Deframer.v ===== *)
(** * The deframer

    [msgs/deframer/mod.rs] and [msgs/deframer/buffers.rs]: record framing over
    the receive buffer, and in-place reassembly of handshake messages that
    records cut in any way.

    The receive buffer is a list of bytes passed beside the [Deframer] state;
    [coalesce] mutates both.  A handshake size is a [Z] (a 24-bit wire value);
    buffer positions are [nat]. *)
From S2P Require Import Prelude Enums Errors Codec Records.

(* @src rustls/src/msgs/deframer/mod.rs 448 HANDSHAKE_HEADER_LEN *)
Definition HANDSHAKE_HEADER_LEN : nat := 1 + 3.

(* @src rustls/src/msgs/deframer/mod.rs 450-453 MAX_HANDSHAKE_SIZE *)
Definition MAX_HANDSHAKE_SIZE : Z := 0xffff.

Module Coalescer.
(* @src rustls/src/msgs/deframer/buffers.rs 14-20 Coalescer::copy_within *)
Definition copy_within {E} (slice : list u8) (from to : Range) : result E (list u8) :=
  Prelude.copy_within slice from (r_start to).
End Coalescer.

Module Delocator.
(* @src rustls/src/msgs/deframer/buffers.rs 39-44 Delocator::slice_from_range *)
Definition slice_from_range {E} (slice : list u8) (range : Range) : result E (list u8) :=
  unwrap (get_range slice range).
End Delocator.

Module FragmentSpan.
(* @src rustls/src/msgs/deframer/mod.rs 410-423 FragmentSpan *)
Record t := mk { version : ProtocolVersion.t; size : option Z; bounds : Range }.

(* @src rustls/src/msgs/deframer/mod.rs 426-433 FragmentSpan::is_complete *)
Definition is_complete (self : t) : bool :=
  match size self with
  | Some sz => bool_decide (sz + Z.of_nat HANDSHAKE_HEADER_LEN
                            = Z.of_nat (range_len (bounds self)))%Z
  | None => false
  end.

(** [span.size.unwrap_or_default() > MAX_HANDSHAKE_SIZE]. *)
Definition oversize (self : t) : bool :=
  bool_decide (MAX_HANDSHAKE_SIZE < default 0 (size self))%Z.
End FragmentSpan.

Module DissectHandshakeIter.
(* @src rustls/src/msgs/deframer/mod.rs 362-366 DissectHandshakeIter *)
Record t := mk { version : ProtocolVersion.t; payload : list u8; bounds : Range }.

(** [rest.split_at_checked(size)] for a wire size. *)
Definition split_at_size (rest : list u8) (size : Z) : option (list u8 * list u8) :=
  if decide (size <= Z.of_nat (length rest))%Z
  then split_at_checked rest (Z.to_nat size) else None.

(* @src rustls/src/msgs/deframer/mod.rs 371-407 DissectHandshakeIter::next *)
Definition next {E} (self : t) : result E (option FragmentSpan.t * t) :=
  if decide (payload self = []) then Ok (None, self) else
  (* If there is not enough data to have a header the length is unknown *)
  let all := payload self in
  match split_at_checked all HANDSHAKE_HEADER_LEN with
  | None =>
      Ok (Some (FragmentSpan.mk (version self) None (bounds self)),
          mk (version self) [] (mkRange 0 0))
  | Some (header, rest) =>
      match Reader.all "read_bytes" u24_read (drop 1 header) with
      | Ok (size, _) =>
          let '(payload, self_payload) :=
            match split_at_size rest size with
            | Some (payload, rest) => (payload, rest)
            | None => (rest, [])
            end in
          let span_len := length header + length payload in
          let start := r_start (bounds self) in
          Ok (Some (FragmentSpan.mk (version self) (Some size)
                      (mkRange start (start + span_len))),
              mk (version self) self_payload
                 (mkRange (start + span_len) (r_end (bounds self))))
      | Err _ | Panic => Panic
      end
  end.

(** The spans of the iterator, in order.  A turn that yields takes at least one
    byte, so [length payload] turns are enough ([dissect_spec]). *)
Fixpoint collect {E} (fuel : nat) (self : t) : result E (list FragmentSpan.t) :=
  '(o, self) ← next self;
  match o with
  | None => Ok []
  | Some span =>
      match fuel with
      | O => Panic
      | S fuel => spans ← collect fuel self; Ok (span :: spans)
      end
  end.
End DissectHandshakeIter.

Module Deframed.
(* @src rustls/src/msgs/deframer/mod.rs 436-439 Deframed *)
Record t := mk { record : Record_.t (list u8); bounds : Range }.
End Deframed.

Module Deframer.
(* @src rustls/src/msgs/deframer/mod.rs 27-52 Deframer *)
Record t := mk {
  spans : list FragmentSpan.t;
  too_large : bool;
  processed : nat;
  discard : nat;
}.

(* @src rustls/src/msgs/deframer/mod.rs 350-359 Deframer::default *)
Definition default : t := mk [] false 0 0.

Definition set_spans (f : list FragmentSpan.t → list FragmentSpan.t) (self : t) : t :=
  mk (f (spans self)) (too_large self) (processed self) (discard self).

(* @src rustls/src/msgs/deframer/mod.rs 55-89 Deframer::deframe *)
Definition deframe (buf : list u8) (self : t) : t * option (result Error.t Deframed.t) :=
  if decide (length buf < processed self) then (self, None) else
  match read_record_header (drop (processed self) buf) with
  | Ok (typ, version, len, _) =>
      let end_ := processed self + HEADER_SIZE + Z.to_nat len in
      match get_range buf (mkRange 0 end_) with
      | None => (self, None)
      | Some head =>
          (mk (spans self) (too_large self) end_ (discard self),
           Some (Ok (Deframed.mk
             (Record_.new typ (EncodableVersion.Legacy version)
                (drop (processed self + HEADER_SIZE) head))
             (mkRange (processed self) end_))))
      end
  | Err err =>
      match err with
      | RecordError.TooShortForHeader | RecordError.TooShortForLength => (self, None)
      | RecordError.InvalidEmptyPayload =>
          (self, Some (Err (Error.InvalidMessage InvalidMessage.InvalidEmptyPayload)))
      | RecordError.MessageTooLarge =>
          (self, Some (Err (Error.InvalidMessage InvalidMessage.MessageTooLarge)))
      | RecordError.InvalidContentType =>
          (self, Some (Err (Error.InvalidMessage InvalidMessage.InvalidContentType)))
      | RecordError.UnknownProtocolVersion =>
          (self, Some (Err (Error.InvalidMessage InvalidMessage.UnknownProtocolVersion)))
      end
  | Panic => (self, Some Panic)
  end.

(** The [for span in iter] loops of [input_message] and [coalesce]: each span is
    checked for its declared size and inserted, in order, from [index] on. *)
Definition insert_dissected {E} (index : nat) (iter : DissectHandshakeIter.t)
    : action t E unit := λ self,
  match DissectHandshakeIter.collect (length (DissectHandshakeIter.payload iter)) iter with
  | Ok new =>
      (mk (take index (spans self) ++ new ++ drop index (spans self))
          (too_large self || existsb FragmentSpan.oversize new)
          (processed self) (discard self), Ok tt)
  | Err e => (self, Err e)
  | Panic => (self, Panic)
  end.

(* @src rustls/src/msgs/deframer/mod.rs 105-159 Deframer::input_message *)
Definition input_message {E} (version : ProtocolVersion.t) (bounds : Range)
    (buf : list u8) : action t E unit := λ self,
  match get_range buf bounds with
  | None => (self, Ok tt)
  | Some payload =>
      if match last (spans self) with
         | Some span => negb (FragmentSpan.is_complete span)
         | None => false
         end
      then
        (* our last span is incomplete: blindly add this as a new span *)
        (set_spans (λ l, l ++ [FragmentSpan.mk version None bounds]) self, Ok tt)
      else
        insert_dissected (length (spans self))
          (DissectHandshakeIter.mk version payload bounds) self
  end.

(** [iter().enumerate().take(limit).find_map(..)]: the first incomplete span
    among the first [limit]. *)
(* @src rustls/src/msgs/deframer/mod.rs 225-233 Deframer::coalesce::match *)
Definition requires_coalesce (spans : list FragmentSpan.t) : option nat :=
  let limit := length spans - 1 in
  fst <$> list_find (λ s, FragmentSpan.is_complete s = false) (take limit spans).

(** One turn of the loop once a pair is found: the second span is moved next to
    the first, and the two are dissected again.  [false] is the early [Ok(())]
    of a missing neighbour. *)
(* @src rustls/src/msgs/deframer/mod.rs 235-274 Deframer::coalesce::loop *)
Definition coalesce_one (index : nat)
    : action (t * list u8) InvalidMessage.t bool := λ '(self, buf),
  match spans self !! index, spans self !! S index with
  | Some first, Some second =>
      let rest := take index (spans self) ++ drop (S (S index)) (spans self) in
      let self := set_spans (λ _, rest) self in
      let len := range_len (FragmentSpan.bounds second) in
      let first_end := r_end (FragmentSpan.bounds first) in
      let target := mkRange first_end (first_end + len) in
      match Coalescer.copy_within buf (FragmentSpan.bounds second) target with
      | Ok buf =>
          let bounds := mkRange (r_start (FragmentSpan.bounds first)) (first_end + len) in
          match Delocator.slice_from_range buf bounds with
          | Ok payload =>
              let '(self, r) :=
                insert_dissected index
                  (DissectHandshakeIter.mk (FragmentSpan.version first) payload bounds) self in
              ((self, buf), (λ _, true) <$> r)
          | Err e => ((self, buf), Err e)
          | Panic => ((self, buf), Panic)
          end
      | Err e => ((self, buf), Err e)
      | Panic => ((self, buf), Panic)
      end
  | _, _ => ((self, buf), Ok false)
  end.

(** The loop of [coalesce].  Each turn leaves fewer spans after the first
    incomplete one, so as many turns as spans are enough ([coalesce_loop_spec]). *)
(* @src rustls/src/msgs/deframer/mod.rs 161-276 Deframer::coalesce *)
Fixpoint coalesce_loop (fuel : nat) : action (t * list u8) InvalidMessage.t unit :=
  λ '(self, buf),
    if too_large self
    then ((self, buf), Err InvalidMessage.HandshakePayloadTooLarge) else
    match requires_coalesce (spans self) with
    | None => ((self, buf), Ok tt)
    | Some index =>
        match fuel with
        | O => ((self, buf), Panic)
        | S fuel => (coalesce_one index ≫= λ again : bool,
                     if again then coalesce_loop fuel else mret tt) (self, buf)
        end
    end.

(* @src rustls/src/msgs/deframer/mod.rs 161-276 Deframer::coalesce *)
Definition coalesce : action (t * list u8) InvalidMessage.t unit := λ '(self, buf),
  coalesce_loop (length (spans self)) (self, buf).

(* @src rustls/src/msgs/deframer/mod.rs 91-103 Deframer::input_quic *)
Definition input_quic : action (t * list u8) InvalidMessage.t unit := λ '(self, buf),
  let bounds := mkRange (processed self) (length buf) in
  let self := mk (spans self) (too_large self)
                 (processed self + range_len bounds) (discard self) in
  match input_message ProtocolVersion.TLSv1_3 bounds buf self with
  | (self, Ok _) => coalesce (self, buf)
  | (self, Err e) => ((self, buf), Err e)
  | (self, Panic) => ((self, buf), Panic)
  end.

(* @src rustls/src/msgs/deframer/mod.rs 278-296 Deframer::record *)
Definition record {E} (next_span : FragmentSpan.t) (containing_buffer : list u8)
    : action t E (Record_.t (list u8)) := λ self,
  let self :=
    if decide (spans self = [])
    then mk (spans self) (too_large self) (processed self) (processed self)
    else self in
  (self,
   payload ← Delocator.slice_from_range containing_buffer (FragmentSpan.bounds next_span);
   Ok (Record_.new ContentType.Handshake
         (EncodableVersion.Legacy (FragmentSpan.version next_span)) payload)).

(* @src rustls/src/msgs/deframer/mod.rs 298-304 Deframer::complete_span *)
Definition complete_span (self : t) : t * option FragmentSpan.t :=
  match spans self with
  | span :: rest =>
      if FragmentSpan.is_complete span then (set_spans (λ _, rest) self, Some span)
      else (self, None)
  | [] => (self, None)
  end.

(* @src rustls/src/msgs/deframer/mod.rs 306-318 Deframer::take_discard *)
Definition take_discard (self : t) : t * nat :=
  let d := discard self in
  (mk ((λ s, FragmentSpan.mk (FragmentSpan.version s) (FragmentSpan.size s)
               (mkRange (r_start (FragmentSpan.bounds s) - d)
                        (r_end (FragmentSpan.bounds s) - d))) <$> spans self)
      (too_large self) (processed self - d) 0, d).

(* @src rustls/src/msgs/deframer/mod.rs 320-323 Deframer::discard_processed *)
Definition discard_processed (self : t) : t :=
  mk (spans self) (too_large self) (processed self) (processed self).

(* @src rustls/src/msgs/deframer/mod.rs 325-328 Deframer::set_discard *)
Definition set_discard (discard : nat) (self : t) : t :=
  mk (spans self) (too_large self) (processed self) discard.

(* @src rustls/src/msgs/deframer/mod.rs 338-341 Deframer::is_active *)
Definition is_active (self : t) : bool := negb (bool_decide (spans self = [])).

(** [aligned().is_some()]: the proof object carries no data. *)
(* @src rustls/src/msgs/deframer/mod.rs 330-336 Deframer::aligned *)
Definition aligned (self : t) : bool := negb (is_active self).
End Deframer.

(** ** Specification: the framing of a handshake byte stream *)

(** The body size a message header declares, when the header is there. *)
Definition msg_size (c : list u8) : option Z :=
  match c with _ :: a :: b :: d :: _ => Some (be_val [a; b; d]) | _ => None end.

Definition complete_msg (c : list u8) : Prop :=
  ∃ n, msg_size c = Some n ∧ Z.of_nat (length c) = (n + 4)%Z.

Definition partial_msg (c : list u8) : Prop :=
  c ≠ [] ∧ from_option (λ n, Z.of_nat (length c) < n + 4)%Z True (msg_size c).

(** A byte stream cut into whole messages, and at the end possibly the start of
    one more. *)
Fixpoint framing (l : list (list u8)) : Prop :=
  match l with
  | [] => True
  | c :: l => (complete_msg c ∧ framing l) ∨ (partial_msg c ∧ l = [])
  end.

Lemma msg_size_app c k n : msg_size c = Some n → msg_size (c ++ k) = Some n.
Proof. by destruct c as [|? [|? [|? [|? ?]]]]. Qed.

Lemma complete_not_nil c : complete_msg c → c ≠ [].
Proof. by intros (n & H & _) ->. Qed.

(** A message that a stream starts with is not the start of a longer one. *)
Lemma complete_not_partial c k : complete_msg c → ¬ partial_msg (c ++ k).
Proof.
  intros (n & Hn & Hl) [_ Hp]. rewrite (msg_size_app _ _ _ Hn), length_app in Hp.
  simpl in Hp. lia.
Qed.

Lemma complete_unique c1 c2 k1 k2 :
  complete_msg c1 → complete_msg c2 → c1 ++ k1 = c2 ++ k2 → c1 = c2 ∧ k1 = k2.
Proof.
  intros (n1 & Hn1 & Hl1) (n2 & Hn2 & Hl2) H. apply app_inj_1 in H; [done|].
  pose proof (msg_size_app _ k1 _ Hn1) as E. rewrite H, (msg_size_app _ k2 _ Hn2) in E.
  simplify_eq. lia.
Qed.

Lemma framing_nil l : framing l → concat l = [] → l = [].
Proof.
  destruct l as [|c l]; [done|]. intros [[Hc _]|[[Hc _] _]] [-> _]%app_nil; [|done].
  by apply complete_not_nil in Hc.
Qed.

Lemma framing_unique l1 l2 :
  framing l1 → framing l2 → concat l1 = concat l2 → l1 = l2.
Proof.
  revert l2. induction l1 as [|c1 l1 IH]; intros [|c2 l2] H1 H2 H.
  - done.
  - symmetry. by apply framing_nil.
  - by apply framing_nil.
  - destruct H1 as [[Hc1 H1]|[Hp1 ->]], H2 as [[Hc2 H2]|[Hp2 ->]]; simpl in H.
    + destruct (complete_unique c1 c2 _ _ Hc1 Hc2 H) as [-> Hk]. f_equal. by apply IH.
    + rewrite app_nil_r in H. subst c2. by apply complete_not_partial in Hp2.
    + rewrite app_nil_r in H. subst c1. by apply complete_not_partial in Hp1.
    + simpl in H. rewrite !app_nil_r in H. by subst.
Qed.

Lemma framing_app l1 l2 : Forall complete_msg l1 → framing l2 → framing (l1 ++ l2).
Proof. induction 1; simpl; auto. Qed.

(** All chunks of a framing but the last are whole. *)
Lemma framing_snoc l c :
  framing (l ++ [c]) → Forall complete_msg l ∧ (complete_msg c ∨ partial_msg c).
Proof.
  induction l as [|x l IH]; simpl; [intuition|].
  intros [[Hx (? & ?)%IH]|[_ Hn]]; [by auto|]. by destruct l.
Qed.

Lemma framing_tail c l : framing (c :: l) → framing l.
Proof. by intros [[_ ?]|[_ ->]]. Qed.

Lemma framing_complete l : Forall complete_msg l → framing l.
Proof. intros H. rewrite <-(app_nil_r l). by apply framing_app. Qed.

(** The framing as a function of the bytes. *)
Definition first_message (hs : list u8) : option (list u8 * list u8) :=
  match msg_size hs with
  | Some n =>
      if decide (n + 4 ≤ Z.of_nat (length hs))%Z
      then Some (take (Z.to_nat (n + 4)) hs, drop (Z.to_nat (n + 4)) hs)
      else None
  | None => None
  end.

Fixpoint frames (fuel : nat) (p : list u8) : list (list u8) :=
  match fuel with
  | O => []
  | S fuel =>
      if decide (p = []) then []
      else match first_message p with
           | Some (m, rest) => m :: frames fuel rest
           | None => [p]
           end
  end.

Definition is_whole (c : list u8) : bool :=
  match msg_size c with Some n => bool_decide (Z.of_nat (length c) = n + 4)%Z | None => false end.

(** Handshake bytes [p] that arrive in a record of version [v], behind pending
    messages: they continue the last message when it is not whole, which then also
    gives its version to what follows. *)
Fixpoint absorb (v : ProtocolVersion.t) (p : list u8)
    (pending : list (ProtocolVersion.t * list u8)) : list (ProtocolVersion.t * list u8) :=
  match pending with
  | [] => (v,.) <$> frames (length p) p
  | (w, c) :: rest =>
      if is_whole c then (w, c) :: absorb v p rest
      else (w,.) <$> frames (length (c ++ p)) (c ++ p)
  end.

Lemma first_message_complete c k : complete_msg c → first_message (c ++ k) = Some (c, k).
Proof.
  intros (n & Hn & Hl). unfold first_message. rewrite (msg_size_app _ _ _ Hn).
  rewrite decide_True by (rewrite length_app; lia).
  by rewrite take_app_length', drop_app_length' by lia.
Qed.

Lemma first_message_partial c : partial_msg c → first_message c = None.
Proof.
  intros [_ H]. unfold first_message. destruct (msg_size c); [|done]. simpl in H.
  by rewrite decide_False by lia.
Qed.

Lemma is_whole_true c : is_whole c = true ↔ complete_msg c.
Proof.
  unfold is_whole, complete_msg. destruct (msg_size c); [|naive_solver].
  rewrite bool_decide_eq_true. naive_solver.
Qed.

Lemma is_whole_partial c : partial_msg c → is_whole c = false.
Proof.
  intros Hp. apply not_true_is_false. rewrite is_whole_true. intros Hc.
  apply (complete_not_partial c []) in Hc. by rewrite app_nil_r in Hc.
Qed.

Lemma frames_framing fuel cs :
  framing cs → length (concat cs) ≤ fuel → frames fuel (concat cs) = cs.
Proof.
  revert cs. induction fuel as [|fuel IH]; intros cs Hf Hl.
  { symmetry. apply framing_nil; [done|]. by apply nil_length_inv; lia. }
  destruct cs as [|c cs]; [done|]. cbn [frames concat] in *.
  destruct Hf as [[Hc Hf]|[Hp ->]].
  - rewrite decide_False by (intros [-> _]%app_nil; by apply complete_not_nil in Hc).
    rewrite first_message_complete, IH by (done || (apply complete_not_nil in Hc; rewrite length_app in Hl; destruct c; simpl in *; [done|lia])).
    done.
  - cbn [concat]. rewrite app_nil_r, first_message_partial by done.
    rewrite decide_False; [done|]. by destruct Hp.
Qed.

Lemma absorb_whole v p l1 l2 :
  Forall complete_msg l1.*2 → absorb v p (l1 ++ l2) = l1 ++ absorb v p l2.
Proof.
  induction l1 as [|[w c] l1 IH]; csimpl; [done|]. intros [Hc H]%Forall_cons.
  apply is_whole_true in Hc. by rewrite Hc, IH.
Qed.

(** ** Dissection *)

(** The spans of consecutive chunks of the buffer. *)
Fixpoint spans_at (v : ProtocolVersion.t) (start : nat) (cs : list (list u8))
    : list FragmentSpan.t :=
  match cs with
  | [] => []
  | c :: cs =>
      FragmentSpan.mk v (msg_size c) (mkRange start (start + length c))
      :: spans_at v (start + length c) cs
  end.

Lemma u24_all a b d :
  Reader.all "read_bytes" u24_read [a; b; d] = Ok (be_val [a; b; d], []).
Proof.
  change [a; b; d] with ([a; b; d] ++ []) at 1.
  assert (u24_read ([a; b; d] ++ []) = Ok (be_val [a; b; d], [])) as E.
  { rewrite u24_read_be. unfold be_read, mbind, reader_bind. by rewrite take_array_app. }
  unfold Reader.all. by rewrite E.
Qed.

(** One turn of the iterator: a whole message, or all that is left. *)
Lemma dissect_next {E} v start p :
  p ≠ [] →
  ∃ c rest, p = c ++ rest ∧ (complete_msg c ∨ (partial_msg c ∧ rest = [])) ∧
  ∃ bounds, (rest ≠ [] → bounds = mkRange (start + length c) (start + length p)) ∧
  DissectHandshakeIter.next (E:=E)
    (DissectHandshakeIter.mk v p (mkRange start (start + length p))) =
  Ok (Some (FragmentSpan.mk v (msg_size c) (mkRange start (start + length c))),
      DissectHandshakeIter.mk v rest bounds).
Proof.
  intros Hp. unfold DissectHandshakeIter.next. cbn [DissectHandshakeIter.payload
    DissectHandshakeIter.version DissectHandshakeIter.bounds r_start r_end].
  rewrite decide_False by done.
  destruct p as [|t [|a [|b [|d rest]]]]; [done|..].
  1-3: eexists _, []; rewrite app_nil_r; split; [done|]; split;
    [right; by split|eexists; split; [by intros []|done]].
  change (t :: a :: b :: d :: rest) with ([t; a; b; d] ++ rest).
  rewrite split_at_checked_app by done. cbn [drop]. rewrite u24_all. cbv beta iota.
  set (n := be_val [a; b; d]).
  pose proof (be_val_bound [a; b; d]) as Hb. fold n in Hb. simpl in Hb.
  unfold DissectHandshakeIter.split_at_size. case_decide as Hd.
  - unfold split_at_checked. rewrite decide_True by lia.
    exists ([t; a; b; d] ++ take (Z.to_nat n) rest), (drop (Z.to_nat n) rest).
    split; [by rewrite <-(assoc_L (++)), take_drop|].
    split; [left; exists n; split; [done|]; rewrite length_app, length_take; simpl; lia|].
    eexists. split; [intros _|rewrite length_app; reflexivity].
    rewrite (length_app _ (take _ _)). reflexivity.
  - exists ([t; a; b; d] ++ rest), []. rewrite app_nil_r. split; [done|].
    split; [right; split; [split; [done|]|done]; fold n; rewrite length_app; simpl; lia|].
    eexists. split; [by intros []|]. rewrite length_app. reflexivity.
Qed.

Lemma dissect_spec {E} fuel v start p :
  length p ≤ fuel →
  ∃ cs, framing cs ∧ concat cs = p ∧
  DissectHandshakeIter.collect (E:=E) fuel
    (DissectHandshakeIter.mk v p (mkRange start (start + length p))) =
  Ok (spans_at v start cs).
Proof.
  enough (∀ bounds, (p ≠ [] → bounds = mkRange start (start + length p)) → length p ≤ fuel →
    ∃ cs, framing cs ∧ concat cs = p ∧
    DissectHandshakeIter.collect (E:=E) fuel (DissectHandshakeIter.mk v p bounds) =
    Ok (spans_at v start cs)) as H by (intros; by apply H).
  revert start p. induction fuel as [|fuel IH]; intros start p bounds Hb Hf; simpl.
  { destruct p; simpl in *; [by exists []|lia]. }
  destruct (decide (p = [])) as [->|Hp]; [by exists []|]. rewrite (Hb Hp).
  destruct (dissect_next (E:=E) v start p Hp) as (c & rest & -> & Hc & bounds' & Hb' & ->).
  step_ok. destruct Hc as [Hc|[Hc ->]].
  - destruct (IH (start + length c) rest bounds') as (cs & Hfr & Hcs & ->).
    + intros Hr. rewrite (Hb' Hr), length_app. f_equal. lia.
    + rewrite length_app in Hf. apply complete_not_nil in Hc. destruct c; simpl in *; [done|lia].
    + exists (c :: cs). simpl. rewrite Hcs. by auto.
  - destruct (IH (start + length c) [] bounds') as (cs & Hfr & Hcs & ->); [done|simpl; lia|].
    apply framing_nil in Hfr as ->; [|done]. exists [c]. simpl. by auto.
Qed.

(** ** Spans and their contents *)

Definition content (buf : list u8) (s : FragmentSpan.t) : list u8 :=
  slice (r_start (FragmentSpan.bounds s)) (r_end (FragmentSpan.bounds s)) buf.

(** The spans lie in [lo..hi], in order and apart. *)
Fixpoint ordered (lo : nat) (spans : list FragmentSpan.t) (hi : nat) : Prop :=
  match spans with
  | [] => lo ≤ hi
  | s :: spans =>
      lo ≤ r_start (FragmentSpan.bounds s) ≤ r_end (FragmentSpan.bounds s) ∧
      ordered (r_end (FragmentSpan.bounds s)) spans hi
  end.

Lemma ordered_le lo spans hi : ordered lo spans hi → lo ≤ hi.
Proof.
  revert lo. induction spans as [|s spans IH]; simpl; [done|].
  intros lo [? ?%IH]. lia.
Qed.

Lemma ordered_weaken lo lo' spans hi hi' :
  lo' ≤ lo → hi ≤ hi' → ordered lo spans hi → ordered lo' spans hi'.
Proof.
  revert lo lo'. induction spans as [|s spans IH]; simpl; intros lo lo'; [lia|].
  intros ? ? [? ?]. split; [lia|]. by eapply IH; [| |done].
Qed.

Lemma ordered_app lo l1 l2 hi :
  ordered lo (l1 ++ l2) hi ↔ ∃ mid, ordered lo l1 mid ∧ ordered mid l2 hi.
Proof.
  revert lo. induction l1 as [|s l1 IH]; intros lo; simpl.
  - split; [intros H; exists lo; auto with lia|].
    intros (mid & ? & H). by eapply ordered_weaken; [| |done].
  - rewrite IH. naive_solver.
Qed.

Lemma spans_at_ordered v start cs :
  ordered start (spans_at v start cs) (start + length (concat cs)).
Proof.
  revert start. induction cs as [|c cs IH]; intros start; simpl; [lia|].
  split; [lia|]. rewrite length_app, Nat.add_assoc. apply IH.
Qed.

Lemma spans_at_content v start cs buf :
  start + length (concat cs) ≤ length buf →
  slice start (start + length (concat cs)) buf = concat cs →
  content buf <$> spans_at v start cs = cs.
Proof.
  revert start. induction cs as [|c cs IH]; intros start Hlen H; csimpl in *; [done|].
  rewrite length_app in *. pose proof (slice_app start (start + length c)
    (start + (length c + length (concat cs))) buf) as Hs.
  rewrite <-Hs in H by lia. clear Hs.
  apply app_inj_1 in H as [Hc Hcs]; [|rewrite length_slice; lia].
  f_equal; [done|]. apply IH; [lia|]. by rewrite <-Nat.add_assoc.
Qed.

Lemma spans_at_size v start cs : FragmentSpan.size <$> spans_at v start cs = msg_size <$> cs.
Proof. revert start. induction cs; intros start; csimpl; [done|]. by f_equal. Qed.

(** A span whose recorded size is that of its bytes. *)
Definition consistent (buf : list u8) (s : FragmentSpan.t) : Prop :=
  FragmentSpan.size s = msg_size (content buf s).

Lemma spans_at_consistent v start cs buf :
  start + length (concat cs) ≤ length buf →
  slice start (start + length (concat cs)) buf = concat cs →
  Forall (consistent buf) (spans_at v start cs).
Proof.
  intros Hl Hs. pose proof (spans_at_content v start cs buf Hl Hs) as Hc.
  pose proof (spans_at_size v start cs) as Hz. rewrite <-Hc in Hz at 2. clear Hc.
  induction (spans_at v start cs) as [|s l IH]; [constructor|].
  csimpl in Hz. injection Hz as ??. constructor; auto.
Qed.

Lemma is_complete_iff buf s :
  consistent buf s →
  r_end (FragmentSpan.bounds s) ≤ length buf →
  FragmentSpan.is_complete s = true ↔ complete_msg (content buf s).
Proof.
  intros Hc He. unfold FragmentSpan.is_complete, complete_msg. rewrite Hc.
  assert (length (content buf s) = range_len (FragmentSpan.bounds s)) as ->
    by (by apply length_slice).
  unfold HANDSHAKE_HEADER_LEN. destruct (msg_size _); [|naive_solver].
  rewrite bool_decide_eq_true. naive_solver lia.
Qed.

(** ** Reassembly *)

Lemma snoc_cases {A} (l : list A) : l = [] ∨ ∃ l' x, l = l' ++ [x].
Proof. destruct l using rev_ind; eauto. Qed.

Definition contents (buf : list u8) (d : Deframer.t) : list (list u8) :=
  content buf <$> Deframer.spans d.

(** The same with the version each message gets. *)
Definition vcontents (buf : list u8) (d : Deframer.t) : list (ProtocolVersion.t * list u8) :=
  (λ s, (FragmentSpan.version s, content buf s)) <$> Deframer.spans d.

Lemma vcontents_snd buf d : (vcontents buf d).*2 = contents buf d.
Proof. unfold vcontents, contents. by rewrite <-list_fmap_compose. Qed.

Lemma spans_at_vcontent v start cs buf :
  start + length (concat cs) ≤ length buf →
  slice start (start + length (concat cs)) buf = concat cs →
  (λ s, (FragmentSpan.version s, content buf s)) <$> spans_at v start cs = (v,.) <$> cs.
Proof.
  intros Hl Hs. rewrite <-(spans_at_content v start cs buf Hl Hs) at 2. clear Hl Hs.
  revert start. induction cs as [|c cs IH]; intros start; csimpl; [done|]. by rewrite IH.
Qed.

Lemma snd_versions (v : ProtocolVersion.t) (cs : list (list u8)) : ((v,.) <$> cs).*2 = cs.
Proof. rewrite <-list_fmap_compose. induction cs; csimpl; by f_equal. Qed.

Lemma versions_ext buf buf' (l : list FragmentSpan.t) :
  content buf' <$> l = content buf <$> l →
  (λ s, (FragmentSpan.version s, content buf' s)) <$> l
    = (λ s, (FragmentSpan.version s, content buf s)) <$> l.
Proof. induction l as [|s l IH]; csimpl; [done|]. intros [= -> ?]. f_equal. by apply IH. Qed.

Lemma vcontents_eq buf d buf' d' :
  FragmentSpan.version <$> Deframer.spans d' = FragmentSpan.version <$> Deframer.spans d →
  contents buf' d' = contents buf d → vcontents buf' d' = vcontents buf d.
Proof.
  unfold contents, vcontents. generalize (Deframer.spans d) as l. induction (Deframer.spans d') as [|s' l' IH];
    intros [|s l]; csimpl; try done. intros [= -> ?] [= -> ?]. f_equal. by apply IH.
Qed.

(** The state between calls: the spans are the framing of the pending handshake
    bytes, all but the last complete, and within the processed, not discarded,
    part of the buffer. *)
Record settled (d : Deframer.t) (buf : list u8) : Prop := {
  st_ordered : ordered (Deframer.discard d) (Deframer.spans d) (Deframer.processed d);
  st_processed : Deframer.processed d ≤ length buf;
  st_consistent : Forall (consistent buf) (Deframer.spans d);
  st_framing : framing (contents buf d);
  st_too_large : Deframer.too_large d = false;
  st_sizes : Forall (λ s, FragmentSpan.oversize s = false) (Deframer.spans d);
}.

(** [input_message] then [coalesce], as the receive path and [input_quic] call them. *)
Definition feed (version : ProtocolVersion.t) (bounds : Range)
    : action (Deframer.t * list u8) InvalidMessage.t unit := λ '(d, buf),
  match Deframer.input_message version bounds buf d with
  | (d, Ok _) => Deframer.coalesce (d, buf)
  | (d, Err e) => ((d, buf), Err e)
  | (d, Panic) => ((d, buf), Panic)
  end.

Lemma requires_coalesce_None spans :
  Forall (λ s, FragmentSpan.is_complete s = true) (take (length spans - 1) spans) →
  Deframer.requires_coalesce spans = None.
Proof.
  intros H. unfold Deframer.requires_coalesce.
  destruct (list_find _ _) as [[i s]|] eqn:E; [|done].
  apply list_find_Some in E as (Hl & Hs & _). apply (Forall_lookup_1 _ _ _ _ H) in Hl.
  congruence.
Qed.

Lemma requires_coalesce_Some l s s' :
  Forall (λ s, FragmentSpan.is_complete s = true) l → FragmentSpan.is_complete s = false →
  Deframer.requires_coalesce (l ++ [s; s']) = Some (length l).
Proof.
  intros Hl Hs. unfold Deframer.requires_coalesce.
  rewrite length_app. simpl length. replace (length l + 2 - 1) with (length l + 1) by lia.
  rewrite take_app_add. simpl. rewrite list_find_app_r.
  - simpl. rewrite decide_True by done. done.
  - apply list_find_None. eapply Forall_impl; [done|]. simpl. congruence.
Qed.

Lemma spans_end_bound lo l hi s :
  ordered lo l hi → s ∈ l →
  lo ≤ r_start (FragmentSpan.bounds s) ≤ r_end (FragmentSpan.bounds s) ∧
  r_end (FragmentSpan.bounds s) ≤ hi.
Proof.
  revert lo. induction l as [|x l IH]; intros lo; [by intros _ ?%elem_of_nil|].
  intros [? Ho]. pose proof (ordered_le _ _ _ Ho).
  rewrite elem_of_cons. intros [->|Hs]; [lia|]. specialize (IH _ Ho Hs). lia.
Qed.

(** Spans that end before an untouched prefix keep their contents. *)
Lemma content_prefix buf buf' n lo l :
  take n buf' = take n buf → ordered lo l n → content buf' <$> l = content buf <$> l.
Proof.
  intros Ht Ho. apply list_fmap_ext. intros i s Hs%list_elem_of_lookup_2.
  destruct (spans_end_bound _ _ _ _ Ho Hs) as [_ He]. unfold content.
  by rewrite <-(slice_take _ _ n buf'), Ht, slice_take.
Qed.

Lemma consistent_prefix buf buf' n lo l :
  take n buf' = take n buf → ordered lo l n →
  Forall (consistent buf) l → Forall (consistent buf') l.
Proof.
  intros Ht Ho Hc. apply Forall_forall. intros s Hs.
  rewrite Forall_forall in Hc. specialize (Hc s Hs). unfold consistent in *.
  rewrite Hc. f_equal. destruct (spans_end_bound _ _ _ _ Ho Hs) as [_ He]. unfold content.
  by rewrite <-(slice_take _ _ n buf), <-Ht, slice_take.
Qed.

Lemma complete_spans buf lo l hi :
  ordered lo l hi → hi ≤ length buf → Forall (consistent buf) l →
  Forall complete_msg (content buf <$> l) →
  Forall (λ s, FragmentSpan.is_complete s = true) l.
Proof.
  intros Ho Hh Hc Hm. rewrite Forall_fmap in Hm. apply Forall_forall. intros s Hs.
  rewrite Forall_forall in Hc, Hm. destruct (spans_end_bound _ _ _ _ Ho Hs) as [_ He].
  apply (is_complete_iff buf); [by apply Hc|lia|by apply Hm].
Qed.

(** A framing needs no coalescing. *)
Lemma framing_no_coalesce buf lo l hi :
  ordered lo l hi → hi ≤ length buf → Forall (consistent buf) l →
  framing (content buf <$> l) → Deframer.requires_coalesce l = None.
Proof.
  intros Ho Hh Hc Hf. apply requires_coalesce_None.
  destruct l as [|s l _] using rev_ind; [constructor|].
  rewrite length_app. simpl. rewrite Nat.add_sub, take_app_length.
  rewrite fmap_app in Hf. csimpl in Hf. apply framing_snoc in Hf as [Hf _].
  apply ordered_app in Ho as (mid & Ho & Ho'). apply ordered_le in Ho'.
  apply Forall_app in Hc as [Hc _]. apply (complete_spans buf lo l mid); [done|lia|done..].
Qed.

Lemma coalesce_idle fuel d buf :
  Deframer.requires_coalesce (Deframer.spans d) = None →
  Deframer.coalesce_loop fuel (d, buf) =
    ((d, buf), if Deframer.too_large d
               then Err InvalidMessage.HandshakePayloadTooLarge else Ok tt).
Proof. intros H. destruct fuel; simpl; rewrite H; by destruct (Deframer.too_large d). Qed.

(** What [feed] promises of its outcome: the pending stream has grown by the
    payload and is framed again, or some message in it declares too large a size;
    bytes behind the payload are not touched. *)
Definition oversized_msg (c : list u8) : Prop :=
  (MAX_HANDSHAKE_SIZE < default 0 (msg_size c))%Z.

Definition feed_post (v : ProtocolVersion.t) (d : Deframer.t) (buf payload : list u8) (end_ : nat)
    (out : (Deframer.t * list u8) * result InvalidMessage.t unit) : Prop :=
  let '((d', buf'), r) := out in
  length buf' = length buf ∧ drop end_ buf' = drop end_ buf ∧
  Deframer.processed d' = Deframer.processed d ∧ Deframer.discard d' = Deframer.discard d ∧
  let new := absorb v payload (vcontents buf d) in
  framing new.*2 ∧ concat new.*2 = concat (contents buf d) ++ payload ∧
  ((r = Ok tt ∧ settled d' buf' ∧ vcontents buf' d' = new) ∨
   (r = Err InvalidMessage.HandshakePayloadTooLarge ∧ Exists oversized_msg new.*2)).

(** New spans take their place behind complete ones: [coalesce] then only
    reports a size that is too large. *)
Lemma settle fuel d buf lo mid pre new :
  Deframer.spans d = pre ++ new →
  ordered lo pre mid → ordered mid new (Deframer.processed d) →
  Deframer.discard d = lo → Deframer.processed d ≤ length buf →
  Forall (consistent buf) pre → Forall (consistent buf) new →
  Forall complete_msg (content buf <$> pre) → framing (content buf <$> new) →
  Forall (λ s, FragmentSpan.oversize s = false) pre →
  Deframer.too_large d = existsb FragmentSpan.oversize new →
  ∃ r, Deframer.coalesce_loop fuel (d, buf) = ((d, buf), r) ∧
    ((r = Ok tt ∧ settled d buf) ∨
     (r = Err InvalidMessage.HandshakePayloadTooLarge ∧ Exists oversized_msg (contents buf d))).
Proof.
  intros Hs Ho1 Ho2 Hd Hp Hc1 Hc2 Hm Hf Hsz Htl.
  assert (ordered lo (pre ++ new) (Deframer.processed d)) as Ho by (apply ordered_app; eauto).
  assert (framing (contents buf d)) as Hfr.
  { unfold contents. rewrite Hs, fmap_app. by apply framing_app. }
  rewrite coalesce_idle.
  2: { rewrite Hs. eapply framing_no_coalesce; [done..|by apply Forall_app|].
       unfold contents in Hfr. by rewrite Hs in Hfr. }
  eexists. split; [done|]. destruct (Deframer.too_large d) eqn:E; [right|left]; (split; [done|]).
  - symmetry in Htl. apply existsb_exists in Htl as (s & Hin & Hov).
    apply list_elem_of_In in Hin. apply bool_decide_eq_true in Hov.
    unfold contents. rewrite Hs, fmap_app. apply Exists_app. right.
    apply Exists_exists. exists (content buf s). split; [by apply list_elem_of_fmap_2|].
    rewrite Forall_forall in Hc2. unfold oversized_msg. by rewrite <-(Hc2 s Hin).
  - split; rewrite ?Hs; subst lo; auto; apply Forall_app; split; [done..|done|].
    apply Forall_forall. intros s Hin. apply not_true_is_false. intros Hov.
    enough (existsb FragmentSpan.oversize new = true) by congruence.
    apply existsb_exists. exists s. by rewrite <-list_elem_of_In.
Qed.

Lemma settle_at fuel buf v start cs pre processed discard :
  let d := Deframer.mk (pre ++ spans_at v start cs)
             (existsb FragmentSpan.oversize (spans_at v start cs)) processed discard in
  ordered discard pre start → start + length (concat cs) ≤ processed → processed ≤ length buf →
  slice start (start + length (concat cs)) buf = concat cs →
  Forall (consistent buf) pre → Forall complete_msg (content buf <$> pre) →
  Forall (λ s, FragmentSpan.oversize s = false) pre → framing cs →
  vcontents buf d = ((λ s, (FragmentSpan.version s, content buf s)) <$> pre) ++ ((v,.) <$> cs) ∧
  ∃ r, Deframer.coalesce_loop fuel (d, buf) = ((d, buf), r) ∧
    ((r = Ok tt ∧ settled d buf) ∨
     (r = Err InvalidMessage.HandshakePayloadTooLarge ∧ Exists oversized_msg (contents buf d))).
Proof.
  intros d Ho Hp Hb Hs Hc Hm Hz Hf.
  assert (content buf <$> spans_at v start cs = cs) as Hcs by (apply spans_at_content; [lia|done]).
  split; [unfold vcontents; simpl; rewrite fmap_app, spans_at_vcontent; [done|lia|done]|].
  apply (settle _ _ _ discard start pre (spans_at v start cs)); try done.
  - eapply ordered_weaken; [| |apply spans_at_ordered]; simpl; lia.
  - apply spans_at_consistent; [lia|done].
  - by rewrite Hcs.
Qed.

(** One merge of the loop. *)
Lemma coalesce_loop_step fuel d buf index d' buf' :
  Deframer.too_large d = false →
  Deframer.requires_coalesce (Deframer.spans d) = Some index →
  Deframer.coalesce_one index (d, buf) = ((d', buf'), Ok true) →
  Deframer.coalesce_loop (S fuel) (d, buf) = Deframer.coalesce_loop fuel (d', buf').
Proof.
  intros Hl Hr Ho. cbn [Deframer.coalesce_loop]. rewrite Hl, Hr.
  unfold mbind, action_bind. by rewrite Ho.
Qed.

Lemma coalesce_one_spec d buf pre s f :
  Deframer.spans d = pre ++ [s; f] →
  r_start (FragmentSpan.bounds s) ≤ r_end (FragmentSpan.bounds s) →
  r_end (FragmentSpan.bounds s) ≤ r_start (FragmentSpan.bounds f) →
  r_start (FragmentSpan.bounds f) ≤ r_end (FragmentSpan.bounds f) →
  r_end (FragmentSpan.bounds f) ≤ length buf →
  ∃ buf' cs, length buf' = length buf ∧
    take (r_end (FragmentSpan.bounds s)) buf' = take (r_end (FragmentSpan.bounds s)) buf ∧
    drop (r_end (FragmentSpan.bounds f)) buf' = drop (r_end (FragmentSpan.bounds f)) buf ∧
    framing cs ∧ concat cs = content buf s ++ content buf f ∧
    slice (r_start (FragmentSpan.bounds s))
      (r_start (FragmentSpan.bounds s) + length (concat cs)) buf' = concat cs ∧
    let new := spans_at (FragmentSpan.version s) (r_start (FragmentSpan.bounds s)) cs in
    Deframer.coalesce_one (length pre) (d, buf) =
      ((Deframer.mk (pre ++ new)
          (Deframer.too_large d || existsb FragmentSpan.oversize new)
          (Deframer.processed d) (Deframer.discard d), buf'), Ok true).
Proof.
  intros Hs Hss Hsf Hff Hb. destruct s as [v sz [s0 s1]], f as [fv fsz [f0 f1]]. simpl in *.
  destruct (copy_within_spec (E:=InvalidMessage.t) buf (mkRange f0 f1) s1)
    as (buf' & Hcopy & Hlen & Htake & Hslice & Hdrop); [done..|].
  assert (slice s0 (s1 + range_len (mkRange f0 f1)) buf'
          = slice s0 s1 buf ++ slice f0 f1 buf) as Hpay.
  { rewrite <-(slice_app s0 s1), Hslice by lia. f_equal.
    by rewrite <-(slice_take _ _ s1 buf'), Htake, slice_take. }
  set (p := slice s0 s1 buf ++ slice f0 f1 buf) in *.
  assert (s1 + range_len (mkRange f0 f1) = s0 + length p) as Hend.
  { unfold p. rewrite length_app, !length_slice by lia. unfold range_len. simpl. lia. }
  destruct (dissect_spec (E:=InvalidMessage.t) (length p) v s0 p) as (cs & Hcs & Hcat & Hd);
    [done|].
  exists buf', cs. rewrite Hcat. split_and!; [done..|by rewrite <-Hend|].
  unfold Deframer.coalesce_one. rewrite Hs.
  rewrite list_lookup_middle by done. rewrite cons_middle, (assoc_L (++)).
  rewrite list_lookup_middle by (rewrite length_app; simpl; lia).
  unfold Coalescer.copy_within, Delocator.slice_from_range.
  cbn [FragmentSpan.bounds FragmentSpan.version r_start r_end]. rewrite Hcopy, Hend.
  assert (get_range buf' (mkRange s0 (s0 + length p)) = Some p) as ->.
  { apply get_range_Some. simpl. rewrite <-Hend, Hpay. unfold range_len. simpl.
    split_and!; [lia..|done]. }
  simpl. unfold Deframer.insert_dissected. simpl. rewrite Hd. simpl.
  rewrite <-(assoc_L (++)), take_app_length, drop_ge by (rewrite length_app; simpl; lia).
  by rewrite !app_nil_r, firstn_all, skipn_all, app_nil_r.
Qed.

Section feed.
Context (d : Deframer.t) (buf : list u8) (v : ProtocolVersion.t) (bounds : Range).
Hypothesis Hst : settled d buf.
Hypothesis Hafter : ordered (Deframer.discard d) (Deframer.spans d) (r_start bounds).
Hypothesis Hbounds : r_start bounds ≤ r_end bounds ≤ Deframer.processed d.
Let payload : list u8 := slice (r_start bounds) (r_end bounds) buf.

Lemma feed_range : get_range buf bounds = Some payload.
Proof using All.
  apply get_range_Some. destruct Hst. split_and!; [lia..|done].
Qed.

Lemma payload_end : r_end bounds = r_start bounds + length payload.
Proof using All. destruct Hst. unfold payload. rewrite length_slice; lia. Qed.

Lemma bounds_payload : bounds = mkRange (r_start bounds) (r_start bounds + length payload).
Proof using All. rewrite <-payload_end. by destruct bounds. Qed.

(** No partial message pending: the payload starts a new one. *)
Lemma feed_aligned :
  Forall complete_msg (contents buf d) →
  feed_post v d buf payload (r_end bounds) (feed v bounds (d, buf)).
Proof using All.
  intros Hall. pose proof bounds_payload as Hb. pose proof payload_end as He. destruct Hst.
  assert (Forall (λ s, FragmentSpan.is_complete s = true) (Deframer.spans d)) as Hcomp
    by (by eapply complete_spans).
  unfold feed, Deframer.input_message. rewrite feed_range.
  replace (match last _ with Some s => _ | None => false end) with false.
  2: { destruct (last (Deframer.spans d)) as [s|] eqn:E; [|done].
       apply last_Some in E as [l E]. rewrite E in Hcomp.
       apply Forall_app in Hcomp as [_ Hs]. apply Forall_cons in Hs as [Hs _]. by rewrite Hs. }
  unfold Deframer.insert_dissected. cbn [DissectHandshakeIter.payload]. rewrite Hb.
  destruct (dissect_spec (E:=InvalidMessage.t) (length payload) v (r_start bounds) payload)
    as (cs & Hcs & Hcat & ->); [done|].
  rewrite firstn_all, skipn_all, app_nil_r, st_too_large0. unfold Deframer.coalesce.
  destruct (settle_at (length (Deframer.spans d ++ spans_at v (r_start bounds) cs)) buf v
    (r_start bounds) cs (Deframer.spans d) (Deframer.processed d) (Deframer.discard d))
    as (Hcon & r & Hr & Hpost); rewrite ?Hcat, <-?He; try done; [lia|].
  assert (absorb v payload (vcontents buf d) = vcontents buf d ++ ((v,.) <$> cs)) as Ha.
  { rewrite <-(app_nil_r (vcontents buf d)) at 1. rewrite absorb_whole by (by rewrite vcontents_snd).
    cbn [absorb]. rewrite <-Hcat. by rewrite frames_framing. }
  cbn [Deframer.spans orb]. rewrite Hr. split_and!; [done..|].
  cbv zeta. rewrite Ha. rewrite <-(vcontents_snd _ (Deframer.mk _ _ _ _)), Hcon in Hpost.
  fold (vcontents buf d) in Hpost, Hcon. rewrite fmap_app, vcontents_snd, snd_versions in Hpost |- *.
  rewrite concat_app, Hcat. split_and!; [by apply framing_app|done|]. destruct Hpost as [[-> ?]|?]; auto.
Qed.

(** A partial message pending: the payload continues it. *)
Lemma feed_partial pre s :
  Deframer.spans d = pre ++ [s] → partial_msg (content buf s) →
  feed_post v d buf payload (r_end bounds) (feed v bounds (d, buf)).
Proof using All.
  intros Hs Hpart. destruct Hst.
  unfold contents in st_framing0. rewrite Hs, fmap_app in st_framing0. csimpl in st_framing0.
  apply framing_snoc in st_framing0 as [Hm _].
  rewrite Hs in st_consistent0, st_sizes0. apply Forall_app in st_consistent0 as [Hc1 Hc2].
  apply Forall_cons in Hc2 as [Hc2 _]. apply Forall_app in st_sizes0 as [Hz _].
  pose proof feed_range as Hrange. pose proof Hafter as Haf. rewrite Hs in Haf.
  apply ordered_app in Haf as (mid & Ho1 & [Ho2 Ho3]). simpl in Ho3.
  set (f := FragmentSpan.mk v None bounds).
  assert (FragmentSpan.is_complete s = false) as Hinc.
  { apply not_true_is_false. rewrite (is_complete_iff buf) by (auto with lia).
    rewrite <-(app_nil_r (content buf s)) in Hpart. intros H.
    by apply (complete_not_partial _ []) in H. }
  unfold feed, Deframer.input_message. rewrite Hrange, Hs, last_snoc, Hinc. cbn [negb].
  unfold Deframer.set_spans. rewrite Hs, st_too_large0, <-(assoc_L (++)). cbn [app]. fold f.
  assert (Forall (λ s, FragmentSpan.is_complete s = true) pre) as Hcomp
    by (apply (complete_spans buf (Deframer.discard d) pre mid); [done|lia|done..]).
  set (d1 := Deframer.mk (pre ++ [s; f]) false (Deframer.processed d) (Deframer.discard d)).
  destruct (coalesce_one_spec d1 buf pre s f)
    as (buf' & cs & Hl & Ht & Hdr & Hf & Hcat & Hsl & Hone); [done|simpl; lia..|].
  assert (Deframer.coalesce (d1, buf) = Deframer.coalesce_loop (S (S (length pre))) (d1, buf))
    as -> by (unfold Deframer.coalesce; simpl; by rewrite length_app, Nat.add_comm).
  cbv zeta in Hone. rewrite (coalesce_loop_step _ d1 buf (length pre) _ _ eq_refl
    (requires_coalesce_Some pre s f Hcomp Hinc) Hone).
  cbn [Deframer.too_large Deframer.processed Deframer.discard d1 orb].
  assert (∀ n, mid ≤ n → ordered (Deframer.discard d) pre n) as Ho
    by (intros n Hn; by apply (ordered_weaken (Deframer.discard d) _ _ mid)).
  assert (content buf' <$> pre = content buf <$> pre) as Hpre
    by (eapply content_prefix; [exact Ht|apply Ho; lia]).
  assert (Forall (consistent buf') pre) as Hcpre
    by (eapply consistent_prefix; [exact Ht|apply Ho; lia|done]).
  assert (length (concat cs) ≤ r_end bounds - r_start (FragmentSpan.bounds s)) as Hlen.
  { rewrite Hcat, length_app. unfold content, f. simpl. rewrite !length_slice by lia. lia. }
  destruct (settle_at (S (length pre)) buf' (FragmentSpan.version s)
    (r_start (FragmentSpan.bounds s)) cs pre (Deframer.processed d) (Deframer.discard d))
    as (Hcon & r & Hr & Hpost); rewrite ?Hpre, ?Hl; try done; [apply Ho; lia|lia|].
  assert ((λ s, (FragmentSpan.version s, content buf' s)) <$> pre
    = (λ s, (FragmentSpan.version s, content buf s)) <$> pre) as Hvpre
    by (apply versions_ext, Hpre).
  assert (absorb v payload (vcontents buf d)
    = ((λ s, (FragmentSpan.version s, content buf s)) <$> pre) ++ ((FragmentSpan.version s,.) <$> cs)) as Ha.
  { unfold vcontents. rewrite Hs, fmap_app, absorb_whole.
    - csimpl. rewrite is_whole_partial by done.
      assert (content buf s ++ payload = concat cs) as -> by (by rewrite Hcat).
      by rewrite frames_framing.
    - by rewrite <-list_fmap_compose. }
  rewrite Hr. split_and!; [done..|].
  cbv zeta. rewrite Ha. rewrite <-(vcontents_snd _ (Deframer.mk _ _ _ _)), Hcon, Hvpre in Hpost.
  rewrite Hvpre in Hcon. rewrite fmap_app, snd_versions, <-list_fmap_compose in Hpost |- *.
  change (snd ∘ _) with (content buf) in Hpost |- *.
  split; [by apply framing_app|]. rewrite concat_app, Hcat. split.
  - unfold contents. rewrite Hs, fmap_app, concat_app. csimpl.
    by rewrite app_nil_r, <-(assoc_L (++)).
  - destruct Hpost as [[-> ?]|?]; auto.
Qed.

Lemma feed_spec : feed_post v d buf payload (r_end bounds) (feed v bounds (d, buf)).
Proof using All.
  destruct (snoc_cases (Deframer.spans d)) as [E|(l & s & E)].
  { apply feed_aligned. unfold contents. by rewrite E. }
  pose proof (st_framing _ _ Hst) as Hf. unfold contents in Hf.
  rewrite E, fmap_app in Hf. csimpl in Hf. apply framing_snoc in Hf as [Hm [Hc|Hp]].
  - apply feed_aligned. unfold contents. rewrite E, fmap_app. apply Forall_app; split; [done|]. csimpl. by auto.
  - by eapply feed_partial.
Qed.
End feed.

(** ** Framing of records *)

Lemma deframe_ok buf d d' fr :
  Deframer.deframe buf d = (d', Some (Ok fr)) →
  d' = Deframer.mk (Deframer.spans d) (Deframer.too_large d)
         (r_end (Deframed.bounds fr)) (Deframer.discard d) ∧
  r_start (Deframed.bounds fr) = Deframer.processed d ∧
  Deframer.processed d + HEADER_SIZE ≤ r_end (Deframed.bounds fr) ≤ length buf.
Proof.
  unfold Deframer.deframe. case_decide; [done|].
  destruct read_record_header as [[[[typ v] len] r]|e|]; [|by destruct e|done].
  destruct get_range as [head|] eqn:E; [|done]. apply get_range_Some in E as (_ & E & _).
  intros [= <- <-]. simpl in *. split_and!; auto with lia.
Qed.

(** Changing the buffer behind the processed part, or processing more of it,
    leaves a settled state settled with the same contents. *)
(** Too few bytes are not an error. *)
Definition of_record_error (e : RecordError.t) : option InvalidMessage.t :=
  match e with
  | RecordError.TooShortForHeader | RecordError.TooShortForLength => None
  | RecordError.InvalidEmptyPayload => Some InvalidMessage.InvalidEmptyPayload
  | RecordError.MessageTooLarge => Some InvalidMessage.MessageTooLarge
  | RecordError.InvalidContentType => Some InvalidMessage.InvalidContentType
  | RecordError.UnknownProtocolVersion => Some InvalidMessage.UnknownProtocolVersion
  end.

Lemma drop_to_rest n (buf k rest : list u8) :
  drop n buf = k ++ rest → drop (length buf - length rest) buf = rest.
Proof.
  intros H. rewrite <-(take_drop n buf), H, (assoc_L (++)). apply drop_app_length'.
  rewrite !length_app. lia.
Qed.

(** [Deframer::deframe] as [Record::read]. *)
Lemma deframe_read d buf :
  Deframer.processed d ≤ length buf →
  Deframer.deframe buf d =
    match Record_read (drop (Deframer.processed d) buf) with
    | Ok (r, rest) =>
        (Deframer.mk (Deframer.spans d) (Deframer.too_large d) (length buf - length rest)
           (Deframer.discard d),
         Some (Ok (Deframed.mk r (mkRange (Deframer.processed d) (length buf - length rest)))))
    | Err e => (d, (λ e, Err (Error.InvalidMessage e)) <$> of_record_error e)
    | Panic => (d, Some Panic)
    end.
Proof.
  intros Hp. unfold Record_read, Deframer.deframe. rewrite decide_False by lia.
  destruct read_record_header as [[[[typ v] len] r]|e|] eqn:E; [|by destruct e|done].
  apply read_record_header_inv in E as [_ E].
  assert (length buf = Deframer.processed d + HEADER_SIZE + length r) as Hlen.
  { apply (f_equal length) in E. rewrite length_drop, length_app, length_header in E. lia. }
  assert (drop (Deframer.processed d + HEADER_SIZE) buf = r) as Hr.
  { by rewrite <-drop_drop, E, drop_app_length' by (by rewrite length_header). }
  step_ok. unfold Reader.take, split_at_checked, get_range.
  cbn [r_start r_end]. case_decide as Hd.
  - rewrite decide_True by lia. unfold ok_or. step_ok. rewrite length_drop.
    assert (length buf - (length r - Z.to_nat len) = Deframer.processed d + HEADER_SIZE + Z.to_nat len)
      as -> by lia.
    do 5 f_equal. unfold slice. rewrite drop_0, Nat.sub_0_r, <-Hr. symmetry.
    apply take_drop_commute.
  - by rewrite decide_False by lia.
Qed.
Lemma settled_advance d buf buf' n :
  settled d buf → take (Deframer.processed d) buf' = take (Deframer.processed d) buf →
  Deframer.processed d ≤ n ≤ length buf' →
  let d' := Deframer.mk (Deframer.spans d) (Deframer.too_large d) n (Deframer.discard d) in
  settled d' buf' ∧ contents buf' d' = contents buf d.
Proof.
  intros [] Ht Hn d'.
  assert (contents buf' d' = contents buf d) as Hc by (by eapply content_prefix).
  split; [|done]. split; simpl; try done.
  - eapply ordered_weaken; [| |exact st_ordered0]; lia.
  - lia.
  - by eapply consistent_prefix.
  - by rewrite Hc.
Qed.

Lemma ordered_shift lo spans hi n :
  n ≤ lo → ordered lo spans hi →
  ordered (lo - n) ((λ s, FragmentSpan.mk (FragmentSpan.version s) (FragmentSpan.size s)
    (mkRange (r_start (FragmentSpan.bounds s) - n) (r_end (FragmentSpan.bounds s) - n)))
    <$> spans) (hi - n).
Proof.
  revert lo. induction spans as [|s spans IH]; intros lo Hn; simpl; [lia|].
  intros [? Ho]. split; [lia|]. apply IH; [lia|done].
Qed.

Lemma content_shift n buf s :
  n ≤ r_start (FragmentSpan.bounds s) →
  r_start (FragmentSpan.bounds s) ≤ r_end (FragmentSpan.bounds s) →
  content (drop n buf) (FragmentSpan.mk (FragmentSpan.version s) (FragmentSpan.size s)
    (mkRange (r_start (FragmentSpan.bounds s) - n) (r_end (FragmentSpan.bounds s) - n)))
  = content buf s.
Proof. intros. unfold content. simpl. rewrite slice_shift. f_equal; lia. Qed.

Lemma settled_discard d buf :
  settled d buf →
  let '(d', n) := Deframer.take_discard d in
  n ≤ length buf ∧ settled d' (drop n buf) ∧ contents (drop n buf) d' = contents buf d.
Proof.
  intros []. unfold Deframer.take_discard. pose proof (ordered_le _ _ _ st_ordered0).
  assert (∀ s, s ∈ Deframer.spans d → content (drop (Deframer.discard d) buf)
    (FragmentSpan.mk (FragmentSpan.version s) (FragmentSpan.size s)
      (mkRange (r_start (FragmentSpan.bounds s) - Deframer.discard d)
               (r_end (FragmentSpan.bounds s) - Deframer.discard d))) = content buf s) as Hcs.
  { intros s Hs. pose proof (spans_end_bound _ _ _ _ st_ordered0 Hs). apply content_shift; lia. }
  match goal with |- _ ∧ settled ?d' _ ∧ _ => set (d1 := d') end.
  assert (contents (drop (Deframer.discard d) buf) d1 = contents buf d) as Hc.
  { unfold contents. simpl. rewrite <-list_fmap_compose. apply list_fmap_ext.
    intros i s Hs%list_elem_of_lookup_2. by apply Hcs. }
  split; [lia|]. split; [|done]. split; simpl; try done.
  - rewrite <-(Nat.sub_diag (Deframer.discard d)). by apply ordered_shift.
  - rewrite length_drop. lia.
  - apply Forall_fmap. apply Forall_forall. intros s Hs. unfold compose, consistent.
    rewrite Hcs by done. rewrite Forall_forall in st_consistent0. exact (st_consistent0 s Hs).
  - by rewrite Hc.
  - apply Forall_fmap. by eapply Forall_impl; [exact st_sizes0|].
Qed.

(** Taking the next message. *)
(** No whole message at the front. *)
Lemma settled_no_pop d buf d' :
  settled d buf → Deframer.complete_span d = (d', None) →
  d' = d ∧ (contents buf d = [] ∨ ∃ c, partial_msg c ∧ contents buf d = [c]).
Proof.
  intros []. unfold Deframer.complete_span, contents in *.
  destruct (Deframer.spans d) as [|s l] eqn:E; [intros [= ->]; by auto|].
  destruct (FragmentSpan.is_complete s) eqn:Ec; [done|]. intros [= ->]. split; [done|right].
  destruct st_ordered0 as [Hb Ho]. pose proof (ordered_le _ _ _ Ho).
  apply Forall_cons in st_consistent0 as [Hc _]. csimpl in st_framing0.
  destruct st_framing0 as [[Hm _]|[Hp Hl]].
  - apply (is_complete_iff buf) in Hm; [by rewrite Ec in Hm|done|lia].
  - exists (content buf s). by rewrite <-Hl.
Qed.

Lemma settled_pop d buf d' s :
  settled d buf → Deframer.complete_span d = (d', Some s) →
  ∃ d'' c, Deframer.record (E:=Error.t) s buf d' =
    (d'', Ok (Record_.new ContentType.Handshake
                (EncodableVersion.Legacy (FragmentSpan.version s)) c)) ∧
    complete_msg c ∧ ¬ oversized_msg c ∧ settled d'' buf ∧
    contents buf d = c :: contents buf d'' ∧
    vcontents buf d = (FragmentSpan.version s, c) :: vcontents buf d'' ∧
    Deframer.processed d'' = Deframer.processed d.
Proof.
  intros []. unfold Deframer.complete_span.
  destruct (Deframer.spans d) as [|s' l] eqn:E; [done|].
  destruct (FragmentSpan.is_complete s') eqn:Ec; [|done]. intros [= <- <-].
  destruct st_ordered0 as [Hb Ho]. pose proof (ordered_le _ _ _ Ho).
  apply Forall_cons in st_consistent0 as [Hc1 Hc2]. apply Forall_cons in st_sizes0 as [Hz1 Hz2].
  unfold contents in st_framing0. rewrite E in st_framing0. csimpl in st_framing0.
  unfold Deframer.record, Delocator.slice_from_range.
  assert (get_range buf (FragmentSpan.bounds s') = Some (content buf s')) as ->.
  { apply get_range_Some. split_and!; [lia..|done]. }
  eexists _, (content buf s'). split; [done|].
  split; [by apply (is_complete_iff buf) in Ec; [|done|lia]|].
  split; [unfold oversized_msg; rewrite <-Hc1; by apply bool_decide_eq_false in Hz1|].
  apply framing_tail in st_framing0. unfold Deframer.set_spans, contents, vcontents. rewrite E. simpl.
  case_decide; simpl; (split_and!; [split; simpl; try done|done..]); subst; simpl; try done.
  eapply ordered_weaken; [| |exact Ho]; lia.
Qed.

(** ** Use over a connection

    What a receive path does with the deframer and the buffer between two
    moments, with the handshake bytes it received and the messages it got. *)

(** In-place decryption: only the record's own bytes change. *)
Definition in_place (r : Range) (buf buf' : list u8) : Prop :=
  length buf' = length buf ∧ take (r_start r) buf' = take (r_start r) buf ∧
  drop (r_end r) buf' = drop (r_end r) buf.

Inductive dstep : Deframer.t * list u8 → list u8 → list (list u8) →
                  Deframer.t * list u8 → Prop :=
  | step_read d buf more : dstep (d, buf) [] [] (d, buf ++ more)
  | step_handshake d buf d1 fr buf1 v bounds d2 buf2 :
      Deframer.deframe buf d = (d1, Some (Ok fr)) →
      in_place (Deframed.bounds fr) buf buf1 →
      r_start (Deframed.bounds fr) ≤ r_start bounds →
      r_start bounds ≤ r_end bounds → r_end bounds ≤ r_end (Deframed.bounds fr) →
      feed v bounds (d1, buf1) = ((d2, buf2), Ok tt) →
      dstep (d, buf) (slice (r_start bounds) (r_end bounds) buf1) [] (d2, buf2)
  | step_other d buf d1 fr buf1 :
      Deframer.deframe buf d = (d1, Some (Ok fr)) →
      in_place (Deframed.bounds fr) buf buf1 →
      dstep (d, buf) [] [] (d1, buf1)
  | step_message d buf d1 s d2 r :
      Deframer.complete_span d = (d1, Some s) →
      Deframer.record (E:=Error.t) s buf d1 = (d2, Ok r) →
      dstep (d, buf) [] [Record_.payload r] (d2, buf)
  | step_discard_processed d buf :
      Deframer.aligned d = true → dstep (d, buf) [] [] (Deframer.discard_processed d, buf)
  | step_discard d buf d1 n :
      Deframer.take_discard d = (d1, n) → dstep (d, buf) [] [] (d1, drop n buf).

Inductive drun (s : Deframer.t * list u8)
    : list (list u8) → list (list u8) → Deframer.t * list u8 → Prop :=
  | drun_nil : drun s [] [] s
  | drun_step s1 s2 recv recvd msgs delivered :
      drun s recvd delivered s1 → dstep s1 recv msgs s2 →
      drun s (recvd ++ [recv]) (delivered ++ msgs) s2.

Lemma settled_default buf : settled Deframer.default buf.
Proof. split; simpl; auto with lia. Qed.

Lemma settled_read d buf more :
  settled d buf → settled d (buf ++ more) ∧ contents (buf ++ more) d = contents buf d.
Proof.
  intros Hst. pose proof (st_processed _ _ Hst).
  destruct (settled_advance d buf (buf ++ more) (Deframer.processed d)) as [Hs Hc];
    [done|by rewrite take_app_le by lia|rewrite length_app; lia|]. by destruct d.
Qed.

Lemma settled_record d buf d1 fr buf1 :
  settled d buf → Deframer.deframe buf d = (d1, Some (Ok fr)) →
  in_place (Deframed.bounds fr) buf buf1 →
  settled d1 buf1 ∧ contents buf1 d1 = contents buf d ∧
  ordered (Deframer.discard d1) (Deframer.spans d1) (r_start (Deframed.bounds fr)) ∧
  r_end (Deframed.bounds fr) = Deframer.processed d1.
Proof.
  intros Hst (-> & Hs & Hp)%deframe_ok (Hl & Ht & _). rewrite Hs in *.
  destruct (settled_advance d buf buf1 (r_end (Deframed.bounds fr))) as [H1 H2]; [done..|lia|].
  split_and!; [done..|apply Hst|done].
Qed.

Lemma dstep_spec d buf recv msgs d' buf' :
  settled d buf → dstep (d, buf) recv msgs (d', buf') →
  settled d' buf' ∧ Forall complete_msg msgs ∧ Forall (λ c, ¬ oversized_msg c) msgs ∧
  concat (msgs ++ contents buf' d') = concat (contents buf d) ++ recv.
Proof.
  intros Hst Hstep. inversion Hstep; subst; clear Hstep; rewrite ?app_nil_r.
  - destruct (settled_read _ _ more Hst) as [? ->]. by split_and!.
  - edestruct settled_record as (Hst1 & Hc & Ho & He); [done..|].
    rewrite <-Hc.
    opose proof (feed_spec d1 buf1 v bounds Hst1 _ _) as Hf.
    { eapply ordered_weaken; [| |exact Ho]; lia. }
    { lia. }
    match goal with H : feed _ _ _ = _ |- _ => rewrite H in Hf end.
    destruct Hf as (_ & _ & _ & _ & _ & Hcat & [(_ & ? & Hv)|[? _]]); [|done].
    rewrite <-Hv, vcontents_snd in Hcat. by split_and!.
  - edestruct settled_record as (? & -> & _); [done..|]. by split_and!.
  - edestruct settled_pop as (d2 & c & Hr & Hc & Hz & Hst2 & Heq & _); [done..|].
    match goal with H : Deframer.record _ _ _ = (_, Ok r) |- _ =>
      rewrite Hr in H; injection H as <- <- end.
    rewrite Heq. split_and!; [done|repeat constructor; done..|done].
  - match goal with H : Deframer.aligned d = true |- _ =>
      unfold Deframer.aligned, Deframer.is_active in H; rewrite negb_involutive in H;
      apply bool_decide_eq_true in H; rename H into E end.
    destruct Hst. split_and!; try done. split; simpl; rewrite ?E in *; simpl; try done.
  - pose proof (settled_discard d buf Hst) as Hd.
    match goal with H : Deframer.take_discard d = _ |- _ => rewrite H in Hd end.
    destruct Hd as (_ & ? & ->). by split_and!.
Qed.

Lemma settled_not_oversized d buf :
  settled d buf → Forall (λ c, ¬ oversized_msg c) (contents buf d).
Proof.
  intros []. unfold contents. apply Forall_fmap. apply Forall_forall. intros s Hs.
  rewrite Forall_forall in st_consistent0, st_sizes0.
  specialize (st_sizes0 s Hs). apply bool_decide_eq_false in st_sizes0.
  unfold compose, oversized_msg. by rewrite <-(st_consistent0 s Hs).
Qed.

Lemma drun_spec buf0 recvd delivered d buf :
  drun (Deframer.default, buf0) recvd delivered (d, buf) →
  settled d buf ∧ Forall complete_msg delivered ∧ Forall (λ c, ¬ oversized_msg c) delivered ∧
  concat (delivered ++ contents buf d) = concat recvd.
Proof.
  remember (d, buf) as s eqn:E. intros Hrun. revert d buf E.
  induction Hrun as [|s1 s2 recv recvd msgs delivered Hrun IH Hstep]; intros d buf E.
  { simplify_eq. split_and!; [apply settled_default|constructor..|done]. }
  subst s2. destruct s1 as [d1 buf1]. destruct (IH d1 buf1 eq_refl) as (Hst & Hc & Hz & Heq).
  destruct (dstep_spec _ _ _ _ _ _ Hst Hstep) as (Hst' & Hc' & Hz' & Heq').
  split_and!; [done|by apply Forall_app..|].
  rewrite <-(assoc_L (++)), !concat_app in *. rewrite Heq', <-Heq. simpl.
  by rewrite app_nil_r, (assoc_L (++)).
Qed.

Lemma drun_framing buf0 recvd delivered d buf :
  drun (Deframer.default, buf0) recvd delivered (d, buf) →
  framing (delivered ++ contents buf d).
Proof.
  intros (Hst & Hc & _)%drun_spec. apply framing_app; [done|]. apply Hst.
Qed.

(** A run: a message of one body byte in two records, the second of which also
    starts another message. *)
Definition example_input : list u8 :=
  [x16; x03; x03; x00; x03; x01; x00; x00;
   x16; x03; x03; x00; x04; x01; xaa; x02; x00].

Definition example_buf : list u8 :=
  [x16; x03; x03; x00; x03; x01; x00; x00; x01; xaa; x02; x00; x04; x01; xaa; x02; x00].

Definition example_span (size : option Z) (s e : nat) : FragmentSpan.t :=
  FragmentSpan.mk ProtocolVersion.TLSv1_2 size (mkRange s e).

Definition example_d1 : Deframer.t := Deframer.mk [example_span None 5 8] false 8 0.
Definition example_d2 : Deframer.t :=
  Deframer.mk [example_span (Some 1%Z) 5 10; example_span None 10 12] false 17 0.
Definition example_d3 : Deframer.t := Deframer.mk [example_span None 10 12] false 17 0.

Definition example_record (p : list u8) : Record_.t (list u8) :=
  Record_.new ContentType.Handshake (EncodableVersion.Legacy ProtocolVersion.TLSv1_2) p.

Lemma example_drun :
  drun (Deframer.default, example_input)
    [[x01; x00; x00]; [x01; xaa; x02; x00]; []] [[x01; x00; x00; x01; xaa]]
    (example_d3, example_buf).
Proof.
  apply (drun_step _ (example_d2, example_buf) _ [] [[x01; x00; x00]; [x01; xaa; x02; x00]]
           [[x01; x00; x00; x01; xaa]] []);
    [apply (drun_step _ (example_d1, example_input) _ [x01; xaa; x02; x00] [[x01; x00; x00]]
              [] []);
       [apply (drun_step _ (Deframer.default, example_input) _ [x01; x00; x00] [] [] []);
          [constructor|]|]|].
  - apply (step_handshake _ _ (Deframer.mk [] false 8 0)
      (Deframed.mk (example_record [x01; x00; x00]) (mkRange 0 8))
      example_input ProtocolVersion.TLSv1_2 (mkRange 5 8)); try reflexivity; try (simpl; lia).
    by split_and!.
  - apply (step_handshake _ _ (Deframer.mk [example_span None 5 8] false 17 0)
      (Deframed.mk (example_record [x01; xaa; x02; x00]) (mkRange 8 17))
      example_input ProtocolVersion.TLSv1_2 (mkRange 13 17)); try reflexivity; try (simpl; lia).
    by split_and!.
  - apply (step_message _ _ example_d3 (example_span (Some 1%Z) 5 10) _
      (example_record [x01; x00; x00; x01; xaa])); reflexivity.
Qed.

(** The same bytes in one record, nothing taken yet. *)
Definition example_input' : list u8 :=
  [x16; x03; x03; x00; x07; x01; x00; x00; x01; xaa; x02; x00].
Definition example_d' : Deframer.t :=
  Deframer.mk [example_span (Some 1%Z) 5 10; example_span None 10 12] false 12 0.

Lemma example_drun' :
  drun (Deframer.default, example_input') [[x01; x00; x00; x01; xaa; x02; x00]] []
    (example_d', example_input').
Proof.
  apply (drun_step _ (Deframer.default, example_input') _
           [x01; x00; x00; x01; xaa; x02; x00] [] [] []); [constructor|].
  apply (step_handshake _ _ (Deframer.mk [] false 12 0)
    (Deframed.mk (example_record [x01; x00; x00; x01; xaa; x02; x00]) (mkRange 0 12))
    example_input' ProtocolVersion.TLSv1_2 (mkRange 5 12)); try reflexivity; try (simpl; lia).
  by split_and!.
Qed.

(** ** Main results *)

(** C9. Handshake reassembly is correct for every way of cutting the stream into
    records, of reading the records into the buffer, of decrypting them in place,
    and of interleaving that with taking messages and discarding buffer space:
    the messages delivered so far followed by the spans still pending are,
    byte for byte and in order, the handshake bytes received; every delivered
    message is whole, and none is larger than [MAX_HANDSHAKE_SIZE]; and at most
    the last pending span is incomplete. *)
Theorem reassembly_correct (buf0 : list u8) recvd delivered (d : Deframer.t) buf
    (Hrun : drun (Deframer.default, buf0) recvd delivered (d, buf)) :
  concat (delivered ++ contents buf d) = concat recvd ∧
  framing (delivered ++ contents buf d) ∧
  Forall (λ c, complete_msg c ∧ ¬ oversized_msg c) delivered.
Proof.
  pose proof (drun_spec _ _ _ _ _ Hrun) as (_ & ? & ? & ?).
  split_and!; [done|by eapply drun_framing|]. by apply Forall_and.
Qed.

Lemma reassembly_correct_witness :
  concat ([[x01; x00; x00; x01; xaa]] ++ contents example_buf example_d3)
    = concat [[x01; x00; x00]; [x01; xaa; x02; x00]; []].
Proof. apply (reassembly_correct _ _ _ _ _ example_drun). Defined.

(** What is delivered depends on the handshake bytes only, not on how they
    were cut into records or when messages were taken: two runs that received
    the same bytes have the same messages delivered or pending. *)
Theorem reassembly_independent buf1 buf2 recvd1 recvd2 delivered1 delivered2 s1 s2
    (Hrun1 : drun (Deframer.default, buf1) recvd1 delivered1 s1)
    (Hrun2 : drun (Deframer.default, buf2) recvd2 delivered2 s2)
    (Hsame : concat recvd1 = concat recvd2) :
  delivered1 ++ contents s1.2 s1.1 = delivered2 ++ contents s2.2 s2.1.
Proof.
  destruct s1 as [d1 b1], s2 as [d2 b2]. cbn [fst snd].
  apply framing_unique; [by eapply drun_framing..|].
  pose proof (drun_spec _ _ _ _ _ Hrun1) as (_ & _ & _ & ->).
  by pose proof (drun_spec _ _ _ _ _ Hrun2) as (_ & _ & _ & ->).
Qed.

Lemma reassembly_independent_witness :
  [[x01; x00; x00; x01; xaa]] ++ contents example_buf example_d3 =
  contents example_input' example_d'.
Proof. apply (reassembly_independent _ _ _ _ _ _ _ _ example_drun example_drun' eq_refl). Defined.

(** C38. On every reachable state, taking in one more decrypted handshake payload
    neither panics nor loops, and leaves the bytes of the buffer behind the
    payload alone.  It fails only with [HandshakePayloadTooLarge], and only when
    some message in the pending stream declares more than [MAX_HANDSHAKE_SIZE];
    otherwise the pending stream grows by exactly the payload. *)
Theorem feed_correct (buf0 : list u8) recvd delivered d buf v bounds
    (Hrun : drun (Deframer.default, buf0) recvd delivered (d, buf))
    (Hafter : ordered (Deframer.discard d) (Deframer.spans d) (r_start bounds))
    (Hbounds : r_start bounds ≤ r_end bounds ≤ Deframer.processed d) :
  let '((d', buf'), r) := feed v bounds (d, buf) in
  drop (r_end bounds) buf' = drop (r_end bounds) buf ∧
  ∃ cs, framing cs ∧
    concat cs = concat (contents buf d) ++ slice (r_start bounds) (r_end bounds) buf ∧
    match r with
    | Ok _ => contents buf' d' = cs ∧ Forall (λ c, ¬ oversized_msg c) cs
    | Err e => e = InvalidMessage.HandshakePayloadTooLarge ∧ Exists oversized_msg cs
    | Panic => False
    end.
Proof.
  pose proof (drun_spec _ _ _ _ _ Hrun) as (Hst & _).
  pose proof (feed_spec d buf v bounds Hst Hafter Hbounds) as H.
  destruct (feed v bounds (d, buf)) as [[d' buf'] r].
  destruct H as (_ & Hdrop & _ & _ & Hf & Hcat & H). split; [done|].
  eexists. split_and!; [done..|]. destruct H as [(-> & Hst' & Hv)|[-> Hex]]; [|done].
  rewrite <-Hv, vcontents_snd. split; [done|]. by apply settled_not_oversized.
Qed.

Lemma feed_correct_witness :
  let '((d', buf'), r) := feed ProtocolVersion.TLSv1_2 (mkRange 13 14)
    (Deframer.mk [example_span None 10 12] false 17 0, example_buf) in
  drop 14 buf' = drop 14 example_buf.
Proof.
  pose proof (feed_correct _ _ _ _ _ ProtocolVersion.TLSv1_2 (mkRange 13 14) example_drun
    ltac:(simpl; lia) ltac:(simpl; lia)) as H.
  unfold example_d3 in H. destruct feed as [[d' buf'] r]. apply H.
Defined.

(** The deframer frames records as [Record::read] does, at the processed
    offset: a record is yielded exactly when [Record::read] finds one there, with
    the same type, version and payload, the bounds it occupies, and the processed
    offset moved past it; nothing is yielded and nothing changes while the record
    is incomplete; an invalid header is an error. *)
Theorem deframe_refines_read (d : Deframer.t) (buf : list u8)
    (Hp : Deframer.processed d ≤ length buf) :
  match Record_read (drop (Deframer.processed d) buf), Deframer.deframe buf d with
  | Ok (r, rest), (d', Some (Ok fr)) =>
      Deframed.record fr = r ∧
      r_start (Deframed.bounds fr) = Deframer.processed d ∧
      r_end (Deframed.bounds fr) = Deframer.processed d' ∧
      drop (Deframer.processed d') buf = rest ∧
      Deframer.spans d' = Deframer.spans d ∧ Deframer.discard d' = Deframer.discard d
  | Err RecordError.TooShortForHeader, (d', None)
  | Err RecordError.TooShortForLength, (d', None) => d' = d
  | Err _, (d', Some (Err (Error.InvalidMessage _))) => d' = d
  | _, _ => False
  end.
Proof.
  rewrite deframe_read by done.
  destruct (Record_read (drop (Deframer.processed d) buf)) as [[r rest]|e|] eqn:E;
    [|by destruct e|by apply Record_read_no_panic in E].
  apply Record_read_inv in E as (typ & v & p & -> & _ & E). split_and!; try done.
  rewrite (assoc_L (++)) in E. by apply drop_to_rest in E.
Qed.

Lemma deframe_refines_read_witness :
  match Deframer.deframe example_input Deframer.default with
  | (_, Some (Ok fr)) => Deframed.record fr = example_record [x01; x00; x00]
  | _ => False
  end.
Proof.
  pose proof (deframe_refines_read Deframer.default example_input ltac:(simpl; lia)) as H.
  vm_compute in H. vm_compute. apply H.
Defined.
