(* ===== verification/Cipher.v ===== *)
(** * Nonces, additional data and keys

    [crypto/cipher/mod.rs]: the value types that the record protection of every
    cipher suite is built from.  A fixed-size array with a [used] length is a list
    of its full size and a length. *)
From S2P Require Import Prelude Enums Errors Codec Records.

(* @src rustls/src/crypto/cipher/mod.rs 323-325 NONCE_LEN *)
Definition NONCE_LEN : nat := 12.

Module Iv.
(* @src rustls/src/crypto/cipher/mod.rs 221-222 Iv::MAX_LEN *)
Definition MAX_LEN : nat := 16.

(** [buf] is an array of [MAX_LEN] bytes, and the private [used] does not exceed it. *)
(* @src rustls/src/crypto/cipher/mod.rs 188-193 Iv *)
Record t := mk {
  buf : list u8;
  used : nat;
  private : Is_true (bool_decide (length buf = MAX_LEN ∧ used ≤ MAX_LEN));
}.

(** [iv[..value.len()].copy_from_slice(value)] on an array of zeros. *)
Lemma zero_filled (value : list u8) :
  length value ≤ MAX_LEN →
  Is_true (bool_decide (length (value ++ replicate (MAX_LEN - length value) x00) = MAX_LEN ∧
                        length value ≤ MAX_LEN)).
Proof.
  intros H. apply bool_decide_pack. rewrite length_app, length_replicate. lia.
Qed.

(* @src rustls/src/crypto/cipher/mod.rs 196-213 Iv::new *)
Definition new (value : list u8) : result Error.t t :=
  match decide (length value ≤ MAX_LEN) with
  | left H => Ok (mk (value ++ replicate (MAX_LEN - length value) x00) (length value)
                    (zero_filled value H))
  | right _ => Err (Error.ApiMisuse (ApiMisuse.IvLengthExceedsMaximum (length value) MAX_LEN))
  end.

(* @src rustls/src/crypto/cipher/mod.rs 215-219 Iv::len *)
Definition len (self : t) : nat := used self.

(* @src rustls/src/crypto/cipher/mod.rs 232-234 Iv::as_ref *)
Definition as_ref (self : t) : list u8 := take (used self) (buf self).
End Iv.

Module Nonce.
(* @src rustls/src/crypto/cipher/mod.rs 237-241 Nonce *)
Record t := mk { buf : list u8; len : nat }.

(** [put_u64(v, &mut buf[lo..lo + 8])]. *)
Definition put_u64_at {E} (v : Z) (buf : list u8) (lo : nat) : result E (list u8) :=
  sub ← unwrap (get_range buf (mkRange lo (lo + 8)));
  sub ← put_u64 v sub;
  write_at buf lo sub.

(* @src rustls/src/crypto/cipher/mod.rs 260-284 Nonce::new_inner *)
Definition new_inner {E} (path_id : option Z) (iv : Iv.t) (seq : Z) : result E t :=
  let iv_len := Iv.len iv in
  let buf := replicate Iv.MAX_LEN x00 in
  buf ←
    (if decide (8 ≤ iv_len) then
       buf ← put_u64_at seq buf (iv_len - 8);
       match path_id with
       | Some path_id =>
           if decide (12 ≤ iv_len) then write_at buf (iv_len - 12) (be_bytes 4 path_id)
           else Ok buf
       | None => Ok buf
       end
     else
       let seq_bytes := be_bytes 8 seq in
       write_at buf 0 (drop (8 - iv_len) seq_bytes));
  Ok (mk (zip_with u8_xor (take iv_len buf) (Iv.as_ref iv) ++ drop iv_len buf) iv_len).

(* @src rustls/src/crypto/cipher/mod.rs 244-250 Nonce::new *)
Definition new {E} (iv : Iv.t) (seq : Z) : result E t := new_inner None iv seq.

(* @src rustls/src/crypto/cipher/mod.rs 252-258 Nonce::quic *)
Definition quic {E} (path_id : option Z) (iv : Iv.t) (pn : Z) : result E t :=
  new_inner path_id iv pn.

(* @src rustls/src/crypto/cipher/mod.rs 286-303 Nonce::to_array *)
Definition to_array (n : nat) (self : t) : result Error.t (list u8) :=
  if decide (len self ≠ n)
  then Err (Error.ApiMisuse (ApiMisuse.NonceArraySizeMismatch n (len self)))
  else unwrap (get_range (buf self) (mkRange 0 n)).

(* @src rustls/src/crypto/cipher/mod.rs 305-308 Nonce::as_bytes *)
Definition as_bytes (self : t) : list u8 := take (len self) (buf self).
End Nonce.

(* @src rustls/src/crypto/cipher/mod.rs 327-343 make_tls13_aad *)
Definition make_tls13_aad (typ : ContentType.t) (version : ProtocolVersion.t)
    (payload_len : nat) : list u8 :=
  let version := be_bytes 2 (ProtocolVersion.val version) in
  ContentType.val typ :: version ++
  [u8_of_Z (Z.shiftr (Z.of_nat payload_len) 8);
   u8_of_Z (Z.land (Z.of_nat payload_len) 0xff)].

(* @src rustls/src/crypto/cipher/mod.rs 363 TLS12_AAD_SIZE *)
Definition TLS12_AAD_SIZE : nat := 8 + 1 + 2 + 2.

(** [put(v, &mut out[lo..])]: a writer applied to a tail of the array. *)
Definition put_from {E} (put : list u8 → result E (list u8)) (out : list u8) (lo : nat)
    : result E (list u8) :=
  tail ← put (drop lo out);
  Ok (take lo out ++ tail).

(* @src rustls/src/crypto/cipher/mod.rs 345-361 make_tls12_aad *)
Definition make_tls12_aad {E} (seq : Z) (typ : ContentType.t) (vers : ProtocolVersion.t)
    (len : nat) : result E (list u8) :=
  let out := replicate TLS12_AAD_SIZE x00 in
  out ← put_from (put_u64 seq) out 0;
  let out := <[8 := ContentType.val typ]> out in
  out ← put_from (put_u16 (ProtocolVersion.val vers)) out 9;
  put_from (put_u16 (wrapN 16 (Z.of_nat len))) out 11.

Module AeadKey.
(* @src rustls/src/crypto/cipher/mod.rs 365-371 AeadKey *)
Record t := mk { buf : list u8; used : nat }.

(* @src rustls/src/crypto/cipher/mod.rs 389-390 AeadKey::MAX_LEN *)
Definition MAX_LEN : nat := 32.

(* @src rustls/src/crypto/cipher/mod.rs 374-380 AeadKey::new *)
Definition new {E} (b : list u8) : result E t :=
  buf ← write_at (replicate MAX_LEN x00) 0 b;
  Ok (mk buf (length b)).

(* @src rustls/src/crypto/cipher/mod.rs 382-387 AeadKey::with_length *)
Definition with_length {E} (self : t) (len : nat) : result E t :=
  if decide (len ≤ used self) then
    buf ← write_at (buf self) len (replicate (used self - len) x00);
    Ok (mk buf len)
  else Panic.

(* @src rustls/src/crypto/cipher/mod.rs 401-403 AeadKey::as_ref *)
Definition as_ref (self : t) : list u8 := take (used self) (buf self).
End AeadKey.

(** ** Exclusive or *)

Lemma xor_bytes_cancel (l k : list u8) :
  length l ≤ length k → zip_with u8_xor (zip_with u8_xor l k) k = l.
Proof.
  revert k. induction l as [|x l IH]; intros [|y k] H; simpl in *; try done; [lia|].
  by rewrite u8_xor_cancel, IH by lia.
Qed.

Lemma xor_bytes_inj (l l' k : list u8) :
  length l ≤ length k → length l' ≤ length k →
  zip_with u8_xor l k = zip_with u8_xor l' k → l = l'.
Proof.
  intros H1 H2 H. rewrite <-(xor_bytes_cancel l k), <-(xor_bytes_cancel l' k) by done.
  by rewrite H.
Qed.

(** ** Nonces *)

(** The integer that is combined with the IV. *)
Definition nonce_int (path_id : option Z) (iv_len : nat) (seq : Z) : Z :=
  match path_id with
  | Some p => if decide (12 ≤ iv_len) then p * 2 ^ 64 + seq else seq
  | None => seq
  end.

Lemma write_at_zeros {E} (lo : nat) (k rest : list u8) (n : nat) :
  n = length k →
  write_at (E:=E) (replicate (lo + n) x00 ++ rest) lo k = Ok (replicate lo x00 ++ k ++ rest).
Proof.
  intros ->. rewrite replicate_add, <-(assoc_L (++)).
  rewrite <-(length_replicate lo x00) at 2.
  by rewrite write_at_prefix by (by rewrite length_replicate).
Qed.

Lemma zeros_split (a n : nat) :
  a ≤ n → replicate n x00 = replicate a x00 ++ replicate (n - a) x00.
Proof. intros. rewrite <-replicate_add. f_equal. lia. Qed.

Lemma put_u64_at_spec {E} v lo n :
  lo + 8 ≤ n →
  Nonce.put_u64_at (E:=E) v (replicate n x00) lo
  = Ok (replicate lo x00 ++ be_bytes 8 v ++ replicate (n - (lo + 8)) x00).
Proof.
  intros H. unfold Nonce.put_u64_at, get_range. cbn [r_start r_end].
  rewrite length_replicate, decide_True by lia.
  assert (slice lo (lo + 8) (replicate n x00) = replicate 8 x00 ++ []) as ->.
  { unfold slice. rewrite drop_replicate, take_replicate, app_nil_r. f_equal. lia. }
  cbn [unwrap]. step_ok. unfold put_u64. rewrite decide_True by (simpl; lia).
  rewrite (write_at_zeros 0 (be_bytes 8 v) [] 8), app_nil_r by (by rewrite be_bytes_length).
  step_ok. cbn [app replicate]. rewrite (zeros_split (lo + 8) n) by lia.
  by rewrite write_at_zeros by (by rewrite be_bytes_length).
Qed.

(** The value bytes of the nonce, before the IV is added in. *)
Lemma nonce_value path_id l seq :
  is_u64 seq → from_option is_u32 True path_id →
  be_bytes l (nonce_int path_id l seq) =
    if decide (8 ≤ l) then
      match path_id with
      | Some p => if decide (12 ≤ l)
                  then replicate (l - 12) x00 ++ be_bytes 4 p ++ be_bytes 8 seq
                  else replicate (l - 8) x00 ++ be_bytes 8 seq
      | None => replicate (l - 8) x00 ++ be_bytes 8 seq
      end
    else drop (8 - l) (be_bytes 8 seq).
Proof.
  unfold is_u64, is_u32. intros Hs Hp.
  assert (8 ≤ l → be_bytes l seq = replicate (l - 8) x00 ++ be_bytes 8 seq) as Hlong.
  { intros. rewrite <-be_bytes_pad by lia. f_equal. lia. }
  destruct (decide (8 ≤ l)); [destruct path_id as [p|]; unfold nonce_int; [case_decide|]|]; auto.
  - simpl in Hp. replace l with ((l - 12) + 12) at 1 by lia.
    rewrite be_bytes_pad by lia. f_equal.
    change 12 with (4 + 8) at 1. rewrite be_bytes_app.
    replace (Z.shiftr (p * 2 ^ 64 + seq) (8 * Z.of_nat 8)) with p.
    + f_equal. rewrite <-(be_bytes_wrap 8 64) by lia. unfold wrapN.
      by rewrite Z.add_comm, Z_mod_plus_full, Z.mod_small by lia.
    + rewrite Z.shiftr_div_pow2 by lia. change (8 * Z.of_nat 8)%Z with 64%Z.
      rewrite Z.div_add_l, Z.div_small by lia. lia.
  - assert (nonce_int path_id l seq = seq) as ->
      by (destruct path_id; simpl; [by rewrite decide_False by lia|done]).
    replace 8 with ((8 - l) + l) at 2 by lia. rewrite be_bytes_app.
    by rewrite drop_app_length' by (by rewrite be_bytes_length).
Qed.

Lemma nonce_buf {E} path_id l seq :
  l ≤ Iv.MAX_LEN → is_u64 seq → from_option is_u32 True path_id →
  (if decide (8 ≤ l) then
     buf ← Nonce.put_u64_at seq (replicate Iv.MAX_LEN x00) (l - 8);
     match path_id with
     | Some path_id =>
         if decide (12 ≤ l) then write_at buf (l - 12) (be_bytes 4 path_id) else Ok buf
     | None => Ok buf
     end
   else write_at (replicate Iv.MAX_LEN x00) 0 (drop (8 - l) (be_bytes 8 seq)))
  = Ok (E:=E) (be_bytes l (nonce_int path_id l seq) ++ replicate (Iv.MAX_LEN - l) x00).
Proof.
  intros Hl Hs Hp. rewrite nonce_value by done. case_decide as H8.
  - rewrite put_u64_at_spec by lia. step_ok.
    replace (Iv.MAX_LEN - (l - 8 + 8)) with (Iv.MAX_LEN - l) by lia.
    destruct path_id as [p|]; [case_decide|]; rewrite <-?(assoc_L (++)); try done.
    replace (l - 8) with ((l - 12) + 4) by lia.
    by rewrite write_at_zeros by (by rewrite be_bytes_length).
  - rewrite (zeros_split (0 + l)) by lia.
    by rewrite write_at_zeros by (rewrite length_drop, be_bytes_length; lia).
Qed.

Lemma iv_bounds iv : length (Iv.buf iv) = Iv.MAX_LEN ∧ Iv.len iv ≤ Iv.MAX_LEN.
Proof. apply (bool_decide_unpack _ (Iv.private iv)). Qed.

Lemma length_iv iv : length (Iv.as_ref iv) = Iv.len iv.
Proof.
  destruct (iv_bounds iv) as [H1 H2]. unfold Iv.as_ref, Iv.len in *. rewrite length_take. lia.
Qed.

Lemma nonce_spec {E} path_id iv seq :
  is_u64 seq → from_option is_u32 True path_id →
  ∃ n, Nonce.new_inner (E:=E) path_id iv seq = Ok n ∧ Nonce.len n = Iv.len iv ∧
    Nonce.as_bytes n =
      zip_with u8_xor (be_bytes (Iv.len iv) (nonce_int path_id (Iv.len iv) seq)) (Iv.as_ref iv).
Proof.
  intros Hs Hp. pose proof (length_iv iv) as Hlen. unfold Nonce.new_inner. cbv zeta.
  rewrite nonce_buf by (done || by apply iv_bounds). step_ok. eexists. split; [done|].
  split; [done|]. unfold Nonce.as_bytes. cbn [Nonce.buf Nonce.len].
  rewrite (take_app_length' (be_bytes _ _)) by (by rewrite be_bytes_length).
  rewrite take_app_length'; [done|]. rewrite length_zip_with, be_bytes_length. lia.
Qed.

(** A path is told apart by the nonce when the IV has room for it. *)
Definition nonce_room (path_id : option Z) (iv : Iv.t) : Prop :=
  8 ≤ Iv.len iv ∧ (path_id ≠ None → 12 ≤ Iv.len iv).

Lemma nonce_int_inj p1 p2 l s1 s2 :
  is_u64 s1 → is_u64 s2 → from_option is_u32 True p1 → from_option is_u32 True p2 →
  (p1 ≠ None ∨ p2 ≠ None → 12 ≤ l) →
  nonce_int p1 l s1 = nonce_int p2 l s2 → default 0%Z p1 = default 0%Z p2 ∧ s1 = s2.
Proof.
  unfold is_u64, is_u32. intros Hs1 Hs2 Hp1 Hp2 Hl H.
  assert (∀ p s, from_option (λ v, 0 <= v < 2 ^ 32)%Z True p → (p ≠ None → 12 ≤ l) →
    nonce_int p l s = (default 0 p * 2 ^ 64 + s)%Z) as Hn.
  { intros [p|] s Hp Hpl; simpl; [|lia]. by rewrite decide_True by auto. }
  rewrite !Hn in H by naive_solver. destruct p1, p2; simpl in *; lia.
Qed.

Lemma nonce_int_range p l s :
  is_u64 s → from_option is_u32 True p → 8 ≤ l →
  (0 <= nonce_int p l s < 2 ^ (Z.of_nat l * 8))%Z.
Proof.
  unfold is_u64, is_u32, nonce_int. intros Hs Hp Hl.
  assert (∀ n, (n <= Z.of_nat l)%Z → 0 <= n → 2 ^ (n * 8) <= 2 ^ (Z.of_nat l * 8))%Z as Hpow
    by (intros; apply Z.pow_le_mono_r; lia).
  destruct p as [p|]; simpl in *; [case_decide|].
  - specialize (Hpow 12%Z ltac:(lia) ltac:(lia)). lia.
  - specialize (Hpow 8%Z ltac:(lia) ltac:(lia)). lia.
  - specialize (Hpow 8%Z ltac:(lia) ltac:(lia)). lia.
Qed.

(** ** Main results *)

(** C11. Nonces do not repeat under one IV: for an IV of at least 8 bytes (12 when
    multipath path ids are used), the nonces of two (path, sequence number) pairs
    are equal only when the pairs are (no path id counting as path 0); computing
    them never panics. *)
Theorem nonce_unique (iv : Iv.t) (p1 p2 : option Z) (s1 s2 : Z)
    (Hroom1 : nonce_room p1 iv) (Hroom2 : nonce_room p2 iv)
    (Hs1 : is_u64 s1) (Hs2 : is_u64 s2)
    (Hp1 : from_option is_u32 True p1) (Hp2 : from_option is_u32 True p2) :
  ∃ n1 n2, Nonce.quic (E:=Error.t) p1 iv s1 = Ok n1 ∧ Nonce.quic (E:=Error.t) p2 iv s2 = Ok n2 ∧
    (Nonce.as_bytes n1 = Nonce.as_bytes n2 → default 0%Z p1 = default 0%Z p2 ∧ s1 = s2).
Proof.
  destruct (nonce_spec (E:=Error.t) p1 iv s1) as (n1 & H1 & _ & Hb1); [done..|].
  destruct (nonce_spec (E:=Error.t) p2 iv s2) as (n2 & H2 & _ & Hb2); [done..|].
  exists n1, n2. split_and!; [done..|]. rewrite Hb1, Hb2.
  intros H%xor_bytes_inj; [|by rewrite be_bytes_length, length_iv..].
  destruct Hroom1 as [H8 ?], Hroom2 as [_ ?].
  apply be_bytes_inj in H; [|by apply nonce_int_range..].
  apply nonce_int_inj in H; [done..|]. naive_solver.
Qed.

Lemma nonce_unique_witness :
  ∃ n1 n2,
    Nonce.quic (E:=Error.t) (Some 3%Z) (Iv.mk (replicate 16 x07) 12 I) 5 = Ok n1 ∧
    Nonce.quic (E:=Error.t) None (Iv.mk (replicate 16 x07) 12 I) 6 = Ok n2 ∧
    (Nonce.as_bytes n1 = Nonce.as_bytes n2 → 3 = 0 ∧ 5 = 6)%Z.
Proof.
  apply (nonce_unique (Iv.mk (replicate 16 x07) 12 I) (Some 3%Z) None 5 6);
    unfold nonce_room, is_u64, is_u32; simpl; auto with lia.
Defined.

(** A TLS nonce is the IV exclusive-or the sequence number as a big-endian
    integer padded to the IV's length: adding the IV in again gives the sequence
    number back. *)
Theorem nonce_decodes (iv : Iv.t) (seq : Z)
    (Hlen : 8 ≤ Iv.len iv) (Hseq : is_u64 seq) :
  ∃ n, Nonce.new (E:=Error.t) iv seq = Ok n ∧ Nonce.len n = Iv.len iv ∧
    be_val (zip_with u8_xor (Nonce.as_bytes n) (Iv.as_ref iv)) = seq.
Proof.
  destruct (nonce_spec (E:=Error.t) None iv seq) as (n & Hn & Hl & Hb); [done..|].
  exists n. split_and!; [done..|]. rewrite Hb, xor_bytes_cancel.
  - apply be_val_bytes_small. by apply (nonce_int_range None).
  - by rewrite be_bytes_length, length_iv.
Qed.

Lemma nonce_decodes_witness :
  ∃ n, Nonce.new (E:=Error.t) (Iv.mk (replicate 16 x07) 12 I) 258 = Ok n ∧ Nonce.len n = 12 ∧
    be_val (zip_with u8_xor (Nonce.as_bytes n) (replicate 12 x07)) = 258%Z.
Proof.
  apply (nonce_decodes (Iv.mk (replicate 16 x07) 12 I) 258);
    unfold is_u64; simpl; lia.
Defined.

(** The additional data authenticated with a record of less than 2^16 bytes:
    the TLS 1.3 form is the very record header that goes on the wire, and the TLS
    1.2 form is the sequence number, type, version and length at fixed widths,
    built without panicking. *)
Theorem aad_faithful seq typ (version : EncodableVersion.t) (vers : ProtocolVersion.t) (len : nat)
    (Hlen : (Z.of_nat len < 2 ^ 16)%Z) :
  make_tls13_aad typ (EncodableVersion.encode version) len
    = encode_record_header typ version (Z.of_nat len) ∧
  make_tls12_aad (E:=Error.t) seq typ vers len =
    Ok (be_bytes 8 seq ++ [ContentType.val typ] ++ be_bytes 2 (ProtocolVersion.val vers)
        ++ be_bytes 2 (Z.of_nat len)).
Proof.
  split.
  - unfold make_tls13_aad, encode_record_header. f_equal. f_equal.
    change (be_bytes 2 (Z.of_nat len)) with (be_bytes (1 + 1) (Z.of_nat len)).
    rewrite be_bytes_app, <-(be_bytes_wrap 1 8 (Z.of_nat len)), !be_bytes_1 by lia.
    change 255%Z with (Z.ones 8). by rewrite Z.land_ones by lia.
  - unfold make_tls12_aad. rewrite <-(be_bytes_wrap 2 16 (Z.of_nat len)) by lia.
    reflexivity.
Qed.

Lemma aad_faithful_witness :
  make_tls13_aad ContentType.ApplicationData ProtocolVersion.TLSv1_2 300
    = encode_record_header ContentType.ApplicationData
        (EncodableVersion.Legacy ProtocolVersion.TLSv1_3) 300.
Proof.
  apply (aad_faithful 0 ContentType.ApplicationData
    (EncodableVersion.Legacy ProtocolVersion.TLSv1_3) ProtocolVersion.TLSv1_2 300). lia.
Defined.
