(* ===== verification/Extensions.v ===== *)
(** * Extension blocks

    The code that [extension_struct!] ([msgs/macros.rs]) generates for every
    extension block of the handshake, once and for all: a structure is described
    by its slots ([field]), and the generated methods are functions over that
    description.  Also the duplicate checker of [msgs/handshake.rs]. *)
From stdpp Require Import gmap.
From S2P Require Import Prelude Enums Errors Codec.

(** ** Duplicate checking *)

Module InlineSet.
(* @src rustls/src/msgs/handshake.rs 1466-1469 InlineSet *)
Inductive t :=
  | Small (slots : list Z) (used : nat)
  | Large (btree : gset Z).

(* @src rustls/src/msgs/handshake.rs 1504-1509 InlineSet::default *)
Definition default : t := Small (replicate 8 0%Z) 0.

(* @src rustls/src/msgs/handshake.rs 1472-1491 InlineSet::insert *)
Definition insert (value : Z) (self : t) : t * bool :=
  match self with
  | Large btree => (Large ({[value]} ∪ btree), bool_decide (value ∉ btree))
  | Small slots used =>
      if decide (value ∈ take used slots) then (self, false)
      else if decide (used = length slots) then
        (Large ({[value]} ∪ list_to_set (take used slots)), true)
      else (Small (<[used := value]> slots) (S used), true)
  end.

(* @src rustls/src/msgs/handshake.rs 1495-1500 BTreeSet::from *)
Definition into_btreeset (self : t) : gset Z :=
  match self with
  | Small slots used => list_to_set (take used slots)
  | Large btree => btree
  end.

Definition wf (self : t) : Prop :=
  match self with
  | Small slots used => length slots = 8 ∧ used ≤ 8
  | Large _ => True
  end.

Lemma default_wf : wf default ∧ into_btreeset default = ∅.
Proof. by vm_compute; auto with lia. Qed.

(** The small array and the tree behave as one set. *)
Lemma insert_spec value self :
  wf self →
  let '(self', fresh) := insert value self in
  wf self' ∧ into_btreeset self' = {[value]} ∪ into_btreeset self ∧
  (fresh = true ↔ value ∉ into_btreeset self).
Proof.
  destruct self as [slots used|btree]; simpl.
  - intros [Hl Hu]. case_decide as Hin; [|case_decide as Hf].
    + split; [done|]. simpl. set_solver.
    + simpl. split; [done|]. set_solver.
    + assert (used < length slots) by lia. simpl.
      rewrite length_insert, (take_S_r _ _ value) by (by apply list_lookup_insert_eq).
      rewrite take_insert_ge by lia. set_solver by lia.
  - intros _. split; [done|]. split; [done|]. by rewrite bool_decide_eq_true.
Qed.
End InlineSet.

(* @src rustls/src/msgs/handshake.rs 1415-1425 has_duplicates *)
Fixpoint has_duplicates_loop (seen : InlineSet.t) (iter : list Z) : bool :=
  match iter with
  | [] => false
  | x :: iter =>
      let '(seen, fresh) := InlineSet.insert x seen in
      if fresh then has_duplicates_loop seen iter else true
  end.

(* @src rustls/src/msgs/handshake.rs 1415-1425 has_duplicates *)
Definition has_duplicates (iter : list Z) : bool :=
  has_duplicates_loop InlineSet.default iter.

Lemma has_duplicates_loop_spec seen iter :
  InlineSet.wf seen →
  has_duplicates_loop seen iter = false ↔
    NoDup iter ∧ ∀ x, x ∈ iter → x ∉ InlineSet.into_btreeset seen.
Proof.
  revert seen. induction iter as [|x iter IH]; intros seen Hwf; simpl.
  { split; [|done]. split; [constructor|set_solver]. }
  pose proof (InlineSet.insert_spec x seen Hwf) as H.
  destruct (InlineSet.insert x seen) as [seen' fresh]. destruct H as (Hwf' & Hs & Hf).
  rewrite NoDup_cons. destruct fresh; simpl.
  - rewrite IH, Hs by done. assert (x ∉ InlineSet.into_btreeset seen) by (by apply Hf).
    set_solver.
  - split; [done|]. intros [_ Hx]. exfalso.
    enough (false = true) by done. apply Hf, Hx. set_solver.
Qed.

Module DuplicateExtensionChecker.
(* @src rustls/src/msgs/handshake.rs 1427 DuplicateExtensionChecker *)
Definition t : Type := InlineSet.t.

(* @src rustls/src/msgs/handshake.rs 1430-1432 DuplicateExtensionChecker::new *)
Definition new : t := InlineSet.default.

(* @src rustls/src/msgs/handshake.rs 1457-1463 DuplicateExtensionChecker::check *)
Definition check (typ : ExtensionType.t) (self : t) : result InvalidMessage.t t :=
  let u := ExtensionType.val typ in
  match InlineSet.insert u self with
  | (self, true) => Ok self
  | (_, false) => Err (InvalidMessage.DuplicateExtension u)
  end.

(* @src rustls/src/msgs/handshake.rs 1438-1455 DuplicateExtensionChecker::check_unprocessed *)
Definition check_unprocessed (typ : ExtensionType.t) (permitted : list ExtensionType.t)
    (self : t) : result InvalidMessage.t t :=
  if is_recognized typ && negb (bool_decide (typ ∈ permitted))
  then Err (InvalidMessage.MisplacedExtension (ExtensionType.val typ))
  else check typ self.
End DuplicateExtensionChecker.

(** ** Extension structures *)

(** One item of the first block of [extension_struct!]: the extension type, the
    type of the slot with its codec, and the slot as an accessor pair.  [f_valid]
    is the set of values that have an encoding; it plays no part in the code. *)
Record field (S : Type) := Field {
  f_id : ExtensionType.t;
  f_ty : Type;
  f_codec : Codec f_ty;
  f_get : S → option f_ty;
  f_set : option f_ty → S → S;
  f_valid : f_ty → Prop;
}.
Arguments Field {S} f_id {f_ty f_codec}.
Arguments f_id {S}.
Arguments f_ty {S}.
Arguments f_codec {S}.
Arguments f_get {S}.
Arguments f_set {S}.
Arguments f_valid {S}.
#[global] Existing Instance f_codec.

(* @src rustls/src/msgs/macros.rs 126-154 extension_struct *)
Class ExtensionStruct (S : Type) := {
  struct_name : string;
  es_default : S;
  fields : list (field S);
}.

Section extension_struct.
Context {S : Type} `{!ExtensionStruct S}.
Implicit Types (self : S) (typ : ExtensionType.t).

(** The arm of the generated [match typ]: the first that names it. *)
Definition arm (typ : ExtensionType.t) : option (field S) :=
  snd <$> list_find (λ f, f_id f = typ) fields.

(* @src rustls/src/msgs/macros.rs 201-211 read_once *)
Definition read_once (f : field S) (self : S) : reader S :=
  match f_get f self with
  | Some _ => reader_fail (InvalidMessage.DuplicateExtension (ExtensionType.val (f_id f)))
  | None => v ← (read : reader (f_ty f)); mret (f_set f (Some v) self)
  end.

(* @src rustls/src/msgs/macros.rs 176-199 read_extension_body *)
Definition read_extension_body (typ : ExtensionType.t) (self : S) : reader (S * bool) :=
  match arm typ with
  | Some f => self ← read_once f self; mret (self, true)
  | None =>
      (* read and ignore unhandled extensions *)
      _ ← Reader.rest; mret (self, false)
  end.

(** [unknown] is a closure with its captured state (a duplicate checker). *)
(* @src rustls/src/msgs/macros.rs 157-174 read_one *)
Definition read_one {C} (unknown : ExtensionType.t → C → result InvalidMessage.t C)
    (self : S) (c : C) : reader (S * C * ExtensionType.t) :=
  typ ← (read : reader ExtensionType.t);
  len ← u16_read;
  body ← Reader.sub (Z.to_nat len);
  Reader.within body (Reader.all struct_name
    ('(self, handled) ← read_extension_body typ self;
     if (handled : bool) then mret (self, c, typ)
     else c ← reader_lift (unknown typ c); mret (self, c, typ))).

(** [while sub.any_left() { .. }]: every turn takes an extension header, so
    [length sub] turns are enough ([read_all_total]).  [check] is what follows the
    [read_one] of a turn, given the bytes left. *)
Fixpoint read_while {C} (fuel : nat)
    (unknown : ExtensionType.t → C → result InvalidMessage.t C)
    (check : ExtensionType.t → list u8 → C → result InvalidMessage.t C)
    (self : S) (c : C) (sub : list u8) : result InvalidMessage.t (S * C) :=
  if Reader.any_left sub then
    match fuel with
    | O => Panic
    | Datatypes.S fuel =>
        '((self, c, typ), sub) ← read_one unknown self c sub;
        c ← check typ sub c;
        read_while fuel unknown check self c sub
    end
  else Ok (self, c).

(** The common shape of the [read]s: a [u16] length, then the loop over the
    sub-reader. *)
Definition read_block {C} (unknown : ExtensionType.t → C → result InvalidMessage.t C)
    (check : ExtensionType.t → list u8 → C → result InvalidMessage.t C) (c : C)
    : reader (S * C) :=
  len ← u16_read;
  sub ← Reader.sub (Z.to_nat len);
  reader_lift (read_while (length sub) unknown check es_default c sub).

Definition no_check {C} (_ : ExtensionType.t) (_ : list u8) (c : C)
    : result InvalidMessage.t C := Ok c.

(* @src rustls/src/msgs/macros.rs 213-233 encode_one *)
Definition encode_one (typ : ExtensionType.t) (self : S) (output : list u8) : list u8 :=
  match arm typ with
  | Some f =>
      match f_get f self with
      | Some item =>
          LengthPrefixedBuffer.nest ListLength.U16 (λ buf, encode item buf)
            (encode typ output)
      | None => output
      end
  | None => output
  end.

(** [for ext in exts { self.encode_one(ext, extensions.buf) }] in a [u16] block. *)
Definition encode_block (exts : list ExtensionType.t) (self : S) (bytes : list u8) : list u8 :=
  LengthPrefixedBuffer.nest ListLength.U16
    (λ buf, fold_left (λ buf ext, encode_one ext self buf) exts buf) bytes.

(* @src rustls/src/msgs/macros.rs 312-315 ALL_EXTENSIONS *)
Definition ALL_EXTENSIONS : list ExtensionType.t := f_id <$> fields.

(* @src rustls/src/msgs/macros.rs 235-247 collect_used *)
Definition collect_used (self : S) : list ExtensionType.t :=
  f_id <$> filter (λ f, is_Some (f_get f self)) fields.

(* @src rustls/src/msgs/macros.rs 249-264 clone_one *)
Definition clone_one (self source : S) (typ : ExtensionType.t) : S :=
  match arm typ with Some f => f_set f (f_get f source) self | None => self end.

(* @src rustls/src/msgs/macros.rs 266-275 clear *)
Definition clear (self : S) (typ : ExtensionType.t) : S :=
  match arm typ with Some f => f_set f None self | None => self end.

(* @src rustls/src/msgs/macros.rs 302-310 contains *)
Definition contains (self : S) (e : ExtensionType.t) : bool :=
  match arm e with Some f => bool_decide (is_Some (f_get f self)) | None => false end.

(* @src rustls/src/msgs/macros.rs 277-289 only_contains *)
Definition only_contains (self : S) (allowed : list ExtensionType.t) : bool :=
  forallb (λ f, negb (bool_decide (is_Some (f_get f self))) ||
                bool_decide (f_id f ∈ allowed)) fields.

(* @src rustls/src/msgs/macros.rs 291-300 contains_any *)
Definition contains_any (self : S) (exts : list ExtensionType.t) : bool :=
  existsb (contains self) exts.
End extension_struct.

(** The slots of a structure are independent, start empty, and with the other
    members ([es_meta]) make up the structure. *)
Class ExtensionLaws (S : Type) `{!ExtensionStruct S} {M : Type} (es_meta : S → M) : Prop := {
  fields_nodup : NoDup (f_id <$> fields (S:=S));
  fields_u16 : Forall (λ f, is_u16 (ExtensionType.val (f_id f))) (fields (S:=S));
  fields_body : Forall (λ f, BodyLaws (f_ty f) (f_valid f)) (fields (S:=S));
  fields_total : Forall (λ f, TotalRead (f_ty f)) (fields (S:=S));
  get_default : Forall (λ f, f_get f es_default = None) (fields (S:=S));
  get_set f v (s : S) : f ∈ fields → f_get f (f_set f v s) = v;
  get_set_ne f g v (s : S) :
    f ∈ fields → g ∈ fields → f_id f ≠ f_id g → f_get f (f_set g v s) = f_get f s;
  meta_set f v (s : S) : f ∈ fields → es_meta (f_set f v s) = es_meta s;
  struct_ext (s1 s2 : S) :
    Forall (λ f, f_get f s1 = f_get f s2) fields → es_meta s1 = es_meta s2 → s1 = s2;
}.

(** *** Wire format *)

(** One extension on the wire. *)
Definition tlv (e : ExtensionType.t * list u8) : list u8 :=
  be_bytes 2 (ExtensionType.val e.1) ++ be_bytes 2 (Z.of_nat (length e.2)) ++ e.2.

Definition tlv_ok (e : ExtensionType.t * list u8) : Prop :=
  is_u16 (ExtensionType.val e.1) ∧ (Z.of_nat (length e.2) < 2 ^ 16)%Z.

Lemma length_tlv e : length (tlv e) = 4 + length e.2.
Proof. unfold tlv. rewrite !length_app, !be_bytes_length. lia. Qed.

Lemma tlvs_nil l : concat (tlv <$> l) = [] → l = [].
Proof.
  destruct l as [|e l]; [done|]. intros H%(f_equal length). cbn [fmap list_fmap concat] in H.
  rewrite length_app, length_tlv in H. simpl in H. lia.
Qed.

Section extension_laws.
Context {S : Type} `{!ExtensionStruct S} {M} (es_meta : S → M) `{!ExtensionLaws S es_meta}.
Context {C : Type} (unknown : ExtensionType.t → C → result InvalidMessage.t C)
  (check : ExtensionType.t → list u8 → C → result InvalidMessage.t C).
Implicit Types (s : S) (typ : ExtensionType.t).

Lemma arm_Some typ f : arm (S:=S) typ = Some f → f ∈ fields ∧ f_id f = typ.
Proof.
  unfold arm. intros ([i g] & (Hi & Ht & _)%list_find_Some & ->)%fmap_Some.
  split; [|done]. apply list_elem_of_lookup. eauto.
Qed.

Lemma arm_id f : f ∈ fields → arm (S:=S) (f_id f) = Some f.
Proof.
  intros Hf. unfold arm.
  destruct (list_find_elem_of (λ g, f_id g = f_id f) fields f) as [[i g] Hg]; [done..|].
  rewrite Hg. cbn. f_equal. apply list_find_Some in Hg as (Hi & Ht & _).
  apply list_elem_of_lookup in Hf as [j Hj]. assert (i = j) as ->.
  { eapply NoDup_lookup; [apply fields_nodup|..]; rewrite list_lookup_fmap;
      [by rewrite Hi; simpl; rewrite Ht|by rewrite Hj]. }
  by simplify_eq.
Qed.

Lemma arm_None typ : arm (S:=S) typ = None ↔ typ ∉ ALL_EXTENSIONS (S:=S).
Proof.
  unfold ALL_EXTENSIONS. rewrite list_elem_of_fmap. split.
  - intros Ha (f & -> & Hf). by rewrite arm_id in Ha.
  - intros Hn. destruct (arm typ) as [f|] eqn:Ha; [|done].
    apply arm_Some in Ha as [Hf <-]. destruct Hn; eauto.
Qed.

(** What one extension does to the structure and the checker. *)
Definition takes (e : ExtensionType.t * list u8) s (c : C) s' (c' : C) : Prop :=
  match arm (S:=S) e.1 with
  | Some f => f_get f s = None ∧ (∃ v, read e.2 = Ok (v, []) ∧ s' = f_set f (Some v) s) ∧ c' = c
  | None => s' = s ∧ unknown e.1 c = Ok c'
  end.

Lemma read_body_Ok typ body s s' c c' t :
  Reader.all (struct_name (S:=S))
    ('(self, handled) ← read_extension_body typ s;
     if (handled : bool) then mret (self, c, typ)
     else c ← reader_lift (unknown typ c); mret (self, c, typ)) body
    = Ok (s', c', t, []) ↔ t = typ ∧ takes (typ, body) s c s' c'.
Proof.
  rewrite reader_all_Ok. unfold takes, read_extension_body, mbind, reader_bind, mret, reader_ret.
  cbn [fst snd]. destruct (arm typ) as [f|].
  - unfold read_once, mbind, reader_bind, mret, reader_ret.
    destruct (f_get f s); [naive_solver|].
    destruct (read body) as [[v r]| |] eqn:E; [|naive_solver..]. split.
    + intros [_ [= <- <- <- ->]]. naive_solver.
    + intros (-> & _ & (w & [= -> ->] & ->) & ->). done.
  - unfold reader_lift, Reader.rest. destruct (unknown typ c); naive_solver.
Qed.

Lemma read_one_Ok bs s c s' c' typ rest :
  read_one unknown s c bs = Ok (s', c', typ, rest) ↔
    ∃ body, tlv_ok (typ, body) ∧ bs = tlv (typ, body) ++ rest ∧ takes (typ, body) s c s' c'.
Proof.
  unfold read_one, tlv, tlv_ok. cbn [fst snd]. split.
  - intros H. reader_inv.
    match goal with H : read _ = Ok _ |- _ => apply read_inv in H as [? ->] end.
    unfold Reader.within in H. destruct (Reader.all _ _ _) as [[r ?]| |] eqn:E; [|done..].
    pose proof E as [-> _]%reader_all_Ok. simplify_eq.
    apply read_body_Ok in E as [-> E]. unfold is_u16 in *.
    match type of E with takes (_, ?b) _ _ _ _ => exists b end.
    split; [split; lia|]. split; [|done].
    match goal with H : length _ = Z.to_nat _ |- _ => rewrite H end.
    rewrite Z2Nat.id by lia. by rewrite <-!(assoc_L (++)).
  - intros (body & [Hu Hl] & -> & Ht). unfold mbind, reader_bind.
    change (be_bytes 2 (ExtensionType.val typ)) with (get_encoding typ).
    rewrite <-!(assoc_L (++)), read_encode by done.
    rewrite u16_read_app by (unfold is_u16; lia). rewrite Nat2Z.id, sub_app.
    unfold Reader.within. pose proof (proj2 (read_body_Ok typ body s s' c c' typ) (conj eq_refl Ht)) as E.
    unfold mbind, reader_bind in E. by rewrite E.
Qed.

Fixpoint takes_all (l : list (ExtensionType.t * list u8)) s (c : C) s' (c' : C) : Prop :=
  match l with
  | [] => s' = s ∧ c' = c
  | e :: l => ∃ s1 c1 c2, takes e s c s1 c1 ∧
      check e.1 (concat (tlv <$> l)) c1 = Ok c2 ∧ takes_all l s1 c2 s' c'
  end.

(** The reading loop is exactly the left-to-right taking of the extensions the
    bytes are made of. *)
Lemma read_while_Ok fuel sub s c s' c' :
  length sub ≤ fuel →
  read_while fuel unknown check s c sub = Ok (s', c') ↔
    ∃ l, Forall tlv_ok l ∧ sub = concat (tlv <$> l) ∧ takes_all l s c s' c'.
Proof.
  revert fuel s c. induction sub as [sub IH] using (induction_ltof1 _ length); intros fuel s c Hf.
  destruct fuel as [|fuel]; simpl; destruct (Reader.any_left sub) eqn:E.
  { apply any_left_spec in E. destruct sub; simpl in *; [done|lia]. }
  1,3: apply not_true_iff_false in E; rewrite any_left_spec in E;
    apply dec_stable in E as ->; split;
    [intros [= <- <-]; by exists []|].
  1,2: intros (l & _ & ->%eq_sym%tlvs_nil & [-> ->]); done.
  rewrite result_bind_ok. split.
  - intros ([[[s1 c1] typ] rest] & (body & Hok & -> & Ht)%read_one_Ok & H).
    apply result_bind_ok in H as (c2 & Hc & H).
    rewrite length_app, length_tlv in Hf.
    apply IH in H as (l & Hl & -> & Hall); [|unfold ltof; rewrite length_app, length_tlv; lia|simpl in *; lia].
    exists ((typ, body) :: l). split_and!; [by constructor|done|]. by exists s1, c1, c2.
  - intros ([|[typ body] l] & Hl & -> & Hall); [done|].
    destruct Hall as (s1 & c1 & c2 & Ht & Hc & Hall). apply Forall_cons in Hl as [Hok Hl].
    exists (s1, c1, typ, concat (tlv <$> l)). split; [apply read_one_Ok; by exists body|].
    apply result_bind_ok. exists c2. split; [done|].
    cbn [fmap list_fmap concat] in *. rewrite length_app, length_tlv in Hf.
    apply IH; [unfold ltof; rewrite length_app, length_tlv; lia|simpl in *; lia|].
    by exists l.
Qed.

Lemma total_read_one s c : (∀ typ c, unknown typ c ≠ Panic) → total (read_one unknown s c).
Proof.
  intros Hu. unfold read_one. apply total_bind; [auto with total|intros typ].
  apply total_bind; [auto with total|intros len]. apply total_bind; [auto with total|intros body].
  apply total_within, total_all, total_bind.
  - unfold read_extension_body. destruct (arm typ) as [f|] eqn:Ha; [|auto with total].
    apply total_bind; [|auto with total]. unfold read_once.
    destruct (f_get f s); [auto with total|]. apply total_bind; [|auto with total].
    apply arm_Some in Ha as [Hf _]. pose proof fields_total as Ht.
    rewrite Forall_forall in Ht. by apply Ht.
  - intros [s' handled]. destruct handled; [auto with total|].
    apply total_bind; [|auto with total]. intros bs. unfold reader_lift.
    specialize (Hu typ c). by destruct (unknown typ c).
Qed.

(** The loop ends within as many turns as there are bytes, without panicking. *)
Lemma read_while_total fuel sub s c :
  (∀ typ c, unknown typ c ≠ Panic) → (∀ typ bs c, check typ bs c ≠ Panic) →
  length sub ≤ fuel → read_while fuel unknown check s c sub ≠ Panic.
Proof.
  intros Hu Hc. revert sub s c. induction fuel as [|fuel IH]; intros sub s c Hf; simpl;
    destruct (Reader.any_left sub) eqn:E; try done.
  { apply any_left_spec in E. destruct sub; simpl in *; [done|lia]. }
  pose proof (total_read_one s c Hu sub) as Hp.
  destruct (read_one unknown s c sub) as [[[[s1 c1] typ] rest]| |] eqn:Hr; simpl; [|done..].
  apply read_one_Ok in Hr as (body & _ & -> & _). rewrite length_app, length_tlv in Hf.
  specialize (Hc typ rest c1). destruct (check typ rest c1); simpl; [|done..].
  apply IH. simpl in *. lia.
Qed.

Lemma total_read_block c :
  (∀ typ c, unknown typ c ≠ Panic) → (∀ typ bs c, check typ bs c ≠ Panic) →
  total (read_block (S:=S) unknown check c).
Proof.
  intros Hu Hc. unfold read_block. apply total_bind; [auto with total|intros len].
  apply total_bind; [auto with total|]. intros sub bs. unfold reader_lift.
  pose proof (read_while_total (length sub) sub es_default c Hu Hc ltac:(lia)) as H.
  by destruct (read_while _ _ _ _ _ _).
Qed.

Lemma shrinks_read_block c : shrinks 1 (read_block (S:=S) unknown check c).
Proof.
  unfold read_block. apply shrinks_bind; [auto with shrinks|intros len].
  apply shrinks_bind; [auto with shrinks|]. auto with shrinks.
Qed.

(** *** What a structure holds after reading *)

Lemma takes_get e s c s' c' f :
  takes e s c s' c' → f ∈ fields →
  if decide (f_id f = e.1) then
    f_get f s = None ∧ ∃ v, read e.2 = Ok (v, []) ∧ f_get f s' = Some v
  else f_get f s' = f_get f s.
Proof.
  unfold takes. intros Ht Hf. case_decide as Hid.
  - rewrite <-Hid, arm_id in Ht by done. destruct Ht as (Hn & (v & Hv & ->) & _).
    split; [done|]. exists v. by rewrite get_set.
  - destruct (arm e.1) as [g|] eqn:Ha; [|by destruct Ht as [-> _]].
    apply arm_Some in Ha as [Hg Hga]. destruct Ht as (_ & (v & _ & ->) & _).
    apply get_set_ne; congruence.
Qed.

Lemma takes_meta e s c s' c' : takes e s c s' c' → es_meta s' = es_meta s.
Proof.
  unfold takes. destruct (arm e.1) as [g|] eqn:Ha.
  - apply arm_Some in Ha as [Hg _]. intros (_ & (v & _ & ->) & _). by apply meta_set.
  - by intros [-> _].
Qed.

Lemma takes_all_meta l s c s' c' : takes_all l s c s' c' → es_meta s' = es_meta s.
Proof.
  revert s c. induction l as [|e l IH]; intros s c; simpl; [by intros [-> _]|].
  intros (s1 & c1 & c2 & Ht%takes_meta & _ & Hall%IH). congruence.
Qed.

(** Each slot is what the one extension of its type says, and empty without. *)
Lemma takes_all_get l s c s' c' f :
  takes_all l s c s' c' → f ∈ fields →
  (f_id f ∉ l.*1 ∧ f_get f s' = f_get f s) ∨
  (f_get f s = None ∧ ∃ body v, (f_id f, body) ∈ l ∧ read body = Ok (v, []) ∧ f_get f s' = Some v).
Proof.
  revert s c. induction l as [|[typ body] l IH]; intros s c; simpl.
  { intros [-> _] _. left. split; [by apply not_elem_of_nil|done]. }
  intros (s1 & c1 & c2 & Ht & _ & Hall) Hf. pose proof (takes_get _ _ _ _ _ f Ht Hf) as Hg.
  cbn [fst snd] in Hg. specialize (IH _ _ Hall Hf). case_decide as Hid.
  - destruct Hg as (Hn & v & Hv & Hg). right. split; [done|]. exists body, v. subst typ.
    destruct IH as [[_ ->]|[? _]]; [|congruence]. split_and!; [left|done..].
  - destruct IH as [[Hni Hs]|(Hn & b & v & Hin & Hr)]; [left|right].
    + split; [|congruence]. rewrite not_elem_of_cons. done.
    + split; [congruence|]. exists b, v. split; [by right|done].
Qed.

(** A type the structure knows appears at most once. *)
Lemma takes_all_nodup l s c s' c' :
  takes_all l s c s' c' → NoDup (filter (λ t, is_Some (arm (S:=S) t)) l.*1).
Proof.
  revert s c. induction l as [|[typ body] l IH]; intros s c; simpl; [constructor|].
  intros (s1 & c1 & c2 & Ht & _ & Hall). rewrite filter_cons. case_decide as Hk; [|by eapply IH].
  constructor; [|by eapply IH]. destruct Hk as [f Ha]. apply arm_Some in Ha as [Hf <-].
  pose proof (takes_get _ _ _ _ _ f Ht Hf) as Hg. cbn [fst] in Hg.
  rewrite decide_True in Hg by done. destruct Hg as (_ & v & _ & Hg).
  rewrite list_elem_of_filter. intros [_ Hin].
  destruct (takes_all_get _ _ _ _ _ f Hall Hf) as [[? _]|[? _]]; [done|congruence].
Qed.

(** *** Encoding *)

Definition body_of s typ : option (list u8) :=
  f ← arm (S:=S) typ; v ← f_get f s; Some (get_encoding v).

(** The extensions of [s] named by [exts] that are present, in that order. *)
Definition ext_items s (exts : list ExtensionType.t) : list (ExtensionType.t * list u8) :=
  omap (λ t, (t,.) <$> body_of s t) exts.

(** The structures that have an encoding. *)
Definition es_valid s : Prop :=
  Forall (λ f, match f_get f s with
               | Some v => f_valid f v ∧ (Z.of_nat (length (get_encoding v)) < 2 ^ 16)%Z
               | None => True
               end) fields.

Lemma field_body f : f ∈ fields → BodyLaws (f_ty f) (f_valid f).
Proof. pose proof fields_body as H. rewrite Forall_forall in H. apply H. Qed.

Lemma encode_one_spec typ s out :
  encode_one typ s out = out ++ from_option (λ body, tlv (typ, body)) [] (body_of s typ).
Proof.
  unfold encode_one, body_of. destruct (arm typ) as [f|] eqn:Ha; cbn -[encode]; [|by rewrite app_nil_r].
  destruct (f_get f s) as [v|]; cbn -[encode]; [|by rewrite app_nil_r].
  apply arm_Some in Ha as [Hf _]. destruct (field_body f Hf) as [Happ _].
  rewrite (nest_spec _ _ _ (get_encoding v)) by (intros; apply Happ).
  rewrite (encode_app typ out). unfold tlv. by rewrite <-(assoc_L (++)).
Qed.

Lemma encode_exts_spec exts s buf :
  fold_left (λ buf ext, encode_one ext s buf) exts buf = buf ++ concat (tlv <$> ext_items s exts).
Proof.
  revert buf. induction exts as [|t exts IH]; intros buf; simpl; [by rewrite app_nil_r|].
  rewrite IH, encode_one_spec. destruct (body_of s t); simpl; [by rewrite <-(assoc_L (++))|].
  by rewrite app_nil_r.
Qed.

Lemma encode_block_spec exts s bytes :
  encode_block exts s bytes =
    bytes ++ be_bytes 2 (Z.of_nat (length (concat (tlv <$> ext_items s exts))))
          ++ concat (tlv <$> ext_items s exts).
Proof. apply nest_spec. intros b. apply encode_exts_spec. Qed.

(** The checks between the extensions all pass. *)
Fixpoint checks (l : list (ExtensionType.t * list u8)) (c c' : C) : Prop :=
  match l with
  | [] => c' = c
  | e :: l => ∃ c1, check e.1 (concat (tlv <$> l)) c = Ok c1 ∧ checks l c1 c'
  end.

Lemma ext_items_types s exts : (ext_items s exts).*1 = filter (λ t, is_Some (body_of s t)) exts.
Proof.
  induction exts as [|t exts IH]; [done|]. rewrite filter_cons.
  unfold ext_items in *. cbn [omap list_omap]. case_decide as Hd.
  - destruct Hd as [b Hb]. rewrite Hb. cbn. f_equal. apply IH.
  - destruct (body_of s t); [by destruct Hd|done].
Qed.

Lemma ext_items_ok s exts : es_valid s → Forall tlv_ok (ext_items s exts).
Proof.
  intros Hv. induction exts as [|t exts IH]; [by constructor|]. simpl. unfold body_of at 1.
  destruct (arm t) as [f|] eqn:Ha; simpl; [|done].
  destruct (f_get f s) as [v|] eqn:Hg; simpl; [|done]. constructor; [|done].
  apply arm_Some in Ha as [Hf <-]. unfold es_valid in Hv. rewrite Forall_forall in Hv.
  specialize (Hv f Hf). rewrite Hg in Hv. pose proof (fields_u16 (S:=S)) as Hu.
  rewrite Forall_forall in Hu. split; [by apply Hu|apply Hv].
Qed.

Lemma takes_item typ f v s s0 c :
  es_valid s → arm typ = Some f → f_get f s = Some v → f_get f s0 = None →
  takes (typ, get_encoding v) s0 c (f_set f (Some v) s0) c.
Proof.
  intros Hv Ha Hg Hn. unfold takes. cbn [fst snd]. rewrite Ha.
  split_and!; [done| |done]. exists v. split; [|done].
  apply arm_Some in Ha as [Hf _]. destruct (field_body f Hf) as [_ Hr].
  apply Hr. unfold es_valid in Hv. rewrite Forall_forall in Hv.
  specialize (Hv f Hf). rewrite Hg in Hv. apply Hv.
Qed.

Lemma takes_items exts s s0 c c' :
  es_valid s → NoDup exts → checks (ext_items s exts) c c' →
  (∀ f, f ∈ fields → f_id f ∈ exts → f_get f s0 = None) →
  ∃ s', takes_all (ext_items s exts) s0 c s' c' ∧
    ∀ f, f ∈ fields →
      f_get f s' = if decide (f_id f ∈ exts) then f_get f s else f_get f s0.
Proof.
  intros Hv Hnd. revert s0 c. induction Hnd as [|typ exts Hni Hnd IH]; intros s0 c Hc Hn.
  { exists s0. split; [by split|]. intros f _. by rewrite decide_False by apply not_elem_of_nil. }
  unfold ext_items in *. cbn [omap list_omap] in *.
  destruct (body_of s typ) as [body|] eqn:Hb; cbn [fmap option_fmap option_map] in *.
  - unfold body_of in Hb. destruct (arm typ) as [g|] eqn:Ha; [|done]. simpl in Hb.
    destruct (f_get g s) as [v|] eqn:Hg; [|done]. simpl in Hb. injection Hb as <-.
    destruct Hc as (c1 & Hc1 & Hc). pose proof (arm_Some _ _ Ha) as [Hgf Hgt].
    destruct (IH (f_set g (Some v) s0) c1) as (s' & Hall & Hs'); [done| |].
    { intros f Hf Hin. rewrite get_set_ne by (done || congruence). apply Hn; [done|by right]. }
    exists s'. split.
    + exists (f_set g (Some v) s0), c, c1. split_and!; [|done..].
      apply (takes_item _ _ _ s); [done..|]. apply Hn; [done|]. rewrite Hgt. by left.
    + intros f Hf. rewrite Hs' by done. destruct (decide (f_id f = typ)) as [Heq|Hne].
      * assert (f = g) as -> by (apply arm_id in Hf; rewrite Heq, Ha in Hf; by injection Hf).
        rewrite decide_False by (by rewrite Heq). rewrite get_set, Hg by done.
        by rewrite decide_True by (rewrite Heq; by left).
      * rewrite get_set_ne by (done || congruence).
        destruct (decide (f_id f ∈ exts)); [by rewrite decide_True by (by right)|].
        by rewrite decide_False by (by apply not_elem_of_cons).
  - destruct (IH s0 c) as (s' & Hall & Hs'); [done| |].
    { intros f Hf Hin. apply Hn; [done|by right]. }
    exists s'. split; [done|]. intros f Hf. rewrite Hs' by done.
    destruct (decide (f_id f = typ)) as [Heq|Hne].
    + rewrite decide_False by (by rewrite Heq). rewrite decide_True by (rewrite Heq; by left).
      unfold body_of in Hb. rewrite <-Heq, arm_id in Hb by done. simpl in Hb.
      destruct (f_get f s); [done|]. apply Hn; [done|]. rewrite Heq. by left.
    + destruct (decide (f_id f ∈ exts)); [by rewrite decide_True by (by right)|].
      by rewrite decide_False by (by apply not_elem_of_cons).
Qed.

(** Every slot in use is named by [exts]. *)
Definition names_used (exts : list ExtensionType.t) s : Prop :=
  Forall (λ f, is_Some (f_get f s) → f_id f ∈ exts) fields.

Lemma collect_used_names s : names_used (collect_used s) s ∧ NoDup (collect_used s).
Proof.
  unfold names_used, collect_used. split.
  - rewrite Forall_forall. intros f Hf Hs. apply list_elem_of_fmap. exists f.
    by rewrite list_elem_of_filter.
  - eapply sublist_NoDup; [apply fields_nodup|]. apply fmap_sublist, sublist_filter.
Qed.

Lemma all_extensions_names s : names_used ALL_EXTENSIONS s.
Proof.
  unfold names_used, ALL_EXTENSIONS. rewrite Forall_forall. intros f Hf _.
  apply list_elem_of_fmap. eauto.
Qed.

(** The notions above depend on the slots only. *)
Definition same_slots (s1 s2 : S) : Prop := Forall (λ f, f_get f s1 = f_get f s2) fields.

Lemma same_slots_get s1 s2 f : same_slots s1 s2 → f ∈ fields → f_get f s1 = f_get f s2.
Proof. unfold same_slots. rewrite Forall_forall. auto. Qed.

Lemma ext_items_on s1 s2 exts :
  (∀ f, f ∈ fields → f_id f ∈ exts → f_get f s1 = f_get f s2) →
  ext_items s1 exts = ext_items s2 exts.
Proof.
  intros H. unfold ext_items. apply list_omap_ext, Forall2_same_length_lookup.
  split; [done|]. intros i t t' Ht Ht'. assert (t = t') as <- by congruence. f_equal.
  unfold body_of. destruct (arm t) as [f|] eqn:Ha; [|done]. simpl.
  apply arm_Some in Ha as [Hf <-]. rewrite (H f Hf); [done|]. by eapply list_elem_of_lookup_2.
Qed.

Lemma ext_items_ext s1 s2 exts : same_slots s1 s2 → ext_items s1 exts = ext_items s2 exts.
Proof. intros H. apply ext_items_on. intros f Hf _. by apply same_slots_get. Qed.

Lemma es_valid_ext s1 s2 : same_slots s1 s2 → es_valid s1 → es_valid s2.
Proof.
  intros H. unfold es_valid. rewrite !Forall_forall. intros Hv f Hf.
  rewrite <-(same_slots_get _ _ _ H Hf). by apply Hv.
Qed.

Lemma names_used_ext exts s1 s2 : same_slots s1 s2 → names_used exts s1 → names_used exts s2.
Proof.
  intros H. unfold names_used. rewrite !Forall_forall. intros Hu f Hf.
  rewrite <-(same_slots_get _ _ _ H Hf). by apply Hu.
Qed.

Lemma collect_used_some s1 s2 :
  Forall (λ f, is_Some (f_get f s1) ↔ is_Some (f_get f s2)) fields →
  collect_used s1 = collect_used s2.
Proof.
  unfold collect_used. intros H. f_equal.
  induction H as [|f l Hf _ IH]; [done|]. rewrite !filter_cons, IH.
  destruct (decide (is_Some (f_get f s1))), (decide (is_Some (f_get f s2))); tauto.
Qed.

Lemma collect_used_ext s1 s2 : same_slots s1 s2 → collect_used s1 = collect_used s2.
Proof. intros H. apply collect_used_some. eapply Forall_impl; [exact H|]. by intros f ->. Qed.

(** An encoded block is read back, whatever the order of the extensions. *)
Lemma read_block_encode exts s s' c c' rest :
  es_valid s → NoDup exts → names_used exts s →
  (Z.of_nat (length (concat (tlv <$> ext_items s exts))) < 2 ^ 16)%Z →
  checks (ext_items s exts) c c' →
  Forall (λ f, f_get f s' = f_get f s) fields → es_meta s' = es_meta (es_default (S:=S)) →
  read_block unknown check c (encode_block exts s [] ++ rest) = Ok (s', c', rest).
Proof.
  intros Hv Hnd Hu Hl Hc Hs' Hm. rewrite encode_block_spec, app_nil_l.
  unfold read_block, mbind, reader_bind. rewrite <-(assoc_L (++)), u16_read_app by (unfold is_u16; lia).
  rewrite Nat2Z.id, sub_app. pose proof (get_default (S:=S)) as Hd. rewrite Forall_forall in Hd.
  destruct (takes_items exts s es_default c c') as (s1 & Hall & Hs1); [done..| |].
  { intros f Hf _. by apply Hd. }
  assert (s1 = s') as ->.
  { eapply (struct_ext (es_meta:=es_meta)); [|by rewrite (takes_all_meta _ _ _ _ _ Hall)].
    unfold names_used in Hu. rewrite Forall_forall in *. intros f Hf. rewrite Hs1, Hs' by done.
    case_decide as Hin; [done|]. rewrite Hd by done. specialize (Hu f Hf).
    destruct (f_get f s); [|done]. destruct Hin. by apply Hu. }
  unfold reader_lift. replace (read_while _ _ _ _ _ _) with (Ok (E:=InvalidMessage.t) (s', c')); [done|].
  symmetry. apply read_while_Ok; [lia|]. eexists. split_and!; [by apply ext_items_ok|done|done].
Qed.

Definition block_fits (exts : list ExtensionType.t) s : Prop :=
  (Z.of_nat (length (concat (tlv <$> ext_items s exts))) < 2 ^ 16)%Z.

Lemma bind_read_block {B} exts s s' c c' rest (k : S * C → reader B) :
  es_valid s → NoDup exts → names_used exts s → block_fits exts s →
  checks (ext_items s exts) c c' →
  Forall (λ f, f_get f s' = f_get f s) fields → es_meta s' = es_meta (es_default (S:=S)) →
  (read_block unknown check c ≫= k) (encode_block exts s [] ++ rest) = k (s', c') rest.
Proof.
  intros. unfold mbind at 1, reader_bind at 1. by rewrite (read_block_encode exts s s' c c').
Qed.

(** A block that is read is a list of extensions, each slot holding the value of
    the one extension of its type. *)
Lemma read_block_inv bs s c c' rest :
  read_block unknown check c bs = Ok (s, c', rest) →
  ∃ l, Forall tlv_ok l ∧ takes_all l es_default c s c' ∧
    bs = be_bytes 2 (Z.of_nat (length (concat (tlv <$> l)))) ++ concat (tlv <$> l) ++ rest ∧
    (Z.of_nat (length (concat (tlv <$> l))) < 2 ^ 16)%Z.
Proof.
  unfold read_block. intros H. reader_inv. unfold reader_lift in H.
  apply result_fmap_ok in H as ([s1 c1] & H & [= <- <- <-]).
  apply read_while_Ok in H as (l & Hl & -> & Hall); [|lia].
  exists l. split_and!; [done..| |]; unfold is_u16 in *; [|lia].
  match goal with H : length _ = Z.to_nat _ |- _ => rewrite H end. by rewrite Z2Nat.id by lia.
Qed.

Lemma slots_exact l c c' s f v :
  takes_all l es_default c s c' → f ∈ fields →
  f_get f s = Some v ↔ ∃ body, (f_id f, body) ∈ l ∧ read body = Ok (v, []).
Proof.
  intros Hall Hf. pose proof (get_default (S:=S)) as Hd. rewrite Forall_forall in Hd.
  pose proof (takes_all_nodup _ _ _ _ _ Hall) as Hnd.
  destruct (takes_all_get _ _ _ _ _ f Hall Hf) as [[Hni Hg]|(_ & b & w & Hin & Hr & Hg)].
  - rewrite Hg, Hd by done. split; [done|]. intros (body & Hin & _). destruct Hni.
    apply list_elem_of_fmap. by exists (f_id f, body).
  - rewrite Hg. split; [intros [= <-]; eauto|]. intros (body & Hin' & Hr').
    assert (body = b) as ->; [|congruence]. clear -Hnd Hin Hin' Hf ExtensionLaws0.
    assert (is_Some (arm (f_id f))) as Hk by (rewrite arm_id by done; eauto).
    induction l as [|[t0 b0] l IH]; [by apply not_elem_of_nil in Hin|].
    cbn [fmap list_fmap fst] in Hnd. rewrite filter_cons in Hnd.
    assert (∀ b, (f_id f, b) ∈ l → f_id f ∈ filter (λ t, is_Some (arm (S:=S) t)) l.*1) as Hl.
    { intros b1 H1. apply list_elem_of_filter. split; [done|].
      apply list_elem_of_fmap. by exists (f_id f, b1). }
    apply elem_of_cons in Hin as [?|Hin]; apply elem_of_cons in Hin' as [?|Hin'];
      simplify_eq; [done|..].
    + rewrite decide_True in Hnd by done. apply NoDup_cons in Hnd as [[] _]. eauto.
    + rewrite decide_True in Hnd by done. apply NoDup_cons in Hnd as [[] _]. eauto.
    + case_decide; [apply NoDup_cons in Hnd as [_ Hnd]|]; by apply IH.
Qed.
End extension_laws.

(** ** Blocks of all the extensions, without checks *)

Section plain_blocks.
Context {S : Type} `{!ExtensionStruct S} {M} (es_meta : S → M) `{!ExtensionLaws S es_meta}.

(** The structures whose block of all extensions can be encoded. *)
Definition plain_valid (s : S) : Prop :=
  es_valid s ∧ block_fits ALL_EXTENSIONS s ∧ es_meta s = es_meta (es_default (S:=S)).

Lemma checks_none {C} l (c : C) : checks no_check l c c.
Proof. induction l as [|e l IH]; [done|]. by exists c. Qed.

Lemma encode_block_app exts (s : S) bytes :
  encode_block exts s bytes = bytes ++ encode_block exts s [].
Proof using All. by rewrite !(encode_block_spec es_meta). Qed.

Lemma bind_read_plain {B C} (unknown : ExtensionType.t → C → result InvalidMessage.t C)
    (s : S) (c : C) rest (k : S * C → reader B) :
  plain_valid s →
  (read_block unknown no_check c ≫= k) (encode_block ALL_EXTENSIONS s [] ++ rest) = k (s, c) rest.
Proof using All.
  intros (Hv & Hf & Hm). apply (bind_read_block es_meta); try done.
  - apply fields_nodup.
  - apply all_extensions_names.
  - apply checks_none.
  - by apply Forall_forall.
Qed.
End plain_blocks.

(** ** Re-encoding what was read *)

Class BodyCanonical (T : Type) `{Codec T} (valid : T → Prop) : Prop :=
  body_inv bs v : read bs = Ok (v, []) → valid v ∧ bs = get_encoding v.

#[global] Instance canonical_body `{CanonicalCodec T valid} : BodyCanonical T valid.
Proof. intros bs v [Hv ->]%read_inv. by rewrite app_nil_r. Qed.

#[global] Instance Payload_canonical : BodyCanonical Payload (λ _, True).
Proof. intros bs v. cbn [read Payload_codec]. by intros [= ->]. Qed.

Section reencode.
Context {S : Type} `{!ExtensionStruct S} {M} (es_meta : S → M) `{!ExtensionLaws S es_meta}.
Context {C : Type} (unknown : ExtensionType.t → C → result InvalidMessage.t C)
  (check : ExtensionType.t → list u8 → C → result InvalidMessage.t C).
Hypothesis (fields_canonical : Forall (λ f, BodyCanonical (f_ty f) (f_valid f)) (fields (S:=S))).

Lemma takes_all_body l (s : S) c s' c' t b f :
  takes_all unknown check l s c s' c' → (t, b) ∈ l → arm (S:=S) t = Some f →
  ∃ v, read (T:=f_ty f) b = Ok (v, []).
Proof.
  revert s c. induction l as [|e l IH]; intros s c; [by intros _ ?%not_elem_of_nil|].
  intros (s1 & c1 & c2 & Ht & _ & Hall) [<-|Hin]%elem_of_cons Ha; [|by eapply IH].
  unfold takes in Ht. cbn [fst snd] in Ht. rewrite Ha in Ht.
  destruct Ht as (_ & (v & Hv & _) & _). eauto.
Qed.

(** The extensions of the structure, in the order they were read, are the ones
    that were read. *)
Lemma ext_items_reencode l c s c' :
  takes_all unknown check l es_default c s c' → Forall (λ e, is_Some (arm (S:=S) e.1)) l →
  ext_items s l.*1 = l.
Proof using All.
  intros Hall Hk. assert (∀ t b, (t, b) ∈ l → body_of s t = Some b) as Hb.
  { intros t b Hin. pose proof (proj1 (Forall_forall _ _) fields_canonical) as Hfc.
    rewrite Forall_forall in Hk. destruct (Hk _ Hin) as [f Ha]. cbn [fst] in Ha.
    destruct (takes_all_body _ _ _ _ _ _ _ _ Hall Hin Ha) as [v Hv].
    pose proof (arm_Some _ _ Ha) as [Hf <-].
    assert (f_get f s = Some v) as Hg by (eapply slots_exact; eauto).
    unfold body_of. rewrite Ha. simpl. rewrite Hg. simpl.
    by destruct (Hfc f Hf _ _ Hv) as [_ <-]. }
  clear Hall Hk. induction l as [|[t b] l IH]; [done|].
  unfold ext_items in *. cbn [fmap list_fmap fst omap list_omap].
  rewrite (Hb t b) by (by left). cbn. f_equal. apply IH. intros. apply Hb. by right.
Qed.

Lemma es_valid_read l c s c' :
  takes_all unknown check l es_default c s c' → Forall tlv_ok l → es_valid s.
Proof using All.
  intros Hall Hok. pose proof (proj1 (Forall_forall _ _) fields_canonical) as Hfc.
  rewrite Forall_forall in Hok. unfold es_valid. apply Forall_forall. intros f Hf.
  destruct (f_get f s) as [v|] eqn:Hg; [|done].
  apply (slots_exact es_meta unknown check l c c') in Hg as (b & Hin & Hr); [|done..].
  destruct (Hfc f Hf _ _ Hr) as [Hv <-]. split; [done|].
  apply Hok in Hin. apply Hin.
Qed.

Lemma known_nodup l (s : S) c s' c' :
  takes_all unknown check l s c s' c' → Forall (λ e, is_Some (arm (S:=S) e.1)) l → NoDup l.*1.
Proof using ExtensionLaws0.
  intros Hall%(takes_all_nodup es_meta) Hk.
  replace l.*1 with (filter (λ t, is_Some (arm (S:=S) t)) l.*1); [done|].
  clear Hall. induction Hk as [|e l Hk _ IH]; [done|]. cbn [fmap list_fmap].
  rewrite filter_cons, decide_True by done. f_equal. apply IH.
Qed.

Lemma read_names_used l c (s : S) c' :
  takes_all unknown check l es_default c s c' → names_used l.*1 s.
Proof using ExtensionLaws0.
  intros Hall. unfold names_used. apply Forall_forall. intros f Hf [v Hg].
  apply (slots_exact es_meta unknown check l c c') in Hg as (b & Hin & _); [|done..].
  apply list_elem_of_fmap. by exists (f_id f, b).
Qed.
End reencode.

(** ** Blocks read with the duplicate checker *)

Lemma NoDup_filter_split {A} (P : A → Prop) `{!∀ x, Decision (P x)} (l : list A) :
  NoDup (filter P l) → NoDup (filter (λ x, ¬ P x) l) → NoDup l.
Proof.
  induction l as [|x l IH]; [constructor|]. rewrite !filter_cons.
  destruct (decide (P x)) as [Hx|Hx].
  - rewrite (decide_False (P:=¬ P x)) by tauto. intros [Hni H1]%NoDup_cons H2.
    constructor; [|by apply IH]. intros Hin. apply Hni, list_elem_of_filter. done.
  - rewrite decide_True by done. intros H1 [Hni H2]%NoDup_cons.
    constructor; [|by apply IH]. intros Hin. apply Hni, list_elem_of_filter. done.
Qed.

Lemma checker_check_Ok typ c c' :
  InlineSet.wf c → DuplicateExtensionChecker.check typ c = Ok c' →
  InlineSet.wf c' ∧ ExtensionType.val typ ∉ InlineSet.into_btreeset c ∧
  InlineSet.into_btreeset c' = {[ExtensionType.val typ]} ∪ InlineSet.into_btreeset c.
Proof.
  intros Hwf. unfold DuplicateExtensionChecker.check.
  pose proof (InlineSet.insert_spec (ExtensionType.val typ) c Hwf) as H.
  destruct (InlineSet.insert _ c) as [c1 fresh]. destruct H as (Hwf' & Hs & Hf).
  destruct fresh; [|done]. intros [= <-]. split_and!; [done|by apply Hf|done].
Qed.

Lemma checker_check_total typ c : DuplicateExtensionChecker.check typ c ≠ Panic.
Proof. unfold DuplicateExtensionChecker.check. by destruct InlineSet.insert as [? []]. Qed.

Lemma check_unprocessed_total typ permitted c :
  DuplicateExtensionChecker.check_unprocessed typ permitted c ≠ Panic.
Proof.
  unfold DuplicateExtensionChecker.check_unprocessed. destruct (_ && _); [done|].
  apply checker_check_total.
Qed.

Section checked_blocks.
Context {S : Type} `{!ExtensionStruct S} {M} (es_meta : S → M) `{!ExtensionLaws S es_meta}.
Context (unknown : ExtensionType.t → DuplicateExtensionChecker.t →
                   result InvalidMessage.t DuplicateExtensionChecker.t)
  (check : ExtensionType.t → list u8 → DuplicateExtensionChecker.t →
           result InvalidMessage.t DuplicateExtensionChecker.t).
Hypothesis (unknown_checked : ∀ typ c c',
  unknown typ c = Ok c' → DuplicateExtensionChecker.check typ c = Ok c').
Hypothesis (check_keeps : ∀ typ bs c c', check typ bs c = Ok c' → c' = c).

Definition unknown_types (l : list (ExtensionType.t * list u8)) : list ExtensionType.t :=
  filter (λ t, ¬ is_Some (arm (S:=S) t)) l.*1.

Lemma takes_all_checker l s c s' c' :
  takes_all unknown check l s c s' c' → InlineSet.wf c →
  InlineSet.wf c' ∧ NoDup (unknown_types l) ∧
  (∀ t, t ∈ unknown_types l → ExtensionType.val t ∉ InlineSet.into_btreeset c) ∧
  InlineSet.into_btreeset c' =
    InlineSet.into_btreeset c ∪ list_to_set (ExtensionType.val <$> unknown_types l).
Proof using All.
  revert s c. induction l as [|[typ body] l IH]; intros s c; simpl.
  { intros [-> ->] Hwf. unfold unknown_types. simpl. split_and!; [done|constructor|set_solver..]. }
  intros (s1 & c1 & c2 & Ht & ->%check_keeps & Hall) Hwf. unfold takes in Ht. cbn [fst snd] in Ht.
  unfold unknown_types in *. cbn [fmap list_fmap fst]. rewrite filter_cons.
  destruct (arm typ) as [f|] eqn:Ha.
  - destruct Ht as (_ & _ & ->). rewrite decide_False by (intros []; eauto). eauto.
  - destruct Ht as [-> Hu%unknown_checked].
    apply checker_check_Ok in Hu as (Hwf1 & Hni & Hs1); [|done].
    destruct (IH _ _ Hall Hwf1) as (Hwf' & Hnd & Hdis & Hset). rewrite Hs1 in *.
    rewrite decide_True by (intros [? ?]; congruence).
    split_and!; [done| | |rewrite Hset; cbn [fmap list_fmap list_to_set]; clear; set_solver].
    + constructor; [|done]. intros Hin%Hdis. clear -Hin. set_solver.
    + intros t [->|Hin]%elem_of_cons; [done|]. apply Hdis in Hin.
      clear -Hin. set_solver.
Qed.

Lemma checked_nodup l s c s' c' :
  takes_all unknown check l s c s' c' → InlineSet.wf c → NoDup l.*1.
Proof using All.
  intros Hall Hwf. apply (NoDup_filter_split (λ t, is_Some (arm (S:=S) t))).
  - by eapply takes_all_nodup.
  - by apply (takes_all_checker _ _ _ _ _ Hall Hwf).
Qed.

(** The used slots and the recorded unknown types are the types received. *)
Lemma received_iff l s c' typ :
  takes_all unknown check l es_default DuplicateExtensionChecker.new s c' →
  typ ∈ collect_used s ++ (ExtensionType.new <$> elements (InlineSet.into_btreeset c')) ↔
    typ ∈ l.*1.
Proof using All.
  intros Hall. destruct InlineSet.default_wf as [Hwf Hempty].
  destruct (takes_all_checker _ _ _ _ _ Hall Hwf) as (_ & _ & _ & Hset).
  rewrite Hset. unfold DuplicateExtensionChecker.new. rewrite Hempty, (left_id_L ∅ (∪)).
  rewrite elem_of_app. unfold collect_used. rewrite !list_elem_of_fmap.
  destruct (arm (S:=S) typ) as [f|] eqn:Ha.
  - pose proof (arm_Some _ _ Ha) as [Hf <-]. split.
    + intros [(g & Hid & [[v Hg] Hin]%list_elem_of_filter)|(z & Hz & Hin)].
      * apply (slots_exact es_meta unknown check l DuplicateExtensionChecker.new c') in Hg as (b & Hb & _); [|done..].
        rewrite Hid. by exists (f_id g, b).
      * rewrite elem_of_elements, elem_of_list_to_set in Hin.
        apply list_elem_of_fmap in Hin as (t & -> & Hin).
        unfold unknown_types in Hin. apply list_elem_of_filter in Hin as [Hu _].
        destruct t as [v]. cbn in Hz. rewrite <-Hz, Ha in Hu. destruct Hu; eauto.
    + intros ([t b] & Ht & Hin). cbn [fst] in Ht. subst t. left. exists f. split; [done|].
      apply list_elem_of_filter. split; [|done].
      destruct (takes_all_body unknown check _ _ _ _ _ _ _ _ Hall Hin Ha) as [v Hv].
      exists v. apply (slots_exact es_meta unknown check l DuplicateExtensionChecker.new c'); [done..|]. eauto.
  - split.
    + intros [(g & -> & [_ Hin]%list_elem_of_filter)|(z & -> & Hin)].
      { by rewrite (arm_id es_meta) in Ha. }
      rewrite elem_of_elements, elem_of_list_to_set in Hin.
      apply list_elem_of_fmap in Hin as (t & -> & Hin).
      apply list_elem_of_filter in Hin as [_ Hin]. destruct t as [v].
      by apply list_elem_of_fmap in Hin.
    + intros ([t b] & -> & Hin). right. exists (ExtensionType.val t). split; [by destruct t|].
      rewrite elem_of_elements, elem_of_list_to_set. apply list_elem_of_fmap. exists t.
      split; [done|]. apply list_elem_of_filter. cbn [fst] in Ha. rewrite Ha. split; [by intros []|].
      apply list_elem_of_fmap. by exists (t, b).
Qed.
End checked_blocks.

Lemma no_check_keeps {C} typ bs (c c' : C) : no_check typ bs c = Ok c' → c' = c.
Proof. by intros [= <-]. Qed.

Lemma check_unprocessed_checked typ permitted c c' :
  DuplicateExtensionChecker.check_unprocessed typ permitted c = Ok c' →
  DuplicateExtensionChecker.check typ c = Ok c' ∧ (is_recognized typ = true → typ ∈ permitted).
Proof.
  unfold DuplicateExtensionChecker.check_unprocessed. destruct (is_recognized typ); cbn [andb].
  - case_bool_decide; cbn [negb]; [done|by intros [=]].
  - done.
Qed.

(** A recognized type that is accepted is a slot or one of [permitted]. *)
Lemma takes_all_permitted {S : Type} `{!ExtensionStruct S} permitted check l (s : S) c s' c' :
  takes_all (λ unknown checker,
    DuplicateExtensionChecker.check_unprocessed unknown permitted checker) check l s c s' c' →
  Forall (λ typ, is_recognized typ = true → typ ∈ ALL_EXTENSIONS (S:=S) ∨ typ ∈ permitted) l.*1.
Proof.
  revert s c. induction l as [|e l IH]; intros s c; [by constructor|].
  intros (s1 & c1 & c2 & Ht & _ & Hall). constructor; [|by eapply IH]. intros Hr.
  unfold takes in Ht. destruct (arm e.1) as [f|] eqn:Ha.
  - left. apply arm_Some in Ha as [Hf <-]. apply list_elem_of_fmap. eauto.
  - right. destruct Ht as [_ [_ Hp]%check_unprocessed_checked]. auto.
Qed.

(** Proves [ExtensionLaws] of a concrete structure. *)
Ltac solve_fields :=
  repeat (apply Forall_cons; split; [cbn; first [done | apply _]|]); apply Forall_nil; done.
Ltac each_field Hf :=
  repeat (apply elem_of_cons in Hf as [->|Hf]); [..|by apply not_elem_of_nil in Hf].
Ltac solve_extension_laws :=
  split;
  [ apply (bool_decide_unpack _); vm_compute; exact I
  | repeat (apply Forall_cons; split; [split; vm_compute; congruence|]); apply Forall_nil; done
  | solve_fields | solve_fields | solve_fields
  | intros f v s Hf; each_field Hf; done
  | intros f g v s Hf Hg Hne; each_field Hf; each_field Hg; (done || by destruct Hne)
  | intros f v s Hf; each_field Hf; done
  | intros s1 s2 Hslots Hmeta; destruct s1, s2; cbn in Hslots; rewrite !Forall_cons in Hslots;
    cbn in Hslots, Hmeta; destruct_and?; by subst ].
