(* ===== verification/Payloads.v ===== *)
(** * Handshake payload types ([rustls/src/msgs/handshake.rs])

    The structures that handshake messages and extensions are made of, with
    their codecs and the laws of the codecs: [_laws] (what is encoded is read
    back), [_total] (reading never panics) and, where it holds, [_canonical]
    (what is read is re-encoded to the same bytes).  Lifetimes and the
    [into_owned] conversions between them have no counterpart here. *)
From S2P Require Import Prelude Enums Errors Codec Extensions.

(** ** Sizes of lists *)

(* @src rustls/src/msgs/handshake.rs 182-184 ECPointFormat::SIZE_LEN *)
#[global] Instance ECPointFormat_list : TlsListElement ECPointFormat.t :=
  ListLength.NonZeroU8 (InvalidMessage.IllegalEmptyList "ECPointFormats").
(* @src rustls/src/msgs/handshake.rs 189-191 NamedGroup::SIZE_LEN *)
#[global] Instance NamedGroup_list : TlsListElement NamedGroup.t :=
  ListLength.NonZeroU16 (InvalidMessage.IllegalEmptyList "NamedGroups").
(* @src rustls/src/msgs/handshake.rs 196-198 SignatureScheme::SIZE_LEN *)
#[global] Instance SignatureScheme_list : TlsListElement SignatureScheme.t :=
  ListLength.NonZeroU16 InvalidMessage.NoSignatureSchemes.
(* @src rustls/src/msgs/handshake.rs 333-335 ProtocolVersion::SIZE_LEN *)
#[global] Instance ProtocolVersion_list : TlsListElement ProtocolVersion.t :=
  ListLength.NonZeroU8 (InvalidMessage.IllegalEmptyList "ProtocolVersions").
(* @src rustls/src/msgs/handshake.rs 342-344 CertificateType::SIZE_LEN *)
#[global] Instance CertificateType_list : TlsListElement CertificateType.t :=
  ListLength.NonZeroU8 (InvalidMessage.IllegalEmptyList "CertificateTypes").
(* @src rustls/src/msgs/handshake.rs 349-351 CertificateCompressionAlgorithm::SIZE_LEN *)
#[global] Instance CertificateCompressionAlgorithm_list :
    TlsListElement CertificateCompressionAlgorithm.t :=
  ListLength.NonZeroU8 (InvalidMessage.IllegalEmptyList "CertificateCompressionAlgorithms").
(* @src rustls/src/msgs/handshake.rs 395-397 CipherSuite::SIZE_LEN *)
#[global] Instance CipherSuite_list : TlsListElement CipherSuite.t :=
  ListLength.NonZeroU16 (InvalidMessage.IllegalEmptyList "CipherSuites").
(* @src rustls/src/msgs/handshake.rs 402-404 Compression::SIZE_LEN *)
#[global] Instance Compression_list : TlsListElement Compression.t :=
  ListLength.NonZeroU8 (InvalidMessage.IllegalEmptyList "Compressions").
(* @src rustls/src/msgs/handshake.rs 409-411 ExtensionType::SIZE_LEN *)
#[global] Instance ExtensionType_list : TlsListElement ExtensionType.t :=
  ListLength.NonZeroU8 (InvalidMessage.IllegalEmptyList "ExtensionTypes").
(* @src rustls/src/msgs/handshake.rs 1062-1064 ClientCertificateType::SIZE_LEN *)
#[global] Instance ClientCertificateType_list : TlsListElement ClientCertificateType.t :=
  ListLength.NonZeroU8 (InvalidMessage.IllegalEmptyList "ClientCertificateTypes").

(** ** Random *)

Module Random.
(* @src rustls/src/msgs/handshake.rs 32-33 Random *)
Record t := new { bytes : list u8 }.
#[global] Instance eq_dec : EqDecision t.
Proof. solve_decision. Defined.

(* @src rustls/src/msgs/handshake.rs 41-44 HELLO_RETRY_REQUEST_RANDOM *)
Definition HELLO_RETRY_REQUEST_RANDOM : t := new
  [xcf; x21; xad; x74; xe5; x9a; x61; x11; xbe; x1d; x8c; x02; x1e; x65; xb8; x91;
   xc2; xa2; x11; x16; x7a; xbb; x8c; x5e; x07; x9e; x09; xe2; xc8; xa8; x33; x9c].

(* @src rustls/src/msgs/handshake.rs 46-55 Codec_for_Random *)
#[global] Instance codec : Codec t := {
  encode self bytes := bytes ++ Random.bytes self;
  read := new <$> Reader.take_array 32 "Random";
}.

(** A [[u8; 32]]. *)
Definition valid (r : t) : Prop := length (bytes r) = 32.

#[global] Instance laws : CodecLaws t valid.
Proof.
  split; [done|]. intros [b] rest Hv. cbn [read codec]. unfold fmap, reader_fmap.
  by rewrite take_array_app.
Qed.

#[global] Instance canonical : CanonicalCodec t valid.
Proof. split. intros bs [b] rest H. cbn [read codec] in H. reader_inv. done. Qed.

#[global] Instance total : TotalRead t.
Proof. unfold TotalRead. cbn [read codec]. auto with total. Qed.
End Random.

(** ** SessionId *)

Module SessionId.
(* @src rustls/src/msgs/handshake.rs 72-76 SessionId *)
Record t := mk { data : list u8; len : nat }.

(* @src rustls/src/msgs/handshake.rs 85-90 SessionId::empty *)
Definition empty : t := mk (replicate 32 x00) 0.

(* @src rustls/src/msgs/handshake.rs 92-94 SessionId::is_empty *)
Definition is_empty (self : t) : bool := bool_decide (len self = 0).

(* @src rustls/src/msgs/handshake.rs 136-138 SessionId::as_ref *)
Definition as_ref (self : t) : list u8 := take (len self) (data self).

(* @src rustls/src/msgs/handshake.rs 97-118 Codec_for_SessionId *)
#[global] Instance codec : Codec t := {
  encode self bytes := bytes ++ [u8_of_Z (Z.of_nat (len self))] ++ as_ref self;
  read :=
    b ← (read : reader u8);
    let len := Z.to_nat (u8_to_Z b) in
    if decide (32 < len) then reader_fail (InvalidMessage.TrailingData "SessionID")
    else λ r, match Reader.take len r with
              | Some (bytes, rest) => Ok (mk (bytes ++ replicate (32 - len) x00) len, rest)
              | None => Err (InvalidMessage.MissingData "SessionID")
              end;
}.

(** The comparison looks at every byte before it answers. *)
(* @src rustls/src/msgs/handshake.rs 121-132 SessionId::eq *)
Definition eq (self other : t) : bool :=
  if decide (len self ≠ len other) then false
  else
    let diff := fold_left (λ diff i, u8_or diff (u8_xor (data self !!! i) (data other !!! i)))
                  (seq 0 (len self)) x00 in
    bool_decide (diff = x00).

(** The unused tail of the array is zero, as [read] and [empty] leave it. *)
Definition valid (s : t) : Prop :=
  len s ≤ 32 ∧ ∃ id, length id = len s ∧ data s = id ++ replicate (32 - len s) x00.

Definition wf (s : t) : Prop := length (data s) = 32 ∧ len s ≤ 32.

#[global] Instance laws : CodecLaws t valid.
Proof.
  apply (codec_laws_intro valid (λ s, [u8_of_Z (Z.of_nat (len s))] ++ as_ref s)); [done|].
  intros [d n] rest (Hn & id & Hid & Hd). cbn [len data as_ref] in *. unfold as_ref.
  cbn [len data]. subst d n. rewrite take_app_length. cbn [read codec].
  rewrite <-(assoc_L (++)), bind_u8_app, u8_to_of_Z, Z.mod_small, Nat2Z.id by lia.
  rewrite decide_False by lia. unfold Reader.take. by rewrite split_at_checked_app.
Qed.

#[global] Instance total : TotalRead t.
Proof.
  unfold TotalRead. cbn [read codec]. apply total_bind; [auto with total|]. intros b.
  apply total_decide; [auto with total|]. intros r. by destruct Reader.take as [[]|].
Qed.

Lemma read_valid bs s rest : read bs = Ok (s, rest) → valid s.
Proof.
  cbn [read codec]. intros H. reader_inv.
  destruct (Reader.take _ _) as [[b r]|] eqn:E in H; [|done]. simplify_eq.
  unfold Reader.take in E. apply split_at_checked_Some in E as [-> Hl].
  split; cbn [len data]; [lia|]. by exists b.
Qed.

#[global] Instance canonical : CanonicalCodec t valid.
Proof.
  split. intros bs s rest H. split; [by eapply read_valid|]. revert H. cbn [read codec].
  intros H. reader_inv. destruct (Reader.take _ _) as [[b r]|] eqn:E in H; [|done]. simplify_eq.
  unfold Reader.take in E. apply split_at_checked_Some in E as [-> Hl].
  unfold get_encoding. cbn [encode codec len]. pose proof (u8_to_Z_range x).
  rewrite Z2Nat.id, u8_of_to_Z by lia. unfold as_ref. cbn [len data].
  by rewrite take_app_length' by lia.
Qed.

Lemma fold_or_zero (g : nat → u8) l d :
  fold_left (λ d i, u8_or d (g i)) l d = x00 ↔ d = x00 ∧ Forall (λ i, g i = x00) l.
Proof.
  revert d. induction l as [|i l IH]; intros d; simpl.
  - rewrite Forall_nil. tauto.
  - rewrite IH, u8_or_zero, Forall_cons. tauto.
Qed.

Lemma eq_spec a b : wf a → wf b → eq a b = true ↔ as_ref a = as_ref b.
Proof.
  intros [Ha Hla] [Hb Hlb]. unfold eq, as_ref. case_decide as Hl.
  - split; [done|]. intros H%(f_equal length). rewrite !length_take in H. lia.
  - rewrite bool_decide_eq_true, fold_or_zero, Forall_forall, <-Hl. split.
    + intros [_ Hx]. apply list_eq_same_length with (n := len a); [rewrite length_take; lia..|].
      intros i x y Hi Hxa Hyb. rewrite lookup_take_lt in Hxa, Hyb by done.
      specialize (Hx i ltac:(apply elem_of_seq; lia)). rewrite u8_xor_zero in Hx.
      apply list_lookup_total_correct in Hxa, Hyb. congruence.
    + intros H. split; [done|]. intros i [_ Hi]%elem_of_seq. simpl in Hi. apply u8_xor_zero.
      apply (f_equal (.!! i)) in H. rewrite !lookup_take_lt in H by done.
      rewrite !list_lookup_total_alt. by rewrite H.
Qed.
End SessionId.

(** ** Small extension bodies *)

Module SupportedEcPointFormats.
(* @src rustls/src/msgs/handshake.rs 147-150 SupportedEcPointFormats *)
Record t := mk { uncompressed : bool }.

(* @src rustls/src/msgs/handshake.rs 175-177 SupportedEcPointFormats::default *)
Definition default : t := mk true.

(* @src rustls/src/msgs/handshake.rs 152-172 Codec_for_SupportedEcPointFormats *)
#[global] Instance codec : Codec t := {
  encode self bytes :=
    LengthPrefixedBuffer.nest (SIZE_LEN (T:=ECPointFormat.t))
      (λ buf, if uncompressed self then encode ECPointFormat.Uncompressed buf else buf) bytes;
  read :=
    pfs ← (read : reader (list ECPointFormat.t));
    mret (mk (bool_decide (ECPointFormat.Uncompressed ∈ pfs)));
}.

Definition valid (s : t) : Prop := uncompressed s = true.

#[global] Instance laws : CodecLaws t valid.
Proof.
  apply (codec_laws_intro valid
    (λ s, be_bytes 1 (if uncompressed s then 1 else 0) ++ if uncompressed s then [x00] else [])).
  - intros [[]] bytes; cbn [encode codec uncompressed].
    + by rewrite (nest_spec _ _ _ [x00]) by done.
    + by rewrite (nest_spec _ _ _ []) by (intros; by rewrite app_nil_r).
  - intros [u] rest Hu. unfold valid in Hu. cbn [uncompressed] in *. subst u. reflexivity.
Qed.

#[global] Instance total : TotalRead t.
Proof. unfold TotalRead. cbn [read codec]. auto with total. Qed.
End SupportedEcPointFormats.

Module ApplicationProtocol.
(* @src rustls/src/enums.rs 10-28 ApplicationProtocol *)
Inductive t :=
  | AcmeTls1 | DoT | DoQ | Ftp | Http09 | Http10 | Http11 | Http2 | Http3 | Imap | Mqtt
  | Pop3 | Postgresql | WebRtc
  | Other (data : list u8).
#[global] Instance eq_dec : EqDecision t.
Proof. solve_decision. Defined.

(* @src rustls/src/enums.rs 111-129 ApplicationProtocol::as_ref *)
Definition as_ref (self : t) : list u8 :=
  match self with
  | AcmeTls1 => byte_str "acme-tls/1"
  | DoT => byte_str "dot"
  | DoQ => byte_str "doq"
  | Ftp => byte_str "ftp"
  | Http09 => byte_str "http/0.9"
  | Http10 => byte_str "http/1.0"
  | Http11 => byte_str "http/1.1"
  | Http2 => byte_str "h2"
  | Http3 => byte_str "h3"
  | Imap => byte_str "imap"
  | Mqtt => byte_str "mqtt"
  | Pop3 => byte_str "pop3"
  | Postgresql => byte_str "postgresql"
  | WebRtc => byte_str "webrtc"
  | Other data => data
  end.

(* @src rustls/src/enums.rs 31-49 ApplicationProtocol::new *)
Definition new (data : list u8) : t :=
  if decide (data = byte_str "acme-tls/1") then AcmeTls1
  else if decide (data = byte_str "dot") then DoT
  else if decide (data = byte_str "doq") then DoQ
  else if decide (data = byte_str "ftp") then Ftp
  else if decide (data = byte_str "http/0.9") then Http09
  else if decide (data = byte_str "http/1.0") then Http10
  else if decide (data = byte_str "http/1.1") then Http11
  else if decide (data = byte_str "h2") then Http2
  else if decide (data = byte_str "h3") then Http3
  else if decide (data = byte_str "imap") then Imap
  else if decide (data = byte_str "mqtt") then Mqtt
  else if decide (data = byte_str "pop3") then Pop3
  else if decide (data = byte_str "postgresql") then Postgresql
  else if decide (data = byte_str "webrtc") then WebRtc
  else Other data.

(* @src rustls/src/enums.rs 72-83 Codec_for_ApplicationProtocol *)
#[global] Instance codec : Codec t := {
  encode self bytes :=
    encode (mkSizedPayload (L:=PayloadSize.U8) (C:=Cardinality.NonEmpty) (as_ref self)) bytes;
  read :=
    p ← (read : reader (SizedPayload PayloadSize.U8 Cardinality.NonEmpty));
    mret (new (sp_inner p));
}.

(* @src rustls/src/enums.rs 87-89 ApplicationProtocol::SIZE_LEN *)
#[global] Instance list_element : TlsListElement t :=
  ListLength.NonZeroU16 (InvalidMessage.IllegalEmptyList "ProtocolNames").

(** A name that fits, given by its constructor if it has one. *)
Definition valid (p : t) : Prop :=
  1 ≤ length (as_ref p) ∧ (Z.of_nat (length (as_ref p)) <= 255)%Z ∧ new (as_ref p) = p.

Lemma as_ref_new data : as_ref (new data) = data.
Proof. unfold new. repeat case_decide; by subst. Qed.

Lemma new_as_ref data : new (as_ref (new data)) = new data.
Proof. by rewrite as_ref_new. Qed.

#[global] Instance laws : CodecLaws t valid.
Proof.
  split; [intros; apply (encode_app (T:=SizedPayload PayloadSize.U8 Cardinality.NonEmpty))|]. intros p rest (H1 & H2 & H3).
  cbn [read codec]. unfold get_encoding. cbn [encode codec].
  setoid_rewrite (bind_read_encode (A:=SizedPayload PayloadSize.U8 Cardinality.NonEmpty)).
  - cbn [sp_inner]. by rewrite H3.
  - by split.
Qed.

#[global] Instance canonical : CanonicalCodec t valid.
Proof.
  split. intros bs p rest H. cbn [read codec] in H. reader_inv.
  match goal with H : read _ = Ok _ |- _ => apply read_inv in H as [[H1 H2] ->] end.
  unfold valid. rewrite as_ref_new. unfold get_encoding. cbn [encode codec]. rewrite as_ref_new.
  split; [done|]. by destruct x.
Qed.

#[global] Instance nonempty : NonEmptyEncoding t valid.
Proof. intros p (H1 & H2 & _). by apply (encoding_nonempty (mkSizedPayload (as_ref p))). Qed.

#[global] Instance total : TotalRead t.
Proof. unfold TotalRead. cbn [read codec]. auto with total. Qed.
End ApplicationProtocol.

Module SingleProtocolName.
(* @src rustls/src/msgs/handshake.rs 201-203 SingleProtocolName *)
Record t := new { inner : ApplicationProtocol.t }.

(* @src rustls/src/msgs/handshake.rs 210-212 SingleProtocolName::SIZE_LEN *)
Definition SIZE_LEN : ListLength.t :=
  ListLength.NonZeroU16 (InvalidMessage.IllegalEmptyList "ProtocolNames").

(* @src rustls/src/msgs/handshake.rs 215-229 Codec_for_SingleProtocolName *)
#[global] Instance codec : Codec t := {
  encode self bytes := LengthPrefixedBuffer.nest SIZE_LEN (λ buf, encode (inner self) buf) bytes;
  read :=
    len ← ListLength.read SIZE_LEN;
    sub ← Reader.sub len;
    Reader.within sub (Reader.all "SingleProtocolName"
      (p ← (read : reader ApplicationProtocol.t); mret (new p)));
}.

Definition valid (s : t) : Prop := ApplicationProtocol.valid (inner s).

#[global] Instance laws : CodecLaws t valid.
Proof.
  apply (codec_laws_intro valid (λ s, be_bytes 2 (Z.of_nat (length (get_encoding (inner s))))
                                      ++ get_encoding (inner s))).
  - intros s bytes. cbn [encode codec]. apply nest_spec. intros. apply encode_app.
  - intros [p] rest Hv. cbn [read codec inner] in *. unfold valid in Hv. cbn [inner] in Hv.
    assert (length (get_encoding p) = 1 + length (ApplicationProtocol.as_ref p)) as Hl.
    { unfold get_encoding. cbn [encode ApplicationProtocol.codec SizedPayload_codec].
      rewrite size_encode. cbn [sp_inner]. rewrite !length_app, be_bytes_length. done. }
    pose proof Hv as (H1 & H2 & _).
    rewrite <-(assoc_L (++)). change 2 with (ListLength.width SIZE_LEN).
    rewrite bind_list_length_app by (split; simpl; lia). rewrite bind_sub_app by done.
    unfold Reader.within, Reader.all. rewrite <-(app_nil_r (get_encoding p)).
    by rewrite bind_read_encode.
Qed.

#[global] Instance total : TotalRead t.
Proof. unfold TotalRead. cbn [read codec]. auto 8 with total. Qed.
End SingleProtocolName.

Module KeyShareEntry.
(* @src rustls/src/msgs/handshake.rs 237-243 KeyShareEntry *)
Record t := mk {
  group : NamedGroup.t;
  payload : SizedPayload PayloadSize.U16 Cardinality.NonEmpty;
}.

(* @src rustls/src/msgs/handshake.rs 246-251 KeyShareEntry::new *)
Definition new (group : NamedGroup.t) (payload : list u8) : t := mk group (mkSizedPayload payload).

(* @src rustls/src/msgs/handshake.rs 254-266 Codec_for_KeyShareEntry *)
#[global] Instance codec : Codec t := {
  encode self bytes := encode (payload self) (encode (group self) bytes);
  read := group ← read; payload ← read; mret (mk group payload);
}.

(* @src rustls/src/msgs/handshake.rs 272 KeyShareEntry::SIZE_LEN *)
#[global] Instance list_element : TlsListElement t := ListLength.U16.

Definition valid (k : t) : Prop := is_u16 (NamedGroup.val (group k)) ∧ sized_valid (payload k).

#[global] Instance laws : CodecLaws t valid.
Proof.
  apply (codec_laws_intro valid (λ k, get_encoding (group k) ++ get_encoding (payload k))).
  - intros. cbn [encode codec]. by encode_steps.
  - intros [g p] rest [Hg Hp]. cbn [read codec group payload] in *. by read_steps.
Qed.

#[global] Instance canonical : CanonicalCodec t valid.
Proof.
  split. intros bs k rest H. cbn [read codec] in H. reader_inv.
  repeat match goal with H : read _ = Ok _ |- _ => apply read_inv in H as [? ->] end.
  split; [done|]. unfold get_encoding at 3. cbn [encode codec group payload]. by encode_steps.
Qed.

#[global] Instance nonempty : NonEmptyEncoding t valid.
Proof.
  intros k _ H. unfold get_encoding in H. cbn [encode codec] in H. revert H. encode_steps.
  intros H%app_nil. by destruct H.
Qed.

#[global] Instance total : TotalRead t.
Proof. unfold TotalRead. cbn [read codec]. auto with total. Qed.
End KeyShareEntry.

Module SupportedProtocolVersions.
(* @src rustls/src/msgs/handshake.rs 275-286 SupportedProtocolVersions *)
Record t := mk { tls13 : bool; tls12 : bool }.

(* @src rustls/src/msgs/handshake.rs 289-298 SupportedProtocolVersions::any *)
Definition any (self : t) (filter : ProtocolVersion.t → bool) : bool :=
  if tls13 self && filter ProtocolVersion.TLSv1_3 then true
  else if tls12 self && filter ProtocolVersion.TLSv1_2 then true
  else false.

(* @src rustls/src/msgs/handshake.rs 300-302 SupportedProtocolVersions::LIST_LENGTH *)
Definition LIST_LENGTH : ListLength.t :=
  ListLength.NonZeroU8 (InvalidMessage.IllegalEmptyList "ProtocolVersions").

(* @src rustls/src/msgs/handshake.rs 305-330 Codec_for_SupportedProtocolVersions *)
#[global] Instance codec : Codec t := {
  encode self bytes :=
    LengthPrefixedBuffer.nest LIST_LENGTH
      (λ buf,
        let buf := if tls13 self then encode ProtocolVersion.TLSv1_3 buf else buf in
        if tls12 self then encode ProtocolVersion.TLSv1_2 buf else buf) bytes;
  read :=
    pvs ← (read : reader (list ProtocolVersion.t));
    mret (mk (bool_decide (ProtocolVersion.TLSv1_3 ∈ pvs))
             (bool_decide (ProtocolVersion.TLSv1_2 ∈ pvs)));
}.

(** The list is not empty. *)
Definition valid (s : t) : Prop := tls13 s || tls12 s = true.

#[global] Instance laws : CodecLaws t valid.
Proof.
  apply (codec_laws_intro valid (λ s,
    let body := (if tls13 s then [x03; x04] else []) ++ (if tls12 s then [x03; x03] else []) in
    be_bytes 1 (Z.of_nat (length body)) ++ body)).
  - intros s bytes. cbn [encode codec]. apply nest_spec. intros b.
    destruct s as [[] []]; cbn [tls13 tls12]; rewrite ?app_nil_r; try done.
    by rewrite (encode_app ProtocolVersion.TLSv1_2), (encode_app ProtocolVersion.TLSv1_3),
      <-(assoc_L (++)).
  - by intros [[] []] rest Hv.
Qed.

#[global] Instance total : TotalRead t.
Proof. unfold TotalRead. cbn [read codec]. auto with total. Qed.
End SupportedProtocolVersions.

Module DigitallySignedStruct.
(* @src rustls/src/verify.rs 322-328 DigitallySignedStruct *)
Record t := mk {
  scheme : SignatureScheme.t;
  sig : SizedPayload PayloadSize.U16 Cardinality.MaybeEmpty;
}.

(* @src rustls/src/verify.rs 331-336 DigitallySignedStruct::new *)
Definition new (scheme : SignatureScheme.t) (sig : list u8) : t := mk scheme (mkSizedPayload sig).

(* @src rustls/src/verify.rs 338-341 DigitallySignedStruct::signature *)
Definition signature (self : t) : list u8 := sp_inner (sig self).

(* @src rustls/src/verify.rs 344-356 Codec_for_DigitallySignedStruct *)
#[global] Instance codec : Codec t := {
  encode self bytes := encode (sig self) (encode (scheme self) bytes);
  read := scheme ← read; sig ← read; mret (mk scheme sig);
}.

Definition valid (d : t) : Prop := is_u16 (SignatureScheme.val (scheme d)) ∧ sized_valid (sig d).

#[global] Instance laws : CodecLaws t valid.
Proof.
  apply (codec_laws_intro valid (λ k, get_encoding (scheme k) ++ get_encoding (sig k))).
  - intros. cbn [encode codec]. by encode_steps.
  - intros [g p] rest [Hg Hp]. cbn [read codec scheme sig] in *. by read_steps.
Qed.

#[global] Instance total : TotalRead t.
Proof. unfold TotalRead. cbn [read codec]. auto with total. Qed.

#[global] Instance canonical : CanonicalCodec t valid.
Proof.
  split. intros bs k rest H. cbn [read codec] in H. reader_inv.
  repeat match goal with H : read _ = Ok _ |- _ => apply read_inv in H as [? ->] end.
  split; [done|]. unfold get_encoding at 3. cbn [encode codec scheme sig]. by encode_steps.
Qed.
End DigitallySignedStruct.

Module DistinguishedName.
(* @src rustls/src/verify.rs 359-388 DistinguishedName *)
Record t := mk { inner : SizedPayload PayloadSize.U16 Cardinality.NonEmpty }.

(* @src rustls/src/msgs/macros.rs 340-368 wrapped_payload *)
#[global] Instance codec : Codec t := {
  encode self bytes := encode (inner self) bytes;
  read := inner ← read; mret (mk inner);
}.

(* @src rustls/src/verify.rs 400 DistinguishedName::SIZE_LEN *)
#[global] Instance list_element : TlsListElement t := ListLength.U16.

Definition valid (d : t) : Prop := sized_valid (inner d).

#[global] Instance laws : CodecLaws t valid.
Proof.
  apply (codec_laws_intro valid (λ d, get_encoding (inner d))).
  - intros. cbn [encode codec]. by encode_steps.
  - intros [p] rest Hp. cbn [read codec inner] in *. unfold valid in Hp. cbn [inner] in Hp.
    by read_steps.
Qed.

#[global] Instance canonical : CanonicalCodec t valid.
Proof.
  split. intros bs k rest H. cbn [read codec] in H. reader_inv.
  match goal with H : read _ = Ok _ |- _ => apply read_inv in H as [? ->] end. done.
Qed.

#[global] Instance nonempty : NonEmptyEncoding t valid.
Proof. intros d. apply (encoding_nonempty (inner d)). Qed.

#[global] Instance total : TotalRead t.
Proof. unfold TotalRead. cbn [read codec]. auto with total. Qed.
End DistinguishedName.

(** ** HelloRetryRequest *)

Module Encoding.
(* @src rustls/src/msgs/handshake.rs 1402-1413 Encoding *)
Inductive t :=
  | Standard
  | EchConfirmation
  | EchInnerHello (to_compress : list ExtensionType.t).
End Encoding.

Module HelloRetryRequestExtensions.
(* @src rustls/src/msgs/handshake.rs 415-431 HelloRetryRequestExtensions *)
Record t := mk {
  key_share : option NamedGroup.t;
  cookie : option (SizedPayload PayloadSize.U16 Cardinality.NonEmpty);
  supported_versions : option ProtocolVersion.t;
  encrypted_client_hello : option Payload;
  order : option (list ExtensionType.t);
}.

(* @src rustls/src/msgs/handshake.rs 415-431 HelloRetryRequestExtensions *)
#[global] Instance struct : ExtensionStruct t := {
  struct_name := "HelloRetryRequestExtensions";
  es_default := mk None None None None None;
  fields := [
    Field ExtensionType.KeyShare key_share
      (λ v s, mk v (cookie s) (supported_versions s) (encrypted_client_hello s) (order s))
      (λ g, is_u16 (NamedGroup.val g));
    Field ExtensionType.Cookie cookie
      (λ v s, mk (key_share s) v (supported_versions s) (encrypted_client_hello s) (order s))
      sized_valid;
    Field ExtensionType.SupportedVersions supported_versions
      (λ v s, mk (key_share s) (cookie s) v (encrypted_client_hello s) (order s))
      (λ v, is_u16 (ProtocolVersion.val v));
    Field ExtensionType.EncryptedClientHello encrypted_client_hello
      (λ v s, mk (key_share s) (cookie s) (supported_versions s) v (order s))
      (λ _, True)
  ];
}.

#[global] Instance struct_laws : ExtensionLaws t order.
Proof. solve_extension_laws. Qed.

Definition with_order (order : option (list ExtensionType.t)) (s : t) : t :=
  mk (key_share s) (cookie s) (supported_versions s) (encrypted_client_hello s) order.

(* @src rustls/src/msgs/handshake.rs 453-487 Codec_for_HelloRetryRequestExtensions *)
#[global] Instance codec : Codec t := {
  encode self bytes := encode_block (default (ALL_EXTENSIONS (S:=t)) (order self)) self bytes;
  read :=
    '(out, order) ← read_block (λ _unk _, Err InvalidMessage.UnknownHelloRetryRequestExtension)
      (λ typ _ order, Ok (order ++ [typ])) [];
    mret (with_order (Some order) out);
}.

(** The recorded order names the extensions present, once each. *)
Definition valid (s : t) : Prop :=
  es_valid s ∧ ∃ o, order s = Some o ∧ NoDup o ∧ (ext_items s o).*1 = o ∧ names_used o s ∧
    (Z.of_nat (length (concat (tlv <$> ext_items s o))) < 2 ^ 16)%Z.

Lemma checks_order (l : list (ExtensionType.t * list u8)) c :
  checks (λ typ _ order, Ok (order ++ [typ])) l c (c ++ l.*1).
Proof.
  revert c. induction l as [|e l IH]; intros c; simpl; [by rewrite app_nil_r|].
  eexists. split; [done|]. specialize (IH (c ++ [e.1])). by rewrite <-(assoc_L (++)) in IH.
Qed.

#[global] Instance laws : CodecLaws t valid.
Proof.
  split; intros s.
  - intros bytes. unfold get_encoding. cbn [encode codec]. by rewrite !(encode_block_spec order).
  - intros rest (Hv & o & Ho & Hnd & Hit & Hu & Hl). unfold get_encoding.
    cbn [encode read codec]. rewrite Ho. cbn [default from_option id]. unfold mbind, reader_bind.
    rewrite (read_block_encode order _ _ o s (with_order None s) [] o); try done.
    + unfold with_order, mret, reader_ret. cbn. rewrite <-Ho. by destruct s.
    + pose proof (checks_order (ext_items s o) []) as Hc. by rewrite Hit in Hc.
    + repeat (apply Forall_cons; split; [done|]). by apply Forall_nil.
Qed.

#[global] Instance total : TotalRead t.
Proof.
  unfold TotalRead. cbn [read codec]. apply total_bind; [|by intros []].
  by apply (total_read_block order).
Qed.

Lemma takes_all_order unk l s c s' c' :
  takes_all unk (λ typ _ order, Ok (order ++ [typ])) l s c s' c' →
  (∀ typ c c', unk typ c ≠ Ok c') →
  c' = c ++ l.*1 ∧ Forall (λ e, is_Some (arm (S:=t) e.1)) l.
Proof.
  intros H Hu. revert s c H. induction l as [|e l IH]; intros s c; simpl.
  { intros [_ ->]. by rewrite app_nil_r. }
  intros (s1 & c1 & c2 & Ht & [= <-] & [-> Hl]%IH). unfold takes in Ht.
  destruct (arm e.1) as [f|] eqn:Ha; [|by destruct Ht as [_ ?%Hu]].
  destruct Ht as (_ & _ & ->). rewrite <-(assoc_L (++)). split; [done|].
  constructor; [by rewrite Ha; eauto|done].
Qed.

(** What was read is written back byte for byte, in the order it came. *)
#[global] Instance canonical : CanonicalCodec t valid.
Proof.
  split. intros bs s rest H. cbn [read codec] in H.
  apply reader_bind_Ok in H as ([out o] & r1 & H & [= <- <-]).
  apply read_block_inv in H as (l & Hok & Hall & -> & Hlen).
  pose proof (takes_all_order _ _ _ _ _ _ Hall ltac:(done)) as [-> Hk]. rewrite app_nil_l.
  assert (same_slots out (with_order (Some l.*1) out)) as Hs.
  { repeat (apply Forall_cons; split; [done|]). by apply Forall_nil. }
  assert (Forall (λ f, BodyCanonical (f_ty f) (f_valid f)) (fields (S:=t))) as Hcan.
  { solve_fields. }
  assert (ext_items (with_order (Some l.*1) out) l.*1 = l) as Hit.
  { rewrite <-(ext_items_ext _ _ _ Hs). by eapply (ext_items_reencode order). }
  split.
  - split; [eapply es_valid_ext; [done|]; by eapply (es_valid_read order)|].
    exists l.*1. rewrite Hit. split_and!; try done.
    + by eapply (known_nodup order).
    + eapply names_used_ext; [done|]. by eapply (read_names_used order).
  - unfold get_encoding. cbn [encode codec with_order HelloRetryRequestExtensions.order default].
    cbn [from_option id]. rewrite (encode_block_spec order), Hit. by rewrite <-!(assoc_L (++)).
Qed.
End HelloRetryRequestExtensions.

Module HelloRetryRequest.
(* @src rustls/src/msgs/handshake.rs 489-495 HelloRetryRequest *)
Record t := mk {
  legacy_version : ProtocolVersion.t;
  session_id : SessionId.t;
  cipher_suite : CipherSuite.t;
  extensions : HelloRetryRequestExtensions.t;
}.

(** [ECH] confirmation replaces the payload of the extension by eight zeros. *)
(* @src rustls/src/msgs/handshake.rs 521-549 HelloRetryRequest::payload_encode *)
Definition payload_encode (self : t) (purpose : Encoding.t) (bytes : list u8) : list u8 :=
  let bytes := encode (legacy_version self) bytes in
  let bytes := encode Random.HELLO_RETRY_REQUEST_RANDOM bytes in
  let bytes := encode (session_id self) bytes in
  let bytes := encode (cipher_suite self) bytes in
  let bytes := encode Compression.Null bytes in
  let e := extensions self in
  match purpose, HelloRetryRequestExtensions.encrypted_client_hello e with
  | Encoding.EchConfirmation, Some _ =>
      let hrr_confirmation := replicate 8 x00 in
      encode (HelloRetryRequestExtensions.mk (HelloRetryRequestExtensions.key_share e)
                (HelloRetryRequestExtensions.cookie e)
                (HelloRetryRequestExtensions.supported_versions e)
                (Some hrr_confirmation)
                (HelloRetryRequestExtensions.order e)) bytes
  | _, _ => encode e bytes
  end.

(** [read] starts after the version and the random, which tell a
    HelloRetryRequest from a ServerHello. *)
(* @src rustls/src/msgs/handshake.rs 497-518 Codec_for_HelloRetryRequest *)
#[global] Instance codec : Codec t := {
  encode self bytes := payload_encode self Encoding.Standard bytes;
  read :=
    session_id ← (read : reader SessionId.t);
    cipher_suite ← (read : reader CipherSuite.t);
    compression ← (read : reader Compression.t);
    if decide (compression ≠ Compression.Null)
    then reader_fail InvalidMessage.UnsupportedCompression
    else
      extensions ← (read : reader HelloRetryRequestExtensions.t);
      mret (mk (ProtocolVersion.new 0) session_id cipher_suite extensions);
}.

Definition valid (h : t) : Prop :=
  is_u16 (ProtocolVersion.val (legacy_version h)) ∧ SessionId.valid (session_id h) ∧
  is_u16 (CipherSuite.val (cipher_suite h)) ∧ HelloRetryRequestExtensions.valid (extensions h).

(** The encoding after the version and the random. *)
Definition tail (h : t) : list u8 :=
  get_encoding (session_id h) ++ get_encoding (cipher_suite h) ++ get_encoding Compression.Null
    ++ get_encoding (extensions h).

Definition with_version (v : ProtocolVersion.t) (h : t) : t :=
  mk v (session_id h) (cipher_suite h) (extensions h).

Lemma encode_standard h bytes :
  encode h bytes = bytes ++ get_encoding (legacy_version h)
    ++ get_encoding Random.HELLO_RETRY_REQUEST_RANDOM ++ tail h.
Proof. cbn [encode codec]. unfold payload_encode, tail. by encode_steps. Qed.

Lemma read_tail h rest :
  valid h → read (tail h ++ rest) = Ok (with_version (ProtocolVersion.new 0) h, rest).
Proof.
  destruct h as [v s c e]. intros (Hv & Hs & Hc & He). unfold tail. cbn in Hv, Hs, Hc, He.
  cbn [read codec session_id cipher_suite extensions]. read_steps.
  rewrite decide_False by (by intros []). by read_steps.
Qed.

Lemma read_tail_inv bs h rest :
  read bs = Ok (h, rest) →
  legacy_version h = ProtocolVersion.new 0 ∧ valid h ∧ bs = tail h ++ rest.
Proof.
  cbn [read codec]. intros H. reader_inv.
  repeat match goal with H : read _ = Ok _ |- _ => apply read_inv in H as [? ->] end.
  unfold valid, tail. cbn [legacy_version session_id cipher_suite extensions].
  match goal with H : ¬ ?x ≠ Compression.Null |- _ => apply dec_stable in H as -> end.
  rewrite <-!(assoc_L (++)). by split_and!.
Qed.

#[global] Instance total : TotalRead t.
Proof. unfold TotalRead. cbn [read codec]. auto 8 with total. Qed.
End HelloRetryRequest.

(** ** Certificates *)

Module CertificateChain.
(* @src rustls/src/msgs/handshake.rs 565-566 CertificateChain *)
Record t := mk { inner : list CertificateDer }.

(* @src rustls/src/msgs/handshake.rs 588-601 Codec_for_CertificateChain *)
#[global] Instance codec : Codec t := {
  encode self bytes := encode (inner self) bytes;
  read := ret ← (read : reader (list CertificateDer)); mret (mk ret);
}.

Definition valid (c : t) : Prop := vec_valid cert_valid (inner c).

#[global] Instance laws : CodecLaws t valid.
Proof.
  apply (codec_laws_intro valid (λ c, get_encoding (inner c))).
  - intros. cbn [encode codec]. by encode_steps.
  - intros [l] rest Hp. unfold valid in Hp. cbn [read codec inner] in *. by read_steps.
Qed.

#[global] Instance total : TotalRead t.
Proof. unfold TotalRead. cbn [read codec]. auto with total. Qed.
End CertificateChain.

Module CertificateStatus.
(* @src rustls/src/msgs/handshake.rs 1316-1321 CertificateStatus *)
Record t := mk { ocsp_response : SizedPayload PayloadSize.U24 Cardinality.NonEmpty }.

(* @src rustls/src/msgs/handshake.rs 1323-1339 Codec_for_CertificateStatus *)
#[global] Instance codec : Codec t := {
  encode self bytes := encode (ocsp_response self) (encode CertificateStatusType.OCSP bytes);
  read :=
    typ ← (read : reader CertificateStatusType.t);
    if decide (typ = CertificateStatusType.OCSP)
    then p ← read; mret (mk p)
    else reader_fail InvalidMessage.InvalidCertificateStatusType;
}.

(* @src rustls/src/msgs/handshake.rs 1342-1346 CertificateStatus::new *)
Definition new (ocsp : list u8) : t := mk (mkSizedPayload ocsp).

(* @src rustls/src/msgs/handshake.rs 1348-1350 CertificateStatus::into_inner *)
Definition into_inner (self : t) : list u8 := sp_inner (ocsp_response self).

Definition valid (s : t) : Prop := sized_valid (ocsp_response s).

#[global] Instance laws : CodecLaws t valid.
Proof.
  apply (codec_laws_intro valid
    (λ s, get_encoding CertificateStatusType.OCSP ++ get_encoding (ocsp_response s))).
  - intros. cbn [encode codec]. by encode_steps.
  - intros [p] rest Hp. unfold valid in Hp. cbn [read codec ocsp_response] in *.
    read_steps. rewrite decide_True by done. by read_steps.
Qed.

#[global] Instance canonical : CanonicalCodec t valid.
Proof.
  split. intros bs s rest H. cbn [read codec] in H. reader_inv.
  repeat match goal with H : read _ = Ok _ |- _ => apply read_inv in H as [? ->] end.
  split; [done|]. unfold get_encoding at 3. cbn [encode codec ocsp_response]. by encode_steps.
Qed.

#[global] Instance total : TotalRead t.
Proof. unfold TotalRead. cbn [read codec]. auto with total. Qed.
End CertificateStatus.

Module CertificateExtensions.
(* @src rustls/src/msgs/handshake.rs 612-615 CertificateExtensions *)
Record t := mk { status : option CertificateStatus.t }.

(* @src rustls/src/msgs/handshake.rs 612-615 CertificateExtensions *)
#[global] Instance struct : ExtensionStruct t := {
  struct_name := "CertificateExtensions";
  es_default := mk None;
  fields := [Field ExtensionType.StatusRequest status (λ v _, mk v) CertificateStatus.valid];
}.

#[global] Instance struct_laws : ExtensionLaws t (λ _, tt).
Proof. solve_extension_laws. Qed.

(* @src rustls/src/msgs/handshake.rs 626-649 Codec_for_CertificateExtensions *)
#[global] Instance codec : Codec t := {
  encode self bytes := encode_block (ALL_EXTENSIONS (S:=t)) self bytes;
  read :=
    '(out, _) ← read_block (λ _unk _, Err InvalidMessage.UnknownCertificateExtension) no_check tt;
    mret out;
}.

Definition valid : t → Prop := plain_valid (λ _, tt).

#[global] Instance laws : CodecLaws t valid.
Proof.
  apply (codec_laws_intro valid (λ s, encode_block ALL_EXTENSIONS s [])).
  - intros s bytes. apply (encode_block_app (λ _, tt)).
  - intros s rest Hv. cbn [read codec]. by rewrite (bind_read_plain (λ _, tt)).
Qed.

#[global] Instance total : TotalRead t.
Proof.
  unfold TotalRead. cbn [read codec]. apply total_bind; [|by intros []].
  by apply (total_read_block (λ _, tt)).
Qed.
End CertificateExtensions.

Module CertificateEntry.
(* @src rustls/src/msgs/handshake.rs 651-655 CertificateEntry *)
Record t := mk { cert : CertificateDer; extensions : CertificateExtensions.t }.

(* @src rustls/src/msgs/handshake.rs 672-677 CertificateEntry::new *)
Definition new (cert : CertificateDer) : t := mk cert es_default.

(* @src rustls/src/msgs/handshake.rs 657-669 Codec_for_CertificateEntry *)
#[global] Instance codec : Codec t := {
  encode self bytes := encode (extensions self) (encode (cert self) bytes);
  read := cert ← read; extensions ← read; mret (mk cert extensions);
}.

(* @src rustls/src/msgs/handshake.rs 688-691 CertificateEntry::SIZE_LEN *)
#[global] Instance list_element : TlsListElement t :=
  ListLength.U24 CERTIFICATE_MAX_SIZE_LIMIT InvalidMessage.CertificatePayloadTooLarge.

Definition valid (e : t) : Prop :=
  cert_valid (cert e) ∧ CertificateExtensions.valid (extensions e).

#[global] Instance laws : CodecLaws t valid.
Proof.
  apply (codec_laws_intro valid (λ k, get_encoding (cert k) ++ get_encoding (extensions k))).
  - intros. cbn [encode codec]. by encode_steps.
  - intros [c e] rest [Hc He]. cbn [read codec cert extensions] in *. by read_steps.
Qed.

#[global] Instance nonempty : NonEmptyEncoding t valid.
Proof.
  intros e [Hc _] H. unfold get_encoding in H. cbn [encode codec] in H. revert H. encode_steps.
  rewrite app_nil_l. intros [H _]%app_nil. by apply (encoding_nonempty (cert e)).
Qed.

#[global] Instance total : TotalRead t.
Proof. unfold TotalRead. cbn [read codec]. auto with total. Qed.

#[global] Instance progress : ElementProgress (T:=t).
Proof.
  apply shrinks_progress. cbn [read codec]. apply shrinks_bind; [eapply shrinks_canonical; apply _|].
  intros c. apply shrinks_bind; [|auto with shrinks]. cbn [read CertificateExtensions.codec].
  apply shrinks_bind; [apply shrinks_weaken, shrinks_read_block|]. intros []. auto with shrinks.
Qed.
End CertificateEntry.

Module CertificatePayloadTls13.
(* @src rustls/src/msgs/handshake.rs 694-698 CertificatePayloadTls13 *)
Record t := mk {
  context : SizedPayload PayloadSize.U8 Cardinality.MaybeEmpty;
  entries : list CertificateEntry.t;
}.

(** The OCSP response goes with the first certificate. *)
(* @src rustls/src/msgs/handshake.rs 701-730 CertificatePayloadTls13::new *)
Definition new (certs : list CertificateDer) (ocsp_response : option (list u8)) : t :=
  let ocsp_response :=
    match ocsp_response with Some [] | None => None | Some bytes => Some bytes end in
  let responses :=
    match ocsp_response with Some bytes => [Some bytes] | None => [] end
      ++ replicate (length certs) None in
  mk (mkSizedPayload [])
    (zip_with (λ cert ocsp,
       match ocsp with
       | Some ocsp => CertificateEntry.mk cert
           (CertificateExtensions.mk (Some (CertificateStatus.new ocsp)))
       | None => CertificateEntry.new cert
       end) certs responses).

(* @src rustls/src/msgs/handshake.rs 743-753 CertificatePayloadTls13::end_entity_ocsp *)
Definition end_entity_ocsp (self : t) : list u8 :=
  match entries self with
  | [] => []
  | entry :: _ =>
      match CertificateExtensions.status (CertificateEntry.extensions entry) with
      | Some status => sp_inner (CertificateStatus.ocsp_response status)
      | None => []
      end
  end.

(* @src rustls/src/msgs/handshake.rs 755-762 CertificatePayloadTls13::into_certificate_chain *)
Definition into_certificate_chain (self : t) : CertificateChain.t :=
  CertificateChain.mk (CertificateEntry.cert <$> entries self).

(* @src rustls/src/msgs/handshake.rs 765-777 Codec_for_CertificatePayloadTls13 *)
#[global] Instance codec : Codec t := {
  encode self bytes := encode (entries self) (encode (context self) bytes);
  read := context ← read; entries ← read; mret (mk context entries);
}.

Definition valid (p : t) : Prop :=
  sized_valid (context p) ∧ vec_valid CertificateEntry.valid (entries p).

#[global] Instance laws : CodecLaws t valid.
Proof.
  apply (codec_laws_intro valid (λ k, get_encoding (context k) ++ get_encoding (entries k))).
  - intros. cbn [encode codec]. by encode_steps.
  - intros [c e] rest [Hc He]. cbn [read codec context entries] in *. by read_steps.
Qed.

#[global] Instance total : TotalRead t.
Proof. unfold TotalRead. cbn [read codec]. auto with total. Qed.

(** What a sender builds, a receiver takes apart. *)
Lemma new_parts certs ocsp :
  into_certificate_chain (new certs ocsp) = CertificateChain.mk certs ∧
  end_entity_ocsp (new certs ocsp) = match certs with [] => [] | _ => default [] ocsp end.
Proof.
  unfold into_certificate_chain, new, end_entity_ocsp. cbn [entries]. split.
  - f_equal. apply fmap_zip_with_l; [by intros c [o|]|].
    rewrite length_app, length_replicate. lia.
  - destruct certs as [|c certs]; [done|]. by destruct ocsp as [[|b l]|].
Qed.
End CertificatePayloadTls13.

Module CompressedCertificatePayload.
(* @src rustls/src/msgs/handshake.rs 1361-1367 CompressedCertificatePayload *)
Record t := mk {
  alg : CertificateCompressionAlgorithm.t;
  uncompressed_len : Z;
  compressed : SizedPayload PayloadSize.U24 Cardinality.NonEmpty;
}.

(* @src rustls/src/msgs/handshake.rs 1369-1383 Codec_for_CompressedCertificatePayload *)
#[global] Instance codec : Codec t := {
  encode self bytes :=
    encode (compressed self) (u24_encode (uncompressed_len self) (encode (alg self) bytes));
  read := alg ← read; len ← u24_read; compressed ← read; mret (mk alg len compressed);
}.

Definition valid (p : t) : Prop :=
  is_u16 (CertificateCompressionAlgorithm.val (alg p)) ∧ is_u24 (uncompressed_len p) ∧
  sized_valid (compressed p).

#[global] Instance laws : CodecLaws t valid.
Proof.
  apply (codec_laws_intro valid (λ k,
    get_encoding (alg k) ++ be_bytes 3 (uncompressed_len k) ++ get_encoding (compressed k))).
  - intros. cbn [encode codec]. by encode_steps.
  - intros [a l c] rest (Ha & Hl & Hc). cbn [read codec alg uncompressed_len compressed] in *.
    by read_steps.
Qed.

#[global] Instance total : TotalRead t.
Proof. unfold TotalRead. cbn [read codec]. auto with total. Qed.
End CompressedCertificatePayload.

(** ** Key exchange parameters *)

Module EcParameters.
(* @src rustls/src/msgs/handshake.rs 782-789 EcParameters *)
Record t := mk { curve_type : ECCurveType.t; named_group : NamedGroup.t }.

(* @src rustls/src/msgs/handshake.rs 791-810 Codec_for_EcParameters *)
#[global] Instance codec : Codec t := {
  encode self bytes := encode (named_group self) (encode (curve_type self) bytes);
  read :=
    ct ← (read : reader ECCurveType.t);
    if decide (ct ≠ ECCurveType.NamedCurve)
    then reader_fail InvalidMessage.UnsupportedCurveType
    else grp ← read; mret (mk ct grp);
}.

Definition valid (p : t) : Prop :=
  curve_type p = ECCurveType.NamedCurve ∧ is_u16 (NamedGroup.val (named_group p)).

#[global] Instance laws : CodecLaws t valid.
Proof.
  apply (codec_laws_intro valid (λ k, get_encoding (curve_type k) ++ get_encoding (named_group k))).
  - intros. cbn [encode codec]. by encode_steps.
  - intros [c g] rest [Hc Hg]. cbn [read codec curve_type named_group] in *. subst c. read_steps.
    rewrite decide_False by (by intros []). by read_steps.
Qed.

#[global] Instance canonical : CanonicalCodec t valid.
Proof.
  split. intros bs s rest H. cbn [read codec] in H. reader_inv.
  repeat match goal with H : read _ = Ok _ |- _ => apply read_inv in H as [? ->] end.
  match goal with H : ¬ ?x ≠ _ |- _ => apply dec_stable in H as -> end.
  split; [done|]. unfold get_encoding at 3. cbn [encode codec curve_type named_group].
  by encode_steps.
Qed.

#[global] Instance total : TotalRead t.
Proof. unfold TotalRead. cbn [read codec]. auto with total. Qed.
End EcParameters.

Module ClientEcdhParams.
(* @src rustls/src/msgs/handshake.rs 848-851 ClientEcdhParams *)
Record t := mk { public : SizedPayload PayloadSize.U8 Cardinality.NonEmpty }.

(* @src rustls/src/msgs/handshake.rs 853-862 Codec_for_ClientEcdhParams *)
#[global] Instance codec : Codec t := {
  encode self bytes := encode (public self) bytes;
  read := pb ← read; mret (mk pb);
}.
End ClientEcdhParams.

Module ClientDhParams.
(* @src rustls/src/msgs/handshake.rs 864-868 ClientDhParams *)
Record t := mk { public : SizedPayload PayloadSize.U16 Cardinality.NonEmpty }.

(* @src rustls/src/msgs/handshake.rs 870-880 Codec_for_ClientDhParams *)
#[global] Instance codec : Codec t := {
  encode self bytes := encode (public self) bytes;
  read := pb ← read; mret (mk pb);
}.
End ClientDhParams.

Module ClientKeyExchangeParams.
(* @src rustls/src/msgs/handshake.rs 817-820 ClientKeyExchangeParams *)
Inductive t := Ecdh (p : ClientEcdhParams.t) | Dh (p : ClientDhParams.t).

(* @src rustls/src/msgs/handshake.rs 823-828 ClientKeyExchangeParams::pub_key *)
Definition pub_key (self : t) : list u8 :=
  match self with
  | Ecdh ecdh => sp_inner (ClientEcdhParams.public ecdh)
  | Dh dh => sp_inner (ClientDhParams.public dh)
  end.

(* @src rustls/src/msgs/handshake.rs 830-835 ClientKeyExchangeParams::encode *)
Definition encode (self : t) (buf : list u8) : list u8 :=
  match self with Ecdh ecdh => Codec.encode ecdh buf | Dh dh => Codec.encode dh buf end.

(* @src rustls/src/msgs/handshake.rs 839-845 ClientKeyExchangeParams::decode *)
Definition decode (algo : KeyExchangeAlgorithm.t) : reader t :=
  match algo with
  | KeyExchangeAlgorithm.ECDHE => Ecdh <$> (Codec.read : reader ClientEcdhParams.t)
  | KeyExchangeAlgorithm.DHE => Dh <$> (Codec.read : reader ClientDhParams.t)
  end.

Definition algorithm (self : t) : KeyExchangeAlgorithm.t :=
  match self with Ecdh _ => KeyExchangeAlgorithm.ECDHE | Dh _ => KeyExchangeAlgorithm.DHE end.

Definition valid (self : t) : Prop :=
  match self with
  | Ecdh p => sized_valid (ClientEcdhParams.public p)
  | Dh p => sized_valid (ClientDhParams.public p)
  end.

(** The parameters are read exactly from their encoding, given the algorithm. *)
Lemma client_kx_iff algo bs p rest :
  decode algo bs = Ok (p, rest) ↔
    algorithm p = algo ∧ valid p ∧ bs = encode p [] ++ rest.
Proof.
  destruct algo; cbn [decode]; rewrite reader_fmap_Ok;
    cbn [Codec.read ClientEcdhParams.codec ClientDhParams.codec]; setoid_rewrite reader_bind_Ok.
  all: split; [intros (a & (p' & r & [Hv ->]%read_inv & [= <- <-]) & ->); done|].
  all: destruct p as [[p]|[p]]; cbn [algorithm valid]; intros ([=] & Hv & ->).
  all: eexists; split; [|done]; exists p, rest; split; [by apply read_encode|done].
Qed.
End ClientKeyExchangeParams.

Module ServerEcdhParams.
(* @src rustls/src/msgs/handshake.rs 882-887 ServerEcdhParams *)
Record t := mk {
  curve_params : EcParameters.t;
  public : SizedPayload PayloadSize.U8 Cardinality.NonEmpty;
}.

(* @src rustls/src/msgs/handshake.rs 901-916 Codec_for_ServerEcdhParams *)
#[global] Instance codec : Codec t := {
  encode self bytes := encode (public self) (encode (curve_params self) bytes);
  read := cp ← read; pb ← read; mret (mk cp pb);
}.

Definition valid (p : t) : Prop := EcParameters.valid (curve_params p) ∧ sized_valid (public p).

#[global] Instance laws : CodecLaws t valid.
Proof.
  apply (codec_laws_intro valid (λ k, get_encoding (curve_params k) ++ get_encoding (public k))).
  - intros. cbn [encode codec]. by encode_steps.
  - intros [c p] rest [Hc Hp]. cbn [read codec curve_params public] in *. by read_steps.
Qed.

#[global] Instance canonical : CanonicalCodec t valid.
Proof.
  split. intros bs s rest H. cbn [read codec] in H. reader_inv.
  repeat match goal with H : read _ = Ok _ |- _ => apply read_inv in H as [? ->] end.
  split; [done|]. unfold get_encoding at 3. cbn [encode codec curve_params public]. by encode_steps.
Qed.

#[global] Instance total : TotalRead t.
Proof. unfold TotalRead. cbn [read codec]. auto with total. Qed.
End ServerEcdhParams.

Module ServerDhParams.
(* @src rustls/src/msgs/handshake.rs 918-926 ServerDhParams *)
Record t := mk {
  dh_p : SizedPayload PayloadSize.U16 Cardinality.NonEmpty;
  dh_g : SizedPayload PayloadSize.U16 Cardinality.NonEmpty;
  dh_ys : SizedPayload PayloadSize.U16 Cardinality.NonEmpty;
}.

(* @src rustls/src/msgs/handshake.rs 946-960 Codec_for_ServerDhParams *)
#[global] Instance codec : Codec t := {
  encode self bytes := encode (dh_ys self) (encode (dh_g self) (encode (dh_p self) bytes));
  read := dh_p ← read; dh_g ← read; dh_ys ← read; mret (mk dh_p dh_g dh_ys);
}.

Definition valid (p : t) : Prop :=
  sized_valid (dh_p p) ∧ sized_valid (dh_g p) ∧ sized_valid (dh_ys p).

#[global] Instance laws : CodecLaws t valid.
Proof.
  apply (codec_laws_intro valid (λ k,
    get_encoding (dh_p k) ++ get_encoding (dh_g k) ++ get_encoding (dh_ys k))).
  - intros. cbn [encode codec]. by encode_steps.
  - intros [p g y] rest (Hp & Hg & Hy). cbn [read codec dh_p dh_g dh_ys] in *. by read_steps.
Qed.

#[global] Instance canonical : CanonicalCodec t valid.
Proof.
  split. intros bs s rest H. cbn [read codec] in H. reader_inv.
  repeat match goal with H : read _ = Ok _ |- _ => apply read_inv in H as [? ->] end.
  split; [done|]. unfold get_encoding at 4. cbn [encode codec dh_p dh_g dh_ys]. by encode_steps.
Qed.

#[global] Instance total : TotalRead t.
Proof. unfold TotalRead. cbn [read codec]. auto with total. Qed.
End ServerDhParams.

Module ServerKeyExchangeParams.
(* @src rustls/src/msgs/handshake.rs 962-966 ServerKeyExchangeParams *)
Inductive t := Ecdh (p : ServerEcdhParams.t) | Dh (p : ServerDhParams.t).

(* @src rustls/src/msgs/handshake.rs 976-981 ServerKeyExchangeParams::pub_key *)
Definition pub_key (self : t) : list u8 :=
  match self with
  | Ecdh ecdh => sp_inner (ServerEcdhParams.public ecdh)
  | Dh dh => sp_inner (ServerDhParams.dh_ys dh)
  end.

(* @src rustls/src/msgs/handshake.rs 983-988 ServerKeyExchangeParams::encode *)
Definition encode (self : t) (buf : list u8) : list u8 :=
  match self with Ecdh ecdh => Codec.encode ecdh buf | Dh dh => Codec.encode dh buf end.

(* @src rustls/src/msgs/handshake.rs 992-998 ServerKeyExchangeParams::decode *)
Definition decode (algo : KeyExchangeAlgorithm.t) : reader t :=
  match algo with
  | KeyExchangeAlgorithm.ECDHE => Ecdh <$> (Codec.read : reader ServerEcdhParams.t)
  | KeyExchangeAlgorithm.DHE => Dh <$> (Codec.read : reader ServerDhParams.t)
  end.

Definition algorithm (self : t) : KeyExchangeAlgorithm.t :=
  match self with Ecdh _ => KeyExchangeAlgorithm.ECDHE | Dh _ => KeyExchangeAlgorithm.DHE end.

Definition valid (self : t) : Prop :=
  match self with Ecdh p => ServerEcdhParams.valid p | Dh p => ServerDhParams.valid p end.

Lemma server_kx_iff algo bs p rest :
  decode algo bs = Ok (p, rest) ↔
    algorithm p = algo ∧ valid p ∧ bs = encode p [] ++ rest.
Proof.
  destruct algo; cbn [decode]; rewrite reader_fmap_Ok.
  all: split; [intros (a & [Hv ->]%read_inv & ->); done|].
  all: destruct p as [p|p]; cbn [algorithm valid]; intros ([=] & Hv & ->).
  all: eexists; split; [|done]; by apply read_encode.
Qed.

Lemma server_kx_app p buf : encode p buf = buf ++ encode p [].
Proof. destruct p; cbn [encode]; by encode_steps. Qed.
End ServerKeyExchangeParams.

Module ServerKeyExchange.
(* @src rustls/src/msgs/handshake.rs 1001-1005 ServerKeyExchange *)
Record t := mk { params : ServerKeyExchangeParams.t; dss : DigitallySignedStruct.t }.

(* @src rustls/src/msgs/handshake.rs 1008-1011 ServerKeyExchange::encode *)
Definition encode (self : t) (buf : list u8) : list u8 :=
  Codec.encode (dss self) (ServerKeyExchangeParams.encode (params self) buf).

Definition valid (self : t) : Prop :=
  ServerKeyExchangeParams.valid (params self) ∧ DigitallySignedStruct.valid (dss self).
End ServerKeyExchange.

Module ServerKeyExchangePayload.
(* @src rustls/src/msgs/handshake.rs 1014-1018 ServerKeyExchangePayload *)
Inductive t := Known (x : ServerKeyExchange.t) | Unknown (x : Payload).

(* @src rustls/src/msgs/handshake.rs 1026-1039 Codec_for_ServerKeyExchangePayload *)
#[global] Instance codec : Codec t := {
  encode self bytes :=
    match self with
    | Known x => ServerKeyExchange.encode x bytes
    | Unknown x => encode x bytes
    end;
  read := p ← (read : reader Payload); mret (Unknown p);
}.

(* @src rustls/src/msgs/handshake.rs 1042-1057 ServerKeyExchangePayload::unwrap_given_kxa *)
Definition unwrap_given_kxa (self : t) (kxa : KeyExchangeAlgorithm.t)
    : option ServerKeyExchange.t :=
  match self with
  | Unknown unk =>
      match ServerKeyExchangeParams.decode kxa unk with
      | Ok (params, rd) =>
          match (read : reader DigitallySignedStruct.t) rd with
          | Ok (dss, rd) =>
              if negb (Reader.any_left rd) then Some (ServerKeyExchange.mk params dss) else None
          | _ => None
          end
      | _ => None
      end
  | Known _ => None
  end.

Lemma unwrap_iff unk kxa x :
  unwrap_given_kxa (Unknown unk) kxa = Some x ↔
    ServerKeyExchangeParams.algorithm (ServerKeyExchange.params x) = kxa ∧
    ServerKeyExchange.valid x ∧ unk = ServerKeyExchange.encode x [].
Proof.
  cbn [unwrap_given_kxa]. unfold ServerKeyExchange.valid, ServerKeyExchange.encode. split.
  - destruct (ServerKeyExchangeParams.decode kxa unk) as [[p r]| |] eqn:Ep; [|done..].
    apply ServerKeyExchangeParams.server_kx_iff in Ep as (Ha & Hv & ->).
    destruct (read r) as [[d r2]| |] eqn:Ed; [|done..]. apply read_inv in Ed as [Hd ->].
    destruct r2; [|done]. intros [= <-]. cbn [ServerKeyExchange.params ServerKeyExchange.dss].
    split_and!; [done..|]. rewrite encode_app, app_nil_r. done.
  - destruct x as [p d]. cbn [ServerKeyExchange.params ServerKeyExchange.dss].
    intros (Ha & [Hp Hd] & ->). rewrite encode_app.
    rewrite (proj2 (ServerKeyExchangeParams.server_kx_iff kxa _ p (get_encoding d))) by done.
    rewrite <-(app_nil_r (get_encoding d)). by rewrite read_encode.
Qed.

Definition valid (p : t) : Prop := match p with Unknown _ => True | Known _ => False end.

#[global] Instance laws : BodyLaws t valid.
Proof.
  split; [|by intros [x|x] Hv].
  intros [x|x] bytes; [|done]. unfold get_encoding. cbn [encode codec].
  unfold ServerKeyExchange.encode. encode_steps. rewrite ServerKeyExchangeParams.server_kx_app.
  by rewrite <-(assoc_L (++)).
Qed.

#[global] Instance total : TotalRead t.
Proof. unfold TotalRead. cbn [read codec]. auto with total. Qed.
End ServerKeyExchangePayload.

(** ** Certificate requests *)

Module CertificateRequestPayload.
(* @src rustls/src/msgs/handshake.rs 1067-1072 CertificateRequestPayload *)
Record t := mk {
  certtypes : list ClientCertificateType.t;
  sigschemes : list SignatureScheme.t;
  canames : list DistinguishedName.t;
}.

(* @src rustls/src/msgs/handshake.rs 1074-1097 Codec_for_CertificateRequestPayload *)
#[global] Instance codec : Codec t := {
  encode self bytes := encode (canames self) (encode (sigschemes self) (encode (certtypes self) bytes));
  read :=
    certtypes ← (read : reader (list ClientCertificateType.t));
    sigschemes ← (read : reader (list SignatureScheme.t));
    canames ← (read : reader (list DistinguishedName.t));
    if decide (sigschemes = []) then reader_fail InvalidMessage.NoSignatureSchemes
    else mret (mk certtypes sigschemes canames);
}.

Definition valid (p : t) : Prop :=
  vec_valid (λ _, True) (certtypes p) ∧
  vec_valid (λ x, is_u16 (SignatureScheme.val x)) (sigschemes p) ∧
  vec_valid DistinguishedName.valid (canames p).

#[global] Instance laws : CodecLaws t valid.
Proof.
  apply (codec_laws_intro valid (λ k,
    get_encoding (certtypes k) ++ get_encoding (sigschemes k) ++ get_encoding (canames k))).
  - intros. cbn [encode codec]. by encode_steps.
  - intros [c s n] rest (Hc & Hs & Hn). cbn [read codec certtypes sigschemes canames] in *.
    read_steps. rewrite decide_False; [done|].
    intros ->. destruct Hs as [_ [_ []]]. done.
Qed.

#[global] Instance total : TotalRead t.
Proof. unfold TotalRead. cbn [read codec]. auto 8 with total. Qed.
End CertificateRequestPayload.

Module CertificateRequestExtensions.
(* @src rustls/src/msgs/handshake.rs 1100-1109 CertificateRequestExtensions *)
Record t := mk {
  signature_algorithms : option (list SignatureScheme.t);
  authority_names : option (list DistinguishedName.t);
  certificate_compression_algorithms : option (list CertificateCompressionAlgorithm.t);
}.

(* @src rustls/src/msgs/handshake.rs 1100-1109 CertificateRequestExtensions *)
#[global] Instance struct : ExtensionStruct t := {
  struct_name := "CertificateRequestExtensions";
  es_default := mk None None None;
  fields := [
    Field ExtensionType.SignatureAlgorithms signature_algorithms
      (λ v s, mk v (authority_names s) (certificate_compression_algorithms s))
      (vec_valid (λ x, is_u16 (SignatureScheme.val x)));
    Field ExtensionType.CertificateAuthorities authority_names
      (λ v s, mk (signature_algorithms s) v (certificate_compression_algorithms s))
      (vec_valid DistinguishedName.valid);
    Field ExtensionType.CompressCertificate certificate_compression_algorithms
      (λ v s, mk (signature_algorithms s) (authority_names s) v)
      (vec_valid (λ x, is_u16 (CertificateCompressionAlgorithm.val x)))
  ];
}.

#[global] Instance struct_laws : ExtensionLaws t (λ _, tt).
Proof. solve_extension_laws. Qed.

(* @src rustls/src/msgs/handshake.rs 1113-1126 CertificateRequestExtensions::UNPROCESSED *)
Definition UNPROCESSED : list ExtensionType.t :=
  [ExtensionType.ServerName; ExtensionType.StatusRequest; ExtensionType.SCT;
   ExtensionType.OIDFilters; ExtensionType.SignatureAlgorithmsCert].

(* @src rustls/src/msgs/handshake.rs 1129-1167 Codec_for_CertificateRequestExtensions *)
#[global] Instance codec : Codec t := {
  encode self bytes := encode_block (ALL_EXTENSIONS (S:=t)) self bytes;
  read :=
    '(out, _) ← read_block
      (λ unknown checker,
        DuplicateExtensionChecker.check_unprocessed unknown UNPROCESSED checker)
      no_check DuplicateExtensionChecker.new;
    match signature_algorithms out, authority_names out with
    | Some [], _ => reader_fail InvalidMessage.NoSignatureSchemes
    | _, Some [] => reader_fail InvalidMessage.IllegalEmptyCertificateAuthoritiesExtension
    | _, _ => mret out
    end;
}.

Definition valid (e : t) : Prop :=
  plain_valid (λ _, tt) e ∧ authority_names e ≠ Some [].

#[global] Instance laws : CodecLaws t valid.
Proof.
  apply (codec_laws_intro valid (λ s, encode_block ALL_EXTENSIONS s [])).
  - intros s bytes. apply (encode_block_app (λ _, tt)).
  - intros s rest [Hv Hn]. cbn [read codec]. rewrite (bind_read_plain (λ _, tt)) by done.
    destruct Hv as [Hv _]. apply Forall_cons in Hv as [Hs _]. cbn in Hs.
    destruct (signature_algorithms s) as [[|x l]|];
      [by destruct Hs as [[_ [_ []]] _]|by destruct (authority_names s) as [[]|]..].
Qed.

#[global] Instance total : TotalRead t.
Proof.
  unfold TotalRead. cbn [read codec]. apply total_bind.
  - apply (total_read_block (λ _, tt)); [|done]. intros. apply check_unprocessed_total.
  - intros [s c]. by destruct (signature_algorithms s) as [[]|], (authority_names s) as [[]|].
Qed.
End CertificateRequestExtensions.

Module CertificateRequestPayloadTls13.
(* @src rustls/src/msgs/handshake.rs 1169-1173 CertificateRequestPayloadTls13 *)
Record t := mk {
  context : SizedPayload PayloadSize.U8 Cardinality.MaybeEmpty;
  extensions : CertificateRequestExtensions.t;
}.

(* @src rustls/src/msgs/handshake.rs 1175-1190 Codec_for_CertificateRequestPayloadTls13 *)
#[global] Instance codec : Codec t := {
  encode self bytes := encode (extensions self) (encode (context self) bytes);
  read := context ← read; extensions ← read; mret (mk context extensions);
}.

Definition valid (p : t) : Prop :=
  sized_valid (context p) ∧ CertificateRequestExtensions.valid (extensions p).

#[global] Instance laws : CodecLaws t valid.
Proof.
  apply (codec_laws_intro valid (λ k, get_encoding (context k) ++ get_encoding (extensions k))).
  - intros. cbn [encode codec]. by encode_steps.
  - intros [c e] rest [Hc He]. cbn [read codec context extensions] in *. by read_steps.
Qed.

#[global] Instance total : TotalRead t.
Proof. unfold TotalRead. cbn [read codec]. auto with total. Qed.
End CertificateRequestPayloadTls13.

(** ** Session tickets *)

Module Duration.
(** [core::time::Duration]. *)
Record t := mk { as_secs : Z; subsec_nanos : Z }.
Definition from_secs (secs : Z) : t := mk secs 0.
End Duration.

Module NewSessionTicketPayload.
(* @src rustls/src/msgs/handshake.rs 1192-1200 NewSessionTicketPayload *)
Record t := mk {
  lifetime_hint : Duration.t;
  ticket : SizedPayload PayloadSize.U16 Cardinality.MaybeEmpty;
}.

(* @src rustls/src/msgs/handshake.rs 1203-1208 NewSessionTicketPayload::new *)
Definition new (lifetime_hint : Duration.t) (ticket : list u8) : t :=
  mk lifetime_hint (mkSizedPayload ticket).

(* @src rustls/src/msgs/handshake.rs 1211-1223 Codec_for_NewSessionTicketPayload *)
#[global] Instance codec : Codec t := {
  encode self bytes :=
    encode (ticket self) (u32_encode (wrapN 32 (Duration.as_secs (lifetime_hint self))) bytes);
  read := secs ← u32_read; ticket ← read; mret (mk (Duration.from_secs secs) ticket);
}.

(** The lifetime is a whole number of seconds that fits. *)
Definition lifetime_valid (d : Duration.t) : Prop :=
  is_u32 (Duration.as_secs d) ∧ Duration.subsec_nanos d = 0%Z.

Definition valid (p : t) : Prop := lifetime_valid (lifetime_hint p) ∧ sized_valid (ticket p).

#[global] Instance laws : CodecLaws t valid.
Proof.
  apply (codec_laws_intro valid (λ k,
    be_bytes 4 (wrapN 32 (Duration.as_secs (lifetime_hint k))) ++ get_encoding (ticket k))).
  - intros. cbn [encode codec]. by encode_steps.
  - intros [[s n] k] rest [[Hs Hn] Hk]. cbn [read codec lifetime_hint ticket] in *.
    cbn [Duration.as_secs Duration.subsec_nanos] in *. subst n.
    rewrite wrapN_small by apply Hs. by read_steps.
Qed.

#[global] Instance total : TotalRead t.
Proof. unfold TotalRead. cbn [read codec]. auto with total. Qed.
End NewSessionTicketPayload.

(* @src rustls/src/msgs/codec.rs 376-385 Codec_for_u32 *)
Definition u32_codec : Codec Z := {| encode := u32_encode; read := u32_read |}.

#[global] Instance u32_laws : @CodecLaws Z u32_codec is_u32.
Proof.
  apply (@codec_laws_intro Z u32_codec is_u32 (be_bytes 4)); [done|].
  intros v rest Hv. by apply u32_read_app.
Qed.

#[global] Instance u32_total : @TotalRead Z u32_codec := total_u32.

Module NewSessionTicketExtensions.
(* @src rustls/src/msgs/handshake.rs 1227-1230 NewSessionTicketExtensions *)
Record t := mk { max_early_data_size : option Z }.

(* @src rustls/src/msgs/handshake.rs 1227-1230 NewSessionTicketExtensions *)
#[global] Instance struct : ExtensionStruct t := {
  struct_name := "NewSessionTicketExtensions";
  es_default := mk None;
  fields := [@Field t ExtensionType.EarlyData Z u32_codec max_early_data_size (λ v _, mk v) is_u32];
}.

#[global] Instance struct_laws : ExtensionLaws t (λ _, tt).
Proof. solve_extension_laws. Qed.

(* @src rustls/src/msgs/handshake.rs 1233-1260 Codec_for_NewSessionTicketExtensions *)
#[global] Instance codec : Codec t := {
  encode self bytes := encode_block (ALL_EXTENSIONS (S:=t)) self bytes;
  read :=
    '(out, _) ← read_block
      (λ unknown checker, DuplicateExtensionChecker.check_unprocessed unknown [] checker)
      no_check DuplicateExtensionChecker.new;
    mret out;
}.

Definition valid : t → Prop := plain_valid (λ _, tt).

#[global] Instance laws : CodecLaws t valid.
Proof.
  apply (codec_laws_intro valid (λ s, encode_block ALL_EXTENSIONS s [])).
  - intros s bytes. apply (encode_block_app (λ _, tt)).
  - intros s rest Hv. cbn [read codec]. by rewrite (bind_read_plain (λ _, tt)).
Qed.

#[global] Instance total : TotalRead t.
Proof.
  unfold TotalRead. cbn [read codec]. apply total_bind; [|by intros []].
  apply (total_read_block (λ _, tt)); [|done]. intros. apply check_unprocessed_total.
Qed.
End NewSessionTicketExtensions.

Module NewSessionTicketPayloadTls13.
(* @src rustls/src/msgs/handshake.rs 1262-1269 NewSessionTicketPayloadTls13 *)
Record t := mk {
  lifetime : Duration.t;
  age_add : Z;
  nonce : SizedPayload PayloadSize.U8 Cardinality.MaybeEmpty;
  ticket : SizedPayload PayloadSize.U16 Cardinality.MaybeEmpty;
  extensions : NewSessionTicketExtensions.t;
}.

(* @src rustls/src/msgs/handshake.rs 1272-1280 NewSessionTicketPayloadTls13::new *)
Definition new (lifetime : Duration.t) (age_add : Z) (nonce ticket : list u8) : t :=
  mk lifetime age_add (mkSizedPayload nonce) (mkSizedPayload ticket) es_default.

(* @src rustls/src/msgs/handshake.rs 1283-1312 Codec_for_NewSessionTicketPayloadTls13 *)
#[global] Instance codec : Codec t := {
  encode self bytes :=
    let bytes := u32_encode (wrapN 32 (Duration.as_secs (lifetime self))) bytes in
    let bytes := u32_encode (age_add self) bytes in
    let bytes := encode (nonce self) bytes in
    let bytes := encode (ticket self) bytes in
    encode (extensions self) bytes;
  read :=
    secs ← u32_read;
    age_add ← u32_read;
    nonce ← read;
    ticket ← (λ r, match (read : reader (SizedPayload PayloadSize.U16 Cardinality.NonEmpty)) r with
                   | Err (InvalidMessage.IllegalEmptyList _) => Err InvalidMessage.EmptyTicketValue
                   | Err err => Err err
                   | Ok (pl, r) => Ok (mkSizedPayload (sp_inner pl), r)
                   | Panic => Panic
                   end);
    extensions ← read;
    mret (mk (Duration.from_secs secs) age_add nonce ticket extensions);
}.

(** A ticket is not empty. *)
Definition valid (p : t) : Prop :=
  NewSessionTicketPayload.lifetime_valid (lifetime p) ∧ is_u32 (age_add p) ∧
  sized_valid (nonce p) ∧ sized_valid (ticket p) ∧ sp_inner (ticket p) ≠ [] ∧
  NewSessionTicketExtensions.valid (extensions p).

Lemma read_as_nonempty (p : SizedPayload PayloadSize.U16 Cardinality.MaybeEmpty) rest :
  sized_valid p → sp_inner p ≠ [] →
  (read : reader (SizedPayload PayloadSize.U16 Cardinality.NonEmpty)) (get_encoding p ++ rest)
    = Ok (mkSizedPayload (sp_inner p), rest).
Proof.
  intros [_ Hl] Hn. destruct p as [p]. cbn [sp_inner] in *.
  pose (q := mkSizedPayload p : SizedPayload PayloadSize.U16 Cardinality.NonEmpty).
  change (get_encoding (mkSizedPayload p)) with (get_encoding q). apply (read_encode q).
  split; cbn [sp_inner]; [|done]. destruct p; [done|simpl; lia].
Qed.

#[global] Instance laws : CodecLaws t valid.
Proof.
  apply (codec_laws_intro valid (λ k,
    be_bytes 4 (wrapN 32 (Duration.as_secs (lifetime k))) ++ be_bytes 4 (age_add k)
    ++ get_encoding (nonce k) ++ get_encoding (ticket k) ++ get_encoding (extensions k))).
  - intros. cbn [encode codec]. by encode_steps.
  - intros [[s z] a n k e] rest ([Hs Hz] & Ha & Hn & Hk & Hk0 & He).
    cbn [read codec lifetime age_add nonce ticket extensions] in *.
    cbn [Duration.as_secs Duration.subsec_nanos] in *. subst z.
    rewrite wrapN_small by apply Hs. read_steps.
    unfold mbind at 1, reader_bind at 1. rewrite read_as_nonempty by done.
    read_steps. by destruct k.
Qed.

#[global] Instance total : TotalRead t.
Proof.
  unfold TotalRead. cbn [read codec]. do 3 (apply total_bind; [auto with total|intros ?]).
  apply total_bind; [|auto with total]. intros bs.
  pose proof (read_total (T:=SizedPayload PayloadSize.U16 Cardinality.NonEmpty) bs).
  by destruct (read bs) as [[]|[]|].
Qed.
End NewSessionTicketPayloadTls13.

(** ** Names

    [pki_types] decides what a DNS name is; a [DnsName] is represented by its
    bytes. *)
Inductive ServerNameKind := KindDnsName | KindIpAddress | KindOther.

Class PkiTypes := {
  (** [DnsName::try_from(bytes).is_ok()] *)
  dns_name_ok : list u8 → bool;
  (** the variant of [ServerName::try_from(bytes)], [KindOther] for an error *)
  server_name_kind : list u8 → ServerNameKind;
  (** [DnsName::to_lowercase_owned] *)
  dns_to_lowercase : list u8 → list u8;
}.
