(* ===== verification/ServerHello.v ===== *)
(** * ServerHello and EncryptedExtensions ([rustls/src/msgs/server_hello.rs])

    The server's first messages, their extension blocks and the ECH
    configurations they can carry. *)
From stdpp Require Import gmap.
From S2P Require Import Prelude Enums Errors Codec Extensions Payloads.

(** ** ECH configurations *)

Module HpkeSymmetricCipherSuite.
(* @src rustls/src/crypto/hpke.rs 139-147 HpkeSymmetricCipherSuite *)
Record t := mk { kdf_id : HpkeKdf.t; aead_id : HpkeAead.t }.

(* @src rustls/src/crypto/hpke.rs 149-161 Codec_for_HpkeSymmetricCipherSuite *)
#[global] Instance codec : Codec t := {
  encode self bytes := encode (aead_id self) (encode (kdf_id self) bytes);
  read := kdf_id ← read; aead_id ← read; mret (mk kdf_id aead_id);
}.

(* @src rustls/src/crypto/hpke.rs 165-167 HpkeSymmetricCipherSuite::SIZE_LEN *)
#[global] Instance list_element : TlsListElement t :=
  ListLength.NonZeroU16 (InvalidMessage.IllegalEmptyList "HpkeSymmetricCipherSuites").

Definition valid (s : t) : Prop :=
  is_u16 (HpkeKdf.val (kdf_id s)) ∧ is_u16 (HpkeAead.val (aead_id s)).

#[global] Instance laws : CodecLaws t valid.
Proof.
  apply (codec_laws_intro valid (λ k, get_encoding (kdf_id k) ++ get_encoding (aead_id k))).
  - intros. cbn [encode codec]. by encode_steps.
  - intros [k a] rest [Hk Ha]. cbn [read codec kdf_id aead_id] in *. by read_steps.
Qed.

#[global] Instance canonical : CanonicalCodec t valid.
Proof.
  split. intros bs s rest H. cbn [read codec] in H. reader_inv.
  repeat match goal with H : read _ = Ok _ |- _ => apply read_inv in H as [? ->] end.
  split; [done|]. unfold get_encoding at 3. cbn [encode codec kdf_id aead_id]. by encode_steps.
Qed.

#[global] Instance nonempty : NonEmptyEncoding t valid.
Proof.
  intros s _ H. unfold get_encoding in H. cbn [encode codec] in H. revert H. encode_steps.
  intros H%app_nil. by destruct H.
Qed.

#[global] Instance total : TotalRead t.
Proof. unfold TotalRead. cbn [read codec]. auto with total. Qed.
End HpkeSymmetricCipherSuite.

Module HpkeKeyConfig.
(* @src rustls/src/msgs/server_hello.rs 490-497 HpkeKeyConfig *)
Record t := mk {
  config_id : u8;
  kem_id : HpkeKem.t;
  public_key : SizedPayload PayloadSize.U16 Cardinality.NonEmpty;
  symmetric_cipher_suites : list HpkeSymmetricCipherSuite.t;
}.

(* @src rustls/src/msgs/server_hello.rs 499-516 Codec_for_HpkeKeyConfig *)
#[global] Instance codec : Codec t := {
  encode self bytes :=
    let bytes := encode (config_id self) bytes in
    let bytes := encode (kem_id self) bytes in
    let bytes := encode (public_key self) bytes in
    encode (symmetric_cipher_suites self) bytes;
  read :=
    config_id ← read; kem_id ← read; public_key ← read; symmetric_cipher_suites ← read;
    mret (mk config_id kem_id public_key symmetric_cipher_suites);
}.

Definition valid (c : t) : Prop :=
  is_u16 (HpkeKem.val (kem_id c)) ∧ sized_valid (public_key c) ∧
  vec_valid HpkeSymmetricCipherSuite.valid (symmetric_cipher_suites c).

#[global] Instance laws : CodecLaws t valid.
Proof.
  apply (codec_laws_intro valid (λ c, get_encoding (config_id c) ++ get_encoding (kem_id c)
    ++ get_encoding (public_key c) ++ get_encoding (symmetric_cipher_suites c))).
  - intros. cbn [encode codec]. by encode_steps.
  - intros [i k p s] rest (Hk & Hp & Hs).
    cbn [read codec config_id kem_id public_key symmetric_cipher_suites] in *. by read_steps.
Qed.

#[global] Instance total : TotalRead t.
Proof. unfold TotalRead. cbn [read codec]. auto with total. Qed.
End HpkeKeyConfig.

Module EchConfigExtension.
(** The single variant [Unknown(UnknownExtension)]. *)
(* @src rustls/src/msgs/server_hello.rs 558-562 UnknownExtension *)
Record t := Unknown { typ : ExtensionType.t; payload : Payload }.

(* @src rustls/src/msgs/server_hello.rs 524-528 EchConfigExtension::ext_type *)
Definition ext_type (self : t) : ExtensionType.t := typ self.

(* @src rustls/src/msgs/server_hello.rs 531-552 Codec_for_EchConfigExtension *)
#[global] Instance codec : Codec t := {
  encode self bytes :=
    let bytes := encode (ext_type self) bytes in
    LengthPrefixedBuffer.nest ListLength.U16 (λ buf, encode (payload self) buf) bytes;
  read :=
    typ ← (read : reader ExtensionType.t);
    len ← u16_read;
    sub ← Reader.sub (Z.to_nat len);
    Reader.within sub (Reader.all "EchConfigExtension"
      (p ← (read : reader Payload); mret (Unknown typ p)));
}.

(* @src rustls/src/msgs/server_hello.rs 555 EchConfigExtension::SIZE_LEN *)
#[global] Instance list_element : TlsListElement t := ListLength.U16.

Definition valid (e : t) : Prop := tlv_ok (typ e, payload e).

Lemma ech_extension_app e bytes : encode e bytes = bytes ++ tlv (typ e, payload e).
Proof.
  cbn [encode codec]. unfold ext_type, tlv. cbn [fst snd].
  rewrite (nest_spec _ _ _ (payload e)) by done. rewrite encode_app. by rewrite <-(assoc_L (++)).
Qed.

Lemma ech_extension_enc e : get_encoding e = tlv (typ e, payload e).
Proof. apply (ech_extension_app e []). Qed.

#[global] Instance laws : CodecLaws t valid.
Proof.
  apply (codec_laws_intro valid (λ e, tlv (typ e, payload e))); [apply ech_extension_app|].
  intros [ty p] rest [Ht Hp]. cbn [read codec typ payload fst snd] in *. unfold tlv.
  cbn [fst snd]. change (be_bytes 2 (ExtensionType.val ty)) with (get_encoding ty).
  read_steps. rewrite bind_u16_app by (unfold is_u16; lia). by rewrite Nat2Z.id, bind_sub_app.
Qed.

#[global] Instance canonical : CanonicalCodec t valid.
Proof.
  split. intros bs e rest H. cbn [read codec] in H. reader_inv.
  match goal with H : read _ = Ok _ |- _ => apply read_inv in H as [? ->] end.
  unfold is_u16 in *. injection H as <- ->. split.
  - split; cbn [fst snd typ payload]; [done|lia].
  - rewrite ech_extension_enc. unfold tlv. cbn [fst snd typ payload].
    match goal with H : length _ = Z.to_nat _ |- _ => rewrite H end.
    rewrite Z2Nat.id by lia. by rewrite <-!(assoc_L (++)).
Qed.

#[global] Instance nonempty : NonEmptyEncoding t valid.
Proof.
  intros e _ H%(f_equal length). rewrite ech_extension_enc, length_tlv in H. simpl in H. lia.
Qed.

#[global] Instance total : TotalRead t.
Proof. unfold TotalRead. cbn [read codec]. auto 8 with total. Qed.
End EchConfigExtension.

Module EchConfigContents.
(* @src rustls/src/msgs/server_hello.rs 438-444 EchConfigContents *)
Record t := mk {
  key_config : HpkeKeyConfig.t;
  maximum_name_length : u8;
  public_name : list u8;
  extensions : list EchConfigExtension.t;
}.

(* @src rustls/src/msgs/server_hello.rs 447-455 EchConfigContents::has_duplicate_extension *)
Definition has_duplicate_extension (self : t) : bool :=
  has_duplicates ((λ ext, ExtensionType.val (EchConfigExtension.ext_type ext)) <$> extensions self).

(* @src rustls/src/msgs/server_hello.rs 457-463 EchConfigContents::has_unknown_mandatory_extension *)
Definition has_unknown_mandatory_extension (self : t) : bool :=
  existsb (λ ext, negb (Z.eqb (Z.land (ExtensionType.val (EchConfigExtension.ext_type ext))
                                 0x8000) 0)) (extensions self).

Section codec.
Context `{!PkiTypes}.

(* @src rustls/src/msgs/server_hello.rs 466-488 Codec_for_EchConfigContents *)
#[global] Instance codec : Codec t := {
  encode self bytes :=
    let bytes := encode (key_config self) bytes in
    let bytes := encode (maximum_name_length self) bytes in
    let bytes := encode (mkSizedPayload (L:=PayloadSize.U8) (C:=Cardinality.MaybeEmpty)
                           (public_name self)) bytes in
    encode (extensions self) bytes;
  read :=
    key_config ← read;
    maximum_name_length ← read;
    name ← (read : reader (SizedPayload PayloadSize.U8 Cardinality.MaybeEmpty));
    public_name ← (if dns_name_ok (sp_inner name) then mret (sp_inner name)
                   else reader_fail InvalidMessage.InvalidServerName);
    extensions ← read;
    mret (mk key_config maximum_name_length public_name extensions);
}.

Definition valid (c : t) : Prop :=
  HpkeKeyConfig.valid (key_config c) ∧ (Z.of_nat (length (public_name c)) <= 255)%Z ∧
  dns_name_ok (public_name c) = true ∧ vec_valid EchConfigExtension.valid (extensions c).

#[global] Instance laws : CodecLaws t valid.
Proof.
  apply (codec_laws_intro valid (λ c, get_encoding (key_config c)
    ++ get_encoding (maximum_name_length c)
    ++ get_encoding (mkSizedPayload (L:=PayloadSize.U8) (C:=Cardinality.MaybeEmpty) (public_name c))
    ++ get_encoding (extensions c))).
  - intros. cbn [encode codec]. by encode_steps.
  - intros [k m n e] rest (Hk & Hl & Hn & He).
    cbn [read codec key_config maximum_name_length public_name extensions] in *. read_steps.
    rewrite bind_read_encode by (by split; [simpl; lia|]). cbn [sp_inner]. rewrite Hn.
    unfold mbind at 1, reader_bind at 1, mret at 1, reader_ret at 1. by read_steps.
Qed.

#[global] Instance total : TotalRead t.
Proof.
  unfold TotalRead. cbn [read codec]. do 3 (apply total_bind; [auto with total|intros ?]).
  apply total_bind; [by destruct dns_name_ok|auto with total].
Qed.
End codec.
End EchConfigContents.

Module EchConfigPayload.
(* @src rustls/src/msgs/server_hello.rs 383-394 EchConfigPayload *)
Inductive t :=
  | V18 (c : EchConfigContents.t)
  | Unknown (version : EchVersion.t) (contents : SizedPayload PayloadSize.U16 Cardinality.MaybeEmpty).

(* @src rustls/src/msgs/server_hello.rs 397 EchConfigPayload::SIZE_LEN *)
#[global] Instance list_element : TlsListElement t := ListLength.U16.

Section codec.
Context `{!PkiTypes}.

(* @src rustls/src/msgs/server_hello.rs 400-436 Codec_for_EchConfigPayload *)
#[global] Instance codec : Codec t := {
  encode self bytes :=
    match self with
    | V18 c =>
        LengthPrefixedBuffer.nest ListLength.U16 (λ buf, encode c buf) (encode EchVersion.V18 bytes)
    | Unknown version contents => encode contents (encode version bytes)
    end;
  read :=
    version ← (read : reader EchVersion.t);
    length ← u16_read;
    contents ← Reader.sub (Z.to_nat length);
    if decide (version = EchVersion.V18) then
      Reader.within contents
        (V18 <$> Reader.all "EchConfigContents" (read : reader EchConfigContents.t))
    else Reader.within contents ((λ data, Unknown version (mkSizedPayload data)) <$> Reader.rest);
}.

Definition valid (p : t) : Prop :=
  match p with
  | V18 c => EchConfigContents.valid c ∧ (Z.of_nat (length (get_encoding c)) < 2 ^ 16)%Z
  | Unknown version contents =>
      is_u16 (EchVersion.val version) ∧ version ≠ EchVersion.V18 ∧ sized_valid contents
  end.

#[global] Instance laws : CodecLaws t valid.
Proof.
  apply (codec_laws_intro valid (λ p,
    match p with
    | V18 c => get_encoding EchVersion.V18 ++ be_bytes 2 (Z.of_nat (length (get_encoding c)))
                 ++ get_encoding c
    | Unknown version contents => get_encoding version
        ++ be_bytes 2 (Z.of_nat (length (sp_inner contents))) ++ sp_inner contents
    end)).
  - intros [c|v [p]] bytes; cbn [encode codec].
    + rewrite (nest_spec _ _ _ (get_encoding c)) by (intros; apply encode_app).
      rewrite encode_app. by rewrite <-(assoc_L (++)).
    + rewrite (encode_app v). cbn [encode SizedPayload_codec sp_inner]. rewrite size_encode.
      by rewrite <-!(assoc_L (++)).
  - intros [c|v [p]] rest Hv; cbn [read codec sp_inner].
    + destruct Hv as [Hc Hl]. rewrite <-!(assoc_L (++)).
      rewrite bind_read_encode by (vm_compute; split; congruence).
      rewrite bind_u16_app by (unfold is_u16; lia). rewrite Nat2Z.id, bind_sub_app by done.
      rewrite decide_True by done. unfold Reader.within, fmap, reader_fmap, Reader.all.
      rewrite <-(app_nil_r (get_encoding c)). by rewrite read_encode.
    + destruct Hv as (Hu & Hne & [_ Hl]). cbn [sp_inner PayloadSize.MAX] in Hl. read_steps.
      rewrite bind_u16_app by (unfold is_u16; lia). rewrite Nat2Z.id, bind_sub_app by done.
      by rewrite decide_False.
Qed.

#[global] Instance nonempty : NonEmptyEncoding t valid.
Proof.
  intros p Hv Hn. pose proof (read_encode p [] Hv) as Hr. by rewrite Hn in Hr.
Qed.

#[global] Instance total : TotalRead t.
Proof. unfold TotalRead. cbn [read codec]. auto 8 with total. Qed.

#[global] Instance progress : ElementProgress (T:=t).
Proof.
  apply shrinks_progress. cbn [read codec]. apply shrinks_bind; [eapply shrinks_canonical; apply _|].
  intros v. apply shrinks_bind; [auto with shrinks|]. intros l. apply shrinks_bind; [auto with shrinks|].
  auto with shrinks.
Qed.
End codec.
End EchConfigPayload.

(** ** Extension blocks *)

Module ServerEncryptedClientHello.
(* @src rustls/src/msgs/server_hello.rs 362-369 ServerEncryptedClientHello *)
Record t := mk { retry_configs : list EchConfigPayload.t }.

Section codec.
Context `{!PkiTypes}.

(* @src rustls/src/msgs/server_hello.rs 371-381 Codec_for_ServerEncryptedClientHello *)
#[global] Instance codec : Codec t := {
  encode self bytes := encode (retry_configs self) bytes;
  read := retry_configs ← (read : reader (list EchConfigPayload.t)); mret (mk retry_configs);
}.

Definition valid (s : t) : Prop := vec_valid EchConfigPayload.valid (retry_configs s).

#[global] Instance laws : CodecLaws t valid.
Proof.
  apply (codec_laws_intro valid (λ s, get_encoding (retry_configs s))).
  - intros. cbn [encode codec]. by encode_steps.
  - intros [l] rest Hl. unfold valid in Hl. cbn [read codec retry_configs] in *. by read_steps.
Qed.

#[global] Instance total : TotalRead t.
Proof. unfold TotalRead. cbn [read codec]. auto with total. Qed.
End codec.
End ServerEncryptedClientHello.

Module ServerTicketRequestHint.
(* @src rustls/src/msgs/server_hello.rs 575-579 ServerTicketRequestHint *)
Record t := mk { expected_count : u8 }.

(* @src rustls/src/msgs/server_hello.rs 581-591 Codec_for_ServerTicketRequestHint *)
#[global] Instance codec : Codec t := {
  encode self bytes := encode (expected_count self) bytes;
  read := expected_count ← (read : reader u8); mret (mk expected_count);
}.

#[global] Instance laws : CodecLaws t (λ _, True).
Proof. split; [done|]. by intros [c] rest _. Qed.

#[global] Instance total : TotalRead t.
Proof. unfold TotalRead. cbn [read codec]. auto with total. Qed.
End ServerTicketRequestHint.

(* @src rustls/src/msgs/codec.rs 339-350 Codec_for_u16 *)
Definition u16_codec : Codec Z := {| encode := u16_encode; read := u16_read |}.

#[global] Instance u16_laws : @CodecLaws Z u16_codec is_u16.
Proof.
  apply (@codec_laws_intro Z u16_codec is_u16 (be_bytes 2)); [done|].
  intros v rest Hv. by apply u16_read_app.
Qed.

#[global] Instance u16_total : @TotalRead Z u16_codec := total_u16.

Module ServerExtensions.
(* @src rustls/src/msgs/server_hello.rs 100-165 ServerExtensions *)
Record t := mk {
  ec_point_formats : option SupportedEcPointFormats.t;
  server_name_ack : option unit;
  session_ticket_ack : option unit;
  renegotiation_info : option (SizedPayload PayloadSize.U8 Cardinality.MaybeEmpty);
  selected_protocol : option SingleProtocolName.t;
  key_share : option KeyShareEntry.t;
  preshared_key : option Z;
  client_certificate_type : option CertificateType.t;
  server_certificate_type : option CertificateType.t;
  extended_main_secret_ack : option unit;
  certificate_status_request_ack : option unit;
  selected_version : option ProtocolVersion.t;
  transport_parameters : option Payload;
  early_data_ack : option unit;
  ticket_request : option ServerTicketRequestHint.t;
  encrypted_client_hello_ack : option ServerEncryptedClientHello.t;
  unknown_extensions : gset Z;
}.

Section struct.
Context `{!PkiTypes}.

(* @src rustls/src/msgs/server_hello.rs 100-165 ServerExtensions *)
#[global] Instance struct : ExtensionStruct t := {
  struct_name := "ServerExtensions";
  es_default := mk None None None None None None None None None None None None None None None None
    ∅;
  fields := [
    Field ExtensionType.ECPointFormats ec_point_formats
      (λ v s, mk v (server_name_ack s) (session_ticket_ack s) (renegotiation_info s)
           (selected_protocol s) (key_share s) (preshared_key s)
           (client_certificate_type s) (server_certificate_type s)
           (extended_main_secret_ack s) (certificate_status_request_ack s)
           (selected_version s) (transport_parameters s) (early_data_ack s)
           (ticket_request s) (encrypted_client_hello_ack s) (unknown_extensions s))
      SupportedEcPointFormats.valid;
    Field ExtensionType.ServerName server_name_ack
      (λ v s, mk (ec_point_formats s) v (session_ticket_ack s) (renegotiation_info s)
           (selected_protocol s) (key_share s) (preshared_key s)
           (client_certificate_type s) (server_certificate_type s)
           (extended_main_secret_ack s) (certificate_status_request_ack s)
           (selected_version s) (transport_parameters s) (early_data_ack s)
           (ticket_request s) (encrypted_client_hello_ack s) (unknown_extensions s))
      (λ _, True);
    Field ExtensionType.SessionTicket session_ticket_ack
      (λ v s, mk (ec_point_formats s) (server_name_ack s) v (renegotiation_info s)
           (selected_protocol s) (key_share s) (preshared_key s)
           (client_certificate_type s) (server_certificate_type s)
           (extended_main_secret_ack s) (certificate_status_request_ack s)
           (selected_version s) (transport_parameters s) (early_data_ack s)
           (ticket_request s) (encrypted_client_hello_ack s) (unknown_extensions s))
      (λ _, True);
    Field ExtensionType.RenegotiationInfo renegotiation_info
      (λ v s, mk (ec_point_formats s) (server_name_ack s) (session_ticket_ack s) v
           (selected_protocol s) (key_share s) (preshared_key s)
           (client_certificate_type s) (server_certificate_type s)
           (extended_main_secret_ack s) (certificate_status_request_ack s)
           (selected_version s) (transport_parameters s) (early_data_ack s)
           (ticket_request s) (encrypted_client_hello_ack s) (unknown_extensions s))
      sized_valid;
    Field ExtensionType.ALProtocolNegotiation selected_protocol
      (λ v s, mk (ec_point_formats s) (server_name_ack s) (session_ticket_ack s)
           (renegotiation_info s) v (key_share s) (preshared_key s)
           (client_certificate_type s) (server_certificate_type s)
           (extended_main_secret_ack s) (certificate_status_request_ack s)
           (selected_version s) (transport_parameters s) (early_data_ack s)
           (ticket_request s) (encrypted_client_hello_ack s) (unknown_extensions s))
      SingleProtocolName.valid;
    Field ExtensionType.KeyShare key_share
      (λ v s, mk (ec_point_formats s) (server_name_ack s) (session_ticket_ack s)
           (renegotiation_info s) (selected_protocol s) v (preshared_key s)
           (client_certificate_type s) (server_certificate_type s)
           (extended_main_secret_ack s) (certificate_status_request_ack s)
           (selected_version s) (transport_parameters s) (early_data_ack s)
           (ticket_request s) (encrypted_client_hello_ack s) (unknown_extensions s))
      KeyShareEntry.valid;
    @Field t ExtensionType.PreSharedKey Z u16_codec preshared_key
      (λ v s, mk (ec_point_formats s) (server_name_ack s) (session_ticket_ack s)
           (renegotiation_info s) (selected_protocol s) (key_share s) v
           (client_certificate_type s) (server_certificate_type s)
           (extended_main_secret_ack s) (certificate_status_request_ack s)
           (selected_version s) (transport_parameters s) (early_data_ack s)
           (ticket_request s) (encrypted_client_hello_ack s) (unknown_extensions s))
      is_u16;
    Field ExtensionType.ClientCertificateType client_certificate_type
      (λ v s, mk (ec_point_formats s) (server_name_ack s) (session_ticket_ack s)
           (renegotiation_info s) (selected_protocol s) (key_share s) (preshared_key s) v
           (server_certificate_type s) (extended_main_secret_ack s)
           (certificate_status_request_ack s) (selected_version s) (transport_parameters s)
           (early_data_ack s) (ticket_request s) (encrypted_client_hello_ack s)
           (unknown_extensions s))
      (λ _, True);
    Field ExtensionType.ServerCertificateType server_certificate_type
      (λ v s, mk (ec_point_formats s) (server_name_ack s) (session_ticket_ack s)
           (renegotiation_info s) (selected_protocol s) (key_share s) (preshared_key s)
           (client_certificate_type s) v (extended_main_secret_ack s)
           (certificate_status_request_ack s) (selected_version s) (transport_parameters s)
           (early_data_ack s) (ticket_request s) (encrypted_client_hello_ack s)
           (unknown_extensions s))
      (λ _, True);
    Field ExtensionType.ExtendedMainSecret extended_main_secret_ack
      (λ v s, mk (ec_point_formats s) (server_name_ack s) (session_ticket_ack s)
           (renegotiation_info s) (selected_protocol s) (key_share s) (preshared_key s)
           (client_certificate_type s) (server_certificate_type s) v
           (certificate_status_request_ack s) (selected_version s) (transport_parameters s)
           (early_data_ack s) (ticket_request s) (encrypted_client_hello_ack s)
           (unknown_extensions s))
      (λ _, True);
    Field ExtensionType.StatusRequest certificate_status_request_ack
      (λ v s, mk (ec_point_formats s) (server_name_ack s) (session_ticket_ack s)
           (renegotiation_info s) (selected_protocol s) (key_share s) (preshared_key s)
           (client_certificate_type s) (server_certificate_type s)
           (extended_main_secret_ack s) v (selected_version s) (transport_parameters s)
           (early_data_ack s) (ticket_request s) (encrypted_client_hello_ack s)
           (unknown_extensions s))
      (λ _, True);
    Field ExtensionType.SupportedVersions selected_version
      (λ v s, mk (ec_point_formats s) (server_name_ack s) (session_ticket_ack s)
           (renegotiation_info s) (selected_protocol s) (key_share s) (preshared_key s)
           (client_certificate_type s) (server_certificate_type s)
           (extended_main_secret_ack s) (certificate_status_request_ack s) v
           (transport_parameters s) (early_data_ack s) (ticket_request s)
           (encrypted_client_hello_ack s) (unknown_extensions s))
      (λ v, is_u16 (ProtocolVersion.val v));
    Field ExtensionType.TransportParameters transport_parameters
      (λ v s, mk (ec_point_formats s) (server_name_ack s) (session_ticket_ack s)
           (renegotiation_info s) (selected_protocol s) (key_share s) (preshared_key s)
           (client_certificate_type s) (server_certificate_type s)
           (extended_main_secret_ack s) (certificate_status_request_ack s)
           (selected_version s) v (early_data_ack s) (ticket_request s)
           (encrypted_client_hello_ack s) (unknown_extensions s))
      (λ _, True);
    Field ExtensionType.EarlyData early_data_ack
      (λ v s, mk (ec_point_formats s) (server_name_ack s) (session_ticket_ack s)
           (renegotiation_info s) (selected_protocol s) (key_share s) (preshared_key s)
           (client_certificate_type s) (server_certificate_type s)
           (extended_main_secret_ack s) (certificate_status_request_ack s)
           (selected_version s) (transport_parameters s) v (ticket_request s)
           (encrypted_client_hello_ack s) (unknown_extensions s))
      (λ _, True);
    Field ExtensionType.TicketRequest ticket_request
      (λ v s, mk (ec_point_formats s) (server_name_ack s) (session_ticket_ack s)
           (renegotiation_info s) (selected_protocol s) (key_share s) (preshared_key s)
           (client_certificate_type s) (server_certificate_type s)
           (extended_main_secret_ack s) (certificate_status_request_ack s)
           (selected_version s) (transport_parameters s) (early_data_ack s) v
           (encrypted_client_hello_ack s) (unknown_extensions s))
      (λ _, True);
    Field ExtensionType.EncryptedClientHello encrypted_client_hello_ack
      (λ v s, mk (ec_point_formats s) (server_name_ack s) (session_ticket_ack s)
           (renegotiation_info s) (selected_protocol s) (key_share s) (preshared_key s)
           (client_certificate_type s) (server_certificate_type s)
           (extended_main_secret_ack s) (certificate_status_request_ack s)
           (selected_version s) (transport_parameters s) (early_data_ack s)
           (ticket_request s) v (unknown_extensions s))
      ServerEncryptedClientHello.valid
  ];
}.

#[global] Instance struct_laws : ExtensionLaws t unknown_extensions.
Proof. solve_extension_laws. Qed.

Definition with_unknown (v : gset Z) (s : t) : t :=
  mk (ec_point_formats s) (server_name_ack s) (session_ticket_ack s) (renegotiation_info
    s) (selected_protocol s) (key_share s) (preshared_key s) (client_certificate_type s)
    (server_certificate_type s) (extended_main_secret_ack s) (certificate_status_request_ack
    s) (selected_version s) (transport_parameters s) (early_data_ack s) (ticket_request s)
    (encrypted_client_hello_ack s) v.

(* @src rustls/src/msgs/server_hello.rs 220-243 Codec_for_ServerExtensions *)
#[global] Instance codec : Codec t := {
  encode self bytes := encode_block (ALL_EXTENSIONS (S:=t)) self bytes;
  read :=
    '(out, checker) ← read_block
      (λ unknown checker, DuplicateExtensionChecker.check unknown checker)
      no_check DuplicateExtensionChecker.new;
    mret (with_unknown (InlineSet.into_btreeset checker) out);
}.

(* @src rustls/src/msgs/server_hello.rs 210-217 ServerExtensions::received_types *)
Definition received_types (self : t) : list ExtensionType.t :=
  collect_used self ++ (ExtensionType.new <$> elements (unknown_extensions self)).

Definition valid : t → Prop := plain_valid unknown_extensions.

#[global] Instance laws : CodecLaws t valid.
Proof.
  apply (codec_laws_intro valid (λ s, encode_block ALL_EXTENSIONS s [])).
  - intros s bytes. apply (encode_block_app unknown_extensions).
  - intros s rest Hv. cbn [read codec]. rewrite (bind_read_plain unknown_extensions) by done.
    destruct Hv as (_ & _ & Hm). cbn in Hm. unfold with_unknown, mret, reader_ret. cbn.
    destruct s. cbn in *. by subst.
Qed.

#[global] Instance total : TotalRead t.
Proof.
  unfold TotalRead. cbn [read codec]. apply total_bind; [|by intros []].
  apply (total_read_block unknown_extensions); [|done]. intros.
  apply checker_check_total.
Qed.
End struct.
End ServerExtensions.

Module EncryptedExtensions.
(* @src rustls/src/msgs/server_hello.rs 246-281 EncryptedExtensions *)
Record t := mk {
  server_name_ack : option unit;
  selected_protocol : option SingleProtocolName.t;
  client_certificate_type : option CertificateType.t;
  server_certificate_type : option CertificateType.t;
  transport_parameters : option Payload;
  early_data_ack : option unit;
  ticket_request : option ServerTicketRequestHint.t;
  encrypted_client_hello_ack : option ServerEncryptedClientHello.t;
  unknown_extensions : gset Z;
}.

Section struct.
Context `{!PkiTypes}.

(* @src rustls/src/msgs/server_hello.rs 246-281 EncryptedExtensions *)
#[global] Instance struct : ExtensionStruct t := {
  struct_name := "EncryptedExtensions";
  es_default := mk None None None None None None None None ∅;
  fields := [
    Field ExtensionType.ServerName server_name_ack
      (λ v s, mk v (selected_protocol s) (client_certificate_type s)
           (server_certificate_type s) (transport_parameters s) (early_data_ack s)
           (ticket_request s) (encrypted_client_hello_ack s) (unknown_extensions s))
      (λ _, True);
    Field ExtensionType.ALProtocolNegotiation selected_protocol
      (λ v s, mk (server_name_ack s) v (client_certificate_type s) (server_certificate_type s)
           (transport_parameters s) (early_data_ack s) (ticket_request s)
           (encrypted_client_hello_ack s) (unknown_extensions s))
      SingleProtocolName.valid;
    Field ExtensionType.ClientCertificateType client_certificate_type
      (λ v s, mk (server_name_ack s) (selected_protocol s) v (server_certificate_type s)
           (transport_parameters s) (early_data_ack s) (ticket_request s)
           (encrypted_client_hello_ack s) (unknown_extensions s))
      (λ _, True);
    Field ExtensionType.ServerCertificateType server_certificate_type
      (λ v s, mk (server_name_ack s) (selected_protocol s) (client_certificate_type s) v
           (transport_parameters s) (early_data_ack s) (ticket_request s)
           (encrypted_client_hello_ack s) (unknown_extensions s))
      (λ _, True);
    Field ExtensionType.TransportParameters transport_parameters
      (λ v s, mk (server_name_ack s) (selected_protocol s) (client_certificate_type s)
           (server_certificate_type s) v (early_data_ack s) (ticket_request s)
           (encrypted_client_hello_ack s) (unknown_extensions s))
      (λ _, True);
    Field ExtensionType.EarlyData early_data_ack
      (λ v s, mk (server_name_ack s) (selected_protocol s) (client_certificate_type s)
           (server_certificate_type s) (transport_parameters s) v (ticket_request s)
           (encrypted_client_hello_ack s) (unknown_extensions s))
      (λ _, True);
    Field ExtensionType.TicketRequest ticket_request
      (λ v s, mk (server_name_ack s) (selected_protocol s) (client_certificate_type s)
           (server_certificate_type s) (transport_parameters s) (early_data_ack s) v
           (encrypted_client_hello_ack s) (unknown_extensions s))
      (λ _, True);
    Field ExtensionType.EncryptedClientHello encrypted_client_hello_ack
      (λ v s, mk (server_name_ack s) (selected_protocol s) (client_certificate_type s)
           (server_certificate_type s) (transport_parameters s) (early_data_ack s)
           (ticket_request s) v (unknown_extensions s))
      ServerEncryptedClientHello.valid
  ];
}.

#[global] Instance struct_laws : ExtensionLaws t unknown_extensions.
Proof. solve_extension_laws. Qed.

Definition with_unknown (v : gset Z) (s : t) : t :=
  mk (server_name_ack s) (selected_protocol s) (client_certificate_type s)
    (server_certificate_type s) (transport_parameters s) (early_data_ack s) (ticket_request
    s) (encrypted_client_hello_ack s) v.

(* @src rustls/src/msgs/server_hello.rs 319-332 EncryptedExtensions::UNPROCESSED *)
Definition UNPROCESSED : list ExtensionType.t :=
  [ExtensionType.MaxFragmentLength; ExtensionType.EllipticCurves; ExtensionType.UseSRTP;
   ExtensionType.Heartbeat].

(* @src rustls/src/msgs/server_hello.rs 335-360 Codec_for_EncryptedExtensions *)
#[global] Instance codec : Codec t := {
  encode self bytes := encode_block (ALL_EXTENSIONS (S:=t)) self bytes;
  read :=
    '(out, checker) ← read_block
      (λ unknown checker,
        DuplicateExtensionChecker.check_unprocessed unknown UNPROCESSED checker)
      no_check DuplicateExtensionChecker.new;
    mret (with_unknown (InlineSet.into_btreeset checker) out);
}.

(* @src rustls/src/msgs/server_hello.rs 310-317 EncryptedExtensions::received_types *)
Definition received_types (self : t) : list ExtensionType.t :=
  collect_used self ++ (ExtensionType.new <$> elements (unknown_extensions self)).

Definition valid : t → Prop := plain_valid unknown_extensions.

#[global] Instance laws : CodecLaws t valid.
Proof.
  apply (codec_laws_intro valid (λ s, encode_block ALL_EXTENSIONS s [])).
  - intros s bytes. apply (encode_block_app unknown_extensions).
  - intros s rest Hv. cbn [read codec]. rewrite (bind_read_plain unknown_extensions) by done.
    destruct Hv as (_ & _ & Hm). cbn in Hm. unfold with_unknown, mret, reader_ret. cbn.
    destruct s. cbn in *. by subst.
Qed.

#[global] Instance total : TotalRead t.
Proof.
  unfold TotalRead. cbn [read codec]. apply total_bind; [|by intros []].
  apply (total_read_block unknown_extensions); [|done]. intros.
  apply check_unprocessed_total.
Qed.
End struct.
End EncryptedExtensions.

(** ** ServerHello *)

Module ServerHelloPayload.
(* @src rustls/src/msgs/server_hello.rs 23-31 ServerHelloPayload *)
Record t := mk {
  legacy_version : ProtocolVersion.t;
  random : Random.t;
  session_id : SessionId.t;
  cipher_suite : CipherSuite.t;
  compression_method : Compression.t;
  extensions : ServerExtensions.t;
}.

(* @src rustls/src/msgs/server_hello.rs 593 ZERO_RANDOM *)
Definition ZERO_RANDOM : Random.t := Random.new (replicate 32 x00).

Section codec.
Context `{!PkiTypes}.

(** [encoding] only matters to a [debug_assert!]. *)
(* @src rustls/src/msgs/server_hello.rs 71-83 ServerHelloPayload::payload_encode *)
Definition payload_encode (self : t) (encoding : Encoding.t) (bytes : list u8) : list u8 :=
  let bytes := encode (legacy_version self) bytes in
  let bytes := encode (random self) bytes in
  let bytes := encode (session_id self) bytes in
  let bytes := encode (cipher_suite self) bytes in
  let bytes := encode (compression_method self) bytes in
  encode (extensions self) bytes.

(** [read] starts after the version and the random, which have already been
    read. *)
(* @src rustls/src/msgs/server_hello.rs 33-68 Codec_for_ServerHelloPayload *)
#[global] Instance codec : Codec t := {
  encode self bytes := payload_encode self Encoding.Standard bytes;
  read := Reader.all "ServerHelloPayload" (
    session_id ← read;
    suite ← read;
    compression ← read;
    extensions ← ((λ r, if Reader.any_left r then read r else Ok (es_default, r))
                   : reader ServerExtensions.t);
    mret (mk (ProtocolVersion.new 0) ZERO_RANDOM session_id suite compression extensions));
}.

Definition valid (h : t) : Prop :=
  is_u16 (ProtocolVersion.val (legacy_version h)) ∧ Random.valid (random h) ∧
  SessionId.valid (session_id h) ∧ is_u16 (CipherSuite.val (cipher_suite h)) ∧
  ServerExtensions.valid (extensions h).

(** The encoding after the version and the random. *)
Definition tail (h : t) : list u8 :=
  get_encoding (session_id h) ++ get_encoding (cipher_suite h)
    ++ get_encoding (compression_method h) ++ get_encoding (extensions h).

Definition with_head (v : ProtocolVersion.t) (r : Random.t) (h : t) : t :=
  mk v r (session_id h) (cipher_suite h) (compression_method h) (extensions h).

Lemma server_hello_app h bytes :
  encode h bytes = bytes ++ get_encoding (legacy_version h) ++ get_encoding (random h) ++ tail h.
Proof. cbn [encode codec]. unfold payload_encode, tail. by encode_steps. Qed.

Lemma server_hello_tail h :
  valid h → read (tail h) = Ok (with_head (ProtocolVersion.new 0) ZERO_RANDOM h, []).
Proof.
  destruct h as [v r s c m e]. intros (Hv & Hr & Hs & Hc & He). unfold tail.
  cbn [legacy_version random session_id cipher_suite compression_method extensions] in *.
  cbn [read codec]. apply reader_all_Ok. split; [done|].
  read_steps.
  unfold mbind, reader_bind. replace (Reader.any_left (get_encoding e)) with true.
  - rewrite <-(app_nil_r (get_encoding e)). by rewrite read_encode.
  - symmetry. apply any_left_spec. unfold get_encoding. cbn [encode ServerExtensions.codec].
    rewrite (encode_block_spec ServerExtensions.unknown_extensions).
    intros Hn%(f_equal length). rewrite !length_app, be_bytes_length in Hn. cbn [length] in Hn. lia.
Qed.

#[global] Instance total : TotalRead t.
Proof.
  unfold TotalRead. cbn [read codec]. apply total_all.
  do 3 (apply total_bind; [auto with total|intros ?]). apply total_bind; [|auto with total].
  intros r. destruct (Reader.any_left r); [apply read_total|done].
Qed.
End codec.
End ServerHelloPayload.

(** ** Main results *)

(** Every extension a server sends in EncryptedExtensions is accounted for: a
    block that is read is a list of extensions of distinct types, the types
    [received_types] gives to the unsolicited-extension checks are exactly those,
    and a type this library recognizes is accepted only if it is processed or
    listed as unprocessed for this message. *)
Theorem encrypted_extensions_received `{!PkiTypes} bs (s : EncryptedExtensions.t) rest
    (Hread : read bs = Ok (s, rest)) :
  ∃ l, bs = be_bytes 2 (Z.of_nat (length (concat (tlv <$> l)))) ++ concat (tlv <$> l) ++ rest ∧
    NoDup l.*1 ∧
    (∀ typ, typ ∈ EncryptedExtensions.received_types s ↔ typ ∈ l.*1) ∧
    Forall (λ typ, is_recognized typ = true →
      typ ∈ ALL_EXTENSIONS (S:=EncryptedExtensions.t) ∨ typ ∈ EncryptedExtensions.UNPROCESSED) l.*1.
Proof.
  cbn [read EncryptedExtensions.codec] in Hread.
  apply reader_bind_Ok in Hread as ([out c] & r1 & Hread & [= <- <-]).
  apply read_block_inv in Hread as (l & _ & Hall & -> & _). exists l. split; [done|].
  pose proof InlineSet.default_wf as [Hwf _].
  split; [eapply (checked_nodup EncryptedExtensions.unknown_extensions); [..|exact Hall|exact Hwf]|].
  - intros typ c1 c2 Hu%check_unprocessed_checked. apply Hu.
  - apply no_check_keeps.
  - split; [|by eapply takes_all_permitted]. intros typ.
    rewrite <-(received_iff EncryptedExtensions.unknown_extensions _ _
      (λ t c c' Hu, proj1 (check_unprocessed_checked _ _ _ _ Hu)) no_check_keeps _ _ _ _ Hall).
    unfold EncryptedExtensions.received_types. cbn [EncryptedExtensions.unknown_extensions
      EncryptedExtensions.with_unknown].
    rewrite (collect_used_ext out (EncryptedExtensions.with_unknown
      (InlineSet.into_btreeset c) out)); [done|].
    unfold same_slots. repeat (apply Forall_cons; split; [done|]). by apply Forall_nil.
Qed.

(** The DNS names of a witness: any non-empty byte string. *)
Definition any_names : PkiTypes := {|
  dns_name_ok bs := negb (bool_decide (bs = []));
  server_name_kind bs := if decide (bs = []) then KindOther else KindDnsName;
  dns_to_lowercase bs := bs;
|}.

Lemma encrypted_extensions_received_witness :
  let _ := any_names in
  let bs := [x00; x0c; x00; x00; x00; x00; x00; x0a; x00; x00; xba; xba; x00; x00; x55] in
  let s := EncryptedExtensions.mk (Some tt) None None None None None None None
             (list_to_set [10; 0xbaba]%Z) in
  read bs = Ok (s, [x55]) ∧ ∃ l : list ExtensionType.t, NoDup l ∧
    ∀ typ, typ ∈ EncryptedExtensions.received_types s ↔ typ ∈ l.
Proof.
  intros names bs s. assert (read bs = Ok (s, [x55])) as Hread by (vm_compute; reflexivity).
  split; [exact Hread|].
  destruct (encrypted_extensions_received (H:=names) bs s [x55] Hread) as (l & _ & Hn & Hr & _).
  exists l.*1. split; [exact Hn|exact Hr].
Defined.
