(* ===== verification/ClientHello.v ===== *)
(** * ClientHello ([rustls/src/msgs/client_hello.rs])

    The ClientHello, the extensions it carries and the order they are sent in. *)
From stdpp Require Import gmap sorting.
From S2P Require Import Prelude Enums Errors Codec Extensions Payloads ServerHello.

(** ** Encrypted ClientHello *)

Module EncryptedClientHelloOuter.
(* @src rustls/src/msgs/client_hello.rs 465-481 EncryptedClientHelloOuter *)
Record t := mk {
  cipher_suite : HpkeSymmetricCipherSuite.t;
  config_id : u8;
  enc : SizedPayload PayloadSize.U16 Cardinality.MaybeEmpty;
  payload : SizedPayload PayloadSize.U16 Cardinality.NonEmpty;
}.

(* @src rustls/src/msgs/client_hello.rs 483-499 Codec_for_EncryptedClientHelloOuter *)
#[global] Instance codec : Codec t := {
  encode self bytes :=
    let bytes := encode (cipher_suite self) bytes in
    let bytes := encode (config_id self) bytes in
    let bytes := encode (enc self) bytes in
    encode (payload self) bytes;
  read :=
    cipher_suite ← read; config_id ← read; enc ← read; payload ← read;
    mret (mk cipher_suite config_id enc payload);
}.

Definition valid (o : t) : Prop :=
  HpkeSymmetricCipherSuite.valid (cipher_suite o) ∧ sized_valid (enc o) ∧ sized_valid (payload o).

#[global] Instance laws : CodecLaws t valid.
Proof.
  apply (codec_laws_intro valid (λ o, get_encoding (cipher_suite o) ++ get_encoding (config_id o)
    ++ get_encoding (enc o) ++ get_encoding (payload o))).
  - intros. cbn [encode codec]. by encode_steps.
  - intros [c i e p] rest (Hc & He & Hp). cbn [read codec cipher_suite config_id enc payload] in *.
    by read_steps.
Qed.

#[global] Instance total : TotalRead t.
Proof. unfold TotalRead. cbn [read codec]. auto with total. Qed.
End EncryptedClientHelloOuter.

Module EncryptedClientHello.
(* @src rustls/src/msgs/client_hello.rs 426-438 EncryptedClientHello *)
Inductive t := Outer (payload : EncryptedClientHelloOuter.t) | Inner.

(* @src rustls/src/msgs/client_hello.rs 440-463 Codec_for_EncryptedClientHello *)
#[global] Instance codec : Codec t := {
  encode self bytes :=
    match self with
    | Outer payload => encode payload (encode EchClientHelloType.ClientHelloOuter bytes)
    | Inner => encode EchClientHelloType.ClientHelloInner bytes
    end;
  read :=
    typ ← (read : reader EchClientHelloType.t);
    if decide (typ = EchClientHelloType.ClientHelloOuter)
    then Outer <$> (read : reader EncryptedClientHelloOuter.t)
    else if decide (typ = EchClientHelloType.ClientHelloInner) then mret Inner
    else reader_fail InvalidMessage.InvalidContentType;
}.

Definition valid (e : t) : Prop :=
  match e with Outer p => EncryptedClientHelloOuter.valid p | Inner => True end.

#[global] Instance laws : CodecLaws t valid.
Proof.
  apply (codec_laws_intro valid (λ e,
    match e with
    | Outer p => get_encoding EchClientHelloType.ClientHelloOuter ++ get_encoding p
    | Inner => get_encoding EchClientHelloType.ClientHelloInner
    end)).
  - intros [p|] bytes; cbn [encode codec]; by encode_steps.
  - intros [p|] rest Hv; cbn [read codec valid] in *; [|done]. read_steps.
    rewrite decide_True by done. unfold fmap, reader_fmap. by rewrite read_encode.
Qed.

#[global] Instance total : TotalRead t.
Proof. unfold TotalRead. cbn [read codec]. auto 8 with total. Qed.
End EncryptedClientHello.

(** ** Server name *)

Module HostNamePayload.
(* @src rustls/src/msgs/client_hello.rs 632-637 HostNamePayload *)
Inductive t :=
  | HostName (name : list u8)
  | IpAddress (raw : SizedPayload PayloadSize.U16 Cardinality.NonEmpty)
  | Invalid (raw : SizedPayload PayloadSize.U16 Cardinality.NonEmpty).

(* @src rustls/src/msgs/client_hello.rs 640-649 HostNamePayload::read *)
Definition read `{!PkiTypes} : reader t :=
  raw ← (Codec.read : reader (SizedPayload PayloadSize.U16 Cardinality.NonEmpty));
  match server_name_kind (sp_inner raw) with
  | KindDnsName => mret (HostName (sp_inner raw))
  | KindIpAddress => mret (IpAddress raw)
  | KindOther => mret (Invalid raw)
  end.

Lemma total_host_name `{!PkiTypes} : total read.
Proof. unfold read. apply total_bind; [auto with total|]. intros raw. by destruct server_name_kind. Qed.
End HostNamePayload.

Module ServerNamePayload.
(* @src rustls/src/msgs/client_hello.rs 501-511 ServerNamePayload *)
Inductive t := SingleDnsName (name : list u8) | IpAddress | Invalid.

(* @src rustls/src/msgs/client_hello.rs 522-525 ServerNamePayload::SIZE_LEN *)
Definition SIZE_LEN : ListLength.t :=
  ListLength.NonZeroU16 (InvalidMessage.IllegalEmptyList "ServerNames").

Section codec.
Context `{!PkiTypes}.

(* @src rustls/src/msgs/client_hello.rs 527-535 ServerNamePayload::to_dns_name_normalized *)
Definition to_dns_name_normalized (self : t) : option (list u8) :=
  match self with
  | SingleDnsName dns_name => Some (dns_to_lowercase dns_name)
  | IpAddress => None
  | Invalid => None
  end.

(** [while sub.any_left() { .. }]: every turn takes a byte, so [length sub] turns
    are enough.  Another name type ends the loop, as it cannot be skipped. *)
(* @src rustls/src/msgs/client_hello.rs 567-605 ServerNamePayload::read::while *)
Fixpoint read_names (fuel : nat) (found : option t) (sub : list u8)
    : result InvalidMessage.t (option t) :=
  if Reader.any_left sub then
    match fuel with
    | O => Panic
    | S fuel =>
        '(typ, sub) ← (Codec.read : reader ServerNameType.t) sub;
        if decide (typ = ServerNameType.HostName) then
          '(payload, sub) ← HostNamePayload.read sub;
          if found then Err InvalidMessage.InvalidServerName
          else
            let found :=
              match payload with
              | HostNamePayload.HostName dns_name => SingleDnsName dns_name
              | HostNamePayload.IpAddress _ => IpAddress
              | HostNamePayload.Invalid _ => Invalid
              end in
            read_names fuel (Some found) sub
        else Ok found
    end
  else Ok found.

(* @src rustls/src/msgs/client_hello.rs 538-609 Codec_for_ServerNamePayload *)
#[global] Instance codec : Codec t := {
  encode self bytes :=
    LengthPrefixedBuffer.nest SIZE_LEN
      (λ buf,
        match self with
        | SingleDnsName name_slice =>
            let buf := encode ServerNameType.HostName buf in
            u16_encode (wrapN 16 (Z.of_nat (length name_slice))) buf ++ name_slice
        | _ => buf
        end) bytes;
  read :=
    len ← ListLength.read SIZE_LEN;
    sub ← Reader.sub len;
    found ← reader_lift (read_names (length sub) None sub);
    mret (default Invalid found);
}.

(** A host name that is not empty and fits with its type and length. *)
Definition valid (s : t) : Prop :=
  ∃ name, s = SingleDnsName name ∧ server_name_kind name = KindDnsName ∧ name ≠ [] ∧
    (Z.of_nat (length name) < 2 ^ 16 - 3)%Z.

Definition body (s : t) : list u8 :=
  match s with
  | SingleDnsName name => [x00] ++ be_bytes 2 (Z.of_nat (length name)) ++ name
  | _ => []
  end.

Lemma server_name_app s bytes :
  encode s bytes = bytes ++ be_bytes 2 (Z.of_nat (length (body s))) ++ body s.
Proof.
  cbn [encode codec]. apply nest_spec. intros b. destruct s as [name| |]; cbn [body].
  2-3: by rewrite app_nil_r.
  rewrite encode_app. unfold u16_encode. rewrite be_bytes_wrap by lia.
  by rewrite <-!(assoc_L (++)).
Qed.

Lemma read_names_host fuel name :
  server_name_kind name = KindDnsName → name ≠ [] → (Z.of_nat (length name) < 2 ^ 16)%Z →
  2 ≤ fuel → read_names fuel None (body (SingleDnsName name)) = Ok (Some (SingleDnsName name)).
Proof.
  intros Hk Hn Hl Hf. destruct fuel as [|[|fuel]]; [lia..|]. cbn [read_names body].
  replace (Reader.any_left _) with true by done. step_ok.
  change (Codec.read ([x00] ++ be_bytes 2 (Z.of_nat (length name)) ++ name)) with
    (Ok (E:=InvalidMessage.t) (ServerNameType.HostName, be_bytes 2 (Z.of_nat (length name)) ++ name)).
  step_ok. rewrite decide_True by done. unfold HostNamePayload.read.
  pose (p := mkSizedPayload (L:=PayloadSize.U16) (C:=Cardinality.NonEmpty) name).
  assert (be_bytes 2 (Z.of_nat (length name)) ++ name = get_encoding p ++ []) as ->.
  { unfold get_encoding. cbn [encode SizedPayload_codec]. rewrite size_encode. by rewrite app_nil_r. }
  rewrite bind_read_encode.
  2: { split; cbn [sp_inner p Cardinality.MIN PayloadSize.MAX]; [|lia]. destruct name; simpl; [done|lia]. }
  cbn [sp_inner p]. rewrite Hk. unfold mret, reader_ret. step_ok. by destruct fuel.
Qed.

#[global] Instance laws : CodecLaws t valid.
Proof.
  apply (codec_laws_intro valid
    (λ s, be_bytes 2 (Z.of_nat (length (body s))) ++ body s)); [apply server_name_app|].
  intros s rest (name & -> & Hk & Hn & Hl). cbn [read codec].
  assert (length (body (SingleDnsName name)) = 3 + length name) as Hb.
  { cbn [body]. rewrite !length_app, be_bytes_length. done. }
  rewrite <-(assoc_L (++)). change 2 with (ListLength.width SIZE_LEN).
  rewrite bind_list_length_app by (split; cbn [ListLength.width SIZE_LEN]; lia).
  rewrite bind_sub_app by done. unfold mbind, reader_bind, reader_lift.
  by rewrite read_names_host by (done || lia).
Qed.

Lemma read_names_total fuel found sub : length sub ≤ fuel → read_names fuel found sub ≠ Panic.
Proof.
  revert found sub. induction fuel as [|fuel IH]; intros found sub Hf; cbn [read_names];
    destruct (Reader.any_left sub) eqn:E; try done.
  { apply any_left_spec in E. destruct sub; simpl in *; [done|lia]. }
  destruct (Codec.read sub) as [[typ r]| |] eqn:Ht; step_ok; [|done|by apply read_total in Ht].
  apply (shrinks_canonical (T:=ServerNameType.t)) in Ht.
  case_decide; [|done]. pose proof (HostNamePayload.total_host_name r).
  assert (shrinks 0 HostNamePayload.read) as Hs.
  { unfold HostNamePayload.read. apply shrinks_bind; [apply shrinks_weaken; auto with shrinks|].
    - eapply shrinks_canonical; apply _.
    - intros raw. destruct server_name_kind; auto with shrinks. }
  destruct (HostNamePayload.read r) as [[p r2]| |] eqn:Hr; step_ok; [|done..].
  apply Hs in Hr. destruct found; [done|]. apply IH. lia.
Qed.

#[global] Instance total : TotalRead t.
Proof.
  unfold TotalRead. cbn [read codec]. do 2 (apply total_bind; [auto with total|intros ?]).
  apply total_bind; [|auto with total]. intros bs. unfold reader_lift.
  match goal with |- context [read_names (length ?s) None ?s] =>
    pose proof (read_names_total (length s) None s ltac:(lia)); by destruct (read_names _ _ s) end.
Qed.
End codec.

(** The trailing dot of an absolute name is not sent; [unwrap] panics if what is
    left is not a name. *)
(* @src rustls/src/msgs/client_hello.rs 617-630 trim_hostname_trailing_dot_for_sni *)
Definition trim_hostname_trailing_dot_for_sni `{!PkiTypes} {E} (dns_name : list u8)
    : result E (list u8) :=
  if decide (last dns_name = Some x2e) then
    let trimmed := take (length dns_name - 1) dns_name in
    if dns_name_ok trimmed then Ok trimmed else Panic
  else Ok dns_name.
End ServerNamePayload.

(** ** Certificate status request *)

Module ResponderId.
(* @src rustls/src/msgs/client_hello.rs 719-743 ResponderId *)
Record t := mk { inner : SizedPayload PayloadSize.U16 Cardinality.NonEmpty }.

(* @src rustls/src/msgs/macros.rs 340-368 wrapped_payload *)
#[global] Instance codec : Codec t := {
  encode self bytes := encode (inner self) bytes;
  read := inner ← read; mret (mk inner);
}.

(* @src rustls/src/msgs/client_hello.rs 725 ResponderId::SIZE_LEN *)
#[global] Instance list_element : TlsListElement t := ListLength.U16.

Definition valid (d : t) : Prop := sized_valid (inner d).

#[global] Instance laws : CodecLaws t valid.
Proof.
  apply (codec_laws_intro valid (λ d, get_encoding (inner d))).
  - intros. cbn [encode codec]. by encode_steps.
  - intros [p] rest Hp. unfold valid in Hp. cbn [read codec inner] in *. by read_steps.
Qed.

#[global] Instance canonical : CanonicalCodec t valid.
Proof.
  split. intros bs k rest H. cbn [read codec] in H. reader_inv.
  match goal with H : read _ = Ok _ |- _ => apply read_inv in H as [? ->] end. done.
Qed.

#[global] Instance nonempty : NonEmptyEncoding t valid.
Proof. intros d. apply (encoding_nonempty (inner d)). Qed.

#[global] Instance total : TotalRead t.
Proof. unfold TotalRead. cbn [read codec]. auto with total. Qed.
End ResponderId.

Module OcspCertificateStatusRequest.
(* @src rustls/src/msgs/client_hello.rs 697-701 OcspCertificateStatusRequest *)
Record t := mk {
  responder_ids : list ResponderId.t;
  extensions : SizedPayload PayloadSize.U16 Cardinality.MaybeEmpty;
}.

(** [encode] writes the status type that [CertificateStatusRequest::read] has
    taken before it calls [read]. *)
(* @src rustls/src/msgs/client_hello.rs 703-716 Codec_for_OcspCertificateStatusRequest *)
#[global] Instance codec : Codec t := {
  encode self bytes :=
    encode (extensions self) (encode (responder_ids self) (encode CertificateStatusType.OCSP bytes));
  read := responder_ids ← read; extensions ← read; mret (mk responder_ids extensions);
}.

Definition valid (r : t) : Prop :=
  vec_valid ResponderId.valid (responder_ids r) ∧ sized_valid (extensions r).
End OcspCertificateStatusRequest.

Module CertificateStatusRequest.
(* @src rustls/src/msgs/client_hello.rs 654-658 CertificateStatusRequest *)
Inductive t :=
  | Ocsp (r : OcspCertificateStatusRequest.t)
  | Unknown (typ : CertificateStatusType.t) (payload : Payload).

(* @src rustls/src/msgs/client_hello.rs 688-694 CertificateStatusRequest::build_ocsp *)
Definition build_ocsp : t := Ocsp (OcspCertificateStatusRequest.mk [] (mkSizedPayload [])).

(* @src rustls/src/msgs/client_hello.rs 660-685 Codec_for_CertificateStatusRequest *)
#[global] Instance codec : Codec t := {
  encode self bytes :=
    match self with
    | Ocsp r => encode r bytes
    | Unknown typ payload => encode payload (encode typ bytes)
    end;
  read :=
    typ ← (read : reader CertificateStatusType.t);
    if decide (typ = CertificateStatusType.OCSP)
    then Ocsp <$> (read : reader OcspCertificateStatusRequest.t)
    else Unknown typ <$> (read : reader Payload);
}.

Definition valid (r : t) : Prop :=
  match r with
  | Ocsp r => OcspCertificateStatusRequest.valid r
  | Unknown typ _ => typ ≠ CertificateStatusType.OCSP
  end.

#[global] Instance laws : BodyLaws t valid.
Proof.
  apply (body_laws_intro valid (λ r,
    match r with
    | Ocsp r => get_encoding CertificateStatusType.OCSP
        ++ get_encoding (OcspCertificateStatusRequest.responder_ids r)
        ++ get_encoding (OcspCertificateStatusRequest.extensions r)
    | Unknown typ p => get_encoding typ ++ p
    end)).
  - intros [r|typ p] bytes; cbn [encode codec OcspCertificateStatusRequest.codec]; by encode_steps.
  - intros [[ids exts]|typ p] Hv; cbn [read codec valid] in *.
    + destruct Hv as [Hi He]. cbn [OcspCertificateStatusRequest.responder_ids
        OcspCertificateStatusRequest.extensions] in *. read_steps.
      rewrite decide_True by done. unfold fmap, reader_fmap.
      cbn [read OcspCertificateStatusRequest.codec].
      rewrite <-(app_nil_r (get_encoding exts)). by read_steps.
    + read_steps. by rewrite decide_False.
Qed.

#[global] Instance total : TotalRead t.
Proof.
  unfold TotalRead. cbn [read codec OcspCertificateStatusRequest.codec]. auto 8 with total.
Qed.
End CertificateStatusRequest.

(** ** Pre-shared keys *)

Module PresharedKeyIdentity.
(* @src rustls/src/msgs/client_hello.rs 760-765 PresharedKeyIdentity *)
Record t := mk {
  identity : SizedPayload PayloadSize.U16 Cardinality.NonEmpty;
  obfuscated_ticket_age : Z;
}.

(* @src rustls/src/msgs/client_hello.rs 768-773 PresharedKeyIdentity::new *)
Definition new (id : list u8) (age : Z) : t := mk (mkSizedPayload id) age.

(* @src rustls/src/msgs/client_hello.rs 776-788 Codec_for_PresharedKeyIdentity *)
#[global] Instance codec : Codec t := {
  encode self bytes := u32_encode (obfuscated_ticket_age self) (encode (identity self) bytes);
  read := identity ← read; age ← u32_read; mret (mk identity age);
}.

(* @src rustls/src/msgs/client_hello.rs 792-794 PresharedKeyIdentity::SIZE_LEN *)
#[global] Instance list_element : TlsListElement t :=
  ListLength.NonZeroU16 (InvalidMessage.IllegalEmptyList "PskIdentities").

Definition valid (p : t) : Prop := sized_valid (identity p) ∧ is_u32 (obfuscated_ticket_age p).

#[global] Instance laws : CodecLaws t valid.
Proof.
  apply (codec_laws_intro valid
    (λ p, get_encoding (identity p) ++ be_bytes 4 (obfuscated_ticket_age p))).
  - intros. cbn [encode codec]. by encode_steps.
  - intros [i a] rest [Hi Ha]. cbn [read codec identity obfuscated_ticket_age] in *. by read_steps.
Qed.

#[global] Instance canonical : CanonicalCodec t valid.
Proof.
  split. intros bs k rest H. cbn [read codec] in H. reader_inv.
  match goal with H : read _ = Ok _ |- _ => apply read_inv in H as [? ->] end.
  split; [done|]. unfold get_encoding at 2. cbn [encode codec identity obfuscated_ticket_age].
  by encode_steps.
Qed.

#[global] Instance nonempty : NonEmptyEncoding t valid.
Proof. intros p Hv Hn. pose proof (read_encode p [] Hv) as Hr. by rewrite Hn in Hr. Qed.

#[global] Instance total : TotalRead t.
Proof. unfold TotalRead. cbn [read codec]. auto with total. Qed.
End PresharedKeyIdentity.

Module PresharedKeyBinder.
(* @src rustls/src/msgs/client_hello.rs 798-806 PresharedKeyBinder *)
Record t := mk { inner : SizedPayload PayloadSize.U8 Cardinality.NonEmpty }.

(* @src rustls/src/msgs/macros.rs 340-368 wrapped_payload *)
#[global] Instance codec : Codec t := {
  encode self bytes := encode (inner self) bytes;
  read := inner ← read; mret (mk inner);
}.

(* @src rustls/src/msgs/client_hello.rs 804-806 PresharedKeyBinder::SIZE_LEN *)
#[global] Instance list_element : TlsListElement t :=
  ListLength.NonZeroU16 (InvalidMessage.IllegalEmptyList "PskBinders").

Definition valid (d : t) : Prop := sized_valid (inner d).

#[global] Instance laws : CodecLaws t valid.
Proof.
  apply (codec_laws_intro valid (λ d, get_encoding (inner d))).
  - intros. cbn [encode codec]. by encode_steps.
  - intros [p] rest Hp. unfold valid in Hp. cbn [read codec inner] in *. by read_steps.
Qed.

#[global] Instance canonical : CanonicalCodec t valid.
Proof.
  split. intros bs k rest H. cbn [read codec] in H. reader_inv.
  match goal with H : read _ = Ok _ |- _ => apply read_inv in H as [? ->] end. done.
Qed.

#[global] Instance nonempty : NonEmptyEncoding t valid.
Proof. intros d. apply (encoding_nonempty (inner d)). Qed.

#[global] Instance total : TotalRead t.
Proof. unfold TotalRead. cbn [read codec]. auto with total. Qed.
End PresharedKeyBinder.

Module PresharedKeyOffer.
(* @src rustls/src/msgs/client_hello.rs 730-734 PresharedKeyOffer *)
Record t := mk {
  identities : list PresharedKeyIdentity.t;
  binders : list PresharedKeyBinder.t;
}.

(* @src rustls/src/msgs/client_hello.rs 737-743 PresharedKeyOffer::new *)
Definition new (id : PresharedKeyIdentity.t) (binder : list u8) : t :=
  mk [id] [PresharedKeyBinder.mk (mkSizedPayload binder)].

(* @src rustls/src/msgs/client_hello.rs 746-758 Codec_for_PresharedKeyOffer *)
#[global] Instance codec : Codec t := {
  encode self bytes := encode (binders self) (encode (identities self) bytes);
  read := identities ← read; binders ← read; mret (mk identities binders);
}.

Definition valid (o : t) : Prop :=
  vec_valid PresharedKeyIdentity.valid (identities o) ∧
  vec_valid PresharedKeyBinder.valid (binders o).

#[global] Instance laws : CodecLaws t valid.
Proof.
  apply (codec_laws_intro valid (λ o, get_encoding (identities o) ++ get_encoding (binders o))).
  - intros. cbn [encode codec]. by encode_steps.
  - intros [i b] rest [Hi Hb]. cbn [read codec identities binders] in *. by read_steps.
Qed.

#[global] Instance total : TotalRead t.
Proof. unfold TotalRead. cbn [read codec]. auto with total. Qed.
End PresharedKeyOffer.

(* @src rustls/src/msgs/client_hello.rs 844-846 PskKeyExchangeMode::SIZE_LEN *)
#[global] Instance PskKeyExchangeMode_list : TlsListElement PskKeyExchangeMode.t :=
  ListLength.NonZeroU8 (InvalidMessage.IllegalEmptyList "PskKeyExchangeModes").

Module PskKeyExchangeModes.
(* @src rustls/src/msgs/client_hello.rs 809-814 PskKeyExchangeModes *)
Record t := mk { psk_dhe : bool; psk : bool }.

(* @src rustls/src/msgs/client_hello.rs 816-841 Codec_for_PskKeyExchangeModes *)
#[global] Instance codec : Codec t := {
  encode self bytes :=
    LengthPrefixedBuffer.nest (SIZE_LEN (T:=PskKeyExchangeMode.t))
      (λ buf,
        let buf := if psk_dhe self then encode PskKeyExchangeMode.PSK_DHE_KE buf else buf in
        if psk self then encode PskKeyExchangeMode.PSK_KE buf else buf) bytes;
  read :=
    kes ← (read : reader (list PskKeyExchangeMode.t));
    mret (mk (bool_decide (PskKeyExchangeMode.PSK_DHE_KE ∈ kes))
             (bool_decide (PskKeyExchangeMode.PSK_KE ∈ kes)));
}.

Definition valid (m : t) : Prop := psk_dhe m || psk m = true.

#[global] Instance laws : CodecLaws t valid.
Proof.
  apply (codec_laws_intro valid (λ s,
    let body := (if psk_dhe s then [x01] else []) ++ (if psk s then [x00] else []) in
    be_bytes 1 (Z.of_nat (length body)) ++ body)).
  - intros s bytes. cbn [encode codec]. apply nest_spec. intros b.
    destruct s as [[] []]; cbn [psk_dhe psk]; rewrite ?app_nil_r; try done.
    by rewrite (encode_app PskKeyExchangeMode.PSK_KE), (encode_app PskKeyExchangeMode.PSK_DHE_KE),
      <-(assoc_L (++)).
  - by intros [[] []] rest Hv.
Qed.

#[global] Instance total : TotalRead t.
Proof. unfold TotalRead. cbn [read codec]. auto with total. Qed.
End PskKeyExchangeModes.

(** ** Tickets *)

Module ClientSessionTicket.
(* @src rustls/src/msgs/client_hello.rs 849-853 ClientSessionTicket *)
Inductive t := Request | Offer (p : Payload).

(* @src rustls/src/msgs/client_hello.rs 855-869 Codec_for_ClientSessionTicket *)
#[global] Instance codec : Codec t := {
  encode self bytes := match self with Request => bytes | Offer p => encode p bytes end;
  read r :=
    match Reader.left r with
    | O => Ok (Request, r)
    | _ => (Offer <$> (read : reader Payload)) r
    end;
}.

(** An offer is not empty: an empty one is a request. *)
Definition valid (s : t) : Prop := s ≠ Offer [].

#[global] Instance laws : BodyLaws t valid.
Proof.
  split; [intros [|p] bytes; [by rewrite app_nil_r|done]|].
  intros [|[|b p]] Hv; [done|by destruct Hv|done].
Qed.

#[global] Instance total : TotalRead t.
Proof. intros bs. cbn [read codec]. by destruct bs. Qed.
End ClientSessionTicket.

Module ClientTicketRequest.
(* @src rustls/src/msgs/client_hello.rs 887-892 ClientTicketRequest *)
Record t := mk { new_session_count : u8; resumption_count : u8 }.

(* @src rustls/src/msgs/client_hello.rs 894-906 Codec_for_ClientTicketRequest *)
#[global] Instance codec : Codec t := {
  encode self bytes := encode (resumption_count self) (encode (new_session_count self) bytes);
  read := n ← (read : reader u8); r ← (read : reader u8); mret (mk n r);
}.

#[global] Instance laws : CodecLaws t (λ _, True).
Proof.
  split; [|by intros [n r] rest _]. intros v bytes. unfold get_encoding.
  cbn [encode codec u8_codec]. by rewrite <-!(assoc_L (++)).
Qed.

#[global] Instance total : TotalRead t.
Proof. unfold TotalRead. cbn [read codec]. auto with total. Qed.
End ClientTicketRequest.

(** ** Extension order *)

(** [u32::wrapping_add], and [x << n] which drops the high bits. *)
Definition u32_add (a b : Z) : Z := wrapN 32 (a + b).
Definition u32_shl (a n : Z) : Z := wrapN 32 (Z.shiftl a n).

(* @src rustls/src/msgs/client_hello.rs 871-885 low_quality_integer_hash *)
Definition low_quality_integer_hash (x : Z) : Z :=
  let x := u32_add (u32_add x 0x7ed55d16) (u32_shl x 12) in
  let x := Z.lxor (Z.lxor x 0xc761c23c) (Z.shiftr x 19) in
  let x := u32_add (u32_add x 0x165667b1) (u32_shl x 5) in
  let x := Z.lxor (u32_add x 0xd3a2646c) (u32_shl x 9) in
  let x := u32_add (u32_add x 0xfd7046c5) (u32_shl x 3) in
  Z.lxor (Z.lxor x 0xb55a4f09) (Z.shiftr x 16).

(** [sort_by_cached_key]: a stable sort, here by insertion. *)
Fixpoint insert_by_key {A} (key : A → Z) (x : A) (l : list A) : list A :=
  match l with
  | [] => [x]
  | y :: l' => if decide (key x <= key y)%Z then x :: l else y :: insert_by_key key x l'
  end.
Definition sort_by_cached_key {A} (key : A → Z) (l : list A) : list A :=
  foldr (insert_by_key key) [] l.

Lemma insert_by_key_Permutation {A} (key : A → Z) x l : insert_by_key key x l ≡ₚ x :: l.
Proof.
  induction l as [|y l IH]; simpl; [done|]. case_decide; [done|].
  rewrite IH. apply Permutation_swap.
Qed.

Lemma sort_Permutation {A} (key : A → Z) l : sort_by_cached_key key l ≡ₚ l.
Proof.
  unfold sort_by_cached_key. induction l as [|x l IH]; simpl; [done|].
  by rewrite insert_by_key_Permutation, IH.
Qed.

(** ** ClientExtensions *)

Module ClientExtensions.
(* @src rustls/src/msgs/client_hello.rs 138-243 ClientExtensions *)
Record t := mk {
  server_name : option ServerNamePayload.t;
  certificate_status_request : option CertificateStatusRequest.t;
  named_groups : option (list NamedGroup.t);
  ec_point_formats : option SupportedEcPointFormats.t;
  signature_schemes : option (list SignatureScheme.t);
  protocols : option (list ApplicationProtocol.t);
  client_certificate_types : option (list CertificateType.t);
  server_certificate_types : option (list CertificateType.t);
  extended_main_secret_request : option unit;
  certificate_compression_algorithms : option (list CertificateCompressionAlgorithm.t);
  session_ticket : option ClientSessionTicket.t;
  preshared_key_offer : option PresharedKeyOffer.t;
  early_data_request : option unit;
  supported_versions : option SupportedProtocolVersions.t;
  cookie : option (SizedPayload PayloadSize.U16 Cardinality.NonEmpty);
  preshared_key_modes : option PskKeyExchangeModes.t;
  certificate_authority_names : option (list DistinguishedName.t);
  key_shares : option (list KeyShareEntry.t);
  transport_parameters : option Payload;
  ticket_request : option ClientTicketRequest.t;
  renegotiation_info : option (SizedPayload PayloadSize.U8 Cardinality.MaybeEmpty);
  encrypted_client_hello : option EncryptedClientHello.t;
  encrypted_client_hello_outer : option (list ExtensionType.t);
  order_seed : Z;
  contiguous_extensions : list ExtensionType.t;
}.

Section struct.
Context `{!PkiTypes}.

(* @src rustls/src/msgs/client_hello.rs 138-243 ClientExtensions *)
#[global] Instance struct : ExtensionStruct t := {
  struct_name := "ClientExtensions";
  es_default := mk None None None None None None None None None None None None None None None None
    None None None None None None None 0 [];
  fields := [
    Field ExtensionType.ServerName server_name
      (λ v s, mk v (certificate_status_request s) (named_groups s) (ec_point_formats s)
           (signature_schemes s) (protocols s) (client_certificate_types s)
           (server_certificate_types s) (extended_main_secret_request s)
           (certificate_compression_algorithms s) (session_ticket s)
           (preshared_key_offer s) (early_data_request s) (supported_versions s) (cookie s)
           (preshared_key_modes s) (certificate_authority_names s) (key_shares s)
           (transport_parameters s) (ticket_request s) (renegotiation_info s)
           (encrypted_client_hello s) (encrypted_client_hello_outer s) (order_seed s)
           (contiguous_extensions s))
      ServerNamePayload.valid;
    Field ExtensionType.StatusRequest certificate_status_request
      (λ v s, mk (server_name s) v (named_groups s) (ec_point_formats s) (signature_schemes s)
           (protocols s) (client_certificate_types s) (server_certificate_types s)
           (extended_main_secret_request s) (certificate_compression_algorithms s)
           (session_ticket s) (preshared_key_offer s) (early_data_request s)
           (supported_versions s) (cookie s) (preshared_key_modes s)
           (certificate_authority_names s) (key_shares s) (transport_parameters s)
           (ticket_request s) (renegotiation_info s) (encrypted_client_hello s)
           (encrypted_client_hello_outer s) (order_seed s) (contiguous_extensions s))
      CertificateStatusRequest.valid;
    Field ExtensionType.EllipticCurves named_groups
      (λ v s, mk (server_name s) (certificate_status_request s) v (ec_point_formats s)
           (signature_schemes s) (protocols s) (client_certificate_types s)
           (server_certificate_types s) (extended_main_secret_request s)
           (certificate_compression_algorithms s) (session_ticket s)
           (preshared_key_offer s) (early_data_request s) (supported_versions s) (cookie s)
           (preshared_key_modes s) (certificate_authority_names s) (key_shares s)
           (transport_parameters s) (ticket_request s) (renegotiation_info s)
           (encrypted_client_hello s) (encrypted_client_hello_outer s) (order_seed s)
           (contiguous_extensions s))
      (vec_valid (λ x, is_u16 (NamedGroup.val x)));
    Field ExtensionType.ECPointFormats ec_point_formats
      (λ v s, mk (server_name s) (certificate_status_request s) (named_groups s) v
           (signature_schemes s) (protocols s) (client_certificate_types s)
           (server_certificate_types s) (extended_main_secret_request s)
           (certificate_compression_algorithms s) (session_ticket s)
           (preshared_key_offer s) (early_data_request s) (supported_versions s) (cookie s)
           (preshared_key_modes s) (certificate_authority_names s) (key_shares s)
           (transport_parameters s) (ticket_request s) (renegotiation_info s)
           (encrypted_client_hello s) (encrypted_client_hello_outer s) (order_seed s)
           (contiguous_extensions s))
      SupportedEcPointFormats.valid;
    Field ExtensionType.SignatureAlgorithms signature_schemes
      (λ v s, mk (server_name s) (certificate_status_request s) (named_groups s)
           (ec_point_formats s) v (protocols s) (client_certificate_types s)
           (server_certificate_types s) (extended_main_secret_request s)
           (certificate_compression_algorithms s) (session_ticket s)
           (preshared_key_offer s) (early_data_request s) (supported_versions s) (cookie s)
           (preshared_key_modes s) (certificate_authority_names s) (key_shares s)
           (transport_parameters s) (ticket_request s) (renegotiation_info s)
           (encrypted_client_hello s) (encrypted_client_hello_outer s) (order_seed s)
           (contiguous_extensions s))
      (vec_valid (λ x, is_u16 (SignatureScheme.val x)));
    Field ExtensionType.ALProtocolNegotiation protocols
      (λ v s, mk (server_name s) (certificate_status_request s) (named_groups s)
           (ec_point_formats s) (signature_schemes s) v (client_certificate_types s)
           (server_certificate_types s) (extended_main_secret_request s)
           (certificate_compression_algorithms s) (session_ticket s)
           (preshared_key_offer s) (early_data_request s) (supported_versions s) (cookie s)
           (preshared_key_modes s) (certificate_authority_names s) (key_shares s)
           (transport_parameters s) (ticket_request s) (renegotiation_info s)
           (encrypted_client_hello s) (encrypted_client_hello_outer s) (order_seed s)
           (contiguous_extensions s))
      (vec_valid ApplicationProtocol.valid);
    Field ExtensionType.ClientCertificateType client_certificate_types
      (λ v s, mk (server_name s) (certificate_status_request s) (named_groups s)
           (ec_point_formats s) (signature_schemes s) (protocols s) v
           (server_certificate_types s) (extended_main_secret_request s)
           (certificate_compression_algorithms s) (session_ticket s)
           (preshared_key_offer s) (early_data_request s) (supported_versions s) (cookie s)
           (preshared_key_modes s) (certificate_authority_names s) (key_shares s)
           (transport_parameters s) (ticket_request s) (renegotiation_info s)
           (encrypted_client_hello s) (encrypted_client_hello_outer s) (order_seed s)
           (contiguous_extensions s))
      (vec_valid (λ _, True));
    Field ExtensionType.ServerCertificateType server_certificate_types
      (λ v s, mk (server_name s) (certificate_status_request s) (named_groups s)
           (ec_point_formats s) (signature_schemes s) (protocols s)
           (client_certificate_types s) v (extended_main_secret_request s)
           (certificate_compression_algorithms s) (session_ticket s)
           (preshared_key_offer s) (early_data_request s) (supported_versions s) (cookie s)
           (preshared_key_modes s) (certificate_authority_names s) (key_shares s)
           (transport_parameters s) (ticket_request s) (renegotiation_info s)
           (encrypted_client_hello s) (encrypted_client_hello_outer s) (order_seed s)
           (contiguous_extensions s))
      (vec_valid (λ _, True));
    Field ExtensionType.ExtendedMainSecret extended_main_secret_request
      (λ v s, mk (server_name s) (certificate_status_request s) (named_groups s)
           (ec_point_formats s) (signature_schemes s) (protocols s)
           (client_certificate_types s) (server_certificate_types s) v
           (certificate_compression_algorithms s) (session_ticket s)
           (preshared_key_offer s) (early_data_request s) (supported_versions s) (cookie s)
           (preshared_key_modes s) (certificate_authority_names s) (key_shares s)
           (transport_parameters s) (ticket_request s) (renegotiation_info s)
           (encrypted_client_hello s) (encrypted_client_hello_outer s) (order_seed s)
           (contiguous_extensions s))
      (λ _, True);
    Field ExtensionType.CompressCertificate certificate_compression_algorithms
      (λ v s, mk (server_name s) (certificate_status_request s) (named_groups s)
           (ec_point_formats s) (signature_schemes s) (protocols s)
           (client_certificate_types s) (server_certificate_types s)
           (extended_main_secret_request s) v (session_ticket s) (preshared_key_offer s)
           (early_data_request s) (supported_versions s) (cookie s) (preshared_key_modes s)
           (certificate_authority_names s) (key_shares s) (transport_parameters s)
           (ticket_request s) (renegotiation_info s) (encrypted_client_hello s)
           (encrypted_client_hello_outer s) (order_seed s) (contiguous_extensions s))
      (vec_valid (λ x, is_u16 (CertificateCompressionAlgorithm.val x)));
    Field ExtensionType.SessionTicket session_ticket
      (λ v s, mk (server_name s) (certificate_status_request s) (named_groups s)
           (ec_point_formats s) (signature_schemes s) (protocols s)
           (client_certificate_types s) (server_certificate_types s)
           (extended_main_secret_request s) (certificate_compression_algorithms s) v
           (preshared_key_offer s) (early_data_request s) (supported_versions s) (cookie s)
           (preshared_key_modes s) (certificate_authority_names s) (key_shares s)
           (transport_parameters s) (ticket_request s) (renegotiation_info s)
           (encrypted_client_hello s) (encrypted_client_hello_outer s) (order_seed s)
           (contiguous_extensions s))
      ClientSessionTicket.valid;
    Field ExtensionType.PreSharedKey preshared_key_offer
      (λ v s, mk (server_name s) (certificate_status_request s) (named_groups s)
           (ec_point_formats s) (signature_schemes s) (protocols s)
           (client_certificate_types s) (server_certificate_types s)
           (extended_main_secret_request s) (certificate_compression_algorithms s)
           (session_ticket s) v (early_data_request s) (supported_versions s) (cookie s)
           (preshared_key_modes s) (certificate_authority_names s) (key_shares s)
           (transport_parameters s) (ticket_request s) (renegotiation_info s)
           (encrypted_client_hello s) (encrypted_client_hello_outer s) (order_seed s)
           (contiguous_extensions s))
      PresharedKeyOffer.valid;
    Field ExtensionType.EarlyData early_data_request
      (λ v s, mk (server_name s) (certificate_status_request s) (named_groups s)
           (ec_point_formats s) (signature_schemes s) (protocols s)
           (client_certificate_types s) (server_certificate_types s)
           (extended_main_secret_request s) (certificate_compression_algorithms s)
           (session_ticket s) (preshared_key_offer s) v (supported_versions s) (cookie s)
           (preshared_key_modes s) (certificate_authority_names s) (key_shares s)
           (transport_parameters s) (ticket_request s) (renegotiation_info s)
           (encrypted_client_hello s) (encrypted_client_hello_outer s) (order_seed s)
           (contiguous_extensions s))
      (λ _, True);
    Field ExtensionType.SupportedVersions supported_versions
      (λ v s, mk (server_name s) (certificate_status_request s) (named_groups s)
           (ec_point_formats s) (signature_schemes s) (protocols s)
           (client_certificate_types s) (server_certificate_types s)
           (extended_main_secret_request s) (certificate_compression_algorithms s)
           (session_ticket s) (preshared_key_offer s) (early_data_request s) v (cookie s)
           (preshared_key_modes s) (certificate_authority_names s) (key_shares s)
           (transport_parameters s) (ticket_request s) (renegotiation_info s)
           (encrypted_client_hello s) (encrypted_client_hello_outer s) (order_seed s)
           (contiguous_extensions s))
      SupportedProtocolVersions.valid;
    Field ExtensionType.Cookie cookie
      (λ v s, mk (server_name s) (certificate_status_request s) (named_groups s)
           (ec_point_formats s) (signature_schemes s) (protocols s)
           (client_certificate_types s) (server_certificate_types s)
           (extended_main_secret_request s) (certificate_compression_algorithms s)
           (session_ticket s) (preshared_key_offer s) (early_data_request s)
           (supported_versions s) v (preshared_key_modes s) (certificate_authority_names s)
           (key_shares s) (transport_parameters s) (ticket_request s)
           (renegotiation_info s) (encrypted_client_hello s)
           (encrypted_client_hello_outer s) (order_seed s) (contiguous_extensions s))
      sized_valid;
    Field ExtensionType.PSKKeyExchangeModes preshared_key_modes
      (λ v s, mk (server_name s) (certificate_status_request s) (named_groups s)
           (ec_point_formats s) (signature_schemes s) (protocols s)
           (client_certificate_types s) (server_certificate_types s)
           (extended_main_secret_request s) (certificate_compression_algorithms s)
           (session_ticket s) (preshared_key_offer s) (early_data_request s)
           (supported_versions s) (cookie s) v (certificate_authority_names s)
           (key_shares s) (transport_parameters s) (ticket_request s)
           (renegotiation_info s) (encrypted_client_hello s)
           (encrypted_client_hello_outer s) (order_seed s) (contiguous_extensions s))
      PskKeyExchangeModes.valid;
    Field ExtensionType.CertificateAuthorities certificate_authority_names
      (λ v s, mk (server_name s) (certificate_status_request s) (named_groups s)
           (ec_point_formats s) (signature_schemes s) (protocols s)
           (client_certificate_types s) (server_certificate_types s)
           (extended_main_secret_request s) (certificate_compression_algorithms s)
           (session_ticket s) (preshared_key_offer s) (early_data_request s)
           (supported_versions s) (cookie s) (preshared_key_modes s) v (key_shares s)
           (transport_parameters s) (ticket_request s) (renegotiation_info s)
           (encrypted_client_hello s) (encrypted_client_hello_outer s) (order_seed s)
           (contiguous_extensions s))
      (vec_valid DistinguishedName.valid);
    Field ExtensionType.KeyShare key_shares
      (λ v s, mk (server_name s) (certificate_status_request s) (named_groups s)
           (ec_point_formats s) (signature_schemes s) (protocols s)
           (client_certificate_types s) (server_certificate_types s)
           (extended_main_secret_request s) (certificate_compression_algorithms s)
           (session_ticket s) (preshared_key_offer s) (early_data_request s)
           (supported_versions s) (cookie s) (preshared_key_modes s)
           (certificate_authority_names s) v (transport_parameters s) (ticket_request s)
           (renegotiation_info s) (encrypted_client_hello s)
           (encrypted_client_hello_outer s) (order_seed s) (contiguous_extensions s))
      (vec_valid KeyShareEntry.valid);
    Field ExtensionType.TransportParameters transport_parameters
      (λ v s, mk (server_name s) (certificate_status_request s) (named_groups s)
           (ec_point_formats s) (signature_schemes s) (protocols s)
           (client_certificate_types s) (server_certificate_types s)
           (extended_main_secret_request s) (certificate_compression_algorithms s)
           (session_ticket s) (preshared_key_offer s) (early_data_request s)
           (supported_versions s) (cookie s) (preshared_key_modes s)
           (certificate_authority_names s) (key_shares s) v (ticket_request s)
           (renegotiation_info s) (encrypted_client_hello s)
           (encrypted_client_hello_outer s) (order_seed s) (contiguous_extensions s))
      (λ _, True);
    Field ExtensionType.TicketRequest ticket_request
      (λ v s, mk (server_name s) (certificate_status_request s) (named_groups s)
           (ec_point_formats s) (signature_schemes s) (protocols s)
           (client_certificate_types s) (server_certificate_types s)
           (extended_main_secret_request s) (certificate_compression_algorithms s)
           (session_ticket s) (preshared_key_offer s) (early_data_request s)
           (supported_versions s) (cookie s) (preshared_key_modes s)
           (certificate_authority_names s) (key_shares s) (transport_parameters s) v
           (renegotiation_info s) (encrypted_client_hello s)
           (encrypted_client_hello_outer s) (order_seed s) (contiguous_extensions s))
      (λ _, True);
    Field ExtensionType.RenegotiationInfo renegotiation_info
      (λ v s, mk (server_name s) (certificate_status_request s) (named_groups s)
           (ec_point_formats s) (signature_schemes s) (protocols s)
           (client_certificate_types s) (server_certificate_types s)
           (extended_main_secret_request s) (certificate_compression_algorithms s)
           (session_ticket s) (preshared_key_offer s) (early_data_request s)
           (supported_versions s) (cookie s) (preshared_key_modes s)
           (certificate_authority_names s) (key_shares s) (transport_parameters s)
           (ticket_request s) v (encrypted_client_hello s) (encrypted_client_hello_outer s)
           (order_seed s) (contiguous_extensions s))
      sized_valid;
    Field ExtensionType.EncryptedClientHello encrypted_client_hello
      (λ v s, mk (server_name s) (certificate_status_request s) (named_groups s)
           (ec_point_formats s) (signature_schemes s) (protocols s)
           (client_certificate_types s) (server_certificate_types s)
           (extended_main_secret_request s) (certificate_compression_algorithms s)
           (session_ticket s) (preshared_key_offer s) (early_data_request s)
           (supported_versions s) (cookie s) (preshared_key_modes s)
           (certificate_authority_names s) (key_shares s) (transport_parameters s)
           (ticket_request s) (renegotiation_info s) v (encrypted_client_hello_outer s)
           (order_seed s) (contiguous_extensions s))
      EncryptedClientHello.valid;
    Field ExtensionType.EncryptedClientHelloOuterExtensions encrypted_client_hello_outer
      (λ v s, mk (server_name s) (certificate_status_request s) (named_groups s)
           (ec_point_formats s) (signature_schemes s) (protocols s)
           (client_certificate_types s) (server_certificate_types s)
           (extended_main_secret_request s) (certificate_compression_algorithms s)
           (session_ticket s) (preshared_key_offer s) (early_data_request s)
           (supported_versions s) (cookie s) (preshared_key_modes s)
           (certificate_authority_names s) (key_shares s) (transport_parameters s)
           (ticket_request s) (renegotiation_info s) (encrypted_client_hello s) v
           (order_seed s) (contiguous_extensions s))
      (vec_valid (λ x, is_u16 (ExtensionType.val x)))
  ];
}.

Definition meta (s : t) : Z * list ExtensionType.t := (order_seed s, contiguous_extensions s).

Definition with_meta (seed : Z) (contiguous : list ExtensionType.t) (s : t) : t :=
  mk (server_name s) (certificate_status_request s) (named_groups s) (ec_point_formats s)
    (signature_schemes s) (protocols s) (client_certificate_types s)
    (server_certificate_types s) (extended_main_secret_request s)
    (certificate_compression_algorithms s) (session_ticket s) (preshared_key_offer s)
    (early_data_request s) (supported_versions s) (cookie s) (preshared_key_modes s)
    (certificate_authority_names s) (key_shares s) (transport_parameters s) (ticket_request
    s) (renegotiation_info s) (encrypted_client_hello s) (encrypted_client_hello_outer s)
    seed contiguous.

(** [compressed.encrypted_client_hello_outer = v]. *)
Definition with_outer (v : option (list ExtensionType.t)) (s : t) : t :=
  mk (server_name s) (certificate_status_request s) (named_groups s) (ec_point_formats s)
    (signature_schemes s) (protocols s) (client_certificate_types s)
    (server_certificate_types s) (extended_main_secret_request s)
    (certificate_compression_algorithms s) (session_ticket s) (preshared_key_offer s)
    (early_data_request s) (supported_versions s) (cookie s) (preshared_key_modes s)
    (certificate_authority_names s) (key_shares s) (transport_parameters s) (ticket_request
    s) (renegotiation_info s) (encrypted_client_hello s) v (order_seed s)
    (contiguous_extensions s).

#[global] Instance struct_laws : ExtensionLaws t meta.
Proof.
  split.
  1: apply (bool_decide_unpack _); vm_compute; exact I.
  1: repeat (apply Forall_cons; split; [split; vm_compute; congruence|]); apply Forall_nil; done.
  1-3: solve_fields.
  - intros f v s Hf. each_field Hf; done.
  - intros f g v s Hf Hg Hne. each_field Hf; each_field Hg; (done || by destruct Hne).
  - intros f v s Hf. each_field Hf; done.
  - intros s1 s2 Hslots Hmeta. destruct s1, s2. cbn in Hslots. rewrite !Forall_cons in Hslots.
    cbn in Hslots. injection Hmeta as ? ?. destruct_and?. by subst.
Qed.

(** ** The order of a ClientHello's extensions *)

(* @src rustls/src/msgs/client_hello.rs 327-359 order_insensitive_extensions_in_random_order *)
Definition order_insensitive_extensions_in_random_order (self : t) : list ExtensionType.t :=
  let order := filter (λ ext,
    ¬ (ext ∈ [ExtensionType.PreSharedKey; ExtensionType.EncryptedClientHello;
              ExtensionType.EncryptedClientHelloOuterExtensions] ∨
       ext ∈ contiguous_extensions self)) (collect_used self) in
  sort_by_cached_key (λ new_ext,
    let seed := Z.lor (u32_shl (order_seed self) 16) (ExtensionType.val new_ext) in
    low_quality_integer_hash seed) order.

(* @src rustls/src/msgs/client_hello.rs 308-325 used_extensions_in_encoding_order *)
Definition used_extensions_in_encoding_order (self : t) : list ExtensionType.t :=
  let exts := order_insensitive_extensions_in_random_order self in
  let exts := exts ++ contiguous_extensions self in
  let exts := exts ++ match encrypted_client_hello_outer self with
                      | Some _ => [ExtensionType.EncryptedClientHelloOuterExtensions]
                      | None => []
                      end in
  let exts := exts ++ match encrypted_client_hello self with
                      | Some _ => [ExtensionType.EncryptedClientHello]
                      | None => []
                      end in
  exts ++ match preshared_key_offer self with
          | Some _ => [ExtensionType.PreSharedKey]
          | None => []
          end.

(** The closure of [read_one], with the duplicate checker it captures. *)
(* @src rustls/src/msgs/client_hello.rs 390-400 ClientExtensions::read::closure *)
Definition unknown_extension (unknown : ExtensionType.t) (checker : DuplicateExtensionChecker.t)
    : result InvalidMessage.t DuplicateExtensionChecker.t :=
  if decide (unknown = ExtensionType.OIDFilters)
  then Err (InvalidMessage.MisplacedExtension (ExtensionType.val unknown))
  else DuplicateExtensionChecker.check unknown checker.

(** What follows [read_one] in a turn of the loop. *)
(* @src rustls/src/msgs/client_hello.rs 402-412 ClientExtensions::read::loop *)
Definition check_position {C} (typ : ExtensionType.t) (sub : list u8) (c : C)
    : result InvalidMessage.t C :=
  if decide (typ = ExtensionType.EncryptedClientHelloOuterExtensions)
  then Err (InvalidMessage.MisplacedExtension (ExtensionType.val typ))
  else if decide (typ = ExtensionType.PreSharedKey ∧ Reader.any_left sub = true)
  then Err InvalidMessage.PreSharedKeyIsNotFinalExtension
  else Ok c.

(* @src rustls/src/msgs/client_hello.rs 362-424 Codec_for_ClientExtensions *)
#[global] Instance codec : Codec t := {
  encode self bytes :=
    let order := used_extensions_in_encoding_order self in
    if decide (order = []) then bytes else encode_block order self bytes;
  read := λ r,
    (* extensions length can be absent if no extensions *)
    if negb (Reader.any_left r) then Ok (es_default, r)
    else
      ('(out, _) ← read_block unknown_extension check_position DuplicateExtensionChecker.new;
       match certificate_authority_names out with
       | Some [] => reader_fail InvalidMessage.IllegalEmptyCertificateAuthoritiesExtension
       | _ => mret out
       end) r;
}.

(** *** Laws *)

Definition special : list ExtensionType.t :=
  [ExtensionType.PreSharedKey; ExtensionType.EncryptedClientHello;
   ExtensionType.EncryptedClientHelloOuterExtensions].

(** The extensions that must be sent together are distinct and have no place of
    their own. *)
Definition contiguous_ok (s : t) : Prop :=
  NoDup (contiguous_extensions s) ∧ Forall (λ e, e ∉ special) (contiguous_extensions s).

Lemma insensitive_elem s e :
  e ∈ order_insensitive_extensions_in_random_order s ↔
    e ∈ collect_used s ∧ e ∉ special ∧ e ∉ contiguous_extensions s.
Proof.
  unfold order_insensitive_extensions_in_random_order. rewrite sort_Permutation.
  rewrite list_elem_of_filter. fold special. tauto.
Qed.

Lemma insensitive_nodup s : NoDup (order_insensitive_extensions_in_random_order s).
Proof.
  unfold order_insensitive_extensions_in_random_order. rewrite sort_Permutation.
  apply NoDup_filter, (collect_used_names meta).
Qed.

(** The three extensions that come last, in this order. *)
Definition last_part (s : t) : list ExtensionType.t :=
  match encrypted_client_hello_outer s with
  | Some _ => [ExtensionType.EncryptedClientHelloOuterExtensions] | None => [] end
  ++ match encrypted_client_hello s with
     | Some _ => [ExtensionType.EncryptedClientHello] | None => [] end
  ++ match preshared_key_offer s with Some _ => [ExtensionType.PreSharedKey] | None => [] end.

Lemma order_parts s :
  used_extensions_in_encoding_order s =
    order_insensitive_extensions_in_random_order s ++ contiguous_extensions s ++ last_part s.
Proof. unfold used_extensions_in_encoding_order, last_part. by rewrite <-!(assoc_L (++)). Qed.

Lemma last_part_special s : NoDup (last_part s) ∧ ∀ e, e ∈ last_part s → e ∈ special.
Proof.
  unfold last_part.
  destruct (encrypted_client_hello_outer s), (encrypted_client_hello s), (preshared_key_offer s);
    (split; [apply (bool_decide_unpack _); vm_compute; exact I|]).
  all: cbn [app]; unfold special; set_solver.
Qed.

Lemma order_nodup s : contiguous_ok s → NoDup (used_extensions_in_encoding_order s).
Proof.
  intros [Hc Hs]. rewrite Forall_forall in Hs. rewrite order_parts.
  destruct (last_part_special s) as [Hl Hls].
  apply NoDup_app. split_and!; [apply insensitive_nodup| |].
  - intros e (_ & Hns & Hnc)%insensitive_elem [Hin|Hin]%elem_of_app; [done|]. by apply Hls in Hin.
  - apply NoDup_app. split_and!; [done| |done]. intros e He Hin. by apply (Hs e He), Hls.
Qed.

Lemma collect_used_contains s e : e ∈ collect_used s ↔ contains s e = true.
Proof.
  unfold collect_used, contains. rewrite list_elem_of_fmap. split.
  - intros (f & -> & [Hs Hf]%list_elem_of_filter). rewrite (arm_id meta) by done.
    by apply bool_decide_eq_true.
  - destruct (arm e) as [f|] eqn:Ha; [|done]. intros Hs%bool_decide_eq_true.
    apply arm_Some in Ha as [Hf <-]. exists f. by rewrite list_elem_of_filter.
Qed.

Lemma special_used s e :
  e ∈ special → e ∈ collect_used s → e ∈ last_part s.
Proof.
  rewrite collect_used_contains. unfold special, last_part.
  intros [->|[->|[->|[]%not_elem_of_nil]%elem_of_cons]%elem_of_cons]%elem_of_cons Hc.
  - change (bool_decide (is_Some (preshared_key_offer s)) = true) in Hc.
    apply bool_decide_eq_true in Hc as [v ->]. set_solver.
  - change (bool_decide (is_Some (encrypted_client_hello s)) = true) in Hc.
    apply bool_decide_eq_true in Hc as [v ->]. set_solver.
  - change (bool_decide (is_Some (encrypted_client_hello_outer s)) = true) in Hc.
    apply bool_decide_eq_true in Hc as [v ->]. set_solver.
Qed.

Lemma order_names_used s : names_used (used_extensions_in_encoding_order s) s.
Proof.
  destruct (collect_used_names meta s) as [Hu _]. unfold names_used in *.
  rewrite Forall_forall in Hu |- *. intros f Hf Hs. specialize (Hu f Hf Hs).
  rewrite order_parts. destruct (decide (f_id f ∈ special)) as [Hsp|Hsp].
  { do 2 (apply elem_of_app; right). by apply special_used. }
  destruct (decide (f_id f ∈ contiguous_extensions s)) as [Hc|Hc]; [set_solver|].
  apply elem_of_app. left. by apply insensitive_elem.
Qed.

(** Positions are accepted when the marker of compressed extensions is absent and
    nothing follows a PSK offer. *)
Lemma checks_position {C} (l : list (ExtensionType.t * list u8)) (c : C) :
  ExtensionType.EncryptedClientHelloOuterExtensions ∉ l.*1 →
  (∀ l1 b l2, l = l1 ++ (ExtensionType.PreSharedKey, b) :: l2 → l2 = []) →
  checks check_position l c c.
Proof.
  induction l as [|[typ b] l IH]; intros Ho Hp; [done|]. cbn [fmap list_fmap fst] in Ho.
  apply not_elem_of_cons in Ho as [Hne Ho]. exists c. split.
  - unfold check_position. cbn [fst]. rewrite decide_False by congruence.
    rewrite decide_False; [done|]. intros [-> Hany].
    by rewrite (Hp [] b l) in Hany by done.
  - apply IH; [done|]. intros l1 b' l2 ->. by apply (Hp ((typ, b) :: l1) b').
Qed.

Lemma order_psk_last s :
  contiguous_ok s → ∃ pre, ExtensionType.PreSharedKey ∉ pre ∧
    used_extensions_in_encoding_order s =
      pre ++ match preshared_key_offer s with Some _ => [ExtensionType.PreSharedKey] | None => [] end.
Proof.
  intros [_ Hs]. rewrite Forall_forall in Hs. rewrite order_parts. unfold last_part.
  rewrite !(assoc_L (++)). eexists. split; [|done].
  rewrite !not_elem_of_app. split_and!.
  - intros (_ & Hns & _)%insensitive_elem. destruct Hns. unfold special. by left.
  - intros Hin%Hs. destruct Hin. unfold special. by left.
  - destruct (encrypted_client_hello_outer s); [|apply not_elem_of_nil].
    by intros [=]%list_elem_of_singleton.
  - destruct (encrypted_client_hello s); [|apply not_elem_of_nil].
    by intros [=]%list_elem_of_singleton.
Qed.

(** If only the last element of a list may be [x], nothing follows an [x]. *)
Lemma only_last {A} (x : A) (pre post l1 l2 : list A) :
  x ∉ pre → length post ≤ 1 → pre ++ post = l1 ++ x :: l2 → l2 = [].
Proof.
  intros Hx Hl Heq. destruct l2 as [|y l2' _] using rev_ind; [done|]. exfalso.
  destruct post as [|z [|]]; [..|simpl in Hl; lia].
  - rewrite app_nil_r in Heq. subst pre. set_solver.
  - rewrite app_comm_cons, app_assoc in Heq. apply app_inj_tail in Heq as [-> _]. set_solver.
Qed.

Lemma items_psk_last s l1 b l2 :
  contiguous_ok s →
  ext_items s (used_extensions_in_encoding_order s)
    = l1 ++ (ExtensionType.PreSharedKey, b) :: l2 → l2 = [].
Proof.
  intros Hc Heq. destruct (order_psk_last s Hc) as (pre & Hpre & Ho).
  apply (f_equal (fmap fst)) in Heq. rewrite ext_items_types, Ho, filter_app, fmap_app in Heq.
  apply only_last in Heq; [by apply fmap_nil_inv in Heq| |].
  - by intros [_ ?]%list_elem_of_filter.
  - etrans; [apply length_filter|]. destruct (preshared_key_offer s); simpl; lia.
Qed.

Lemma items_no_outer s :
  contiguous_ok s → encrypted_client_hello_outer s = None →
  ExtensionType.EncryptedClientHelloOuterExtensions
    ∉ (ext_items s (used_extensions_in_encoding_order s)).*1.
Proof.
  intros [_ Hs] Hn. rewrite Forall_forall in Hs. rewrite ext_items_types, order_parts.
  intros [[b Hb] _]%list_elem_of_filter.
  change (body_of s _) with (encrypted_client_hello_outer s ≫= λ v, Some (get_encoding v)) in Hb.
  by rewrite Hn in Hb.
Qed.

(** The structures a ClientHello can be made of. *)
Definition sendable (s : t) : Prop :=
  es_valid s ∧ contiguous_ok s ∧ encrypted_client_hello_outer s = None ∧
  certificate_authority_names s ≠ Some [] ∧
  block_fits (used_extensions_in_encoding_order s) s.

(** What is sent is read back, up to the members that are not on the wire. *)
Lemma client_extensions_read s :
  sendable s → read (get_encoding s) = Ok (with_meta 0 [] s, []).
Proof.
  intros (Hv & Hc & Ho & Hca & Hf). unfold get_encoding. cbn [encode read codec].
  pose proof (order_names_used s) as Hn.
  assert (same_slots (with_meta 0 [] s) s) as Hs.
  { unfold same_slots. repeat (apply Forall_cons; split; [done|]). by apply Forall_nil. }
  case_decide as He.
  - cbn [Reader.any_left]. f_equal. f_equal. symmetry.
    apply (struct_ext (es_meta:=meta)); [|done]. rewrite He in Hn.
    unfold names_used in Hn. unfold same_slots in Hs. rewrite Forall_forall in *. intros f Hf'.
    rewrite Hs by done. pose proof (get_default (S:=t)) as Hd. rewrite Forall_forall in Hd.
    rewrite Hd by done. specialize (Hn f Hf'). destruct (f_get f s); [|done].
    by apply not_elem_of_nil in Hn; [|eauto].
  - rewrite <-(app_nil_r (encode_block _ _ _)).
    replace (negb (Reader.any_left _)) with false.
    + rewrite (bind_read_block meta _ _ _ s (with_meta 0 [] s) _ DuplicateExtensionChecker.new); try done.
      * cbn. by destruct (certificate_authority_names s) as [[]|].
      * by apply order_nodup.
      * apply checks_position; [by apply items_no_outer|]. intros l1 b l2. by apply items_psk_last.
    + symmetry. apply negb_false_iff, any_left_spec. rewrite (encode_block_spec meta).
      intros Hn'%(f_equal length). rewrite !length_app, be_bytes_length in Hn'.
      cbn [length] in Hn'. lia.
Qed.

#[global] Instance total : TotalRead t.
Proof.
  intros bs. cbn [read codec]. destruct (negb (Reader.any_left bs)); [done|].
  apply total_bind.
  - apply (total_read_block meta).
    + intros typ c. unfold unknown_extension. case_decide; [done|apply checker_check_total].
    + intros typ sub c. unfold check_position. by repeat case_decide.
  - intros [out c]. by destruct (certificate_authority_names out) as [[]|].
Qed.
End struct.
End ClientExtensions.

(** ** ClientHello *)

Module ClientHelloPayload.
(* @src rustls/src/msgs/client_hello.rs 31-39 ClientHelloPayload *)
Record t := mk {
  client_version : ProtocolVersion.t;
  random : Random.t;
  session_id : SessionId.t;
  cipher_suites : list CipherSuite.t;
  compression_methods : list Compression.t;
  extensions : ClientExtensions.t;
}.

Section codec.
Context `{!PkiTypes}.

(* @src rustls/src/msgs/client_hello.rs 48-81 ClientHelloPayload::payload_encode *)
Definition payload_encode (self : t) (purpose : Encoding.t) (bytes : list u8) : list u8 :=
  let bytes := encode (client_version self) bytes in
  let bytes := encode (random self) bytes in
  let bytes :=
    match purpose with
    (* SessionID is required to be empty in the encoded inner client hello. *)
    | Encoding.EchInnerHello _ => encode SessionId.empty bytes
    | _ => encode (session_id self) bytes
    end in
  let bytes := encode (cipher_suites self) bytes in
  let bytes := encode (compression_methods self) bytes in
  match purpose with
  | Encoding.EchInnerHello (e :: es) =>
      let to_compress := e :: es in
      (* First, eliminate the full-fat versions of the extensions *)
      let compressed := fold_left clear to_compress (extensions self) in
      (* Replace with the marker noting which extensions were elided. *)
      let compressed := ClientExtensions.with_outer (Some to_compress) compressed in
      encode compressed bytes
  | _ => encode (extensions self) bytes
  end.

(* @src rustls/src/msgs/client_hello.rs 42-46 ClientHelloPayload::ech_inner_encoding *)
Definition ech_inner_encoding (self : t) (to_compress : list ExtensionType.t) : list u8 :=
  payload_encode self (Encoding.EchInnerHello to_compress) [].

(* @src rustls/src/msgs/client_hello.rs 83-94 ClientHelloPayload::has_keyshare_extension_with_duplicates *)
Definition has_keyshare_extension_with_duplicates (self : t) : bool :=
  match ClientExtensions.key_shares (extensions self) with
  | Some entries => has_duplicates ((λ kse, NamedGroup.val (KeyShareEntry.group kse)) <$> entries)
  | None => false
  end.

(* @src rustls/src/msgs/client_hello.rs 96-102 ClientHelloPayload::has_certificate_compression_extension_with_duplicates *)
Definition has_certificate_compression_extension_with_duplicates (self : t) : bool :=
  match ClientExtensions.certificate_compression_algorithms (extensions self) with
  | Some algs => has_duplicates (CertificateCompressionAlgorithm.val <$> algs)
  | None => false
  end.

(* @src rustls/src/msgs/client_hello.rs 105-122 Codec_for_ClientHelloPayload *)
#[global] Instance codec : Codec t := {
  encode self bytes := payload_encode self Encoding.Standard bytes;
  read := Reader.all "ClientHelloPayload" (
    client_version ← read; random ← read; session_id ← read; cipher_suites ← read;
    compression_methods ← read; extensions ← read;
    mret (mk client_version random session_id cipher_suites compression_methods extensions));
}.

(** The hellos that can be sent. *)
Definition sendable (h : t) : Prop :=
  is_u16 (ProtocolVersion.val (client_version h)) ∧ Random.valid (random h) ∧
  SessionId.valid (session_id h) ∧
  vec_valid (λ x, is_u16 (CipherSuite.val x)) (cipher_suites h) ∧
  vec_valid (λ _, True) (compression_methods h) ∧
  ClientExtensions.sendable (extensions h).

Definition without_meta (h : t) : t :=
  mk (client_version h) (random h) (session_id h) (cipher_suites h) (compression_methods h)
    (ClientExtensions.with_meta 0 [] (extensions h)).

Lemma client_extensions_app (e : ClientExtensions.t) bytes : encode e bytes = bytes ++ encode e [].
Proof.
  cbn [encode ClientExtensions.codec]. case_decide; [by rewrite app_nil_r|].
  apply (encode_block_app ClientExtensions.meta).
Qed.

(** The encoding before the extensions. *)
Definition head (h : t) (s : SessionId.t) : list u8 :=
  get_encoding (client_version h) ++ get_encoding (random h) ++ get_encoding s
    ++ get_encoding (cipher_suites h) ++ get_encoding (compression_methods h).

Lemma client_hello_app h bytes :
  encode h bytes = bytes ++ head h (session_id h) ++ get_encoding (extensions h).
Proof.
  cbn [encode codec]. unfold payload_encode, head, get_encoding at 6.
  rewrite client_extensions_app. by encode_steps.
Qed.

(** What is sent is read back. *)
Lemma client_hello_read h :
  sendable h → read (get_encoding h) = Ok (without_meta h, []).
Proof.
  intros (Hv & Hr & Hs & Hc & Hm & He). unfold get_encoding at 1. rewrite client_hello_app.
  destruct h as [v r s c m e]. unfold head, without_meta.
  cbn [client_version random session_id cipher_suites compression_methods extensions] in *.
  rewrite app_nil_l. cbn [read codec]. apply reader_all_Ok. split; [done|]. read_steps.
  unfold mbind, reader_bind. by rewrite ClientExtensions.client_extensions_read.
Qed.

#[global] Instance total : TotalRead t.
Proof. unfold TotalRead. cbn [read codec]. apply total_all. auto 8 with total. Qed.
End codec.
End ClientHelloPayload.

(** ** Main results *)

Lemma unknown_extension_checked typ c c' :
  ClientExtensions.unknown_extension typ c = Ok c' → DuplicateExtensionChecker.check typ c = Ok c'.
Proof. unfold ClientExtensions.unknown_extension. by case_decide. Qed.

Lemma check_position_Ok {C} typ sub (c c' : C) :
  ClientExtensions.check_position typ sub c = Ok c' →
  c' = c ∧ typ ≠ ExtensionType.EncryptedClientHelloOuterExtensions ∧
  (typ = ExtensionType.PreSharedKey → sub = []).
Proof.
  unfold ClientExtensions.check_position. case_decide; [done|]. case_decide as Hp; [done|].
  intros [= <-]. split_and!; [done..|]. intros ->. destruct sub; [done|]. by destruct Hp.
Qed.

Lemma takes_all_position `{!PkiTypes} l (s : ClientExtensions.t) c s' c' :
  takes_all ClientExtensions.unknown_extension ClientExtensions.check_position l s c s' c' →
  ExtensionType.EncryptedClientHelloOuterExtensions ∉ l.*1 ∧ ExtensionType.OIDFilters ∉ l.*1 ∧
  (∀ l1 b l2, l = l1 ++ (ExtensionType.PreSharedKey, b) :: l2 → l2 = []).
Proof.
  revert s c. induction l as [|[typ b] l IH]; intros s c.
  { intros _. split_and!; [apply not_elem_of_nil..|]. by intros [|]. }
  intros (s1 & c1 & c2 & Ht & Hc & Hall). cbn [fst] in *.
  apply check_position_Ok in Hc as (-> & Hno & Hpsk). destruct (IH _ _ Hall) as (IH1 & IH2 & IH3).
  cbn [fmap list_fmap fst]. rewrite !not_elem_of_cons. split_and!; try done.
  - intros <-. destruct Ht as [_ Hu]. unfold ClientExtensions.unknown_extension in Hu.
    by rewrite decide_True in Hu.
  - intros [|[typ' b'] l1] b2 l2 [= -> -> ->]; [by apply tlvs_nil, Hpsk|by eapply IH3].
Qed.

(** C39. A ClientHello that is sent is read back by the server as it was: versions,
    random, session id, suites and every extension, whatever the order seed and
    the contiguous block chosen; only those two choices are not recovered. *)
Theorem client_hello_roundtrip `{!PkiTypes} (h : ClientHelloPayload.t)
    (Hs : ClientHelloPayload.sendable h) :
  read_bytes (get_encoding h) = Ok (ClientHelloPayload.without_meta h).
Proof.
  unfold read_bytes, Reader.all. by rewrite ClientHelloPayload.client_hello_read.
Qed.

(** The extensions of a ClientHello are read exactly: what is accepted is a list
    of extensions of distinct types, without oid_filters or ech_outer_extensions
    and with a pre_shared_key, if any, at the end; and each slot holds the body of
    the extension of its type, or nothing if there is none. *)
Theorem client_extensions_exact `{!PkiTypes} bs (s : ClientExtensions.t) rest
    (Hread : read bs = Ok (s, rest)) (Hsome : bs ≠ []) :
  ∃ l, bs = be_bytes 2 (Z.of_nat (length (concat (tlv <$> l)))) ++ concat (tlv <$> l) ++ rest ∧
    NoDup l.*1 ∧
    ExtensionType.EncryptedClientHelloOuterExtensions ∉ l.*1 ∧ ExtensionType.OIDFilters ∉ l.*1 ∧
    (∀ l1 b l2, l = l1 ++ (ExtensionType.PreSharedKey, b) :: l2 → l2 = []) ∧
    ∀ f v, f ∈ fields (S:=ClientExtensions.t) →
      f_get f s = Some v ↔ ∃ body, (f_id f, body) ∈ l ∧ read body = Ok (v, []).
Proof.
  cbn [read ClientExtensions.codec] in Hread.
  rewrite (proj2 (any_left_spec bs) Hsome) in Hread. cbn [negb] in Hread.
  apply reader_bind_Ok in Hread as ([out c] & r1 & Hread & Hca).
  apply read_block_inv in Hread as (l & _ & Hall & -> & _).
  assert (out = s ∧ r1 = rest) as [-> ->].
  { destruct (ClientExtensions.certificate_authority_names out) as [[|]|];
      [discriminate Hca|by injection Hca as <- <-..]. }
  exists l. split; [done|]. pose proof InlineSet.default_wf as [Hwf _]. split.
  - eapply (checked_nodup (S:=ClientExtensions.t) ClientExtensions.meta); [..|exact Hall|exact Hwf].
    + apply unknown_extension_checked.
    + intros ? ? ? ? Hc%check_position_Ok. apply Hc.
  - destruct (takes_all_position _ _ _ _ _ Hall) as (H1 & H2 & H3). split_and!; try done.
    intros f v Hf. by eapply (slots_exact ClientExtensions.meta).
Qed.

(** A hello with a server name, a PSK offer and a compressed block. *)
Definition sample_hello : ClientHelloPayload.t :=
  ClientHelloPayload.mk ProtocolVersion.TLSv1_2 (Random.new (replicate 32 x07)) SessionId.empty
    [CipherSuite.new 0x1301] [Compression.Null]
    (ClientExtensions.mk (Some (ServerNamePayload.SingleDnsName (byte_str "a.example"))) None
       (Some [NamedGroup.new 29]) None None (Some [ApplicationProtocol.Http2]) None None None None
       None
       (Some (PresharedKeyOffer.new (PresharedKeyIdentity.new [x01; x02] 5) (replicate 32 x09)))
       None (Some (SupportedProtocolVersions.mk true true)) None
       (Some (PskKeyExchangeModes.mk true false)) None
       (Some [KeyShareEntry.new (NamedGroup.new 29) (replicate 32 x05)]) None None None
       (Some EncryptedClientHello.Inner) None
       0x1234 [ExtensionType.SupportedVersions; ExtensionType.KeyShare]).

Lemma sample_sendable : let _ := any_names in ClientHelloPayload.sendable sample_hello.
Proof.
  intros names. split; [solve_closed|]. split; [solve_closed|].
  split; [split; [solve_closed|exists []; solve_closed]|].
  split; [solve_closed|]. split; [solve_closed|]. split.
  { unfold es_valid. cbn. repeat (apply Forall_cons; split; [cbn|]); [..|by apply Forall_nil].
    all: solve_closed. }
  split; [split; apply (bool_decide_unpack _); vm_compute; exact I|].
  split; [reflexivity|]. split; [discriminate|]. vm_compute. reflexivity.
Qed.

Lemma client_hello_roundtrip_witness :
  let _ := any_names in
  ClientHelloPayload.sendable sample_hello ∧
  read_bytes (get_encoding sample_hello) = Ok (ClientHelloPayload.without_meta sample_hello).
Proof.
  intros names. split; [exact sample_sendable|].
  exact (client_hello_roundtrip (H:=names) sample_hello sample_sendable).
Defined.

Lemma client_extensions_exact_witness :
  let _ := any_names in
  let bs := get_encoding (ClientHelloPayload.extensions sample_hello) in
  ∃ (s : ClientExtensions.t) (l : list (ExtensionType.t * list u8)), read bs = Ok (s, []) ∧
    ∀ f v, f ∈ fields (S:=ClientExtensions.t) →
      f_get f s = Some v ↔ ∃ body, (f_id f, body) ∈ l ∧ read body = Ok (v, []).
Proof.
  intros names bs.
  assert (read bs = Ok (ClientExtensions.with_meta 0 [] (ClientHelloPayload.extensions sample_hello), []))
    as Hread by (vm_compute; reflexivity).
  destruct (client_extensions_exact (H:=names) bs _ [] Hread) as (l & _ & _ & _ & _ & _ & Hl).
  - vm_compute. discriminate.
  - eexists _, l. split; [exact Hread|exact Hl].
Defined.
