(* ===== verification/Messages.v ===== *)
(** * Messages ([rustls/src/msgs/mod.rs])

    Handshake messages with their type and length, alerts, change_cipher_spec,
    and the passage between messages and records. *)
From stdpp Require Import gmap.
From S2P Require Import Prelude Enums Errors Codec Records Extensions Payloads.
From S2P Require Import ServerHello ClientHello.

Module HandshakePayload.
(* @src rustls/src/msgs/mod.rs 535-559 HandshakePayload *)
Inductive t :=
  | HelloRequest
  | ClientHello (x : ClientHelloPayload.t)
  | ServerHello (x : ServerHelloPayload.t)
  | HelloRetryRequest (x : HelloRetryRequest.t)
  | Certificate (x : CertificateChain.t)
  | CertificateTls13 (x : CertificatePayloadTls13.t)
  | CompressedCertificate (x : CompressedCertificatePayload.t)
  | ServerKeyExchange (x : ServerKeyExchangePayload.t)
  | CertificateRequest (x : CertificateRequestPayload.t)
  | CertificateRequestTls13 (x : CertificateRequestPayloadTls13.t)
  | CertificateVerify (x : DigitallySignedStruct.t)
  | ServerHelloDone
  | EndOfEarlyData
  | ClientKeyExchange (x : Payload)
  | NewSessionTicket (x : NewSessionTicketPayload.t)
  | NewSessionTicketTls13 (x : NewSessionTicketPayloadTls13.t)
  | EncryptedExtensions (x : EncryptedExtensions.t)
  | KeyUpdate (x : KeyUpdateRequest.t)
  | Finished (x : Payload)
  | CertificateStatus (x : CertificateStatus.t)
  | MessageHash (x : Payload)
  | Unknown (typ : HandshakeType.t) (x : Payload).

(* @src rustls/src/msgs/mod.rs 588-611 HandshakePayload::handshake_type *)
Definition handshake_type (self : t) : HandshakeType.t :=
  match self with
  | HelloRequest => HandshakeType.HelloRequest
  | ClientHello _ => HandshakeType.ClientHello
  | ServerHello _ => HandshakeType.ServerHello
  | HelloRetryRequest _ => HandshakeType.HelloRetryRequest
  | Certificate _ | CertificateTls13 _ => HandshakeType.Certificate
  | CompressedCertificate _ => HandshakeType.CompressedCertificate
  | ServerKeyExchange _ => HandshakeType.ServerKeyExchange
  | CertificateRequest _ | CertificateRequestTls13 _ => HandshakeType.CertificateRequest
  | CertificateVerify _ => HandshakeType.CertificateVerify
  | ServerHelloDone => HandshakeType.ServerHelloDone
  | EndOfEarlyData => HandshakeType.EndOfEarlyData
  | ClientKeyExchange _ => HandshakeType.ClientKeyExchange
  | NewSessionTicket _ | NewSessionTicketTls13 _ => HandshakeType.NewSessionTicket
  | EncryptedExtensions _ => HandshakeType.EncryptedExtensions
  | KeyUpdate _ => HandshakeType.KeyUpdate
  | Finished _ => HandshakeType.Finished
  | CertificateStatus _ => HandshakeType.CertificateStatus
  | MessageHash _ => HandshakeType.MessageHash
  | Unknown t _ => t
  end.

(* @src rustls/src/msgs/mod.rs 613-619 HandshakePayload::wire_handshake_type *)
Definition wire_handshake_type (self : t) : HandshakeType.t :=
  let typ := handshake_type self in
  if decide (typ = HandshakeType.HelloRetryRequest) then HandshakeType.ServerHello else typ.

Section codec.
Context `{!PkiTypes}.

(* @src rustls/src/msgs/mod.rs 562-586 HandshakePayload::encode *)
Definition encode (self : t) (bytes : list u8) : list u8 :=
  match self with
  | HelloRequest | ServerHelloDone | EndOfEarlyData => bytes
  | ClientHello x => Codec.encode x bytes
  | ServerHello x => Codec.encode x bytes
  | HelloRetryRequest x => Codec.encode x bytes
  | Certificate x => Codec.encode x bytes
  | CertificateTls13 x => Codec.encode x bytes
  | CompressedCertificate x => Codec.encode x bytes
  | ServerKeyExchange x => Codec.encode x bytes
  | ClientKeyExchange x => Codec.encode x bytes
  | CertificateRequest x => Codec.encode x bytes
  | CertificateRequestTls13 x => Codec.encode x bytes
  | CertificateVerify x => Codec.encode x bytes
  | NewSessionTicket x => Codec.encode x bytes
  | NewSessionTicketTls13 x => Codec.encode x bytes
  | EncryptedExtensions x => Codec.encode x bytes
  | KeyUpdate x => Codec.encode x bytes
  | Finished x => Codec.encode x bytes
  | CertificateStatus x => Codec.encode x bytes
  | MessageHash x => Codec.encode x bytes
  | Unknown _ x => Codec.encode x bytes
  end.
End codec.
End HandshakePayload.

Module HandshakeMessagePayload.
(* @src rustls/src/msgs/mod.rs 367-368 HandshakeMessagePayload *)
Record t := mk { inner : HandshakePayload.t }.

Section codec.
Context `{!PkiTypes}.
Import HandshakePayload (HelloRequest, ClientHello, ServerHello, HelloRetryRequest, Certificate,
  CertificateTls13, CompressedCertificate, ServerKeyExchange, CertificateRequest,
  CertificateRequestTls13, CertificateVerify, ServerHelloDone, EndOfEarlyData, ClientKeyExchange,
  NewSessionTicket, NewSessionTicketTls13, EncryptedExtensions, KeyUpdate, Finished,
  CertificateStatus, MessageHash, Unknown).

(** A ServerHello whose random is the magic value is a HelloRetryRequest. *)
(* @src rustls/src/msgs/mod.rs 396-410 HandshakeMessagePayload::read_version::match *)
Definition read_server_hello : reader HandshakePayload.t :=
  version ← (read : reader ProtocolVersion.t);
  random ← (read : reader Random.t);
  if decide (random = Random.HELLO_RETRY_REQUEST_RANDOM) then
    hrr ← (read : reader HelloRetryRequest.t);
    mret (HelloRetryRequest (HelloRetryRequest.with_version version hrr))
  else
    shp ← (read : reader ServerHelloPayload.t);
    mret (ServerHello (ServerHelloPayload.with_head version random shp)).

(** The [match typ], in the order of its arms. *)
(* @src rustls/src/msgs/mod.rs 388-468 HandshakeMessagePayload::read_version::match *)
Definition read_payload (vers : ProtocolVersion.t) (typ : HandshakeType.t)
    : reader HandshakePayload.t := λ sub,
  if decide (typ = HandshakeType.HelloRequest ∧ Reader.left sub = 0) then Ok (HelloRequest, sub)
  else (
    if decide (typ = HandshakeType.ClientHello) then ClientHello <$> read
    else if decide (typ = HandshakeType.ServerHello) then read_server_hello
    else if decide (typ = HandshakeType.Certificate ∧ vers = ProtocolVersion.TLSv1_3)
    then CertificateTls13 <$> read
    else if decide (typ = HandshakeType.Certificate) then Certificate <$> read
    else if decide (typ = HandshakeType.ServerKeyExchange) then ServerKeyExchange <$> read
    else if decide (typ = HandshakeType.ServerHelloDone) then mret ServerHelloDone
    else if decide (typ = HandshakeType.ClientKeyExchange) then ClientKeyExchange <$> read
    else if decide (typ = HandshakeType.CertificateRequest ∧ vers = ProtocolVersion.TLSv1_3)
    then CertificateRequestTls13 <$> read
    else if decide (typ = HandshakeType.CertificateRequest) then CertificateRequest <$> read
    else if decide (typ = HandshakeType.CompressedCertificate) then CompressedCertificate <$> read
    else if decide (typ = HandshakeType.CertificateVerify) then CertificateVerify <$> read
    else if decide (typ = HandshakeType.NewSessionTicket ∧ vers = ProtocolVersion.TLSv1_3)
    then NewSessionTicketTls13 <$> read
    else if decide (typ = HandshakeType.NewSessionTicket) then NewSessionTicket <$> read
    else if decide (typ = HandshakeType.EncryptedExtensions) then EncryptedExtensions <$> read
    else if decide (typ = HandshakeType.KeyUpdate) then KeyUpdate <$> read
    else if decide (typ = HandshakeType.EndOfEarlyData) then mret EndOfEarlyData
    else if decide (typ = HandshakeType.Finished) then Finished <$> read
    else if decide (typ = HandshakeType.CertificateStatus) then CertificateStatus <$> read
    else if decide (typ = HandshakeType.MessageHash)
    then reader_fail (InvalidMessage.UnexpectedMessage "MessageHash")
    else if decide (typ = HandshakeType.HelloRetryRequest)
    then reader_fail (InvalidMessage.UnexpectedMessage "HelloRetryRequest")
    else Unknown typ <$> (read : reader Payload)) sub.

(* @src rustls/src/msgs/mod.rs 381-472 HandshakeMessagePayload::read_version *)
Definition read_version (vers : ProtocolVersion.t) : reader t :=
  typ ← (read : reader HandshakeType.t);
  len ← u24_read;
  sub ← Reader.sub (Z.to_nat len);
  Reader.within sub (Reader.all "HandshakeMessagePayload" (mk <$> read_payload vers typ)).

(** [ListLength::U24] with no maximum and an error that [encode] never uses. *)
Definition message_length : ListLength.t :=
  ListLength.U24 (2 ^ 64 - 1) InvalidMessage.MessageTooLarge.

(* @src rustls/src/msgs/mod.rs 499-524 HandshakeMessagePayload::payload_encode *)
Definition payload_encode (self : t) (encoding : Encoding.t) (bytes : list u8) : list u8 :=
  let bytes := encode (HandshakePayload.wire_handshake_type (inner self)) bytes in
  LengthPrefixedBuffer.nest message_length
    (λ buf,
      match inner self with
      | ServerHello payload => ServerHelloPayload.payload_encode payload encoding buf
      | HelloRetryRequest payload => HelloRetryRequest.payload_encode payload encoding buf
      | p => HandshakePayload.encode p buf
      end) bytes.

(* @src rustls/src/msgs/mod.rs 370-378 Codec_for_HandshakeMessagePayload *)
#[global] Instance codec : Codec t := {
  encode self bytes := payload_encode self Encoding.Standard bytes;
  read := read_version ProtocolVersion.TLSv1_2;
}.

(* @src rustls/src/msgs/mod.rs 483-497 HandshakeMessagePayload::total_binder_length *)
Definition total_binder_length (self : t) : nat :=
  match inner self with
  | ClientHello ch =>
      match ClientExtensions.preshared_key_offer (ClientHelloPayload.extensions ch) with
      | Some offer => length (encode (PresharedKeyOffer.binders offer) [])
      | None => 0
      end
  | _ => 0
  end.

(* @src rustls/src/msgs/mod.rs 474-481 HandshakeMessagePayload::encoding_for_binder_signing *)
Definition encoding_for_binder_signing (self : t) : list u8 :=
  let ret := get_encoding self in
  take (length ret - total_binder_length self) ret.

(* @src rustls/src/msgs/mod.rs 526-528 HandshakeMessagePayload::build_handshake_hash *)
Definition build_handshake_hash (hash : list u8) : t := mk (MessageHash hash).

(** ** Handshake message laws *)

(** The types with an arm of their own. *)
Definition known_types : list HandshakeType.t :=
  [HandshakeType.ClientHello; HandshakeType.ServerHello; HandshakeType.Certificate;
   HandshakeType.ServerKeyExchange; HandshakeType.ServerHelloDone;
   HandshakeType.ClientKeyExchange; HandshakeType.CertificateRequest;
   HandshakeType.CompressedCertificate; HandshakeType.CertificateVerify;
   HandshakeType.NewSessionTicket; HandshakeType.EncryptedExtensions; HandshakeType.KeyUpdate;
   HandshakeType.EndOfEarlyData; HandshakeType.Finished; HandshakeType.CertificateStatus;
   HandshakeType.MessageHash; HandshakeType.HelloRetryRequest].

(** The payloads that can be sent in version [vers]. *)
Definition sendable (vers : ProtocolVersion.t) (p : HandshakePayload.t) : Prop :=
  match p with
  | HelloRequest | ServerHelloDone | EndOfEarlyData => True
  | ClientHello x => ClientHelloPayload.sendable x
  | ServerHello x => ServerHelloPayload.valid x ∧
      ServerHelloPayload.random x ≠ Random.HELLO_RETRY_REQUEST_RANDOM
  | HelloRetryRequest x => HelloRetryRequest.valid x
  | Certificate x => vers ≠ ProtocolVersion.TLSv1_3 ∧ CertificateChain.valid x
  | CertificateTls13 x => vers = ProtocolVersion.TLSv1_3 ∧ CertificatePayloadTls13.valid x
  | CompressedCertificate x => CompressedCertificatePayload.valid x
  | ServerKeyExchange x => ServerKeyExchangePayload.valid x
  | CertificateRequest x => vers ≠ ProtocolVersion.TLSv1_3 ∧ CertificateRequestPayload.valid x
  | CertificateRequestTls13 x =>
      vers = ProtocolVersion.TLSv1_3 ∧ CertificateRequestPayloadTls13.valid x
  | CertificateVerify x => DigitallySignedStruct.valid x
  | ClientKeyExchange _ | Finished _ | KeyUpdate _ => True
  | NewSessionTicket x => vers ≠ ProtocolVersion.TLSv1_3 ∧ NewSessionTicketPayload.valid x
  | NewSessionTicketTls13 x =>
      vers = ProtocolVersion.TLSv1_3 ∧ NewSessionTicketPayloadTls13.valid x
  | EncryptedExtensions x => EncryptedExtensions.valid x
  | CertificateStatus x => CertificateStatus.valid x
  | MessageHash _ => False
  | Unknown t x => t ∉ known_types ∧ (t = HandshakeType.HelloRequest → x ≠ [])
  end.

(** What the receiver sees: the order of a ClientHello's extensions is not kept. *)
Definition received (p : HandshakePayload.t) : HandshakePayload.t :=
  match p with ClientHello x => ClientHello (ClientHelloPayload.without_meta x) | p => p end.

Lemma payload_app p bytes :
  HandshakePayload.encode p bytes = bytes ++ HandshakePayload.encode p [].
Proof.
  destruct p; cbn [HandshakePayload.encode]; try (by rewrite app_nil_r);
    [ by rewrite !ClientHelloPayload.client_hello_app
    | by rewrite !ServerHelloPayload.server_hello_app
    | by rewrite !HelloRetryRequest.encode_standard
    | match goal with
      | |- Codec.encode ?x _ = _ =>
          let E := fresh in pose proof (body_encode_app x bytes) as E;
          unfold get_encoding in E; exact E
      end .. ].
Qed.

Lemma fmap_read_body {A B} `{BodyLaws A valid} (f : A → B) (v : A) :
  valid v → (f <$> read) (encode v []) = Ok (f v, []).
Proof.
  intros Hv. unfold fmap, reader_fmap. pose proof (body_read v Hv) as Hb.
  unfold get_encoding in Hb. by rewrite Hb.
Qed.

Lemma read_server_hello_sh x :
  ServerHelloPayload.valid x → ServerHelloPayload.random x ≠ Random.HELLO_RETRY_REQUEST_RANDOM →
  read_server_hello (encode x []) = Ok (ServerHello x, []).
Proof.
  intros Hv Hr. rewrite ServerHelloPayload.server_hello_app, app_nil_l. unfold read_server_hello.
  pose proof Hv as (Hv1 & Hr1 & _). rewrite bind_read_encode by done.
  rewrite bind_read_encode by done. rewrite decide_False by done.
  unfold mbind, reader_bind. rewrite ServerHelloPayload.server_hello_tail by done. by destruct x.
Qed.

Lemma read_server_hello_hrr x :
  HelloRetryRequest.valid x →
  read_server_hello (encode x []) = Ok (HelloRetryRequest x, []).
Proof.
  intros Hv. rewrite HelloRetryRequest.encode_standard, app_nil_l. unfold read_server_hello.
  pose proof Hv as (Hv1 & _). rewrite bind_read_encode by done.
  rewrite bind_read_encode by done. rewrite decide_True by done.
  unfold mbind, reader_bind. rewrite <-(app_nil_r (HelloRetryRequest.tail x)).
  rewrite HelloRetryRequest.read_tail by done. by destruct x.
Qed.

Lemma read_payload_unknown vers t x :
  t ∉ known_types → (t = HandshakeType.HelloRequest → x ≠ []) →
  read_payload vers t x = Ok (Unknown t x, []).
Proof.
  intros Hk Hx. unfold read_payload. rewrite decide_False.
  2: { intros [Ht Hl]. apply (Hx Ht). by apply length_zero_iff_nil. }
  unfold known_types in Hk. rewrite !not_elem_of_cons in Hk. destruct_and!.
  rewrite !decide_False by (done || by intros [? _]). done.
Qed.

(** Evaluates the [match] on a known type. *)
Ltac choose_arm :=
  unfold read_payload; repeat first
    [ rewrite decide_False by (done || (intros [? ?]; done))
    | rewrite decide_True by (done || (split; done)) ].

(** Each arm, chosen by the type. *)
Lemma read_payload_encode vers p :
  sendable vers p →
  read_payload vers (HandshakePayload.wire_handshake_type p) (HandshakePayload.encode p [])
    = Ok (received p, []).
Proof.
  destruct p; cbn [sendable received HandshakePayload.encode]; intros Hv; try done.
  all: unfold HandshakePayload.wire_handshake_type; cbn [HandshakePayload.handshake_type]; cbv zeta.
  all: try (choose_arm; done).
  all: try (destruct Hv as [? Hv]; choose_arm; by apply (fmap_read_body _ _ Hv)).
  all: try (choose_arm; by apply (fmap_read_body _ _ Hv)).
  - choose_arm. unfold fmap, reader_fmap. pose proof (ClientHelloPayload.client_hello_read x Hv) as Hr.
    unfold get_encoding in Hr. by rewrite Hr.
  - destruct Hv as [Hv Hr]. choose_arm. by apply read_server_hello_sh.
  - rewrite decide_True by done. choose_arm. by apply read_server_hello_hrr.
  - destruct Hv as [Hk Hv]. rewrite decide_False.
    + by apply read_payload_unknown.
    + intros ->. apply Hk. unfold known_types. set_solver.
Qed.

(** A message is its type, the length of its payload in 24 bits, and its payload. *)
Lemma message_app m bytes :
  encode m bytes = bytes ++ get_encoding (HandshakePayload.wire_handshake_type (inner m))
    ++ be_bytes 3 (Z.of_nat (length (HandshakePayload.encode (inner m) [])))
    ++ HandshakePayload.encode (inner m) [].
Proof.
  cbn [encode codec]. unfold payload_encode. rewrite encode_app.
  rewrite (nest_spec _ _ _ (HandshakePayload.encode (inner m) [])).
  - by rewrite <-(assoc_L (++)).
  - intros b. destruct (inner m) as [| |x|x| | | | | | | | | | | | | | | | | |];
      try apply payload_app; [apply (payload_app (ServerHello x)) | apply (payload_app (HelloRetryRequest x))].
Qed.

Definition fits (m : t) : Prop :=
  (Z.of_nat (length (HandshakePayload.encode (inner m) [])) < 2 ^ 24)%Z.

Lemma read_version_encode vers m rest :
  sendable vers (inner m) → fits m →
  read_version vers (get_encoding m ++ rest) = Ok (mk (received (inner m)), rest).
Proof.
  intros Hv Hf. unfold get_encoding. rewrite message_app, app_nil_l, <-!(assoc_L (++)).
  unfold read_version. rewrite bind_read_encode by done.
  rewrite bind_u24_app by (unfold is_u24; unfold fits in Hf; lia). rewrite Nat2Z.id.
  rewrite bind_sub_app by done. unfold Reader.within.
  pose proof (read_payload_encode vers (inner m) Hv) as Hr.
  assert (Reader.all "HandshakeMessagePayload"
    (mk <$> read_payload vers (HandshakePayload.wire_handshake_type (inner m)))
    (HandshakePayload.encode (inner m) []) = Ok (mk (received (inner m)), [])) as ->; [|done].
  apply reader_all_Ok. split; [done|]. unfold fmap, reader_fmap. by rewrite Hr.
Qed.

Lemma total_server_hello : total read_server_hello.
Proof. unfold read_server_hello. auto 8 with total. Qed.
#[local] Hint Resolve total_server_hello : total.

Lemma total_read_version vers : total (read_version vers).
Proof.
  unfold read_version. apply total_bind; [auto with total|]. intros typ.
  apply total_bind; [auto with total|]. intros len. apply total_bind; [auto with total|].
  intros sub. apply total_within, total_all, total_fmap. intros bs. unfold read_payload.
  case_decide; [done|].
  match goal with |- ?f bs ≠ Panic => enough (total f) as Ht by apply Ht end.
  repeat (apply total_decide; [first [apply total_fmap, read_total | auto with total]|]).
  apply total_fmap, read_total.
Qed.

(** What is read: a type, a length, and exactly that many bytes of payload. *)
Lemma read_version_inv vers bs m rest :
  read_version vers bs = Ok (m, rest) →
  ∃ typ sub, bs = get_encoding typ ++ be_bytes 3 (Z.of_nat (length sub)) ++ sub ++ rest ∧
    is_u24 (Z.of_nat (length sub)) ∧ read_payload vers typ sub = Ok (inner m, []).
Proof.
  intros Hr. unfold read_version in Hr. apply reader_bind_Ok in Hr as (typ & bs1 & Ht & Hr).
  apply read_inv in Ht as [_ ->]. apply reader_bind_Ok in Hr as (len & bs2 & Hl & Hr).
  apply u24_read_inv in Hl as [Hl ->]. apply reader_bind_Ok in Hr as (sub & bs3 & Hs & Hr).
  apply sub_inv in Hs as [-> Hs]. exists typ, sub. rewrite Hs, Z2Nat.id by (unfold is_u24 in Hl; lia).
  unfold Reader.within in Hr.
  destruct (Reader.all _ (mk <$> read_payload vers typ) sub) as [[v r]| |] eqn:Ha; [|done..].
  injection Hr as -> ->. apply reader_all_Ok in Ha as [-> Ha].
  apply reader_fmap_Ok in Ha as (p & Ha & ->). done.
Qed.

Lemma read_server_hello_inv sub h :
  read_server_hello sub = Ok (HelloRetryRequest h, []) →
  HelloRetryRequest.valid h ∧ sub = encode h [].
Proof.
  unfold read_server_hello. intros Hr. apply reader_bind_Ok in Hr as (v & bs1 & Hv & Hr).
  apply read_inv in Hv as [Hv ->]. apply reader_bind_Ok in Hr as (r & bs2 & Hd & Hr).
  apply read_inv in Hd as [_ ->]. case_decide as Hm; [subst r|].
  - apply reader_bind_Ok in Hr as (h' & bs3 & Hh & Hr). injection Hr as <- ->.
    apply HelloRetryRequest.read_tail_inv in Hh as (_ & Hh & ->).
    rewrite HelloRetryRequest.encode_standard, app_nil_r. split; [|done].
    destruct Hh as (_ & ? & ? & ?). by split_and!.
  - apply reader_bind_Ok in Hr as (h' & bs3 & _ & Hr). by injection Hr.
Qed.

Lemma read_payload_hrr vers typ sub h :
  read_payload vers typ sub = Ok (HelloRetryRequest h, []) →
  typ = HandshakeType.ServerHello ∧ HelloRetryRequest.valid h ∧ sub = encode h [].
Proof.
  unfold read_payload. case_decide; [done|]. intros Hr.
  repeat match type of Hr with (if decide ?P then _ else _) _ = _ => destruct (decide P) end;
    try (by apply read_server_hello_inv in Hr).
  all: first [apply reader_fmap_Ok in Hr as (? & _ & ?) | idtac]; done.
Qed.

(** A HelloRetryRequest is re-encoded to the bytes it was read from. *)
Lemma hrr_canonical vers bs h rest :
  read_version vers bs = Ok (mk (HelloRetryRequest h), rest) →
  bs = get_encoding (mk (HelloRetryRequest h)) ++ rest.
Proof.
  intros (typ & sub & -> & Hl & (-> & Hv & ->)%read_payload_hrr)%read_version_inv.
  unfold get_encoding at 2. rewrite message_app. by rewrite <-!(assoc_L (++)).
Qed.
End codec.
End HandshakeMessagePayload.

Module AlertMessagePayload.
(* @src rustls/src/msgs/mod.rs 651-655 AlertMessagePayload *)
Record t := mk { level : AlertLevel.t; description : AlertDescription.t }.

(* @src rustls/src/msgs/mod.rs 657-671 Codec_for_AlertMessagePayload *)
#[global] Instance codec : Codec t := {
  encode self bytes := encode (description self) (encode (level self) bytes);
  read := Reader.all "AlertMessagePayload"
    (level ← read; description ← read; mret (mk level description));
}.

#[global] Instance total : TotalRead t.
Proof. unfold TotalRead. cbn [read codec]. auto with total. Qed.

(** An alert is two bytes, no more. *)
Lemma alert_read_iff bs a rest :
  read bs = Ok (a, rest) ↔
  rest = [] ∧ bs = [AlertLevel.val (level a); AlertDescription.val (description a)].
Proof.
  cbn [read codec]. rewrite reader_all_Ok. split.
  - intros [-> Hr]. reader_inv.
    repeat match goal with H : read _ = Ok _ |- _ => apply read_inv in H as [_ ->] end. done.
  - intros [-> ->]. split; [done|]. by destruct a as [[] []].
Qed.
End AlertMessagePayload.

Module ChangeCipherSpecPayload.
(* @src rustls/src/msgs/mod.rs 673-674 ChangeCipherSpecPayload *)
Inductive t := mk.

(* @src rustls/src/msgs/mod.rs 676-690 Codec_for_ChangeCipherSpecPayload *)
#[global] Instance codec : Codec t := {
  encode self bytes := encode x01 bytes;
  read := Reader.all "ChangeCipherSpecPayload"
    (typ ← (read : reader u8);
     if decide (typ ≠ x01) then reader_fail InvalidMessage.InvalidCcs else mret mk);
}.

#[global] Instance total : TotalRead t.
Proof. unfold TotalRead. cbn [read codec]. auto with total. Qed.

(** The message is the byte 1. *)
Lemma ccs_read_iff bs c rest : read (T:=t) bs = Ok (c, rest) ↔ rest = [] ∧ bs = [x01].
Proof.
  cbn [read codec]. rewrite reader_all_Ok. split.
  - intros [-> Hr]. reader_inv.
    destruct c. injection Hr as ->.
    match goal with H : ¬ ?x ≠ x01 |- _ => apply dec_stable in H as -> end. done.
  - intros [-> ->]. by destruct c.
Qed.
End ChangeCipherSpecPayload.

Module MessagePayload.
(* @src rustls/src/msgs/mod.rs 268-281 MessagePayload *)
Inductive t :=
  | Alert (x : AlertMessagePayload.t)
  | Handshake (parsed : HandshakeMessagePayload.t) (encoded : Payload)
  | HandshakeFlight (x : Payload)
  | ChangeCipherSpec (x : ChangeCipherSpecPayload.t)
  | ApplicationData (x : Payload).

(* @src rustls/src/msgs/mod.rs 284-292 MessagePayload::encode *)
Definition encode (self : t) (bytes : list u8) : list u8 :=
  match self with
  | Alert x => Codec.encode x bytes
  | Handshake _ encoded => bytes ++ encoded
  | HandshakeFlight x => bytes ++ x
  | ChangeCipherSpec x => Codec.encode x bytes
  | ApplicationData x => Codec.encode x bytes
  end.

(* @src rustls/src/msgs/mod.rs 323-330 MessagePayload::content_type *)
Definition content_type (self : t) : ContentType.t :=
  match self with
  | Alert _ => ContentType.Alert
  | Handshake _ _ | HandshakeFlight _ => ContentType.Handshake
  | ChangeCipherSpec _ => ContentType.ChangeCipherSpec
  | ApplicationData _ => ContentType.ApplicationData
  end.

Section codec.
Context `{!PkiTypes}.

(* @src rustls/src/msgs/mod.rs 294-299 MessagePayload::handshake *)
Definition handshake (parsed : HandshakeMessagePayload.t) : t :=
  Handshake parsed (get_encoding parsed).

(** The reader's remaining bytes are dropped. *)
(* @src rustls/src/msgs/mod.rs 301-321 MessagePayload::new *)
Definition new (typ : ContentType.t) (vers : ProtocolVersion.t) (payload : list u8)
    : result InvalidMessage.t t :=
  if decide (typ = ContentType.ApplicationData) then Ok (ApplicationData payload)
  else if decide (typ = ContentType.Alert)
  then '(a, _) ← (read : reader AlertMessagePayload.t) payload; Ok (Alert a)
  else if decide (typ = ContentType.Handshake)
  then '(parsed, _) ← HandshakeMessagePayload.read_version vers payload;
       Ok (Handshake parsed payload)
  else if decide (typ = ContentType.ChangeCipherSpec)
  then '(c, _) ← (read : reader ChangeCipherSpecPayload.t) payload; Ok (ChangeCipherSpec c)
  else Err InvalidMessage.InvalidContentType.
End codec.
End MessagePayload.

Module Message.
(* @src rustls/src/msgs/mod.rs 151-156 Message *)
Record t := mk { version : EncodableVersion.t; payload : MessagePayload.t }.

Section codec.
Context `{!PkiTypes}.

(* @src rustls/src/msgs/mod.rs 159-167 Message::build_alert *)
Definition build_alert (level : AlertLevel.t) (desc : AlertDescription.t) : t :=
  mk (EncodableVersion.Legacy ProtocolVersion.TLSv1_2)
     (MessagePayload.Alert (AlertMessagePayload.mk level desc)).

(* @src rustls/src/msgs/mod.rs 169-176 Message::build_key_update_notify *)
Definition build_key_update_notify : t :=
  mk (EncodableVersion.Legacy ProtocolVersion.TLSv1_3)
     (MessagePayload.handshake (HandshakeMessagePayload.mk
        (HandshakePayload.KeyUpdate KeyUpdateRequest.UpdateNotRequested))).

(* @src rustls/src/msgs/mod.rs 178-185 Message::build_key_update_request *)
Definition build_key_update_request : t :=
  mk (EncodableVersion.Legacy ProtocolVersion.TLSv1_3)
     (MessagePayload.handshake (HandshakeMessagePayload.mk
        (HandshakePayload.KeyUpdate KeyUpdateRequest.UpdateRequested))).

(* @src rustls/src/msgs/mod.rs 202-207 Message::handshake_type *)
Definition handshake_type (self : t) : option HandshakeType.t :=
  match payload self with
  | MessagePayload.Handshake parsed _ =>
      Some (HandshakePayload.handshake_type (HandshakeMessagePayload.inner parsed))
  | _ => None
  end.

(** Both [TryFrom<Record<&[u8]>>] and [TryFrom<&Record<Payload>>]. *)
(* @src rustls/src/msgs/mod.rs 210-234 TryFrom_for_Message *)
Definition try_from (plain : Record_.t (list u8)) : result InvalidMessage.t t :=
  payload ← MessagePayload.new (Record_.typ plain)
              (EncodableVersion.version (Record_.version plain)) (Record_.payload plain);
  Ok (mk (Record_.version plain) payload).

(* @src rustls/src/msgs/mod.rs 347-365 From_for_Record *)
Definition to_record (msg : t) : Record_.t (list u8) :=
  Record_.new (MessagePayload.content_type (payload msg)) (version msg)
    (match payload msg with
     | MessagePayload.ApplicationData p => p
     | p => MessagePayload.encode p []
     end).

Lemma try_from_total r : try_from r ≠ Panic.
Proof.
  unfold try_from, MessagePayload.new. set (p := Record_.payload r).
  pose proof (read_total (T:=AlertMessagePayload.t) p).
  pose proof (read_total (T:=ChangeCipherSpecPayload.t) p).
  pose proof (HandshakeMessagePayload.total_read_version
    (EncodableVersion.version (Record_.version r)) p).
  repeat case_decide; try done;
    match goal with |- (?e ≫= _) ≫= _ ≠ _ => by destruct e as [[]| |] end.
Qed.

Lemma try_from_canonical r m : try_from r = Ok m → to_record m = r.
Proof.
  destruct r as [typ v p]. unfold try_from, MessagePayload.new, to_record.
  cbn [Record_.typ Record_.version Record_.payload]. intros Hr.
  apply result_bind_ok in Hr as (pl & Hr & [= <-]). cbn [payload version].
  repeat case_decide; try subst typ; try (apply result_bind_ok in Hr as ([x rest] & Hx & Hr));
    try discriminate Hr; injection Hr as <-; try done.
  - apply AlertMessagePayload.alert_read_iff in Hx as [_ ->]. by destruct x as [[] []].
  - by apply ChangeCipherSpecPayload.ccs_read_iff in Hx as [_ ->].
Qed.
End codec.
End Message.

(** ** Correctness of messages *)

(** C40. A handshake message that can be sent in a version, and whose payload has
    a 24-bit length, is read back in that version from the front of any stream,
    leaving the rest: the type byte selects the reader of the same message, also
    for a HelloRetryRequest, which is sent with the type of a ServerHello. *)
Theorem handshake_roundtrip `{!PkiTypes} (vers : ProtocolVersion.t)
    (m : HandshakeMessagePayload.t) (rest : list u8) :
  HandshakeMessagePayload.sendable vers (HandshakeMessagePayload.inner m) →
  HandshakeMessagePayload.fits m →
  HandshakeMessagePayload.read_version vers (get_encoding m ++ rest)
    = Ok (HandshakeMessagePayload.mk
            (HandshakeMessagePayload.received (HandshakeMessagePayload.inner m)), rest).
Proof. apply HandshakeMessagePayload.read_version_encode. Qed.

Lemma handshake_roundtrip_witness :
  let _ := any_names in
  HandshakeMessagePayload.read_version ProtocolVersion.TLSv1_2
    (get_encoding (HandshakeMessagePayload.mk (HandshakePayload.ClientHello sample_hello)) ++ [x14])
    = Ok (HandshakeMessagePayload.mk (HandshakePayload.ClientHello
            (ClientHelloPayload.without_meta sample_hello)), [x14]).
Proof.
  intros names. apply (handshake_roundtrip (H:=names) _
    (HandshakeMessagePayload.mk (HandshakePayload.ClientHello sample_hello)));
    [apply sample_sendable|].
  unfold HandshakeMessagePayload.fits. vm_compute. done.
Defined.

(** Every byte string is either decoded or rejected, whatever its record
    says it is: reading a message does not panic. *)
Theorem message_total `{!PkiTypes} (r : Record_.t (list u8)) : Message.try_from r ≠ Panic.
Proof. apply Message.try_from_total. Qed.

(** A message that was decoded from a record is turned back into the same
    record: content type, version and payload bytes. *)
Theorem message_reencode `{!PkiTypes} (r : Record_.t (list u8)) (m : Message.t) :
  Message.try_from r = Ok m → Message.to_record m = r.
Proof. apply Message.try_from_canonical. Qed.

Lemma message_reencode_witness :
  Message.to_record (Message.build_alert AlertLevel.Fatal AlertDescription.CloseNotify)
  = Record_.new ContentType.Alert (EncodableVersion.Legacy ProtocolVersion.TLSv1_2) [x02; x00].
Proof. apply (message_reencode (H:=any_names)). vm_compute. done. Defined.

Definition sample_hrr : HelloRetryRequest.t :=
  HelloRetryRequest.mk ProtocolVersion.TLSv1_2 SessionId.empty
    CipherSuite.TLS13_AES_128_GCM_SHA256
    (HelloRetryRequestExtensions.mk (Some NamedGroup.X25519) None (Some ProtocolVersion.TLSv1_3) None
      (Some [ExtensionType.SupportedVersions; ExtensionType.KeyShare])).

Definition sample_hrr_bytes : list u8 :=
  Eval vm_compute in
    let _ := any_names in
    get_encoding (HandshakeMessagePayload.mk (HandshakePayload.HelloRetryRequest sample_hrr)).

(** A HelloRetryRequest is re-encoded to exactly the bytes it was read from.
    The client depends on it: the confirmation it checks for Encrypted Client
    Hello is computed over a re-encoding. *)
Theorem hrr_reencode `{!PkiTypes} (vers : ProtocolVersion.t) (bs : list u8)
    (h : HelloRetryRequest.t) (rest : list u8) :
  HandshakeMessagePayload.read_version vers bs
    = Ok (HandshakeMessagePayload.mk (HandshakePayload.HelloRetryRequest h), rest) →
  bs = get_encoding (HandshakeMessagePayload.mk (HandshakePayload.HelloRetryRequest h)) ++ rest.
Proof. apply HandshakeMessagePayload.hrr_canonical. Qed.

Lemma hrr_reencode_witness :
  let _ := any_names in
  sample_hrr_bytes ++ [x01] =
    get_encoding (HandshakeMessagePayload.mk (HandshakePayload.HelloRetryRequest sample_hrr)) ++ [x01].
Proof.
  intros names. apply (hrr_reencode (H:=names) ProtocolVersion.TLSv1_2). vm_compute. done.
Defined.
