(* ===== verification/Send.v ===== *)
(** * The sending half of a connection ([rustls/src/conn/send.rs])

    Plaintext goes through the fragmenter and the current [RecordEncrypter]; the
    sequence number of the next record, its limits, and the two halves of a TLS 1.3
    key update are tracked here. *)
From stdpp Require Import gmap.
From S2P Require Import Prelude Enums Errors Codec Records Fragmenter Extensions Payloads.
From S2P Require Import ServerHello ClientHello Messages.

(** ** Interfaces *)

(** The trait [RecordEncrypter]: [encrypt] may change the encrypter and the buffer it
    is given; the payload of the record it returns is the part of the buffer it
    wrote. *)
(* @src rustls/src/crypto/cipher/mod.rs 156-186 RecordEncrypter *)
Class RecordEncrypter (E : Type) := {
  encrypt : E → Record_.t OutboundPlain.t → Z → list u8 →
    E * list u8 * result Error.t (Record_.t (list u8));
  encrypted_payload_len : E → nat → nat;
}.

(** What the trait documents of [encrypt]: it writes to the front of the buffer it
    is given, and the record it returns holds what was written, which is as long as
    announced. *)
Class RecordEncrypterLaws (E : Type) `{RecordEncrypter E} : Prop := {
  encrypt_out_length e r seq out : length (encrypt e r seq out).1.2 = length out;
  encrypt_payload e r seq out e' out' c :
    encrypt e r seq out = (e', out', Ok c) →
    encrypted_payload_len e (OutboundPlain.len (Record_.payload r)) ≤ length out →
    Record_.payload c = take (length (Record_.payload c)) out';
  encrypt_length e r seq out e' out' c :
    encrypt e r seq out = (e', out', Ok c) → OutboundPlain.wf (Record_.payload r) →
    encrypted_payload_len e (OutboundPlain.len (Record_.payload r)) ≤ length out →
    length (Record_.payload c) = encrypted_payload_len e (OutboundPlain.len (Record_.payload r));
}.

Module Encrypter.
(* @src rustls/src/conn/send.rs 539-542 Encrypter *)
Record t (E : Type) := mk { encrypter : E; limit : Z }.
Arguments mk {E}.
Arguments encrypter {E}.
Arguments limit {E}.
End Encrypter.

(** What the sending path uses of [KeyScheduleTrafficSend]: the next traffic key,
    after a request of ours or in answer to the peer's. *)
Class TrafficSend (K E : Type) := {
  update_encrypter : K → result Error.t (Encrypter.t E * K);
  update_encrypter_for_key_update : K → result Error.t (Encrypter.t E * K);
}.

(* @src rustls/src/conn/mod.rs 791-795 SEQ_SOFT_LIMIT *)
Definition SEQ_SOFT_LIMIT : Z := 2 ^ 64 - 1 - 0xffff.

(* @src rustls/src/conn/mod.rs 797-798 SEQ_HARD_LIMIT *)
Definition SEQ_HARD_LIMIT : Z := 2 ^ 64 - 1 - 1.

Module DataKind.
(* @src rustls/src/conn/receive.rs 750-753 DataKind *)
Inductive t (T : Type) := Early (d : T) | Traffic (d : T).
Arguments Early {T}.
Arguments Traffic {T}.
End DataKind.

Module KeyUpdateLocal.
(* @src rustls/src/conn/send.rs 479-488 KeyUpdateLocal *)
Inductive t := Idle | Outstanding.
End KeyUpdateLocal.

Module KeyUpdateRemote.
(* @src rustls/src/conn/send.rs 490-499 KeyUpdateRemote *)
Inductive t := Idle | Queued (message : list u8).

(* @src rustls/src/conn/send.rs 502-508 KeyUpdateRemote::write *)
Definition write (self : t) (tls : list u8) : t * list u8 :=
  match self with
  | Queued message => (Idle, tls ++ message)
  | Idle => (Idle, tls)
  end.
End KeyUpdateRemote.

(** ** The keys in use *)

Module Encrypting.
(* @src rustls/src/conn/send.rs 319-326 Encrypting *)
Record t (E K : Type) := mk {
  encrypter : E;
  write_seq_max : Z;
  write_seq : Z;
  key_update_local : KeyUpdateLocal.t;
  key_update_remote : KeyUpdateRemote.t;
  tls13_key_schedule : option K;
}.
Arguments mk {E K}.
Arguments encrypter {E K}.
Arguments write_seq_max {E K}.
Arguments write_seq {E K}.
Arguments key_update_local {E K}.
Arguments key_update_remote {E K}.
Arguments tls13_key_schedule {E K}.

Section methods.
Context {E K : Type} `{!RecordEncrypter E, !TrafficSend K E}.
Implicit Types (self : t E K) (tls out : list u8).

Definition with_write_seq (seq : Z) self : t E K :=
  mk (encrypter self) (write_seq_max self) seq (key_update_local self)
    (key_update_remote self) (tls13_key_schedule self).
Definition with_encrypter (e : E) self : t E K :=
  mk e (write_seq_max self) (write_seq self) (key_update_local self)
    (key_update_remote self) (tls13_key_schedule self).
Definition with_key_update_local (v : KeyUpdateLocal.t) self : t E K :=
  mk (encrypter self) (write_seq_max self) (write_seq self) v
    (key_update_remote self) (tls13_key_schedule self).
Definition with_key_update_remote (v : KeyUpdateRemote.t) self : t E K :=
  mk (encrypter self) (write_seq_max self) (write_seq self) (key_update_local self)
    v (tls13_key_schedule self).
Definition with_key_schedule (v : option K) self : t E K :=
  mk (encrypter self) (write_seq_max self) (write_seq self) (key_update_local self)
    (key_update_remote self) v.

(* @src rustls/src/conn/send.rs 453-456 Encrypting::encrypted_len *)
Definition encrypted_len self (payload_len : nat) : nat :=
  encrypted_payload_len (encrypter self) payload_len.

(** The buffer [out] is the second part of the state.  What the encrypter returns
    is used for its type, version and length; its bytes are those in [out]. *)
(* @src rustls/src/conn/send.rs 394-432 Encrypting::encrypt_outgoing_into *)
Definition encrypt_outgoing_into (plain : Record_.t OutboundPlain.t)
    : action (t E K * list u8) Error.t nat := λ '(self, out),
  if decide (SEQ_HARD_LIMIT ≤ write_seq self)%Z then ((self, out), Panic) else
  let seq := write_seq self in
  let self := with_write_seq (wrapN 64 (seq + 1)) self in
  if decide (length out < HEADER_SIZE) then ((self, out), Panic) else
  match encrypt (encrypter self) plain seq (drop HEADER_SIZE out) with
  | (e, body, Err err) => ((with_encrypter e self, take HEADER_SIZE out ++ body), Err err)
  | (e, body, Panic) => ((with_encrypter e self, take HEADER_SIZE out ++ body), Panic)
  | (e, body, Ok encrypted) =>
      let len := length (Record_.payload encrypted) in
      ((with_encrypter e self,
        encode_record_header (Record_.typ encrypted) (Record_.version encrypted)
          (wrapN 16 (Z.of_nat len)) ++ body),
       Ok (HEADER_SIZE + len))
  end.

(* @src rustls/src/conn/send.rs 369-392 Encrypting::encrypt_outgoing *)
Definition encrypt_outgoing (plain : Record_.t OutboundPlain.t)
    : action (t E K * list u8) Error.t unit := λ '(self, output),
  let needed := HEADER_SIZE + encrypted_len self (OutboundPlain.len (Record_.payload plain)) in
  let start := length output in
  let output := output ++ replicate needed x00 in
  match encrypt_outgoing_into plain (self, drop start output) with
  | ((self, out), r) =>
      let output := take start output ++ out in
      match r with
      | Ok written => ((self, take (start + written) output), Ok tt)
      | Err e => ((self, output), Err e)
      | Panic => ((self, output), Panic)
      end
  end.

(** [encrypting.key_update_remote.write(tls)]. *)
Definition write_key_update : action (t E K * list u8) Error.t unit := λ '(self, tls),
  let '(r, tls) := KeyUpdateRemote.write (key_update_remote self) tls in
  ((with_key_update_remote r self, tls), Ok tt).
End methods.
End Encrypting.

Section send_short.
Context {E K : Type} `{!RecordEncrypter E, !TrafficSend K E, !PkiTypes}.

(** [encrypting: Option<&mut Encrypting>] is the first part of the state. *)
(* @src rustls/src/conn/send.rs 459-477 send_short *)
Definition send_short (message : Message.t)
    : action (option (Encrypting.t E K) * list u8) Error.t unit := λ '(encrypting, tls),
  let record := borrow_outbound (Message.to_record message) in
  match encrypting with
  | Some encrypting =>
      match (_ ← Encrypting.write_key_update; Encrypting.encrypt_outgoing record) (encrypting, tls) with
      | ((encrypting, tls), r) => ((Some encrypting, tls), r)
      end
  | None => ((None, encode_unencrypted record tls), Ok tt)
  end.

(** [send_short(message, tls, Some(self))]. *)
Definition send_short_self (message : Message.t)
    : action (Encrypting.t E K * list u8) Error.t unit := λ '(self, tls),
  match send_short message (Some self, tls) with
  | ((Some self, tls), r) => ((self, tls), r)
  | ((None, tls), r) => ((self, tls), r)
  end.

(** [self.encrypter = …; self.write_seq_max = min(SEQ_SOFT_LIMIT, …); self.write_seq = 0]. *)
Definition install (e : Encrypter.t E) (self : Encrypting.t E K) : Encrypting.t E K :=
  Encrypting.mk (Encrypter.encrypter e) (Z.min SEQ_SOFT_LIMIT (Encrypter.limit e)) 0
    (Encrypting.key_update_local self) (Encrypting.key_update_remote self)
    (Encrypting.tls13_key_schedule self).

(* @src rustls/src/conn/send.rs 434-451 Encrypting::send_key_update_request *)
Definition send_key_update_request : action (Encrypting.t E K * list u8) Error.t unit :=
  ks ← gets (λ s, Encrypting.tls13_key_schedule s.1);
  match ks with
  | None => fail Error.HandshakeNotComplete
  | Some _ =>
      _ ← send_short_self Message.build_key_update_request;
      ks ← gets (λ s, Encrypting.tls13_key_schedule s.1);
      match ks with
      | None => fail Error.HandshakeNotComplete
      | Some ks =>
          '(e, ks) ← lift (update_encrypter ks);
          modify (λ '(self, tls),
            let self := Encrypting.with_key_schedule (Some ks) self in
            let self := Encrypting.with_key_update_local KeyUpdateLocal.Outstanding self in
            (install e self, tls))
      end
  end.

(* @src rustls/src/conn/send.rs 358-364 Encrypting::encrypt_records::for *)
Fixpoint encrypt_each (iter : list (Record_.t OutboundPlain.t))
    : action (Encrypting.t E K * list u8) Error.t unit :=
  match iter with
  | [] => mret tt
  | record :: iter =>
      self ← gets fst;
      _ ← (if decide (is_Some (Encrypting.tls13_key_schedule self) ∧
              (Encrypting.write_seq_max self ≤ wrapN 64 (Encrypting.write_seq self + 1))%Z)
           then send_key_update_request else mret tt);
      _ ← Encrypting.encrypt_outgoing record;
      encrypt_each iter
  end.

(** [u64::saturating_add]. *)
Definition saturating_add (a b : Z) : Z := Z.min (a + b) (2 ^ 64 - 1).

(** [true] when the confidentiality limit of the key is reached. *)
(* @src rustls/src/conn/send.rs 329-367 Encrypting::encrypt_records *)
Definition encrypt_records (iter : list (Record_.t OutboundPlain.t))
    : action (Encrypting.t E K * list u8) Error.t bool :=
  self ← gets fst;
  let last := saturating_add (Encrypting.write_seq self) (Z.of_nat (length iter) - 1) in
  if decide (iter ≠ [] ∧ (SEQ_HARD_LIMIT ≤ last)%Z) then fail Error.EncryptError
  else if decide (iter ≠ [] ∧ (Encrypting.write_seq_max self ≤ last)%Z ∧
                  Encrypting.tls13_key_schedule self = None) then mret true
  else _ ← encrypt_each iter; mret false.
End send_short.

Module EncryptionState.
(* @src rustls/src/conn/send.rs 281-288 EncryptionState *)
Inductive t (E K : Type) :=
  | Handshake
  | Encrypting (e : Encrypting.t E K)
  | Retired.
Arguments Handshake {E K}.
Arguments Encrypting {E K}.
Arguments Retired {E K}.

(* @src rustls/src/conn/send.rs 291-316 EncryptionState::set_encrypter *)
Definition set_encrypter {E K} (e : Encrypter.t E) (self : t E K) : t E K :=
  match self with
  | Handshake =>
      Encrypting (Encrypting.mk (Encrypter.encrypter e)
        (Z.min SEQ_SOFT_LIMIT (Encrypter.limit e)) 0 KeyUpdateLocal.Idle
        KeyUpdateRemote.Idle None)
  | Encrypting encrypting => Encrypting (install e encrypting)
  | Retired => Retired
  end.
End EncryptionState.

(** ** The send path *)

Module SendPath.
(* @src rustls/src/conn/send.rs 14-24 SendPath *)
Record t (E K : Type) := mk {
  encrypt_state : EncryptionState.t E K;
  may_send_application_data : bool;
  may_send_half_rtt_data : bool;
  has_sent_close_notify : bool;
  fragmenter : Fragmenter.t;
  negotiated_version : option ProtocolVersion.t;
}.
Arguments mk {E K}.
Arguments encrypt_state {E K}.
Arguments may_send_application_data {E K}.
Arguments may_send_half_rtt_data {E K}.
Arguments has_sent_close_notify {E K}.
Arguments fragmenter {E K}.
Arguments negotiated_version {E K}.

Section methods.
Context {E K : Type} `{!RecordEncrypter E, !TrafficSend K E, !PkiTypes}.
Implicit Types (self : t E K).

(** [#[derive(Default)]]. *)
Definition default : t E K :=
  mk EncryptionState.Handshake false false false Fragmenter.default None.

Definition with_state (v : EncryptionState.t E K) self : t E K :=
  mk v (may_send_application_data self) (may_send_half_rtt_data self)
    (has_sent_close_notify self) (fragmenter self) (negotiated_version self).
Definition with_may_send (v : bool) self : t E K :=
  mk (encrypt_state self) v (may_send_half_rtt_data self)
    (has_sent_close_notify self) (fragmenter self) (negotiated_version self).
Definition with_half_rtt (v : bool) self : t E K :=
  mk (encrypt_state self) (may_send_application_data self) v
    (has_sent_close_notify self) (fragmenter self) (negotiated_version self).
Definition with_closed (v : bool) self : t E K :=
  mk (encrypt_state self) (may_send_application_data self) (may_send_half_rtt_data self)
    v (fragmenter self) (negotiated_version self).
Definition with_fragmenter (v : Fragmenter.t) self : t E K :=
  mk (encrypt_state self) (may_send_application_data self) (may_send_half_rtt_data self)
    (has_sent_close_notify self) v (negotiated_version self).
Definition with_version (v : option ProtocolVersion.t) self : t E K :=
  mk (encrypt_state self) (may_send_application_data self) (may_send_half_rtt_data self)
    (has_sent_close_notify self) (fragmenter self) v.

(** Runs a method of [encrypting], borrowed from [self.encrypt_state]. *)
Definition on_encrypting {A} (encrypting : Encrypting.t E K)
    (m : action (Encrypting.t E K * list u8) Error.t A)
    : action (t E K * list u8) Error.t A := λ '(self, tls),
  match m (encrypting, tls) with
  | ((encrypting, tls), r) =>
      ((with_state (EncryptionState.Encrypting encrypting) self, tls), r)
  end.

(* @src rustls/src/conn/send.rs 133-135 SendPath::negotiated_version *)
Definition set_negotiated_version (version : ProtocolVersion.t) : action (t E K) Error.t unit :=
  modify (with_version (Some version)).

(* @src rustls/src/conn/send.rs 87-90 SendPath::set_max_fragment_size *)
Definition set_max_fragment_size (new : option nat) : action (t E K) Error.t unit := λ self,
  match Fragmenter.set_max_fragment_size new (fragmenter self) with
  | (f, r) => (with_fragmenter f self, r)
  end.

(* @src rustls/src/conn/send.rs 200-218 SendPath::send_alert *)
Definition send_alert (level : AlertLevel.t) (desc : AlertDescription.t)
    : action (t E K * list u8) Error.t unit := λ '(self, tls),
  let finish (self : t E K) (tls : list u8) (r : result Error.t unit) :=
    ((if decide (level = AlertLevel.Fatal) then with_state EncryptionState.Retired self
      else self, tls), r) in
  match encrypt_state self with
  | EncryptionState.Encrypting encrypting =>
      match send_short (Message.build_alert level desc) (Some encrypting, tls) with
      | ((Some encrypting, tls), r) =>
          finish (with_state (EncryptionState.Encrypting encrypting) self) tls r
      | ((None, tls), r) => finish self tls r
      end
  | EncryptionState.Handshake =>
      match send_short (K:=K) (Message.build_alert level desc) (None, tls) with
      | ((_, tls), r) => finish self tls r
      end
  | EncryptionState.Retired => ((self, tls), Ok tt)
  end.

(* @src rustls/src/conn/send.rs 78-85 SendPath::send_close_notify *)
Definition send_close_notify : action (t E K * list u8) Error.t unit :=
  self ← gets fst;
  if has_sent_close_notify self then mret tt
  else
    _ ← modify (λ '(self, tls), (with_closed true self, tls));
    send_alert AlertLevel.Warning AlertDescription.CloseNotify.

(** The end of [send_appdata_encrypt] and [send_msg]. *)
Definition close_if_exhausted (limit_reached : bool) : action (t E K * list u8) Error.t unit :=
  if limit_reached then _ ← send_close_notify; fail Error.EncryptError else mret tt.

(* @src rustls/src/conn/send.rs 27-76 SendPath::send_appdata_encrypt *)
Definition send_appdata_encrypt (payload : DataKind.t OutboundPlain.t)
    : action (t E K * list u8) Error.t nat :=
  let '(early, payload) :=
    match payload with
    | DataKind.Early data => (true, data)
    | DataKind.Traffic data => (false, data)
    end in
  self ← gets fst;
  if negb early && negb (may_send_application_data self)
  then fail (Error.ApiMisuse ApiMisuse.WriteBeforeHandshakeComplete)
  else if has_sent_close_notify self && negb (OutboundPlain.is_empty payload)
  then fail (Error.ApiMisuse ApiMisuse.WriteAfterSendPathClosed)
  else
  match encrypt_state self with
  | EncryptionState.Handshake => fail (Error.ApiMisuse ApiMisuse.WriteBeforeHandshakeComplete)
  | EncryptionState.Retired => fail (Error.ApiMisuse ApiMisuse.WriteAfterSendPathClosed)
  | EncryptionState.Encrypting encrypting =>
      let len := OutboundPlain.len payload in
      limit_reached ← on_encrypting encrypting (
        _ ← Encrypting.write_key_update;
        encrypt_records (Fragmenter.fragment (fragmenter self) ContentType.ApplicationData
          (EncodableVersion.Legacy ProtocolVersion.TLSv1_2) payload
          (Encrypting.encrypted_len encrypting 0)));
      _ ← close_if_exhausted limit_reached;
      mret len
  end.

(* @src rustls/src/conn/send.rs 225-278 SendPath::send_msg *)
Definition send_msg (m : Message.t) (must_encrypt : bool)
    : action (t E K * list u8) Error.t unit :=
  self ← gets fst;
  let record := Message.to_record m in
  let payload := OutboundPlain.Single (Record_.payload record) in
  let send_plain : action (t E K * list u8) Error.t unit :=
    modify (λ '(self, tls),
      (self, fold_left (λ tls r, encode_unencrypted r tls)
        (Fragmenter.fragment (fragmenter self) (Record_.typ record) (Record_.version record)
           payload 0) tls)) in
  match encrypt_state self with
  | EncryptionState.Encrypting encrypting =>
      if must_encrypt then
        limit_reached ← on_encrypting encrypting (
          _ ← Encrypting.write_key_update;
          encrypt_records (Fragmenter.fragment (fragmenter self) (Record_.typ record)
            (Record_.version record) payload (Encrypting.encrypted_len encrypting 0)));
        close_if_exhausted limit_reached
      else send_plain
  | EncryptionState.Handshake =>
      if must_encrypt then fail (Error.ApiMisuse ApiMisuse.WriteBeforeHandshakeComplete)
      else send_plain
  | EncryptionState.Retired => fail Error.EncryptError
  end.

(* @src rustls/src/conn/send.rs 92-95 SendPath::start_outgoing_traffic *)
Definition start_outgoing_traffic : action (t E K) Error.t unit := modify (with_may_send true).

(* @src rustls/src/conn/send.rs 220-223 SendPath::start_traffic *)
Definition start_traffic : action (t E K) Error.t unit :=
  _ ← modify (with_half_rtt true); start_outgoing_traffic.

(* @src rustls/src/conn/send.rs 97-111 SendPath::refresh_traffic_keys *)
Definition refresh_traffic_keys : action (t E K * list u8) Error.t unit :=
  self ← gets fst;
  match encrypt_state self with
  | EncryptionState.Encrypting encrypting =>
      match Encrypting.key_update_local encrypting with
      | KeyUpdateLocal.Outstanding => mret tt
      | KeyUpdateLocal.Idle => on_encrypting encrypting send_key_update_request
      end
  | EncryptionState.Retired =>
      fail (if may_send_application_data self then Error.EncryptError
            else Error.HandshakeNotComplete)
  | EncryptionState.Handshake => fail Error.HandshakeNotComplete
  end.

(* @src rustls/src/conn/send.rs 113-120 SendPath::export *)
Definition export self : result Error.t (Z * option K) :=
  match encrypt_state self with
  | EncryptionState.Encrypting e => Ok (Encrypting.write_seq e, Encrypting.tls13_key_schedule e)
  | _ => Err Error.EncryptError
  end.

(* @src rustls/src/conn/send.rs 122-129 SendPath::has_queued_key_update *)
Definition has_queued_key_update self : bool :=
  match encrypt_state self with
  | EncryptionState.Encrypting e =>
      match Encrypting.key_update_remote e with
      | KeyUpdateRemote.Queued _ => true | KeyUpdateRemote.Idle => false
      end
  | _ => false
  end.

(* @src rustls/src/conn/send.rs 137-163 SendPath::queue_requested_key_update *)
Definition queue_requested_key_update : action (t E K) Error.t unit := λ self,
  match encrypt_state self with
  | EncryptionState.Encrypting encrypting =>
      match Encrypting.key_update_remote encrypting with
      | KeyUpdateRemote.Queued _ => (self, Ok tt)
      | KeyUpdateRemote.Idle =>
          match send_short_self Message.build_key_update_notify (encrypting, []) with
          | ((encrypting, queued), Ok _) =>
              let encrypting := Encrypting.with_key_update_remote
                                  (KeyUpdateRemote.Queued queued) encrypting in
              match Encrypting.tls13_key_schedule encrypting with
              | None => (with_state (EncryptionState.Encrypting encrypting) self, Ok tt)
              | Some ks =>
                  match update_encrypter_for_key_update ks with
                  | Ok (e, ks) =>
                      let encrypting := Encrypting.with_key_schedule (Some ks) encrypting in
                      (with_state (EncryptionState.set_encrypter e
                         (EncryptionState.Encrypting encrypting)) self, Ok tt)
                  | Err err => (with_state (EncryptionState.Encrypting encrypting) self, Err err)
                  | Panic => (with_state (EncryptionState.Encrypting encrypting) self, Panic)
                  end
              end
          | ((encrypting, _), r) =>
              (with_state (EncryptionState.Encrypting encrypting) self, r)
          end
      end
  | _ => (self, Err Error.EncryptError)
  end.

(* @src rustls/src/conn/send.rs 165-179 SendPath::note_key_update_response *)
Definition note_key_update_response : action (t E K) Error.t unit := λ self,
  match encrypt_state self with
  | EncryptionState.Encrypting e =>
      match Encrypting.key_update_local e with
      | KeyUpdateLocal.Outstanding =>
          (with_state (EncryptionState.Encrypting
             (Encrypting.with_key_update_local KeyUpdateLocal.Idle e)) self, Ok tt)
      | KeyUpdateLocal.Idle => (self, Ok tt)
      end
  | _ => (self, Ok tt)
  end.

(* @src rustls/src/conn/send.rs 181-184 SendPath::set_encrypter *)
Definition set_encrypter (e : Encrypter.t E) : action (t E K) Error.t unit :=
  modify (λ self, with_state (EncryptionState.set_encrypter e (encrypt_state self)) self).

(* @src rustls/src/conn/send.rs 186-198 SendPath::update_key_schedule *)
Definition update_key_schedule (schedule : K) : action (t E K) Error.t unit := λ self,
  match encrypt_state self with
  | EncryptionState.Encrypting e =>
      (with_state (EncryptionState.Encrypting
         (Encrypting.with_key_schedule (Some schedule) e)) self, Ok tt)
  | _ => (self, Ok tt)
  end.
End methods.
End SendPath.

(** ** Runs of the send path *)

(** The calls a connection makes. *)
Inductive send_op (E K : Type) :=
  | OpVersion (v : ProtocolVersion.t)
  | OpMaxFragment (new : option nat)
  | OpAppData (payload : DataKind.t OutboundPlain.t)
  | OpCloseNotify
  | OpAlert (level : AlertLevel.t) (desc : AlertDescription.t)
  | OpMsg (m : Message.t) (must_encrypt : bool)
  | OpStartOutgoing
  | OpStartTraffic
  | OpRefresh
  | OpQueueKeyUpdate
  | OpKeyUpdateResponse
  | OpSetEncrypter (e : Encrypter.t E)
  | OpKeySchedule (k : K).
Arguments OpVersion {E K}.
Arguments OpMaxFragment {E K}.
Arguments OpAppData {E K}.
Arguments OpCloseNotify {E K}.
Arguments OpAlert {E K}.
Arguments OpMsg {E K}.
Arguments OpStartOutgoing {E K}.
Arguments OpStartTraffic {E K}.
Arguments OpRefresh {E K}.
Arguments OpQueueKeyUpdate {E K}.
Arguments OpKeyUpdateResponse {E K}.
Arguments OpSetEncrypter {E K}.
Arguments OpKeySchedule {E K}.

Section runs.
Context {E K : Type} `{!RecordEncrypter E, !TrafficSend K E, !PkiTypes}.

(** A method of [self] that does not see [tls]. *)
Definition on_self {A} (m : action (SendPath.t E K) Error.t A)
    : action (SendPath.t E K * list u8) Error.t A := λ '(self, tls),
  match m self with (self, r) => ((self, tls), r) end.

Definition discard {S Er A} (m : action S Er A) : action S Er unit := _ ← m; mret tt.

Definition send_step (op : send_op E K) : action (SendPath.t E K * list u8) Error.t unit :=
  match op with
  | OpVersion v => on_self (SendPath.set_negotiated_version v)
  | OpMaxFragment new => on_self (SendPath.set_max_fragment_size new)
  | OpAppData payload => discard (SendPath.send_appdata_encrypt payload)
  | OpCloseNotify => SendPath.send_close_notify
  | OpAlert level desc => SendPath.send_alert level desc
  | OpMsg m must_encrypt => SendPath.send_msg m must_encrypt
  | OpStartOutgoing => on_self SendPath.start_outgoing_traffic
  | OpStartTraffic => on_self SendPath.start_traffic
  | OpRefresh => SendPath.refresh_traffic_keys
  | OpQueueKeyUpdate => on_self SendPath.queue_requested_key_update
  | OpKeyUpdateResponse => on_self SendPath.note_key_update_response
  | OpSetEncrypter e => on_self (SendPath.set_encrypter e)
  | OpKeySchedule k => on_self (SendPath.update_key_schedule k)
  end.

(** Operations that return errors are followed by others, as the caller likes; a
    panic ends the run. *)
Fixpoint send_run (ops : list (send_op E K)) (s : SendPath.t E K * list u8)
    : option (SendPath.t E K * list u8) :=
  match ops with
  | [] => Some s
  | op :: ops =>
      match send_step op s with
      | (_, Panic) => None
      | (s, _) => send_run ops s
      end
  end.
End runs.

(** ** One record *)

Section one_record.
Context {E K : Type} `{!RecordEncrypter E}.
Implicit Types (self : Encrypting.t E K).

(** The buffer [encrypt_outgoing] hands to the encrypter. *)
Definition room self (plain : Record_.t OutboundPlain.t) : list u8 :=
  replicate (Encrypting.encrypted_len self (OutboundPlain.len (Record_.payload plain))) x00.

(** The sequence number is used up, whether or not the encryption succeeds. *)
Definition used (e : E) self : Encrypting.t E K :=
  Encrypting.with_encrypter e (Encrypting.with_write_seq (Encrypting.write_seq self + 1)%Z self).

Definition wire_header (c : Record_.t (list u8)) : list u8 :=
  encode_record_header (Record_.typ c) (Record_.version c)
    (wrapN 16 (Z.of_nat (length (Record_.payload c)))).

Lemma length_wire_header c : length (wire_header c) = HEADER_SIZE.
Proof. unfold wire_header. by rewrite encode_record_header_bytes, length_header. Qed.

Lemma encrypt_outgoing_panic self output plain :
  (SEQ_HARD_LIMIT ≤ Encrypting.write_seq self)%Z →
  ∃ out, Encrypting.encrypt_outgoing plain (self, output) = ((self, out), Panic).
Proof.
  intros Hs. unfold Encrypting.encrypt_outgoing, Encrypting.encrypt_outgoing_into.
  rewrite decide_True by done. by eexists.
Qed.

Lemma encrypt_outgoing_spec self output plain :
  (0 <= Encrypting.write_seq self < SEQ_HARD_LIMIT)%Z →
  Encrypting.encrypt_outgoing plain (self, output) =
    match encrypt (Encrypting.encrypter self) plain (Encrypting.write_seq self) (room self plain) with
    | (e, body, Ok c) =>
        ((used e self, output ++ wire_header c ++ take (length (Record_.payload c)) body), Ok tt)
    | (e, body, Err err) => ((used e self, output ++ replicate HEADER_SIZE x00 ++ body), Err err)
    | (e, body, Panic) => ((used e self, output ++ replicate HEADER_SIZE x00 ++ body), Panic)
    end.
Proof.
  intros Hs. unfold Encrypting.encrypt_outgoing, Encrypting.encrypt_outgoing_into.
  rewrite decide_False by lia. rewrite drop_app_length, take_app_length.
  rewrite (wrapN_small 64) by (unfold SEQ_HARD_LIMIT in Hs; lia).
  rewrite decide_False by (rewrite length_replicate; lia).
  rewrite take_replicate, drop_replicate, Nat.min_l, Nat.add_comm, Nat.add_sub by lia.
  fold (room self plain). cbn [Encrypting.encrypter Encrypting.with_write_seq].
  destruct (encrypt _ plain _ _) as [[e body] [c|err|]]; try done.
  fold (wire_header c). do 2 f_equal. by rewrite take_app_add, <-(length_wire_header c), take_app_add.
Qed.
End one_record.

(** On the keys in use, [send_short] is the queued key update, then the record. *)
Lemma send_short_self_eq {E K} `{!RecordEncrypter E} m s :
  send_short_self (E:=E) (K:=K) m s =
    (_ ← Encrypting.write_key_update;
     Encrypting.encrypt_outgoing (borrow_outbound (Message.to_record m))) s.
Proof.
  destruct s as [self tls]. unfold send_short_self, send_short.
  by match goal with |- _ = ?e => destruct e as [[] ?] end.
Qed.

(** ** Invariants of the keys *)

(** Encrypters that remember the sequence numbers they were given. *)
Class SeqLog (E : Type) `{RecordEncrypter E} := {
  seq_log : E → list Z;
  seq_log_encrypt e r seq out : seq_log (encrypt e r seq out).1.1 = seq_log e ++ [seq];
}.

Section keys.
Context {E K : Type} `{!RecordEncrypter E, !TrafficSend K E, !PkiTypes}.

(** An invariant of the keys that new keys satisfy, and that the use of the next
    sequence number keeps. *)
Record KeyInvariant (I : E → Z → Prop) (fresh : Encrypter.t E → Prop) (good : K → Prop) : Prop := {
  inv_seal e seq r out : I e seq → (seq < SEQ_HARD_LIMIT)%Z → I (encrypt e r seq out).1.1 (seq + 1)%Z;
  inv_range e seq : I e seq → (0 <= seq)%Z;
  inv_fresh e : fresh e → I (Encrypter.encrypter e) 0%Z;
  inv_update k e k' : good k → update_encrypter k = Ok (e, k') → fresh e ∧ good k';
  inv_update_response k e k' :
    good k → update_encrypter_for_key_update k = Ok (e, k') → fresh e ∧ good k';
}.

Context {I fresh good} (HI : KeyInvariant I fresh good).

Definition keys_ok (self : Encrypting.t E K) : Prop :=
  I (Encrypting.encrypter self) (Encrypting.write_seq self) ∧
  (Encrypting.write_seq_max self ≤ SEQ_SOFT_LIMIT)%Z ∧
  from_option good True (Encrypting.tls13_key_schedule self).

Definition enc_ok (s : Encrypting.t E K * list u8) : Prop := keys_ok s.1.

Definition path_ok (s : SendPath.t E K * list u8) : Prop :=
  match SendPath.encrypt_state s.1 with
  | EncryptionState.Encrypting e => keys_ok e | _ => True
  end.

Lemma keeps_encrypt_outgoing plain : keeps enc_ok (Encrypting.encrypt_outgoing plain).
Proof using HI.
  intros [self output] Hk. pose proof Hk as (Hi & Hm & Hg). cbn [fst] in Hi, Hm, Hg.
  destruct (decide (SEQ_HARD_LIMIT ≤ Encrypting.write_seq self)%Z) as [Hs|Hs].
  { destruct (encrypt_outgoing_panic self output plain Hs) as [out ->]. done. }
  rewrite encrypt_outgoing_spec by (pose proof (inv_range _ _ _ HI _ _ Hi); lia).
  pose proof (inv_seal _ _ _ HI _ _ plain (room self plain) Hi ltac:(lia)) as Hi'.
  destruct (encrypt _ plain _ _) as [[e body] [c|err|]]; by split_and!.
Qed.

Lemma keeps_write_key_update : keeps enc_ok Encrypting.write_key_update.
Proof. intros [self tls] Hk. unfold Encrypting.write_key_update. by destruct (KeyUpdateRemote.write _ _). Qed.
#[local] Hint Resolve keeps_bind keeps_encrypt_outgoing keeps_write_key_update : keeps.

Lemma keeps_send_short_self m : keeps enc_ok (send_short_self m).
Proof using HI. eapply keeps_ext; [apply send_short_self_eq|]. auto with keeps. Qed.
#[local] Hint Resolve keeps_send_short_self : keeps.

Lemma keys_ok_install e self :
  fresh e → keys_ok self → keys_ok (install e self).
Proof using HI.
  intros Hf (_ & _ & Hg). split_and!; [by apply (inv_fresh _ _ _ HI)|cbn; lia|done].
Qed.

Lemma keeps_request : keeps enc_ok send_key_update_request.
Proof using HI.
  unfold send_key_update_request. apply keeps_bind; [auto with keeps|]. intros [k|]; [|auto with keeps].
  apply keeps_bind; [auto with keeps|]. intros _ [self tls] Hk.
  unfold mbind, action_bind, gets. cbn [fst].
  destruct (Encrypting.tls13_key_schedule self) as [k'|] eqn:Hks; [|done].
  pose proof Hk as (Hi & Hm & Hg). cbn [fst] in Hi, Hm, Hg. rewrite Hks in Hg.
  unfold lift. destruct (update_encrypter k') as [[e k2]| |] eqn:Hu; [|done..].
  destruct (inv_update _ _ _ HI _ _ _ Hg Hu) as [Hf Hg'].
  by apply (keys_ok_install e (Encrypting.with_key_update_local _ _)).
Qed.
#[local] Hint Resolve keeps_request : keeps.

Lemma keeps_encrypt_each iter : keeps enc_ok (encrypt_each iter).
Proof using HI.
  induction iter as [|r iter IH]; cbn [encrypt_each]; [auto with keeps|].
  apply keeps_bind; [auto with keeps|]. intros self. apply keeps_bind; [|auto with keeps].
  case_decide; auto with keeps.
Qed.
#[local] Hint Resolve keeps_encrypt_each : keeps.

Lemma keeps_encrypt_records iter : keeps enc_ok (encrypt_records iter).
Proof using HI.
  unfold encrypt_records. apply keeps_bind; [auto with keeps|]. intros self.
  repeat case_decide; auto with keeps.
Qed.
#[local] Hint Resolve keeps_encrypt_records : keeps.

Lemma keeps_on_encrypting {A} e (m : action (Encrypting.t E K * list u8) Error.t A) self tls :
  keeps enc_ok m → keys_ok e → path_ok (SendPath.on_encrypting e m (self, tls)).1.
Proof.
  intros Hm Hk. specialize (Hm (e, tls) Hk). unfold SendPath.on_encrypting.
  by destruct (m (e, tls)) as [[e' tls'] r].
Qed.

Lemma keeps_send_alert level desc : keeps path_ok (SendPath.send_alert level desc).
Proof using HI.
  intros [self tls] Hp. unfold path_ok in Hp. cbn [fst] in Hp. unfold SendPath.send_alert.
  destruct (SendPath.encrypt_state self) as [|e|] eqn:He.
  - cbn [send_short]. unfold path_ok. cbn [fst]. case_decide; cbn; by rewrite ?He.
  - pose proof (keeps_send_short_self (Message.build_alert level desc) (e, tls) Hp) as Hk.
    unfold send_short_self in Hk.
    destruct (send_short _ (Some e, tls)) as [[[e'|] tls'] r]; unfold path_ok; cbn [fst];
      case_decide; cbn; try done; by rewrite He.
  - unfold path_ok. cbn [fst]. by rewrite He.
Qed.
#[local] Hint Resolve keeps_send_alert : keeps.

Lemma keeps_close_notify : keeps path_ok SendPath.send_close_notify.
Proof using HI.
  unfold SendPath.send_close_notify. apply keeps_bind; [auto with keeps|]. intros self.
  destruct (SendPath.has_sent_close_notify self); [auto with keeps|].
  apply keeps_bind; [|auto with keeps]. apply keeps_modify. by intros [].
Qed.
#[local] Hint Resolve keeps_close_notify : keeps.

Lemma keeps_exhausted b : keeps path_ok (SendPath.close_if_exhausted b).
Proof using HI. destruct b; cbn [SendPath.close_if_exhausted]; auto with keeps. Qed.
#[local] Hint Resolve keeps_exhausted : keeps.

(** Reading the state first. *)
Lemma keeps_gets_bind {A} (J : SendPath.t E K * list u8 → Prop)
    (f : SendPath.t E K → action (SendPath.t E K * list u8) Error.t A) :
  (∀ self tls, J (self, tls) → J (f self (self, tls)).1) → keeps J (self ← gets fst; f self).
Proof. intros Hf [self tls] Hj. by apply Hf. Qed.

Lemma keeps_records {A} e self tls rs (k : bool → action (SendPath.t E K * list u8) Error.t A) :
  keys_ok e → (∀ b, keeps path_ok (k b)) →
  path_ok ((limit ← SendPath.on_encrypting e (_ ← Encrypting.write_key_update; encrypt_records rs);
            k limit) (self, tls)).1.
Proof using HI.
  intros Hk Hb. unfold mbind at 1, action_bind at 1.
  pose proof (keeps_on_encrypting e (_ ← Encrypting.write_key_update; encrypt_records rs) self tls)
    as Ho. destruct (SendPath.on_encrypting _ _ _) as [s [b|err|]]; [apply Hb|..]; apply Ho; auto with keeps.
Qed.

Lemma keeps_appdata payload : keeps path_ok (SendPath.send_appdata_encrypt payload).
Proof using HI.
  unfold SendPath.send_appdata_encrypt.
  destruct (match payload with DataKind.Early _ => _ | _ => _ end) as [early p].
  apply keeps_gets_bind. intros self tls Hp. repeat case_match; try done.
  apply keeps_records; [|auto with keeps]. unfold path_ok in Hp. cbn [fst] in Hp.
  by match goal with H : SendPath.encrypt_state self = _ |- _ => rewrite H in Hp end.
Qed.

Lemma keeps_msg m b : keeps path_ok (SendPath.send_msg m b).
Proof using HI.
  unfold SendPath.send_msg. apply keeps_gets_bind. intros self tls Hp. repeat case_match; try done.
  apply keeps_records; [|auto with keeps]. unfold path_ok in Hp. cbn [fst] in Hp.
  by match goal with H : SendPath.encrypt_state self = _ |- _ => rewrite H in Hp end.
Qed.

Lemma keeps_refresh : keeps path_ok SendPath.refresh_traffic_keys.
Proof using HI.
  unfold SendPath.refresh_traffic_keys. apply keeps_gets_bind. intros self tls Hp.
  repeat case_match; try done. apply keeps_on_encrypting; [auto with keeps|].
  unfold path_ok in Hp. cbn [fst] in Hp.
  by match goal with H : SendPath.encrypt_state self = _ |- _ => rewrite H in Hp end.
Qed.

Lemma keeps_queue : keeps path_ok (on_self SendPath.queue_requested_key_update).
Proof using HI.
  intros [self tls] Hp. unfold on_self, SendPath.queue_requested_key_update.
  unfold path_ok in Hp. cbn [fst] in Hp.
  destruct (SendPath.encrypt_state self) as [|e|] eqn:He; [by unfold path_ok; cbn; rewrite He| |
    by unfold path_ok; cbn; rewrite He].
  destruct (Encrypting.key_update_remote e); [|by unfold path_ok; cbn; rewrite He].
  pose proof (keeps_send_short_self Message.build_key_update_notify (e, []) Hp) as Hk.
  destruct (send_short_self _ (e, [])) as [[e' queued] [[]|err|]]; [|done..].
  cbn [Encrypting.tls13_key_schedule Encrypting.with_key_update_remote].
  destruct (Encrypting.tls13_key_schedule e') as [ks|] eqn:Hks; [|done].
  pose proof Hk as (_ & _ & Hg). cbn [fst] in Hg. rewrite Hks in Hg.
  destruct (update_encrypter_for_key_update ks) as [[ne nk]| |] eqn:Hu; [|by destruct Hk as (? & ? & ?)..].
  destruct (inv_update_response _ _ _ HI _ _ _ Hg Hu) as [Hf Hg'].
  apply (keys_ok_install ne (Encrypting.with_key_schedule _ _)); [done|].
  destruct Hk as (? & ? & _). by split_and!.
Qed.

(** The operation brings only keys that satisfy the invariant. *)
Definition op_ok (op : send_op E K) : Prop :=
  match op with
  | OpSetEncrypter e => fresh e
  | OpKeySchedule k => good k
  | _ => True
  end.

Lemma keeps_send_step op : op_ok op → keeps path_ok (send_step op).
Proof using HI.
  intros Hop. destruct op; cbn [send_step];
    try (solve [auto using keeps_refresh, keeps_queue, keeps_msg with keeps]).
  - by intros [].
  - intros [self tls] Hp. unfold on_self, SendPath.set_max_fragment_size.
    by destruct (Fragmenter.set_max_fragment_size _ _).
  - apply keeps_bind; auto using keeps_appdata with keeps.
  - by intros [].
  - by intros [].
  - intros [self tls] Hp. unfold on_self, SendPath.note_key_update_response.
    unfold path_ok in *. cbn [fst] in *.
    destruct (SendPath.encrypt_state self) as [|e|] eqn:He; cbn; rewrite ?He; try done.
    destruct (Encrypting.key_update_local e); cbn; by rewrite ?He.
  - intros [self tls] Hp. unfold on_self, SendPath.set_encrypter, modify, path_ok in *. cbn [fst] in *.
    cbn [SendPath.encrypt_state SendPath.with_state].
    destruct (SendPath.encrypt_state self); cbn; [|by apply keys_ok_install|done].
    split_and!; [by apply (inv_fresh _ _ _ HI)|cbn; lia|done].
  - intros [self tls] Hp. unfold on_self, SendPath.update_key_schedule.
    unfold path_ok in *. cbn [fst] in *. destruct (SendPath.encrypt_state self) as [|e|] eqn:He; cbn; rewrite ?He; try done.
    destruct Hp as (? & ? & _). by split_and!.
Qed.

Lemma send_run_ok ops s s' :
  Forall op_ok ops → path_ok s → send_run ops s = Some s' → path_ok s'.
Proof using HI.
  intros Ho. revert s. induction Ho as [|op ops Hop _ IH]; intros s Hp Hr; [by simplify_eq/=|].
  cbn [send_run] in Hr. pose proof (keeps_send_step op Hop s Hp) as Hk.
  destruct (send_step op s) as [s1 []]; [by eapply IH..|done].
Qed.
End keys.

(** ** Correctness of the send path *)

(** The sequence numbers [0], ..., [n - 1]. *)
Definition seqs (n : Z) : list Z := Z.of_nat <$> seq 0 (Z.to_nat n).

Lemma seqs_succ n : (0 <= n)%Z → seqs (n + 1) = seqs n ++ [n].
Proof.
  intros Hn. unfold seqs. rewrite Z2Nat.inj_add, Nat.add_1_r, seq_S, fmap_app by lia.
  cbn [fmap list_fmap Nat.add]. by rewrite Z2Nat.id.
Qed.

Lemma seq_invariant {E K} `{!RecordEncrypter E, !TrafficSend K E, !SeqLog E} :
  (∀ (k k' : K) e, update_encrypter k = Ok (e, k') → seq_log (Encrypter.encrypter e) = []) →
  (∀ (k k' : K) e, update_encrypter_for_key_update k = Ok (e, k') →
     seq_log (Encrypter.encrypter e) = []) →
  KeyInvariant (K:=K) (λ e n, (0 <= n <= SEQ_HARD_LIMIT)%Z ∧ seq_log e = seqs n)
    (λ e, seq_log (Encrypter.encrypter e) = []) (λ _, True).
Proof.
  intros Hu Hr. split; [|naive_solver| |naive_solver..].
  - intros e n r out [Hn Hl] Hlt. rewrite seq_log_encrypt, Hl, seqs_succ by lia. split; [lia|done].
  - unfold SEQ_HARD_LIMIT. intros e ->. split; [lia|done].
Qed.

(** C21. Sequence numbers are not reused: whatever operations a connection runs, and
    whichever of them fail, the encrypter in use has been given exactly the numbers
    0, 1, ... up to the next one, in this order and each once, all below the limit;
    a key update, an alert or a failed encryption does not disturb the order, and
    new keys start again from 0. *)
Theorem send_seqs `{!PkiTypes} {E K} `{!RecordEncrypter E, !TrafficSend K E, !SeqLog E}
    (ops : list (send_op E K)) (self : SendPath.t E K) (tls : list u8) (e : Encrypting.t E K) :
  (∀ (k k' : K) e, update_encrypter k = Ok (e, k') → seq_log (Encrypter.encrypter e) = []) →
  (∀ (k k' : K) e, update_encrypter_for_key_update k = Ok (e, k') →
     seq_log (Encrypter.encrypter e) = []) →
  (∀ e, OpSetEncrypter e ∈ ops → seq_log (Encrypter.encrypter e) = []) →
  send_run ops (SendPath.default, []) = Some (self, tls) →
  SendPath.encrypt_state self = EncryptionState.Encrypting e →
  seq_log (Encrypting.encrypter e) = seqs (Encrypting.write_seq e) ∧
  (0 <= Encrypting.write_seq e <= SEQ_HARD_LIMIT)%Z.
Proof.
  intros Hu Hr Hops Hrun He.
  assert (path_ok (K:=K) (I:=λ e n, (0 <= n <= SEQ_HARD_LIMIT)%Z ∧ seq_log e = seqs n)
    (good:=λ _, True) (self, tls)) as Hp.
  { apply (send_run_ok (seq_invariant Hu Hr) ops (SendPath.default, [])); [|done..].
    apply Forall_forall. intros op Hop. destruct op; try done. by apply Hops. }
  unfold path_ok in Hp. cbn [fst] in Hp. rewrite He in Hp. by destruct Hp as ([] & _).
Qed.

(** *** An instance

    An encrypter that appends the content type to the payload, without hiding
    anything, and remembers the sequence numbers. *)
Module Plain.
Record t := mk { log : list Z }.

#[global] Instance encrypter : RecordEncrypter t := {
  encrypt e r seq out :=
    let body := OutboundPlain.to_vec (Record_.payload r) ++ [ContentType.val (Record_.typ r)] in
    (mk (log e ++ [seq]),
     if decide (length body ≤ length out) then body ++ drop (length body) out else out,
     if decide (length body ≤ length out)
     then Ok (Record_.new ContentType.ApplicationData
                (EncodableVersion.Legacy ProtocolVersion.TLSv1_2) body)
     else Err Error.EncryptError);
  encrypted_payload_len _ n := n + 1;
}.

#[global] Instance encrypter_laws : RecordEncrypterLaws t.
Proof.
  split.
  - intros e r seq out. cbn. case_decide; [|done]. rewrite length_app, length_drop. lia.
  - intros e r seq out e' out' c He _. cbn in He. case_decide; simplify_eq. cbn. by rewrite take_app_length.
  - intros e r seq out e' out' c He Hw _. cbn [encrypt encrypter encrypted_payload_len] in *.
    case_decide; simplify_eq. cbn [Record_.payload].
    by rewrite length_app, to_vec_flat, len_flat.
Qed.

#[global] Instance seq_logged : SeqLog t := { seq_log := log; seq_log_encrypt _ _ _ _ := eq_refl }.

#[global] Instance schedule : TrafficSend nat t := {
  update_encrypter k := Ok (Encrypter.mk (mk []) 3, S k);
  update_encrypter_for_key_update k := Ok (Encrypter.mk (mk []) 3, S k);
}.

(** Fragments of at most 32 bytes, and keys good for three records. *)
Definition ops : list (send_op t nat) :=
  [OpMaxFragment (Some 32); OpSetEncrypter (Encrypter.mk (mk []) 3); OpKeySchedule 0;
   OpStartTraffic; OpAppData (DataKind.Traffic (OutboundPlain.Single (replicate 60 x61)));
   OpQueueKeyUpdate; OpAppData (DataKind.Traffic (OutboundPlain.Single [x62; x63]));
   OpCloseNotify; OpAppData (DataKind.Traffic (OutboundPlain.Single [x64]))].

Definition final : SendPath.t t nat * list u8 :=
  Eval vm_compute in
    let _ := any_names in default (SendPath.default, []) (send_run ops (SendPath.default, [])).
End Plain.

Lemma send_seqs_witness :
  let e := match SendPath.encrypt_state Plain.final.1 with
           | EncryptionState.Encrypting e => e
           | _ => Encrypting.mk (Plain.mk []) 0 0 KeyUpdateLocal.Idle KeyUpdateRemote.Idle None
           end in
  seq_log (Encrypting.encrypter e) = seqs (Encrypting.write_seq e) ∧
  (0 <= Encrypting.write_seq e <= SEQ_HARD_LIMIT)%Z.
Proof.
  intros e. apply (send_seqs (H:=any_names) Plain.ops Plain.final.1 Plain.final.2 e);
    [intros ??? [= <- <-]; done..| | |].
  - intros e' He%list_elem_of_In. cbn [In Plain.ops] in He. destruct_or! He; by simplify_eq.
  - by vm_compute.
  - by vm_compute.
Defined.

Section closing.
Context {E K : Type} `{!RecordEncrypter E, !TrafficSend K E, !PkiTypes}.

Definition retired (tls : list u8) (s : SendPath.t E K * list u8) : Prop :=
  SendPath.encrypt_state s.1 = EncryptionState.Retired ∧ s.2 = tls.

(** Once retired, no operation panics, writes, or brings keys back. *)
Lemma retired_step op s tls :
  retired tls s → (send_step op s).2 ≠ Panic ∧ retired tls (send_step op s).1.
Proof.
  destruct s as [self tls']. intros [Hr Htls]. cbn [fst snd] in Hr, Htls. subst tls'.
  destruct op; cbn [send_step];
    unfold on_self, SendPath.set_max_fragment_size, SendPath.send_alert,
      SendPath.queue_requested_key_update, SendPath.note_key_update_response,
      SendPath.set_encrypter, SendPath.update_key_schedule, modify;
    try (by rewrite Hr); try (by repeat split).
  - destruct (Fragmenter.set_max_fragment_size new (SendPath.fragmenter self)) as [f r] eqn:Hf.
    split; [|done]. cbn [snd]. intros ->. revert Hf. unfold Fragmenter.set_max_fragment_size.
    destruct new; [case_decide|]; done.
  - unfold discard, SendPath.send_appdata_encrypt, mbind, action_bind, gets.
    destruct payload; cbn [fst]; rewrite Hr; unfold fail; repeat case_match; simplify_eq;
      by repeat split.
  - unfold SendPath.send_close_notify, mbind, action_bind, gets. cbn [fst].
    destruct (SendPath.has_sent_close_notify self); [done|].
    unfold modify, SendPath.send_alert. cbn. by rewrite Hr.
  - unfold SendPath.send_msg, mbind, action_bind, gets. cbn [fst]. by rewrite Hr.
  - unfold SendPath.refresh_traffic_keys, mbind, action_bind, gets. cbn [fst]. by rewrite Hr.
Qed.

Lemma retired_run ops s tls :
  retired tls s → ∃ self', send_run ops s = Some (self', tls) ∧
    SendPath.encrypt_state self' = EncryptionState.Retired.
Proof.
  revert s. induction ops as [|op ops IH]; intros s Hs.
  { destruct s as [self tls'], Hs as [Hr Ht]. cbn in Ht. subst. by exists self. }
  cbn [send_run]. destruct (retired_step op s tls Hs) as [Hp Hs'].
  destruct (send_step op s) as [s' [| |]]; [by apply IH..|done].
Qed.

Lemma fatal_alert_retires desc s :
  retired (SendPath.send_alert AlertLevel.Fatal desc s).1.2
    (SendPath.send_alert AlertLevel.Fatal desc s).1.
Proof.
  destruct s as [self tls]. unfold SendPath.send_alert.
  destruct (SendPath.encrypt_state self) as [|e|] eqn:He; [done| |done].
  by destruct (send_short _ _) as [[[] ] ].
Qed.

Definition closed (s : SendPath.t E K * list u8) : Prop := SendPath.has_sent_close_notify s.1 = true.

Lemma closed_alert level desc : keeps closed (SendPath.send_alert level desc).
Proof.
  intros [self tls] Hc. unfold SendPath.send_alert, closed in *.
  repeat case_match; cbn [fst] in *; repeat case_decide; done.
Qed.

Lemma closed_on_encrypting {A} e (m : action (Encrypting.t E K * list u8) Error.t A) :
  keeps closed (SendPath.on_encrypting e m).
Proof. intros [self tls] Hc. unfold SendPath.on_encrypting. by destruct (m _) as [[] ?]. Qed.

Lemma closed_close_notify : keeps closed SendPath.send_close_notify.
Proof.
  intros [self tls] Hc. unfold SendPath.send_close_notify, mbind, action_bind, gets. cbn [fst].
  unfold closed in Hc. cbn [fst] in Hc. by rewrite Hc.
Qed.

Lemma closed_exhausted b : keeps closed (SendPath.close_if_exhausted b).
Proof.
  destruct b; cbn [SendPath.close_if_exhausted]; [|auto with keeps].
  apply keeps_bind; [apply closed_close_notify|auto with keeps].
Qed.

Lemma closed_step op : keeps closed (send_step op).
Proof.
  destruct op; cbn [send_step];
    try (apply closed_alert || apply closed_close_notify); try (by intros []).
  - intros [self tls] Hc. unfold on_self, SendPath.set_max_fragment_size.
    by destruct (Fragmenter.set_max_fragment_size _ _).
  - apply keeps_bind; [|auto with keeps]. unfold SendPath.send_appdata_encrypt.
    destruct (match payload with DataKind.Early _ => _ | _ => _ end) as [early p].
    apply keeps_bind; [auto with keeps|]. intros self. repeat case_match; try (by auto with keeps).
    apply keeps_bind; [apply closed_on_encrypting|]. intros b.
    apply keeps_bind; [apply closed_exhausted|auto with keeps].
  - unfold SendPath.send_msg. apply keeps_bind; [auto with keeps|]. intros self.
    repeat case_match; try (by auto with keeps); try (by intros []).
    apply keeps_bind; [apply closed_on_encrypting|apply closed_exhausted].
  - unfold SendPath.refresh_traffic_keys. apply keeps_bind; [auto with keeps|]. intros self.
    repeat case_match; try (by auto with keeps). apply closed_on_encrypting.
  - intros [self tls] Hc. unfold on_self, SendPath.queue_requested_key_update.
    repeat case_match; simplify_eq; done.
  - intros [self tls] Hc. unfold on_self, SendPath.note_key_update_response.
    repeat case_match; simplify_eq; done.
  - intros [self tls] Hc. unfold on_self, SendPath.update_key_schedule.
    repeat case_match; simplify_eq; done.
Qed.

Lemma closed_run ops s s' : closed s → send_run ops s = Some s' → closed s'.
Proof.
  revert s. induction ops as [|op ops IH]; intros s Hc Hr; [by simplify_eq/=|].
  cbn [send_run] in Hr. pose proof (closed_step op s Hc).
  destruct (send_step op s) as [s1 [| |]]; [by eapply IH..|done].
Qed.
End closing.


(** close_notify is sent at most once, and application data is not sent after
    it: once it has been sent, and whatever runs afterwards, a second
    [send_close_notify] changes nothing, and a write of data is refused without
    touching the state or the output. *)
Theorem close_notify_final `{!PkiTypes} {E K} `{!RecordEncrypter E, !TrafficSend K E}
    (s s' : SendPath.t E K * list u8) (ops : list (send_op E K)) (p : OutboundPlain.t) :
  send_run ops (SendPath.send_close_notify s).1 = Some s' →
  OutboundPlain.is_empty p = false →
  SendPath.send_close_notify s' = (s', Ok tt) ∧
  (∃ e, SendPath.send_appdata_encrypt (DataKind.Traffic p) s' = (s', Err (Error.ApiMisuse e))) ∧
  SendPath.send_appdata_encrypt (DataKind.Early p) s'
    = (s', Err (Error.ApiMisuse ApiMisuse.WriteAfterSendPathClosed)).
Proof.
  intros Hrun Hp. apply closed_run in Hrun.
  - destruct s' as [self tls]. unfold closed in Hrun. cbn [fst] in Hrun.
    unfold SendPath.send_close_notify, SendPath.send_appdata_encrypt, mbind, action_bind, gets.
    cbn [fst]. rewrite Hrun, Hp. split_and!; [done| |done].
    destruct (SendPath.may_send_application_data self); by eexists.
  - destruct s as [self tls].
    unfold SendPath.send_close_notify, mbind, action_bind, gets. cbn [fst].
    destruct (SendPath.has_sent_close_notify self) eqn:Hc; [done|]. by apply closed_alert.
Qed.

Lemma close_notify_final_witness :
  let _ := any_names in
  let s := (SendPath.default, []) : SendPath.t Plain.t nat * list u8 in
  let s' := (SendPath.with_may_send true (SendPath.with_half_rtt true (SendPath.with_closed true
              SendPath.default)), [x15; x03; x03; x00; x02; x01; x00]) in
  SendPath.send_close_notify s' = (s', Ok tt) ∧
  (∃ e, SendPath.send_appdata_encrypt (DataKind.Traffic (OutboundPlain.Single [x61])) s'
     = (s', Err (Error.ApiMisuse e))) ∧
  SendPath.send_appdata_encrypt (DataKind.Early (OutboundPlain.Single [x61])) s'
    = (s', Err (Error.ApiMisuse ApiMisuse.WriteAfterSendPathClosed)).
Proof.
  intros names s s'. apply (close_notify_final s s' [OpStartTraffic]); by vm_compute.
Defined.
