(* ===== verification/SendFlow.v ===== *)
(** * What the send path puts on the wire

    The bytes produced by [rustls/src/conn/send.rs], as a flow of encrypted
    records: consecutive sequence numbers, and keys that change only behind a key
    update. *)
From stdpp Require Import gmap.
From S2P Require Import Prelude Enums Errors Codec Records Fragmenter Extensions Payloads.
From S2P Require Import ServerHello ClientHello Messages Send.

(** ** The records on the wire *)

(** The part of [Encrypting] that determines what a record is encrypted with. *)
Module Keys.
Record t (E K : Type) := mk { encrypter : E; seq : Z; schedule : option K }.
Arguments mk {E K}.
Arguments encrypter {E K}.
Arguments seq {E K}.
Arguments schedule {E K}.

Definition in_use {E K} (e : Encrypting.t E K) : t E K :=
  mk (Encrypting.encrypter e) (Encrypting.write_seq e) (Encrypting.tls13_key_schedule e).
End Keys.

(** Key updates as they are sent. *)
Definition key_update_record `{!PkiTypes} (m : Message.t) : Record_.t OutboundPlain.t :=
  borrow_outbound (Message.to_record m).

(** The application data of a list of records. *)
Definition app_data (rs : list (Record_.t OutboundPlain.t)) : list u8 :=
  concat ((λ r, if decide (Record_.typ r = ContentType.ApplicationData)
                then OutboundPlain.to_vec (Record_.payload r) else []) <$> rs).

Lemma app_data_app rs rs' : app_data (rs ++ rs') = app_data rs ++ app_data rs'.
Proof. unfold app_data. by rewrite fmap_app, concat_app. Qed.

Lemma app_data_other typ version ps :
  typ ≠ ContentType.ApplicationData → app_data (Record_.new typ version <$> ps) = [].
Proof.
  intros Ht. unfold app_data. induction ps as [|p ps IH]; [done|].
  cbn [fmap list_fmap concat Record_.typ]. rewrite decide_False by done. exact IH.
Qed.

Lemma app_data_fragments f p overhead version :
  OutboundPlain.wf p →
  app_data (Fragmenter.fragment f ContentType.ApplicationData version p overhead)
    = OutboundPlain.to_vec p.
Proof.
  intros Hp. destruct (fragment_chunks f ContentType.ApplicationData version p overhead Hp)
    as (qs & -> & Hc & _). unfold app_data. rewrite <-list_fmap_compose, to_vec_flat, <-Hc. f_equal.
  apply list_fmap_ext. intros. cbn. apply to_vec_flat.
Qed.

Section flow.
Context {E K : Type} `{!RecordEncrypter E, !TrafficSend K E, !PkiTypes}.

(** The records that are sent without a change of keys. *)
Variable P : Record_.t OutboundPlain.t → Prop.

(** [bs] is the record [r], encrypted and framed, with the keys [k]; [k'] are the
    keys afterwards. *)
Definition sealed (k : Keys.t E K) (r : Record_.t OutboundPlain.t) (bs : list u8)
    (k' : Keys.t E K) : Prop :=
  (0 <= Keys.seq k < SEQ_HARD_LIMIT)%Z ∧ ∃ e body c,
    encrypt (Keys.encrypter k) r (Keys.seq k)
      (replicate (encrypted_payload_len (Keys.encrypter k) (OutboundPlain.len (Record_.payload r))) x00)
      = (e, body, Ok c) ∧
    bs = wire_header c ++ Record_.payload c ∧
    k' = Keys.mk e (Keys.seq k + 1)%Z (Keys.schedule k).

(** The next traffic keys. *)
Definition next_keys (k k' : Keys.t E K) : Prop :=
  ∃ ks e ks', Keys.schedule k = Some ks ∧ k' = Keys.mk (Encrypter.encrypter e) 0 (Some ks') ∧
    (update_encrypter ks = Ok (e, ks') ∨ update_encrypter_for_key_update ks = Ok (e, ks')).

Definition is_key_update (r : Record_.t OutboundPlain.t) : Prop :=
  r = key_update_record Message.build_key_update_request ∨
  r = key_update_record Message.build_key_update_notify.

(** The bytes [bs] are the records [rs], each encrypted with the next sequence
    number of the current key, where the key changes after a key update and at no
    other place. *)
Inductive flow : Keys.t E K → list (Record_.t OutboundPlain.t) → list u8 → Keys.t E K → Prop :=
  | flow_nil k : flow k [] [] k
  | flow_record k r bs k1 rs bs' k2 :
      P r → sealed k r bs k1 → flow k1 rs bs' k2 → flow k (r :: rs) (bs ++ bs') k2
  | flow_key_update k r bs k1 k2 rs bs' k3 :
      is_key_update r → sealed k r bs k1 → next_keys k1 k2 →
      flow k2 rs bs' k3 → flow k (r :: rs) (bs ++ bs') k3.

Lemma flow_app k rs bs k1 rs' bs' k2 :
  flow k rs bs k1 → flow k1 rs' bs' k2 → flow k (rs ++ rs') (bs ++ bs') k2.
Proof.
  induction 1 as [|k r bs1 k1' rs bs2 k2' Hr Hs Hf IH|k r bs1 k1' k2' rs bs2 k3 Hu Hs Hn Hf IH];
    intros H'; [done|..]; rewrite <-(assoc_L (++)); cbn [app].
  - eapply flow_record; [done..|]. by apply IH.
  - eapply flow_key_update; [done..|]. by apply IH.
Qed.

Lemma flow_one k r bs k1 : P r → sealed k r bs k1 → flow k [r] bs k1.
Proof. intros Hr Hs. rewrite <-(app_nil_r bs). eapply flow_record; [done..|]. constructor. Qed.

(** The list [rs'] is [rs] with key update requests inserted. *)
Inductive with_updates : list (Record_.t OutboundPlain.t) → list (Record_.t OutboundPlain.t) → Prop :=
  | updates_nil : with_updates [] []
  | updates_keep r rs rs' : with_updates rs rs' → with_updates (r :: rs) (r :: rs')
  | updates_insert rs rs' : with_updates rs rs' →
      with_updates rs (key_update_record Message.build_key_update_request :: rs').

Lemma app_data_updates rs rs' : with_updates rs rs' → app_data rs' = app_data rs.
Proof.
  unfold app_data. induction 1 as [|r rs rs' _ IH|rs rs' _ IH]; [done|..];
    cbn [fmap list_fmap concat]; by rewrite IH.
Qed.

(** The key update that was encrypted but not sent. *)
Definition pending (e : Encrypting.t E K) : list u8 :=
  match Encrypting.key_update_remote e with
  | KeyUpdateRemote.Queued m => m | KeyUpdateRemote.Idle => []
  end.

Context `{!RecordEncrypterLaws E}.

Lemma encrypt_outgoing_flow plain self tls s :
  (0 <= Encrypting.write_seq self)%Z →
  Encrypting.encrypt_outgoing plain (self, tls) = (s, Ok tt) →
  ∃ bs, s.2 = tls ++ bs ∧ sealed (Keys.in_use self) plain bs (Keys.in_use s.1) ∧
    pending s.1 = pending self ∧
    Encrypting.tls13_key_schedule s.1 = Encrypting.tls13_key_schedule self.
Proof.
  intros H0 He. destruct (decide (SEQ_HARD_LIMIT ≤ Encrypting.write_seq self)%Z) as [Hs|Hs].
  { destruct (encrypt_outgoing_panic self tls plain Hs) as [? Hp]. by rewrite Hp in He. }
  rewrite encrypt_outgoing_spec in He by lia.
  destruct (encrypt _ plain _ _) as [[e body] [c|err|]] eqn:Hc; simplify_eq.
  eexists. split; [done|]. split; [|done]. split; [cbn; lia|].
  exists e, body, c. split; [done|]. split; [|done]. f_equal.
  apply encrypt_payload in Hc as Hp; [by symmetry|].
  unfold room. by rewrite length_replicate.
Qed.

(** After the queued key update, if there is one, has been written. *)
Lemma write_key_update_flow self tls :
  ∃ self', Encrypting.write_key_update (self, tls) = ((self', tls ++ pending self), Ok tt) ∧
    Keys.in_use self' = Keys.in_use self ∧ pending self' = [] ∧
    Encrypting.write_seq_max self' = Encrypting.write_seq_max self.
Proof.
  unfold Encrypting.write_key_update, pending. destruct (Encrypting.key_update_remote self);
    cbn [KeyUpdateRemote.write]; rewrite ?app_nil_r; by eexists.
Qed.

Lemma send_short_flow m self tls s :
  (0 <= Encrypting.write_seq self)%Z →
  send_short_self m (self, tls) = (s, Ok tt) →
  ∃ bs, s.2 = tls ++ pending self ++ bs ∧
    sealed (Keys.in_use self) (borrow_outbound (Message.to_record m)) bs (Keys.in_use s.1) ∧
    pending s.1 = [].
Proof.
  intros H0 He. rewrite send_short_self_eq in He.
  destruct (write_key_update_flow self tls) as (self' & Hw & Hk & Hp & _).
  unfold mbind, action_bind in He. rewrite Hw in He.
  assert (Encrypting.write_seq self' = Encrypting.write_seq self) as Hseq by by injection Hk.
  apply encrypt_outgoing_flow in He as (bs & -> & Hs & Hp' & _); [|lia].
  exists bs. rewrite Hk in Hs. rewrite Hp', Hp, (assoc_L (++)). by split_and!.
Qed.

Lemma request_flow self tls s :
  (0 <= Encrypting.write_seq self)%Z →
  send_key_update_request (self, tls) = (s, Ok tt) →
  ∃ bs, s.2 = tls ++ pending self ++ bs ∧ pending s.1 = [] ∧ Encrypting.write_seq s.1 = 0%Z ∧
    flow (Keys.in_use self) [key_update_record Message.build_key_update_request] bs (Keys.in_use s.1).
Proof.
  intros H0 He. unfold send_key_update_request, mbind, action_bind, gets in He. cbn [fst] in He.
  destruct (Encrypting.tls13_key_schedule self) as [k|]; [|done].
  destruct (send_short_self _ (self, tls)) as [[self1 tls1] [[]| |]] eqn:Hsh; [|done..].
  apply send_short_flow in Hsh as (bs & Ht & Hs & Hp); [|done]. cbn [fst snd] in *.
  destruct (Encrypting.tls13_key_schedule self1) as [ks|] eqn:Hks; [|done].
  unfold lift in He. destruct (update_encrypter ks) as [[e ks']| |] eqn:Hu; [|done..].
  injection He as <-. exists bs.
  split; [done|]. split; [done|]. split; [done|]. rewrite <-(app_nil_r bs).
  eapply flow_key_update; [by left|exact Hs| |constructor].
  exists ks, e, ks'. by split_and!; [..|left].
Qed.

(** The keys move forward: their sequence number stays a number. *)
Lemma flow_seq k rs bs k' : flow k rs bs k' → (0 <= Keys.seq k)%Z → (0 <= Keys.seq k')%Z.
Proof.
  induction 1 as [|k r bs1 k1' rs bs2 k2' Hr Hs Hf IH|k r bs1 k1' k2' rs bs2 k3 Hu Hs Hn Hf IH];
    intros H0; [done|..]; apply IH.
  - destruct Hs as (? & ? & ? & ? & _ & _ & ->). cbn. lia.
  - by destruct Hn as (? & ? & ? & _ & -> & _).
Qed.

(** A key update in answer to the peer's changes the keys, or is sent like any record. *)
Definition keyed (k : Keys.t E K) : Prop :=
  P (key_update_record Message.build_key_update_notify) ∨ is_Some (Keys.schedule k).

Lemma flow_keyed k rs bs k' : flow k rs bs k' → keyed k → keyed k'.
Proof.
  induction 1 as [|k r bs1 k1' rs bs2 k2' Hr Hs Hf IH|k r bs1 k1' k2' rs bs2 k3 Hu Hs Hn Hf IH];
    intros [|Hk]; (try by left); [by right|..]; apply IH; right.
  - by destruct Hs as (? & ? & ? & ? & _ & _ & ->).
  - destruct Hn as (? & ? & ? & _ & -> & _). by eexists.
Qed.

Lemma encrypt_each_flow iter self tls s :
  Forall P iter → (0 <= Encrypting.write_seq self)%Z → pending self = [] →
  encrypt_each iter (self, tls) = (s, Ok tt) →
  ∃ rs bs, s.2 = tls ++ bs ∧ pending s.1 = [] ∧ with_updates iter rs ∧
    flow (Keys.in_use self) rs bs (Keys.in_use s.1).
Proof.
  intros HP. revert self tls. induction HP as [|r iter Hr HP IH]; intros self tls H0 Hp He.
  { injection He as <-. exists [], []. rewrite app_nil_r. split_and!; [done..|constructor|constructor]. }
  cbn [encrypt_each] in He. unfold mbind, action_bind, gets in He. cbn [fst] in He.
  (* the key update, if any *)
  assert (∃ self1 tls1 us bs1, tls1 = tls ++ bs1 ∧ pending self1 = [] ∧
    (0 <= Encrypting.write_seq self1)%Z ∧
    (∀ l l', with_updates l l' → with_updates l (us ++ l')) ∧
    flow (Keys.in_use self) us bs1 (Keys.in_use self1) ∧
    match Encrypting.encrypt_outgoing r (self1, tls1) with
    | (s1, Ok _) => encrypt_each iter s1 | (s1, Err e) => (s1, Err e) | (s1, Panic) => (s1, Panic)
    end = (s, Ok tt)) as (self1 & tls1 & us & bs1 & -> & Hp1 & H1 & Hu & Hf1 & He1).
  { destruct (decide _).
    - destruct (send_key_update_request (self, tls)) as [[self1 tls1] [[]| |]] eqn:Hq; [|done..].
      apply request_flow in Hq as (bs1 & Ht & Hp1 & Hs1 & Hf); [|done]. cbn [fst snd] in *.
      rewrite Hp, app_nil_l in Ht. exists self1, tls1, [key_update_record Message.build_key_update_request], bs1.
      split_and!; [done..|lia| |done|exact He]. intros l l' Hl. by apply updates_insert.
    - exists self, tls, [], []. rewrite app_nil_r. split_and!; [done..|constructor|exact He]. }
  destruct (Encrypting.encrypt_outgoing r (self1, tls ++ bs1)) as [[self2 tls2] [[]| |]] eqn:Ho; [|done..].
  apply encrypt_outgoing_flow in Ho as (bs2 & Ht & Hs & Hp2 & _); [|done]. cbn [fst snd] in *.
  assert (0 <= Encrypting.write_seq self2)%Z as H2.
  { apply (flow_seq _ _ _ _ (flow_one _ _ _ _ Hr Hs)). done. }
  apply IH in He1 as (rs & bs3 & -> & Hp3 & Hw & Hf3); [|done|congruence].
  exists (us ++ r :: rs), (bs1 ++ bs2 ++ bs3). subst tls2. rewrite <-!(assoc_L (++)).
  split_and!; [done..| |].
  - apply Hu. by constructor.
  - eapply flow_app; [done|]. by eapply flow_record.
Qed.

Lemma encrypt_records_flow iter self tls s :
  Forall P iter → (0 <= Encrypting.write_seq self)%Z →
  (_ ← Encrypting.write_key_update; encrypt_records iter) (self, tls) = (s, Ok false) →
  ∃ rs bs, s.2 = tls ++ pending self ++ bs ∧ pending s.1 = [] ∧ with_updates iter rs ∧
    flow (Keys.in_use self) rs bs (Keys.in_use s.1).
Proof.
  intros HP H0 He. destruct (write_key_update_flow self tls) as (self' & Hw & Hk & Hp & _).
  unfold mbind at 1, action_bind at 1 in He. rewrite Hw in He.
  assert (Encrypting.write_seq self' = Encrypting.write_seq self) as Hseq by by injection Hk.
  unfold encrypt_records, mbind, action_bind, gets in He. cbn [fst] in He.
  do 2 (case_decide; [done|]).
  destruct (encrypt_each iter _) as [s1 [[]| |]] eqn:Hi; [|done..]. injection He as <-.
  apply encrypt_each_flow in Hi as (rs & bs & -> & Hp' & Hu & Hf); [|done|lia|done].
  exists rs, bs. rewrite <-Hk, (assoc_L (++)). by split_and!.
Qed.

(** *** Operations on a connection with keys *)

(** Fragments of this type and version may be sent. *)
Definition sendable (typ : ContentType.t) (version : EncodableVersion.t) : Prop :=
  ∀ p, OutboundPlain.wf p → 0 < OutboundPlain.len p →
    (Z.of_nat (OutboundPlain.len p) <= MAX_FRAGMENT_LEN)%Z → P (Record_.new typ version p).

Definition sendable_message (m : Message.t) : Prop := P (borrow_outbound (Message.to_record m)).

(** The operations that neither replace the keys of the connection nor send in the
    clear nor retire it, and what they may send. *)
Definition traffic_op (op : send_op E K) : Prop :=
  match op with
  | OpAppData (DataKind.Early p) | OpAppData (DataKind.Traffic p) =>
      OutboundPlain.wf p ∧
      sendable ContentType.ApplicationData (EncodableVersion.Legacy ProtocolVersion.TLSv1_2)
  | OpCloseNotify => sendable_message (Message.build_alert AlertLevel.Warning AlertDescription.CloseNotify)
  | OpAlert level desc => level ≠ AlertLevel.Fatal ∧ sendable_message (Message.build_alert level desc)
  | OpMsg m must_encrypt =>
      must_encrypt = true ∧ Record_.typ (Message.to_record m) ≠ ContentType.ApplicationData ∧
      sendable (Record_.typ (Message.to_record m)) (Record_.version (Message.to_record m))
  | OpSetEncrypter _ | OpKeySchedule _ => False
  | _ => True
  end.

(** The application data that an operation sends. *)
Definition op_data (op : send_op E K) : list u8 :=
  match op with
  | OpAppData (DataKind.Early p) | OpAppData (DataKind.Traffic p) => OutboundPlain.to_vec p
  | _ => []
  end.

Lemma fragments_sendable f typ version p overhead :
  OutboundPlain.wf p → Fragmenter.max_frag f ≤ MAX_FRAGMENT_LEN_usize → sendable typ version →
  Forall P (Fragmenter.fragment f typ version p overhead).
Proof.
  intros Hp Hf Hs. destruct (fragment_chunks f typ version p overhead Hp) as (l & -> & _ & Hl & _).
  apply Forall_fmap. eapply Forall_impl; [exact Hl|]. intros q [Hq Hlen].
  assert (OutboundPlain.len q = length (OutboundPlain.flat q)) as Hll by by apply len_flat.
  apply Hs; [done|lia|]. rewrite Hll. pose proof MAX_FRAGMENT_LEN_Z. unfold MAX_FRAGMENT_LEN.
  unfold Fragmenter.max_plaintext in Hlen. case_match; lia.
Qed.

(** A path with traffic keys. *)
Record sending (s : SendPath.t E K * list u8) (e : Encrypting.t E K) : Prop := {
  sending_keys : SendPath.encrypt_state s.1 = EncryptionState.Encrypting e;
  sending_seq : (0 <= Encrypting.write_seq e)%Z;
  sending_keyed : keyed (Keys.in_use e);
  sending_frag : Fragmenter.max_frag (SendPath.fragmenter s.1) ≤ MAX_FRAGMENT_LEN_usize;
}.

(** The bytes that have been produced, including those not yet handed over, grew by
    a flow of records that carries [data]. *)
Definition grows (data : list u8) (s s' : SendPath.t E K * list u8) : Prop :=
  ∀ e, sending s e →
    ∃ e' rs bs, sending s' e' ∧ s'.2 ++ pending e' = s.2 ++ pending e ++ bs ∧
      flow (Keys.in_use e) rs bs (Keys.in_use e') ∧ app_data rs = data.

Lemma grows_idle self self' tls :
  (∀ e, SendPath.encrypt_state self = EncryptionState.Encrypting e →
     ∃ e', SendPath.encrypt_state self' = EncryptionState.Encrypting e' ∧
       Keys.in_use e' = Keys.in_use e ∧ pending e' = pending e) →
  (Fragmenter.max_frag (SendPath.fragmenter self) ≤ MAX_FRAGMENT_LEN_usize →
   Fragmenter.max_frag (SendPath.fragmenter self') ≤ MAX_FRAGMENT_LEN_usize) →
  grows [] (self, tls) (self', tls).
Proof.
  intros Hs Hfr e [He H0 Hke Hf]. destruct (Hs e He) as (e' & He' & Hk & Hp). exists e', [], [].
  cbn [fst snd] in *. rewrite Hk, Hp, app_nil_r. split_and!; [|done|constructor|done].
  split; cbn [fst]; [done| |by rewrite Hk|by apply Hfr].
  change (Encrypting.write_seq e') with (Keys.seq (Keys.in_use e')). by rewrite Hk.
Qed.

Lemma grows_refl s : grows [] s s.
Proof. destruct s as [self tls]. apply grows_idle; [|done]. intros e He. by exists e. Qed.

Lemma grows_trans d1 d2 s1 s2 s3 : grows d1 s1 s2 → grows d2 s2 s3 → grows (d1 ++ d2) s1 s3.
Proof.
  intros H12 H23 e He. destruct (H12 e He) as (e' & rs & bs & He' & Hw & Hf & Hd).
  destruct (H23 e' He') as (e2 & rs' & bs' & He2 & Hw' & Hf' & Hd'). exists e2, (rs ++ rs'), (bs ++ bs').
  split_and!; [done| |by eapply flow_app|by rewrite app_data_app, Hd, Hd'].
  rewrite Hw', (assoc_L (++)), Hw. by rewrite <-!(assoc_L (++)).
Qed.

(** The keys after a flow of records that leaves nothing pending. *)
Lemma grows_flow s s' e e' rs bs :
  sending s e → SendPath.encrypt_state s'.1 = EncryptionState.Encrypting e' →
  SendPath.fragmenter s'.1 = SendPath.fragmenter s.1 →
  flow (Keys.in_use e) rs bs (Keys.in_use e') → sending s' e'.
Proof.
  intros [He H0 Hk Hf] He' Hfr Hfl. split; [done|by apply (flow_seq _ _ _ _ Hfl)| |by rewrite Hfr].
  by apply (flow_keyed _ _ _ _ Hfl).
Qed.

Lemma grows_records {A} e self tls iter (k : bool → action (SendPath.t E K * list u8) Error.t A) s a :
  Forall P iter → sending (self, tls) e →
  (∀ s1 s2 b a, k b s1 = (s2, Ok a) → b = false ∧ s1 = s2) →
  (limit ← SendPath.on_encrypting e (_ ← Encrypting.write_key_update; encrypt_records iter);
   k limit) (self, tls) = (s, Ok a) →
  ∃ e' rs bs, sending s e' ∧ s.2 ++ pending e' = tls ++ pending e ++ bs ∧
    flow (Keys.in_use e) rs bs (Keys.in_use e') ∧ app_data rs = app_data iter.
Proof.
  intros HP Hs Hk Hr. pose proof Hs as [He H0 _ _]. unfold mbind at 1, action_bind at 1 in Hr.
  unfold SendPath.on_encrypting in Hr.
  destruct ((_ ← Encrypting.write_key_update; encrypt_records iter) (e, tls)) as [[e1 tls1] [b| |]]
    eqn:Ho; [|done..].
  apply Hk in Hr as [-> <-]. apply encrypt_records_flow in Ho as (rs & bs & Ht & Hp & Hu & Hf); [|done..].
  cbn [fst snd] in *. exists e1, rs, bs. rewrite Hp, app_nil_r.
  split_and!; [|done..|by apply app_data_updates]. by eapply grows_flow.
Qed.

Lemma exhausted_ok {A} b (a a' : A) (s1 s2 : SendPath.t E K * list u8) :
  (_ ← SendPath.close_if_exhausted b; mret a) s1 = (s2, Ok a') → b = false ∧ s1 = s2.
Proof.
  destruct b; unfold mbind, action_bind; cbn [SendPath.close_if_exhausted]; intros He;
    [|by injection He as -> ->].
  unfold mbind, action_bind in He. by destruct (SendPath.send_close_notify s1) as [? [| |]].
Qed.

Lemma exhausted_ok' b a (s1 s2 : SendPath.t E K * list u8) :
  SendPath.close_if_exhausted b s1 = (s2, Ok a) → b = false ∧ s1 = s2.
Proof.
  intros He. apply (exhausted_ok b tt a). unfold mbind, action_bind. rewrite He. by destruct a.
Qed.

Lemma grows_alert level desc s s' :
  level ≠ AlertLevel.Fatal → sendable_message (Message.build_alert level desc) →
  SendPath.send_alert level desc s = (s', Ok tt) → grows [] s s'.
Proof.
  destruct s as [self tls]. intros Hl HP Ha e Hs0. pose proof Hs0 as [He H0 _ _]. cbn [fst] in He.
  unfold SendPath.send_alert in Ha.
  rewrite He in Ha. destruct (send_short_self (Message.build_alert level desc) (e, tls)) as [[e' tls'] r] eqn:Hs.
  pose proof Hs as Hs'. unfold send_short_self, send_short in Hs', Ha.
  match type of Ha with context [match match ?m with _ => _ end with _ => _ end] => destruct m as [[e1 tls1] r1] end.
  injection Hs' as -> -> ->. rewrite decide_False in Ha by done. injection Ha as <- ->.
  apply send_short_flow in Hs as (bs & Ht & Hf & Hp); [|done]. cbn [fst snd] in *.
  apply (flow_one _ _ _ _ HP) in Hf. eexists e', [_], bs. cbn [fst snd]. rewrite Hp, app_nil_r.
  split_and!; [|done..]. by eapply grows_flow.
Qed.

Lemma grows_close_notify s s' :
  sendable_message (Message.build_alert AlertLevel.Warning AlertDescription.CloseNotify) →
  SendPath.send_close_notify s = (s', Ok tt) → grows [] s s'.
Proof.
  destruct s as [self tls]. intros HP Hc. unfold SendPath.send_close_notify, mbind, action_bind, gets in Hc.
  cbn [fst] in Hc. destruct (SendPath.has_sent_close_notify self).
  { injection Hc as <-. apply grows_refl. }
  unfold modify in Hc. apply grows_alert in Hc; [|done..].
  eapply (grows_trans [] []); [|exact Hc]. apply grows_idle; [|done]. intros e He. by exists e.
Qed.

Lemma grows_queue self self' tls :
  SendPath.queue_requested_key_update self = (self', Ok tt) → grows [] (self, tls) (self', tls).
Proof.
  intros Hq e Hse. pose proof Hse as [He H0 Hk _]. cbn [fst] in He.
  unfold SendPath.queue_requested_key_update in Hq. rewrite He in Hq.
  destruct (Encrypting.key_update_remote e) as [|m] eqn:Hm.
  2: { injection Hq as <-. by apply (grows_refl (self, tls)). }
  destruct (send_short_self _ (e, [])) as [[e1 queued] [[]| |]] eqn:Hs; [|done..].
  apply send_short_flow in Hs as (bs & Ht & Hf & Hp); [|done]. cbn [fst snd] in *.
  unfold pending in Ht. rewrite Hm in Ht. cbn [app] in Ht. subst queued.
  cbn [Encrypting.tls13_key_schedule Encrypting.with_key_update_remote] in Hq.
  assert (pending e = []) as -> by (unfold pending; by rewrite Hm).
  assert (Encrypting.tls13_key_schedule e1 = Encrypting.tls13_key_schedule e) as Hsch.
  { destruct Hf as (_ & ? & ? & ? & _ & _ & Hk'). by injection Hk'. }
  destruct (Encrypting.tls13_key_schedule e1) as [ks|] eqn:Hks.
  - destruct (update_encrypter_for_key_update ks) as [[ne ks']| |] eqn:Hu; [|done..]. injection Hq as <-.
    assert (flow (Keys.in_use e) [key_update_record Message.build_key_update_notify] bs
      (Keys.mk (Encrypter.encrypter ne) 0 (Some ks'))) as Hfl.
    { rewrite <-(app_nil_r bs). eapply flow_key_update; [by right|exact Hf| |constructor].
      exists ks, ne, ks'. split_and!; [done..|by right]. }
    eexists _, _, bs. split_and!; [eapply grows_flow; [done..|exact Hfl]|done|exact Hfl|done].
  - injection Hq as <-. destruct Hk as [HP|Hk].
    2: { unfold is_Some in Hk. cbn in Hk. rewrite <-Hsch in Hk. by destruct Hk. }
    apply (flow_one _ _ _ _ HP) in Hf. eexists _, [_], bs.
    split_and!; [by eapply grows_flow|done..].
Qed.

Lemma grows_appdata d s s' n :
  traffic_op (OpAppData d) → SendPath.send_appdata_encrypt d s = (s', Ok n) →
  grows (op_data (OpAppData d)) s s'.
Proof.
  destruct s as [self tls]. intros Hop Hs e Hse. pose proof Hse as [He _ _ Hfr]. cbn [fst] in He.
  unfold SendPath.send_appdata_encrypt in Hs.
  destruct (match d with DataKind.Early _ => _ | _ => _ end) as [early p] eqn:Hd.
  assert (OutboundPlain.wf p ∧ sendable ContentType.ApplicationData
    (EncodableVersion.Legacy ProtocolVersion.TLSv1_2) ∧ op_data (OpAppData d) = OutboundPlain.to_vec p)
    as (Hw & Hsd & ->) by (destruct d; destruct Hop; by simplify_eq).
  unfold mbind at 1, action_bind at 1, gets in Hs. cbn [fst] in Hs. rewrite He in Hs.
  do 2 match type of Hs with context [if ?b then _ else _] => destruct b; [done|] end.
  eapply grows_records in Hs as (e' & rs & bs & He' & Ht & Hf & Hdata);
    [|by apply fragments_sendable|done|intros; by eapply exhausted_ok].
  rewrite app_data_fragments in Hdata by done. by exists e', rs, bs.
Qed.

Lemma grows_msg m s s' :
  traffic_op (OpMsg m true) → SendPath.send_msg m true s = (s', Ok tt) → grows [] s s'.
Proof.
  destruct s as [self tls]. intros (_ & Hty & Hsd) Hs e Hse. pose proof Hse as [He _ _ Hfr].
  cbn [fst] in He. unfold SendPath.send_msg in Hs.
  unfold mbind at 1, action_bind at 1, gets in Hs. cbn [fst] in Hs. rewrite He in Hs.
  eapply grows_records in Hs as (e' & rs & bs & He' & Ht & Hf & Hdata);
    [|by apply fragments_sendable|done|intros; by eapply exhausted_ok'].
  exists e', rs, bs. split_and!; [done..|]. rewrite Hdata. unfold Fragmenter.fragment.
  generalize (Chunker.collect (OutboundPlain.len (OutboundPlain.Single
    (Record_.payload (Message.to_record m))))).
  intros collect. by apply app_data_other.
Qed.

Lemma grows_refresh s s' : SendPath.refresh_traffic_keys s = (s', Ok tt) → grows [] s s'.
Proof.
  destruct s as [self tls]. intros Hs e Hse. pose proof Hse as [He H0 _ _]. cbn [fst] in He.
  unfold SendPath.refresh_traffic_keys in Hs.
  unfold mbind at 1, action_bind at 1, gets in Hs. cbn [fst] in Hs. rewrite He in Hs.
  destruct (Encrypting.key_update_local e).
  + unfold SendPath.on_encrypting in Hs.
    destruct (send_key_update_request (e, tls)) as [[e1 tls1] r] eqn:Hr. injection Hs as <- ->.
    apply request_flow in Hr as (bs & Ht & Hp & _ & Hf); [|done]. cbn [fst snd] in *.
    eexists e1, [_], bs. cbn [fst snd]. rewrite Hp, app_nil_r.
    split_and!; [by eapply grows_flow|done..].
  + injection Hs as <-. by apply (grows_refl (self, tls)).
Qed.

Lemma grows_step op s s' :
  traffic_op op → send_step op s = (s', Ok tt) → grows (op_data op) s s'.
Proof.
  destruct s as [self tls]. intros Hop Hs.
  assert (∀ self', SendPath.encrypt_state self' = SendPath.encrypt_state self →
    SendPath.fragmenter self' = SendPath.fragmenter self → grows [] (self, tls) (self', tls)) as Hidle.
  { intros self' He Hf. apply grows_idle; [|by rewrite Hf]. intros e. rewrite <-He. by exists e. }
  destruct op; cbn [send_step] in *; try done.
  - injection Hs as <-. by apply Hidle.
  - unfold on_self, SendPath.set_max_fragment_size in Hs.
    destruct (Fragmenter.set_max_fragment_size _ _) as [f r] eqn:Hf. simplify_eq.
    apply grows_idle; [intros e He; by exists e|]. intros _.
    by apply (set_max_fragment_limit new (SendPath.fragmenter self)).
  - unfold discard, mbind, action_bind in Hs.
    destruct (SendPath.send_appdata_encrypt payload (self, tls)) as [s1 [n| |]] eqn:Ha; [|done..].
    injection Hs as <-. by eapply grows_appdata.
  - by apply grows_close_notify.
  - destruct Hop. by eapply grows_alert.
  - pose proof Hop as (-> & _). by eapply grows_msg.
  - injection Hs as <-. by apply Hidle.
  - injection Hs as <-. by apply Hidle.
  - by apply grows_refresh.
  - unfold on_self in Hs. destruct (SendPath.queue_requested_key_update self) as [self' r] eqn:Hq.
    injection Hs as <- ->. by apply grows_queue.
  - unfold on_self, SendPath.note_key_update_response in Hs.
    destruct (SendPath.encrypt_state self) as [|e|] eqn:He; [by simplify_eq; apply grows_refl| |
      by simplify_eq; apply grows_refl].
    destruct (Encrypting.key_update_local e); simplify_eq; [apply grows_refl|].
    apply grows_idle; [|done]. intros e' He'. rewrite He in He'. simplify_eq. eexists. by split_and!.
Qed.

(** Runs in which every call succeeds. *)
Fixpoint send_all (ops : list (send_op E K)) (s : SendPath.t E K * list u8)
    : option (SendPath.t E K * list u8) :=
  match ops with
  | [] => Some s
  | op :: ops => match send_step op s with (s1, Ok _) => send_all ops s1 | _ => None end
  end.

Lemma grows_run ops s s' :
  Forall traffic_op ops → send_all ops s = Some s' → grows (concat (op_data <$> ops)) s s'.
Proof.
  intros Ho. revert s. induction Ho as [|op ops Hop _ IH]; intros s Hr; cbn [send_all] in Hr.
  { injection Hr as <-. apply grows_refl. }
  destruct (send_step op s) as [s1 [[]| |]] eqn:Hs; [|done..].
  eapply grows_trans; [by eapply grows_step|by apply IH].
Qed.
End flow.

(** ** Main results *)


Module Traffic.
Definition e : Encrypting.t Plain.t nat :=
  Encrypting.mk (Plain.mk [0; 1]%Z) 3 2 KeyUpdateLocal.Idle KeyUpdateRemote.Idle (Some 7).
Definition self : SendPath.t Plain.t nat :=
  SendPath.mk (EncryptionState.Encrypting e) true true false (Fragmenter.mk 32) None.
Definition ops : list (send_op Plain.t nat) :=
  [OpQueueKeyUpdate; OpRefresh; OpAppData (DataKind.Traffic (OutboundPlain.Single [x61]));
   OpCloseNotify].
Definition final : SendPath.t Plain.t nat * list u8 :=
  Eval vm_compute in
    let _ := any_names in default (self, []) (send_all ops (self, [x00])).
End Traffic.

