(* ===== verification/SendRange.v ===== *)
(** * The sequence numbers of the send path stay in range

    The [assert!] of [rustls/src/conn/send.rs] that guards the sequence number is
    never reached. *)
From stdpp Require Import gmap.
From S2P Require Import Prelude Enums Errors Codec Records Fragmenter Extensions Payloads.
From S2P Require Import ServerHello ClientHello Messages Send.

(** ** The sequence number stays in range *)

(** A buffer of the announced length is enough for [encrypt] not to panic, and new
    traffic keys can always be derived. *)
Class SafeSender (E K : Type) `{!RecordEncrypter E, !TrafficSend K E} : Prop := {
  encrypt_no_panic (e : E) r seq out :
    OutboundPlain.wf (Record_.payload r) →
    encrypted_payload_len e (OutboundPlain.len (Record_.payload r)) ≤ length out →
    (encrypt e r seq out).2 ≠ Panic;
  update_no_panic (k : K) : update_encrypter k ≠ Panic;
  response_no_panic (k : K) : update_encrypter_for_key_update k ≠ Panic;
}.

Section range.
Context {E K : Type} `{!RecordEncrypter E, !TrafficSend K E, !SafeSender E K, !PkiTypes}.

Definition below (B : Z) (e : Encrypting.t E K) : Prop :=
  (0 <= Encrypting.write_seq e <= B)%Z ∧ (Encrypting.write_seq_max e <= SEQ_SOFT_LIMIT)%Z.

(** [m] does not panic; [Q] holds of the state afterwards and of whether it
    succeeded. *)
Definition safe {S A} (P : S → Prop) (m : action S Error.t A) (Q : bool → S → Prop) : Prop :=
  ∀ s, P s → (m s).2 ≠ Panic ∧ Q (is_ok (m s).2) (m s).1.

Lemma safe_bind {S A B} P (m : action S Error.t A) Q (f : A → action S Error.t B) R :
  safe P m Q → (∀ a, safe (Q true) (f a) R) → (∀ s, Q false s → R false s) →
  safe P (m ≫= f) R.
Proof.
  intros Hm Hf He s Hs. destruct (Hm s Hs) as [Hp Hq]. unfold mbind, action_bind.
  destruct (m s) as [s' [a| |]]; [by apply Hf|split; [done|by apply He]|done].
Qed.

Lemma safe_ext {S A} P (m m' : action S Error.t A) Q :
  (∀ s, m s = m' s) → safe P m' Q → safe P m Q.
Proof. intros He Hm s Hs. rewrite He. by apply Hm. Qed.

Lemma safe_gets {S A B} P (g : S → A) (f : A → action S Error.t B) Q :
  (∀ s, P s → safe (λ s', s' = s) (f (g s)) Q) → safe P (x ← gets g; f x) Q.
Proof. intros Hf s Hs. by apply (Hf s Hs s). Qed.

Lemma safe_outgoing plain B :
  OutboundPlain.wf (Record_.payload plain) → (B < SEQ_HARD_LIMIT)%Z →
  safe (λ s, below B s.1) (Encrypting.encrypt_outgoing plain) (λ _ s, below (B + 1) s.1).
Proof.
  intros Hw HB [self tls] [Hs Hm]. cbn [fst] in *. rewrite encrypt_outgoing_spec by lia.
  pose proof (encrypt_no_panic (Encrypting.encrypter self) plain (Encrypting.write_seq self)
    (room self plain) Hw) as Hp. unfold room in Hp at 1. rewrite length_replicate in Hp.
  specialize (Hp (le_n _)).
  destruct (encrypt _ plain _ _) as [[e body] [c|err|]]; cbn [fst snd] in *; [| |done];
    (split; [done|split; [cbn; lia|done]]).
Qed.

Lemma safe_write B :
  safe (λ s, below B s.1) (Encrypting.write_key_update (E:=E) (K:=K)) (λ _ s, below B s.1).
Proof.
  intros [self tls] Hb. unfold Encrypting.write_key_update.
  by destruct (KeyUpdateRemote.write _ _).
Qed.

Lemma safe_weaken {S A} P (m : action S Error.t A) Q Q' :
  safe P m Q → (∀ b s, Q b s → Q' b s) → safe P m Q'.
Proof. intros Hm Hq s Hs. destruct (Hm s Hs). auto. Qed.

Lemma below_le B B' e : below B e → (B <= B')%Z → below B' e.
Proof. intros [? ?] ?. split; [lia|done]. Qed.

Lemma safe_short m B :
  (B < SEQ_HARD_LIMIT)%Z →
  safe (λ s, below B s.1) (send_short_self (E:=E) (K:=K) m) (λ _ s, below (B + 1) s.1).
Proof.
  intros HB. eapply safe_ext; [apply send_short_self_eq|].
  eapply (safe_bind _ _ (λ _ s, below B s.1)); [apply safe_write|intros []; by apply safe_outgoing|].
  intros s' Hb. eapply below_le; [done|lia].
Qed.

(** A request leaves new keys, or failed after one record. *)
Lemma safe_request B :
  (B < SEQ_HARD_LIMIT)%Z →
  safe (λ s, below B s.1) (send_key_update_request (E:=E) (K:=K))
    (λ b s, below (if b then 0 else B + 1) s.1 ∧
            (b = true → is_Some (Encrypting.tls13_key_schedule s.1))).
Proof.
  intros HB [self tls] Hb. unfold send_key_update_request, mbind, action_bind, gets. cbn [fst].
  assert (below (B + 1) self) by (eapply below_le; [exact Hb|lia]).
  destruct (Encrypting.tls13_key_schedule self) as [k|]; [|done].
  destruct (safe_short Message.build_key_update_request B HB (self, tls) Hb) as [Hp Hb'].
  destruct (send_short_self _ (self, tls)) as [[self1 tls1] [[]| |]]; [|done..].
  cbn [fst snd] in *. destruct (Encrypting.tls13_key_schedule self1) as [ks|]; [|done].
  pose proof (update_no_panic ks) as Hu. unfold lift.
  destruct (update_encrypter ks) as [[e ks']| |]; [|done..]. split; [done|].
  split; [split; cbn; lia|done].
Qed.

(** The loop: without a key schedule the limit has been checked for all records. *)
Definition room_for (iter : list (Record_.t OutboundPlain.t)) (e : Encrypting.t E K) : Prop :=
  iter ≠ [] → Encrypting.tls13_key_schedule e = None →
  (Encrypting.write_seq e + Z.of_nat (length iter) <= SEQ_SOFT_LIMIT)%Z.

Definition all_wf (iter : list (Record_.t OutboundPlain.t)) : Prop :=
  Forall (λ r, OutboundPlain.wf (Record_.payload r)) iter.

Lemma fragments_wf f typ version p overhead :
  OutboundPlain.wf p → all_wf (Fragmenter.fragment f typ version p overhead).
Proof.
  intros Hp. destruct (fragment_chunks f typ version p overhead Hp) as (l & -> & _ & Hl & _).
  apply Forall_fmap. eapply Forall_impl; [exact Hl|]. by intros q [].
Qed.

Lemma safe_each iter B :
  all_wf iter → (SEQ_SOFT_LIMIT <= B < SEQ_HARD_LIMIT)%Z →
  safe (λ s, below B s.1 ∧ room_for iter s.1) (encrypt_each iter)
    (λ b s, below (if b then B else B + 1) s.1).
Proof.
  intros Hw HB. induction Hw as [|r iter Hr0 Hw IH]; [by intros s []|].
  cbn [encrypt_each]. apply safe_gets. intros [self tls] [Hb Hr]. cbn [fst] in *.
  set (P (s : Encrypting.t E K * list u8) := below (SEQ_SOFT_LIMIT - 1) s.1 ∧ room_for (r :: iter) s.1).
  apply (safe_bind (λ s, s = (self, tls)) _ (λ b s, if b then P s else below (B + 1) s.1)).
  - intros s ->. case_decide as Hd.
    + destruct (safe_request B ltac:(lia) (self, tls) Hb) as [Hp Hq]. split; [done|].
      destruct (is_ok _); [|by destruct Hq]. destruct Hq as [Hq Hk]. split.
      * eapply below_le; [done|]. unfold SEQ_SOFT_LIMIT. lia.
      * intros _ Hn. destruct Hk as [k Hk]; [done|]. by rewrite Hk in Hn.
    + cbn. split; [done|]. split; [|done]. destruct Hb as [Hs Hm]. split; [|done]. cbn [fst].
      split; [lia|]. rewrite wrapN_small in Hd by (unfold SEQ_HARD_LIMIT in HB; lia).
      destruct (Encrypting.tls13_key_schedule self) as [k|] eqn:Hk.
      * assert (¬ (Encrypting.write_seq_max self <= Encrypting.write_seq self + 1)%Z); [|lia].
        intros ?. apply Hd. split; [by exists k|done].
      * specialize (Hr ltac:(done) Hk). cbn [length] in Hr. lia.
  - intros _. apply (safe_bind P _ (λ b s, below SEQ_SOFT_LIMIT s.1 ∧ (b = true → room_for iter s.1))).
    + intros [self1 tls1] [Hb1 Hr1]. cbn [fst] in *.
      destruct (safe_outgoing r (SEQ_SOFT_LIMIT - 1) Hr0 ltac:(lia) (self1, tls1) Hb1) as [Hp Hq].
      rewrite Z.sub_add in Hq. split; [done|]. split; [done|]. intros Ho _ Hn.
      destruct Hb1 as [Hs1 _]. rewrite encrypt_outgoing_spec in Hn, Hq, Ho |- * by (unfold SEQ_SOFT_LIMIT, SEQ_HARD_LIMIT in *; lia).
      destruct (encrypt _ r _ _) as [[e body] [c| |]]; try done. cbn [fst used] in *.
      cbn in Hn. specialize (Hr1 ltac:(done) Hn). cbn [length] in Hr1. cbn. lia.
    + intros _ s [Hb1 Hr1]. apply IH. split; [|by apply Hr1]. eapply below_le; [done|lia].
    + intros s [Hb1 _]. eapply below_le; [done|lia].
  - intros s Hb1. done.
Qed.

Lemma safe_records iter B :
  all_wf iter → (SEQ_SOFT_LIMIT <= B < SEQ_HARD_LIMIT)%Z →
  safe (λ s, below B s.1) (encrypt_records (E:=E) (K:=K) iter)
    (λ b s, below (if b then B else B + 1) s.1).
Proof.
  intros Hw HB. unfold encrypt_records. apply safe_gets. intros [self tls] Hb. cbn [fst] in *.
  assert (below (B + 1) self) by (eapply below_le; [exact Hb|lia]).
  case_decide as H1; [by intros s ->|]. case_decide as H2; [by intros s ->|].
  apply (safe_bind _ _ (λ b s, below (if b then B else B + 1) s.1)); [|by intros ? s|done].
  intros s ->. apply (safe_each iter B Hw HB). split; [done|]. intros Hi Hn. destruct Hb as [Hs Hm].
  cbn [fst] in *. unfold saturating_add, SEQ_SOFT_LIMIT, SEQ_HARD_LIMIT in *.
  assert (¬ (Encrypting.write_seq_max self <= Z.min (Encrypting.write_seq self
    + (Z.of_nat (length iter) - 1)) (2 ^ 64 - 1))%Z) by tauto. lia.
Qed.

(** The same of a whole path. *)
Definition path_below (B : Z) (s : SendPath.t E K * list u8) : Prop :=
  match SendPath.encrypt_state s.1 with EncryptionState.Encrypting e => below B e | _ => True end.

Lemma path_below_le B B' s : path_below B s → (B <= B')%Z → path_below B' s.
Proof. unfold path_below. destruct (SendPath.encrypt_state s.1); eauto using below_le. Qed.

Lemma safe_alert level desc B :
  (B < SEQ_HARD_LIMIT)%Z →
  safe (path_below B) (SendPath.send_alert level desc) (λ _, path_below (B + 1)).
Proof.
  intros HB [self tls] Hb. pose proof (path_below_le _ (B + 1) _ Hb ltac:(lia)) as Hb1.
  unfold path_below in Hb. cbn [fst] in Hb. unfold SendPath.send_alert.
  destruct (SendPath.encrypt_state self) as [|e|] eqn:He; [|..|done].
  - cbn [send_short]. split; [done|]. cbn [fst]. case_decide; [done|exact Hb1].
  - destruct (safe_short (Message.build_alert level desc) B HB (e, tls) Hb) as [Hp Hq].
    unfold send_short_self in Hp, Hq. destruct (send_short _ (Some e, tls)) as [[[e'|] tls'] r];
      (split; [done|]); cbn [fst snd] in *; case_decide; unfold path_below; cbn; by rewrite ?He.
Qed.

Lemma safe_close B :
  (B < SEQ_HARD_LIMIT)%Z →
  safe (path_below B) SendPath.send_close_notify (λ _, path_below (B + 1)).
Proof.
  intros HB. unfold SendPath.send_close_notify. apply safe_gets. intros [self tls] Hb. cbn [fst].
  destruct (SendPath.has_sent_close_notify self).
  - intros s ->. split; [done|]. eapply path_below_le; [exact Hb|lia].
  - apply (safe_bind _ _ (λ _, path_below B)); [by intros s ->|intros []; by apply safe_alert|].
    intros s Hs. eapply path_below_le; [done|lia].
Qed.

Lemma safe_exhausted b B :
  (B < SEQ_HARD_LIMIT)%Z →
  safe (path_below B) (SendPath.close_if_exhausted b) (λ b, path_below (if b then B else B + 1)).
Proof.
  intros HB. destruct b; cbn [SendPath.close_if_exhausted]; [|by intros s].
  apply (safe_bind _ _ (λ _, path_below (B + 1))); [by apply safe_close|by intros []|done].
Qed.

Lemma safe_path_records e self tls iter B :
  all_wf iter → (SEQ_SOFT_LIMIT <= B < SEQ_HARD_LIMIT)%Z → below B e →
  safe (λ s, s = (self, tls)) (SendPath.on_encrypting e (_ ← Encrypting.write_key_update; encrypt_records iter))
    (λ b, path_below (if b then B else B + 1)).
Proof.
  intros Hw HB Hb s ->. unfold SendPath.on_encrypting.
  assert (safe (λ s, below B s.1) (_ ← Encrypting.write_key_update; encrypt_records (E:=E) (K:=K) iter)
    (λ b s, below (if b then B else B + 1) s.1)) as Hs.
  { apply (safe_bind _ _ (λ _ s, below B s.1)); [apply safe_write|intros; by apply safe_records|].
    intros s Hs. eapply below_le; [done|lia]. }
  destruct (Hs (e, tls) Hb) as [Hp Hq]. 
  by destruct ((_ ← Encrypting.write_key_update; encrypt_records iter) (e, tls)) as [[e' tls'] r].
Qed.

(** The payload to be sent is consistent. *)
Definition op_wf (op : send_op E K) : Prop :=
  match op with
  | OpAppData (DataKind.Early p) | OpAppData (DataKind.Traffic p) => OutboundPlain.wf p
  | _ => True
  end.

Lemma safe_appdata d B :
  op_wf (OpAppData d) → (SEQ_SOFT_LIMIT <= B < SEQ_HARD_LIMIT)%Z →
  safe (path_below B) (SendPath.send_appdata_encrypt d) (λ b, path_below (if b then B else B + 1)).
Proof.
  intros Hw HB. unfold SendPath.send_appdata_encrypt.
  destruct (match d with DataKind.Early _ => _ | _ => _ end) as [early p] eqn:Hd.
  assert (OutboundPlain.wf p) by (destruct d; by simplify_eq). clear Hd Hw.
  apply safe_gets. intros [self tls] Hb. cbn [fst].
  pose proof (path_below_le _ (B + 1) _ Hb ltac:(lia)) as Hb1.
  repeat case_match; try (by intros s ->). unfold path_below in Hb. cbn [fst] in Hb.
  match goal with H : SendPath.encrypt_state self = _ |- _ => rewrite H in Hb end.
  apply (safe_bind _ _ (λ b, path_below (if b then B else B + 1))); [apply safe_path_records; [by apply fragments_wf|done|done]| |done].
  intros b. apply (safe_bind _ _ (λ b, path_below (if b then B else B + 1)));
    [apply safe_exhausted; lia|by intros [] s|done].
Qed.

Lemma safe_msg m must B :
  (SEQ_SOFT_LIMIT <= B < SEQ_HARD_LIMIT)%Z →
  safe (path_below B) (SendPath.send_msg m must) (λ b, path_below (if b then B else B + 1)).
Proof.
  intros HB. unfold SendPath.send_msg. apply safe_gets. intros [self tls] Hb. cbn [fst].
  pose proof (path_below_le _ (B + 1) _ Hb ltac:(lia)) as Hb1.
  repeat case_match; try (by intros s ->). unfold path_below in Hb. cbn [fst] in Hb.
  match goal with H : SendPath.encrypt_state self = _ |- _ => rewrite H in Hb end.
  apply (safe_bind _ _ (λ b, path_below (if b then B else B + 1))); [apply safe_path_records; [by apply fragments_wf|done|done]| |done].
  intros b. apply safe_exhausted; lia.
Qed.

Lemma safe_refresh B :
  (0 <= B < SEQ_HARD_LIMIT)%Z →
  safe (path_below B) SendPath.refresh_traffic_keys (λ _, path_below (B + 1)).
Proof.
  intros HB. unfold SendPath.refresh_traffic_keys. apply safe_gets. intros [self tls] Hb. cbn [fst].
  pose proof (path_below_le _ (B + 1) _ Hb ltac:(lia)) as Hb1.
  repeat case_match; try (by intros s ->). unfold path_below in Hb. cbn [fst] in Hb.
  match goal with H : SendPath.encrypt_state self = _ |- _ => rewrite H in Hb end.
  intros s ->. unfold SendPath.on_encrypting.
  match goal with |- context [send_key_update_request (?e, tls)] =>
    destruct (safe_request B ltac:(lia) (e, tls) Hb) as [Hp [Hq _]];
    destruct (send_key_update_request (e, tls)) as [[e' tls'] r] end.
  split; [done|]. unfold path_below. cbn in *. destruct (is_ok r); [|done].
  eapply below_le; [done|lia].
Qed.

Lemma safe_queue B :
  (0 <= B < SEQ_HARD_LIMIT)%Z →
  safe (path_below B) (on_self SendPath.queue_requested_key_update) (λ _, path_below (B + 1)).
Proof.
  intros HB [self tls] Hb. pose proof (path_below_le _ (B + 1) _ Hb ltac:(lia)) as Hb1.
  unfold on_self, SendPath.queue_requested_key_update. unfold path_below in Hb. cbn [fst] in Hb.
  destruct (SendPath.encrypt_state self) as [|e|] eqn:He; [done| |done].
  destruct (Encrypting.key_update_remote e); [|done].
  destruct (safe_short Message.build_key_update_notify B ltac:(lia) (e, []) Hb) as [Hp Hq].
  destruct (send_short_self _ (e, [])) as [[e' queued] [[]| |]]; [|done..].
  cbn [Encrypting.tls13_key_schedule Encrypting.with_key_update_remote fst snd] in *.
  destruct (Encrypting.tls13_key_schedule e') as [ks|]; [|done].
  pose proof (response_no_panic ks) as Hu.
  destruct (update_encrypter_for_key_update ks) as [[ne ks']| |]; [|done..]. split; [done|].
  unfold path_below. cbn. split; cbn; lia.
Qed.

(** Each operation uses at most this many sequence numbers beyond the soft limit. *)
Definition step_cost (op : send_op E K) (ok : bool) : Z :=
  match op with
  | OpAppData _ | OpMsg _ _ => if ok then 0 else 1
  | OpCloseNotify | OpAlert _ _ | OpRefresh | OpQueueKeyUpdate => 1
  | _ => 0
  end.

Lemma safe_step op B :
  op_wf op → (SEQ_SOFT_LIMIT <= B < SEQ_HARD_LIMIT)%Z →
  safe (path_below B) (send_step op) (λ ok, path_below (B + step_cost op ok)).
Proof.
  intros Hw HB. assert (0 <= B)%Z as H0 by (unfold SEQ_SOFT_LIMIT in HB; lia).
  destruct op; cbn [send_step step_cost];
    try (apply safe_close || apply safe_alert || apply safe_refresh || apply safe_queue; lia);
    try (intros []; rewrite Z.add_0_r; done).
  - intros [self tls] Hb. unfold on_self, SendPath.set_max_fragment_size.
    destruct (Fragmenter.set_max_fragment_size _ _) as [f r] eqn:Hf.
    rewrite Z.add_0_r. split; [|done]. cbn [snd]. intros ->. revert Hf.
    unfold Fragmenter.set_max_fragment_size. destruct new; [case_decide|]; done.
  - apply (safe_bind _ _ (λ b, path_below (if b then B else B + 1))); [by apply safe_appdata| |done].
    intros n s Hs. cbn. by rewrite Z.add_0_r.
  - eapply safe_weaken; [by apply safe_msg|]. intros [] s Hs; [by rewrite Z.add_0_r|done].
  - intros [self tls] Hb. unfold on_self, SendPath.note_key_update_response. rewrite Z.add_0_r.
    unfold path_below in *. cbn [fst] in *.
    destruct (SendPath.encrypt_state self) as [|e|] eqn:He; cbn; rewrite ?He; try done.
    destruct (Encrypting.key_update_local e); cbn; by rewrite ?He.
  - intros [self tls] Hb. cbn [on_self SendPath.set_encrypter modify]. rewrite Z.add_0_r. split; [done|].
    unfold path_below in *. cbn [fst SendPath.encrypt_state SendPath.with_state] in *.
    destruct (SendPath.encrypt_state self); cbn; [..|done]; split; cbn; lia.
  - intros [self tls] Hb. unfold on_self, SendPath.update_key_schedule. rewrite Z.add_0_r.
    unfold path_below in *. cbn [fst] in *.
    destruct (SendPath.encrypt_state self) as [|e|] eqn:He; cbn; by rewrite ?He.
Qed.

(** The cost of a run. *)
Fixpoint run_cost (ops : list (send_op E K)) (s : SendPath.t E K * list u8) : Z :=
  match ops with
  | [] => 0
  | op :: ops => step_cost op (is_ok (send_step op s).2) + run_cost ops (send_step op s).1
  end.

Lemma run_cost_nonneg ops s : (0 <= run_cost ops s)%Z.
Proof.
  revert s. induction ops as [|op ops IH]; intros s; cbn [run_cost]; [done|].
  specialize (IH (send_step op s).1). destruct op; cbn [step_cost]; try case_match; lia.
Qed.

Lemma safe_run ops s B :
  Forall op_wf ops → (SEQ_SOFT_LIMIT <= B)%Z → (B + run_cost ops s < SEQ_HARD_LIMIT)%Z → path_below B s →
  is_Some (send_run ops s).
Proof.
  intros Hw. revert s B. induction Hw as [|op ops Ho Hw IH]; intros s B HB Hc Hb; cbn [send_run run_cost] in *; [done|].
  pose proof (run_cost_nonneg ops (send_step op s).1).
  assert (0 <= step_cost op (is_ok (send_step op s).2))%Z
    by (destruct op; cbn [step_cost]; try case_match; lia).
  destruct (safe_step op B Ho ltac:(lia) s Hb) as [Hp Hq].
  destruct (send_step op s) as [s' [u|err|]]; [..|done]; cbn [fst snd] in *;
    (eapply IH; [..|exact Hq]); lia.
Qed.
End range.


#[global] Instance plain_safe : SafeSender Plain.t nat.
Proof. split; [|done..]. intros e r seq out _ _. cbn [encrypt Plain.encrypter snd]. by case_decide. Qed.

