(* ===== verification/Receive.v ===== *)
(** * The receiving half of a connection ([rustls/src/conn/receive.rs])

    Records are found in the input buffer by the deframer, decrypted in place, and
    mapped to the messages of the state machine; alerts, change_cipher_spec and
    renegotiation requests are dealt with here.

    A slice of the input buffer is its range: [Locator::locate] and
    [Delocator::slice_from_range] convert between the two in the source. *)
From stdpp Require Import gmap.
From S2P Require Import Prelude Enums Errors Codec Records Fragmenter Deframer Extensions Payloads.
From S2P Require Import ServerHello ClientHello Messages Send.

(** ** Interfaces *)

(** The trait [RecordDecrypter].  The payload is decrypted in place: the second
    result is what the payload's bytes have become, and the record returned names
    the part of them that is the plaintext. *)
(* @src rustls/src/crypto/cipher/mod.rs 145-154 RecordDecrypter *)
Class RecordDecrypter (D : Type) := {
  decrypt : D → Record_.t (list u8) → Z → D * list u8 * result Error.t (Record_.t Range);
}.

(** The plaintext borrows from the payload. *)
Class RecordDecrypterLaws (D : Type) `{RecordDecrypter D} : Prop := {
  decrypt_length d r seq : length (decrypt d r seq).1.2 = length (Record_.payload r);
  decrypt_range d r seq d' out p :
    decrypt d r seq = (d', out, Ok p) →
    r_start (Record_.payload p) ≤ r_end (Record_.payload p) ≤ length (Record_.payload r);
  decrypt_no_panic d r seq : (decrypt d r seq).2 ≠ Panic;
}.

Module Decrypted.
(* @src rustls/src/conn/receive.rs 656-662 Decrypted *)
Record t (P : Type) := mk { want_close_before_decrypt : bool; plaintext : Record_.t P }.
Arguments mk {P}.
Arguments want_close_before_decrypt {P}.
Arguments plaintext {P}.
End Decrypted.

Module Side.
(* @src rustls/src/common_state.rs 387-395 Side *)
Inductive t := Client | Server.
End Side.

(** ** Keys of the peer *)

Module DecryptionState.
(* @src rustls/src/conn/receive.rs 533-543 DecryptionState *)
Record t (D : Type) := mk {
  record_decrypter : option D;
  read_seq : Z;
  has_decrypted : bool;
  trial_decryption_len : option nat;
}.
Arguments mk {D}.
Arguments record_decrypter {D}.
Arguments read_seq {D}.
Arguments has_decrypted {D}.
Arguments trial_decryption_len {D}.

(* @src rustls/src/conn/receive.rs 546-554 DecryptionState::new *)
Definition new {D} : t D := mk None 0 false None.

(* @src rustls/src/conn/receive.rs 642-653 DecryptionState::doing_trial_decryption *)
Definition doing_trial_decryption {D} (requested : nat) (self : t D) : t D * bool :=
  match trial_decryption_len self with
  | Some value =>
      if decide (requested ≤ value)
      then (mk (record_decrypter self) (read_seq self) (has_decrypted self)
              (Some (value - requested)), true)
      else (self, false)
  | None => (self, false)
  end.

(** The second part of the state is the payload of the record. *)
(* @src rustls/src/conn/receive.rs 556-600 DecryptionState::decrypt_incoming *)
Definition decrypt_incoming {D} `{RecordDecrypter D} (typ : ContentType.t)
    (version : EncodableVersion.t)
    : action (t D * list u8) Error.t (option (Decrypted.t Range)) := λ '(self, payload),
  match record_decrypter self with
  | None =>
      ((self, payload),
       Ok (Some (Decrypted.mk false (Record_.new typ version (mkRange 0 (length payload))))))
  | Some decrypter =>
      let want_close_before_decrypt := bool_decide (read_seq self = SEQ_SOFT_LIMIT) in
      let encrypted_len := length payload in
      match decrypt decrypter (Record_.new typ version payload) (read_seq self) with
      | (decrypter, payload, Ok plaintext) =>
          ((mk (Some decrypter) (wrapN 64 (read_seq self + 1)) true (trial_decryption_len self),
            payload), Ok (Some (Decrypted.mk want_close_before_decrypt plaintext)))
      | (decrypter, payload, Err Error.DecryptError) =>
          let self := mk (Some decrypter) (read_seq self) (has_decrypted self)
                        (trial_decryption_len self) in
          match doing_trial_decryption encrypted_len self with
          | (self, true) => ((self, payload), Ok None)
          | (self, false) => ((self, payload), Err Error.DecryptError)
          end
      | (decrypter, payload, Err err) =>
          ((mk (Some decrypter) (read_seq self) (has_decrypted self) (trial_decryption_len self),
            payload), Err err)
      | (decrypter, payload, Panic) =>
          ((mk (Some decrypter) (read_seq self) (has_decrypted self) (trial_decryption_len self),
            payload), Panic)
      end
  end.

(* @src rustls/src/conn/receive.rs 602-612 DecryptionState::set_record_decrypter *)
Definition set_record_decrypter {D} (cipher : D) (self : t D) : t D :=
  mk (Some cipher) 0 (has_decrypted self) None.

(* @src rustls/src/conn/receive.rs 614-626 DecryptionState::set_record_decrypter_with_trial_decryption *)
Definition set_record_decrypter_with_trial_decryption {D} (cipher : D) (max_length : nat)
    (self : t D) : t D :=
  mk (Some cipher) 0 (has_decrypted self) (Some max_length).

(* @src rustls/src/conn/receive.rs 628-630 DecryptionState::finish_trial_decryption *)
Definition finish_trial_decryption {D} (self : t D) : t D :=
  mk (record_decrypter self) (read_seq self) (has_decrypted self) None.
End DecryptionState.

(** ** Limits on what the peer may do *)

Module TemperCounters.
(* @src rustls/src/conn/receive.rs 772-778 TemperCounters *)
Record t := mk {
  allowed_warning_alerts : nat;
  allowed_renegotiation_requests : nat;
  allowed_middlebox_ccs : nat;
}.

(* @src rustls/src/conn/receive.rs 813-829 TemperCounters::default *)
Definition default : t := mk 4 1 2.

(* @src rustls/src/conn/receive.rs 781-789 TemperCounters::received_warning_alert *)
Definition received_warning_alert : action t Error.t unit := λ self,
  match allowed_warning_alerts self with
  | O => (self, Err (Error.PeerMisbehaved PeerMisbehaved.TooManyWarningAlertsReceived))
  | S n => (mk n (allowed_renegotiation_requests self) (allowed_middlebox_ccs self), Ok tt)
  end.

(* @src rustls/src/conn/receive.rs 791-799 TemperCounters::received_renegotiation_request *)
Definition received_renegotiation_request : action t Error.t unit := λ self,
  match allowed_renegotiation_requests self with
  | O => (self, Err (Error.PeerMisbehaved PeerMisbehaved.TooManyRenegotiationRequests))
  | S n => (mk (allowed_warning_alerts self) n (allowed_middlebox_ccs self), Ok tt)
  end.

(* @src rustls/src/conn/receive.rs 801-809 TemperCounters::received_tls13_change_cipher_spec *)
Definition received_tls13_change_cipher_spec : action t Error.t unit := λ self,
  match allowed_middlebox_ccs self with
  | O => (self, Err (Error.PeerMisbehaved PeerMisbehaved.IllegalMiddleboxChangeCipherSpec))
  | S n => (mk (allowed_warning_alerts self) (allowed_renegotiation_requests self) n, Ok tt)
  end.
End TemperCounters.

Module TrafficTemperCounters.
(* @src rustls/src/conn/receive.rs 832-834 TrafficTemperCounters *)
Record t := mk { allowed_consecutive_handshake_messages : nat }.

(* @src rustls/src/conn/receive.rs 851-853 TrafficTemperCounters::MAX_CONSECUTIVE_HANDSHAKE_MESSAGES *)
Definition MAX_CONSECUTIVE_HANDSHAKE_MESSAGES : nat := 32.

(* @src rustls/src/conn/receive.rs 857-861 TrafficTemperCounters::default *)
Definition default : t := mk MAX_CONSECUTIVE_HANDSHAKE_MESSAGES.

(* @src rustls/src/conn/receive.rs 837-845 TrafficTemperCounters::received_handshake_message *)
Definition received_handshake_message : action t Error.t unit := λ self,
  match allowed_consecutive_handshake_messages self with
  | O => (self, Err (Error.PeerMisbehaved
                  PeerMisbehaved.TooManyConsecutiveHandshakeMessagesAfterHandshake))
  | S n => (mk n, Ok tt)
  end.

(* @src rustls/src/conn/receive.rs 847-849 TrafficTemperCounters::received_app_data *)
Definition received_app_data (_ : t) : t := mk MAX_CONSECUTIVE_HANDSHAKE_MESSAGES.
End TrafficTemperCounters.

Module Input.
(* @src rustls/src/conn/receive.rs 864-867 Input *)
Record t := mk { message : Message.t; aligned_handshake : bool }.

(* @src rustls/src/conn/receive.rs 870-877 Input::check_aligned_handshake *)
Definition check_aligned_handshake (self : t) : result Error.t unit :=
  if aligned_handshake self then Ok tt
  else Err (Error.PeerMisbehaved PeerMisbehaved.KeyEpochWithPendingFragment).
End Input.

(* @src rustls/src/conn/receive.rs 1150-1152 ALLOWED_CONSECUTIVE_EMPTY_FRAGMENTS_MAX *)
Definition ALLOWED_CONSECUTIVE_EMPTY_FRAGMENTS_MAX : nat := 32.

(** ** The receive path *)

Module ReceivePath.
(* @src rustls/src/conn/receive.rs 223-238 ReceivePath *)
Record t (D : Type) := mk {
  side : Side.t;
  decrypt_state : DecryptionState.t D;
  may_receive_application_data : bool;
  has_received_close_notify : bool;
  temper_counters : TemperCounters.t;
  negotiated_version : option ProtocolVersion.t;
  deframer : Deframer.t;
  seen_consecutive_empty_fragments : nat;
  tls13_tickets_received : Z;
}.
Arguments mk {D}.
Arguments side {D}.
Arguments decrypt_state {D}.
Arguments may_receive_application_data {D}.
Arguments has_received_close_notify {D}.
Arguments temper_counters {D}.
Arguments negotiated_version {D}.
Arguments deframer {D}.
Arguments seen_consecutive_empty_fragments {D}.
Arguments tls13_tickets_received {D}.

Section methods.
Context {D : Type} `{!RecordDecrypter D}.
Implicit Types (self : t D) (buffer : list u8).

(* @src rustls/src/conn/receive.rs 241-253 ReceivePath::new *)
Definition new (side : Side.t) : t D :=
  mk side DecryptionState.new false false TemperCounters.default None Deframer.default 0 0.

Definition with_decrypt_state (v : DecryptionState.t D) self : t D :=
  mk (side self) v (may_receive_application_data self) (has_received_close_notify self)
    (temper_counters self) (negotiated_version self) (deframer self)
    (seen_consecutive_empty_fragments self) (tls13_tickets_received self).
Definition with_deframer (v : Deframer.t) self : t D :=
  mk (side self) (decrypt_state self) (may_receive_application_data self)
    (has_received_close_notify self) (temper_counters self) (negotiated_version self) v
    (seen_consecutive_empty_fragments self) (tls13_tickets_received self).
Definition with_empty_fragments (v : nat) self : t D :=
  mk (side self) (decrypt_state self) (may_receive_application_data self)
    (has_received_close_notify self) (temper_counters self) (negotiated_version self)
    (deframer self) v (tls13_tickets_received self).
Definition with_temper_counters (v : TemperCounters.t) self : t D :=
  mk (side self) (decrypt_state self) (may_receive_application_data self)
    (has_received_close_notify self) v (negotiated_version self)
    (deframer self) (seen_consecutive_empty_fragments self) (tls13_tickets_received self).
Definition with_received_close_notify (v : bool) self : t D :=
  mk (side self) (decrypt_state self) (may_receive_application_data self) v
    (temper_counters self) (negotiated_version self) (deframer self)
    (seen_consecutive_empty_fragments self) (tls13_tickets_received self).

Definition misbehaved {A} (e : PeerMisbehaved.t) : action (t D * list u8) Error.t A :=
  fail (Error.PeerMisbehaved e).

(** [matches!(self.negotiated_version, Some(ProtocolVersion::TLSv1_3))]. *)
Definition is_tls13 self : bool :=
  bool_decide (negotiated_version self = Some ProtocolVersion.TLSv1_3).

(** [allowed_plaintext]. *)
(* @src rustls/src/conn/receive.rs 348-366 ReceivePath::deframe_decrypted::match *)
Definition allowed_plaintext self (typ : ContentType.t) (payload : list u8) : bool :=
  if decide (typ = ContentType.ChangeCipherSpec) then true
  else if decide (typ = ContentType.Alert)
  then is_tls13 self && negb (DecryptionState.has_decrypted (decrypt_state self))
       && bool_decide (length payload ≤ 2)
  else false.

(** [DeframeResult]: [None] when there is no record, [Some None] for a record that
    failed to decrypt and is to be dropped, and else the plaintext with its place in
    the buffer. *)
(* @src rustls/src/conn/receive.rs 337-397 ReceivePath::deframe_decrypted *)
Definition deframe_decrypted : action (t D * list u8) Error.t (option (option (Decrypted.t Range))) :=
  λ '(self, buffer),
  match Deframer.deframe buffer (deframer self) with
  | (d, None) => ((with_deframer d self, buffer), Ok None)
  | (d, Some (Err err)) => ((with_deframer d self, buffer), Err err)
  | (d, Some Panic) => ((with_deframer d self, buffer), Panic)
  | (d, Some (Ok (Deframed.mk record bounds))) =>
      let self := with_deframer d self in
      let typ := Record_.typ record in
      let version := Record_.version record in
      let start := r_start bounds + HEADER_SIZE in
      if allowed_plaintext self typ (Record_.payload record) && negb (Deframer.is_active d)
      then ((self, buffer),
            Ok (Some (Some (Decrypted.mk false
              (Record_.new typ version (mkRange start (r_end bounds)))))))
      else
      match DecryptionState.decrypt_incoming typ version (decrypt_state self, Record_.payload record) with
      | ((ds, payload), r) =>
          let self := with_decrypt_state ds self in
          let buffer := take start buffer ++ payload ++ drop (r_end bounds) buffer in
          match r with
          | Ok (Some (Decrypted.mk close (Record_.new typ version range))) =>
              ((self, buffer),
               Ok (Some (Some (Decrypted.mk close (Record_.new typ version
                 (mkRange (start + r_start range) (start + r_end range)))))))
          | Ok None =>
              if Deframer.aligned d then ((self, buffer), Ok (Some None))
              else ((self, buffer),
                    Err (Error.PeerMisbehaved
                      PeerMisbehaved.RejectedEarlyDataInterleavedWithHandshakeMessage))
          | Err e => ((self, buffer), Err e)
          | Panic => ((self, buffer), Panic)
          end
      end
  end.

(** [match (record.payload.len(), record.typ)]. *)
(* @src rustls/src/conn/receive.rs 297-310 ReceivePath::deframe::match *)
Definition count_empty (typ : ContentType.t) (len : nat) : action (t D * list u8) Error.t unit :=
  λ '(self, buffer),
  if decide (len = 0) then
    if decide (seen_consecutive_empty_fragments self = ALLOWED_CONSECUTIVE_EMPTY_FRAGMENTS_MAX)
    then ((self, buffer), Err (Error.PeerMisbehaved PeerMisbehaved.TooManyEmptyFragments))
    else ((with_empty_fragments (seen_consecutive_empty_fragments self + 1) self, buffer), Ok tt)
  else if decide (typ = ContentType.Handshake ∨ typ = ContentType.ApplicationData)
  then ((with_empty_fragments 0 self, buffer), Ok tt)
  else ((self, buffer), Ok tt).

(** [deframer.complete_span()], then [deframer.record()]. *)
Definition take_message (close : bool)
    : action (t D * list u8) Error.t (option (Decrypted.t (list u8))) := λ '(self, buffer),
  match Deframer.complete_span (deframer self) with
  | (d, None) => ((with_deframer d self, buffer), Ok None)
  | (d, Some span) =>
      match Deframer.record span buffer d with
      | (d, r) =>
          let self := with_decrypt_state (DecryptionState.finish_trial_decryption (decrypt_state self))
                        (with_deframer d self) in
          ((self, buffer), (λ p, Some (Decrypted.mk close p)) <$> r)
      end
  end.

(** [deframer.input_message()], then [deframer.coalesce()?]. *)
Definition input_handshake (version : ProtocolVersion.t) (bounds : Range)
    : action (t D * list u8) Error.t unit := λ '(self, buffer),
  match feed version bounds (deframer self, buffer) with
  | ((d, buffer), r) => ((with_deframer d self, buffer), map_err Error.InvalidMessage r)
  end.

(** One record: a plaintext to return, or nothing and another turn. *)
(* @src rustls/src/conn/receive.rs 283-333 ReceivePath::deframe::loop *)
Definition deframe_record (record : Decrypted.t Range)
    : action (t D * list u8) Error.t (option (Decrypted.t (list u8))) :=
  let close := Decrypted.want_close_before_decrypt record in
  let typ := Record_.typ (Decrypted.plaintext record) in
  let version := Record_.version (Decrypted.plaintext record) in
  let bounds := Record_.payload (Decrypted.plaintext record) in
  self ← gets fst;
  if negb (Deframer.aligned (deframer self)) && bool_decide (typ ≠ ContentType.Handshake)
  then misbehaved PeerMisbehaved.MessageInterleavedWithHandshakeMessage
  else
    _ ← count_empty typ (range_len bounds);
    if decide (typ ≠ ContentType.Handshake) then
      buffer ← gets snd;
      payload ← lift (Delocator.slice_from_range buffer bounds);
      _ ← modify (λ '(self, buffer),
            (with_deframer (Deframer.discard_processed (deframer self)) self, buffer));
      mret (Some (Decrypted.mk close (Record_.new typ version payload)))
    else
      _ ← input_handshake (EncodableVersion.version version) bounds;
      mret None.

(** The inner loop: records that fail trial decryption are dropped. *)
(* @src rustls/src/conn/receive.rs 275-281 ReceivePath::deframe::loop *)
Fixpoint next_decrypted (fuel : nat) : action (t D * list u8) Error.t (option (Decrypted.t Range)) :=
  r ← deframe_decrypted;
  match r with
  | None => mret None
  | Some None => match fuel with O => panic | S fuel => next_decrypted fuel end
  | Some (Some record) => mret (Some record)
  end.

(** Every turn of the two loops that goes on has consumed a record, so a turn per
    byte of the buffer is enough ([deframe_loop_spec]). *)
(* @src rustls/src/conn/receive.rs 260-334 ReceivePath::deframe::loop *)
Fixpoint deframe_loop (fuel : nat) (close : bool)
    : action (t D * list u8) Error.t (option (Decrypted.t (list u8))) :=
  m ← take_message close;
  match m with
  | Some p => mret (Some p)
  | None =>
      len ← gets (λ s, length s.2);
      r ← next_decrypted len;
      match r with
      | None => mret None
      | Some record =>
          o ← deframe_record record;
          match o with
          | Some p => mret (Some p)
          | None =>
              match fuel with
              | O => panic
              | S fuel => deframe_loop fuel (Decrypted.want_close_before_decrypt record)
              end
          end
      end
  end.

(* @src rustls/src/conn/receive.rs 255-335 ReceivePath::deframe *)
Definition deframe : action (t D * list u8) Error.t (option (Decrypted.t (list u8))) :=
  λ '(self, buffer), deframe_loop (length buffer) false (self, buffer).

(* @src rustls/src/conn/receive.rs 442-459 ReceivePath::drop_tls13_ccs *)
Definition drop_tls13_ccs (record : Record_.t (list u8)) : action (t D) Error.t bool := λ self,
  if may_receive_application_data self || negb (is_tls13 self) then (self, Ok false)
  else if negb (is_valid_ccs record)
  then (self, Err (Error.PeerMisbehaved PeerMisbehaved.IllegalMiddleboxChangeCipherSpec))
  else
    match TemperCounters.received_tls13_change_cipher_spec (temper_counters self) with
    | (counters, r) => (with_temper_counters counters self, (λ _, true) <$> r)
    end.

(* @src rustls/src/conn/receive.rs 489-524 ReceivePath::process_alert *)
Definition process_alert (alert : AlertMessagePayload.t) : action (t D) Error.t unit := λ self,
  let level := AlertMessagePayload.level alert in
  let description := AlertMessagePayload.description alert in
  if negb (is_ok (AlertLevelName.try_from level))
  then (self, Err (Error.PeerMisbehaved
                (PeerMisbehaved.IllegalAlertLevel (AlertLevel.val level) description)))
  else if may_receive_application_data self && bool_decide (description = AlertDescription.CloseNotify)
  then (with_received_close_notify true self, Ok tt)
  else if decide (level = AlertLevel.Warning) then
    match TemperCounters.received_warning_alert (temper_counters self) with
    | (counters, r) =>
        (with_temper_counters counters self,
         _ ← r;
         if is_tls13 self && bool_decide (description ≠ AlertDescription.UserCanceled)
         then Err (Error.PeerMisbehaved (PeerMisbehaved.IllegalWarningAlert description))
         else Ok tt)
    end
  else (self, Err (Error.AlertReceived description)).
End methods.
End ReceivePath.

