(* ===== verification/ReceiveSpec.v ===== *)
(** * What the receive path does, as a function on byte streams

    [ReceivePath::deframe] decrypts records in place, keeps handshake fragments as
    ranges of the input buffer and copies them together.  Here it is shown to be a
    function of three things only: the state of decryption and of the counters, the
    pending handshake bytes as one string, and the unread bytes of the connection. *)
From stdpp Require Import gmap.
From S2P Require Import Prelude Enums Errors Codec Records Fragmenter Deframer Extensions Payloads.
From S2P Require Import ServerHello ClientHello Messages Send Receive.

(** ** The specification *)

Module Stream.
(** [path] is the receive path with its deframer left out, and [hs] the handshake
    messages that are pending, of which the last may be incomplete. *)
Record t (D : Type) := mk {
  path : ReceivePath.t D;
  hs : list (ProtocolVersion.t * list u8);
  wire : list u8;
}.
Arguments mk {D}.
Arguments path {D}.
Arguments hs {D}.
Arguments wire {D}.

Section methods.
Context {D : Type} `{!RecordDecrypter D}.
Implicit Types (S : t D).

(** The next record, decrypted: [None] when it is not all there, [Some None] when it
    is to be dropped. *)
Definition next_record : action (t D) Error.t (option (option (Decrypted.t (list u8)))) := λ S,
  match Record_read (wire S) with
  | Panic => (S, Panic)
  | Err e =>
      (S, match of_record_error e with
          | None => Ok None
          | Some e => Err (Error.InvalidMessage e)
          end)
  | Ok (Record_.new typ version payload, rest) =>
      let S := mk (path S) (hs S) rest in
      if ReceivePath.allowed_plaintext (path S) typ payload && bool_decide (hs S = [])
      then (S, Ok (Some (Some (Decrypted.mk false (Record_.new typ version payload)))))
      else
      match DecryptionState.decrypt_incoming typ version
              (ReceivePath.decrypt_state (path S), payload) with
      | ((ds, payload), r) =>
          (mk (ReceivePath.with_decrypt_state ds (path S)) (hs S) rest,
           match r with
           | Ok (Some (Decrypted.mk close (Record_.new typ version range))) =>
               Ok (Some (Some (Decrypted.mk close (Record_.new typ version
                 (slice (r_start range) (r_end range) payload)))))
           | Ok None =>
               if decide (hs S = []) then Ok (Some None)
               else Err (Error.PeerMisbehaved
                      PeerMisbehaved.RejectedEarlyDataInterleavedWithHandshakeMessage)
           | Err e => Err e
           | Panic => Panic
           end)
      end
  end.

(** The limit on consecutive empty fragments. *)
Definition count_empty (typ : ContentType.t) (len : nat) : action (t D) Error.t unit := λ S,
  match ReceivePath.count_empty typ len (path S, []) with
  | ((p, _), r) => (mk p (hs S) (wire S), r)
  end.

(** What becomes of a record: it is returned, or its bytes join the handshake stream. *)
Definition accept (p : Decrypted.t (list u8)) : action (t D) Error.t (option (Decrypted.t (list u8))) :=
  let typ := Record_.typ (Decrypted.plaintext p) in
  let version := EncodableVersion.version (Record_.version (Decrypted.plaintext p)) in
  let payload := Record_.payload (Decrypted.plaintext p) in
  S ← gets id;
  if decide (hs S ≠ [] ∧ typ ≠ ContentType.Handshake)
  then fail (Error.PeerMisbehaved PeerMisbehaved.MessageInterleavedWithHandshakeMessage)
  else
    _ ← count_empty typ (length payload);
    if decide (typ ≠ ContentType.Handshake) then mret (Some p)
    else
      _ ← modify (λ S, mk (path S) (absorb version payload (hs S)) (wire S));
      S ← gets id;
      if existsb (λ m, bool_decide (oversized_msg m.2)) (hs S)
      then fail (Error.InvalidMessage InvalidMessage.HandshakePayloadTooLarge)
      else mret None.

(** A message at the front of the handshake stream. *)
Definition take_message (close : bool) : action (t D) Error.t (option (Decrypted.t (list u8))) := λ S,
  match hs S with
  | (v, m) :: rest =>
      if is_whole m then
        (mk (ReceivePath.with_decrypt_state
               (DecryptionState.finish_trial_decryption (ReceivePath.decrypt_state (path S))) (path S))
            rest (wire S),
         Ok (Some (Decrypted.mk close
           (Record_.new ContentType.Handshake (EncodableVersion.Legacy v) m))))
      else (S, Ok None)
  | [] => (S, Ok None)
  end.

(** A record that is not dropped. *)
Definition finish (again : bool → action (t D) Error.t (option (Decrypted.t (list u8)))) (p : Decrypted.t (list u8))
    : action (t D) Error.t (option (Decrypted.t (list u8))) :=
  o ← accept p;
  match o with
  | Some p => mret (Some p)
  | None => again (Decrypted.want_close_before_decrypt p)
  end.

(** One record, and what comes after it. *)
Definition turn (again : bool → action (t D) Error.t (option (Decrypted.t (list u8)))) (close : bool)
    : action (t D) Error.t (option (Decrypted.t (list u8))) :=
  r ← next_record;
  match r with
  | None => mret None
  | Some None => again close
  | Some (Some p) => finish again p
  end.

(** Messages first, then records; [fuel] bounds the records read, each of which takes
    bytes off [wire]. *)
Fixpoint deframe (fuel : nat) (close : bool) : action (t D) Error.t (option (Decrypted.t (list u8))) :=
  m ← take_message close;
  match m with
  | Some p => mret (Some p)
  | None => turn (match fuel with O => λ _, panic | S fuel => deframe fuel end) close
  end.
End methods.
End Stream.

Definition pending_message (hs : list (ProtocolVersion.t * list u8)) : bool :=
  match hs with (_, m) :: _ => is_whole m | [] => false end.

Lemma stream_deframe_eq {D} `{!RecordDecrypter D} fuel close (S : Stream.t D) :
  Stream.deframe fuel close S =
    if pending_message (Stream.hs S) then Stream.take_message close S
    else Stream.turn (match fuel with O => λ _, panic | S f => Stream.deframe f end) close S.
Proof.
  destruct fuel; cbn [Stream.deframe]; unfold mbind at 1, action_bind at 1, Stream.take_message;
    destruct (Stream.hs S) as [|[v m] rest]; try done; cbn [pending_message]; by destruct (is_whole m).
Qed.

Lemma stream_take_message {D} `{!RecordDecrypter D} close (S : Stream.t D) :
  if pending_message (Stream.hs S) then ∃ S' p, Stream.take_message close S = (S', Ok (Some p))
  else Stream.take_message close S = (S, Ok None).
Proof.
  unfold Stream.take_message. destruct (Stream.hs S) as [|[v m] rest]; [done|]. cbn [pending_message].
  destruct (is_whole m); by eauto.
Qed.

Lemma stream_accept_wire {D} `{!RecordDecrypter D} q (S S' : Stream.t D) r :
  Stream.accept q S = (S', r) → Stream.wire S' = Stream.wire S.
Proof.
  unfold Stream.accept, mbind, action_bind, gets, id.
  case_decide; [by intros [= <-]|]. unfold Stream.count_empty, ReceivePath.count_empty.
  repeat case_decide; cbn; try case_match; by intros [= <-].
Qed.

(** What the steps of [deframe] keep, it keeps. *)
Lemma deframe_keeps {D} `{!RecordDecrypter D} (P : ReceivePath.t D * list u8 → Prop) :
  (∀ close, keeps P (ReceivePath.take_message close)) →
  keeps P ReceivePath.deframe_decrypted →
  (∀ p, keeps P (ReceivePath.deframe_record p)) →
  ∀ fuel close, keeps P (ReceivePath.deframe_loop fuel close).
Proof.
  intros Htake Hdec Hrec.
  assert (∀ fuel, keeps P (ReceivePath.next_decrypted (D:=D) fuel)) as Hnext.
  { induction fuel as [|fuel IH]; cbn [ReceivePath.next_decrypted]; (apply keeps_bind; [done|]);
      intros [[]|]; auto using keeps_ret; by intros s. }
  induction fuel as [|fuel IH]; intros close; cbn [ReceivePath.deframe_loop];
    (apply keeps_bind; [apply Htake|]); intros [p|]; auto using keeps_ret;
    (apply keeps_bind; [apply keeps_gets|]); intros len; (apply keeps_bind; [apply Hnext|]);
    intros [p|]; auto using keeps_ret; (apply keeps_bind; [apply Hrec|]);
    intros [q|]; auto using keeps_ret; by intros s.
Qed.

(** ** Refinement *)

Section refine.
Context {D : Type} `{!RecordDecrypter D, !RecordDecrypterLaws D}.
Implicit Types (self : ReceivePath.t D).

Lemma decrypt_incoming_spec typ version (ds : DecryptionState.t D) payload :
  let '((_, payload'), r) := DecryptionState.decrypt_incoming typ version (ds, payload) in
  length payload' = length payload ∧ r ≠ Panic ∧
  ∀ p, r = Ok (Some p) →
    r_start (Record_.payload (Decrypted.plaintext p))
      ≤ r_end (Record_.payload (Decrypted.plaintext p)) ≤ length payload.
Proof.
  unfold DecryptionState.decrypt_incoming. destruct (DecryptionState.record_decrypter ds) as [d|].
  2: { split_and!; [done..|]. intros p [= <-]. cbn. lia. }
  pose proof (decrypt_length d (Record_.new typ version payload) (DecryptionState.read_seq ds)) as Hl.
  pose proof (decrypt_no_panic d (Record_.new typ version payload) (DecryptionState.read_seq ds)) as Hp.
  destruct (decrypt _ _ _) as [[d' out] [p|e|]] eqn:Hd; cbn [fst snd Record_.payload] in *; [| |done].
  - split_and!; [done..|]. intros p' [= <-]. by apply decrypt_range in Hd.
  - destruct e; try (split_and!; done).
    destruct (DecryptionState.doing_trial_decryption _ _) as [? []]; split_and!; done.
Qed.

Lemma deframe_payload buf d d' fr :
  Deframer.deframe buf d = (d', Some (Ok fr)) →
  Record_.payload (Deframed.record fr)
    = slice (r_start (Deframed.bounds fr) + HEADER_SIZE) (r_end (Deframed.bounds fr)) buf.
Proof.
  unfold Deframer.deframe. case_decide; [done|].
  destruct read_record_header as [[[[typ v] len] r]|e|]; [|by destruct e|done].
  destruct get_range as [head|] eqn:E; [|done]. apply get_range_Some in E as (_ & _ & ->).
  intros [= <- <-]. cbn [Deframed.record Deframed.bounds Record_.payload r_start r_end].
  unfold slice. rewrite drop_0, Nat.sub_0_r, skipn_firstn_comm. done.
Qed.

(** Replacing the payload of a record by as many bytes. *)
Lemma in_place_payload buf (bounds : Range) payload :
  r_start bounds + HEADER_SIZE ≤ r_end bounds ≤ length buf →
  length payload = r_end bounds - (r_start bounds + HEADER_SIZE) →
  in_place bounds buf
    (take (r_start bounds + HEADER_SIZE) buf ++ payload ++ drop (r_end bounds) buf).
Proof.
  intros Hb Hp. split_and!.
  - rewrite !length_app, length_take, length_drop. lia.
  - rewrite take_app_le by (rewrite length_take; lia). rewrite take_take. f_equal. lia.
  - rewrite (assoc_L (++)), drop_app_length'; [done|]. rewrite length_app, length_take. lia.
Qed.

(** The stream behind a receive path and its buffer. *)
Definition stream_of (s : ReceivePath.t D * list u8) : Stream.t D :=
  let '(self, buffer) := s in
  Stream.mk (ReceivePath.with_deframer Deframer.default self)
    (vcontents buffer (ReceivePath.deframer self))
    (drop (Deframer.processed (ReceivePath.deframer self)) buffer).

Definition path_settled (s : ReceivePath.t D * list u8) : Prop :=
  settled (ReceivePath.deframer s.1) s.2.

Lemma settled_active d buf :
  settled d buf → Deframer.is_active d = negb (bool_decide (vcontents buf d = [])).
Proof.
  intros Hst. unfold Deframer.is_active. f_equal. apply bool_decide_ext. split.
  - intros H. unfold vcontents. by rewrite H.
  - apply fmap_nil_inv.
Qed.

(** After an error the deframer is not used again, but for what it has to discard. *)
Definition failed (s : ReceivePath.t D * list u8) (S : Stream.t D) : Prop :=
  Stream.path S = ReceivePath.with_deframer Deframer.default s.1 ∧
  Deframer.discard (ReceivePath.deframer s.1) ≤ length s.2.

Lemma settled_discard_le d buf : settled d buf → Deframer.discard d ≤ length buf.
Proof. intros [Ho Hp _ _ _ _]. pose proof (ordered_le _ _ _ Ho). lia. Qed.

(** A decrypted record that lies in the buffer behind the pending fragments. *)
Definition opened (s : ReceivePath.t D * list u8) (p : Decrypted.t Range) (q : Decrypted.t (list u8)) : Prop :=
  let d := ReceivePath.deframer s.1 in
  let bounds := Record_.payload (Decrypted.plaintext p) in
  ordered (Deframer.discard d) (Deframer.spans d) (r_start bounds) ∧
  r_start bounds ≤ r_end bounds ≤ Deframer.processed d ∧
  q = Decrypted.mk (Decrypted.want_close_before_decrypt p)
        (Record_.new (Record_.typ (Decrypted.plaintext p)) (Record_.version (Decrypted.plaintext p))
          (slice (r_start bounds) (r_end bounds) s.2)).

Lemma record_place pos (buf hdr payload rest : list u8) :
  pos ≤ length buf → length hdr = HEADER_SIZE → drop pos buf = hdr ++ payload ++ rest →
  let end_ := length buf - length rest in
  end_ = pos + HEADER_SIZE + length payload ∧ end_ ≤ length buf ∧ drop end_ buf = rest ∧
  slice (pos + HEADER_SIZE) end_ buf = payload.
Proof.
  intros Hp Hh E. cbv zeta.
  assert (length buf = pos + (HEADER_SIZE + (length payload + length rest))) as Hl.
  { apply (f_equal length) in E. rewrite length_drop, !length_app, Hh in E. lia. }
  split_and!; [lia..| |].
  - rewrite (assoc_L (++)) in E. by apply drop_to_rest in E.
  - assert (length buf - length rest = pos + HEADER_SIZE + length payload) as -> by lia.
    unfold slice. rewrite <-drop_drop, E, drop_app_length' by done.
    apply take_app_length'. lia.
Qed.

Lemma slice_written n a b (pre p post : list u8) :
  length pre = n → b ≤ length p → slice (n + a) (n + b) (pre ++ p ++ post) = slice a b p.
Proof.
  intros <- Hb. rewrite slice_app_r, slice_prefix by lia. f_equal; lia.
Qed.

Lemma deframe_decrypted_refines self buffer :
  path_settled (self, buffer) →
  let '(s', r) := ReceivePath.deframe_decrypted (self, buffer) in
  let '(S', r') := Stream.next_record (stream_of (self, buffer)) in
  match r, r' with
  | Ok None, Ok None => path_settled s' ∧ stream_of s' = S'
  | Ok (Some o), Ok (Some o') =>
      path_settled s' ∧ stream_of s' = S' ∧
      length (Stream.wire S') < length (Stream.wire (stream_of (self, buffer))) ∧
      match o, o' with
      | Some p, Some q => opened s' p q
      | None, None => Stream.hs S' = []
      | _, _ => False
      end
  | Err e, Err e' => e = e' ∧ failed s' S'
  | _, _ => False
  end.
Proof.
  intros Hst. unfold ReceivePath.deframe_decrypted, Stream.next_record.
  pose proof (st_processed _ _ Hst) as Hp. cbn [fst snd] in Hp.
  pose proof (settled_record (ReceivePath.deframer self) buffer) as Hrec.
  pose proof (settled_discard_le _ _ Hst) as Hdl. cbn [fst snd] in Hdl.
  rewrite (deframe_read _ _ Hp) in Hrec |- *.
  cbn [stream_of Stream.wire Stream.hs Stream.path].
  destruct (Record_read (drop _ buffer)) as [[r rest]|e|] eqn:E;
    [|by destruct e|by apply Record_read_no_panic in E].
  apply Record_read_inv in E as (typ & v & payload & -> & _ & E).
  destruct (record_place _ _ _ _ _ Hp (length_header _ _ _) E) as (Hend & Hle & Hdrop & Hsl).
  set (end_ := length buffer - length rest) in *. set (d := Deframer.mk _ _ _ _) in *.
  set (pos := Deframer.processed (ReceivePath.deframer self)) in *.
  cbn [r_start r_end Record_.typ Record_.version Record_.payload].
  assert (∀ buf1 ds, in_place (mkRange pos end_) buffer buf1 → drop end_ buf1 = rest →
    let s1 := (ReceivePath.with_decrypt_state ds (ReceivePath.with_deframer d self), buf1) in
    path_settled s1 ∧ stream_of s1 = Stream.mk
      (ReceivePath.with_decrypt_state ds (ReceivePath.with_deframer Deframer.default self))
      (vcontents buffer (ReceivePath.deframer self)) rest ∧
    ordered (Deframer.discard d) (Deframer.spans d) pos) as Hdone.
  { intros buf1 ds Hin Hr. destruct (Hrec d _ buf1 Hst eq_refl Hin) as (Hst1 & Hc & Ho & _).
    split_and!; [done| |done]. cbn [stream_of]. f_equal; [|done].
    by apply vcontents_eq. }
  assert (length rest < length (drop pos buffer)) as Hshort.
  { rewrite length_drop. unfold HEADER_SIZE in Hend. unfold end_ in Hend, Hle. lia. }
  assert (Deframer.is_active d = Deframer.is_active (ReceivePath.deframer self)) as -> by done.
  rewrite (settled_active _ buffer), negb_involutive by done.
  change (ReceivePath.allowed_plaintext (ReceivePath.with_deframer d self) typ payload)
    with (ReceivePath.allowed_plaintext (ReceivePath.with_deframer Deframer.default self) typ payload).
  destruct (ReceivePath.allowed_plaintext _ typ payload && _).
  { destruct (Hdone buffer (ReceivePath.decrypt_state self)) as (Hst1 & Hs1 & Ho); [done..|].
    cbv beta iota. split_and!; try done. unfold opened.
    cbn [fst snd Decrypted.plaintext Record_.payload Record_.typ Decrypted.want_close_before_decrypt
      r_start r_end ReceivePath.deframer ReceivePath.with_deframer]. rewrite Hsl.
    split_and!; try done; try lia. eapply ordered_weaken; [| |done]; lia. }
  change (ReceivePath.decrypt_state (ReceivePath.with_deframer d self))
    with (ReceivePath.decrypt_state (ReceivePath.with_deframer Deframer.default self)).
  pose proof (decrypt_incoming_spec typ (EncodableVersion.Legacy v)
    (ReceivePath.decrypt_state (ReceivePath.with_deframer Deframer.default self)) payload) as Hi.
  destruct (DecryptionState.decrypt_incoming _ _ _) as [[ds payload'] r]. destruct Hi as (Hl' & Hnp & Hr).
  destruct (Hdone (take (pos + HEADER_SIZE) buffer ++ payload' ++ drop end_ buffer) ds)
    as (Hst1 & Hs1 & Ho).
  { apply in_place_payload; cbn [r_start r_end]; lia. }
  { rewrite Hdrop, (assoc_L (++)). apply drop_app_length'. rewrite length_app, length_take. lia. }
  assert (∀ S, Stream.path S = ReceivePath.with_deframer Deframer.default
    (ReceivePath.with_decrypt_state ds (ReceivePath.with_deframer d self)) → failed (_, _) S) as Hfail
    by (intros S HS; split; [exact HS|apply (settled_discard_le _ _ Hst1)]).
  destruct r as [[[close [typ' v' range]]|]|e|]; [| |by split; [|apply Hfail]|done].
  - specialize (Hr _ eq_refl). cbn in Hr. cbv beta iota. split_and!; try done. unfold opened.
    cbn [fst snd Decrypted.plaintext Record_.payload Record_.typ Decrypted.want_close_before_decrypt
      r_start r_end ReceivePath.deframer ReceivePath.with_decrypt_state ReceivePath.with_deframer].
    rewrite slice_written by (rewrite ?length_take; lia). split_and!; try done; try lia.
    + eapply ordered_weaken; [| |done]; lia.
    + change (Deframer.processed d) with end_. lia.
  - unfold Deframer.aligned.
    assert (Deframer.is_active d = Deframer.is_active (ReceivePath.deframer self)) as -> by done.
    rewrite (settled_active _ buffer), negb_involutive by done.
    destruct (decide _) as [Hn|Hn]; 
      [rewrite bool_decide_true by done|rewrite bool_decide_false by done; by split; [|apply Hfail]].
    cbv beta iota. by split_and!.
Qed.
(** The results are the same, and so are the states unless there is an error. *)
Definition agree {A} (out : (ReceivePath.t D * list u8) * result Error.t A)
    (spec : Stream.t D * result Error.t A) : Prop :=
  out.2 = spec.2 ∧
  match out.2 with
  | Ok _ => path_settled out.1 ∧ stream_of out.1 = spec.1
  | Err _ => failed out.1 spec.1
  | Panic => False
  end.

Lemma take_message_refines close s :
  path_settled s →
  agree (ReceivePath.take_message close s) (Stream.take_message close (stream_of s)).
Proof.
  destruct s as [self buffer]. intros Hst. unfold ReceivePath.take_message, Stream.take_message.
  cbn [stream_of Stream.hs Stream.path Stream.wire].
  pose proof (settled_pop (ReceivePath.deframer self) buffer) as Hpop.
  destruct (Deframer.complete_span _) as [d [span|]] eqn:Ec.
  - destruct (Hpop d span Hst eq_refl) as (d' & c & Hr & Hc & _ & Hst' & _ & Hcs & Hpr).
    rewrite Hr, Hcs. apply is_whole_true in Hc. rewrite Hc.
    split_and!; [done..|]. cbn. by rewrite Hpr.
  - destruct (settled_no_pop (ReceivePath.deframer self) buffer _ Hst Ec) as [-> Hn].
    rewrite <-vcontents_snd in Hn. destruct (vcontents buffer _) as [|[v m] l] eqn:Hv.
    { split_and!; [done..|]. cbn. by rewrite Hv. }
    destruct Hn as [[=]|(c & Hp & [= -> ->%fmap_nil_inv])]. rewrite is_whole_partial by done.
    split_and!; [done..|]. cbn. by rewrite Hv.
Qed.

Lemma count_empty_refines typ len self buffer :
  path_settled (self, buffer) →
  ∃ self' r, ReceivePath.count_empty typ len (self, buffer) = ((self', buffer), r) ∧
    ReceivePath.deframer self' = ReceivePath.deframer self ∧ r ≠ Panic ∧
    Stream.count_empty typ len (stream_of (self, buffer)) = (stream_of (self', buffer), r).
Proof.
  intros _. unfold Stream.count_empty, ReceivePath.count_empty.
  cbn [stream_of Stream.path ReceivePath.with_deframer ReceivePath.seen_consecutive_empty_fragments].
  repeat case_decide; by eexists _, _.
Qed.

Definition too_large (hs : list (ProtocolVersion.t * list u8)) : bool :=
  existsb (λ m, bool_decide (oversized_msg m.2)) hs.

Lemma too_large_iff hs : too_large hs = true ↔ Exists oversized_msg hs.*2.
Proof.
  unfold too_large. rewrite existsb_exists, Exists_exists. split.
  - intros (m & Hin%list_elem_of_In & Ho%bool_decide_eq_true). exists m.2.
    split; [by apply list_elem_of_fmap_2|done].
  - intros (c & Hin & Ho). apply list_elem_of_fmap_1 in Hin as (m & -> & Hin). exists m.
    by rewrite <-list_elem_of_In, bool_decide_eq_true.
Qed.

(** The handshake bytes of a record join the pending ones. *)
Lemma input_handshake_refines version p q self buffer :
  let bounds := Record_.payload (Decrypted.plaintext p) in
  path_settled (self, buffer) → opened (self, buffer) p q →
  let '(s', r) := ReceivePath.input_handshake version bounds (self, buffer) in
  let S := stream_of (self, buffer) in
  let hs := absorb version (Record_.payload (Decrypted.plaintext q)) (Stream.hs S) in
  if too_large hs
  then r = Err (Error.InvalidMessage InvalidMessage.HandshakePayloadTooLarge) ∧
       failed s' S
  else r = Ok tt ∧ path_settled s' ∧ stream_of s' = Stream.mk (Stream.path S) hs (Stream.wire S).
Proof.
  intros bounds Hst (Ho & Hb & ->). unfold path_settled in Hst. cbn [fst snd] in *.
  fold bounds in Ho, Hb |- *. cbn [Decrypted.plaintext Record_.payload].
  pose proof (feed_spec _ buffer version bounds Hst Ho Hb) as Hf. unfold ReceivePath.input_handshake.
  destruct (feed version bounds _) as [[d' buf'] r].
  destruct Hf as (Hl & Hdr & Hp & Hdi & Hfr & Hcat & Hr). cbn [stream_of Stream.hs Stream.path Stream.wire].
  set (new := absorb _ _ _) in *. pose proof (too_large_iff new) as Ht.
  destruct Hr as [(-> & Hst' & Hc)|[-> Hex]].
  2: { rewrite (proj2 Ht Hex). split; [done|]. split; [done|].
       cbn [fst snd ReceivePath.deframer ReceivePath.with_deframer]. rewrite Hdi, Hl.
       by apply settled_discard_le. }
  destruct (too_large new).
  - apply settled_not_oversized in Hst'. rewrite <-vcontents_snd, Hc in Hst'.
    destruct (proj1 (Exists_exists _ _) (proj1 Ht eq_refl)) as (c & Hin & Hov).
    by apply (proj1 (Forall_forall _ _) Hst' c Hin) in Hov.
  - split_and!; [done..|]. cbn [stream_of ReceivePath.deframer ReceivePath.with_deframer].
    rewrite Hc, Hp. f_equal.
    set (n := Deframer.processed (ReceivePath.deframer self)) in *.
    assert (n = r_end bounds + (n - r_end bounds)) as -> by lia. by rewrite <-!drop_drop, Hdr.
Qed.

Lemma settled_discard_processed d buf :
  settled d buf → vcontents buf d = [] → settled (Deframer.discard_processed d) buf.
Proof.
  intros Hst Hn%fmap_nil_inv.
  destruct Hst. unfold Deframer.discard_processed. rewrite Hn in *.
  split; simpl; try done; lia.
Qed.

Lemma deframe_record_refines s p q :
  path_settled s → opened s p q →
  agree (ReceivePath.deframe_record p s) (Stream.accept q (stream_of s)).
Proof.
  destruct s as [self buffer]. intros Hst Hop. pose proof Hop as (Ho & Hb & ->).
  pose proof (st_processed _ _ Hst) as Hp. cbn [fst snd] in *.
  unfold ReceivePath.deframe_record, Stream.accept. cbn [Decrypted.plaintext Record_.payload Record_.typ Record_.version].
  set (bounds := Record_.payload _) in *. set (typ := Record_.typ _) in *.
  unfold mbind, action_bind, gets. cbv beta iota. unfold Deframer.aligned. rewrite negb_involutive.
  rewrite (settled_active _ buffer) by done. cbn [fst].
  change (Stream.hs (id (stream_of (self, buffer)))) with (vcontents buffer (ReceivePath.deframer self)).
  rewrite length_slice by lia. fold (range_len bounds).
  destruct (decide (_ ∧ _)) as [[H1 H2]|Hn].
  { rewrite !bool_decide_false, bool_decide_true by done. split; [done|]. split; [done|].
    by apply settled_discard_le. }
  replace (negb _ && _) with false.
  2: { symmetry. apply andb_false_iff. rewrite negb_false_iff, bool_decide_eq_true, bool_decide_eq_false.
       destruct (decide (vcontents buffer (ReceivePath.deframer self) = [])); naive_solver. }
  destruct (count_empty_refines typ (range_len bounds) self buffer Hst)
    as (self' & r & -> & Hd & Hnp & ->).
  assert (path_settled (self', buffer)) as Hst' by (unfold path_settled; cbn [fst]; by rewrite Hd).
  destruct r as [[]|e|]; [| |done].
  2: { split; [done|]. split; [done|]. by apply (settled_discard_le _ _ Hst'). }
  destruct (decide (typ ≠ _)) as [Ht|Ht].
  - unfold Delocator.slice_from_range. cbn [snd].
    rewrite (proj2 (get_range_Some buffer bounds _)) by (split_and!; [lia..|done]).
    rewrite <-Hd in Hn. destruct (decide (vcontents buffer (ReceivePath.deframer self') = []))
      as [Hz|Hz]; [|naive_solver].
    pose proof (settled_discard_processed (ReceivePath.deframer self') buffer Hst' Hz). by split_and!.
  - opose proof (input_handshake_refines
      (EncodableVersion.version (Record_.version (Decrypted.plaintext p))) p _ self' buffer Hst' _) as Hin.
    { destruct Hop as (? & ? & Hq). unfold opened. cbn [fst snd] in *. by rewrite Hd. }
    cbv zeta in Hin. fold bounds in Hin. destruct (ReceivePath.input_handshake _ bounds _) as [s' r].
    cbn [modify mret action_ret id Stream.hs]. fold (too_large (absorb (EncodableVersion.version
      (Record_.version (Decrypted.plaintext p))) (slice (r_start bounds) (r_end bounds) buffer)
        (Stream.hs (stream_of (self', buffer))))).
    cbn [Decrypted.plaintext Record_.payload] in Hin.
    destruct (too_large _); [by destruct Hin as [-> ?]|]. destruct Hin as (-> & ? & ?). by split_and!.
Qed.

(** The inner loop stops at a record that is not dropped. *)
Lemma next_decrypted_refines fuel fuel' close s :
  path_settled s →
  length (Stream.wire (stream_of s)) ≤ fuel → length (Stream.wire (stream_of s)) ≤ fuel' →
  let again := match fuel' with O => λ _, panic | S f => Stream.deframe f end in
  let '(s', r) := ReceivePath.next_decrypted fuel s in
  let spec := Stream.turn again close (stream_of s) in
  match r with
  | Ok None => path_settled s' ∧ spec = (stream_of s', Ok None)
  | Ok (Some p) => path_settled s' ∧
      length (Stream.wire (stream_of s')) < length (Stream.wire (stream_of s)) ∧
      ∃ q f, opened s' p q ∧ length (Stream.wire (stream_of s')) ≤ f ∧
        spec = Stream.finish (Stream.deframe f) q (stream_of s')
  | Err e => spec.2 = Err e ∧ failed s' spec.1
  | Panic => False
  end.
Proof.
  revert fuel' s. induction fuel as [fuel IH] using lt_wf_ind. intros fuel' [self buffer] Hst Hf Hf' again.
  assert (∀ f (s : ReceivePath.t D * list u8), ReceivePath.next_decrypted f s =
    match ReceivePath.deframe_decrypted s with
    | (s', Ok None) => (s', Ok None)
    | (s', Ok (Some None)) => match f with O => (s', Panic) | S f => ReceivePath.next_decrypted f s' end
    | (s', Ok (Some (Some p))) => (s', Ok (Some p))
    | (s', Err e) => (s', Err e)
    | (s', Panic) => (s', Panic)
    end) as ->.
  { intros [] s; cbn [ReceivePath.next_decrypted]; unfold mbind, action_bind;
      by destruct (ReceivePath.deframe_decrypted s) as [? [[[]|]| |]]. }
  pose proof (deframe_decrypted_refines self buffer Hst) as Hs. unfold Stream.turn, mbind, action_bind.
  destruct (ReceivePath.deframe_decrypted (self, buffer)) as [s1 [[[p|]|]|e|]];
    destruct (Stream.next_record _) as [S' [[[q|]|]|e'|]]; try naive_solver.
  - destruct Hs as (Hst1 & <- & Hw & Hop). split_and!; [done..|].
    destruct fuel' as [|f]; [lia|]. exists q, f. split_and!; [done|lia|done].
  - destruct Hs as (Hst1 & <- & Hw & Hh).
    destruct fuel as [|fuel]; [lia|]. destruct fuel' as [|f]; [lia|].
    specialize (IH fuel ltac:(lia) f s1 Hst1 ltac:(lia) ltac:(lia)).
    subst again. rewrite stream_deframe_eq, Hh. cbn [pending_message].
    destruct (ReceivePath.next_decrypted fuel s1) as [s' [[p|]|e|]]; try done.
    destruct IH as (? & ? & IH). split_and!; [done|lia|done].
Qed.

Lemma deframe_loop_eq fuel close (s : ReceivePath.t D * list u8) :
  ReceivePath.deframe_loop fuel close s =
    match ReceivePath.take_message close s with
    | (s, Ok None) => match ReceivePath.next_decrypted (length s.2) s with
      | (s, Ok None) => (s, Ok None)
      | (s, Ok (Some record)) => match ReceivePath.deframe_record record s with
         | (s, Ok None) => match fuel with
             | O => (s, Panic)
             | S f => ReceivePath.deframe_loop f (Decrypted.want_close_before_decrypt record) s
             end
         | out => out
         end
      | (s, Err e) => (s, Err e)
      | (s, Panic) => (s, Panic)
      end
    | out => out
    end.
Proof.
  destruct fuel; cbn [ReceivePath.deframe_loop]; unfold mbind, action_bind;
    destruct (ReceivePath.take_message close s) as [s1 [[]| |]]; try done; cbn [gets];
    destruct (ReceivePath.next_decrypted (length s1.2) s1) as [s2 [[]| |]]; try done;
    by destruct (ReceivePath.deframe_record _ s2) as [s3 [[]| |]].
Qed.

Lemma deframe_loop_refines fuel fuel' close s :
  path_settled s →
  length (Stream.wire (stream_of s)) ≤ fuel → length (Stream.wire (stream_of s)) ≤ fuel' →
  agree (ReceivePath.deframe_loop fuel close s) (Stream.deframe fuel' close (stream_of s)).
Proof.
  revert fuel' close s. induction fuel as [fuel IH] using lt_wf_ind. intros fuel' close s Hst Hf Hf'.
  rewrite deframe_loop_eq, stream_deframe_eq.
  pose proof (take_message_refines close s Hst) as Hm.
  pose proof (stream_take_message close (stream_of s)) as Htm.
  destruct (pending_message _).
  { destruct Htm as (S' & p & Htm). rewrite Htm in Hm |- *.
    destruct (ReceivePath.take_message close s) as [s1 r]. destruct Hm as [Hr Hm]. cbn [snd] in Hr.
    by subst r. }
  rewrite Htm in Hm. destruct (ReceivePath.take_message close s) as [s1 r].
  destruct Hm as [Hr Hm]. cbn [fst snd] in Hr, Hm. subst r. destruct Hm as (Hst1 & Hs1).
  rewrite <-Hs1 in Hf, Hf' |- *.
  assert (length (Stream.wire (stream_of s1)) ≤ length s1.2) as Hl.
  { destruct s1. cbn. rewrite length_drop. lia. }
  pose proof (next_decrypted_refines (length s1.2) fuel' close s1 Hst1 Hl Hf') as Hn. cbv zeta in Hn.
  destruct (ReceivePath.next_decrypted _ s1) as [s2 [[p|]|e|]]; [| |by destruct Hn; unfold agree; split|done].
  2: { destruct Hn as [? ->]. by split_and!. }
  destruct Hn as (Hst2 & Hw & q & f & Hop & Hf2 & ->).
  pose proof (deframe_record_refines s2 p q Hst2 Hop) as Ha. unfold Stream.finish, mbind, action_bind.
  destruct (ReceivePath.deframe_record p s2) as [s3 r], (Stream.accept q (stream_of s2)) as [S3 r'] eqn:Ea.
  destruct Ha as [Hr Ha]. cbn [fst snd] in Hr, Ha. subst r'.
  destruct r as [[p'|]|e|]; [by split|..|done|done]. destruct Ha as (Hst3 & <-).
  assert (Stream.wire (stream_of s3) = Stream.wire (stream_of s2)) as Hw3.
  { apply stream_accept_wire in Ea. done. }
  destruct fuel as [|fuel]; [lia|]. destruct Hop as (_ & _ & ->). cbn [Decrypted.want_close_before_decrypt].
  apply IH; rewrite ?Hw3; [lia|done|lia|lia].
Qed.
Lemma deframe_refines s :
  path_settled s →
  agree (ReceivePath.deframe s) (Stream.deframe (length (Stream.wire (stream_of s))) false (stream_of s)).
Proof.
  destruct s as [self buffer]. intros Hst. apply deframe_loop_refines; [done| |done].
  cbn. rewrite length_drop. lia.
Qed.

(** ** The buffer keeps its length *)

Definition sized {S} (n : nat) (s : S * list u8) : Prop := length s.2 = n.

Lemma coalesce_one_sized n i : keeps (sized n) (Deframer.coalesce_one i).
Proof.
  intros [d buf] Hn. unfold Deframer.coalesce_one, Coalescer.copy_within.
  destruct (_ !! i) as [f|]; [|done]. destruct (_ !! S i) as [s|]; [|done].
  destruct (Prelude.copy_within buf _ _) as [buf'| |] eqn:Hc; [|done..].
  assert (length buf' = length buf) as Hl.
  { unfold Prelude.copy_within in Hc. cbn [r_start] in Hc. case_decide as Hd; [|done]. simplify_eq.
    rewrite !length_app, length_take, length_drop, length_slice by lia. unfold range_len in *. lia. }
  unfold Delocator.slice_from_range. destruct (unwrap _); [|red; cbn; by rewrite Hl..].
  destruct (Deframer.insert_dissected _ _ _). red. cbn. by rewrite Hl.
Qed.

Lemma feed_sized n v b : keeps (sized n) (feed v b).
Proof.
  assert (∀ fuel, keeps (sized n) (Deframer.coalesce_loop fuel)) as Hloop.
  { induction fuel as [|fuel IH]; intros [d buf] Hn; cbn [Deframer.coalesce_loop];
      destruct (Deframer.too_large d); try done; destruct (Deframer.requires_coalesce _) as [i|]; try done.
    apply (keeps_bind (sized n)); [apply coalesce_one_sized| |done]. intros []; [done|]. by intros s. }
  intros [d buf] Hn. unfold feed. destruct (Deframer.input_message _ _ _ _) as [d' [| |]]; [|done..].
  by apply Hloop.
Qed.

Lemma deframe_decrypted_sized n : keeps (sized n) (ReceivePath.deframe_decrypted (D:=D)).
Proof.
  intros [self buffer] Hn. unfold ReceivePath.deframe_decrypted.
  destruct (Deframer.deframe buffer (ReceivePath.deframer self)) as [d [[fr|e|]|]] eqn:Hd; try done.
  pose proof (deframe_ok _ _ _ _ Hd) as (_ & Hs & Hb). rewrite <-Hs in Hb.
  pose proof (deframe_payload _ _ _ _ Hd) as Hp. destruct fr as [[typ v payload] bounds].
  cbn [Deframed.bounds Deframed.record Record_.payload Record_.typ Record_.version] in *. destruct (_ && _); [done|].
  pose proof (decrypt_incoming_spec typ v (ReceivePath.decrypt_state (ReceivePath.with_deframer d self)) payload) as Hi.
  destruct (DecryptionState.decrypt_incoming _ _ _) as [[ds payload'] r]. destruct Hi as (Hl & _).
  assert (length (take (r_start bounds + HEADER_SIZE) buffer ++ payload' ++ drop (r_end bounds) buffer) = n).
  { red in Hn. cbn in Hn. rewrite !length_app, length_take, length_drop, Hl, Hp, length_slice by lia. lia. }
  by destruct r as [[[? []]|]| |]; [|destruct (Deframer.aligned d)|..].
Qed.

Lemma deframe_record_sized n p : keeps (sized n) (ReceivePath.deframe_record (D:=D) p).
Proof.
  unfold ReceivePath.deframe_record. apply keeps_bind; [apply keeps_gets|]. intros self.
  destruct (_ && _); [apply keeps_fail|]. apply keeps_bind.
  { intros [self' buf] Hn. unfold ReceivePath.count_empty. by repeat case_decide. }
  intros _. case_decide.
  - apply keeps_bind; [apply keeps_gets|]. intros buf. apply keeps_bind; [apply keeps_lift|]. intros b.
    apply keeps_bind; [|intros; apply keeps_ret]. apply keeps_modify. by intros [].
  - apply keeps_bind; [|intros; apply keeps_ret]. intros [self' buf] Hn. unfold ReceivePath.input_handshake.
    pose proof (feed_sized n (EncodableVersion.version (Record_.version (Decrypted.plaintext p)))
      (Record_.payload (Decrypted.plaintext p)) (ReceivePath.deframer self', buf) Hn) as Hs.
    by destruct (feed _ _ _) as [[d' buf'] r].
Qed.

Lemma deframe_sized n : keeps (sized n) (ReceivePath.deframe (D:=D)).
Proof.
  intros [self buf] Hn. unfold ReceivePath.deframe.
  apply (deframe_keeps (sized n)); [|apply deframe_decrypted_sized|apply deframe_record_sized|done].
  intros close [self' buf'] Hn'. unfold ReceivePath.take_message.
  destruct (Deframer.complete_span _) as [d [span|]]; [|done]. by destruct (Deframer.record _ _ _).
Qed.
End refine.

(** ** Deframing does not end the stream *)

Section flag.
Context {D : Type} `{!RecordDecrypter D}.

Definition flagged (b : bool) (s : ReceivePath.t D * list u8) : Prop :=
  ReceivePath.has_received_close_notify s.1 = b.

Lemma deframe_decrypted_flagged b : keeps (flagged b) (ReceivePath.deframe_decrypted (D:=D)).
Proof.
  intros [self buffer] Hn. unfold ReceivePath.deframe_decrypted.
  destruct (Deframer.deframe buffer _) as [d [[[record bounds]|e|]|]]; try done. destruct (_ && _); [done|].
  destruct (DecryptionState.decrypt_incoming _ _ _) as [[ds payload'] [[[? []]|]| |]]; try done.
  by destruct (Deframer.aligned d).
Qed.

Lemma deframe_record_flagged b p : keeps (flagged b) (ReceivePath.deframe_record (D:=D) p).
Proof.
  unfold ReceivePath.deframe_record. apply keeps_bind; [apply keeps_gets|]. intros self.
  destruct (_ && _); [apply keeps_fail|]. apply keeps_bind.
  { intros [self' buf] Hn. unfold ReceivePath.count_empty. by repeat case_decide. }
  intros _. case_decide.
  - apply keeps_bind; [apply keeps_gets|]. intros buf. apply keeps_bind; [apply keeps_lift|]. intros bs.
    apply keeps_bind; [|intros; apply keeps_ret]. apply keeps_modify. by intros [].
  - apply keeps_bind; [|intros; apply keeps_ret]. intros [self' buf] Hn. unfold ReceivePath.input_handshake.
    by destruct (feed _ _ _) as [[d' buf'] r].
Qed.

Lemma deframe_flagged b : keeps (flagged b) (ReceivePath.deframe (D:=D)).
Proof.
  intros [self buf] Hn. unfold ReceivePath.deframe.
  apply (deframe_keeps (flagged b)); [|apply deframe_decrypted_flagged|apply deframe_record_flagged|done].
  intros close [self' buf'] Hn'. unfold ReceivePath.take_message.
  destruct (Deframer.complete_span _) as [d [span|]]; [|done]. by destruct (Deframer.record _ _ _).
Qed.
End flag.

(** ** Progress *)

Section progress.
Context {D : Type} `{!RecordDecrypter D, !RecordDecrypterLaws D}.
Implicit Types (S : Stream.t D).

(** The bytes that a stream holds. *)
Definition stream_size (S : Stream.t D) : nat :=
  length (concat (Stream.hs S).*2) + length (Stream.wire S).

Lemma length_absorb v p hs : length (concat (absorb v p hs).*2) ≤ length (concat hs.*2) + length p.
Proof.
  assert (∀ fuel q, length (concat (frames fuel q)) ≤ length q) as Hf.
  { induction fuel as [|fuel IH]; intros q; cbn [frames]; [cbn; lia|]. case_decide; [cbn; lia|].
    unfold first_message. destruct (msg_size q) as [n|]; [|cbn; rewrite app_nil_r; lia].
    case_decide; [|cbn; rewrite app_nil_r; lia]. cbn [concat]. rewrite length_app, length_take.
    specialize (IH (drop (Z.to_nat (n + 4)) q)). rewrite length_drop in IH. lia. }
  induction hs as [|[w c] hs IH]; cbn [absorb].
  - rewrite snd_versions. apply Hf.
  - destruct (is_whole c); csimpl; rewrite !length_app; [lia|]. rewrite snd_versions.
    specialize (Hf (length c + length p) (c ++ p)). rewrite length_app in Hf. lia.
Qed.

Lemma next_record_size S S' o :
  Stream.next_record S = (S', Ok (Some o)) →
  Stream.hs S' = Stream.hs S ∧
  length (Stream.wire S') + HEADER_SIZE + from_option (λ p, length (Record_.payload (Decrypted.plaintext p))) 0 o
    ≤ length (Stream.wire S).
Proof.
  unfold Stream.next_record. destruct (Record_read (Stream.wire S)) as [[r rest]|e|] eqn:E; [|by destruct e|done].
  apply Record_read_inv in E as (typ & v & payload & -> & _ & ->). cbn [Stream.wire Stream.hs Stream.path].
  rewrite !length_app, length_header. destruct (_ && _).
  { intros [= <- <-]. cbn. split; [done|]. unfold HEADER_SIZE. lia. }
  pose proof (decrypt_incoming_spec typ (EncodableVersion.Legacy v)
    (ReceivePath.decrypt_state (Stream.path S)) payload) as Hi.
  destruct (DecryptionState.decrypt_incoming _ _ _) as [[ds payload'] r]. destruct Hi as (Hl & _ & Hr).
  destruct r as [[[close [typ' v' range]]|]|e|]; intros Hs; simplify_eq; [|case_decide; simplify_eq].
  - split; [done|]. specialize (Hr _ eq_refl). cbn in Hr. cbn [Stream.wire from_option Decrypted.plaintext Record_.payload].
    rewrite length_slice by lia. lia.
  - split; [done|]. cbn [Stream.wire from_option]. lia.
Qed.

Lemma accept_size p S S' o :
  Stream.accept p S = (S', Ok o) →
  Stream.wire S' = Stream.wire S ∧
  length (concat (Stream.hs S').*2) ≤
    length (concat (Stream.hs S).*2) + length (Record_.payload (Decrypted.plaintext p)) ∧
  (is_Some o → o = Some p ∧ Stream.hs S' = Stream.hs S ∧
    Record_.typ (Decrypted.plaintext p) ≠ ContentType.Handshake ∧ Stream.hs S' = []).
Proof.
  intros Ha. pose proof (stream_accept_wire _ _ _ _ Ha) as Hw. split; [done|]. revert Ha.
  unfold Stream.accept, mbind, action_bind, gets, id. case_decide as Hd; [done|].
  assert (∀ typ len, Stream.hs (Stream.count_empty typ len S).1 = Stream.hs S) as Hh.
  { intros typ len. unfold Stream.count_empty, ReceivePath.count_empty. by repeat case_decide. }
  destruct (Stream.count_empty _ _ S) as [S1 [[]|e|]] eqn:Hc; [|done..].
  specialize (Hh (Record_.typ (Decrypted.plaintext p)) (length (Record_.payload (Decrypted.plaintext p)))).
  rewrite Hc in Hh. cbn [fst] in Hh. case_decide as Ht.
  - intros [= <- <-]. rewrite Hh. split; [lia|]. intros _. split_and!; try done.
    destruct (decide (Stream.hs S = [])); naive_solver.
  - cbn [modify]. destruct (existsb _ _); [done|]. intros [= <- <-]. cbn [Stream.hs]. rewrite Hh.
    split; [apply length_absorb|]. by intros [].
Qed.

(** A returned message has been taken from the stream, and anything but a handshake
    message only from an aligned one. *)
Lemma stream_deframe_size fuel close S S' o :
  Stream.deframe fuel close S = (S', Ok o) →
  match o with
  | Some p => stream_size S' < stream_size S ∧
      (Record_.typ (Decrypted.plaintext p) ≠ ContentType.Handshake → Stream.hs S' = [])
  | None => stream_size S' ≤ stream_size S
  end.
Proof.
  revert close S. induction fuel as [fuel IH] using lt_wf_ind. intros close S.
  rewrite stream_deframe_eq. unfold stream_size. destruct (pending_message _) eqn:Hp.
  - unfold Stream.take_message. destruct (Stream.hs S) as [|[v m] rest]; [done|]. cbn [pending_message] in Hp.
    rewrite Hp. intros [= <- <-]. csimpl. rewrite length_app.
    apply is_whole_true, complete_not_nil in Hp. destruct m; [done|]. cbn [length].
    split; [lia|done].
  - unfold Stream.turn, mbind, action_bind.
    destruct (Stream.next_record S) as [S1 [[[p|]|]|e|]] eqn:Hn; [| | |done..].
    + apply next_record_size in Hn as [Hh Hw]. cbn [from_option] in Hw. unfold Stream.finish, mbind, action_bind.
      destruct (Stream.accept p S1) as [S2 [[q|]|e|]] eqn:Ha; [| |done..];
        apply accept_size in Ha as (Hw2 & Hl & Hq); rewrite Hh in *; unfold HEADER_SIZE in Hw.
      * intros [= <- <-]. destruct Hq as ([= ->] & -> & Ht & Hnil); [done|]. rewrite Hw2. split; [lia|done].
      * destruct fuel as [|f]; [done|]. intros H%IH; [|lia]. unfold stream_size in H. rewrite Hw2 in H.
        destruct o; [|lia]. split; [lia|]. apply H.
    + apply next_record_size in Hn as [Hh Hw]. cbn [from_option] in Hw. unfold HEADER_SIZE in Hw.
      destruct fuel as [|f]; [done|]. intros H%IH; [|lia]. unfold stream_size in H. rewrite Hh in H.
      destruct o; [|lia]. split; [lia|]. apply H.
    + intros [= <- <-]. revert Hn. unfold Stream.next_record.
      destruct (Record_read (Stream.wire S)) as [[[typ v payload] rest]|e|]; [| |done].
      * destruct (_ && _); [done|]. destruct (DecryptionState.decrypt_incoming _ _ _) as [[? ?] [[[? []]|]| |]];
          intros; simplify_eq; by case_decide.
      * by intros [= <- _].
Qed.
End progress.

(** ** More bytes *)

Section more.
Context {D : Type} `{!RecordDecrypter D, !RecordDecrypterLaws D}.
Implicit Types (S : Stream.t D).

(** The fuel of [deframe] is enough when there is a unit for every byte. *)
Lemma stream_deframe_fuel n f f' close S :
  length (Stream.wire S) ≤ n → n ≤ f → n ≤ f' → Stream.deframe f close S = Stream.deframe f' close S.
Proof.
  revert f f' close S. induction n as [n IH] using lt_wf_ind. intros f f' close S Hn Hf Hf'.
  rewrite !stream_deframe_eq. destruct (pending_message _); [done|]. unfold Stream.turn, mbind, action_bind.
  destruct (Stream.next_record S) as [S1 [[o|]|e|]] eqn:Hr; [|done..].
  apply next_record_size in Hr as [_ Hw]. unfold HEADER_SIZE in Hw.
  destruct f as [|f]; [lia|]. destruct f' as [|f']; [lia|].
  destruct o as [p|]; [|apply (IH (length (Stream.wire S1))); lia].
  unfold Stream.finish, mbind, action_bind. destruct (Stream.accept p S1) as [S2 [[q|]|e|]] eqn:Ha; [done| |done..].
  apply accept_size in Ha as (Hw2 & _). apply (IH (length (Stream.wire S2))); rewrite ?Hw2; lia.
Qed.

(** Without a whole message pending, the flag of an earlier record is not used. *)
Lemma stream_deframe_close fuel c c' S :
  pending_message (Stream.hs S) = false → Stream.deframe fuel c S = Stream.deframe fuel c' S.
Proof.
  revert S. induction fuel as [|fuel IH]; intros S Hp; rewrite !stream_deframe_eq, Hp;
    unfold Stream.turn, mbind, action_bind;
    destruct (Stream.next_record S) as [S1 [[[p|]|]|e|]] eqn:Hr; try done.
  apply IH. apply next_record_size in Hr as [-> _]. done.
Qed.

Definition stream_feed (more : list u8) (S : Stream.t D) : Stream.t D :=
  Stream.mk (Stream.path S) (Stream.hs S) (Stream.wire S ++ more).

(** What a record is does not depend on what follows it. *)
Lemma next_record_feed more S :
  match Stream.next_record S with
  | (S1, Ok None) => S1 = S
  | (S1, Ok (Some o)) => Stream.next_record (stream_feed more S) = (stream_feed more S1, Ok (Some o))
  | (S1, r) => Stream.next_record (stream_feed more S) = (stream_feed more S1, r)
  end.
Proof.
  unfold Stream.next_record. cbn [stream_feed Stream.wire Stream.path Stream.hs].
  pose proof (Record_read_more (Stream.wire S) more) as Hm.
  destruct (Record_read (Stream.wire S)) as [[[typ v payload] rest]|e|].
  - rewrite Hm. destruct (_ && _); [done|].
    destruct (DecryptionState.decrypt_incoming _ _ _) as [[ds payload'] [[[close []]|]|e|]]; [done| |done..].
    by case_decide.
  - destruct (of_record_error e) eqn:He; [|done]. rewrite Hm; [by rewrite He|]. by destruct e.
  - done.
Qed.

Lemma accept_feed more p S :
  Stream.accept p (stream_feed more S) =
    (stream_feed more (Stream.accept p S).1, (Stream.accept p S).2).
Proof.
  unfold Stream.accept, mbind, action_bind, gets, id. cbn [stream_feed Stream.hs]. case_decide; [done|].
  unfold Stream.count_empty. cbn [stream_feed Stream.path Stream.hs Stream.wire].
  destruct (ReceivePath.count_empty _ _ _) as [[path' ?] [[]| |]]; [|done..]. case_decide; [done|].
  cbn [modify Stream.hs Stream.path Stream.wire]. by destruct (existsb _ _).
Qed.

Lemma take_message_feed more close S :
  Stream.take_message close (stream_feed more S) =
    (stream_feed more (Stream.take_message close S).1, (Stream.take_message close S).2).
Proof.
  unfold Stream.take_message. cbn [stream_feed Stream.hs].
  destruct (Stream.hs S) as [|[v m] rest]; [done|]. by destruct (is_whole m).
Qed.

(** Deframing with more bytes behind: the same message, the same error; and when there
    was none, as if the rest had arrived later. *)
Lemma stream_deframe_feed more fuel fuel' close S :
  length (Stream.wire S) ≤ fuel → length (Stream.wire S) + length more ≤ fuel' →
  match Stream.deframe fuel close S with
  | (S1, Ok None) => ∀ fuel1, length (Stream.wire S1) + length more ≤ fuel1 →
      Stream.deframe fuel' close (stream_feed more S) = Stream.deframe fuel1 false (stream_feed more S1)
  | (S1, r) => Stream.deframe fuel' close (stream_feed more S) = (stream_feed more S1, r)
  end.
Proof.
  revert fuel' close S. induction fuel as [fuel IH] using lt_wf_ind. intros fuel' close S Hf Hf'.
  rewrite !(stream_deframe_eq fuel), !(stream_deframe_eq fuel'). cbn [stream_feed Stream.hs].
  destruct (pending_message (Stream.hs S)) eqn:Hp.
  { pose proof (stream_take_message close S) as Ht. rewrite Hp in Ht. destruct Ht as (S' & p & Ht).
    rewrite take_message_feed, Ht. done. }
  unfold Stream.turn, mbind, action_bind. pose proof (next_record_feed more S) as Hn.
  destruct (Stream.next_record S) as [S1 [[o|]|e|]] eqn:Hr; [| |by rewrite Hn..].
  - apply next_record_size in Hr as [Hh Hw]. unfold HEADER_SIZE in Hw. rewrite Hn.
    destruct fuel as [|fuel]; [lia|]. destruct fuel' as [|fuel']; [lia|].
    destruct o as [p|]; [|apply (IH fuel); lia].
    unfold Stream.finish, mbind, action_bind. rewrite accept_feed.
    destruct (Stream.accept p S1) as [S2 [[q|]|e|]] eqn:Ha; cbn [fst snd]; [done| |done..].
    apply accept_size in Ha as (Hw2 & _). apply (IH fuel); rewrite ?Hw2; lia.
  - subst S1. intros fuel1 Hf1. pose proof (stream_deframe_eq fuel' close (stream_feed more S)) as He.
    cbn [stream_feed Stream.hs] in He. rewrite Hp in He. unfold Stream.turn, mbind, action_bind in He.
    rewrite <-He, (stream_deframe_close fuel' close false) by done.
    apply (stream_deframe_fuel (length (Stream.wire (stream_feed more S)))); cbn; rewrite ?length_app; lia.
Qed.
End more.

Lemma stream_deframe_open {D} `{!RecordDecrypter D} fuel close (S : Stream.t D) :
  ReceivePath.has_received_close_notify (Stream.path (Stream.deframe fuel close S).1)
  = ReceivePath.has_received_close_notify (Stream.path S).
Proof.
  assert (∀ S : Stream.t D, ReceivePath.has_received_close_notify (Stream.path (Stream.next_record S).1)
    = ReceivePath.has_received_close_notify (Stream.path S)) as Hnext.
  { intros S'. unfold Stream.next_record. destruct (Record_read _) as [[[] ?]| |]; [|done..].
    destruct (_ && _); [done|]. by destruct (DecryptionState.decrypt_incoming _ _ _) as [[] ?]. }
  assert (∀ p (S : Stream.t D), ReceivePath.has_received_close_notify (Stream.path (Stream.accept p S).1)
    = ReceivePath.has_received_close_notify (Stream.path S)) as Hacc.
  { intros p S'. unfold Stream.accept, mbind, action_bind, gets, id. case_decide; [done|].
    unfold Stream.count_empty, ReceivePath.count_empty. repeat case_decide; try done; cbn; by destruct (existsb _ _). }
  revert close S. induction fuel as [|fuel IH]; intros close S; rewrite stream_deframe_eq;
    (destruct (pending_message _);
      [unfold Stream.take_message; destruct (Stream.hs S) as [|[]]; [done|]; by destruct (is_whole _)|]);
    unfold Stream.turn, Stream.finish, mbind, action_bind; specialize (Hnext S);
    destruct (Stream.next_record S) as [S1 [[[p|]|]| |]]; cbn [fst] in *; try done;
    try (specialize (Hacc p S1); destruct (Stream.accept p S1) as [S2 [[]| |]]; cbn [fst] in *);
    rewrite ?IH; unfold panic, mret, action_ret; cbn [fst]; congruence.
Qed.

(** ** Main results *)

(** C19. The receive path is a function on byte streams: on every consistent state,
    whatever the buffer holds, [deframe] returns what the specification returns for the
    pending handshake messages and the unread bytes - the same record or message, the
    same request for more input, the same error - and never panics; without an error
    it leaves a consistent state that stands for the specification's, a buffer of the
    same length, and, when something was returned, fewer bytes to go. *)
Theorem deframe_stream {D} `{!RecordDecrypter D, !RecordDecrypterLaws D}
    (self : ReceivePath.t D) (buffer : list u8) (Hst : path_settled (self, buffer)) :
  let S := stream_of (self, buffer) in
  let '(s', r) := ReceivePath.deframe (self, buffer) in
  let '(S', r') := Stream.deframe (length (Stream.wire S)) false S in
  r = r' ∧ r ≠ Panic ∧ length s'.2 = length buffer ∧
  (∀ o, r = Ok o → path_settled s' ∧ stream_of s' = S' ∧ (is_Some o → stream_size S' < stream_size S)).
Proof.
  intros S. pose proof (deframe_refines (self, buffer) Hst) as Ha.
  pose proof (deframe_sized (D:=D) (length buffer) (self, buffer) eq_refl) as Hl.
  pose proof (stream_deframe_size (D:=D) (length (Stream.wire S)) false S) as Hsz. subst S.
  destruct (ReceivePath.deframe (self, buffer)) as [s' r], (Stream.deframe _ _ _) as [S' r'].
  destruct Ha as [Hr Ha]. cbn [fst snd] in *. subst r'.
  split_and!; [done|by intros ->|done|]. intros o ->. destruct Ha. split_and!; [done..|].
  intros [p ->]. by destruct (Hsz S' (Some p) eq_refl).
Qed.

Definition no_keys : RecordDecrypter Empty_set := {| decrypt := Empty_set_rect _ |}.

(** Two records that a handshake message is cut into. *)
Definition cut_message : list u8 :=
  [x16; x03; x03; x00; x03; x0e; x00; x00] ++ [x16; x03; x03; x00; x01; x00] ++ [x16; x03].

Lemma deframe_stream_witness :
  let _ := no_keys in
  (ReceivePath.deframe (ReceivePath.new Side.Client (D:=Empty_set), cut_message)).2
  = Ok (Some (Decrypted.mk false (Record_.new ContentType.Handshake
      (EncodableVersion.Legacy ProtocolVersion.TLSv1_2) [x0e; x00; x00; x00]))).
Proof.
  intros keys. assert (RecordDecrypterLaws Empty_set) as Hlaws by (by split; intros []).
  pose proof (deframe_stream (ReceivePath.new Side.Client (D:=Empty_set)) cut_message
    (settled_default cut_message)) as H.
  destruct (ReceivePath.deframe _) as [s' r]. cbv zeta in H.
  destruct (Stream.deframe _ _ _) as [S' r'] eqn:Hs.
  destruct H as (-> & _). cbn [snd]. vm_compute in Hs. by injection Hs.
Defined.
