(* ===== verification/InputBuffer.v ===== *)
(** * Input buffers ([TlsInputBuffer], [VecInput], [SliceInput] of
      [rustls/src/conn/receive.rs])

    The bytes received from the peer, of which the connection sees a slice that it
    changes in place and discards from the front. *)
From stdpp Require Import gmap.
From S2P Require Import Prelude Enums Errors.

(** [slice_mut()] gives a mutable slice: it is read with [slice_mut], and what has
    become of it is stored with [write_slice]. *)
(* @src rustls/src/conn/receive.rs 1112-1148 TlsInputBuffer *)
Class TlsInputBuffer (I : Type) := {
  slice_mut : I → result Error.t (list u8);
  write_slice : list u8 → I → I;
  discard_front : nat → I → result Error.t I;
  received_close_notify : I → I;
  has_seen_eof : I → bool;
}.

(** The contract of the trait, as its documentation has it; [held] are the bytes of the
    buffer that are not discarded. *)
Class TlsInputBufferLaws (I : Type) `{TlsInputBuffer I} := {
  input_ok : I → Prop;
  held : I → list u8;
  slice_held i : input_ok i → slice_mut i = Ok (held i);
  held_write i bs :
    input_ok i → length bs = length (held i) →
    held (write_slice bs i) = bs ∧ input_ok (write_slice bs i);
  held_discard i n :
    input_ok i → n ≤ length (held i) →
    ∃ i', discard_front n i = Ok i' ∧ held i' = drop n (held i) ∧ input_ok i';
  held_closed i :
    input_ok i → held (received_close_notify i) = held i ∧ input_ok (received_close_notify i);
}.

Module VecInput.
(* @src rustls/src/conn/receive.rs 906-922 VecInput *)
Record t := mk {
  buf : list u8;
  used : nat;
  has_seen_eof : bool;
  received_close_notify : bool;
}.

(** [VecInput::default()]. *)
Definition default : t := mk [] 0 false false.

(* @src rustls/src/conn/receive.rs 925-947 VecInput::discard *)
Definition discard {E} (taken : nat) (self : t) : result E t :=
  if decide (taken < used self) then
    buf ← copy_within (buf self) (mkRange taken (used self)) 0;
    Ok (mk buf (used self - taken) (has_seen_eof self) (received_close_notify self))
  else Ok (mk (buf self) 0 (has_seen_eof self) (received_close_notify self)).

(* @src rustls/src/conn/receive.rs 949-951 VecInput::filled_mut *)
Definition filled_mut {E} (self : t) : result E (list u8) :=
  unwrap (get_range (buf self) (mkRange 0 (used self))).

Definition MAX_HANDSHAKE_SIZE : nat := Z.to_nat 0xffff.
Definition READ_SIZE : nat := 4096.

(** [Vec::resize(new_len, 0)]. *)
Definition resize (new_len : nat) (l : list u8) : list u8 :=
  take new_len l ++ replicate (new_len - length l) x00.

(* @src rustls/src/conn/receive.rs 978-1010 VecInput::prepare_read *)
Definition prepare_read : action t unit unit := λ self,
  if decide (MAX_HANDSHAKE_SIZE ≤ used self) then (self, Err tt)
  else
    let need_capacity := Nat.min MAX_HANDSHAKE_SIZE (used self + READ_SIZE) in
    let resized :=
      mk (resize need_capacity (buf self)) (used self) (has_seen_eof self)
        (received_close_notify self) in
    if decide (length (buf self) < need_capacity) then (resized, Ok tt)
    else if decide (used self = 0 ∨ MAX_HANDSHAKE_SIZE < length (buf self)) then (resized, Ok tt)
    else (self, Ok tt).

(** [rd.read(&mut buf)] returns at most as many bytes as the buffer has room for; an
    error [None] is the buffer being full. *)
(* @src rustls/src/conn/receive.rs 953-976 VecInput::read *)
Definition read {X} (rd : nat → result X (list u8)) : action t (option X) nat := λ self,
  if received_close_notify self then (self, Ok 0)
  else
    match prepare_read self with
    | (self, Err _) => (self, Err None)
    | (self, Panic) => (self, Panic)
    | (self, Ok _) =>
        if decide (length (buf self) < used self) then (self, Panic)
        else
          match rd (length (buf self) - used self) with
          | Err e => (self, Err (Some e))
          | Panic => (self, Panic)
          | Ok bs =>
              (mk (take (used self) (buf self) ++ bs ++ drop (used self + length bs) (buf self))
                  (used self + length bs)
                  (has_seen_eof self || bool_decide (length bs = 0))
                  (received_close_notify self), Ok (length bs))
          end
    end.

Definition with_filled (bs : list u8) (self : t) : t :=
  mk (bs ++ drop (used self) (buf self)) (used self) (has_seen_eof self) (received_close_notify self).

Definition set_close_notify (self : t) : t := mk (buf self) (used self) (has_seen_eof self) true.

(* @src rustls/src/conn/receive.rs 1013-1029 TlsInputBuffer_for_VecInput *)
#[export] Instance input : TlsInputBuffer t := {|
  slice_mut := filled_mut;
  write_slice := with_filled;
  discard_front := discard;
  InputBuffer.received_close_notify := set_close_notify;
  InputBuffer.has_seen_eof := has_seen_eof;
|}.

Definition ok (self : t) : Prop := used self ≤ length (buf self).

Lemma discard_spec {E} n (self : t) :
  ok self → n ≤ used self →
  ∃ self', discard (E:=E) n self = Ok self' ∧ ok self' ∧
    take (used self') (buf self') = drop n (take (used self) (buf self)).
Proof.
  intros Hok Hn. unfold discard. case_decide.
  - destruct (copy_within_spec (E:=E) (buf self) (mkRange n (used self)) 0)
      as (b & -> & Hl & _ & Hs & _); cbn [r_start r_end] in *; [lia..|done|].
    eexists. split; [done|]. unfold ok. cbn [used buf]. split; [unfold ok in Hok; lia|].
    unfold slice, range_len in Hs. cbn [r_start r_end] in Hs.
    rewrite Nat.add_0_l, drop_0, Nat.sub_0_r in Hs. rewrite Hs. by rewrite skipn_firstn_comm.
  - eexists. split; [done|]. split; [unfold ok; cbn; lia|]. cbn [used buf].
    rewrite take_0, drop_ge; [done|]. rewrite length_take. lia.
Qed.

#[export] Program Instance laws : TlsInputBufferLaws t := {|
  input_ok := ok;
  held self := take (used self) (buf self);
|}.
Next Obligation.
  intros i Hok. unfold ok in Hok. cbn. unfold filled_mut.
  rewrite (proj2 (get_range_Some (buf i) (mkRange 0 (used i)) (take (used i) (buf i)))); [done|].
  cbn [r_start r_end]. unfold slice. rewrite drop_0, Nat.sub_0_r. split_and!; [lia..|done].
Qed.
Next Obligation.
  intros i bs Hok Hl. unfold ok in *. cbn in Hl |- *. rewrite length_take in Hl.
  rewrite take_app_length' by lia. rewrite length_app, length_drop. split; [done|lia].
Qed.
Next Obligation.
  intros i n Hok Hn. cbn in Hn |- *. rewrite length_take in Hn.
  destruct (discard_spec (E:=Error.t) n i Hok) as (i' & ? & ? & ?); [lia|]. by exists i'.
Qed.
Next Obligation. done. Qed.
End VecInput.

Module SliceInput.
(* @src rustls/src/conn/receive.rs 1048-1058 SliceInput *)
Record t := mk {
  buf : list u8;
  discard : nat;
  has_seen_eof : bool;
  received_close_notify : bool;
}.

(* @src rustls/src/conn/receive.rs 1061-1069 SliceInput::new *)
Definition new (buf : list u8) : t := mk buf 0 false false.

(* @src rustls/src/conn/receive.rs 1071-1074 SliceInput::into_used *)
Definition into_used (self : t) : nat := discard self.

Definition with_slice (bs : list u8) (self : t) : t :=
  mk (take (discard self) (buf self) ++ bs) (discard self) (has_seen_eof self)
    (received_close_notify self).

(* @src rustls/src/conn/receive.rs 1077-1093 TlsInputBuffer_for_SliceInput *)
#[export] Instance input : TlsInputBuffer t := {|
  slice_mut self := unwrap (get_range (buf self) (mkRange (discard self) (length (buf self))));
  write_slice := with_slice;
  discard_front num_bytes self :=
    Ok (mk (buf self) (discard self + num_bytes) (has_seen_eof self) (received_close_notify self));
  InputBuffer.received_close_notify self := mk (buf self) (discard self) (has_seen_eof self) true;
  InputBuffer.has_seen_eof := has_seen_eof;
|}.

Definition ok (self : t) : Prop := discard self ≤ length (buf self).

#[export] Program Instance laws : TlsInputBufferLaws t := {|
  input_ok := ok;
  held self := drop (discard self) (buf self);
|}.
Next Obligation.
  intros i Hok. unfold ok in Hok. cbn.
  rewrite (proj2 (get_range_Some (buf i) (mkRange (discard i) (length (buf i)))
    (drop (discard i) (buf i)))); [done|].
  cbn [r_start r_end]. split_and!; [lia..|]. unfold slice. symmetry. apply take_ge.
  rewrite length_drop. lia.
Qed.
Next Obligation.
  intros i bs Hok Hl. unfold ok in *. cbn in Hl |- *. rewrite length_drop in Hl.
  rewrite drop_app_length' by (rewrite length_take; lia).
  rewrite length_app, length_take. split; [done|lia].
Qed.
Next Obligation.
  intros i n Hok Hn. unfold ok in *. cbn in Hn |- *. rewrite length_drop in Hn. eexists. split; [done|].
  cbn. rewrite drop_drop. split; [done|lia].
Qed.
Next Obligation. done. Qed.
End SliceInput.
