(* ===== verification/Connection.v ===== *)
(** * Driving a connection ([rustls/src/conn/receive.rs], [rustls/src/conn/mod.rs])

    [MessageIter] takes records from the receive path, presents them to the state
    machine of the handshake or of the traffic phase, and hands out the application
    data.  The state machine is an interface here. *)
From stdpp Require Import gmap.
From S2P Require Import Prelude Enums Errors Codec Records Fragmenter Deframer Extensions Payloads.
From S2P Require Import ServerHello ClientHello Messages Send Receive InputBuffer.

(** ** What a state machine works on *)

(** [CaptureAppData]: both halves of the connection, the bytes to be sent, the
    connection's outputs (of a type the side chooses) and the plaintext received.  A
    payload is its bytes: [UnborrowedPayload] names the place in the input buffer they
    are read from when the payload is handed out.  [send_required] is whether a method
    that may send was called: the sending half of a split connection is told so. *)
Module Output.
(* @src rustls/src/conn/receive.rs 664-681 CaptureAppData *)
Record t (D E K X : Type) := mk {
  recv : ReceivePath.t D;
  send : SendPath.t E K;
  tls : list u8;
  other : X;
  received : option (DataKind.t Payload);
  send_required : bool;
}.
Arguments mk {D E K X}.
Arguments recv {D E K X}.
Arguments send {D E K X}.
Arguments tls {D E K X}.
Arguments other {D E K X}.
Arguments received {D E K X}.
Arguments send_required {D E K X}.

Section methods.
Context {D E K X : Type}.
Implicit Types (self : t D E K X).

(** [self.recv.m()]. *)
Definition on_recv {A} (m : action (ReceivePath.t D) Error.t A) : action (t D E K X) Error.t A := λ self,
  match m (recv self) with
  | (recv, r) => (mk recv (send self) (tls self) (other self) (received self) (send_required self), r)
  end.

(** [self.send.m(self.tls)]. *)
Definition on_send {A} (m : action (SendPath.t E K * list u8) Error.t A)
    : action (t D E K X) Error.t A := λ self,
  match m (send self, tls self) with
  | ((send, tls), r) => (mk (recv self) send tls (other self) (received self) (send_required self), r)
  end.

(** The same for [queue_requested_key_update], [send_alert] and [send_msg]. *)
(* @src rustls/src/conn/split.rs 518-534 SendAdapter::as_locked *)
Definition on_sending {A} (m : action (SendPath.t E K * list u8) Error.t A)
    : action (t D E K X) Error.t A := λ self,
  on_send m (mk (recv self) (send self) (tls self) (other self) (received self) true).

Definition with_recv (v : ReceivePath.t D) self : t D E K X :=
  mk v (send self) (tls self) (other self) (received self) (send_required self).
Definition with_other (v : X) self : t D E K X :=
  mk (recv self) (send self) (tls self) v (received self) (send_required self).
Definition with_received (v : option (DataKind.t Payload)) self : t D E K X :=
  mk (recv self) (send self) (tls self) (other self) v (send_required self).

(* @src rustls/src/conn/receive.rs 716-734 CaptureAppData::received_plaintext *)
Definition received_plaintext (payload : DataKind.t Payload) : action (t D E K X) Error.t unit :=
  modify (with_received (Some payload)).
End methods.
End Output.

(** [handle_decrypt_error] is called on a state that is then dropped: it matters for what
    it does to the rest, such as the session store. *)
(* @src rustls/src/conn/mod.rs 771-789 StateMachine *)
Class StateMachine (St D E K X : Type) := {
  handle : St → Input.t → action (Output.t D E K X) Error.t St;
  wants_input : St → bool;
  handle_without_input : St → action (Output.t D E K X) Error.t St;
  is_traffic : St → bool;
  handle_decrypt_error : St → X → X;
}.

Section connection.
Context {D E K X : Type} `{!RecordDecrypter D, !RecordEncrypter E, !TrafficSend K E, !PkiTypes}.
Notation Out := (Output.t D E K X).

(* @src rustls/src/common_state.rs 246-256 maybe_send_fatal_alert *)
Definition maybe_send_fatal_alert (error : Error.t) : action Out Error.t unit :=
  match alert_of_error error with
  | None => mret tt
  | Some alert => Output.on_sending (SendPath.send_alert AlertLevel.Fatal alert)
  end.

(* @src rustls/src/conn/receive.rs 461-487 ReceivePath::reject_renegotiation_request *)
Definition reject_renegotiation_request (msg : Message.t) : action Out Error.t bool :=
  self ← gets Output.recv;
  if negb (ReceivePath.may_receive_application_data self) || ReceivePath.is_tls13 self then mret false
  else
    let reject_ty :=
      match ReceivePath.side self with
      | Side.Client => HandshakeType.HelloRequest
      | Side.Server => HandshakeType.ClientHello
      end in
    if decide (Message.handshake_type msg ≠ Some reject_ty) then mret false
    else
      _ ← Output.on_recv (λ self,
            match TemperCounters.received_renegotiation_request (ReceivePath.temper_counters self) with
            | (counters, r) => (ReceivePath.with_temper_counters counters self, r)
            end);
      _ ← Output.on_sending (SendPath.send_alert AlertLevel.Warning AlertDescription.NoRenegotiation);
      mret true.

(* @src rustls/src/conn/receive.rs 399-440 ReceivePath::receive_record *)
Definition receive_record (record : Record_.t (list u8)) (aligned_handshake : bool)
    : action Out Error.t (option Input.t) :=
  dropped ← (if decide (Record_.typ record = ContentType.ChangeCipherSpec)
             then Output.on_recv (ReceivePath.drop_tls13_ccs record) else mret false);
  if dropped : bool then mret None
  else
    message ← lift (map_err Error.InvalidMessage (Message.try_from record));
    match Message.payload message with
    | MessagePayload.Alert alert =>
        _ ← Output.on_recv (ReceivePath.process_alert alert);
        mret None
    | _ =>
        rejected ← reject_renegotiation_request message;
        if rejected : bool then mret None
        else mret (Some (Input.mk message aligned_handshake))
    end.

(** An error of the state machine is told to the peer. *)
Definition report {A} (m : action Out Error.t A) : action Out Error.t A := λ out,
  match m out with
  | (out, Err e) => (_ ← ignore_err (maybe_send_fatal_alert e); fail e) out
  | res => res
  end.
End connection.

Module MessageIterMode.
(* @src rustls/src/conn/receive.rs 213-221 MessageIterMode *)
Inductive t := All | Handshake.
#[global] Instance eq_dec : EqDecision t.
Proof. solve_decision. Defined.
End MessageIterMode.

Module MessageIter.
(* @src rustls/src/conn/receive.rs 25-32 MessageIter *)
Record t (I St D E K X : Type) := mk {
  input : I;
  state : result Error.t St;
  output : Output.t D E K X;
}.
Arguments mk {I St D E K X}.
Arguments input {I St D E K X}.
Arguments state {I St D E K X}.
Arguments output {I St D E K X}.

Section methods.
Context {I St D E K X : Type}.
Context `{!TlsInputBuffer I, !StateMachine St D E K X}.
Context `{!RecordDecrypter D, !RecordEncrypter E, !TrafficSend K E, !PkiTypes}.
Notation Out := (Output.t D E K X).
Notation Iter := (t I St D E K X).

(* @src rustls/src/conn/receive.rs 106-108 MessageIter::next::match *)
Definition on_decrypt_error (st : St) (e : Error.t) (out : Out) : Out :=
  match e with
  | Error.DecryptError => Output.with_other (handle_decrypt_error st (Output.other out)) out
  | _ => out
  end.

(** A record is presented to the state machine; [hs_aligned] is whether the deframer
    was aligned then. *)
(* @src rustls/src/conn/receive.rs 118-173 MessageIter::next::while *)
Definition dispatch (mode : MessageIterMode.t) (st : St) (record : Decrypted.t (list u8))
    (hs_aligned : bool) : action Out Error.t St :=
  let want_close_before_decrypt := Decrypted.want_close_before_decrypt record in
  let record := Decrypted.plaintext record in
  _ ← (if want_close_before_decrypt
       then ignore_err (Output.on_sending
              (SendPath.send_alert AlertLevel.Warning AlertDescription.CloseNotify))
       else mret tt);
  if negb want_close_before_decrypt && bool_decide (Record_.payload record = []) &&
     bool_decide (Record_.typ record = ContentType.Handshake ∨ Record_.typ record = ContentType.Alert)
  then
    _ ← ignore_err (Output.on_sending
          (SendPath.send_alert AlertLevel.Fatal AlertDescription.UnexpectedMessage));
    fail (Error.PeerMisbehaved PeerMisbehaved.EmptyFragment)
  else
    st ← report (input ← receive_record record hs_aligned;
                 match input with
                 | Some input => handle st input
                 | None => mret st
                 end);
    if bool_decide (mode = MessageIterMode.All) && negb (wants_input st)
    then report (handle_without_input st)
    else mret st.

(** [if self.recv.has_received_close_notify { .. break; }]. *)
(* @src rustls/src/conn/receive.rs 175-188 MessageIter::next::while *)
Definition ignore_rest (st : St) (input : I) (out : Out) : Iter * result Error.t (option Payload) :=
  let '(d, n) := Deframer.take_discard (ReceivePath.deframer (Output.recv out)) in
  match (input ← discard_front n input; entirety ← length <$> slice_mut input; Ok (input, entirety)) with
  | Ok (input, entirety) =>
      (mk (received_close_notify input) (Ok st)
          (Output.with_recv (ReceivePath.with_deframer (Deframer.set_discard entirety d)
             (Output.recv out)) out), Ok None)
  | Err e => (mk input (Ok st) out, Err e)
  | Panic => (mk input (Err Error.HandshakeNotComplete) out, Panic)
  end.

(** The loop, [None] when out of fuel.  Every turn takes at least a byte off the input
    ([next_loop_refines] of [ConnectionSpec]). *)
(* @src rustls/src/conn/receive.rs 87-210 MessageIter::next::while *)
Fixpoint next_loop (fuel : nat) (mode : MessageIterMode.t) (early_only : bool) (st : St)
    (input : I) (out : Out) : option (Iter * result Error.t (option Payload)) :=
  match fuel with
  | O => None
  | S fuel =>
    if negb (wants_input st) then Some (mk input (Ok st) out, Ok None)
    else
    match slice_mut input with
    | Err e => Some (mk input (Err e) out, Err e)
    | Panic => Some (mk input (Err Error.HandshakeNotComplete) out, Panic)
    | Ok buffer =>
      let '((recv, buffer), res) := ReceivePath.deframe (Output.recv out, buffer) in
      let input := write_slice buffer input in
      let out := Output.with_recv recv out in
      match res with
      | Panic => Some (mk input (Err Error.HandshakeNotComplete) out, Panic)
      | Err e =>
          match ignore_err (maybe_send_fatal_alert e) out with
          | (out, Panic) => Some (mk input (Err Error.HandshakeNotComplete) out, Panic)
          | (out, _) => Some (mk input (Err e) (on_decrypt_error st e out), Err e)
          end
      | Ok None => Some (mk input (Ok st) out, Ok None)
      | Ok (Some record) =>
          match dispatch mode st record (Deframer.aligned (ReceivePath.deframer recv)) out with
          | (out, Err e) => Some (mk input (Err e) out, Err e)
          | (out, Panic) => Some (mk input (Err Error.HandshakeNotComplete) out, Panic)
          | (out, Ok st) =>
              if ReceivePath.has_received_close_notify (Output.recv out)
              then Some (ignore_rest st input out)
              else
                let plaintext := Output.received out in
                let out := Output.with_received None out in
                match plaintext, early_only with
                | Some (DataKind.Traffic payload), false
                | Some (DataKind.Early payload), true => Some (mk input (Ok st) out, Ok (Some payload))
                | _, _ =>
                    if (early_only || bool_decide (mode = MessageIterMode.Handshake)) && is_traffic st
                    then Some (mk input (Ok st) out, Ok None)
                    else next_loop fuel mode early_only st input out
                end
          end
      end
    end
  end.

(** [Some(Ok(payload))], [Some(Err(e))] and [None] are [Ok (Some payload)], [Err e] and
    [Ok None]. *)
(* @src rustls/src/conn/receive.rs 78-210 MessageIter::next *)
Definition next (mode : MessageIterMode.t) (early_only : bool) : action Iter Error.t (option Payload) :=
  λ self,
  match state self with
  | Err e => (self, Err e)
  | Panic => (self, Panic)
  | Ok st =>
      let fuel := match slice_mut (input self) with Ok buffer => S (length buffer) | _ => 1 end in
      default (self, Panic) (next_loop fuel mode early_only st (input self)
                               (Output.with_received None (output self)))
  end.
End methods.
End MessageIter.

Module IoState.
(* @src rustls/src/conn/mod.rs 662-668 IoState *)
Record t := mk { peer_has_closed : bool }.

(* @src rustls/src/conn/mod.rs 671-675 IoState::new *)
Definition new {D} (recv : ReceivePath.t D) : t := mk (ReceivePath.has_received_close_notify recv).
End IoState.

Module MessageHandler.
(* @src rustls/src/conn/mod.rs 357-368 MessageHandler *)
Record t (I St D E K X : Type) := mk { iter : MessageIter.t I St D E K X; done : bool }.
Arguments mk {I St D E K X}.
Arguments iter {I St D E K X}.
Arguments done {I St D E K X}.

Section methods.
Context {I St D E K X : Type}.
Context `{!TlsInputBuffer I, !StateMachine St D E K X}.
Context `{!RecordDecrypter D, !RecordEncrypter E, !TrafficSend K E, !PkiTypes}.
Notation Iter := (MessageIter.t I St D E K X).
Notation Handler := (t I St D E K X).

(* @src rustls/src/conn/mod.rs 371-380 MessageHandler::new *)
Definition new (conn : Iter) : Handler := mk conn false.

(* @src rustls/src/conn/mod.rs 403-433 MessageHandler::next_payload *)
Definition next_payload : action Handler Error.t (option Payload) := λ self,
  if done self then (self, Ok None)
  else
    match MessageIter.next MessageIterMode.All false (iter self) with
    | (iter, Ok (Some payload)) => (mk iter false, Ok (Some payload))
    | (iter, r) => (mk iter true, r)
    end.

(* @src rustls/src/conn/mod.rs 442-485 MessageHandler::next_early_data *)
Definition next_early_data : action Handler Error.t (option Payload) := λ self,
  if done self then (self, Ok None)
  else if match MessageIter.state (iter self) with Ok st => is_traffic st | _ => false end
  then (self, Ok None)
  else
    match MessageIter.next MessageIterMode.All true (iter self) with
    | (iter, r) => (mk iter (done self), r)
    end.

(** [while let Some(result) = self.next_payload()], [None] when out of fuel. *)
(* @src rustls/src/conn/mod.rs 396-398 MessageHandler::handle_all::while *)
Fixpoint handle_loop (fuel : nat) (self : Handler) (buf : list u8)
    : option (Handler * list u8 * result Error.t unit) :=
  match next_payload self with
  | (self, Ok (Some payload)) =>
      match fuel with
      | O => None
      | S fuel => handle_loop fuel self (buf ++ payload)
      end
  | (self, Ok None) => Some (self, buf, Ok tt)
  | (self, Err e) => Some (self, buf, Err e)
  | (self, Panic) => Some (self, buf, Panic)
  end.

(** What the deframer is done with is discarded. *)
(* @src rustls/src/conn/mod.rs 488-493 MessageHandler::drop *)
Definition drop (self : Iter) : result Error.t Iter :=
  let recv := Output.recv (MessageIter.output self) in
  let '(d, n) := Deframer.take_discard (ReceivePath.deframer recv) in
  input ← discard_front n (MessageIter.input self);
  Ok (MessageIter.mk input (MessageIter.state self)
        (Output.with_recv (ReceivePath.with_deframer d recv) (MessageIter.output self))).

(** [conn.read_tls(input, tls).handle_all(buf)].  The second part of the state is [buf];
    every payload comes from at least one byte of the input ([handle_loop_sound] of
    [ConnectionInv]). *)
(* @src rustls/src/conn/mod.rs 384-401 MessageHandler::handle_all *)
Definition handle_all : action (Iter * list u8) Error.t IoState.t := λ '(conn, buf),
  let fuel := match slice_mut (MessageIter.input conn) with Ok buffer => length buffer | _ => 0 end in
  match handle_loop fuel (new conn) buf with
  | None => ((conn, buf), Panic)
  | Some (self, buf, Panic) => ((iter self, buf), Panic)
  | Some (self, buf, r) =>
      match drop (iter self) with
      | Ok conn =>
          ((conn, buf), (λ _, IoState.new (Output.recv (MessageIter.output conn))) <$> r)
      | Err e => ((iter self, buf), Err e)
      | Panic => ((iter self, buf), Panic)
      end
  end.
End methods.
End MessageHandler.

Module Connection_.
Section methods.
Context {I St D E K X : Type}.
Context `{!TlsInputBuffer I, !StateMachine St D E K X}.
Context `{!RecordDecrypter D, !RecordEncrypter E, !TrafficSend K E, !PkiTypes}.
Notation Iter := (MessageIter.t I St D E K X).

(** The loop over [iter.next(false)], [None] when out of fuel. *)
(* @src rustls/src/conn/mod.rs 71-77 Connection::process::loop *)
Fixpoint process_loop (fuel : nat) (self : Iter) : option (Iter * result Error.t unit) :=
  match MessageIter.next MessageIterMode.Handshake false self with
  | (self, Ok (Some _)) => match fuel with O => None | S fuel => process_loop fuel self end
  | (self, Ok None) => Some (self, Ok tt)
  | (self, Err e) => Some (self, Err e)
  | (self, Panic) => Some (self, Panic)
  end.

(* @src rustls/src/conn/mod.rs 65-83 Connection::process *)
Definition process : action Iter Error.t unit := λ self,
  let fuel := match slice_mut (MessageIter.input self) with Ok buffer => length buffer | _ => 0 end in
  match process_loop fuel self with
  | None => (self, Panic)
  | Some (self, Panic) => (self, Panic)
  | Some (self, r) =>
      match MessageHandler.drop self with
      | Ok self => (self, r)
      | Err e => (self, Err e)
      | Panic => (self, Panic)
      end
  end.

(* @src rustls/src/conn/mod.rs 129-157 Connection::write *)
Definition write (plaintext : OutboundPlain.t) : action Iter Error.t unit := λ self,
  match MessageIter.state self with
  | Err err => (self, Err err)
  | Panic => (self, Panic)
  | Ok _ =>
      if OutboundPlain.is_empty plaintext then (self, Ok tt)
      else
        match Output.on_send (SendPath.send_appdata_encrypt (DataKind.Traffic plaintext))
                (MessageIter.output self) with
        | (out, r) => (MessageIter.mk (MessageIter.input self) (MessageIter.state self) out,
                       (λ _, tt) <$> r)
        end
  end.

(* @src rustls/src/conn/mod.rs 159-188 Connection::refresh_traffic_keys *)
Definition refresh_traffic_keys : action Iter Error.t unit := λ self,
  match Output.on_send SendPath.refresh_traffic_keys (MessageIter.output self) with
  | (out, r) => (MessageIter.mk (MessageIter.input self) (MessageIter.state self) out, r)
  end.

(* @src rustls/src/conn/mod.rs 269-276 Connection::send_close_notify *)
Definition send_close_notify : action Iter Error.t unit := λ self,
  match Output.on_send SendPath.send_close_notify (MessageIter.output self) with
  | (out, r) => (MessageIter.mk (MessageIter.input self) (MessageIter.state self) out, r)
  end.
End methods.
End Connection_.
