(* ===== verification/ConnectionSpec.v ===== *)
(** * What a connection does with the bytes it receives

    [MessageIter] and [MessageHandler] as functions of the byte stream, with the
    deframer, the input buffer and their indices gone; from which it follows that they
    terminate and that the outcome does not depend on how the stream was cut into
    reads. *)
From stdpp Require Import gmap.
From S2P Require Import Prelude Enums Errors Codec Records Fragmenter Deframer Extensions Payloads.
From S2P Require Import ServerHello ClientHello Messages Send Receive ReceiveSpec InputBuffer Connection.

(** ** State machines and the deframer *)

Section frame.
Context {D E K X : Type}.
Notation Out := (Output.t D E K X).

Definition set_deframer (d : Deframer.t) (out : Out) : Out :=
  Output.with_recv (ReceivePath.with_deframer d (Output.recv out)) out.

(** An action that neither looks at the deframer nor changes it. *)
Definition framed {A} (m : action Out Error.t A) : Prop :=
  ∀ d out, m (set_deframer d out) = (set_deframer d (m out).1, (m out).2) ∧
    ReceivePath.deframer (Output.recv (m out).1) = ReceivePath.deframer (Output.recv out).
End frame.

(** An action that does not declare the end of the stream. *)
Definition stays_open {D E K X A} (m : action (Output.t D E K X) Error.t A) : Prop :=
  ∀ out, ReceivePath.has_received_close_notify (Output.recv (m out).1) =
         ReceivePath.has_received_close_notify (Output.recv out).

(** What the receive path relies on: the state machines leave the deframer and the end
    of the stream to it. *)
Class StateMachineLaws (St D E K X : Type) `{StateMachine St D E K X} : Prop := {
  handle_stays_open (st : St) i : stays_open (handle st i);
  handle_without_input_stays_open (st : St) : stays_open (handle_without_input st);
  handle_framed (st : St) i : framed (handle st i);
  handle_without_input_framed (st : St) : framed (handle_without_input st);
}.

Create HintDb framed.

Section framed_lemmas.
Context {D E K X : Type}.
Notation Out := (Output.t D E K X).

Lemma framed_ret A (a : A) : framed (D:=D) (E:=E) (K:=K) (X:=X) (mret a).
Proof. done. Qed.
Lemma framed_fail A e : framed (D:=D) (E:=E) (K:=K) (X:=X) (fail (A:=A) e).
Proof. done. Qed.
Lemma framed_lift A (r : result Error.t A) : framed (D:=D) (E:=E) (K:=K) (X:=X) (lift r).
Proof. done. Qed.

Lemma framed_bind A B (m : action Out Error.t A) (f : A → action Out Error.t B) :
  framed m → (∀ a, framed (f a)) → framed (m ≫= f).
Proof.
  intros Hm Hf d out. unfold mbind, action_bind. destruct (Hm d out) as [-> H].
  destruct (m out) as [out' [a| |]]; cbn [fst snd] in *; [|done..].
  destruct (Hf a d out') as [-> H']. by rewrite H', H.
Qed.

Lemma framed_if A (b : bool) (m n : action Out Error.t A) :
  framed m → framed n → framed (if b then m else n).
Proof. by destruct b. Qed.
Lemma framed_decide A (P : Prop) `{Decision P} (m n : action Out Error.t A) :
  framed m → framed n → framed (if decide P then m else n).
Proof. by destruct (decide P). Qed.

Lemma framed_ignore_err A (m : action Out Error.t A) : framed m → framed (ignore_err m).
Proof.
  intros Hm d out. unfold ignore_err. destruct (Hm d out) as [-> H].
  destruct (m out) as [out' [| |]]; done.
Qed.

Lemma framed_on_send A (m : action (SendPath.t E K * list u8) Error.t A) :
  framed (D:=D) (X:=X) (Output.on_send m).
Proof. intros d out. unfold Output.on_send. cbn. by destruct (m _) as [[] ?]. Qed.

Lemma framed_on_sending A (m : action (SendPath.t E K * list u8) Error.t A) :
  framed (D:=D) (X:=X) (Output.on_sending m).
Proof. intros d out. unfold Output.on_sending, Output.on_send. cbn. by destruct (m _) as [[] ?]. Qed.

Lemma framed_gets_recv A (f : ReceivePath.t D → action Out Error.t A) :
  (∀ d self, f (ReceivePath.with_deframer d self) = f self) → (∀ self, framed (f self)) →
  framed (self ← gets Output.recv; f self).
Proof.
  intros He Hf d out. unfold mbind, action_bind, gets. cbn [set_deframer Output.with_recv Output.recv].
  rewrite He. apply (Hf (Output.recv out)).
Qed.

Definition path_framed {A} (m : action (ReceivePath.t D) Error.t A) : Prop :=
  ∀ d self, m (ReceivePath.with_deframer d self) = (ReceivePath.with_deframer d (m self).1, (m self).2) ∧
    ReceivePath.deframer (m self).1 = ReceivePath.deframer self.

Lemma framed_on_recv A (m : action (ReceivePath.t D) Error.t A) :
  path_framed m → framed (E:=E) (K:=K) (X:=X) (Output.on_recv m).
Proof.
  intros Hm d out. unfold Output.on_recv. destruct (Hm d (Output.recv out)) as [Hd H].
  cbn [set_deframer Output.with_recv Output.recv]. rewrite Hd. by destruct (m (Output.recv out)).
Qed.

Lemma drop_tls13_ccs_framed r : path_framed (ReceivePath.drop_tls13_ccs r).
Proof.
  intros d self. unfold ReceivePath.drop_tls13_ccs. cbn.
  destruct (_ || _); [done|]. destruct (negb _); [done|]. by destruct (TemperCounters.received_tls13_change_cipher_spec _).
Qed.

Lemma process_alert_framed a : path_framed (ReceivePath.process_alert a).
Proof.
  intros d self. unfold ReceivePath.process_alert. cbn.
  destruct (negb _); [done|]. destruct (_ && _); [done|]. case_decide; [|done].
  by destruct (TemperCounters.received_warning_alert _).
Qed.
End framed_lemmas.

#[export] Hint Resolve framed_on_recv drop_tls13_ccs_framed process_alert_framed : framed.


#[export] Hint Resolve framed_ret framed_fail framed_lift framed_bind framed_if framed_decide : framed.
#[export] Hint Resolve framed_ignore_err framed_on_send framed_on_sending : framed.

Lemma try_from_alert `{!PkiTypes} r m a :
  Message.try_from r = Ok m → Message.payload m = MessagePayload.Alert a → Record_.typ r = ContentType.Alert.
Proof.
  unfold Message.try_from. intros (p & Hp & [= <-])%result_bind_ok. cbn [Message.payload]. intros ->.
  unfold MessagePayload.new in Hp. repeat case_decide; try done; unfold mbind, result_bind in Hp;
    by repeat case_match; simplify_eq.
Qed.

Section dispatch_framed.
Context {St D E K X : Type} `{!StateMachine St D E K X, !StateMachineLaws St D E K X}.
Context `{!RecordDecrypter D, !RecordEncrypter E, !TrafficSend K E, !PkiTypes}.

Lemma maybe_send_fatal_alert_framed e : framed (D:=D) (E:=E) (K:=K) (X:=X) (maybe_send_fatal_alert e).
Proof. unfold maybe_send_fatal_alert. destruct (alert_of_error e); auto with framed. Qed.
Hint Resolve maybe_send_fatal_alert_framed : framed.

Lemma reject_framed m : framed (D:=D) (E:=E) (K:=K) (X:=X) (reject_renegotiation_request m).
Proof.
  unfold reject_renegotiation_request. apply framed_gets_recv; [done|]. intros self.
  apply framed_if; [auto with framed|]. apply framed_decide; [auto with framed|].
  apply framed_bind; [|auto with framed]. apply framed_on_recv. intros d s. cbn.
  by destruct (TemperCounters.received_renegotiation_request _).
Qed.
Hint Resolve reject_framed : framed.

Lemma receive_record_framed r aligned :
  framed (D:=D) (E:=E) (K:=K) (X:=X) (receive_record r aligned).
Proof.
  unfold receive_record. apply framed_bind; [auto with framed|]. intros []; [auto with framed|].
  apply framed_bind; [auto with framed|]. intros m.
  destruct (Message.payload m); auto with framed.
Qed.
Hint Resolve receive_record_framed : framed.

Lemma report_framed A (m : action (Output.t D E K X) Error.t A) : framed m → framed (report m).
Proof.
  intros Hm d out. unfold report. destruct (Hm d out) as [-> Hk].
  destruct (m out) as [out' [a|e|]]; cbn [fst snd] in *; [done| |done].
  assert (framed (_ ← ignore_err (maybe_send_fatal_alert e); fail (A:=A) e)) as Hr
    by auto with framed.
  destruct (Hr d out') as [-> Hk']. by rewrite Hk', Hk.
Qed.
Hint Resolve report_framed : framed.

Lemma dispatch_framed mode (st : St) record aligned :
  framed (MessageIter.dispatch mode st record aligned).
Proof.
  unfold MessageIter.dispatch. apply framed_bind; [auto with framed|]. intros _.
  apply framed_if; [auto with framed|]. apply framed_bind.
  - apply report_framed, framed_bind; [auto with framed|]. intros []; [apply handle_framed|auto with framed].
  - intros st'. apply framed_if; [apply report_framed, handle_without_input_framed|auto with framed].
Qed.

(** Only an alert ends the stream. *)
Lemma stays_open_bind A B (m : action (Output.t D E K X) Error.t A) (f : A → action _ Error.t B) :
  stays_open m → (∀ a, stays_open (f a)) → stays_open (m ≫= f).
Proof.
  intros Hm Hf out. unfold mbind, action_bind. specialize (Hm out).
  destruct (m out) as [out' [a| |]]; cbn [fst] in *; [by rewrite Hf|done..].
Qed.

Lemma stays_open_on_send A (m : action (SendPath.t E K * list u8) Error.t A) :
  stays_open (D:=D) (X:=X) (Output.on_send m).
Proof. intros out. unfold Output.on_send. by destruct (m _) as [[] ?]. Qed.

Lemma stays_open_on_sending A (m : action (SendPath.t E K * list u8) Error.t A) :
  stays_open (D:=D) (X:=X) (Output.on_sending m).
Proof. intros out. unfold Output.on_sending, Output.on_send. by destruct (m _) as [[] ?]. Qed.

Lemma stays_open_ignore A (m : action (Output.t D E K X) Error.t A) :
  stays_open m → stays_open (ignore_err m).
Proof. intros Hm out. unfold ignore_err. specialize (Hm out). by destruct (m out) as [? [| |]]. Qed.

Lemma stays_open_fatal e : stays_open (D:=D) (E:=E) (K:=K) (X:=X) (maybe_send_fatal_alert e).
Proof. unfold maybe_send_fatal_alert. by destruct (alert_of_error e); [apply stays_open_on_sending|]. Qed.

Lemma stays_open_report A (m : action (Output.t D E K X) Error.t A) : stays_open m → stays_open (report m).
Proof.
  intros Hm out. unfold report. specialize (Hm out). destruct (m out) as [out' [a|e|]]; cbn [fst] in *; [done| |done].
  rewrite <-Hm. apply (stays_open_bind _ _ _ (λ _, fail e)); [|done]. apply stays_open_ignore, stays_open_fatal.
Qed.

Lemma stays_open_record r aligned :
  Record_.typ r ≠ ContentType.Alert → stays_open (D:=D) (E:=E) (K:=K) (X:=X) (receive_record r aligned).
Proof.
  intros Ht. unfold receive_record. apply stays_open_bind.
  { case_decide; [|done]. intros out. unfold Output.on_recv, ReceivePath.drop_tls13_ccs.
    destruct (_ || _); [done|]. destruct (negb _); [done|].
    by destruct (TemperCounters.received_tls13_change_cipher_spec _). }
  intros []; [done|]. intros out. unfold mbind at 1, action_bind at 1, lift.
  destruct (Message.try_from r) as [m|e|] eqn:Hm; cbn [map_err]; [|done..].
  assert (∀ a, Message.payload m ≠ MessagePayload.Alert a) as Hna by (intros a Ha; by apply Ht; eapply try_from_alert).
  assert (stays_open (D:=D) (E:=E) (K:=K) (X:=X) (reject_renegotiation_request m)) as Hr.
  { intros o. unfold reject_renegotiation_request. unfold mbind at 1, action_bind at 1, gets.
    destruct (_ || _); [done|]. case_decide; [done|]. apply stays_open_bind.
    - intros o'. unfold Output.on_recv. by destruct (TemperCounters.received_renegotiation_request _).
    - intros _. apply stays_open_bind; [apply stays_open_on_sending|done]. }
  destruct (Message.payload m); [by edestruct Hna|..];
    (apply (stays_open_bind _ _ _ _ Hr); by intros []).
Qed.

Lemma dispatch_stays_open mode (st : St) record aligned :
  Record_.typ (Decrypted.plaintext record) ≠ ContentType.Alert →
  stays_open (MessageIter.dispatch mode st record aligned).
Proof.
  intros Ht. unfold MessageIter.dispatch. apply stays_open_bind.
  { destruct (Decrypted.want_close_before_decrypt record); [|done]. apply stays_open_ignore, stays_open_on_sending. }
  intros _. destruct (_ && _).
  - apply stays_open_bind; [apply stays_open_ignore, stays_open_on_sending|done].
  - apply stays_open_bind.
    + apply stays_open_report, stays_open_bind; [by apply stays_open_record|].
      intros []; [apply handle_stays_open|done].
    + intros st'. destruct (_ && _); [|done]. apply stays_open_report, handle_without_input_stays_open.
Qed.
End dispatch_framed.

(** ** The stream behind a connection *)

Module StreamConn.
(** [output] has no deframer; [hs] and [wire] are the pending handshake messages and the
    unread bytes. *)
Record t (St D E K X : Type) := mk {
  state : result Error.t St;
  output : Output.t D E K X;
  hs : list (ProtocolVersion.t * list u8);
  wire : list u8;
}.
Arguments mk {St D E K X}.
Arguments state {St D E K X}.
Arguments output {St D E K X}.
Arguments hs {St D E K X}.
Arguments wire {St D E K X}.

Section methods.
Context {St D E K X : Type} `{!StateMachine St D E K X}.
Context `{!RecordDecrypter D, !RecordEncrypter E, !TrafficSend K E, !PkiTypes}.
Notation Out := (Output.t D E K X).
Notation Conn := (t St D E K X).

Definition closed (self : Conn) : bool :=
  ReceivePath.has_received_close_notify (Output.recv (output self)).

(** A turn of [MessageIter::next] on the stream, from the result of [deframe] on: it
    returns, or goes on.  Nothing is left of the stream after close_notify. *)
Definition after (mode : MessageIterMode.t) (early_only : bool) (st : St) (out : Out)
    (deframed : Stream.t D * result Error.t (option (Decrypted.t (list u8))))
    : (Conn * result Error.t (option Payload)) +
      (St * Out * list (ProtocolVersion.t * list u8) * list u8) :=
  let '(Stream.mk recv hs wire, res) := deframed in
  let out := Output.with_recv recv out in
  match res with
  | Panic => inl (mk (Err Error.HandshakeNotComplete) out hs wire, Panic)
  | Err e =>
      match ignore_err (maybe_send_fatal_alert e) out with
      | (out, Panic) => inl (mk (Err Error.HandshakeNotComplete) out hs wire, Panic)
      | (out, _) => inl (mk (Err e) (MessageIter.on_decrypt_error st e out) hs wire, Err e)
      end
  | Ok None => inl (mk (Ok st) out hs wire, Ok None)
  | Ok (Some record) =>
      match MessageIter.dispatch mode st record (bool_decide (hs = [])) out with
      | (out, Err e) => inl (mk (Err e) out hs wire, Err e)
      | (out, Panic) => inl (mk (Err Error.HandshakeNotComplete) out hs wire, Panic)
      | (out, Ok st) =>
          if ReceivePath.has_received_close_notify (Output.recv out)
          then inl (mk (Ok st) out [] [], Ok None)
          else
            let plaintext := Output.received out in
            let out := Output.with_received None out in
            match plaintext, early_only with
            | Some (DataKind.Traffic payload), false
            | Some (DataKind.Early payload), true => inl (mk (Ok st) out hs wire, Ok (Some payload))
            | _, _ =>
                if (early_only || bool_decide (mode = MessageIterMode.Handshake)) && is_traffic st
                then inl (mk (Ok st) out hs wire, Ok None)
                else inr (st, out, hs, wire)
            end
      end
  end.

Definition turn (mode : MessageIterMode.t) (early_only : bool) (st : St)
    (out : Out) (hs : list (ProtocolVersion.t * list u8)) (wire : list u8)
    : (Conn * result Error.t (option Payload)) +
      (St * Out * list (ProtocolVersion.t * list u8) * list u8) :=
  if negb (wants_input st) then inl (mk (Ok st) out hs wire, Ok None)
  else after mode early_only st out
         (Stream.deframe (length wire) false (Stream.mk (Output.recv out) hs wire)).

Fixpoint next_loop (fuel : nat) (mode : MessageIterMode.t) (early_only : bool) (st : St)
    (out : Out) (hs : list (ProtocolVersion.t * list u8)) (wire : list u8)
    : option (Conn * result Error.t (option Payload)) :=
  match fuel with
  | O => None
  | S fuel =>
      match turn mode early_only st out hs wire with
      | inl res => Some res
      | inr (st, out, hs, wire) => next_loop fuel mode early_only st out hs wire
      end
  end.

(** The bytes that are left: each message takes some. *)
Definition size (hs : list (ProtocolVersion.t * list u8)) (wire : list u8) : nat :=
  length (concat hs.*2) + length wire.

Definition next (mode : MessageIterMode.t) (early_only : bool) : action Conn Error.t (option Payload) :=
  λ self,
  match state self with
  | Err e => (self, Err e)
  | Panic => (self, Panic)
  | Ok st =>
      default (self, Panic)
        (next_loop (S (size (hs self) (wire self))) mode early_only st
           (Output.with_received None (output self)) (hs self) (wire self))
  end.

(** [handle_all]: the payloads, one after the other, and how it ends. *)
Fixpoint handle_loop (fuel : nat) (self : Conn) (buf : list u8)
    : option (Conn * list u8 * result Error.t unit) :=
  match next MessageIterMode.All false self with
  | (self, Ok (Some payload)) =>
      match fuel with
      | O => None
      | S fuel => handle_loop fuel self (buf ++ payload)
      end
  | (self, Ok None) => Some (self, buf, Ok tt)
  | (self, Err e) => Some (self, buf, Err e)
  | (self, Panic) => Some (self, buf, Panic)
  end.

Definition handle_all : action (Conn * list u8) Error.t IoState.t := λ '(self, buf),
  match handle_loop (size (hs self) (wire self)) self buf with
  | None => ((self, buf), Panic)
  | Some (self, buf, r) => ((self, buf), (λ _, IoState.new (Output.recv (output self))) <$> r)
  end.
End methods.
End StreamConn.

(** ** Termination *)

Section total.
Context {St D E K X : Type} `{!StateMachine St D E K X}.
Context `{!RecordDecrypter D, !RecordDecrypterLaws D, !RecordEncrypter E, !TrafficSend K E, !PkiTypes}.
Notation Conn := (StreamConn.t St D E K X).

Definition conn_size (s : Conn) : nat := StreamConn.size (StreamConn.hs s) (StreamConn.wire s).

(** A turn that goes on has taken bytes, and so has one that hands out data, which it
    does only of an open stream. *)
Lemma stream_turn_size mode early st (out : Output.t D E K X) hs wire :
  match StreamConn.turn (St:=St) mode early st out hs wire with
  | inl (s, Ok (Some _)) => conn_size s < StreamConn.size hs wire ∧ StreamConn.closed s = false
  | inl _ => True
  | inr (st', out', hs', wire') => StreamConn.size hs' wire' < StreamConn.size hs wire
  end.
Proof.
  unfold StreamConn.turn, StreamConn.after. destruct (negb (wants_input st)); [done|].
  pose proof (stream_deframe_size (length wire) false (Stream.mk (Output.recv out) hs wire)) as Hsz.
  destruct (Stream.deframe (length wire) false _) as [[recv hs1 wire1] [[record|]|e|]]; [|done| |done].
  2: { by destruct (ignore_err _ _) as [? [| |]]. }
  specialize (Hsz _ _ eq_refl) as [Hsz _].
  destruct (MessageIter.dispatch _ _ _ _ _) as [out2 [st2|e|]]; [|done..].
  destruct (ReceivePath.has_received_close_notify _) eqn:Hc; [done|].
  destruct (Output.received out2) as [[]|], early; try (by split); by destruct (_ && _).
Qed.

(** The loop ends, whatever the fuel beyond the size. *)
Lemma stream_next_total mode early st (out : Output.t D E K X) hs wire :
  ∃ s r, (∀ fuel, StreamConn.size hs wire < fuel →
    StreamConn.next_loop (St:=St) fuel mode early st out hs wire = Some (s, r)) ∧
    match r with
    | Ok (Some _) => conn_size s < StreamConn.size hs wire ∧ StreamConn.closed s = false
    | _ => True
    end.
Proof.
  remember (StreamConn.size hs wire) as n eqn:Hn. revert st out hs wire Hn.
  induction n as [n IH] using lt_wf_ind. intros st out hs wire Hn.
  pose proof (stream_turn_size mode early st out hs wire) as Ht.
  destruct (StreamConn.turn mode early st out hs wire) as [[s r]|[[[st1 out1] hs1] wire1]] eqn:Hturn.
  - exists s, r. split.
    + intros [|f] Hf; [lia|]. cbn [StreamConn.next_loop]. by rewrite Hturn.
    + destruct r as [[]| |]; [|done..]. by rewrite Hn.
  - destruct (IH (StreamConn.size hs1 wire1) ltac:(lia) st1 out1 hs1 wire1 eq_refl) as (s & r & Hs & Hr).
    exists s, r. split.
    + intros [|f] Hf; [lia|]. cbn [StreamConn.next_loop]. rewrite Hturn. apply Hs. lia.
    + destruct r as [[]| |]; [|done..]. destruct Hr. split; [lia|done].
Qed.

Lemma stream_next_fuel mode early st (out : Output.t D E K X) hs wire f f' :
  StreamConn.size hs wire < f → StreamConn.size hs wire < f' →
  StreamConn.next_loop (St:=St) f mode early st out hs wire
  = StreamConn.next_loop f' mode early st out hs wire.
Proof.
  intros Hf Hf'. destruct (stream_next_total mode early st out hs wire) as (s & r & Hs & _).
  by rewrite !Hs.
Qed.

Lemma stream_next_size mode early (s s' : Conn) p :
  StreamConn.next mode early s = (s', Ok (Some p)) →
  conn_size s' < conn_size s ∧ StreamConn.closed s' = false.
Proof.
  unfold StreamConn.next. destruct (StreamConn.state s) as [st| |]; [|done..].
  destruct (stream_next_total mode early st (Output.with_received None (StreamConn.output s))
    (StreamConn.hs s) (StreamConn.wire s)) as (s1 & r & Hs & Hr).
  rewrite (Hs _ (Nat.lt_succ_diag_r _)). cbn [default]. intros [= -> ->]. done.
Qed.

Lemma stream_handle_total fuel (s : Conn) buf :
  conn_size s ≤ fuel → StreamConn.handle_loop fuel s buf ≠ None ∧
  ∀ fuel', conn_size s ≤ fuel' → StreamConn.handle_loop fuel' s buf = StreamConn.handle_loop fuel s buf.
Proof.
  revert s buf. induction fuel as [|fuel IH]; intros s buf Hf.
  - assert (∀ f, StreamConn.handle_loop f s buf = StreamConn.handle_loop 0 s buf ∧ StreamConn.handle_loop f s buf ≠ None) as Hz.
    { intros f. destruct f; cbn [StreamConn.handle_loop];
        destruct (StreamConn.next MessageIterMode.All false s) as [s' [[p|]|e|]] eqn:Hn; try done;
        apply stream_next_size in Hn as [? _]; lia. }
    split; [apply Hz|]. intros f _. apply Hz.
  - cbn [StreamConn.handle_loop].
    destruct (StreamConn.next MessageIterMode.All false s) as [s' [[p|]|e|]] eqn:Hn.
    2-4: (split; [done|]; intros [|f] _; cbn [StreamConn.handle_loop]; by rewrite Hn).
    apply stream_next_size in Hn as Hsz. destruct Hsz as [Hsz _].
    destruct (IH s' (buf ++ p) ltac:(lia)) as [H1 H2]. split; [done|].
    intros [|f] Hf'; [lia|]. cbn [StreamConn.handle_loop]. rewrite Hn. apply H2. lia.
Qed.
End total.

(** ** More bytes *)

Section more.
Context {St D E K X : Type} `{!StateMachine St D E K X}.
Context `{!RecordDecrypter D, !RecordDecrypterLaws D, !RecordEncrypter E, !TrafficSend K E, !PkiTypes}.
Notation Conn := (StreamConn.t St D E K X).
Notation Out := (Output.t D E K X).
Notation all := MessageIterMode.All.

Definition conn_feed (more : list u8) (s : Conn) : Conn :=
  StreamConn.mk (StreamConn.state s) (StreamConn.output s) (StreamConn.hs s) (StreamConn.wire s ++ more).

Definition fresh (out : Out) : Prop :=
  ReceivePath.has_received_close_notify (Output.recv out) = false ∧ Output.received out = None.

Lemma stream_turn_feed more st (out : Out) hs wire :
  fresh out →
  match StreamConn.turn (St:=St) all false st out hs wire with
  | inl (s, Ok None) =>
      if StreamConn.closed s
      then StreamConn.turn all false st out hs (wire ++ more) = inl (s, Ok None)
      else ∃ st', StreamConn.state s = Ok st' ∧ fresh (StreamConn.output s) ∧
        StreamConn.turn all false st out hs (wire ++ more)
        = StreamConn.turn all false st' (StreamConn.output s) (StreamConn.hs s) (StreamConn.wire s ++ more)
  | inl (s, r) => StreamConn.turn all false st out hs (wire ++ more) = inl (conn_feed more s, r)
  | inr (st', out', hs', wire') => fresh out' ∧
      StreamConn.turn all false st out hs (wire ++ more) = inr (st', out', hs', wire' ++ more)
  end.
Proof.
  intros [Hcl Hrec]. unfold StreamConn.turn. destruct (negb (wants_input st)) eqn:Hw.
  { unfold StreamConn.closed. cbn [StreamConn.output]. rewrite Hcl. exists st. rewrite Hw. by split_and!. }
  pose proof (stream_deframe_feed more (length wire) (length (wire ++ more))) as Hfeed.
  pose proof (stream_deframe_open (length wire) false (Stream.mk (Output.recv out) hs wire)) as Hfl.
  specialize (Hfeed false (Stream.mk (Output.recv out) hs wire)).
  unfold stream_feed in Hfeed. cbn [Stream.wire Stream.path Stream.hs] in Hfeed, Hfl.
  destruct (Stream.deframe (length wire) false _) as [[recv hs1 wire1] res] eqn:Hdf.
  cbn [fst snd Stream.wire Stream.path Stream.hs] in Hfeed, Hfl.
  specialize (Hfeed (le_n _) ltac:(rewrite length_app; lia)).
  destruct res as [[record|]|e|].
  - rewrite Hfeed. cbn [StreamConn.after].
    destruct (MessageIter.dispatch _ _ _ _ _) as [out2 [st2|e|]]; [|done..].
    destruct (ReceivePath.has_received_close_notify (Output.recv out2)) eqn:Hc2;
      [unfold StreamConn.closed; cbn; by rewrite Hc2|].
    by destruct (Output.received out2) as [[]|].
  - cbn [StreamConn.after]. unfold StreamConn.closed. cbn [StreamConn.output Output.recv Output.with_recv].
    rewrite Hfl, Hcl. exists st. split; [done|]. cbn [StreamConn.output StreamConn.hs StreamConn.wire].
    split; [by split; [cbn; congruence|]|]. by rewrite Hw, (Hfeed (length (wire1 ++ more))) by (rewrite length_app; lia).
  - rewrite Hfeed. cbn [StreamConn.after].
    by destruct (ignore_err _ _) as [? [| |]].
  - by rewrite Hfeed.
Qed.

Lemma stream_next_loop_feed more st (out : Out) hs wire fuel fuel' :
  fresh out → StreamConn.size hs wire < fuel → StreamConn.size hs (wire ++ more) < fuel' →
  match StreamConn.next_loop (St:=St) fuel all false st out hs wire with
  | Some (s, Ok None) =>
      if StreamConn.closed s
      then StreamConn.next_loop fuel' all false st out hs (wire ++ more) = Some (s, Ok None)
      else ∃ st', StreamConn.state s = Ok st' ∧ fresh (StreamConn.output s) ∧
        ∀ fuel1, StreamConn.size (StreamConn.hs s) (StreamConn.wire s ++ more) < fuel1 →
        StreamConn.next_loop fuel' all false st out hs (wire ++ more)
        = StreamConn.next_loop fuel1 all false st' (StreamConn.output s) (StreamConn.hs s) (StreamConn.wire s ++ more)
  | Some (s, r) =>
      StreamConn.next_loop fuel' all false st out hs (wire ++ more) = Some (conn_feed more s, r)
  | None => False
  end.
Proof.
  revert st out hs wire fuel'. induction fuel as [|fuel IH]; intros st out hs wire fuel' Hfr Hf Hf'; [lia|].
  destruct fuel' as [|fuel']; [lia|]. cbn [StreamConn.next_loop].
  pose proof (stream_turn_feed more st out hs wire Hfr) as Ht.
  pose proof (stream_turn_size all false st out hs wire) as Hsz.
  destruct (StreamConn.turn all false st out hs wire) as [[s [[p|]|e|]]|[[[st1 out1] hs1] wire1]].
  - by rewrite Ht.
  - destruct (StreamConn.closed s); [by rewrite Ht|]. destruct Ht as (st' & Hst & Hfr' & Ht).
    exists st'. split_and!; [done..|]. intros [|fuel1] Hf1; [lia|]. cbn [StreamConn.next_loop]. rewrite Ht.
    pose proof (stream_turn_size all false st out hs (wire ++ more)) as Hsz1. rewrite Ht in Hsz1.
    pose proof (stream_turn_size all false st' (StreamConn.output s) (StreamConn.hs s) (StreamConn.wire s ++ more)) as Hsz2.
    destruct (StreamConn.turn all false st' _ _ _) as [|[[[st2 out2] hs2] wire2]]; [done|].
    apply stream_next_fuel; lia.
  - by rewrite Ht.
  - by rewrite Ht.
  - destruct Ht as [Hfr' Ht]. pose proof (stream_turn_size all false st out hs (wire ++ more)) as Hsz1.
    rewrite Ht in Hsz1 |- *. apply IH; [done|lia..].
Qed.

(** The outcome of [next] with more bytes in the stream. *)
Lemma stream_next_feed more (s : Conn) :
  StreamConn.closed s = false →
  match StreamConn.next all false s with
  | (s1, Ok None) =>
      if StreamConn.closed s1 then StreamConn.next all false (conn_feed more s) = (s1, Ok None)
      else StreamConn.next all false (conn_feed more s) = StreamConn.next all false (conn_feed more s1)
  | (s1, r) => StreamConn.next all false (conn_feed more s) = (conn_feed more s1, r)
  end.
Proof.
  intros Hc. unfold StreamConn.next. cbn [conn_feed StreamConn.state StreamConn.output StreamConn.hs StreamConn.wire].
  destruct (StreamConn.state s) as [st|e|]; [|done..].
  opose proof (stream_next_loop_feed more st (Output.with_received None (StreamConn.output s)) (StreamConn.hs s)
    (StreamConn.wire s) _ (S (StreamConn.size (StreamConn.hs s) (StreamConn.wire s ++ more))) _
    (Nat.lt_succ_diag_r _) (Nat.lt_succ_diag_r _)) as Hn; [by split|].
  destruct (StreamConn.next_loop _ all false st _ (StreamConn.hs s) (StreamConn.wire s)) as [[s1 [[p|]|e|]]|];
    [by rewrite Hn| |by rewrite Hn..|done].
  cbn [from_option]. unfold id at 1. cbv beta iota.
  destruct (StreamConn.closed s1); [by rewrite Hn|]. destruct Hn as (st' & -> & [Hcl Hrec] & Hn).
  assert (Output.with_received None (StreamConn.output s1) = StreamConn.output s1) as ->
    by (by destruct (StreamConn.output s1); cbn in Hrec; subst).
  rewrite (Hn _ (Nat.lt_succ_diag_r _)).
  destruct (stream_next_total all false st' (StreamConn.output s1) (StreamConn.hs s1)
    (StreamConn.wire s1 ++ more)) as (s2 & r2 & Hs2 & _). by rewrite (Hs2 _ (Nat.lt_succ_diag_r _)).
Qed.

Lemma conn_feed_nil (s : Conn) : conn_feed [] s = s.
Proof. destruct s. unfold conn_feed. cbn. by rewrite app_nil_r. Qed.

Lemma size_feed more (s : Conn) : conn_size (conn_feed more s) = conn_size s + length more.
Proof. unfold conn_size, StreamConn.size. cbn. rewrite length_app. lia. Qed.

Lemma stream_handle_eq fuel (s : Conn) buf :
  StreamConn.handle_loop fuel s buf =
    match StreamConn.next all false s with
    | (s, Ok (Some payload)) =>
        match fuel with O => None | S fuel => StreamConn.handle_loop fuel s (buf ++ payload) end
    | (s, Ok None) => Some (s, buf, Ok tt)
    | (s, Err e) => Some (s, buf, Err e)
    | (s, Panic) => Some (s, buf, Panic)
    end.
Proof. by destruct fuel. Qed.

(** Handling a stream and then what comes after it. *)
Lemma stream_handle_feed more (s : Conn) buf fuel fuel' :
  StreamConn.closed s = false → conn_size s ≤ fuel → conn_size s + length more ≤ fuel' →
  match StreamConn.handle_loop fuel s buf with
  | Some (s1, buf1, Ok _) =>
      if StreamConn.closed s1
      then StreamConn.handle_loop fuel' (conn_feed more s) buf = Some (s1, buf1, Ok tt)
      else ∀ fuel1, conn_size s1 + length more ≤ fuel1 →
        StreamConn.handle_loop fuel' (conn_feed more s) buf
        = StreamConn.handle_loop fuel1 (conn_feed more s1) buf1
  | Some (s1, buf1, r) =>
      StreamConn.handle_loop fuel' (conn_feed more s) buf = Some (conn_feed more s1, buf1, r)
  | None => False
  end.
Proof.
  revert s buf fuel'. induction fuel as [fuel IH] using lt_wf_ind. intros s buf fuel' Hc Hf Hf'.
  rewrite (stream_handle_eq fuel), (stream_handle_eq fuel').
  pose proof (stream_next_feed more s Hc) as Hn. pose proof (size_feed more s) as Hsf.
  destruct (StreamConn.next all false s) as [s1 [[p|]|e|]] eqn:Hs; [..|by rewrite Hn|by rewrite Hn].
  - apply stream_next_size in Hs as [Hsz Hc1]. rewrite Hn.
    destruct fuel as [|fuel]; [lia|]. destruct fuel' as [|fuel']; [lia|]. apply IH; [lia|done|lia..].
  - destruct (StreamConn.closed s1); [by rewrite Hn|]. intros fuel1 Hf1. rewrite (stream_handle_eq fuel1), <-Hn.
    pose proof (size_feed more s1) as Hsf1.
    destruct (StreamConn.next all false (conn_feed more s)) as [s2 [[p|]|e|]] eqn:Hs2; [|done..].
    apply stream_next_size in Hs2 as [Hsz2 _]. symmetry in Hn. apply stream_next_size in Hn as [Hsz1 _].
    destruct fuel' as [|fuel']; [lia|]. destruct fuel1 as [|fuel1]; [lia|].
    destruct (stream_handle_total fuel' s2 (buf ++ p) ltac:(lia)) as [_ Ht]. symmetry. apply Ht. lia.
Qed.
End more.

Lemma stream_handle_io {St D E K X : Type} `{!StateMachine St D E K X, !RecordDecrypter D, !RecordEncrypter E}
    `{!TrafficSend K E, !PkiTypes} (s s' : StreamConn.t St D E K X) buf buf' io :
  StreamConn.handle_all (s, buf) = ((s', buf'), Ok io) → IoState.peer_has_closed io = StreamConn.closed s'.
Proof.
  unfold StreamConn.handle_all. destruct (StreamConn.handle_loop _ s buf) as [[[s1 buf1] [| |]]|]; [|done..].
  by intros [= <- <- <-].
Qed.

(** ** Refinement *)

Section refine.
Context {I St D E K X : Type} `{!TlsInputBuffer I, !TlsInputBufferLaws I}.
Context `{!StateMachine St D E K X, !StateMachineLaws St D E K X}.
Context `{!RecordDecrypter D, !RecordDecrypterLaws D, !RecordEncrypter E, !TrafficSend K E, !PkiTypes}.
Notation Out := (Output.t D E K X).
Notation Iter := (MessageIter.t I St D E K X).
Notation SConn := (StreamConn.t St D E K X).

Definition deframer_of (out : Out) : Deframer.t := ReceivePath.deframer (Output.recv out).

(** The stream of an open connection. *)
Definition open (input : I) (out : Out) : Prop :=
  input_ok input ∧ settled (deframer_of out) (held input).

(** close_notify has been received, and what is in the buffer is to be discarded. *)
Definition closing (input : I) (out : Out) : Prop :=
  input_ok input ∧ Deframer.spans (deframer_of out) = [] ∧
  Deframer.too_large (deframer_of out) = false ∧
  Deframer.discard (deframer_of out) = length (held input) ∧
  Deframer.processed (deframer_of out) ≤ length (held input).

(** A connection and its stream, after a call that returned [r]. *)
Definition simulates {A} (it : Iter) (s : SConn) (r : result Error.t A) : Prop :=
  MessageIter.state it = StreamConn.state s ∧
  set_deframer Deframer.default (MessageIter.output it) = StreamConn.output s ∧
  let input := MessageIter.input it in
  let out := MessageIter.output it in
  match r with
  | Err _ => input_ok input ∧ Deframer.discard (deframer_of out) ≤ length (held input)
  | Panic => True
  | Ok _ =>
      (StreamConn.closed s = false ∧ StreamConn.hs s = vcontents (held input) (deframer_of out) ∧
       StreamConn.wire s = drop (Deframer.processed (deframer_of out)) (held input) ∧ open input out)
      ∨ (StreamConn.closed s = true ∧ StreamConn.hs s = [] ∧ StreamConn.wire s = [] ∧ closing input out)
  end.

Definition is_open (out : Out) : Prop :=
  ReceivePath.has_received_close_notify (Output.recv out) = false.

Ltac conn_simpl :=
  unfold deframer_of;
  cbn [MessageIter.input MessageIter.state MessageIter.output Output.recv Output.with_recv
    ReceivePath.deframer ReceivePath.with_deframer Deframer.set_discard Deframer.discard
    Deframer.processed Deframer.spans StreamConn.state StreamConn.output StreamConn.hs StreamConn.wire].

Lemma ignore_rest_refines st input out :
  open input out → Deframer.spans (deframer_of out) = [] →
  ReceivePath.has_received_close_notify (Output.recv out) = true →
  ∃ it, MessageIter.ignore_rest st input out = (it, Ok None) ∧
    simulates it (StreamConn.mk (Ok st) (set_deframer Deframer.default out) [] []) (Ok (None (A:=Payload))).
Proof.
  intros [Hi Hst] Hsp Hcl. unfold MessageIter.ignore_rest. fold (deframer_of out).
  pose proof (settled_discard _ _ Hst) as Hd.
  assert (Deframer.spans (Deframer.take_discard (deframer_of out)).1 = []) as Hsp'
    by (unfold Deframer.take_discard; by rewrite Hsp).
  destruct (Deframer.take_discard (deframer_of out)) as [d n]. destruct Hd as (Hn & Hst' & _).
  destruct (held_discard input n Hi Hn) as (input' & Hdi & Hh & Hi'). rewrite Hdi, bind_Ok_l.
  rewrite (slice_held _ Hi'). cbn [fmap result_fmap]. rewrite bind_Ok_l.
  destruct (held_closed _ Hi') as [Hc Hi'']. eexists. split; [done|].
  split; [done|]. split; [done|]. right. split_and!; [done..|].
  unfold closing. conn_simpl. rewrite Hc, Hh. split_and!; [done|done|apply Hst'|done|apply Hst'].
Qed.

Lemma on_decrypt_error_recv (st : St) e (out : Out) :
  Output.recv (MessageIter.on_decrypt_error st e out) = Output.recv out.
Proof. by destruct e. Qed.

Lemma on_decrypt_error_framed (st : St) e d (out : Out) :
  MessageIter.on_decrypt_error st e (set_deframer d out)
  = set_deframer d (MessageIter.on_decrypt_error st e out).
Proof. by destruct e. Qed.

Lemma next_loop_refines fuel mode early st input out :
  open input out → is_open out →
  match MessageIter.next_loop fuel mode early st input out,
        StreamConn.next_loop fuel mode early st (set_deframer Deframer.default out)
          (vcontents (held input) (deframer_of out))
          (drop (Deframer.processed (deframer_of out)) (held input)) with
  | Some (it, r), Some (s, r') => r = r' ∧ simulates it s r
  | None, None => True
  | _, _ => False
  end.
Proof.
  revert st input out. induction fuel as [|fuel IH]; intros st input out [Hi Hst] Hop; [done|].
  cbn [MessageIter.next_loop StreamConn.next_loop]. unfold StreamConn.turn, StreamConn.after.
  destruct (negb (wants_input st)).
  { split; [done|]. split; [done|]. split; [done|]. left. by split_and!. }
  rewrite (slice_held _ Hi).
  pose proof (deframe_refines (Output.recv out, held input) Hst) as Ha.
  pose proof (deframe_sized (D:=D) (length (held input)) (Output.recv out, held input) eq_refl) as Hl.
  pose proof (deframe_flagged (D:=D) false (Output.recv out, held input) Hop) as Hfl.
  pose proof (stream_deframe_size (D:=D) (length (Stream.wire (stream_of (Output.recv out, held input)))) false
    (stream_of (Output.recv out, held input))) as Hsz.
  change (Stream.mk (Output.recv (set_deframer Deframer.default out)) (vcontents (held input) (deframer_of out))
    (drop (Deframer.processed (deframer_of out)) (held input)))
    with (stream_of (Output.recv out, held input)).
  change (length (drop (Deframer.processed (deframer_of out)) (held input)))
    with (length (Stream.wire (stream_of (Output.recv out, held input)))).
  destruct (ReceivePath.deframe (Output.recv out, held input)) as [[recv buffer] r].
  destruct (Stream.deframe _ false _) as [S r']. destruct Ha as [Hr Ha]. unfold flagged in Hfl.
  cbn [fst snd] in Hr, Ha, Hl, Hfl. subst r'.
  destruct (held_write input buffer Hi Hl) as [Hh1 Hi1].
  destruct r as [o|e|]; [|..|done].
  2: { (* an error *)
    destruct Ha as [Hp Hdisc]. destruct S as [path hs wire]. cbn [Stream.path fst] in Hp. subst path.
    assert (framed (ignore_err (maybe_send_fatal_alert (D:=D) (E:=E) (K:=K) (X:=X) e))) as Hfr
      by (apply framed_ignore_err, maybe_send_fatal_alert_framed).
    destruct (Hfr Deframer.default (Output.with_recv recv out)) as [Heq Hdf].
    change (Output.with_recv (ReceivePath.with_deframer Deframer.default recv) (set_deframer Deframer.default out))
      with (set_deframer Deframer.default (Output.with_recv recv out)). rewrite Heq.
    revert Hdf. generalize (ignore_err (maybe_send_fatal_alert e) (Output.with_recv recv out)).
    intros [out' [|e'|]] Hdf; cbn [fst snd] in *; rewrite ?on_decrypt_error_framed; (split; [done|]);
      unfold simulates; (split_and!; [done..|]); try done; conn_simpl;
      rewrite Hh1, on_decrypt_error_recv, Hdf; done. }
  destruct Ha as [Hst1 <-]. unfold path_settled in Hst1. cbn [fst snd] in Hst1. cbn [stream_of] in Hsz |- *.
  destruct o as [record|].
  2: { split; [done|]. split; [done|]. split; [done|]. left. unfold open. conn_simpl. rewrite Hh1. by split_and!. }
  specialize (Hsz _ _ eq_refl) as [_ Hsz]. cbn [Stream.hs] in Hsz.
  assert (Deframer.aligned (ReceivePath.deframer recv)
    = bool_decide (vcontents buffer (ReceivePath.deframer recv) = [])) as <-.
  { unfold Deframer.aligned. rewrite (settled_active _ buffer) by done. apply negb_involutive. }
  set (aligned := Deframer.aligned _). 
  destruct (dispatch_framed mode st record aligned Deframer.default (Output.with_recv recv out)) as [Heq Hdf].
  pose proof (dispatch_stays_open mode st record aligned) as Hso.
  change (Output.with_recv (ReceivePath.with_deframer Deframer.default recv) (set_deframer Deframer.default out))
    with (set_deframer Deframer.default (Output.with_recv recv out)). rewrite Heq. clear Heq.
  specialize (λ H, Hso H (Output.with_recv recv out)). revert Hdf Hso.
  generalize (MessageIter.dispatch mode st record aligned (Output.with_recv recv out)).
  intros [out2 [st2|e|]] Hdf Hso; cbn [fst snd] in *; [|..|done].
  2: { split; [done|]. unfold simulates. conn_simpl. rewrite Hh1, Hdf. split_and!; try done.
       by apply settled_discard_le. }
  cbn [Output.recv Output.with_recv] in Hdf, Hso. rewrite Hfl in Hso.
  assert (open (write_slice buffer input) out2) as Hopen.
  { unfold open, deframer_of. rewrite Hh1, Hdf. done. }
  change (ReceivePath.has_received_close_notify (Output.recv (set_deframer Deframer.default out2)))
    with (ReceivePath.has_received_close_notify (Output.recv out2)).
  destruct (ReceivePath.has_received_close_notify (Output.recv out2)) eqn:Hcl.
  { destruct (ignore_rest_refines st2 (write_slice buffer input) out2) as (it & -> & Hsim); [done| |done|done].
    unfold deframer_of. rewrite Hdf. eapply fmap_nil_inv, Hsz. intros Ht.
    destruct (decide (Record_.typ (Decrypted.plaintext record) = ContentType.Alert)) as [Ha|Ha].
    - by rewrite Ha in Ht.
    - by specialize (Hso Ha). }
  change (Output.received (set_deframer Deframer.default out2)) with (Output.received out2).
  change (Output.with_received None (set_deframer Deframer.default out2))
    with (set_deframer Deframer.default (Output.with_received None out2)).
  specialize (IH st2 (write_slice buffer input) (Output.with_received None out2) Hopen Hcl).
  unfold deframer_of in IH. cbn [Output.recv Output.with_received] in IH. rewrite Hh1, Hdf in IH.
  assert (∀ p : option Payload, simulates
    (MessageIter.mk (write_slice buffer input) (Ok st2) (Output.with_received None out2))
    (StreamConn.mk (Ok st2) (set_deframer Deframer.default (Output.with_received None out2))
      (vcontents buffer (ReceivePath.deframer recv))
      (drop (Deframer.processed (ReceivePath.deframer recv)) buffer)) (Ok p)) as Hret.
  { intros p'. split; [done|]. split; [done|]. left. unfold open. conn_simpl. cbn [Output.with_received Output.recv].
    rewrite Hh1, Hdf. by split_and!. }
  destruct (Output.received out2) as [[pl|pl]|], early; cbn [orb]; try (by split);
    destruct (_ && is_traffic st2); try (by split); exact IH.
Qed.

(** ** Calls between which the input is not touched *)

(** An open connection and its stream. *)
Definition linked (it : Iter) (s : SConn) : Prop :=
  MessageIter.state it = StreamConn.state s ∧
  set_deframer Deframer.default (MessageIter.output it) = StreamConn.output s ∧
  StreamConn.hs s = vcontents (held (MessageIter.input it)) (deframer_of (MessageIter.output it)) ∧
  StreamConn.wire s =
    drop (Deframer.processed (deframer_of (MessageIter.output it))) (held (MessageIter.input it)) ∧
  open (MessageIter.input it) (MessageIter.output it).

Lemma settled_contents_size d buf :
  settled d buf → length (concat (contents buf d)) ≤ Deframer.processed d.
Proof.
  intros [Ho Hp _ _ _ _]. unfold contents.
  assert (∀ l lo, ordered lo l (Deframer.processed d) →
    lo + length (concat (content buf <$> l)) ≤ Deframer.processed d) as Hl.
  { induction l as [|s l IH]; intros lo; csimpl; [lia|]. intros [Hs Hl]. apply IH in Hl.
    rewrite length_app. unfold content at 1. rewrite length_slice by lia. lia. }
  apply Hl in Ho. lia.
Qed.

Lemma linked_size it s : linked it s → conn_size s ≤ length (held (MessageIter.input it)).
Proof.
  intros (_ & _ & Hh & Hw & _ & Hst). unfold conn_size, StreamConn.size. rewrite Hh, Hw, vcontents_snd, length_drop.
  pose proof (settled_contents_size _ _ Hst). pose proof (st_processed _ _ Hst). lia.
Qed.

Lemma next_refines mode early it s :
  linked it s → StreamConn.closed s = false →
  let '(it', r) := MessageIter.next mode early it in
  let '(s', r') := StreamConn.next mode early s in
  r = r' ∧ simulates it' s' r.
Proof.
  intros Hl Hc. pose proof (linked_size _ _ Hl) as Hsz. destruct Hl as (Hst & Hout & Hh & Hw & Hop).
  unfold MessageIter.next, StreamConn.next. rewrite <-Hst.
  destruct (MessageIter.state it) as [st|e|] eqn:Hs.
  3: { split; [done|]. unfold simulates. by rewrite Hs. }
  2: { split; [done|]. unfold simulates. rewrite Hs. split_and!; [done..|apply Hop|]. by apply settled_discard_le, Hop. }
  rewrite (slice_held _ (proj1 Hop)).
  opose proof (next_loop_refines (S (length (held (MessageIter.input it)))) mode early st (MessageIter.input it)
    (Output.with_received None (MessageIter.output it)) Hop _) as Hr.
  { unfold StreamConn.closed in Hc. by rewrite <-Hout in Hc. }
  change (set_deframer Deframer.default (Output.with_received None (MessageIter.output it)))
    with (Output.with_received None (set_deframer Deframer.default (MessageIter.output it))) in Hr.
  change (deframer_of (Output.with_received None (MessageIter.output it)))
    with (deframer_of (MessageIter.output it)) in Hr.
  rewrite Hout, <-Hh, <-Hw in Hr.
  destruct (stream_next_total mode early st (Output.with_received None (StreamConn.output s))
    (StreamConn.hs s) (StreamConn.wire s)) as (s1 & r1 & Htot & _).
  unfold conn_size in Hsz. rewrite Htot in Hr |- * by lia.
  by destruct (MessageIter.next_loop _ _ _ _ _ _) as [[it' r]|].
Qed.

(** Nothing is left of the input. *)
Definition ended (it : Iter) : Prop :=
  held (MessageIter.input it) = [] ∧ Deframer.spans (deframer_of (MessageIter.output it)) = [].

(** What is to be discarded is there. *)
Lemma settled_take_discard d buf :
  settled d buf →
  let '(d', n) := Deframer.take_discard d in
  n ≤ length buf ∧ settled d' (drop n buf) ∧ vcontents (drop n buf) d' = vcontents buf d ∧
  drop (Deframer.processed d') (drop n buf) = drop (Deframer.processed d) buf.
Proof.
  intros Hst. pose proof (settled_discard d buf Hst) as Hd. pose proof (ordered_le _ _ _ (st_ordered _ _ Hst)).
  unfold Deframer.take_discard in *. destruct Hd as (Hn & Hs & Hc). split_and!; [done..| |].
  - apply vcontents_eq; [|done]. cbn [Deframer.spans]. by rewrite <-list_fmap_compose.
  - cbn [Deframer.processed]. rewrite drop_drop. f_equal. lia.
Qed.

Lemma drop_refines {A} it s (r : result Error.t A) :
  simulates it s r → r ≠ Panic →
  ∃ it', MessageHandler.drop it = Ok it' ∧ MessageIter.state it' = StreamConn.state s ∧
    set_deframer Deframer.default (MessageIter.output it') = StreamConn.output s ∧
    (is_ok r = true → linked it' s ∧ (StreamConn.closed s = true → ended it')).
Proof.
  intros (Hst & Hout & Hr) Hnp. unfold MessageHandler.drop. fold (deframer_of (MessageIter.output it)).
  destruct r as [a|e|]; [|..|done]; cbv zeta in Hr.
  - destruct Hr as [(Hc & Hh & Hw & Hi & Hset)|(Hc & Hh & Hw & Hi & Hsp & Htl & Hdl & Hpl)].
    + pose proof (settled_take_discard _ _ Hset) as Hd. destruct (Deframer.take_discard _) as [d n].
      destruct Hd as (Hn & Hset' & Hv & Hdr). destruct (held_discard _ n Hi Hn) as (input' & -> & Hheld & Hi').
      rewrite bind_Ok_l. eexists. split; [done|]. split; [done|]. split; [done|]. intros _.
      split; [|by rewrite Hc]. unfold linked, open. conn_simpl. rewrite Hheld, Hv, Hdr. by split_and!.
    + destruct (held_discard _ (length (held (MessageIter.input it))) Hi (le_n _)) as (input' & Hdi & Hheld & Hi').
      unfold Deframer.take_discard. rewrite Hdl, Hdi, bind_Ok_l, Hsp.
      eexists. split; [done|]. split; [done|]. split; [done|]. intros _.
      rewrite drop_ge in Hheld by lia. split; [|by intros _]. unfold linked, open. conn_simpl. rewrite Hheld, Hh, Hw.
      split_and!; try done; [by rewrite drop_nil|].
      constructor; cbn [Deframer.spans Deframer.discard Deframer.processed Deframer.too_large ordered length]; try done; [cbn; lia|unfold deframer_of in Hpl; lia].
  - destruct Hr as [Hi Hd]. unfold Deframer.take_discard.
    destruct (held_discard _ _ Hi Hd) as (input' & -> & _). rewrite bind_Ok_l. by eexists.
Qed.

Lemma handle_loop_refines fuel it s buf :
  linked it s → StreamConn.closed s = false →
  match MessageHandler.handle_loop fuel (MessageHandler.new it) buf, StreamConn.handle_loop fuel s buf with
  | Some (h, buf1, r), Some (s', buf2, r') =>
      buf1 = buf2 ∧ r = r' ∧ simulates (MessageHandler.iter h) s' r
  | None, None => True
  | _, _ => False
  end.
Proof.
  revert it s buf. induction fuel as [|fuel IH]; intros it s buf Hl Hc;
    cbn [MessageHandler.handle_loop StreamConn.handle_loop]; unfold MessageHandler.next_payload, MessageHandler.new;
    cbn [MessageHandler.done MessageHandler.iter];
    pose proof (next_refines MessageIterMode.All false it s Hl Hc) as Hn;
    destruct (MessageIter.next _ _ it) as [it' r], (StreamConn.next _ _ s) as [s' r'] eqn:Hs;
    destruct Hn as [<- Hsim]; destruct r as [[p|]|e|]; try done.
  apply stream_next_size in Hs as [_ Hc']. apply IH; [|done].
  destruct Hsim as (? & ? & [(? & ? & ? & ?)|(Hcl & _)]); [by split_and!|congruence].
Qed.

(** [handle_all] is a function of the stream, it ends, and it discards nothing that is
    not in the buffer. *)
Lemma handle_all_refines it s buf :
  linked it s → StreamConn.closed s = false →
  let '((it', buf1), r) := MessageHandler.handle_all (it, buf) in
  let '((s', buf2), r') := StreamConn.handle_all (s, buf) in
  r = r' ∧ buf1 = buf2 ∧
  (r ≠ Panic → MessageIter.state it' = StreamConn.state s' ∧
     set_deframer Deframer.default (MessageIter.output it') = StreamConn.output s') ∧
  (is_ok r = true → linked it' s' ∧ (StreamConn.closed s' = true → ended it')).
Proof.
  intros Hl Hc. unfold MessageHandler.handle_all, StreamConn.handle_all.
  pose proof (linked_size _ _ Hl) as Hsz. pose proof (proj1 (proj2 (proj2 (proj2 (proj2 Hl))))) as Hi.
  rewrite (slice_held _ Hi).
  pose proof (handle_loop_refines (length (held (MessageIter.input it))) it s buf Hl Hc) as Hh.
  destruct (stream_handle_total (conn_size s) s buf (le_n _)) as [Hnn Hfuel].
  rewrite Hfuel in Hh by done. fold (conn_size s).
  destruct (StreamConn.handle_loop (conn_size s) s buf) as [[[s' buf2] r']|]; [|done].
  destruct (MessageHandler.handle_loop _ _ _) as [[[h buf1] r]|]; [|done].
  destruct Hh as (<- & <- & Hsim). assert (r = Panic ∨ r ≠ Panic) as [->|Hnp] by (destruct r; auto); [done|].
  destruct (drop_refines _ _ _ Hsim Hnp) as (it' & -> & Hst & Hout & Hlink).
  replace (match r with Ok _ => _ | Err _ => _ | Panic => _ end)
    with ((it', buf1), (λ _, IoState.new (Output.recv (MessageIter.output it'))) <$> r) by (by destruct r).
  assert (IoState.new (Output.recv (MessageIter.output it')) = IoState.new (Output.recv (StreamConn.output s'))) as ->.
  { by rewrite <-Hout. }
  split_and!; [done..|]. intros Hok. apply Hlink. by destruct r.
Qed.

(** ** Reading in pieces *)

(** A connection that is in order and has not been closed by the peer. *)
Definition conn_ok (it : Iter) : Prop :=
  open (MessageIter.input it) (MessageIter.output it) ∧ is_open (MessageIter.output it).

Definition stream_of_conn (it : Iter) : SConn :=
  StreamConn.mk (MessageIter.state it) (set_deframer Deframer.default (MessageIter.output it))
    (vcontents (held (MessageIter.input it)) (deframer_of (MessageIter.output it)))
    (drop (Deframer.processed (deframer_of (MessageIter.output it))) (held (MessageIter.input it))).

Lemma conn_ok_linked it : conn_ok it → linked it (stream_of_conn it) ∧ StreamConn.closed (stream_of_conn it) = false.
Proof. intros [Hop Hc]. by split_and!. Qed.

Lemma linked_stream it s : linked it s → stream_of_conn it = s.
Proof. intros (Hst & Hout & Hh & Hw & _). destruct s. cbn in *. unfold stream_of_conn. by subst. Qed.

Section chunks.
Variable refill : list u8 → I → I.
Hypothesis refill_held : ∀ bs i, input_ok i → input_ok (refill bs i) ∧ held (refill bs i) = held i ++ bs.

(** The application reads some bytes and has them handled, until the peer has closed. *)
Fixpoint receive_all (chunks : list (list u8)) : action (Iter * list u8) Error.t unit :=
  match chunks with
  | [] => mret tt
  | chunk :: chunks =>
      _ ← modify (λ '(it, buf),
            (MessageIter.mk (refill chunk (MessageIter.input it)) (MessageIter.state it)
               (MessageIter.output it), buf));
      io ← MessageHandler.handle_all;
      if IoState.peer_has_closed io then mret tt else receive_all chunks
  end.

(** The same on the stream. *)
Fixpoint stream_receive (chunks : list (list u8)) : action (SConn * list u8) Error.t unit :=
  match chunks with
  | [] => mret tt
  | chunk :: chunks =>
      _ ← modify (λ '(s, buf), (conn_feed chunk s, buf));
      io ← StreamConn.handle_all;
      if IoState.peer_has_closed io then mret tt else stream_receive chunks
  end.

Lemma refill_linked it s chunk :
  linked it s →
  linked (MessageIter.mk (refill chunk (MessageIter.input it)) (MessageIter.state it) (MessageIter.output it))
    (conn_feed chunk s).
Proof.
  intros (Hst & Hout & Hh & Hw & Hi & Hset). destruct (refill_held chunk _ Hi) as [Hi' Hheld].
  destruct (settled_read _ _ chunk Hset) as [Hset' Hc].
  unfold linked, open. conn_simpl. cbn [conn_feed StreamConn.state StreamConn.output StreamConn.hs StreamConn.wire].
  rewrite Hheld. split_and!; try done.
  - rewrite Hh. symmetry. by apply vcontents_eq.
  - rewrite Hw. symmetry. apply drop_app_le. apply Hset.
Qed.

Lemma receive_all_refines chunks it s buf :
  linked it s → StreamConn.closed s = false →
  let '((it', buf1), r) := receive_all chunks (it, buf) in
  let '((s', buf2), r') := stream_receive chunks (s, buf) in
  r = r' ∧ buf1 = buf2 ∧
  (r ≠ Panic → MessageIter.state it' = StreamConn.state s' ∧
     set_deframer Deframer.default (MessageIter.output it') = StreamConn.output s') ∧
  (is_ok r = true → linked it' s').
Proof.
  revert it s buf. induction chunks as [|chunk chunks IH]; intros it s buf Hl Hc.
  { cbn. split_and!; try done. intros _. split; apply Hl. }
  cbn [receive_all stream_receive]. unfold mbind, action_bind, modify.
  pose proof (handle_all_refines _ _ buf (refill_linked _ _ chunk Hl) Hc) as Hh.
  destruct (MessageHandler.handle_all _) as [[it1 buf1] r], (StreamConn.handle_all _) as [[s1 buf2] r'] eqn:Hs.
  destruct Hh as (<- & <- & Hst & Hl1). destruct r as [io|e|].
  2: { split_and!; [done..| |done]. intros _. by apply Hst. }
  2: { by split_and!; [..|intros []|]. }
  destruct (IoState.peer_has_closed io) eqn:Hio.
  { split_and!; [done..| |by intros _; apply Hl1]. intros _. by apply Hst. }
  apply IH; [by apply Hl1|]. apply stream_handle_io in Hs. congruence.
Qed.

(** What the application gets does not depend on the pieces; nor does, without an
    error, what is left of the stream. *)
Definition outcome (x : (SConn * list u8) * result Error.t unit) :=
  (StreamConn.state x.1.1, StreamConn.output x.1.1, x.1.2, x.2,
   if is_ok x.2 then Some (StreamConn.hs x.1.1, StreamConn.wire x.1.1) else None).

Lemma stream_receive_concat chunk chunks s buf :
  StreamConn.closed s = false →
  outcome (stream_receive (chunk :: chunks) (s, buf)) = outcome (stream_receive [concat (chunk :: chunks)] (s, buf)).
Proof.
  revert chunk s buf. induction chunks as [|chunk' chunks IH]; intros chunk s buf Hc.
  { cbn [concat]. by rewrite app_nil_r. }
  cbn [stream_receive concat] in *. unfold mbind, action_bind, modify in *.
  assert (conn_feed (chunk ++ chunk' ++ concat chunks) s
    = conn_feed (chunk' ++ concat chunks) (conn_feed chunk s)) as ->
    by (unfold conn_feed; cbn; by rewrite (assoc_L (++))).
  set (more := chunk' ++ concat chunks) in *. set (s0 := conn_feed chunk s).
  pose proof (stream_handle_feed more s0 buf (conn_size s0) (conn_size (conn_feed more s0)) Hc (le_n _)
    ltac:(rewrite size_feed; lia)) as Hh.
  unfold StreamConn.handle_all at 1 3. fold (conn_size s0). fold (conn_size (conn_feed more s0)).
  destruct (StreamConn.handle_loop (conn_size s0) s0 buf) as [[[s1 buf1] [u|e|]]|]; [|by rewrite Hh..|done].
  cbn [fmap result_fmap IoState.new IoState.peer_has_closed]. fold (StreamConn.closed s1).
  destruct (StreamConn.closed s1) eqn:Hc1.
  { rewrite Hh. cbn [fmap result_fmap]. by destruct (IoState.peer_has_closed _). }
  rewrite IH by done. rewrite (Hh (conn_size (conn_feed more s1))) by (rewrite size_feed; lia).
  fold more. unfold StreamConn.handle_all. fold (conn_size (conn_feed more s1)).
  destruct (stream_handle_total _ (conn_feed more s1) buf1 (le_n _)) as [Hnn _].
  by destruct (StreamConn.handle_loop (conn_size (conn_feed more s1)) (conn_feed more s1) buf1) as [[[? ?] ?]|].
Qed.

(** Reading in pieces and reading at once: the same data, the same result, the same
    answers to the peer and the same state. *)
Lemma receive_all_concat chunk chunks it buf :
  conn_ok it →
  let '((it1, buf1), r1) := receive_all (chunk :: chunks) (it, buf) in
  let '((it2, buf2), r2) := receive_all [concat (chunk :: chunks)] (it, buf) in
  r1 = r2 ∧ buf1 = buf2 ∧
  (r1 ≠ Panic → MessageIter.state it1 = MessageIter.state it2 ∧
     set_deframer Deframer.default (MessageIter.output it1) =
     set_deframer Deframer.default (MessageIter.output it2)).
Proof.
  intros Hok. destruct (conn_ok_linked it Hok) as [Hl Hc].
  pose proof (receive_all_refines (chunk :: chunks) it _ buf Hl Hc) as H1.
  pose proof (receive_all_refines [concat (chunk :: chunks)] it _ buf Hl Hc) as H2.
  pose proof (stream_receive_concat chunk chunks (stream_of_conn it) buf Hc) as Hs. unfold outcome in Hs.
  destruct (receive_all (chunk :: chunks) _) as [[it1 buf1] r1], (receive_all [_] _) as [[it2 buf2] r2].
  destruct (stream_receive (chunk :: chunks) _) as [[s1 b1] q1], (stream_receive [_] _) as [[s2 b2] q2].
  cbn [fst snd] in Hs. destruct H1 as (-> & -> & H1 & _), H2 as (-> & -> & H2 & _). simplify_eq.
  split_and!; [done..|]. intros Hnp. destruct (H1 Hnp), (H2 Hnp). split; congruence.
Qed.
End chunks.
End refine.
