(* ===== verification/ConnectionInv.v ===== *)
(** * Connections over time

    The operations an application calls on a connection, in any order, with a
    [VecInput] between the transport and the connection: what holds of every state. *)
From stdpp Require Import gmap.
From S2P Require Import Prelude Enums Errors Codec Records Fragmenter Deframer Extensions Payloads.
From S2P Require Import ServerHello ClientHello Messages Send Receive ReceiveSpec InputBuffer Connection ConnectionSpec.

#[local] Existing Instances VecInput.input VecInput.laws.

(** ** The buffer *)

(** [Read::read] returns at most as many bytes as there is room for. *)
Definition fits_room {X} (rd : nat → result X (list u8)) : Prop :=
  ∀ n bs, rd n = Ok bs → length bs ≤ n.

(** Room is made at the end. *)
Lemma vec_prepare i :
  VecInput.ok i →
  let i' := (VecInput.prepare_read i).1 in
  VecInput.ok i' ∧ VecInput.received_close_notify i' = VecInput.received_close_notify i ∧
  VecInput.used i' = VecInput.used i ∧ held i' = held i.
Proof.
  intros Hok. unfold VecInput.prepare_read. case_decide as Hm; [by split_and!|].
  set (need := Nat.min _ _).
  assert (VecInput.used i ≤ need) as Hn by (unfold need; lia).
  assert (held (VecInput.mk (VecInput.resize need (VecInput.buf i)) (VecInput.used i)
    (VecInput.has_seen_eof i) (VecInput.received_close_notify i)) = held i) as Hh.
  { cbn. unfold VecInput.resize. rewrite take_app_le by (rewrite length_take; unfold VecInput.ok in Hok; lia).
    by rewrite take_take, Nat.min_l. }
  assert (VecInput.used i ≤ length (VecInput.resize need (VecInput.buf i))).
  { unfold VecInput.resize. rewrite length_app, length_take, length_replicate. lia. }
  case_decide; [by split_and!|]. case_decide; by split_and!.
Qed.

Lemma vec_prepare_result i : (VecInput.prepare_read i).2 ≠ Panic.
Proof. unfold VecInput.prepare_read. by repeat case_decide. Qed.

(** Reading adds to the end of the buffer, and does nothing once the peer has closed. *)
Lemma vec_read {X} (rd : nat → result X (list u8)) i :
  VecInput.ok i → fits_room rd →
  let i' := (VecInput.read rd i).1 in
  VecInput.ok i' ∧ VecInput.received_close_notify i' = VecInput.received_close_notify i ∧
  ∃ bs, held i' = held i ++ bs ∧ (VecInput.received_close_notify i = true → bs = []).
Proof.
  intros Hok Hrd. unfold VecInput.read.
  destruct (VecInput.received_close_notify i) eqn:Hc.
  { split_and!; [done..|]. exists []. by rewrite app_nil_r. }
  destruct (vec_prepare i Hok) as (Hok1 & Hc1 & Hu1 & Hh1).
  destruct (VecInput.prepare_read i) as [i1 [[]|[]|]]; cbn [fst] in *.
  2-3: split_and!; [done|congruence|]; exists []; by rewrite app_nil_r.
  rewrite decide_False by (unfold VecInput.ok in Hok1; lia).
  destruct (rd _) as [bs|e|] eqn:Hr; cbn [fst];
    [|split_and!; [done|congruence|]; exists []; by rewrite app_nil_r..].
  apply Hrd in Hr. unfold VecInput.ok in *. cbn [VecInput.used VecInput.buf VecInput.received_close_notify].
  rewrite !length_app, length_take, length_drop. split_and!; [lia|congruence|]. exists bs. split; [|done].
  rewrite <-Hh1. cbn. rewrite (assoc_L (++)), take_app_length'; [done|]. rewrite length_app, length_take. lia.
Qed.

Lemma vec_read_result {X} (rd : nat → result X (list u8)) i :
  VecInput.ok i → (∀ n, rd n ≠ Panic) → (VecInput.read rd i).2 ≠ Panic.
Proof.
  intros Hok Hrd. unfold VecInput.read. destruct (VecInput.received_close_notify i); [done|].
  destruct (vec_prepare i Hok) as (Hok1 & _). pose proof (vec_prepare_result i) as Hp.
  destruct (VecInput.prepare_read i) as [i1 [| |]]; [|done..]. cbn [fst] in Hok1.
  rewrite decide_False by (unfold VecInput.ok in Hok1; lia).
  specialize (Hrd (length (VecInput.buf i1) - VecInput.used i1)). by destruct (rd _).
Qed.

Lemma vec_discard n i : VecInput.ok i →
  ∃ i', discard_front n i = Ok i' ∧ VecInput.ok i' ∧
    VecInput.received_close_notify i' = VecInput.received_close_notify i.
Proof.
  intros Hok. cbn. unfold VecInput.discard. case_decide.
  - destruct (copy_within_spec (E:=Error.t) (VecInput.buf i) (mkRange n (VecInput.used i)) 0)
      as (b & -> & Hl & _); cbn [r_start r_end]; [unfold VecInput.ok in Hok; lia..|].
    eexists. split; [done|]. unfold VecInput.ok in *. cbn. split; [lia|done].
  - eexists. split; [done|]. unfold VecInput.ok. cbn. split; [lia|done].
Qed.

Section inv.
Context {St D E K X : Type} `{!StateMachine St D E K X, !StateMachineLaws St D E K X}.
Context `{!RecordDecrypter D, !RecordDecrypterLaws D, !RecordEncrypter E, !TrafficSend K E, !PkiTypes}.
Notation Out := (Output.t D E K X).
Notation Iter := (MessageIter.t VecInput.t St D E K X).
Notation SConn := (StreamConn.t St D E K X).

(** ** The invariant *)

(** The peer has closed, and the buffer knows. *)
Definition told (it : Iter) : Prop :=
  VecInput.received_close_notify (MessageIter.input it) = true ∧
  ReceivePath.has_received_close_notify (Output.recv (MessageIter.output it)) = true.

(** Then nothing is left to do. *)
Definition at_end (it : Iter) : Prop := ended it ∧ told it.

(** The buffer is in order; the deframer is consistent with what it holds, unless there
    has been an error; and nothing is left, nor will be read, once the peer has closed. *)
Definition sound (it : Iter) : Prop :=
  VecInput.ok (MessageIter.input it) ∧
  match MessageIter.state it with
  | Ok _ => open (MessageIter.input it) (MessageIter.output it) ∧
      (is_open (MessageIter.output it) ∨ at_end it)
  | Err _ => True
  | Panic => False
  end.

(** Within a call of [handle_all] or [process], after a message that gave [r]. *)
Definition sound_within {A} (it : Iter) (r : result Error.t (option A)) : Prop :=
  (r ≠ Panic → VecInput.ok (MessageIter.input it)) ∧
  match r with
  | Ok (Some _) => (∃ st, MessageIter.state it = Ok st) ∧ conn_ok it
  | Ok None => (∃ st, MessageIter.state it = Ok st) ∧
      (conn_ok it ∨ (closing (MessageIter.input it) (MessageIter.output it) ∧ told it))
  | Err e => MessageIter.state it = Err e
  | Panic => True
  end.

(** An error is what the connection remembers. *)
Lemma stream_next_err mode early (s s' : SConn) r :
  StreamConn.next mode early s = (s', r) →
  match r with
  | Ok _ => ∃ st, StreamConn.state s' = Ok st
  | Err e => StreamConn.state s' = Err e
  | Panic => True
  end.
Proof.
  unfold StreamConn.next. destruct (StreamConn.state s) as [st|e|] eqn:Hst; [|by intros [= <- <-]..].
  generalize (S (StreamConn.size (StreamConn.hs s) (StreamConn.wire s))) as fuel.
  generalize (Output.with_received None (StreamConn.output s)) (StreamConn.hs s) (StreamConn.wire s).
  intros out hs wire fuel. revert st out hs wire Hst.
  enough (∀ st out hs wire, match StreamConn.next_loop fuel mode early st out hs wire with
    | Some (s', Ok _) => ∃ st, StreamConn.state s' = Ok st
    | Some (s', Err e) => StreamConn.state s' = Err e
    | _ => True
    end) as Hl.
  { intros st out hs wire Hst. specialize (Hl st out hs wire).
    destruct (StreamConn.next_loop _ _ _ _ _ _) as [[s1 r1]|]; cbn [default]; intros [= <- <-]; [|done].
    by destruct r1. }
  induction fuel as [|fuel IH]; intros st out hs wire; [done|].
  cbn [StreamConn.next_loop]. unfold StreamConn.turn, StreamConn.after.
  destruct (negb _); [by eexists|].
  destruct (Stream.deframe _ _ _) as [[recv hs1 wire1] [[record|]|e|]]; [|by eexists| |done].
  2: { by destruct (ignore_err _ _) as [? [| |]]. }
  destruct (MessageIter.dispatch _ _ _ _ _) as [out2 [st2|e|]]; [|done..].
  destruct (ReceivePath.has_received_close_notify _); cbv iota; [by eexists|].
  destruct (Output.received out2) as [[]|], early; cbv iota; try (by eexists);
    destruct (_ && _); cbv iota; try (by eexists); apply IH.
Qed.

(** The buffer is told when the peer closes. *)
Lemma next_tells mode early it it' o :
  is_open (MessageIter.output it) → MessageIter.next mode early it = (it', Ok o) →
  is_open (MessageIter.output it') ∨ VecInput.received_close_notify (MessageIter.input it') = true.
Proof.
  unfold MessageIter.next. destruct (MessageIter.state it) as [st|e|]; [|done..].
  generalize (match slice_mut (MessageIter.input it) with Ok buffer => S (length buffer) | _ => 1 end) as fuel.
  intros fuel Hop. 
  assert (is_open (Output.with_received None (MessageIter.output it))) as Hop' by done. revert Hop'.
  generalize (Output.with_received None (MessageIter.output it)) (MessageIter.input it).
  intros out input. revert st input out.
  enough (∀ st input out, is_open out → match MessageIter.next_loop fuel mode early st input out with
    | Some (it', Ok _) => is_open (MessageIter.output it') ∨
        VecInput.received_close_notify (MessageIter.input it') = true
    | _ => True
    end) as Hl.
  { intros st input out Ho. specialize (Hl st input out Ho).
    destruct (MessageIter.next_loop _ _ _ _ _ _) as [[it1 r1]|]; cbn [default]; by intros [= <- ->]. }
  induction fuel as [|fuel IH]; intros st input out Ho; [done|].
  cbn [MessageIter.next_loop]. destruct (negb _); [by left|].
  destruct (slice_mut input) as [buffer|e|]; [|done..].
  pose proof (deframe_flagged (D:=D) false (Output.recv out, buffer) Ho) as Hfl. unfold flagged in Hfl.
  destruct (ReceivePath.deframe _) as [[recv buffer'] [[record|]|e|]]; [|by left| |done].
  2: { by destruct (ignore_err _ _) as [? [| |]]. }
  destruct (MessageIter.dispatch _ _ _ _ _) as [out2 [st2|e|]]; [|done..].
  destruct (ReceivePath.has_received_close_notify (Output.recv out2)) eqn:Hc.
  - unfold MessageIter.ignore_rest. destruct (Deframer.take_discard _) as [d n].
    destruct (discard_front n _) as [i2| |]; [|done..]. rewrite bind_Ok_l.
    destruct (slice_mut i2) as [b2| |]; [|done..]. cbn [fmap result_fmap]. rewrite bind_Ok_l. by right.
  - destruct (Output.received out2) as [[]|], early; try (by left); destruct (_ && _); try (by left); by apply IH.
Qed.

(** At the end, there is nothing to handle. *)
Lemma next_at_end mode early it st :
  MessageIter.state it = Ok st → open (MessageIter.input it) (MessageIter.output it) → at_end it →
  ∃ it', MessageIter.next mode early it = (it', Ok None) ∧ MessageIter.state it' = Ok st ∧
    open (MessageIter.input it') (MessageIter.output it') ∧ at_end it'.
Proof.
  intros Hst [Hi Hset] [[Hh Hsp] Hf]. unfold MessageIter.next. rewrite Hst, (slice_held _ Hi), Hh.
  cbn [length MessageIter.next_loop]. destruct (negb _); [eexists; by split_and!|].
  rewrite (slice_held _ Hi), Hh. rewrite Hh in Hset.
  pose proof (deframe_refines (Output.recv (Output.with_received None (MessageIter.output it)), []) Hset) as Ha.
  pose proof (deframe_sized (D:=D) 0 (Output.recv (Output.with_received None (MessageIter.output it)), []) eq_refl) as Hl.
  assert (Deframer.processed (deframer_of (MessageIter.output it)) = 0) as Hp0 by (pose proof (st_processed _ _ Hset) as Hp; cbn in Hp; lia).
  cbn [stream_of] in Ha. unfold vcontents in Ha. unfold deframer_of in Hsp, Hp0.
  cbn [Output.recv Output.with_received] in Ha, Hl |- *. rewrite Hsp, Hp0 in Ha.
  destruct (ReceivePath.deframe _) as [[recv buffer] r].
  rewrite stream_deframe_eq in Ha. cbn in Ha. destruct Ha as [Hr Ha]. cbn [fst snd] in Hr, Ha, Hl. subst r.
  destruct Ha as [Hset' Hs]. destruct buffer; [|done]. injection Hs as _ Hv _.
  destruct (held_write _ [] Hi) as [Hh' Hi']; [by rewrite Hh|].
  eexists. split; [done|]. split; [done|].
  unfold open, at_end, ended, told, deframer_of. cbn [MessageIter.input MessageIter.output]. rewrite Hh'.
  split_and!; [done..| |apply Hf|by rewrite <-(proj2 Hf)]. by eapply fmap_nil_inv.
Qed.

Lemma at_end_closing (it : Iter) :
  open (MessageIter.input it) (MessageIter.output it) → at_end it →
  closing (MessageIter.input it) (MessageIter.output it).
Proof.
  intros [Hi Hset] [[Hh Hsp] _]. pose proof (st_processed _ _ Hset) as Hp.
  pose proof (ordered_le _ _ _ (st_ordered _ _ Hset)) as Hd.
  unfold closing. rewrite Hh in Hp |- *. cbn [length] in *.
  split_and!; [done|done|apply Hset|lia|lia].
Qed.

Lemma next_sound mode early it :
  sound it →
  let '(it', r) := MessageIter.next mode early it in
  sound_within it' r ∧
  match r with
  | Ok (Some _) => conn_size (stream_of_conn it') < conn_size (stream_of_conn it)
  | _ => True
  end.
Proof.
  intros [Hi Hs]. destruct (MessageIter.state it) as [st|e|] eqn:Hst; [|..|done].
  2: { unfold MessageIter.next. by rewrite Hst. }
  destruct Hs as [Hop [Hc|He]].
  2: { destruct (next_at_end mode early it st Hst Hop He) as (it' & -> & Hst' & Hop' & He').
       split; [|done]. split; [intros _; apply Hop'|]. split; [by eexists|]. right.
       split; [by apply at_end_closing|apply He']. }
  destruct (conn_ok_linked it (conj Hop Hc)) as [Hl Hcl].
  pose proof (next_refines mode early it _ Hl Hcl) as Hn. pose proof (next_tells mode early it) as Ht.
  destruct (MessageIter.next mode early it) as [it' r], (StreamConn.next _ _ _) as [s' r'] eqn:Hs'.
  destruct Hn as [<- Hsim]. pose proof (stream_next_err _ _ _ _ _ Hs') as He.
  destruct Hsim as (Hst' & Hout & Hsim). cbv zeta in Hsim. destruct r as [o|e|]; [|..|done].
  2: { split; [|done]. split; [intros _; apply Hsim|congruence]. }
  destruct He as [st' He]. rewrite He in Hst'.
  destruct Hsim as [(Hcl' & Hh & Hw & Hop')|(Hcl' & Hh & Hw & Hcl2)].
  - assert (is_open (MessageIter.output it')) as Hopen.
    { unfold StreamConn.closed in Hcl'. by rewrite <-Hout in Hcl'. }
    destruct o as [p|]; (split; [split; [intros _; apply Hop'|]|]); [by split; [eexists|]| |split; [by eexists|]|done].
    + apply stream_next_size in Hs' as [Hsz _]. rewrite (linked_stream it' s'); [done|].
      split_and!; [congruence|done..].
    + by left.
  - destruct o as [p|]; [apply stream_next_size in Hs' as [_ ?]; congruence|].
    split; [|done]. split; [intros _; apply Hcl2|]. split; [by eexists|]. right. split; [done|].
    unfold StreamConn.closed in Hcl'. rewrite <-Hout in Hcl'. split; [|done].
    destruct (Ht it' None Hc eq_refl) as [Ho|Ho]; [|done]. unfold is_open in Ho. cbn in Hcl'. congruence.
Qed.

Lemma drop_tells (it it' : Iter) :
  VecInput.ok (MessageIter.input it) → MessageHandler.drop it = Ok it' →
  VecInput.ok (MessageIter.input it') ∧ MessageIter.state it' = MessageIter.state it ∧
  VecInput.received_close_notify (MessageIter.input it')
  = VecInput.received_close_notify (MessageIter.input it) ∧
  ReceivePath.has_received_close_notify (Output.recv (MessageIter.output it'))
  = ReceivePath.has_received_close_notify (Output.recv (MessageIter.output it)).
Proof.
  intros Hok. unfold MessageHandler.drop. destruct (Deframer.take_discard _) as [d n].
  destruct (vec_discard n _ Hok) as (i' & -> & Hok' & Hf). rewrite bind_Ok_l. by intros [= <-].
Qed.

Lemma drop_sound {A} (it : Iter) (r : result Error.t (option A)) :
  sound_within it r → r ≠ Panic →
  ∃ it', MessageHandler.drop it = Ok it' ∧ sound it' ∧ MessageIter.state it' = MessageIter.state it.
Proof.
  intros [Hok Hr] Hnp. specialize (Hok Hnp).
  destruct (decide (is_ok r = true)) as [Hisok|Hisok].
  2: { destruct r as [o|e|]; [done| |done]. unfold MessageHandler.drop at 1.
       destruct (Deframer.take_discard _) as [d n] eqn:Hd.
       destruct (vec_discard n _ Hok) as (i' & Hi' & Hok' & _). rewrite Hi', bind_Ok_l.
       eexists. split; [done|]. split; [|done]. split; [done|]. cbn [MessageIter.state]. by rewrite Hr. }
  assert (∃ st, MessageIter.state it = Ok st) as [st Hst] by (by destruct r as [[]| |]; destruct Hr).
  assert (conn_ok it ∨ (closing (MessageIter.input it) (MessageIter.output it) ∧ told it)) as Hcase.
  { destruct r as [[p|]| |]; [left|..|done|done]; apply Hr. }
  assert (∃ s, simulates it s r ∧ StreamConn.closed s
    = ReceivePath.has_received_close_notify (Output.recv (MessageIter.output it))) as (s & Hsim & Hc).
  { destruct Hcase as [Hco|[Hcl Ht]].
    - exists (stream_of_conn it). split; [|done]. destruct (conn_ok_linked it Hco) as [Hl Hc].
      split; [done|]. split; [done|]. destruct r; [|done..]. left. by split_and!; [..|apply Hco].
    - exists (StreamConn.mk (MessageIter.state it) (set_deframer Deframer.default (MessageIter.output it)) [] []).
      split; [|done]. split; [done|]. split; [done|]. destruct r; [|done..]. right. by split_and!; [apply Ht|..]. }
  destruct (drop_refines it s r Hsim Hnp) as (it' & Hd & Hst' & Hout & Hlink).
  destruct (drop_tells it it' Hok Hd) as (Hok' & Hst'' & Hf & Hcl). destruct (Hlink Hisok) as [Hl He].
  exists it'. split; [done|]. split; [|done]. split; [done|]. rewrite Hst'', Hst.
  split; [apply Hl|]. destruct Hcase as [[_ Hco]|[_ [Ht1 Ht2]]].
  - left. unfold is_open in *. by rewrite Hcl.
  - right. split; [apply He; by rewrite Hc|]. split; congruence.
Qed.

(** ** The operations *)

(** The loops end, in order. *)
Definition enough (fuel : nat) (it : Iter) : Prop :=
  match MessageIter.state it with Ok _ => conn_size (stream_of_conn it) ≤ fuel | _ => True end.

Lemma sound_enough it : sound it → enough (length (held (MessageIter.input it))) it.
Proof.
  intros [_ Hs]. unfold enough. destruct (MessageIter.state it); [|done..].
  apply linked_size. by split_and!; [..|apply Hs].
Qed.

Lemma next_enough mode early fuel it it' p :
  sound it → enough fuel it → MessageIter.next mode early it = (it', Ok (Some p)) →
  sound it' ∧ ∃ f, fuel = S f ∧ enough f it'.
Proof.
  intros Hs He Hn. pose proof (next_sound mode early it Hs) as Hw. rewrite Hn in Hw.
  destruct Hw as [[Hok [[st Hst] [Hop Ho]]] Hsz]. split.
  - split; [by apply Hok|]. rewrite Hst. by split; [|left].
  - unfold enough in *. unfold MessageIter.next in Hn. destruct (MessageIter.state it); [|done..].
    destruct fuel as [|f]; [lia|]. exists f. split; [done|]. rewrite Hst. lia.
Qed.

(** A result of a loop, as [sound_within] has it. *)
Definition ending (r : result Error.t unit) : result Error.t (option Payload) := (λ _, None) <$> r.

Lemma handle_loop_sound fuel it buf :
  sound it → enough fuel it →
  ∃ h buf' r, MessageHandler.handle_loop fuel (MessageHandler.new it) buf = Some (h, buf', r) ∧
    sound_within (MessageHandler.iter h) (ending r).
Proof.
  revert it buf. induction fuel as [|fuel IH]; intros it buf Hs He;
    cbn [MessageHandler.handle_loop]; unfold MessageHandler.next_payload, MessageHandler.new;
    cbn [MessageHandler.done MessageHandler.iter];
    pose proof (next_sound MessageIterMode.All false it Hs) as Hn;
    destruct (MessageIter.next _ _ it) as [it' [[p|]|e|]] eqn:Hnext;
    try (eexists _, _, _; split; [done|apply Hn]);
    destruct (next_enough _ _ _ _ _ _ Hs He Hnext) as (Hs' & f & [= <-] & He').
  by apply IH.
Qed.

Lemma process_loop_sound fuel it :
  sound it → enough fuel it →
  ∃ it' r, Connection_.process_loop fuel it = Some (it', r) ∧ sound_within it' (ending r).
Proof.
  revert it. induction fuel as [|fuel IH]; intros it Hs He; cbn [Connection_.process_loop];
    pose proof (next_sound MessageIterMode.Handshake false it Hs) as Hn;
    destruct (MessageIter.next _ _ it) as [it' [[p|]|e|]] eqn:Hnext;
    try (eexists _, _; split; [done|apply Hn]);
    destruct (next_enough _ _ _ _ _ _ Hs He Hnext) as (Hs' & f & [= <-] & He').
  by apply IH.
Qed.

(** The state after a call that gave [r]. *)
Definition sound_after {A} (it : Iter) (r : result Error.t A) : Prop :=
  match r with
  | Ok _ => sound it
  | Err e => sound it ∧ MessageIter.state it = Err e
  | Panic => True
  end.

Lemma handle_all_sound it buf :
  sound it → let '((it', buf'), r) := MessageHandler.handle_all (it, buf) in sound_after it' r.
Proof.
  intros Hs. pose proof (sound_enough it Hs) as He. unfold MessageHandler.handle_all.
  rewrite (slice_held (MessageIter.input it)) by apply Hs.
  destruct (handle_loop_sound _ it buf Hs He) as (h & buf' & r & -> & Hw).
  destruct r as [u|e|]; [..|done];
    destruct (drop_sound _ _ Hw) as (it' & -> & Hs' & Hst); try done.
  cbn. split; [done|]. rewrite Hst. apply Hw.
Qed.

Lemma process_sound it :
  sound it → let '(it', r) := Connection_.process it in sound_after it' r.
Proof.
  intros Hs. pose proof (sound_enough it Hs) as He. unfold Connection_.process.
  rewrite (slice_held (MessageIter.input it)) by apply Hs.
  destruct (process_loop_sound _ it Hs He) as (h & r & -> & Hw).
  destruct r as [u|e|]; [..|done];
    destruct (drop_sound _ _ Hw) as (it' & -> & Hs' & Hst); try done.
  cbn. split; [done|]. rewrite Hst. apply Hw.
Qed.

Definition closed (it : Iter) : Prop :=
  ReceivePath.has_received_close_notify (Output.recv (MessageIter.output it)) = true.

(** A connection that has failed, or that the peer has closed. *)
Definition stopped (it : Iter) : Prop := (∃ e, MessageIter.state it = Err e) ∨ closed it.

(** What is the same ever after. *)
Definition still (it it' : Iter) : Prop :=
  MessageIter.state it' = MessageIter.state it ∧ (closed it → closed it').

(** What its calls return. *)
Definition verdict {A} (a : A) (it : Iter) : result Error.t A :=
  match MessageIter.state it with Ok _ => Ok a | Err e => Err e | Panic => Panic end.

Lemma next_stopped mode early it :
  sound it → stopped it →
  ∃ it', MessageIter.next mode early it = (it', verdict None it) ∧ still it it' ∧
    sound_within it' (verdict (None (A:=Payload)) it) ∧ verdict (None (A:=Payload)) it ≠ Panic.
Proof.
  intros Hs Hst. pose proof (next_sound mode early it Hs) as Hw. destruct Hs as [Hok Hs].
  unfold verdict. destruct (MessageIter.state it) as [st|e|] eqn:Hstate; [|..|done].
  - destruct Hst as [[e He]|Hc]; [congruence|]. destruct Hs as [Hop [Ho|He]]; [unfold closed, is_open in *; congruence|].
    destruct (next_at_end mode early it st Hstate Hop He) as (it' & Hn & Hst' & Hop' & He').
    rewrite Hn in Hw |- *. exists it'. split_and!; [done| |apply Hw|done].
    split; [congruence|]. intros _. apply He'.
  - exists it. unfold MessageIter.next in *. rewrite Hstate in *. by split_and!; [..|apply Hw|].
Qed.

Lemma drop_still it it1 (r : result Error.t (option Payload)) :
  still it it1 → sound_within it1 r → r ≠ Panic →
  ∃ it', MessageHandler.drop it1 = Ok it' ∧ still it it' ∧
    ReceivePath.has_received_close_notify (Output.recv (MessageIter.output it'))
    = ReceivePath.has_received_close_notify (Output.recv (MessageIter.output it1)).
Proof.
  intros [Hst Hc] Hw Hnp. destruct (drop_sound it1 r Hw Hnp) as (it' & Hd & Hs & Hst').
  destruct (drop_tells it1 it') as (_ & _ & _ & Hcl); [apply Hw, Hnp|done|].
  exists it'. split_and!; [done| |done]. split; [congruence|]. unfold closed in *. by rewrite Hcl.
Qed.

Lemma handle_all_stopped it buf :
  sound it → stopped it →
  ∃ it', MessageHandler.handle_all (it, buf) = ((it', buf), verdict (IoState.mk true) it) ∧ still it it'.
Proof.
  intros Hs Hst. destruct (next_stopped MessageIterMode.All false it Hs Hst) as (it1 & Hn & Hl & Hw & Hnp).
  destruct (drop_still it it1 _ Hl Hw Hnp) as (it' & Hd & Hstill & Hcl).
  exists it'. split; [|done]. unfold MessageHandler.handle_all.
  rewrite (slice_held (MessageIter.input it)) by apply Hs.
  assert (∀ fuel, MessageHandler.handle_loop fuel (MessageHandler.new it) buf
    = Some (MessageHandler.mk it1 true, buf, verdict tt it)) as ->.
  { intros fuel. destruct fuel; cbn [MessageHandler.handle_loop]; unfold MessageHandler.next_payload, MessageHandler.new;
      cbn [MessageHandler.done MessageHandler.iter]; rewrite Hn; unfold verdict in *;
      by destruct (MessageIter.state it). }
  unfold verdict in *. destruct (MessageIter.state it) as [st|e|] eqn:Hstate; [..|done];
    cbn [MessageHandler.iter]; rewrite Hd; [|done].
  cbn [fmap result_fmap]. unfold IoState.new. destruct Hstill as [_ Hc], Hst as [[e He]|Hst]; [congruence|].
  by rewrite (Hc Hst).
Qed.

Lemma process_stopped it :
  sound it → stopped it → ∃ it', Connection_.process it = (it', verdict tt it) ∧ still it it'.
Proof.
  intros Hs Hst. destruct (next_stopped MessageIterMode.Handshake false it Hs Hst) as (it1 & Hn & Hl & Hw & Hnp).
  destruct (drop_still it it1 _ Hl Hw Hnp) as (it' & Hd & Hstill & Hcl).
  exists it'. split; [|done]. unfold Connection_.process.
  rewrite (slice_held (MessageIter.input it)) by apply Hs.
  assert (∀ fuel, Connection_.process_loop fuel it = Some (it1, verdict tt it)) as ->.
  { intros fuel. destruct fuel; cbn [Connection_.process_loop]; rewrite Hn; unfold verdict in *;
      by destruct (MessageIter.state it). }
  unfold verdict in *. by destruct (MessageIter.state it) as [st|e|]; [..|done]; rewrite Hd.
Qed.

(** The calls of an application. *)
Inductive api_step : Iter → Iter → Prop :=
  | step_read {Y} (rd : nat → result Y (list u8)) it input r :
      fits_room rd → VecInput.read rd (MessageIter.input it) = (input, r) → r ≠ Panic →
      api_step it (MessageIter.mk input (MessageIter.state it) (MessageIter.output it))
  | step_handle_all it buf it' buf' r :
      MessageHandler.handle_all (it, buf) = ((it', buf'), r) → r ≠ Panic → api_step it it'
  | step_process it it' r : Connection_.process it = (it', r) → r ≠ Panic → api_step it it'
  | step_write plaintext it it' r :
      Connection_.write plaintext it = (it', r) → r ≠ Panic → api_step it it'
  | step_refresh it it' r : Connection_.refresh_traffic_keys it = (it', r) → r ≠ Panic → api_step it it'
  | step_close it it' r : Connection_.send_close_notify it = (it', r) → r ≠ Panic → api_step it it'.

(** A call that only sends. *)
Lemma sends_sound it it' :
  MessageIter.input it' = MessageIter.input it → MessageIter.state it' = MessageIter.state it →
  Output.recv (MessageIter.output it') = Output.recv (MessageIter.output it) →
  sound it → sound it' ∧ still it it'.
Proof.
  destruct it as [i st out], it' as [i' st' out']. cbn [MessageIter.input MessageIter.state MessageIter.output].
  intros -> -> Hr. unfold sound, still, closed, at_end, ended, told, open, is_open, deframer_of.
  cbn [MessageIter.input MessageIter.state MessageIter.output]. by rewrite Hr.
Qed.

Lemma on_send_recv {A} (m : action (SendPath.t E K * list u8) Error.t A) (out : Out) :
  Output.recv (Output.on_send m out).1 = Output.recv out.
Proof. unfold Output.on_send. by destruct (m _) as [[? ?] ?]. Qed.

Lemma read_sound {Y} (rd : nat → result Y (list u8)) it i' r :
  fits_room rd → VecInput.read rd (MessageIter.input it) = (i', r) → sound it →
  sound (MessageIter.mk i' (MessageIter.state it) (MessageIter.output it)).
Proof.
  intros Hrd Hr [Hok Hs]. destruct (vec_read rd _ Hok Hrd) as (Hok' & Hf & bs & Hh & Hbs).
  rewrite Hr in *. cbn [fst] in *. split; [done|]. cbn [MessageIter.state].
  destruct (MessageIter.state it); [|done..]. destruct Hs as [[_ Hset] Hc].
  cbn [MessageIter.input MessageIter.output]. unfold open. rewrite Hh.
  split; [split; [done|]; by apply settled_read|].
  destruct Hc as [Hc|[[He Hsp] [Ht1 Ht2]]]; [by left|]. right.
  split; [|by split; [cbn [MessageIter.input]; congruence|]]. split; [|done]. cbn [MessageIter.input].
  by rewrite Hh, He, Hbs.
Qed.

Lemma api_sound it it' : api_step it it' → sound it → sound it' ∧ (stopped it → still it it').
Proof.
  intros Hstep Hs. assert (∀ (it it' : Iter) (P : Prop), sound it' ∧ still it it' → sound it' ∧ (P → still it it'))
    as Hsend by (by intros ??? []).
  destruct Hstep as [Y rd it i' r Hrd Hr Hnp|it buf it' buf' r Hh Hnp|it it' r Hp Hnp|p it it' r Hw _|it it' r Hw _
    |it it' r Hw _].
  - split; [|done]. by eapply read_sound.
  - split.
    + pose proof (handle_all_sound it buf Hs) as Ha. rewrite Hh in Ha. destruct r; [done|apply Ha|done].
    + intros Hst. destruct (handle_all_stopped it buf Hs Hst) as (it2 & Ha & Hstill). congruence.
  - split.
    + pose proof (process_sound it Hs) as Ha. rewrite Hp in Ha. destruct r; [done|apply Ha|done].
    + intros Hst. destruct (process_stopped it Hs Hst) as (it2 & Ha & Hstill). congruence.
  - apply Hsend. unfold Connection_.write in Hw.
    destruct (MessageIter.state it) eqn:Hst; [|by injection Hw as <- <-..].
    destruct (OutboundPlain.is_empty p); [by injection Hw as <- <-|].
    pose proof (on_send_recv (SendPath.send_appdata_encrypt (DataKind.Traffic p)) (MessageIter.output it)) as Hr.
    destruct (Output.on_send _ _) as [out r']. injection Hw as <- <-. by apply sends_sound.
  - apply Hsend. unfold Connection_.refresh_traffic_keys in Hw.
    pose proof (on_send_recv SendPath.refresh_traffic_keys (MessageIter.output it)) as Hr.
    destruct (Output.on_send _ _) as [out r']. injection Hw as <- <-. by apply sends_sound.
  - apply Hsend. unfold Connection_.send_close_notify in Hw.
    pose proof (on_send_recv SendPath.send_close_notify (MessageIter.output it)) as Hr.
    destruct (Output.on_send _ _) as [out r']. injection Hw as <- <-. by apply sends_sound.
Qed.

Lemma history_sound it it' :
  rtc api_step it it' → sound it → sound it' ∧ (stopped it → still it it').
Proof.
  induction 1 as [it|it it1 it' Hstep _ IH]; [done|]. intros Hs.
  destruct (api_sound it it1 Hstep Hs) as [Hs1 H1]. destruct (IH Hs1) as [Hs' H2]. split; [done|].
  intros Hst. destruct (H1 Hst) as [Hst1 Hc1]. destruct H2 as [Hst2 Hc2].
  { destruct Hst as [[e He]|Hc]; [left; exists e; congruence|right; auto]. }
  split; [congruence|auto].
Qed.
End inv.
