(* ===== verification/Hkdf.v ===== *)
(** * HMAC-based key derivation ([rustls/src/crypto/tls13.rs], [crypto/hmac.rs])

    The traits [Hmac], [HkdfExpander] and [Hkdf] are used through trait objects: here
    they are records of their methods, with the laws their documentation states.
    [HkdfUsingHmac] builds the last two from the first, and is shown to be the HKDF of
    RFC 5869.

    An [hmac::Tag] is the bytes it holds. *)
From S2P Require Import Prelude Enums Errors Codec Records Fragmenter Cipher.

(** ** Interfaces *)

Module Hmac.
(* @src rustls/src/crypto/hmac.rs 51-52 Tag::MAX_LEN *)
Definition MAX_LEN : nat := 64.

(** The tag is over the concatenation of the pieces; it is as long as announced, and
    no longer than a [Tag] can be. *)
(* @src rustls/src/crypto/hmac.rs 103-118 Key *)
Record Key := mkKey {
  sign_concat : list u8 → list (list u8) → list u8 → list u8;
  tag_len : nat;
  sign_concat_app first middle last :
    sign_concat first middle last = sign_concat [] [first ++ concat middle ++ last] [];
  length_tag first middle last : length (sign_concat first middle last) = tag_len;
  tag_len_bound : 0 < tag_len ≤ MAX_LEN;
}.

(* @src rustls/src/crypto/hmac.rs 107-110 Key::sign *)
Definition sign (self : Key) (data : list (list u8)) : list u8 := sign_concat self [] data [].

(* @src rustls/src/crypto/hmac.rs 11-22 Hmac *)
Record t := mk {
  with_key : list u8 → Key;
  hash_output_len : nat;
  tag_len_eq key : tag_len (with_key key) = hash_output_len;
}.

(** The HMAC of a message, in one piece. *)
Definition mac (self : t) (key msg : list u8) : list u8 := sign (with_key self key) [msg].

Lemma sign_concat_mac (self : t) key first middle last :
  sign_concat (with_key self key) first middle last = mac self key (first ++ concat middle ++ last).
Proof. unfold mac, sign. apply sign_concat_app. Qed.

Lemma length_mac (self : t) key msg : length (mac self key msg) = hash_output_len self.
Proof. unfold mac, sign. by rewrite length_tag, tag_len_eq. Qed.

Lemma hash_output_len_bound (self : t) : 0 < hash_output_len self ≤ MAX_LEN.
Proof. rewrite <-(tag_len_eq self []). apply tag_len_bound. Qed.
End Hmac.

Module OkmBlock.
(* @src rustls/src/crypto/tls13.rs 227-232 OkmBlock *)
Record t := mk { buf : list u8; used : nat }.

(* @src rustls/src/crypto/tls13.rs 248-249 OkmBlock::MAX_LEN *)
Definition MAX_LEN : nat := 64.

(* @src rustls/src/crypto/tls13.rs 235-246 OkmBlock::new *)
Definition new {E} (bytes : list u8) : result E t :=
  buf ← write_at (replicate MAX_LEN x00) 0 bytes;
  Ok (mk buf (length bytes)).

(* @src rustls/src/crypto/tls13.rs 259-263 OkmBlock::as_ref *)
Definition as_ref (self : t) : list u8 := take (used self) (buf self).
End OkmBlock.

Module OutputLengthError.
(* @src rustls/src/crypto/tls13.rs 265-269 OutputLengthError *)
Inductive t := mk.
End OutputLengthError.

Module HkdfExpander.
(** [expand_slice info n] is what a slice of [n] bytes is filled with. *)
(* @src rustls/src/crypto/tls13.rs 98-128 HkdfExpander *)
Record t := mk {
  expand_slice : list (list u8) → nat → result OutputLengthError.t (list u8);
  expand_block : list (list u8) → result Error.t OkmBlock.t;
  hash_len : nat;
  hash_len_pos : 0 < hash_len;
  expand_slice_ok info len : len ≤ 255 * hash_len →
    ∃ okm, expand_slice info len = Ok okm ∧ length okm = len;
  expand_slice_err info len : 255 * hash_len < len →
    expand_slice info len = Err OutputLengthError.mk;
  expand_block_ok info :
    ∃ okm, expand_block info = Ok okm ∧ length (OkmBlock.as_ref okm) = hash_len;
}.
End HkdfExpander.

Module Hkdf.
(* @src rustls/src/crypto/tls13.rs 130-186 Hkdf *)
Record t := mk {
  extract_from_zero_ikm : option (list u8) → result Error.t HkdfExpander.t;
  extract_from_secret : option (list u8) → list u8 → result Error.t HkdfExpander.t;
  expander_for_okm : OkmBlock.t → HkdfExpander.t;
  hmac_sign : OkmBlock.t → list u8 → list u8;
  extract_zero_ok salt : ∃ x, extract_from_zero_ikm salt = Ok x;
  extract_secret_ok salt secret : ∃ x, extract_from_secret salt secret = Ok x;
}.
End Hkdf.

(** [HKDF-Expand(PRK, info, L)] to construct a value from a byte array of [n] bytes. *)
(* @src rustls/src/crypto/tls13.rs 207-225 expand *)
Definition expand {E A} (from : list u8 → result E A) (n : nat) (expander : HkdfExpander.t)
    (info : list (list u8)) : result E A :=
  match HkdfExpander.expand_slice expander info n with
  | Ok output => from output
  | Err _ | Panic => Panic
  end.

(** ** HKDF on top of HMAC *)

Module HkdfExpanderUsingHmac.
(** The chunks of [output.chunks_mut(size)]: their lengths. *)
Definition chunk_lens (size len : nat) : list nat :=
  (λ n, Nat.min size (len - n * size)) <$> seq 0 (Chunker.div_ceil len size).

(* @src rustls/src/crypto/tls13.rs 19-27 HkdfExpanderUsingHmac::expand_unchecked::for *)
Fixpoint expand_for {E} (self : Hmac.Key) (info : list (list u8)) (term : list u8) (n : nat)
    (chunks : list nat) : result E (list u8) :=
  match chunks with
  | [] => Ok []
  | len :: chunks =>
      let term := Hmac.sign_concat self term info [u8_of_Z (Z.of_nat (n + 1))] in
      chunk ← unwrap (get_range term (mkRange 0 len));
      rest ← expand_for self info term (S n) chunks;
      Ok (chunk ++ rest)
  end.

(* @src rustls/src/crypto/tls13.rs 16-28 HkdfExpanderUsingHmac::expand_unchecked *)
Definition expand_unchecked {E} (self : Hmac.Key) (info : list (list u8)) (output_len : nat)
    : result E (list u8) :=
  if decide (Hmac.tag_len self = 0) then Panic else
  expand_for self info [] 0 (chunk_lens (Hmac.tag_len self) output_len).

(* @src rustls/src/crypto/tls13.rs 32-39 HkdfExpanderUsingHmac::expand_slice *)
Definition expand_slice (self : Hmac.Key) (info : list (list u8)) (output_len : nat)
    : result OutputLengthError.t (list u8) :=
  if decide (255 * Hmac.tag_len self < output_len) then Err OutputLengthError.mk
  else expand_unchecked self info output_len.

(* @src rustls/src/crypto/tls13.rs 41-46 HkdfExpanderUsingHmac::expand_block *)
Definition expand_block (self : Hmac.Key) (info : list (list u8)) : result Error.t OkmBlock.t :=
  if decide (Hmac.MAX_LEN < Hmac.tag_len self) then Panic else
  okm ← expand_unchecked self info (Hmac.tag_len self);
  OkmBlock.new okm.

End HkdfExpanderUsingHmac.

(** ** RFC 5869 *)

Module Rfc5869.
(** [T(0)] is empty, [T(i + 1) = HMAC-Hash(PRK, T(i) | info | i + 1)]. *)
Fixpoint T (prk : Hmac.Key) (info : list u8) (i : nat) : list u8 :=
  match i with
  | 0 => []
  | S j => Hmac.sign prk [T prk info j ++ info ++ [u8_of_Z (Z.of_nat i)]]
  end.

(** The first [L] bytes of [T(1) | ... | T(255)]. *)
Definition expand (prk : Hmac.Key) (info : list u8) (L : nat) : list u8 :=
  take L (concat (T prk info <$> seq 1 255)).

(** [HKDF-Extract(salt, IKM) = HMAC-Hash(salt, IKM)]; an absent salt is [HashLen] zeros. *)
Definition extract (h : Hmac.t) (salt : option (list u8)) (ikm : list u8) : list u8 :=
  Hmac.mac h (default (replicate (Hmac.hash_output_len h) x00) salt) ikm.
End Rfc5869.

Section expand.
Context (k : Hmac.Key).
Implicit Types (info : list u8) (infos : list (list u8)).
Let n := Hmac.tag_len k.

Lemma length_T info i : length (Rfc5869.T k info (S i)) = n.
Proof. apply Hmac.length_tag. Qed.

Lemma expand_for_spec {E} infos L m i :
  HkdfExpanderUsingHmac.expand_for (E:=E) k infos
    (Rfc5869.T k (concat infos) i) i ((λ j, Nat.min n (L - j * n)) <$> seq i m)
  = Ok (take (L - i * n) (concat (Rfc5869.T k (concat infos) <$> seq (S i) m))).
Proof.
  revert i. induction m as [|m IH]; intros i; [cbn; by rewrite take_nil|].
  cbn [seq fmap list_fmap HkdfExpanderUsingHmac.expand_for concat].
  rewrite Hmac.sign_concat_app. replace (i + 1) with (S i) by lia.
  change (Hmac.sign_concat k [] [_] []) with (Rfc5869.T k (concat infos) (S i)).
  unfold get_range. cbn [r_start r_end].
  rewrite decide_True by (rewrite length_T; lia). cbn [unwrap]. step_ok.
  rewrite IH. step_ok. do 2 f_equal. unfold slice. rewrite drop_0, Nat.sub_0_r, take_app.
  rewrite length_T. f_equal.
  - destruct (decide (L - i * n ≤ n)); [f_equal; lia|].
    rewrite !take_ge; [done|rewrite length_T; lia..].
  - f_equal. lia.
Qed.

Lemma div_ceil_le a b c : 0 < b → a ≤ c * b → Chunker.div_ceil a b ≤ c.
Proof.
  intros Hb Ha. unfold Chunker.div_ceil.
  pose proof (Nat.div_mod a b ltac:(lia)). pose proof (Nat.mod_upper_bound a b ltac:(lia)).
  destruct (decide _); nia.
Qed.

Lemma div_ceil_ge a b : 0 < b → a ≤ Chunker.div_ceil a b * b.
Proof.
  intros Hb. unfold Chunker.div_ceil.
  pose proof (Nat.div_mod a b ltac:(lia)). pose proof (Nat.mod_upper_bound a b ltac:(lia)).
  destruct (decide _); nia.
Qed.

Lemma length_T_seq info i m :
  length (concat (Rfc5869.T k info <$> seq (S i) m)) = m * n.
Proof.
  revert i. induction m as [|m IH]; intros i; [done|]. cbn [seq fmap list_fmap concat].
  rewrite length_app, length_T, IH. lia.
Qed.

Lemma expand_unchecked_spec {E} infos L :
  L ≤ 255 * n →
  HkdfExpanderUsingHmac.expand_unchecked (E:=E) k infos L
  = Ok (Rfc5869.expand k (concat infos) L).
Proof.
  intros HL. pose proof (Hmac.tag_len_bound k) as Hn.
  unfold HkdfExpanderUsingHmac.expand_unchecked.
  rewrite decide_False by lia. change [] with (Rfc5869.T k (concat infos) 0).
  unfold HkdfExpanderUsingHmac.chunk_lens. rewrite expand_for_spec. f_equal.
  unfold Rfc5869.expand. rewrite Nat.mul_0_l, Nat.sub_0_r.
  pose proof (div_ceil_le L n 255 ltac:(lia) HL) as Hle.
  replace 255 with (Chunker.div_ceil L n + (255 - Chunker.div_ceil L n)) by lia.
  rewrite seq_app, fmap_app, concat_app, take_app_le; [done|].
  rewrite length_T_seq. apply div_ceil_ge. lia.
Qed.

Lemma length_expand info L : L ≤ 255 * n → length (Rfc5869.expand k info L) = L.
Proof. intros. unfold Rfc5869.expand. rewrite length_take, length_T_seq. lia. Qed.

Lemma okm_new {E} bytes :
  length bytes ≤ OkmBlock.MAX_LEN →
  ∃ okm, OkmBlock.new (E:=E) bytes = Ok okm ∧ OkmBlock.as_ref okm = bytes.
Proof.
  intros Hl. unfold OkmBlock.new. rewrite (zeros_split (0 + length bytes)) by lia.
  rewrite write_at_zeros by done. step_ok. eexists. split; [done|].
  unfold OkmBlock.as_ref. cbn [OkmBlock.used OkmBlock.buf replicate app]. apply take_app_length.
Qed.

Lemma expand_slice_spec infos L :
  HkdfExpanderUsingHmac.expand_slice k infos L
  = if decide (L ≤ 255 * n) then Ok (Rfc5869.expand k (concat infos) L)
    else Err OutputLengthError.mk.
Proof.
  unfold HkdfExpanderUsingHmac.expand_slice. fold n.
  case_decide; case_decide; try lia; [done|]. by apply expand_unchecked_spec.
Qed.

Lemma expand_block_spec infos :
  ∃ okm, HkdfExpanderUsingHmac.expand_block k infos = Ok okm ∧
    OkmBlock.as_ref okm = Rfc5869.expand k (concat infos) n.
Proof.
  pose proof (Hmac.tag_len_bound k) as Hn. unfold HkdfExpanderUsingHmac.expand_block. change (Hmac.tag_len k) with n in Hn |- *.
  rewrite decide_False by lia. rewrite expand_unchecked_spec by lia. step_ok.
  apply okm_new. rewrite length_expand by lia. by destruct Hn.
Qed.

Lemma expand_slice_fits infos L :
  L ≤ 255 * n → ∃ okm, HkdfExpanderUsingHmac.expand_slice k infos L = Ok okm ∧ length okm = L.
Proof.
  intros Hl. rewrite expand_slice_spec, decide_True by done.
  eexists. split; [done|]. by apply length_expand.
Qed.

Lemma expand_slice_too_long infos L :
  255 * n < L → HkdfExpanderUsingHmac.expand_slice k infos L = Err OutputLengthError.mk.
Proof. intros Hl. by rewrite expand_slice_spec, decide_False by lia. Qed.

Lemma expand_block_length infos :
  ∃ okm, HkdfExpanderUsingHmac.expand_block k infos = Ok okm ∧
    length (OkmBlock.as_ref okm) = n.
Proof.
  destruct (expand_block_spec infos) as (okm & -> & Hr).
  eexists. split; [done|]. rewrite Hr. apply length_expand. lia.
Qed.
End expand.

(** ** The trait objects *)

Definition hmac_expander (k : Hmac.Key) : HkdfExpander.t :=
  HkdfExpander.mk (HkdfExpanderUsingHmac.expand_slice k) (HkdfExpanderUsingHmac.expand_block k)
    (Hmac.tag_len k) (proj1 (Hmac.tag_len_bound k))
    (expand_slice_fits k) (expand_slice_too_long k) (expand_block_length k).

Module HkdfUsingHmac.
(** [&zeroes[..n]]. *)
Definition zeroes {E} (n : nat) : result E (list u8) :=
  unwrap (get_range (replicate Hmac.MAX_LEN x00) (mkRange 0 n)).

(* @src rustls/src/crypto/tls13.rs 83-96 HkdfUsingHmac::extract_prk_from_secret *)
Definition extract_prk_from_secret {E} (self : Hmac.t) (salt : option (list u8)) (secret : list u8)
    : result E (list u8) :=
  salt ← match salt with
         | Some salt => Ok salt
         | None => zeroes (Hmac.hash_output_len self)
         end;
  Ok (Hmac.sign (Hmac.with_key self salt) [secret]).

(* @src rustls/src/crypto/tls13.rs 65-70 HkdfUsingHmac::extract_from_secret *)
Definition extract_from_secret (self : Hmac.t) (salt : option (list u8)) (secret : list u8)
    : result Error.t HkdfExpander.t :=
  prk ← extract_prk_from_secret self salt secret;
  Ok (hmac_expander (Hmac.with_key self prk)).

(* @src rustls/src/crypto/tls13.rs 58-63 HkdfUsingHmac::extract_from_zero_ikm *)
Definition extract_from_zero_ikm (self : Hmac.t) (salt : option (list u8))
    : result Error.t HkdfExpander.t :=
  zeroes ← zeroes (Hmac.hash_output_len self);
  prk ← extract_prk_from_secret self salt zeroes;
  Ok (hmac_expander (Hmac.with_key self prk)).

(* @src rustls/src/crypto/tls13.rs 72-74 HkdfUsingHmac::expander_for_okm *)
Definition expander_for_okm (self : Hmac.t) (okm : OkmBlock.t) : HkdfExpander.t :=
  hmac_expander (Hmac.with_key self (OkmBlock.as_ref okm)).

(* @src rustls/src/crypto/tls13.rs 76-80 HkdfUsingHmac::hmac_sign *)
Definition hmac_sign (self : Hmac.t) (key : OkmBlock.t) (message : list u8) : list u8 :=
  Hmac.sign (Hmac.with_key self (OkmBlock.as_ref key)) [message].

Lemma zeroes_spec {E} (h : Hmac.t) :
  zeroes (E:=E) (Hmac.hash_output_len h) = Ok (replicate (Hmac.hash_output_len h) x00).
Proof.
  pose proof (Hmac.hash_output_len_bound h). unfold zeroes, get_range.
  cbn [r_start r_end]. rewrite decide_True by (rewrite length_replicate; lia).
  cbn [unwrap]. f_equal. unfold slice. rewrite drop_0, Nat.sub_0_r, take_replicate.
  f_equal. lia.
Qed.

Lemma extract_prk_spec {E} h salt secret :
  extract_prk_from_secret (E:=E) h salt secret = Ok (Rfc5869.extract h salt secret).
Proof.
  unfold extract_prk_from_secret. destruct salt as [salt|]; [|rewrite zeroes_spec]; by step_ok.
Qed.

Lemma extract_secret_spec h salt secret :
  extract_from_secret h salt secret
  = Ok (hmac_expander (Hmac.with_key h (Rfc5869.extract h salt secret))).
Proof. unfold extract_from_secret. by rewrite extract_prk_spec. Qed.

Lemma extract_zero_spec h salt :
  extract_from_zero_ikm h salt
  = Ok (hmac_expander (Hmac.with_key h
          (Rfc5869.extract h salt (replicate (Hmac.hash_output_len h) x00)))).
Proof.
  unfold extract_from_zero_ikm. rewrite zeroes_spec. step_ok. by rewrite extract_prk_spec.
Qed.

Definition hkdf (self : Hmac.t) : Hkdf.t :=
  Hkdf.mk (extract_from_zero_ikm self) (extract_from_secret self) (expander_for_okm self)
    (hmac_sign self)
    (λ salt, ex_intro _ _ (extract_zero_spec self salt))
    (λ salt secret, ex_intro _ _ (extract_secret_spec self salt secret)).
End HkdfUsingHmac.

(** ** Main results *)

(** C36. [HkdfUsingHmac] is the HKDF of RFC 5869, over any HMAC that keeps the promises
    of its trait: an expander obtained from a salt and a secret expands every [info]
    with the pseudorandom key [HMAC(salt, secret)] - a missing salt or secret being
    zeros - into the first bytes of [T(1) | T(2) | ...], fails exactly when more than
    255 blocks are asked for, and gives one block of the hash's length; nothing
    panics. *)
Theorem hkdf_rfc5869 (h : Hmac.t) (salt : option (list u8)) (secret : option (list u8)) :
  let n := Hmac.hash_output_len h in
  let prk := Hmac.with_key h (Rfc5869.extract h salt (default (replicate n x00) secret)) in
  ∃ x, match secret with
       | Some secret => Hkdf.extract_from_secret (HkdfUsingHmac.hkdf h) salt secret
       | None => Hkdf.extract_from_zero_ikm (HkdfUsingHmac.hkdf h) salt
       end = Ok x ∧
    (∀ info L, HkdfExpander.expand_slice x info L =
       if decide (L ≤ 255 * n) then Ok (Rfc5869.expand prk (concat info) L)
       else Err OutputLengthError.mk) ∧
    (∀ info, ∃ okm, HkdfExpander.expand_block x info = Ok okm ∧
       OkmBlock.as_ref okm = Rfc5869.expand prk (concat info) n).
Proof.
  intros n prk. exists (hmac_expander prk). split_and!.
  - destruct secret as [secret|]; [apply HkdfUsingHmac.extract_secret_spec|].
    apply HkdfUsingHmac.extract_zero_spec.
  - intros info L. unfold n. rewrite <-(Hmac.tag_len_eq h (Rfc5869.extract h salt (default (replicate n x00) secret))).
    apply expand_slice_spec.
  - intros info. unfold n. rewrite <-(Hmac.tag_len_eq h (Rfc5869.extract h salt (default (replicate n x00) secret))).
    apply expand_block_spec.
Qed.
