(* ===== verification/Tls13Cipher.v ===== *)
(** * TLS 1.3 record protection ([rustls-ring/src/tls13.rs])

    Records are protected with an AEAD of the crate [ring], which is a parameter: a
    record of the operations used of it, with what that crate documents of them. *)
From stdpp Require Import gmap.
From S2P Require Import Prelude Enums Errors Codec Records Cipher.
From S2P Require Import Extensions Payloads ServerHello ClientHello Messages Send Receive.

(** ** The AEAD *)

Module Aead.
(** [ring::aead::Algorithm] with the operations of [LessSafeKey].  Both work in place:
    the first component of a result is what the buffer has become; [seal] returns the
    tag, and [open_] the length of the plaintext, which is at the front.  The laws are
    what [ring] documents: a message that was sealed is opened again, and keys and tags
    are at most [MAX_KEY_LEN] and [MAX_TAG_LEN] long. *)
Record t := mk {
  key_len : nat;
  tag_len : nat;
  key_len_max : key_len ≤ 32;
  tag_len_max : tag_len ≤ 16;
  seal : list u8 → list u8 → list u8 → list u8 → list u8 * option (list u8);
  open_ : list u8 → list u8 → list u8 → list u8 → list u8 * option nat;
  seal_length key nonce aad in_out : length (seal key nonce aad in_out).1 = length in_out;
  seal_tag key nonce aad in_out c tag :
    seal key nonce aad in_out = (c, Some tag) → length tag = tag_len;
  open_length key nonce aad in_out : length (open_ key nonce aad in_out).1 = length in_out;
  open_plain key nonce aad in_out p n :
    open_ key nonce aad in_out = (p, Some n) → n + tag_len = length in_out;
  open_seal key nonce aad plain c tag :
    seal key nonce aad plain = (c, Some tag) →
    ∃ rest, open_ key nonce aad (c ++ tag) = (plain ++ rest, Some (length plain));
}.
End Aead.

(** [aead::LessSafeKey]. *)
Record less_safe_key := mk_key { algorithm : Aead.t; key_bytes : list u8 }.

(** [aead::LessSafeKey::new(aead::UnboundKey::new(alg, key).unwrap())]. *)
Definition bind_key {E} (alg : Aead.t) (key : list u8) : result E less_safe_key :=
  if decide (length key = Aead.key_len alg) then Ok (mk_key alg key) else Panic.

(** [Nonce::new(&iv, seq).to_array()?] for the nonces of [ring]. *)
Definition nonce_array (iv : Iv.t) (seq : Z) : result Error.t (list u8) :=
  nonce ← Nonce.new iv seq; Nonce.to_array NONCE_LEN nonce.

(** ** Encrypting *)

Module Tls13RecordEncrypter.
(* @src rustls-ring/src/tls13.rs 200-203 Tls13RecordEncrypter *)
Record t := mk { enc_key : less_safe_key; iv : Iv.t }.

(* @src rustls-ring/src/tls13.rs 241-243 Tls13RecordEncrypter::encrypted_payload_len *)
Definition encrypted_payload_len (self : t) (payload_len : nat) : nat :=
  payload_len + 1 + Aead.tag_len (algorithm (enc_key self)).

(** The payload of the record returned is the front of the buffer. *)
(* @src rustls-ring/src/tls13.rs 211-239 Tls13RecordEncrypter::encrypt *)
Definition encrypt (self : t) (record : Record_.t OutboundPlain.t) (seq : Z) (out : list u8)
    : t * list u8 * result Error.t (Record_.t (list u8)) :=
  let total_len := encrypted_payload_len self (OutboundPlain.len (Record_.payload record)) in
  let typ := ContentType.ApplicationData in
  match (payload ← EncryptBuffer.new out total_len; nonce ← nonce_array (iv self) seq;
         Ok (payload, nonce)) with
  | Err e => (self, out, Err e)
  | Panic => (self, out, Panic)
  | Ok (payload, nonce) =>
      let aad := make_tls13_aad typ (EncodableVersion.encode (Record_.version record)) total_len in
      match (payload ← EncryptBuffer.extend_from_chunks payload (Record_.payload record);
             EncryptBuffer.extend_from_slice payload [ContentType.val (Record_.typ record)]) with
      | Err e => (self, out, Err e)
      | Panic => (self, out, Panic)
      | Ok payload =>
          let '(written, sealed) :=
            Aead.seal (algorithm (enc_key self)) (key_bytes (enc_key self)) nonce aad
              (EncryptBuffer.into_written payload) in
          let payload := EncryptBuffer.mk
            (written ++ drop (EncryptBuffer.used payload) (EncryptBuffer.buf payload))
            (EncryptBuffer.used payload) in
          match sealed with
          | None => (self, EncryptBuffer.buf payload ++ drop total_len out, Err Error.EncryptError)
          | Some tag =>
              match EncryptBuffer.extend_from_slice payload tag with
              | Ok payload =>
                  (self, EncryptBuffer.buf payload ++ drop total_len out,
                   Ok (Record_.new typ (Record_.version record)
                         (EncryptBuffer.into_written payload)))
              | Err e => (self, out, Err e)
              | Panic => (self, out, Panic)
              end
          end
      end
  end.

#[global] Instance encrypter : RecordEncrypter t := {|
  Send.encrypt := encrypt;
  Send.encrypted_payload_len := encrypted_payload_len;
|}.
End Tls13RecordEncrypter.

(** ** Decrypting *)

Module Tls13RecordDecrypter.
(* @src rustls-ring/src/tls13.rs 205-208 Tls13RecordDecrypter *)
Record t := mk { dec_key : less_safe_key; iv : Iv.t }.

(** Removing the padding only shortens the plaintext: what is left is the front of the
    payload. *)
(* @src rustls-ring/src/tls13.rs 247-271 Tls13RecordDecrypter::decrypt *)
Definition decrypt (self : t) (record : Record_.t (list u8)) (seq : Z)
    : t * list u8 * result Error.t (Record_.t Range) :=
  let payload := Record_.payload record in
  if decide (length payload < Aead.tag_len (algorithm (dec_key self)))
  then (self, payload, Err Error.DecryptError) else
  match nonce_array (iv self) seq with
  | Err e => (self, payload, Err e)
  | Panic => (self, payload, Panic)
  | Ok nonce =>
      let aad := make_tls13_aad (Record_.typ record)
                   (EncodableVersion.version (Record_.version record)) (length payload) in
      match Aead.open_ (algorithm (dec_key self)) (key_bytes (dec_key self)) nonce aad payload with
      | (payload, None) => (self, payload, Err Error.DecryptError)
      | (payload, Some plain_len) =>
          let record := Record_.new (Record_.typ record) (Record_.version record)
                          (InboundOpaque.truncate payload plain_len) in
          (self, payload,
           plain ← into_tls13_unpadded_record record;
           Ok (Record_.new (Record_.typ plain) (Record_.version plain)
                 (mkRange 0 (length (Record_.payload plain)))))
      end
  end.

#[global] Instance decrypter : RecordDecrypter t := {| Receive.decrypt := decrypt |}.
End Tls13RecordDecrypter.

Module AeadAlgorithm.
(* @src rustls-ring/src/tls13.rs 179-185 AeadAlgorithm::encrypter *)
Definition encrypter {E} (self : Aead.t) (key : AeadKey.t) (iv : Iv.t)
    : result E Tls13RecordEncrypter.t :=
  enc_key ← bind_key self (AeadKey.as_ref key);
  Ok (Tls13RecordEncrypter.mk enc_key iv).

(* @src rustls-ring/src/tls13.rs 187-193 AeadAlgorithm::decrypter *)
Definition decrypter {E} (self : Aead.t) (key : AeadKey.t) (iv : Iv.t)
    : result E Tls13RecordDecrypter.t :=
  dec_key ← bind_key self (AeadKey.as_ref key);
  Ok (Tls13RecordDecrypter.mk dec_key iv).

(* @src rustls-ring/src/tls13.rs 195-197 AeadAlgorithm::key_len *)
Definition key_len (self : Aead.t) : nat := Aead.key_len self.
End AeadAlgorithm.

(** ** Nonces *)

Lemma nonce_array_no_panic iv seq : nonce_array iv seq ≠ Panic.
Proof.
  unfold nonce_array, Nonce.new, Nonce.new_inner. destruct (iv_bounds iv) as [Hb Hl]. cbv zeta.
  case_decide as H8.
  - rewrite put_u64_at_spec by lia. step_ok. unfold Nonce.to_array.
    case_decide as Hn; [done|]. cbn [Nonce.buf Nonce.len] in *.
    unfold get_range. cbn [r_start r_end].
    rewrite decide_True; [done|]. rewrite length_app, length_zip_with, length_take, length_iv,
      length_drop, !length_app, !length_replicate, be_bytes_length. lia.
  - rewrite (zeros_split (0 + length (drop (8 - Iv.len iv) (be_bytes 8 seq))))
      by (rewrite length_drop, be_bytes_length; lia).
    rewrite write_at_zeros by done. step_ok. unfold Nonce.to_array, NONCE_LEN.
    cbn [Nonce.len]. rewrite decide_True by lia. done.
Qed.

(** ** The encrypter *)

Lemma extend_chunks_inv {E} b p b' :
  EncryptBuffer.used b ≤ length (EncryptBuffer.buf b) →
  EncryptBuffer.extend_from_chunks (E:=E) b p = Ok b' →
  EncryptBuffer.into_written b' = EncryptBuffer.into_written b ++ OutboundPlain.flat p ∧
  EncryptBuffer.used b' = EncryptBuffer.used b + length (OutboundPlain.flat p) ∧
  length (EncryptBuffer.buf b') = length (EncryptBuffer.buf b) ∧
  EncryptBuffer.used b' ≤ length (EncryptBuffer.buf b').
Proof.
  intros Hu H.
  destruct (decide (EncryptBuffer.used b + length (OutboundPlain.flat p)
    ≤ length (EncryptBuffer.buf b))) as [Hfit|Hfit].
  - destruct (extend_from_chunks_spec (E:=E) b p Hfit) as (b1 & H1 & Hw & Hused & Hl).
    rewrite H in H1. simplify_eq. rewrite Hl. split_and!; [done..|lia].
  - rewrite extend_from_chunks_panic in H by lia. done.
Qed.

Lemma extend_slice_inv {E} b k b' :
  EncryptBuffer.used b ≤ length (EncryptBuffer.buf b) →
  EncryptBuffer.extend_from_slice (E:=E) b k = Ok b' →
  EncryptBuffer.into_written b' = EncryptBuffer.into_written b ++ k ∧
  EncryptBuffer.used b' = EncryptBuffer.used b + length k ∧
  length (EncryptBuffer.buf b') = length (EncryptBuffer.buf b) ∧
  EncryptBuffer.used b' ≤ length (EncryptBuffer.buf b').
Proof. exact (extend_chunks_inv (E:=E) b (OutboundPlain.Single k) b'). Qed.

(** What is sealed, and with what. *)
Definition inner_plaintext (r : Record_.t OutboundPlain.t) : list u8 :=
  OutboundPlain.flat (Record_.payload r) ++ [ContentType.val (Record_.typ r)].

Definition sealed_as (k : less_safe_key) (iv : Iv.t) (r : Record_.t OutboundPlain.t) (seq : Z)
    (len : nat) (c : list u8) : Prop :=
  ∃ nonce ct tag, nonce_array iv seq = Ok nonce ∧ c = ct ++ tag ∧
    Aead.seal (algorithm k) (key_bytes k) nonce
      (make_tls13_aad ContentType.ApplicationData
         (EncodableVersion.encode (Record_.version r)) len)
      (inner_plaintext r) = (ct, Some tag).

Lemma tls13_encrypt_inv self r seq out e' out' c :
  Tls13RecordEncrypter.encrypt self r seq out = (e', out', Ok c) →
  let len := Tls13RecordEncrypter.encrypted_payload_len self
               (OutboundPlain.len (Record_.payload r)) in
  e' = self ∧ length out' = length out ∧
  Record_.typ c = ContentType.ApplicationData ∧ Record_.version c = Record_.version r ∧
  Record_.payload c = take (length (Record_.payload c)) out' ∧
  sealed_as (Tls13RecordEncrypter.enc_key self) (Tls13RecordEncrypter.iv self) r seq len
    (Record_.payload c).
Proof.
  unfold Tls13RecordEncrypter.encrypt. cbv zeta.
  set (len := Tls13RecordEncrypter.encrypted_payload_len _ _).
  unfold EncryptBuffer.new. destruct get_range as [buf|] eqn:Hb; [|done]. step_ok.
  apply get_range_Some in Hb as (_ & Hlen & ->). cbn [r_start r_end] in Hlen |- *.
  destruct (nonce_array _ seq) as [nonce|e|] eqn:Hn; [step_ok|done..].
  set (b0 := EncryptBuffer.mk _ 0).
  destruct (EncryptBuffer.extend_from_chunks b0 _) as [b1| |] eqn:H1; [step_ok|done..].
  apply extend_chunks_inv in H1 as (Hw1 & Hu1 & Hl1 & Hb1); [|cbn; lia].
  destruct (EncryptBuffer.extend_from_slice b1 _) as [b2| |] eqn:H2; [step_ok|done..].
  apply extend_slice_inv in H2 as (Hw2 & Hu2 & Hl2 & Hb2); [|done].
  rewrite Hw2, Hw1. change (EncryptBuffer.into_written b0) with (@nil u8). cbn [app].
  destruct (Aead.seal _ _ _ _ _) as [ct [tag|]] eqn:Hs; [|done].
  pose proof (Aead.seal_length (algorithm (Tls13RecordEncrypter.enc_key self))
    (key_bytes (Tls13RecordEncrypter.enc_key self)) nonce
    (make_tls13_aad ContentType.ApplicationData (EncodableVersion.encode (Record_.version r)) len)
    (OutboundPlain.flat (Record_.payload r) ++ [ContentType.val (Record_.typ r)])) as Hct.
  rewrite Hs in Hct. cbn [fst] in Hct.
  assert (length ct = EncryptBuffer.used b2) as Hctu.
  { rewrite Hct, length_app, Hu2, Hu1. done. }
  destruct (EncryptBuffer.extend_from_slice _ tag) as [b3| |] eqn:H3; [|done..].
  apply extend_slice_inv in H3 as (Hw3 & Hu3 & Hl3 & Hb3).
  2: { cbn [EncryptBuffer.used EncryptBuffer.buf]. rewrite length_app. lia. }
  intros [= <- <- <-]. cbn [Record_.typ Record_.version Record_.payload].
  cbn [EncryptBuffer.used EncryptBuffer.buf] in Hl3, Hu3.
  assert (EncryptBuffer.into_written b3 = ct ++ tag) as Hw.
  { rewrite Hw3. unfold EncryptBuffer.into_written. cbn [EncryptBuffer.used EncryptBuffer.buf].
    by rewrite take_app_length'. }
  assert (length (EncryptBuffer.buf b3) = len) as Hl.
  { rewrite Hl3, length_app, length_drop, Hctu. cbn in Hl1.
    rewrite length_slice in Hl1 by lia. lia. }
  split_and!; [done| |done..| |].
  - rewrite length_app, Hl, length_drop. lia.
  - unfold EncryptBuffer.into_written. rewrite length_take, take_app_le by lia.
    f_equal. lia.
  - exists nonce, ct, tag. split_and!; [done..|]. exact Hs.
Qed.

Lemma tls13_encrypt_length self r seq out :
  length (Tls13RecordEncrypter.encrypt self r seq out).1.2 = length out.
Proof.
  unfold Tls13RecordEncrypter.encrypt. cbv zeta.
  set (len := Tls13RecordEncrypter.encrypted_payload_len _ _).
  unfold EncryptBuffer.new. destruct get_range as [buf|] eqn:Hb; [|done]. step_ok.
  apply get_range_Some in Hb as (_ & Hlen & ->). cbn [r_start r_end] in Hlen |- *.
  destruct (nonce_array _ seq) as [nonce|e|] eqn:Hn; [step_ok|done..].
  set (b0 := EncryptBuffer.mk _ 0).
  destruct (EncryptBuffer.extend_from_chunks b0 _) as [b1| |] eqn:H1; [step_ok|done..].
  apply extend_chunks_inv in H1 as (_ & _ & Hl1 & Hb1); [|cbn; lia].
  destruct (EncryptBuffer.extend_from_slice b1 _) as [b2| |] eqn:H2; [step_ok|done..].
  apply extend_slice_inv in H2 as (_ & _ & Hl2 & Hb2); [|done].
  cbn in Hl1. rewrite length_slice in Hl1 by lia.
  destruct (Aead.seal _ _ _ _ _) as [ct [tag|]] eqn:Hs;
    apply (f_equal (length ∘ fst)) in Hs; cbn [fst compose] in Hs; rewrite Aead.seal_length in Hs;
    unfold EncryptBuffer.into_written in Hs; rewrite length_take in Hs.
  - destruct (EncryptBuffer.extend_from_slice _ tag) as [b3| |] eqn:H3; [|done..].
    apply extend_slice_inv in H3 as (_ & _ & Hl3 & _);
      cbn [EncryptBuffer.used EncryptBuffer.buf fst snd] in *;
      rewrite !length_app, !length_drop in *; lia.
  - cbn [EncryptBuffer.buf fst snd]. rewrite !length_app, !length_drop. lia.
Qed.

#[global] Instance tls13_encrypter_laws : RecordEncrypterLaws Tls13RecordEncrypter.t.
Proof.
  split; cbn [Send.encrypt Send.encrypted_payload_len Tls13RecordEncrypter.encrypter].
  - apply tls13_encrypt_length.
  - intros e r seq out e' out' c H _. by apply tls13_encrypt_inv in H as (_ & _ & _ & _ & H & _).
  - intros e r seq out e' out' c H Hwf _.
    apply tls13_encrypt_inv in H as (_ & _ & _ & _ & _ & nonce & ct & tag & _ & -> & Hs).
    pose proof (Aead.seal_tag _ _ _ _ _ _ _ Hs) as Ht.
    apply (f_equal (length ∘ fst)) in Hs. cbn [fst compose] in Hs. rewrite Aead.seal_length in Hs.
    unfold Tls13RecordEncrypter.encrypted_payload_len.
    rewrite length_app, <-Hs, Ht, len_flat by done. unfold inner_plaintext.
    rewrite length_app. cbn [length]. lia.
Qed.

(** ** The decrypter *)

(** Removing the padding leaves the front of the payload. *)
Lemma unpadded_prefix r r' :
  into_tls13_unpadded_record r = Ok r' →
  Record_.payload r' = take (length (Record_.payload r')) (Record_.payload r).
Proof.
  unfold into_tls13_unpadded_record. cbv zeta.
  destruct (unpad_tls13_payload (Record_.payload r)) as [typ p] eqn:Hu.
  repeat case_decide; try done. intros [= <-]. cbn [Record_.payload].
  destruct (inner_plaintext_cases (Record_.payload r)) as [Hz|(q & b & n & Hb & Hq)].
  - rewrite Hz, unpad_zeros in Hu. by simplify_eq.
  - rewrite Hq, unpad_content in Hu by done. simplify_eq. rewrite Hq. by rewrite take_app_length.
Qed.

Lemma unpadded_no_panic r : into_tls13_unpadded_record r ≠ Panic.
Proof.
  unfold into_tls13_unpadded_record. cbv zeta. destruct unpad_tls13_payload. by repeat case_decide.
Qed.

#[global] Instance tls13_decrypter_laws : RecordDecrypterLaws Tls13RecordDecrypter.t.
Proof.
  split; cbn [Receive.decrypt Tls13RecordDecrypter.decrypter].
  - intros d r seq. unfold Tls13RecordDecrypter.decrypt. cbv zeta. case_decide; [done|].
    destruct nonce_array as [nonce| |]; [|done..].
    match goal with |- context [Aead.open_ ?a ?k ?n ?d ?p] =>
      pose proof (Aead.open_length a k n d p) as Hl end.
    by destruct Aead.open_ as [p [n|]].
  - intros d r seq d' out p. unfold Tls13RecordDecrypter.decrypt. cbv zeta. case_decide; [done|].
    destruct nonce_array as [nonce| |]; [|done..].
    destruct Aead.open_ as [out1 [n|]] eqn:Ho; [|done].
    destruct into_tls13_unpadded_record as [q| |] eqn:Hq; [step_ok|done..].
    intros [= <- <- <-]. cbn [Record_.payload r_start r_end]. split; [lia|].
    apply unpadded_prefix, (f_equal length) in Hq. cbn [Record_.payload] in Hq.
    rewrite length_take in Hq. apply (f_equal (length ∘ fst)) in Ho. cbn [fst compose] in Ho.
    rewrite Aead.open_length in Ho. unfold InboundOpaque.truncate in Hq.
    case_decide; rewrite ?length_take in Hq; lia.
  - intros d r seq. unfold Tls13RecordDecrypter.decrypt. cbv zeta. case_decide; [done|].
    pose proof (nonce_array_no_panic (Tls13RecordDecrypter.iv d) seq) as Hn.
    destruct nonce_array as [nonce| |]; [|done..].
    destruct Aead.open_ as [out1 [n|]]; [|done]. cbn [snd].
    pose proof (unpadded_no_panic (Record_.new (Record_.typ r) (Record_.version r)
      (InboundOpaque.truncate out1 n))) as Hu.
    by destruct into_tls13_unpadded_record.
Qed.

(** ** What is encrypted is decrypted *)

(** The two ends have the same key and IV. *)
Definition same_keys (e : Tls13RecordEncrypter.t) (d : Tls13RecordDecrypter.t) : Prop :=
  Tls13RecordEncrypter.enc_key e = Tls13RecordDecrypter.dec_key d ∧
  Tls13RecordEncrypter.iv e = Tls13RecordDecrypter.iv d.

(** The contents that the inner plaintext can carry. *)
Definition carried (r : Record_.t OutboundPlain.t) : Prop :=
  OutboundPlain.wf (Record_.payload r) ∧
  (Z.of_nat (OutboundPlain.len (Record_.payload r)) <= MAX_FRAGMENT_LEN)%Z ∧
  ContentType.val (Record_.typ r) ≠ x00 ∧ Record_.typ r ≠ ContentType.ChangeCipherSpec.

Lemma unpadded_inner r :
  carried r →
  ∀ v, into_tls13_unpadded_record
    (Record_.new ContentType.ApplicationData v (inner_plaintext r))
  = Ok (Record_.new (Record_.typ r) (EncodableVersion.Legacy ProtocolVersion.TLSv1_3)
          (OutboundPlain.flat (Record_.payload r))).
Proof.
  intros (Hwf & Hlen & Ht & Hccs) v. rewrite len_flat in Hlen by done.
  unfold into_tls13_unpadded_record, inner_plaintext, into_plain_record.
  cbn [Record_.payload Record_.typ Record_.version].
  rewrite decide_False by (by intros []). rewrite length_app. cbn [length].
  rewrite decide_False by lia.
  pose proof (unpad_content (OutboundPlain.flat (Record_.payload r)) _ 0 Ht) as Hu.
  cbn [replicate] in Hu. rewrite Hu.
  assert (ContentType.new (ContentType.val (Record_.typ r)) = Record_.typ r) as ->
    by (by destruct (Record_.typ r)).
  rewrite decide_False by (intros Hz; by rewrite Hz in Ht).
  rewrite decide_False by done. by rewrite decide_False by lia.
Qed.

(** The payload is as long as was announced. *)
Lemma tls13_payload_length e r seq out e' out' c :
  OutboundPlain.wf (Record_.payload r) →
  Tls13RecordEncrypter.encrypt e r seq out = (e', out', Ok c) →
  length (Record_.payload c) = Tls13RecordEncrypter.encrypted_payload_len e
    (OutboundPlain.len (Record_.payload r)).
Proof.
  intros Hwf H. apply tls13_encrypt_inv in H as (_ & _ & _ & _ & _ & nonce & ct & tag & _ & Hc & Hs).
  pose proof (Aead.seal_tag _ _ _ _ _ _ _ Hs) as Htag.
  pose proof (f_equal (length ∘ fst) Hs) as Hct. cbn [fst compose] in Hct.
  rewrite Aead.seal_length in Hct. unfold inner_plaintext in Hct. rewrite length_app in Hct.
  cbn [length] in Hct. unfold Tls13RecordEncrypter.encrypted_payload_len.
  rewrite len_flat by done. rewrite Hc, length_app. lia.
Qed.

Lemma tls13_pairs e d r seq out e' out' c :
  same_keys e d → carried r → EncodableVersion.encode (Record_.version r) = ProtocolVersion.TLSv1_2 →
  Tls13RecordEncrypter.encrypt e r seq out = (e', out', Ok c) →
  e' = e ∧ Record_.typ c = ContentType.ApplicationData ∧ Record_.version c = Record_.version r ∧
  ∃ rest, Tls13RecordDecrypter.decrypt d
    (Record_.new ContentType.ApplicationData (EncodableVersion.Legacy ProtocolVersion.TLSv1_2)
       (Record_.payload c)) seq
  = (d, OutboundPlain.flat (Record_.payload r) ++ rest,
     Ok (Record_.new (Record_.typ r) (EncodableVersion.Legacy ProtocolVersion.TLSv1_3)
           (mkRange 0 (length (OutboundPlain.flat (Record_.payload r)))))).
Proof.
  intros [Hk Hiv] Hr Hv H.
  destruct (tls13_encrypt_inv _ _ _ _ _ _ _ H) as (-> & Hout & Ht & Hver & Hp & nonce & ct & tag & Hn & Hc & Hs).
  split_and!; [done..|].
  pose proof (tls13_payload_length e r seq out e out' c (proj1 Hr) H) as Hlen.
  unfold Tls13RecordDecrypter.decrypt. cbn [Record_.payload Record_.typ Record_.version].
  rewrite decide_False.
  2: { rewrite Hlen, <-Hk. unfold Tls13RecordEncrypter.encrypted_payload_len. lia. }
  rewrite <-Hiv, Hn, Hlen, <-Hk. cbn [EncodableVersion.version]. rewrite <-Hv.
  destruct (Aead.open_seal _ _ _ _ _ _ _ Hs) as (rest & Ho). rewrite Hc, Ho.
  assert (InboundOpaque.truncate (inner_plaintext r ++ rest) (length (inner_plaintext r))
    = inner_plaintext r) as ->.
  { unfold InboundOpaque.truncate. case_decide as Hle; [|apply take_app_length].
    rewrite length_app in Hle. assert (rest = []) as -> by (apply length_zero_iff_nil; lia).
    by rewrite app_nil_r. }
  rewrite (unpadded_inner r Hr). step_ok. cbn [Record_.payload Record_.typ Record_.version].
  eexists. unfold inner_plaintext. by rewrite <-(assoc_L (++)).
Qed.
