(* ===== verification/KeySchedule.v ===== *)
(** * The TLS 1.3 key schedule ([rustls/src/tls13/key_schedule.rs])

    Secrets are derived with the HKDF of the cipher suite, in stages whose order the
    types of the source enforce: here each stage is a record of its own.  A secret that
    is logged is appended to the list that stands for the effects of [KeyLog::log]. *)
From stdpp Require Import gmap.
From S2P Require Import Prelude Enums Errors Codec Records Fragmenter Cipher Hkdf.
From S2P Require Import Extensions Payloads ServerHello ClientHello Messages Send Receive.

(** ** Cipher suites *)

Module Hash.
(** The trait [Hash], as far as the key schedule uses it; an [Output] is its bytes. *)
(* @src rustls/src/crypto/hash.rs 7-28 Hash *)
Record t := mk {
  hash : list u8 → list u8;
  output_len : nat;
  algorithm : HashAlgorithm.t;
  length_hash data : length (hash data) = output_len;
}.

(* @src rustls/src/crypto/enums.rs 467-489 HashAlgorithm::hash_for_empty_input *)
Definition hash_for_empty_input (self : HashAlgorithm.t) : option (list u8) :=
  if decide (self = HashAlgorithm.SHA256) then Some
    [xe3; xb0; xc4; x42; x98; xfc; x1c; x14;
     x9a; xfb; xf4; xc8; x99; x6f; xb9; x24;
     x27; xae; x41; xe4; x64; x9b; x93; x4c;
     xa4; x95; x99; x1b; x78; x52; xb8; x55]
  else if decide (self = HashAlgorithm.SHA384) then Some
    [x38; xb0; x60; xa7; x51; xac; x96; x38;
     x4c; xd9; x32; x7e; xb1; xb1; xe3; x6a;
     x21; xfd; xb7; x11; x14; xbe; x07; x43;
     x4c; x0c; xc7; xbf; x63; xf6; xe1; xda;
     x27; x4e; xde; xbf; xe7; x6f; x65; xfb;
     xd5; x1a; xd2; xf1; x48; x98; xb9; x5b]
  else None.
End Hash.

Module ConnectionTrafficSecrets.
(* @src rustls/src/suites.rs 152-198 ConnectionTrafficSecrets *)
Inductive t :=
  | Aes128Gcm (key : AeadKey.t) (iv : Iv.t)
  | Aes256Gcm (key : AeadKey.t) (iv : Iv.t)
  | Chacha20Poly1305 (key : AeadKey.t) (iv : Iv.t)
  | Sm4Gcm (key : AeadKey.t) (iv : Iv.t)
  | Sm4Ccm (key : AeadKey.t) (iv : Iv.t).
End ConnectionTrafficSecrets.

Module Tls13AeadAlgorithm.
(** The trait [Tls13AeadAlgorithm]; keys and IVs of the announced lengths are
    accepted, and these fit [AeadKey] and [Iv]. *)
(* @src rustls/src/crypto/cipher/mod.rs 19-49 Tls13AeadAlgorithm *)
Record t (E D : Type) := mk {
  encrypter : AeadKey.t → Iv.t → result Error.t E;
  decrypter : AeadKey.t → Iv.t → result Error.t D;
  key_len : nat;
  iv_len : nat;
  extract_keys : AeadKey.t → Iv.t → result Error.t ConnectionTrafficSecrets.t;
  key_len_bound : key_len ≤ AeadKey.MAX_LEN;
  iv_len_bound : iv_len ≤ Iv.MAX_LEN;
  encrypter_ok key iv : length (AeadKey.as_ref key) = key_len → Iv.len iv = iv_len →
    ∃ e, encrypter key iv = Ok e;
  decrypter_ok key iv : length (AeadKey.as_ref key) = key_len → Iv.len iv = iv_len →
    ∃ d, decrypter key iv = Ok d;
}.
Arguments encrypter {E D}.
Arguments decrypter {E D}.
Arguments key_len {E D}.
Arguments iv_len {E D}.
Arguments extract_keys {E D}.
Arguments key_len_bound {E D}.
Arguments iv_len_bound {E D}.
Arguments encrypter_ok {E D}.
Arguments decrypter_ok {E D}.
End Tls13AeadAlgorithm.

Module CipherSuiteCommon.
(* @src rustls/src/suites.rs 13-50 CipherSuiteCommon *)
Record t := mk { suite : CipherSuite.t; hash_provider : Hash.t; confidentiality_limit : Z }.
End CipherSuiteCommon.

Module Tls13CipherSuite.
(** [Q] are the QUIC algorithms.  The field [protocol_version], which leads to the
    handshake code, is left out. *)
(* @src rustls/src/tls13/mod.rs 33-73 Tls13CipherSuite *)
Record t (E D Q : Type) := mk {
  common : CipherSuiteCommon.t;
  hkdf_provider : Hkdf.t;
  aead_alg : Tls13AeadAlgorithm.t E D;
  quic : option Q;
}.
Arguments mk {E D Q}.
Arguments common {E D Q}.
Arguments hkdf_provider {E D Q}.
Arguments aead_alg {E D Q}.
Arguments quic {E D Q}.

(* @src rustls/src/tls13/mod.rs 76-80 Tls13CipherSuite::can_resume_from *)
Definition can_resume_from {E D Q} (self prev : t E D Q) : option (t E D Q) :=
  if decide (Hash.algorithm (CipherSuiteCommon.hash_provider (common prev))
             = Hash.algorithm (CipherSuiteCommon.hash_provider (common self)))
  then Some prev else None.
End Tls13CipherSuite.

Module Tls13ProtocolSuite.
(** A [quic::Suite] is a suite and a QUIC algorithm. *)
(* @src rustls/src/tls13/mod.rs 14-18 Tls13ProtocolSuite *)
Inductive t (E D Q : Type) :=
  | Tcp (suite : Tls13CipherSuite.t E D Q)
  | Quic (inner : Tls13CipherSuite.t E D Q) (quic : Q).
Arguments Tcp {E D Q}.
Arguments Quic {E D Q}.

(* @src rustls/src/tls13/mod.rs 21-26 Tls13ProtocolSuite::suite *)
Definition suite {E D Q} (self : t E D Q) : Tls13CipherSuite.t E D Q :=
  match self with Tcp suite => suite | Quic inner _ => inner end.

(* @src rustls/src/tls13/mod.rs 28-30 Tls13ProtocolSuite::is_quic *)
Definition is_quic {E D Q} (self : t E D Q) : bool :=
  match self with Quic _ _ => true | Tcp _ => false end.
End Tls13ProtocolSuite.

(** ** Labels *)

Module SecretKind.
(* @src rustls/src/tls13/key_schedule.rs 1178-1193 SecretKind *)
Inductive t :=
  | ResumptionPskBinderKey
  | ClientEarlyTrafficSecret
  | EarlyExporterMasterSecret
  | ClientHandshakeTrafficSecret
  | ServerHandshakeTrafficSecret
  | ClientApplicationTrafficSecret
  | ServerApplicationTrafficSecret
  | ExporterMasterSecret
  | ResumptionMasterSecret
  | DerivedSecret
  | ServerEchConfirmationSecret
  | ServerEchHrrConfirmationSecret.

#[global] Instance eq_dec : EqDecision t.
Proof. solve_decision. Defined.

(* @src rustls/src/tls13/key_schedule.rs 1196-1214 SecretKind::to_bytes *)
Definition to_bytes (self : t) : list u8 :=
  match self with
  | ResumptionPskBinderKey => byte_str "res binder"
  | ClientEarlyTrafficSecret => byte_str "c e traffic"
  | EarlyExporterMasterSecret => byte_str "e exp master"
  | ClientHandshakeTrafficSecret => byte_str "c hs traffic"
  | ServerHandshakeTrafficSecret => byte_str "s hs traffic"
  | ClientApplicationTrafficSecret => byte_str "c ap traffic"
  | ServerApplicationTrafficSecret => byte_str "s ap traffic"
  | ExporterMasterSecret => byte_str "exp master"
  | ResumptionMasterSecret => byte_str "res master"
  | DerivedSecret => byte_str "derived"
  | ServerEchConfirmationSecret => byte_str "ech accept confirmation"
  | ServerEchHrrConfirmationSecret => byte_str "hrr ech accept confirmation"
  end.

(* @src rustls/src/tls13/key_schedule.rs 1216-1230 SecretKind::log_label *)
Definition log_label (self : t) : option string :=
  match self with
  | ClientEarlyTrafficSecret => Some "CLIENT_EARLY_TRAFFIC_SECRET"%string
  | EarlyExporterMasterSecret => Some "EARLY_EXPORTER_SECRET"%string
  | ClientHandshakeTrafficSecret => Some "CLIENT_HANDSHAKE_TRAFFIC_SECRET"%string
  | ServerHandshakeTrafficSecret => Some "SERVER_HANDSHAKE_TRAFFIC_SECRET"%string
  | ClientApplicationTrafficSecret => Some "CLIENT_TRAFFIC_SECRET_0"%string
  | ServerApplicationTrafficSecret => Some "SERVER_TRAFFIC_SECRET_0"%string
  | ExporterMasterSecret => Some "EXPORTER_SECRET"%string
  | _ => None
  end.
End SecretKind.

(** ** HKDF-Expand-Label *)

Definition LABEL_PREFIX : list u8 := byte_str "tls13 ".

(** The [info] of [HKDF-Expand-Label]: lengths are truncated to their width. *)
Definition label_info (label context : list u8) (n : nat) : list (list u8) :=
  [be_bytes 2 (wrapN 16 (Z.of_nat n));
   be_bytes 1 (wrapN 8 (Z.of_nat (length LABEL_PREFIX + length label)));
   LABEL_PREFIX;
   label;
   be_bytes 1 (wrapN 8 (Z.of_nat (length context)));
   context].

(* @src rustls/src/tls13/key_schedule.rs 1150-1176 hkdf_expand_label_inner *)
Definition hkdf_expand_label_inner {T} (expander : HkdfExpander.t) (label context : list u8)
    (n : nat) (f : HkdfExpander.t → list (list u8) → T) : T :=
  f expander (label_info label context n).

(* @src rustls/src/tls13/key_schedule.rs 1063-1073 hkdf_expand_label *)
Definition hkdf_expand_label (N : nat) (expander : HkdfExpander.t) (label context : list u8)
    : result Error.t (list u8) :=
  hkdf_expand_label_inner expander label context N (expand Ok N).

(* @src rustls/src/tls13/key_schedule.rs 1075-1084 hkdf_expand_label_block *)
Definition hkdf_expand_label_block (expander : HkdfExpander.t) (label context : list u8)
    : result Error.t OkmBlock.t :=
  hkdf_expand_label_inner expander label context (HkdfExpander.hash_len expander)
    HkdfExpander.expand_block.

(** More is expanded than the key needs; [info] has the length of the key. *)
(* @src rustls/src/tls13/key_schedule.rs 1086-1096 hkdf_expand_label_aead_key *)
Definition hkdf_expand_label_aead_key (expander : HkdfExpander.t) (key_len : nat)
    (label context : list u8) : result Error.t AeadKey.t :=
  hkdf_expand_label_inner expander label context key_len (λ e info,
    key ← expand (λ bytes, Ok (AeadKey.mk bytes AeadKey.MAX_LEN)) AeadKey.MAX_LEN e info;
    AeadKey.with_length key key_len).

(* @src rustls/src/tls13/key_schedule.rs 1098-1111 hkdf_expand_label_iv *)
Definition hkdf_expand_label_iv (expander : HkdfExpander.t) (label context : list u8)
    (iv_len : nat) : result Error.t Iv.t :=
  hkdf_expand_label_inner expander label context iv_len (λ e info,
    if decide (Iv.MAX_LEN < iv_len) then Panic else
    match HkdfExpander.expand_slice e info iv_len with
    | Ok buf => match Iv.new buf with Ok iv => Ok iv | _ => Panic end
    | _ => Panic
    end).

(* @src rustls/src/tls13/key_schedule.rs 1113-1125 hkdf_expand_label_slice *)
Definition hkdf_expand_label_slice (expander : HkdfExpander.t) (label context : list u8)
    (output_len : nat) : result OutputLengthError.t (list u8) :=
  hkdf_expand_label_inner expander label context output_len (λ e info,
    HkdfExpander.expand_slice e info output_len).

(* @src rustls/src/tls13/key_schedule.rs 1046-1054 derive_traffic_key *)
Definition derive_traffic_key {E D} (expander : HkdfExpander.t) (aead_alg : Tls13AeadAlgorithm.t E D)
    : result Error.t AeadKey.t :=
  hkdf_expand_label_aead_key expander (Tls13AeadAlgorithm.key_len aead_alg) (byte_str "key") [].

(* @src rustls/src/tls13/key_schedule.rs 1056-1061 derive_traffic_iv *)
Definition derive_traffic_iv (expander : HkdfExpander.t) (iv_len : nat) : result Error.t Iv.t :=
  hkdf_expand_label_iv expander (byte_str "iv") [] iv_len.

(* @src rustls/src/tls13/key_schedule.rs 1127-1148 server_ech_hrr_confirmation_secret *)
Definition server_ech_hrr_confirmation_secret (hkdf_provider : Hkdf.t)
    (client_hello_inner_random hs_hash : list u8) : result Error.t (list u8) :=
  expander ← Hkdf.extract_from_secret hkdf_provider None client_hello_inner_random;
  hkdf_expand_label 8 expander (SecretKind.to_bytes SecretKind.ServerEchHrrConfirmationSecret)
    hs_hash.

(* @src rustls/src/tls13/key_schedule.rs 780-792 expand_secret *)
Definition expand_secret (secret : OkmBlock.t) (hkdf : Hkdf.t) (aead_key_len iv_len : nat)
    : result Error.t (AeadKey.t * Iv.t) :=
  let expander := Hkdf.expander_for_okm hkdf secret in
  key ← hkdf_expand_label_aead_key expander aead_key_len (byte_str "key") [];
  iv ← derive_traffic_iv expander iv_len;
  Ok (key, iv).

(** ** What does not depend on the root secret *)

Module KeyLog.
(** A call of [KeyLog::log]. *)
Record entry := mk { label : string; client_random : list u8; secret : list u8 }.
End KeyLog.

Module SecretUpdate.
(* @src rustls/src/quic.rs 522-527 SecretUpdate *)
Record t (E D Q : Type) := mk {
  client : OkmBlock.t;
  server : OkmBlock.t;
  suite : Tls13CipherSuite.t E D Q;
  quic : Q;
  side : Side.t;
}.
Arguments mk {E D Q}.
Arguments client {E D Q}.
Arguments server {E D Q}.
Arguments suite {E D Q}.
Arguments quic {E D Q}.
Arguments side {E D Q}.
End SecretUpdate.

Module KeyScheduleSuite.
(* @src rustls/src/tls13/key_schedule.rs 908-914 KeyScheduleSuite *)
Record t (E D Q : Type) := mk { side : Side.t; state : Tls13ProtocolSuite.t E D Q }.
Arguments mk {E D Q}.
Arguments side {E D Q}.
Arguments state {E D Q}.

Section methods.
Context {E D Q : Type}.
Implicit Types (self : t E D Q).

Definition hkdf self : Hkdf.t := Tls13CipherSuite.hkdf_provider (Tls13ProtocolSuite.suite (state self)).
Definition aead self : Tls13AeadAlgorithm.t E D :=
  Tls13CipherSuite.aead_alg (Tls13ProtocolSuite.suite (state self)).
Definition hash_provider self : Hash.t :=
  CipherSuiteCommon.hash_provider (Tls13CipherSuite.common (Tls13ProtocolSuite.suite (state self))).

(* @src rustls/src/tls13/key_schedule.rs 917-932 KeyScheduleSuite::derive_quic *)
Definition derive_quic self (client_secret server_secret : OkmBlock.t)
    : option (SecretUpdate.t E D Q) :=
  match state self with
  | Tls13ProtocolSuite.Quic suite quic =>
      Some (SecretUpdate.mk client_secret server_secret suite quic (side self))
  | Tls13ProtocolSuite.Tcp _ => None
  end.

(* @src rustls/src/tls13/key_schedule.rs 934-946 KeyScheduleSuite::derive_encrypter *)
Definition derive_encrypter self (secret : OkmBlock.t) : result Error.t (Encrypter.t E) :=
  let expander := Hkdf.expander_for_okm (hkdf self) secret in
  key ← derive_traffic_key expander (aead self);
  iv ← derive_traffic_iv expander (Tls13AeadAlgorithm.iv_len (aead self));
  e ← Tls13AeadAlgorithm.encrypter (aead self) key iv;
  Ok (Encrypter.mk e (CipherSuiteCommon.confidentiality_limit
        (Tls13CipherSuite.common (Tls13ProtocolSuite.suite (state self))))).

(* @src rustls/src/tls13/key_schedule.rs 959-967 KeyScheduleSuite::derive_decrypter *)
Definition derive_decrypter self (secret : OkmBlock.t) : result Error.t D :=
  let expander := Hkdf.expander_for_okm (hkdf self) secret in
  key ← derive_traffic_key expander (aead self);
  iv ← derive_traffic_iv expander (Tls13AeadAlgorithm.iv_len (aead self));
  Tls13AeadAlgorithm.decrypter (aead self) key iv.

(* @src rustls/src/tls13/key_schedule.rs 948-957 KeyScheduleSuite::set_decrypter *)
Definition set_decrypter self (secret : OkmBlock.t) : action (ReceivePath.t D) Error.t unit :=
  d ← lift (derive_decrypter self secret);
  modify (λ receive, ReceivePath.with_decrypt_state
    (DecryptionState.set_record_decrypter d (ReceivePath.decrypt_state receive)) receive).

(* @src rustls/src/tls13/key_schedule.rs 977-993 KeyScheduleSuite::sign_verify_data *)
Definition sign_verify_data self (base_key : OkmBlock.t) (hs_hash : list u8)
    : result Error.t (list u8) :=
  let expander := Hkdf.expander_for_okm (hkdf self) base_key in
  hmac_key ← hkdf_expand_label_block expander (byte_str "finished") [];
  Ok (Hkdf.hmac_sign (hkdf self) hmac_key hs_hash).

(* @src rustls/src/tls13/key_schedule.rs 969-975 KeyScheduleSuite::sign_finish *)
Definition sign_finish self (base_key : OkmBlock.t) (hs_hash : list u8)
    : result Error.t (list u8) := sign_verify_data self base_key hs_hash.

(* @src rustls/src/tls13/key_schedule.rs 995-1003 KeyScheduleSuite::derive_next *)
Definition derive_next self (base_key : OkmBlock.t) : result Error.t OkmBlock.t :=
  hkdf_expand_label_block (Hkdf.expander_for_okm (hkdf self) base_key)
    (byte_str "traffic upd") [].

(* @src rustls/src/tls13/key_schedule.rs 1005-1014 KeyScheduleSuite::derive_ticket_psk *)
Definition derive_ticket_psk self (rms : OkmBlock.t) (nonce : list u8) : result Error.t OkmBlock.t :=
  hkdf_expand_label_block (Hkdf.expander_for_okm (hkdf self) rms) (byte_str "resumption") nonce.

(* @src rustls/src/tls13/key_schedule.rs 1016-1043 KeyScheduleSuite::export_keying_material *)
Definition export_keying_material self (current_exporter_secret : OkmBlock.t) (label : list u8)
    (context : option (list u8)) (out_len : nat) : result Error.t (list u8) :=
  secret ← (let h_empty := Hash.hash (hash_provider self) [] in
            hkdf_expand_label_block (Hkdf.expander_for_okm (hkdf self) current_exporter_secret)
              label h_empty);
  let h_context := Hash.hash (hash_provider self) (default [] context) in
  map_err (λ _, Error.ApiMisuse ApiMisuse.ExporterOutputTooLong)
    (hkdf_expand_label_slice (Hkdf.expander_for_okm (hkdf self) secret) (byte_str "exporter")
       h_context out_len).
End methods.
End KeyScheduleSuite.

(** ** The root secret *)

Module KeySchedule.
(* @src rustls/src/tls13/key_schedule.rs 794-800 KeySchedule *)
Record t (E D Q : Type) := mk { current : HkdfExpander.t; inner : KeyScheduleSuite.t E D Q }.
Arguments mk {E D Q}.
Arguments current {E D Q}.
Arguments inner {E D Q}.

Section methods.
Context {E D Q : Type}.
Implicit Types (self : t E D Q).

(* @src rustls/src/tls13/key_schedule.rs 803-811 KeySchedule::new *)
Definition new (side : Side.t) (suite : Tls13ProtocolSuite.t E D Q) (secret : list u8)
    : result Error.t (t E D Q) :=
  let inner := KeyScheduleSuite.mk side suite in
  current ← Hkdf.extract_from_secret (KeyScheduleSuite.hkdf inner) None secret;
  Ok (mk current inner).

(* @src rustls/src/tls13/key_schedule.rs 813-822 KeySchedule::new_with_empty_secret *)
Definition new_with_empty_secret (side : Side.t) (state : Tls13ProtocolSuite.t E D Q)
    : result Error.t (t E D Q) :=
  let inner := KeyScheduleSuite.mk side state in
  current ← Hkdf.extract_from_zero_ikm (KeyScheduleSuite.hkdf inner) None;
  Ok (mk current inner).

(* @src rustls/src/tls13/key_schedule.rs 848-857 KeySchedule::derive *)
Definition derive self (kind : SecretKind.t) (hs_hash : list u8) : result Error.t OkmBlock.t :=
  hkdf_expand_label_block (current self) (SecretKind.to_bytes kind) hs_hash.

(* @src rustls/src/tls13/key_schedule.rs 859-875 KeySchedule::derive_logged_secret *)
Definition derive_logged_secret self (kind : SecretKind.t) (hs_hash : list u8)
    (will_log : string → bool) (client_random : list u8)
    : action (list KeyLog.entry) Error.t OkmBlock.t :=
  output ← lift (derive self kind hs_hash);
  log_label ← lift (unwrap (SecretKind.log_label kind));
  _ ← (if will_log log_label
       then modify (λ log, log ++ [KeyLog.mk log_label client_random (OkmBlock.as_ref output)])
       else mret tt);
  mret output.

(* @src rustls/src/tls13/key_schedule.rs 877-897 KeySchedule::derive_for_empty_hash *)
Definition derive_for_empty_hash self (kind : SecretKind.t) : result Error.t OkmBlock.t :=
  let hp := KeyScheduleSuite.hash_provider (inner self) in
  let empty_hash :=
    match Hash.hash_for_empty_input (Hash.algorithm hp) with
    | Some h => h
    | None => Hash.hash hp []
    end in
  derive self kind empty_hash.

(* @src rustls/src/tls13/key_schedule.rs 824-836 KeySchedule::input_empty *)
Definition input_empty self : result Error.t (t E D Q) :=
  salt ← derive_for_empty_hash self SecretKind.DerivedSecret;
  current ← Hkdf.extract_from_zero_ikm (KeyScheduleSuite.hkdf (inner self))
              (Some (OkmBlock.as_ref salt));
  Ok (mk current (inner self)).

(* @src rustls/src/tls13/key_schedule.rs 838-846 KeySchedule::input_secret *)
Definition input_secret self (secret : list u8) : result Error.t (t E D Q) :=
  salt ← derive_for_empty_hash self SecretKind.DerivedSecret;
  current ← Hkdf.extract_from_secret (KeyScheduleSuite.hkdf (inner self))
              (Some (OkmBlock.as_ref salt)) secret;
  Ok (mk current (inner self)).
End methods.
End KeySchedule.

(** ** The traffic stage *)

Module KeyScheduleTrafficSend.
(* @src rustls/src/tls13/key_schedule.rs 677-681 KeyScheduleTrafficSend *)
Record t (E D Q : Type) := mk { ks : KeyScheduleSuite.t E D Q; current : OkmBlock.t }.
Arguments mk {E D Q}.
Arguments ks {E D Q}.
Arguments current {E D Q}.

Section methods.
Context {E D Q : Type}.
Implicit Types (self : t E D Q).

(* @src rustls/src/tls13/key_schedule.rs 684-689 KeyScheduleTrafficSend::update_encrypter_for_key_update *)
Definition update_encrypter_for_key_update self : result Error.t (Encrypter.t E * t E D Q) :=
  secret ← KeyScheduleSuite.derive_next (ks self) (current self);
  encrypter ← KeyScheduleSuite.derive_encrypter (ks self) secret;
  Ok (encrypter, mk (ks self) secret).

(* @src rustls/src/tls13/key_schedule.rs 691-696 KeyScheduleTrafficSend::update_encrypter *)
Definition update_encrypter self : result Error.t (Encrypter.t E * t E D Q) :=
  secret ← KeyScheduleSuite.derive_next (ks self) (current self);
  encrypter ← KeyScheduleSuite.derive_encrypter (ks self) secret;
  Ok (encrypter, mk (ks self) secret).

(* @src rustls/src/tls13/key_schedule.rs 703-713 KeyScheduleTrafficSend::extract *)
Definition extract self : result Error.t ConnectionTrafficSecrets.t :=
  let aead := KeyScheduleSuite.aead (ks self) in
  '(key, iv) ← expand_secret (current self) (KeyScheduleSuite.hkdf (ks self))
                 (Tls13AeadAlgorithm.key_len aead) (Tls13AeadAlgorithm.iv_len aead);
  Tls13AeadAlgorithm.extract_keys aead key iv.

(* @src rustls/src/tls13/key_schedule.rs 698-701 KeyScheduleTrafficSend::refresh_traffic_secret *)
Definition refresh_traffic_secret : action (t E D Q) Error.t ConnectionTrafficSecrets.t :=
  self ← gets id;
  secret ← lift (KeyScheduleSuite.derive_next (ks self) (current self));
  _ ← modify (λ self, mk (ks self) secret);
  self ← gets id;
  lift (extract self).
End methods.

#[global] Instance traffic_send {E D Q} : TrafficSend (t E D Q) E := {|
  Send.update_encrypter := update_encrypter;
  Send.update_encrypter_for_key_update := update_encrypter_for_key_update;
|}.
End KeyScheduleTrafficSend.

Module KeyScheduleTrafficReceive.
(* @src rustls/src/tls13/key_schedule.rs 716-720 KeyScheduleTrafficReceive *)
Record t (E D Q : Type) := mk { ks : KeyScheduleSuite.t E D Q; current : OkmBlock.t }.
Arguments mk {E D Q}.
Arguments ks {E D Q}.
Arguments current {E D Q}.

Section methods.
Context {E D Q : Type}.
Implicit Types (self : t E D Q).

(* @src rustls/src/tls13/key_schedule.rs 723-732 KeyScheduleTrafficReceive::update_decrypter *)
Definition update_decrypter self : action (ReceivePath.t D) Error.t (t E D Q) :=
  secret ← lift (KeyScheduleSuite.derive_next (ks self) (current self));
  _ ← KeyScheduleSuite.set_decrypter (ks self) secret;
  mret (mk (ks self) secret).

(* @src rustls/src/tls13/key_schedule.rs 739-749 KeyScheduleTrafficReceive::extract *)
Definition extract self : result Error.t ConnectionTrafficSecrets.t :=
  let aead := KeyScheduleSuite.aead (ks self) in
  '(key, iv) ← expand_secret (current self) (KeyScheduleSuite.hkdf (ks self))
                 (Tls13AeadAlgorithm.key_len aead) (Tls13AeadAlgorithm.iv_len aead);
  Tls13AeadAlgorithm.extract_keys aead key iv.

(* @src rustls/src/tls13/key_schedule.rs 734-737 KeyScheduleTrafficReceive::refresh_traffic_secret *)
Definition refresh_traffic_secret : action (t E D Q) Error.t ConnectionTrafficSecrets.t :=
  self ← gets id;
  secret ← lift (KeyScheduleSuite.derive_next (ks self) (current self));
  _ ← modify (λ self, mk (ks self) secret);
  self ← gets id;
  lift (extract self).

(* @src rustls/src/tls13/key_schedule.rs 751-753 KeyScheduleTrafficReceive::is_quic *)
Definition is_quic self : bool := Tls13ProtocolSuite.is_quic (KeyScheduleSuite.state (ks self)).
End methods.
End KeyScheduleTrafficReceive.

Module KeyScheduleTraffic.
(* @src rustls/src/tls13/key_schedule.rs 643-649 KeyScheduleTraffic *)
Record t (E D Q : Type) := mk {
  ks : KeyScheduleSuite.t E D Q;
  current_client_traffic_secret : OkmBlock.t;
  current_server_traffic_secret : OkmBlock.t;
}.
Arguments mk {E D Q}.
Arguments ks {E D Q}.
Arguments current_client_traffic_secret {E D Q}.
Arguments current_server_traffic_secret {E D Q}.

(* @src rustls/src/tls13/key_schedule.rs 652-674 KeyScheduleTraffic::split *)
Definition split {E D Q} (self : t E D Q)
    : KeyScheduleTrafficSend.t E D Q * KeyScheduleTrafficReceive.t E D Q :=
  let '(send, receive) :=
    match KeyScheduleSuite.side (ks self) with
    | Side.Client => (current_client_traffic_secret self, current_server_traffic_secret self)
    | Side.Server => (current_server_traffic_secret self, current_client_traffic_secret self)
    end in
  (KeyScheduleTrafficSend.mk (ks self) send, KeyScheduleTrafficReceive.mk (ks self) receive).
End KeyScheduleTraffic.

Module KeyScheduleExporter.
(* @src rustls/src/tls13/key_schedule.rs 756-759 KeyScheduleExporter *)
Record t (E D Q : Type) := mk {
  ks : KeyScheduleSuite.t E D Q;
  current_exporter_secret : OkmBlock.t;
}.
Arguments mk {E D Q}.
Arguments ks {E D Q}.
Arguments current_exporter_secret {E D Q}.

(* @src rustls/src/tls13/key_schedule.rs 762-765 KeyScheduleExporter::derive *)
Definition derive {E D Q} (self : t E D Q) (label : list u8) (context : option (list u8))
    (out_len : nat) : result Error.t (list u8) :=
  KeyScheduleSuite.export_keying_material (ks self) (current_exporter_secret self) label context
    out_len.
End KeyScheduleExporter.

Module KeyScheduleResumption.
(* @src rustls/src/tls13/key_schedule.rs 768-771 KeyScheduleResumption *)
Record t (E D Q : Type) := mk {
  ks : KeyScheduleSuite.t E D Q;
  resumption_master_secret : OkmBlock.t;
}.
Arguments mk {E D Q}.
Arguments ks {E D Q}.
Arguments resumption_master_secret {E D Q}.

(* @src rustls/src/tls13/key_schedule.rs 774-777 KeyScheduleResumption::derive_ticket_psk *)
Definition derive_ticket_psk {E D Q} (self : t E D Q) (nonce : list u8)
    : result Error.t OkmBlock.t :=
  KeyScheduleSuite.derive_ticket_psk (ks self) (resumption_master_secret self) nonce.
End KeyScheduleResumption.

(** ** The handshake stages *)

Module KeyScheduleBeforeFinished.
(* @src rustls/src/tls13/key_schedule.rs 470-476 KeyScheduleBeforeFinished *)
Record t (E D Q : Type) := mk {
  ks : KeySchedule.t E D Q;
  current_client_traffic_secret : OkmBlock.t;
  current_server_traffic_secret : OkmBlock.t;
  current_exporter_secret : OkmBlock.t;
}.
Arguments mk {E D Q}.
Arguments ks {E D Q}.
Arguments current_client_traffic_secret {E D Q}.
Arguments current_server_traffic_secret {E D Q}.
Arguments current_exporter_secret {E D Q}.

Section methods.
Context {E D Q : Type}.

(* @src rustls/src/tls13/key_schedule.rs 479-514 KeyScheduleBeforeFinished::new *)
Definition new (ks : KeySchedule.t E D Q) (hs_hash : list u8) (will_log : string → bool)
    (client_random : list u8) : action (list KeyLog.entry) Error.t (t E D Q) :=
  ks ← lift (KeySchedule.input_empty ks);
  let derive kind := KeySchedule.derive_logged_secret ks kind hs_hash will_log client_random in
  client ← derive SecretKind.ClientApplicationTrafficSecret;
  server ← derive SecretKind.ServerApplicationTrafficSecret;
  exporter ← derive SecretKind.ExporterMasterSecret;
  mret (mk ks client server exporter).

(* @src rustls/src/tls13/key_schedule.rs 516-549 KeyScheduleBeforeFinished::into_traffic *)
Definition into_traffic (self : t E D Q) (hs_hash : list u8)
    : result Error.t (KeyScheduleTraffic.t E D Q * KeyScheduleExporter.t E D Q *
                      KeyScheduleResumption.t E D Q) :=
  resumption_master_secret ←
    KeySchedule.derive (ks self) SecretKind.ResumptionMasterSecret hs_hash;
  let inner := KeySchedule.inner (ks self) in
  Ok (KeyScheduleTraffic.mk inner (current_client_traffic_secret self)
        (current_server_traffic_secret self),
      KeyScheduleExporter.mk inner (current_exporter_secret self),
      KeyScheduleResumption.mk inner resumption_master_secret).
End methods.
End KeyScheduleBeforeFinished.

Module ClientTrafficSecrets.
(* @src rustls/src/tls13/key_schedule.rs 587-594 ClientTrafficSecrets *)
Record t (E D Q : Type) := mk {
  key_schedule : KeyScheduleTraffic.t E D Q;
  exporter : KeyScheduleExporter.t E D Q;
  resumption : KeyScheduleResumption.t E D Q;
  decrypter : D;
  encrypter : Encrypter.t E;
  quic : option (SecretUpdate.t E D Q);
}.
Arguments mk {E D Q}.
Arguments key_schedule {E D Q}.
Arguments exporter {E D Q}.
Arguments resumption {E D Q}.
Arguments decrypter {E D Q}.
Arguments encrypter {E D Q}.
Arguments quic {E D Q}.
End ClientTrafficSecrets.

Module KeyScheduleClientBeforeFinished.
(** The newtype is the stage it wraps. *)
(* @src rustls/src/tls13/key_schedule.rs 560-584 KeyScheduleClientBeforeFinished::into_traffic *)
Definition into_traffic {E D Q} (next : KeyScheduleBeforeFinished.t E D Q) (hs_hash : list u8)
    : result Error.t (ClientTrafficSecrets.t E D Q) :=
  let ks := KeySchedule.inner (KeyScheduleBeforeFinished.ks next) in
  let client_secret := KeyScheduleBeforeFinished.current_client_traffic_secret next in
  let server_secret := KeyScheduleBeforeFinished.current_server_traffic_secret next in
  decrypter ← KeyScheduleSuite.derive_decrypter ks server_secret;
  encrypter ← KeyScheduleSuite.derive_encrypter ks client_secret;
  let quic := KeyScheduleSuite.derive_quic ks client_secret server_secret in
  '(key_schedule, exporter, resumption) ← KeyScheduleBeforeFinished.into_traffic next hs_hash;
  Ok (ClientTrafficSecrets.mk key_schedule exporter resumption decrypter encrypter quic).
End KeyScheduleClientBeforeFinished.

Module KeyScheduleTrafficWithClientFinishedPending.
(* @src rustls/src/tls13/key_schedule.rs 596-602 KeyScheduleTrafficWithClientFinishedPending *)
Record t (E D Q : Type) := mk {
  handshake_client_traffic_secret : OkmBlock.t;
  before_finished : KeyScheduleBeforeFinished.t E D Q;
}.
Arguments mk {E D Q}.
Arguments handshake_client_traffic_secret {E D Q}.
Arguments before_finished {E D Q}.

Section methods.
Context {E D Q : Type}.
Implicit Types (self : t E D Q).

Definition inner self : KeyScheduleSuite.t E D Q :=
  KeySchedule.inner (KeyScheduleBeforeFinished.ks (before_finished self)).

(* @src rustls/src/tls13/key_schedule.rs 605-616 KeyScheduleTrafficWithClientFinishedPending::update_decrypter *)
Definition update_decrypter self : action (ReceivePath.t D) Error.t unit :=
  KeyScheduleSuite.set_decrypter (inner self) (handshake_client_traffic_secret self).

(* @src rustls/src/tls13/key_schedule.rs 618-640 KeyScheduleTrafficWithClientFinishedPending::sign_client_finish *)
Definition sign_client_finish self (hs_hash : list u8)
    : action (ReceivePath.t D) Error.t (KeyScheduleBeforeFinished.t E D Q * list u8) :=
  tag ← lift (KeyScheduleSuite.sign_finish (inner self) (handshake_client_traffic_secret self) hs_hash);
  _ ← KeyScheduleSuite.set_decrypter (inner self)
        (KeyScheduleBeforeFinished.current_client_traffic_secret (before_finished self));
  mret (before_finished self, tag).
End methods.
End KeyScheduleTrafficWithClientFinishedPending.

Module ServerTrafficSecrets.
(* @src rustls/src/tls13/key_schedule.rs 460-468 ServerTrafficSecrets *)
Record t (E D Q : Type) := mk {
  key_schedule : KeyScheduleTrafficWithClientFinishedPending.t E D Q;
  encrypter : Encrypter.t E;
  quic : option (SecretUpdate.t E D Q);
}.
Arguments mk {E D Q}.
Arguments key_schedule {E D Q}.
Arguments encrypter {E D Q}.
Arguments quic {E D Q}.
End ServerTrafficSecrets.

Module KeyScheduleHandshake.
(* @src rustls/src/tls13/key_schedule.rs 366-370 KeyScheduleHandshake *)
Record t (E D Q : Type) := mk {
  ks : KeySchedule.t E D Q;
  client_handshake_traffic_secret : OkmBlock.t;
  server_handshake_traffic_secret : OkmBlock.t;
}.
Arguments mk {E D Q}.
Arguments ks {E D Q}.
Arguments client_handshake_traffic_secret {E D Q}.
Arguments server_handshake_traffic_secret {E D Q}.

Section methods.
Context {E D Q : Type}.
Implicit Types (self : t E D Q).

(* @src rustls/src/tls13/key_schedule.rs 373-380 KeyScheduleHandshake::sign_server_finish *)
Definition sign_server_finish self (hs_hash : list u8) : result Error.t (list u8) :=
  KeyScheduleSuite.sign_finish (KeySchedule.inner (ks self)) (server_handshake_traffic_secret self)
    hs_hash.

(* @src rustls/src/tls13/key_schedule.rs 382-386 KeyScheduleHandshake::handshake_encrypter *)
Definition handshake_encrypter self : result Error.t (Encrypter.t E) :=
  KeyScheduleSuite.derive_encrypter (KeySchedule.inner (ks self))
    (client_handshake_traffic_secret self).

(* @src rustls/src/tls13/key_schedule.rs 388-409 KeyScheduleHandshake::set_handshake_decrypter *)
Definition set_handshake_decrypter self (skip_requested : option nat)
    : action (ReceivePath.t D) Error.t unit :=
  match skip_requested with
  | None => KeyScheduleSuite.set_decrypter (KeySchedule.inner (ks self))
              (client_handshake_traffic_secret self)
  | Some max_early_data_size =>
      d ← lift (KeyScheduleSuite.derive_decrypter (KeySchedule.inner (ks self))
                  (client_handshake_traffic_secret self));
      modify (λ receive, ReceivePath.with_decrypt_state
        (DecryptionState.set_record_decrypter_with_trial_decryption d max_early_data_size
           (ReceivePath.decrypt_state receive)) receive)
  end.

(* @src rustls/src/tls13/key_schedule.rs 411-438 KeyScheduleHandshake::into_traffic_with_client_finished_pending *)
Definition into_traffic_with_client_finished_pending self (hs_hash : list u8)
    (will_log : string → bool) (client_random : list u8)
    : action (list KeyLog.entry) Error.t (ServerTrafficSecrets.t E D Q) :=
  before_finished ← KeyScheduleBeforeFinished.new (ks self) hs_hash will_log client_random;
  let inner := KeySchedule.inner (KeyScheduleBeforeFinished.ks before_finished) in
  let client_secret := KeyScheduleBeforeFinished.current_client_traffic_secret before_finished in
  let server_secret := KeyScheduleBeforeFinished.current_server_traffic_secret before_finished in
  encrypter ← lift (KeyScheduleSuite.derive_encrypter inner server_secret);
  mret (ServerTrafficSecrets.mk
    (KeyScheduleTrafficWithClientFinishedPending.mk (client_handshake_traffic_secret self)
       before_finished)
    encrypter (KeyScheduleSuite.derive_quic inner client_secret server_secret)).

(* @src rustls/src/tls13/key_schedule.rs 440-453 KeyScheduleHandshake::into_pre_finished_client_traffic *)
Definition into_pre_finished_client_traffic self (pre_finished_hash handshake_hash : list u8)
    (will_log : string → bool) (client_random : list u8)
    : action (list KeyLog.entry) Error.t (KeyScheduleBeforeFinished.t E D Q * list u8) :=
  before_finished ← KeyScheduleBeforeFinished.new (ks self) pre_finished_hash will_log client_random;
  tag ← lift (KeyScheduleSuite.sign_finish
                (KeySchedule.inner (KeyScheduleBeforeFinished.ks before_finished))
                (client_handshake_traffic_secret self) handshake_hash);
  mret (before_finished, tag).
End methods.
End KeyScheduleHandshake.

Module HandshakeSecrets.
(** [ClientHandshakeSecrets], with the decrypter, and [ServerHandshakeSecrets], with
    the encrypter. *)
(* @src rustls/src/tls13/key_schedule.rs 352-364 ClientHandshakeSecrets *)
Record t (E D Q K : Type) := mk {
  key_schedule : KeyScheduleHandshake.t E D Q;
  cipher : K;
  quic : option (SecretUpdate.t E D Q);
}.
Arguments mk {E D Q K}.
Arguments key_schedule {E D Q K}.
Arguments cipher {E D Q K}.
Arguments quic {E D Q K}.
End HandshakeSecrets.

Module KeyScheduleHandshakeStart.
(* @src rustls/src/tls13/key_schedule.rs 240-245 KeyScheduleHandshakeStart *)
Record t (E D Q : Type) := mk { ks : KeySchedule.t E D Q }.
Arguments mk {E D Q}.
Arguments ks {E D Q}.

Section methods.
Context {E D Q : Type}.
Implicit Types (self : t E D Q).

(* @src rustls/src/tls13/key_schedule.rs 317-349 KeyScheduleHandshakeStart::into_handshake *)
Definition into_handshake self (hs_hash : list u8) (will_log : string → bool)
    (client_random : list u8)
    : action (list KeyLog.entry) Error.t
        (KeyScheduleHandshake.t E D Q * option (SecretUpdate.t E D Q)) :=
  let derive kind :=
    KeySchedule.derive_logged_secret (ks self) kind hs_hash will_log client_random in
  client_secret ← derive SecretKind.ClientHandshakeTrafficSecret;
  server_secret ← derive SecretKind.ServerHandshakeTrafficSecret;
  let quic := KeyScheduleSuite.derive_quic (KeySchedule.inner (ks self)) client_secret server_secret in
  mret (KeyScheduleHandshake.mk (ks self) client_secret server_secret, quic).

(** The suite might have changed due to resumption. *)
(* @src rustls/src/tls13/key_schedule.rs 248-268 KeyScheduleHandshakeStart::derive_client_handshake_secrets *)
Definition derive_client_handshake_secrets self (hs_hash : list u8)
    (state : Tls13ProtocolSuite.t E D Q) (will_log : string → bool) (client_random : list u8)
    : action (list KeyLog.entry) Error.t (HandshakeSecrets.t E D Q D) :=
  let inner := KeySchedule.inner (ks self) in
  let self := mk (KeySchedule.mk (KeySchedule.current (ks self))
                    (KeyScheduleSuite.mk (KeyScheduleSuite.side inner) state)) in
  '(key_schedule, quic) ← into_handshake self hs_hash will_log client_random;
  decrypter ← lift (KeyScheduleSuite.derive_decrypter
    (KeySchedule.inner (KeyScheduleHandshake.ks key_schedule))
    (KeyScheduleHandshake.server_handshake_traffic_secret key_schedule));
  mret (HandshakeSecrets.mk key_schedule decrypter quic).

(* @src rustls/src/tls13/key_schedule.rs 270-290 KeyScheduleHandshakeStart::derive_server_handshake_secrets *)
Definition derive_server_handshake_secrets self (hs_hash : list u8) (will_log : string → bool)
    (client_random : list u8)
    : action (list KeyLog.entry) Error.t (HandshakeSecrets.t E D Q (Encrypter.t E)) :=
  '(key_schedule, quic) ← into_handshake self hs_hash will_log client_random;
  encrypter ← lift (KeyScheduleSuite.derive_encrypter
    (KeySchedule.inner (KeyScheduleHandshake.ks key_schedule))
    (KeyScheduleHandshake.server_handshake_traffic_secret key_schedule));
  mret (HandshakeSecrets.mk key_schedule encrypter quic).

(* @src rustls/src/tls13/key_schedule.rs 292-315 KeyScheduleHandshakeStart::server_ech_confirmation_secret *)
Definition server_ech_confirmation_secret self (client_hello_inner_random hs_hash : list u8)
    : result Error.t (list u8) :=
  expander ← Hkdf.extract_from_secret (KeyScheduleSuite.hkdf (KeySchedule.inner (ks self))) None
               client_hello_inner_random;
  hkdf_expand_label 8 expander (SecretKind.to_bytes SecretKind.ServerEchConfirmationSecret) hs_hash.
End methods.
End KeyScheduleHandshakeStart.

Module KeyScheduleEarly.
(* @src rustls/src/tls13/key_schedule.rs 96-105 KeyScheduleEarly *)
Record t (E D Q : Type) := mk { ks : KeySchedule.t E D Q }.
Arguments mk {E D Q}.
Arguments ks {E D Q}.

Section methods.
Context {E D Q : Type}.
Implicit Types (self : t E D Q).

(* @src rustls/src/tls13/key_schedule.rs 108-112 KeyScheduleEarly::new *)
Definition new (local : Side.t) (suite : Tls13ProtocolSuite.t E D Q) (secret : list u8)
    : result Error.t (t E D Q) :=
  ks ← KeySchedule.new local suite secret; Ok (mk ks).

(* @src rustls/src/tls13/key_schedule.rs 114-134 KeyScheduleEarly::client_early_traffic_secret *)
Definition client_early_traffic_secret self (hs_hash : list u8) (will_log : string → bool)
    (client_random : list u8) : action (list KeyLog.entry) Error.t OkmBlock.t :=
  KeySchedule.derive_logged_secret (ks self) SecretKind.ClientEarlyTrafficSecret hs_hash will_log
    client_random.

(* @src rustls/src/tls13/key_schedule.rs 32-45 KeyScheduleEarlyClient::client_early_traffic_secret *)
Definition client_early_encrypter self (hs_hash : list u8) (will_log : string → bool)
    (client_random : list u8) : action (list KeyLog.entry) Error.t (Encrypter.t E * OkmBlock.t) :=
  secret ← client_early_traffic_secret self hs_hash will_log client_random;
  encrypter ← lift (KeyScheduleSuite.derive_encrypter (KeySchedule.inner (ks self)) secret);
  mret (encrypter, secret).

(* @src rustls/src/tls13/key_schedule.rs 67-80 KeyScheduleEarlyServer::client_early_traffic_secret *)
Definition client_early_decrypter self (hs_hash : list u8) (will_log : string → bool)
    (client_random : list u8) : action (list KeyLog.entry) Error.t (D * OkmBlock.t) :=
  secret ← client_early_traffic_secret self hs_hash will_log client_random;
  decrypter ← lift (KeyScheduleSuite.derive_decrypter (KeySchedule.inner (ks self)) secret);
  mret (decrypter, secret).

(* @src rustls/src/tls13/key_schedule.rs 136-145 KeyScheduleEarly::resumption_psk_binder_key_and_sign_verify_data *)
Definition resumption_psk_binder_key_and_sign_verify_data self (hs_hash : list u8)
    : result Error.t (list u8) :=
  resumption_psk_binder_key ←
    KeySchedule.derive_for_empty_hash (ks self) SecretKind.ResumptionPskBinderKey;
  KeyScheduleSuite.sign_verify_data (KeySchedule.inner (ks self)) resumption_psk_binder_key hs_hash.

(* @src rustls/src/tls13/key_schedule.rs 147-163 KeyScheduleEarly::early_exporter *)
Definition early_exporter self (hs_hash : list u8) (will_log : string → bool)
    (client_random : list u8)
    : action (list KeyLog.entry) Error.t (KeyScheduleExporter.t E D Q) :=
  early_exporter_secret ← KeySchedule.derive_logged_secret (ks self)
    SecretKind.EarlyExporterMasterSecret hs_hash will_log client_random;
  mret (KeyScheduleExporter.mk (KeySchedule.inner (ks self)) early_exporter_secret).
End methods.
End KeyScheduleEarly.

Module KeySchedulePreHandshake.
(* @src rustls/src/tls13/key_schedule.rs 175-200 KeySchedulePreHandshake *)
Record t (E D Q : Type) := mk { ks : KeySchedule.t E D Q }.
Arguments mk {E D Q}.
Arguments ks {E D Q}.

Section methods.
Context {E D Q : Type}.

(* @src rustls/src/tls13/key_schedule.rs 203-208 KeySchedulePreHandshake::new *)
Definition new (local : Side.t) (suite : Tls13ProtocolSuite.t E D Q) : result Error.t (t E D Q) :=
  ks ← KeySchedule.new_with_empty_secret local suite; Ok (mk ks).

(** Either side's, for a key schedule with a PSK. *)
(* @src rustls/src/tls13/key_schedule.rs 226-238 From_for_KeySchedulePreHandshake *)
Definition from (early : KeyScheduleEarly.t E D Q) : t E D Q := mk (KeyScheduleEarly.ks early).

(* @src rustls/src/tls13/key_schedule.rs 210-223 KeySchedulePreHandshake::into_handshake *)
Definition into_handshake (self : t E D Q) (shared_secret : list u8)
    : result Error.t (KeyScheduleHandshakeStart.t E D Q) :=
  ks ← KeySchedule.input_secret (ks self) shared_secret;
  Ok (KeyScheduleHandshakeStart.mk ks).
End methods.
End KeySchedulePreHandshake.
