(* ===== verification/KeyScheduleSpec.v ===== *)
(** * What the key schedule guarantees

    Every derivation succeeds; the two ends of a connection derive the same secrets,
    and so ciphers that fit together, in every stage and after every key update; and
    no two secrets are derived from the same input. *)
From stdpp Require Import gmap.
From S2P Require Import Prelude Enums Errors Codec Records Fragmenter Cipher Hkdf.
From S2P Require Import Extensions Payloads ServerHello ClientHello Messages Send Receive.
From S2P Require Import KeySchedule.

(** ** Every derivation succeeds *)

Lemma block_ok x label context :
  ∃ okm, hkdf_expand_label_block x label context = Ok okm ∧
    length (OkmBlock.as_ref okm) = HkdfExpander.hash_len x.
Proof. apply HkdfExpander.expand_block_ok. Qed.

Lemma aead_key_ok x key_len label context :
  key_len ≤ AeadKey.MAX_LEN →
  ∃ key, hkdf_expand_label_aead_key x key_len label context = Ok key ∧
    length (AeadKey.as_ref key) = key_len.
Proof.
  intros Hk. unfold hkdf_expand_label_aead_key, hkdf_expand_label_inner, expand.
  pose proof (HkdfExpander.hash_len_pos x) as Hp.
  destruct (HkdfExpander.expand_slice_ok x (label_info label context key_len) AeadKey.MAX_LEN)
    as (okm & -> & Hl); [unfold AeadKey.MAX_LEN; lia|]. step_ok.
  unfold AeadKey.with_length. cbn [AeadKey.used AeadKey.buf]. rewrite decide_True by done.
  unfold write_at. rewrite length_replicate, decide_True by lia. step_ok. eexists. split; [done|].
  unfold AeadKey.as_ref. cbn [AeadKey.used AeadKey.buf]. rewrite length_take, length_app, length_take.
  lia.
Qed.

Lemma iv_new_ok bytes :
  length bytes ≤ Iv.MAX_LEN → ∃ iv, Iv.new bytes = Ok iv ∧ Iv.as_ref iv = bytes.
Proof.
  intros H. unfold Iv.new. destruct (decide (length bytes ≤ Iv.MAX_LEN)); [|done].
  eexists. split; [done|]. apply take_app_length.
Qed.

Lemma iv_ok x label context iv_len :
  iv_len ≤ Iv.MAX_LEN →
  ∃ iv, hkdf_expand_label_iv x label context iv_len = Ok iv ∧ Iv.len iv = iv_len.
Proof.
  intros Hk. unfold hkdf_expand_label_iv, hkdf_expand_label_inner.
  pose proof (HkdfExpander.hash_len_pos x) as Hp. rewrite decide_False by lia.
  destruct (HkdfExpander.expand_slice_ok x (label_info label context iv_len) iv_len)
    as (okm & -> & Hl); [unfold Iv.MAX_LEN in Hk; lia|].
  destruct (iv_new_ok okm) as (iv & -> & Hr); [lia|]. eexists. split; [done|].
  by rewrite <-length_iv, Hr.
Qed.

Section paired.
Context {E D Q : Type}.
Implicit Types (ks : KeyScheduleSuite.t E D Q).

(** The key and IV of a traffic secret. *)
Lemma traffic_keys ks secret :
  ∃ key iv, derive_traffic_key (Hkdf.expander_for_okm (KeyScheduleSuite.hkdf ks) secret)
              (KeyScheduleSuite.aead ks) = Ok key ∧
    derive_traffic_iv (Hkdf.expander_for_okm (KeyScheduleSuite.hkdf ks) secret)
      (Tls13AeadAlgorithm.iv_len (KeyScheduleSuite.aead ks)) = Ok iv ∧
    length (AeadKey.as_ref key) = Tls13AeadAlgorithm.key_len (KeyScheduleSuite.aead ks) ∧
    Iv.len iv = Tls13AeadAlgorithm.iv_len (KeyScheduleSuite.aead ks).
Proof.
  destruct (aead_key_ok (Hkdf.expander_for_okm (KeyScheduleSuite.hkdf ks) secret)
    (Tls13AeadAlgorithm.key_len (KeyScheduleSuite.aead ks)) (byte_str "key") []) as (key & Hk & Hkl);
    [apply Tls13AeadAlgorithm.key_len_bound|].
  destruct (iv_ok (Hkdf.expander_for_okm (KeyScheduleSuite.hkdf ks) secret) (byte_str "iv") []
    (Tls13AeadAlgorithm.iv_len (KeyScheduleSuite.aead ks))) as (iv & Hi & Hil);
    [apply Tls13AeadAlgorithm.iv_len_bound|].
  by exists key, iv.
Qed.

(** Ciphers of one algorithm, made of one key and IV. *)
Definition fits (aead : Tls13AeadAlgorithm.t E D) (e : E) (d : D) : Prop :=
  ∃ key iv, Tls13AeadAlgorithm.encrypter aead key iv = Ok e ∧
    Tls13AeadAlgorithm.decrypter aead key iv = Ok d.

Lemma derive_ciphers ks secret :
  ∃ e d, KeyScheduleSuite.derive_encrypter ks secret = Ok e ∧
    KeyScheduleSuite.derive_decrypter ks secret = Ok d ∧
    fits (KeyScheduleSuite.aead ks) (Encrypter.encrypter e) d.
Proof.
  destruct (traffic_keys ks secret) as (key & iv & Hk & Hi & Hkl & Hil).
  destruct (Tls13AeadAlgorithm.encrypter_ok (KeyScheduleSuite.aead ks) key iv Hkl Hil) as [e He].
  destruct (Tls13AeadAlgorithm.decrypter_ok (KeyScheduleSuite.aead ks) key iv Hkl Hil) as [d Hd].
  unfold KeyScheduleSuite.derive_encrypter, KeyScheduleSuite.derive_decrypter. rewrite Hk, Hi.
  step_ok. rewrite He. step_ok. eexists _, d. split_and!; [done..|]. by exists key, iv.
Qed.

(** What is derived does not depend on the side. *)
Definition other (ks : KeyScheduleSuite.t E D Q) (side : Side.t) : KeyScheduleSuite.t E D Q :=
  KeyScheduleSuite.mk side (KeyScheduleSuite.state ks).

Lemma derive_decrypter_side ks side secret :
  KeyScheduleSuite.derive_decrypter (other ks side) secret
  = KeyScheduleSuite.derive_decrypter ks secret.
Proof. done. Qed.

(** ** Key updates *)

(** The sending half of one end and the receiving half of the other. *)
Definition in_step (s : KeyScheduleTrafficSend.t E D Q) (r : KeyScheduleTrafficReceive.t E D Q) : Prop :=
  KeyScheduleSuite.state (KeyScheduleTrafficSend.ks s)
    = KeyScheduleSuite.state (KeyScheduleTrafficReceive.ks r) ∧
  KeyScheduleTrafficSend.current s = KeyScheduleTrafficReceive.current r.

(** A key update of both keeps them in step, and their new ciphers fit. *)
Lemma in_step_update s r (path : ReceivePath.t D) :
  in_step s r →
  ∃ e s' d r', KeyScheduleTrafficSend.update_encrypter s = Ok (e, s') ∧
    KeyScheduleTrafficSend.update_encrypter_for_key_update s = Ok (e, s') ∧
    KeyScheduleTrafficReceive.update_decrypter r path
      = (ReceivePath.with_decrypt_state
           (DecryptionState.set_record_decrypter d (ReceivePath.decrypt_state path)) path, Ok r') ∧
    fits (KeyScheduleSuite.aead (KeyScheduleTrafficSend.ks s)) (Encrypter.encrypter e) d ∧
    in_step s' r' ∧
    KeyScheduleTrafficSend.ks s' = KeyScheduleTrafficSend.ks s ∧
    KeyScheduleTrafficReceive.ks r' = KeyScheduleTrafficReceive.ks r.
Proof.
  destruct s as [ks cur], r as [[side state] cur']. intros [Hst Hcur]. cbn in Hst, Hcur. subst state cur'.
  unfold KeyScheduleTrafficSend.update_encrypter_for_key_update,
    KeyScheduleTrafficSend.update_encrypter, KeyScheduleTrafficReceive.update_decrypter.
  cbn [KeyScheduleTrafficSend.ks KeyScheduleTrafficSend.current KeyScheduleTrafficReceive.ks
    KeyScheduleTrafficReceive.current].
  change (KeyScheduleSuite.mk side (KeyScheduleSuite.state ks)) with (other ks side).
  change (KeyScheduleSuite.derive_next (other ks side) cur) with (KeyScheduleSuite.derive_next ks cur).
  destruct (block_ok (Hkdf.expander_for_okm (KeyScheduleSuite.hkdf ks) cur)
    (byte_str "traffic upd") []) as (next & Hn & _).
  unfold KeyScheduleSuite.derive_next. rewrite Hn. step_ok.
  destruct (derive_ciphers ks next) as (e & d & He & Hd & Hf). rewrite He. step_ok.
  exists e, (KeyScheduleTrafficSend.mk ks next), d, (KeyScheduleTrafficReceive.mk (other ks side) next).
  split_and!; [done..| |done|done|done|done].
  unfold mbind, action_bind, lift, KeyScheduleSuite.set_decrypter.
  rewrite derive_decrypter_side. unfold mbind, action_bind, lift. by rewrite Hd.
Qed.
End paired.

(** ** The handshake *)

Module Hashes.
(** The transcript hashes, at the points where the two ends use them. *)
Record t := mk {
  server_hello : list u8;
  before_server_finished : list u8;
  server_finished : list u8;
  before_client_finished : list u8;
  client_finished : list u8;
}.
End Hashes.

Ltac agree_simpl :=
  cbn [KeyScheduleHandshakeStart.ks KeySchedule.inner KeySchedule.current KeyScheduleSuite.side
    KeyScheduleHandshake.ks KeyScheduleHandshake.client_handshake_traffic_secret
    KeyScheduleHandshake.server_handshake_traffic_secret HandshakeSecrets.key_schedule
    HandshakeSecrets.cipher KeyScheduleBeforeFinished.ks
    KeyScheduleBeforeFinished.current_client_traffic_secret
    KeyScheduleBeforeFinished.current_server_traffic_secret
    KeyScheduleBeforeFinished.current_exporter_secret
    ServerTrafficSecrets.key_schedule ServerTrafficSecrets.encrypter
    KeyScheduleTrafficWithClientFinishedPending.before_finished
    KeyScheduleTrafficWithClientFinishedPending.handshake_client_traffic_secret].

Section agreement.
Context {E D Q : Type}.
Implicit Types (suite early : Tls13ProtocolSuite.t E D Q).

(** What the client ends up with. *)
Record client_keys := mk_client {
  c_hs_enc : Encrypter.t E;
  c_hs_dec : D;
  c_server_finished : list u8;
  c_client_finished : list u8;
  c_traffic : ClientTrafficSecrets.t E D Q;
}.

(** What the server ends up with. *)
Record server_keys := mk_server {
  s_hs_enc : Encrypter.t E;
  s_hs_dec : option D;
  s_server_finished : list u8;
  s_client_finished : list u8;
  s_enc : Encrypter.t E;
  s_dec : option D;
  s_traffic : KeyScheduleTraffic.t E D Q;
  s_exporter : KeyScheduleExporter.t E D Q;
  s_resumption : KeyScheduleResumption.t E D Q;
}.

(** The early stage: with a PSK, or without. *)
Definition pre_handshake (side : Side.t) (early suite : Tls13ProtocolSuite.t E D Q)
    (psk : option (list u8)) : result Error.t (KeySchedulePreHandshake.t E D Q) :=
  match psk with
  | Some secret =>
      early ← KeyScheduleEarly.new side early secret; Ok (KeySchedulePreHandshake.from early)
  | None => KeySchedulePreHandshake.new side suite
  end.

Context (will_log : string → bool) (client_random : list u8).

(** The calls of [client/tls13.rs], in order; [early] is the suite of the session that
    is resumed. *)
Definition client_run early suite (psk : option (list u8)) (shared : list u8) (h : Hashes.t)
    : action (list KeyLog.entry) Error.t client_keys :=
  pre ← lift (pre_handshake Side.Client early suite psk);
  start ← lift (KeySchedulePreHandshake.into_handshake pre shared);
  hs ← KeyScheduleHandshakeStart.derive_client_handshake_secrets start (Hashes.server_hello h) suite
         will_log client_random;
  let ks := HandshakeSecrets.key_schedule hs in
  hs_enc ← lift (KeyScheduleHandshake.handshake_encrypter ks);
  server_finished ← lift (KeyScheduleHandshake.sign_server_finish ks (Hashes.before_server_finished h));
  '(before, client_finished) ← KeyScheduleHandshake.into_pre_finished_client_traffic ks
      (Hashes.server_finished h) (Hashes.before_client_finished h) will_log client_random;
  traffic ← lift (KeyScheduleClientBeforeFinished.into_traffic before (Hashes.client_finished h));
  mret (mk_client hs_enc (HandshakeSecrets.cipher hs) server_finished client_finished traffic).

Definition on_log {A} (m : action (list KeyLog.entry) Error.t A)
    : action (list KeyLog.entry * ReceivePath.t D) Error.t A := λ '(log, path),
  let '(log, r) := m log in ((log, path), r).
Definition on_path {A} (m : action (ReceivePath.t D) Error.t A)
    : action (list KeyLog.entry * ReceivePath.t D) Error.t A := λ '(log, path),
  let '(path, r) := m path in ((log, path), r).
Definition installed (s : list KeyLog.entry * ReceivePath.t D) : option D :=
  DecryptionState.record_decrypter (ReceivePath.decrypt_state s.2).

(** The calls of [server/tls13.rs], in order; the decrypters are those it installs. *)
Definition server_run suite (psk : option (list u8)) (shared : list u8) (h : Hashes.t)
    (skip_requested : option nat)
    : action (list KeyLog.entry * ReceivePath.t D) Error.t server_keys :=
  pre ← lift (pre_handshake Side.Server suite suite psk);
  start ← lift (KeySchedulePreHandshake.into_handshake pre shared);
  hs ← on_log (KeyScheduleHandshakeStart.derive_server_handshake_secrets start
                 (Hashes.server_hello h) will_log client_random);
  let ks := HandshakeSecrets.key_schedule hs in
  _ ← on_path (KeyScheduleHandshake.set_handshake_decrypter ks skip_requested);
  hs_dec ← gets installed;
  server_finished ← lift (KeyScheduleHandshake.sign_server_finish ks (Hashes.before_server_finished h));
  traffic ← on_log (KeyScheduleHandshake.into_traffic_with_client_finished_pending ks
                      (Hashes.server_finished h) will_log client_random);
  '(before, client_finished) ←
    on_path (KeyScheduleTrafficWithClientFinishedPending.sign_client_finish
               (ServerTrafficSecrets.key_schedule traffic) (Hashes.before_client_finished h));
  dec ← gets installed;
  '(key_schedule, exporter, resumption) ←
    lift (KeyScheduleBeforeFinished.into_traffic before (Hashes.client_finished h));
  mret (mk_server (HandshakeSecrets.cipher hs) hs_dec server_finished client_finished
          (ServerTrafficSecrets.encrypter traffic) dec key_schedule exporter resumption).

(** The suites share their hash function. *)
Definition same_hash early suite : Prop :=
  Tls13CipherSuite.hkdf_provider (Tls13ProtocolSuite.suite early)
    = Tls13CipherSuite.hkdf_provider (Tls13ProtocolSuite.suite suite) ∧
  CipherSuiteCommon.hash_provider (Tls13CipherSuite.common (Tls13ProtocolSuite.suite early))
    = CipherSuiteCommon.hash_provider (Tls13CipherSuite.common (Tls13ProtocolSuite.suite suite)).

(** The ends agree. *)
Record agreed suite (c : client_keys) (s : server_keys) : Prop := {
  agreed_server_hs : fits (Tls13CipherSuite.aead_alg (Tls13ProtocolSuite.suite suite))
    (Encrypter.encrypter (s_hs_enc s)) (c_hs_dec c);
  agreed_client_hs : ∃ d, s_hs_dec s = Some d ∧
    fits (Tls13CipherSuite.aead_alg (Tls13ProtocolSuite.suite suite))
      (Encrypter.encrypter (c_hs_enc c)) d;
  agreed_server_finished : c_server_finished c = s_server_finished s;
  agreed_client_finished : c_client_finished c = s_client_finished s;
  agreed_server_traffic : fits (Tls13CipherSuite.aead_alg (Tls13ProtocolSuite.suite suite))
    (Encrypter.encrypter (s_enc s)) (ClientTrafficSecrets.decrypter (c_traffic c));
  agreed_client_traffic : ∃ d, s_dec s = Some d ∧
    fits (Tls13CipherSuite.aead_alg (Tls13ProtocolSuite.suite suite))
      (Encrypter.encrypter (ClientTrafficSecrets.encrypter (c_traffic c))) d;
  agreed_client_updates :
    in_step (KeyScheduleTraffic.split (ClientTrafficSecrets.key_schedule (c_traffic c))).1
      (KeyScheduleTraffic.split (s_traffic s)).2;
  agreed_server_updates :
    in_step (KeyScheduleTraffic.split (s_traffic s)).1
      (KeyScheduleTraffic.split (ClientTrafficSecrets.key_schedule (c_traffic c))).2;
  agreed_exporter :
    KeyScheduleExporter.current_exporter_secret (ClientTrafficSecrets.exporter (c_traffic c))
    = KeyScheduleExporter.current_exporter_secret (s_exporter s);
  agreed_resumption :
    KeyScheduleResumption.resumption_master_secret (ClientTrafficSecrets.resumption (c_traffic c))
    = KeyScheduleResumption.resumption_master_secret (s_resumption s);
}.

(** Each stage, for both sides at once. *)

Lemma ciphers_agree suite secret :
  ∃ e d, fits (Tls13CipherSuite.aead_alg (Tls13ProtocolSuite.suite suite)) (Encrypter.encrypter e) d ∧
    ∀ side, KeyScheduleSuite.derive_encrypter (KeyScheduleSuite.mk side suite) secret = Ok e ∧
      KeyScheduleSuite.derive_decrypter (KeyScheduleSuite.mk side suite) secret = Ok d.
Proof.
  destruct (derive_ciphers (KeyScheduleSuite.mk Side.Client suite) secret) as (e & d & He & Hd & Hf).
  by exists e, d.
Qed.

Lemma finish_agrees suite key h :
  ∃ tag, ∀ side, KeyScheduleSuite.sign_finish (KeyScheduleSuite.mk side suite) key h = Ok tag.
Proof.
  destruct (block_ok (Hkdf.expander_for_okm (Tls13CipherSuite.hkdf_provider
    (Tls13ProtocolSuite.suite suite)) key) (byte_str "finished") []) as (k & Hk & _).
  eexists. intros side. unfold KeyScheduleSuite.sign_finish, KeyScheduleSuite.sign_verify_data.
  unfold KeyScheduleSuite.hkdf. cbn [KeyScheduleSuite.state]. by rewrite Hk.
Qed.

Lemma logged_agrees x kind h :
  is_Some (SecretKind.log_label kind) →
  ∃ okm l, ∀ inner log,
    KeySchedule.derive_logged_secret (KeySchedule.mk (E:=E) (D:=D) (Q:=Q) x inner) kind h will_log
      client_random log = (log ++ l, Ok okm).
Proof.
  intros [label Hlab]. destruct (block_ok x (SecretKind.to_bytes kind) h) as (okm & Hd & _).
  exists okm, (if will_log label then [KeyLog.mk label client_random (OkmBlock.as_ref okm)] else []).
  intros inner log. unfold KeySchedule.derive_logged_secret, KeySchedule.derive, mbind, action_bind, lift.
  cbn [KeySchedule.current]. rewrite Hd, Hlab. cbn [unwrap]. destruct (will_log label); [done|].
  by rewrite app_nil_r.
Qed.

Lemma empty_hash_agrees suite x kind :
  ∃ okm, ∀ side, KeySchedule.derive_for_empty_hash
    (KeySchedule.mk x (KeyScheduleSuite.mk side suite)) kind = Ok okm.
Proof.
  unfold KeySchedule.derive_for_empty_hash, KeySchedule.derive, KeyScheduleSuite.hash_provider.
  cbn [KeySchedule.current KeySchedule.inner KeyScheduleSuite.state].
  match goal with |- context [hkdf_expand_label_block x ?l ?c] =>
    destruct (block_ok x l c) as (okm & Hd & _) end.
  by exists okm.
Qed.

Lemma input_empty_agrees suite x :
  ∃ x', ∀ side, KeySchedule.input_empty (KeySchedule.mk x (KeyScheduleSuite.mk side suite))
    = Ok (KeySchedule.mk x' (KeyScheduleSuite.mk side suite)).
Proof.
  destruct (empty_hash_agrees suite x SecretKind.DerivedSecret) as [salt Hs].
  destruct (Hkdf.extract_zero_ok (Tls13CipherSuite.hkdf_provider (Tls13ProtocolSuite.suite suite))
    (Some (OkmBlock.as_ref salt))) as [x' Hx].
  exists x'. intros side. unfold KeySchedule.input_empty. rewrite Hs. step_ok.
  unfold KeyScheduleSuite.hkdf. cbn [KeySchedule.inner KeyScheduleSuite.state]. by rewrite Hx.
Qed.

Lemma before_finished_agrees suite x h :
  ∃ x' c s e l, ∀ side log,
    KeyScheduleBeforeFinished.new (KeySchedule.mk x (KeyScheduleSuite.mk side suite)) h will_log
      client_random log
    = (log ++ l, Ok (KeyScheduleBeforeFinished.mk
         (KeySchedule.mk x' (KeyScheduleSuite.mk side suite)) c s e)).
Proof.
  destruct (input_empty_agrees suite x) as [x' Hx].
  destruct (logged_agrees x' SecretKind.ClientApplicationTrafficSecret h) as (c & l1 & Hc); [done|].
  destruct (logged_agrees x' SecretKind.ServerApplicationTrafficSecret h) as (s & l2 & Hs); [done|].
  destruct (logged_agrees x' SecretKind.ExporterMasterSecret h) as (e & l3 & He); [done|].
  exists x', c, s, e, (l1 ++ l2 ++ l3). intros side log.
  unfold KeyScheduleBeforeFinished.new, mbind, action_bind, lift. rewrite Hx, Hc, Hs, He.
  by rewrite <-!(assoc_L (++)).
Qed.

Lemma handshake_agrees suite x h :
  ∃ c s l, ∀ side log,
    KeyScheduleHandshakeStart.into_handshake
      (KeyScheduleHandshakeStart.mk (KeySchedule.mk x (KeyScheduleSuite.mk side suite))) h will_log
      client_random log
    = (log ++ l, Ok (KeyScheduleHandshake.mk (KeySchedule.mk x (KeyScheduleSuite.mk side suite)) c s,
         KeyScheduleSuite.derive_quic (KeyScheduleSuite.mk side suite) c s)).
Proof.
  destruct (logged_agrees x SecretKind.ClientHandshakeTrafficSecret h) as (c & l1 & Hc); [done|].
  destruct (logged_agrees x SecretKind.ServerHandshakeTrafficSecret h) as (s & l2 & Hs); [done|].
  exists c, s, (l1 ++ l2). intros side log.
  unfold KeyScheduleHandshakeStart.into_handshake, mbind, action_bind.
  cbn [KeyScheduleHandshakeStart.ks]. rewrite Hc, Hs. by rewrite <-!(assoc_L (++)).
Qed.

(** The root secret, once the shared secret is in. *)
Lemma root_agrees early suite psk shared :
  same_hash early suite →
  ∃ x, (∃ st, (pre ← pre_handshake Side.Client early suite psk;
               KeySchedulePreHandshake.into_handshake pre shared)
         = Ok (KeyScheduleHandshakeStart.mk (KeySchedule.mk x (KeyScheduleSuite.mk Side.Client st)))) ∧
    (pre ← pre_handshake Side.Server suite suite psk;
     KeySchedulePreHandshake.into_handshake pre shared)
      = Ok (KeyScheduleHandshakeStart.mk (KeySchedule.mk x (KeyScheduleSuite.mk Side.Server suite))).
Proof.
  intros [Hkdf Hash].
  set (hkdf := Tls13CipherSuite.hkdf_provider (Tls13ProtocolSuite.suite suite)) in *.
  assert (∃ x0, match psk with Some p => Hkdf.extract_from_secret hkdf None p
    | None => Hkdf.extract_from_zero_ikm hkdf None end = Ok x0) as [x0 Hx0].
  { destruct psk; [apply Hkdf.extract_secret_ok|apply Hkdf.extract_zero_ok]. }
  destruct (empty_hash_agrees suite x0 SecretKind.DerivedSecret) as [salt Hs].
  destruct (Hkdf.extract_secret_ok hkdf (Some (OkmBlock.as_ref salt)) shared) as [x Hx].
  assert (∀ side st, same_hash st suite →
    KeySchedulePreHandshake.into_handshake
      (KeySchedulePreHandshake.mk (KeySchedule.mk x0 (KeyScheduleSuite.mk side st))) shared
    = Ok (KeyScheduleHandshakeStart.mk (KeySchedule.mk x (KeyScheduleSuite.mk side st)))) as Hin.
  { intros side st [Hk Hh]. specialize (Hs side).
    unfold KeySchedule.derive_for_empty_hash, KeyScheduleSuite.hash_provider in Hs.
    cbn [KeySchedule.inner KeyScheduleSuite.state] in Hs. rewrite <-Hh in Hs.
    unfold KeySchedulePreHandshake.into_handshake, KeySchedule.input_secret,
      KeySchedule.derive_for_empty_hash, KeyScheduleSuite.hash_provider, KeyScheduleSuite.hkdf.
    cbn [KeySchedulePreHandshake.ks KeySchedule.inner KeyScheduleSuite.state].
    unfold KeySchedule.derive in Hs |- *. cbn [KeySchedule.current] in Hs |- *.
    rewrite Hs, Hk. step_ok. fold hkdf. by rewrite Hx. }
  exists x. unfold pre_handshake, KeyScheduleEarly.new, KeySchedulePreHandshake.new, KeySchedule.new,
    KeySchedule.new_with_empty_secret, KeyScheduleSuite.hkdf. cbn [KeyScheduleSuite.state].
  destruct psk as [p|].
  - rewrite Hkdf. fold hkdf. rewrite Hx0. step_ok. unfold KeySchedulePreHandshake.from.
    cbn [KeyScheduleEarly.ks]. split; [exists early|]; by rewrite Hin.
  - fold hkdf. rewrite Hx0. step_ok. split; [exists suite|]; by rewrite Hin.
Qed.

Lemma resumption_agrees x h :
  ∃ okm, ∀ inner, KeySchedule.derive (KeySchedule.mk (E:=E) (D:=D) (Q:=Q) x inner)
    SecretKind.ResumptionMasterSecret h = Ok okm.
Proof.
  destruct (block_ok x (SecretKind.to_bytes SecretKind.ResumptionMasterSecret) h) as (okm & H & _).
  by exists okm.
Qed.

Lemma lift_bind {S A B C} (m : result Error.t A) (f : A → result Error.t B)
    (k : B → action S Error.t C) s :
  (a ← lift m; b ← lift (f a); k b) s = (b ← lift (a ← m; f a); k b) s.
Proof. unfold mbind, action_bind, result_bind, lift. by destruct m. Qed.

Lemma set_decrypter_installs ks secret d skip (path : ReceivePath.t D) shs :
  KeyScheduleSuite.derive_decrypter (KeySchedule.inner ks) secret = Ok d →
  ∃ path', KeyScheduleHandshake.set_handshake_decrypter
      (KeyScheduleHandshake.mk (E:=E) (Q:=Q) ks secret shs) skip path = (path', Ok tt) ∧
    DecryptionState.record_decrypter (ReceivePath.decrypt_state path') = Some d.
Proof.
  intros Hd. unfold KeyScheduleHandshake.set_handshake_decrypter, KeyScheduleSuite.set_decrypter.
  cbn [KeyScheduleHandshake.ks KeyScheduleHandshake.client_handshake_traffic_secret].
  unfold mbind, action_bind, lift. rewrite Hd. by destruct skip; eexists.
Qed.

(** The whole handshake: the secrets of both ends are the same terms. *)
Lemma runs_agree early suite psk shared h skip log path :
  same_hash early suite →
  ∃ c s log' path', client_run early suite psk shared h log = (log', Ok c) ∧
    server_run suite psk shared h skip (log, path) = ((log', path'), Ok s) ∧ agreed suite c s.
Proof.
  intros Hsame. destruct (root_agrees early suite psk shared Hsame) as (x & (st & Hc) & Hs).
  destruct (handshake_agrees suite x (Hashes.server_hello h)) as (chs & shs & l1 & Hhs).
  destruct (ciphers_agree suite chs) as (ce & sd & Hcf & Hcc).
  destruct (ciphers_agree suite shs) as (se & cd & Hsf & Hsc).
  destruct (finish_agrees suite shs (Hashes.before_server_finished h)) as [sfin Hsfin].
  destruct (finish_agrees suite chs (Hashes.before_client_finished h)) as [cfin Hcfin].
  destruct (before_finished_agrees suite x (Hashes.server_finished h))
    as (x' & cap & sap & exp & l2 & Hbf).
  destruct (ciphers_agree suite cap) as (cae & sad & Hcaf & Hcac).
  destruct (ciphers_agree suite sap) as (sae & cad & Hsaf & Hsac).
  destruct (resumption_agrees x' (Hashes.client_finished h)) as [res Hres].
  destruct (set_decrypter_installs (KeySchedule.mk x (KeyScheduleSuite.mk Side.Server suite)) chs sd
    skip path shs (proj2 (Hcc _))) as (path1 & Hset & Hinst).
  eexists _, _, ((log ++ l1) ++ l2), _. split_and!.
  - unfold client_run. rewrite lift_bind, Hc.
    unfold KeyScheduleHandshakeStart.derive_client_handshake_secrets,
      KeyScheduleHandshake.into_pre_finished_client_traffic,
      KeyScheduleHandshake.handshake_encrypter, KeyScheduleHandshake.sign_server_finish,
      KeyScheduleClientBeforeFinished.into_traffic, KeyScheduleBeforeFinished.into_traffic.
    unfold mbind, action_bind, lift, mret, action_ret.
    agree_simpl.
    rewrite Hhs. agree_simpl. rewrite (proj2 (Hsc _)). agree_simpl. rewrite (proj1 (Hcc _)).
    rewrite Hsfin, Hbf. agree_simpl. rewrite Hcfin. agree_simpl.
    rewrite (proj2 (Hsac _)). cbn [mbind result_bind]. rewrite (proj1 (Hcac _)).
    cbn [mbind result_bind]. rewrite Hres. cbn [mbind result_bind]. reflexivity.
  - unfold server_run. rewrite lift_bind, Hs.
    unfold KeyScheduleHandshakeStart.derive_server_handshake_secrets,
      KeyScheduleHandshake.into_traffic_with_client_finished_pending,
      KeyScheduleTrafficWithClientFinishedPending.sign_client_finish,
      KeyScheduleTrafficWithClientFinishedPending.inner,
      KeyScheduleSuite.set_decrypter,
      KeyScheduleHandshake.sign_server_finish, KeyScheduleBeforeFinished.into_traffic.
    unfold mbind, action_bind, lift, on_log, on_path, gets, mret, action_ret.
    rewrite Hhs. agree_simpl. rewrite (proj1 (Hsc _)). agree_simpl. rewrite Hset, Hsfin, Hbf.
    agree_simpl. rewrite (proj1 (Hsac _)). agree_simpl. rewrite Hcfin, (proj2 (Hcac _)).
    unfold modify. agree_simpl. rewrite Hres. cbn [mbind result_bind]. reflexivity.
  - split; cbn; try done; by eexists.
Qed.
End agreement.

(** ** The input of each derivation *)

(** [HkdfLabel] of RFC 8446 section 7.1, for lengths that fit. *)
Definition hkdf_label (label context : list u8) (n : nat) : list u8 :=
  be_bytes 2 (Z.of_nat n) ++
  be_bytes 1 (Z.of_nat (length (LABEL_PREFIX ++ label))) ++ LABEL_PREFIX ++ label ++
  be_bytes 1 (Z.of_nat (length context)) ++ context.

Lemma label_info_concat label context n :
  concat (label_info label context n) = hkdf_label label context n.
Proof.
  unfold label_info, hkdf_label. cbn [concat]. rewrite app_nil_r, length_app.
  by rewrite !be_bytes_wrap by lia.
Qed.

Definition label_fits (label context : list u8) (n : nat) : Prop :=
  length label ≤ 249 ∧ length context ≤ 255 ∧ (Z.of_nat n < 2 ^ 16)%Z.

Lemma hkdf_label_inj l1 c1 n1 l2 c2 n2 :
  label_fits l1 c1 n1 → label_fits l2 c2 n2 →
  hkdf_label l1 c1 n1 = hkdf_label l2 c2 n2 → l1 = l2 ∧ c1 = c2 ∧ n1 = n2.
Proof.
  unfold label_fits, hkdf_label. intros (Hl1 & Hc1 & Hn1) (Hl2 & Hc2 & Hn2) H.
  apply app_inj_1 in H as [Hn H]; [|by rewrite !be_bytes_length].
  apply be_bytes_inj in Hn; [|lia..].
  apply app_inj_1 in H as [Hl H]; [|by rewrite !be_bytes_length].
  apply be_bytes_inj in Hl; [|rewrite length_app; change (length LABEL_PREFIX) with 6; lia..].
  rewrite !length_app in Hl. apply app_inv_head in H. apply app_inj_1 in H as [-> H]; [|lia].
  apply app_inj_1 in H as [_ ->]; [|by rewrite !be_bytes_length]. split_and!; [done..|lia].
Qed.

(** Every label the key schedule uses of its own accord. *)
Definition fixed_labels : list (list u8) :=
  (SecretKind.to_bytes <$>
     [SecretKind.ResumptionPskBinderKey; SecretKind.ClientEarlyTrafficSecret;
      SecretKind.EarlyExporterMasterSecret; SecretKind.ClientHandshakeTrafficSecret;
      SecretKind.ServerHandshakeTrafficSecret; SecretKind.ClientApplicationTrafficSecret;
      SecretKind.ServerApplicationTrafficSecret; SecretKind.ExporterMasterSecret;
      SecretKind.ResumptionMasterSecret; SecretKind.DerivedSecret;
      SecretKind.ServerEchConfirmationSecret; SecretKind.ServerEchHrrConfirmationSecret])
  ++ [byte_str "key"; byte_str "iv"; byte_str "finished"; byte_str "traffic upd";
      byte_str "resumption"; byte_str "exporter"].

(** ** HKDF-Expand-Label of RFC 8446 *)

Definition expand_label (prk : Hmac.Key) (label context : list u8) (n : nat) : list u8 :=
  Rfc5869.expand prk (hkdf_label label context n) n.

Lemma expand_prefix prk info n m :
  n ≤ m → take n (Rfc5869.expand prk info m) = Rfc5869.expand prk info n.
Proof. intros H. unfold Rfc5869.expand. rewrite take_take. f_equal. lia. Qed.

Lemma aead_key_label (prk : Hmac.Key) key_len label context key :
  key_len ≤ AeadKey.MAX_LEN →
  hkdf_expand_label_aead_key (hmac_expander prk) key_len label context = Ok key →
  AeadKey.as_ref key = expand_label prk label context key_len.
Proof.
  intros Hk. unfold hkdf_expand_label_aead_key, hkdf_expand_label_inner, expand.
  cbn [HkdfExpander.expand_slice hmac_expander].
  pose proof (Hmac.tag_len_bound prk) as Hp.
  rewrite expand_slice_spec, decide_True, label_info_concat by (unfold AeadKey.MAX_LEN; lia). step_ok.
  unfold AeadKey.with_length. cbn [AeadKey.used AeadKey.buf]. rewrite decide_True by done.
  unfold write_at. rewrite length_replicate. case_decide as Hw; [|done]. step_ok. intros [= <-].
  unfold AeadKey.as_ref. cbn [AeadKey.used AeadKey.buf].
  rewrite take_app_length', expand_prefix; [done..|]. rewrite length_take.
  rewrite length_expand in * by (unfold AeadKey.MAX_LEN; lia). lia.
Qed.

Lemma iv_label (prk : Hmac.Key) iv_len label context iv :
  hkdf_expand_label_iv (hmac_expander prk) label context iv_len = Ok iv →
  Iv.as_ref iv = expand_label prk label context iv_len.
Proof.
  unfold hkdf_expand_label_iv, hkdf_expand_label_inner. case_decide as Hi; [done|].
  cbn [HkdfExpander.expand_slice hmac_expander]. pose proof (Hmac.tag_len_bound prk) as Hp.
  unfold Iv.MAX_LEN in Hi. rewrite expand_slice_spec, decide_True, label_info_concat by lia.
  destruct (iv_new_ok (Rfc5869.expand prk (hkdf_label label context iv_len) iv_len))
    as (iv' & -> & Hr); [rewrite length_expand by lia; unfold Iv.MAX_LEN; lia|].
  by intros [= <-].
Qed.

Lemma block_label (prk : Hmac.Key) label context okm :
  hkdf_expand_label_block (hmac_expander prk) label context = Ok okm →
  OkmBlock.as_ref okm = expand_label prk label context (Hmac.tag_len prk).
Proof.
  unfold hkdf_expand_label_block, hkdf_expand_label_inner.
  cbn [HkdfExpander.expand_block hmac_expander HkdfExpander.hash_len].
  destruct (expand_block_spec prk (label_info label context (Hmac.tag_len prk))) as (okm' & -> & Hr).
  intros [= <-]. by rewrite Hr, label_info_concat.
Qed.

(** Which HMAC key an expander of [HkdfUsingHmac] holds. *)
Lemma expander_for_okm_hmac h secret :
  Hkdf.expander_for_okm (HkdfUsingHmac.hkdf h) secret
  = hmac_expander (Hmac.with_key h (OkmBlock.as_ref secret)).
Proof. done. Qed.

Lemma secret_label h secret label context :
  ∃ okm, hkdf_expand_label_block (Hkdf.expander_for_okm (HkdfUsingHmac.hkdf h) secret) label context
      = Ok okm ∧
    OkmBlock.as_ref okm = expand_label (Hmac.with_key h (OkmBlock.as_ref secret)) label context
      (Hmac.hash_output_len h).
Proof.
  destruct (block_ok (Hkdf.expander_for_okm (HkdfUsingHmac.hkdf h) secret) label context)
    as (okm & Hok & _). exists okm. split; [done|]. rewrite expander_for_okm_hmac in Hok.
  apply block_label in Hok. by rewrite Hok, Hmac.tag_len_eq.
Qed.

(** ** Main results *)

(** C10. The two ends of a TLS 1.3 handshake agree: from the same pre-shared key (or
    none), shared secret and transcript hashes, the calls of the client and of the
    server all succeed and end with ciphers that fit together in both directions and
    in both the handshake and the traffic stage, the same Finished values of either
    side, the same exporter and resumption secrets, halves of the key schedule that
    are in step for key updates, and the same lines in the key log.  The suite of the
    resumed session may differ from the negotiated one as long as the hash does not. *)
Theorem key_agreement {E D Q} (will_log : string → bool) (client_random : list u8)
    (early suite : Tls13ProtocolSuite.t E D Q) (psk : option (list u8)) (shared : list u8)
    (h : Hashes.t) (skip : option nat) (log : list KeyLog.entry) (path : ReceivePath.t D)
    (Hsame : same_hash early suite) :
  ∃ c s log' path',
    client_run will_log client_random early suite psk shared h log = (log', Ok c) ∧
    server_run will_log client_random suite psk shared h skip (log, path) = ((log', path'), Ok s) ∧
    agreed suite c s.
Proof. by apply runs_agree. Qed.


(** No two secrets share the input they are derived with: the [info] of two
    derivations is the same only for the same label, context and length, as long as
    these fit their fields, and the labels of the key schedule - those of the secrets
    and those for keys, IVs, Finished, updates, tickets and exporters - are pairwise
    distinct and fit. *)
Theorem labels_separate (l1 c1 l2 c2 : list u8) (n1 n2 : nat)
    (Hfit1 : label_fits l1 c1 n1) (Hfit2 : label_fits l2 c2 n2) :
  (concat (label_info l1 c1 n1) = concat (label_info l2 c2 n2) → l1 = l2 ∧ c1 = c2 ∧ n1 = n2) ∧
  NoDup fixed_labels ∧ Forall (λ l, length l ≤ 249) fixed_labels ∧
  (∀ kind, SecretKind.to_bytes kind ∈ fixed_labels).
Proof.
  rewrite !label_info_concat. split_and!.
  - by apply hkdf_label_inj.
  - by apply (bool_decide_unpack _); vm_compute.
  - apply (bool_decide_unpack _). by vm_compute.
  - intros []; apply (bool_decide_unpack _); by vm_compute.
Qed.

(** A label of more than 249 bytes, as an application can give to an exporter, does
    not fit: its length is encoded modulo 256. *)
Lemma long_label_wraps context n :
  label_info (replicate 250 x61) context n !! 1 = Some [x00].
Proof. reflexivity. Qed.

(** A suite for examples: ciphers that are their keys, and checksums for the HMAC. *)
Module Toy.
Definition sum (l : list u8) : Z := foldr (λ b z, u8_to_Z b + 3 * z)%Z 0%Z l.
Definition tag (key msg : list u8) : list u8 :=
  be_bytes 2 (sum key + 7 * sum msg) ++ be_bytes 2 (5 * sum key + sum msg).

Lemma length_toy_tag key msg : length (tag key msg) = 4.
Proof. unfold tag. by rewrite length_app, !be_bytes_length. Qed.

Program Definition key (k : list u8) : Hmac.Key :=
  Hmac.mkKey (λ a b c, tag k (a ++ concat b ++ c)) 4 _ _ _.
Next Obligation. intros. cbn [concat app]. by rewrite !app_nil_r. Qed.
Next Obligation. intros. apply length_toy_tag. Qed.
Next Obligation. unfold Hmac.MAX_LEN. lia. Qed.

Definition hmac : Hmac.t := Hmac.mk key 4 (λ _, eq_refl).
Definition hash : Hash.t :=
  Hash.mk (tag [x2a]) 4 (HashAlgorithm.new xff) (length_toy_tag [x2a]).

Program Definition aead : Tls13AeadAlgorithm.t (AeadKey.t * Iv.t) (AeadKey.t * Iv.t) :=
  Tls13AeadAlgorithm.mk _ _ (λ key iv, Ok (key, iv)) (λ key iv, Ok (key, iv)) 16 12
    (λ key iv, Ok (ConnectionTrafficSecrets.Aes128Gcm key iv)) _ _ _ _.
Next Obligation. unfold AeadKey.MAX_LEN. lia. Qed.
Next Obligation. unfold Iv.MAX_LEN. lia. Qed.
Next Obligation. intros. by eexists. Qed.
Next Obligation. intros. by eexists. Qed.

Definition suite : Tls13ProtocolSuite.t (AeadKey.t * Iv.t) (AeadKey.t * Iv.t) Empty_set :=
  Tls13ProtocolSuite.Tcp (Tls13CipherSuite.mk
    (CipherSuiteCommon.mk CipherSuite.TLS13_AES_128_GCM_SHA256 hash (2 ^ 24))
    (HkdfUsingHmac.hkdf hmac) aead None).
End Toy.

Lemma key_agreement_witness :
  let h := Hashes.mk [x01] [x02] [x03] [x04] [x05] in
  ∃ c s log' path',
    client_run (λ _, true) [x09] Toy.suite Toy.suite (Some [x07]) [x08] h [] = (log', Ok c) ∧
    server_run (λ _, true) [x09] Toy.suite (Some [x07]) [x08] h None ([], ReceivePath.new Side.Server)
      = ((log', path'), Ok s) ∧
    agreed Toy.suite c s.
Proof. intros h. by apply key_agreement. Defined.


Lemma labels_separate_witness :
  label_fits (byte_str "key") [] 16 ∧ label_fits (byte_str "iv") [] 12 ∧
  (concat (label_info (byte_str "key") [] 16) = concat (label_info (byte_str "iv") [] 12) →
   byte_str "key" = byte_str "iv" ∧ @nil u8 = [] ∧ 16 = 12).
Proof.
  split; [unfold label_fits; cbn; lia|]. split; [unfold label_fits; cbn; lia|].
  apply labels_separate; unfold label_fits; cbn; lia.
Defined.
