(* ===== verification/Tls13Suites.v ===== *)
(** * The TLS 1.3 cipher suites of the provider ([rustls-ring/src/tls13.rs])

    The AEADs of [ring] as implementations of the traits the key schedule works with,
    and the suites made of them. *)
From stdpp Require Import gmap.
From S2P Require Import Prelude Enums Errors Codec Records Cipher Hkdf.
From S2P Require Import Extensions Payloads ServerHello ClientHello Messages Send Receive.
From S2P Require Import Tls13Cipher KeySchedule KeyScheduleSpec.

Notation RingAead := (Tls13AeadAlgorithm.t Tls13RecordEncrypter.t Tls13RecordDecrypter.t).

Lemma bind_key_ok {E} alg key :
  length key = Aead.key_len alg → bind_key (E:=E) alg key = Ok (mk_key alg key).
Proof. intros Hk. unfold bind_key. by rewrite decide_True. Qed.

(** The methods that the three implementations of the trait have in common. *)
Program Definition wrapped (self : Aead.t)
    (extract_keys : AeadKey.t → Iv.t → result Error.t ConnectionTrafficSecrets.t) : RingAead :=
  Tls13AeadAlgorithm.mk _ _ (AeadAlgorithm.encrypter self) (AeadAlgorithm.decrypter self)
    (AeadAlgorithm.key_len self) NONCE_LEN extract_keys _ _ _ _.
Next Obligation. intros self _. apply Aead.key_len_max. Qed.
Next Obligation. intros _ _. by apply Nat.leb_le. Qed.
Next Obligation.
  intros self _ key iv Hk _. unfold AeadAlgorithm.encrypter. rewrite bind_key_ok by done. by eexists.
Qed.
Next Obligation.
  intros self _ key iv Hk _. unfold AeadAlgorithm.decrypter. rewrite bind_key_ok by done. by eexists.
Qed.

(* @src rustls-ring/src/tls13.rs 91-117 Chacha20Poly1305Aead *)
Definition Chacha20Poly1305Aead (self : Aead.t) : RingAead :=
  wrapped self (λ key iv, Ok (ConnectionTrafficSecrets.Chacha20Poly1305 key iv)).

(* @src rustls-ring/src/tls13.rs 119-145 Aes256GcmAead *)
Definition Aes256GcmAead (self : Aead.t) : RingAead :=
  wrapped self (λ key iv, Ok (ConnectionTrafficSecrets.Aes256Gcm key iv)).

(* @src rustls-ring/src/tls13.rs 147-173 Aes128GcmAead *)
Definition Aes128GcmAead (self : Aead.t) : RingAead :=
  wrapped self (λ key iv, Ok (ConnectionTrafficSecrets.Aes128Gcm key iv)).

(** What the suites are built of: hashes, HKDFs and AEADs of [ring], and the QUIC
    algorithms. *)
Section suites.
Context {Q : Type} (SHA256 SHA384 : Hash.t) (HKDF_SHA256 HKDF_SHA384 : Hkdf.t).
Context (CHACHA20_POLY1305 AES_256_GCM AES_128_GCM : Aead.t).
Context (quic_chacha20 quic_aes_256 quic_aes_128 : Q).
Notation suite := (Tls13CipherSuite.t Tls13RecordEncrypter.t Tls13RecordDecrypter.t Q).

(* @src rustls-ring/src/tls13.rs 30-49 TLS13_CHACHA20_POLY1305_SHA256 *)
Definition TLS13_CHACHA20_POLY1305_SHA256 : suite :=
  Tls13CipherSuite.mk
    (CipherSuiteCommon.mk CipherSuite.TLS13_CHACHA20_POLY1305_SHA256 SHA256 0xffffffffffffffff)
    HKDF_SHA256 (Chacha20Poly1305Aead CHACHA20_POLY1305) (Some quic_chacha20).

(* @src rustls-ring/src/tls13.rs 51-69 TLS13_AES_256_GCM_SHA384 *)
Definition TLS13_AES_256_GCM_SHA384 : suite :=
  Tls13CipherSuite.mk (CipherSuiteCommon.mk CipherSuite.TLS13_AES_256_GCM_SHA384 SHA384 (2 ^ 24))
    HKDF_SHA384 (Aes256GcmAead AES_256_GCM) (Some quic_aes_256).

(* @src rustls-ring/src/tls13.rs 71-89 TLS13_AES_128_GCM_SHA256 *)
Definition TLS13_AES_128_GCM_SHA256 : suite :=
  Tls13CipherSuite.mk (CipherSuiteCommon.mk CipherSuite.TLS13_AES_128_GCM_SHA256 SHA256 (2 ^ 24))
    HKDF_SHA256 (Aes128GcmAead AES_128_GCM) (Some quic_aes_128).
End suites.

(** Ciphers made by one algorithm of one key have the same keys. *)
Lemma wrapped_fits self extract_keys e d : fits (wrapped self extract_keys) e d → same_keys e d.
Proof.
  intros (key & iv & He & Hd). cbn [Tls13AeadAlgorithm.encrypter Tls13AeadAlgorithm.decrypter wrapped] in He, Hd.
  unfold AeadAlgorithm.encrypter, AeadAlgorithm.decrypter in He, Hd.
  apply result_bind_ok in He as (ek & Hek & [= <-]). apply result_bind_ok in Hd as (dk & Hdk & [= <-]).
  assert (ek = dk) as <-; [|done]. unfold bind_key in Hek, Hdk. case_decide; congruence.
Qed.
