(* ===== verification/Sessions.v ===== *)
(** * Stored sessions ([rustls/src/client/mod.rs], [rustls/src/server/mod.rs])

    What a client and a server remember of a session to resume it, its encoding, and
    the age of a ticket as the two ends compute it. *)
From stdpp Require Import gmap.
From S2P Require Import Prelude Enums Errors Codec Cipher Hkdf Extensions Payloads ServerHello ClientHello Messages KeySchedule KeyScheduleSpec.

(** ** Saturating arithmetic *)

Definition u32_MAX : Z := 0xffffffff.
Definition u64_MAX : Z := 0xffffffffffffffff.

(** [saturating_sub], [saturating_add] and [saturating_mul]. *)
Definition sat_sub (a b : Z) : Z := Z.max 0 (a - b).
Definition sat_add (max a b : Z) : Z := Z.min max (a + b).
Definition sat_mul (max a b : Z) : Z := Z.min max (a * b).

(** ** Identities *)

Module CertificateIdentity.
(* @src rustls/src/crypto/signer.rs 356-366 CertificateIdentity *)
Record t := mk { end_entity : CertificateDer; intermediates : list CertificateDer }.
End CertificateIdentity.

Module Identity.
(* @src rustls/src/crypto/signer.rs 213-223 Identity *)
Inductive t :=
  | X509 (certificates : CertificateIdentity.t)
  | RawPublicKey (spki : SubjectPublicKeyInfoDer).

(* @src rustls/src/crypto/signer.rs 226-239 Identity::from_cert_chain *)
Definition from_cert_chain (cert_chain : list CertificateDer) : result ApiMisuse.t t :=
  match cert_chain with
  | [] => Err ApiMisuse.EmptyCertificateChain
  | first :: rest => Ok (X509 (CertificateIdentity.mk first rest))
  end.

(* @src rustls/src/crypto/signer.rs 241-263 Identity::from_peer *)
Definition from_peer (cert_chain : list CertificateDer) (expected : CertificateType.t)
    : result Error.t (option t) :=
  match cert_chain with
  | [] => Ok None
  | first :: rest =>
      if decide (expected = CertificateType.X509)
      then Ok (Some (X509 (CertificateIdentity.mk first rest)))
      else if decide (expected = CertificateType.RawPublicKey)
      then match rest with
           | [] => Ok (Some (RawPublicKey (mkSubjectPublicKeyInfoDer (der first))))
           | _ => Err (Error.PeerIncompatible PeerIncompatible.MultipleRawKeys)
           end
      else Err (Error.PeerIncompatible
                  (PeerIncompatible.UnknownCertificateType (CertificateType.val expected)))
  end.

(* @src rustls/src/crypto/signer.rs 273-286 Identity::as_certificates *)
Definition as_certificates (self : t) : list CertificateDer :=
  match self with
  | X509 cert => CertificateIdentity.end_entity cert :: CertificateIdentity.intermediates cert
  | RawPublicKey spki => [mkCertificateDer (Codec.spki spki)]
  end.

(* @src rustls/src/crypto/signer.rs 297-328 Codec_for_Identity *)
#[global] Instance codec : Codec t := {
  encode self bytes :=
    match self with
    | X509 certificates =>
        let bytes := encode (x00 : u8) bytes in
        let bytes := encode (CertificateIdentity.end_entity certificates) bytes in
        encode (CertificateIdentity.intermediates certificates) bytes
    | RawPublicKey spki => encode spki (encode (x01 : u8) bytes)
    end;
  read :=
    b ← (read : reader u8);
    match b with
    | x00 => end_entity ← read; intermediates ← read;
             mret (X509 (CertificateIdentity.mk end_entity intermediates))
    | x01 => RawPublicKey <$> read
    | _ => reader_fail (InvalidMessage.UnexpectedMessage "invalid PeerIdentity discriminant")
    end;
}.
End Identity.

(** ** Client sessions *)

Module ClientSessionCommon.
(** An [Arc] is what it points to; a [VerifiedIdentity] is its identity. *)
(* @src rustls/src/client/mod.rs 340-347 ClientSessionCommon *)
Record t := mk {
  ticket : SizedPayload PayloadSize.U16 Cardinality.MaybeEmpty;
  epoch : Z;
  lifetime : Duration.t;
  peer_identity : Identity.t;
}.

(* @src rustls/src/client/mod.rs 482 MAX_TICKET_LIFETIME *)
Definition MAX_TICKET_LIFETIME : Duration.t := Duration.from_secs (7 * 24 * 60 * 60).

(** The order of [Duration]: seconds first. *)
Definition duration_le (a b : Duration.t) : bool :=
  (Duration.as_secs a <? Duration.as_secs b)%Z ||
  ((Duration.as_secs a =? Duration.as_secs b)%Z &&
   (Duration.subsec_nanos a <=? Duration.subsec_nanos b)%Z).

(** A [UnixTime] is a number of seconds. *)
(* @src rustls/src/client/mod.rs 350-362 ClientSessionCommon::new *)
Definition new (ticket : SizedPayload PayloadSize.U16 Cardinality.MaybeEmpty) (time_now : Z)
    (lifetime : Duration.t) (peer_identity : Identity.t) : t :=
  mk ticket time_now
     (if duration_le lifetime MAX_TICKET_LIFETIME then lifetime else MAX_TICKET_LIFETIME)
     peer_identity.

(* @src rustls/src/client/mod.rs 373-389 Codec_for_ClientSessionCommon *)
#[global] Instance codec : Codec t := {
  encode self bytes :=
    let bytes := encode (ticket self) bytes in
    let bytes := bytes ++ be_bytes 8 (epoch self) in
    let bytes := bytes ++ be_bytes 8 (Duration.as_secs (lifetime self)) in
    encode (peer_identity self) bytes;
  read :=
    ticket ← read; epoch ← u64_read; lifetime ← Duration.from_secs <$> u64_read;
    peer_identity ← read;
    mret (mk ticket epoch lifetime peer_identity);
}.
End ClientSessionCommon.

Module Tls13ClientSessionInput.
(* @src rustls/src/client/mod.rs 235-241 Tls13ClientSessionInput *)
Record t (E D Q : Type) := mk {
  suite : Tls13ProtocolSuite.t E D Q;
  peer_identity : Identity.t;
  quic_params : option (SizedPayload PayloadSize.U16 Cardinality.MaybeEmpty);
}.
Arguments mk {E D Q}.
Arguments suite {E D Q}.
Arguments peer_identity {E D Q}.
Arguments quic_params {E D Q}.
End Tls13ClientSessionInput.

Module Tls13Session.
(* @src rustls/src/client/mod.rs 117-125 Tls13Session *)
Record t (E D Q : Type) := mk {
  suite : Tls13ProtocolSuite.t E D Q;
  secret : SizedPayload PayloadSize.U8 Cardinality.MaybeEmpty;
  age_add : Z;
  max_early_data_size : Z;
  common : ClientSessionCommon.t;
  quic_params : SizedPayload PayloadSize.U16 Cardinality.MaybeEmpty;
}.
Arguments mk {E D Q}.
Arguments suite {E D Q}.
Arguments secret {E D Q}.
Arguments age_add {E D Q}.
Arguments max_early_data_size {E D Q}.
Arguments common {E D Q}.
Arguments quic_params {E D Q}.

Section methods.
Context {E D Q : Type}.

(* @src rustls/src/client/mod.rs 150-174 Tls13Session::new *)
Definition new (ticket : NewSessionTicketPayloadTls13.t) (input : Tls13ClientSessionInput.t E D Q)
    (secret : list u8) (time_now : Z) : t E D Q :=
  mk (Tls13ClientSessionInput.suite input) (mkSizedPayload secret)
     (NewSessionTicketPayloadTls13.age_add ticket)
     (default 0%Z (NewSessionTicketExtensions.max_early_data_size
                     (NewSessionTicketPayloadTls13.extensions ticket)))
     (ClientSessionCommon.new (NewSessionTicketPayloadTls13.ticket ticket) time_now
        (NewSessionTicketPayloadTls13.lifetime ticket) (Tls13ClientSessionInput.peer_identity input))
     (default (mkSizedPayload []) (Tls13ClientSessionInput.quic_params input)).

Definition suite_id (s : Tls13CipherSuite.t E D Q) : CipherSuite.t :=
  CipherSuiteCommon.suite (Tls13CipherSuite.common s).

(* @src rustls/src/client/mod.rs 176-188 Tls13Session::encode *)
Definition encode (self : t E D Q) (buf : list u8) : list u8 :=
  let buf := Codec.encode (suite_id (Tls13ProtocolSuite.suite (suite self))) buf in
  let buf := Codec.encode (secret self) buf in
  let buf := buf ++ be_bytes 4 (age_add self) in
  let buf := buf ++ be_bytes 4 (max_early_data_size self) in
  let buf := Codec.encode (common self) buf in
  Codec.encode (quic_params self) buf.

(** The members after the cipher suite. *)
(* @src rustls/src/client/mod.rs 139-146 Tls13Session::from_slice::closure *)
Definition read_members (suite : Tls13CipherSuite.t E D Q) : reader (t E D Q) :=
  secret ← read;
  age_add ← u32_read;
  max_early_data_size ← u32_read;
  common ← read;
  quic_params ← read;
  mret (mk (Tls13ProtocolSuite.Tcp suite) secret age_add max_early_data_size common quic_params).

(** [tls13_cipher_suites] is the provider's. *)
(* @src rustls/src/client/mod.rs 128-148 Tls13Session::from_slice *)
Definition from_slice (bytes : list u8) (tls13_cipher_suites : list (Tls13CipherSuite.t E D Q))
    : result Error.t (t E D Q) :=
  '(suite, r) ← map_err Error.InvalidMessage ((read : reader CipherSuite.t) bytes);
  match list_find (λ s, suite_id s = suite) tls13_cipher_suites with
  | None => Err (Error.ApiMisuse (ApiMisuse.ResumingFromUnknownCipherSuite suite))
  | Some (_, suite) =>
      '(value, _) ← map_err Error.InvalidMessage (Reader.all "Tls13Session" (read_members suite) r);
      Ok value
  end.
End methods.
End Tls13Session.

Module Tls12CipherSuite.
(** [P] and [A] are the trait objects [Prf] and [Tls12AeadAlgorithm]. *)
(* @src rustls/src/tls12.rs 21-66 Tls12CipherSuite *)
Record t (P A : Type) := mk {
  common : CipherSuiteCommon.t;
  prf_provider : P;
  kx : KeyExchangeAlgorithm.t;
  sign : list SignatureScheme.t;
  aead_alg : A;
}.
Arguments mk {P A}.
Arguments common {P A}.
Arguments prf_provider {P A}.
Arguments kx {P A}.
Arguments sign {P A}.
Arguments aead_alg {P A}.
End Tls12CipherSuite.

Module Tls12Session.
(* @src rustls/src/client/mod.rs 243-252 Tls12Session *)
Record t (P A : Type) := mk {
  suite : Tls12CipherSuite.t P A;
  session_id : SessionId.t;
  master_secret : list u8;
  extended_ms : bool;
  common : ClientSessionCommon.t;
}.
Arguments mk {P A}.
Arguments suite {P A}.
Arguments session_id {P A}.
Arguments master_secret {P A}.
Arguments extended_ms {P A}.
Arguments common {P A}.

Section methods.
Context {P A : Type}.

(* @src rustls/src/client/mod.rs 279-296 Tls12Session::new *)
Definition new (suite : Tls12CipherSuite.t P A) (session_id : SessionId.t)
    (ticket : SizedPayload PayloadSize.U16 Cardinality.MaybeEmpty) (master_secret : list u8)
    (peer_identity : Identity.t) (time_now : Z) (lifetime : Duration.t) (extended_ms : bool) : t P A :=
  mk suite session_id master_secret extended_ms
     (ClientSessionCommon.new ticket time_now lifetime peer_identity).

Definition suite_id (s : Tls12CipherSuite.t P A) : CipherSuite.t :=
  CipherSuiteCommon.suite (Tls12CipherSuite.common s).

(* @src rustls/src/client/mod.rs 298-305 Tls12Session::encode *)
Definition encode (self : t P A) (buf : list u8) : list u8 :=
  let buf := Codec.encode (suite_id (suite self)) buf in
  let buf := Codec.encode (session_id self) buf in
  let buf := buf ++ master_secret self in
  let buf := buf ++ [if extended_ms self then x01 else x00] in
  Codec.encode (common self) buf.

(** The members after the cipher suite. *)
(* @src rustls/src/client/mod.rs 265-275 Tls12Session::from_slice::closure *)
Definition read_members (suite : Tls12CipherSuite.t P A) : reader (t P A) :=
  session_id ← read;
  master_secret ← Reader.take_array 48 "MasterSecret";
  extended_ms ← (λ b, bool_decide (b = x01)) <$> (read : reader u8);
  common ← read;
  mret (mk suite session_id master_secret extended_ms common).

(** [tls12_cipher_suites] is the provider's. *)
(* @src rustls/src/client/mod.rs 255-277 Tls12Session::from_slice *)
Definition from_slice (bytes : list u8) (tls12_cipher_suites : list (Tls12CipherSuite.t P A))
    : result Error.t (t P A) :=
  '(suite, r) ← map_err Error.InvalidMessage ((read : reader CipherSuite.t) bytes);
  match list_find (λ s, suite_id s = suite) tls12_cipher_suites with
  | None => Err (Error.ApiMisuse (ApiMisuse.ResumingFromUnknownCipherSuite suite))
  | Some (_, suite) =>
      '(value, _) ← map_err Error.InvalidMessage (Reader.all "Tls12Session" (read_members suite) r);
      Ok value
  end.
End methods.
End Tls12Session.

Module Retrieved.
(* @src rustls/src/client/mod.rs 63-66 Retrieved *)
Record t (T : Type) := mk { value : T; retrieved_at : Z }.
Arguments mk {T}.
Arguments value {T}.
Arguments retrieved_at {T}.

(* @src rustls/src/client/mod.rs 76-81 Retrieved::map *)
Definition map {T M} (self : t T) (f : T → option M) : option (t M) :=
  value ← f (value self); Some (mk value (retrieved_at self)).

(* @src rustls/src/client/mod.rs 85-95 Retrieved::obfuscated_ticket_age *)
Definition obfuscated_ticket_age {E D Q} (self : t (Tls13Session.t E D Q)) : Z :=
  let age_secs := sat_sub (retrieved_at self)
                    (ClientSessionCommon.epoch (Tls13Session.common (value self))) in
  let age_millis := sat_mul u32_MAX (if decide (age_secs <= u32_MAX)%Z then age_secs else u32_MAX) 1000 in
  wrapN 32 (age_millis + Tls13Session.age_add (value self)).

(** [T] dereferences to [ClientSessionCommon]. *)
(* @src rustls/src/client/mod.rs 99-106 Retrieved::has_expired *)
Definition has_expired (self : t ClientSessionCommon.t) : bool :=
  let common := value self in
  negb ((Duration.as_secs (ClientSessionCommon.lifetime common) =? 0)%Z &&
        (Duration.subsec_nanos (ClientSessionCommon.lifetime common) =? 0)%Z) &&
  (sat_add u64_MAX (ClientSessionCommon.epoch common)
     (Duration.as_secs (ClientSessionCommon.lifetime common)) <? retrieved_at self)%Z.
End Retrieved.

(** ** Server sessions *)

Module CommonServerSessionValue.
(* @src rustls/src/server/mod.rs 81-88 CommonServerSessionValue *)
Record t := mk {
  creation_time_sec : Z;
  sni : option (list u8);
  cipher_suite : CipherSuite.t;
  peer_identity : option Identity.t;
  alpn : option ApplicationProtocol.t;
  application_data : SizedPayload PayloadSize.U16 Cardinality.MaybeEmpty;
}.

(* @src rustls/src/server/mod.rs 91-107 CommonServerSessionValue::new *)
Definition new (sni : option (list u8)) (cipher_suite : CipherSuite.t)
    (peer_identity : option Identity.t) (alpn : option ApplicationProtocol.t)
    (application_data : list u8) (creation_time : Z) : t :=
  mk creation_time sni cipher_suite peer_identity alpn (mkSizedPayload application_data).

(** [dns_eq] is the equality of [pki_types::DnsName]. *)
(* @src rustls/src/server/mod.rs 122-134 CommonServerSessionValue::can_resume *)
Definition can_resume (dns_eq : list u8 → list u8 → bool) (self : t) (suite : CipherSuite.t)
    (sni' : option (list u8)) : bool :=
  bool_decide (cipher_suite self = suite) &&
  match sni self, sni' with
  | Some a, Some b => dns_eq a b
  | None, None => true
  | _, _ => false
  end.

(** [if let Some(x) = .. { 1u8.encode(..); x.encode(..) } else { 0u8.encode(..) }]. *)
Definition encode_flagged `{Codec T} (o : option T) (bytes : list u8) : list u8 :=
  match o with
  | Some x => encode x (encode (x01 : u8) bytes)
  | None => encode (x00 : u8) bytes
  end.

(** [match u8::read(r)? { 1 => Some(..), _ => None }]. *)
Definition read_flagged {T} (m : reader T) : reader (option T) :=
  b ← (read : reader u8);
  match b with x01 => Some <$> m | _ => mret None end.

Section codec.
Context `{!PkiTypes}.

(* @src rustls/src/server/mod.rs 167-174 CommonServerSessionValue::read::match *)
Definition read_dns_name : reader (list u8) :=
  dns_name ← (read : reader (SizedPayload PayloadSize.U8 Cardinality.MaybeEmpty));
  if dns_name_ok (sp_inner dns_name) then mret (sp_inner dns_name)
  else reader_fail InvalidMessage.InvalidServerName.

(* @src rustls/src/server/mod.rs 137-194 Codec_for_CommonServerSessionValue *)
#[global] Instance codec : Codec t := {
  encode self bytes :=
    let bytes := u64_encode (creation_time_sec self) bytes in
    let bytes := encode_flagged (mkSizedPayload (L:=PayloadSize.U8) (C:=Cardinality.MaybeEmpty)
                                   <$> sni self) bytes in
    let bytes := encode (cipher_suite self) bytes in
    let bytes := encode_flagged (peer_identity self) bytes in
    let bytes := encode_flagged (alpn self) bytes in
    encode (application_data self) bytes;
  read :=
    creation_time_sec ← u64_read;
    sni ← read_flagged read_dns_name;
    cipher_suite ← read;
    peer_identity ← read_flagged read;
    alpn ← read_flagged read;
    application_data ← read;
    mret (mk creation_time_sec sni cipher_suite peer_identity alpn application_data);
}.
End codec.
End CommonServerSessionValue.

Module Tls12ServerSessionValue.
(* @src rustls/src/server/tls12.rs 794-798 Tls12ServerSessionValue *)
Record t := mk {
  common : CommonServerSessionValue.t;
  master_secret : list u8;
  extended_ms : bool;
}.

(* @src rustls/src/server/tls12.rs 825-839 Codec_for_Tls12ServerSessionValue *)
#[global] Instance codec `{!PkiTypes} : Codec t := {
  encode self bytes :=
    let bytes := encode (common self) bytes in
    let bytes := bytes ++ master_secret self in
    encode (if extended_ms self then x01 else x00 : u8) bytes;
  read :=
    common ← read;
    master_secret ← Reader.take_array 48 "MasterSecret";
    extended_ms ← (λ b, bool_decide (b = x01)) <$> (read : reader u8);
    mret (mk common master_secret extended_ms);
}.
End Tls12ServerSessionValue.

Module Tls13ServerSessionValue.
(* @src rustls/src/server/tls13.rs 1303-1310 Tls13ServerSessionValue *)
Record t := mk {
  common : CommonServerSessionValue.t;
  secret : SizedPayload PayloadSize.U8 Cardinality.MaybeEmpty;
  age_obfuscation_offset : Z;
  freshness : option bool;
}.

(* @src rustls/src/server/tls13.rs 1331-1342 Tls13ServerSessionValue::new *)
Definition new (common : CommonServerSessionValue.t) (secret : list u8)
    (age_obfuscation_offset : Z) : t :=
  mk common (mkSizedPayload secret) age_obfuscation_offset None.

(* @src rustls/src/server/tls13.rs 1748-1752 MAX_FRESHNESS_SKEW_MS *)
Definition MAX_FRESHNESS_SKEW_MS : Z := 60 * 1000.

(* @src rustls/src/server/tls13.rs 1356-1365 Tls13ServerSessionValue::set_freshness *)
Definition set_freshness (self : t) (obfuscated_client_age_ms time_now : Z) : t :=
  let client_age_ms := wrapN 32 (obfuscated_client_age_ms - age_obfuscation_offset self) in
  let server_age_ms :=
    sat_mul u32_MAX
      (wrapN 32 (sat_sub time_now (CommonServerSessionValue.creation_time_sec (common self)))) 1000 in
  let age_difference := Z.abs (server_age_ms - client_age_ms) in
  mk (common self) (secret self) (age_obfuscation_offset self)
     (Some (bool_decide (age_difference <= MAX_FRESHNESS_SKEW_MS)%Z)).

(* @src rustls/src/server/tls13.rs 1367-1369 Tls13ServerSessionValue::is_fresh *)
Definition is_fresh (self : t) : bool := default false (freshness self).

(* @src rustls/src/server/tls13.rs 1372-1388 Codec_for_Tls13ServerSessionValue *)
#[global] Instance codec `{!PkiTypes} : Codec t := {
  encode self bytes :=
    let bytes := encode (common self) bytes in
    let bytes := encode (secret self) bytes in
    u32_encode (age_obfuscation_offset self) bytes;
  read :=
    common ← read; secret ← read; age_obfuscation_offset ← u32_read;
    mret (mk common secret age_obfuscation_offset None);
}.
End Tls13ServerSessionValue.

Module ServerSessionValue.
(* @src rustls/src/server/mod.rs 53-56 ServerSessionValue *)
Inductive t :=
  | Tls12 (value : Tls12ServerSessionValue.t)
  | Tls13 (value : Tls13ServerSessionValue.t).

(* @src rustls/src/server/mod.rs 58-79 Codec_for_ServerSessionValue *)
#[global] Instance codec `{!PkiTypes} : Codec t := {
  encode self bytes :=
    match self with
    | Tls12 value => encode value (encode ProtocolVersion.TLSv1_2 bytes)
    | Tls13 value => encode value (encode ProtocolVersion.TLSv1_3 bytes)
    end;
  read :=
    version ← (read : reader ProtocolVersion.t);
    if decide (version = ProtocolVersion.TLSv1_2) then Tls12 <$> read
    else if decide (version = ProtocolVersion.TLSv1_3) then Tls13 <$> read
    else reader_fail InvalidMessage.UnknownProtocolVersion;
}.
End ServerSessionValue.

(** ** Codec laws *)

Lemma bind_u64_app {B} v (f : Z → reader B) rest :
  is_u64 v → (u64_read ≫= f) (be_bytes 8 v ++ rest) = f v rest.
Proof. intros Hv. unfold mbind, reader_bind. by rewrite u64_read_app. Qed.

Lemma bind_fmap_u64_app {A B} v (g : Z → A) (f : A → reader B) rest :
  is_u64 v → ((g <$> u64_read) ≫= f) (be_bytes 8 v ++ rest) = f (g v) rest.
Proof. intros Hv. unfold mbind, reader_bind, fmap, reader_fmap. by rewrite u64_read_app. Qed.

Lemma bind_take_array_app {B} n ty (b : list u8) (f : list u8 → reader B) rest :
  length b = n → (Reader.take_array n ty ≫= f) (b ++ rest) = f b rest.
Proof. intros Hb. unfold mbind, reader_bind. by rewrite take_array_app. Qed.

Lemma fmap_read_encode {A B} {valid : A → Prop} `{!Codec A, !CodecLaws A valid} (v : A) (g : A → B) rest :
  valid v → (g <$> read) (get_encoding v ++ rest) = Ok (g v, rest).
Proof. intros Hv. unfold fmap, reader_fmap. by rewrite read_encode. Qed.

Definition spki_valid (k : SubjectPublicKeyInfoDer) : Prop :=
  (Z.of_nat (length (spki k)) <= CERTIFICATE_MAX_SIZE_LIMIT)%Z.

#[global] Instance spki_laws : CodecLaws SubjectPublicKeyInfoDer spki_valid.
Proof.
  apply (codec_laws_intro spki_valid (λ k, be_bytes 3 (Z.of_nat (length (spki k))) ++ spki k)).
  - intros. by apply nest_spec.
  - intros [k] rest Hk. unfold spki_valid in Hk. cbn [spki] in *. cbn [read SubjectPublicKeyInfoDer_codec].
    unfold CERTIFICATE_MAX_SIZE_LIMIT in Hk.
    change 3 with (ListLength.width (SIZE_LEN (T:=SubjectPublicKeyInfoDer))).
    rewrite <-(assoc_L (++)), bind_list_length_app.
    + by rewrite bind_sub_app.
    + unfold ListLength.accepts, SIZE_LEN, SubjectPublicKeyInfoDer_list, SIZE_LEN, CertificateDer_list.
      unfold CERTIFICATE_MAX_SIZE_LIMIT. simpl. lia.
Qed.

Definition identity_valid (i : Identity.t) : Prop :=
  match i with
  | Identity.X509 c => cert_valid (CertificateIdentity.end_entity c) ∧
                       vec_valid cert_valid (CertificateIdentity.intermediates c)
  | Identity.RawPublicKey k => spki_valid k
  end.

#[global] Instance identity_laws : CodecLaws Identity.t identity_valid.
Proof.
  apply (codec_laws_intro identity_valid (λ i,
    match i with
    | Identity.X509 c => [x00] ++ get_encoding (CertificateIdentity.end_entity c) ++
                         get_encoding (CertificateIdentity.intermediates c)
    | Identity.RawPublicKey k => [x01] ++ get_encoding k
    end)).
  - intros [] bytes; cbn [encode Identity.codec]; by encode_steps.
  - intros [[e l]|k] rest Hv; cbn [read Identity.codec]; rewrite <-?(assoc_L (++)), bind_u8_app.
    + destruct Hv. by read_steps.
    + by rewrite fmap_read_encode.
Qed.

Definition lifetime_ok (d : Duration.t) : Prop :=
  is_u64 (Duration.as_secs d) ∧ Duration.subsec_nanos d = 0%Z.

Definition client_common_valid (c : ClientSessionCommon.t) : Prop :=
  sized_valid (ClientSessionCommon.ticket c) ∧ is_u64 (ClientSessionCommon.epoch c) ∧
  lifetime_ok (ClientSessionCommon.lifetime c) ∧ identity_valid (ClientSessionCommon.peer_identity c).

#[global] Instance client_common_laws : CodecLaws ClientSessionCommon.t client_common_valid.
Proof.
  apply (codec_laws_intro client_common_valid (λ c,
    get_encoding (ClientSessionCommon.ticket c) ++ be_bytes 8 (ClientSessionCommon.epoch c) ++
    be_bytes 8 (Duration.as_secs (ClientSessionCommon.lifetime c)) ++
    get_encoding (ClientSessionCommon.peer_identity c))).
  - intros. cbn [encode ClientSessionCommon.codec]. by encode_steps.
  - intros [t e [s z] i] rest (Ht & He & [Hs Hz] & Hi). cbn in Hs, Hz, He. subst z.
    cbn [read ClientSessionCommon.codec ClientSessionCommon.ticket ClientSessionCommon.epoch
      ClientSessionCommon.lifetime ClientSessionCommon.peer_identity Duration.as_secs] in *.
    read_steps. rewrite bind_u64_app, bind_fmap_u64_app by done. by read_steps.
Qed.

Definition flagged_body `{Codec T} (o : option T) : list u8 :=
  match o with Some x => [x01] ++ get_encoding x | None => [x00] end.

Lemma encode_flagged_app {T} {valid : T → Prop} `{!Codec T, !CodecLaws T valid} (o : option T) bytes :
  CommonServerSessionValue.encode_flagged o bytes = bytes ++ flagged_body o.
Proof. destruct o; [|done]. cbn [CommonServerSessionValue.encode_flagged flagged_body]. by encode_steps. Qed.

Lemma bind_flagged_app {T U B} `{!Codec T} (o : option T) (m : reader U) (g : T → U)
    (f : option U → reader B) rest :
  (∀ x, o = Some x → m (get_encoding x ++ rest) = Ok (g x, rest)) →
  (CommonServerSessionValue.read_flagged m ≫= f) (flagged_body o ++ rest) = f (g <$> o) rest.
Proof.
  intros Hm. destruct o as [x|]; [|done]. cbn [flagged_body]. rewrite <-(assoc_L (++)).
  assert (CommonServerSessionValue.read_flagged m ([x01] ++ get_encoding x ++ rest)
          = Ok (Some (g x), rest)) as Hx.
  { unfold CommonServerSessionValue.read_flagged. rewrite bind_u8_app. unfold fmap, reader_fmap.
    by rewrite (Hm x). }
  unfold mbind, reader_bind. by rewrite Hx.
Qed.

Section server_laws.
Context `{!PkiTypes}.

Definition server_common_valid (c : CommonServerSessionValue.t) : Prop :=
  is_u64 (CommonServerSessionValue.creation_time_sec c) ∧
  from_option (λ n, dns_name_ok n = true ∧ (Z.of_nat (length n) <= 255)%Z) True
    (CommonServerSessionValue.sni c) ∧
  is_u16 (CipherSuite.val (CommonServerSessionValue.cipher_suite c)) ∧
  from_option identity_valid True (CommonServerSessionValue.peer_identity c) ∧
  from_option ApplicationProtocol.valid True (CommonServerSessionValue.alpn c) ∧
  sized_valid (CommonServerSessionValue.application_data c).

Lemma read_dns_name_app n rest :
  dns_name_ok n = true → (Z.of_nat (length n) <= 255)%Z →
  CommonServerSessionValue.read_dns_name
    (get_encoding (mkSizedPayload n : SizedPayload PayloadSize.U8 Cardinality.MaybeEmpty) ++ rest)
  = Ok (n, rest).
Proof.
  intros Hn Hl. unfold CommonServerSessionValue.read_dns_name.
  rewrite bind_read_encode by (split; [apply le_0_n|done]). cbn [sp_inner]. by rewrite Hn.
Qed.

#[global] Instance server_common_laws : CodecLaws CommonServerSessionValue.t server_common_valid.
Proof.
  apply (codec_laws_intro server_common_valid (λ c,
    be_bytes 8 (CommonServerSessionValue.creation_time_sec c) ++
    flagged_body (mkSizedPayload (L:=PayloadSize.U8) (C:=Cardinality.MaybeEmpty)
                    <$> CommonServerSessionValue.sni c) ++
    get_encoding (CommonServerSessionValue.cipher_suite c) ++
    flagged_body (CommonServerSessionValue.peer_identity c) ++
    flagged_body (CommonServerSessionValue.alpn c) ++
    get_encoding (CommonServerSessionValue.application_data c))).
  - intros. cbn [encode CommonServerSessionValue.codec]. unfold u64_encode.
    rewrite !encode_flagged_app. by encode_steps.
  - intros [t n s i p d] rest (Ht & Hn & Hs & Hi & Hp & Hd).
    cbn [read CommonServerSessionValue.codec CommonServerSessionValue.creation_time_sec
      CommonServerSessionValue.sni CommonServerSessionValue.cipher_suite
      CommonServerSessionValue.peer_identity CommonServerSessionValue.alpn
      CommonServerSessionValue.application_data] in *. rewrite <-!(assoc_L (++)), bind_u64_app by done.
    rewrite (bind_flagged_app _ _ sp_inner).
    2: { intros x Hx. destruct n as [n|]; [|done]. injection Hx as <-. destruct Hn. by apply read_dns_name_app. }
    rewrite bind_read_encode by done.
    rewrite (bind_flagged_app i _ id) by (intros x ->; apply read_encode; exact Hi).
    rewrite (bind_flagged_app p _ id) by (intros x ->; apply read_encode; exact Hp).
    rewrite bind_read_encode by done. rewrite !option_fmap_id. by destruct n.
Qed.

Definition flag_byte (b : bool) : u8 := if b then x01 else x00.

Lemma bind_flag_byte {B} b (f : bool → reader B) rest :
  (((λ v, bool_decide (v = x01)) <$> (read : reader u8)) ≫= f) ([flag_byte b] ++ rest) = f b rest.
Proof. by destruct b. Qed.

(** The freshness is not stored. *)
Definition server_valid (v : ServerSessionValue.t) : Prop :=
  match v with
  | ServerSessionValue.Tls12 v =>
      server_common_valid (Tls12ServerSessionValue.common v) ∧
      length (Tls12ServerSessionValue.master_secret v) = 48
  | ServerSessionValue.Tls13 v =>
      server_common_valid (Tls13ServerSessionValue.common v) ∧
      sized_valid (Tls13ServerSessionValue.secret v) ∧
      is_u32 (Tls13ServerSessionValue.age_obfuscation_offset v) ∧
      Tls13ServerSessionValue.freshness v = None
  end.

#[global] Instance server_laws : CodecLaws ServerSessionValue.t server_valid.
Proof.
  apply (codec_laws_intro server_valid (λ v,
    match v with
    | ServerSessionValue.Tls12 v =>
        get_encoding ProtocolVersion.TLSv1_2 ++ get_encoding (Tls12ServerSessionValue.common v) ++
        Tls12ServerSessionValue.master_secret v ++ [flag_byte (Tls12ServerSessionValue.extended_ms v)]
    | ServerSessionValue.Tls13 v =>
        get_encoding ProtocolVersion.TLSv1_3 ++ get_encoding (Tls13ServerSessionValue.common v) ++
        get_encoding (Tls13ServerSessionValue.secret v) ++
        be_bytes 4 (Tls13ServerSessionValue.age_obfuscation_offset v)
    end)).
  - intros [v|v] bytes; cbn [encode ServerSessionValue.codec Tls12ServerSessionValue.codec
      Tls13ServerSessionValue.codec]; by encode_steps.
  - intros [[c m x]|[c s a fr]] rest; cbn [server_valid Tls12ServerSessionValue.common
      Tls12ServerSessionValue.master_secret Tls12ServerSessionValue.extended_ms
      Tls13ServerSessionValue.common Tls13ServerSessionValue.secret
      Tls13ServerSessionValue.age_obfuscation_offset Tls13ServerSessionValue.freshness];
      cbn [read ServerSessionValue.codec].
    + intros [Hc Hm]. rewrite <-!(assoc_L (++)), bind_read_encode by done. rewrite decide_True by done.
      unfold fmap at 1, reader_fmap at 1. cbn [read Tls12ServerSessionValue.codec].
      rewrite bind_read_encode, bind_take_array_app, bind_flag_byte by done. done.
    + intros (Hc & Hs & Ha & ->). rewrite <-!(assoc_L (++)), bind_read_encode by done.
      rewrite decide_False, decide_True by done.
      unfold fmap at 1, reader_fmap at 1. cbn [read Tls13ServerSessionValue.codec]. by read_steps.
Qed.
End server_laws.

(** A session can be read back by whoever has its suite. *)
Section client_roundtrip.
Context {P A E D Q : Type}.

Lemma all_ok {T} ty (m : reader T) bs v : m bs = Ok (v, []) → Reader.all ty m bs = Ok (v, []).
Proof. intros Hm. unfold Reader.all. by rewrite Hm. Qed.

Definition tls12_valid (s : Tls12Session.t P A) : Prop :=
  is_u16 (CipherSuite.val (Tls12Session.suite_id (Tls12Session.suite s))) ∧
  SessionId.valid (Tls12Session.session_id s) ∧ length (Tls12Session.master_secret s) = 48 ∧
  client_common_valid (Tls12Session.common s).

Lemma tls12_from_slice (s : Tls12Session.t P A) suites i :
  tls12_valid s →
  list_find (λ x, Tls12Session.suite_id x = Tls12Session.suite_id (Tls12Session.suite s)) suites
    = Some (i, Tls12Session.suite s) →
  Tls12Session.from_slice (Tls12Session.encode s []) suites = Ok s.
Proof.
  destruct s as [u id m x c]. intros (Hu & Hid & Hm & Hc) Hf. unfold Tls12Session.encode.
  cbn [Tls12Session.suite Tls12Session.session_id Tls12Session.master_secret Tls12Session.extended_ms
    Tls12Session.common] in *. encode_steps. rewrite app_nil_l. unfold Tls12Session.from_slice.
  rewrite read_encode by done. unfold mbind, result_bind, map_err. rewrite Hf.
  rewrite (all_ok _ _ _ (Tls12Session.mk u id m x c)); [done|].
  unfold Tls12Session.read_members. rewrite bind_read_encode, bind_take_array_app by done.
  change [if x then x01 else x00] with [flag_byte x]. rewrite bind_flag_byte.
  rewrite <-(app_nil_r (get_encoding c)). by read_steps.
Qed.

Definition tls13_valid (s : Tls13Session.t E D Q) : Prop :=
  is_u16 (CipherSuite.val (Tls13Session.suite_id (Tls13ProtocolSuite.suite (Tls13Session.suite s)))) ∧
  sized_valid (Tls13Session.secret s) ∧ is_u32 (Tls13Session.age_add s) ∧
  is_u32 (Tls13Session.max_early_data_size s) ∧ client_common_valid (Tls13Session.common s) ∧
  sized_valid (Tls13Session.quic_params s).

(** A session of a QUIC connection is read back as one of a TCP connection. *)
Definition as_tcp (s : Tls13Session.t E D Q) : Tls13Session.t E D Q :=
  Tls13Session.mk (Tls13ProtocolSuite.Tcp (Tls13ProtocolSuite.suite (Tls13Session.suite s)))
    (Tls13Session.secret s) (Tls13Session.age_add s) (Tls13Session.max_early_data_size s)
    (Tls13Session.common s) (Tls13Session.quic_params s).

Lemma tls13_from_slice (s : Tls13Session.t E D Q) suites i :
  tls13_valid s →
  list_find (λ x, Tls13Session.suite_id x
               = Tls13Session.suite_id (Tls13ProtocolSuite.suite (Tls13Session.suite s))) suites
    = Some (i, Tls13ProtocolSuite.suite (Tls13Session.suite s)) →
  Tls13Session.from_slice (Tls13Session.encode s []) suites = Ok (as_tcp s).
Proof.
  destruct s as [u k a m c q]. intros (Hu & Hk & Ha & Hm & Hc & Hq) Hf. unfold Tls13Session.encode.
  cbn [Tls13Session.suite Tls13Session.secret Tls13Session.age_add Tls13Session.max_early_data_size
    Tls13Session.common Tls13Session.quic_params] in *.
  encode_steps. rewrite app_nil_l. unfold Tls13Session.from_slice.
  rewrite read_encode by done. unfold mbind, result_bind, map_err. rewrite Hf.
  rewrite (all_ok _ _ _ (as_tcp (Tls13Session.mk u k a m c q))); [done|].
  unfold Tls13Session.read_members. rewrite <-(app_nil_r (get_encoding q)). by read_steps.
Qed.
End client_roundtrip.

(** ** Ages *)

Lemma sat_mul_small max a b : (a * b <= max)%Z → sat_mul max a b = (a * b)%Z.
Proof. unfold sat_mul. lia. Qed.

Lemma unobfuscate a b : (0 <= a <= u32_MAX)%Z → wrapN 32 (wrapN 32 (a + b) - b) = a.
Proof.
  intros Ha. unfold wrapN. rewrite Zminus_mod_idemp_l. replace (a + b - b)%Z with a by lia.
  apply Z.mod_small. unfold u32_MAX in Ha. lia.
Qed.

(** The lifetime of a stored ticket is at most a week. *)
Lemma new_lifetime ticket now l i :
  (Duration.as_secs (ClientSessionCommon.lifetime (ClientSessionCommon.new ticket now l i)) <= 604800)%Z.
Proof.
  unfold ClientSessionCommon.new, ClientSessionCommon.duration_le, ClientSessionCommon.MAX_TICKET_LIFETIME.
  cbn [ClientSessionCommon.lifetime Duration.from_secs Duration.as_secs Duration.subsec_nanos].
  destruct (_ || _) eqn:Hb; [|simpl; lia]. apply orb_true_iff in Hb as [?%Z.ltb_lt|[?%Z.eqb_eq _]%andb_true_iff]; lia.
Qed.

Lemma not_expired_age (c : ClientSessionCommon.t) at_ :
  (0 < Duration.as_secs (ClientSessionCommon.lifetime c) <= 604800)%Z → is_u64 at_ →
  is_u64 (ClientSessionCommon.epoch c) →
  Retrieved.has_expired (Retrieved.mk c at_) = false → (at_ <= ClientSessionCommon.epoch c + 604800)%Z.
Proof.
  intros Hl Ha He. unfold Retrieved.has_expired. cbn [Retrieved.value Retrieved.retrieved_at].
  destruct (Z.eqb_spec (Duration.as_secs (ClientSessionCommon.lifetime c)) 0) as [?|_]; [lia|].
  rewrite andb_false_l, andb_true_l. intros ?%Z.ltb_ge. unfold sat_add in *.
  unfold is_u64 in Ha. unfold u64_MAX in *. lia.
Qed.

(** A ticket's age survives its obfuscation: for a ticket the client has not
    expired, the server finds the ticket fresh exactly if the ages by the two clocks
    differ by at most a minute, whatever the obfuscation offset. *)
Theorem ticket_age_fresh {E D Q} (nst : NewSessionTicketPayloadTls13.t)
    (input : Tls13ClientSessionInput.t E D Q) (secret : list u8) (received retrieved : Z)
    (v : Tls13ServerSessionValue.t) (now : Z)
    (session := Tls13Session.new nst input secret received)
    (created := CommonServerSessionValue.creation_time_sec (Tls13ServerSessionValue.common v))
    (age := Retrieved.obfuscated_ticket_age (Retrieved.mk session retrieved)) :
  Tls13ServerSessionValue.age_obfuscation_offset v = NewSessionTicketPayloadTls13.age_add nst →
  (0 < Duration.as_secs (NewSessionTicketPayloadTls13.lifetime nst))%Z →
  is_u64 received → is_u64 retrieved → (received <= retrieved)%Z →
  Retrieved.has_expired (Retrieved.mk (Tls13Session.common session) retrieved) = false →
  (created <= now <= created + 4294967)%Z →
  is_u32 age ∧
  (Tls13ServerSessionValue.is_fresh (Tls13ServerSessionValue.set_freshness v age now) = true ↔
   (Z.abs ((now - created) - (retrieved - received)) <= 60)%Z).
Proof.
  intros Ho Hlt Hr Ht Hrt Hx Hn.
  assert (retrieved <= received + 604800)%Z as Hage.
  { apply (not_expired_age (Tls13Session.common session)); [|done..]. split; [|apply new_lifetime].
    subst session. unfold Tls13Session.new, ClientSessionCommon.new.
    cbn [Tls13Session.common ClientSessionCommon.lifetime].
    by destruct (ClientSessionCommon.duration_le _ _). }
  assert (age = wrapN 32 ((retrieved - received) * 1000 + NewSessionTicketPayloadTls13.age_add nst)) as ->.
  { subst age. unfold Retrieved.obfuscated_ticket_age, sat_sub. subst session.
    cbn [Retrieved.retrieved_at Retrieved.value Tls13Session.common Tls13Session.new ClientSessionCommon.new
      ClientSessionCommon.epoch Tls13Session.age_add].
    rewrite Z.max_r by lia. unfold u32_MAX. rewrite decide_True by lia. by rewrite sat_mul_small by lia. }
  split; [unfold is_u32, wrapN; apply Z.mod_pos_bound; lia|].
  unfold Tls13ServerSessionValue.is_fresh, Tls13ServerSessionValue.set_freshness.
  cbn [Tls13ServerSessionValue.freshness from_option id].
  rewrite Ho, unobfuscate by (unfold u32_MAX; lia). fold created. unfold sat_sub.
  rewrite Z.max_r by lia. rewrite (wrapN_small 32) by lia. rewrite sat_mul_small by (unfold u32_MAX; lia).
  rewrite bool_decide_eq_true. unfold Tls13ServerSessionValue.MAX_FRESHNESS_SKEW_MS. lia.
Qed.

Definition sample_input : Tls13ClientSessionInput.t (AeadKey.t * Iv.t) (AeadKey.t * Iv.t) Empty_set :=
  Tls13ClientSessionInput.mk Toy.suite (Identity.RawPublicKey (mkSubjectPublicKeyInfoDer [x01])) None.

Definition sample_nst : NewSessionTicketPayloadTls13.t :=
  NewSessionTicketPayloadTls13.new (Duration.from_secs 86400) 0xfffffff0 [x01] [x02].

Definition sample_value : Tls13ServerSessionValue.t :=
  Tls13ServerSessionValue.new
    (CommonServerSessionValue.new (Some [x61]) CipherSuite.TLS13_AES_128_GCM_SHA256
       (Some (Identity.X509 (CertificateIdentity.mk (mkCertificateDer [x30]) [])))
       (Some ApplicationProtocol.Http2) [] 1000)
    [x07] 0xfffffff0.

(** Retrieved after 500 s by the client's clock and 559 s by the server's. *)
Lemma ticket_age_fresh_witness :
  Tls13ServerSessionValue.is_fresh (Tls13ServerSessionValue.set_freshness sample_value
    (Retrieved.obfuscated_ticket_age (Retrieved.mk
       (Tls13Session.new sample_nst sample_input [x07] 2000) 2500)) 1559) = true.
Proof.
  apply (ticket_age_fresh sample_nst sample_input [x07] 2000 2500 sample_value 1559);
    vm_compute; done.
Defined.


