(* ===== verification/Compress.v ===== *)
(** * Certificate compression ([rustls/src/compress.rs])

    The cache of compressed certificates that connections share.  The compression
    algorithms are the provider's: records of their methods.  A call of the cache takes
    its lock twice, and calls of several threads interleave between the two. *)
From stdpp Require Import gmap.
From S2P Require Import Prelude Enums Errors Codec Records Extensions Payloads ServerHello ClientHello Messages.

Module CompressionLevel.
(* @src rustls/src/compress.rs 101-114 CompressionLevel *)
Inductive t := Interactive | Amortized.
End CompressionLevel.

Module CertCompressor.
(** [None] is [CompressionFailed]. *)
(* @src rustls/src/compress.rs 81-99 CertCompressor *)
Record t := mk {
  compress : list u8 → CompressionLevel.t → option (list u8);
  algorithm : CertificateCompressionAlgorithm.t;
}.
End CertCompressor.

Module CertDecompressor.
(** [decompress input n] writes into a buffer of [n] bytes, or is [DecompressionFailed]. *)
(* @src rustls/src/compress.rs 56-68 CertDecompressor *)
Record t := mk {
  decompress : list u8 → nat → option (list u8);
  algorithm : CertificateCompressionAlgorithm.t;
}.

(** What the buffer of [n] zeros holds after the call. *)
Definition decompress_into (self : t) (input : list u8) (n : nat) : option (list u8) :=
  (λ written, take n (written ++ replicate n x00)) <$> decompress self input n.
End CertDecompressor.

Module CompressionCacheEntry.
(* @src rustls/src/compress.rs 441-449 CompressionCacheEntry *)
Record t := mk {
  algorithm : CertificateCompressionAlgorithm.t;
  original : list u8;
  compressed : CompressedCertificatePayload.t;
}.

(* @src rustls/src/compress.rs 452-454 CompressionCacheEntry::compressed_cert_payload *)
Definition compressed_cert_payload (self : t) : CompressedCertificatePayload.t := compressed self.
End CompressionCacheEntry.

Module CompressionCache.
(** The entries are those of the [VecDeque] in the mutex; no code that holds the lock
    panics, so that it is never poisoned. *)
(* @src rustls/src/compress.rs 293-307 CompressionCache *)
Inductive t :=
| Disabled
| Enabled (size : nat) (entries : list CompressionCacheEntry.t).

(* @src rustls/src/compress.rs 324-335 CompressionCache::new *)
Definition new (size : nat) : t := if decide (size = 0) then Disabled else Enabled size [].

Section methods.
Context `{!PkiTypes}.

(** [alg], and what [compressed] is of. *)
Definition entry_of (algorithm : CertificateCompressionAlgorithm.t) (original : list u8)
    (uncompressed_len : Z) (compressed : list u8) : CompressionCacheEntry.t :=
  CompressionCacheEntry.mk algorithm original
    (CompressedCertificatePayload.mk algorithm uncompressed_len (mkSizedPayload compressed)).

(* @src rustls/src/compress.rs 410-431 CompressionCache::uncached_compression *)
Definition uncached_compression (compressor : CertCompressor.t) (original : CertificatePayloadTls13.t)
    : option CompressionCacheEntry.t :=
  let algorithm := CertCompressor.algorithm compressor in
  let encoding := get_encoding original in
  let uncompressed_len := wrapN 32 (Z.of_nat (length encoding)) in
  compressed ← CertCompressor.compress compressor encoding CompressionLevel.Interactive;
  Some (entry_of algorithm [] uncompressed_len compressed).

(** The first critical section: a hit moves to the back. *)
(* @src rustls/src/compress.rs 373-384 CompressionCache::compression_for_impl::for *)
Definition lookup (algorithm : CertificateCompressionAlgorithm.t) (encoding : list u8)
    (cache : list CompressionCacheEntry.t)
    : list CompressionCacheEntry.t * option CompressionCacheEntry.t :=
  match list_find (λ item, CompressionCacheEntry.algorithm item = algorithm
                           ∧ CompressionCacheEntry.original item = encoding) cache with
  | Some (i, item) => (delete i cache ++ [item], Some item)
  | None => (cache, None)
  end.

(** The second: the oldest entry makes room. *)
(* @src rustls/src/compress.rs 399-407 CompressionCache::compression_for_impl::match *)
Definition insert (max_size : nat) (new_entry : CompressionCacheEntry.t)
    (cache : list CompressionCacheEntry.t) : list CompressionCacheEntry.t :=
  (if decide (length cache = max_size) then tail cache else cache) ++ [new_entry].

(** What is done between the two. *)
(* @src rustls/src/compress.rs 386-397 CompressionCache::compression_for_impl::match *)
Definition new_entry (compressor : CertCompressor.t) (encoding : list u8)
    : option CompressionCacheEntry.t :=
  let algorithm := CertCompressor.algorithm compressor in
  let uncompressed_len := wrapN 32 (Z.of_nat (length encoding)) in
  compressed ← CertCompressor.compress compressor encoding CompressionLevel.Amortized;
  Some (entry_of algorithm encoding uncompressed_len compressed).

(* @src rustls/src/compress.rs 353-408 CompressionCache::compression_for_impl *)
Definition compression_for_impl (max_size : nat) (cache : list CompressionCacheEntry.t)
    (compressor : CertCompressor.t) (original : CertificatePayloadTls13.t)
    : list CompressionCacheEntry.t * option CompressionCacheEntry.t :=
  if negb (bool_decide (sp_inner (CertificatePayloadTls13.context original) = []))
  then (cache, uncached_compression compressor original)
  else
    let encoding := get_encoding original in
    let algorithm := CertCompressor.algorithm compressor in
    match lookup algorithm encoding cache with
    | (cache, Some item) => (cache, Some item)
    | (cache, None) =>
        match new_entry compressor encoding with
        | Some new_entry => (insert max_size new_entry cache, Some new_entry)
        | None => (cache, None)
        end
    end.

(* @src rustls/src/compress.rs 337-351 CompressionCache::compression_for *)
Definition compression_for (self : t) (compressor : CertCompressor.t)
    (original : CertificatePayloadTls13.t) : t * option CompressionCacheEntry.t :=
  match self with
  | Disabled => (self, uncached_compression compressor original)
  | Enabled size entries =>
      match compression_for_impl size entries compressor original with
      | (entries, r) => (Enabled size entries, r)
      end
  end.
End methods.
End CompressionCache.

(** ** Several threads *)

(** A call of [compression_for] is waiting for the lock, has compressed its certificate
    and waits for it again, or has returned. *)
Inductive task :=
| Calling (compressor : CertCompressor.t) (original : CertificatePayloadTls13.t)
| Inserting (compressor : CertCompressor.t) (original : CertificatePayloadTls13.t)
    (entry : CompressionCacheEntry.t)
| Returned (compressor : CertCompressor.t) (original : CertificatePayloadTls13.t)
    (entry : option CompressionCacheEntry.t).

Record shared := mk_shared { entries : list CompressionCacheEntry.t; tasks : list task }.

Section threads.
Context `{!PkiTypes} (size : nat).

(** Where a call is after its first critical section. *)
Definition after_lookup (compressor : CertCompressor.t) (original : CertificatePayloadTls13.t)
    (hit : option CompressionCacheEntry.t) : task :=
  match hit with
  | Some item => Returned compressor original (Some item)
  | None =>
      match CompressionCache.new_entry compressor (get_encoding original) with
      | Some e => Inserting compressor original e
      | None => Returned compressor original None
      end
  end.

Inductive cache_step : shared → shared → Prop :=
| step_call s compressor original :
    cache_step s (mk_shared (entries s) (tasks s ++ [Calling compressor original]))
| step_uncached s i compressor original :
    tasks s !! i = Some (Calling compressor original) →
    sp_inner (CertificatePayloadTls13.context original) ≠ [] →
    cache_step s (mk_shared (entries s)
      (<[i := Returned compressor original
                (CompressionCache.uncached_compression compressor original)]> (tasks s)))
| step_lookup s i compressor original cache hit :
    tasks s !! i = Some (Calling compressor original) →
    sp_inner (CertificatePayloadTls13.context original) = [] →
    CompressionCache.lookup (CertCompressor.algorithm compressor) (get_encoding original) (entries s)
    = (cache, hit) →
    cache_step s (mk_shared cache (<[i := after_lookup compressor original hit]> (tasks s)))
| step_insert s i compressor original entry :
    tasks s !! i = Some (Inserting compressor original entry) →
    cache_step s (mk_shared (CompressionCache.insert size entry (entries s))
      (<[i := Returned compressor original (Some entry)]> (tasks s))).
End threads.

(** ** What the cache returns *)

Section sound.
Context `{!PkiTypes}.

(** A correct decompressor for each algorithm, and the promise of compressors to it. *)
Context (decompress : CertificateCompressionAlgorithm.t → list u8 → nat → option (list u8)).
Definition faithful (c : CertCompressor.t) : Prop :=
  ∀ input level out, CertCompressor.compress c input level = Some out →
    decompress (CertCompressor.algorithm c) out (length input) = Some input.

(** The payload decompresses to [encoding], in the way a peer does it. *)
Definition reads_as (algorithm : CertificateCompressionAlgorithm.t) (encoding : list u8)
    (p : CompressedCertificatePayload.t) : Prop :=
  CompressedCertificatePayload.alg p = algorithm
  ∧ ((Z.of_nat (length encoding) < 2 ^ 32)%Z →
     decompress algorithm (sp_inner (CompressedCertificatePayload.compressed p))
       (Z.to_nat (CompressedCertificatePayload.uncompressed_len p)) = Some encoding).

Lemma entry_reads c encoding level original out :
  faithful c → CertCompressor.compress c encoding level = Some out →
  reads_as (CertCompressor.algorithm c) encoding
    (CompressionCacheEntry.compressed (CompressionCache.entry_of (CertCompressor.algorithm c) original
       (wrapN 32 (Z.of_nat (length encoding))) out)).
Proof.
  intros Hc Ho. split; [done|]. intros Hl. simpl. unfold wrapN.
  rewrite Z.mod_small, Nat2Z.id by lia. by eapply Hc.
Qed.

Lemma uncached_reads c original e :
  faithful c → CompressionCache.uncached_compression c original = Some e →
  reads_as (CertCompressor.algorithm c) (get_encoding original) (CompressionCacheEntry.compressed e).
Proof.
  unfold CompressionCache.uncached_compression. intros Hc. generalize (get_encoding original).
  intros encoding Hq. apply bind_Some in Hq as (out & Ho & [= <-]). by eapply entry_reads.
Qed.

(** An entry of the cache is right for its key. *)
Definition entry_ok (e : CompressionCacheEntry.t) : Prop :=
  reads_as (CompressionCacheEntry.algorithm e) (CompressionCacheEntry.original e)
    (CompressionCacheEntry.compressed e).

Lemma new_entry_ok c encoding e :
  faithful c → CompressionCache.new_entry c encoding = Some e →
  entry_ok e ∧ CompressionCacheEntry.algorithm e = CertCompressor.algorithm c
  ∧ CompressionCacheEntry.original e = encoding.
Proof.
  unfold CompressionCache.new_entry. intros Hc Hq.
  apply bind_Some in Hq as (out & Ho & [= <-]). split; [|done]. by eapply entry_reads.
Qed.

Lemma lookup_ok algorithm encoding cache cache' hit :
  CompressionCache.lookup algorithm encoding cache = (cache', hit) → Forall entry_ok cache →
  Forall entry_ok cache' ∧ length cache' = length cache
  ∧ ∀ e, hit = Some e → reads_as algorithm encoding (CompressionCacheEntry.compressed e).
Proof.
  unfold CompressionCache.lookup. intros Hq Hf.
  destruct (list_find _ cache) as [[i item]|] eqn:Hfind; [|by injection Hq as <- <-].
  injection Hq as <- <-. apply list_find_Some in Hfind as (Hi & [Ha Ho] & _).
  pose proof (Forall_lookup_1 _ _ _ _ Hf Hi) as Hitem. split_and!.
  - apply Forall_app. split; [by apply Forall_delete|by apply Forall_singleton].
  - rewrite length_app, length_delete by eauto. simpl. apply lookup_lt_Some in Hi. lia.
  - intros e [= <-]. by rewrite <- Ha, <- Ho.
Qed.

Lemma insert_ok size e cache :
  0 < size → length cache ≤ size → entry_ok e → Forall entry_ok cache →
  length (CompressionCache.insert size e cache) ≤ size
  ∧ Forall entry_ok (CompressionCache.insert size e cache).
Proof.
  intros Hs Hl He Hf. unfold CompressionCache.insert. case_decide as Hd.
  - destruct cache as [|x cache]; simpl in *; [lia|]. apply Forall_cons_1 in Hf as [_ Hf].
    rewrite length_app. simpl. split; [lia|]. apply Forall_app; split; [done|by apply Forall_singleton].
  - rewrite length_app. simpl. split; [lia|]. apply Forall_app; split; [done|by apply Forall_singleton].
Qed.

(** Where a call may be; its compressor is faithful. *)
Definition task_ok (t : task) : Prop :=
  match t with
  | Calling c _ => faithful c
  | Inserting c o e =>
      faithful c ∧ entry_ok e ∧ CompressionCacheEntry.algorithm e = CertCompressor.algorithm c
      ∧ CompressionCacheEntry.original e = get_encoding o
  | Returned c o r =>
      faithful c ∧ ∀ e, r = Some e → reads_as (CertCompressor.algorithm c) (get_encoding o)
        (CompressionCacheEntry.compressed_cert_payload e)
  end.
Definition shared_ok (size : nat) (s : shared) : Prop :=
  length (entries s) ≤ size ∧ Forall entry_ok (entries s) ∧ Forall task_ok (tasks s).

Lemma after_lookup_ok c o hit :
  faithful c →
  (∀ e, hit = Some e → reads_as (CertCompressor.algorithm c) (get_encoding o)
     (CompressionCacheEntry.compressed e)) →
  task_ok (after_lookup c o hit).
Proof.
  intros Hc Hh. unfold after_lookup. destruct hit as [e|]; [by split|].
  destruct (CompressionCache.new_entry c (get_encoding o)) as [e|] eqn:He; split; try done.
  by apply (new_entry_ok _ _ _ Hc He).
Qed.

(** The calls made, each with a faithful compressor. *)
Definition faithful_calls (s s' : shared) : Prop :=
  ∀ c o, tasks s' = tasks s ++ [Calling c o] → faithful c.

Lemma cache_step_ok size s s' :
  0 < size → cache_step size s s' → faithful_calls s s' → shared_ok size s → shared_ok size s'.
Proof.
  intros Hsize Hstep Hcalls (Hl & He & Ht).
  destruct Hstep as [s c o|s i c o Hi Hctx|s i c o cache hit Hi Hctx Hlk|s i c o e Hi].
  - split_and!; [done..|]. apply Forall_app; split; [done|]. apply Forall_singleton. by eapply Hcalls.
  - pose proof (Forall_lookup_1 _ _ _ _ Ht Hi) as Hc. split_and!; [done..|].
    apply Forall_insert; [done|]. split; [done|]. intros e. by apply uncached_reads.
  - pose proof (Forall_lookup_1 _ _ _ _ Ht Hi) as Hc.
    destruct (lookup_ok _ _ _ _ _ Hlk He) as (He' & Hl' & Hh).
    split_and!; simpl; [lia|done|]. apply Forall_insert; [done|]. by apply after_lookup_ok.
  - pose proof (Forall_lookup_1 _ _ _ _ Ht Hi) as (Hc & Hok & Ha & Ho).
    destruct (insert_ok size e (entries s)) as [Hl' He']; [done..|].
    split_and!; simpl; [done..|]. apply Forall_insert; [done|]. split; [done|].
    intros e' [= <-]. unfold entry_ok in Hok. by rewrite <- Ha, <- Ho.
Qed.
End sound.

(** Runs in which the compressors of all calls are faithful. *)
Inductive cache_run `{!PkiTypes}
    (decompress : CertificateCompressionAlgorithm.t → list u8 → nat → option (list u8)) (size : nat)
    : shared → Prop :=
| run_empty : cache_run decompress size (mk_shared [] [])
| run_step s s' :
    cache_run decompress size s → cache_step size s s' → faithful_calls decompress s s' →
    cache_run decompress size s'.

(** C29. however the calls of several threads interleave, the compression cache never
    exceeds its size, and what a call returns decompresses to the certificate the call was
    for, whether it comes from the cache, was just compressed, or was not cached. *)
Theorem compression_cache_sound `{!PkiTypes} decompress size s
    (Hsize : 0 < size) (Hrun : cache_run decompress size s) :
  length (entries s) ≤ size
  ∧ ∀ i c o e, tasks s !! i = Some (Returned c o (Some e)) →
      reads_as decompress (CertCompressor.algorithm c) (get_encoding o)
        (CompressionCacheEntry.compressed_cert_payload e).
Proof.
  assert (shared_ok decompress size s) as (Hl & _ & Ht).
  { induction Hrun as [|s s' Hr IH Hs Hc]; [split_and!; simpl; [lia|done..]|].
    by eapply cache_step_ok. }
  split; [done|]. intros i c o e Hi.
  destruct (Forall_lookup_1 _ _ _ _ Ht Hi) as [_ Hq]. by apply Hq.
Qed.

(** What [compression_for] does, done by one thread alone. *)
Lemma compression_for_runs `{!PkiTypes} size s c o cache' r :
  CompressionCache.compression_for (CompressionCache.Enabled size (entries s)) c o
  = (CompressionCache.Enabled size cache', r) →
  rtc (cache_step size) (mk_shared (entries s) (tasks s ++ [Calling c o]))
    (mk_shared cache' (tasks s ++ [Returned c o r])).
Proof.
  simpl. destruct (CompressionCache.compression_for_impl size (entries s) c o) as [cache2 r2] eqn:Hq.
  intros [= -> ->]. unfold CompressionCache.compression_for_impl in Hq.
  set (s1 := mk_shared (entries s) (tasks s ++ [Calling c o])).
  assert (∀ t : task, tasks s ++ [t] = <[length (tasks s) := t]> (tasks s ++ [Calling c o])) as Hins.
  { intros t. rewrite insert_app_r_alt, Nat.sub_diag by lia. done. }
  assert (tasks s1 !! length (tasks s) = Some (Calling c o)) as Hi.
  { simpl. by rewrite lookup_app_r, Nat.sub_diag by lia. }
  case_bool_decide as Hctx; cbn [negb] in Hq.
  - destruct (CompressionCache.lookup _ _ (entries s)) as [cache1 hit] eqn:Hlk.
    pose proof (step_lookup size s1 (length (tasks s)) c o cache1 hit Hi Hctx Hlk) as Hstep.
    unfold after_lookup in Hstep. cbn [s1 tasks] in Hstep. rewrite <- Hins in Hstep.
    destruct hit as [item|]; [injection Hq as <- <-; by apply rtc_once|].
    revert Hq Hstep. destruct (CompressionCache.new_entry c (get_encoding o)) as [e|];
      intros [= <- <-] Hstep; [|by apply rtc_once].
    eapply rtc_l; [exact Hstep|]. apply rtc_once. rewrite (Hins (Returned _ _ _)).
    replace (<[length (tasks s):=Returned c o (Some e)]> (tasks s ++ [Calling c o]))
      with (<[length (tasks s):=Returned c o (Some e)]> (tasks s ++ [Inserting c o e]))
      by (by rewrite !insert_app_r_alt, Nat.sub_diag by lia).
    apply (step_insert size (mk_shared cache1 (tasks s ++ [Inserting c o e]))).
    simpl. by rewrite lookup_app_r, Nat.sub_diag by lia.
  - injection Hq as <- <-. apply rtc_once. rewrite Hins. by apply (step_uncached size s1).
Qed.

(** A compressor that does nothing, and one call with it. *)
Definition stored : CertCompressor.t :=
  CertCompressor.mk (λ input _, Some input) CertificateCompressionAlgorithm.Zlib.
Definition unstored (_ : CertificateCompressionAlgorithm.t) (input : list u8) (n : nat)
    : option (list u8) := if decide (length input = n) then Some input else None.
Definition no_certs : CertificatePayloadTls13.t := CertificatePayloadTls13.new [] None.

#[local] Existing Instance any_names.
Definition stored_entry : CompressionCacheEntry.t :=
  default (CompressionCache.entry_of CertificateCompressionAlgorithm.Zlib [] 0 [])
    (CompressionCache.new_entry stored (get_encoding no_certs)).

Lemma stored_run :
  cache_run unstored 4 (mk_shared [stored_entry] [Returned stored no_certs (Some stored_entry)]).
Proof.
  assert (faithful unstored stored) as Hf.
  { intros input level out [= <-]. unfold unstored. by rewrite decide_True. }
  assert (cache_run unstored 4 (mk_shared [] [Calling stored no_certs])) as H1.
  { apply (run_step _ _ _ _ (run_empty _ _)); [apply (step_call 4 (mk_shared [] []))|]. by intros c o [= <- <-]. }
  assert (cache_run unstored 4 (mk_shared [] [Inserting stored no_certs stored_entry])) as H2.
  { apply (run_step _ _ _ _ H1); [|by intros c o [=]].
    by apply (step_lookup 4 (mk_shared [] [Calling stored no_certs]) 0 stored no_certs [] None). }
  apply (run_step _ _ _ _ H2); [|by intros c o [=]].
  by apply (step_insert 4 (mk_shared [] [Inserting stored no_certs stored_entry]) 0).
Qed.

Lemma compression_cache_sound_witness :
  length [stored_entry] ≤ 4
  ∧ reads_as unstored CertificateCompressionAlgorithm.Zlib (get_encoding no_certs)
      (CompressionCacheEntry.compressed_cert_payload stored_entry).
Proof.
  destruct (compression_cache_sound unstored 4 _ ltac:(lia) stored_run) as [Hl Hr].
  split; [exact Hl|]. exact (Hr 0 stored no_certs stored_entry eq_refl).
Defined.
