(* ===== verification/Kx.v ===== *)
(** * Key exchange ([rustls/src/crypto/kx/mod.rs])

    The key exchange traits, with the provider's groups as records of their methods, and
    the hybrid of a classical and a post-quantum group.  [W] is the state of the random
    number generator that [start] draws from. *)
From stdpp Require Import gmap.
From S2P Require Import Prelude Enums Errors Codec Records.

(** ** Named groups *)

(* @src rustls/src/crypto/kx/mod.rs 570-576 NamedGroup::key_exchange_algorithm *)
Definition key_exchange_algorithm (self : NamedGroup.t) : KeyExchangeAlgorithm.t :=
  if decide (0x100 ≤ NamedGroup.val self < 0x200)%Z
  then KeyExchangeAlgorithm.DHE else KeyExchangeAlgorithm.ECDHE.

(* @src rustls/src/crypto/kx/mod.rs 578-596 NamedGroup::usable_for_version *)
Definition usable_for_version (self : NamedGroup.t) (version : ProtocolVersion.t) : bool :=
  if decide (version = ProtocolVersion.TLSv1_3) then true
  else negb (bool_decide (self ∈
    [NamedGroup.MLKEM512; NamedGroup.MLKEM768; NamedGroup.MLKEM1024; NamedGroup.X25519MLKEM768;
     NamedGroup.secp256r1MLKEM768; NamedGroup.secp384r1MLKEM1024; NamedGroup.brainpoolP256r1tls13;
     NamedGroup.brainpoolP384r1tls13; NamedGroup.brainpoolP512r1tls13; NamedGroup.curveSM2])).

Module FfdheGroup.
(* @src rustls/src/crypto/kx/ffdhe.rs 4-10 FfdheGroup *)
Record t := mk { p : list u8; g : list u8 }.
#[global] Instance eq_dec : EqDecision t.
Proof. solve_decision. Defined.

(* @src rustls/src/crypto/kx/ffdhe.rs 15-22 trim_leading_zeros *)
Fixpoint trim_leading_zeros (buf : list u8) : list u8 :=
  match buf with
  | x :: rest => if decide (x = x00) then trim_leading_zeros rest else x :: rest
  | [] => []
  end.

(* @src rustls/src/crypto/kx/ffdhe.rs 13-28 FfdheGroup::from_params_trimming_leading_zeros *)
Definition from_params_trimming_leading_zeros (p g : list u8) : t :=
  mk (trim_leading_zeros p) (trim_leading_zeros g).
End FfdheGroup.

Module SharedSecret.
(* @src rustls/src/crypto/kx/mod.rs 599-603 SharedSecret *)
Record t := mk { buf : list u8; offset : nat }.

(* @src rustls/src/crypto/kx/mod.rs 642-646 SharedSecret_from *)
Definition from (buf : list u8) : t := mk buf 0.

(* @src rustls/src/crypto/kx/mod.rs 606-609 SharedSecret::secret_bytes *)
Definition secret_bytes (self : t) : list u8 := drop (offset self) (buf self).

(* @src rustls/src/crypto/kx/mod.rs 611-623 SharedSecret::strip_leading_zeros *)
Definition strip_leading_zeros (self : t) : t :=
  let start :=
    match list_find (λ x, x ≠ x00) (secret_bytes self) with
    | Some (i, _) => i
    | None => length (secret_bytes self)
    end in
  mk (buf self) (offset self + start).
End SharedSecret.

(** ** The traits *)

Module ActiveKeyExchange.
(* @src rustls/src/crypto/kx/mod.rs 347-428 ActiveKeyExchange *)
Record t := mk {
  complete : list u8 → result Error.t SharedSecret.t;
  pub_key : list u8;
  ffdhe_group : option FfdheGroup.t;
  group : NamedGroup.t;
}.

(* @src rustls/src/crypto/kx/mod.rs 365-404 ActiveKeyExchange::complete_for_tls_version *)
Definition complete_for_tls_version (self : t) (peer_pub_key : list u8)
    (tls_version : ProtocolVersion.t) : result Error.t SharedSecret.t :=
  if decide (tls_version = ProtocolVersion.TLSv1_3) then complete self peer_pub_key
  else
    complete_res ← complete self peer_pub_key;
    if decide (key_exchange_algorithm (group self) = KeyExchangeAlgorithm.DHE)
    then Ok (SharedSecret.strip_leading_zeros complete_res) else Ok complete_res.
End ActiveKeyExchange.

Module HybridKeyExchange.
(** [as_key_exchange] and [into_key_exchange] give the same exchange. *)
(* @src rustls/src/crypto/kx/mod.rs 489-510 HybridKeyExchange *)
Record t := mk {
  component : NamedGroup.t * list u8;
  complete_component : list u8 → result Error.t SharedSecret.t;
  into_key_exchange : ActiveKeyExchange.t;
}.
End HybridKeyExchange.

Module CompletedKeyExchange.
(* @src rustls/src/crypto/kx/mod.rs 512-523 CompletedKeyExchange *)
Record t := mk { group : NamedGroup.t; pub_key : list u8; secret : SharedSecret.t }.
End CompletedKeyExchange.

Module StartedKeyExchange.
(* @src rustls/src/crypto/kx/mod.rs 281-288 StartedKeyExchange *)
Inductive t :=
| Single (s : ActiveKeyExchange.t)
| Hybrid (h : HybridKeyExchange.t).

(** Also its [Deref]. *)
(* @src rustls/src/crypto/kx/mod.rs 291-300 StartedKeyExchange::into_single *)
Definition into_single (self : t) : ActiveKeyExchange.t :=
  match self with
  | Single s => s
  | Hybrid h => HybridKeyExchange.into_key_exchange h
  end.
End StartedKeyExchange.

Module SupportedKxGroup.
(** [start_and_complete] has a default, [default_start_and_complete]. *)
(* @src rustls/src/crypto/kx/mod.rs 214-279 SupportedKxGroup *)
Record t (W : Type) := mk {
  start : action W Error.t StartedKeyExchange.t;
  start_and_complete : list u8 → action W Error.t CompletedKeyExchange.t;
  ffdhe_group : option FfdheGroup.t;
  name : NamedGroup.t;
}.
Arguments mk {W}.
Arguments start {W}.
Arguments start_and_complete {W}.
Arguments ffdhe_group {W}.
Arguments name {W}.

(* @src rustls/src/crypto/kx/mod.rs 239-256 SupportedKxGroup::start_and_complete *)
Definition default_start_and_complete {W} (start : action W Error.t StartedKeyExchange.t)
    (peer_pub_key : list u8) : action W Error.t CompletedKeyExchange.t :=
  kx ← start;
  let kx := StartedKeyExchange.into_single kx in
  secret ← lift (ActiveKeyExchange.complete kx peer_pub_key);
  mret (CompletedKeyExchange.mk (ActiveKeyExchange.group kx) (ActiveKeyExchange.pub_key kx) secret).

(* @src rustls/src/crypto/kx/mod.rs 302-333 StartedKeyExchange::as_hybrid_checked *)
Definition as_hybrid_checked {W} (self : StartedKeyExchange.t) (supported : list (t W))
    (version : ProtocolVersion.t) : option (HybridKeyExchange.t * t W) :=
  match self with
  | StartedKeyExchange.Single _ => None
  | StartedKeyExchange.Hybrid hybrid =>
      let component_group := (HybridKeyExchange.component hybrid).1 in
      if negb (usable_for_version component_group version) then None
      else ((λ '(_, g), (hybrid, g)) <$> list_find (λ g, name g = component_group) supported)
  end.
End SupportedKxGroup.

(** ** Hybrids *)

Module HybridLayout.
(* @src rustls/src/crypto/kx/mod.rs 155-173 HybridLayout *)
Record t := mk {
  classical_share_len : nat;
  post_quantum_client_share_len : nat;
  post_quantum_server_share_len : nat;
  post_quantum_first : bool;
}.

(** The pair is the post-quantum and the classical share. *)
(* @src rustls/src/crypto/kx/mod.rs 184-204 HybridLayout::split *)
Definition split (self : t) (share : list u8) (post_quantum_share_len : nat)
    : option (list u8 * list u8) :=
  if decide (length share ≠ classical_share_len self + post_quantum_share_len) then None
  else
    Some (if post_quantum_first self
          then (take post_quantum_share_len share, drop post_quantum_share_len share)
          else (drop (classical_share_len self) share, take (classical_share_len self) share)).

(* @src rustls/src/crypto/kx/mod.rs 176-178 HybridLayout::split_received_client_share *)
Definition split_received_client_share (self : t) (share : list u8) : option (list u8 * list u8) :=
  split self share (post_quantum_client_share_len self).

(* @src rustls/src/crypto/kx/mod.rs 180-182 HybridLayout::split_received_server_share *)
Definition split_received_server_share (self : t) (share : list u8) : option (list u8 * list u8) :=
  split self share (post_quantum_server_share_len self).

(* @src rustls/src/crypto/kx/mod.rs 206-211 HybridLayout::concat *)
Definition concat (self : t) (post_quantum classical : list u8) : list u8 :=
  if post_quantum_first self then post_quantum ++ classical else classical ++ post_quantum.
End HybridLayout.

Module ActiveHybrid.
(* @src rustls/src/crypto/kx/mod.rs 100-106 ActiveHybrid *)
Record t := mk {
  classical : ActiveKeyExchange.t;
  post_quantum : ActiveKeyExchange.t;
  name : NamedGroup.t;
  layout : HybridLayout.t;
  combined_pub_key : list u8;
}.

(* @src rustls/src/crypto/kx/mod.rs 109-126 ActiveHybrid::complete *)
Definition complete (self : t) (peer_pub_key : list u8) : result Error.t SharedSecret.t :=
  '(post_quantum_share, classical_share) ←
    ok_or (HybridLayout.split_received_server_share (layout self) peer_pub_key)
          (Error.PeerMisbehaved PeerMisbehaved.InvalidKeyShare);
  cl ← ActiveKeyExchange.complete (classical self) classical_share;
  pq ← ActiveKeyExchange.complete (post_quantum self) post_quantum_share;
  Ok (SharedSecret.from (HybridLayout.concat (layout self) (SharedSecret.secret_bytes pq)
                           (SharedSecret.secret_bytes cl))).

(* @src rustls/src/crypto/kx/mod.rs 108-135 ActiveKeyExchange_for_ActiveHybrid *)
Definition as_key_exchange (self : t) : ActiveKeyExchange.t :=
  ActiveKeyExchange.mk (complete self) (combined_pub_key self) None (name self).

(* @src rustls/src/crypto/kx/mod.rs 137-153 HybridKeyExchange_for_ActiveHybrid *)
Definition as_hybrid (self : t) : HybridKeyExchange.t :=
  HybridKeyExchange.mk
    (ActiveKeyExchange.group (classical self), ActiveKeyExchange.pub_key (classical self))
    (ActiveKeyExchange.complete (classical self))
    (as_key_exchange self).
End ActiveHybrid.

Module Hybrid.
(* @src rustls/src/crypto/kx/mod.rs 15-27 Hybrid *)
Record t (W : Type) := mk {
  classical : SupportedKxGroup.t W;
  post_quantum : SupportedKxGroup.t W;
  name : NamedGroup.t;
  layout : HybridLayout.t;
}.
Arguments mk {W}.
Arguments classical {W}.
Arguments post_quantum {W}.
Arguments name {W}.
Arguments layout {W}.

Section methods.
Context {W : Type}.
Implicit Types (self : t W).

(* @src rustls/src/crypto/kx/mod.rs 30-45 Hybrid::start *)
Definition start self : action W Error.t StartedKeyExchange.t :=
  classical ← SupportedKxGroup.start (classical self);
  let classical := StartedKeyExchange.into_single classical in
  post_quantum ← SupportedKxGroup.start (post_quantum self);
  let post_quantum := StartedKeyExchange.into_single post_quantum in
  let combined_pub_key :=
    HybridLayout.concat (layout self) (ActiveKeyExchange.pub_key post_quantum)
      (ActiveKeyExchange.pub_key classical) in
  mret (StartedKeyExchange.Hybrid (ActiveHybrid.as_hybrid
          (ActiveHybrid.mk classical post_quantum (name self) (layout self) combined_pub_key))).

(* @src rustls/src/crypto/kx/mod.rs 47-72 Hybrid::start_and_complete *)
Definition start_and_complete self (client_share : list u8)
    : action W Error.t CompletedKeyExchange.t :=
  '(post_quantum_share, classical_share) ←
    lift (ok_or (HybridLayout.split_received_client_share (layout self) client_share)
                (Error.PeerMisbehaved PeerMisbehaved.InvalidKeyShare));
  cl ← SupportedKxGroup.start_and_complete (classical self) classical_share;
  pq ← SupportedKxGroup.start_and_complete (post_quantum self) post_quantum_share;
  let combined_pub_key :=
    HybridLayout.concat (layout self) (CompletedKeyExchange.pub_key pq)
      (CompletedKeyExchange.pub_key cl) in
  let secret :=
    HybridLayout.concat (layout self)
      (SharedSecret.secret_bytes (CompletedKeyExchange.secret pq))
      (SharedSecret.secret_bytes (CompletedKeyExchange.secret cl)) in
  mret (CompletedKeyExchange.mk (name self) combined_pub_key (SharedSecret.from secret)).

(** The [dyn SupportedKxGroup] of a hybrid. *)
(* @src rustls/src/crypto/kx/mod.rs 29-98 SupportedKxGroup_for_Hybrid *)
Definition as_group self : SupportedKxGroup.t W :=
  SupportedKxGroup.mk (start self) (start_and_complete self) None (name self).
End methods.
End Hybrid.

(** ** Agreement *)

(** What a group promises: the server that answers a client's share, and the client that
    completes with the answer, hold the same secret bytes. *)
Definition agrees {W} (g : SupportedKxGroup.t W) : Prop :=
  ∀ w w' w1 w2 kx done,
    SupportedKxGroup.start g w = (w1, Ok kx) →
    SupportedKxGroup.start_and_complete g (ActiveKeyExchange.pub_key (StartedKeyExchange.into_single kx)) w'
    = (w2, Ok done) →
    SharedSecret.secret_bytes
      <$> ActiveKeyExchange.complete (StartedKeyExchange.into_single kx) (CompletedKeyExchange.pub_key done)
    = Ok (SharedSecret.secret_bytes (CompletedKeyExchange.secret done)).

(** The lengths of the shares of a group, sent and answered. *)
Definition share_lens {W} (g : SupportedKxGroup.t W) (client server : nat) : Prop :=
  (∀ w w1 kx, SupportedKxGroup.start g w = (w1, Ok kx) →
     length (ActiveKeyExchange.pub_key (StartedKeyExchange.into_single kx)) = client)
  ∧ (∀ share w w2 done, SupportedKxGroup.start_and_complete g share w = (w2, Ok done) →
       length (CompletedKeyExchange.pub_key done) = server).

Lemma split_concat layout pq cl n :
  length cl = HybridLayout.classical_share_len layout → length pq = n →
  HybridLayout.split layout (HybridLayout.concat layout pq cl) n = Some (pq, cl).
Proof.
  intros Hcl <-. unfold HybridLayout.split, HybridLayout.concat.
  destruct (HybridLayout.post_quantum_first layout); rewrite length_app, decide_False by lia.
  - by rewrite take_app_length, drop_app_length.
  - by rewrite <- Hcl, take_app_length, drop_app_length.
Qed.

Lemma action_bind_ok {S E A B} (m : action S E A) (f : A → action S E B) s s' b :
  (m ≫= f) s = (s', Ok b) → ∃ s1 a, m s = (s1, Ok a) ∧ f a s1 = (s', Ok b).
Proof. unfold mbind, action_bind. destruct (m s) as [s1 [a| |]]; intros H; eauto; done. Qed.

Section hybrid.
Context {W : Type} (h : Hybrid.t W).
Context (Hcl : agrees (Hybrid.classical h)) (Hpq : agrees (Hybrid.post_quantum h)).
Context (Hcll : share_lens (Hybrid.classical h) (HybridLayout.classical_share_len (Hybrid.layout h))
                  (HybridLayout.classical_share_len (Hybrid.layout h))).
Context (Hpql : share_lens (Hybrid.post_quantum h)
                  (HybridLayout.post_quantum_client_share_len (Hybrid.layout h))
                  (HybridLayout.post_quantum_server_share_len (Hybrid.layout h))).

(** A client's hybrid share, and the server's view of it. *)
Lemma hybrid_start_ok w w1 kx :
  Hybrid.start h w = (w1, Ok kx) →
  ∃ w0 cl pq,
    SupportedKxGroup.start (Hybrid.classical h) w = (w0, Ok cl)
    ∧ SupportedKxGroup.start (Hybrid.post_quantum h) w0 = (w1, Ok pq)
    ∧ kx = StartedKeyExchange.Hybrid (ActiveHybrid.as_hybrid
             (ActiveHybrid.mk (StartedKeyExchange.into_single cl) (StartedKeyExchange.into_single pq)
                (Hybrid.name h) (Hybrid.layout h)
                (HybridLayout.concat (Hybrid.layout h)
                   (ActiveKeyExchange.pub_key (StartedKeyExchange.into_single pq))
                   (ActiveKeyExchange.pub_key (StartedKeyExchange.into_single cl))))).
Proof.
  intros H. apply action_bind_ok in H as (w0 & cl & Hc & H).
  apply action_bind_ok in H as (w0' & pq & Hp & H). injection H as <- <-. by eauto 10.
Qed.

Lemma hybrid_answer_ok pq cl w w2 done :
  length cl = HybridLayout.classical_share_len (Hybrid.layout h) →
  length pq = HybridLayout.post_quantum_client_share_len (Hybrid.layout h) →
  Hybrid.start_and_complete h (HybridLayout.concat (Hybrid.layout h) pq cl) w = (w2, Ok done) →
  ∃ w0 dc dp,
    SupportedKxGroup.start_and_complete (Hybrid.classical h) cl w = (w0, Ok dc)
    ∧ SupportedKxGroup.start_and_complete (Hybrid.post_quantum h) pq w0 = (w2, Ok dp)
    ∧ done = CompletedKeyExchange.mk (Hybrid.name h)
        (HybridLayout.concat (Hybrid.layout h) (CompletedKeyExchange.pub_key dp)
           (CompletedKeyExchange.pub_key dc))
        (SharedSecret.from (HybridLayout.concat (Hybrid.layout h)
           (SharedSecret.secret_bytes (CompletedKeyExchange.secret dp))
           (SharedSecret.secret_bytes (CompletedKeyExchange.secret dc)))).
Proof.
  intros Hl Hl' H. unfold Hybrid.start_and_complete, HybridLayout.split_received_client_share in H.
  rewrite split_concat in H by done.
  apply action_bind_ok in H as (w0 & x & Hx & H). injection Hx as <- <-.
  apply action_bind_ok in H as (w0 & dc & Hc & H).
  apply action_bind_ok in H as (w0' & dp & Hp & H). injection H as <- <-. by eauto 10.
Qed.
End hybrid.

Lemma fmap_ok_inv {E A B} (f : A → B) (r : result E A) b :
  f <$> r = Ok b → ∃ a, r = Ok a ∧ f a = b.
Proof. destruct r; intros [=]; eauto. Qed.

(** C28. a hybrid of two groups that agree agrees: the client that offered a combined
    share and the server that answered it hold the same combined secret, for either order
    of the parts.  A server that answers only the classical part of the offer, as the
    client allows, also shares the secret of that part. *)
Theorem hybrid_agreement {W} (h : Hybrid.t W) :
  agrees (Hybrid.classical h) → agrees (Hybrid.post_quantum h) →
  share_lens (Hybrid.classical h) (HybridLayout.classical_share_len (Hybrid.layout h))
    (HybridLayout.classical_share_len (Hybrid.layout h)) →
  share_lens (Hybrid.post_quantum h) (HybridLayout.post_quantum_client_share_len (Hybrid.layout h))
    (HybridLayout.post_quantum_server_share_len (Hybrid.layout h)) →
  agrees (Hybrid.as_group h)
  ∧ ∀ w w1 kx, Hybrid.start h w = (w1, Ok kx) →
      ∃ hybrid, kx = StartedKeyExchange.Hybrid hybrid
      ∧ ∀ w' w2 done,
          SupportedKxGroup.start_and_complete (Hybrid.classical h)
            (HybridKeyExchange.component hybrid).2 w' = (w2, Ok done) →
          SharedSecret.secret_bytes
            <$> HybridKeyExchange.complete_component hybrid (CompletedKeyExchange.pub_key done)
          = Ok (SharedSecret.secret_bytes (CompletedKeyExchange.secret done)).
Proof.
  intros Hcl Hpq [Hcl1 Hcl2] [Hpq1 Hpq2]. split.
  - intros w w' w1 w2 kx done Hs Ha. simpl in Hs, Ha.
    apply hybrid_start_ok in Hs as (w0 & cl & pq & Hc & Hp & ->).
    apply hybrid_answer_ok in Ha as (w0' & dc & dp & Hc' & Hp' & ->); [|by eauto..].
    simpl. unfold ActiveHybrid.complete, HybridLayout.split_received_server_share. simpl.
    rewrite split_concat by eauto. simpl.
    specialize (Hcl _ _ _ _ _ _ Hc Hc'). specialize (Hpq _ _ _ _ _ _ Hp Hp').
    apply fmap_ok_inv in Hcl as (sc & -> & Hsc). apply fmap_ok_inv in Hpq as (sp & -> & Hsp).
    simpl. by rewrite Hsc, Hsp.
  - intros w w1 kx Hs. apply hybrid_start_ok in Hs as (w0 & cl & pq & Hc & Hp & ->).
    eexists. split; [done|]. intros w' w2 done Ha. by eapply Hcl.
Qed.

(** A toy group: a share is the private byte, the secret the xor of the two. *)
Definition toy_exchange (id : NamedGroup.t) (n : nat) : ActiveKeyExchange.t :=
  let key := u8_of_Z (Z.of_nat n) in
  ActiveKeyExchange.mk (λ peer, Ok (SharedSecret.from (u8_xor key <$> peer))) [key] None id.
Definition toy_start (id : NamedGroup.t) : action nat Error.t StartedKeyExchange.t := λ n,
  (S n, Ok (StartedKeyExchange.Single (toy_exchange id n))).
Definition toy_group (id : NamedGroup.t) : SupportedKxGroup.t nat :=
  SupportedKxGroup.mk (toy_start id) (SupportedKxGroup.default_start_and_complete (toy_start id)) None id.

Lemma toy_group_ok id : agrees (toy_group id) ∧ share_lens (toy_group id) 1 1.
Proof.
  split_and!.
  - intros w w' w1 w2 kx d [= <- <-] [= <- <-]. simpl. unfold u8_xor. by rewrite Z.lxor_comm.
  - split.
    + by intros w w1 kx [= <- <-].
    + by intros share w w2 d [= <- <-].
Qed.

Definition toy_hybrid : Hybrid.t nat :=
  Hybrid.mk (toy_group NamedGroup.X25519) (toy_group NamedGroup.MLKEM768) NamedGroup.X25519MLKEM768
    (HybridLayout.mk 1 1 1 true).

Lemma hybrid_agreement_witness : agrees (Hybrid.as_group toy_hybrid).
Proof.
  refine (proj1 (hybrid_agreement toy_hybrid _ _ _ _)); simpl; apply toy_group_ok.
Defined.
