(* ===== verification/Verify.v ===== *)
(** * Identities, signatures and verification ([rustls/src/verify.rs],
    [rustls/src/crypto/signer.rs], [rustls/src/tls13/mod.rs])

    The traits by which a handshake verifies certificates and signatures, as records of
    their methods, and what is signed.  How a certificate chain is verified is the
    verifier's business. *)
From stdpp Require Import gmap.
From S2P Require Import Prelude Enums Errors Codec Records Extensions Payloads ServerHello ClientHello.
From S2P Require Import Sessions.

(** ** Signature schemes *)

(* @src rustls/src/crypto/enums.rs 392-409 SignatureScheme::algorithm *)
Definition scheme_algorithm (self : SignatureScheme.t) : option SignatureAlgorithm.t :=
  if decide (self ∈ [SignatureScheme.RSA_PKCS1_SHA1; SignatureScheme.RSA_PKCS1_SHA256;
                     SignatureScheme.RSA_PKCS1_SHA384; SignatureScheme.RSA_PKCS1_SHA512;
                     SignatureScheme.RSA_PSS_SHA256; SignatureScheme.RSA_PSS_SHA384;
                     SignatureScheme.RSA_PSS_SHA512])
  then Some SignatureAlgorithm.RSA
  else if decide (self ∈ [SignatureScheme.ECDSA_SHA1_Legacy; SignatureScheme.ECDSA_NISTP256_SHA256;
                          SignatureScheme.ECDSA_NISTP384_SHA384; SignatureScheme.ECDSA_NISTP521_SHA512])
  then Some SignatureAlgorithm.ECDSA
  else if decide (self = SignatureScheme.ED25519) then Some SignatureAlgorithm.ED25519
  else if decide (self = SignatureScheme.ED448) then Some SignatureAlgorithm.ED448
  else None.

(** The high byte is a hash algorithm, the low byte a signature algorithm. *)
(* @src rustls/src/crypto/enums.rs 411-447 SignatureScheme::supported_in_tls13 *)
Definition supported_in_tls13 (self : SignatureScheme.t) : bool :=
  let hash := HashAlgorithm.new (u8_of_Z (Z.shiftr (SignatureScheme.val self) 8)) in
  let sign := SignatureAlgorithm.new (u8_of_Z (SignatureScheme.val self)) in
  if decide (hash ∈ [HashAlgorithm.NONE; HashAlgorithm.MD5; HashAlgorithm.SHA1; HashAlgorithm.SHA224])
  then false
  else negb (bool_decide (sign ∈ [SignatureAlgorithm.Anonymous; SignatureAlgorithm.RSA;
                                  SignatureAlgorithm.DSA])).

(** ** Verifiers *)

Module SignerPublicKey.
(* @src rustls/src/verify.rs 265-275 SignerPublicKey *)
Inductive t :=
| X509 (cert : CertificateDer)
| RawPublicKey (spki : SubjectPublicKeyInfoDer).
End SignerPublicKey.

(* @src rustls/src/crypto/signer.rs 288-294 Identity::as_signer *)
Definition as_signer (self : Identity.t) : SignerPublicKey.t :=
  match self with
  | Identity.X509 cert => SignerPublicKey.X509 (CertificateIdentity.end_entity cert)
  | Identity.RawPublicKey spki => SignerPublicKey.RawPublicKey spki
  end.

(** [pki_types::ServerName]; an address is its octets. *)
Module ServerName.
Inductive t :=
| DnsName (name : list u8)
| IpAddress (octets : list u8).
#[global] Instance eq_dec : EqDecision t.
Proof. solve_decision. Defined.
End ServerName.

Module ServerIdentity.
(* @src rustls/src/verify.rs 109-124 ServerIdentity *)
Record t := mk {
  identity : Identity.t;
  server_name : ServerName.t;
  ocsp_response : list u8;
  now : Z;
}.
End ServerIdentity.

Module ClientIdentity.
(* @src rustls/src/verify.rs 241-249 ClientIdentity *)
Record t := mk { identity : Identity.t; now : Z }.
End ClientIdentity.

Module SignatureVerificationInput.
(* @src rustls/src/verify.rs 251-263 SignatureVerificationInput *)
Record t := mk {
  message : list u8;
  signer : SignerPublicKey.t;
  signature : DigitallySignedStruct.t;
}.
End SignatureVerificationInput.

(** A [VerifiedIdentity] is the identity it wraps; [HandshakeSignatureValid] is [unit].
    [hash_config] is left out. *)
Module ServerVerifier.
(* @src rustls/src/verify.rs 26-107 ServerVerifier *)
Record t := mk {
  verify_identity : ServerIdentity.t → result Error.t Identity.t;
  verify_tls12_signature : SignatureVerificationInput.t → result Error.t unit;
  verify_tls13_signature : SignatureVerificationInput.t → result Error.t unit;
  supported_verify_schemes : list SignatureScheme.t;
  request_ocsp_response : bool;
  supported_certificate_types : list CertificateType.t;
  root_hint_subjects : option (list DistinguishedName.t);
}.
End ServerVerifier.

Module ClientVerifier.
(* @src rustls/src/verify.rs 138-239 ClientVerifier *)
Record t := mk {
  verify_identity : ClientIdentity.t → result Error.t Identity.t;
  verify_tls12_signature : SignatureVerificationInput.t → result Error.t unit;
  verify_tls13_signature : SignatureVerificationInput.t → result Error.t unit;
  root_hint_subjects : result Error.t (list DistinguishedName.t);
  client_auth_mandatory : bool;
  offer_client_auth : bool;
  supported_verify_schemes : result Error.t (list SignatureScheme.t);
  supported_certificate_types : list CertificateType.t;
}.

(** Most methods are [unimplemented!()]. *)
(* @src rustls/src/verify.rs 287-320 ClientVerifier_for_NoClientAuth *)
Definition NoClientAuth : t :=
  mk (λ _, Panic) (λ _, Panic) (λ _, Panic) Panic false false Panic [CertificateType.X509].
End ClientVerifier.

(** ** Signers *)

Module Signer.
(* @src rustls/src/crypto/signer.rs 433-445 Signer *)
Record t := mk { sign : list u8 → result Error.t (list u8); scheme : SignatureScheme.t }.
End Signer.

Module SelectedCredential.
(* @src rustls/src/crypto/signer.rs 197-211 SelectedCredential *)
Record t := mk { identity : Identity.t; signer : Signer.t; ocsp : option (list u8) }.
End SelectedCredential.

Module SigningKey.
(* @src rustls/src/crypto/signer.rs 390-431 SigningKey *)
Record t := mk {
  choose_scheme : list SignatureScheme.t → option Signer.t;
  public_key : option SubjectPublicKeyInfoDer;
}.
End SigningKey.

Module Credentials.
(* @src rustls/src/crypto/signer.rs 87-105 Credentials *)
Record t := mk { identity : Identity.t; key : SigningKey.t; ocsp : option (list u8) }.

(* @src rustls/src/crypto/signer.rs 178-187 Credentials::signer *)
Definition signer (self : t) (sig_schemes : list SignatureScheme.t) : option SelectedCredential.t :=
  signer ← SigningKey.choose_scheme (key self) sig_schemes;
  Some (SelectedCredential.mk (identity self) signer (ocsp self)).
End Credentials.

Module CredentialRequest.
(* @src rustls/src/client/config.rs 421-426 CredentialRequest *)
Record t := mk {
  negotiated_type : CertificateType.t;
  root_hint_subjects : list DistinguishedName.t;
  signature_schemes : list SignatureScheme.t;
}.
End CredentialRequest.

Module ClientCredentialResolver.
(* @src rustls/src/client/config.rs 388-419 ClientCredentialResolver *)
Record t := mk {
  resolve : CredentialRequest.t → option SelectedCredential.t;
  supported_certificate_types : list CertificateType.t;
}.
End ClientCredentialResolver.

Module SingleCredential.
(* @src rustls/src/crypto/signer.rs 25-36 SingleCredential *)
Record t := mk { credentials : Credentials.t; types : list CertificateType.t }.

(* @src rustls/src/crypto/signer.rs 38-51 From_for_SingleCredential *)
Definition from (credentials : Credentials.t) : t :=
  match Credentials.identity credentials with
  | Identity.X509 _ => mk credentials [CertificateType.X509]
  | Identity.RawPublicKey _ => mk credentials [CertificateType.RawPublicKey]
  end.

(* @src rustls/src/crypto/signer.rs 53-71 ClientCredentialResolver_for_SingleCredential *)
Definition client_resolver (self : t) : ClientCredentialResolver.t :=
  ClientCredentialResolver.mk
    (λ request,
       let signer := Credentials.signer (credentials self) (CredentialRequest.signature_schemes request) in
       match Credentials.identity (credentials self) with
       | Identity.X509 _ =>
           if decide (CredentialRequest.negotiated_type request = CertificateType.X509) then signer else None
       | Identity.RawPublicKey _ =>
           if decide (CredentialRequest.negotiated_type request = CertificateType.RawPublicKey)
           then signer else None
       end)
    (types self).
End SingleCredential.

(** ** What is signed *)

Definition SERVER_CONSTANT : list u8 := byte_str "TLS 1.3, server CertificateVerify" ++ [x00].
Definition CLIENT_CONSTANT : list u8 := byte_str "TLS 1.3, client CertificateVerify" ++ [x00].

Module VerifyMessage.
(* @src rustls/src/tls13/mod.rs 163-166 VerifyMessage *)
Record t := mk { buf : list u8; used : nat }.

(** [hash::Output::MAX_LEN] is 64. *)
(* @src rustls/src/tls13/mod.rs 190 MAX_VERIFY_MSG *)
Definition MAX_VERIFY_MSG : nat := 64 + 34 + 64.

(* @src rustls/src/tls13/mod.rs 169-179 VerifyMessage::new *)
Definition new {E} (handshake_hash context_string_with_0 : list u8) : result E t :=
  let used := 64 + length context_string_with_0 + length handshake_hash in
  let buf := replicate MAX_VERIFY_MSG x20 in
  buf ← write_at buf 64 context_string_with_0;
  buf ← write_at buf (64 + 34) handshake_hash;
  Ok (mk buf used).

(* @src rustls/src/tls13/mod.rs 182-186 AsRef_for_VerifyMessage *)
Definition as_ref (self : t) : list u8 := take (used self) (buf self).
End VerifyMessage.

(* @src rustls/src/tls13/mod.rs 153-156 construct_client_verify_message *)
Definition construct_client_verify_message {E} (handshake_hash : list u8) : result E VerifyMessage.t :=
  VerifyMessage.new handshake_hash CLIENT_CONSTANT.

(* @src rustls/src/tls13/mod.rs 158-161 construct_server_verify_message *)
Definition construct_server_verify_message {E} (handshake_hash : list u8) : result E VerifyMessage.t :=
  VerifyMessage.new handshake_hash SERVER_CONSTANT.

Lemma write_at_app {A E} (a b c k : list A) n :
  length a = n → length b = length k → write_at (E:=E) (a ++ b ++ c) n k = Ok (a ++ k ++ c).
Proof.
  intros <- Hb. unfold write_at. rewrite !length_app, decide_True by lia. do 2 f_equal.
  - by rewrite take_app_length.
  - f_equal. rewrite drop_app_add', <- Hb by done. by rewrite drop_app_length.
Qed.

(** The message of RFC 8446, section 4.4.3. *)
Lemma verify_message_spec {E} (hash context : list u8) :
  length context = 34 → length hash ≤ 64 →
  ∃ m, VerifyMessage.new (E:=E) hash context = Ok m
    ∧ VerifyMessage.as_ref m = replicate 64 x20 ++ context ++ hash.
Proof.
  intros Hc Hh. unfold VerifyMessage.new, VerifyMessage.MAX_VERIFY_MSG.
  replace (replicate (64 + 34 + 64) x20)
    with (replicate 64 x20 ++ replicate 34 x20
          ++ (replicate (length hash) x20 ++ replicate (64 - length hash) x20))
    by (rewrite <- !replicate_add; f_equal; lia).
  rewrite write_at_app by (by rewrite length_replicate). cbn [mbind result_bind].
  rewrite (assoc_L (++) (replicate 64 x20)).
  rewrite write_at_app by (rewrite ?length_app, ?length_replicate; lia). eexists. split; [done|].
  unfold VerifyMessage.as_ref. cbn [VerifyMessage.buf VerifyMessage.used].
  rewrite !(assoc_L (++)). apply take_app_length'. rewrite !length_app, length_replicate. lia.
Qed.
