(* ===== verification/QuicKeys.v ===== *)
(** * QUIC keys ([rustls/src/quic.rs], [rustls-ring/src/quic.rs])

    The secrets, keys and key updates that a QUIC stack takes from a connection, and the
    packet and header protection of the [ring] provider. *)
From stdpp Require Import gmap.
From S2P Require Import Prelude Enums Errors Codec Records Cipher Messages Hkdf Tls13Cipher KeySchedule.
From S2P Require Import KeyScheduleSpec Receive.

(** ** Versions *)

Module Version.
Import QuicVersion.

(* @src rustls/src/quic.rs 932-945 Version::initial_salt *)
Definition initial_salt (self : QuicVersion.t) : list u8 :=
  match self with
  | V1 => [x38; x76; x2c; xf7; xf5; x59; x34; xb3; x4d; x17; x9a; xe6; xa4; xc8;
           x0c; xad; xcc; xbb; x7f; x0a]
  | V2 => [x0d; xed; xe3; xde; xf7; x00; xa6; xdb; x81; x93; x81; xbe; x6e; x26;
           x9d; xcb; xf9; xbd; x2e; xd9]
  end.

(* @src rustls/src/quic.rs 947-953 Version::packet_key_label *)
Definition packet_key_label (self : QuicVersion.t) : list u8 :=
  match self with V1 => byte_str "quic key" | V2 => byte_str "quicv2 key" end.

(* @src rustls/src/quic.rs 955-961 Version::packet_iv_label *)
Definition packet_iv_label (self : QuicVersion.t) : list u8 :=
  match self with V1 => byte_str "quic iv" | V2 => byte_str "quicv2 iv" end.

(* @src rustls/src/quic.rs 963-969 Version::header_key_label *)
Definition header_key_label (self : QuicVersion.t) : list u8 :=
  match self with V1 => byte_str "quic hp" | V2 => byte_str "quicv2 hp" end.

(* @src rustls/src/quic.rs 971-976 Version::key_update_label *)
Definition key_update_label (self : QuicVersion.t) : list u8 :=
  match self with V1 => byte_str "quic ku" | V2 => byte_str "quicv2 ku" end.
End Version.

(** [quic::Algorithm]: making keys, of the types [PK] and [HK], may panic. *)
(* @src rustls/src/quic.rs 568-590 Algorithm *)
Class QuicAlgorithm (Q PK HK : Type) := {
  alg_packet_key : Q → AeadKey.t → Iv.t → result Error.t PK;
  alg_header_protection_key : Q → AeadKey.t → result Error.t HK;
  aead_key_len : Q → nat;
}.

(** [impl From<[u8; NONCE_LEN]> for Iv]. *)
(* @src rustls/src/crypto/cipher/mod.rs 225-229 From_for_Iv *)
Definition iv_from (bytes : list u8) : result Error.t Iv.t :=
  match Iv.new bytes with Ok iv => Ok iv | _ => Panic end.

(** ** Keys *)

Module QuicSuite.
(* @src rustls/src/quic.rs 793-801 Suite *)
Record t (E D Q : Type) := mk { inner : Tls13CipherSuite.t E D Q; quic : Q }.
Arguments mk {E D Q}.
Arguments inner {E D Q}.
Arguments quic {E D Q}.

(* @src rustls/src/quic.rs 810-821 TryFrom_for_Suite *)
Definition try_from {E D Q} (suite : Tls13CipherSuite.t E D Q) : result ApiMisuse.t (t E D Q) :=
  quic ← ok_or (Tls13CipherSuite.quic suite) ApiMisuse.NoQuicCompatibleCipherSuites;
  Ok (mk suite quic).
End QuicSuite.

Module QuicKeyBuilder.
(* @src rustls/src/quic.rs 742-747 KeyBuilder *)
Record t (Q : Type) := mk { expander : HkdfExpander.t; version : QuicVersion.t; alg : Q }.
Arguments mk {Q}.
Arguments expander {Q}.
Arguments version {Q}.
Arguments alg {Q}.

Section methods.
Context {Q PK HK : Type} `{!QuicAlgorithm Q PK HK}.
Implicit Types (self : t Q).

(* @src rustls/src/quic.rs 750-762 KeyBuilder::new *)
Definition new (secret : OkmBlock.t) (version : QuicVersion.t) (alg : Q) (hkdf : Hkdf.t) : t Q :=
  mk (Hkdf.expander_for_okm hkdf secret) version alg.

(* @src rustls/src/quic.rs 764-778 KeyBuilder::packet_key *)
Definition packet_key self : result Error.t PK :=
  let aead_key_len := aead_key_len (alg self) in
  packet_key ← hkdf_expand_label_aead_key (expander self) aead_key_len
                 (Version.packet_key_label (version self)) [];
  packet_iv ← hkdf_expand_label NONCE_LEN (expander self) (Version.packet_iv_label (version self)) [];
  packet_iv ← iv_from packet_iv;
  alg_packet_key (alg self) packet_key packet_iv.

(* @src rustls/src/quic.rs 780-790 KeyBuilder::header_protection_key *)
Definition header_protection_key self : result Error.t HK :=
  header_key ← hkdf_expand_label_aead_key (expander self) (aead_key_len (alg self))
                 (Version.header_key_label (version self)) [];
  alg_header_protection_key (alg self) header_key.
End methods.
End QuicKeyBuilder.

Module DirectionalKeys.
(* @src rustls/src/quic.rs 529-536 DirectionalKeys *)
Record t (PK HK : Type) := mk { header : HK; packet : PK }.
Arguments mk {PK HK}.
Arguments header {PK HK}.
Arguments packet {PK HK}.

(* @src rustls/src/quic.rs 539-545 DirectionalKeys::new *)
Definition new `{!QuicAlgorithm Q PK HK} {E D} (suite : QuicSuite.t E D Q) (secret : OkmBlock.t)
    (version : QuicVersion.t) : result Error.t (t PK HK) :=
  let builder := QuicKeyBuilder.new secret version (QuicSuite.quic suite)
                   (Tls13CipherSuite.hkdf_provider (QuicSuite.inner suite)) in
  header ← QuicKeyBuilder.header_protection_key builder;
  packet ← QuicKeyBuilder.packet_key builder;
  Ok (mk header packet).
End DirectionalKeys.

Module PacketKeySet.
(* @src rustls/src/quic.rs 717-724 PacketKeySet *)
Record t (PK : Type) := mk { local : PK; remote : PK }.
Arguments mk {PK}.
Arguments local {PK}.
Arguments remote {PK}.
End PacketKeySet.

Module Secrets.
(* @src rustls/src/quic.rs 462-473 Secrets *)
Record t (E D Q : Type) := mk {
  client : OkmBlock.t;
  server : OkmBlock.t;
  suite : QuicSuite.t E D Q;
  side : Side.t;
  version : QuicVersion.t;
}.
Arguments mk {E D Q}.
Arguments client {E D Q}.
Arguments server {E D Q}.
Arguments suite {E D Q}.
Arguments side {E D Q}.
Arguments version {E D Q}.

Section methods.
Context {E D Q PK HK : Type} `{!QuicAlgorithm Q PK HK}.
Implicit Types (self : t E D Q).

(* @src rustls/src/quic.rs 476-484 Secrets::new *)
Definition new (update : SecretUpdate.t E D Q) (version : QuicVersion.t) : t E D Q :=
  mk (SecretUpdate.client update) (SecretUpdate.server update)
     (QuicSuite.mk (SecretUpdate.suite update) (SecretUpdate.quic update))
     (SecretUpdate.side update) version.

(* @src rustls/src/quic.rs 493-512 Secrets::update *)
Definition update self : result Error.t (t E D Q) :=
  let hkdf := Tls13CipherSuite.hkdf_provider (QuicSuite.inner (suite self)) in
  client ← hkdf_expand_label_block (Hkdf.expander_for_okm hkdf (client self))
             (Version.key_update_label (version self)) [];
  server ← hkdf_expand_label_block (Hkdf.expander_for_okm hkdf (server self))
             (Version.key_update_label (version self)) [];
  Ok (mk client server (suite self) (side self) (version self)).

(* @src rustls/src/quic.rs 514-519 Secrets::local_remote *)
Definition local_remote self : OkmBlock.t * OkmBlock.t :=
  match side self with
  | Side.Client => (client self, server self)
  | Side.Server => (server self, client self)
  end.

(* @src rustls/src/quic.rs 727-739 PacketKeySet::new *)
Definition packet_key_set self : result Error.t (PacketKeySet.t PK) :=
  let '(local, remote) := local_remote self in
  let alg := QuicSuite.quic (suite self) in
  let hkdf := Tls13CipherSuite.hkdf_provider (QuicSuite.inner (suite self)) in
  local ← QuicKeyBuilder.packet_key (QuicKeyBuilder.new local (version self) alg hkdf);
  remote ← QuicKeyBuilder.packet_key (QuicKeyBuilder.new remote (version self) alg hkdf);
  Ok (PacketKeySet.mk local remote).

(* @src rustls/src/quic.rs 486-491 Secrets::next_packet_keys *)
Definition next_packet_keys self : result Error.t (t E D Q * PacketKeySet.t PK) :=
  keys ← packet_key_set self;
  self ← update self;
  Ok (self, keys).
End methods.
End Secrets.

Module QuicKeys.
(* @src rustls/src/quic.rs 831-838 Keys *)
Record t (PK HK : Type) := mk { local : DirectionalKeys.t PK HK; remote : DirectionalKeys.t PK HK }.
Arguments mk {PK HK}.
Arguments local {PK HK}.
Arguments remote {PK HK}.

Section methods.
Context {E D Q PK HK : Type} `{!QuicAlgorithm Q PK HK}.

(* @src rustls/src/quic.rs 867-873 Keys::new *)
Definition new (secrets : Secrets.t E D Q) : result Error.t (t PK HK) :=
  let '(local, remote) := Secrets.local_remote secrets in
  local ← DirectionalKeys.new (Secrets.suite secrets) local (Secrets.version secrets);
  remote ← DirectionalKeys.new (Secrets.suite secrets) remote (Secrets.version secrets);
  Ok (mk local remote).

(* @src rustls/src/quic.rs 841-865 Keys::initial *)
Definition initial (version : QuicVersion.t) (suite : QuicSuite.t E D Q)
    (client_dst_connection_id : list u8) (side : Side.t) : result Error.t (t PK HK) :=
  let salt := Version.initial_salt version in
  hs_secret ← Hkdf.extract_from_secret (Tls13CipherSuite.hkdf_provider (QuicSuite.inner suite))
                (Some salt) client_dst_connection_id;
  client ← hkdf_expand_label_block hs_secret (byte_str "client in") [];
  server ← hkdf_expand_label_block hs_secret (byte_str "server in") [];
  new (Secrets.mk client server suite side version).
End methods.
End QuicKeys.

(** ** The transport *)

Module KeyChange.
(* @src rustls/src/quic.rs 876-903 KeyChange *)
Inductive t (E D Q PK HK : Type) :=
| Handshake (keys : QuicKeys.t PK HK)
| OneRtt (keys : QuicKeys.t PK HK) (next : Secrets.t E D Q).
Arguments Handshake {E D Q PK HK}.
Arguments OneRtt {E D Q PK HK}.
End KeyChange.

Module QuicEvent.
(* @src rustls/src/quic.rs 286-296 QuicEvent *)
Inductive t (E D Q PK HK : Type) :=
| Message (bytes : list u8)
| KeyChange (change : KeyChange.t E D Q PK HK).
Arguments Message {E D Q PK HK}.
Arguments KeyChange {E D Q PK HK}.
End QuicEvent.

Module Quic.
(* @src rustls/src/quic.rs 347-355 Quic *)
Record t (E D Q PK HK : Type) := mk {
  version : QuicVersion.t;
  params : option (list u8);
  events : list (QuicEvent.t E D Q PK HK);
  early_secret : option OkmBlock.t;
}.
Arguments mk {E D Q PK HK}.
Arguments version {E D Q PK HK}.
Arguments params {E D Q PK HK}.
Arguments events {E D Q PK HK}.
Arguments early_secret {E D Q PK HK}.

Section methods.
Context {E D Q PK HK : Type} `{!QuicAlgorithm Q PK HK, !PkiTypes}.
Implicit Types (self : t E D Q PK HK).

Definition push (ev : QuicEvent.t E D Q PK HK) self : t E D Q PK HK :=
  mk (version self) (params self) (events self ++ [ev]) (early_secret self).

(* @src rustls/src/quic.rs 358-375 Quic::send_msg *)
Definition send_msg (m : Message.t) (must_encrypt : bool) self : t E D Q PK HK :=
  match Message.payload m with
  | MessagePayload.Alert _ => self
  | payload => push (QuicEvent.Message (MessagePayload.encode payload [])) self
  end.

(* @src rustls/src/quic.rs 377-379 Quic::events *)
Definition take_events self : t E D Q PK HK * list (QuicEvent.t E D Q PK HK) :=
  (mk (version self) (params self) [] (early_secret self), events self).

(* @src rustls/src/quic.rs 419-421 QuicOutput_for_Quic::transport_parameters *)
Definition transport_parameters (params : list u8) self : t E D Q PK HK :=
  mk (version self) (Some params) (events self) (early_secret self).

(* @src rustls/src/quic.rs 423-425 QuicOutput_for_Quic::early_secret *)
Definition set_early_secret (secret : option OkmBlock.t) self : t E D Q PK HK :=
  mk (version self) (params self) (events self) secret.

(* @src rustls/src/quic.rs 427-432 QuicOutput_for_Quic::handshake_secrets *)
Definition handshake_secrets (secrets : SecretUpdate.t E D Q) : action (t E D Q PK HK) Error.t unit :=
  self ← gets id;
  keys ← lift (QuicKeys.new (Secrets.new secrets (version self)));
  modify (push (QuicEvent.KeyChange (KeyChange.Handshake keys))).

(* @src rustls/src/quic.rs 434-443 QuicOutput_for_Quic::traffic_secrets *)
Definition traffic_secrets (secrets : SecretUpdate.t E D Q) : action (t E D Q PK HK) Error.t unit :=
  self ← gets id;
  let secrets := Secrets.new secrets (version self) in
  keys ← lift (QuicKeys.new secrets);
  secrets ← lift (Secrets.update secrets);
  modify (push (QuicEvent.KeyChange (KeyChange.OneRtt keys secrets))).

(** For a negotiated TLS 1.3 suite. *)
(* @src rustls/src/quic.rs 381-399 Quic::zero_rtt_keys *)
Definition zero_rtt_keys self (suite : option (Tls13CipherSuite.t E D Q))
    : result Error.t (option (DirectionalKeys.t PK HK)) :=
  match suite with
  | None => Ok None
  | Some suite =>
      match Tls13CipherSuite.quic suite, early_secret self with
      | Some quic, Some secret =>
          Some <$> DirectionalKeys.new (QuicSuite.mk suite quic) secret (version self)
      | _, _ => Ok None
      end
  end.
End methods.
End Quic.

(** ** The [ring] provider *)

Module RingQuic.
(** [ring::aead::quic::Algorithm]: a mask of five bytes for samples of the right length. *)
Record header_algorithm := mk_header_algorithm {
  header_key_len : nat;
  sample_len : nat;
  new_mask : list u8 → list u8 → option (list u8);
  new_mask_length key sample mask : new_mask key sample = Some mask → length mask = 5;
}.

(* @src rustls-ring/src/quic.rs 9 HeaderProtectionKey *)
Record HeaderProtectionKey := mk_header_key { header_alg : header_algorithm; header_key : list u8 }.

(* @src rustls-ring/src/quic.rs 12-14 HeaderProtectionKey::new *)
Definition new_header_key (key : AeadKey.t) (alg : header_algorithm) : result Error.t HeaderProtectionKey :=
  if decide (length (AeadKey.as_ref key) = header_key_len alg)
  then Ok (mk_header_key alg (AeadKey.as_ref key)) else Panic.

(** [a & b]. *)
Definition u8_and (a b : u8) : u8 := u8_of_Z (Z.land (u8_to_Z a) (u8_to_Z b)).

(** The masked bits of the first byte. *)
Definition masked_bits (first : u8) : u8 :=
  if decide (u8_and first x80 = x80) then x0f else x1f.

(** [packet_number.iter_mut().zip(pn_mask).take(pn_len)]. *)
Fixpoint xor_prefix (packet_number pn_mask : list u8) (pn_len : nat) : list u8 :=
  match packet_number, pn_mask, pn_len with
  | dst :: packet_number, m :: pn_mask, S pn_len => u8_xor dst m :: xor_prefix packet_number pn_mask pn_len
  | _, _, _ => packet_number
  end.

(** The result has the new values of [first] and [packet_number]. *)
(* @src rustls-ring/src/quic.rs 16-68 HeaderProtectionKey::xor_in_place *)
Definition xor_in_place (self : HeaderProtectionKey) (sample : list u8) (first : u8)
    (packet_number : list u8) (masked : bool) : result Error.t (u8 * list u8) :=
  mask ← ok_or (new_mask (header_alg self) (header_key self) sample)
           (Error.ApiMisuse ApiMisuse.InvalidQuicHeaderProtectionSampleLength);
  match mask with
  | [] => Panic
  | first_mask :: pn_mask =>
      if decide (length pn_mask < length packet_number)
      then Err (Error.ApiMisuse ApiMisuse.InvalidQuicHeaderProtectionPacketNumberLength)
      else
        let bits := masked_bits first in
        let first_plain := if masked then u8_xor first (u8_and first_mask bits) else first in
        let pn_len := Z.to_nat (u8_to_Z (u8_and first_plain x03)) + 1 in
        Ok (u8_xor first (u8_and first_mask bits), xor_prefix packet_number pn_mask pn_len)
  end.

(* @src rustls-ring/src/quic.rs 72-79 HeaderProtectionKey::encrypt_in_place *)
Definition header_encrypt_in_place (self : HeaderProtectionKey) (sample : list u8) (first : u8)
    (packet_number : list u8) : result Error.t (u8 * list u8) :=
  xor_in_place self sample first packet_number false.

(* @src rustls-ring/src/quic.rs 81-88 HeaderProtectionKey::decrypt_in_place *)
Definition header_decrypt_in_place (self : HeaderProtectionKey) (sample : list u8) (first : u8)
    (packet_number : list u8) : result Error.t (u8 * list u8) :=
  xor_in_place self sample first packet_number true.

(* @src rustls-ring/src/quic.rs 96-105 PacketKey *)
Record PacketKey := mk_packet_key {
  key : less_safe_key;
  iv : Iv.t;
  confidentiality_limit : Z;
  integrity_limit : Z;
}.

(* @src rustls-ring/src/quic.rs 108-123 PacketKey::new *)
Definition new_packet_key (key : AeadKey.t) (iv : Iv.t) (confidentiality_limit integrity_limit : Z)
    (aead_algorithm : Aead.t) : result Error.t PacketKey :=
  key ← bind_key aead_algorithm (AeadKey.as_ref key);
  Ok (mk_packet_key key iv confidentiality_limit integrity_limit).

(* @src rustls/src/quic.rs 548-549 TAG_LEN *)
Definition TAG_LEN : nat := 16.

(* @src rustls/src/quic.rs 554-560 From_for_Tag *)
Definition tag_from (value : list u8) : result Error.t (list u8) :=
  if decide (length value = TAG_LEN) then Ok value else Panic.

(** [Nonce::quic(path_id, &self.iv, packet_number).to_array()?]. *)
Definition quic_nonce (self : PacketKey) (packet_number : Z) (path_id : option Z)
    : result Error.t (list u8) :=
  nonce_value ← Nonce.quic path_id (iv self) packet_number;
  Nonce.to_array NONCE_LEN nonce_value.

(** With what has become of [payload]. *)
(* @src rustls-ring/src/quic.rs 127-142 PacketKey::encrypt_in_place *)
Definition encrypt_in_place (self : PacketKey) (packet_number : Z) (header : list u8)
    (path_id : option Z) : action (list u8) Error.t (list u8) := λ payload,
  match quic_nonce self packet_number path_id with
  | Ok nonce =>
      match Aead.seal (algorithm (key self)) (key_bytes (key self)) nonce header payload with
      | (payload, Some tag) => (payload, tag_from tag)
      | (payload, None) => (payload, Err Error.EncryptError)
      end
  | Err e => (payload, Err e)
  | Panic => (payload, Panic)
  end.

(* @src rustls-ring/src/quic.rs 144-171 PacketKey::decrypt_in_place *)
Definition decrypt_in_place (self : PacketKey) (packet_number : Z) (header : list u8)
    (path_id : option Z) : action (list u8) Error.t (list u8) := λ payload,
  let payload_len := length payload in
  match quic_nonce self packet_number path_id with
  | Ok nonce =>
      match Aead.open_ (algorithm (key self)) (key_bytes (key self)) nonce header payload with
      | (payload, Some _) =>
          if decide (payload_len < Aead.tag_len (algorithm (key self))) then (payload, Panic)
          else
            let plain_len := payload_len - Aead.tag_len (algorithm (key self)) in
            (payload, Ok (take plain_len payload))
      | (payload, None) => (payload, Err Error.DecryptError)
      end
  | Err e => (payload, Err e)
  | Panic => (payload, Panic)
  end.

(* @src rustls-ring/src/quic.rs 190-195 KeyBuilder *)
Record KeyBuilder := mk_builder {
  packet_alg : Aead.t;
  builder_header_alg : header_algorithm;
  builder_confidentiality_limit : Z;
  builder_integrity_limit : Z;
}.

(* @src rustls-ring/src/quic.rs 197-219 Algorithm_for_KeyBuilder *)
#[global] Instance ring_algorithm : QuicAlgorithm KeyBuilder PacketKey HeaderProtectionKey := {|
  alg_packet_key self key iv :=
    new_packet_key key iv (builder_confidentiality_limit self) (builder_integrity_limit self)
      (packet_alg self);
  alg_header_protection_key self key := new_header_key key (builder_header_alg self);
  aead_key_len self := Aead.key_len (packet_alg self);
|}.
End RingQuic.

(** ** Header protection *)

Definition all_bytes : list u8 := u8_of_Z <$> seqZ 0 256.

Lemma all_bytes_spec b : b ∈ all_bytes.
Proof.
  apply list_elem_of_fmap. exists (u8_to_Z b). rewrite u8_of_to_Z. split; [done|].
  apply elem_of_seqZ. pose proof (u8_to_Z_range b). lia.
Qed.

(** The form of a header is not masked. *)
Lemma form_kept first m :
  RingQuic.masked_bits (u8_xor first (RingQuic.u8_and m (RingQuic.masked_bits first)))
  = RingQuic.masked_bits first.
Proof.
  assert (Forall (λ a, Forall (λ b, RingQuic.masked_bits
            (u8_xor a (RingQuic.u8_and b (RingQuic.masked_bits a))) = RingQuic.masked_bits a)
            all_bytes) all_bytes) as H.
  { apply (bool_decide_unpack _). vm_compute. exact I. }
  rewrite Forall_forall in H. specialize (H first (all_bytes_spec first)).
  rewrite Forall_forall in H. apply (H m (all_bytes_spec m)).
Qed.

Lemma xor_prefix_involutive pn mask n :
  RingQuic.xor_prefix (RingQuic.xor_prefix pn mask n) mask n = pn.
Proof.
  revert mask n. induction pn as [|x pn IH]; intros [|m mask] [|n]; try done.
  simpl. by rewrite u8_xor_cancel, IH.
Qed.

Lemma xor_prefix_length pn mask n : length (RingQuic.xor_prefix pn mask n) = length pn.
Proof.
  revert mask n. induction pn as [|x pn IH]; intros [|m mask] [|n]; try done. simpl. by rewrite IH.
Qed.

(** Removing the protection of a header gives the header that was protected. *)
Lemma header_roundtrip key sample first pn first' pn' :
  RingQuic.header_encrypt_in_place key sample first pn = Ok (first', pn') →
  RingQuic.header_decrypt_in_place key sample first' pn' = Ok (first, pn).
Proof.
  unfold RingQuic.header_encrypt_in_place, RingQuic.header_decrypt_in_place, RingQuic.xor_in_place.
  destruct (RingQuic.new_mask _ _ sample) as [[|m mask]|]; simpl; [done| |done].
  case_decide as Hl; [done|]. intros [= <- <-].
  rewrite xor_prefix_length, decide_False by done.
  by rewrite form_kept, u8_xor_cancel, xor_prefix_involutive.
Qed.

(** ** Packet protection *)

Lemma packet_roundtrip key pn header path payload ct tag :
  RingQuic.encrypt_in_place key pn header path payload = (ct, Ok tag) →
  (RingQuic.decrypt_in_place key pn header path (ct ++ tag)).2 = Ok payload.
Proof.
  unfold RingQuic.encrypt_in_place, RingQuic.decrypt_in_place.
  destruct (RingQuic.quic_nonce key pn path) as [nonce| |]; [|done..].
  destruct (Aead.seal _ _ _ _ _) as [c [t|]] eqn:Hs; [|done].
  unfold RingQuic.tag_from. case_decide as Ht; [|done]. intros [= <- <-].
  pose proof (Aead.seal_tag _ _ _ _ _ _ _ Hs) as Hl.
  destruct (Aead.open_seal _ _ _ _ _ _ _ Hs) as [rest ->].
  pose proof (Aead.seal_length (algorithm (RingQuic.key key)) (key_bytes (RingQuic.key key)) nonce
    header payload) as Hc. rewrite Hs in Hc. simpl in Hc.
  rewrite length_app, decide_False by lia. simpl. f_equal.
  rewrite Hl, Nat.add_sub, Hc. apply take_app_length.
Qed.

(** ** The two sides of a connection *)

(** The same secrets, held by the peer. *)
Definition peer {E D Q} (s : Secrets.t E D Q) : Secrets.t E D Q :=
  Secrets.mk (Secrets.client s) (Secrets.server s) (Secrets.suite s)
    (match Secrets.side s with Side.Client => Side.Server | Side.Server => Side.Client end)
    (Secrets.version s).

(** The keys after [n] key updates, taken one after the other. *)
Fixpoint nth_packet_keys `{!QuicAlgorithm Q PK HK} {E D} (n : nat) (s : Secrets.t E D Q)
    : result Error.t (PacketKeySet.t PK) :=
  '(s, keys) ← Secrets.next_packet_keys s;
  match n with O => Ok keys | S n => nth_packet_keys n s end.

(** What is protected with [k] is read with [k']. *)
Definition packets_read (k k' : RingQuic.PacketKey) : Prop :=
  ∀ pn header path payload ct tag,
    RingQuic.encrypt_in_place k pn header path payload = (ct, Ok tag) →
    (RingQuic.decrypt_in_place k' pn header path (ct ++ tag)).2 = Ok payload.
Definition headers_read (k k' : RingQuic.HeaderProtectionKey) : Prop :=
  ∀ sample first pn first' pn',
    RingQuic.header_encrypt_in_place k sample first pn = Ok (first', pn') →
    RingQuic.header_decrypt_in_place k' sample first' pn' = Ok (first, pn).
Definition directions_read (k k' : DirectionalKeys.t RingQuic.PacketKey RingQuic.HeaderProtectionKey)
    : Prop :=
  packets_read (DirectionalKeys.packet k) (DirectionalKeys.packet k')
  ∧ headers_read (DirectionalKeys.header k) (DirectionalKeys.header k').

Section ring.
Context {E D : Type}.
Implicit Types (s : Secrets.t E D RingQuic.KeyBuilder) (b : QuicKeyBuilder.t RingQuic.KeyBuilder).

(** The keys of the header algorithm are as long as those of the packet algorithm. *)
Definition lens_match (alg : RingQuic.KeyBuilder) : Prop :=
  RingQuic.header_key_len (RingQuic.builder_header_alg alg) = Aead.key_len (RingQuic.packet_alg alg).

Lemma ring_packet_key_ok b : ∃ k, QuicKeyBuilder.packet_key b = Ok k.
Proof.
  unfold QuicKeyBuilder.packet_key.
  pose proof (Aead.key_len_max (RingQuic.packet_alg (QuicKeyBuilder.alg b))) as Hmax.
  destruct (aead_key_ok (QuicKeyBuilder.expander b) (aead_key_len (QuicKeyBuilder.alg b))
    (Version.packet_key_label (QuicKeyBuilder.version b)) []) as (key & -> & Hkey); [done|]. step_ok.
  unfold hkdf_expand_label, hkdf_expand_label_inner, expand.
  pose proof (HkdfExpander.hash_len_pos (QuicKeyBuilder.expander b)) as Hp.
  destruct (HkdfExpander.expand_slice_ok (QuicKeyBuilder.expander b) (label_info
    (Version.packet_iv_label (QuicKeyBuilder.version b)) [] NONCE_LEN) NONCE_LEN)
    as (okm & -> & Hl); [unfold NONCE_LEN; lia|]. step_ok.
  destruct (iv_new_ok okm) as (iv & Hiv & _); [rewrite Hl; unfold NONCE_LEN, Iv.MAX_LEN; lia|].
  unfold iv_from. rewrite Hiv. step_ok. simpl. unfold RingQuic.new_packet_key, bind_key.
  rewrite decide_True by done. by eexists.
Qed.

Lemma ring_header_key_ok b :
  lens_match (QuicKeyBuilder.alg b) → ∃ k, QuicKeyBuilder.header_protection_key b = Ok k.
Proof.
  intros Hm. unfold QuicKeyBuilder.header_protection_key.
  pose proof (Aead.key_len_max (RingQuic.packet_alg (QuicKeyBuilder.alg b))) as Hmax.
  destruct (aead_key_ok (QuicKeyBuilder.expander b) (aead_key_len (QuicKeyBuilder.alg b))
    (Version.header_key_label (QuicKeyBuilder.version b)) []) as (key & -> & Hkey); [done|]. step_ok.
  simpl. unfold RingQuic.new_header_key. rewrite decide_True by (by rewrite Hkey, Hm). by eexists.
Qed.

Lemma directional_ok (suite : QuicSuite.t E D RingQuic.KeyBuilder) secret version :
  lens_match (QuicSuite.quic suite) → ∃ k, DirectionalKeys.new suite secret version = Ok k.
Proof.
  intros Hm. unfold DirectionalKeys.new.
  match goal with |- context [QuicKeyBuilder.header_protection_key ?b] =>
    destruct (ring_header_key_ok b Hm) as [hk ->]; destruct (ring_packet_key_ok b) as [pk ->] end.
  step_ok. by eexists.
Qed.

Lemma update_peer s :
  ∃ s', Secrets.update s = Ok s' ∧ Secrets.update (peer s) = Ok (peer s').
Proof.
  unfold Secrets.update. simpl.
  match goal with |- context [hkdf_expand_label_block ?x ?l []] =>
    destruct (block_ok x l []) as (c & -> & _) end. step_ok.
  match goal with |- context [hkdf_expand_label_block ?x ?l []] =>
    destruct (block_ok x l []) as (c' & -> & _) end. step_ok. by eexists.
Qed.

Lemma packet_keys_peer s :
  ∃ p, Secrets.packet_key_set s = Ok p
    ∧ Secrets.packet_key_set (peer s) = Ok (PacketKeySet.mk (PacketKeySet.remote p) (PacketKeySet.local p)).
Proof.
  unfold Secrets.packet_key_set, Secrets.local_remote. simpl.
  pose proof (λ secret, ring_packet_key_ok (QuicKeyBuilder.new secret (Secrets.version s)
    (QuicSuite.quic (Secrets.suite s))
    (Tls13CipherSuite.hkdf_provider (QuicSuite.inner (Secrets.suite s))))) as H.
  destruct (H (Secrets.client s)) as [kc Hc], (H (Secrets.server s)) as [ks Hs].
  destruct (Secrets.side s); rewrite Hc, Hs; step_ok; by eexists.
Qed.

Lemma nth_packet_keys_peer s n :
  ∃ p, nth_packet_keys n s = Ok p
    ∧ nth_packet_keys n (peer s) = Ok (PacketKeySet.mk (PacketKeySet.remote p) (PacketKeySet.local p)).
Proof.
  revert s. induction n as [|n IH]; intros s; cbn [nth_packet_keys]; unfold Secrets.next_packet_keys;
    destruct (packet_keys_peer s) as (p & -> & ->); step_ok;
    destruct (update_peer s) as (s' & -> & ->); step_ok; [by eexists|apply IH].
Qed.

Lemma keys_peer s :
  lens_match (QuicSuite.quic (Secrets.suite s)) →
  ∃ k, QuicKeys.new s = Ok k
    ∧ QuicKeys.new (peer s) = Ok (QuicKeys.mk (QuicKeys.remote k) (QuicKeys.local k)).
Proof.
  intros Hm. unfold QuicKeys.new, Secrets.local_remote. simpl.
  pose proof (λ secret, directional_ok (Secrets.suite s) secret (Secrets.version s) Hm) as H.
  destruct (H (Secrets.client s)) as [kc Hc], (H (Secrets.server s)) as [ks Hs].
  destruct (Secrets.side s); rewrite Hc, Hs; step_ok; by eexists.
Qed.

Lemma same_read k : packets_read k k.
Proof. intros ??????. apply packet_roundtrip. Qed.
Lemma same_directions_read k : directions_read k k.
Proof. split; [apply same_read|intros ?????; apply header_roundtrip]. Qed.

(** C27. the two ends of a QUIC connection that hold the same secrets read each other.
    All keys can be derived; what either end protects with its local keys, the header and
    the payload of a packet, the other end recovers with its remote keys; and so it is
    after any number of key updates. *)
Theorem quic_sides_agree s (Hm : lens_match (QuicSuite.quic (Secrets.suite s))) :
  (∃ k k', QuicKeys.new s = Ok k ∧ QuicKeys.new (peer s) = Ok k'
     ∧ directions_read (QuicKeys.local k) (QuicKeys.remote k')
     ∧ directions_read (QuicKeys.local k') (QuicKeys.remote k))
  ∧ ∀ n, ∃ p p', nth_packet_keys n s = Ok p ∧ nth_packet_keys n (peer s) = Ok p'
       ∧ packets_read (PacketKeySet.local p) (PacketKeySet.remote p')
       ∧ packets_read (PacketKeySet.local p') (PacketKeySet.remote p).
Proof.
  split.
  - destruct (keys_peer s Hm) as (k & H & H'). eexists _, _.
    split_and!; [done..| |]; apply same_directions_read.
  - intros n. destruct (nth_packet_keys_peer s n) as (p & H & H'). eexists _, _.
    split_and!; [done..| |]; apply same_read.
Qed.
End ring.

(** A toy AEAD that does not encrypt. *)
Program Definition toy_quic_aead : Aead.t :=
  Aead.mk 16 16 _ _ (λ key _ _ p, (p, Some (replicate 16 x2a)))
    (λ key _ _ c, (c, if decide (16 ≤ length c) then Some (length c - 16) else None)) _ _ _ _ _.
Next Obligation. lia. Qed.
Next Obligation. done. Qed.
Next Obligation. done. Qed.
Next Obligation. intros key nonce aad p c t H. by injection H as <- <-. Qed.
Next Obligation. done. Qed.
Next Obligation.
  intros key nonce aad c p n H. injection H as <- H. case_decide; [|done]. injection H as <-. lia.
Qed.
Next Obligation.
  intros key nonce aad p c t H. injection H as <- <-. eexists. rewrite length_app. cbn [length].
  rewrite decide_True by lia. by rewrite Nat.add_sub.
Qed.

Program Definition toy_header : RingQuic.header_algorithm :=
  RingQuic.mk_header_algorithm 16 16 (λ _ _, Some (replicate 5 x5c)) _.
Next Obligation. by intros key sample mask [= <-]. Qed.

Definition toy_quic_suite : QuicSuite.t (AeadKey.t * Iv.t) (AeadKey.t * Iv.t) RingQuic.KeyBuilder :=
  QuicSuite.mk (Tls13CipherSuite.mk
    (CipherSuiteCommon.mk CipherSuite.TLS13_AES_128_GCM_SHA256 Toy.hash (2 ^ 24))
    (HkdfUsingHmac.hkdf Toy.hmac) Toy.aead None)
    (RingQuic.mk_builder toy_quic_aead toy_header (2 ^ 23) (2 ^ 52)).

Definition toy_quic_secrets : Secrets.t (AeadKey.t * Iv.t) (AeadKey.t * Iv.t) RingQuic.KeyBuilder :=
  Secrets.mk (OkmBlock.mk [x01; x02; x03; x04] 4) (OkmBlock.mk [x05; x06; x07; x08] 4) toy_quic_suite
    Side.Client QuicVersion.V1.

Lemma quic_sides_agree_witness :
  ∃ p p', nth_packet_keys 3 toy_quic_secrets = Ok p ∧ nth_packet_keys 3 (peer toy_quic_secrets) = Ok p'
    ∧ packets_read (PacketKeySet.local p) (PacketKeySet.remote p')
    ∧ packets_read (PacketKeySet.local p') (PacketKeySet.remote p).
Proof. exact (proj2 (quic_sides_agree toy_quic_secrets eq_refl) 3). Defined.
