(* ===== verification/Transcript.v ===== *)
(** * Handshake transcripts ([rustls/src/hash_hs.rs])

    The hash of the handshake messages so far, buffered until the hash function is
    known, and restarted by a HelloRetryRequest.  A hash context is the bytes it has
    been given: [update] appends and [finish] hashes them. *)
From stdpp Require Import gmap.
From S2P Require Import Prelude Enums Errors Codec Records Extensions Payloads ServerHello ClientHello.
From S2P Require Import Messages KeySchedule.

(** The bytes that a message contributes. *)
Definition transcript_bytes (m : Message.t) : list u8 :=
  match Message.payload m with
  | MessagePayload.Handshake _ encoded => encoded
  | MessagePayload.HandshakeFlight payload => payload
  | _ => []
  end.

Module HandshakeHash.
(* @src rustls/src/hash_hs.rs 74-87 HandshakeHash *)
Record t := mk { provider : Hash.t; ctx : list u8; client_auth : option (list u8) }.

(* @src rustls/src/hash_hs.rs 90-94 HandshakeHash::abandon_client_auth *)
Definition abandon_client_auth (self : t) : t := mk (provider self) (ctx self) None.

(* @src rustls/src/hash_hs.rs 110-119 HandshakeHash::add_raw *)
Definition add_raw (buf : list u8) (self : t) : t :=
  mk (provider self) (ctx self ++ buf) ((λ buffer, buffer ++ buf) <$> client_auth self).

(* @src rustls/src/hash_hs.rs 105-108 HandshakeHash::add *)
Definition add (bytes : list u8) (self : t) : t := add_raw bytes self.

(* @src rustls/src/hash_hs.rs 96-103 HandshakeHash::add_message *)
Definition add_message (m : Message.t) (self : t) : t :=
  match Message.payload m with
  | MessagePayload.Handshake _ encoded => add_raw encoded self
  | MessagePayload.HandshakeFlight payload => add_raw payload self
  | _ => self
  end.

(* @src rustls/src/hash_hs.rs 121-126 HandshakeHash::hash_given *)
Definition hash_given (self : t) (extra : list u8) : list u8 :=
  Hash.hash (provider self) (ctx self ++ extra).

(* @src rustls/src/hash_hs.rs 153-156 HandshakeHash::current_hash *)
Definition current_hash (self : t) : list u8 := Hash.hash (provider self) (ctx self).

(* @src rustls/src/hash_hs.rs 158-163 HandshakeHash::take_handshake_buf *)
Definition take_handshake_buf (self : t) : t * option (list u8) :=
  (mk (provider self) (ctx self) None, client_auth self).

(* @src rustls/src/hash_hs.rs 165-168 HandshakeHash::algorithm *)
Definition algorithm (self : t) : HashAlgorithm.t := Hash.algorithm (provider self).

(* @src rustls/src/hash_hs.rs 139-151 HandshakeHash::rollup_for_hrr *)
Definition rollup_for_hrr `{!PkiTypes} (self : t) : t :=
  let old_hash := Hash.hash (provider self) (ctx self) in
  let old_handshake_hash_msg := HandshakeMessagePayload.build_handshake_hash old_hash in
  add_raw (get_encoding old_handshake_hash_msg) (mk (provider self) [] (client_auth self)).
End HandshakeHash.

Module HandshakeHashBuffer.
(* @src rustls/src/hash_hs.rs 8-17 HandshakeHashBuffer *)
Record t := mk { buffer : list u8; client_auth_enabled : bool }.

(* @src rustls/src/hash_hs.rs 20-25 HandshakeHashBuffer::new *)
Definition new : t := mk [] false.

(* @src rustls/src/hash_hs.rs 27-31 HandshakeHashBuffer::set_client_auth_enabled *)
Definition set_client_auth_enabled (self : t) : t := mk (buffer self) true.

(* @src rustls/src/hash_hs.rs 42-45 HandshakeHashBuffer::add_raw *)
Definition add_raw (buf : list u8) (self : t) : t := mk (buffer self ++ buf) (client_auth_enabled self).

(* @src rustls/src/hash_hs.rs 33-40 HandshakeHashBuffer::add_message *)
Definition add_message (m : Message.t) (self : t) : t :=
  match Message.payload m with
  | MessagePayload.Handshake _ encoded => add_raw encoded self
  | MessagePayload.HandshakeFlight payload => add_raw payload self
  | _ => self
  end.

(* @src rustls/src/hash_hs.rs 47-57 HandshakeHashBuffer::hash_given *)
Definition hash_given (self : t) (provider : Hash.t) (extra : list u8) : list u8 :=
  Hash.hash provider (buffer self ++ extra).

(* @src rustls/src/hash_hs.rs 59-71 HandshakeHashBuffer::start_hash *)
Definition start_hash (self : t) (provider : Hash.t) : HandshakeHash.t :=
  HandshakeHash.mk provider (buffer self)
    (if client_auth_enabled self then Some (buffer self) else None).

(** [HandshakeHash::into_hrr_buffer]. *)
(* @src rustls/src/hash_hs.rs 128-137 HandshakeHash::into_hrr_buffer *)
Definition from_hash `{!PkiTypes} (self : HandshakeHash.t) : t :=
  let old_hash := Hash.hash (HandshakeHash.provider self) (HandshakeHash.ctx self) in
  let old_handshake_hash_msg := HandshakeMessagePayload.build_handshake_hash old_hash in
  mk (get_encoding old_handshake_hash_msg) (bool_decide (is_Some (HandshakeHash.client_auth self))).
End HandshakeHashBuffer.

(** ** What the transcript is *)

Lemma add_message_raw m self :
  HandshakeHash.add_message m self = HandshakeHash.add_raw (transcript_bytes m) self
  ∨ (HandshakeHash.add_message m self = self ∧ transcript_bytes m = []).
Proof.
  unfold HandshakeHash.add_message, transcript_bytes. destruct (Message.payload m); by auto.
Qed.

Lemma add_message_ctx m self :
  HandshakeHash.ctx (HandshakeHash.add_message m self) = HandshakeHash.ctx self ++ transcript_bytes m.
Proof.
  destruct (add_message_raw m self) as [->|[-> ->]]; [done|]. by rewrite app_nil_r.
Qed.

Lemma add_message_provider m self :
  HandshakeHash.provider (HandshakeHash.add_message m self) = HandshakeHash.provider self.
Proof. unfold HandshakeHash.add_message. by destruct (Message.payload m). Qed.

Lemma buffer_add_message m self :
  HandshakeHashBuffer.buffer (HandshakeHashBuffer.add_message m self)
  = HandshakeHashBuffer.buffer self ++ transcript_bytes m.
Proof.
  unfold HandshakeHashBuffer.add_message, transcript_bytes.
  destruct (Message.payload m); try done; symmetry; apply app_nil_r.
Qed.

Lemma current_hash_add m self :
  HandshakeHash.current_hash (HandshakeHash.add_message m self)
  = HandshakeHash.hash_given self (transcript_bytes m).
Proof.
  unfold HandshakeHash.current_hash, HandshakeHash.hash_given.
  by rewrite add_message_ctx, add_message_provider.
Qed.
