(* ===== verification/Outputs.v ===== *)
(** * What a handshake acts on ([rustls/src/common_state.rs],
    [rustls/src/{conn/mod,conn/receive,client/connection,server/connection,suites}.rs])

    The events of the handshake state machines, the facts they leave behind, the flights
    they send, and the trait [Output] that ties these to the two halves of a connection. *)
From stdpp Require Import gmap.
From S2P Require Import Prelude Enums Errors Codec Records Fragmenter Extensions Payloads ServerHello.
From S2P Require Import ClientHello Messages Cipher Send Receive Connection Hkdf KeySchedule Sessions.
From S2P Require Import Kx QuicKeys Transcript.

(** The crypto provider and the outside world.  [enc] and [dec] are the record ciphers,
    [quic_alg] the QUIC algorithms with their keys, [prf12] and [aead12] belong to TLS 1.2
    suites, [hpke_sealer] are the sealing contexts of HPKE, and [world] is the state of all that lies outside the connection: the random
    number generator, the clock, the session stores. *)
Class Provider := {
  enc : Type;
  dec : Type;
  quic_alg : Type;
  packet_keys : Type;
  header_keys : Type;
  prf12 : Type;
  aead12 : Type;
  hpke_sealer : Type;
  world : Type;
  provider_encrypter :: RecordEncrypter enc;
  provider_decrypter :: RecordDecrypter dec;
  provider_quic :: QuicAlgorithm quic_alg packet_keys header_keys;
  provider_names :: PkiTypes;
}.

(** ** Random material *)

(** [fill(&mut buf)] for a buffer of the given length. *)
(* @src rustls/src/crypto/mod.rs 506-524 SecureRandom *)
Class SecureRandom `{Provider} := random_fill : nat → world → world * option (list u8).

Section random.
Context `{SecureRandom}.

(* @src rustls/src/crypto/mod.rs 481-488 random_array *)
Definition random_array (N : nat) : action world Error.t (list u8) := λ w,
  match random_fill N w with
  | (w, v) => (w, ok_or v Error.FailedToGetRandomBytes)
  end.

(* @src rustls/src/crypto/mod.rs 490-493 random_u32 *)
Definition random_u32 : action world Error.t Z := v ← random_array 4; mret (be_val v).

(* @src rustls/src/crypto/mod.rs 495-498 random_u16 *)
Definition random_u16 : action world Error.t Z := v ← random_array 2; mret (be_val v).

(* @src rustls/src/msgs/handshake.rs 58-62 Random::new *)
Definition random_new : action world Error.t Random.t := v ← random_array 32; mret (Random.new v).

(* @src rustls/src/msgs/handshake.rs 79-83 SessionId::random *)
Definition session_id_random : action world Error.t SessionId.t :=
  data ← random_array 32; mret (SessionId.mk data 32).
End random.

(** ** Suites *)

Module SupportedCipherSuite.
Section methods.
Context `{Provider}.

(* @src rustls/src/suites.rs 61-72 SupportedCipherSuite *)
Inductive t :=
| Tls12 (suite : Tls12CipherSuite.t prf12 aead12)
| Tls13 (suite : Tls13CipherSuite.t enc dec quic_alg).
Implicit Types (self : t).

(* @src rustls/src/suites.rs 85-90 SupportedCipherSuite::common *)
Definition common self : CipherSuiteCommon.t :=
  match self with
  | Tls12 inner => Tls12CipherSuite.common inner
  | Tls13 inner => Tls13CipherSuite.common inner
  end.

(* @src rustls/src/suites.rs 75-78 SupportedCipherSuite::suite *)
Definition suite self : CipherSuite.t := CipherSuiteCommon.suite (common self).

(* @src rustls/src/suites.rs 80-83 SupportedCipherSuite::hash_provider *)
Definition hash_provider self : Hash.t := CipherSuiteCommon.hash_provider (common self).

(* @src rustls/src/suites.rs 92-98 SupportedCipherSuite::usable_for_protocol *)
Definition usable_for_protocol self (proto : Protocol.t) : bool :=
  match self, proto with
  | Tls12 _, Protocol.Tcp => true
  | Tls12 _, Protocol.Quic _ => false
  | Tls13 _, Protocol.Tcp => true
  | Tls13 suite, Protocol.Quic _ => bool_decide (is_Some (Tls13CipherSuite.quic suite))
  end.
End methods.
End SupportedCipherSuite.

(** ** Events *)

Module HandshakeKind.
(* @src rustls/src/common_state.rs 258-288 HandshakeKind *)
Inductive t := Full | FullWithHelloRetryRequest | Resumed | ResumedWithHelloRetryRequest.
#[global] Instance eq_dec : EqDecision t.
Proof. solve_decision. Defined.
End HandshakeKind.

Module EchStatus.
(* @src rustls/src/client/ech.rs 293-308 EchStatus *)
Inductive t := NotOffered | Grease | Offered | Accepted | Rejected.
#[global] Instance eq_dec : EqDecision t.
Proof. solve_decision. Defined.
End EchStatus.

Module EarlyDataEvent.
(* @src rustls/src/common_state.rs 335-346 EarlyDataEvent *)
Inductive t := Enable (sz : nat) | Start | Finished | Accepted | Rejected.
End EarlyDataEvent.

Module Event.
(* @src rustls/src/common_state.rs 315-321 Event *)
Inductive t :=
| EarlyData (event : EarlyDataEvent.t)
| EchStatus (status : EchStatus.t)
| ReceivedServerName (name : option (list u8))
| ResumptionData (data : list u8).
End Event.

(** [Box<dyn Exporter>] is its method [derive]: label, context, length. *)
Definition Exporter : Type := list u8 → option (list u8) → nat → result Error.t (list u8).

Module OutputEvent.
Section event.
Context `{Provider}.

(* @src rustls/src/common_state.rs 323-333 OutputEvent *)
Inductive t :=
| ApplicationProtocol (protocol : ApplicationProtocol.t)
| CipherSuite (suite : SupportedCipherSuite.t)
| EarlyExporter (exporter : Outputs.Exporter)
| Exporter (exporter : Outputs.Exporter)
| ExtendedMainSecret (ems : bool)
| HandshakeKind (kind : HandshakeKind.t)
| KeyExchangeGroup (group : SupportedKxGroup.t world)
| PeerIdentity (identity : Identity.t)
| ProtocolVersion (version : ProtocolVersion.t).
End event.
End OutputEvent.

Module ConnectionOutputs.
Section methods.
Context `{Provider}.

(* @src rustls/src/common_state.rs 81-93 ConnectionOutputs *)
Record t := mk {
  negotiated_version : option ProtocolVersion.t;
  handshake_kind : option HandshakeKind.t;
  suite : option SupportedCipherSuite.t;
  negotiated_kx_group : option (SupportedKxGroup.t world);
  alpn_protocol : option ApplicationProtocol.t;
  peer_identity : option Identity.t;
  extended_main_secret : option bool;
  exporter : option Exporter;
  early_exporter : option Exporter;
}.
Implicit Types (self : t).

Definition default : t := mk None None None None None None None None None.

(** The panics are [assert!]s. *)
(* @src rustls/src/common_state.rs 196-218 ConnectionOutputs::handle *)
Definition handle (ev : OutputEvent.t) : action t Error.t unit := λ self,
  let 'mk version kind suite group alpn identity ems exporter early := self in
  match ev with
  | OutputEvent.ApplicationProtocol protocol =>
      (mk version kind suite group (Some protocol) identity ems exporter early, Ok tt)
  | OutputEvent.CipherSuite suite =>
      (mk version kind (Some suite) group alpn identity ems exporter early, Ok tt)
  | OutputEvent.EarlyExporter early =>
      (mk version kind suite group alpn identity ems exporter (Some early), Ok tt)
  | OutputEvent.Exporter exporter =>
      (mk version kind suite group alpn identity ems (Some exporter) early, Ok tt)
  | OutputEvent.ExtendedMainSecret ems =>
      (mk version kind suite group alpn identity (Some ems) exporter early, Ok tt)
  | OutputEvent.HandshakeKind hk =>
      match kind with
      | None => (mk version (Some hk) suite group alpn identity ems exporter early, Ok tt)
      | Some _ => (self, Panic)
      end
  | OutputEvent.KeyExchangeGroup kxg =>
      match group with
      | None => (mk version kind suite (Some kxg) alpn identity ems exporter early, Ok tt)
      | Some _ => (self, Panic)
      end
  | OutputEvent.PeerIdentity identity =>
      (mk version kind suite group alpn (Some identity) ems exporter early, Ok tt)
  | OutputEvent.ProtocolVersion ver =>
      (mk (Some ver) kind suite group alpn identity ems exporter early, Ok tt)
  end.

(* @src rustls/src/common_state.rs 165-171 ConnectionOutputs::early_exporter *)
Definition take_early_exporter : action t Error.t Exporter := λ self,
  let 'mk version kind suite group alpn identity ems exporter early := self in
  (mk version kind suite group alpn identity ems exporter None,
   ok_or early (Error.ApiMisuse ApiMisuse.ExporterNotAvailable)).

(* @src rustls/src/common_state.rs 173-179 ConnectionOutputs::exporter *)
Definition take_exporter : action t Error.t Exporter := λ self,
  let 'mk version kind suite group alpn identity ems exporter early := self in
  (mk version kind suite group alpn identity ems None early,
   ok_or exporter (Error.ApiMisuse ApiMisuse.ExporterNotAvailable)).

(* @src rustls/src/common_state.rs 181-192 ConnectionOutputs::into_kernel_parts *)
Definition into_kernel_parts self : option (ProtocolVersion.t * SupportedCipherSuite.t) :=
  match negotiated_version self, suite self with
  | Some version, Some suite => Some (version, suite)
  | _, _ => None
  end.
End methods.
End ConnectionOutputs.

(** ** Sides *)

(** [SideOutput]: [emit] may panic. *)
(* @src rustls/src/conn/mod.rs 764-766 SideOutput *)
Class SideOutput (S : Type) := emit_side : Event.t → action S Error.t unit.

Module EarlyDataState.
(* @src rustls/src/client/connection.rs 420-426 EarlyDataState *)
Inductive t := Ready | Sending | Accepted | AcceptedFinished.
#[global] Instance eq_dec : EqDecision t.
Proof. solve_decision. Defined.
End EarlyDataState.

Module EarlyData.
(* @src rustls/src/client/connection.rs 405-409 EarlyData *)
Record t := mk { state : EarlyDataState.t; left : nat }.

(* @src rustls/src/client/connection.rs 412-417 EarlyData::new *)
Definition new (left : nat) : t := mk EarlyDataState.Ready left.
End EarlyData.

Module ClientSide.
(* @src rustls/src/client/connection.rs 335-340 ClientSide *)
Record t := mk { early_data : option EarlyData.t; ech_status : EchStatus.t }.

Definition default : t := mk None EchStatus.NotOffered.

(* @src rustls/src/client/connection.rs 343-356 ClientSide::is_early_data_accepted *)
Definition is_early_data_accepted (self : t) : bool :=
  match early_data self with
  | Some (EarlyData.mk EarlyDataState.Accepted _)
  | Some (EarlyData.mk EarlyDataState.AcceptedFinished _) => true
  | _ => false
  end.

(** Panics are [assert_eq!], [panic!] and [unreachable!]. *)
(* @src rustls/src/client/connection.rs 372-398 ClientSide::emit *)
Definition emit (ev : Event.t) : action t Error.t unit := λ self,
  let 'mk early ech := self in
  match ev with
  | Event.EchStatus ech => (mk early ech, Ok tt)
  | Event.EarlyData event =>
      match event, early with
      | EarlyDataEvent.Enable sz, None => (mk (Some (EarlyData.new sz)) ech, Ok tt)
      | EarlyDataEvent.Start, Some (EarlyData.mk EarlyDataState.Ready n) =>
          (mk (Some (EarlyData.mk EarlyDataState.Sending n)) ech, Ok tt)
      | EarlyDataEvent.Accepted, Some (EarlyData.mk EarlyDataState.Sending n) =>
          (mk (Some (EarlyData.mk EarlyDataState.Accepted n)) ech, Ok tt)
      | EarlyDataEvent.Rejected, _ => (mk None ech, Ok tt)
      | EarlyDataEvent.Finished, Some (EarlyData.mk EarlyDataState.Accepted n) =>
          (mk (Some (EarlyData.mk EarlyDataState.AcceptedFinished n)) ech, Ok tt)
      | _, _ => (self, Panic)
      end
  | _ => (self, Panic)
  end.

#[global] Instance side_output : SideOutput t := emit.
End ClientSide.

Module ServerSide.
(** The data that the application gives for tickets is [resumption_data]. *)
(* @src rustls/src/server/connection.rs 122-127 ServerSide *)
Record t := mk {
  sni : option (list u8);
  received_resumption_data : option (list u8);
}.

(* @src rustls/src/server/connection.rs 164-170 ServerSide::emit *)
Definition emit (ev : Event.t) : action t Error.t unit := λ self,
  match ev with
  | Event.ReceivedServerName sni => (mk sni (received_resumption_data self), Ok tt)
  | Event.ResumptionData data => (mk (sni self) (Some data), Ok tt)
  | _ => (self, Panic)
  end.

#[global] Instance side_output : SideOutput t := emit.
End ServerSide.

(** ** The trait [Output] *)

(** What [CaptureAppData] has beside the two halves of the connection: the outputs, the
    QUIC transport, the side; and the log of secrets and the outside world, which the
    configuration refers to. *)
Module Join.
Section join.
Context `{Provider}.

(* @src rustls/src/conn/receive.rs 755-760 JoinOutput *)
Record t (S : Type) := mk {
  outputs : ConnectionOutputs.t;
  quic : option (Quic.t enc dec quic_alg packet_keys header_keys);
  side : S;
  key_log : list KeyLog.entry;
  outside : world;
}.
End join.
Arguments mk {_ S}.
Arguments outputs {_ S}.
Arguments quic {_ S}.
Arguments side {_ S}.
Arguments key_log {_ S}.
Arguments outside {_ S}.
End Join.

Section output.
Context `{Provider} {S : Type} `{!SideOutput S}.

(** The send half's key schedule. *)
Definition sched : Type := KeyScheduleTrafficSend.t enc dec quic_alg.
Definition Out : Type := Output.t dec enc sched (Join.t S).

(** A handler of messages, or a part of one. *)
Definition hs (A : Type) : Type := action Out Error.t A.

Definition on_join {A} (m : action (Join.t S) Error.t A) : hs A := λ out,
  match m (Output.other out) with
  | (other, r) => (Output.mk (Output.recv out) (Output.send out) (Output.tls out) other
                     (Output.received out) (Output.send_required out), r)
  end.

Definition on_outputs {A} (m : action ConnectionOutputs.t Error.t A) : hs A := on_join (λ j,
  match m (Join.outputs j) with
  | (o, r) => (Join.mk o (Join.quic j) (Join.side j) (Join.key_log j) (Join.outside j), r)
  end).

Definition on_side {A} (m : action S Error.t A) : hs A := on_join (λ j,
  match m (Join.side j) with
  | (s, r) => (Join.mk (Join.outputs j) (Join.quic j) s (Join.key_log j) (Join.outside j), r)
  end).

Definition on_world {A} (m : action world Error.t A) : hs A := on_join (λ j,
  match m (Join.outside j) with
  | (w, r) => (Join.mk (Join.outputs j) (Join.quic j) (Join.side j) (Join.key_log j) w, r)
  end).

(** [config.key_log]. *)
Definition on_log {A} (m : action (list KeyLog.entry) Error.t A) : hs A := on_join (λ j,
  match m (Join.key_log j) with
  | (l, r) => (Join.mk (Join.outputs j) (Join.quic j) (Join.side j) l (Join.outside j), r)
  end).

(* @src rustls/src/conn/receive.rs 684-686 CaptureAppData::emit *)
Definition emit (ev : Event.t) : hs unit := on_side (emit_side ev).

(** [self.recv.negotiated_version = Some(ver)]. *)
Definition note_version (ver : ProtocolVersion.t) (self : ReceivePath.t dec) : ReceivePath.t dec :=
  ReceivePath.mk (ReceivePath.side self) (ReceivePath.decrypt_state self)
    (ReceivePath.may_receive_application_data self) (ReceivePath.has_received_close_notify self)
    (ReceivePath.temper_counters self) (Some ver) (ReceivePath.deframer self)
    (ReceivePath.seen_consecutive_empty_fragments self) (ReceivePath.tls13_tickets_received self).

(* @src rustls/src/conn/receive.rs 688-694 CaptureAppData::output *)
Definition output (ev : OutputEvent.t) : hs unit :=
  _ ← (match ev with
       | OutputEvent.ProtocolVersion ver =>
           _ ← Output.on_recv (modify (note_version ver));
           Output.on_send (on_self (SendPath.set_negotiated_version ver))
       | _ => mret tt
       end);
  on_outputs (ConnectionOutputs.handle ev).

(** [output.quic()], to test whether there is one. *)
(* @src rustls/src/conn/receive.rs 709-714 CaptureAppData::quic *)
Definition has_quic : hs bool :=
  gets (λ out, bool_decide (is_Some (Join.quic (Output.other out)))).

(** [if let Some(quic) = output.quic() { quic.m() }]. *)
Definition with_quic (m : action (Quic.t enc dec quic_alg packet_keys header_keys) Error.t unit)
    : hs unit := on_join (λ j,
  match Join.quic j with
  | Some q =>
      match m q with
      | (q, r) => (Join.mk (Join.outputs j) (Some q) (Join.side j) (Join.key_log j) (Join.outside j), r)
      end
  | None => (j, Ok tt)
  end).

(* @src rustls/src/conn/receive.rs 696-707 CaptureAppData::send_msg *)
Definition send_msg (m : Message.t) (must_encrypt : bool) : hs unit :=
  quic ← has_quic;
  if quic : bool then with_quic (modify (Quic.send_msg m must_encrypt))
  else Output.on_sending (SendPath.send_msg m must_encrypt).

(** [self.recv.may_receive_application_data = true]. *)
Definition may_receive (self : ReceivePath.t dec) : ReceivePath.t dec :=
  ReceivePath.mk (ReceivePath.side self) (ReceivePath.decrypt_state self) true
    (ReceivePath.has_received_close_notify self) (ReceivePath.temper_counters self)
    (ReceivePath.negotiated_version self) (ReceivePath.deframer self)
    (ReceivePath.seen_consecutive_empty_fragments self) (ReceivePath.tls13_tickets_received self).

(* @src rustls/src/conn/receive.rs 736-739 CaptureAppData::start_traffic *)
Definition start_traffic : hs unit :=
  _ ← Output.on_recv (modify may_receive);
  Output.on_send (on_self SendPath.start_traffic).

(** [output.send().set_encrypter(e)] and [output.receive().decrypt_state.set_record_decrypter(d)]. *)
Definition set_encrypter (e : Encrypter.t enc) : hs unit :=
  Output.on_send (on_self (SendPath.set_encrypter e)).
Definition set_record_decrypter (d : dec) : hs unit :=
  Output.on_recv (modify (λ recv, ReceivePath.with_decrypt_state
    (DecryptionState.set_record_decrypter d (ReceivePath.decrypt_state recv)) recv)).
End output.
Arguments Out {_} S%_type.
Arguments hs {_} (S A)%_type.

(** ** Flights *)

Module HandshakeFlight.
(** [TLS13] is the constant parameter. *)
(* @src rustls/src/common_state.rs 420-423 HandshakeFlight *)
Record t := mk { transcript : HandshakeHash.t; body : list u8 }.

(* @src rustls/src/common_state.rs 426-431 HandshakeFlight::new *)
Definition new (transcript : HandshakeHash.t) : t := mk transcript [].

Section methods.
Context `{Provider}.

(* @src rustls/src/common_state.rs 433-438 HandshakeFlight::add *)
Definition add (hs : HandshakeMessagePayload.t) (self : t) : t :=
  let start_len := length (body self) in
  let body := encode hs (body self) in
  mk (HandshakeHash.add (drop start_len body) (transcript self)) body.

(* @src rustls/src/common_state.rs 440-450 HandshakeFlight::finish *)
Definition finish {S} (TLS13 : bool) (self : t) : hs S unit :=
  send_msg (Message.mk (EncodableVersion.Legacy
      (if TLS13 then ProtocolVersion.TLSv1_3 else ProtocolVersion.TLSv1_2))
    (MessagePayload.HandshakeFlight (body self))) TLS13.
End methods.
End HandshakeFlight.
