(* ===== verification/ClientConfig.v ===== *)
(** * The configuration of a client ([rustls/src/client/{config,mod}.rs],
    [rustls/src/crypto/mod.rs])

    What a handshake reads of its configuration, and the stores and clocks that the
    configuration gives it access to. *)
From stdpp Require Import gmap.
From S2P Require Import Prelude Enums Errors Codec Records Fragmenter Extensions Payloads ServerHello.
From S2P Require Import ClientHello Messages Receive Connection Hkdf KeySchedule Sessions Compress Verify Kx.
From S2P Require Import QuicKeys Transcript Outputs.

(** ** The crypto provider *)

Module CryptoProvider.
Section methods.
Context `{Provider}.

(* @src rustls/src/crypto/mod.rs 141-188 CryptoProvider *)
Record t := mk {
  tls12_cipher_suites : list (Tls12CipherSuite.t prf12 aead12);
  tls13_cipher_suites : list (Tls13CipherSuite.t enc dec quic_alg);
  kx_groups : list (SupportedKxGroup.t world);
}.

(* @src rustls/src/crypto/mod.rs 276-287 CryptoProvider::iter_cipher_suites *)
Definition iter_cipher_suites (self : t) : list SupportedCipherSuite.t :=
  (SupportedCipherSuite.Tls13 <$> tls13_cipher_suites self)
  ++ (SupportedCipherSuite.Tls12 <$> tls12_cipher_suites self).

(* @src rustls/src/crypto/mod.rs 289-297 CryptoProvider::supports_version *)
Definition supports_version (self : t) (v : ProtocolVersion.t) : bool :=
  if decide (v = ProtocolVersion.TLSv1_2)
  then match tls12_cipher_suites self with [] => false | _ => true end
  else if decide (v = ProtocolVersion.TLSv1_3)
  then match tls13_cipher_suites self with [] => false | _ => true end
  else false.

(* @src rustls/src/crypto/mod.rs 299-311 CryptoProvider::find_kx_group *)
Definition find_kx_group (self : t) (name : NamedGroup.t) (version : ProtocolVersion.t)
    : option (SupportedKxGroup.t world) :=
  if negb (usable_for_version name version) then None
  else snd <$> list_find (λ skxg, SupportedKxGroup.name skxg = name) (kx_groups self).
End methods.
End CryptoProvider.

(** ** Sessions *)

Module ClientSessionKey.
(* @src rustls/src/client/config.rs 363-372 ClientSessionKey *)
Record t := mk { config_hash : list u8; server_name : ServerName.t }.
End ClientSessionKey.

Section types.
Context `{Provider}.
Definition session13 : Type := Tls13Session.t enc dec quic_alg.
Definition session12 : Type := Tls12Session.t prf12 aead12.
End types.

(** What a client's configuration reaches outside: random numbers, the clock, the session
    store and the cache of compressed certificates. *)
(* @src rustls/src/client/config.rs 320-361 ClientSessionStore *)
Class ClientWorld `{Provider} := {
  client_random :: SecureRandom;
  clock : world → world * option Z;
  set_kx_hint : ClientSessionKey.t → NamedGroup.t → world → world;
  kx_hint : ClientSessionKey.t → world → world * option NamedGroup.t;
  set_tls12_session : ClientSessionKey.t → session12 → world → world;
  tls12_session : ClientSessionKey.t → world → world * option session12;
  remove_tls12_session : ClientSessionKey.t → world → world;
  insert_tls13_ticket : ClientSessionKey.t → session13 → world → world;
  take_tls13_ticket : ClientSessionKey.t → world → world * option session13;
  compression_for : CertCompressor.t → CertificatePayloadTls13.t → world →
    world * option CompressionCacheEntry.t;
}.

(* @src rustls/src/client/config.rs 289-294 ClientConfig::current_time *)
Definition client_time `{ClientWorld} : action world Error.t Z := λ w,
  match clock w with
  | (w, now) => (w, ok_or now Error.FailedToGetCurrentTime)
  end.

Module ClientSessionValue.
Section methods.
Context `{ClientWorld}.

(* @src rustls/src/client/hs.rs 1082-1085 ClientSessionValue *)
Inductive t :=
| Tls13 (v : session13)
| Tls12 (v : session12).

(* @src rustls/src/client/hs.rs 1134-1139 ClientSessionValue::common *)
Definition common (self : t) : ClientSessionCommon.t :=
  match self with
  | Tls13 inner => Tls13Session.common inner
  | Tls12 inner => Tls12Session.common inner
  end.

(* @src rustls/src/client/hs.rs 1141-1146 ClientSessionValue::tls13 *)
Definition tls13 (self : t) : option session13 :=
  match self with Tls13 v => Some v | Tls12 _ => None end.
End methods.
End ClientSessionValue.

(** ** The configuration *)

Module TicketRequest.
(* @src rustls/src/client/config.rs 619-637 TicketRequest *)
Record t := mk { new_session_count : u8; resumption_count : u8 }.
End TicketRequest.

Module Tls12Resumption.
(* @src rustls/src/client/config.rs 602-617 Tls12Resumption *)
Inductive t := Disabled | SessionIdOnly | SessionIdOrTickets.
#[global] Instance eq_dec : EqDecision t.
Proof. solve_decision. Defined.
End Tls12Resumption.

(** ** HPKE *)

Module Hpke.
Section hpke.
Context `{Provider}.

(** [setup_sealer] gives an encapsulated secret and a sealing context. *)
(* @src rustls/src/crypto/hpke.rs 26-90 Hpke *)
Record t := mk {
  kem : HpkeKem.t;
  sym : HpkeSymmetricCipherSuite.t;
  setup_sealer : list u8 → list u8 → action world Error.t (list u8 * hpke_sealer);
}.
End hpke.
End Hpke.

(* @src rustls/src/crypto/hpke.rs 92-100 HpkeSealer *)
Class HpkeSealer `{Provider} := hpke_seal :
  list u8 → list u8 → hpke_sealer → hpke_sealer * result Error.t (list u8).

(* @src rustls/src/crypto/hpke.rs 230-239 HpkeAead::tag_len *)
Definition aead_tag_len (self : HpkeAead.t) : option nat :=
  if decide (self ∈ [HpkeAead.AES_128_GCM; HpkeAead.AES_256_GCM; HpkeAead.CHACHA20_POLY_1305])
  then Some 16 else None.

#[global] Instance hpke_symmetric_eq_dec : EqDecision HpkeSymmetricCipherSuite.t.
Proof. solve_decision. Defined.

Module EchConfig.
Section methods.
Context `{Provider}.

(* @src rustls/src/client/ech.rs 72-83 EchConfig *)
Record t := mk { config : EchConfigPayload.t; suite : Hpke.t }.

(* @src rustls/src/client/ech.rs 143-152 EchConfig::hpke_info *)
Definition hpke_info (self : t) : list u8 := encode (config self) (byte_str "tls ech" ++ [x00]).

(** The inner loop: the first cipher suite that some HPKE suite has. *)
(* @src rustls/src/client/ech.rs 173-196 EchConfig::new_for_configs::for *)
Definition pick_suite (key_config : HpkeKeyConfig.t) (hpke_suites : list Hpke.t) : option Hpke.t :=
  foldr (λ cipher_suite rest,
    if decide (aead_tag_len (HpkeSymmetricCipherSuite.aead_id cipher_suite) = None) then rest
    else
      match list_find (λ hpke, Hpke.kem hpke = HpkeKeyConfig.kem_id key_config
                               ∧ Hpke.sym hpke = cipher_suite) hpke_suites with
      | Some (_, hpke) => Some hpke
      | None => rest
      end) None (HpkeKeyConfig.symmetric_cipher_suites key_config).

(* @src rustls/src/client/ech.rs 154-199 EchConfig::new_for_configs *)
Fixpoint new_for_configs (ech_configs : list EchConfigPayload.t) (hpke_suites : list Hpke.t)
    : result Error.t t :=
  match ech_configs with
  | [] => Err (Error.InvalidEncryptedClientHello EncryptedClientHelloError.NoCompatibleConfig)
  | config :: rest =>
      match config with
      | EchConfigPayload.V18 contents =>
          if EchConfigContents.has_unknown_mandatory_extension contents
             || EchConfigContents.has_duplicate_extension contents
          then new_for_configs rest hpke_suites
          else
            match pick_suite (EchConfigContents.key_config contents) hpke_suites with
            | Some hpke => Ok (mk config hpke)
            | None => new_for_configs rest hpke_suites
            end
      | EchConfigPayload.Unknown _ _ => new_for_configs rest hpke_suites
      end
  end.

(* @src rustls/src/client/ech.rs 86-109 EchConfig::new *)
Definition new (ech_config_list : list u8) (hpke_suites : list Hpke.t) : result Error.t t :=
  match read_bytes ech_config_list with
  | Ok ech_configs => new_for_configs ech_configs hpke_suites
  | Err _ => Err (Error.InvalidEncryptedClientHello EncryptedClientHelloError.InvalidConfigList)
  | Panic => Panic
  end.

(* @src rustls/src/client/ech.rs 111-124 EchConfig::for_retry *)
Definition for_retry (retry_configs : option (list EchConfigPayload.t)) (hpke_suites : list Hpke.t)
    : result Error.t t :=
  match retry_configs with
  | None => Err (Error.InvalidEncryptedClientHello EncryptedClientHelloError.NoCompatibleConfig)
  | Some configs => new_for_configs configs hpke_suites
  end.
End methods.
End EchConfig.

Module EchGreaseConfig.
Section config.
Context `{Provider}.
(* @src rustls/src/client/ech.rs 202-207 EchGreaseConfig *)
Record t := mk { suite : Hpke.t; placeholder_key : list u8 }.
End config.
End EchGreaseConfig.

Module EchMode.
Section mode.
Context `{Provider}.
(* @src rustls/src/client/ech.rs 35-48 EchMode *)
Inductive t :=
| Enable (config : EchConfig.t)
| Grease (config : EchGreaseConfig.t).
End mode.
End EchMode.

Module ClientConfig.
Section methods.
Context `{Provider}.

(** The session store, the clock and the compression cache are of [ClientWorld]; the key
    log is [will_log], its entries being kept with the outputs. *)
(* @src rustls/src/client/config.rs 60-188 ClientConfig *)
Record t := mk {
  check_selected_alpn : bool;
  tls12_resumption : Tls12Resumption.t;
  enable_sni : bool;
  will_log : string → bool;
  enable_secret_extraction : bool;
  enable_early_data : bool;
  require_ems : bool;
  send_ticket_request : option TicketRequest.t;
  provider : CryptoProvider.t;
  verifier : ServerVerifier.t;
  resolver : ClientCredentialResolver.t;
  config_hash : list u8;
  cert_decompressors : list CertDecompressor.t;
  cert_compressors : list CertCompressor.t;
  ech_mode : option EchMode.t;
}.

(* @src rustls/src/client/config.rs 278-280 ClientConfig::supports_version *)
Definition supports_version (self : t) (v : ProtocolVersion.t) (protocol : Protocol.t) : bool :=
  CryptoProvider.supports_version (provider self) v && Protocol.supports_version protocol v.

(* @src rustls/src/client/config.rs 282-287 ClientConfig::find_cipher_suite *)
Definition find_cipher_suite (self : t) (suite : CipherSuite.t) : option SupportedCipherSuite.t :=
  snd <$> list_find (λ scs, SupportedCipherSuite.suite scs = suite)
            (CryptoProvider.iter_cipher_suites (provider self)).
End methods.
End ClientConfig.

(** ** Details of a handshake *)

Module ServerCertDetails.
(* @src rustls/src/client/mod.rs 391-395 ServerCertDetails *)
Record t := mk { cert_chain : CertificateChain.t; ocsp_response : list u8 }.
End ServerCertDetails.

Module ClientHelloDetails.
(* @src rustls/src/client/mod.rs 406-412 ClientHelloDetails *)
Record t := mk {
  alpn_protocols : list ApplicationProtocol.t;
  sent_extensions : list ExtensionType.t;
  extension_order_seed : Z;
  offered_cert_compression : bool;
  offered_cipher_suites : list CipherSuite.t;
}.

(* @src rustls/src/client/mod.rs 415-423 ClientHelloDetails::new *)
Definition new (alpn_protocols : list ApplicationProtocol.t) (extension_order_seed : Z) : t :=
  mk alpn_protocols [] extension_order_seed false [].

(* @src rustls/src/client/mod.rs 425-439 ClientHelloDetails::server_sent_unsolicited_extensions *)
Definition server_sent_unsolicited_extensions (self : t) (received_exts : list ExtensionType.t)
    (allowed_unsolicited : list ExtensionType.t) : bool :=
  existsb (λ ext_type, bool_decide (ext_type ∉ sent_extensions self)
                       && bool_decide (ext_type ∉ allowed_unsolicited)) received_exts.
End ClientHelloDetails.

Module ClientAuthDetails.
(* @src rustls/src/client/mod.rs 442-451 ClientAuthDetails *)
Inductive t :=
| Empty (auth_context_tls13 : option (list u8))
| Verify (credentials : SelectedCredential.t) (auth_context_tls13 : option (list u8))
    (compressor : option CertCompressor.t).

(* @src rustls/src/client/mod.rs 454-479 ClientAuthDetails::resolve *)
Definition resolve (negotiated_type : CertificateType.t) (resolver : ClientCredentialResolver.t)
    (root_hint_subjects : option (list DistinguishedName.t)) (signature_schemes : list SignatureScheme.t)
    (auth_context_tls13 : option (list u8)) (compressor : option CertCompressor.t) : t :=
  let server_hello := CredentialRequest.mk negotiated_type (default [] root_hint_subjects)
                        signature_schemes in
  match ClientCredentialResolver.resolve resolver server_hello with
  | Some credentials => Verify credentials auth_context_tls13 compressor
  | None => Empty auth_context_tls13
  end.
End ClientAuthDetails.

(** [ServerExtensions::received_types] and [EncryptedExtensions::received_types]; the order
    of the unknown types does not matter to the callers. *)
(* @src rustls/src/msgs/server_hello.rs 210-217 ServerExtensions::received_types *)
Definition received_types `{!PkiTypes} (self : ServerExtensions.t) : list ExtensionType.t :=
  collect_used self ++ (ExtensionType.new <$> elements (ServerExtensions.unknown_extensions self)).

(* @src rustls/src/msgs/server_hello.rs 310-317 EncryptedExtensions::received_types *)
Definition ee_received_types `{!PkiTypes} (self : EncryptedExtensions.t) : list ExtensionType.t :=
  collect_used self ++ (ExtensionType.new <$> elements (EncryptedExtensions.unknown_extensions self)).
