(* ===== verification/Ech.v ===== *)
(** * Encrypted Client Hello ([rustls/src/client/ech.rs])

    The state of a client that offers ECH: it makes an inner hello from the outer one,
    seals it, and later decides from the server's answer whether the offer was accepted. *)
From stdpp Require Import gmap.
From S2P Require Import Prelude Enums Errors Codec Records Fragmenter Extensions Payloads ServerHello.
From S2P Require Import ClientHello Messages Receive Connection Hkdf KeySchedule Sessions Compress Verify Kx.
From S2P Require Import QuicKeys Transcript Outputs ClientConfig.

(** Assignments to fields of [ClientExtensions]. *)
Module Exts.
Import ClientExtensions.
Definition set_server_name (v : option ServerNamePayload.t) (s : t) : t :=
  mk v (certificate_status_request s) (named_groups s) (ec_point_formats s) (signature_schemes s)
    (protocols s) (client_certificate_types s) (server_certificate_types s)
    (extended_main_secret_request s) (certificate_compression_algorithms s) (session_ticket s)
    (preshared_key_offer s) (early_data_request s) (supported_versions s) (cookie s)
    (preshared_key_modes s) (certificate_authority_names s) (key_shares s) (transport_parameters s)
    (ticket_request s) (renegotiation_info s) (encrypted_client_hello s)
    (encrypted_client_hello_outer s) (order_seed s) (contiguous_extensions s).
Definition set_session_ticket (v : option ClientSessionTicket.t) (s : t) : t :=
  mk (server_name s) (certificate_status_request s) (named_groups s) (ec_point_formats s)
    (signature_schemes s) (protocols s) (client_certificate_types s) (server_certificate_types s)
    (extended_main_secret_request s) (certificate_compression_algorithms s) v
    (preshared_key_offer s) (early_data_request s) (supported_versions s) (cookie s)
    (preshared_key_modes s) (certificate_authority_names s) (key_shares s) (transport_parameters s)
    (ticket_request s) (renegotiation_info s) (encrypted_client_hello s)
    (encrypted_client_hello_outer s) (order_seed s) (contiguous_extensions s).
Definition set_preshared_key_offer (v : option PresharedKeyOffer.t) (s : t) : t :=
  mk (server_name s) (certificate_status_request s) (named_groups s) (ec_point_formats s)
    (signature_schemes s) (protocols s) (client_certificate_types s) (server_certificate_types s)
    (extended_main_secret_request s) (certificate_compression_algorithms s) (session_ticket s) v
    (early_data_request s) (supported_versions s) (cookie s) (preshared_key_modes s)
    (certificate_authority_names s) (key_shares s) (transport_parameters s) (ticket_request s)
    (renegotiation_info s) (encrypted_client_hello s) (encrypted_client_hello_outer s)
    (order_seed s) (contiguous_extensions s).
Definition set_early_data_request (v : option unit) (s : t) : t :=
  mk (server_name s) (certificate_status_request s) (named_groups s) (ec_point_formats s)
    (signature_schemes s) (protocols s) (client_certificate_types s) (server_certificate_types s)
    (extended_main_secret_request s) (certificate_compression_algorithms s) (session_ticket s)
    (preshared_key_offer s) v (supported_versions s) (cookie s) (preshared_key_modes s)
    (certificate_authority_names s) (key_shares s) (transport_parameters s) (ticket_request s)
    (renegotiation_info s) (encrypted_client_hello s) (encrypted_client_hello_outer s)
    (order_seed s) (contiguous_extensions s).
Definition set_encrypted_client_hello (v : option EncryptedClientHello.t) (s : t) : t :=
  mk (server_name s) (certificate_status_request s) (named_groups s) (ec_point_formats s)
    (signature_schemes s) (protocols s) (client_certificate_types s) (server_certificate_types s)
    (extended_main_secret_request s) (certificate_compression_algorithms s) (session_ticket s)
    (preshared_key_offer s) (early_data_request s) (supported_versions s) (cookie s)
    (preshared_key_modes s) (certificate_authority_names s) (key_shares s) (transport_parameters s)
    (ticket_request s) (renegotiation_info s) v (encrypted_client_hello_outer s) (order_seed s)
    (contiguous_extensions s).
Definition set_order_seed (v : Z) (s : t) : t :=
  mk (server_name s) (certificate_status_request s) (named_groups s) (ec_point_formats s)
    (signature_schemes s) (protocols s) (client_certificate_types s) (server_certificate_types s)
    (extended_main_secret_request s) (certificate_compression_algorithms s) (session_ticket s)
    (preshared_key_offer s) (early_data_request s) (supported_versions s) (cookie s)
    (preshared_key_modes s) (certificate_authority_names s) (key_shares s) (transport_parameters s)
    (ticket_request s) (renegotiation_info s) (encrypted_client_hello s)
    (encrypted_client_hello_outer s) v (contiguous_extensions s).
Definition set_contiguous_extensions (v : list ExtensionType.t) (s : t) : t :=
  mk (server_name s) (certificate_status_request s) (named_groups s) (ec_point_formats s)
    (signature_schemes s) (protocols s) (client_certificate_types s) (server_certificate_types s)
    (extended_main_secret_request s) (certificate_compression_algorithms s) (session_ticket s)
    (preshared_key_offer s) (early_data_request s) (supported_versions s) (cookie s)
    (preshared_key_modes s) (certificate_authority_names s) (key_shares s) (transport_parameters s)
    (ticket_request s) (renegotiation_info s) (encrypted_client_hello s)
    (encrypted_client_hello_outer s) (order_seed s) v.
End Exts.

Definition with_extensions (e : ClientExtensions.t) (h : ClientHelloPayload.t) : ClientHelloPayload.t :=
  ClientHelloPayload.mk (ClientHelloPayload.client_version h) (ClientHelloPayload.random h)
    (ClientHelloPayload.session_id h) (ClientHelloPayload.cipher_suites h)
    (ClientHelloPayload.compression_methods h) e.

(** [ServerNamePayload::from(dns_name)]. *)
(* @src rustls/src/msgs/client_hello.rs 611-615 From_for_ServerNamePayload *)
Definition server_name_payload `{!PkiTypes} (value : list u8) : result Error.t ServerNamePayload.t :=
  name ← ServerNamePayload.trim_hostname_trailing_dot_for_sni value; Ok (ServerNamePayload.SingleDnsName name).

Section binder.
Context `{Provider}.
Notation Early := (KeyScheduleEarly.t enc dec quic_alg).

(** [KeyScheduleEarly::hash]. *)
(* @src rustls/src/tls13/key_schedule.rs 165-172 KeyScheduleEarly::hash *)
Definition early_hash (self : Early) : Hash.t :=
  KeyScheduleSuite.hash_provider (KeySchedule.inner (KeyScheduleEarly.ks self)).

(** [binders[0] = ...] panics if there is no binder. *)
(* @src rustls/src/client/tls13.rs 365-396 fill_in_psk_binder *)
Definition fill_in_psk_binder (key_schedule : Early) (transcript : HandshakeHashBuffer.t)
    (hmp : HandshakeMessagePayload.t) : result Error.t HandshakeMessagePayload.t :=
  let binder_plaintext := HandshakeMessagePayload.encoding_for_binder_signing hmp in
  let handshake_hash :=
    HandshakeHashBuffer.hash_given transcript (early_hash key_schedule) binder_plaintext in
  real_binder ← KeyScheduleEarly.resumption_psk_binder_key_and_sign_verify_data key_schedule
                  handshake_hash;
  match HandshakeMessagePayload.inner hmp with
  | HandshakePayload.ClientHello ch =>
      match ClientExtensions.preshared_key_offer (ClientHelloPayload.extensions ch) with
      | Some (PresharedKeyOffer.mk identities binders) =>
          match binders with
          | [] => Panic
          | _ :: rest =>
              let offer := PresharedKeyOffer.mk identities
                             (PresharedKeyBinder.mk (mkSizedPayload real_binder) :: rest) in
              Ok (HandshakeMessagePayload.mk (HandshakePayload.ClientHello
                    (with_extensions (Exts.set_preshared_key_offer (Some offer)
                       (ClientHelloPayload.extensions ch)) ch)))
          end
      | None => Ok hmp
      end
  | _ => Ok hmp
  end.
End binder.

Module EchAccepted.
(* @src rustls/src/client/ech.rs 874-881 EchAccepted *)
Record t := mk {
  transcript : HandshakeHash.t;
  random : Random.t;
  sent_extensions : list ExtensionType.t;
}.
End EchAccepted.

(** Bytes 30 to 37 of an encoded ServerHello, the end of its random. *)
(* @src rustls/src/client/ech.rs 864-872 SERVER_HELLO_ECH_CONFIRMATION_SPAN *)
Definition SERVER_HELLO_ECH_CONFIRMATION_SPAN : Range := mkRange (1 + 3 + 2 + 24) (1 + 3 + 2 + 32).

Module EchState.
Section methods.
Context `{ClientWorld, !HpkeSealer}.

(** [secure_random] is that of the world. *)
(* @src rustls/src/client/ech.rs 310-350 EchState *)
Record t := mk {
  outer_name : list u8;
  early_data_key_schedule : option (KeyScheduleEarly.t enc dec quic_alg);
  inner_hello_random : Random.t;
  inner_hello_transcript : HandshakeHashBuffer.t;
  sender : hpke_sealer;
  config_id : u8;
  inner_name : ServerName.t;
  maximum_name_length : u8;
  cipher_suite : HpkeSymmetricCipherSuite.t;
  enc_secret : list u8;
  enable_sni : bool;
  sent_extensions : list ExtensionType.t;
  grease_psk_identities : option (list PresharedKeyIdentity.t);
  accepted_by_hello_retry_request : option bool;
}.
Implicit Types (self : t).

(** Assignments. *)
Definition set_schedule v self : t :=
  mk (outer_name self) v (inner_hello_random self) (inner_hello_transcript self) (sender self)
     (config_id self) (inner_name self) (maximum_name_length self) (cipher_suite self)
     (enc_secret self) (enable_sni self) (sent_extensions self) (grease_psk_identities self)
     (accepted_by_hello_retry_request self).
Definition set_transcript v self : t :=
  mk (outer_name self) (early_data_key_schedule self) (inner_hello_random self) v (sender self)
     (config_id self) (inner_name self) (maximum_name_length self) (cipher_suite self)
     (enc_secret self) (enable_sni self) (sent_extensions self) (grease_psk_identities self)
     (accepted_by_hello_retry_request self).
Definition set_sender v self : t :=
  mk (outer_name self) (early_data_key_schedule self) (inner_hello_random self)
     (inner_hello_transcript self) v (config_id self) (inner_name self) (maximum_name_length self)
     (cipher_suite self) (enc_secret self) (enable_sni self) (sent_extensions self)
     (grease_psk_identities self) (accepted_by_hello_retry_request self).
Definition set_sent v self : t :=
  mk (outer_name self) (early_data_key_schedule self) (inner_hello_random self)
     (inner_hello_transcript self) (sender self) (config_id self) (inner_name self)
     (maximum_name_length self) (cipher_suite self) (enc_secret self) (enable_sni self) v
     (grease_psk_identities self) (accepted_by_hello_retry_request self).
Definition set_grease v self : t :=
  mk (outer_name self) (early_data_key_schedule self) (inner_hello_random self)
     (inner_hello_transcript self) (sender self) (config_id self) (inner_name self)
     (maximum_name_length self) (cipher_suite self) (enc_secret self) (enable_sni self)
     (sent_extensions self) v (accepted_by_hello_retry_request self).
Definition set_accepted v self : t :=
  mk (outer_name self) (early_data_key_schedule self) (inner_hello_random self)
     (inner_hello_transcript self) (sender self) (config_id self) (inner_name self)
     (maximum_name_length self) (cipher_suite self) (enc_secret self) (enable_sni self)
     (sent_extensions self) (grease_psk_identities self) v.

(* @src rustls/src/client/ech.rs 353-397 EchState::new *)
Definition new (config : EchConfig.t) (inner_name : ServerName.t) (client_auth_enabled : bool)
    (enable_sni : bool) : action world Error.t t :=
  match EchConfig.config config with
  | EchConfigPayload.Unknown _ _ => panic
  | EchConfigPayload.V18 config_contents =>
      let key_config := EchConfigContents.key_config config_contents in
      '(enc, sender) ← Hpke.setup_sealer (EchConfig.suite config) (EchConfig.hpke_info config)
                         (sp_inner (HpkeKeyConfig.public_key key_config));
      let inner_hello_transcript := HandshakeHashBuffer.new in
      let inner_hello_transcript :=
        if client_auth_enabled then HandshakeHashBuffer.set_client_auth_enabled inner_hello_transcript
        else inner_hello_transcript in
      inner_hello_random ← random_new;
      mret (mk (EchConfigContents.public_name config_contents) None inner_hello_random
              inner_hello_transcript sender (HpkeKeyConfig.config_id key_config) inner_name
              (EchConfigContents.maximum_name_length config_contents)
              (Hpke.sym (EchConfig.suite config)) enc enable_sni [] None None)
  end.

(** [for ident in psk_offer.identities.iter_mut()]. *)
(* @src rustls/src/client/ech.rs 617-631 EchState::grease_psk::for *)
Fixpoint grease_identities (identities : list PresharedKeyIdentity.t)
    : action world Error.t (list PresharedKeyIdentity.t) :=
  match identities with
  | [] => mret []
  | ident :: rest =>
      identity ← random_array (length (sp_inner (PresharedKeyIdentity.identity ident)));
      ticket_age ← random_array 4;
      rest ← grease_identities rest;
      mret (PresharedKeyIdentity.mk (mkSizedPayload identity) (be_val ticket_age) :: rest)
  end.

(** [psk_offer.binders.iter().map(..).collect()]. *)
(* @src rustls/src/client/ech.rs 639-650 EchState::grease_psk::closure *)
Fixpoint grease_binders (binders : list PresharedKeyBinder.t)
    : action world Error.t (list PresharedKeyBinder.t) :=
  match binders with
  | [] => mret []
  | old_binder :: rest =>
      new_binder ← random_array (length (sp_inner (PresharedKeyBinder.inner old_binder)));
      rest ← grease_binders rest;
      mret (PresharedKeyBinder.mk (mkSizedPayload new_binder) :: rest)
  end.

(* @src rustls/src/client/ech.rs 609-652 EchState::grease_psk *)
Definition grease_psk self (psk_offer : PresharedKeyOffer.t)
    : action world Error.t (t * PresharedKeyOffer.t) :=
  '(self, identities) ←
    (match grease_psk_identities self with
     | Some identities => mret (self, identities)
     | None =>
         identities ← grease_identities (PresharedKeyOffer.identities psk_offer);
         mret (set_grease (Some identities) self, identities)
     end);
  binders ← grease_binders (PresharedKeyOffer.binders psk_offer);
  mret (self, PresharedKeyOffer.mk identities binders).

(** A turn of the loop over the outer hello's extensions; the state is the inner
    extensions and [compressed_exts]. *)
(* @src rustls/src/client/ech.rs 707-737 EchState::encode_inner_hello::for *)
Definition inner_extension (inner_sni : option ServerNamePayload.t) (outer : ClientExtensions.t)
    (st : ClientExtensions.t * list ExtensionType.t) (ext : ExtensionType.t)
    : ClientExtensions.t * list ExtensionType.t :=
  let '(inner, compressed_exts) := st in
  if decide (ext ∈ [ExtensionType.ExtendedMainSecret; ExtensionType.SessionTicket;
                    ExtensionType.ECPointFormats]) then (inner, compressed_exts)
  else if decide (ext = ExtensionType.ServerName)
  then (match inner_sni with
        | Some sni_value => Exts.set_server_name (Some sni_value) inner
        | None => inner
        end, compressed_exts)
  else (clone_one inner outer ext,
        if ech_compress ext then compressed_exts ++ [ext] else compressed_exts).

(** The lengths of the two paddings. *)
Definition name_padding_len (maximum_name_length : u8) (server_name : option ServerNamePayload.t)
    : nat :=
  let max_name_len := Z.to_nat (u8_to_Z maximum_name_length) in
  let max_name_len := if decide (0 < max_name_len) then max_name_len else 255 in
  match server_name with
  | Some (ServerNamePayload.SingleDnsName name) => Nat.max 0 (max_name_len - length name)
  | _ => max_name_len + 9
  end.
Definition block_padding_len (len : nat) : nat := 31 - ((len - 1) `mod` 32).

(** The inner SNI: only for a DNS name, and if SNI is enabled. *)
Definition inner_sni_of self : result Error.t (option ServerNamePayload.t) :=
  match inner_name self, enable_sni self with
  | ServerName.DnsName dns_name, true => Some <$> server_name_payload dns_name
  | _, _ => Ok None
  end.

(** The inner hello before its binder is filled in, and what is compressed in it. *)
(* @src rustls/src/client/ech.rs 662-741 EchState::encode_inner_hello::match *)
Definition inner_hello_of self (outer_hello : ClientHelloPayload.t)
    (inner_sni : option ServerNamePayload.t) : ClientHelloPayload.t * list ExtensionType.t :=
  let outer := ClientHelloPayload.extensions outer_hello in
  let inner := es_default in
  let inner := Exts.set_order_seed (ClientExtensions.order_seed outer) inner in
  let inner := Exts.set_encrypted_client_hello (Some EncryptedClientHello.Inner) inner in
  let '(inner, compressed_exts) :=
    fold_left (inner_extension inner_sni outer)
      (ClientExtensions.used_extensions_in_encoding_order outer) (inner, []) in
  let inner := Exts.set_contiguous_extensions compressed_exts inner in
  (ClientHelloPayload.mk (ClientHelloPayload.client_version outer_hello) (inner_hello_random self)
     (ClientHelloPayload.session_id outer_hello)
     (filter (λ cs, cs ≠ CipherSuite.TLS_EMPTY_RENEGOTIATION_INFO_SCSV)
        (ClientHelloPayload.cipher_suites outer_hello))
     (ClientHelloPayload.compression_methods outer_hello) inner, compressed_exts).

(** [encoded_hello] with both paddings. *)
Definition pad_inner_hello self (inner_hello : ClientHelloPayload.t)
    (compressed_exts : list ExtensionType.t) : list u8 :=
  let encoded_hello := ClientHelloPayload.ech_inner_encoding inner_hello compressed_exts in
  let encoded_hello := encoded_hello ++ replicate
    (name_padding_len (maximum_name_length self)
       (ClientExtensions.server_name (ClientHelloPayload.extensions inner_hello))) x00 in
  encoded_hello ++ replicate (block_padding_len (length encoded_hello)) x00.

(* @src rustls/src/client/ech.rs 654-818 EchState::encode_inner_hello *)
Definition encode_inner_hello self (outer_hello : ClientHelloPayload.t) (is_retry : bool)
    (resuming : option session13) : result Error.t (t * list u8) :=
  inner_sni ← inner_sni_of self;
  let '(inner_hello, compressed_exts) := inner_hello_of self outer_hello inner_sni in
  let self := set_sent (collect_used (ClientHelloPayload.extensions inner_hello)) self in
  '(self, inner_hello) ←
    (match resuming with
     | Some resuming =>
         let chp := HandshakeMessagePayload.mk (HandshakePayload.ClientHello inner_hello) in
         key_schedule ← KeyScheduleEarly.new Side.Client (Tls13Session.suite resuming)
                          (sp_inner (Tls13Session.secret resuming));
         chp ← fill_in_psk_binder key_schedule (inner_hello_transcript self) chp;
         match HandshakeMessagePayload.inner chp with
         | HandshakePayload.ClientHello chp => Ok (set_schedule (Some key_schedule) self, chp)
         | _ => Panic
         end
     | None => Ok (self, inner_hello)
     end);
  let encoded_hello := pad_inner_hello self inner_hello compressed_exts in
  let inner_hello_msg :=
    Message.mk (if is_retry then EncodableVersion.Legacy ProtocolVersion.TLSv1_2
                else EncodableVersion.InitialClientHello Protocol.Tcp)
      (MessagePayload.handshake (HandshakeMessagePayload.mk (HandshakePayload.ClientHello inner_hello))) in
  Ok (set_transcript (HandshakeHashBuffer.add_message inner_hello_msg (inner_hello_transcript self)) self,
      encoded_hello).

(** [outer_hello.encrypted_client_hello = Some(outer_hello_ext(self, enc, payload))]. *)
(* @src rustls/src/client/ech.rs 439-446 outer_hello_ext *)
Definition outer_hello_ext self (enc payload : list u8) (outer_hello : ClientHelloPayload.t)
    : ClientHelloPayload.t :=
  let ext := EncryptedClientHello.Outer (EncryptedClientHelloOuter.mk (cipher_suite self)
               (config_id self) (mkSizedPayload enc) (mkSizedPayload payload)) in
  with_extensions (Exts.set_encrypted_client_hello (Some ext) (ClientHelloPayload.extensions outer_hello))
    outer_hello.

(* @src rustls/src/client/ech.rs 399-469 EchState::ech_hello *)
Definition ech_hello self (outer_hello : ClientHelloPayload.t) (is_retry : bool)
    (resuming : option session13) : action world Error.t (t * ClientHelloPayload.t) :=
  '(self, encoded_inner_hello) ← lift (encode_inner_hello self outer_hello is_retry resuming);
  tag_len ← lift (unwrap (aead_tag_len (HpkeSymmetricCipherSuite.aead_id (cipher_suite self))));
  let payload_len := length encoded_inner_hello + tag_len in
  let enc := if is_retry then [] else enc_secret self in
  '(self, outer_hello) ←
    (match ClientExtensions.preshared_key_offer (ClientHelloPayload.extensions outer_hello) with
     | Some psk_offer =>
         '(self, psk_offer) ← grease_psk self psk_offer;
         mret (self, with_extensions (Exts.set_preshared_key_offer (Some psk_offer)
                       (ClientHelloPayload.extensions outer_hello)) outer_hello)
     | None => mret (self, outer_hello)
     end);
  let outer_hello := outer_hello_ext self enc (replicate payload_len x00) outer_hello in
  let '(sender, payload) := hpke_seal (get_encoding outer_hello) encoded_inner_hello (sender self) in
  payload ← lift payload;
  let self := set_sender sender self in
  mret (self, outer_hello_ext self enc payload outer_hello).

(** The message with the end of its random zeroed; [encoded[..].fill(0)] panics if the
    encoding is too short. *)
(* @src rustls/src/client/ech.rs 820-843 EchState::server_hello_conf *)
Definition server_hello_conf (server_hello : ServerHelloPayload.t) (server_hello_encoded : list u8)
    : result Error.t Message.t :=
  encoded ← write_at server_hello_encoded (r_start SERVER_HELLO_ECH_CONFIRMATION_SPAN)
              (replicate 8 x00);
  Ok (Message.mk (EncodableVersion.Legacy ProtocolVersion.TLSv1_3)
        (MessagePayload.Handshake
           (HandshakeMessagePayload.mk (HandshakePayload.ServerHello server_hello)) encoded)).

(* @src rustls/src/client/ech.rs 851-861 EchState::ech_conf_message *)
Definition ech_conf_message (hmp : HandshakeMessagePayload.t) : Message.t :=
  let hmp_encoded := HandshakeMessagePayload.payload_encode hmp Encoding.EchConfirmation [] in
  Message.mk (EncodableVersion.Legacy ProtocolVersion.TLSv1_3)
    (MessagePayload.Handshake hmp hmp_encoded).

(* @src rustls/src/client/ech.rs 845-849 EchState::hello_retry_request_conf *)
Definition hello_retry_request_conf (retry_req : HelloRetryRequest.t) : Message.t :=
  ech_conf_message (HandshakeMessagePayload.mk (HandshakePayload.HelloRetryRequest retry_req)).

(** With the name to authenticate the server for. *)
(* @src rustls/src/client/ech.rs 471-537 EchState::confirm_acceptance *)
Definition confirm_acceptance self (ks : KeyScheduleHandshakeStart.t enc dec quic_alg)
    (server_hello : ServerHelloPayload.t) (server_hello_encoded : list u8) (hash : Hash.t)
    (server_name : ServerName.t) : result Error.t (ServerName.t * option EchAccepted.t) :=
  if decide (accepted_by_hello_retry_request self = Some false)
  then Ok (ServerName.DnsName (outer_name self), None)
  else
    let inner_transcript := HandshakeHashBuffer.start_hash (inner_hello_transcript self) hash in
    conf ← server_hello_conf server_hello server_hello_encoded;
    let confirmation_transcript := HandshakeHash.add_message conf inner_transcript in
    derived ← KeyScheduleHandshakeStart.server_ech_confirmation_secret ks
                (Random.bytes (inner_hello_random self))
                (HandshakeHash.current_hash confirmation_transcript);
    if decide (derived = drop 24 (Random.bytes (ServerHelloPayload.random server_hello)))
    then Ok (server_name, Some (EchAccepted.mk inner_transcript (inner_hello_random self)
                                  (sent_extensions self)))
    else if decide (accepted_by_hello_retry_request self = Some true)
    then Err (Error.PeerMisbehaved PeerMisbehaved.EchAcceptanceVariedAfterRetry)
    else Ok (ServerName.DnsName (outer_name self), None).

(* @src rustls/src/client/ech.rs 539-585 EchState::confirm_hrr_acceptance *)
Definition confirm_hrr_acceptance self (hrr : HelloRetryRequest.t)
    (cs : Tls13CipherSuite.t enc dec quic_alg) : result Error.t (t * bool) :=
  match HelloRetryRequestExtensions.encrypted_client_hello (HelloRetryRequest.extensions hrr) with
  | None => Ok (set_accepted (Some false) self, false)
  | Some ech_conf =>
      if decide (length ech_conf ≠ 8)
      then Err (Error.PeerMisbehaved PeerMisbehaved.IllegalHelloRetryRequestWithInvalidEch)
      else
        let confirmation_transcript :=
          HandshakeHashBuffer.start_hash (inner_hello_transcript self)
            (CipherSuiteCommon.hash_provider (Tls13CipherSuite.common cs)) in
        let confirmation_transcript := HandshakeHash.rollup_for_hrr confirmation_transcript in
        let confirmation_transcript :=
          HandshakeHash.add_message (hello_retry_request_conf hrr) confirmation_transcript in
        derived ← server_ech_hrr_confirmation_secret (Tls13CipherSuite.hkdf_provider cs)
                    (Random.bytes (inner_hello_random self))
                    (HandshakeHash.current_hash confirmation_transcript);
        let accepted := bool_decide (derived = ech_conf) in
        Ok (set_accepted (Some accepted) self, accepted)
  end.

(* @src rustls/src/client/ech.rs 587-607 EchState::transcript_hrr_update *)
Definition transcript_hrr_update self (hash : Hash.t) (m : Message.t) : t :=
  let inner_transcript := HandshakeHashBuffer.start_hash (inner_hello_transcript self) hash in
  let inner_transcript_buffer := HandshakeHashBuffer.from_hash inner_transcript in
  set_transcript (HandshakeHashBuffer.add_message m inner_transcript_buffer) self.
End methods.
End EchState.

(* @src rustls/src/client/ech.rs 226-290 EchGreaseConfig::grease_ext *)
Definition grease_ext `{ClientWorld} `{!HpkeSealer} (self : EchGreaseConfig.t)
    (inner_name : ServerName.t) (outer_hello : ClientHelloPayload.t)
    : action world Error.t EncryptedClientHello.t :=
  config_id ← random_array 1;
  config_id ← lift (unwrap (head config_id));
  let sym := Hpke.sym (EchGreaseConfig.suite self) in
  let contents :=
    EchConfigContents.mk
      (HpkeKeyConfig.mk config_id HpkeKem.DHKEM_P256_HKDF_SHA256
         (mkSizedPayload (EchGreaseConfig.placeholder_key self)) [sym])
      x00 (byte_str "filler") [] in
  grease_state ← EchState.new (EchConfig.mk (EchConfigPayload.V18 contents) (EchGreaseConfig.suite self))
                   inner_name false false;
  '(grease_state, encoded_inner_hello) ←
    lift (EchState.encode_inner_hello grease_state outer_hello false None);
  tag_len ← lift (unwrap (aead_tag_len (HpkeSymmetricCipherSuite.aead_id sym)));
  payload ← random_array (length encoded_inner_hello + tag_len);
  mret (EncryptedClientHello.Outer (EncryptedClientHelloOuter.mk sym config_id
          (mkSizedPayload (EchState.enc_secret grease_state)) (mkSizedPayload payload))).
