(* ===== verification/Traffic.v ===== *)
(** * The traffic states ([ExpectTraffic] and [ExpectQuicTraffic] of
    [rustls/src/{client,server}/tls1{2,3}.rs])

    What a connection does with messages once the handshake is over: application data
    is handed out, key updates move the keys on, tickets are stored. *)
From stdpp Require Import gmap.
From S2P Require Import Prelude Enums Errors Codec Records Fragmenter Deframer Extensions Payloads.
From S2P Require Import ServerHello ClientHello Messages Send Receive InputBuffer Connection ConnectionSpec.
From S2P Require Import Cipher Hkdf KeySchedule KeyScheduleSpec Sessions.

(* @src rustls/src/check.rs 40-52 inappropriate_message *)
Definition inappropriate_message (payload : MessagePayload.t) (content_types : list ContentType.t)
    : Error.t :=
  Error.InappropriateMessage content_types (MessagePayload.content_type payload).

(* @src rustls/src/check.rs 54-70 inappropriate_handshake_message *)
Definition inappropriate_handshake_message (payload : MessagePayload.t)
    (content_types : list ContentType.t) (handshake_types : list HandshakeType.t) : Error.t :=
  match payload with
  | MessagePayload.Handshake parsed _ =>
      Error.InappropriateHandshakeMessage handshake_types
        (HandshakePayload.handshake_type (HandshakeMessagePayload.inner parsed))
  | payload => inappropriate_message payload content_types
  end.

Module PartiallyExtractedSecrets.
(* @src rustls/src/suites.rs 143-150 PartiallyExtractedSecrets *)
Record t := mk { tx : ConnectionTrafficSecrets.t; rx : ConnectionTrafficSecrets.t }.
End PartiallyExtractedSecrets.

(** [into_external_state] of a TLS 1.3 state. *)
Definition extract_secrets {E D Q} (enable_secret_extraction : bool)
    (send_keys : option (KeyScheduleTrafficSend.t E D Q))
    (key_schedule_recv : KeyScheduleTrafficReceive.t E D Q) : result Error.t PartiallyExtractedSecrets.t :=
  if negb enable_secret_extraction
  then Err (Error.ApiMisuse ApiMisuse.SecretExtractionRequiresPriorOptIn)
  else
    match send_keys with
    | None => Err (Error.Unreachable "send_keys required for TLS1.3 into_external_state")
    | Some send_keys =>
        tx ← KeyScheduleTrafficSend.extract send_keys;
        rx ← KeyScheduleTrafficReceive.extract key_schedule_recv;
        Ok (PartiallyExtractedSecrets.mk tx rx)
    end.

(** [self.counters.received_handshake_message()?]. *)
Definition count_handshake_message (counters : TrafficTemperCounters.t)
    : result Error.t TrafficTemperCounters.t :=
  match TrafficTemperCounters.received_handshake_message counters with
  | (counters, r) => (λ _, counters) <$> r
  end.

(** ** Servers, TLS 1.3 *)

Module ServerTls13.
(** Of the configuration, only whether secrets may be extracted is used. *)
(* @src rustls/src/server/tls13.rs 1591-1597 ExpectTraffic *)
Record ExpectTraffic (E D Q : Type) := mk {
  enable_secret_extraction : bool;
  key_schedule_recv : KeyScheduleTrafficReceive.t E D Q;
  counters : TrafficTemperCounters.t;
}.
Arguments mk {E D Q}.
Arguments enable_secret_extraction {E D Q}.
Arguments key_schedule_recv {E D Q}.
Arguments counters {E D Q}.

Section methods.
Context {E D Q X : Type} `{!RecordEncrypter E, !PkiTypes}.
Notation K := (KeyScheduleTrafficSend.t E D Q).
Notation Out := (Output.t D E K X).

(** [self] is the field [key_schedule_recv], the only one used. *)
(* @src rustls/src/server/tls13.rs 1600-1624 ExpectTraffic::handle_key_update *)
Definition handle_key_update (self : KeyScheduleTrafficReceive.t E D Q) (input : Input.t)
    (key_update_request : KeyUpdateRequest.t)
    : action Out Error.t (KeyScheduleTrafficReceive.t E D Q) :=
  if KeyScheduleTrafficReceive.is_quic self
  then fail (Error.PeerMisbehaved PeerMisbehaved.KeyUpdateReceivedInQuicConnection)
  else
    _ ← lift (Input.check_aligned_handshake input);
    _ ← (if decide (key_update_request = KeyUpdateRequest.UpdateNotRequested)
         then Output.on_send (on_self SendPath.note_key_update_response)
         else if decide (key_update_request = KeyUpdateRequest.UpdateRequested)
         then Output.on_sending (on_self SendPath.queue_requested_key_update)
         else fail (Error.InvalidMessage InvalidMessage.InvalidKeyUpdate));
    Output.on_recv (KeyScheduleTrafficReceive.update_decrypter self).

(* @src rustls/src/server/tls13.rs 1628-1656 ExpectTraffic::handle *)
Definition handle (self : ExpectTraffic E D Q) (input : Input.t)
    : action Out Error.t (ExpectTraffic E D Q) :=
  match Message.payload (Input.message input) with
  | MessagePayload.ApplicationData payload =>
      let counters := TrafficTemperCounters.received_app_data (counters self) in
      _ ← Output.received_plaintext (DataKind.Traffic payload);
      mret (mk (enable_secret_extraction self) (key_schedule_recv self) counters)
  | MessagePayload.Handshake (HandshakeMessagePayload.mk (HandshakePayload.KeyUpdate key_update)) _ =>
      counters ← lift (count_handshake_message (counters self));
      recv ← handle_key_update (key_schedule_recv self) input key_update;
      mret (mk (enable_secret_extraction self) recv counters)
  | payload =>
      fail (inappropriate_handshake_message payload
              [ContentType.ApplicationData; ContentType.Handshake] [HandshakeType.KeyUpdate])
  end.

(** [ServerState::Tls13(..)] always wants input. *)
#[global] Instance state_machine : StateMachine (ExpectTraffic E D Q) D E K X := {|
  Connection.handle := handle;
  wants_input _ := true;
  handle_without_input self := mret self;
  is_traffic _ := true;
  handle_decrypt_error _ x := x;
|}.
End methods.

Section external.
Context {E D Q : Type}.
Implicit Types (self : ExpectTraffic E D Q).

(* @src rustls/src/server/tls13.rs 1662-1681 ExpectTraffic::into_external_state *)
Definition into_external_state self (send_keys : option (KeyScheduleTrafficSend.t E D Q))
    : result Error.t (PartiallyExtractedSecrets.t * ExpectTraffic E D Q) :=
  secrets ← extract_secrets (enable_secret_extraction self) send_keys (key_schedule_recv self);
  Ok (secrets, self).

(* @src rustls/src/server/tls13.rs 1685-1688 ExpectTraffic::update_rx_secret *)
Definition update_rx_secret : action (ExpectTraffic E D Q) Error.t ConnectionTrafficSecrets.t := λ self,
  match KeyScheduleTrafficReceive.refresh_traffic_secret (key_schedule_recv self) with
  | (recv, r) => (mk (enable_secret_extraction self) recv (counters self), r)
  end.

(** [unreachable!]. *)
(* @src rustls/src/server/tls13.rs 1690-1697 ExpectTraffic::handle_new_session_ticket *)
Definition handle_new_session_ticket (_ : ExpectTraffic E D Q) (_ : NewSessionTicketPayloadTls13.t)
    : result Error.t unit := Panic.
End external.

(* @src rustls/src/server/tls13.rs 1706-1708 ExpectQuicTraffic *)
Record ExpectQuicTraffic := mk_quic {}.

Section quic.
Context {D E K X : Type}.

(** No message is expected. *)
(* @src rustls/src/server/tls13.rs 1711-1718 ExpectQuicTraffic::handle *)
Definition handle_quic (_ : ExpectQuicTraffic) (input : Input.t)
    : action (Output.t D E K X) Error.t ExpectQuicTraffic :=
  fail (inappropriate_message (Message.payload (Input.message input)) []).

#[global] Instance quic_state_machine : StateMachine ExpectQuicTraffic D E K X := {|
  Connection.handle := handle_quic;
  wants_input _ := true;
  handle_without_input self := mret self;
  is_traffic _ := true;
  handle_decrypt_error _ x := x;
|}.
End quic.
End ServerTls13.

(** ** Clients, TLS 1.3 *)

(** What lies outside the connection: the clock of the configuration and the session
    store, with [SK] the keys of the store and [V] its values. *)
Class ClientEnv (X SK V : Type) := {
  time_provider : X → X * option Z;
  insert_tls13_ticket : SK → V → X → X;
}.

Definition on_other {D E K X A} (m : action X Error.t A) : action (Output.t D E K X) Error.t A := λ out,
  match m (Output.other out) with
  | (other, r) => (Output.mk (Output.recv out) (Output.send out) (Output.tls out) other
                     (Output.received out) (Output.send_required out), r)
  end.

(* @src rustls/src/client/config.rs 289-294 ClientConfig::current_time *)
Definition current_time `{ClientEnv X SK V} : action X Error.t Z := λ env,
  match time_provider env with
  | (env, now) => (env, ok_or now Error.FailedToGetCurrentTime)
  end.

Definition with_tickets {D} (v : Z) (self : ReceivePath.t D) : ReceivePath.t D :=
  ReceivePath.mk (ReceivePath.side self) (ReceivePath.decrypt_state self)
    (ReceivePath.may_receive_application_data self) (ReceivePath.has_received_close_notify self)
    (ReceivePath.temper_counters self) (ReceivePath.negotiated_version self)
    (ReceivePath.deframer self) (ReceivePath.seen_consecutive_empty_fragments self) v.

Module ClientTls13.
(* @src rustls/src/client/tls13.rs 1540-1554 ExpectTraffic *)
Record ExpectTraffic (E D Q SK : Type) := mk {
  enable_secret_extraction : bool;
  session_key : SK;
  session_input : Tls13ClientSessionInput.t E D Q;
  key_schedule_recv : KeyScheduleTrafficReceive.t E D Q;
  resumption : KeyScheduleResumption.t E D Q;
  counters : TrafficTemperCounters.t;
}.
Arguments mk {E D Q SK}.
Arguments enable_secret_extraction {E D Q SK}.
Arguments session_key {E D Q SK}.
Arguments session_input {E D Q SK}.
Arguments key_schedule_recv {E D Q SK}.
Arguments resumption {E D Q SK}.
Arguments counters {E D Q SK}.

Section methods.
Context {E D Q X SK : Type} `{!RecordEncrypter E, !PkiTypes, !ClientEnv X SK (Tls13Session.t E D Q)}.
Notation K := (KeyScheduleTrafficSend.t E D Q).
Notation Out := (Output.t D E K X).
Implicit Types (self : ExpectTraffic E D Q SK).

Definition with_counters (v : TrafficTemperCounters.t) self : ExpectTraffic E D Q SK :=
  mk (enable_secret_extraction self) (session_key self) (session_input self)
     (key_schedule_recv self) (resumption self) v.
Definition with_recv (v : KeyScheduleTrafficReceive.t E D Q) self : ExpectTraffic E D Q SK :=
  mk (enable_secret_extraction self) (session_key self) (session_input self) v (resumption self)
     (counters self).

(* @src rustls/src/client/tls13.rs 1557-1575 ExpectTraffic::handle_new_ticket_impl *)
Definition handle_new_ticket_impl self (nst : NewSessionTicketPayloadTls13.t) : action X Error.t unit :=
  secret ← lift (KeyScheduleResumption.derive_ticket_psk (resumption self)
                   (sp_inner (NewSessionTicketPayloadTls13.nonce nst)));
  now ← current_time;
  let value := Tls13Session.new nst (session_input self) (OkmBlock.as_ref secret) now in
  _ ← (match KeyScheduleTrafficReceive.is_quic (key_schedule_recv self),
             NewSessionTicketExtensions.max_early_data_size (NewSessionTicketPayloadTls13.extensions nst) with
       | true, Some sz =>
           if decide (sz ≠ 0 ∧ sz ≠ 0xffffffff)%Z
           then fail (Error.PeerMisbehaved PeerMisbehaved.InvalidMaxEarlyDataSize)
           else mret tt
       | _, _ => mret tt
       end);
  modify (insert_tls13_ticket (session_key self) value).

(* @src rustls/src/client/tls13.rs 1577-1585 ExpectTraffic::handle_new_ticket_tls13 *)
Definition handle_new_ticket_tls13 self (nst : NewSessionTicketPayloadTls13.t) : action Out Error.t unit :=
  _ ← Output.on_recv (modify (λ recv,
        with_tickets (sat_add u32_MAX (ReceivePath.tls13_tickets_received recv) 1) recv));
  on_other (handle_new_ticket_impl self nst).

(* @src rustls/src/client/tls13.rs 1587-1612 ExpectTraffic::handle_key_update *)
Definition handle_key_update self (input : Input.t) (key_update_request : KeyUpdateRequest.t)
    : action Out Error.t (ExpectTraffic E D Q SK) :=
  if KeyScheduleTrafficReceive.is_quic (key_schedule_recv self)
  then fail (Error.PeerMisbehaved PeerMisbehaved.KeyUpdateReceivedInQuicConnection)
  else
    _ ← lift (Input.check_aligned_handshake input);
    _ ← (if decide (key_update_request = KeyUpdateRequest.UpdateNotRequested)
         then Output.on_send (on_self SendPath.note_key_update_response)
         else if decide (key_update_request = KeyUpdateRequest.UpdateRequested)
         then Output.on_sending (on_self SendPath.queue_requested_key_update)
         else fail (Error.InvalidMessage InvalidMessage.InvalidKeyUpdate));
    recv ← Output.on_recv (KeyScheduleTrafficReceive.update_decrypter (key_schedule_recv self));
    mret (with_recv recv self).

(* @src rustls/src/client/tls13.rs 1616-1652 ExpectTraffic::handle *)
Definition handle self (input : Input.t) : action Out Error.t (ExpectTraffic E D Q SK) :=
  match Message.payload (Input.message input) with
  | MessagePayload.ApplicationData payload =>
      let self := with_counters (TrafficTemperCounters.received_app_data (counters self)) self in
      _ ← Output.received_plaintext (DataKind.Traffic payload);
      mret self
  | MessagePayload.Handshake
      (HandshakeMessagePayload.mk (HandshakePayload.NewSessionTicketTls13 new_ticket)) _ =>
      counters ← lift (count_handshake_message (counters self));
      let self := with_counters counters self in
      _ ← handle_new_ticket_tls13 self new_ticket;
      mret self
  | MessagePayload.Handshake (HandshakeMessagePayload.mk (HandshakePayload.KeyUpdate key_update)) _ =>
      counters ← lift (count_handshake_message (counters self));
      handle_key_update (with_counters counters self) input key_update
  | payload =>
      fail (inappropriate_handshake_message payload
              [ContentType.ApplicationData; ContentType.Handshake]
              [HandshakeType.NewSessionTicket; HandshakeType.KeyUpdate])
  end.

#[global] Instance state_machine : StateMachine (ExpectTraffic E D Q SK) D E K X := {|
  Connection.handle := handle;
  wants_input _ := true;
  handle_without_input self := mret self;
  is_traffic _ := true;
  handle_decrypt_error _ x := x;
|}.

(* @src rustls/src/client/tls13.rs 1658-1677 ExpectTraffic::into_external_state *)
Definition into_external_state self (send_keys : option K)
    : result Error.t (PartiallyExtractedSecrets.t * ExpectTraffic E D Q SK) :=
  secrets ← extract_secrets (enable_secret_extraction self) send_keys (key_schedule_recv self);
  Ok (secrets, self).

(* @src rustls/src/client/tls13.rs 1681-1684 ExpectTraffic::update_rx_secret *)
Definition update_rx_secret : action (ExpectTraffic E D Q SK) Error.t ConnectionTrafficSecrets.t := λ self,
  match KeyScheduleTrafficReceive.refresh_traffic_secret (key_schedule_recv self) with
  | (recv, r) => (with_recv recv self, r)
  end.

(* @src rustls/src/client/tls13.rs 1686-1691 ExpectTraffic::handle_new_session_ticket *)
Definition handle_new_session_ticket self (message : NewSessionTicketPayloadTls13.t)
    : action X Error.t unit := handle_new_ticket_impl self message.
End methods.

(* @src rustls/src/client/tls13.rs 1700 ExpectQuicTraffic *)
Record ExpectQuicTraffic (E D Q SK : Type) := mk_quic { inner : ExpectTraffic E D Q SK }.
Arguments mk_quic {E D Q SK}.
Arguments inner {E D Q SK}.

Section quic.
Context {E D Q X SK : Type} `{!ClientEnv X SK (Tls13Session.t E D Q)}.
Notation K := (KeyScheduleTrafficSend.t E D Q).
Notation Out := (Output.t D E K X).
Implicit Types (self : ExpectQuicTraffic E D Q SK).

(* @src rustls/src/client/tls13.rs 1703-1716 ExpectQuicTraffic::handle *)
Definition handle_quic self (input : Input.t) : action Out Error.t (ExpectQuicTraffic E D Q SK) :=
  match Message.payload (Input.message input) with
  | MessagePayload.Handshake
      (HandshakeMessagePayload.mk (HandshakePayload.NewSessionTicketTls13 nst)) _ =>
      _ ← handle_new_ticket_tls13 (inner self) nst;
      mret self
  | payload =>
      fail (inappropriate_handshake_message payload [ContentType.Handshake]
              [HandshakeType.NewSessionTicket])
  end.

#[global] Instance quic_state_machine : StateMachine (ExpectQuicTraffic E D Q SK) D E K X := {|
  Connection.handle := handle_quic;
  wants_input _ := true;
  handle_without_input self := mret self;
  is_traffic _ := true;
  handle_decrypt_error _ x := x;
|}.
End quic.
End ClientTls13.

(** ** TLS 1.2 *)

Module ServerTls12.
(* @src rustls/src/server/tls12.rs 1087-1092 ExpectTraffic *)
Record ExpectTraffic := mk {
  extracted_secrets : option (result Error.t PartiallyExtractedSecrets.t);
}.

Section methods.
Context {D E K X : Type}.

(* @src rustls/src/server/tls12.rs 1097-1114 ExpectTraffic::handle *)
Definition handle (self : ExpectTraffic) (input : Input.t)
    : action (Output.t D E K X) Error.t ExpectTraffic :=
  match Message.payload (Input.message input) with
  | MessagePayload.ApplicationData payload =>
      _ ← Output.received_plaintext (DataKind.Traffic payload);
      mret self
  | payload => fail (inappropriate_message payload [ContentType.ApplicationData])
  end.

#[global] Instance state_machine : StateMachine ExpectTraffic D E K X := {|
  Connection.handle := handle;
  wants_input _ := true;
  handle_without_input self := mret self;
  is_traffic _ := true;
  handle_decrypt_error _ x := x;
|}.

(* @src rustls/src/server/tls12.rs 1120-1128 ExpectTraffic::into_external_state *)
Definition into_external_state (self : ExpectTraffic)
    : result Error.t (PartiallyExtractedSecrets.t * ExpectTraffic) :=
  match extracted_secrets self with
  | Some extracted_secrets => secrets ← extracted_secrets; Ok (secrets, mk None)
  | None => Err (Error.ApiMisuse ApiMisuse.SecretExtractionRequiresPriorOptIn)
  end.
End methods.
End ServerTls12.

Module ClientTls12.
(* @src rustls/src/client/tls12.rs 1207-1214 ExpectTraffic *)
Record ExpectTraffic := mk {
  extracted_secrets : option (result Error.t PartiallyExtractedSecrets.t);
}.

Section methods.
Context {D E K X : Type}.

(* @src rustls/src/client/tls12.rs 1217-1234 ExpectTraffic::handle *)
Definition handle (self : ExpectTraffic) (input : Input.t)
    : action (Output.t D E K X) Error.t ExpectTraffic :=
  match Message.payload (Input.message input) with
  | MessagePayload.ApplicationData payload =>
      _ ← Output.received_plaintext (DataKind.Traffic payload);
      mret self
  | payload => fail (inappropriate_message payload [ContentType.ApplicationData])
  end.

#[global] Instance state_machine : StateMachine ExpectTraffic D E K X := {|
  Connection.handle := handle;
  wants_input _ := true;
  handle_without_input self := mret self;
  is_traffic _ := true;
  handle_decrypt_error _ x := x;
|}.

(* @src rustls/src/client/tls12.rs 1240-1248 ExpectTraffic::into_external_state *)
Definition into_external_state (self : ExpectTraffic)
    : result Error.t (PartiallyExtractedSecrets.t * ExpectTraffic) :=
  match extracted_secrets self with
  | Some extracted_secrets => secrets ← extracted_secrets; Ok (secrets, mk None)
  | None => Err (Error.ApiMisuse ApiMisuse.SecretExtractionRequiresPriorOptIn)
  end.
End methods.
End ClientTls12.

(** ** The states leave the deframer and the end of the stream alone *)

Create HintDb stays_open.
#[export] Hint Resolve stays_open_bind stays_open_on_send stays_open_on_sending : stays_open.

Section laws.
Context {D E K X : Type}.
Notation Out := (Output.t D E K X).

Lemma stays_open_pure A (r : result Error.t A) : stays_open (D:=D) (E:=E) (K:=K) (X:=X) (lift r).
Proof. done. Qed.
Lemma stays_open_ret A (a : A) : stays_open (D:=D) (E:=E) (K:=K) (X:=X) (mret a).
Proof. done. Qed.
Lemma stays_open_fail A e : stays_open (D:=D) (E:=E) (K:=K) (X:=X) (fail (A:=A) e).
Proof. done. Qed.
Lemma stays_open_if A (P : Prop) `{Decision P} (m n : action Out Error.t A) :
  stays_open m → stays_open n → stays_open (if decide P then m else n).
Proof. by destruct (decide P). Qed.

Lemma stays_open_plaintext p :
  stays_open (D:=D) (E:=E) (K:=K) (X:=X) (Output.received_plaintext p).
Proof. done. Qed.
Lemma framed_plaintext p : framed (D:=D) (E:=E) (K:=K) (X:=X) (Output.received_plaintext p).
Proof. done. Qed.

Lemma stays_open_other A (m : action X Error.t A) : stays_open (D:=D) (E:=E) (K:=K) (on_other m).
Proof. intros out. unfold on_other. by destruct (m (Output.other out)). Qed.
Lemma framed_other A (m : action X Error.t A) : framed (D:=D) (E:=E) (K:=K) (on_other m).
Proof.
  intros d out. unfold on_other. cbn [set_deframer Output.with_recv Output.other].
  by destruct (m (Output.other out)).
Qed.

Lemma tickets_framed f :
  path_framed (D:=D) (modify (λ recv, with_tickets (f (ReceivePath.tls13_tickets_received recv)) recv)).
Proof. done. Qed.
Lemma stays_open_tickets f :
  stays_open (E:=E) (K:=K) (X:=X)
    (Output.on_recv (modify (λ recv : ReceivePath.t D,
       with_tickets (f (ReceivePath.tls13_tickets_received recv)) recv))).
Proof. done. Qed.
End laws.

#[export] Hint Resolve stays_open_pure stays_open_ret stays_open_fail stays_open_if : stays_open.
#[export] Hint Resolve stays_open_plaintext stays_open_other : stays_open.
#[export] Hint Resolve framed_plaintext framed_other tickets_framed : framed.

Lemma update_decrypter_framed {E D Q} (r : KeyScheduleTrafficReceive.t E D Q) :
  path_framed (KeyScheduleTrafficReceive.update_decrypter r).
Proof.
  intros d self. unfold KeyScheduleTrafficReceive.update_decrypter, KeyScheduleSuite.set_decrypter,
    mbind, action_bind, lift.
  destruct (KeyScheduleSuite.derive_next _ _) as [s| |]; [|done..].
  by destruct (KeyScheduleSuite.derive_decrypter _ _).
Qed.

Lemma stays_open_update {E D Q K X} (r : KeyScheduleTrafficReceive.t E D Q) :
  stays_open (D:=D) (E:=E) (K:=K) (X:=X) (Output.on_recv (KeyScheduleTrafficReceive.update_decrypter r)).
Proof.
  intros out. unfold Output.on_recv, KeyScheduleTrafficReceive.update_decrypter,
    KeyScheduleSuite.set_decrypter, mbind, action_bind, lift.
  destruct (KeyScheduleSuite.derive_next _ _) as [s| |]; [|done..].
  by destruct (KeyScheduleSuite.derive_decrypter _ _).
Qed.
#[export] Hint Resolve update_decrypter_framed : framed.
#[export] Hint Resolve stays_open_update : stays_open.

Section server_laws.
Context {E D Q X : Type} `{!RecordEncrypter E, !PkiTypes}.
Notation K := (KeyScheduleTrafficSend.t E D Q).

Lemma server_key_update_framed r i u :
  framed (X:=X) (ServerTls13.handle_key_update (E:=E) (D:=D) (Q:=Q) r i u).
Proof. unfold ServerTls13.handle_key_update. case_match; eauto 12 with framed. Qed.
Lemma server_key_update_open r i u :
  stays_open (X:=X) (ServerTls13.handle_key_update (E:=E) (D:=D) (Q:=Q) r i u).
Proof. unfold ServerTls13.handle_key_update. case_match; eauto 12 with stays_open. Qed.
Hint Resolve server_key_update_framed : framed.
Hint Resolve server_key_update_open : stays_open.

#[global] Instance server_tls13_laws : StateMachineLaws (ServerTls13.ExpectTraffic E D Q) D E K X.
Proof.
  split; intros st; try done; intros i; cbn [handle ServerTls13.state_machine]; unfold ServerTls13.handle;
    repeat case_match; auto 8 with framed stays_open.
Qed.

#[global] Instance server_quic_laws K' : StateMachineLaws ServerTls13.ExpectQuicTraffic D E K' X.
Proof. by split. Qed.
End server_laws.

Section client_laws.
Context {E D Q X SK : Type} `{!RecordEncrypter E, !PkiTypes, !ClientEnv X SK (Tls13Session.t E D Q)}.
Notation K := (KeyScheduleTrafficSend.t E D Q).
Implicit Types (st : ClientTls13.ExpectTraffic E D Q SK).

Lemma client_key_update_framed st i u : framed (X:=X) (ClientTls13.handle_key_update st i u).
Proof using RecordEncrypter0. unfold ClientTls13.handle_key_update. case_match; eauto 12 with framed. Qed.
Lemma client_key_update_open st i u : stays_open (X:=X) (ClientTls13.handle_key_update st i u).
Proof using RecordEncrypter0.
  unfold ClientTls13.handle_key_update. case_match; eauto 12 with stays_open.
Qed.

Lemma client_ticket_framed st nst : framed (ClientTls13.handle_new_ticket_tls13 st nst).
Proof.
  apply framed_bind; [|auto with framed]. apply framed_on_recv.
  apply (tickets_framed (λ z, sat_add u32_MAX z 1)).
Qed.
Lemma client_ticket_open st nst : stays_open (ClientTls13.handle_new_ticket_tls13 st nst).
Proof.
  apply stays_open_bind; [|auto with stays_open]. apply (stays_open_tickets (λ z, sat_add u32_MAX z 1)).
Qed.
Hint Resolve client_key_update_framed client_ticket_framed : framed.
Hint Resolve client_key_update_open client_ticket_open : stays_open.

#[global] Instance client_tls13_laws : StateMachineLaws (ClientTls13.ExpectTraffic E D Q SK) D E K X.
Proof.
  split; intros st; try done; intros i; cbn [handle ClientTls13.state_machine]; unfold ClientTls13.handle;
    repeat case_match; auto 8 with framed stays_open.
Qed.

#[global] Instance client_quic_laws : StateMachineLaws (ClientTls13.ExpectQuicTraffic E D Q SK) D E K X.
Proof.
  split; intros st; try done; intros i; cbn [handle ClientTls13.quic_state_machine];
    unfold ClientTls13.handle_quic; repeat case_match; auto 8 with framed stays_open.
Qed.
End client_laws.

Section tls12_laws.
Context {D E K X : Type}.

#[global] Instance server_tls12_laws : StateMachineLaws ServerTls12.ExpectTraffic D E K X.
Proof.
  split; intros st; try done; intros i; cbn [handle ServerTls12.state_machine]; unfold ServerTls12.handle;
    case_match; auto 8 with framed stays_open.
Qed.

#[global] Instance client_tls12_laws : StateMachineLaws ClientTls12.ExpectTraffic D E K X.
Proof.
  split; intros st; try done; intros i; cbn [handle ClientTls12.state_machine]; unfold ClientTls12.handle;
    case_match; auto 8 with framed stays_open.
Qed.
End tls12_laws.
