(* ===== verification/ClientHs13.v ===== *)
(** * The TLS 1.3 client handshake ([rustls/src/client/tls13.rs])

    From the ServerHello to application traffic: one definition per handler of a state.
    A handler consumes its state, so that it returns the next one. *)
From stdpp Require Import gmap.
From S2P Require Import Prelude Enums Errors Codec Records Fragmenter Deframer Extensions Payloads.
From S2P Require Import ServerHello ClientHello Messages Cipher Send Receive InputBuffer Connection.
From S2P Require Import ConnectionSpec Hkdf KeySchedule Sessions Compress Verify Kx QuicKeys Transcript.
From S2P Require Import Traffic Outputs ClientConfig Ech.

(** [require_handshake_msg!]: [f] picks the payload. *)
(* @src rustls/src/check.rs 10-38 require_handshake_msg *)
Definition require_handshake_msg {A} (m : Message.t) (f : HandshakePayload.t → option A)
    (handshake_type : HandshakeType.t) : result Error.t A :=
  match Message.payload m with
  | MessagePayload.Handshake parsed _ =>
      match f (HandshakeMessagePayload.inner parsed) with
      | Some a => Ok a
      | None => Err (inappropriate_handshake_message (Message.payload m) [ContentType.Handshake]
                       [handshake_type])
      end
  | payload => Err (inappropriate_handshake_message payload [ContentType.Handshake] [handshake_type])
  end.

(** The handshake payload of a message, if it is one. *)
Definition handshake_payload (m : Message.t) : option HandshakePayload.t :=
  match Message.payload m with
  | MessagePayload.Handshake parsed _ => Some (HandshakeMessagePayload.inner parsed)
  | _ => None
  end.

Module ConnectionRandoms.
(* @src rustls/src/conn/mod.rs 647-651 ConnectionRandoms *)
Record t := mk { client : list u8; server : list u8 }.

(* @src rustls/src/conn/mod.rs 654-659 ConnectionRandoms::new *)
Definition new (client server : Random.t) : t := mk (Random.bytes client) (Random.bytes server).
End ConnectionRandoms.

(** ** Data *)

Module GroupAndKeyShare.
Section share.
Context `{Provider}.
(* @src rustls/src/client/hs.rs 966-969 GroupAndKeyShare *)
Record t := mk { group : SupportedKxGroup.t world; share : StartedKeyExchange.t }.

(* @src rustls/src/client/hs.rs 972-977 GroupAndKeyShare::new *)
Definition new (group : SupportedKxGroup.t world) : action world Error.t t :=
  share ← SupportedKxGroup.start group; mret (mk group share).
End share.
End GroupAndKeyShare.

Module ClientHelloInput.
Section data.
Context `{Provider}.
(* @src rustls/src/client/hs.rs 442-452 ClientHelloInput *)
Record t := mk {
  config : ClientConfig.t;
  resuming : option (Retrieved.t ClientSessionValue.t);
  random : Random.t;
  sent_tls13_fake_ccs : bool;
  hello : ClientHelloDetails.t;
  protocol : Protocol.t;
  session_id : SessionId.t;
  session_key : ClientSessionKey.t;
  prev_ech_ext : option EncryptedClientHello.t;
}.
End data.
End ClientHelloInput.

Module ExpectServerHello.
Section data.
Context `{Provider}.
(* @src rustls/src/client/hs.rs 107-123 ExpectServerHello *)
Record t := mk {
  input : ClientHelloInput.t;
  transcript_buffer : HandshakeHashBuffer.t;
  early_data_key_schedule : option (KeyScheduleEarly.t enc dec quic_alg * bool);
  offered_key_share : option GroupAndKeyShare.t;
  suite : option SupportedCipherSuite.t;
  ech_state : option EchState.t;
  ech_status : EchStatus.t;
  done_retry : bool;
}.
End data.
End ExpectServerHello.

Module HandshakeState.
Section data.
Context `{Provider}.
(* @src rustls/src/client/tls13.rs 1531-1538 HandshakeState *)
Record t := mk {
  config : ClientConfig.t;
  session_key : ClientSessionKey.t;
  randoms : ConnectionRandoms.t;
  transcript : HandshakeHash.t;
  key_schedule : KeyScheduleHandshake.t enc dec quic_alg;
  kx_group : NamedGroup.t;
}.
Definition with_transcript (v : HandshakeHash.t) (self : t) : t :=
  mk (config self) (session_key self) (randoms self) v (key_schedule self) (kx_group self).
Definition add_message (m : Message.t) (self : t) : t :=
  with_transcript (HandshakeHash.add_message m (transcript self)) self.
End data.
End HandshakeState.

Module EchOutcome.
(** The struct [Ech]. *)
(* @src rustls/src/client/tls13.rs 1762-1765 Ech *)
Record t := mk { retry_configs : option (list EchConfigPayload.t); status : EchStatus.t }.
End EchOutcome.

Section states.
Context `{Provider}.
Notation Suite := (Tls13ProtocolSuite.t enc dec quic_alg).
Notation QuicParams := (option (SizedPayload PayloadSize.U16 Cardinality.MaybeEmpty)).

(* @src rustls/src/client/tls13.rs 510-517 ExpectEncryptedExtensions *)
Record ExpectEncryptedExtensions := mk_ee {
  ee_hs : HandshakeState.t;
  ee_resuming_session : option session13;
  ee_suite : Suite;
  ee_hello : ClientHelloDetails.t;
  ee_ech_status : EchStatus.t;
  ee_in_early_traffic : bool;
}.

(** Four structs that differ in what they accept; those of ours that follow each other
    have the same fields. *)
(* @src rustls/src/client/tls13.rs 838-845 ExpectCertificateOrCertReq *)
Record ExpectCertificateOrCertReq := mk_cocr {
  cocr_hs : HandshakeState.t;
  cocr_suite : Suite;
  cocr_quic_params : QuicParams;
  cocr_ech : EchOutcome.t;
  cocr_expected_certificate_type : CertificateType.t;
  cocr_negotiated_client_type : option CertificateType.t;
}.

(* @src rustls/src/client/tls13.rs 1055-1062 ExpectCertificate *)
Record ExpectCertificate := mk_cert {
  cert_hs : HandshakeState.t;
  cert_suite : Suite;
  cert_quic_params : QuicParams;
  cert_client_auth : option ClientAuthDetails.t;
  cert_ech : EchOutcome.t;
  cert_expected_certificate_type : CertificateType.t;
}.

(* @src rustls/src/client/tls13.rs 1121-1130 ExpectCertificateVerify *)
Record ExpectCertificateVerify := mk_cv {
  cv_hs : HandshakeState.t;
  cv_suite : Suite;
  cv_quic_params : QuicParams;
  cv_server_cert : ServerCertDetails.t;
  cv_client_auth : option ClientAuthDetails.t;
  cv_ech : EchOutcome.t;
  cv_expected_certificate_type : CertificateType.t;
}.

(* @src rustls/src/client/tls13.rs 1180-1190 AwaitServerIdentityVerification *)
Record AwaitServerIdentityVerification := mk_await {
  aw_hs : HandshakeState.t;
  aw_suite : Suite;
  aw_quic_params : QuicParams;
  aw_ocsp_response : list u8;
  aw_client_auth : option ClientAuthDetails.t;
  aw_ech : EchOutcome.t;
  aw_peer_identity : Identity.t;
  aw_cert_verify : DigitallySignedStruct.t;
  aw_handshake_hash : list u8;
}.

(** The marker [sig_verified] has no content. *)
(* @src rustls/src/client/tls13.rs 1337-1344 ExpectFinished *)
Record ExpectFinished := mk_fin {
  fin_hs : HandshakeState.t;
  fin_session_input : Tls13ClientSessionInput.t enc dec quic_alg;
  fin_client_auth : option ClientAuthDetails.t;
  fin_ech : EchOutcome.t;
  fin_in_early_traffic : bool;
}.

(** The states that [ClientState::Tls13] boxes, and [VerifyServerIdentity]. *)
Inductive State13 :=
| EncryptedExtensions (st : ExpectEncryptedExtensions)
| CertificateOrCompressedCertificateOrCertReq (st : ExpectCertificateOrCertReq)
| CertificateOrCompressedCertificate (st : ExpectCertificate)
| CertificateOrCertReq (st : ExpectCertificateOrCertReq)
| Certificate (st : ExpectCertificate)
| CertificateVerify (st : ExpectCertificateVerify)
| VerifyServerIdentity (st : AwaitServerIdentityVerification)
| Finished (st : ExpectFinished)
| Traffic13 (st : ClientTls13.ExpectTraffic enc dec quic_alg ClientSessionKey.t)
| QuicTraffic13 (st : ClientTls13.ExpectQuicTraffic enc dec quic_alg ClientSessionKey.t).
End states.

(** ** Key exchange *)

Module KeyExchangeChoice.
(* @src rustls/src/client/tls13.rs 292-295 KeyExchangeChoice *)
Inductive t :=
| Whole (akx : ActiveKeyExchange.t)
| Component (akx : HybridKeyExchange.t).

(* @src rustls/src/client/tls13.rs 331-336 KeyExchangeChoice::complete *)
Definition complete (self : t) (peer_pub_key : list u8) : result Error.t SharedSecret.t :=
  match self with
  | Whole akx => ActiveKeyExchange.complete akx peer_pub_key
  | Component akx => HybridKeyExchange.complete_component akx peer_pub_key
  end.

(** [None] is [Err(())]; the group used is output before. *)
(* @src rustls/src/client/tls13.rs 298-329 KeyExchangeChoice::new *)
Definition new `{Provider} (config : ClientConfig.t) (our_key_share : GroupAndKeyShare.t)
    (their_key_share : KeyShareEntry.t) : hs ClientSide.t (option t) :=
  let share := GroupAndKeyShare.share our_key_share in
  if decide (ActiveKeyExchange.group (StartedKeyExchange.into_single share)
             = KeyShareEntry.group their_key_share)
  then
    _ ← output (OutputEvent.KeyExchangeGroup (GroupAndKeyShare.group our_key_share));
    mret (Some (Whole (StartedKeyExchange.into_single share)))
  else
    match SupportedKxGroup.as_hybrid_checked share
            (CryptoProvider.kx_groups (ClientConfig.provider config)) ProtocolVersion.TLSv1_3 with
    | None => mret None
    | Some (hybrid_key_share, actual_skxg) =>
        if decide ((HybridKeyExchange.component hybrid_key_share).1 ≠ KeyShareEntry.group their_key_share)
        then mret None
        else
          match share with
          | StartedKeyExchange.Hybrid hybrid_key_share =>
              _ ← output (OutputEvent.KeyExchangeGroup actual_skxg);
              mret (Some (Component hybrid_key_share))
          | StartedKeyExchange.Single _ => mret None
          end
    end.
End KeyExchangeChoice.

(* @src rustls/src/client/tls13.rs 1767-1772 ALLOWED_PLAINTEXT_EXTS *)
Definition ALLOWED_PLAINTEXT_EXTS : list ExtensionType.t :=
  [ExtensionType.KeyShare; ExtensionType.PreSharedKey; ExtensionType.SupportedVersions].

(** Errors as results. *)
Definition misbehaved {A} (e : PeerMisbehaved.t) : result Error.t A := Err (Error.PeerMisbehaved e).

(** [return Err(e)] if the condition holds. *)
Definition refuse_if {S} (b : bool) (e : Error.t) : action S Error.t unit :=
  if b then fail e else mret tt.

Section client.
Context `{ClientWorld} `{!HpkeSealer}.
Notation chs := (hs ClientSide.t).
Notation Suite := (Tls13ProtocolSuite.t enc dec quic_alg).

(* @src rustls/src/client/tls13.rs 339-363 initial_key_share *)
Definition initial_key_share (config : ClientConfig.t) (session_key : ClientSessionKey.t)
    : action world Error.t GroupAndKeyShare.t :=
  hint ← (λ w, match kx_hint session_key w with (w, h) => (w, Ok h) end);
  let group := group_name ← hint;
    CryptoProvider.find_kx_group (ClientConfig.provider config) group_name ProtocolVersion.TLSv1_3 in
  group ← lift (match group with
                | Some group => Ok group
                | None => unwrap (head (CryptoProvider.kx_groups (ClientConfig.provider config)))
                end);
  GroupAndKeyShare.new group.

(** Returns the extensions and whether early data is enabled. *)
(* @src rustls/src/client/tls13.rs 398-440 prepare_resumption *)
Definition prepare_resumption13 (config : ClientConfig.t) (resuming_session : Retrieved.t session13)
    (exts : ClientExtensions.t) (doing_retry : bool) : chs (ClientExtensions.t * bool) :=
  let session := Retrieved.value resuming_session in
  let resuming_suite := Tls13ProtocolSuite.suite (Tls13Session.suite session) in
  _ ← output (OutputEvent.CipherSuite (SupportedCipherSuite.Tls13 resuming_suite));
  let max_early_data_size := Tls13Session.max_early_data_size session in
  '(exts, early_data_enabled) ←
    (if ClientConfig.enable_early_data config && bool_decide (0 < max_early_data_size)%Z
        && negb doing_retry
     then
       _ ← emit (Event.EarlyData (EarlyDataEvent.Enable (Z.to_nat max_early_data_size)));
       mret (Exts.set_early_data_request (Some tt) exts, true)
     else mret (exts, false));
  let obfuscated_ticket_age := Retrieved.obfuscated_ticket_age resuming_session in
  let binder_len := Hash.output_len (CipherSuiteCommon.hash_provider
                                       (Tls13CipherSuite.common resuming_suite)) in
  let psk_identity :=
    PresharedKeyIdentity.mk
      (mkSizedPayload (sp_inner (ClientSessionCommon.ticket (Tls13Session.common session))))
      obfuscated_ticket_age in
  let psk_offer := PresharedKeyOffer.new psk_identity (replicate binder_len x00) in
  mret (Exts.set_preshared_key_offer (Some psk_offer) exts, early_data_enabled).

(** Returns [sent_tls13_fake_ccs]. *)
(* @src rustls/src/client/tls13.rs 474-495 emit_fake_ccs *)
Definition emit_fake_ccs (sent_tls13_fake_ccs : bool) : chs bool :=
  quic ← has_quic;
  if quic : bool then mret sent_tls13_fake_ccs
  else if sent_tls13_fake_ccs then mret true
  else
    _ ← send_msg (Message.mk (EncodableVersion.Legacy ProtocolVersion.TLSv1_3)
                    (MessagePayload.ChangeCipherSpec ChangeCipherSpecPayload.mk)) false;
    mret true.

(* @src rustls/src/client/tls13.rs 442-472 derive_early_traffic_secret *)
Definition derive_early_traffic_secret (will_log : string → bool) (hash_alg : Hash.t)
    (early_key_schedule : KeyScheduleEarly.t enc dec quic_alg) (sent_tls13_fake_ccs : bool)
    (transcript_buffer : HandshakeHashBuffer.t) (client_random : list u8) : chs bool :=
  sent_tls13_fake_ccs ← emit_fake_ccs sent_tls13_fake_ccs;
  let client_hello_hash := HandshakeHashBuffer.hash_given transcript_buffer hash_alg [] in
  '(encrypter, secret) ← on_log (KeyScheduleEarly.client_early_encrypter early_key_schedule
                                   client_hello_hash will_log client_random);
  _ ← with_quic (modify (Quic.set_early_secret (Some secret)));
  _ ← set_encrypter encrypter;
  exporter ← on_log (KeyScheduleEarly.early_exporter early_key_schedule client_hello_hash will_log
                       client_random);
  _ ← output (OutputEvent.EarlyExporter (KeyScheduleExporter.derive exporter));
  _ ← emit (Event.EarlyData EarlyDataEvent.Start);
  mret sent_tls13_fake_ccs.

(** [process_alpn_protocol] of [hs.rs]. *)
(* @src rustls/src/client/hs.rs 1056-1080 process_alpn_protocol *)
Definition process_alpn_protocol (offered_protocols : list ApplicationProtocol.t)
    (selected : option ApplicationProtocol.t) (check_selected_offered : bool) : chs unit :=
  match selected with
  | Some alpn_protocol =>
      if check_selected_offered && bool_decide (alpn_protocol ∉ offered_protocols)
      then fail (Error.PeerMisbehaved PeerMisbehaved.SelectedUnofferedApplicationProtocol)
      else output (OutputEvent.ApplicationProtocol alpn_protocol)
  | None => mret tt
  end.

(** ** ServerHello *)

(** The key schedule of the handshake, whether early data flows, and the session that is
    resumed. *)
(* @src rustls/src/client/tls13.rs 138-184 handle_server_hello::match *)
Definition choose_psk (suite : Suite) (server_hello : ServerHelloPayload.t)
    (early_data_key_schedule : option (KeyScheduleEarly.t enc dec quic_alg * bool))
    (resuming_session : option session13)
    : chs (KeySchedulePreHandshake.t enc dec quic_alg * bool * option session13) :=
  match ServerExtensions.preshared_key (ServerHelloPayload.extensions server_hello),
        early_data_key_schedule with
  | Some selected_psk, Some (early_key_schedule, in_early_traffic) =>
      match resuming_session with
      | Some resuming =>
          match Tls13CipherSuite.can_resume_from (Tls13ProtocolSuite.suite suite)
                  (Tls13ProtocolSuite.suite (Tls13Session.suite resuming)) with
          | None =>
              fail (Error.PeerMisbehaved PeerMisbehaved.ResumptionOfferedWithIncompatibleCipherSuite)
          | Some resuming_suite =>
              _ ← refuse_if (in_early_traffic
                    && bool_decide (CipherSuiteCommon.suite (Tls13CipherSuite.common resuming_suite)
                                    ≠ CipherSuiteCommon.suite (Tls13CipherSuite.common
                                        (Tls13ProtocolSuite.suite suite))))
                    (Error.PeerMisbehaved PeerMisbehaved.EarlyDataOfferedWithVariedCipherSuite);
              _ ← refuse_if (bool_decide (selected_psk ≠ 0%Z))
                    (Error.PeerMisbehaved PeerMisbehaved.SelectedInvalidPsk);
              mret (KeySchedulePreHandshake.from early_key_schedule, in_early_traffic,
                    resuming_session)
          end
      | None => fail (Error.PeerMisbehaved PeerMisbehaved.SelectedUnofferedPsk)
      end
  | _, _ =>
      _ ← emit (Event.EarlyData EarlyDataEvent.Rejected);
      schedule ← lift (KeySchedulePreHandshake.new Side.Client suite);
      mret (schedule, false, None)
  end.

(** Whether ECH was accepted, and what goes on with the handshake: the transcript, the
    client random, the sent extensions and the name of the server. *)
(* @src rustls/src/client/tls13.rs 189-225 handle_server_hello::match *)
Definition check_ech (ech_state : option EchState.t) (ech_status : EchStatus.t)
    (key_schedule : KeyScheduleHandshakeStart.t enc dec quic_alg) (server_hello : ServerHelloPayload.t)
    (message : Message.t) (hash : Hash.t) (transcript : HandshakeHash.t) (randoms : ConnectionRandoms.t)
    (hello : ClientHelloDetails.t) (session_key : ClientSessionKey.t)
    : chs (EchStatus.t * HandshakeHash.t * ConnectionRandoms.t * ClientHelloDetails.t * ClientSessionKey.t) :=
  match ech_state with
  | None => mret (ech_status, transcript, randoms, hello, session_key)
  | Some ech_state =>
      match Message.payload message with
      | MessagePayload.Handshake _ server_hello_encoded =>
          '(server_name, accepted) ←
            lift (EchState.confirm_acceptance ech_state key_schedule server_hello server_hello_encoded
                    hash (ClientSessionKey.server_name session_key));
          let session_key := ClientSessionKey.mk (ClientSessionKey.config_hash session_key) server_name in
          let '(ech_status, transcript, randoms, hello) :=
            match accepted with
            | Some accepted =>
                (EchStatus.Accepted,
                 HandshakeHash.add_message message (EchAccepted.transcript accepted),
                 ConnectionRandoms.mk (Random.bytes (EchAccepted.random accepted))
                   (ConnectionRandoms.server randoms),
                 ClientHelloDetails.mk (ClientHelloDetails.alpn_protocols hello)
                   (EchAccepted.sent_extensions accepted)
                   (ClientHelloDetails.extension_order_seed hello)
                   (ClientHelloDetails.offered_cert_compression hello)
                   (ClientHelloDetails.offered_cipher_suites hello))
            | None => (EchStatus.Rejected, transcript, randoms, hello)
            end in
          _ ← emit (Event.EchStatus ech_status);
          mret (ech_status, transcript, randoms, hello, session_key)
      | _ => panic
      end
  end.

(** [Tls13ProtocolSuite] of a suite, for the protocol of the connection. *)
Definition protocol_suite (suite : Tls13CipherSuite.t enc dec quic_alg) (protocol : Protocol.t)
    : result Error.t Suite :=
  match protocol with
  | Protocol.Tcp => Ok (Tls13ProtocolSuite.Tcp suite)
  | Protocol.Quic _ =>
      match QuicSuite.try_from suite with
      | Ok s => Ok (Tls13ProtocolSuite.Quic (QuicSuite.inner s) (QuicSuite.quic s))
      | Err e => Err (Error.ApiMisuse e)
      | Panic => Panic
      end
  end.

Definition handshake_kind (resumed done_retry : bool) : HandshakeKind.t :=
  match resumed, done_retry with
  | true, true => HandshakeKind.ResumedWithHelloRetryRequest
  | false, true => HandshakeKind.FullWithHelloRetryRequest
  | true, false => HandshakeKind.Resumed
  | false, false => HandshakeKind.Full
  end.

(** The session of TLS 1.3 to be resumed, if any. *)
Definition resuming13 (resuming : option (Retrieved.t ClientSessionValue.t)) : option session13 :=
  resuming ← resuming; ClientSessionValue.tls13 (Retrieved.value resuming).

(* @src rustls/src/client/tls13.rs 69-287 Handler::handle_server_hello *)
Definition handle_server_hello (suite : Tls13CipherSuite.t enc dec quic_alg)
    (server_hello : ServerHelloPayload.t) (input : Input.t) (st : ExpectServerHello.t)
    : chs ExpectEncryptedExtensions :=
  let hash := CipherSuiteCommon.hash_provider (Tls13CipherSuite.common suite) in
  let transcript := HandshakeHashBuffer.start_hash (ExpectServerHello.transcript_buffer st) hash in
  let transcript := HandshakeHash.add_message (Input.message input) transcript in
  let hi := ExpectServerHello.input st in
  let randoms := ConnectionRandoms.new (ClientHelloInput.random hi)
                   (ServerHelloPayload.random server_hello) in
  let exts := ServerHelloPayload.extensions server_hello in
  _ ← refuse_if (existsb (λ ext, is_recognized ext && bool_decide (ext ∉ ALLOWED_PLAINTEXT_EXTS))
                   (received_types exts))
        (Error.PeerMisbehaved PeerMisbehaved.UnexpectedCleartextExtension);
  _ ← refuse_if (negb (SessionId.eq (ServerHelloPayload.session_id server_hello)
                         (ClientHelloInput.session_id hi)))
        (Error.PeerMisbehaved PeerMisbehaved.UnmatchedSessionId);
  their_key_share ← lift (ok_or (ServerExtensions.key_share exts)
                            (Error.PeerMisbehaved PeerMisbehaved.MissingKeyShare));
  let config := ClientHelloInput.config hi in
  our_key_share ← lift (unwrap (ExpectServerHello.offered_key_share st));
  choice ← KeyExchangeChoice.new config our_key_share their_key_share;
  our_key_share ← lift (ok_or choice (Error.PeerMisbehaved PeerMisbehaved.WrongGroupForKeyShare));
  suite ← lift (protocol_suite suite (ClientHelloInput.protocol hi));
  '(key_schedule_pre_handshake, in_early_traffic, resuming_session) ←
    choose_psk suite server_hello (ExpectServerHello.early_data_key_schedule st)
      (resuming13 (ClientHelloInput.resuming hi));
  shared_secret ← lift (KeyExchangeChoice.complete our_key_share
                          (sp_inner (KeyShareEntry.payload their_key_share)));
  key_schedule ← lift (KeySchedulePreHandshake.into_handshake key_schedule_pre_handshake
                         (SharedSecret.secret_bytes shared_secret));
  '(ech_status, transcript, randoms, hello, session_key) ←
    check_ech (ExpectServerHello.ech_state st) (ExpectServerHello.ech_status st) key_schedule
      server_hello (Input.message input) hash transcript randoms (ClientHelloInput.hello hi)
      (ClientHelloInput.session_key hi);
  _ ← lift (Input.check_aligned_handshake input);
  secrets ← on_log (KeyScheduleHandshakeStart.derive_client_handshake_secrets key_schedule
                      (HandshakeHash.current_hash transcript) suite (ClientConfig.will_log config)
                      (ConnectionRandoms.client randoms));
  let key_schedule := HandshakeSecrets.key_schedule secrets in
  _ ← (match HandshakeSecrets.quic secrets with
       | Some update => with_quic (Quic.handshake_secrets update)
       | None => mret tt
       end);
  _ ← set_record_decrypter (HandshakeSecrets.cipher secrets);
  _ ← (if negb in_early_traffic
       then e ← lift (KeyScheduleHandshake.handshake_encrypter key_schedule); set_encrypter e
       else mret tt);
  _ ← emit_fake_ccs (ClientHelloInput.sent_tls13_fake_ccs hi);
  _ ← output (OutputEvent.HandshakeKind
        (handshake_kind (bool_decide (is_Some resuming_session)) (ExpectServerHello.done_retry st)));
  mret (mk_ee (HandshakeState.mk config session_key randoms transcript key_schedule
                 (KeyShareEntry.group their_key_share))
          resuming_session suite hello ech_status in_early_traffic).
End client.

(** ** EncryptedExtensions *)

Section extensions.
Context `{ClientWorld} `{!HpkeSealer}.
Notation chs := (hs ClientSide.t).

(* @src rustls/src/client/tls13.rs 497-508 validate_encrypted_extensions *)
Definition validate_encrypted_extensions (hello : ClientHelloDetails.t) (exts : EncryptedExtensions.t)
    : result Error.t unit :=
  if ClientHelloDetails.server_sent_unsolicited_extensions hello (ee_received_types exts) []
  then misbehaved PeerMisbehaved.UnsolicitedEncryptedExtension
  else Ok tt.

(* @src rustls/src/client/tls13.rs 686-701 check_cert_type *)
Definition check_cert_type (client_supported : list CertificateType.t)
    (server_negotiated : option CertificateType.t) : result Error.t unit :=
  let bad := Err (Error.PeerIncompatible PeerIncompatible.IncorrectCertificateTypeExtension) in
  match server_negotiated with
  | None =>
      if decide (client_supported = [] ∨ CertificateType.X509 ∈ client_supported) then Ok tt else bad
  | Some ct => if decide (ct ∈ client_supported) then Ok tt else bad
  end.

(** The retry configurations to report, if ECH was rejected. *)
(* @src rustls/src/client/tls13.rs 575-588 ExpectEncryptedExtensions::handle::match *)
Definition ech_retry_configs (ech_status : EchStatus.t) (ack : option ServerEncryptedClientHello.t)
    : result Error.t (option (list EchConfigPayload.t)) :=
  match ech_status, ack with
  | EchStatus.NotOffered, Some _ | EchStatus.Accepted, Some _ =>
      misbehaved PeerMisbehaved.UnsolicitedEchExtension
  | EchStatus.Rejected, ext => Ok (ServerEncryptedClientHello.retry_configs <$> ext)
  | _, _ => Ok None
  end.

(** [if let Some(quic) = output.quic()]: the peer's transport parameters. *)
(* @src rustls/src/client/tls13.rs 596-607 ExpectEncryptedExtensions::handle::match *)
Definition take_quic_params (transport_parameters : option Payload)
    : chs (option (SizedPayload PayloadSize.U16 Cardinality.MaybeEmpty)) :=
  quic ← has_quic;
  if quic : bool then
    quic_params ← lift (ok_or transport_parameters
                          (Error.PeerMisbehaved PeerMisbehaved.MissingQuicTransportParameters));
    _ ← with_quic (modify (Quic.transport_parameters quic_params));
    mret (Some (mkSizedPayload quic_params))
  else mret None.

(** The server's verdict on early data; whether it goes on. *)
(* @src rustls/src/client/tls13.rs 611-625 ExpectEncryptedExtensions::handle::match *)
Definition early_data_verdict (key_schedule : KeyScheduleHandshake.t enc dec quic_alg)
    (in_early_traffic : bool) (early_data_ack : option unit) : chs bool :=
  if in_early_traffic then
    match early_data_ack with
    | Some _ => _ ← emit (Event.EarlyData EarlyDataEvent.Accepted); mret true
    | None =>
        _ ← emit (Event.EarlyData EarlyDataEvent.Rejected);
        e ← lift (KeyScheduleHandshake.handshake_encrypter key_schedule);
        _ ← set_encrypter e;
        mret false
    end
  else mret false.

(* @src rustls/src/client/tls13.rs 520-677 ExpectEncryptedExtensions::handle *)
Definition handle_ee (self : ExpectEncryptedExtensions) (input : Input.t) : chs State13 :=
  let message := Input.message input in
  exts ← lift (require_handshake_msg message
                 (λ p, match p with HandshakePayload.EncryptedExtensions e => Some e | _ => None end)
                 HandshakeType.EncryptedExtensions);
  let hs := HandshakeState.add_message message (ee_hs self) in
  let config := HandshakeState.config hs in
  _ ← lift (validate_encrypted_extensions (ee_hello self) exts);
  let selected_alpn := SingleProtocolName.inner <$> EncryptedExtensions.selected_protocol exts in
  let alpn_protocols := ClientHelloDetails.alpn_protocols (ee_hello self) in
  _ ← process_alpn_protocol alpn_protocols selected_alpn (ClientConfig.check_selected_alpn config);
  _ ← refuse_if (Tls13ProtocolSuite.is_quic (KeyScheduleSuite.state
                    (KeySchedule.inner (KeyScheduleHandshake.ks (HandshakeState.key_schedule hs))))
                 && bool_decide (selected_alpn = None) && bool_decide (alpn_protocols ≠ []))
        Error.NoApplicationProtocol;
  _ ← lift (check_cert_type (ClientCredentialResolver.supported_certificate_types
                               (ClientConfig.resolver config))
              (EncryptedExtensions.client_certificate_type exts));
  _ ← lift (check_cert_type (ServerVerifier.supported_certificate_types (ClientConfig.verifier config))
              (EncryptedExtensions.server_certificate_type exts));
  retry_configs ← lift (ech_retry_configs (ee_ech_status self)
                          (EncryptedExtensions.encrypted_client_hello_ack exts));
  let ech := EchOutcome.mk retry_configs (ee_ech_status self) in
  quic_params ← take_quic_params (EncryptedExtensions.transport_parameters exts);
  match ee_resuming_session self with
  | Some resuming_session =>
      in_early_traffic ← early_data_verdict (HandshakeState.key_schedule hs) (ee_in_early_traffic self)
                           (EncryptedExtensions.early_data_ack exts);
      let peer_identity := ClientSessionCommon.peer_identity (Tls13Session.common resuming_session) in
      mret (Finished (mk_fin hs (Tls13ClientSessionInput.mk (ee_suite self) peer_identity quic_params)
                        None ech in_early_traffic))
  | None =>
      _ ← refuse_if (bool_decide (is_Some (EncryptedExtensions.early_data_ack exts)))
            (Error.PeerMisbehaved PeerMisbehaved.EarlyDataExtensionWithoutResumption);
      let expected_certificate_type :=
        default CertificateType.X509 (EncryptedExtensions.server_certificate_type exts) in
      let next := mk_cocr hs (ee_suite self) quic_params ech expected_certificate_type
                    (EncryptedExtensions.client_certificate_type exts) in
      mret (if ClientHelloDetails.offered_cert_compression (ee_hello self)
            then CertificateOrCompressedCertificateOrCertReq next else CertificateOrCertReq next)
  end.
End extensions.

(** ** Certificates *)

Section certificates.
Context `{ClientWorld} `{!HpkeSealer}.
Notation chs := (hs ClientSide.t).

(* @src rustls/src/client/tls13.rs 1075-1102 ExpectCertificate::handle_cert_payload *)
Definition handle_cert_payload (self : ExpectCertificate) (cert_chain : CertificatePayloadTls13.t)
    : result Error.t State13 :=
  if decide (sp_inner (CertificatePayloadTls13.context cert_chain) ≠ [])
  then Err (Error.InvalidMessage InvalidMessage.InvalidCertRequest)
  else
    let end_entity_ocsp := CertificatePayloadTls13.end_entity_ocsp cert_chain in
    let server_cert := ServerCertDetails.mk (CertificatePayloadTls13.into_certificate_chain cert_chain)
                         end_entity_ocsp in
    Ok (CertificateVerify (mk_cv (cert_hs self) (cert_suite self) (cert_quic_params self) server_cert
                             (cert_client_auth self) (cert_ech self)
                             (cert_expected_certificate_type self))).

Definition cert_add_message (m : Message.t) (self : ExpectCertificate) : ExpectCertificate :=
  mk_cert (HandshakeState.add_message m (cert_hs self)) (cert_suite self) (cert_quic_params self)
    (cert_client_auth self) (cert_ech self) (cert_expected_certificate_type self).

(* @src rustls/src/client/tls13.rs 1065-1073 ExpectCertificate::handle_input *)
Definition handle_cert (self : ExpectCertificate) (message : Message.t) : result Error.t State13 :=
  let self := cert_add_message message self in
  cert_chain ← require_handshake_msg message
    (λ p, match p with HandshakePayload.CertificateTls13 c => Some c | _ => None end)
    HandshakeType.Certificate;
  handle_cert_payload self cert_chain.

(* @src rustls/src/client/tls13.rs 1005-1052 ExpectCompressedCertificate::handle_input *)
Definition handle_compressed_cert (self : ExpectCertificate) (message : Message.t)
    : result Error.t State13 :=
  let self := cert_add_message message self in
  compressed_cert ← require_handshake_msg message
    (λ p, match p with HandshakePayload.CompressedCertificate c => Some c | _ => None end)
    HandshakeType.CompressedCertificate;
  let selected_decompressor :=
    snd <$> list_find (λ item, CertDecompressor.algorithm item
                               = CompressedCertificatePayload.alg compressed_cert)
              (ClientConfig.cert_decompressors (HandshakeState.config (cert_hs self))) in
  match selected_decompressor with
  | None => misbehaved PeerMisbehaved.SelectedUnofferedCertCompression
  | Some decompressor =>
      let uncompressed_len := CompressedCertificatePayload.uncompressed_len compressed_cert in
      if decide (CERTIFICATE_MAX_SIZE_LIMIT < uncompressed_len)%Z
      then Err (Error.InvalidMessage InvalidMessage.CertificatePayloadTooLarge)
      else
        match CertDecompressor.decompress_into decompressor
                (sp_inner (CompressedCertificatePayload.compressed compressed_cert))
                (Z.to_nat uncompressed_len) with
        | None => misbehaved PeerMisbehaved.InvalidCertCompression
        | Some decompress_buffer =>
            cert_payload ← map_err Error.InvalidMessage (read_bytes decompress_buffer);
            handle_cert_payload self cert_payload
        end
  end.

(* @src rustls/src/client/tls13.rs 913-992 ExpectCertificateRequest::handle_input *)
Definition handle_cert_request (self : ExpectCertificateOrCertReq) (offered_cert_compression : bool)
    (message : Message.t) : result Error.t State13 :=
  certreq ← require_handshake_msg message
    (λ p, match p with HandshakePayload.CertificateRequestTls13 c => Some c | _ => None end)
    HandshakeType.CertificateRequest;
  let hs := HandshakeState.add_message message (cocr_hs self) in
  let config := HandshakeState.config hs in
  let context := sp_inner (CertificateRequestPayloadTls13.context certreq) in
  let exts := CertificateRequestPayloadTls13.extensions certreq in
  if decide (context ≠ []) then Err (Error.InvalidMessage InvalidMessage.InvalidCertRequest)
  else
    let compat_sigschemes :=
      filter (λ s, supported_in_tls13 s = true)
        (default [] (CertificateRequestExtensions.signature_algorithms exts)) in
    if decide (compat_sigschemes = [])
    then Err (Error.PeerIncompatible PeerIncompatible.NoCertificateRequestSignatureSchemesInCommon)
    else
      let compat_compressor :=
        offered ← CertificateRequestExtensions.certificate_compression_algorithms exts;
        snd <$> list_find (λ compressor, CertCompressor.algorithm compressor ∈ offered)
                  (ClientConfig.cert_compressors config) in
      let client_auth :=
        ClientAuthDetails.resolve (default CertificateType.X509 (cocr_negotiated_client_type self))
          (ClientConfig.resolver config) (CertificateRequestExtensions.authority_names exts)
          compat_sigschemes (Some context) compat_compressor in
      let next := mk_cert hs (cocr_suite self) (cocr_quic_params self) (Some client_auth) (cocr_ech self)
                    (cocr_expected_certificate_type self) in
      Ok (if offered_cert_compression then CertificateOrCompressedCertificate next else Certificate next).

(** [ExpectCertificate] without a request for a certificate. *)
Definition no_client_auth (self : ExpectCertificateOrCertReq) : ExpectCertificate :=
  mk_cert (cocr_hs self) (cocr_suite self) (cocr_quic_params self) None (cocr_ech self)
    (cocr_expected_certificate_type self).

(** [ExpectCertificateOrCompressedCertificateOrCertReq]. *)
(* @src rustls/src/client/tls13.rs 713-769 ExpectCertificateOrCompressedCertificateOrCertReq::handle *)
Definition handle_coccocr (self : ExpectCertificateOrCertReq) (message : Message.t)
    : result Error.t State13 :=
  match handshake_payload message with
  | Some (HandshakePayload.CertificateTls13 _) => handle_cert (no_client_auth self) message
  | Some (HandshakePayload.CompressedCertificate _) =>
      handle_compressed_cert (no_client_auth self) message
  | Some (HandshakePayload.CertificateRequestTls13 _) => handle_cert_request self true message
  | _ => Err (inappropriate_handshake_message (Message.payload message) [ContentType.Handshake]
                [HandshakeType.Certificate; HandshakeType.CertificateRequest;
                 HandshakeType.CompressedCertificate])
  end.

(* @src rustls/src/client/tls13.rs 788-829 ExpectCertificateOrCompressedCertificate::handle *)
Definition handle_cocc (self : ExpectCertificate) (message : Message.t) : result Error.t State13 :=
  match handshake_payload message with
  | Some (HandshakePayload.CertificateTls13 _) => handle_cert self message
  | Some (HandshakePayload.CompressedCertificate _) => handle_compressed_cert self message
  | _ => Err (inappropriate_handshake_message (Message.payload message) [ContentType.Handshake]
                [HandshakeType.Certificate; HandshakeType.CompressedCertificate])
  end.

(* @src rustls/src/client/tls13.rs 848-890 ExpectCertificateOrCertReq::handle *)
Definition handle_cocr (self : ExpectCertificateOrCertReq) (message : Message.t)
    : result Error.t State13 :=
  match handshake_payload message with
  | Some (HandshakePayload.CertificateTls13 _) => handle_cert (no_client_auth self) message
  | Some (HandshakePayload.CertificateRequestTls13 _) => handle_cert_request self false message
  | _ => Err (inappropriate_handshake_message (Message.payload message) [ContentType.Handshake]
                [HandshakeType.Certificate; HandshakeType.CertificateRequest])
  end.

(* @src rustls/src/client/tls13.rs 1133-1170 ExpectCertificateVerify::handle *)
Definition handle_cv (self : ExpectCertificateVerify) (message : Message.t) : result Error.t State13 :=
  cert_verify ← require_handshake_msg message
    (λ p, match p with HandshakePayload.CertificateVerify c => Some c | _ => None end)
    HandshakeType.CertificateVerify;
  presented ← Identity.from_peer
                (CertificateChain.inner (ServerCertDetails.cert_chain (cv_server_cert self)))
                (cv_expected_certificate_type self);
  presented_identity ← ok_or presented (Error.PeerMisbehaved PeerMisbehaved.NoCertificatesPresented);
  let handshake_hash := HandshakeHash.current_hash (HandshakeState.transcript (cv_hs self)) in
  let hs := HandshakeState.add_message message (cv_hs self) in
  Ok (VerifyServerIdentity (mk_await hs (cv_suite self) (cv_quic_params self)
        (ServerCertDetails.ocsp_response (cv_server_cert self)) (cv_client_auth self) (cv_ech self)
        presented_identity cert_verify handshake_hash)).

(* @src rustls/src/client/tls13.rs 1193-1200 AwaitServerIdentityVerification::presented_identity *)
Definition presented_identity (self : AwaitServerIdentityVerification)
    : action world Error.t ServerIdentity.t :=
  now ← client_time;
  mret (ServerIdentity.mk (aw_peer_identity self)
          (ClientSessionKey.server_name (HandshakeState.session_key (aw_hs self)))
          (aw_ocsp_response self) now).

(* @src rustls/src/client/tls13.rs 1202-1207 AwaitServerIdentityVerification::verify_with_config *)
Definition verify_with_config (self : AwaitServerIdentityVerification)
    : action world Error.t Identity.t :=
  identity ← presented_identity self;
  lift (ServerVerifier.verify_identity (ClientConfig.verifier (HandshakeState.config (aw_hs self)))
          identity).

(* @src rustls/src/client/tls13.rs 1209-1238 AwaitServerIdentityVerification::continue_with *)
Definition continue_with (self : AwaitServerIdentityVerification) (peer_identity : Identity.t)
    : result Error.t State13 :=
  message ← construct_server_verify_message (aw_handshake_hash self);
  _ ← ServerVerifier.verify_tls13_signature (ClientConfig.verifier (HandshakeState.config (aw_hs self)))
        (SignatureVerificationInput.mk (VerifyMessage.as_ref message) (as_signer peer_identity)
           (aw_cert_verify self));
  Ok (Finished (mk_fin (aw_hs self)
        (Tls13ClientSessionInput.mk (aw_suite self) peer_identity (aw_quic_params self))
        (aw_client_auth self) (aw_ech self) false)).
End certificates.

(** ** The client's last flight *)

Section flight.
Context `{ClientWorld} `{!HpkeSealer}.
Notation chs := (hs ClientSide.t).

Definition with_context (auth_context : option (list u8)) (p : CertificatePayloadTls13.t)
    : CertificatePayloadTls13.t :=
  CertificatePayloadTls13.mk (mkSizedPayload (default [] auth_context))
    (CertificatePayloadTls13.entries p).

(* @src rustls/src/client/tls13.rs 1273-1289 emit_certificate_tls13 *)
Definition emit_certificate_tls13 (flight : HandshakeFlight.t)
    (credentials : option SelectedCredential.t) (auth_context : option (list u8)) : HandshakeFlight.t :=
  let cert_payload :=
    match credentials with
    | Some credentials =>
        CertificatePayloadTls13.new
          (Identity.as_certificates (SelectedCredential.identity credentials)) None
    | None => CertificatePayloadTls13.new [] None
    end in
  HandshakeFlight.add (HandshakeMessagePayload.mk (HandshakePayload.CertificateTls13
    (with_context auth_context cert_payload))) flight.

(* @src rustls/src/client/tls13.rs 1247-1271 emit_compressed_certificate_tls13 *)
Definition emit_compressed_certificate_tls13 (flight : HandshakeFlight.t)
    (credentials : SelectedCredential.t) (auth_context : option (list u8))
    (compressor : CertCompressor.t) : action world Error.t HandshakeFlight.t := λ w,
  let cert_payload :=
    with_context auth_context
      (CertificatePayloadTls13.new
         (Identity.as_certificates (SelectedCredential.identity credentials)) None) in
  match compression_for compressor cert_payload w with
  | (w, Some compressed) =>
      (w, Ok (HandshakeFlight.add (HandshakeMessagePayload.mk (HandshakePayload.CompressedCertificate
                (CompressionCacheEntry.compressed_cert_payload compressed))) flight))
  | (w, None) => (w, Ok (emit_certificate_tls13 flight (Some credentials) auth_context))
  end.

(* @src rustls/src/client/tls13.rs 1291-1305 emit_certverify_tls13 *)
Definition emit_certverify_tls13 (flight : HandshakeFlight.t) (signer : Signer.t)
    : result Error.t HandshakeFlight.t :=
  message ← construct_client_verify_message
              (HandshakeHash.current_hash (HandshakeFlight.transcript flight));
  sig ← Signer.sign signer (VerifyMessage.as_ref message);
  let dss := DigitallySignedStruct.new (Signer.scheme signer) sig in
  Ok (HandshakeFlight.add (HandshakeMessagePayload.mk (HandshakePayload.CertificateVerify dss)) flight).

(* @src rustls/src/client/tls13.rs 1307-1316 emit_finished_tls13 *)
Definition emit_finished_tls13 (flight : HandshakeFlight.t) (verify_data : list u8)
    : HandshakeFlight.t :=
  HandshakeFlight.add (HandshakeMessagePayload.mk (HandshakePayload.Finished verify_data)) flight.

(** Returns the transcript. *)
(* @src rustls/src/client/tls13.rs 1318-1335 emit_end_of_early_data_tls13 *)
Definition emit_end_of_early_data_tls13 (transcript : HandshakeHash.t) : chs HandshakeHash.t :=
  quic ← has_quic;
  if quic : bool then mret transcript
  else
    let m := Message.mk (EncodableVersion.Legacy ProtocolVersion.TLSv1_3)
               (MessagePayload.handshake (HandshakeMessagePayload.mk HandshakePayload.EndOfEarlyData)) in
    _ ← send_msg m true;
    mret (HandshakeHash.add_message m transcript).

(** Our certificate and its proof, if they were asked for: after a rejected ECH offer, an
    empty certificate. *)
(* @src rustls/src/client/tls13.rs 1393-1427 ExpectFinished::handle::match *)
Definition emit_client_auth (flight : HandshakeFlight.t) (client_auth : option ClientAuthDetails.t)
    (ech_status : EchStatus.t) : chs HandshakeFlight.t :=
  match client_auth with
  | None => mret flight
  | Some (ClientAuthDetails.Empty auth_context) =>
      mret (emit_certificate_tls13 flight None auth_context)
  | Some (ClientAuthDetails.Verify credentials auth_context compressor) =>
      if decide (ech_status = EchStatus.Rejected)
      then mret (emit_certificate_tls13 flight None auth_context)
      else
        flight ← (match compressor with
                  | Some compressor =>
                      on_world (emit_compressed_certificate_tls13 flight credentials auth_context
                                  compressor)
                  | None => mret (emit_certificate_tls13 flight (Some credentials) auth_context)
                  end);
        lift (emit_certverify_tls13 flight (SelectedCredential.signer credentials))
  end.

(** EndOfEarlyData, the last message under the early data keys. *)
(* @src rustls/src/client/tls13.rs 1379-1387 ExpectFinished::handle::match *)
Definition end_early_data (self : HandshakeState.t) (in_early_traffic : bool) : chs HandshakeHash.t :=
  if in_early_traffic then
    transcript ← emit_end_of_early_data_tls13 (HandshakeState.transcript self);
    _ ← emit (Event.EarlyData EarlyDataEvent.Finished);
    e ← lift (KeyScheduleHandshake.handshake_encrypter (HandshakeState.key_schedule self));
    _ ← set_encrypter e;
    mret transcript
  else mret (HandshakeState.transcript self).

(* @src rustls/src/client/tls13.rs 1347-1522 ExpectFinished::handle *)
Definition handle_finished (self : ExpectFinished) (input : Input.t) : chs State13 :=
  let st := fin_hs self in
  let config := HandshakeState.config st in
  finished ← lift (require_handshake_msg (Input.message input)
                     (λ p, match p with HandshakePayload.Finished f => Some f | _ => None end)
                     HandshakeType.Finished);
  _ ← lift (Input.check_aligned_handshake input);
  let handshake_hash := HandshakeHash.current_hash (HandshakeState.transcript st) in
  expect_verify_data ← lift (KeyScheduleHandshake.sign_server_finish (HandshakeState.key_schedule st)
                               handshake_hash);
  _ ← refuse_if (bool_decide (expect_verify_data ≠ finished))
        (Error.PeerMisbehaved PeerMisbehaved.IncorrectFinished);
  let st := HandshakeState.add_message (Input.message input) st in
  let hash_after_handshake := HandshakeHash.current_hash (HandshakeState.transcript st) in
  transcript ← end_early_data st (fin_in_early_traffic self);
  flight ← emit_client_auth (HandshakeFlight.new transcript) (fin_client_auth self)
             (EchOutcome.status (fin_ech self));
  '(key_schedule_pre_finished, verify_data) ←
    on_log (KeyScheduleHandshake.into_pre_finished_client_traffic (HandshakeState.key_schedule st)
              hash_after_handshake (HandshakeHash.current_hash (HandshakeFlight.transcript flight))
              (ClientConfig.will_log config) (ConnectionRandoms.client (HandshakeState.randoms st)));
  let flight := emit_finished_tls13 flight verify_data in
  _ ← HandshakeFlight.finish true flight;
  _ ← on_world (modify (set_kx_hint (HandshakeState.session_key st) (HandshakeState.kx_group st)));
  _ ← on_world (modify (remove_tls12_session (HandshakeState.session_key st)));
  secrets ← lift (KeyScheduleClientBeforeFinished.into_traffic key_schedule_pre_finished
                    (HandshakeHash.current_hash (HandshakeFlight.transcript flight)));
  _ ← set_record_decrypter (ClientTrafficSecrets.decrypter secrets);
  _ ← set_encrypter (ClientTrafficSecrets.encrypter secrets);
  _ ← (match ClientTrafficSecrets.quic secrets with
       | Some update => with_quic (Quic.traffic_secrets update)
       | None => mret tt
       end);
  let '(key_schedule_send, key_schedule_recv) :=
    KeyScheduleTraffic.split (ClientTrafficSecrets.key_schedule secrets) in
  _ ← refuse_if (bool_decide (EchOutcome.status (fin_ech self) = EchStatus.Rejected))
        (Error.RejectedEch (RejectedEch.new (bool_decide (is_Some (EchOutcome.retry_configs (fin_ech self))))));
  _ ← output (OutputEvent.PeerIdentity (Tls13ClientSessionInput.peer_identity (fin_session_input self)));
  _ ← output (OutputEvent.Exporter (KeyScheduleExporter.derive (ClientTrafficSecrets.exporter secrets)));
  _ ← Output.on_send (on_self (SendPath.update_key_schedule key_schedule_send));
  _ ← start_traffic;
  let next := ClientTls13.mk (ClientConfig.enable_secret_extraction config)
                (HandshakeState.session_key st) (fin_session_input self) key_schedule_recv
                (ClientTrafficSecrets.resumption secrets) TrafficTemperCounters.default in
  mret (if KeyScheduleTrafficReceive.is_quic key_schedule_recv
        then QuicTraffic13 (ClientTls13.mk_quic next) else Traffic13 next).
End flight.

(** ** The states together *)

Section machine.
Context `{ClientWorld} `{!HpkeSealer}.
Notation chs := (hs ClientSide.t).

(** What the states of application traffic need of the configuration. *)
#[global] Instance client_env : ClientEnv (Join.t ClientSide.t) ClientSessionKey.t session13 := {|
  time_provider j :=
    match clock (Join.outside j) with
    | (w, now) => (Join.mk (Join.outputs j) (Join.quic j) (Join.side j) (Join.key_log j) w, now)
    end;
  Traffic.insert_tls13_ticket key value j :=
    Join.mk (Join.outputs j) (Join.quic j) (Join.side j) (Join.key_log j)
      (ClientConfig.insert_tls13_ticket key value (Join.outside j));
|}.

(** [State::handle] of each state. *)
Definition handle13 (self : State13) (input : Input.t) : chs State13 :=
  let message := Input.message input in
  match self with
  | EncryptedExtensions st => handle_ee st input
  | CertificateOrCompressedCertificateOrCertReq st => lift (handle_coccocr st message)
  | CertificateOrCompressedCertificate st => lift (handle_cocc st message)
  | CertificateOrCertReq st => lift (handle_cocr st message)
  | Certificate st => lift (handle_cert st message)
  | CertificateVerify st => lift (handle_cv st message)
  | VerifyServerIdentity _ => fail (Error.Unreachable "state cannot process a message")
  | Finished st => handle_finished st input
  | Traffic13 st => st ← ClientTls13.handle st input; mret (Traffic13 st)
  | QuicTraffic13 st => st ← ClientTls13.handle_quic st input; mret (QuicTraffic13 st)
  end.

Definition handle13_without_input (self : State13) : chs State13 :=
  match self with
  | VerifyServerIdentity vsi =>
      verified ← on_world (verify_with_config vsi);
      lift (continue_with vsi verified)
  | _ => mret self
  end.
End machine.
