(* ===== verification/Tls12Secrets.v ===== *)
(** * The secrets of TLS 1.2 ([rustls/src/tls12.rs], [rustls/src/crypto/tls12.rs])

    The pseudorandom function of TLS 1.2, the master secret of a connection, and what is
    derived from it: the keys of both directions, the Finished messages and exporters.
    The function over HMAC is shown to be that of RFC 5246, and the two ends of a connection
    are shown to derive each other's keys. *)
From stdpp Require Import gmap.
From S2P Require Import Prelude Enums Errors Codec Records Fragmenter Extensions Payloads ServerHello.
From S2P Require Import ClientHello Messages Cipher Send Receive Connection Hkdf KeySchedule KeyScheduleSpec Sessions.
From S2P Require Import Verify Kx QuicKeys Transcript Traffic Outputs ClientHs13.

(** ** The pseudorandom function *)

(** [dyn PrfSecret] is its method [prf]: the length of the output, label, seed. *)
Definition PrfSecret : Type := nat → list u8 → list u8 → list u8.

Module PrfUsingHmac.
(** The loop over the chunks of the output, of which [n] bytes are left: every chunk has at
    least a byte, so that [n] turns are enough. *)
(* @src rustls/src/crypto/tls12.rs 102-115 prf::for *)
Fixpoint prf_for (fuel : nat) (hmac_key : Hmac.Key) (label seed : list u8)
    (previous_a : option (list u8)) (n : nat) : list u8 :=
  match fuel, n with
  | S fuel, S _ =>
      let chunk := Nat.min (Hmac.tag_len hmac_key) n in
      let a_i :=
        match previous_a with
        | None => Hmac.sign hmac_key [label; seed]
        | Some previous_a => Hmac.sign hmac_key [previous_a]
        end in
      let p_term := Hmac.sign hmac_key [a_i; label; seed] in
      take chunk p_term ++ prf_for fuel hmac_key label seed (Some a_i) (n - chunk)
  | _, _ => []
  end.

(* @src rustls/src/crypto/tls12.rs 97-116 prf *)
Definition prf (n : nat) (hmac_key : Hmac.Key) (label seed : list u8) : list u8 :=
  prf_for n hmac_key label seed None n.

(* @src rustls/src/crypto/tls12.rs 15-35 PrfUsingHmac::for_key_exchange *)
Definition for_key_exchange (self : Hmac.t) (kx : ActiveKeyExchange.t) (peer_pub_key label seed : list u8)
    : result Error.t (list u8) :=
  secret ← ActiveKeyExchange.complete_for_tls_version kx peer_pub_key ProtocolVersion.TLSv1_2;
  Ok (prf 48 (Hmac.with_key self (SharedSecret.secret_bytes secret)) label seed).

(* @src rustls/src/crypto/tls12.rs 37-39 PrfUsingHmac::new_secret *)
Definition new_secret (self : Hmac.t) (secret : list u8) : PrfSecret :=
  λ n label seed, prf n (Hmac.with_key self secret) label seed.
End PrfUsingHmac.

(** ** The provider's part *)

Module KeyBlockShape.
(* @src rustls/src/crypto/cipher/mod.rs 116-143 KeyBlockShape *)
Record t := mk { enc_key_len : nat; fixed_iv_len : nat; explicit_nonce_len : nat }.
End KeyBlockShape.

(** The traits [Prf] and [Tls12AeadAlgorithm]. *)
Class Tls12Provider `{Provider} := {
  for_key_exchange : prf12 → ActiveKeyExchange.t → list u8 → list u8 → list u8 →
    result Error.t (list u8);
  new_secret : prf12 → list u8 → PrfSecret;
  aead12_encrypter : aead12 → AeadKey.t → list u8 → list u8 → result Error.t enc;
  aead12_decrypter : aead12 → AeadKey.t → list u8 → result Error.t dec;
  key_block_shape : aead12 → KeyBlockShape.t;
  aead12_extract_keys : aead12 → AeadKey.t → list u8 → list u8 →
    result Error.t ConnectionTrafficSecrets.t;
}.

(** What [Prf] promises: the output is filled. *)
Class Tls12ProviderLaws `{Tls12Provider} : Prop := {
  prf_length p secret n label seed : length (new_secret p secret n label seed) = n;
}.

(** ** Suites *)

Section suites.
Context {P A : Type}.

(* @src rustls/src/tls12.rs 69-78 Tls12CipherSuite::resolve_sig_schemes *)
Definition resolve_sig_schemes (self : Tls12CipherSuite.t P A) (offered : list SignatureScheme.t)
    : list SignatureScheme.t :=
  filter (λ pref, pref ∈ offered) (Tls12CipherSuite.sign self).

(* @src rustls/src/tls12.rs 110-119 Tls12CipherSuite::usable_for_signature_scheme *)
Definition usable_for_signature_scheme12 (self : Tls12CipherSuite.t P A) (scheme : SignatureScheme.t)
    : bool :=
  match scheme_algorithm scheme with
  | None => false
  | Some alg => existsb (λ s, bool_decide (scheme_algorithm s = Some alg)) (Tls12CipherSuite.sign self)
  end.
End suites.

(** ** Connections *)

(* @src rustls/src/tls12.rs 396-401 join_randoms *)
Definition join_randoms (first second : list u8) : list u8 := first ++ second.

(** [key_block.split_at(mid)]. *)
Definition split_at {E A} (l : list A) (mid : nat) : result E (list A * list A) :=
  unwrap (split_at_checked l mid).

(* @src rustls/src/tls12.rs 417 DOWNGRADE_SENTINEL *)
Definition DOWNGRADE_SENTINEL : list u8 := [x44; x4f; x57; x4e; x47; x52; x44; x01].

Module Seed.
(* @src rustls/src/tls12.rs 379-382 Seed *)
Inductive t := Ems (seed : list u8) | Randoms (randoms : list u8).

(* @src rustls/src/tls12.rs 385-393 Seed::as_ref *)
Definition as_ref (self : t) : list u8 :=
  match self with
  | Ems seed => seed
  | Randoms randoms => randoms
  end.
End Seed.

Module ConnectionSecrets.
Section methods.
Context `{Tls12Provider}.
Notation Suite := (Tls12CipherSuite.t prf12 aead12).

(* @src rustls/src/tls12.rs 148-158 ConnectionSecrets *)
Record t := mk {
  randoms : ConnectionRandoms.t;
  suite : Suite;
  master_secret : list u8;
  master_secret_prf : PrfSecret;
}.

(* @src rustls/src/tls12.rs 161-200 ConnectionSecrets::from_key_exchange *)
Definition from_key_exchange (kx : ActiveKeyExchange.t) (peer_pub_key : list u8)
    (ems_seed : option (list u8)) (randoms : ConnectionRandoms.t) (suite : Suite) : result Error.t t :=
  let '(label, seed) :=
    match ems_seed with
    | Some seed => (byte_str "extended master secret", Seed.Ems seed)
    | None => (byte_str "master secret",
               Seed.Randoms (join_randoms (ConnectionRandoms.client randoms) (ConnectionRandoms.server randoms)))
    end in
  master_secret ← for_key_exchange (Tls12CipherSuite.prf_provider suite) kx peer_pub_key label
                    (Seed.as_ref seed);
  Ok (mk randoms suite master_secret (new_secret (Tls12CipherSuite.prf_provider suite) master_secret)).

(* @src rustls/src/tls12.rs 202-215 ConnectionSecrets::new_resume *)
Definition new_resume (randoms : ConnectionRandoms.t) (suite : Suite) (master_secret : list u8) : t :=
  mk randoms suite master_secret (new_secret (Tls12CipherSuite.prf_provider suite) master_secret).

(* @src rustls/src/tls12.rs 255-269 ConnectionSecrets::make_key_block *)
Definition make_key_block (self : t) : list u8 :=
  let shape := key_block_shape (Tls12CipherSuite.aead_alg (suite self)) in
  let len := (KeyBlockShape.enc_key_len shape + KeyBlockShape.fixed_iv_len shape) * 2
             + KeyBlockShape.explicit_nonce_len shape in
  let randoms := join_randoms (ConnectionRandoms.server (randoms self))
                   (ConnectionRandoms.client (randoms self)) in
  master_secret_prf self len (byte_str "key expansion") randoms.

(** The key block, chopped up: the keys and the IVs of the client and the server, and what
    is left. *)
(* @src rustls/src/tls12.rs 222-228 ConnectionSecrets::make_cipher_pair::match *)
Definition chop (self : t) : result Error.t (list u8 * list u8 * list u8 * list u8 * list u8) :=
  let shape := key_block_shape (Tls12CipherSuite.aead_alg (suite self)) in
  '(client_write_key, key_block) ← split_at (make_key_block self) (KeyBlockShape.enc_key_len shape);
  '(server_write_key, key_block) ← split_at key_block (KeyBlockShape.enc_key_len shape);
  '(client_write_iv, key_block) ← split_at key_block (KeyBlockShape.fixed_iv_len shape);
  '(server_write_iv, extra) ← split_at key_block (KeyBlockShape.fixed_iv_len shape);
  Ok (client_write_key, server_write_key, client_write_iv, server_write_iv, extra).

(* @src rustls/src/tls12.rs 217-253 ConnectionSecrets::make_cipher_pair *)
Definition make_cipher_pair (self : t) (side : Side.t) : result Error.t (dec * enc) :=
  let aead_alg := Tls12CipherSuite.aead_alg (suite self) in
  '(client_write_key, server_write_key, client_write_iv, server_write_iv, extra) ← chop self;
  let '(write_key, write_iv, read_key, read_iv) :=
    match side with
    | Side.Client => (client_write_key, client_write_iv, server_write_key, server_write_iv)
    | Side.Server => (server_write_key, server_write_iv, client_write_key, client_write_iv)
    end in
  read_key ← AeadKey.new read_key;
  decrypter ← aead12_decrypter aead_alg read_key read_iv;
  write_key ← AeadKey.new write_key;
  encrypter ← aead12_encrypter aead_alg write_key write_iv extra;
  Ok (decrypter, encrypter).

(* @src rustls/src/tls12.rs 279-289 ConnectionSecrets::make_verify_data *)
Definition make_verify_data (self : t) (handshake_hash label : list u8) : list u8 :=
  master_secret_prf self 12 label handshake_hash.

(* @src rustls/src/tls12.rs 291-297 ConnectionSecrets::client_verify_data *)
Definition client_verify_data (self : t) (handshake_hash : list u8) : list u8 :=
  make_verify_data self handshake_hash (byte_str "client finished").

(* @src rustls/src/tls12.rs 299-305 ConnectionSecrets::server_verify_data *)
Definition server_verify_data (self : t) (handshake_hash : list u8) : list u8 :=
  make_verify_data self handshake_hash (byte_str "server finished").

(** [Tls12Exporter::derive]. *)
(* @src rustls/src/tls12.rs 355-376 Tls12Exporter::derive *)
Definition exporter_derive (randoms : ConnectionRandoms.t) (master_secret_prf : PrfSecret)
    (label : list u8) (context : option (list u8)) (n : nat) : result Error.t (list u8) :=
  let randoms := ConnectionRandoms.client randoms ++ ConnectionRandoms.server randoms in
  match context with
  | Some context =>
      if decide (Z.of_nat (length context) < 2 ^ 16)%Z
      then Ok (master_secret_prf n label
                 (randoms ++ be_bytes 2 (Z.of_nat (length context)) ++ context))
      else Err (Error.ApiMisuse ApiMisuse.ExporterContextTooLong)
  | None => Ok (master_secret_prf n label randoms)
  end.

(* @src rustls/src/tls12.rs 307-318 ConnectionSecrets::into_exporter *)
Definition into_exporter (self : t) : Exporter :=
  exporter_derive (randoms self) (master_secret_prf self).

(* @src rustls/src/tls12.rs 320-346 ConnectionSecrets::extract_secrets *)
Definition extract_secrets (self : t) (side : Side.t) : result Error.t PartiallyExtractedSecrets.t :=
  let aead_alg := Tls12CipherSuite.aead_alg (suite self) in
  '(client_key, server_key, client_iv, server_iv, explicit_nonce) ← chop self;
  client_key ← AeadKey.new client_key;
  client_secrets ← aead12_extract_keys aead_alg client_key client_iv explicit_nonce;
  server_key ← AeadKey.new server_key;
  server_secrets ← aead12_extract_keys aead_alg server_key server_iv explicit_nonce;
  let '(tx, rx) :=
    match side with
    | Side.Client => (client_secrets, server_secrets)
    | Side.Server => (server_secrets, client_secrets)
    end in
  Ok (PartiallyExtractedSecrets.mk tx rx).
End methods.
End ConnectionSecrets.

(** ** Key exchange parameters *)

(* @src rustls/src/tls12.rs 405-415 decode_kx_params *)
Definition decode_kx_params {T} (decode : KeyExchangeAlgorithm.t → reader T)
    (kx_algorithm : KeyExchangeAlgorithm.t) (kx_params : list u8) : result Error.t T :=
  '(kx_params, rd) ← map_err Error.InvalidMessage (decode kx_algorithm kx_params);
  match rd with
  | [] => Ok kx_params
  | _ => Err (Error.InvalidMessage InvalidMessage.InvalidDhParams)
  end.

(** ** What both handshakes use *)

(** A handshake message of TLS 1.2. *)
Definition message12 `{!PkiTypes} (payload : HandshakePayload.t) : Message.t :=
  Message.mk (EncodableVersion.Legacy ProtocolVersion.TLSv1_2)
    (MessagePayload.handshake (HandshakeMessagePayload.mk payload)).

(** [CertificateChain::from_signer]. *)
(* @src rustls/src/msgs/handshake.rs 569-576 CertificateChain::from_signer *)
Definition from_signer (signer : SelectedCredential.t) : CertificateChain.t :=
  CertificateChain.mk (Identity.as_certificates (SelectedCredential.identity signer)).

(* @src rustls/src/msgs/handshake.rs 941-943 ServerDhParams::as_ffdhe_group *)
Definition as_ffdhe_group (self : ServerDhParams.t) : FfdheGroup.t :=
  FfdheGroup.from_params_trimming_leading_zeros (sp_inner (ServerDhParams.dh_p self))
    (sp_inner (ServerDhParams.dh_g self)).

(** [config.key_log.log("CLIENT_RANDOM", ..)]: it is called without asking [will_log]. *)
Definition log_master_secret `{Tls12Provider} {S} (secrets : ConnectionSecrets.t) : hs S unit :=
  on_log (modify (λ log, log ++
    [KeyLog.mk "CLIENT_RANDOM" (ConnectionRandoms.client (ConnectionSecrets.randoms secrets))
       (ConnectionSecrets.master_secret secrets)])).

(** ** The pseudorandom function of RFC 5246 *)

(** [A(i)] and [P_hash], section 5. *)
Fixpoint rfc_a (mac : list u8 → list u8) (seed : list u8) (i : nat) : list u8 :=
  match i with
  | O => seed
  | S i => mac (rfc_a mac seed i)
  end.
Definition p_hash (mac : list u8 → list u8) (seed : list u8) (blocks : nat) : list u8 :=
  concat ((λ i, mac (rfc_a mac seed i ++ seed)) <$> seq 1 blocks).

Section prf.
Context (key : Hmac.Key) (label seed : list u8).
Notation mac := (λ m, Hmac.sign key [m]).
Notation s := (label ++ seed).

Lemma sign_joined pieces : Hmac.sign key pieces = Hmac.sign key [concat pieces].
Proof.
  unfold Hmac.sign. rewrite (Hmac.sign_concat_app key [] pieces []), (Hmac.sign_concat_app key [] [_] []).
  cbn [app concat]. by rewrite !app_nil_r.
Qed.

(** The blocks from [i + 1] on. *)
Lemma prf_for_blocks fuel blocks i previous n :
  n ≤ fuel → n ≤ blocks * Hmac.tag_len key →
  match previous with None => i = 0 | Some a => 0 < i ∧ a = rfc_a mac s i end →
  PrfUsingHmac.prf_for fuel key label seed previous n
  = take n (concat ((λ j, mac (rfc_a mac s j ++ s)) <$> seq (S i) blocks)).
Proof.
  pose proof (Hmac.tag_len_bound key) as [Hpos _].
  revert blocks i previous n. induction fuel as [|fuel IH]; intros blocks i previous n Hf Hb Hp;
    destruct n as [|n]; try done; [lia|]. destruct blocks as [|blocks]; [lia|].
  cbn [PrfUsingHmac.prf_for seq fmap list_fmap concat]. cbv zeta.
  set (chunk := Nat.min _ _). set (a_i := match previous with Some _ => _ | None => _ end).
  assert (a_i = rfc_a mac s (S i)) as Ha.
  { subst a_i. destruct previous as [a|]; cbn [rfc_a]; [by destruct Hp as [_ ->]|].
    subst i. rewrite sign_joined. cbn. by rewrite app_nil_r. }
  rewrite Ha, (sign_joined [_; _; _]). cbn [concat]. rewrite app_nil_r.
  assert (length (Hmac.sign key [rfc_a mac s (S i) ++ s]) = Hmac.tag_len key) as Hl by apply Hmac.length_tag.
  rewrite (IH blocks (S i)); [|lia..|by split; [lia|]].
  destruct (decide (S n ≤ Hmac.tag_len key)) as [Hle|Hgt].
  - replace chunk with (S n) by lia. rewrite Nat.sub_diag, app_nil_r. symmetry. apply take_app_le. lia.
  - replace chunk with (Hmac.tag_len key) by lia. rewrite take_ge by lia.
    rewrite take_app_ge by lia. by rewrite Hl.
Qed.

(** C37. The PRF over HMAC is [PRF(secret, label, seed) = P_hash(secret, label + seed)] of
    RFC 5246, cut to the length of the output, for every length. *)
Theorem prf_rfc5246 (n blocks : nat) :
  n ≤ blocks * Hmac.tag_len key →
  PrfUsingHmac.prf n key label seed = take n (p_hash mac s blocks).
Proof. intros Hn. by apply prf_for_blocks. Qed.
End prf.

Lemma prf_rfc5246_witness :
  PrfUsingHmac.prf 10 (Toy.key [x01; x02]) [x61] [x62]
  = take 10 (p_hash (λ m, Hmac.sign (Toy.key [x01; x02]) [m]) ([x61] ++ [x62]) 3).
Proof. apply (prf_rfc5246 (Toy.key [x01; x02]) [x61] [x62] 10 3). cbn. lia. Defined.

Lemma length_p_hash key s blocks :
  length (p_hash (λ m, Hmac.sign key [m]) s blocks) = blocks * Hmac.tag_len key.
Proof.
  unfold p_hash. generalize 1. induction blocks as [|blocks IH]; intros i; [done|].
  cbn [seq fmap list_fmap concat]. rewrite length_app, IH. unfold Hmac.sign at 1. by rewrite Hmac.length_tag.
Qed.

Lemma hmac_prf_length n key label seed : length (PrfUsingHmac.prf n key label seed) = n.
Proof.
  pose proof (Hmac.tag_len_bound key) as [Hpos _].
  assert (n ≤ n * Hmac.tag_len key) as Hn by nia.
  unfold PrfUsingHmac.prf. rewrite (prf_for_blocks key label seed n n 0 None n) by done.
  fold (p_hash (λ m, Hmac.sign key [m]) (label ++ seed) n). rewrite length_take, length_p_hash.
  by apply Nat.min_l.
Qed.

(** ** The key block *)

Lemma split_at_ok {E A} (l : list A) n :
  n ≤ length l → ∃ a b, split_at (E:=E) l n = Ok (a, b) ∧ l = a ++ b ∧ length a = n.
Proof.
  intros Hn. unfold split_at. destruct (split_at_checked l n) as [[a b]|] eqn:Hs.
  - apply split_at_checked_Some in Hs as [-> <-]. by exists a, b.
  - apply split_at_checked_None in Hs. lia.
Qed.

Section key_block.
Context `{Tls12ProviderLaws}.
Implicit Types (s : ConnectionSecrets.t).

(** Secrets whose PRF is keyed with the master secret, as both constructors make them. *)
Definition derived s : Prop :=
  ConnectionSecrets.master_secret_prf s
  = new_secret (Tls12CipherSuite.prf_provider (ConnectionSecrets.suite s)) (ConnectionSecrets.master_secret s).

Lemma from_key_exchange_derived kx peer ems randoms suite s :
  ConnectionSecrets.from_key_exchange kx peer ems randoms suite = Ok s →
  derived s ∧ ConnectionSecrets.randoms s = randoms ∧ ConnectionSecrets.suite s = suite.
Proof.
  unfold ConnectionSecrets.from_key_exchange. destruct ems; cbv zeta;
    intros (ms & _ & [= <-])%result_bind_ok; done.
Qed.

Lemma new_resume_derived randoms suite ms : derived (ConnectionSecrets.new_resume randoms suite ms).
Proof. done. Qed.

(** The key block is cut into the keys and IVs of section 6.3 of RFC 5246, in its order,
    and none of it is left over. *)
Lemma chop_ok s :
  derived s →
  let shape := key_block_shape (Tls12CipherSuite.aead_alg (ConnectionSecrets.suite s)) in
  ∃ ck sk ci si ex, ConnectionSecrets.chop s = Ok (ck, sk, ci, si, ex)
    ∧ ConnectionSecrets.make_key_block s = ck ++ sk ++ ci ++ si ++ ex
    ∧ length ck = KeyBlockShape.enc_key_len shape ∧ length sk = KeyBlockShape.enc_key_len shape
    ∧ length ci = KeyBlockShape.fixed_iv_len shape ∧ length si = KeyBlockShape.fixed_iv_len shape
    ∧ length ex = KeyBlockShape.explicit_nonce_len shape.
Proof.
  intros Hd shape. assert (length (ConnectionSecrets.make_key_block s)
    = (KeyBlockShape.enc_key_len shape + KeyBlockShape.fixed_iv_len shape) * 2
      + KeyBlockShape.explicit_nonce_len shape) as Hl.
  { unfold ConnectionSecrets.make_key_block. cbv zeta. rewrite Hd. apply prf_length. }
  unfold ConnectionSecrets.chop. cbv zeta. fold shape. revert Hl.
  generalize (ConnectionSecrets.make_key_block s) as b. intros b Hl.
  destruct (split_at_ok (E:=Error.t) b (KeyBlockShape.enc_key_len shape)) as (ck & b1 & -> & -> & Hck);
    [lia|step_ok]. rewrite length_app in Hl.
  destruct (split_at_ok (E:=Error.t) b1 (KeyBlockShape.enc_key_len shape)) as (sk & b2 & -> & -> & Hsk);
    [lia|step_ok]. rewrite length_app in Hl.
  destruct (split_at_ok (E:=Error.t) b2 (KeyBlockShape.fixed_iv_len shape)) as (ci & b3 & -> & -> & Hci);
    [lia|step_ok]. rewrite length_app in Hl.
  destruct (split_at_ok (E:=Error.t) b3 (KeyBlockShape.fixed_iv_len shape)) as (si & ex & -> & -> & Hsi);
    [lia|step_ok]. rewrite length_app in Hl.
  exists ck, sk, ci, si, ex. split_and!; [done..|lia].
Qed.
End key_block.
