(* ===== verification/Tls12Cipher.v ===== *)
(** * TLS 1.2 record protection ([rustls-ring/src/tls12.rs])

    Records protected with AES-GCM, whose nonces have an explicit part, or with
    ChaCha20-Poly1305.  What one end encrypts the other end decrypts, with the keys that
    both derive from the same secrets. *)
From stdpp Require Import gmap.
From S2P Require Import Prelude Enums Errors Codec Records Cipher.
From S2P Require Import Extensions Payloads ServerHello ClientHello Messages Send Receive.
From S2P Require Import Connection Hkdf Tls13Cipher KeySchedule KeyScheduleSpec Tls13Suites Sessions Kx.
From S2P Require Import QuicKeys Transcript Traffic Outputs ClientHs13 Tls12Secrets.

(** [LessSafeKey::open_within(nonce, aad, in_out, start..)] of [ring]: it opens what is at
    [start] and moves the plaintext to the front. *)
Class OpenWithin := {
  open_within : less_safe_key → list u8 → list u8 → list u8 → nat → list u8 * option nat;
  open_within_length k nonce aad in_out start :
    length (open_within k nonce aad in_out start).1 = length in_out;
  open_within_shifts k nonce aad in_out start :
    start ≤ length in_out →
    let '(p, r) := Aead.open_ (algorithm k) (key_bytes k) nonce aad (drop start in_out) in
    (open_within k nonce aad in_out start).2 = r
    ∧ ∀ n, r = Some n → take n (open_within k nonce aad in_out start).1 = take n p;
}.

(* @src rustls-ring/src/tls12.rs 452 MAX_FRAGMENT_LEN *)
Definition MAX_FRAGMENT_LEN : nat := Z.to_nat 16384.

(* @src rustls-ring/src/tls12.rs 254 GCM_EXPLICIT_NONCE_LEN *)
Definition GCM_EXPLICIT_NONCE_LEN : nat := 8.
(* @src rustls-ring/src/tls12.rs 255 GCM_OVERHEAD *)
Definition GCM_OVERHEAD : nat := GCM_EXPLICIT_NONCE_LEN + 16.
(* @src rustls-ring/src/tls12.rs 355 CHACHAPOLY1305_OVERHEAD *)
Definition CHACHAPOLY1305_OVERHEAD : nat := 16.

(** ** What the ciphers share *)

(** Sealing the payload behind the explicit part of the nonce, and the tag: what is written
    to the buffer of the given length. *)
Definition seal_record (enc_key : less_safe_key) (nonce aad explicit : list u8)
    (record : Record_.t OutboundPlain.t) (payload : EncryptBuffer.t)
    : result Error.t (EncryptBuffer.t * option EncryptBuffer.t) :=
  payload ← EncryptBuffer.extend_from_slice payload explicit;
  payload ← EncryptBuffer.extend_from_chunks payload (Record_.payload record);
  let written := EncryptBuffer.into_written payload in
  let '(sealed, tag) :=
    Aead.seal (algorithm enc_key) (key_bytes enc_key) nonce aad (drop (length explicit) written) in
  let payload := EncryptBuffer.mk
    (take (length explicit) written ++ sealed
     ++ drop (EncryptBuffer.used payload) (EncryptBuffer.buf payload)) (EncryptBuffer.used payload) in
  match tag with
  | Some tag => full ← EncryptBuffer.extend_from_slice payload tag; Ok (payload, Some full)
  | None => Ok (payload, None)
  end.

(** A record of [total_len] bytes of payload, at the front of [out]; [explicit] is the part
    of the nonce that is sent. *)
Definition encrypt_record (enc_key : less_safe_key) (iv : Iv.t) (total_len : nat)
    (explicit : list u8 → list u8) (record : Record_.t OutboundPlain.t) (seq : Z) (out : list u8)
    : list u8 * result Error.t (Record_.t (list u8)) :=
  match (payload ← EncryptBuffer.new out total_len;
         nonce ← nonce_array iv seq;
         aad ← make_tls12_aad seq (Record_.typ record) (EncodableVersion.encode (Record_.version record))
                 (OutboundPlain.len (Record_.payload record));
         seal_record enc_key nonce aad (explicit nonce) record payload) with
  | Err e => (out, Err e)
  | Panic => (out, Panic)
  | Ok (payload, None) => (EncryptBuffer.buf payload ++ drop total_len out, Err Error.EncryptError)
  | Ok (_, Some payload) =>
      (EncryptBuffer.buf payload ++ drop total_len out,
       Ok (Record_.new (Record_.typ record) (Record_.version record) (EncryptBuffer.into_written payload)))
  end.

(** What is left of a record that was opened: its first [plain_len] bytes. *)
Definition opened (record : Record_.t (list u8)) (plain_len : nat) : result Error.t (Record_.t Range) :=
  if decide (MAX_FRAGMENT_LEN < plain_len) then Err Error.PeerSentOversizedRecord
  else Ok (Record_.new (Record_.typ record) (Record_.version record)
             (mkRange 0 (Nat.min plain_len (length (Record_.payload record))))).

(** ** AES-GCM *)

Module GcmRecordEncrypter.
(* @src rustls-ring/src/tls12.rs 242-246 GcmRecordEncrypter *)
Record t := mk { enc_key : less_safe_key; iv : Iv.t }.

(* @src rustls-ring/src/tls12.rs 334-336 GcmRecordEncrypter::encrypted_payload_len *)
Definition encrypted_payload_len (self : t) (payload_len : nat) : nat :=
  payload_len + GCM_EXPLICIT_NONCE_LEN + Aead.tag_len (algorithm (enc_key self)).

(* @src rustls-ring/src/tls12.rs 299-332 GcmRecordEncrypter::encrypt *)
Definition encrypt (self : t) (record : Record_.t OutboundPlain.t) (seq : Z) (out : list u8)
    : t * list u8 * result Error.t (Record_.t (list u8)) :=
  let total_len := encrypted_payload_len self (OutboundPlain.len (Record_.payload record)) in
  let '(out, r) := encrypt_record (enc_key self) (iv self) total_len (drop 4) record seq out in
  (self, out, r).

#[global] Instance encrypter : RecordEncrypter t := {|
  Send.encrypt := encrypt;
  Send.encrypted_payload_len := encrypted_payload_len;
|}.
End GcmRecordEncrypter.

Module GcmRecordDecrypter.
(* @src rustls-ring/src/tls12.rs 248-252 GcmRecordDecrypter *)
Record t := mk { dec_key : less_safe_key; dec_salt : list u8 }.

(* @src rustls-ring/src/tls12.rs 258-295 GcmRecordDecrypter::decrypt *)
Definition decrypt `{OpenWithin} (self : t) (record : Record_.t (list u8)) (seq : Z)
    : t * list u8 * result Error.t (Record_.t Range) :=
  let payload := Record_.payload record in
  if decide (length payload < GCM_OVERHEAD) then (self, payload, Err Error.DecryptError)
  else
    let nonce := dec_salt self ++ take 8 payload in
    match make_tls12_aad seq (Record_.typ record) (EncodableVersion.version (Record_.version record))
            (length payload - GCM_OVERHEAD) with
    | Err e => (self, payload, Err e)
    | Panic => (self, payload, Panic)
    | Ok aad =>
        match open_within (dec_key self) nonce aad payload GCM_EXPLICIT_NONCE_LEN with
        | (payload, None) => (self, payload, Err Error.DecryptError)
        | (payload, Some plain_len) => (self, payload, opened record plain_len)
        end
    end.

#[global] Instance decrypter `{OpenWithin} : RecordDecrypter t := {| Receive.decrypt := decrypt |}.
End GcmRecordDecrypter.

(** ** ChaCha20-Poly1305 *)

Module ChaCha20Poly1305RecordEncrypter.
(* @src rustls-ring/src/tls12.rs 339-345 ChaCha20Poly1305RecordEncrypter *)
Record t := mk { enc_key : less_safe_key; enc_offset : Iv.t }.

(* @src rustls-ring/src/tls12.rs 429-431 ChaCha20Poly1305RecordEncrypter::encrypted_payload_len *)
Definition encrypted_payload_len (self : t) (payload_len : nat) : nat :=
  payload_len + Aead.tag_len (algorithm (enc_key self)).

(* @src rustls-ring/src/tls12.rs 395-427 ChaCha20Poly1305RecordEncrypter::encrypt *)
Definition encrypt (self : t) (record : Record_.t OutboundPlain.t) (seq : Z) (out : list u8)
    : t * list u8 * result Error.t (Record_.t (list u8)) :=
  let total_len := encrypted_payload_len self (OutboundPlain.len (Record_.payload record)) in
  let '(out, r) := encrypt_record (enc_key self) (enc_offset self) total_len (λ _, []) record seq out in
  (self, out, r).

#[global] Instance encrypter : RecordEncrypter t := {|
  Send.encrypt := encrypt;
  Send.encrypted_payload_len := encrypted_payload_len;
|}.
End ChaCha20Poly1305RecordEncrypter.

Module ChaCha20Poly1305RecordDecrypter.
(* @src rustls-ring/src/tls12.rs 347-353 ChaCha20Poly1305RecordDecrypter *)
Record t := mk { dec_key : less_safe_key; dec_offset : Iv.t }.

(* @src rustls-ring/src/tls12.rs 358-391 ChaCha20Poly1305RecordDecrypter::decrypt *)
Definition decrypt (self : t) (record : Record_.t (list u8)) (seq : Z)
    : t * list u8 * result Error.t (Record_.t Range) :=
  let payload := Record_.payload record in
  if decide (length payload < CHACHAPOLY1305_OVERHEAD) then (self, payload, Err Error.DecryptError)
  else
    match (nonce ← nonce_array (dec_offset self) seq;
           aad ← make_tls12_aad seq (Record_.typ record)
                   (EncodableVersion.version (Record_.version record))
                   (length payload - CHACHAPOLY1305_OVERHEAD);
           Ok (nonce, aad)) with
    | Err e => (self, payload, Err e)
    | Panic => (self, payload, Panic)
    | Ok (nonce, aad) =>
        match Aead.open_ (algorithm (dec_key self)) (key_bytes (dec_key self)) nonce aad payload with
        | (payload, None) => (self, payload, Err Error.DecryptError)
        | (payload, Some plain_len) => (self, payload, opened record plain_len)
        end
    end.

#[global] Instance decrypter : RecordDecrypter t := {| Receive.decrypt := decrypt |}.
End ChaCha20Poly1305RecordDecrypter.

(** ** The algorithms *)

(* @src rustls-ring/src/tls12.rs 434-450 gcm_iv *)
Definition gcm_iv (write_iv explicit : list u8) : result Error.t Iv.t :=
  if decide (length write_iv = 4 ∧ length explicit = 8) then
    match Iv.new (write_iv ++ explicit) with Ok iv => Ok iv | _ => Panic end
  else Panic.

(** [GcmAlgorithm] is the AEAD it wraps. *)
Module GcmAlgorithm.
(* @src rustls-ring/src/tls12.rs 139-151 GcmAlgorithm::decrypter *)
Definition decrypter (self : Aead.t) (dec_key : AeadKey.t) (dec_iv : list u8)
    : result Error.t GcmRecordDecrypter.t :=
  dec_key ← bind_key self (AeadKey.as_ref dec_key);
  if decide (length dec_iv = 4) then Ok (GcmRecordDecrypter.mk dec_key dec_iv) else Panic.

(* @src rustls-ring/src/tls12.rs 153-163 GcmAlgorithm::encrypter *)
Definition encrypter (self : Aead.t) (enc_key : AeadKey.t) (write_iv explicit : list u8)
    : result Error.t GcmRecordEncrypter.t :=
  enc_key ← bind_key self (AeadKey.as_ref enc_key);
  iv ← gcm_iv write_iv explicit;
  Ok (GcmRecordEncrypter.mk enc_key iv).

(* @src rustls-ring/src/tls12.rs 165-171 GcmAlgorithm::key_block_shape *)
Definition key_block_shape (self : Aead.t) : KeyBlockShape.t := KeyBlockShape.mk (Aead.key_len self) 4 8.

(* @src rustls-ring/src/tls12.rs 173-185 GcmAlgorithm::extract_keys *)
Definition extract_keys (self : Aead.t) (key : AeadKey.t) (write_iv explicit : list u8)
    : result Error.t ConnectionTrafficSecrets.t :=
  iv ← gcm_iv write_iv explicit;
  if decide (Aead.key_len self = 16) then Ok (ConnectionTrafficSecrets.Aes128Gcm key iv)
  else if decide (Aead.key_len self = 32) then Ok (ConnectionTrafficSecrets.Aes256Gcm key iv)
  else Panic.
End GcmAlgorithm.

(** [self] is [CHACHA20_POLY1305] of [ring]. *)
Module ChaCha20Poly1305.
Definition expect_iv (iv : list u8) : result Error.t Iv.t :=
  match Iv.new iv with Ok iv => Ok iv | _ => Panic end.

(* @src rustls-ring/src/tls12.rs 195-203 ChaCha20Poly1305::decrypter *)
Definition decrypter (self : Aead.t) (dec_key : AeadKey.t) (iv : list u8)
    : result Error.t ChaCha20Poly1305RecordDecrypter.t :=
  dec_key ← bind_key self (AeadKey.as_ref dec_key);
  dec_offset ← expect_iv iv;
  Ok (ChaCha20Poly1305RecordDecrypter.mk dec_key dec_offset).

(* @src rustls-ring/src/tls12.rs 205-213 ChaCha20Poly1305::encrypter *)
Definition encrypter (self : Aead.t) (enc_key : AeadKey.t) (enc_iv : list u8)
    : result Error.t ChaCha20Poly1305RecordEncrypter.t :=
  enc_key ← bind_key self (AeadKey.as_ref enc_key);
  enc_offset ← expect_iv enc_iv;
  Ok (ChaCha20Poly1305RecordEncrypter.mk enc_key enc_offset).

(* @src rustls-ring/src/tls12.rs 215-221 ChaCha20Poly1305::key_block_shape *)
Definition key_block_shape : KeyBlockShape.t := KeyBlockShape.mk 32 12 0.

(* @src rustls-ring/src/tls12.rs 223-235 ChaCha20Poly1305::extract_keys *)
Definition extract_keys (key : AeadKey.t) (iv : list u8) : result Error.t ConnectionTrafficSecrets.t :=
  iv ← expect_iv iv; Ok (ConnectionTrafficSecrets.Chacha20Poly1305 key iv).
End ChaCha20Poly1305.

(** ** Trait objects *)

(** [Box<dyn RecordEncrypter>] and [Box<dyn RecordDecrypter>] of this provider. *)
Module RingRecordEncrypter.
Inductive t :=
| Tls13 (inner : Tls13RecordEncrypter.t)
| Gcm (inner : GcmRecordEncrypter.t)
| ChaCha20Poly1305 (inner : ChaCha20Poly1305RecordEncrypter.t).

#[global] Instance encrypter : RecordEncrypter t := {|
  Send.encrypt self record seq out :=
    match self with
    | Tls13 e => let '(e, out, r) := Tls13RecordEncrypter.encrypt e record seq out in (Tls13 e, out, r)
    | Gcm e => let '(e, out, r) := GcmRecordEncrypter.encrypt e record seq out in (Gcm e, out, r)
    | ChaCha20Poly1305 e =>
        let '(e, out, r) := ChaCha20Poly1305RecordEncrypter.encrypt e record seq out in
        (ChaCha20Poly1305 e, out, r)
    end;
  Send.encrypted_payload_len self payload_len :=
    match self with
    | Tls13 e => Tls13RecordEncrypter.encrypted_payload_len e payload_len
    | Gcm e => GcmRecordEncrypter.encrypted_payload_len e payload_len
    | ChaCha20Poly1305 e => ChaCha20Poly1305RecordEncrypter.encrypted_payload_len e payload_len
    end;
|}.
End RingRecordEncrypter.

Module RingRecordDecrypter.
Inductive t :=
| Tls13 (inner : Tls13RecordDecrypter.t)
| Gcm (inner : GcmRecordDecrypter.t)
| ChaCha20Poly1305 (inner : ChaCha20Poly1305RecordDecrypter.t).

#[global] Instance decrypter `{OpenWithin} : RecordDecrypter t := {|
  Receive.decrypt self record seq :=
    match self with
    | Tls13 d => let '(d, p, r) := Tls13RecordDecrypter.decrypt d record seq in (Tls13 d, p, r)
    | Gcm d => let '(d, p, r) := GcmRecordDecrypter.decrypt d record seq in (Gcm d, p, r)
    | ChaCha20Poly1305 d =>
        let '(d, p, r) := ChaCha20Poly1305RecordDecrypter.decrypt d record seq in
        (ChaCha20Poly1305 d, p, r)
    end;
|}.
End RingRecordDecrypter.

(** [dyn Tls12AeadAlgorithm] of this provider. *)
Module RingAead12.
Inductive t := Gcm (alg : Aead.t) | ChaCha20Poly1305 (alg : Aead.t).

Definition encrypter (self : t) (key : AeadKey.t) (iv extra : list u8) : result Error.t RingRecordEncrypter.t :=
  match self with
  | Gcm alg => RingRecordEncrypter.Gcm <$> GcmAlgorithm.encrypter alg key iv extra
  | ChaCha20Poly1305 alg => RingRecordEncrypter.ChaCha20Poly1305 <$> ChaCha20Poly1305.encrypter alg key iv
  end.
Definition decrypter (self : t) (key : AeadKey.t) (iv : list u8) : result Error.t RingRecordDecrypter.t :=
  match self with
  | Gcm alg => RingRecordDecrypter.Gcm <$> GcmAlgorithm.decrypter alg key iv
  | ChaCha20Poly1305 alg => RingRecordDecrypter.ChaCha20Poly1305 <$> ChaCha20Poly1305.decrypter alg key iv
  end.
Definition key_block_shape (self : t) : KeyBlockShape.t :=
  match self with
  | Gcm alg => GcmAlgorithm.key_block_shape alg
  | ChaCha20Poly1305 _ => ChaCha20Poly1305.key_block_shape
  end.
Definition extract_keys (self : t) (key : AeadKey.t) (iv explicit : list u8)
    : result Error.t ConnectionTrafficSecrets.t :=
  match self with
  | Gcm alg => GcmAlgorithm.extract_keys alg key iv explicit
  | ChaCha20Poly1305 _ => ChaCha20Poly1305.extract_keys key iv
  end.
End RingAead12.

(** ** The suites *)

(* @src rustls-ring/src/tls12.rs 117-122 TLS12_ECDSA_SCHEMES *)
Definition TLS12_ECDSA_SCHEMES : list SignatureScheme.t :=
  [SignatureScheme.ED25519; SignatureScheme.ECDSA_NISTP521_SHA512;
   SignatureScheme.ECDSA_NISTP384_SHA384; SignatureScheme.ECDSA_NISTP256_SHA256].

(* @src rustls-ring/src/tls12.rs 124-131 TLS12_RSA_SCHEMES *)
Definition TLS12_RSA_SCHEMES : list SignatureScheme.t :=
  [SignatureScheme.RSA_PSS_SHA512; SignatureScheme.RSA_PSS_SHA384; SignatureScheme.RSA_PSS_SHA256;
   SignatureScheme.RSA_PKCS1_SHA512; SignatureScheme.RSA_PKCS1_SHA384; SignatureScheme.RSA_PKCS1_SHA256].

Section suites.
Context (SHA256 SHA384 : Hash.t) (HMAC_SHA256 HMAC_SHA384 : Hmac.t).
Context (CHACHA20_POLY1305 AES_256_GCM AES_128_GCM : Aead.t).
Notation suite := (Tls12CipherSuite.t Hmac.t RingAead12.t).

(* @src rustls-ring/src/tls12.rs 34-45 TLS_ECDHE_ECDSA_WITH_CHACHA20_POLY1305_SHA256 *)
Definition TLS_ECDHE_ECDSA_WITH_CHACHA20_POLY1305_SHA256 : suite :=
  Tls12CipherSuite.mk
    (CipherSuiteCommon.mk CipherSuite.TLS_ECDHE_ECDSA_WITH_CHACHA20_POLY1305_SHA256 SHA256 0xffffffffffffffff)
    HMAC_SHA256 KeyExchangeAlgorithm.ECDHE TLS12_ECDSA_SCHEMES (RingAead12.ChaCha20Poly1305 CHACHA20_POLY1305).

(* @src rustls-ring/src/tls12.rs 48-59 TLS_ECDHE_RSA_WITH_CHACHA20_POLY1305_SHA256 *)
Definition TLS_ECDHE_RSA_WITH_CHACHA20_POLY1305_SHA256 : suite :=
  Tls12CipherSuite.mk
    (CipherSuiteCommon.mk CipherSuite.TLS_ECDHE_RSA_WITH_CHACHA20_POLY1305_SHA256 SHA256 0xffffffffffffffff)
    HMAC_SHA256 KeyExchangeAlgorithm.ECDHE TLS12_RSA_SCHEMES (RingAead12.ChaCha20Poly1305 CHACHA20_POLY1305).

(* @src rustls-ring/src/tls12.rs 62-73 TLS_ECDHE_RSA_WITH_AES_128_GCM_SHA256 *)
Definition TLS_ECDHE_RSA_WITH_AES_128_GCM_SHA256 : suite :=
  Tls12CipherSuite.mk
    (CipherSuiteCommon.mk CipherSuite.TLS_ECDHE_RSA_WITH_AES_128_GCM_SHA256 SHA256 (2 ^ 24))
    HMAC_SHA256 KeyExchangeAlgorithm.ECDHE TLS12_RSA_SCHEMES (RingAead12.Gcm AES_128_GCM).

(* @src rustls-ring/src/tls12.rs 76-87 TLS_ECDHE_RSA_WITH_AES_256_GCM_SHA384 *)
Definition TLS_ECDHE_RSA_WITH_AES_256_GCM_SHA384 : suite :=
  Tls12CipherSuite.mk
    (CipherSuiteCommon.mk CipherSuite.TLS_ECDHE_RSA_WITH_AES_256_GCM_SHA384 SHA384 (2 ^ 24))
    HMAC_SHA384 KeyExchangeAlgorithm.ECDHE TLS12_RSA_SCHEMES (RingAead12.Gcm AES_256_GCM).

(* @src rustls-ring/src/tls12.rs 90-101 TLS_ECDHE_ECDSA_WITH_AES_128_GCM_SHA256 *)
Definition TLS_ECDHE_ECDSA_WITH_AES_128_GCM_SHA256 : suite :=
  Tls12CipherSuite.mk
    (CipherSuiteCommon.mk CipherSuite.TLS_ECDHE_ECDSA_WITH_AES_128_GCM_SHA256 SHA256 (2 ^ 24))
    HMAC_SHA256 KeyExchangeAlgorithm.ECDHE TLS12_ECDSA_SCHEMES (RingAead12.Gcm AES_128_GCM).

(* @src rustls-ring/src/tls12.rs 104-115 TLS_ECDHE_ECDSA_WITH_AES_256_GCM_SHA384 *)
Definition TLS_ECDHE_ECDSA_WITH_AES_256_GCM_SHA384 : suite :=
  Tls12CipherSuite.mk
    (CipherSuiteCommon.mk CipherSuite.TLS_ECDHE_ECDSA_WITH_AES_256_GCM_SHA384 SHA384 (2 ^ 24))
    HMAC_SHA384 KeyExchangeAlgorithm.ECDHE TLS12_ECDSA_SCHEMES (RingAead12.Gcm AES_256_GCM).

(* @src rustls-ring/src/tls12.rs 24-31 ALL_TLS12_CIPHER_SUITES *)
Definition ALL_TLS12_CIPHER_SUITES : list suite :=
  [TLS_ECDHE_ECDSA_WITH_AES_128_GCM_SHA256; TLS_ECDHE_ECDSA_WITH_AES_256_GCM_SHA384;
   TLS_ECDHE_ECDSA_WITH_CHACHA20_POLY1305_SHA256; TLS_ECDHE_RSA_WITH_AES_128_GCM_SHA256;
   TLS_ECDHE_RSA_WITH_AES_256_GCM_SHA384; TLS_ECDHE_RSA_WITH_CHACHA20_POLY1305_SHA256].
End suites.

(** The provider, with the parts that TLS 1.2 has no use for left open. *)
Section ring.
Context (quic_alg packet_keys header_keys hpke_sealer world : Type).
Context `{!QuicAlgorithm quic_alg packet_keys header_keys} `{!PkiTypes} `{!OpenWithin}.

Definition ring_provider : Provider := {|
  enc := RingRecordEncrypter.t;
  dec := RingRecordDecrypter.t;
  Outputs.quic_alg := quic_alg;
  Outputs.packet_keys := packet_keys;
  Outputs.header_keys := header_keys;
  prf12 := Hmac.t;
  aead12 := RingAead12.t;
  Outputs.hpke_sealer := hpke_sealer;
  Outputs.world := world;
|}.

Definition ring_tls12 : Tls12Provider (H:=ring_provider) := {|
  for_key_exchange := PrfUsingHmac.for_key_exchange : prf12 (Provider:=ring_provider) → _;
  new_secret := PrfUsingHmac.new_secret : prf12 (Provider:=ring_provider) → _;
  aead12_encrypter := RingAead12.encrypter : aead12 (Provider:=ring_provider) → _;
  aead12_decrypter := RingAead12.decrypter : aead12 (Provider:=ring_provider) → _;
  Tls12Secrets.key_block_shape := RingAead12.key_block_shape : aead12 (Provider:=ring_provider) → _;
  aead12_extract_keys := RingAead12.extract_keys : aead12 (Provider:=ring_provider) → _;
|}.
End ring.

(** ** Encrypting *)

Lemma tls12_aad_ok {E} seq typ vers len : ∃ aad, make_tls12_aad (E:=E) seq typ vers len = Ok aad.
Proof. by eexists. Qed.

Lemma seal_record_ok k nonce aad ex r b p full :
  EncryptBuffer.used b = 0 → seal_record k nonce aad ex r b = Ok (p, Some full) →
  ∃ ct tag, Aead.seal (algorithm k) (key_bytes k) nonce aad (OutboundPlain.flat (Record_.payload r))
      = (ct, Some tag)
    ∧ EncryptBuffer.into_written full = ex ++ ct ++ tag
    ∧ length (EncryptBuffer.buf full) = length (EncryptBuffer.buf b)
    ∧ EncryptBuffer.used full ≤ length (EncryptBuffer.buf full).
Proof.
  intros Hu. unfold seal_record.
  destruct (EncryptBuffer.extend_from_slice b ex) as [b1| |] eqn:H1; [step_ok|done..].
  apply extend_slice_inv in H1 as (Hw1 & Hu1 & Hl1 & Hb1); [|lia].
  destruct (EncryptBuffer.extend_from_chunks b1 _) as [b2| |] eqn:H2; [step_ok|done..].
  apply extend_chunks_inv in H2 as (Hw2 & Hu2 & Hl2 & Hb2); [|done]. cbv zeta.
  assert (EncryptBuffer.into_written b2 = ex ++ OutboundPlain.flat (Record_.payload r)) as Hw.
  { rewrite Hw2, Hw1. unfold EncryptBuffer.into_written. by rewrite Hu. }
  rewrite Hw, drop_app_length, take_app_length.
  destruct (Aead.seal _ _ _ _ _) as [ct [tag|]] eqn:Hs; [|by intros [=]].
  pose proof (f_equal (length ∘ fst) Hs) as Hct. cbn [compose fst] in Hct. rewrite Aead.seal_length in Hct.
  destruct (EncryptBuffer.extend_from_slice _ tag) as [b3| |] eqn:H3; [step_ok|done..].
  apply extend_slice_inv in H3 as (Hw3 & Hu3 & Hl3 & Hb3).
  2: { cbn [EncryptBuffer.used EncryptBuffer.buf]. rewrite !length_app, length_drop. lia. }
  intros [= <- <-]. cbn [EncryptBuffer.used EncryptBuffer.buf] in *. exists ct, tag.
  rewrite !length_app, length_drop in Hl3. split_and!; [done| |lia|done].
  rewrite Hw3. unfold EncryptBuffer.into_written. cbn [EncryptBuffer.used EncryptBuffer.buf].
  rewrite (assoc_L (++) ex), take_app_length'; [by rewrite (assoc_L (++))|]. rewrite length_app. lia.
Qed.

Lemma seal_record_length k nonce aad ex r b p o :
  EncryptBuffer.used b = 0 → seal_record k nonce aad ex r b = Ok (p, o) →
  length (EncryptBuffer.buf p) = length (EncryptBuffer.buf b).
Proof.
  intros Hu. unfold seal_record.
  destruct (EncryptBuffer.extend_from_slice b ex) as [b1| |] eqn:H1; [step_ok|done..].
  apply extend_slice_inv in H1 as (Hw1 & Hu1 & Hl1 & Hb1); [|lia].
  destruct (EncryptBuffer.extend_from_chunks b1 _) as [b2| |] eqn:H2; [step_ok|done..].
  apply extend_chunks_inv in H2 as (Hw2 & Hu2 & Hl2 & Hb2); [|done]. cbv zeta.
  destruct (Aead.seal _ _ _ _ _) as [ct tag] eqn:Hs.
  apply (f_equal (length ∘ fst)) in Hs. cbn [compose fst] in Hs. rewrite Aead.seal_length in Hs.
  unfold EncryptBuffer.into_written in *. rewrite length_drop, length_take in Hs.
  destruct tag as [tag|]; [destruct (EncryptBuffer.extend_from_slice _ tag); [step_ok|done..]|];
    intros [= <- _]; cbn [EncryptBuffer.buf]; rewrite !length_app, length_take, length_drop, length_take; lia.
Qed.

Lemma encrypt_record_inv k iv total ex r seq out out' c :
  encrypt_record k iv total ex r seq out = (out', Ok c) →
  Record_.typ c = Record_.typ r ∧ Record_.version c = Record_.version r
  ∧ Record_.payload c = take (length (Record_.payload c)) out'
  ∧ ∃ nonce aad ct tag, nonce_array iv seq = Ok nonce
    ∧ make_tls12_aad (E:=Error.t) seq (Record_.typ r) (EncodableVersion.encode (Record_.version r))
        (OutboundPlain.len (Record_.payload r)) = Ok aad
    ∧ Aead.seal (algorithm k) (key_bytes k) nonce aad (OutboundPlain.flat (Record_.payload r)) = (ct, Some tag)
    ∧ Record_.payload c = ex nonce ++ ct ++ tag.
Proof.
  unfold encrypt_record, EncryptBuffer.new. destruct get_range as [buf|]; [step_ok|done].
  destruct (nonce_array iv seq) as [nonce| |] eqn:Hn; [step_ok|done..].
  destruct (tls12_aad_ok (E:=Error.t) seq (Record_.typ r) (EncodableVersion.encode (Record_.version r))
    (OutboundPlain.len (Record_.payload r))) as [aad Ha]. rewrite Ha. step_ok.
  destruct seal_record as [[p [full|]]| |] eqn:Hs; [|done..].
  apply seal_record_ok in Hs as (ct & tag & Hs & Hw & Hl & Hle); [|done].
  intros [= <- <-]. cbn [Record_.typ Record_.version Record_.payload]. split_and!; [done..| |].
  - unfold EncryptBuffer.into_written. rewrite length_take, take_app_le by lia. f_equal. lia.
  - by exists nonce, aad, ct, tag.
Qed.

Lemma encrypt_record_length k iv total ex r seq out :
  length (encrypt_record k iv total ex r seq out).1 = length out.
Proof.
  unfold encrypt_record, EncryptBuffer.new. destruct get_range as [buf|] eqn:Hb; [step_ok|done].
  apply get_range_Some in Hb as (_ & Hlen & ->). cbn [r_start r_end] in Hlen |- *.
  destruct (nonce_array iv seq) as [nonce| |]; [step_ok|done..].
  destruct make_tls12_aad as [aad| |]; [step_ok|done..].
  destruct seal_record as [[p [full|]]| |] eqn:Hs; try done; cbn [fst].
  - apply seal_record_ok in Hs as (? & ? & _ & _ & Hl & _); [|done].
    rewrite length_app, Hl, length_drop. cbn [EncryptBuffer.buf]. rewrite length_slice by lia. lia.
  - apply seal_record_length in Hs; [|done].
    rewrite length_app, Hs, length_drop. cbn [EncryptBuffer.buf]. rewrite length_slice by lia. lia.
Qed.

(** The payload is as long as announced, when its parts are. *)
Lemma encrypt_record_payload k iv total ex r seq out out' c m :
  encrypt_record k iv total ex r seq out = (out', Ok c) → OutboundPlain.wf (Record_.payload r) →
  (∀ nonce, nonce_array iv seq = Ok nonce → length (ex nonce) = m) →
  length (Record_.payload c) = m + OutboundPlain.len (Record_.payload r) + Aead.tag_len (algorithm k).
Proof.
  intros (_ & _ & _ & nonce & aad & ct & tag & Hn & _ & Hs & ->)%encrypt_record_inv Hwf Hex.
  rewrite !length_app, (Hex _ Hn), (Aead.seal_tag _ _ _ _ _ _ _ Hs).
  apply (f_equal (length ∘ fst)) in Hs. cbn [compose fst] in Hs. rewrite Aead.seal_length in Hs.
  rewrite len_flat by done. lia.
Qed.

Lemma length_nonce_array iv seq nonce : nonce_array iv seq = Ok nonce → length nonce = NONCE_LEN.
Proof.
  unfold nonce_array. destruct Nonce.new as [n| |]; [step_ok|done..].
  unfold Nonce.to_array. case_decide; [done|]. destruct get_range as [bs|] eqn:Hg; [|done].
  apply get_range_Some in Hg as (_ & Hl & ->). cbn [r_start r_end] in *. intros [= <-].
  rewrite length_slice; lia.
Qed.

(** Both encrypters of TLS 1.2, which send [m] bytes of the nonce. *)
Lemma encrypt_record_laws k iv total ex m r seq out :
  (∀ nonce, length nonce = NONCE_LEN → length (ex nonce) = m) →
  total = OutboundPlain.len (Record_.payload r) + m + Aead.tag_len (algorithm k) →
  length (encrypt_record k iv total ex r seq out).1 = length out
  ∧ ∀ out' c, encrypt_record k iv total ex r seq out = (out', Ok c) →
      Record_.payload c = take (length (Record_.payload c)) out'
      ∧ (OutboundPlain.wf (Record_.payload r) → length (Record_.payload c) = total).
Proof.
  intros Hex ->. split; [apply encrypt_record_length|]. intros out' c He. split; [by apply encrypt_record_inv in He as (_ & _ & ? & _)|].
  intros Hwf. rewrite (encrypt_record_payload _ _ _ _ _ _ _ _ _ m He Hwf); [lia|].
  intros nonce Hn. by eapply Hex, length_nonce_array.
Qed.

#[global] Instance gcm_encrypter_laws : RecordEncrypterLaws GcmRecordEncrypter.t.
Proof.
  assert (∀ e r seq out, _) as Hl by exact (λ e r seq out,
    encrypt_record_laws (GcmRecordEncrypter.enc_key e) (GcmRecordEncrypter.iv e)
      (GcmRecordEncrypter.encrypted_payload_len e (OutboundPlain.len (Record_.payload r))) (drop 4) 8 r seq out
      ltac:(intros; rewrite length_drop; unfold NONCE_LEN in *; lia) eq_refl).
  split; intros e r seq out; cbn [Send.encrypt Send.encrypted_payload_len GcmRecordEncrypter.encrypter];
    unfold GcmRecordEncrypter.encrypt; cbv zeta; destruct (Hl e r seq out) as [Hlen Hok];
    destruct encrypt_record as [o1 r1]; [done|..]; intros e' out' c [= <- <- ->];
    destruct (Hok o1 c eq_refl); by auto.
Qed.

#[global] Instance chacha_encrypter_laws : RecordEncrypterLaws ChaCha20Poly1305RecordEncrypter.t.
Proof.
  assert (∀ e r seq out, _) as Hl by exact (λ e r seq out,
    encrypt_record_laws (ChaCha20Poly1305RecordEncrypter.enc_key e)
      (ChaCha20Poly1305RecordEncrypter.enc_offset e)
      (ChaCha20Poly1305RecordEncrypter.encrypted_payload_len e (OutboundPlain.len (Record_.payload r)))
      (λ _, []) 0 r seq out ltac:(done)
      ltac:(unfold ChaCha20Poly1305RecordEncrypter.encrypted_payload_len; lia)).
  split; intros e r seq out;
    cbn [Send.encrypt Send.encrypted_payload_len ChaCha20Poly1305RecordEncrypter.encrypter];
    unfold ChaCha20Poly1305RecordEncrypter.encrypt; cbv zeta; destruct (Hl e r seq out) as [Hlen Hok];
    destruct encrypt_record as [o1 r1]; [done|..]; intros e' out' c [= <- <- ->];
    destruct (Hok o1 c eq_refl); by auto.
Qed.

#[global] Instance ring_encrypter_laws : RecordEncrypterLaws RingRecordEncrypter.t.
Proof.
  split; cbn [Send.encrypt Send.encrypted_payload_len RingRecordEncrypter.encrypter]; intros [e|e|e] r seq out;
    pose proof (encrypt_out_length e r seq out) as Hl; pose proof (encrypt_payload e r seq out) as Hp;
    pose proof (encrypt_length e r seq out) as Hn;
    cbn [Send.encrypt Send.encrypted_payload_len Tls13RecordEncrypter.encrypter GcmRecordEncrypter.encrypter
      ChaCha20Poly1305RecordEncrypter.encrypter] in Hl, Hp, Hn;
    match goal with |- context [match ?x with (_, _) => _ end] => destruct x as [[e1 o1] r1] end;
    try done; intros e' out' c [= <- <- ->]; by eauto.
Qed.

(** ** Decrypting *)

Lemma opened_range record n p :
  opened record n = Ok p →
  r_start (Record_.payload p) ≤ r_end (Record_.payload p) ≤ length (Record_.payload record).
Proof. unfold opened. case_decide; [done|]. intros [= <-]. cbn. lia. Qed.

Lemma opened_no_panic record n : opened record n ≠ Panic.
Proof. unfold opened. by case_decide. Qed.

#[global] Instance gcm_decrypter_laws `{OpenWithin} : RecordDecrypterLaws GcmRecordDecrypter.t.
Proof.
  split; intros d r seq; cbn [Receive.decrypt GcmRecordDecrypter.decrypter];
    unfold GcmRecordDecrypter.decrypt; cbv zeta; (case_decide; [done|]);
    match goal with |- context [make_tls12_aad ?s ?t ?v ?n] =>
      destruct (tls12_aad_ok (E:=Error.t) s t v n) as [aad ->] end;
    match goal with |- context [open_within ?k ?n ?a ?p ?s] => pose proof (open_within_length k n a p s) as Hl end;
    destruct open_within as [p [n|]]; try done; [|apply opened_no_panic].
  intros d' out q [= <- <- Ho]. by eapply opened_range.
Qed.

#[global] Instance chacha_decrypter_laws : RecordDecrypterLaws ChaCha20Poly1305RecordDecrypter.t.
Proof.
  split; intros d r seq; cbn [Receive.decrypt ChaCha20Poly1305RecordDecrypter.decrypter];
    unfold ChaCha20Poly1305RecordDecrypter.decrypt; cbv zeta; (case_decide; [done|]);
    pose proof (nonce_array_no_panic (ChaCha20Poly1305RecordDecrypter.dec_offset d) seq) as Hn;
    (destruct nonce_array as [nonce| |]; [step_ok|done..]);
    match goal with |- context [make_tls12_aad ?s ?t ?v ?n] =>
      destruct (tls12_aad_ok (E:=Error.t) s t v n) as [aad ->] end; step_ok;
    match goal with |- context [Aead.open_ ?k ?b ?n ?a ?p] => pose proof (Aead.open_length k b n a p) as Hl end;
    destruct Aead.open_ as [p [n|]]; try done; [|apply opened_no_panic].
  intros d' out q [= <- <- Ho]. by eapply opened_range.
Qed.

#[global] Instance ring_decrypter_laws `{OpenWithin} : RecordDecrypterLaws RingRecordDecrypter.t.
Proof.
  split; cbn [Receive.decrypt RingRecordDecrypter.decrypter]; intros [d|d|d] r seq;
    pose proof (decrypt_length d r seq) as Hl; pose proof (decrypt_range d r seq) as Hr;
    pose proof (decrypt_no_panic d r seq) as Hn;
    cbn [Receive.decrypt Tls13RecordDecrypter.decrypter GcmRecordDecrypter.decrypter
      ChaCha20Poly1305RecordDecrypter.decrypter] in Hl, Hr, Hn;
    match goal with |- context [match ?x with (_, _) => _ end] => destruct x as [[d1 o1] r1] end;
    try done; intros d' out p [= <- <- ->]; by eauto.
Qed.

(** ** Records make the round trip *)

Lemma xor_zeros l : zip_with u8_xor (replicate (length l) x00) l = l.
Proof. induction l as [|b l IH]; cbn; [done|]. by rewrite IH, u8_xor_0_l. Qed.

(** The sequence number enters the last eight bytes only. *)
Lemma nonce_array_12 iv seq :
  is_u64 seq → Iv.len iv = NONCE_LEN →
  ∃ nonce, nonce_array iv seq = Ok nonce ∧ length nonce = NONCE_LEN ∧ take 4 nonce = take 4 (Iv.as_ref iv).
Proof.
  intros Hs Hl. destruct (nonce_spec (E:=Error.t) None iv seq) as (n & Hn & Hln & Hb); [done..|].
  unfold nonce_array, Nonce.new. rewrite Hn. step_ok. unfold Nonce.to_array.
  rewrite decide_False by (intros Hne; apply Hne; congruence).
  assert (length (Nonce.as_bytes n) = NONCE_LEN) as Hlen.
  { rewrite Hb, length_zip_with, be_bytes_length, length_iv. lia. }
  unfold Nonce.as_bytes in Hlen, Hb. rewrite length_take in Hlen. unfold get_range. cbn [r_start r_end].
  rewrite decide_True by lia. eexists. split; [done|]. unfold slice. rewrite Nat.sub_0_r, drop_0.
  split; [rewrite length_take; lia|]. rewrite <-Hl, <-Hln, Hb, Hl.
  rewrite nonce_value, decide_True by (done || (unfold NONCE_LEN; lia)).
  pose proof (length_iv iv) as Hiv. rewrite Hl in Hiv. rewrite <-(take_drop 4 (Iv.as_ref iv)) at 1.
  assert (length (take 4 (Iv.as_ref iv)) = 4) as H4 by (rewrite length_take, Hiv; done).
  change (NONCE_LEN - 8) with 4. rewrite zip_with_app by (by rewrite length_replicate).
  rewrite take_app_length' by (rewrite length_zip_with, length_replicate; lia).
  rewrite <-H4 at 1. apply xor_zeros.
Qed.

(** Ciphers with the same keys: for AES-GCM the decrypter knows the fixed part of the
    nonce only. *)
Definition same_keys12 (e : RingRecordEncrypter.t) (d : RingRecordDecrypter.t) : Prop :=
  match e, d with
  | RingRecordEncrypter.Gcm e, RingRecordDecrypter.Gcm d =>
      GcmRecordEncrypter.enc_key e = GcmRecordDecrypter.dec_key d
      ∧ Aead.tag_len (algorithm (GcmRecordEncrypter.enc_key e)) = 16
      ∧ Iv.len (GcmRecordEncrypter.iv e) = NONCE_LEN
      ∧ GcmRecordDecrypter.dec_salt d = take 4 (Iv.as_ref (GcmRecordEncrypter.iv e))
  | RingRecordEncrypter.ChaCha20Poly1305 e, RingRecordDecrypter.ChaCha20Poly1305 d =>
      ChaCha20Poly1305RecordEncrypter.enc_key e = ChaCha20Poly1305RecordDecrypter.dec_key d
      ∧ Aead.tag_len (algorithm (ChaCha20Poly1305RecordEncrypter.enc_key e)) = 16
      ∧ ChaCha20Poly1305RecordEncrypter.enc_offset e = ChaCha20Poly1305RecordDecrypter.dec_offset d
  | _, _ => False
  end.

(** A record that TLS 1.2 can carry. *)
Definition carried12 (r : Record_.t OutboundPlain.t) : Prop :=
  OutboundPlain.wf (Record_.payload r) ∧ OutboundPlain.len (Record_.payload r) ≤ MAX_FRAGMENT_LEN
  ∧ EncodableVersion.encode (Record_.version r) = ProtocolVersion.TLSv1_2.

(** What the decrypter is given: the record as it is read from the wire. *)
Definition on_wire (c : Record_.t (list u8)) : Record_.t (list u8) :=
  Record_.new (Record_.typ c) (EncodableVersion.Legacy ProtocolVersion.TLSv1_2) (Record_.payload c).

Lemma opened_ok c n :
  n ≤ MAX_FRAGMENT_LEN → n ≤ length (Record_.payload c) →
  opened c n = Ok (Record_.new (Record_.typ c) (Record_.version c) (mkRange 0 n)).
Proof.
  intros Hn Hl. unfold opened. rewrite decide_False by lia. by rewrite Nat.min_l by done.
Qed.

(** The plaintext that a decrypter leaves at the front of the buffer. *)
Definition decrypts_to `{RecordDecrypter D} (d : D) (c : Record_.t (list u8)) (seq : Z) (plain : list u8) : Prop :=
  ∃ payload, decrypt d (on_wire c) seq
      = (d, payload, Ok (Record_.new (Record_.typ c) (EncodableVersion.Legacy ProtocolVersion.TLSv1_2)
           (mkRange 0 (length plain))))
    ∧ take (length plain) payload = plain.

Lemma gcm_pairs `{OpenWithin} e d r seq out out' c :
  same_keys12 (RingRecordEncrypter.Gcm e) (RingRecordDecrypter.Gcm d) → carried12 r → is_u64 seq →
  GcmRecordEncrypter.encrypt e r seq out = (e, out', Ok c) →
  Record_.typ c = Record_.typ r ∧ Record_.version c = Record_.version r
  ∧ 0 < length (Record_.payload c) ≤ MAX_FRAGMENT_LEN + GCM_OVERHEAD
  ∧ decrypts_to d c seq (OutboundPlain.flat (Record_.payload r)).
Proof.
  intros (Hk & Htl & Hiv & Hsalt) (Hwf & Hmax & Hv) Hseq. unfold GcmRecordEncrypter.encrypt. cbv zeta.
  destruct encrypt_record as [o r1] eqn:He. intros [= -> ->].
  destruct (nonce_array_12 _ seq Hseq Hiv) as (n & Hn & Hln & H4).
  assert (length (Record_.payload c) = 8 + OutboundPlain.len (Record_.payload r) + 16) as Hlen.
  { rewrite <-Htl. apply (encrypt_record_payload _ _ _ _ _ _ _ _ _ 8 He Hwf).
    intros n' Hn'. apply length_nonce_array in Hn'. rewrite length_drop. unfold NONCE_LEN in *. lia. }
  apply encrypt_record_inv in He as (Ht & Hver & _ & nonce & aad & ct & tag & Hn' & Haad & Hs & Hc).
  assert (nonce = n) as -> by congruence.
  split; [done|]. split; [done|]. split; [unfold GCM_OVERHEAD, GCM_EXPLICIT_NONCE_LEN; lia|]. unfold decrypts_to, on_wire.
  cbn [decrypt GcmRecordDecrypter.decrypter]. unfold GcmRecordDecrypter.decrypt. cbv zeta.
  cbn [Record_.payload Record_.typ Record_.version EncodableVersion.version].
  rewrite decide_False by (rewrite Hlen; unfold GCM_OVERHEAD, GCM_EXPLICIT_NONCE_LEN; lia).
  replace (length (Record_.payload c) - GCM_OVERHEAD) with (OutboundPlain.len (Record_.payload r))
    by (rewrite Hlen; unfold GCM_OVERHEAD, GCM_EXPLICIT_NONCE_LEN; lia).
  rewrite Ht, <-Hv, Haad.
  assert (length (drop 4 n) = 8) as H8 by (rewrite length_drop, Hln; done).
  replace (GcmRecordDecrypter.dec_salt d ++ take 8 (Record_.payload c)) with n.
  2: { rewrite Hsalt, Hc, take_app_length' by done. rewrite <-H4. by rewrite take_drop. }
  pose proof (open_within_shifts (GcmRecordDecrypter.dec_key d) n aad (Record_.payload c)
    GCM_EXPLICIT_NONCE_LEN ltac:(rewrite Hlen; unfold GCM_EXPLICIT_NONCE_LEN; lia)) as Ho.
  assert (drop GCM_EXPLICIT_NONCE_LEN (Record_.payload c) = ct ++ tag) as Hd
    by (rewrite Hc; by apply drop_app_length').
  rewrite Hd, <-Hk in Ho. destruct (Aead.open_seal _ _ _ _ _ _ _ Hs) as (rest & Hos). rewrite Hos in Ho.
  destruct Ho as [Hr Htk]. rewrite <-Hk. destruct open_within as [p q]. cbn [fst snd] in Hr, Htk. subst q.
  exists p. rewrite opened_ok; rewrite <-?len_flat by done;
    cbn [Record_.payload Record_.typ Record_.version]; [|done|rewrite Hlen; lia].
  split; [done|]. rewrite len_flat by done. rewrite (Htk _ eq_refl). apply take_app_length.
Qed.

Lemma chacha_pairs e d r seq out out' c :
  same_keys12 (RingRecordEncrypter.ChaCha20Poly1305 e) (RingRecordDecrypter.ChaCha20Poly1305 d) →
  carried12 r →
  ChaCha20Poly1305RecordEncrypter.encrypt e r seq out = (e, out', Ok c) →
  Record_.typ c = Record_.typ r ∧ Record_.version c = Record_.version r
  ∧ 0 < length (Record_.payload c) ≤ MAX_FRAGMENT_LEN + GCM_OVERHEAD
  ∧ decrypts_to d c seq (OutboundPlain.flat (Record_.payload r)).
Proof.
  intros (Hk & Htl & Hiv) (Hwf & Hmax & Hv). unfold ChaCha20Poly1305RecordEncrypter.encrypt. cbv zeta.
  destruct encrypt_record as [o r1] eqn:He. intros [= -> ->].
  assert (length (Record_.payload c) = OutboundPlain.len (Record_.payload r) + 16) as Hlen.
  { rewrite <-Htl. by apply (encrypt_record_payload _ _ _ _ _ _ _ _ _ 0 He Hwf). }
  apply encrypt_record_inv in He as (Ht & Hver & _ & n & aad & ct & tag & Hn & Haad & Hs & Hc).
  split; [done|]. split; [done|]. split; [unfold GCM_OVERHEAD, GCM_EXPLICIT_NONCE_LEN; lia|]. unfold decrypts_to, on_wire.
  cbn [decrypt ChaCha20Poly1305RecordDecrypter.decrypter]. unfold ChaCha20Poly1305RecordDecrypter.decrypt.
  cbv zeta. cbn [Record_.payload Record_.typ Record_.version EncodableVersion.version].
  rewrite decide_False by (rewrite Hlen; unfold CHACHAPOLY1305_OVERHEAD; lia).
  replace (length (Record_.payload c) - CHACHAPOLY1305_OVERHEAD)
    with (OutboundPlain.len (Record_.payload r)) by (rewrite Hlen; unfold CHACHAPOLY1305_OVERHEAD; lia).
  rewrite Ht, <-Hv, <-Hiv, Hn. step_ok. rewrite Haad. step_ok.
  destruct (Aead.open_seal _ _ _ _ _ _ _ Hs) as (rest & Hos). cbn [app] in Hc. rewrite <-Hk, Hc, Hos.
  eexists. rewrite opened_ok; rewrite <-?len_flat by done;
    cbn [Record_.payload Record_.typ Record_.version]; [|done|rewrite <-Hc, Hlen; lia].
  split; [done|]. rewrite len_flat by done. apply take_app_length.
Qed.

(** What one end encrypts, the other end decrypts. *)
Lemma tls12_pairs `{OpenWithin} e d r seq out e' out' c :
  same_keys12 e d → carried12 r → is_u64 seq → encrypt e r seq out = (e', out', Ok c) →
  e' = e ∧ Record_.typ c = Record_.typ r ∧ Record_.version c = Record_.version r
  ∧ 0 < length (Record_.payload c) ≤ MAX_FRAGMENT_LEN + GCM_OVERHEAD
  ∧ decrypts_to d c seq (OutboundPlain.flat (Record_.payload r)).
Proof.
  destruct e as [e|e|e], d as [d|d|d]; try done; intros Hk Hr Hseq;
    cbn [encrypt RingRecordEncrypter.encrypter].
  - destruct (GcmRecordEncrypter.encrypt e r seq out) as [[e1 o1] r1] eqn:He. intros [= <- -> ->].
    assert (e1 = e) as ->.
    { revert He. unfold GcmRecordEncrypter.encrypt. cbv zeta. destruct encrypt_record. by intros [=]. }
    split; [done|]. destruct (gcm_pairs _ _ _ _ _ _ _ Hk Hr Hseq He) as (? & ? & ? & p & Hd & Htk).
    do 3 (split; [done|]). exists p. split; [|done].
    cbn [decrypt RingRecordDecrypter.decrypter GcmRecordDecrypter.decrypter] in *. by rewrite Hd.
  - destruct (ChaCha20Poly1305RecordEncrypter.encrypt e r seq out) as [[e1 o1] r1] eqn:He. intros [= <- -> ->].
    assert (e1 = e) as ->.
    { revert He. unfold ChaCha20Poly1305RecordEncrypter.encrypt. cbv zeta. destruct encrypt_record. by intros [=]. }
    split; [done|]. destruct (chacha_pairs _ _ _ _ _ _ _ Hk Hr He) as (? & ? & ? & p & Hd & Htk).
    do 3 (split; [done|]). exists p. split; [|done].
    cbn [decrypt RingRecordDecrypter.decrypter ChaCha20Poly1305RecordDecrypter.decrypter] in *. by rewrite Hd.
Qed.

(** ** Both ends *)

(** What the algorithms of [ring] are: tags of 16 bytes, and keys of the lengths that
    [extract_keys] tells apart. *)
Definition ring_aead (a : RingAead12.t) : Prop :=
  match a with
  | RingAead12.Gcm alg => Aead.tag_len alg = 16 ∧ (Aead.key_len alg = 16 ∨ Aead.key_len alg = 32)
  | RingAead12.ChaCha20Poly1305 alg => Aead.tag_len alg = 16 ∧ Aead.key_len alg = 32
  end.

Lemma aead_key_new {E} b :
  length b ≤ AeadKey.MAX_LEN → ∃ k, AeadKey.new (E:=E) b = Ok k ∧ AeadKey.as_ref k = b.
Proof.
  intros Hb. unfold AeadKey.new, write_at. rewrite length_replicate, decide_True by lia. step_ok.
  eexists. split; [done|]. unfold AeadKey.as_ref. cbn [AeadKey.used AeadKey.buf]. rewrite take_0, app_nil_l.
  apply take_app_length.
Qed.

Lemma key_block_key_len a :
  ring_aead a → KeyBlockShape.enc_key_len (RingAead12.key_block_shape a) ≤ AeadKey.MAX_LEN.
Proof.
  unfold AeadKey.MAX_LEN. destruct a as [alg|alg]; cbn; [|lia]. by intros (_ & [-> | ->]); lia.
Qed.

(** An encrypter and a decrypter of the same part of the key block. *)
Lemma ring_ciphers_ok a key iv extra :
  ring_aead a →
  let shape := RingAead12.key_block_shape a in
  length (AeadKey.as_ref key) = KeyBlockShape.enc_key_len shape →
  length iv = KeyBlockShape.fixed_iv_len shape → length extra = KeyBlockShape.explicit_nonce_len shape →
  ∃ e d x, RingAead12.encrypter a key iv extra = Ok e ∧ RingAead12.decrypter a key iv = Ok d
    ∧ RingAead12.extract_keys a key iv extra = Ok x ∧ same_keys12 e d.
Proof.
  destruct a as [alg|alg]; cbn [RingAead12.key_block_shape KeyBlockShape.enc_key_len KeyBlockShape.fixed_iv_len
    KeyBlockShape.explicit_nonce_len ring_aead GcmAlgorithm.key_block_shape ChaCha20Poly1305.key_block_shape].
  - intros (Ht & Hkl) Hk Hiv Hex. cbn [RingAead12.encrypter RingAead12.decrypter RingAead12.extract_keys].
    unfold GcmAlgorithm.encrypter, GcmAlgorithm.decrypter, GcmAlgorithm.extract_keys, gcm_iv.
    rewrite bind_key_ok by done. rewrite !decide_True by done.
    destruct (iv_new_ok (iv ++ extra)) as (i & -> & Hi); [rewrite length_app; unfold Iv.MAX_LEN; lia|].
    repeat step_ok. rewrite (decide_True _ _ Hiv). pose proof (length_iv i) as Hil. rewrite Hi, length_app, Hiv, Hex in Hil.
    destruct Hkl as [Hkl|Hkl]; rewrite Hkl; (eexists _, _, _; split_and!; [reflexivity..|]);
      (split_and!; [done|done|done|]; cbn [GcmRecordDecrypter.dec_salt GcmRecordEncrypter.iv]; rewrite Hi;
       symmetry; by apply take_app_length').
  - intros (Ht & Hkl) Hk Hiv Hex. cbn [RingAead12.encrypter RingAead12.decrypter RingAead12.extract_keys].
    unfold ChaCha20Poly1305.encrypter, ChaCha20Poly1305.decrypter, ChaCha20Poly1305.extract_keys,
      ChaCha20Poly1305.expect_iv. rewrite bind_key_ok by congruence.
    destruct (iv_new_ok iv) as (i & -> & Hi); [unfold Iv.MAX_LEN; lia|]. repeat step_ok.
    by eexists _, _, _.
Qed.

(** An encrypted record is framed. *)
Lemma frame_read12 (c : Record_.t (list u8)) rest :
  0 < length (Record_.payload c) ≤ MAX_FRAGMENT_LEN + GCM_OVERHEAD →
  is_ok (ContentTypeName.try_from (Record_.typ c)) = true →
  EncodableVersion.encode (Record_.version c) = ProtocolVersion.TLSv1_2 →
  Record_read ((wire_header c ++ Record_.payload c) ++ rest) = Ok (on_wire c, rest).
Proof.
  intros Hl Ht Hv. unfold wire_header, on_wire.
  unfold MAX_FRAGMENT_LEN, GCM_OVERHEAD, GCM_EXPLICIT_NONCE_LEN in Hl.
  rewrite encode_record_header_bytes, Hv, <-(assoc_L (++)). rewrite wrapN_small by lia.
  apply Record_read_app. unfold header_ok, is_u16, MAX_PAYLOAD. split_and!; try done; try lia.
Qed.

Section ends.
Context (quic_alg packet_keys header_keys hpke_sealer world : Type).
Context `{!QuicAlgorithm quic_alg packet_keys header_keys} `{!PkiTypes} `{!OpenWithin}.
Let provider := ring_provider quic_alg packet_keys header_keys hpke_sealer world.
#[local] Existing Instance provider.
Let provider12 := ring_tls12 quic_alg packet_keys header_keys hpke_sealer world.
#[local] Existing Instance provider12.

#[local] Instance ring_tls12_laws : Tls12ProviderLaws.
Proof. split. intros p secret n label seed. apply hmac_prf_length. Qed.

(** What one end protects, the other end reads. *)
Definition protects (e : RingRecordEncrypter.t) (d : RingRecordDecrypter.t) : Prop :=
  ∀ r seq out e' out' c rest,
    carried12 r → is_u64 seq → is_ok (ContentTypeName.try_from (Record_.typ r)) = true →
    encrypt e r seq out = (e', out', Ok c) →
    e' = e ∧ Record_read ((wire_header c ++ Record_.payload c) ++ rest) = Ok (on_wire c, rest)
    ∧ Record_.typ c = Record_.typ r ∧ decrypts_to d c seq (OutboundPlain.flat (Record_.payload r)).

Lemma same_keys12_protects e d : same_keys12 e d → protects e d.
Proof.
  intros Hk r seq out e' out' c rest Hr Hs Ht He.
  destruct (tls12_pairs _ _ _ _ _ _ _ _ Hk Hr Hs He) as (-> & Htc & Hv & Hl & Hd).
  split_and!; [done| |done|done]. apply frame_read12; [done|by rewrite Htc|]. rewrite Hv. apply Hr.
Qed.

(** [ring_ciphers_ok], of this provider. *)
Lemma provider_ciphers_ok (a : aead12) key iv extra :
  ring_aead a →
  let shape := key_block_shape a in
  length (AeadKey.as_ref key) = KeyBlockShape.enc_key_len shape →
  length iv = KeyBlockShape.fixed_iv_len shape → length extra = KeyBlockShape.explicit_nonce_len shape →
  ∃ e d x, aead12_encrypter a key iv extra = Ok e ∧ aead12_decrypter a key iv = Ok d
    ∧ aead12_extract_keys a key iv extra = Ok x ∧ same_keys12 e d.
Proof. apply ring_ciphers_ok. Qed.

(** The cipher pairs of the two sides, for secrets that both have. *)
Lemma cipher_pairs_ok (s : ConnectionSecrets.t) :
  derived s → ring_aead (Tls12CipherSuite.aead_alg (ConnectionSecrets.suite s)) →
  ∃ cd ce sd se tx rx,
    ConnectionSecrets.make_cipher_pair s Side.Client = Ok (cd, ce)
    ∧ ConnectionSecrets.make_cipher_pair s Side.Server = Ok (sd, se)
    ∧ protects ce sd ∧ protects se cd
    ∧ ConnectionSecrets.extract_secrets s Side.Client = Ok (PartiallyExtractedSecrets.mk tx rx)
    ∧ ConnectionSecrets.extract_secrets s Side.Server = Ok (PartiallyExtractedSecrets.mk rx tx).
Proof.
  intros Hd Ha. pose proof (key_block_key_len _ Ha) as Hmax.
  destruct (chop_ok s Hd) as (ck & sk & ci & si & ex & Hc & _ & Hck & Hsk & Hci & Hsi & Hex).
  destruct (aead_key_new (E:=Error.t) ck) as (ckey & Hckey & Hcr); [by rewrite Hck|].
  destruct (aead_key_new (E:=Error.t) sk) as (skey & Hskey & Hsr); [by rewrite Hsk|].
  destruct (provider_ciphers_ok _ ckey ci ex Ha) as (ce & sd & tx & Hce & Hsd & Htx & Hcs);
    [by rewrite Hcr|done|done|].
  destruct (provider_ciphers_ok _ skey si ex Ha) as (se & cd & rx & Hse & Hcd & Hrx & Hsc);
    [by rewrite Hsr|done|done|].
  exists cd, ce, sd, se, tx, rx. unfold ConnectionSecrets.make_cipher_pair, ConnectionSecrets.extract_secrets.
  cbv zeta. do 6 (rewrite ?Hc, ?Hckey, ?Hskey, ?Hce, ?Hsd, ?Hse, ?Hcd, ?Htx, ?Hrx; step_ok).
  split_and!; [done|done|by apply same_keys12_protects|by apply same_keys12_protects|done|done].
Qed.

(** C6. The two ends of a TLS 1.2 connection agree.  If the key exchanges of both ends complete
    to the same secret, both derive the same secrets of the connection, whatever the
    seed, the randoms and the suite; the keys and IVs cut from the key block make a cipher pair
    for each side without failing, in which the client's encrypter goes with the server's
    decrypter and the server's encrypter with the client's: every record that one end protects
    is read from the wire and decrypted by the other.  The secrets that the two ends extract
    are those of the other end, with the directions exchanged. *)
Theorem tls12_ends_agree (client_kx server_kx : ActiveKeyExchange.t) (client_pub server_pub : list u8)
    (client_secret server_secret : SharedSecret.t) (ems_seed : option (list u8))
    (randoms : ConnectionRandoms.t) (suite : Tls12CipherSuite.t prf12 aead12) :
  ring_aead (Tls12CipherSuite.aead_alg suite) →
  ActiveKeyExchange.complete_for_tls_version client_kx server_pub ProtocolVersion.TLSv1_2 = Ok client_secret →
  ActiveKeyExchange.complete_for_tls_version server_kx client_pub ProtocolVersion.TLSv1_2 = Ok server_secret →
  SharedSecret.secret_bytes client_secret = SharedSecret.secret_bytes server_secret →
  ∃ s cd ce sd se tx rx,
    ConnectionSecrets.from_key_exchange client_kx server_pub ems_seed randoms suite = Ok s
    ∧ ConnectionSecrets.from_key_exchange server_kx client_pub ems_seed randoms suite = Ok s
    ∧ ConnectionSecrets.make_cipher_pair s Side.Client = Ok (cd, ce)
    ∧ ConnectionSecrets.make_cipher_pair s Side.Server = Ok (sd, se)
    ∧ protects ce sd ∧ protects se cd
    ∧ ConnectionSecrets.extract_secrets s Side.Client = Ok (PartiallyExtractedSecrets.mk tx rx)
    ∧ ConnectionSecrets.extract_secrets s Side.Server = Ok (PartiallyExtractedSecrets.mk rx tx).
Proof.
  intros Ha Hc Hs Heq. assert (∃ s, ConnectionSecrets.from_key_exchange client_kx server_pub ems_seed randoms suite = Ok s
    ∧ ConnectionSecrets.from_key_exchange server_kx client_pub ems_seed randoms suite = Ok s) as (s & H1 & H2).
  { unfold ConnectionSecrets.from_key_exchange, for_key_exchange. cbn [provider12 ring_tls12].
    unfold PrfUsingHmac.for_key_exchange. rewrite Hc, Hs. destruct ems_seed; cbv zeta; step_ok;
      rewrite Heq; by eexists. }
  destruct (from_key_exchange_derived _ _ _ _ _ _ H1) as (Hd & _ & Hsuite).
  destruct (cipher_pairs_ok s Hd) as (cd & ce & sd & se & tx & rx & Hrest); [by rewrite Hsuite|].
  by exists s, cd, ce, sd, se, tx, rx.
Qed.
End ends.
