(* ===== verification/Handlers.v ===== *)
(** * Inversion of handlers

    What a handler that returns has done: tactics that split a successful handler into its
    steps, for the proofs about both sides of a handshake. *)
From stdpp Require Import gmap.
From S2P Require Import Prelude Enums Errors Codec Records Extensions Payloads ServerHello ClientHello.
From S2P Require Import Messages Cipher Send Receive Connection Hkdf KeySchedule Sessions Compress Verify Kx.
From S2P Require Import QuicKeys Transcript Traffic Outputs ClientConfig Ech ClientHs13.

Lemma lift_ok {S E A} (r : result E A) (s s' : S) a : lift r s = (s', Ok a) → s' = s ∧ r = Ok a.
Proof. by intros [= <- ->]. Qed.

Lemma refuse_if_ok {S} b e (s s' : S) u : refuse_if b e s = (s', Ok u) → s' = s ∧ b = false.
Proof. destruct b; by intros [=]. Qed.

Lemma ok_or_ok {E A} (o : option A) (e : E) a : ok_or o e = Ok a → o = Some a.
Proof. destruct o; by intros [= ->]. Qed.

Lemma require_handshake_msg_ok {A} m (f : HandshakePayload.t → option A) ty a :
  require_handshake_msg m f ty = Ok a → ∃ p, handshake_payload m = Some p ∧ f p = Some a.
Proof.
  unfold require_handshake_msg, handshake_payload.
  destruct (Message.payload m); try done. destruct (f _) eqn:Hf; [|done]. intros [= <-]. eauto.
Qed.

Lemma write_at_ok {E A} (l k l' : list A) lo :
  write_at (E:=E) l lo k = Ok l' → lo + length k ≤ length l ∧ length l' = length l.
Proof.
  unfold write_at. case_decide; [|done]. intros [= <-]. split; [done|].
  rewrite !length_app, length_take, length_drop. lia.
Qed.

(** Splits a successful handler into its successful steps. *)
Ltac bind_inv :=
  repeat match goal with
  | H : (_ ≫= _) _ = (_, Ok _) |- _ => apply action_bind_ok in H as (? & ? & ? & H)
  | H : (_ ≫= _) = Ok _ |- _ => apply result_bind_ok in H as (? & ? & H)
  | H : lift _ _ = (_, Ok _) |- _ => apply lift_ok in H as [-> H]
  | H : refuse_if _ _ _ = (_, Ok _) |- _ => apply refuse_if_ok in H as [-> H]
  | H : ok_or _ _ = Ok _ |- _ => apply ok_or_ok in H
  | H : require_handshake_msg _ _ _ = Ok _ |- _ =>
      apply require_handshake_msg_ok in H as (? & ? & H)
  | H : mret _ _ = (_, Ok _) |- _ => injection H; clear H; intros; subst
  | H : Ok _ = Ok _ |- _ => injection H as <-
  end.

(** [bind_inv], through steps that return tuples. *)
Ltac handler_inv :=
  bind_inv;
  repeat match goal with
  | H : (let '(_, _) := ?p in _) _ = (_, Ok _) |- _ => destruct p as [? ?] eqn:?; bind_inv
  end.

Lemma list_find_elem {A} (P : A → Prop) `{!∀ x, Decision (P x)} (l : list A) x :
  snd <$> list_find P l = Some x → x ∈ l ∧ P x.
Proof.
  intros ([i y] & (Hi & HP & _)%list_find_Some & ->)%fmap_Some.
  split; [by eapply list_elem_of_lookup_2|done].
Qed.

(** The payload of an input. *)
Definition input_payload (i : Input.t) : option HandshakePayload.t :=
  handshake_payload (Input.message i).

(** The certificates that a message carries, in the open or compressed by an algorithm
    that was offered. *)
Inductive presents (offered : list CertDecompressor.t) (i : Input.t) (chain : CertificatePayloadTls13.t) : Prop :=
| presents_open : input_payload i = Some (HandshakePayload.CertificateTls13 chain) →
    presents offered i chain
| presents_compressed cc d buffer :
    input_payload i = Some (HandshakePayload.CompressedCertificate cc) →
    d ∈ offered →
    CertDecompressor.algorithm d = CompressedCertificatePayload.alg cc →
    CertDecompressor.decompress_into d (sp_inner (CompressedCertificatePayload.compressed cc))
      (Z.to_nat (CompressedCertificatePayload.uncompressed_len cc)) = Some buffer →
    (CompressedCertificatePayload.uncompressed_len cc ≤ CERTIFICATE_MAX_SIZE_LIMIT)%Z →
    read_bytes buffer = Ok chain →
    presents offered i chain.

Section outside.
Context `{Provider} {S : Type}.

Lemma on_world_ok {A} (m : action world Error.t A) (out out' : Out S) a :
  on_world m out = (out', Ok a) → ∃ w w', m w = (w', Ok a).
Proof.
  unfold on_world, on_join. destruct (m _) as [w' r] eqn:Hm. intros [= <- ->]. eauto.
Qed.

Lemma on_recv_ok {A} (m : action (ReceivePath.t dec) Error.t A) (out out' : Out S) a :
  Output.on_recv m out = (out', Ok a) → ∃ recv, m (Output.recv out) = (recv, Ok a).
Proof.
  unfold Output.on_recv. destruct (m _) as [recv r] eqn:Hm. intros [= <- ->]. eauto.
Qed.

Lemma protocol_suite_ok suite protocol s :
  protocol_suite suite protocol = Ok s → Tls13ProtocolSuite.suite s = suite.
Proof.
  unfold protocol_suite. destruct protocol; [by intros [= <-]|].
  unfold QuicSuite.try_from. destruct (Tls13CipherSuite.quic suite); cbn; [by intros [= <-]|done].
Qed.

End outside.

(** ** Signed messages *)

Lemma verify_message_ok {E} context hash (m : VerifyMessage.t) :
  length context = 34 → VerifyMessage.new (E:=E) hash context = Ok m →
  VerifyMessage.as_ref m = replicate 64 x20 ++ context ++ hash.
Proof.
  intros Hc Hm. destruct (decide (length hash ≤ 64)) as [Hl|Hl].
  - destruct (verify_message_spec (E:=E) hash context) as (m' & Hm' & Hr); [done|done|]. congruence.
  - unfold VerifyMessage.new in Hm. bind_inv.
    repeat match goal with H : write_at _ _ _ = _ |- _ => apply write_at_ok in H as [? ?] end.
    unfold VerifyMessage.MAX_VERIFY_MSG in *. rewrite length_replicate in *. lia.
Qed.

Lemma server_verify_message_ok {E} hash (m : VerifyMessage.t) :
  construct_server_verify_message (E:=E) hash = Ok m →
  VerifyMessage.as_ref m = replicate 64 x20 ++ SERVER_CONSTANT ++ hash.
Proof. by apply verify_message_ok. Qed.

Lemma client_verify_message_ok {E} hash (m : VerifyMessage.t) :
  construct_client_verify_message (E:=E) hash = Ok m →
  VerifyMessage.as_ref m = replicate 64 x20 ++ CLIENT_CONSTANT ++ hash.
Proof. by apply verify_message_ok. Qed.

(** ** The peer that is reported *)

Section quiet.
Context `{Provider} {S : Type} `{!SideOutput S}.
Notation ahs := (hs S).

(** The peer that is reported to the application. *)
Definition peer_in (out : Out S) : option Identity.t :=
  ConnectionOutputs.peer_identity (Join.outputs (Output.other out)).

Definition quiet {A} (m : ahs A) : Prop := ∀ out, peer_in (m out).1 = peer_in out.

Lemma quiet_bind {A B} (m : ahs A) (f : A → ahs B) :
  quiet m → (∀ a, quiet (f a)) → quiet (m ≫= f).
Proof.
  intros Hm Hf out. unfold mbind, action_bind. specialize (Hm out).
  destruct (m out) as [out1 [a| |]]; cbn in *; [|done..]. by rewrite Hf.
Qed.
Lemma quiet_lift {A} (r : result Error.t A) : quiet (lift r).
Proof. done. Qed.
Lemma quiet_ret {A} (x : A) : quiet (mret x).
Proof. done. Qed.
Lemma quiet_fail {A} e : quiet (fail (A:=A) e).
Proof. done. Qed.
Lemma quiet_panic {A} : quiet (panic (A:=A)).
Proof. done. Qed.
Lemma quiet_refuse b e : quiet (refuse_if b e).
Proof. by destruct b. Qed.
Lemma quiet_world {A} (m : action world Error.t A) : quiet (on_world m).
Proof. intros out. unfold on_world, on_join. by destruct (m _). Qed.
Lemma quiet_log {A} (m : action (list KeyLog.entry) Error.t A) : quiet (on_log m).
Proof. intros out. unfold on_log, on_join. by destruct (m _). Qed.
Lemma quiet_side ev : quiet (emit ev).
Proof. intros out. unfold emit, on_side, on_join. by destruct (emit_side _ _). Qed.
Lemma quiet_quic m : quiet (with_quic m).
Proof.
  intros out. unfold with_quic, on_join. destruct (Join.quic _) as [q|] eqn:Hq; [by destruct (m q)|done].
Qed.
Lemma quiet_has_quic : quiet has_quic.
Proof. done. Qed.
Lemma quiet_recv {A} (m : action (ReceivePath.t dec) Error.t A) : quiet (Output.on_recv m).
Proof. intros out. unfold Output.on_recv. by destruct (m _). Qed.
Lemma quiet_sending {A} (m : action (SendPath.t enc sched * list u8) Error.t A) : quiet (Output.on_sending m).
Proof. intros out. unfold Output.on_sending, Output.on_send. by destruct (m _) as [[? ?] ?]. Qed.
Lemma quiet_send {A} (m : action (SendPath.t enc sched * list u8) Error.t A) : quiet (Output.on_send m).
Proof. intros out. unfold Output.on_send. by destruct (m _) as [[? ?] ?]. Qed.
Lemma quiet_capture {A} (m : ahs A) : quiet m → quiet (capture m).
Proof. intros Hm out. specialize (Hm out). unfold capture. by destruct (m out) as [? []]. Qed.
Lemma quiet_plaintext p : quiet (Output.received_plaintext p).
Proof. done. Qed.

Definition is_peer (ev : OutputEvent.t) : bool :=
  match ev with OutputEvent.PeerIdentity _ => true | _ => false end.

Lemma quiet_outputs ev : is_peer ev = false → quiet (on_outputs (ConnectionOutputs.handle ev)).
Proof.
  intros He out. unfold peer_in, on_outputs, on_join.
  destruct (Join.outputs (Output.other out)) as [v [|] s [|] a p ems ex ea]; destruct ev; done.
Qed.
Lemma quiet_output ev : is_peer ev = false → quiet (output ev).
Proof.
  intros He. unfold output. apply quiet_bind; [|intros; by apply quiet_outputs].
  destruct ev; try apply quiet_ret. apply quiet_bind; [apply quiet_recv|intros; apply quiet_send].
Qed.
Lemma quiet_msg m b : quiet (send_msg m b).
Proof.
  unfold send_msg. apply quiet_bind; [apply quiet_has_quic|]. intros [].
  - apply quiet_quic.
  - apply quiet_sending.
Qed.
Lemma quiet_eq {A} (m : ahs A) out out' r : m out = (out', r) → quiet m → peer_in out' = peer_in out.
Proof. intros Hm Hk. specialize (Hk out). by rewrite Hm in Hk. Qed.

Lemma output_peer id (out out' : Out S) r :
  output (OutputEvent.PeerIdentity id) out = (out', r) → peer_in out' = Some id.
Proof.
  unfold output, mbind, action_bind, mret, action_ret, on_outputs, on_join, peer_in.
  destruct (Join.outputs (Output.other out)). cbn. by intros [= <- _].
Qed.
End quiet.

Create HintDb quiet.
#[export] Hint Resolve quiet_bind quiet_lift quiet_ret quiet_fail quiet_panic quiet_refuse : quiet.
#[export] Hint Resolve quiet_world quiet_log quiet_side quiet_quic quiet_has_quic quiet_recv : quiet.
#[export] Hint Resolve quiet_send quiet_sending quiet_capture quiet_plaintext quiet_output quiet_msg : quiet.
#[export] Hint Extern 2 (quiet (match ?x with _ => _ end)) => destruct x : quiet.
#[export] Hint Extern 2 (quiet (HandshakeFlight.finish _ _)) => apply quiet_msg : quiet.
#[export] Hint Extern 2 (quiet (set_encrypter _)) => apply quiet_send : quiet.
#[export] Hint Extern 2 (quiet (set_record_decrypter _)) => apply quiet_recv : quiet.
#[export] Hint Extern 2 (quiet start_traffic) => unfold start_traffic : quiet.

(** Facts [peer_in out' = peer_in out] of the steps that were taken. *)
Ltac follow_peer :=
  repeat match goal with
  | Hm : _ ?out = (?out', Ok _) |- _ =>
      apply quiet_eq in Hm; [|by unfold start_traffic; eauto 20 with quiet]
  end.

(** The payload that a state asked for. *)
Ltac payload_inv :=
  match goal with H : match ?p with _ => _ end = Some _ |- _ => destruct p; simplify_eq end.

Lemma aligned_ok i u : Input.check_aligned_handshake i = Ok u → Input.aligned_handshake i = true.
Proof. unfold Input.check_aligned_handshake. by destruct (Input.aligned_handshake i). Qed.

(** A change of ciphers, between messages. *)
Definition is_ccs (i : Input.t) : Prop :=
  Message.payload (Input.message i) = MessagePayload.ChangeCipherSpec ChangeCipherSpecPayload.mk
  ∧ Input.aligned_handshake i = true.

(** ** Transcripts *)

Definition messages (ins : list Input.t) : list Message.t := Input.message <$> ins.

(** [tr] is [tr0] with more messages. *)
Record extends (tr0 : HandshakeHash.t) (ms : list Message.t) (tr : HandshakeHash.t) : Prop := {
  extends_provider : HandshakeHash.provider tr = HandshakeHash.provider tr0;
  extends_ctx : HandshakeHash.ctx tr = HandshakeHash.ctx tr0 ++ concat (transcript_bytes <$> ms);
}.

(** The hash of the transcript with more messages. *)
Definition hash_with (tr0 : HandshakeHash.t) (ms : list Message.t) : list u8 :=
  Hash.hash (HandshakeHash.provider tr0) (HandshakeHash.ctx tr0 ++ concat (transcript_bytes <$> ms)).

Lemma extends_nil tr : extends tr [] tr.
Proof. split; [done|]. cbn. by rewrite app_nil_r. Qed.

Lemma extends_add tr0 ms tr m : extends tr0 ms tr → extends tr0 (ms ++ [m]) (HandshakeHash.add_message m tr).
Proof.
  intros [Hp Hx]. split; [by rewrite add_message_provider|].
  rewrite add_message_ctx, Hx, fmap_app, concat_app. cbn. by rewrite app_nil_r, (assoc_L (++)).
Qed.

Lemma extends_trans tr0 ms1 tr1 ms2 tr2 :
  extends tr0 ms1 tr1 → extends tr1 ms2 tr2 → extends tr0 (ms1 ++ ms2) tr2.
Proof.
  intros [Hp1 Hx1] [Hp2 Hx2]. split; [congruence|]. by rewrite Hx2, Hx1, fmap_app, concat_app, (assoc_L (++)).
Qed.

Lemma extends_hash tr0 ms tr : extends tr0 ms tr → HandshakeHash.current_hash tr = hash_with tr0 ms.
Proof. intros [Hp Hx]. unfold HandshakeHash.current_hash, hash_with. by rewrite Hp, Hx. Qed.

Lemma extends_abandon tr0 ms tr : extends tr0 ms tr → extends tr0 ms (HandshakeHash.abandon_client_auth tr).
Proof. by intros []. Qed.

Lemma extends_take tr0 ms tr : extends tr0 ms tr → extends tr0 ms (HandshakeHash.take_handshake_buf tr).1.
Proof. by intros []. Qed.

#[export] Hint Resolve extends_nil extends_add extends_abandon extends_take : core.
