(* ===== verification/EndToEnd.v ===== *)
(** * From one application to the other

    Both halves of a TLS 1.3 connection together: what one end writes with its traffic
    keys, key updates included, the other end reads, however the bytes arrive. *)
From stdpp Require Import gmap.
From S2P Require Import Prelude Enums Errors Codec Records Fragmenter Deframer Extensions Payloads.
From S2P Require Import ServerHello ClientHello Messages Send SendFlow Receive ReceiveSpec InputBuffer.
From S2P Require Import Connection ConnectionSpec Cipher Hkdf Tls13Cipher KeySchedule KeyScheduleSpec.
From S2P Require Import Tls13Suites Sessions Traffic.

(** ** Interfaces *)

(** A decrypter that undoes an encrypter: [fit] says that they have the same keys.  An
    encrypted record is short enough to be accepted. *)
Class CipherPair (E D : Type) `{RecordEncrypter E, RecordDecrypter D} (fit : E → D → Prop) : Prop := {
  pair_decrypts e d r seq out e' out' c :
    fit e d → carried r → EncodableVersion.encode (Record_.version r) = ProtocolVersion.TLSv1_2 →
    encrypt e r seq out = (e', out', Ok c) →
    Record_.typ c = ContentType.ApplicationData ∧ Record_.version c = Record_.version r ∧
    length (Record_.payload c) < length (OutboundPlain.flat (Record_.payload r)) + 2048 ∧
    ∃ d' payload, fit e' d' ∧
      decrypt d (Record_.new ContentType.ApplicationData (EncodableVersion.Legacy ProtocolVersion.TLSv1_2)
        (Record_.payload c)) seq
      = (d', payload, Ok (Record_.new (Record_.typ r) (EncodableVersion.Legacy ProtocolVersion.TLSv1_3)
           (mkRange 0 (length (OutboundPlain.flat (Record_.payload r)))))) ∧
      take (length (OutboundPlain.flat (Record_.payload r))) payload
        = OutboundPlain.flat (Record_.payload r);
}.

#[global] Instance ring_pair : CipherPair Tls13RecordEncrypter.t Tls13RecordDecrypter.t same_keys.
Proof.
  split. intros e d r seq out e' out' c Hk Hr Hv He.
  cbn [encrypt decrypt Tls13RecordEncrypter.encrypter Tls13RecordDecrypter.decrypter] in *.
  pose proof He as He'. apply (tls13_pairs e d) in He' as (-> & Ht & Hver & rest & Hd); [|done..].
  split_and!; [done..| |].
  - rewrite (tls13_payload_length _ _ _ _ _ _ _ (proj1 Hr) He), len_flat by apply Hr.
    unfold Tls13RecordEncrypter.encrypted_payload_len.
    pose proof (Aead.tag_len_max (algorithm (Tls13RecordEncrypter.enc_key e))). lia.
  - exists d, (OutboundPlain.flat (Record_.payload r) ++ rest). split_and!; [done..|]. apply take_app_length.
Qed.

(** A traffic state of TLS 1.3: its keys and how many handshake messages it still
    allows in a row. *)
Class TrafficState (St D E Q X : Type) `{RecordEncrypter E, !PkiTypes}
    `{!StateMachine St D E (KeyScheduleTrafficSend.t E D Q) X} := {
  keys_of : St → KeyScheduleTrafficReceive.t E D Q;
  budget : St → nat;
  data_state : St → St;
  update_state : St → KeyScheduleTrafficReceive.t E D Q → St;
  state_wants_input st : wants_input st = true;
  data_state_keys st : keys_of (data_state st) = keys_of st;
  data_state_budget st : budget (data_state st) = TrafficTemperCounters.MAX_CONSECUTIVE_HANDSHAKE_MESSAGES;
  update_state_keys st r : keys_of (update_state st r) = r;
  update_state_budget st r : budget (update_state st r) = budget st - 1;
  handle_data st i p out :
    Message.payload (Input.message i) = MessagePayload.ApplicationData p →
    handle st i out = (Output.with_received (Some (DataKind.Traffic p)) out, Ok (data_state st));
  handle_update st i u enc out out' r :
    Message.payload (Input.message i)
      = MessagePayload.Handshake (HandshakeMessagePayload.mk (HandshakePayload.KeyUpdate u)) enc →
    0 < budget st → ServerTls13.handle_key_update (keys_of st) i u out = (out', Ok r) →
    handle st i out = (out', Ok (update_state st r));
}.

Section instances.
Context {E D Q X SK : Type} `{!RecordEncrypter E, !PkiTypes}.

#[global] Program Instance server_traffic : TrafficState (ServerTls13.ExpectTraffic E D Q) D E Q X := {|
  keys_of := ServerTls13.key_schedule_recv;
  budget st := TrafficTemperCounters.allowed_consecutive_handshake_messages (ServerTls13.counters st);
  data_state st := ServerTls13.mk (ServerTls13.enable_secret_extraction st) (ServerTls13.key_schedule_recv st)
    (TrafficTemperCounters.received_app_data (ServerTls13.counters st));
  update_state st r := ServerTls13.mk (ServerTls13.enable_secret_extraction st) r
    (TrafficTemperCounters.mk
       (TrafficTemperCounters.allowed_consecutive_handshake_messages (ServerTls13.counters st) - 1));
|}.
Solve Obligations with done.
Next Obligation. intros st i p out Hm. cbn. unfold ServerTls13.handle. by rewrite Hm. Qed.
Next Obligation.
  intros [x r [[|n]]] i u enc out out' r' Hm Hb Hu; cbn in *; [lia|]. unfold ServerTls13.handle. rewrite Hm.
  unfold mbind, action_bind, lift. cbn. rewrite Hu. by rewrite Nat.sub_0_r.
Qed.

Context `{!ClientEnv X SK (Tls13Session.t E D Q)}.

#[global] Program Instance client_traffic : TrafficState (ClientTls13.ExpectTraffic E D Q SK) D E Q X := {|
  keys_of := ClientTls13.key_schedule_recv;
  budget st := TrafficTemperCounters.allowed_consecutive_handshake_messages (ClientTls13.counters st);
  data_state st :=
    ClientTls13.with_counters (TrafficTemperCounters.received_app_data (ClientTls13.counters st)) st;
  update_state st r := ClientTls13.with_recv r (ClientTls13.with_counters
    (TrafficTemperCounters.mk
       (TrafficTemperCounters.allowed_consecutive_handshake_messages (ClientTls13.counters st) - 1)) st);
|}.
Solve Obligations with done.
Next Obligation. intros st i p out Hm. cbn. unfold ClientTls13.handle. by rewrite Hm. Qed.
Next Obligation.
  intros [x sk si r res [[|n]]] i u enc out out' r' Hm Hb Hu; cbn in *; [lia|]. unfold ClientTls13.handle.
  rewrite Hm. unfold mbind, action_bind, lift. cbn. revert Hu.
  unfold ServerTls13.handle_key_update, ClientTls13.handle_key_update. cbn.
  destruct (KeyScheduleTrafficReceive.is_quic r); [done|]. unfold mbind, action_bind, lift, mret, action_ret.
  destruct (Input.check_aligned_handshake i); [|done..].
  match goal with |- context [match ?m out with _ => _ end] => destruct (m out) as [out1 [[]| |]] end; [|done..].
  intros ->. by rewrite Nat.sub_0_r.
Qed.
End instances.

(** ** A record, received *)

Section receive.
Context {St D E Q X : Type} `{!RecordEncrypter E, !RecordEncrypterLaws E, !RecordDecrypter D, !PkiTypes}.
Notation K := (KeyScheduleTrafficSend.t E D Q).
Notation Out := (Output.t D E K X).
Context `{!StateMachine St D E K X, !TrafficState St D E Q X}.
Context (fit : E → D → Prop) `{!CipherPair E D fit}.
Implicit Types (k : Keys.t E K) (r : Record_.t OutboundPlain.t).

Definition legacy12 : EncodableVersion.t := EncodableVersion.Legacy ProtocolVersion.TLSv1_2.
Definition legacy13 : EncodableVersion.t := EncodableVersion.Legacy ProtocolVersion.TLSv1_3.

(** The decryption state that reads with the keys [k]. *)
Definition reads (k : Keys.t E K) (ds : DecryptionState.t D) : Prop :=
  DecryptionState.read_seq ds = Keys.seq k ∧
  ∃ d, DecryptionState.record_decrypter ds = Some d ∧ fit (Keys.encrypter k) d.

(** An encrypted record is framed. *)
Lemma frame_read (c : Record_.t (list u8)) rest :
  Record_.typ c = ContentType.ApplicationData →
  EncodableVersion.encode (Record_.version c) = ProtocolVersion.TLSv1_2 →
  (Z.of_nat (length (Record_.payload c)) < MAX_PAYLOAD)%Z →
  Record_read ((wire_header c ++ Record_.payload c) ++ rest)
  = Ok (Record_.new ContentType.ApplicationData legacy12 (Record_.payload c), rest).
Proof.
  intros Ht Hv Hmp. unfold wire_header. rewrite encode_record_header_bytes, Ht, Hv, <-(assoc_L (++)).
  rewrite wrapN_small by (unfold MAX_PAYLOAD in Hmp; lia).
  apply Record_read_app. unfold header_ok, is_u16. unfold MAX_PAYLOAD in *.
  split_and!; try done; try lia. by left.
Qed.

Lemma sealed_read k r bs k1 rest :
  sealed k r bs k1 → carried r → EncodableVersion.encode (Record_.version r) = ProtocolVersion.TLSv1_2 →
  ∀ d, fit (Keys.encrypter k) d →
  k1 = Keys.mk (Keys.encrypter k1) (Keys.seq k + 1) (Keys.schedule k) ∧
  ∃ (c : list u8) d' payload, Record_read (bs ++ rest) = Ok (Record_.new ContentType.ApplicationData legacy12 c, rest) ∧
    decrypt d (Record_.new ContentType.ApplicationData legacy12 c) (Keys.seq k)
    = (d', payload, Ok (Record_.new (Record_.typ r) legacy13
         (mkRange 0 (length (OutboundPlain.flat (Record_.payload r)))))) ∧
    fit (Keys.encrypter k1) d' ∧
    take (length (OutboundPlain.flat (Record_.payload r))) payload = OutboundPlain.flat (Record_.payload r).
Proof using CipherPair0.
  intros (_ & e' & body & c & He & -> & ->) Hr Hv d Hd.
  destruct (pair_decrypts _ _ _ _ _ _ _ _ Hd Hr Hv He) as (Ht & Hver & Hlen & d' & payload & Hf & Hdec & Htake).
  split; [done|]. exists (Record_.payload c), d', payload. split_and!; [|done..].
  apply frame_read; [done|congruence|]. destruct Hr as (Hwf & Hmax & _). rewrite len_flat in Hmax by done.
  unfold MAX_PAYLOAD. unfold MAX_FRAGMENT_LEN in Hmax. lia.
Qed.

Lemma next_record_sealed k r bs k1 (recv : ReceivePath.t D) rest :
  sealed k r bs k1 → carried r → EncodableVersion.encode (Record_.version r) = ProtocolVersion.TLSv1_2 →
  reads k (ReceivePath.decrypt_state recv) → (Keys.seq k < SEQ_SOFT_LIMIT)%Z →
  ∃ ds, reads k1 ds ∧ k1 = Keys.mk (Keys.encrypter k1) (Keys.seq k + 1) (Keys.schedule k) ∧
    Stream.next_record (Stream.mk recv [] (bs ++ rest))
    = (Stream.mk (ReceivePath.with_decrypt_state ds recv) [] rest,
       Ok (Some (Some (Decrypted.mk false
         (Record_.new (Record_.typ r) legacy13 (OutboundPlain.flat (Record_.payload r))))))).
Proof using CipherPair0.
  intros Hs Hr Hv (Hseq & d & Hd & Hfit) Hsoft. pose proof Hs as [H0 _].
  destruct (sealed_read _ _ _ _ rest Hs Hr Hv d Hfit) as (Hk1 & c & d' & payload & Hread & Hdec & Hfit' & Htake).
  exists (DecryptionState.mk (Some d') (Keys.seq k + 1) true
            (DecryptionState.trial_decryption_len (ReceivePath.decrypt_state recv))).
  split; [split; [by rewrite Hk1|by exists d']|]. split; [done|].
  unfold Stream.next_record. cbn [Stream.wire Stream.path Stream.hs]. rewrite Hread.
  change (ReceivePath.allowed_plaintext recv ContentType.ApplicationData c) with false.
  cbn [andb]. unfold DecryptionState.decrypt_incoming. rewrite Hd, Hseq, Hdec.
  rewrite bool_decide_eq_false_2 by lia. cbn [r_start r_end].
  rewrite (wrapN_small 64) by (unfold SEQ_SOFT_LIMIT in Hsoft; lia).
  unfold slice. by rewrite drop_0, Nat.sub_0_r, Htake.
Qed.

(** ** Application data *)

Definition data_record r : Prop :=
  carried r ∧ Record_.typ r = ContentType.ApplicationData ∧ Record_.version r = legacy12 ∧
  0 < length (OutboundPlain.flat (Record_.payload r)).

Definition data_recv (ds : DecryptionState.t D) (recv : ReceivePath.t D) : ReceivePath.t D :=
  ReceivePath.with_empty_fragments 0 (ReceivePath.with_decrypt_state ds recv).

Lemma deframe_data k r bs k1 (recv : ReceivePath.t D) rest fuel :
  sealed k r bs k1 → data_record r → reads k (ReceivePath.decrypt_state recv) →
  (Keys.seq k < SEQ_SOFT_LIMIT)%Z →
  ∃ ds, reads k1 ds ∧ k1 = Keys.mk (Keys.encrypter k1) (Keys.seq k + 1) (Keys.schedule k) ∧
    Stream.deframe fuel false (Stream.mk recv [] (bs ++ rest))
    = (Stream.mk (data_recv ds recv) [] rest,
       Ok (Some (Decrypted.mk false (Record_.new ContentType.ApplicationData legacy13
         (OutboundPlain.flat (Record_.payload r)))))).
Proof using CipherPair0.
  intros Hs (Hr & Ht & Hv & Hl) Hds Hsoft.
  destruct (next_record_sealed k r bs k1 recv rest Hs Hr ltac:(by rewrite Hv) Hds Hsoft)
    as (ds & Hds' & Hk1 & Hn).
  exists ds. split_and!; [done..|]. rewrite stream_deframe_eq. cbn [Stream.hs pending_message].
  unfold Stream.turn, mbind at 1, action_bind at 1. rewrite Hn, Ht.
  unfold Stream.finish, Stream.accept. cbn [Decrypted.plaintext Record_.typ Record_.version Record_.payload].
  unfold mbind, action_bind, gets, id. cbn [Stream.hs]. rewrite decide_False by (by intros []).
  unfold Stream.count_empty, ReceivePath.count_empty. cbn [Stream.path Stream.hs Stream.wire].
  rewrite decide_False by lia. rewrite decide_True by (by right). by rewrite decide_True by done.
Qed.

(** An end that reads with the keys the other end writes with, and whose own send path
    can answer a key update. *)
Record receiving (aead : Tls13AeadAlgorithm.t E D) (k : Keys.t E K) (st : St) (out : Out) : Prop := {
  rc_reads : reads k (ReceivePath.decrypt_state (Output.recv out));
  rc_schedule : ∃ ks, Keys.schedule k = Some ks ∧ in_step ks (keys_of st) ∧
    KeyScheduleSuite.aead (KeyScheduleTrafficSend.ks ks) = aead;
  rc_tcp : KeyScheduleTrafficReceive.is_quic (keys_of st) = false;
  rc_version : ReceivePath.negotiated_version (Output.recv out) = Some ProtocolVersion.TLSv1_3;
  rc_open : ReceivePath.has_received_close_notify (Output.recv out) = false;
  rc_answers : (SendPath.queue_requested_key_update (Output.send out)).2 = Ok tt;
}.

Lemma receive_record_message (record : Record_.t (list u8)) aligned (out : Out) m :
  Record_.typ record ≠ ContentType.ChangeCipherSpec → Message.try_from record = Ok m →
  (∀ a, Message.payload m ≠ MessagePayload.Alert a) →
  ReceivePath.negotiated_version (Output.recv out) = Some ProtocolVersion.TLSv1_3 →
  receive_record record aligned out = (out, Ok (Some (Input.mk m aligned))).
Proof.
  intros Ht Hm Ha Hv. unfold receive_record, mbind, action_bind. rewrite decide_False by done.
  unfold mret, action_ret, lift. rewrite Hm. cbn [map_err].
  assert (reject_renegotiation_request m out = (out, Ok false)) as Hrej.
  { unfold reject_renegotiation_request, mbind, action_bind, gets.
    assert (ReceivePath.is_tls13 (Output.recv out) = true) as ->
      by (unfold ReceivePath.is_tls13; by rewrite Hv). by rewrite orb_true_r. }
  destruct (Message.payload m) eqn:Hp; [by edestruct Ha|..]; by rewrite Hrej.
Qed.

(** A message that the state machine handles. *)
Lemma dispatch_message (record : Record_.t (list u8)) aligned st st' (out out' : Out) m :
  Record_.typ record ≠ ContentType.ChangeCipherSpec → Record_.payload record ≠ [] →
  Message.try_from record = Ok m → (∀ a, Message.payload m ≠ MessagePayload.Alert a) →
  ReceivePath.negotiated_version (Output.recv out) = Some ProtocolVersion.TLSv1_3 →
  handle st (Input.mk m aligned) out = (out', Ok st') →
  MessageIter.dispatch MessageIterMode.All st (Decrypted.mk false record) aligned out = (out', Ok st').
Proof using TrafficState0.
  intros Ht Hp Hm Ha Hv Hh. unfold MessageIter.dispatch. cbn [Decrypted.want_close_before_decrypt Decrypted.plaintext].
  unfold mbind at 1, action_bind at 1, mret at 1, action_ret at 1. rewrite (bool_decide_eq_false_2 _ Hp).
  cbn [negb andb]. unfold mbind at 1, action_bind at 1, report, mbind at 1, action_bind at 1.
  rewrite (receive_record_message _ _ _ m) by done. rewrite Hh.
  by rewrite state_wants_input, andb_false_r.
Qed.

Lemma turn_data aead k r bs k1 st (out : Out) rest :
  sealed k r bs k1 → data_record r → receiving aead k st out → (Keys.seq k < SEQ_SOFT_LIMIT)%Z →
  ∃ out', receiving aead k1 (data_state st) out' ∧
    k1 = Keys.mk (Keys.encrypter k1) (Keys.seq k + 1) (Keys.schedule k) ∧
    StreamConn.turn MessageIterMode.All false st out [] (bs ++ rest)
    = inl (StreamConn.mk (Ok (data_state st)) out' [] rest,
           Ok (Some (OutboundPlain.flat (Record_.payload r)))).
Proof using CipherPair0.
  intros Hs Hr [Hds Hks Htcp Hv Hop Han] Hsoft.
  destruct (deframe_data _ _ _ _ _ rest (length (bs ++ rest)) Hs Hr Hds Hsoft) as (ds & Hds' & Hk1 & Hd).
  exists (Output.with_received None (Output.with_recv (data_recv ds (Output.recv out)) out)).
  split_and!; [|done|].
  - split; cbn; [done| |by rewrite data_state_keys|done..].
    rewrite Hk1. cbn. by rewrite data_state_keys.
  - unfold StreamConn.turn. rewrite state_wants_input. cbn [negb]. rewrite Hd.
    unfold StreamConn.after. destruct Hr as (_ & _ & _ & Hl).
    rewrite (dispatch_message _ _ _ (data_state st) _
      (Output.with_received (Some (DataKind.Traffic (OutboundPlain.flat (Record_.payload r))))
         (Output.with_recv (data_recv ds (Output.recv out)) out))
      (Message.mk legacy13 (MessagePayload.ApplicationData (OutboundPlain.flat (Record_.payload r))))).
    + cbn. by rewrite Hop.
    + done.
    + cbn. by destruct (OutboundPlain.flat _); [cbn in Hl; lia|].
    + done.
    + done.
    + done.
    + by apply handle_data.
Qed.

(** ** Key updates *)

Definition update_message (u : KeyUpdateRequest.t) : Message.t :=
  Message.mk legacy13 (MessagePayload.handshake (HandshakeMessagePayload.mk (HandshakePayload.KeyUpdate u))).

Definition update_bytes (u : KeyUpdateRequest.t) : list u8 := [x18; x00; x00; x01; KeyUpdateRequest.val u].

Lemma is_key_update_inv r :
  is_key_update r → ∃ u,
    (u = KeyUpdateRequest.UpdateRequested ∨ u = KeyUpdateRequest.UpdateNotRequested) ∧
    carried r ∧ Record_.typ r = ContentType.Handshake ∧
    EncodableVersion.encode (Record_.version r) = ProtocolVersion.TLSv1_2 ∧
    OutboundPlain.flat (Record_.payload r) = update_bytes u.
Proof.
  intros [->| ->]; [exists KeyUpdateRequest.UpdateRequested|exists KeyUpdateRequest.UpdateNotRequested];
    (split_and!; [by (left + right)| |done..]); by split_and!.
Qed.

Lemma update_try_from u :
  Message.try_from (Record_.new ContentType.Handshake legacy13 (update_bytes u)) = Ok (update_message u).
Proof. by destruct u. Qed.

Definition update_recv (ds : DecryptionState.t D) (recv : ReceivePath.t D) : ReceivePath.t D :=
  ReceivePath.with_decrypt_state (DecryptionState.finish_trial_decryption ds) (data_recv ds recv).

Lemma deframe_update k r bs k1 (recv : ReceivePath.t D) rest fuel u :
  sealed k r bs k1 → carried r → Record_.typ r = ContentType.Handshake →
  EncodableVersion.encode (Record_.version r) = ProtocolVersion.TLSv1_2 →
  OutboundPlain.flat (Record_.payload r) = update_bytes u → reads k (ReceivePath.decrypt_state recv) →
  (Keys.seq k < SEQ_SOFT_LIMIT)%Z →
  ∃ ds, k1 = Keys.mk (Keys.encrypter k1) (Keys.seq k + 1) (Keys.schedule k) ∧
    Stream.deframe (S fuel) false (Stream.mk recv [] (bs ++ rest))
    = (Stream.mk (update_recv ds recv) [] rest,
       Ok (Some (Decrypted.mk false (Record_.new ContentType.Handshake legacy13 (update_bytes u))))).
Proof using CipherPair0.
  intros Hs Hr Ht Hv Hp Hds Hsoft.
  destruct (next_record_sealed k r bs k1 recv rest Hs Hr Hv Hds Hsoft) as (ds & _ & Hk1 & Hn).
  exists ds. split; [done|]. rewrite stream_deframe_eq. cbn [Stream.hs pending_message].
  unfold Stream.turn, mbind at 1, action_bind at 1. rewrite Hn, Ht, Hp.
  unfold Stream.finish, Stream.accept. cbn [Decrypted.plaintext Record_.typ Record_.version Record_.payload].
  unfold mbind, action_bind, gets, modify, id. cbn [Stream.hs]. rewrite decide_False by (by intros []).
  unfold Stream.count_empty, ReceivePath.count_empty. cbn [Stream.path Stream.hs Stream.wire].
  rewrite decide_False by done. rewrite decide_True by (by left). rewrite decide_False by (by intros []).
  cbn [Stream.path Stream.hs Stream.wire].
  assert (absorb (EncodableVersion.version legacy13) (update_bytes u) []
    = [(ProtocolVersion.TLSv1_3, update_bytes u)]) as -> by by vm_compute.
  cbn [existsb snd]. rewrite bool_decide_eq_false_2.
  2: { destruct u as [v]. unfold oversized_msg. vm_compute. intros ?. naive_solver. }
  unfold mret, action_ret. cbn [orb Decrypted.want_close_before_decrypt]. rewrite stream_deframe_eq. cbn [Stream.hs pending_message].
  assert (is_whole (update_bytes u) = true) as Hw by by vm_compute. rewrite Hw.
  unfold Stream.take_message. cbn [Stream.hs Stream.path Stream.wire]. by rewrite Hw.
Qed.

(** Whether the key update is answered does not change by answering, nor by an answer. *)
Lemma queue_again (s s' : SendPath.t E K) :
  SendPath.queue_requested_key_update s = (s', Ok tt) →
  (SendPath.queue_requested_key_update s').2 = Ok tt.
Proof.
  unfold SendPath.queue_requested_key_update at 1.
  destruct (SendPath.encrypt_state s) as [|e|] eqn:He; [done| |done].
  destruct (Encrypting.key_update_remote e) as [|m] eqn:Hm.
  2: { intros [= <-]. unfold SendPath.queue_requested_key_update. by rewrite He, Hm. }
  destruct (send_short_self _ (e, [])) as [[e1 queued] [[]| |]]; [|done..].
  cbn [Encrypting.tls13_key_schedule Encrypting.with_key_update_remote].
  destruct (Encrypting.tls13_key_schedule e1) as [ks|]; [|by intros [= <-]].
  by destruct (update_encrypter_for_key_update ks) as [[ne ks']| |]; [intros [= <-]|..].
Qed.

Lemma send_short_local (m : Message.t) v (e : Encrypting.t E K) tls :
  send_short_self m (Encrypting.with_key_update_local v e, tls)
  = let '((e1, tls1), r) := send_short_self m (e, tls) in ((Encrypting.with_key_update_local v e1, tls1), r).
Proof.
  rewrite !send_short_self_eq. unfold mbind, action_bind, Encrypting.write_key_update.
  cbn [Encrypting.with_key_update_local Encrypting.key_update_remote].
  destruct (KeyUpdateRemote.write (Encrypting.key_update_remote e) tls) as [rem tls'].
  unfold Encrypting.encrypt_outgoing, Encrypting.encrypt_outgoing_into, Encrypting.encrypted_len.
  cbn [Encrypting.with_key_update_remote Encrypting.with_key_update_local Encrypting.write_seq
    Encrypting.encrypter Encrypting.with_write_seq].
  case_decide; [done|]. case_decide; [done|].
  by destruct (encrypt _ _ _ _) as [[e' body] [c|err|]].
Qed.

Lemma note_answers (s : SendPath.t E K) :
  (SendPath.queue_requested_key_update s).2 = Ok tt →
  ∃ s', SendPath.note_key_update_response s = (s', Ok tt) ∧
    (SendPath.queue_requested_key_update s').2 = Ok tt.
Proof.
  intros Hq. unfold SendPath.note_key_update_response.
  destruct (SendPath.encrypt_state s) as [|e|] eqn:He; [by exists s| |by exists s].
  destruct (Encrypting.key_update_local e); [by exists s|]. eexists. split; [done|].
  unfold SendPath.queue_requested_key_update in *. rewrite He in Hq.
  cbn [SendPath.encrypt_state SendPath.with_state Encrypting.key_update_remote
    Encrypting.with_key_update_local] in *.
  destruct (Encrypting.key_update_remote e) as [|m]; [|done].
  rewrite send_short_local. destruct (send_short_self _ (e, [])) as [[e1 queued] [[]| |]]; [|done..].
  cbn [Encrypting.tls13_key_schedule Encrypting.with_key_update_remote Encrypting.with_key_update_local] in *.
  destruct (Encrypting.tls13_key_schedule e1) as [ks|]; [|done].
  by destruct (update_encrypter_for_key_update ks) as [[ne ks']| |].
Qed.

Context (aead : Tls13AeadAlgorithm.t E D) (aead_fit : ∀ e d, fits aead e d → fit e d).

(** The receiver's answer to a key update, and its new keys. *)
Lemma handle_key_update_ok ks (r : KeyScheduleTrafficReceive.t E D Q) m u (out : Out) :
  u = KeyUpdateRequest.UpdateRequested ∨ u = KeyUpdateRequest.UpdateNotRequested →
  KeyScheduleTrafficReceive.is_quic r = false → in_step ks r →
  KeyScheduleSuite.aead (KeyScheduleTrafficSend.ks ks) = aead →
  (SendPath.queue_requested_key_update (Output.send out)).2 = Ok tt →
  ∃ e ks' d (rk : KeyScheduleTrafficReceive.t E D Q) s' b, (∀ x, update_encrypter ks = Ok x ∨ update_encrypter_for_key_update ks = Ok x → x = (e, ks')) ∧
    fit (Encrypter.encrypter e) d ∧ in_step ks' rk ∧
    KeyScheduleSuite.aead (KeyScheduleTrafficSend.ks ks') = aead ∧
    KeyScheduleTrafficReceive.is_quic rk = false ∧
    (SendPath.queue_requested_key_update s').2 = Ok tt ∧
    ServerTls13.handle_key_update r (Input.mk m true) u out
    = (Output.mk (ReceivePath.with_decrypt_state (DecryptionState.set_record_decrypter d
         (ReceivePath.decrypt_state (Output.recv out))) (Output.recv out)) s' (Output.tls out)
         (Output.other out) (Output.received out) b, Ok rk).
Proof using aead_fit.
  intros Hu Hq Hin Haead Han.
  destruct (in_step_update ks r (Output.recv out) Hin) as (e & ks' & d & r' & H1 & H2 & H3 & Hf & Hin' & Hk1 & Hk2).
  assert (∃ s' b, (SendPath.queue_requested_key_update s').2 = Ok tt ∧
    (if decide (u = KeyUpdateRequest.UpdateNotRequested)
     then Output.on_send (on_self SendPath.note_key_update_response)
     else if decide (u = KeyUpdateRequest.UpdateRequested)
     then Output.on_sending (on_self SendPath.queue_requested_key_update)
     else fail (Error.InvalidMessage InvalidMessage.InvalidKeyUpdate)) out
    = (Output.mk (Output.recv out) s' (Output.tls out) (Output.other out) (Output.received out) b, Ok tt))
    as (s' & b & Han' & Hs').
  { destruct Hu as [-> | ->].
    - rewrite decide_False, decide_True by done.
      destruct (SendPath.queue_requested_key_update (Output.send out)) as [s' [[]| |]] eqn:Hqs; [|done..].
      exists s', true. split; [by eapply queue_again|]. unfold Output.on_sending, Output.on_send, on_self. cbn. by rewrite Hqs.
    - rewrite decide_True by done. destruct (note_answers _ Han) as (s' & Hn & Hq').
      exists s', (Output.send_required out). split; [done|]. unfold Output.on_send, on_self. by rewrite Hn. }
  exists e, ks', d, r', s', b. rewrite Haead in Hf. split_and!; [|by apply aead_fit|done|by rewrite Hk1| |done|].
  - intros x [Hx|Hx]; [change (KeyScheduleTrafficSend.update_encrypter ks = Ok x) in Hx|
      change (KeyScheduleTrafficSend.update_encrypter_for_key_update ks = Ok x) in Hx]; congruence.
  - unfold KeyScheduleTrafficReceive.is_quic in *. by rewrite Hk2.
  - unfold ServerTls13.handle_key_update. rewrite Hq. unfold mbind, action_bind, lift. cbn [Input.check_aligned_handshake Input.aligned_handshake].
    rewrite Hs'. unfold Output.on_recv. cbn [Output.recv]. by rewrite H3.
Qed.

Lemma turn_update k r bs k1 k2 st (out : Out) rest :
  is_key_update r → sealed k r bs k1 → next_keys k1 k2 → receiving aead k st out → 0 < budget st →
  (Keys.seq k < SEQ_SOFT_LIMIT)%Z → Output.received out = None →
  ∃ st' out', receiving aead k2 st' out' ∧ budget st' = budget st - 1 ∧ Output.received out' = None ∧
    StreamConn.turn MessageIterMode.All false st out [] (bs ++ rest) = inr (st', out', [], rest).
Proof using CipherPair0 aead_fit.
  intros Hu Hs Hn [Hds (ks & Hks & Hin & Haead) Htcp Hv Hop Han] Hb Hsoft Hrec.
  destruct (is_key_update_inv r Hu) as (u & Huu & Hr & Ht & Hver & Hp).
  assert (∃ n, length (bs ++ rest) = S n) as [n Hlen].
  { destruct Hs as (_ & ? & ? & c & _ & -> & _). by eexists. }
  destruct (deframe_update _ _ _ _ _ rest n u Hs Hr Ht Hver Hp Hds Hsoft) as (ds & Hk1 & Hd).
  set (out1 := Output.with_recv (update_recv ds (Output.recv out)) out).
  destruct (handle_key_update_ok ks (keys_of st) (update_message u) u out1 Huu Htcp Hin Haead Han)
    as (e & ks' & d & r' & s' & b & Hup & Hfit & Hin' & Haead' & Hq' & Han' & Hh).
  destruct Hn as (ks0 & e0 & ks0' & Hks0 & -> & Hup0). rewrite Hk1 in Hks0. cbn in Hks0.
  rewrite Hks in Hks0. injection Hks0 as <-. apply Hup in Hup0. injection Hup0 as -> ->.
  match type of Hh with _ = (?o, _) => set (out2 := o) in Hh end.
  exists (update_state st r'), (Output.with_received None out2). split_and!; cycle 3.
  - unfold StreamConn.turn. rewrite state_wants_input. cbn [negb]. rewrite Hlen, Hd. unfold StreamConn.after.
    assert (handle st (Input.mk (update_message u) true) out1 = (out2, Ok (update_state st r'))) as Hhs
      by (eapply handle_update; [done|done|exact Hh]).
    fold out1. rewrite (dispatch_message _ _ _ (update_state st r') _ out2 (update_message u));
      [|done|done|apply update_try_from|done|done|exact Hhs].
    cbn. by rewrite Hop, Hrec.
  - split; cbn; [|exists ks'|by rewrite update_state_keys|done..].
    + split; [done|]. by exists d.
    + by rewrite update_state_keys.
  - apply update_state_budget.
  - done.
Qed.

(** ** A flow of records, received *)

(** No more than [n] key updates, and then never more than the receiver allows, come
    without application data between them. *)
Fixpoint paced (n : nat) (rs : list (Record_.t OutboundPlain.t)) : bool :=
  match rs with
  | [] => true
  | r :: rs =>
      if decide (Record_.typ r = ContentType.ApplicationData)
      then paced TrafficTemperCounters.MAX_CONSECUTIVE_HANDSHAKE_MESSAGES rs
      else match n with O => false | S n => paced n rs end
  end.

Notation next := (StreamConn.next MessageIterMode.All false).

Lemma receiving_received k st (out : Out) v :
  receiving aead k st out → receiving aead k st (Output.with_received v out).
Proof. intros []. by split. Qed.

Lemma next_data k r bs k1 st (out : Out) rest :
  sealed k r bs k1 → data_record r → receiving aead k st out → (Keys.seq k < SEQ_SOFT_LIMIT)%Z →
  ∃ out', receiving aead k1 (data_state st) out' ∧ Keys.seq k1 = (Keys.seq k + 1)%Z ∧
    next (StreamConn.mk (Ok st) out [] (bs ++ rest))
    = (StreamConn.mk (Ok (data_state st)) out' [] rest, Ok (Some (OutboundPlain.flat (Record_.payload r)))).
Proof using CipherPair0.
  intros Hs Hr Hrc Hsoft. apply (receiving_received _ _ _ None) in Hrc.
  destruct (turn_data _ _ _ _ _ _ _ rest Hs Hr Hrc Hsoft) as (out' & Hrc' & Hk1 & Ht).
  exists out'. split_and!; [done|by rewrite Hk1|]. unfold StreamConn.next.
  cbn [StreamConn.state StreamConn.output StreamConn.hs StreamConn.wire StreamConn.next_loop]. by rewrite Ht.
Qed.

Context `{!RecordDecrypterLaws D}.

Lemma next_update k r bs k1 k2 st (out : Out) rest :
  is_key_update r → sealed k r bs k1 → next_keys k1 k2 → receiving aead k st out → 0 < budget st →
  (Keys.seq k < SEQ_SOFT_LIMIT)%Z →
  ∃ st' out', receiving aead k2 st' out' ∧ budget st' = budget st - 1 ∧
    next (StreamConn.mk (Ok st) out [] (bs ++ rest)) = next (StreamConn.mk (Ok st') out' [] rest).
Proof using CipherPair0 aead_fit RecordDecrypterLaws0.
  intros Hu Hs Hn Hrc Hb Hsoft. apply (receiving_received _ _ _ None) in Hrc.
  destruct (turn_update _ _ _ _ _ _ _ rest Hu Hs Hn Hrc Hb Hsoft eq_refl) as (st' & out' & Hrc' & Hb' & Ho & Ht).
  exists st', out'. split_and!; [done..|]. unfold StreamConn.next.
  cbn [StreamConn.state StreamConn.output StreamConn.hs StreamConn.wire].
  assert (Output.with_received None out' = out') as -> by (destruct out'; cbn in *; by subst).
  destruct (stream_next_total (St:=St) MessageIterMode.All false st' out' [] rest) as (s & res & Hsr & _).
  rewrite (Hsr (S (StreamConn.size [] rest))) by lia.
  pose proof (stream_turn_size MessageIterMode.All false st (Output.with_received None out) [] (bs ++ rest)) as Hsz.
  rewrite Ht in Hsz. remember (StreamConn.size [] (bs ++ rest)) as n.
  cbn [StreamConn.next_loop]. rewrite Ht. by rewrite Hsr.
Qed.

Lemma next_empty k st (out : Out) :
  receiving aead k st out →
  next (StreamConn.mk (Ok st) out [] []) = (StreamConn.mk (Ok st) (Output.with_received None out) [] [], Ok None).
Proof.
  intros _. unfold StreamConn.next.
  cbn [StreamConn.state StreamConn.output StreamConn.hs StreamConn.wire StreamConn.next_loop].
  unfold StreamConn.turn. rewrite state_wants_input. cbn [negb length]. rewrite stream_deframe_eq.
  cbn [Stream.hs pending_message]. by destruct out.
Qed.

Lemma handle_flow k rs bs k' :
  flow data_record k rs bs k' → ∀ st (out : Out) buf fuel,
  receiving aead k st out → paced (budget st) rs = true →
  (Keys.seq k + Z.of_nat (length rs) < SEQ_SOFT_LIMIT)%Z → length bs ≤ fuel →
  ∃ st' out', receiving aead k' st' out' ∧
    StreamConn.handle_loop fuel (StreamConn.mk (Ok st) out [] bs) buf
    = Some (StreamConn.mk (Ok st') out' [] [], buf ++ app_data rs, Ok tt).
Proof using CipherPair0 aead_fit RecordDecrypterLaws0.
  induction 1 as [k|k r bs k1 rs bs' k2 Hr Hs Hf IH|k r bs k1 k2 rs bs' k3 Hu Hs Hn Hf IH];
    intros st out buf fuel Hrc Hpc Hseq Hfuel; rewrite stream_handle_eq.
  - rewrite (next_empty _ _ _ Hrc). exists st, (Output.with_received None out).
    unfold app_data. cbn. rewrite app_nil_r. split; [by apply receiving_received|done].
  - cbn [length] in Hseq.
    destruct (next_data _ _ _ _ _ _ bs' Hs Hr Hrc ltac:(lia)) as (out1 & Hrc1 & Hk1 & ->).
    pose proof Hs as (_ & ? & ? & c & _ & Hbs & _).
    apply (f_equal length) in Hbs. rewrite length_app, length_wire_header in Hbs. unfold HEADER_SIZE in Hbs.
    rewrite length_app in Hfuel. destruct fuel as [|fuel]; [lia|].
    destruct Hr as (_ & Ht & _).
    destruct (IH (data_state st) out1 (buf ++ OutboundPlain.flat (Record_.payload r)) fuel) as (st' & out' & Hrc' & ->);
      [done| |lia|lia|].
    + cbn [paced] in Hpc. rewrite decide_True in Hpc by done. by rewrite data_state_budget.
    + exists st', out'. split; [done|]. change (r :: rs) with ([r] ++ rs).
      rewrite app_data_app, <-(assoc_L (++)). do 3 f_equal. unfold app_data.
      cbn [fmap list_fmap concat]. by rewrite decide_True, app_nil_r, to_vec_flat.
  - cbn [length] in Hseq. pose proof Hs as ([H0 _] & ? & ? & c & _ & Hbs & _).
    destruct (is_key_update_inv r Hu) as (u & _ & _ & Ht & _). cbn [paced] in Hpc.
    rewrite decide_False in Hpc by (by rewrite Ht). destruct (budget st) as [|b] eqn:Hb; [done|].
    destruct (next_update _ _ _ _ _ _ _ bs' Hu Hs Hn Hrc ltac:(lia) ltac:(lia)) as (st1 & out1 & Hrc1 & Hb1 & ->).
    rewrite Hb, Nat.sub_succ, Nat.sub_0_r in Hb1. rewrite length_app in Hfuel.
    destruct (IH st1 out1 buf fuel) as (st' & out' & Hrc' & Hl); [done|by rewrite Hb1| |lia|].
    { destruct Hn as (? & ? & ? & _ & -> & _). cbn. lia. }
    exists st', out'. split; [done|]. rewrite stream_handle_eq in Hl. rewrite Hl.
    assert (app_data [r] = []) as Hz
      by (unfold app_data; cbn [fmap list_fmap concat]; by rewrite decide_False by (by rewrite Ht)).
    change (r :: rs) with ([r] ++ rs). by rewrite app_data_app, Hz.
Qed.
End receive.

(** ** Both ends *)

(** What an application does with an established connection: write, refresh the keys
    and answer the peer's key updates.  [OutboundPlain.wf]: the chunks of a write have
    the length they claim. *)
Definition data_op {E K} (op : send_op E K) : Prop :=
  match op with
  | OpAppData (DataKind.Early p) | OpAppData (DataKind.Traffic p) => OutboundPlain.wf p
  | OpCloseNotify | OpAlert _ _ | OpMsg _ _ | OpSetEncrypter _ | OpKeySchedule _ => False
  | _ => True
  end.

Lemma data_op_traffic {E K} (op : send_op E K) : data_op op → traffic_op data_record op.
Proof.
  assert (sendable data_record ContentType.ApplicationData legacy12) as Hs.
  { intros p Hp H0 Hl. rewrite len_flat in H0 by done. by split_and!. }
  destruct op as [ | | [p|p] | | | | | | | | | | ]; try done; intros Hop; by split.
Qed.

Section both.
Context {I St D E Q X : Type} `{!TlsInputBuffer I, !TlsInputBufferLaws I}.
Context `{!RecordEncrypter E, !RecordEncrypterLaws E, !RecordDecrypter D, !RecordDecrypterLaws D, !PkiTypes}.
Notation K := (KeyScheduleTrafficSend.t E D Q).
Context `{!StateMachine St D E K X, !StateMachineLaws St D E K X, !TrafficState St D E Q X}.
Context (fit : E → D → Prop) `{!CipherPair E D fit} (aead : Tls13AeadAlgorithm.t E D).
Notation Iter := (MessageIter.t I St D E K X).

(** The receiving end, with nothing left to read. *)
Record ready (k : Keys.t E K) (it : Iter) (st : St) : Prop := {
  ready_state : MessageIter.state it = Ok st;
  ready_ok : conn_ok it;
  ready_hs : StreamConn.hs (stream_of_conn it) = [];
  ready_wire : StreamConn.wire (stream_of_conn it) = [];
  ready_keys : receiving fit aead k st (MessageIter.output it);
}.

Lemma receiving_deframer k st (out : Output.t D E K X) d :
  receiving fit aead k st out ↔ receiving fit aead k st (set_deframer d out).
Proof. split; intros []; by split. Qed.

Lemma stream_receive_flow k rs bs k' (it : Iter) st buf :
  (∀ e d, fits aead e d → fit e d) → ready k it st → flow data_record k rs bs k' →
  paced (budget st) rs = true → (Keys.seq k + Z.of_nat (length rs) < SEQ_SOFT_LIMIT)%Z →
  ∃ st' out', receiving fit aead k' st' out' ∧
    stream_receive [bs] (stream_of_conn it, buf)
    = ((StreamConn.mk (Ok st') out' [] [], buf ++ app_data rs), Ok tt).
Proof using CipherPair0 RecordDecrypterLaws0.
  intros Hfit [Hst Hok Hhs Hw Hrc] Hf Hp Hseq. cbn [stream_receive].
  unfold mbind, action_bind, modify. unfold stream_of_conn in *.
  cbn [StreamConn.hs StreamConn.wire] in Hhs, Hw.
  unfold conn_feed. cbn [StreamConn.state StreamConn.output StreamConn.hs StreamConn.wire].
  rewrite Hst, Hhs, Hw, app_nil_l. rewrite (receiving_deframer _ _ _ Deframer.default) in Hrc.
  unfold StreamConn.handle_all. cbn [StreamConn.hs StreamConn.wire].
  destruct (handle_flow fit aead Hfit _ _ _ _ Hf st _ buf (StreamConn.size [] bs) Hrc Hp Hseq)
    as (st' & out' & Hrc' & ->); [cbn; lia|].
  exists st', out'. split; [done|]. cbn. unfold IoState.new. cbn.
  by rewrite (rc_open _ _ _ _ _ Hrc').
Qed.

Lemma receive_flow (refill : list u8 → I → I) k rs k' (it : Iter) st buf chunk chunks :
  (∀ bs i, input_ok i → input_ok (refill bs i) ∧ held (refill bs i) = held i ++ bs) →
  (∀ e d, fits aead e d → fit e d) → ready k it st → flow data_record k rs (concat (chunk :: chunks)) k' →
  paced (budget st) rs = true → (Keys.seq k + Z.of_nat (length rs) < SEQ_SOFT_LIMIT)%Z →
  ∃ it' st', receive_all refill (chunk :: chunks) (it, buf) = ((it', buf ++ app_data rs), Ok tt) ∧
    ready k' it' st'.
Proof using CipherPair0 RecordDecrypterLaws0 StateMachineLaws0.
  intros Hre Hfit Hrd Hf Hp Hseq.
  destruct (stream_receive_flow _ _ _ _ it st buf Hfit Hrd Hf Hp Hseq) as (st' & out' & Hrc & Hsr).
  pose proof Hrd as [_ Hok _ _ _]. destruct (conn_ok_linked it Hok) as [Hl Hc].
  pose proof (receive_all_refines refill Hre (chunk :: chunks) it (stream_of_conn it) buf Hl Hc) as Hr.
  pose proof (stream_receive_concat chunk chunks (stream_of_conn it) buf Hc) as Hcc.
  rewrite Hsr in Hcc. destruct (stream_receive (chunk :: chunks) _) as [[s1 buf1] r1].
  unfold outcome in Hcc. cbn in Hcc. injection Hcc as Hst1 Hout1 -> -> Hleft.
  destruct (receive_all refill (chunk :: chunks) (it, buf)) as [[it' buf'] r].
  destruct Hr as (-> & -> & Hs & Hlk). destruct (Hs ltac:(done)) as [Hs1 Hs2]. specialize (Hlk eq_refl).
  injection Hleft as Hhs1 Hw1. apply linked_stream in Hlk as Hs3.
  exists it', st'. split; [done|]. split.
  - congruence.
  - split; [apply Hlk|]. unfold is_open.
    change (ReceivePath.has_received_close_notify (Output.recv (MessageIter.output it')))
      with (ReceivePath.has_received_close_notify
        (Output.recv (set_deframer Deframer.default (MessageIter.output it')))).
    rewrite Hs2, Hout1. by apply Hrc.
  - by rewrite Hs3.
  - by rewrite Hs3.
  - apply (receiving_deframer _ _ _ Deframer.default). by rewrite Hs2, Hout1.
Qed.

(** C5. What one end writes the other end reads.  Let a TLS 1.3 connection be
    established, with the key schedules of the sender and the receiver in step, and let
    the sender write data, refresh its keys and answer key updates, in any order.  The
    bytes it produces are a flow of records which carry the data written; and a
    receiver that is fed these bytes, in pieces of any size, delivers exactly the data
    written, without an error, following every change of keys, and is in step again at
    the end.  (The receiver does not accept more than 32 key updates in a row, and the
    records are fewer than 2^64 - 2^16.) *)
Theorem end_to_end (refill : list u8 → I → I) (ops : list (send_op E K))
    (s s' : SendPath.t E K * list u8) (e : Encrypting.t E K) (it : Iter) (st : St) (buf : list u8) :
  (∀ bs i, input_ok i → input_ok (refill bs i) ∧ held (refill bs i) = held i ++ bs) →
  (∀ e d, fits aead e d → fit e d) →
  Forall data_op ops → send_all ops s = Some s' →
  SendPath.encrypt_state s.1 = EncryptionState.Encrypting e → (0 <= Encrypting.write_seq e)%Z →
  Fragmenter.max_frag (SendPath.fragmenter s.1) ≤ MAX_FRAGMENT_LEN_usize →
  ready (Keys.in_use e) it st →
  ∃ rs bs e', SendPath.encrypt_state s'.1 = EncryptionState.Encrypting e' ∧
    s'.2 ++ pending e' = s.2 ++ pending e ++ bs ∧
    flow data_record (Keys.in_use e) rs bs (Keys.in_use e') ∧
    app_data rs = concat (op_data <$> ops) ∧
    ∀ chunk chunks, concat (chunk :: chunks) = bs → paced (budget st) rs = true →
      (Encrypting.write_seq e + Z.of_nat (length rs) < SEQ_SOFT_LIMIT)%Z →
      ∃ it' st', receive_all refill (chunk :: chunks) (it, buf)
        = ((it', buf ++ concat (op_data <$> ops)), Ok tt) ∧ ready (Keys.in_use e') it' st'.
Proof using CipherPair0 RecordDecrypterLaws0 RecordEncrypterLaws0 StateMachineLaws0.
  intros Hre Hfit Ho Hr He H0 Hf Hrd. pose proof Hrd as [_ _ _ _ [_ (ks & Hks & _) _ _ _ _]].
  assert (Forall (traffic_op data_record) ops) as Ho'
    by (eapply Forall_impl; [exact Ho|apply data_op_traffic]).
  destruct (grows_run data_record ops s s' Ho' Hr e) as (e' & rs & bs & Hs' & Hb & Hfl & Hd).
  { split; [done..| |done]. right. by exists ks. }
  exists rs, bs, e'. split_and!; [apply Hs'|done..|].
  intros chunk chunks Hc Hp Hseq. rewrite <-Hd. rewrite <-Hc in Hfl.
  by apply (receive_flow refill (Keys.in_use e) rs (Keys.in_use e') it st).
Qed.
End both.

(** A connection with a toy AEAD, whose tag is a checksum of the key and the nonce. *)
Module ToyConnection.
Definition tag (key nonce : list u8) : list u8 := [u8_of_Z (Toy.sum key + Toy.sum nonce)].

Definition open (key nonce c : list u8) : list u8 * option nat :=
  (c, match length c with
      | O => None
      | S n => if decide (drop n c = tag key nonce) then Some n else None
      end).

Program Definition aead : Aead.t :=
  Aead.mk 16 1 _ _ (λ key nonce _ p, (p, Some (tag key nonce))) (λ key nonce _ c, open key nonce c)
    _ _ _ _ _.
Next Obligation. lia. Qed.
Next Obligation. lia. Qed.
Next Obligation. done. Qed.
Next Obligation. intros key nonce aad p c t Hs. by injection Hs as <- <-. Qed.
Next Obligation. done. Qed.
Next Obligation.
  intros key nonce aad c p n Ho. injection Ho as <- Hn. destruct (length c); [done|].
  case_decide; [|done]. injection Hn as <-. lia.
Qed.
Next Obligation.
  intros key nonce aad p c t Hs. injection Hs as <- <-. exists (tag key nonce). unfold open.
  rewrite length_app, Nat.add_1_r. rewrite decide_True; [done|]. by rewrite drop_app_length.
Qed.

Definition suite : Tls13ProtocolSuite.t Tls13RecordEncrypter.t Tls13RecordDecrypter.t Empty_set :=
  Tls13ProtocolSuite.Tcp (Tls13CipherSuite.mk
    (CipherSuiteCommon.mk CipherSuite.TLS13_AES_128_GCM_SHA256 Toy.hash (2 ^ 24))
    (HkdfUsingHmac.hkdf Toy.hmac) (Aes128GcmAead aead) None).

Definition secret : OkmBlock.t := OkmBlock.mk ([x01; x02; x03; x04] ++ replicate 60 x00) 4.
Definition key : less_safe_key := mk_key aead (replicate 16 x11).
Definition iv : Iv.t := Iv.mk (replicate 16 x07) 12 I.

Notation K := (KeyScheduleTrafficSend.t Tls13RecordEncrypter.t Tls13RecordDecrypter.t Empty_set).

Definition encrypting : Encrypting.t Tls13RecordEncrypter.t K :=
  Encrypting.mk (Tls13RecordEncrypter.mk key iv) 3 5 KeyUpdateLocal.Idle KeyUpdateRemote.Idle
    (Some (KeyScheduleTrafficSend.mk (KeyScheduleSuite.mk Side.Client suite) secret)).

Definition path : SendPath.t Tls13RecordEncrypter.t K :=
  SendPath.mk (EncryptionState.Encrypting encrypting) true true false (Fragmenter.mk 32)
    (Some ProtocolVersion.TLSv1_3).

Definition ops : list (send_op Tls13RecordEncrypter.t K) :=
  [OpAppData (DataKind.Traffic (OutboundPlain.Single (byte_str "hello")));
   OpRefresh; OpQueueKeyUpdate;
   OpAppData (DataKind.Traffic (OutboundPlain.Single (byte_str "a longer text, in fragments")))].

Definition st : ServerTls13.ExpectTraffic Tls13RecordEncrypter.t Tls13RecordDecrypter.t Empty_set :=
  ServerTls13.mk false (KeyScheduleTrafficReceive.mk (KeyScheduleSuite.mk Side.Server suite) secret)
    TrafficTemperCounters.default.

Definition recv : ReceivePath.t Tls13RecordDecrypter.t :=
  ReceivePath.mk Side.Server
    (DecryptionState.mk (Some (Tls13RecordDecrypter.mk key iv)) 5 true None) true false
    TemperCounters.default (Some ProtocolVersion.TLSv1_3) Deframer.default 0 0.

Definition conn : MessageIter.t SliceInput.t
    (ServerTls13.ExpectTraffic Tls13RecordEncrypter.t Tls13RecordDecrypter.t Empty_set)
    Tls13RecordDecrypter.t Tls13RecordEncrypter.t K unit :=
  MessageIter.mk (SliceInput.new []) (Ok st) (Output.mk recv path [] tt None false).

Definition refill (bs : list u8) (i : SliceInput.t) : SliceInput.t :=
  SliceInput.mk (SliceInput.buf i ++ bs) (SliceInput.discard i) (SliceInput.has_seen_eof i)
    (SliceInput.received_close_notify i).

Definition final `{!PkiTypes} : SendPath.t Tls13RecordEncrypter.t K * list u8 :=
  default (path, []) (send_all ops (path, [])).
End ToyConnection.

#[local] Existing Instances SliceInput.input SliceInput.laws.

Lemma toy_sent : let _ := any_names in send_all ToyConnection.ops (ToyConnection.path, []) = Some ToyConnection.final.
Proof.
  intros names. unfold ToyConnection.final.
  assert (match send_all ToyConnection.ops (ToyConnection.path, []) with Some _ => true | None => false end = true)
    as Hs by by vm_compute.
  by destruct (send_all ToyConnection.ops (ToyConnection.path, [])).
Qed.

(** The bytes, read in two pieces, are the text. *)
Example toy_received :
  let _ := any_names in
  (λ x, (x.1.2, x.2)) (receive_all ToyConnection.refill
    [take 17 (ToyConnection.final.2); drop 17 (ToyConnection.final.2)] (ToyConnection.conn, []))
  = (byte_str "helloa longer text, in fragments", Ok tt).
Proof. intros names. by vm_compute. Qed.

Lemma toy_ready : let _ := any_names in
  ready same_keys (Aes128GcmAead ToyConnection.aead) (Keys.in_use ToyConnection.encrypting)
    ToyConnection.conn ToyConnection.st.
Proof.
  intros names. split; [done| |done|done|].
  - split; [|done]. split; [apply le_n|]. apply settled_default.
  - split; try done.
    + split; [done|]. by exists (Tls13RecordDecrypter.mk ToyConnection.key ToyConnection.iv).
    + by eexists.
Qed.

Lemma end_to_end_witness : let _ := any_names in
  ∃ rs bs e', SendPath.encrypt_state ToyConnection.final.1 = EncryptionState.Encrypting e' ∧
    ToyConnection.final.2 ++ pending e' = [] ++ pending ToyConnection.encrypting ++ bs ∧
    flow data_record (Keys.in_use ToyConnection.encrypting) rs bs (Keys.in_use e') ∧
    app_data rs = concat (op_data <$> ToyConnection.ops) ∧
    ∀ chunk chunks, concat (chunk :: chunks) = bs → paced (budget (X:=unit) ToyConnection.st) rs = true →
      (Encrypting.write_seq ToyConnection.encrypting + Z.of_nat (length rs) < SEQ_SOFT_LIMIT)%Z →
      ∃ it' st', receive_all ToyConnection.refill (chunk :: chunks) (ToyConnection.conn, [])
        = ((it', [] ++ concat (op_data <$> ToyConnection.ops)), Ok tt) ∧
        ready same_keys (Aes128GcmAead ToyConnection.aead) (Keys.in_use e') it' st'.
Proof.
  intros names.
  apply (end_to_end same_keys (Aes128GcmAead ToyConnection.aead) ToyConnection.refill ToyConnection.ops
    (ToyConnection.path, []) ToyConnection.final ToyConnection.encrypting ToyConnection.conn ToyConnection.st []).
  - intros bs i Hi. unfold input_ok, held in *. cbn in *. unfold SliceInput.ok in *. cbn.
    rewrite length_app, drop_app_le by done. split; [lia|done].
  - apply wrapped_fits.
  - by repeat constructor.
  - apply toy_sent.
  - done.
  - done.
  - pose proof MAX_FRAGMENT_LEN_Z. cbn. lia.
  - apply toy_ready.
Defined.
