(* ===== verification/ClientHs.v ===== *)
(** * Starting a client handshake ([rustls/src/client/hs.rs])

    The ClientHello, the HelloRetryRequest and the choice of version by the ServerHello,
    after which the handshake is of TLS 1.3 ([ClientHs13]) or of TLS 1.2. *)
From stdpp Require Import gmap.
From S2P Require Import Prelude Enums Errors Codec Records Extensions Payloads ServerHello ClientHello.
From S2P Require Import Messages Cipher Send Receive Connection Hkdf KeySchedule Sessions Compress Verify Kx.
From S2P Require Import QuicKeys Transcript Traffic Outputs ClientConfig Ech ClientHs13.

(** ** Data *)

Module ClientExtensionsInput.
(** [TransportParameters] has one variant, [Quic]. *)
(* @src rustls/src/msgs/handshake.rs 354-365 ClientExtensionsInput *)
Record t := mk {
  transport_parameters : option Payload;
  protocols : option (list ApplicationProtocol.t);
}.

(* @src rustls/src/msgs/handshake.rs 368-378 ClientExtensionsInput::from_alpn *)
Definition from_alpn (alpn_protocols : list ApplicationProtocol.t) : t :=
  mk None (match alpn_protocols with [] => None | _ => Some alpn_protocols end).
End ClientExtensionsInput.

(** [dyn ClientHandler<Tls12CipherSuite>], and the states of TLS 1.2 that it leads to. *)
Class ClientHandler12 `{Provider} := {
  state12 : Type;
  machine12 :: StateMachine state12 dec enc sched (Join.t ClientSide.t);
  handle_server_hello12 : Tls12CipherSuite.t prf12 aead12 → ServerHelloPayload.t → Input.t →
    ExpectServerHello.t → hs ClientSide.t state12;
}.

(** [VerifyServerIdentity] is in [State13] and in [state12]. *)
(* @src rustls/src/client/hs.rs 44-54 ClientState *)
Inductive ClientState `{ClientHandler12} :=
| ServerHello (st : ExpectServerHello.t)
| ServerHelloOrHelloRetryRequest (next : ExpectServerHello.t) (extra_exts : ClientExtensionsInput.t)
| Tls12 (st : state12)
| Tls13 (st : State13).

(** ** Resumption *)

Section resumption.
Context `{ClientWorld}.
Notation chs := (hs ClientSide.t).

(** The session for a server, if it has not expired. *)
(* @src rustls/src/client/hs.rs 1093-1120 ClientSessionValue::retrieve::match *)
Definition lookup_session (key : ClientSessionKey.t)
    : action world Error.t (option (Retrieved.t ClientSessionValue.t)) := λ w,
  let '(w, found) :=
    match take_tls13_ticket key w with
    | (w, Some v) => (w, Some (ClientSessionValue.Tls13 v))
    | (w, None) =>
        match tls12_session key w with
        | (w, v) => (w, ClientSessionValue.Tls12 <$> v)
        end
    end in
  match found with
  | None => (w, Ok None)
  | Some resuming =>
      match client_time w with
      | (w, Ok now) =>
          if Retrieved.has_expired (Retrieved.mk (ClientSessionValue.common resuming) now)
          then (w, Ok None) else (w, Ok (Some (Retrieved.mk resuming now)))
      | (w, Err _) => (w, Ok None)
      | (w, Panic) => (w, Panic)
      end
  end.

(* @src rustls/src/client/hs.rs 1088-1132 ClientSessionValue::retrieve *)
Definition retrieve (key : ClientSessionKey.t) : chs (option (Retrieved.t ClientSessionValue.t)) :=
  found ← on_world (lookup_session key);
  _ ← (match found ≫= (λ r, ClientSessionValue.tls13 (Retrieved.value r)) with
       | Some v => with_quic (modify (Quic.transport_parameters (sp_inner (Tls13Session.quic_params v))))
       | None => mret tt
       end);
  mret found.

Definition ticket_of (resuming : Retrieved.t ClientSessionValue.t) : list u8 :=
  sp_inner (ClientSessionCommon.ticket (ClientSessionValue.common (Retrieved.value resuming))).

Definition tls12_tickets (config : ClientConfig.t) (protocol : Protocol.t) : bool :=
  ClientConfig.supports_version config ProtocolVersion.TLSv1_2 protocol
  && bool_decide (ClientConfig.tls12_resumption config = Tls12Resumption.SessionIdOrTickets).

(** Returns the extensions, the session of TLS 1.3 and whether early data is attempted. *)
(* @src rustls/src/client/hs.rs 980-1054 prepare_resumption *)
Definition prepare_resumption (resuming : option (Retrieved.t ClientSessionValue.t))
    (exts : ClientExtensions.t) (suite : option SupportedCipherSuite.t) (protocol : Protocol.t)
    (config : ClientConfig.t) : chs (ClientExtensions.t * option (session13 * bool)) :=
  match (r ← resuming; if decide (ticket_of r ≠ []) then Some r else None) with
  | None =>
      mret (if tls12_tickets config protocol
            then Exts.set_session_ticket (Some ClientSessionTicket.Request) exts else exts, None)
  | Some resuming =>
      match Retrieved.map resuming ClientSessionValue.tls13 with
      | None =>
          mret (if tls12_tickets config protocol
                then Exts.set_session_ticket (Some (ClientSessionTicket.Offer (ticket_of resuming))) exts
                else exts, None)
      | Some tls13 =>
          let session := Retrieved.value tls13 in
          let session_suite := Tls13ProtocolSuite.suite (Tls13Session.suite session) in
          let selectable :=
            match suite with
            | Some (SupportedCipherSuite.Tls13 suite) =>
                bool_decide (is_Some (Tls13CipherSuite.can_resume_from suite session_suite))
            | Some (SupportedCipherSuite.Tls12 _) => false
            | None => true
            end in
          if ClientConfig.supports_version config ProtocolVersion.TLSv1_3 protocol && selectable
             && SupportedCipherSuite.usable_for_protocol (SupportedCipherSuite.Tls13 session_suite)
                  protocol
          then
            '(exts, early_data_enabled) ←
              prepare_resumption13 config tls13 exts (bool_decide (is_Some suite));
            mret (exts, Some (session, early_data_enabled))
          else mret (exts, None)
      end
  end.
End resumption.

(** ** The ClientHello *)

Section hello.
Context `{ClientWorld} `{!HpkeSealer}.
Notation chs := (hs ClientSide.t).

(* @src rustls/src/client/hs.rs 584-591 emit_client_hello_for_retry::match *)
Definition offered_versions (config : ClientConfig.t) (protocol : Protocol.t) (ech : bool)
    : SupportedProtocolVersions.t :=
  let forbids_tls12 := Protocol.is_quic protocol || ech in
  SupportedProtocolVersions.mk
    (ClientConfig.supports_version config ProtocolVersion.TLSv1_3 protocol)
    (ClientConfig.supports_version config ProtocolVersion.TLSv1_2 protocol && negb forbids_tls12).

(** The groups usable for a version on offer. *)
(* @src rustls/src/client/hs.rs 604-617 emit_client_hello_for_retry::match *)
Definition offered_groups (config : ClientConfig.t) (versions : SupportedProtocolVersions.t)
    : list NamedGroup.t :=
  filter (λ g, SupportedProtocolVersions.any versions (usable_for_version g) = true)
    (SupportedKxGroup.name <$> CryptoProvider.kx_groups (ClientConfig.provider config)).

(* @src rustls/src/client/hs.rs 618-637 emit_client_hello_for_retry::match *)
Definition offered_schemes (config : ClientConfig.t) : list SignatureScheme.t :=
  let schemes := ServerVerifier.supported_verify_schemes (ClientConfig.verifier config) in
  match CryptoProvider.tls13_cipher_suites (ClientConfig.provider config) with
  | [] => filter (λ s, is_Some (scheme_algorithm s)) schemes
  | _ => schemes
  end.

(** The cover name under ECH; else the name, if it is to be sent. *)
(* @src rustls/src/client/hs.rs 659-675 emit_client_hello_for_retry::match *)
Definition offered_name (config : ClientConfig.t) (ech_state : option EchState.t) (name : ServerName.t)
    : result Error.t (option ServerNamePayload.t) :=
  match ech_state, ClientConfig.enable_sni config with
  | Some ech_state, _ => Some <$> server_name_payload (EchState.outer_name ech_state)
  | None, true =>
      match name with
      | ServerName.DnsName dns_name => Some <$> server_name_payload dns_name
      | _ => Ok None
      end
  | None, false => Ok None
  end.

(** Our share and, unless a group was asked for, that of a component of a hybrid. *)
(* @src rustls/src/client/hs.rs 677-698 emit_client_hello_for_retry::match *)
Definition offered_shares (config : ClientConfig.t) (retryreq : option HelloRetryRequest.t)
    (share : StartedKeyExchange.t) : list KeyShareEntry.t :=
  let whole := StartedKeyExchange.into_single share in
  let group_asked := bool_decide (is_Some (retryreq ≫=
    λ rr, HelloRetryRequestExtensions.key_share (HelloRetryRequest.extensions rr))) in
  KeyShareEntry.new (ActiveKeyExchange.group whole) (ActiveKeyExchange.pub_key whole) ::
  (if group_asked then []
   else match SupportedKxGroup.as_hybrid_checked share
                (CryptoProvider.kx_groups (ClientConfig.provider config)) ProtocolVersion.TLSv1_3 with
        | Some (hybrid, _) =>
            let '(component_group, component_share) := HybridKeyExchange.component hybrid in
            [KeyShareEntry.new component_group component_share]
        | None => []
        end).

(** Certificate types other than the default ones. *)
(* @src rustls/src/client/hs.rs 734-753 emit_client_hello_for_retry::match *)
Definition offered_types (supported : list CertificateType.t) : option (list CertificateType.t) :=
  if decide (supported = [] ∨ supported = [CertificateType.X509]) then None else Some supported.

Definition when {A} (b : bool) (a : A) : option A := if b then Some a else None.

(** The extensions, up to the offer of a session. *)
(* @src rustls/src/client/hs.rs 596-762 emit_client_hello_for_retry::match *)
Definition client_extensions (config : ClientConfig.t) (versions : SupportedProtocolVersions.t)
    (extra_exts : ClientExtensionsInput.t) (retryreq : option HelloRetryRequest.t)
    (key_share : option GroupAndKeyShare.t) (server_name : option ServerNamePayload.t)
    (prev_ech_ext : option EncryptedClientHello.t) : result Error.t ClientExtensions.t :=
  let verifier := ClientConfig.verifier config in
  let tls13 := SupportedProtocolVersions.tls13 versions in
  let groups := CryptoProvider.kx_groups (ClientConfig.provider config) in
  if decide (ServerVerifier.supported_certificate_types verifier = [])
  then Err (Error.ApiMisuse ApiMisuse.NoSupportedCertificateTypes)
  else Ok {|
    ClientExtensions.server_name := server_name;
    ClientExtensions.certificate_status_request :=
      when (ServerVerifier.request_ocsp_response verifier) CertificateStatusRequest.build_ocsp;
    ClientExtensions.named_groups := Some (offered_groups config versions);
    ClientExtensions.ec_point_formats :=
      when (existsb (λ g, bool_decide (key_exchange_algorithm (SupportedKxGroup.name g)
                                       = KeyExchangeAlgorithm.ECDHE)) groups)
        SupportedEcPointFormats.default;
    ClientExtensions.signature_schemes := Some (offered_schemes config);
    ClientExtensions.protocols := ClientExtensionsInput.protocols extra_exts;
    ClientExtensions.client_certificate_types :=
      offered_types (ClientCredentialResolver.supported_certificate_types (ClientConfig.resolver config));
    ClientExtensions.server_certificate_types :=
      offered_types (ServerVerifier.supported_certificate_types verifier);
    ClientExtensions.extended_main_secret_request := Some tt;
    ClientExtensions.certificate_compression_algorithms :=
      when (tls13 && bool_decide (ClientConfig.cert_decompressors config ≠ []))
        (CertDecompressor.algorithm <$> ClientConfig.cert_decompressors config);
    ClientExtensions.session_ticket := None;
    ClientExtensions.preshared_key_offer := None;
    ClientExtensions.early_data_request := None;
    ClientExtensions.supported_versions := Some versions;
    ClientExtensions.cookie :=
      retryreq ≫= λ hrr, HelloRetryRequestExtensions.cookie (HelloRetryRequest.extensions hrr);
    ClientExtensions.preshared_key_modes := when tls13 (PskKeyExchangeModes.mk true false);
    ClientExtensions.certificate_authority_names :=
      if tls13 then ServerVerifier.root_hint_subjects verifier else None;
    ClientExtensions.key_shares :=
      (λ g, offered_shares config retryreq (GroupAndKeyShare.share g)) <$> key_share;
    ClientExtensions.transport_parameters := ClientExtensionsInput.transport_parameters extra_exts;
    ClientExtensions.ticket_request :=
      if tls13 then (λ r, ClientTicketRequest.mk (TicketRequest.new_session_count r)
                            (TicketRequest.resumption_count r))
                    <$> ClientConfig.send_ticket_request config
      else None;
    ClientExtensions.renegotiation_info := None;
    ClientExtensions.encrypted_client_hello := prev_ech_ext;
    ClientExtensions.encrypted_client_hello_outer := None;
    ClientExtensions.order_seed := 0;
    ClientExtensions.contiguous_extensions := [];
  |}.

(* @src rustls/src/client/hs.rs 782-794 emit_client_hello_for_retry::match *)
Definition offered_suites (config : ClientConfig.t) (protocol : Protocol.t) (tls12 : bool)
    : list CipherSuite.t :=
  (SupportedCipherSuite.suite <$>
     filter (λ cs, SupportedCipherSuite.usable_for_protocol cs protocol = true)
       (CryptoProvider.iter_cipher_suites (ClientConfig.provider config)))
  ++ (if tls12 then [CipherSuite.TLS_EMPTY_RENEGOTIATION_INFO_SCSV] else []).

(** The hello under ECH: its inner hello is encrypted into it; or GREASE; or, after a
    rejection, a GREASE session. Returns the hello, the ECH state, its status and the
    extension to repeat. *)
(* @src rustls/src/client/hs.rs 817-854 emit_client_hello_for_retry::match *)
Definition apply_ech (ech_status : EchStatus.t) (ech_state : option EchState.t)
    (chp_payload : ClientHelloPayload.t) (is_retry : bool) (session : option session13)
    (ech_grease_ext : option (result Error.t EncryptedClientHello.t))
    (prev_ech_ext : option EncryptedClientHello.t)
    : chs (ClientHelloPayload.t * option EchState.t * EchStatus.t * option EncryptedClientHello.t) :=
  let exts := ClientHelloPayload.extensions chp_payload in
  match ech_status, ech_state with
  | EchStatus.NotOffered, Some ech_state | EchStatus.Offered, Some ech_state =>
      '(ech_state, chp_payload) ← on_world (EchState.ech_hello ech_state chp_payload is_retry session);
      _ ← emit (Event.EchStatus EchStatus.Offered);
      mret (chp_payload, Some ech_state, EchStatus.Offered,
            ClientExtensions.encrypted_client_hello (ClientHelloPayload.extensions chp_payload))
  | EchStatus.NotOffered, None =>
      match ech_grease_ext with
      | Some grease_ext =>
          grease_ext ← lift grease_ext;
          _ ← emit (Event.EchStatus EchStatus.Grease);
          mret (with_extensions (Exts.set_encrypted_client_hello (Some grease_ext) exts) chp_payload,
                None, EchStatus.Grease, Some grease_ext)
      | None => mret (chp_payload, None, ech_status, prev_ech_ext)
      end
  | EchStatus.Rejected, Some ech_state =>
      match ClientExtensions.preshared_key_offer exts with
      | Some psk_offer =>
          '(ech_state, psk_offer) ← on_world (EchState.grease_psk ech_state psk_offer);
          mret (with_extensions (Exts.set_preshared_key_offer (Some psk_offer) exts) chp_payload,
                Some ech_state, ech_status, prev_ech_ext)
      | None => mret (chp_payload, Some ech_state, ech_status, prev_ech_ext)
      end
  | _, _ => mret (chp_payload, ech_state, ech_status, prev_ech_ext)
  end.
End hello.

Section emit.
Context `{ClientWorld} `{!HpkeSealer} `{!ClientHandler12}.
Notation chs := (hs ClientSide.t).
Notation Early := (KeyScheduleEarly.t enc dec quic_alg).
Notation Suite := (Tls13ProtocolSuite.t enc dec quic_alg).

(** The key schedule of the session on offer; it signs the binder, unless ECH did for the
    inner hello. *)
(* @src rustls/src/client/hs.rs 862-881 emit_client_hello_for_retry::match *)
Definition offer_session (ech_state : option EchState.t) (session : option session13)
    (transcript_buffer : HandshakeHashBuffer.t) (chp : HandshakeMessagePayload.t)
    : result Error.t (option EchState.t * HandshakeMessagePayload.t * option (Suite * Early)) :=
  match ech_state, session with
  | Some ech_state, Some session =>
      Ok (Some (EchState.set_schedule None ech_state), chp,
          (λ schedule, (Tls13Session.suite session, schedule))
            <$> EchState.early_data_key_schedule ech_state)
  | None, Some session =>
      key_schedule ← KeyScheduleEarly.new Side.Client (Tls13Session.suite session)
                       (sp_inner (Tls13Session.secret session));
      chp ← fill_in_psk_binder key_schedule transcript_buffer chp;
      Ok (None, chp, Some (Tls13Session.suite session, key_schedule))
  | ech_state, None => Ok (ech_state, chp, None)
  end.

(** Early data starts, under keys of the (inner) hello; returns [sent_tls13_fake_ccs]. *)
(* @src rustls/src/client/hs.rs 910-943 emit_client_hello_for_retry::match *)
Definition start_early_data (config : ClientConfig.t) (early_data_enabled : bool)
    (ech_state : option EchState.t) (transcript_buffer : HandshakeHashBuffer.t) (random : Random.t)
    (sent_tls13_fake_ccs : bool) (schedule : option (Suite * Early)) : chs (bool * option (Early * bool)) :=
  match schedule with
  | None => mret (sent_tls13_fake_ccs, None)
  | Some (resuming_suite, schedule) =>
      if negb early_data_enabled then
        _ ← emit (Event.EarlyData EarlyDataEvent.Rejected);
        mret (sent_tls13_fake_ccs, Some (schedule, false))
      else
        let '(transcript_buffer, random) :=
          match ech_state with
          | Some ech_state =>
              (EchState.inner_hello_transcript ech_state, EchState.inner_hello_random ech_state)
          | None => (transcript_buffer, random)
          end in
        sent_tls13_fake_ccs ←
          derive_early_traffic_secret (ClientConfig.will_log config)
            (CipherSuiteCommon.hash_provider
               (Tls13CipherSuite.common (Tls13ProtocolSuite.suite resuming_suite)))
            schedule sent_tls13_fake_ccs transcript_buffer (Random.bytes random);
        mret (sent_tls13_fake_ccs, Some (schedule, true))
  end.

(** The extension that a second hello must repeat is taken. *)
Definition repeated_ech (ech_status : EchStatus.t) (is_retry : bool)
    (prev_ech_ext : option EncryptedClientHello.t)
    : option EncryptedClientHello.t * option EncryptedClientHello.t :=
  if is_retry && bool_decide (ech_status = EchStatus.Rejected ∨ ech_status = EchStatus.Grease)
  then (prev_ech_ext, None) else (None, prev_ech_ext).

(* @src rustls/src/client/hs.rs 805-815 emit_client_hello_for_retry::match *)
Definition make_grease_ext (config : ClientConfig.t) (name : ServerName.t)
    (chp_payload : ClientHelloPayload.t) : chs (option (result Error.t EncryptedClientHello.t)) :=
  match ClientConfig.ech_mode config with
  | Some (EchMode.Grease cfg) =>
      r ← on_world (capture (grease_ext cfg name chp_payload)); mret (Some r)
  | _ => mret None
  end.

(* @src rustls/src/client/hs.rs 567-964 emit_client_hello_for_retry *)
Definition emit_client_hello_for_retry (transcript_buffer : HandshakeHashBuffer.t)
    (retryreq : option HelloRetryRequest.t) (key_share : option GroupAndKeyShare.t)
    (extra_exts : ClientExtensionsInput.t) (suite : option SupportedCipherSuite.t)
    (input : ClientHelloInput.t) (ech_state : option EchState.t) (ech_status : EchStatus.t)
    : chs ClientState :=
  let config := ClientHelloInput.config input in
  let protocol := ClientHelloInput.protocol input in
  let is_retry := bool_decide (is_Some retryreq) in
  let versions := offered_versions config protocol (bool_decide (is_Some ech_state)) in
  let tls13 := SupportedProtocolVersions.tls13 versions in
  _ ← assert_ (λ _, SupportedProtocolVersions.any versions (λ _, true));
  server_name ← lift (offered_name config ech_state
                        (ClientSessionKey.server_name (ClientHelloInput.session_key input)));
  let '(repeated, prev_ech_ext) := repeated_ech ech_status is_retry (ClientHelloInput.prev_ech_ext input) in
  exts ← lift (client_extensions config versions extra_exts retryreq key_share server_name repeated);
  '(exts, tls13_session) ←
    prepare_resumption (ClientHelloInput.resuming input) exts suite protocol config;
  let early_data_enabled := from_option snd false tls13_session in
  let tls13_session := fst <$> tls13_session in
  let hello := ClientHelloInput.hello input in
  let exts := Exts.set_order_seed (ClientHelloDetails.extension_order_seed hello) exts in
  let chp_payload :=
    ClientHelloPayload.mk ProtocolVersion.TLSv1_2 (ClientHelloInput.random input)
      (ClientHelloInput.session_id input)
      (offered_suites config protocol (SupportedProtocolVersions.tls12 versions))
      [Compression.Null] exts in
  ech_grease_ext ← make_grease_ext config
    (ClientSessionKey.server_name (ClientHelloInput.session_key input)) chp_payload;
  '(chp_payload, ech_state, ech_status, prev_ech_ext) ←
    apply_ech ech_status ech_state chp_payload is_retry tls13_session ech_grease_ext prev_ech_ext;
  let hello :=
    ClientHelloDetails.mk (ClientHelloDetails.alpn_protocols hello)
      (collect_used (ClientHelloPayload.extensions chp_payload))
      (ClientHelloDetails.extension_order_seed hello)
      (tls13 && bool_decide (ClientConfig.cert_decompressors config ≠ []))
      (ClientHelloPayload.cipher_suites chp_payload) in
  '(ech_state, chp, schedule) ←
    lift (offer_session ech_state tls13_session transcript_buffer
            (HandshakeMessagePayload.mk (HandshakePayload.ClientHello chp_payload)));
  let ch := Message.mk
    (if is_retry then EncodableVersion.Legacy ProtocolVersion.TLSv1_2
     else EncodableVersion.InitialClientHello protocol) (MessagePayload.handshake chp) in
  sent_ccs ← (if is_retry then emit_fake_ccs (ClientHelloInput.sent_tls13_fake_ccs input)
              else mret (ClientHelloInput.sent_tls13_fake_ccs input));
  let transcript_buffer := HandshakeHashBuffer.add_message ch transcript_buffer in
  _ ← send_msg ch false;
  '(sent_ccs, early_data_key_schedule) ←
    start_early_data config early_data_enabled ech_state transcript_buffer
      (ClientHelloInput.random input) sent_ccs schedule;
  let input := ClientHelloInput.mk config (ClientHelloInput.resuming input)
    (ClientHelloInput.random input) sent_ccs hello protocol (ClientHelloInput.session_id input)
    (ClientHelloInput.session_key input) prev_ech_ext in
  let next done_retry := ExpectServerHello.mk input transcript_buffer early_data_key_schedule key_share
                           suite ech_state ech_status done_retry in
  mret (if tls13 && negb is_retry then ServerHelloOrHelloRetryRequest (next false) extra_exts
        else ServerHello (next is_retry)).
End emit.

(** ** Starting *)

Section start.
Context `{ClientWorld} `{!HpkeSealer} `{!ClientHandler12}.
Notation chs := (hs ClientSide.t).

(** The session id of the hello: that of a TLS 1.2 session (a fresh one if it has a
    ticket), or for the middlebox compatibility mode. Returns the session as changed. *)
(* @src rustls/src/client/hs.rs 467-498 ClientHelloInput::new::match *)
Definition choose_session_id (config : ClientConfig.t) (protocol : Protocol.t)
    (resuming : option (Retrieved.t ClientSessionValue.t))
    : chs (option (Retrieved.t ClientSessionValue.t) * SessionId.t) :=
  match resuming with
  | Some (Retrieved.mk (ClientSessionValue.Tls12 inner) at_) =>
      session_id ← (if decide (sp_inner (ClientSessionCommon.ticket (Tls12Session.common inner)) ≠ [])
                    then on_world session_id_random else mret (Tls12Session.session_id inner));
      let inner := Tls12Session.mk (Tls12Session.suite inner) session_id
        (Tls12Session.master_secret inner) (Tls12Session.extended_ms inner) (Tls12Session.common inner) in
      mret (Some (Retrieved.mk (ClientSessionValue.Tls12 inner) at_), session_id)
  | _ =>
      quic ← has_quic;
      session_id ← (if (quic : bool)
                       || negb (ClientConfig.supports_version config ProtocolVersion.TLSv1_3 protocol)
                    then mret SessionId.empty else on_world session_id_random);
      mret (resuming, session_id)
  end.

(* @src rustls/src/client/hs.rs 455-520 ClientHelloInput::new *)
Definition client_hello_input (server_name : ServerName.t) (extra_exts : ClientExtensionsInput.t)
    (protocol : Protocol.t) (config : ClientConfig.t) : chs ClientHelloInput.t :=
  let session_key := ClientSessionKey.mk (ClientConfig.config_hash config) server_name in
  resuming ← retrieve session_key;
  '(resuming, session_id) ← choose_session_id config protocol resuming;
  seed ← on_world random_u16;
  let hello := ClientHelloDetails.new (default [] (ClientExtensionsInput.protocols extra_exts)) seed in
  random ← on_world random_new;
  mret (ClientHelloInput.mk config resuming random false hello protocol session_id session_key None).

(* @src rustls/src/client/hs.rs 522-564 ClientHelloInput::start_handshake *)
Definition start_handshake (self : ClientHelloInput.t) (extra_exts : ClientExtensionsInput.t)
    : chs ClientState :=
  let config := ClientHelloInput.config self in
  let auth := bool_decide (ClientCredentialResolver.supported_certificate_types
                             (ClientConfig.resolver config) ≠ []) in
  let transcript_buffer :=
    if auth then HandshakeHashBuffer.set_client_auth_enabled HandshakeHashBuffer.new
    else HandshakeHashBuffer.new in
  key_share ←
    (if ClientConfig.supports_version config ProtocolVersion.TLSv1_3 (ClientHelloInput.protocol self)
     then share ← on_world (initial_key_share config (ClientHelloInput.session_key self));
          mret (Some share)
     else mret None);
  ech_state ←
    (match ClientConfig.ech_mode config with
     | Some (EchMode.Enable ech_config) =>
         st ← on_world (EchState.new ech_config
                (ClientSessionKey.server_name (ClientHelloInput.session_key self)) auth
                (ClientConfig.enable_sni config));
         mret (Some st)
     | _ => mret None
     end);
  emit_client_hello_for_retry transcript_buffer None key_share extra_exts None self ech_state
    EchStatus.NotOffered.

(** ** ServerHello *)

Definition with_suite (suite : SupportedCipherSuite.t) (self : ExpectServerHello.t)
    : ExpectServerHello.t :=
  ExpectServerHello.mk (ExpectServerHello.input self) (ExpectServerHello.transcript_buffer self)
    (ExpectServerHello.early_data_key_schedule self) (ExpectServerHello.offered_key_share self)
    (Some suite) (ExpectServerHello.ech_state self) (ExpectServerHello.ech_status self)
    (ExpectServerHello.done_retry self).

(** The type parameter [T] is its version, suites and handler. *)
(* @src rustls/src/client/hs.rs 126-202 ExpectServerHello::with_version *)
Definition with_version {T} (version : ProtocolVersion.t) (suites : list T)
    (supported : T → SupportedCipherSuite.t)
    (handler : T → ServerHelloPayload.t → Input.t → ExpectServerHello.t → chs ClientState)
    (self : ExpectServerHello.t) (server_hello : ServerHelloPayload.t) (input : Input.t)
    : chs ClientState :=
  let exts := ServerHelloPayload.extensions server_hello in
  let hi := ExpectServerHello.input self in
  let hello := ClientHelloInput.hello hi in
  _ ← refuse_if (bool_decide (ServerHelloPayload.compression_method server_hello ≠ Compression.Null))
        (Error.PeerMisbehaved PeerMisbehaved.SelectedUnofferedCompression);
  _ ← refuse_if (ClientHelloDetails.server_sent_unsolicited_extensions hello (received_types exts)
                   [ExtensionType.RenegotiationInfo])
        (Error.PeerMisbehaved PeerMisbehaved.UnsolicitedServerHelloExtension);
  _ ← output (OutputEvent.ProtocolVersion version);
  _ ← (if decide (version ≠ ProtocolVersion.TLSv1_3)
       then process_alpn_protocol (ClientHelloDetails.alpn_protocols hello)
              (SingleProtocolName.inner <$> ServerExtensions.selected_protocol exts)
              (ClientConfig.check_selected_alpn (ClientHelloInput.config hi))
       else mret tt);
  _ ← refuse_if (from_option (λ p, negb (SupportedEcPointFormats.uncompressed p)) false
                   (ServerExtensions.ec_point_formats exts))
        (Error.PeerMisbehaved PeerMisbehaved.ServerHelloMustOfferUncompressedEcPoints);
  let chosen := ServerHelloPayload.cipher_suite server_hello in
  let suite :=
    if decide (chosen ∈ ClientHelloDetails.offered_cipher_suites hello)
    then snd <$> list_find (λ cs, SupportedCipherSuite.suite (supported cs) = chosen) suites
    else None in
  suite ← lift (ok_or suite (Error.PeerMisbehaved PeerMisbehaved.SelectedUnofferedCipherSuite));
  _ ← refuse_if (from_option (λ prev, bool_decide (SupportedCipherSuite.suite prev
                                        ≠ SupportedCipherSuite.suite (supported suite))) false
                   (ExpectServerHello.suite self))
        (Error.PeerMisbehaved PeerMisbehaved.SelectedDifferentCipherSuiteAfterRetry);
  _ ← output (OutputEvent.CipherSuite (supported suite));
  handler suite server_hello input (with_suite (supported suite) self).

Definition with_tls13 (self : ExpectServerHello.t) : ServerHelloPayload.t → Input.t → chs ClientState :=
  with_version ProtocolVersion.TLSv1_3
    (CryptoProvider.tls13_cipher_suites
       (ClientConfig.provider (ClientHelloInput.config (ExpectServerHello.input self))))
    SupportedCipherSuite.Tls13
    (λ suite server_hello input self,
       st ← handle_server_hello suite server_hello input self; mret (Tls13 (EncryptedExtensions st))) self.

Definition with_tls12 (self : ExpectServerHello.t) : ServerHelloPayload.t → Input.t → chs ClientState :=
  with_version ProtocolVersion.TLSv1_2
    (CryptoProvider.tls12_cipher_suites
       (ClientConfig.provider (ClientHelloInput.config (ExpectServerHello.input self))))
    SupportedCipherSuite.Tls12
    (λ suite server_hello input self,
       st ← handle_server_hello12 suite server_hello input self; mret (Tls12 st)) self.

(* @src rustls/src/client/hs.rs 225-231 ExpectServerHello::handle::match *)
Definition server_version (server_hello : ServerHelloPayload.t) : ProtocolVersion.t :=
  let legacy := ServerHelloPayload.legacy_version server_hello in
  if decide (legacy = ProtocolVersion.TLSv1_2)
  then default legacy (ServerExtensions.selected_version (ServerHelloPayload.extensions server_hello))
  else legacy.

(* @src rustls/src/client/hs.rs 206-264 ExpectServerHello::handle *)
Definition handle_sh (self : ExpectServerHello.t) (input : Input.t) : chs ClientState :=
  server_hello ← lift (require_handshake_msg (Input.message input)
                         (λ p, match p with HandshakePayload.ServerHello sh => Some sh | _ => None end)
                         HandshakeType.ServerHello);
  let selected := ServerExtensions.selected_version (ServerHelloPayload.extensions server_hello) in
  _ ← refuse_if (ExpectServerHello.done_retry self
                 && bool_decide (selected ≠ Some ProtocolVersion.TLSv1_3))
        (Error.PeerMisbehaved PeerMisbehaved.SelectedDifferentProtocolVersionAfterRetry);
  let hi := ExpectServerHello.input self in
  let supports v := ClientConfig.supports_version (ClientHelloInput.config hi) v
                      (ClientHelloInput.protocol hi) in
  let version := server_version server_hello in
  if bool_decide (version = ProtocolVersion.TLSv1_3) && supports ProtocolVersion.TLSv1_3
  then with_tls13 self server_hello input
  else if bool_decide (version = ProtocolVersion.TLSv1_2) && supports ProtocolVersion.TLSv1_2
  then
    _ ← refuse_if (from_option snd false (ExpectServerHello.early_data_key_schedule self))
          (Error.PeerMisbehaved PeerMisbehaved.OfferedEarlyDataWithOldProtocolVersion);
    _ ← refuse_if (bool_decide (is_Some selected))
          (Error.PeerMisbehaved PeerMisbehaved.SelectedTls12UsingTls13VersionExtension);
    with_tls12 self server_hello input
  else fail (Error.PeerIncompatible
    (if decide (version = ProtocolVersion.TLSv1_2 ∨ version = ProtocolVersion.TLSv1_3)
     then PeerIncompatible.ServerTlsVersionIsDisabledByOurConfig
     else PeerIncompatible.ServerDoesNotSupportTls12Or13)).
End start.

(** ** HelloRetryRequest *)

Section retry.
Context `{ClientWorld} `{!HpkeSealer} `{!ClientHandler12}.
Notation chs := (hs ClientSide.t).

(** Whether a request asks again for a group that we sent a share of. *)
(* @src rustls/src/client/hs.rs 298-307 ExpectServerHelloOrHelloRetryRequest::handle_hello_retry_request::match *)
Definition asks_offered_group (config : ClientConfig.t) (exts : HelloRetryRequestExtensions.t)
    (share : StartedKeyExchange.t) : bool :=
  match HelloRetryRequestExtensions.cookie exts, HelloRetryRequestExtensions.key_share exts with
  | None, Some req_group =>
      let offered_hybrid :=
        (λ '(hybrid, _), (HybridKeyExchange.component hybrid).1) <$>
          SupportedKxGroup.as_hybrid_checked share
            (CryptoProvider.kx_groups (ClientConfig.provider config)) ProtocolVersion.TLSv1_3 in
      bool_decide (req_group = ActiveKeyExchange.group (StartedKeyExchange.into_single share)
                   ∨ Some req_group = offered_hybrid)
  | _, _ => false
  end.

(** Under ECH, whether the server accepted it. *)
(* @src rustls/src/client/hs.rs 358-370 ExpectServerHelloOrHelloRetryRequest::handle_hello_retry_request::match *)
Definition confirm_hrr (ech_state : option EchState.t) (ech_status : EchStatus.t)
    (hrr : HelloRetryRequest.t) (cs : SupportedCipherSuite.t) : chs (option EchState.t * EchStatus.t) :=
  match ech_state with
  | None => mret (None, ech_status)
  | Some ech_state =>
      match cs with
      | SupportedCipherSuite.Tls12 _ => panic
      | SupportedCipherSuite.Tls13 tls13_cs =>
          '(ech_state, accepted) ← lift (EchState.confirm_hrr_acceptance ech_state hrr tls13_cs);
          if accepted : bool then mret (Some ech_state, ech_status)
          else
            _ ← emit (Event.EchStatus EchStatus.Rejected);
            mret (Some ech_state, EchStatus.Rejected)
      end
  end.

(** The share of the second hello: a new one, if another group is asked for. *)
(* @src rustls/src/client/hs.rs 386-400 ExpectServerHelloOrHelloRetryRequest::handle_hello_retry_request::match *)
Definition retry_share (config : ClientConfig.t) (asked : option NamedGroup.t)
    (offered_key_share : GroupAndKeyShare.t) : chs GroupAndKeyShare.t :=
  match asked with
  | Some group =>
      if decide (group ≠ ActiveKeyExchange.group
                   (StartedKeyExchange.into_single (GroupAndKeyShare.share offered_key_share)))
      then
        skxg ← lift (ok_or (CryptoProvider.find_kx_group (ClientConfig.provider config) group
                              ProtocolVersion.TLSv1_3)
                 (Error.PeerMisbehaved PeerMisbehaved.IllegalHelloRetryRequestWithUnofferedNamedGroup));
        on_world (GroupAndKeyShare.new skxg)
      else mret offered_key_share
  | None => mret offered_key_share
  end.

(* @src rustls/src/client/hs.rs 277-413 ExpectServerHelloOrHelloRetryRequest::handle_hello_retry_request *)
Definition handle_hello_retry_request (next : ExpectServerHello.t) (extra_exts : ClientExtensionsInput.t)
    (input : Input.t) : chs ClientState :=
  hrr ← lift (require_handshake_msg (Input.message input)
                (λ p, match p with HandshakePayload.HelloRetryRequest h => Some h | _ => None end)
                HandshakeType.HelloRetryRequest);
  _ ← lift (Input.check_aligned_handshake input);
  offered_key_share ← lift (unwrap (ExpectServerHello.offered_key_share next));
  let hi := ExpectServerHello.input next in
  let config := ClientHelloInput.config hi in
  let exts := HelloRetryRequest.extensions hrr in
  let cookie := HelloRetryRequestExtensions.cookie exts in
  let asked := HelloRetryRequestExtensions.key_share exts in
  _ ← refuse_if (asks_offered_group config exts (GroupAndKeyShare.share offered_key_share))
        (Error.PeerMisbehaved PeerMisbehaved.IllegalHelloRetryRequestWithOfferedGroup);
  _ ← refuse_if (from_option (λ c, bool_decide (sp_inner c = [])) false cookie)
        (Error.PeerMisbehaved PeerMisbehaved.IllegalHelloRetryRequestWithEmptyCookie);
  _ ← refuse_if (negb (bool_decide (is_Some cookie)) && negb (bool_decide (is_Some asked)))
        (Error.PeerMisbehaved PeerMisbehaved.IllegalHelloRetryRequestWithNoChanges);
  _ ← refuse_if (negb (SessionId.eq (HelloRetryRequest.session_id hrr) (ClientHelloInput.session_id hi)))
        (Error.PeerMisbehaved PeerMisbehaved.IllegalHelloRetryRequestWithWrongSessionId);
  _ ← refuse_if (bool_decide (HelloRetryRequestExtensions.supported_versions exts
                              ≠ Some ProtocolVersion.TLSv1_3))
        (Error.PeerMisbehaved PeerMisbehaved.IllegalHelloRetryRequestWithUnsupportedVersion);
  _ ← output (OutputEvent.ProtocolVersion ProtocolVersion.TLSv1_3);
  cs ← lift (ok_or (ClientConfig.find_cipher_suite config (HelloRetryRequest.cipher_suite hrr))
         (Error.PeerMisbehaved PeerMisbehaved.IllegalHelloRetryRequestWithUnofferedCipherSuite));
  _ ← refuse_if (bool_decide (ExpectServerHello.ech_status next = EchStatus.NotOffered)
                 && bool_decide (is_Some (HelloRetryRequestExtensions.encrypted_client_hello exts)))
        (Error.PeerMisbehaved PeerMisbehaved.IllegalHelloRetryRequestWithInvalidEch);
  _ ← output (OutputEvent.CipherSuite cs);
  '(ech_state, ech_status) ←
    confirm_hrr (ExpectServerHello.ech_state next) (ExpectServerHello.ech_status next) hrr cs;
  let hash := SupportedCipherSuite.hash_provider cs in
  let transcript := HandshakeHashBuffer.start_hash (ExpectServerHello.transcript_buffer next) hash in
  let transcript_buffer := HandshakeHashBuffer.from_hash transcript in
  let transcript_buffer := HandshakeHashBuffer.add_message (Input.message input) transcript_buffer in
  let ech_state := (λ st, EchState.transcript_hrr_update st hash (Input.message input)) <$> ech_state in
  key_share ← retry_share config asked offered_key_share;
  emit_client_hello_for_retry transcript_buffer (Some hrr) (Some key_share) extra_exts (Some cs) hi
    ech_state ech_status.

(* @src rustls/src/client/hs.rs 417-439 ExpectServerHelloOrHelloRetryRequest::handle *)
Definition handle_sh_or_hrr (next : ExpectServerHello.t) (extra_exts : ClientExtensionsInput.t)
    (input : Input.t) : chs ClientState :=
  match handshake_payload (Input.message input) with
  | Some (HandshakePayload.ServerHello _) => handle_sh next input
  | Some (HandshakePayload.HelloRetryRequest _) => handle_hello_retry_request next extra_exts input
  | _ => fail (inappropriate_handshake_message (Message.payload (Input.message input))
                 [ContentType.Handshake] [HandshakeType.ServerHello; HandshakeType.HelloRetryRequest])
  end.

(** ** The state machine *)

(* @src rustls/src/client/hs.rs 57-67 ClientState::handle *)
Definition handle_client (self : ClientState) (input : Input.t) : chs ClientState :=
  match self with
  | ServerHello e => handle_sh e input
  | ServerHelloOrHelloRetryRequest next extra_exts => handle_sh_or_hrr next extra_exts input
  | Tls12 sm => st ← Connection.handle sm input; mret (Tls12 st)
  | Tls13 sm => st ← handle13 sm input; mret (Tls13 st)
  end.

(* @src rustls/src/client/hs.rs 69-71 ClientState::wants_input *)
Definition client_wants_input (self : ClientState) : bool :=
  match self with
  | Tls12 sm => Connection.wants_input sm
  | Tls13 (VerifyServerIdentity _) => false
  | _ => true
  end.

(* @src rustls/src/client/hs.rs 73-81 ClientState::handle_without_input *)
Definition client_without_input (self : ClientState) : chs ClientState :=
  match self with
  | Tls12 sm => st ← Connection.handle_without_input sm; mret (Tls12 st)
  | Tls13 sm => st ← handle13_without_input sm; mret (Tls13 st)
  | _ => mret self
  end.

(* @src rustls/src/client/hs.rs 83-88 ClientState::is_traffic *)
Definition client_is_traffic (self : ClientState) : bool :=
  match self with
  | Tls12 sm => Connection.is_traffic sm
  | Tls13 (Traffic13 _) | Tls13 (QuicTraffic13 _) => true
  | _ => false
  end.

(** Among the states of TLS 1.3 none does anything. *)
(* @src rustls/src/client/hs.rs 90-94 ClientState::handle_decrypt_error *)
Definition client_decrypt_error (self : ClientState) (x : Join.t ClientSide.t) : Join.t ClientSide.t :=
  match self with
  | Tls12 sm => Connection.handle_decrypt_error sm x
  | _ => x
  end.

#[global] Instance client_machine : StateMachine ClientState dec enc sched (Join.t ClientSide.t) := {|
  Connection.handle := handle_client;
  Connection.wants_input := client_wants_input;
  Connection.handle_without_input := client_without_input;
  Connection.is_traffic := client_is_traffic;
  Connection.handle_decrypt_error := client_decrypt_error;
|}.
End retry.
