(* ===== verification/ClientHs12.v ===== *)
(** * The TLS 1.2 client handshake ([rustls/src/client/tls12.rs])

    From the ServerHello to application traffic: one definition per handler of a state.
    A handler consumes its state, so that it returns the next one. *)
From stdpp Require Import gmap.
From S2P Require Import Prelude Enums Errors Codec Records Extensions Payloads ServerHello ClientHello.
From S2P Require Import Messages Cipher Send Receive Connection Hkdf KeySchedule Sessions Compress Verify Kx.
From S2P Require Import QuicKeys Transcript Traffic Outputs ClientConfig Ech ClientHs13 ClientHs Tls12Secrets.

Module Client12.

(** ** States *)

Section states.
Context `{Tls12Provider}.
Notation Suite := (Tls12CipherSuite.t prf12 aead12).

(* @src rustls/src/client/tls12.rs 1199-1205 HandshakeState *)
Record HandshakeState := mk_hs {
  config : ClientConfig.t;
  session_id : SessionId.t;
  session_key : ClientSessionKey.t;
  using_ems : bool;
  transcript : HandshakeHash.t;
}.
Definition with_transcript (v : HandshakeHash.t) (self : HandshakeState) : HandshakeState :=
  mk_hs (config self) (session_id self) (session_key self) (using_ems self) v.
Definition add_message (m : Message.t) (self : HandshakeState) : HandshakeState :=
  with_transcript (HandshakeHash.add_message m (transcript self)) self.

(* @src rustls/src/client/tls12.rs 553-556 ServerKxDetails *)
Record ServerKxDetails := mk_kx { kx_params : list u8; kx_sig : DigitallySignedStruct.t }.

(* @src rustls/src/client/tls12.rs 238-245 ExpectCertificate *)
Record ExpectCertificate := mk_cert {
  cert_hs : HandshakeState;
  cert_randoms : ConnectionRandoms.t;
  cert_suite : Suite;
  cert_may_send_cert_status : bool;
  cert_must_issue_new_ticket : bool;
  cert_negotiated_client_type : option CertificateType.t;
}.

(** [ExpectCertificateStatus] has the same fields. *)
(* @src rustls/src/client/tls12.rs 290-297 ExpectCertificateStatusOrServerKx *)
Record ExpectCertificateStatusOrServerKx := mk_status {
  status_hs : HandshakeState;
  status_randoms : ConnectionRandoms.t;
  status_suite : Suite;
  status_server_cert_chain : CertificateChain.t;
  status_must_issue_new_ticket : bool;
  status_negotiated_client_type : option CertificateType.t;
}.

(* @src rustls/src/client/tls12.rs 388-395 ExpectServerKx *)
Record ExpectServerKx := mk_skx {
  skx_hs : HandshakeState;
  skx_randoms : ConnectionRandoms.t;
  skx_suite : Suite;
  skx_server_cert : ServerCertDetails.t;
  skx_must_issue_new_ticket : bool;
  skx_negotiated_client_type : option CertificateType.t;
}.

(** [ExpectCertificateRequest] has the same fields. *)
(* @src rustls/src/client/tls12.rs 567-578 ExpectServerDoneOrCertReq *)
Record ExpectServerDoneOrCertReq := mk_docr {
  docr_hs : HandshakeState;
  docr_randoms : ConnectionRandoms.t;
  docr_suite : Suite;
  docr_server_cert : ServerCertDetails.t;
  docr_server_kx : ServerKxDetails;
  docr_must_issue_new_ticket : bool;
  docr_negotiated_client_type : option CertificateType.t;
}.

(* @src rustls/src/client/tls12.rs 686-694 ExpectServerDone *)
Record ExpectServerDone := mk_done {
  done_hs : HandshakeState;
  done_randoms : ConnectionRandoms.t;
  done_suite : Suite;
  done_server_cert : ServerCertDetails.t;
  done_server_kx : ServerKxDetails;
  done_client_auth : option ClientAuthDetails.t;
  done_must_issue_new_ticket : bool;
}.

(** The proof of alignment has no content. *)
(* @src rustls/src/client/tls12.rs 756-767 AwaitServerIdentityVerification *)
Record AwaitServerIdentityVerification := mk_await {
  aw_hs : HandshakeState;
  aw_randoms : ConnectionRandoms.t;
  aw_suite : Suite;
  aw_ocsp_response : list u8;
  aw_server_kx : ServerKxDetails;
  aw_client_auth : option ClientAuthDetails.t;
  aw_must_issue_new_ticket : bool;
  aw_peer_identity : Identity.t;
}.

(** The marker [sig_verified] has no content. *)
(* @src rustls/src/client/tls12.rs 954-961 ExpectNewTicket *)
Record ExpectNewTicket := mk_nst {
  nst_hs : HandshakeState;
  nst_secrets : ConnectionSecrets.t;
  nst_peer_identity : Identity.t;
  nst_resuming : option (session12 * enc);
  nst_pending_decrypter : dec;
}.

(* @src rustls/src/client/tls12.rs 996-1005 ExpectCcs *)
Record ExpectCcs := mk_ccs {
  ccs_hs : HandshakeState;
  ccs_secrets : ConnectionSecrets.t;
  ccs_peer_identity : Identity.t;
  ccs_resuming : option (session12 * enc);
  ccs_pending_decrypter : dec;
  ccs_ticket : option NewSessionTicketPayload.t;
}.

(* @src rustls/src/client/tls12.rs 1050-1057 ExpectFinished *)
Record ExpectFinished := mk_fin {
  fin_hs : HandshakeState;
  fin_peer_identity : Identity.t;
  fin_resuming : option (session12 * enc);
  fin_ticket : option NewSessionTicketPayload.t;
  fin_secrets : ConnectionSecrets.t;
}.

(** The states that [ClientState::Tls12] boxes, and [VerifyServerIdentity]. *)
Inductive State :=
| Certificate (st : ExpectCertificate)
| CertificateStatusOrServerKx (st : ExpectCertificateStatusOrServerKx)
| ServerKx (st : ExpectServerKx)
| ServerDoneOrCertReq (st : ExpectServerDoneOrCertReq)
| ServerDone (st : ExpectServerDone)
| VerifyServerIdentity (st : AwaitServerIdentityVerification)
| NewTicket (st : ExpectNewTicket)
| Ccs (st : ExpectCcs)
| Finished (st : ExpectFinished)
| Traffic (st : ClientTls12.ExpectTraffic).
End states.

(** ** Messages *)

Section emit.
Context `{Tls12Provider}.
Notation chs := (hs ClientSide.t).

(** These send a message and return the transcript with it. *)
(* @src rustls/src/client/tls12.rs 453-467 emit_certificate *)
Definition emit_certificate (transcript : HandshakeHash.t) (cert_chain : CertificateChain.t)
    : chs HandshakeHash.t :=
  let cert := message12 (HandshakePayload.Certificate cert_chain) in
  _ ← send_msg cert false;
  mret (HandshakeHash.add_message cert transcript).

(** The message that [emit_client_kx] sends. *)
(* @src rustls/src/client/tls12.rs 475-492 emit_client_kx::match *)
Definition client_kx_message (kxa : KeyExchangeAlgorithm.t) (pub_key : list u8) : Message.t :=
  let params :=
    match kxa with
    | KeyExchangeAlgorithm.ECDHE => ClientKeyExchangeParams.Ecdh (ClientEcdhParams.mk (mkSizedPayload pub_key))
    | KeyExchangeAlgorithm.DHE => ClientKeyExchangeParams.Dh (ClientDhParams.mk (mkSizedPayload pub_key))
    end in
  message12 (HandshakePayload.ClientKeyExchange (ClientKeyExchangeParams.encode params [])).

(* @src rustls/src/client/tls12.rs 469-496 emit_client_kx *)
Definition emit_client_kx (transcript : HandshakeHash.t) (kxa : KeyExchangeAlgorithm.t)
    (pub_key : list u8) : chs HandshakeHash.t :=
  let ckx := client_kx_message kxa pub_key in
  _ ← send_msg ckx false;
  mret (HandshakeHash.add_message ckx transcript).

(* @src rustls/src/client/tls12.rs 498-520 emit_certverify *)
Definition emit_certverify (transcript : HandshakeHash.t) (signer : Signer.t) : chs HandshakeHash.t :=
  let '(transcript, message) := HandshakeHash.take_handshake_buf transcript in
  message ← lift (ok_or message (Error.General "Expected transcript"));
  sig ← lift (Signer.sign signer message);
  let m := message12 (HandshakePayload.CertificateVerify
             (DigitallySignedStruct.new (Signer.scheme signer) sig)) in
  _ ← send_msg m false;
  mret (HandshakeHash.add_message m transcript).

(* @src rustls/src/client/tls12.rs 522-530 emit_ccs *)
Definition emit_ccs : chs unit :=
  send_msg (Message.mk (EncodableVersion.Legacy ProtocolVersion.TLSv1_2)
              (MessagePayload.ChangeCipherSpec ChangeCipherSpecPayload.mk)) false.

(* @src rustls/src/client/tls12.rs 532-551 emit_finished *)
Definition emit_finished (secrets : ConnectionSecrets.t) (transcript : HandshakeHash.t)
    : chs HandshakeHash.t :=
  let vh := HandshakeHash.current_hash transcript in
  let f := message12 (HandshakePayload.Finished (ConnectionSecrets.client_verify_data secrets vh)) in
  _ ← send_msg f true;
  mret (HandshakeHash.add_message f transcript).
End emit.

(** ** ServerHello *)

Section hello.
Context `{Tls12Provider} `{!ClientWorld}.
Notation chs := (hs ClientSide.t).
Notation Suite := (Tls12CipherSuite.t prf12 aead12).

(** The session of TLS 1.2 to be resumed, if any. *)
Definition resuming12 (resuming : option (Retrieved.t ClientSessionValue.t)) : option session12 :=
  resuming ← resuming;
  match Retrieved.value resuming with
  | ClientSessionValue.Tls12 inner => Some inner
  | ClientSessionValue.Tls13 _ => None
  end.

(** The handshake goes on with a ticket, if one was announced, or with the change of
    ciphers. *)
Definition await_ticket (must_issue_new_ticket : bool) (hs : HandshakeState)
    (secrets : ConnectionSecrets.t) (peer_identity : Identity.t) (resuming : option (session12 * enc))
    (pending_decrypter : dec) : State :=
  if must_issue_new_ticket
  then NewTicket (mk_nst hs secrets peer_identity resuming pending_decrypter)
  else Ccs (mk_ccs hs secrets peer_identity resuming pending_decrypter None).

(** The server agreed to resume a session. *)
(* @src rustls/src/client/tls12.rs 155-213 handle_server_hello::match *)
Definition resume (suite : Suite) (resuming : session12) (hs : HandshakeState)
    (randoms : ConnectionRandoms.t) (must_issue_new_ticket : bool) : chs State :=
  _ ← refuse_if (bool_decide (Tls12Session.suite_id (Tls12Session.suite resuming) ≠ Tls12Session.suite_id suite))
        (Error.PeerMisbehaved PeerMisbehaved.ResumptionOfferedWithVariedCipherSuite);
  _ ← refuse_if (bool_decide (Tls12Session.extended_ms resuming ≠ using_ems hs))
        (Error.PeerMisbehaved PeerMisbehaved.ResumptionOfferedWithVariedEms);
  let secrets := ConnectionSecrets.new_resume randoms suite (Tls12Session.master_secret resuming) in
  _ ← log_master_secret secrets;
  '(dec, enc) ← lift (ConnectionSecrets.make_cipher_pair secrets Side.Client);
  _ ← output (OutputEvent.HandshakeKind HandshakeKind.Resumed);
  let peer_identity := ClientSessionCommon.peer_identity (Tls12Session.common resuming) in
  mret (await_ticket must_issue_new_ticket hs secrets peer_identity (Some (resuming, enc)) dec).

(* @src rustls/src/client/tls12.rs 56-232 handle_server_hello *)
Definition handle_server_hello (suite : Suite) (server_hello : ServerHelloPayload.t) (input : Input.t)
    (st : ExpectServerHello.t) : chs State :=
  let hash := CipherSuiteCommon.hash_provider (Tls12CipherSuite.common suite) in
  let transcript := HandshakeHashBuffer.start_hash (ExpectServerHello.transcript_buffer st) hash in
  let transcript := HandshakeHash.add_message (Input.message input) transcript in
  let hi := ExpectServerHello.input st in
  let config := ClientHelloInput.config hi in
  let exts := ServerHelloPayload.extensions server_hello in
  let server_session_id := ServerHelloPayload.session_id server_hello in
  let randoms := ConnectionRandoms.new (ClientHelloInput.random hi) (ServerHelloPayload.random server_hello) in
  let has_downgrade_marker :=
    bool_decide (drop 24 (ConnectionRandoms.server randoms) = DOWNGRADE_SENTINEL) in
  _ ← refuse_if (ClientConfig.supports_version config ProtocolVersion.TLSv1_3 Protocol.Tcp
                 && has_downgrade_marker)
        (Error.PeerMisbehaved PeerMisbehaved.AttemptedDowngradeToTls12WhenTls13IsSupported);
  _ ← refuse_if (from_option (λ info, bool_decide (sp_inner info ≠ [])) false
                   (ServerExtensions.renegotiation_info exts))
        (Error.PeerMisbehaved PeerMisbehaved.NonEmptyRenegotiationInfo);
  let resuming_session := resuming12 (ClientHelloInput.resuming hi) in
  _ ← refuse_if (negb (bool_decide (is_Some resuming_session))
                 && negb (SessionId.is_empty (ClientHelloInput.session_id hi))
                 && SessionId.eq (ClientHelloInput.session_id hi) server_session_id)
        (Error.PeerMisbehaved PeerMisbehaved.ServerEchoedCompatibilitySessionId);
  let using_ems := bool_decide (is_Some (ServerExtensions.extended_main_secret_ack exts)) in
  _ ← refuse_if (ClientConfig.require_ems config && negb using_ems)
        (Error.PeerIncompatible PeerIncompatible.ExtendedMainSecretExtensionRequired);
  let must_issue_new_ticket := bool_decide (is_Some (ServerExtensions.session_ticket_ack exts)) in
  let may_send_cert_status := bool_decide (is_Some (ServerExtensions.certificate_status_request_ack exts)) in
  let hs := mk_hs config server_session_id (ClientHelloInput.session_key hi) using_ems transcript in
  let full :=
    _ ← output (OutputEvent.HandshakeKind HandshakeKind.Full);
    mret (Certificate (mk_cert hs randoms suite may_send_cert_status must_issue_new_ticket
                         (ServerExtensions.client_certificate_type exts))) in
  match resuming_session with
  | Some resuming =>
      if SessionId.eq (Tls12Session.session_id resuming) server_session_id
      then resume suite resuming hs randoms must_issue_new_ticket
      else full
  | None => full
  end.
End hello.

(** ** The server's flight *)

Section flight.
Context `{Tls12Provider} `{!ClientWorld}.
Notation chs := (hs ClientSide.t).

(* @src rustls/src/client/tls12.rs 248-281 ExpectCertificate::handle *)
Definition handle_cert (self : ExpectCertificate) (message : Message.t) : result Error.t State :=
  let hs := add_message message (cert_hs self) in
  server_cert_chain ← require_handshake_msg message
    (λ p, match p with HandshakePayload.Certificate c => Some c | _ => None end)
    HandshakeType.Certificate;
  Ok (if cert_may_send_cert_status self
      then CertificateStatusOrServerKx (mk_status hs (cert_randoms self) (cert_suite self) server_cert_chain
             (cert_must_issue_new_ticket self) (cert_negotiated_client_type self))
      else ServerKx (mk_skx hs (cert_randoms self) (cert_suite self) (ServerCertDetails.mk server_cert_chain [])
             (cert_must_issue_new_ticket self) (cert_negotiated_client_type self))).

(** [ExpectCertificateStatus]. *)
(* @src rustls/src/client/tls12.rs 360-385 ExpectCertificateStatus::handle_input *)
Definition handle_status (self : ExpectCertificateStatusOrServerKx) (message : Message.t)
    : result Error.t State :=
  let hs := add_message message (status_hs self) in
  status ← require_handshake_msg message
    (λ p, match p with HandshakePayload.CertificateStatus c => Some c | _ => None end)
    HandshakeType.CertificateStatus;
  let server_cert := ServerCertDetails.mk (status_server_cert_chain self) (CertificateStatus.into_inner status) in
  Ok (ServerKx (mk_skx hs (status_randoms self) (status_suite self) server_cert
        (status_must_issue_new_ticket self) (status_negotiated_client_type self))).

(* @src rustls/src/client/tls12.rs 398-434 ExpectServerKx::handle_input *)
Definition handle_server_kx (self : ExpectServerKx) (message : Message.t) : result Error.t State :=
  opaque_kx ← require_handshake_msg message
    (λ p, match p with HandshakePayload.ServerKeyExchange k => Some k | _ => None end)
    HandshakeType.ServerKeyExchange;
  let hs := add_message message (skx_hs self) in
  kx ← ok_or (ServerKeyExchangePayload.unwrap_given_kxa opaque_kx (Tls12CipherSuite.kx (skx_suite self)))
         (Error.InvalidMessage InvalidMessage.MissingKeyExchange);
  let kx_params := ServerKeyExchangeParams.encode (ServerKeyExchange.params kx) [] in
  let server_kx := mk_kx kx_params (ServerKeyExchange.dss kx) in
  Ok (ServerDoneOrCertReq (mk_docr hs (skx_randoms self) (skx_suite self) (skx_server_cert self) server_kx
        (skx_must_issue_new_ticket self) (skx_negotiated_client_type self))).

(* @src rustls/src/client/tls12.rs 300-341 ExpectCertificateStatusOrServerKx::handle *)
Definition handle_status_or_kx (self : ExpectCertificateStatusOrServerKx) (message : Message.t)
    : result Error.t State :=
  match handshake_payload message with
  | Some (HandshakePayload.ServerKeyExchange _) =>
      handle_server_kx (mk_skx (status_hs self) (status_randoms self) (status_suite self)
        (ServerCertDetails.mk (status_server_cert_chain self) []) (status_must_issue_new_ticket self)
        (status_negotiated_client_type self)) message
  | Some (HandshakePayload.CertificateStatus _) => handle_status self message
  | _ => Err (inappropriate_handshake_message (Message.payload message) [ContentType.Handshake]
                [HandshakeType.ServerKeyExchange; HandshakeType.CertificateStatus])
  end.

(** [ExpectCertificateRequest]. *)
(* @src rustls/src/client/tls12.rs 637-683 ExpectCertificateRequest::handle_input *)
Definition handle_cert_request (self : ExpectServerDoneOrCertReq) (message : Message.t)
    : result Error.t State :=
  certreq ← require_handshake_msg message
    (λ p, match p with HandshakePayload.CertificateRequest c => Some c | _ => None end)
    HandshakeType.CertificateRequest;
  let hs := add_message message (docr_hs self) in
  let signature_schemes :=
    filter (λ scheme, is_Some (scheme_algorithm scheme)) (CertificateRequestPayload.sigschemes certreq) in
  let client_auth :=
    ClientAuthDetails.resolve (default CertificateType.X509 (docr_negotiated_client_type self))
      (ClientConfig.resolver (config hs)) (Some (CertificateRequestPayload.canames certreq))
      signature_schemes None None in
  Ok (ServerDone (mk_done hs (docr_randoms self) (docr_suite self) (docr_server_cert self)
        (docr_server_kx self) (Some client_auth) (docr_must_issue_new_ticket self))).

(* @src rustls/src/client/tls12.rs 697-737 ExpectServerDone::handle_input *)
Definition handle_server_done (self : ExpectServerDone) (input : Input.t) : result Error.t State :=
  let message := Input.message input in
  match handshake_payload message with
  | Some HandshakePayload.ServerHelloDone =>
      let hs := add_message message (done_hs self) in
      _ ← Input.check_aligned_handshake input;
      purported ← Identity.from_peer
        (CertificateChain.inner (ServerCertDetails.cert_chain (done_server_cert self))) CertificateType.X509;
      purported_identity ← ok_or purported (Error.PeerMisbehaved PeerMisbehaved.NoCertificatesPresented);
      Ok (VerifyServerIdentity (mk_await hs (done_randoms self) (done_suite self)
            (ServerCertDetails.ocsp_response (done_server_cert self)) (done_server_kx self)
            (done_client_auth self) (done_must_issue_new_ticket self) purported_identity))
  | _ => Err (inappropriate_handshake_message (Message.payload message) [ContentType.Handshake]
                [HandshakeType.ServerHelloDone])
  end.

(* @src rustls/src/client/tls12.rs 581-617 ExpectServerDoneOrCertReq::handle *)
Definition handle_done_or_request (self : ExpectServerDoneOrCertReq) (input : Input.t)
    : result Error.t State :=
  match handshake_payload (Input.message input) with
  | Some (HandshakePayload.CertificateRequest _) => handle_cert_request self (Input.message input)
  | _ =>
      let hs := with_transcript (HandshakeHash.abandon_client_auth (transcript (docr_hs self))) (docr_hs self) in
      handle_server_done (mk_done hs (docr_randoms self) (docr_suite self) (docr_server_cert self)
        (docr_server_kx self) None (docr_must_issue_new_ticket self)) input
  end.
End flight.

(** ** The client's flight *)

Section answer.
Context `{Tls12Provider} `{!ClientWorld}.
Notation chs := (hs ClientSide.t).

(* @src rustls/src/client/tls12.rs 770-777 AwaitServerIdentityVerification::presented_identity *)
Definition presented_identity (self : AwaitServerIdentityVerification)
    : action world Error.t ServerIdentity.t :=
  now ← client_time;
  mret (ServerIdentity.mk (aw_peer_identity self) (ClientSessionKey.server_name (session_key (aw_hs self)))
          (aw_ocsp_response self) now).

(* @src rustls/src/client/tls12.rs 779-784 AwaitServerIdentityVerification::verify_with_config *)
Definition verify_with_config (self : AwaitServerIdentityVerification) : action world Error.t Identity.t :=
  identity ← presented_identity self;
  lift (ServerVerifier.verify_identity (ClientConfig.verifier (config (aw_hs self))) identity).

(** What the server has signed. *)
(* @src rustls/src/client/tls12.rs 810-835 continue_with::match *)
Definition verify_kx_signature (self : AwaitServerIdentityVerification) (peer_identity : Identity.t)
    : result Error.t unit :=
  let message := ConnectionRandoms.client (aw_randoms self) ++ ConnectionRandoms.server (aw_randoms self)
                 ++ kx_params (aw_server_kx self) in
  let signature := kx_sig (aw_server_kx self) in
  if negb (usable_for_signature_scheme12 (aw_suite self) (DigitallySignedStruct.scheme signature))
  then misbehaved PeerMisbehaved.SignedKxWithWrongAlgorithm
  else ServerVerifier.verify_tls12_signature (ClientConfig.verifier (config (aw_hs self)))
         (SignatureVerificationInput.mk message (as_signer peer_identity) signature).

(** The group of the server's parameters, if it is one of ours. *)
(* @src rustls/src/client/tls12.rs 853-873 continue_with::match *)
Definition find_group (config : ClientConfig.t) (kx_params : ServerKeyExchangeParams.t)
    : result Error.t (SupportedKxGroup.t world) :=
  let provider := ClientConfig.provider config in
  let maybe_skxg :=
    match kx_params with
    | ServerKeyExchangeParams.Ecdh ecdh =>
        CryptoProvider.find_kx_group provider
          (EcParameters.named_group (ServerEcdhParams.curve_params ecdh)) ProtocolVersion.TLSv1_2
    | ServerKeyExchangeParams.Dh dh =>
        snd <$> list_find (λ kxg, SupportedKxGroup.ffdhe_group kxg = Some (as_ffdhe_group dh))
                  (CryptoProvider.kx_groups provider)
    end in
  ok_or maybe_skxg (Error.PeerMisbehaved PeerMisbehaved.SelectedUnofferedKxGroup).

(** Our certificates, if they were asked for. *)
(* @src rustls/src/client/tls12.rs 837-846 continue_with::match *)
Definition emit_client_auth (transcript : HandshakeHash.t) (client_auth : option ClientAuthDetails.t)
    : chs HandshakeHash.t :=
  match client_auth with
  | Some client_auth =>
      emit_certificate transcript
        (match client_auth with
         | ClientAuthDetails.Empty _ => CertificateChain.mk []
         | ClientAuthDetails.Verify credentials _ _ => from_signer credentials
         end)
  | None => mret transcript
  end.

Definition emit_proof (transcript : HandshakeHash.t) (client_auth : option ClientAuthDetails.t)
    : chs HandshakeHash.t :=
  match client_auth with
  | Some (ClientAuthDetails.Verify credentials _ _) =>
      emit_certverify transcript (SelectedCredential.signer credentials)
  | _ => mret transcript
  end.

(* @src rustls/src/client/tls12.rs 786-945 AwaitServerIdentityVerification::continue_with *)
Definition continue_with (self : AwaitServerIdentityVerification) (peer_identity : Identity.t)
    : chs State :=
  let hs := aw_hs self in
  let suite := aw_suite self in
  _ ← lift (verify_kx_signature self peer_identity);
  tr ← emit_client_auth (transcript hs) (aw_client_auth self);
  kx_params ← lift (decode_kx_params ServerKeyExchangeParams.decode (Tls12CipherSuite.kx suite)
                      (kx_params (aw_server_kx self)));
  skxg ← lift (find_group (config hs) kx_params);
  started ← on_world (SupportedKxGroup.start skxg);
  let kx := StartedKeyExchange.into_single started in
  tr ← emit_client_kx tr (Tls12CipherSuite.kx suite) (ActiveKeyExchange.pub_key kx);
  let ems_seed := if using_ems hs then Some (HandshakeHash.current_hash tr) else None in
  tr ← emit_proof tr (aw_client_auth self);
  secrets ← lift (ConnectionSecrets.from_key_exchange kx (ServerKeyExchangeParams.pub_key kx_params)
                    ems_seed (aw_randoms self) suite);
  _ ← output (OutputEvent.KeyExchangeGroup skxg);
  _ ← emit_ccs;
  _ ← log_master_secret secrets;
  '(dec, encrypter) ← lift (ConnectionSecrets.make_cipher_pair secrets Side.Client);
  _ ← set_encrypter (Encrypter.mk encrypter (CipherSuiteCommon.confidentiality_limit
                                               (Tls12CipherSuite.common suite)));
  tr ← emit_finished secrets tr;
  mret (await_ticket (aw_must_issue_new_ticket self) (with_transcript tr hs) secrets peer_identity None dec).

(** ** The end of the handshake *)

(* @src rustls/src/client/tls12.rs 964-987 ExpectNewTicket::handle *)
Definition handle_new_ticket (self : ExpectNewTicket) (message : Message.t) : result Error.t State :=
  let hs := add_message message (nst_hs self) in
  nst ← require_handshake_msg message
    (λ p, match p with HandshakePayload.NewSessionTicket n => Some n | _ => None end)
    HandshakeType.NewSessionTicket;
  Ok (Ccs (mk_ccs hs (nst_secrets self) (nst_peer_identity self) (nst_resuming self)
             (nst_pending_decrypter self) (Some nst))).

(* @src rustls/src/client/tls12.rs 1008-1041 ExpectCcs::handle *)
Definition handle_ccs (self : ExpectCcs) (input : Input.t) : chs State :=
  match Message.payload (Input.message input) with
  | MessagePayload.ChangeCipherSpec _ =>
      _ ← lift (Input.check_aligned_handshake input);
      _ ← set_record_decrypter (ccs_pending_decrypter self);
      mret (Finished (mk_fin (ccs_hs self) (ccs_peer_identity self) (ccs_resuming self) (ccs_ticket self)
                        (ccs_secrets self)))
  | payload => fail (inappropriate_message payload [ContentType.ChangeCipherSpec])
  end.

(** The ticket and its lifetime: a new one, or that of the session that was resumed. *)
(* @src rustls/src/client/tls12.rs 1062-1076 save_session::match *)
Definition ticket_to_save (self : ExpectFinished)
    : SizedPayload PayloadSize.U16 Cardinality.MaybeEmpty * Duration.t :=
  let '(ticket, lifetime) :=
    match fin_ticket self with
    | Some nst => (NewSessionTicketPayload.ticket nst, NewSessionTicketPayload.lifetime_hint nst)
    | None => (mkSizedPayload [], Duration.mk 0 0)
    end in
  match sp_inner ticket, fin_resuming self with
  | [], Some (resuming_session, _) =>
      (ClientSessionCommon.ticket (Tls12Session.common resuming_session), lifetime)
  | _, _ => (ticket, lifetime)
  end.

(* @src rustls/src/client/tls12.rs 1060-1104 ExpectFinished::save_session *)
Definition save_session (self : ExpectFinished) : action world Error.t unit := λ w,
  let hs := fin_hs self in
  let '(ticket, lifetime) := ticket_to_save self in
  if SessionId.is_empty (session_id hs) && bool_decide (sp_inner ticket = []) then (w, Ok tt)
  else
    match client_time w with
    | (w, Ok now) =>
        let session_value :=
          Tls12Session.new (ConnectionSecrets.suite (fin_secrets self)) (session_id hs) ticket
            (ConnectionSecrets.master_secret (fin_secrets self)) (fin_peer_identity self) now lifetime
            (using_ems hs) in
        (set_tls12_session (session_key hs) session_value w, Ok tt)
    | (w, Err _) => (w, Ok tt)
    | (w, Panic) => (w, Panic)
    end.

(** After a resumption, it is now for the client to change ciphers. *)
(* @src rustls/src/client/tls12.rs 1145-1156 handle::match *)
Definition answer_resumption (self : ExpectFinished) (transcript : HandshakeHash.t) : chs unit :=
  match fin_resuming self with
  | Some (_, encrypter) =>
      _ ← emit_ccs;
      _ ← set_encrypter (Encrypter.mk encrypter (CipherSuiteCommon.confidentiality_limit
            (Tls12CipherSuite.common (ConnectionSecrets.suite (fin_secrets self)))));
      _ ← emit_finished (fin_secrets self) transcript;
      mret tt
  | None => mret tt
  end.

(* @src rustls/src/client/tls12.rs 1108-1177 ExpectFinished::handle *)
Definition handle_finished (self : ExpectFinished) (input : Input.t) : chs State :=
  let hs := fin_hs self in
  let secrets := fin_secrets self in
  finished ← lift (require_handshake_msg (Input.message input)
                     (λ p, match p with HandshakePayload.Finished f => Some f | _ => None end)
                     HandshakeType.Finished);
  _ ← lift (Input.check_aligned_handshake input);
  let vh := HandshakeHash.current_hash (transcript hs) in
  _ ← refuse_if (bool_decide (ConnectionSecrets.server_verify_data secrets vh ≠ finished))
        (Error.PeerMisbehaved PeerMisbehaved.IncorrectFinished);
  let hs := add_message (Input.message input) hs in
  _ ← on_world (save_session self);
  _ ← answer_resumption self (transcript hs);
  extracted_secrets ←
    (if ClientConfig.enable_secret_extraction (config hs)
     then r ← capture (lift (ConnectionSecrets.extract_secrets secrets Side.Client)); mret (Some r)
     else mret None);
  _ ← output (OutputEvent.PeerIdentity (fin_peer_identity self));
  _ ← output (OutputEvent.ExtendedMainSecret (using_ems hs));
  _ ← output (OutputEvent.Exporter (ConnectionSecrets.into_exporter secrets));
  _ ← start_traffic;
  mret (Traffic (ClientTls12.mk extracted_secrets)).

(** A ticket that the server cannot have accepted is forgotten. *)
(* @src rustls/src/client/tls12.rs 1179-1190 ExpectFinished::handle_decrypt_error *)
Definition finished_decrypt_error (self : ExpectFinished) (w : world) : world :=
  match fin_resuming self with
  | Some _ => remove_tls12_session (session_key (fin_hs self)) w
  | None => w
  end.
End answer.

(** ** The states together *)

Section machine.
Context `{Tls12Provider} `{!ClientWorld}.
Notation chs := (hs ClientSide.t).

(** [State::handle] of each state. *)
Definition handle (self : State) (input : Input.t) : chs State :=
  let message := Input.message input in
  match self with
  | Certificate st => lift (handle_cert st message)
  | CertificateStatusOrServerKx st => lift (handle_status_or_kx st message)
  | ServerKx st => lift (handle_server_kx st message)
  | ServerDoneOrCertReq st => lift (handle_done_or_request st input)
  | ServerDone st => lift (handle_server_done st input)
  | VerifyServerIdentity _ => fail (Error.Unreachable "state cannot process a message")
  | NewTicket st => lift (handle_new_ticket st message)
  | Ccs st => handle_ccs st input
  | Finished st => handle_finished st input
  | Traffic st => st ← ClientTls12.handle st input; mret (Traffic st)
  end.

Definition handle_without_input (self : State) : chs State :=
  match self with
  | VerifyServerIdentity vsi =>
      verified ← on_world (verify_with_config vsi);
      continue_with vsi verified
  | _ => mret self
  end.

Definition handle_decrypt_error (self : State) (j : Join.t ClientSide.t) : Join.t ClientSide.t :=
  match self with
  | Finished st =>
      Join.mk (Join.outputs j) (Join.quic j) (Join.side j) (Join.key_log j)
        (finished_decrypt_error st (Join.outside j))
  | _ => j
  end.

#[export] Instance machine : StateMachine State dec enc sched (Join.t ClientSide.t) := {|
  Connection.handle := handle;
  Connection.wants_input self := match self with VerifyServerIdentity _ => false | _ => true end;
  Connection.handle_without_input := handle_without_input;
  Connection.is_traffic self := match self with Traffic _ => true | _ => false end;
  Connection.handle_decrypt_error := handle_decrypt_error;
|}.

#[export] Instance TLS12_HANDLER : ClientHandler12 := {|
  state12 := State;
  machine12 := machine;
  handle_server_hello12 := handle_server_hello;
|}.
End machine.
End Client12.
