(* ===== verification/ToyProvider.v ===== *)
(** * A concrete provider

    A client whose cryptography is a toy: the hypotheses of theorems about handshakes are
    shown to hold of runs that are computed with it. *)
From stdpp Require Import gmap.
From S2P Require Import Prelude Enums Errors Codec Records Fragmenter Deframer Extensions Payloads.
From S2P Require Import ServerHello ClientHello Messages Cipher Send Receive Connection Tls13Cipher Hkdf.
From S2P Require Import KeySchedule KeyScheduleSpec Tls13Suites Sessions Compress Verify Kx QuicKeys.
From S2P Require Import Transcript Traffic Outputs ClientConfig Ech ClientHs13 EndToEnd.

Module ToyClient.
#[global] Instance no_quic : QuicAlgorithm Empty_set unit unit := {|
  alg_packet_key (q : Empty_set) _ _ := match q with end;
  alg_header_protection_key (q : Empty_set) _ := match q with end;
  aead_key_len (q : Empty_set) := match q with end;
|}.

(** The world is a clock and the number of sessions stored. *)
#[global] Instance provider : Provider := {|
  enc := Tls13RecordEncrypter.t;
  dec := Tls13RecordDecrypter.t;
  quic_alg := Empty_set;
  packet_keys := unit;
  header_keys := unit;
  prf12 := Empty_set;
  aead12 := Empty_set;
  hpke_sealer := unit;
  world := nat;
  provider_names := any_names;
|}.

#[global] Instance client_world : ClientWorld := {|
  client_random n w := (w, Some (replicate n x2a));
  clock w := (S w, Some (Z.of_nat w));
  set_kx_hint _ _ w := w;
  kx_hint _ w := (w, None);
  set_tls12_session _ _ w := w;
  tls12_session _ w := (w, None);
  remove_tls12_session _ w := w;
  ClientConfig.insert_tls13_ticket _ _ w := S w;
  take_tls13_ticket _ w := (w, None);
  compression_for _ _ w := (w, None);
|}.

(** Sealing appends a tag. *)
#[global] Instance sealer : HpkeSealer := λ _ plaintext s, (s, Ok (plaintext ++ replicate 16 x2a)).

Definition tls13 : Tls13CipherSuite.t enc dec quic_alg :=
  Tls13ProtocolSuite.suite ToyConnection.suite.

(** Only the certificate [2a] is trusted, for one name; its signatures are the byte [2b]
    and the message. *)
Definition name : ServerName.t := ServerName.DnsName (byte_str "example.org").
Definition certificate : CertificateDer := mkCertificateDer [x2a].
Definition check_signature (input : SignatureVerificationInput.t) : result Error.t unit :=
  if decide (sp_inner (DigitallySignedStruct.sig (SignatureVerificationInput.signature input))
             = x2b :: SignatureVerificationInput.message input)
  then Ok tt else Err (Error.General "wrong signature").
Definition verifier : ServerVerifier.t := ServerVerifier.mk
  (λ presented,
     match ServerIdentity.identity presented with
     | Identity.X509 (CertificateIdentity.mk end_entity []) =>
         if decide (der end_entity = [x2a] ∧ ServerIdentity.server_name presented = name)
         then Ok (ServerIdentity.identity presented)
         else Err (Error.General "unknown certificate")
     | _ => Err (Error.General "unknown certificate")
     end)
  check_signature check_signature
  [SignatureScheme.ED25519] false [CertificateType.X509] None.

Definition config : ClientConfig.t :=
  ClientConfig.mk true Tls12Resumption.Disabled true (λ _, false) false false false None
    (CryptoProvider.mk [] [tls13] [toy_group NamedGroup.X25519]) verifier
    (ClientCredentialResolver.mk (λ _, None) []) [] [] [] None.

Definition out : Out ClientSide.t :=
  Output.mk (ReceivePath.new Side.Client) SendPath.default []
    (Join.mk ConnectionOutputs.default None ClientSide.default [] 7) None false.
End ToyClient.

(** An AEAD that does not encrypt, with tags of the usual length. *)
Module ToyAead.
Definition tag (key nonce aad plain : list u8) : list u8 :=
  be_bytes 16 (Toy.sum key + 7 * Toy.sum nonce + 11 * Toy.sum aad + 13 * Toy.sum plain).
Definition open (key nonce aad c : list u8) : list u8 * option nat :=
  let n := length c - 16 in
  (c, if decide (16 ≤ length c ∧ drop n c = tag key nonce aad (take n c)) then Some n else None).

Program Definition aead (key_len : nat) (Hk : key_len ≤ 32) : Aead.t :=
  Aead.mk key_len 16 Hk _ (λ key nonce aad p, (p, Some (tag key nonce aad p))) open _ _ _ _ _.
Next Obligation. lia. Qed.
Next Obligation. done. Qed.
Next Obligation. intros ? ? key nonce aad p c t Hs. injection Hs as <- <-. apply be_bytes_length. Qed.
Next Obligation. done. Qed.
Next Obligation.
  intros ? ? key nonce aad c p n Ho. injection Ho as <- Hn. case_decide; [|done]. injection Hn as <-. lia.
Qed.
Next Obligation.
  intros ? ? key nonce aad p c t Hs. injection Hs as <- <-. exists (tag key nonce aad p). unfold open.
  assert (length (tag key nonce aad p) = 16) as Hl by apply be_bytes_length.
  rewrite length_app, Hl, Nat.add_sub, drop_app_length, take_app_length.
  rewrite decide_True; [done|]. split; [lia|done].
Qed.

Definition aes_128 : Aead.t := aead 16 ltac:(lia).
Definition aes_256 : Aead.t := aead 32 ltac:(lia).
End ToyAead.
