(* ===== verification/ClientAuth.v ===== *)
(** * Authentication of the server by a TLS 1.3 client

    A client of [ClientHs13] that reaches application traffic has been sent the messages
    of the server's flight, in order and each once; its verifier accepted the identity
    that the server presented for the name that was asked for; the key of that identity
    signed the transcript; and the Finished message is the MAC of the transcript under
    the server's handshake secret. *)
From stdpp Require Import gmap.
From S2P Require Import Prelude Enums Errors Codec Records Extensions Payloads ServerHello ClientHello.
From S2P Require Import Messages Cipher Send Receive Connection Hkdf KeySchedule Sessions Compress Verify Kx.
From S2P Require Import QuicKeys Transcript Traffic Outputs ClientConfig Ech ClientHs13 Handlers.

(** ** The messages of the server *)

Section auth.
Context `{ClientWorld} `{!HpkeSealer}.
Notation chs := (hs ClientSide.t).

(** The handshake after more messages, and the hash of its transcript. *)
Definition after (hs : HandshakeState.t) (ins : list Input.t) : HandshakeState.t :=
  foldl (λ hs i, HandshakeState.add_message (Input.message i) hs) hs ins.
Definition hash_of (hs : HandshakeState.t) (ins : list Input.t) : list u8 :=
  Hash.hash (HandshakeHash.provider (HandshakeState.transcript hs))
    (HandshakeHash.ctx (HandshakeState.transcript hs)
     ++ concat ((λ i, transcript_bytes (Input.message i)) <$> ins)).

(** EncryptedExtensions and, perhaps, a CertificateRequest. *)
Inductive opening (exts : EncryptedExtensions.t) : list Input.t → Prop :=
| opening_plain i : input_payload i = Some (HandshakePayload.EncryptedExtensions exts) →
    opening exts [i]
| opening_request i r req : input_payload i = Some (HandshakePayload.EncryptedExtensions exts) →
    input_payload r = Some (HandshakePayload.CertificateRequestTls13 req) →
    opening exts [i; r].

Notation name_of hs := (ClientSessionKey.server_name (HandshakeState.session_key hs)).
Notation verifier_of hs := (ClientConfig.verifier (HandshakeState.config hs)).

(** Certificates that the verifier accepts as those of [id]. *)
Record vouched (hs : HandshakeState.t) (exts : EncryptedExtensions.t)
    (chain : CertificatePayloadTls13.t) (id : Identity.t) : Prop := {
  vouched_context : sp_inner (CertificatePayloadTls13.context chain) = [];
  vouched_identity : ∃ presented now,
    Identity.from_peer (CertificateChain.inner (CertificatePayloadTls13.into_certificate_chain chain))
      (default CertificateType.X509 (EncryptedExtensions.server_certificate_type exts))
      = Ok (Some presented)
    ∧ ServerVerifier.verify_identity (verifier_of hs)
        (ServerIdentity.mk presented (name_of hs) (CertificatePayloadTls13.end_entity_ocsp chain) now)
      = Ok id;
}.

(** A proof, by the key of [id], that it takes part in the handshake [is]. *)
Definition signed (hs : HandshakeState.t) (ins : list Input.t) (id : Identity.t) (i : Input.t) : Prop :=
  ∃ dss, input_payload i = Some (HandshakePayload.CertificateVerify dss)
    ∧ ServerVerifier.verify_tls13_signature (verifier_of hs)
        (SignatureVerificationInput.mk (replicate 64 x20 ++ SERVER_CONSTANT ++ hash_of hs ins)
           (as_signer id) dss) = Ok tt.

(** What makes the client take [id] for its peer. *)
Inductive identified (ee : ExpectEncryptedExtensions) : list Input.t → Identity.t → Prop :=
| by_resumption session exts i :
    ee_resuming_session ee = Some session →
    input_payload i = Some (HandshakePayload.EncryptedExtensions exts) →
    identified ee [i] (ClientSessionCommon.peer_identity (Tls13Session.common session))
| by_certificate exts ins ic icv chain id :
    ee_resuming_session ee = None →
    opening exts ins →
    presents (ClientConfig.cert_decompressors (HandshakeState.config (ee_hs ee))) ic chain →
    vouched (ee_hs ee) exts chain id →
    signed (ee_hs ee) (ins ++ [ic]) id icv →
    identified ee (ins ++ [ic; icv]) id.

(** The whole flight: its last message is the MAC of the others. *)
Inductive authenticated (ee : ExpectEncryptedExtensions) : list Input.t → Identity.t → Prop :=
| authenticated_finished ins i id verify_data :
    identified ee ins id →
    KeyScheduleHandshake.sign_server_finish (HandshakeState.key_schedule (ee_hs ee))
      (hash_of (ee_hs ee) ins) = Ok verify_data →
    input_payload i = Some (HandshakePayload.Finished verify_data) →
    Input.aligned_handshake i = true →
    authenticated ee (ins ++ [i]) id.

(** A run: each message, then what the state does without input. *)
Fixpoint run13 (st : State13) (ins : list Input.t) : chs State13 :=
  match ins with
  | [] => mret st
  | i :: ins =>
      st ← handle13 st i;
      st ← handle13_without_input st;
      run13 st ins
  end.

(** The peer, once application data flows. *)
Definition peer_of (st : State13) : option Identity.t :=
  match st with
  | Traffic13 st | QuicTraffic13 (ClientTls13.mk_quic st) =>
      Some (Tls13ClientSessionInput.peer_identity (ClientTls13.session_input st))
  | _ => None
  end.

(** ** The transcript *)

Lemma after_snoc hs ins i :
  after hs (ins ++ [i]) = HandshakeState.add_message (Input.message i) (after hs ins).
Proof. unfold after. by rewrite foldl_app. Qed.

Lemma after_fields hs ins :
  HandshakeState.config (after hs ins) = HandshakeState.config hs
  ∧ HandshakeState.session_key (after hs ins) = HandshakeState.session_key hs
  ∧ HandshakeState.key_schedule (after hs ins) = HandshakeState.key_schedule hs.
Proof. induction ins as [|i ins IH] using rev_ind; [done|]. by rewrite after_snoc. Qed.

Lemma after_hash hs ins :
  HandshakeHash.current_hash (HandshakeState.transcript (after hs ins)) = hash_of hs ins.
Proof.
  unfold hash_of, HandshakeHash.current_hash.
  enough (HandshakeHash.provider (HandshakeState.transcript (after hs ins))
          = HandshakeHash.provider (HandshakeState.transcript hs)
        ∧ HandshakeHash.ctx (HandshakeState.transcript (after hs ins))
          = HandshakeHash.ctx (HandshakeState.transcript hs)
            ++ concat ((λ i, transcript_bytes (Input.message i)) <$> ins)) as [-> ->] by done.
  induction ins as [|i ins [IHp IHc]] using rev_ind; [cbn; by rewrite app_nil_r|].
  rewrite after_snoc, fmap_app, concat_app. cbn [HandshakeState.add_message fmap list_fmap concat].
  unfold HandshakeState.add_message, HandshakeState.with_transcript. cbn [HandshakeState.transcript].
  rewrite add_message_provider, add_message_ctx, IHp, IHc, app_nil_r. by rewrite (assoc_L (++)).
Qed.

(** ** What each state knows *)

(** An [EchOutcome] of the status that the ServerHello decided. *)
Definition of_status (ee : ExpectEncryptedExtensions) (ech : EchOutcome.t) : Prop :=
  EchOutcome.status ech = ee_ech_status ee.

(** The messages so far opened a flight with certificates. *)
Definition opened (ee : ExpectEncryptedExtensions) (ins : list Input.t) (hs : HandshakeState.t)
    (ech : EchOutcome.t) (expected : CertificateType.t) (exts : EncryptedExtensions.t) : Prop :=
  ee_resuming_session ee = None ∧ opening exts ins ∧ hs = after (ee_hs ee) ins ∧ of_status ee ech
  ∧ expected = default CertificateType.X509 (EncryptedExtensions.server_certificate_type exts).

Definition knows (ee : ExpectEncryptedExtensions) (ins : list Input.t) (st : State13) : Prop :=
  match st with
  | EncryptedExtensions st => st = ee ∧ ins = []
  | CertificateOrCompressedCertificateOrCertReq st | CertificateOrCertReq st =>
      ∃ exts i, ins = [i]
        ∧ opened ee ins (cocr_hs st) (cocr_ech st) (cocr_expected_certificate_type st) exts
  | CertificateOrCompressedCertificate st | Certificate st =>
      ∃ exts, opened ee ins (cert_hs st) (cert_ech st) (cert_expected_certificate_type st) exts
  | CertificateVerify st =>
      ∃ exts pre ic chain, ins = pre ++ [ic]
        ∧ opened ee pre (after (ee_hs ee) pre) (cv_ech st) (cv_expected_certificate_type st) exts
        ∧ cv_hs st = after (ee_hs ee) ins
        ∧ presents (ClientConfig.cert_decompressors (HandshakeState.config (ee_hs ee))) ic chain
        ∧ sp_inner (CertificatePayloadTls13.context chain) = []
        ∧ cv_server_cert st = ServerCertDetails.mk (CertificatePayloadTls13.into_certificate_chain chain)
                                (CertificatePayloadTls13.end_entity_ocsp chain)
  | VerifyServerIdentity st =>
      ∃ exts pre ic icv chain, ins = pre ++ [ic; icv]
        ∧ ee_resuming_session ee = None ∧ opening exts pre ∧ of_status ee (aw_ech st)
        ∧ aw_hs st = after (ee_hs ee) ins
        ∧ presents (ClientConfig.cert_decompressors (HandshakeState.config (ee_hs ee))) ic chain
        ∧ sp_inner (CertificatePayloadTls13.context chain) = []
        ∧ aw_ocsp_response st = CertificatePayloadTls13.end_entity_ocsp chain
        ∧ Identity.from_peer
            (CertificateChain.inner (CertificatePayloadTls13.into_certificate_chain chain))
            (default CertificateType.X509 (EncryptedExtensions.server_certificate_type exts))
          = Ok (Some (aw_peer_identity st))
        ∧ aw_handshake_hash st = hash_of (ee_hs ee) (pre ++ [ic])
        ∧ input_payload icv = Some (HandshakePayload.CertificateVerify (aw_cert_verify st))
  | Finished st =>
      identified ee ins (Tls13ClientSessionInput.peer_identity (fin_session_input st))
      ∧ fin_hs st = after (ee_hs ee) ins ∧ of_status ee (fin_ech st)
  | Traffic13 _ | QuicTraffic13 _ =>
      ee_ech_status ee ≠ EchStatus.Rejected
      ∧ ∃ flight rest id, ins = flight ++ rest ∧ authenticated ee flight id ∧ peer_of st = Some id
  end.

Lemma handle_ee_knows ee i out out' st :
  handle_ee ee i out = (out', Ok st) → knows ee [i] st.
Proof.
  intros He. unfold handle_ee in He. bind_inv.
  match goal with H : match ?p with _ => _ end = Some _ |- _ => destruct p; simplify_eq end.
  destruct (ee_resuming_session ee) eqn:Hr; bind_inv.
  - split_and!; [by econstructor|done|done].
  - assert (∀ st', opened ee [i] (HandshakeState.add_message (Input.message i) (ee_hs ee))
                     (EchOutcome.mk st' (ee_ech_status ee)) _ _) as Ho
      by (intros; split_and!; [done|by constructor|done..]).
    case_match; cbn; eauto 10.
Qed.

Lemma handle_cert_payload_knows ee pre i st chain exts st' :
  opened ee pre (after (ee_hs ee) pre) (cert_ech st) (cert_expected_certificate_type st) exts →
  cert_hs st = after (ee_hs ee) (pre ++ [i]) →
  presents (ClientConfig.cert_decompressors (HandshakeState.config (ee_hs ee))) i chain →
  handle_cert_payload st chain = Ok st' → knows ee (pre ++ [i]) st'.
Proof.
  intros Ho Hs Hp. unfold handle_cert_payload. case_decide as Hc; [done|]. intros [= <-].
  cbn. eauto 12.
Qed.

Lemma handle_cert_knows ee ins i st exts st' :
  opened ee ins (cert_hs st) (cert_ech st) (cert_expected_certificate_type st) exts →
  handle_cert st (Input.message i) = Ok st' → knows ee (ins ++ [i]) st'.
Proof.
  intros Ho He. unfold handle_cert in He. bind_inv.
  match goal with H : match ?p with _ => _ end = Some _ |- _ => destruct p; simplify_eq end.
  pose proof Ho as (? & ? & Hs & ? & ?). rewrite Hs in Ho.
  eapply (handle_cert_payload_knows _ _ _ (cert_add_message (Input.message i) st));
    [done| |by apply presents_open|done].
  cbn. by rewrite Hs, after_snoc.
Qed.

Lemma handle_compressed_cert_knows ee ins i st exts st' :
  opened ee ins (cert_hs st) (cert_ech st) (cert_expected_certificate_type st) exts →
  handle_compressed_cert st (Input.message i) = Ok st' → knows ee (ins ++ [i]) st'.
Proof.
  intros Ho He. unfold handle_compressed_cert in He. bind_inv.
  match goal with H : match ?p with _ => _ end = Some _ |- _ => destruct p; simplify_eq end.
  pose proof Ho as (? & ? & Hs & ? & ?). rewrite Hs in Ho.
  destruct (list_find _ _) as [[k d]|] eqn:Hf; [|done]. cbn [fmap option_fmap option_map snd] in He.
  case_decide; [done|]. destruct (CertDecompressor.decompress_into _ _ _) eqn:Hd; [|done]. bind_inv.
  apply list_find_Some in Hf as (Hk & Ha & _). cbn in Hk. rewrite Hs in Hk.
  rewrite (proj1 (after_fields _ _)) in Hk.
  match goal with H : map_err _ _ = Ok _ |- _ => rename H into Hm end.
  destruct (read_bytes _) eqn:Hb in Hm; simplify_eq/=.
  eapply (handle_cert_payload_knows _ _ _ (cert_add_message (Input.message i) st));
    [done|by cbn; rewrite Hs, after_snoc| |done].
  eapply presents_compressed; eauto; [by eapply list_elem_of_lookup_2|lia].
Qed.

Lemma handle_cert_request_knows ee i r exts st offered st' :
  opened ee [i] (cocr_hs st) (cocr_ech st) (cocr_expected_certificate_type st) exts →
  handle_cert_request st offered (Input.message r) = Ok st' → knows ee [i; r] st'.
Proof.
  intros (? & Hop & Hs & ? & ?) He. unfold handle_cert_request in He. bind_inv.
  match goal with H : match ?p with _ => _ end = Some _ |- _ => destruct p; simplify_eq end.
  do 2 (case_decide; [done|]). bind_inv. inversion Hop; subst.
  case_match; exists exts; (split_and!; [done|by econstructor|cbn; by rewrite Hs|done|done]).
Qed.

Lemma handle_cv_knows ee ins i st st' :
  knows ee ins (CertificateVerify st) →
  handle_cv st (Input.message i) = Ok st' → knows ee (ins ++ [i]) st'.
Proof.
  intros (exts & pre & ic & chain & -> & (? & ? & ? & ? & Ht) & Hs & Hp & Hc & Hd) He.
  unfold handle_cv in He. bind_inv.
  match goal with H : match ?p with _ => _ end = Some _ |- _ => destruct p; simplify_eq end.
  exists exts, pre, ic, i, chain. cbn -[Identity.from_peer]. rewrite Hd, Ht in *. cbn in *.
  rewrite Hs, after_hash, after_snoc, <- (assoc_L (++)).
  split_and!; try done. by rewrite (assoc_L (++)), after_snoc, after_snoc.
Qed.

Lemma verify_knows ee ins st w w' id st' :
  knows ee ins (VerifyServerIdentity st) →
  verify_with_config st w = (w', Ok id) → continue_with st id = Ok st' → knows ee ins st'.
Proof.
  intros (exts & pre & ic & icv & chain & -> & Hr & Ho & He & Hs & Hp & Hc & Hocsp & Hid & Hh & Hcv) Hv Hw.
  unfold verify_with_config, presented_identity in Hv. bind_inv.
  unfold continue_with in Hw. bind_inv.
  match goal with H : construct_server_verify_message _ = _ |- _ =>
    apply server_verify_message_ok in H; rename H into Hm end.
  rewrite Hs, Hocsp in Hv. rewrite Hm, Hh, Hs in *.
  destruct (after_fields (ee_hs ee) (pre ++ [ic; icv])) as (Hcf & Hk & _). rewrite Hcf, Hk in *.
  cbn. split_and!; [|done|done]. eapply by_certificate; try done.
  - split; [done|]. eauto.
  - eexists. split; [done|]. match goal with u : () |- _ => by destruct u end.
Qed.

Lemma handle_finished_knows ee ins i st out out' st' :
  knows ee ins (Finished st) →
  handle_finished st i out = (out', Ok st') → knows ee (ins ++ [i]) st'.
Proof.
  intros (Hid & Hs & Hech) He. unfold handle_finished in He.
  apply action_bind_ok in He as (? & vd & Hreq & He).
  apply action_bind_ok in He as (? & ? & Hal & He).
  apply action_bind_ok in He as (? & expect & Hexp & He).
  apply action_bind_ok in He as (? & ? & Hvd & He). bind_inv.
  match goal with H : match ?p with _ => _ end = Some _ |- _ => destruct p; simplify_eq end.
  apply bool_decide_eq_false, dec_stable in Hvd as <-.
  repeat match goal with
  | H : context [let '(_, _) := ?p in _] |- _ => destruct p eqn:?; bind_inv
  end.
  match goal with H : bool_decide (_ = EchStatus.Rejected) = false |- _ =>
    apply bool_decide_eq_false in H; rewrite Hech in H end.
  assert (authenticated ee (ins ++ [i]) (Tls13ClientSessionInput.peer_identity (fin_session_input st))).
  { econstructor; try done.
    - by rewrite Hs, after_hash, (proj2 (proj2 (after_fields _ _))) in Hexp.
    - unfold Input.check_aligned_handshake in Hal. by destruct (Input.aligned_handshake i). }
  destruct (KeyScheduleTrafficReceive.is_quic _);
    (split; [done|]); exists (ins ++ [i]), []; eexists;
    (split_and!; [by rewrite app_nil_r|done|done]).
Qed.

(** Application traffic does not change who the peer is. *)
Lemma traffic_keeps_input st i out out' st' :
  ClientTls13.handle st i out = (out', Ok st') →
  ClientTls13.session_input st' = ClientTls13.session_input st.
Proof.
  unfold ClientTls13.handle. intros He.
  destruct (Message.payload _) as [|[[]]| | |]; try done; bind_inv; try done.
  unfold ClientTls13.handle_key_update in He.
  destruct (KeyScheduleTrafficReceive.is_quic _); [done|]. by bind_inv.
Qed.

Lemma quic_traffic_keeps st i out out' st' :
  ClientTls13.handle_quic st i out = (out', Ok st') → st' = st.
Proof.
  unfold ClientTls13.handle_quic. intros He.
  destruct (Message.payload _) as [|[[]]| | |]; try done; by bind_inv.
Qed.

Ltac cert_knows :=
  first [ by eapply handle_cert_request_knows
        | by (eapply handle_compressed_cert_knows; [|done])
        | by (eapply handle_cert_knows; [|done]) ].

Lemma handle13_knows ee ins i st out out' st' :
  knows ee ins st → handle13 st i out = (out', Ok st') → knows ee (ins ++ [i]) st'.
Proof.
  intros Hk He. destruct st as [st|st|st|st|st|st|st|st|st|st]; cbn [handle13] in He; bind_inv.
  - destruct Hk as [-> ->]. by eapply handle_ee_knows.
  - destruct Hk as (exts & j & -> & Hk). unfold handle_coccocr in He.
    destruct (handshake_payload _) as [[]|]; try done; cert_knows.
  - destruct Hk as (exts & Hk). unfold handle_cocc in He.
    destruct (handshake_payload _) as [[]|]; try done; cert_knows.
  - destruct Hk as (exts & j & -> & Hk). unfold handle_cocr in He.
    destruct (handshake_payload _) as [[]|]; try done; cert_knows.
  - destruct Hk as (exts & Hk). cert_knows.
  - by eapply handle_cv_knows.
  - done.
  - by eapply handle_finished_knows.
  - destruct Hk as (? & flight & rest & id & -> & ? & Hid).
    match goal with H : ClientTls13.handle _ _ _ = _ |- _ => apply traffic_keeps_input in H as Hi end.
    split; [done|]. exists flight, (rest ++ [i]), id. cbn in *. rewrite Hi, (assoc_L (++)). done.
  - destruct Hk as (? & flight & rest & id & -> & ? & Hid).
    match goal with H : ClientTls13.handle_quic _ _ _ = _ |- _ => apply quic_traffic_keeps in H as -> end.
    split; [done|]. exists flight, (rest ++ [i]), id. by rewrite (assoc_L (++)).
Qed.

Lemma without_input_knows ee ins st out out' st' :
  knows ee ins st → handle13_without_input st out = (out', Ok st') → knows ee ins st'.
Proof.
  intros Hk He. destruct st; cbn [handle13_without_input] in He; bind_inv; try done.
  match goal with H : on_world _ _ = _ |- _ => apply on_world_ok in H as (? & ? & ?) end.
  by eapply verify_knows.
Qed.

Lemma run13_knows ee ins pre st out out' st' :
  knows ee pre st → run13 st ins out = (out', Ok st') → knows ee (pre ++ ins) st'.
Proof.
  revert pre st out. induction ins as [|i ins IH]; intros pre st out Hk He; cbn [run13] in He; bind_inv.
  - by rewrite app_nil_r.
  - rewrite cons_middle, (assoc_L (++)). eapply IH; [|done].
    eapply without_input_knows; [|done]. by eapply handle13_knows.
Qed.

Lemma knows_peer ee ins st id : knows ee ins st → peer_of st = Some id →
  ee_ech_status ee ≠ EchStatus.Rejected
  ∧ ∃ flight rest, ins = flight ++ rest ∧ authenticated ee flight id.
Proof.
  intros Hk Hp. destruct st; try done; destruct Hk as (? & flight & rest & id' & -> & ? & ?); simplify_eq;
    (split; [done|]); eauto.
Qed.
End auth.
