(* ===== verification/EchSpec.v ===== *)
(** * What Encrypted ClientHello conceals

    The outer ClientHello that a network sees is the same, but for the bytes of the
    ciphertext, whichever name the inner hello asks for: [client/ech.rs] pads it so that
    not even its length tells. *)
From stdpp Require Import gmap.
From S2P Require Import Prelude Enums Errors Codec Records Extensions Payloads ServerHello ClientHello.
From S2P Require Import Messages KeySchedule Sessions Verify Kx Transcript Outputs ClientConfig Ech.
From S2P Require Import ToyProvider.

(** ** The length of a block of extensions *)

Section block.
Context {S : Type} `{!ExtensionStruct S}.

Lemma ext_items_elem (s : S) exts t b :
  (t, b) ∈ ext_items s exts ↔ t ∈ exts ∧ body_of s t = Some b.
Proof.
  unfold ext_items. rewrite list_elem_of_omap. split.
  - intros (t' & Ht & Hb). apply fmap_Some in Hb as (b' & Hb & [= -> ->]). done.
  - intros [Ht Hb]. exists t. by rewrite Hb.
Qed.

Lemma ext_items_nodup (s : S) exts : NoDup exts → NoDup (ext_items s exts).
Proof.
  intros Hn. apply (NoDup_fmap_1 fst). rewrite ext_items_types. by apply NoDup_filter.
Qed.

Lemma names_used_body (s : S) exts t b : names_used exts s → body_of s t = Some b → t ∈ exts.
Proof.
  unfold names_used, body_of. rewrite Forall_forall. intros Hu Hb.
  destruct (arm t) as [f|] eqn:Ha; [|done]. apply (arm_Some (S:=S)) in Ha as [Hf <-]. cbn in Hb.
  destruct (f_get f s) eqn:Hg; [|done]. apply Hu; [done|]. by rewrite Hg.
Qed.

(** A block with one more extension. *)
Lemma ext_items_extra (s s' : S) exts exts' t b :
  NoDup exts → NoDup exts' → names_used exts s → names_used exts' s' →
  body_of s t = None → body_of s' t = Some b → (∀ u, u ≠ t → body_of s' u = body_of s u) →
  ext_items s' exts' ≡ₚ (t, b) :: ext_items s exts.
Proof.
  intros Hn Hn' Hu Hu' Hs Hs' Hsame. apply NoDup_Permutation; [by apply ext_items_nodup| |].
  - constructor; [|by apply ext_items_nodup]. rewrite ext_items_elem. intros [_ ?]. congruence.
  - intros [u c]. rewrite elem_of_cons, !ext_items_elem. destruct (decide (u = t)) as [->|Hne].
    + rewrite Hs, Hs'. split; [intros [_ [= ->]]; by left|].
      intros [[= ->]|[_ ?]]; [|done]. split; [|done]. by eapply names_used_body.
    + rewrite (Hsame u Hne). split.
      * intros [_ Hb]. right. split; [|done]. by eapply names_used_body.
      * intros [[= -> ->]|[_ Hb]]; [done|]. split; [|done].
        eapply names_used_body; [done|]. by rewrite Hsame.
Qed.

Lemma length_tlvs (l l' : list (ExtensionType.t * list u8)) :
  l ≡ₚ l' → length (concat (tlv <$> l)) = length (concat (tlv <$> l')).
Proof.
  induction 1 as [|e l l' _ IH|e e' l|l1 l2 l3 _ IH1 _ IH2]; [done| | |lia];
    cbn [fmap list_fmap concat]; rewrite !length_app; lia.
Qed.
End block.

(** ** The server name among the extensions of a hello *)

Section name.
Context `{!PkiTypes}.
Notation Ext := ClientExtensions.t.
Notation SN := ExtensionType.ServerName.
Implicit Types (s : Ext).

(** A field that is not the server name is independent of it. *)
Record independent (f : field Ext) : Prop := {
  ind_get v s : f_get f (Exts.set_server_name v s) = f_get f s;
  ind_set v w s : f_set f v (Exts.set_server_name w s) = Exts.set_server_name w (f_set f v s);
  ind_name v s : ClientExtensions.server_name (f_set f v s) = ClientExtensions.server_name s;
}.

Lemma fields_independent : Forall (λ f : field Ext, f_id f ≠ SN → independent f) fields.
Proof. repeat (apply Forall_cons; split; [first [by intros [] | intros _; by split]|]). by apply Forall_nil. Qed.

Lemma arm_independent e f : e ≠ SN → arm (S:=Ext) e = Some f → independent f.
Proof.
  intros He [Hf <-]%arm_Some. pose proof fields_independent as Hi. rewrite Forall_forall in Hi. auto.
Qed.

Lemma body_of_name s : body_of s SN = get_encoding <$> ClientExtensions.server_name s.
Proof. destruct s as [[]]; done. Qed.

Lemma body_of_other v s u : u ≠ SN → body_of (Exts.set_server_name v s) u = body_of s u.
Proof.
  intros Hu. unfold body_of. destruct (arm u) as [f|] eqn:Ha; [|done]. cbn.
  by rewrite (ind_get _ (arm_independent u f Hu Ha)).
Qed.

Lemma clone_one_name v s src e : e ≠ SN →
  clone_one (Exts.set_server_name v s) src e = Exts.set_server_name v (clone_one s src e)
  ∧ ClientExtensions.server_name (clone_one s src e) = ClientExtensions.server_name s.
Proof.
  intros He. unfold clone_one. destruct (arm e) as [f|] eqn:Ha; [|done].
  pose proof (arm_independent e f He Ha) as [_ Hs Hn]. auto.
Qed.

Lemma clear_name v s e : e ≠ SN →
  clear (Exts.set_server_name v s) e = Exts.set_server_name v (clear s e)
  ∧ ClientExtensions.server_name (clear s e) = ClientExtensions.server_name s.
Proof.
  intros He. unfold clear. destruct (arm e) as [f|] eqn:Ha; [|done].
  pose proof (arm_independent e f He Ha) as [_ Hs Hn]. auto.
Qed.

Lemma clear_all_name v exts s : SN ∉ exts →
  fold_left clear exts (Exts.set_server_name v s) = Exts.set_server_name v (fold_left clear exts s)
  ∧ ClientExtensions.server_name (fold_left clear exts s) = ClientExtensions.server_name s.
Proof.
  revert s. induction exts as [|e exts IH]; intros s Hn; [done|].
  apply not_elem_of_cons in Hn as [He Hn]. cbn [fold_left].
  destruct (clear_name v s e) as [-> <-]; [congruence|]. by apply IH.
Qed.

Lemma length_name_payload name :
  length (get_encoding (ServerNamePayload.SingleDnsName name)) = 5 + length name.
Proof.
  unfold get_encoding. cbn [encode ServerNamePayload.codec].
  rewrite (nest_spec _ _ _ ([x00] ++ be_bytes 2 (wrapN 16 (Z.of_nat (length name))) ++ name)).
  - rewrite !length_app, !be_bytes_length. cbn. lia.
  - intros b. cbn -[be_bytes]. unfold u16_encode. by rewrite <- !(assoc_L (++)).
Qed.

(** A hello with a name is longer by the name and nine bytes. *)
Lemma length_encode_name s name bytes :
  ClientExtensions.contiguous_ok s → ClientExtensions.server_name s = None →
  ClientExtensions.used_extensions_in_encoding_order s ≠ [] →
  length (encode (Exts.set_server_name (Some (ServerNamePayload.SingleDnsName name)) s) bytes)
  = length (encode s bytes) + 9 + length name.
Proof.
  intros Hc Hn Ho. set (s' := Exts.set_server_name _ s).
  assert (ClientExtensions.contiguous_ok s') as Hc' by done.
  pose proof (ClientExtensions.order_names_used s) as Hu.
  pose proof (ClientExtensions.order_names_used s') as Hu'.
  pose proof (ext_items_extra s s' _ _ SN
    (get_encoding (ServerNamePayload.SingleDnsName name))
    (ClientExtensions.order_nodup s Hc) (ClientExtensions.order_nodup s' Hc') Hu Hu') as Hp.
  rewrite body_of_name, Hn in Hp. specialize (Hp eq_refl eq_refl (λ u Hne, body_of_other _ s u Hne)).
  cbn [encode ClientExtensions.codec]. rewrite !decide_False; [|done|].
  - rewrite !(encode_block_spec ClientExtensions.meta), !length_app, !be_bytes_length.
    rewrite (length_tlvs _ _ Hp). cbn [fmap list_fmap concat].
    rewrite length_app, length_tlv. cbn [snd]. rewrite length_name_payload. lia.
  - intros Hnil. rewrite Hnil in Hp. by apply Permutation_nil_cons in Hp.
Qed.
End name.

(** ** The inner hello *)

Section inner.
Context `{ClientWorld, !HpkeSealer}.
Notation Ext := ClientExtensions.t.
Notation SN := ExtensionType.ServerName.
Notation ECH := ExtensionType.EncryptedClientHello.
Implicit Types (s outer inner : Ext).

Lemma body_clone_other s src e t : e ≠ t → body_of (clone_one s src e) t = body_of s t.
Proof.
  intros He. unfold clone_one, body_of. destruct (arm e) as [f|] eqn:Hf; [|done].
  destruct (arm t) as [g|] eqn:Hg; [|done]. cbn.
  apply arm_Some in Hf as [Hf <-], Hg as [Hg <-].
  by rewrite (get_set_ne (S:=Ext) (es_meta:=ClientExtensions.meta)).
Qed.

Lemma body_clear_other s e t : e ≠ t → body_of (clear s e) t = body_of s t.
Proof.
  intros He. unfold clear, body_of. destruct (arm e) as [f|] eqn:Hf; [|done].
  destruct (arm t) as [g|] eqn:Hg; [|done]. cbn.
  apply arm_Some in Hf as [Hf <-], Hg as [Hg <-].
  by rewrite (get_set_ne (S:=Ext) (es_meta:=ClientExtensions.meta)).
Qed.

Lemma body_clear_all exts s t : t ∉ exts → body_of (fold_left clear exts s) t = body_of s t.
Proof.
  revert s. induction exts as [|e exts IH]; intros s Hn; [done|].
  apply not_elem_of_cons in Hn as [He Hn]. cbn [fold_left].
  by rewrite IH, body_clear_other by congruence.
Qed.

(** Which of the outer extensions the inner hello compresses. *)
Definition compressed (e : ExtensionType.t) : bool :=
  bool_decide (e ∉ [ExtensionType.ExtendedMainSecret; ExtensionType.SessionTicket;
                    ExtensionType.ECPointFormats]) && bool_decide (e ≠ SN) && ech_compress e.

Lemma compressed_plain e : compressed e = true → e ≠ SN ∧ e ∉ ClientExtensions.special.
Proof.
  unfold compressed, ech_compress. intros Hc. apply andb_prop in Hc as [Hc He].
  apply bool_decide_eq_true in He. split; [by intros ->; rewrite andb_comm in Hc|].
  intros Hs. unfold ClientExtensions.special in Hs. revert He.
  repeat (apply elem_of_cons in Hs as [->|Hs]); [| | |by apply not_elem_of_nil in Hs];
    apply (bool_decide_unpack (_ ∉ _)); by vm_compute.
Qed.

Lemma inner_extension_unnamed outer inner c e :
  let '(inner', c') := EchState.inner_extension None outer (inner, c) e in
  c' = c ++ (if compressed e then [e] else [])
  ∧ ClientExtensions.server_name inner' = ClientExtensions.server_name inner
  ∧ (e ≠ ECH → body_of inner' ECH = body_of inner ECH)
  ∧ ClientExtensions.meta inner' = ClientExtensions.meta inner.
Proof.
  unfold EchState.inner_extension, compressed. case_decide as Hskip.
  { rewrite bool_decide_eq_false_2 by auto. cbn. by rewrite app_nil_r. }
  rewrite bool_decide_eq_true_2 by done. case_decide as Hn; cbn -[clone_one body_of].
  { rewrite bool_decide_eq_false_2 by auto. cbn. by rewrite app_nil_r. }
  rewrite bool_decide_eq_true_2 by done. cbn -[clone_one body_of].
  split_and!; [|by apply (clone_one_name None)|by intros; apply body_clone_other|].
  - destruct (ech_compress e); [done|by rewrite app_nil_r].
  - unfold clone_one. destruct (arm e) as [f|] eqn:Hf; [|done].
    apply arm_Some in Hf as [Hf _]. by apply (meta_set (S:=Ext)).
Qed.

Lemma inner_extensions_unnamed outer exts inner c :
  let '(inner', c') := fold_left (EchState.inner_extension None outer) exts (inner, c) in
  c' = c ++ filter (λ e, compressed e = true) exts
  ∧ ClientExtensions.server_name inner' = ClientExtensions.server_name inner
  ∧ (ECH ∉ exts → body_of inner' ECH = body_of inner ECH)
  ∧ ClientExtensions.meta inner' = ClientExtensions.meta inner.
Proof.
  revert inner c. induction exts as [|e exts IH]; intros inner c; cbn [fold_left].
  { by rewrite filter_nil, app_nil_r. }
  pose proof (inner_extension_unnamed outer inner c e) as Hstep.
  destruct (EchState.inner_extension None outer (inner, c) e) as [inner1 c1].
  destruct Hstep as (-> & Hn & He & Hm). specialize (IH inner1 (c ++ if compressed e then [e] else [])).
  destruct (fold_left _ exts _) as [inner2 c2]. destruct IH as (-> & Hn' & He' & Hm').
  rewrite filter_cons, <- (assoc_L (++)). split_and!; [|congruence| |congruence].
  - destruct (compressed e); by rewrite ?decide_True, ?decide_False by done.
  - intros [? ?]%not_elem_of_cons. by rewrite He', He by congruence.
Qed.

Lemma inner_extension_step sni outer inner c e :
  EchState.inner_extension sni outer (inner, c) e =
    if decide (e ∈ [ExtensionType.ExtendedMainSecret; ExtensionType.SessionTicket;
                    ExtensionType.ECPointFormats]) then (inner, c)
    else if decide (e = SN)
    then (match sni with Some v => Exts.set_server_name (Some v) inner | None => inner end, c)
    else (clone_one inner outer e, if ech_compress e then c ++ [e] else c).
Proof. done. Qed.

(** With a name, the inner hello differs in it alone. *)
Lemma inner_extensions_named sni outer exts inner c (b : bool) :
  fold_left (EchState.inner_extension (Some sni) outer) exts
    (if b then Exts.set_server_name (Some sni) inner else inner, c)
  = (let '(inner', c') := fold_left (EchState.inner_extension None outer) exts (inner, c) in
     (if b || bool_decide (SN ∈ exts) then Exts.set_server_name (Some sni) inner' else inner', c')).
Proof.
  revert inner c b. induction exts as [|e exts IH]; intros inner c b; cbn [fold_left].
  { by rewrite orb_false_r. }
  rewrite !inner_extension_step. destruct (decide (e ∈ _)) as [Hskip|Hskip]; [|destruct (decide (e = SN)) as [Hn|Hn]].
  - rewrite IH. destruct (fold_left _ _ _). rewrite (bool_decide_ext (SN ∈ e :: exts) (SN ∈ exts)); [done|].
    rewrite elem_of_cons. split; [intros [<-|]; [|done]|by right].
    exfalso. revert Hskip. apply (bool_decide_unpack (_ ∉ _)). by vm_compute.
  - subst e. rewrite (bool_decide_eq_true_2 (SN ∈ SN :: exts)) by by left. rewrite orb_true_r.
    replace (Exts.set_server_name (Some sni) (if b then Exts.set_server_name (Some sni) inner else inner))
      with (Exts.set_server_name (Some sni) inner) by by destruct b.
    rewrite (IH inner c true). by destruct (fold_left _ _ _).
  - replace (clone_one (if b then Exts.set_server_name (Some sni) inner else inner) outer e)
      with (if b then Exts.set_server_name (Some sni) (clone_one inner outer e)
            else clone_one inner outer e)
      by (destruct b; [symmetry; by apply clone_one_name|done]).
    rewrite IH. destruct (fold_left _ _ _). rewrite (bool_decide_ext (SN ∈ e :: exts) (SN ∈ exts)); [done|].
    rewrite elem_of_cons. split; [intros [?|]; [congruence|done]|by right].
Qed.

Lemma meta_clear_all exts s : ClientExtensions.meta (fold_left clear exts s) = ClientExtensions.meta s.
Proof.
  revert s. induction exts as [|e exts IH]; intros s; [done|]. cbn [fold_left]. rewrite IH.
  unfold clear. destruct (arm e) as [f|] eqn:Hf; [|done].
  apply arm_Some in Hf as [Hf _]. by apply (meta_set (S:=Ext)).
Qed.

(** An inner hello, its server name apart: what is compressed is its contiguous part. *)
Record nameless (h : ClientHelloPayload.t) (exts : list ExtensionType.t) : Prop := {
  nameless_name : ClientExtensions.server_name (ClientHelloPayload.extensions h) = None;
  nameless_ech : is_Some (body_of (ClientHelloPayload.extensions h) ECH);
  nameless_contiguous : ClientExtensions.contiguous_extensions (ClientHelloPayload.extensions h) = exts;
  nameless_nodup : NoDup exts;
  nameless_plain : Forall (λ e, e ≠ SN ∧ e ∉ ClientExtensions.special) exts;
}.

Lemma nameless_ok h exts : nameless h exts →
  ClientExtensions.contiguous_ok (ClientHelloPayload.extensions h).
Proof.
  intros [_ _ Hc Hn Hp]. split; rewrite Hc; [done|]. eapply Forall_impl; [exact Hp|]. by intros e [_ ?].
Qed.

Lemma order_nonempty s : is_Some (body_of s ECH) →
  ClientExtensions.used_extensions_in_encoding_order s ≠ [].
Proof.
  intros [b Hb] Hnil. pose proof (ClientExtensions.order_names_used s) as Hu. rewrite Hnil in Hu.
  pose proof (names_used_body _ _ _ _ Hu Hb) as Hin. by apply not_elem_of_nil in Hin.
Qed.

Lemma length_inner_encoding h exts name : nameless h exts →
  length (ClientHelloPayload.ech_inner_encoding
    (with_extensions (Exts.set_server_name (Some (ServerNamePayload.SingleDnsName name))
       (ClientHelloPayload.extensions h)) h) exts)
  = length (ClientHelloPayload.ech_inner_encoding h exts) + 9 + length name.
Proof.
  intros Hl. pose proof (nameless_ok h exts Hl) as Hok. destruct Hl as [Hn He Hc _ Hp].
  unfold ClientHelloPayload.ech_inner_encoding, ClientHelloPayload.payload_encode.
  cbn [with_extensions ClientHelloPayload.client_version ClientHelloPayload.random
    ClientHelloPayload.cipher_suites ClientHelloPayload.compression_methods ClientHelloPayload.extensions].
  set (pre := encode (ClientHelloPayload.compression_methods h) _). clearbody pre.
  set (X := ClientHelloPayload.extensions h) in *. clearbody X.
  destruct exts as [|e es]; [by apply length_encode_name; [..|apply order_nonempty]|].
  rewrite Forall_forall in Hp.
  assert (SN ∉ e :: es) as Hsn by by intros [? _]%Hp.
  assert (ECH ∉ e :: es) as Hech.
  { intros [_ Hs]%Hp. destruct Hs. unfold ClientExtensions.special. right. by left. }
  destruct (clear_all_name (Some (ServerNamePayload.SingleDnsName name)) (e :: es) X Hsn) as [-> Hname].
  pose proof (meta_clear_all (e :: es) X) as Hm. pose proof (body_clear_all (e :: es) X ECH Hech) as Hb.
  set (Y := fold_left clear (e :: es) X) in *. clearbody Y.
  apply (length_encode_name (ClientExtensions.with_outer (Some (e :: es)) Y)).
  - unfold ClientExtensions.contiguous_ok in *. cbn [ClientExtensions.with_outer ClientExtensions.contiguous_extensions].
    unfold ClientExtensions.meta in Hm. injection Hm as _ ->. done.
  - cbn. congruence.
  - apply order_nonempty. rewrite <- Hb in He. by destruct Y.
Qed.

(** A name that the padding covers. *)
Definition max_name_len (self : EchState.t) : nat :=
  let n := Z.to_nat (u8_to_Z (EchState.maximum_name_length self)) in if decide (0 < n) then n else 255.
Definition fits (self : EchState.t) (sni : option ServerNamePayload.t) : Prop :=
  match sni with
  | Some (ServerNamePayload.SingleDnsName name) => length name ≤ max_name_len self
  | Some _ => False
  | None => True
  end.

Definition with_sni (sni : option ServerNamePayload.t) (h : ClientHelloPayload.t) : ClientHelloPayload.t :=
  match sni with
  | Some _ => with_extensions (Exts.set_server_name sni (ClientHelloPayload.extensions h)) h
  | None => h
  end.

Lemma length_padded self h exts sni : nameless h exts → fits self sni →
  length (EchState.pad_inner_hello self (with_sni sni h) exts)
  = length (EchState.pad_inner_hello self h exts)
  ∧ length (EchState.pad_inner_hello self h exts) `mod` 32 = 0.
Proof.
  intros Hl Hf. unfold EchState.pad_inner_hello. split.
  - assert (length (ClientHelloPayload.ech_inner_encoding (with_sni sni h) exts)
      + EchState.name_padding_len (EchState.maximum_name_length self)
          (ClientExtensions.server_name (ClientHelloPayload.extensions (with_sni sni h)))
      = length (ClientHelloPayload.ech_inner_encoding h exts)
        + EchState.name_padding_len (EchState.maximum_name_length self)
            (ClientExtensions.server_name (ClientHelloPayload.extensions h))) as Heq.
    { destruct sni as [[name| |]|]; try done. cbn [with_sni]. rewrite (length_inner_encoding h exts name Hl).
      rewrite (nameless_name h exts Hl). unfold fits, max_name_len in Hf. revert Hf.
      cbn [with_extensions Exts.set_server_name ClientHelloPayload.extensions ClientExtensions.server_name].
      unfold EchState.name_padding_len. generalize (Z.to_nat (u8_to_Z (EchState.maximum_name_length self))).
      intros m. case_decide; lia. }
    rewrite !length_app, !length_replicate, Heq. done.
  - rewrite !length_app, !length_replicate. unfold EchState.block_padding_len.
    assert (0 < EchState.name_padding_len (EchState.maximum_name_length self)
      (ClientExtensions.server_name (ClientHelloPayload.extensions h))) as Hn.
    { unfold EchState.name_padding_len. rewrite (nameless_name h exts Hl). case_decide; lia. }
    revert Hn. generalize (EchState.name_padding_len (EchState.maximum_name_length self)
      (ClientExtensions.server_name (ClientHelloPayload.extensions h))). intros p Hp.
    generalize (length (ClientHelloPayload.ech_inner_encoding h exts)). intros m.
    pose proof (Nat.mod_upper_bound (m + p - 1) 32). pose proof (Nat.div_mod_eq (m + p - 1) 32).
    replace (m + p + (31 - (m + p - 1) `mod` 32)) with (((m + p - 1) / 32 + 1) * 32) by lia.
    by apply Nat.Div0.mod_mul.
Qed.

(** ** The outer hello *)

(** A hello to be sent with ECH: it has the cover name. *)
Record outer_ok (h : ClientHelloPayload.t) : Prop := {
  outer_name : is_Some (ClientExtensions.server_name (ClientHelloPayload.extensions h));
  outer_ech : ClientExtensions.encrypted_client_hello (ClientHelloPayload.extensions h) = None;
  outer_contiguous : ClientExtensions.contiguous_extensions (ClientHelloPayload.extensions h) = [];
}.

Lemma outer_order h : outer_ok h →
  let order := ClientExtensions.used_extensions_in_encoding_order (ClientHelloPayload.extensions h) in
  NoDup order ∧ SN ∈ order ∧ ECH ∉ order.
Proof.
  intros [[n Hn] He Hc] order. split_and!.
  - apply ClientExtensions.order_nodup. split; rewrite Hc; constructor.
  - eapply (names_used_body (S:=Ext)); [apply ClientExtensions.order_names_used|]. by rewrite body_of_name, Hn.
  - unfold order. rewrite ClientExtensions.order_parts, Hc. unfold ClientExtensions.last_part. rewrite He.
    rewrite !not_elem_of_app. split_and!.
    + intros (_ & Hs & _)%ClientExtensions.insensitive_elem. apply Hs.
      unfold ClientExtensions.special. right. by left.
    + apply not_elem_of_nil.
    + destruct (ClientExtensions.encrypted_client_hello_outer _); [|apply not_elem_of_nil].
      by intros [=]%list_elem_of_singleton.
    + apply not_elem_of_nil.
    + destruct (ClientExtensions.preshared_key_offer _); [|apply not_elem_of_nil].
      by intros [=]%list_elem_of_singleton.
Qed.

Lemma body_contiguous v s t : body_of (Exts.set_contiguous_extensions v s) t = body_of s t.
Proof.
  unfold body_of. destruct (arm t) as [f|] eqn:Ha; [|done]. cbn [mbind option_bind].
  apply arm_Some in Ha as [Hf _]. revert f Hf. apply Forall_forall.
  repeat (apply Forall_cons; split; [done|]). by apply Forall_nil.
Qed.

Lemma inner_hello_nameless self (outer : ClientHelloPayload.t) h exts : outer_ok outer →
  EchState.inner_hello_of self outer None = (h, exts) →
  nameless h exts
  ∧ ∀ sni, EchState.inner_hello_of self outer (Some sni) = (with_sni (Some sni) h, exts).
Proof.
  intros (Hnd & Hsn & Hech)%outer_order. unfold EchState.inner_hello_of.
  set (inner := Exts.set_encrypted_client_hello _ _).
  set (order := ClientExtensions.used_extensions_in_encoding_order _) in *.
  pose proof (inner_extensions_unnamed (ClientHelloPayload.extensions outer) order inner []) as Hf.
  assert (∀ sni, _) as Hsni
    by exact (λ sni, inner_extensions_named sni (ClientHelloPayload.extensions outer) order inner [] false).
  destruct (fold_left (EchState.inner_extension None _) order _) as [X c].
  destruct Hf as (-> & Hn & He & Hm). intros [= <- <-]. split; [split|].
  - exact Hn.
  - unfold ClientHelloPayload.extensions at 1. rewrite body_contiguous, (He Hech). by eexists.
  - done.
  - by apply NoDup_filter.
  - rewrite Forall_forall. intros e [Hc _]%list_elem_of_filter. by apply compressed_plain.
  - intros sni. rewrite Hsni. by rewrite bool_decide_eq_true_2 by done.
Qed.

(** The state for another name. *)
Definition named (name : ServerName.t) (self : EchState.t) : EchState.t :=
  EchState.mk (EchState.outer_name self) (EchState.early_data_key_schedule self)
    (EchState.inner_hello_random self) (EchState.inner_hello_transcript self) (EchState.sender self)
    (EchState.config_id self) name (EchState.maximum_name_length self) (EchState.cipher_suite self)
    (EchState.enc_secret self) (EchState.enable_sni self) (EchState.sent_extensions self)
    (EchState.grease_psk_identities self) (EchState.accepted_by_hello_retry_request self).

(** What the wire shows of a hello but for the bytes of the ciphertext. *)
Definition visible (h : ClientHelloPayload.t) : ClientHelloPayload.t :=
  let exts := ClientHelloPayload.extensions h in
  match ClientExtensions.encrypted_client_hello exts with
  | Some (EncryptedClientHello.Outer (EncryptedClientHelloOuter.mk suite id enc payload)) =>
      with_extensions (Exts.set_encrypted_client_hello (Some (EncryptedClientHello.Outer
        (EncryptedClientHelloOuter.mk suite id enc
           (mkSizedPayload (replicate (length (sp_inner payload)) x00))))) exts) h
  | _ => h
  end.

(** The encoded inner hello has the length it has without a name. *)
Lemma encode_inner_length self name (outer : ClientHelloPayload.t) is_retry self' bs :
  outer_ok outer →
  (∀ sni, EchState.inner_sni_of (named name self) = Ok sni → fits self sni) →
  EchState.encode_inner_hello (named name self) outer is_retry None = Ok (self', bs) →
  length bs = length (let '(h, c) := EchState.inner_hello_of self outer None in
                      EchState.pad_inner_hello self h c)
  ∧ EchState.sender self' = EchState.sender self
  ∧ EchState.cipher_suite self' = EchState.cipher_suite self
  ∧ EchState.config_id self' = EchState.config_id self
  ∧ EchState.enc_secret self' = EchState.enc_secret self
  ∧ EchState.grease_psk_identities self' = EchState.grease_psk_identities self.
Proof.
  intros Ho Hfit. unfold EchState.encode_inner_hello.
  destruct (EchState.inner_sni_of (named name self)) as [sni| |] eqn:Hs; [|done..].
  specialize (Hfit sni eq_refl). cbn [mbind result_bind].
  change (EchState.inner_hello_of (named name self)) with (EchState.inner_hello_of self).
  destruct (EchState.inner_hello_of self outer None) as [h c] eqn:Hi.
  destruct (inner_hello_nameless self outer h c Ho Hi) as [Hl Hsni].
  assert (EchState.inner_hello_of self outer sni = (with_sni sni h, c)) as ->
    by (destruct sni; [apply Hsni|done]).
  cbn [mbind result_bind]. intros [= <- <-]. split; [|done].
  by apply (length_padded self h c sni).
Qed.

(** Sealing adds the tag of the AEAD, and no more. *)
Definition seals_exactly (self : EchState.t) : Prop :=
  ∀ tag_len aad plaintext sealer sealer' ciphertext,
    aead_tag_len (HpkeSymmetricCipherSuite.aead_id (EchState.cipher_suite self)) = Some tag_len →
    hpke_seal aad plaintext sealer = (sealer', Ok ciphertext) →
    length ciphertext = length plaintext + tag_len.

(** What is visible of the outer hello, as a function of the length of the inner one. *)
Definition outer_view (self : EchState.t) (outer : ClientHelloPayload.t) (is_retry : bool) (len : nat)
    : action world Error.t ClientHelloPayload.t :=
  tag_len ← lift (unwrap (aead_tag_len (HpkeSymmetricCipherSuite.aead_id (EchState.cipher_suite self))));
  outer ←
    (match ClientExtensions.preshared_key_offer (ClientHelloPayload.extensions outer) with
     | Some psk_offer =>
         '(_, psk_offer) ← EchState.grease_psk self psk_offer;
         mret (with_extensions (Exts.set_preshared_key_offer (Some psk_offer)
                 (ClientHelloPayload.extensions outer)) outer)
     | None => mret outer
     end);
  mret (EchState.outer_hello_ext self (if is_retry then [] else EchState.enc_secret self)
          (replicate (len + tag_len) x00) outer).

Lemma grease_psk_alike (s1 s2 : EchState.t) offer w :
  EchState.grease_psk_identities s1 = EchState.grease_psk_identities s2 →
  match EchState.grease_psk s1 offer w with
  | (w1, Ok (_, o1)) => ∃ self2, EchState.grease_psk s2 offer w = (w1, Ok (self2, o1))
  | _ => True
  end.
Proof.
  intros Hg. unfold EchState.grease_psk. rewrite <- Hg. unfold mbind, action_bind.
  destruct (EchState.grease_psk_identities s1) as [ids|]; unfold mret, action_ret.
  - destruct (EchState.grease_binders _ _) as [w1 [bs| |]]; [|done..]. by eexists.
  - destruct (EchState.grease_identities _ _) as [w1 [ids| |]]; [|done..].
    destruct (EchState.grease_binders _ _) as [w2 [bs| |]]; [|done..]. by eexists.
Qed.

Lemma grease_psk_fields self offer w w' self' offer' :
  EchState.grease_psk self offer w = (w', Ok (self', offer')) →
  EchState.cipher_suite self' = EchState.cipher_suite self
  ∧ EchState.config_id self' = EchState.config_id self.
Proof.
  unfold EchState.grease_psk. intros Hg. apply action_bind_ok in Hg as (w1 & [s1 ids] & Hs & Hg).
  apply action_bind_ok in Hg as (w2 & bs & _ & Hg). injection Hg as <- <- <-.
  destruct (EchState.grease_psk_identities self); [by injection Hs as <- <- <-|].
  apply action_bind_ok in Hs as (w3 & ids' & _ & Hs). by injection Hs as <- <- <-.
Qed.

Lemma ech_hello_view self name (outer : ClientHelloPayload.t) is_retry w w' self' h :
  seals_exactly self → outer_ok outer →
  (∀ sni, EchState.inner_sni_of (named name self) = Ok sni → fits self sni) →
  EchState.ech_hello (named name self) outer is_retry None w = (w', Ok (self', h)) →
  outer_view self outer is_retry
    (length (let '(h, c) := EchState.inner_hello_of self outer None in
             EchState.pad_inner_hello self h c)) w = (w', Ok (visible h)).
Proof.
  intros Hseal Ho Hfit He. unfold EchState.ech_hello in He.
  apply action_bind_ok in He as (? & [s1 bs] & Henc & He). injection Henc as <- Henc.
  destruct (encode_inner_length self name outer is_retry s1 bs Ho Hfit Henc)
    as (Hlen & Hsender & Hcs & Hid & Hes & Hgr).
  apply action_bind_ok in He as (? & tag_len & Ht & He). injection Ht as <- Ht. rewrite Hcs in Ht.
  destruct (aead_tag_len _) as [tag|] eqn:Htag; [injection Ht as ->|done].
  apply action_bind_ok in He as (w1 & [s2 outer'] & Hpsk & He).
  unfold outer_view. rewrite <- Hlen, Htag.
  assert (w' = w1 ∧ visible h = EchState.outer_hello_ext self
            (if is_retry then [] else EchState.enc_secret self) (replicate (length bs + tag_len) x00) outer'
          ) as [-> ->].
  { assert (EchState.cipher_suite s2 = EchState.cipher_suite self
            ∧ EchState.config_id s2 = EchState.config_id self) as [Hcs2 Hid2].
    { destruct (ClientExtensions.preshared_key_offer _); [|injection Hpsk as <- <- <-; auto].
      apply action_bind_ok in Hpsk as (? & [s3 o3] & Hg & Hpsk). injection Hpsk as <- <- <-.
      apply grease_psk_fields in Hg as [? ?]. split; congruence. }
    destruct (hpke_seal _ _ _) as [sealer r] eqn:Hs.
    apply action_bind_ok in He as (? & ct & Hct & He). injection Hct as <- ->. injection He as <- <- <-.
    split; [done|]. apply (Hseal tag_len) in Hs; [|done].
    unfold visible, EchState.outer_hello_ext. cbn -[replicate]. rewrite Hs, Hcs2, Hid2, Hes. by destruct outer'. }
  unfold mbind at 1, action_bind at 1. cbn [lift unwrap].
  destruct (ClientExtensions.preshared_key_offer _) as [offer|].
  - apply action_bind_ok in Hpsk as (w2 & [s3 o3] & Hg & Hpsk). injection Hpsk as <- <- <-.
    pose proof (grease_psk_alike s1 self offer w Hgr) as Ha. rewrite Hg in Ha. destruct Ha as [s' Ha].
    unfold mbind, action_bind. by rewrite Ha.
  - by injection Hpsk as <- <- <-.
Qed.

End inner.

Module ToyEch.
Import ToyClient.
Definition state : EchState.t :=
  EchState.mk (byte_str "cover.org") None (Random.new (replicate 32 x05)) HandshakeHashBuffer.new tt x01
    name x40 (HpkeSymmetricCipherSuite.mk HpkeKdf.HKDF_SHA256 HpkeAead.AES_128_GCM) (replicate 32 x09)
    true [] None None.

Definition hello : ClientHelloPayload.t :=
  ClientHelloPayload.mk ProtocolVersion.TLSv1_2 (Random.new (replicate 32 x01)) SessionId.empty
    [CipherSuite.TLS13_AES_128_GCM_SHA256] [Compression.Null]
    (Exts.set_server_name (Some (ServerNamePayload.SingleDnsName (byte_str "cover.org")))
       (ClientExtensions.with_meta 77 [] es_default)).

Definition other : ServerName.t := ServerName.DnsName (byte_str "a-much-longer-name.example.com").
Definition sent (n : ServerName.t) := EchState.ech_hello (named n state) hello false None 3.
Definition payload_of (n : ServerName.t) : option ClientHelloPayload.t :=
  match (sent n).2 with Ok (_, h) => Some h | _ => None end.
End ToyEch.

Lemma toy_sent_ech n : n = ToyClient.name ∨ n = ToyEch.other →
  ∃ w self' h, ToyEch.sent n = (w, Ok (self', h)) ∧ ToyEch.payload_of n = Some h.
Proof.
  intros Hn. assert (match ToyEch.payload_of n with Some _ => true | None => false end = true) as Hp
    by (destruct Hn as [-> | ->]; by vm_compute).
  revert Hp. unfold ToyEch.payload_of. destruct (ToyEch.sent n) as [w [[self' h]| |]]; [|done..]. eauto 6.
Qed.

