(* ===== verification/HpkeAwsLc.v ===== *)
(** * Hybrid public key encryption ([rustls-aws-lc-rs/src/hpke.rs])

    The HPKE of RFC 9180 in base mode, as the provider made with [aws-lc-rs] has it: a key
    encapsulation made of a Diffie-Hellman agreement and HKDF, a key schedule, and contexts
    that seal and open messages in order.  It is what Encrypted ClientHello seals the inner
    hello with.  The agreement, HMAC and the AEADs are those of the crate [aws-lc-rs], and
    are parameters. *)
From stdpp Require Import gmap.
From S2P Require Import Prelude Enums Errors Codec Records Cipher Extensions Payloads ServerHello ClientHello.
From S2P Require Import Messages Tls13Cipher Hkdf Sessions Transcript Outputs ClientConfig Ech EchSpec.

(** ** The crate [aws-lc-rs] *)

(** [agreement::Algorithm]. *)
Module Agreement.
Inductive t := ECDH_P256 | ECDH_P384 | ECDH_P521 | X25519.
#[global] Instance eq_dec : EqDecision t.
Proof. solve_decision. Defined.
End Agreement.

(** [agreement::PrivateKey] with its operations, [agreement::agree] (which is given the
    algorithm of the unparsed public key and its bytes), the HMACs and the AEADs. *)
Class AwsLc `{Provider} := {
  private_key : Type;
  generate : Agreement.t → world → world * option private_key;
  from_private_key : Agreement.t → list u8 → option private_key;
  key_algorithm : private_key → Agreement.t;
  compute_public_key : private_key → option (list u8);
  as_be_bytes : private_key → option (list u8);
  agree : private_key → Agreement.t → list u8 → option (list u8);
  HMAC_SHA256 : Hmac.t;
  HMAC_SHA384 : Hmac.t;
  HMAC_SHA512 : Hmac.t;
  AES_128_GCM : Aead.t;
  AES_256_GCM : Aead.t;
  CHACHA20_POLY1305 : Aead.t;
}.

(** What the crate documents: keys belong to the algorithm they are made for, a generated
    key is read back from its encoding, Diffie-Hellman is symmetric, and the lengths of
    keys, tags and hashes. *)
Class AwsLcLaws `{AwsLc} := {
  generate_algorithm alg w w' k : generate alg w = (w', Some k) → key_algorithm k = alg;
  from_as_be_bytes k bytes :
    as_be_bytes k = Some bytes → from_private_key (key_algorithm k) bytes = Some k;
  agree_comm k1 k2 p1 p2 :
    key_algorithm k1 = key_algorithm k2 →
    compute_public_key k1 = Some p1 → compute_public_key k2 = Some p2 →
    agree k1 (key_algorithm k1) p2 = agree k2 (key_algorithm k2) p1;
  hmac_lens : Hmac.hash_output_len HMAC_SHA256 = 32 ∧ Hmac.hash_output_len HMAC_SHA384 = 48
              ∧ Hmac.hash_output_len HMAC_SHA512 = 64;
  aead_key_lens : Aead.key_len AES_128_GCM = 16 ∧ Aead.key_len AES_256_GCM = 32
                  ∧ Aead.key_len CHACHA20_POLY1305 = 32;
  aead_tag_lens : Aead.tag_len AES_128_GCM = 16 ∧ Aead.tag_len AES_256_GCM = 16
                  ∧ Aead.tag_len CHACHA20_POLY1305 = 16;
}.

(** [.map_err(unspecified_err)] and [.map_err(key_rejected_err)]. *)
(* @src rustls-aws-lc-rs/src/lib.rs 284-286 unspecified_err *)
Definition unspecified_err {A} (o : option A) : result Error.t A := ok_or o Error.Other.

(** [LessSafeKey::new(UnboundKey::new(alg, key)?)]. *)
Definition less_safe (alg : Aead.t) (key : list u8) : option less_safe_key :=
  if decide (length key = Aead.key_len alg) then Some (mk_key alg key) else None.

(** [LessSafeKey::seal_in_place_append_tag] on a vector with the plaintext. *)
Definition seal_append_tag (key : less_safe_key) (nonce aad plaintext : list u8) : option (list u8) :=
  match Aead.seal (algorithm key) (key_bytes key) nonce aad plaintext with
  | (in_out, Some tag) => Some (in_out ++ tag)
  | (_, None) => None
  end.

(** [LessSafeKey::open_in_place] on a vector with the ciphertext. *)
Definition open_in_place (key : less_safe_key) (nonce aad ciphertext : list u8) : option (list u8) :=
  match Aead.open_ (algorithm key) (key_bytes key) nonce aad ciphertext with
  | (in_out, Some n) => Some (take n in_out)
  | (_, None) => None
  end.

(** ** Labels *)

Module Label.
(* @src rustls-aws-lc-rs/src/hpke.rs 857-867 Label *)
Inductive t := PskIdHash | InfoHash | Secret | Key | BaseNonce | EaePrk | SharedSecret.

(* @src rustls-aws-lc-rs/src/hpke.rs 870-880 Label::as_ref *)
Definition as_ref (self : t) : list u8 :=
  match self with
  | PskIdHash => byte_str "psk_id_hash"
  | InfoHash => byte_str "info_hash"
  | Secret => byte_str "secret"
  | Key => byte_str "key"
  | BaseNonce => byte_str "base_nonce"
  | EaePrk => byte_str "eae_prk"
  | SharedSecret => byte_str "shared_secret"
  end.
End Label.

Module HpkeSuite.
(* @src rustls/src/crypto/hpke.rs 12-24 HpkeSuite *)
Record t := mk { kem : HpkeKem.t; sym : HpkeSymmetricCipherSuite.t }.
End HpkeSuite.

Module LabeledSuiteId.
(* @src rustls-aws-lc-rs/src/hpke.rs 883-889 LabeledSuiteId *)
Inductive t := Hpke (suite : HpkeSuite.t) | Kem (kem : HpkeKem.t).

(* @src rustls-aws-lc-rs/src/hpke.rs 892-909 LabeledSuiteId::encoded *)
Definition encoded (self : t) : list u8 :=
  match self with
  | Hpke suite =>
      byte_str "HPKE" ++ be_bytes 2 (HpkeKem.val (HpkeSuite.kem suite))
      ++ be_bytes 2 (HpkeKdf.val (HpkeSymmetricCipherSuite.kdf_id (HpkeSuite.sym suite)))
      ++ be_bytes 2 (HpkeAead.val (HpkeSymmetricCipherSuite.aead_id (HpkeSuite.sym suite)))
  | Kem kem => byte_str "KEM" ++ be_bytes 2 (HpkeKem.val kem)
  end.
End LabeledSuiteId.

(** The only [HkdfPrkExtract] in use is [HkdfUsingHmac]: an [hkdf] is its HMAC. *)
(* @src rustls-aws-lc-rs/src/hpke.rs 795-811 labeled_extract_for_expand *)
Definition labeled_extract_for_expand (hkdf : Hmac.t) (suite_id : LabeledSuiteId.t)
    (salt : option (list u8)) (label : Label.t) (ikm : list u8) : result Error.t HkdfExpander.t :=
  let labeled_ikm := byte_str "HPKE-v1" ++ LabeledSuiteId.encoded suite_id ++ Label.as_ref label ++ ikm in
  HkdfUsingHmac.extract_from_secret hkdf salt labeled_ikm.

(* @src rustls-aws-lc-rs/src/hpke.rs 813-829 labeled_extract_for_prk *)
Definition labeled_extract_for_prk (hkdf : Hmac.t) (suite_id : LabeledSuiteId.t)
    (salt : option (list u8)) (label : Label.t) (ikm : list u8) : result Error.t (list u8) :=
  let labeled_ikm := byte_str "HPKE-v1" ++ LabeledSuiteId.encoded suite_id ++ Label.as_ref label ++ ikm in
  HkdfUsingHmac.extract_prk_from_secret hkdf salt labeled_ikm.

(* @src rustls-aws-lc-rs/src/hpke.rs 831-855 labeled_expand *)
Definition labeled_expand (L : nat) (suite_id : LabeledSuiteId.t) (expander : HkdfExpander.t)
    (label : Label.t) (kem_context : list u8) : result Error.t (list u8) :=
  let output_len := be_bytes 2 (wrapN 16 (Z.of_nat L)) in
  let info := [output_len; byte_str "HPKE-v1"; LabeledSuiteId.encoded suite_id;
               Label.as_ref label; kem_context] in
  expand Ok L expander info.

(** ** Contexts *)

(** The state that a sealer and an opener share. *)
Module HpkeKeySchedule.
(* @src rustls-aws-lc-rs/src/hpke.rs 744-751 KeySchedule *)
Record t := mk { aead : Aead.t; key : list u8; base_nonce : list u8; seq_num : Z }.

(* @src rustls-aws-lc-rs/src/hpke.rs 754-771 KeySchedule::compute_nonce *)
Definition compute_nonce (self : t) : list u8 :=
  let seq_bytes := be_bytes 16 (seq_num self) in
  let nonce := drop (length seq_bytes - NONCE_LEN) seq_bytes in
  zip_with u8_xor nonce (base_nonce self).

(* @src rustls-aws-lc-rs/src/hpke.rs 773-792 KeySchedule::increment_seq_num *)
Definition increment_seq_num (self : t) : option t :=
  let max_seq_num := (Z.shiftl 1 (Z.of_nat NONCE_LEN * 8) - 1)%Z in
  if decide (max_seq_num <= seq_num self)%Z then None
  else Some (mk (aead self) (key self) (base_nonce self) (seq_num self + 1)).
End HpkeKeySchedule.

Module Sealer.
(* @src rustls-aws-lc-rs/src/hpke.rs 395-398 Sealer *)
Record t := mk { key_schedule : HpkeKeySchedule.t }.

(** The sequence number is advanced before the message is sealed, so that one is spent also
    when sealing fails. *)
(* @src rustls-aws-lc-rs/src/hpke.rs 437-458 Sealer::seal *)
Definition seal (aad plaintext : list u8) : action t Error.t (list u8) := λ self,
  let ks := key_schedule self in
  match less_safe (HpkeKeySchedule.aead ks) (HpkeKeySchedule.key ks) with
  | None => (self, Err Error.Other)
  | Some sealing_key =>
      let nonce := HpkeKeySchedule.compute_nonce ks in
      match HpkeKeySchedule.increment_seq_num ks with
      | None => (self, Err Error.Other)
      | Some ks => (mk ks, unspecified_err (seal_append_tag sealing_key nonce aad plaintext))
      end
  end.
End Sealer.

Module Opener.
(* @src rustls-aws-lc-rs/src/hpke.rs 468-471 Opener *)
Record t := mk { key_schedule : HpkeKeySchedule.t }.

(* @src rustls-aws-lc-rs/src/hpke.rs 494-519 Opener::open *)
Definition open (aad ciphertext : list u8) : action t Error.t (list u8) := λ self,
  let ks := key_schedule self in
  match less_safe (HpkeKeySchedule.aead ks) (HpkeKeySchedule.key ks) with
  | None => (self, Err Error.Other)
  | Some opening_key =>
      match open_in_place opening_key (HpkeKeySchedule.compute_nonce ks) aad ciphertext with
      | None => (self, Err Error.Other)
      | Some plaintext =>
          match HpkeKeySchedule.increment_seq_num ks with
          | None => (self, Err Error.Other)
          | Some ks => (mk ks, Ok plaintext)
          end
      end
  end.
End Opener.

(** ** Key encapsulation *)

Section keys.
Context `{AwsLc}.

(* @src rustls-aws-lc-rs/src/hpke.rs 730-742 generate_key_pair *)
Definition generate_key_pair (alg : Agreement.t) : action world Error.t (list u8 * private_key) :=
  private_key ← (λ w, let '(w, k) := generate alg w in (w, unspecified_err k));
  public_key ← lift (unspecified_err (compute_public_key private_key));
  mret (public_key, private_key).

(* @src rustls-aws-lc-rs/src/hpke.rs 690-711 generate_p_curve_key_pair *)
Definition generate_p_curve_key_pair (alg : Agreement.t) : action world Error.t (list u8 * list u8) :=
  if decide (alg = Agreement.X25519) then panic else
  '(public_key, private_key) ← generate_key_pair alg;
  raw_private_key ← lift (unspecified_err (as_be_bytes private_key));
  mret (public_key, raw_private_key).

(* @src rustls-aws-lc-rs/src/hpke.rs 713-728 generate_x25519_key_pair *)
Definition generate_x25519_key_pair : action world Error.t (list u8 * list u8) :=
  '(public_key, private_key) ← generate_key_pair Agreement.X25519;
  raw_private_key ← lift (unspecified_err (as_be_bytes private_key));
  mret (public_key, raw_private_key).
End keys.

Module DhKem.
Section methods.
Context `{AwsLc}.

(** With the length of the hash, [KDF_SIZE], which is a parameter of the type. *)
(* @src rustls-aws-lc-rs/src/hpke.rs 529-540 DhKem *)
Record t := mk {
  id : HpkeKem.t;
  agreement_algorithm : Agreement.t;
  key_generator : action world Error.t (list u8 * list u8);
  hkdf : Hmac.t;
  KDF_SIZE : nat;
}.

(* @src rustls-aws-lc-rs/src/hpke.rs 642-659 DhKem::extract_and_expand *)
Definition extract_and_expand (self : t) (dh kem_context : list u8) : result Error.t (list u8) :=
  let suite_id := LabeledSuiteId.Kem (id self) in
  expander ← labeled_extract_for_expand (hkdf self) suite_id None Label.EaePrk dh;
  labeled_expand (KDF_SIZE self) suite_id expander Label.SharedSecret kem_context.

(* @src rustls-aws-lc-rs/src/hpke.rs 572-603 DhKem::encap_impl *)
Definition encap_impl (self : t) (recipient : list u8) (sk_e : private_key)
    : result Error.t (list u8 * list u8) :=
  enc ← unspecified_err (compute_public_key sk_e);
  let kem_context := enc ++ recipient in
  dh ← unspecified_err (agree sk_e (agreement_algorithm self) recipient);
  shared_secret ← extract_and_expand self dh kem_context;
  Ok (shared_secret, enc).

(* @src rustls-aws-lc-rs/src/hpke.rs 543-556 DhKem::encap *)
Definition encap (self : t) (recipient : list u8) : action world Error.t (list u8 * list u8) :=
  sk_e ← (λ w, let '(w, k) := generate (agreement_algorithm self) w in (w, unspecified_err k));
  lift (encap_impl self recipient sk_e).

(* @src rustls-aws-lc-rs/src/hpke.rs 605-640 DhKem::decap *)
Definition decap (self : t) (enc recipient : list u8) : result Error.t (list u8) :=
  sk_r ← ok_or (from_private_key (agreement_algorithm self) recipient) Error.Other;
  pk_rm ← unspecified_err (compute_public_key sk_r);
  let kem_context := enc ++ pk_rm in
  dh ← unspecified_err (agree sk_r (agreement_algorithm self) enc);
  extract_and_expand self dh kem_context.
End methods.
End DhKem.

Section kems.
Context `{AwsLc}.

(* @src rustls-aws-lc-rs/src/hpke.rs 662-667 DH_KEM_P256_HKDF_SHA256 *)
Definition DH_KEM_P256_HKDF_SHA256 : DhKem.t :=
  DhKem.mk HpkeKem.DHKEM_P256_HKDF_SHA256 Agreement.ECDH_P256
    (generate_p_curve_key_pair Agreement.ECDH_P256) HMAC_SHA256 32.
(* @src rustls-aws-lc-rs/src/hpke.rs 669-674 DH_KEM_P384_HKDF_SHA384 *)
Definition DH_KEM_P384_HKDF_SHA384 : DhKem.t :=
  DhKem.mk HpkeKem.DHKEM_P384_HKDF_SHA384 Agreement.ECDH_P384
    (generate_p_curve_key_pair Agreement.ECDH_P384) HMAC_SHA384 48.
(* @src rustls-aws-lc-rs/src/hpke.rs 676-681 DH_KEM_P521_HKDF_SHA512 *)
Definition DH_KEM_P521_HKDF_SHA512 : DhKem.t :=
  DhKem.mk HpkeKem.DHKEM_P521_HKDF_SHA512 Agreement.ECDH_P521
    (generate_p_curve_key_pair Agreement.ECDH_P521) HMAC_SHA512 64.
(* @src rustls-aws-lc-rs/src/hpke.rs 683-688 DH_KEM_X25519_HKDF_SHA256 *)
Definition DH_KEM_X25519_HKDF_SHA256 : DhKem.t :=
  DhKem.mk HpkeKem.DHKEM_X25519_HKDF_SHA256 Agreement.X25519
    generate_x25519_key_pair HMAC_SHA256 32.

End kems.

(** ** Suites *)

Module HpkeAwsLcRs.
Section methods.
Context `{AwsLc}.

(** With the length of the keys, [KEY_SIZE], which is a parameter of the type. *)
(* @src rustls-aws-lc-rs/src/hpke.rs 244-250 HpkeAwsLcRs *)
Record t := mk {
  suite : HpkeSuite.t;
  dh_kem : DhKem.t;
  hkdf : Hmac.t;
  aead : Aead.t;
  KEY_SIZE : nat;
}.

(* @src rustls-aws-lc-rs/src/hpke.rs 294-313 HpkeAwsLcRs::key_schedule_labeled_expand *)
Definition key_schedule_labeled_expand (L : nat) (self : t) (shared_secret key_schedule_context : list u8)
    (label : Label.t) : result Error.t (list u8) :=
  let suite_id := LabeledSuiteId.Hpke (suite self) in
  expander ← labeled_extract_for_expand (hkdf self) suite_id (Some shared_secret) Label.Secret [];
  labeled_expand L suite_id expander label key_schedule_context.

(* @src rustls-aws-lc-rs/src/hpke.rs 253-292 HpkeAwsLcRs::key_schedule *)
Definition key_schedule (self : t) (shared_secret info : list u8) : result Error.t HpkeKeySchedule.t :=
  let suite_id := LabeledSuiteId.Hpke (suite self) in
  psk_id_hash ← labeled_extract_for_prk (hkdf self) suite_id None Label.PskIdHash [];
  info_hash ← labeled_extract_for_prk (hkdf self) suite_id None Label.InfoHash info;
  let key_schedule_context := [x00] ++ psk_id_hash ++ info_hash in
  key ← key_schedule_labeled_expand (KEY_SIZE self) self shared_secret key_schedule_context Label.Key;
  base_nonce ← key_schedule_labeled_expand NONCE_LEN self shared_secret key_schedule_context
                 Label.BaseNonce;
  Ok (HpkeKeySchedule.mk (aead self) key base_nonce 0).

(** [Sealer::new]. *)
(* @src rustls-aws-lc-rs/src/hpke.rs 401-417 Sealer::new *)
Definition new_sealer (self : t) (info pub_key : list u8) : action world Error.t (list u8 * Sealer.t) :=
  '(shared_secret, enc) ← DhKem.encap (dh_kem self) pub_key;
  key_schedule ← lift (key_schedule self shared_secret info);
  mret (enc, Sealer.mk key_schedule).

(** [Opener::new]. *)
(* @src rustls-aws-lc-rs/src/hpke.rs 474-490 Opener::new *)
Definition new_opener (self : t) (enc info secret_key : list u8) : result Error.t Opener.t :=
  shared_secret ← DhKem.decap (dh_kem self) enc secret_key;
  key_schedule ← key_schedule self shared_secret info;
  Ok (Opener.mk key_schedule).

(* @src rustls-aws-lc-rs/src/hpke.rs 328-335 Hpke::setup_sealer *)
Definition setup_sealer (self : t) (info pub_key : list u8) : action world Error.t (list u8 * Sealer.t) :=
  new_sealer self info pub_key.

(* @src rustls-aws-lc-rs/src/hpke.rs 317-326 Hpke::seal *)
Definition seal (self : t) (info aad plaintext pub_key : list u8)
    : action world Error.t (list u8 * list u8) :=
  '(encap, sealer) ← setup_sealer self info pub_key;
  let '(_, ciphertext) := Sealer.seal aad plaintext sealer in
  ciphertext ← lift ciphertext;
  mret (encap, ciphertext).

(* @src rustls-aws-lc-rs/src/hpke.rs 349-356 Hpke::setup_opener *)
Definition setup_opener (self : t) (enc info secret_key : list u8) : result Error.t Opener.t :=
  new_opener self enc info secret_key.

(* @src rustls-aws-lc-rs/src/hpke.rs 337-347 Hpke::open *)
Definition open (self : t) (enc info aad ciphertext secret_key : list u8) : result Error.t (list u8) :=
  opener ← setup_opener self enc info secret_key;
  (Opener.open aad ciphertext opener).2.

(* @src rustls-aws-lc-rs/src/hpke.rs 380-382 Hpke::generate_key_pair *)
Definition generate_key_pair (self : t) : action world Error.t (list u8 * list u8) :=
  DhKem.key_generator (dh_kem self).
End methods.
End HpkeAwsLcRs.

Section suites.
Context `{AwsLc}.

(* @src rustls-aws-lc-rs/src/hpke.rs 44-58 DH_KEM_P256_HKDF_SHA256_AES_128 *)
Definition DH_KEM_P256_HKDF_SHA256_AES_128 : HpkeAwsLcRs.t :=
  HpkeAwsLcRs.mk (HpkeSuite.mk HpkeKem.DHKEM_P256_HKDF_SHA256
      (HpkeSymmetricCipherSuite.mk HpkeKdf.HKDF_SHA256 HpkeAead.AES_128_GCM))
    DH_KEM_P256_HKDF_SHA256 HMAC_SHA256 AES_128_GCM 16.
(* @src rustls-aws-lc-rs/src/hpke.rs 60-74 DH_KEM_P256_HKDF_SHA256_AES_256 *)
Definition DH_KEM_P256_HKDF_SHA256_AES_256 : HpkeAwsLcRs.t :=
  HpkeAwsLcRs.mk (HpkeSuite.mk HpkeKem.DHKEM_P256_HKDF_SHA256
      (HpkeSymmetricCipherSuite.mk HpkeKdf.HKDF_SHA256 HpkeAead.AES_256_GCM))
    DH_KEM_P256_HKDF_SHA256 HMAC_SHA256 AES_256_GCM 32.
(* @src rustls-aws-lc-rs/src/hpke.rs 76-92 DH_KEM_P256_HKDF_SHA256_CHACHA20_POLY1305 *)
Definition DH_KEM_P256_HKDF_SHA256_CHACHA20_POLY1305 : HpkeAwsLcRs.t :=
  HpkeAwsLcRs.mk (HpkeSuite.mk HpkeKem.DHKEM_P256_HKDF_SHA256
      (HpkeSymmetricCipherSuite.mk HpkeKdf.HKDF_SHA256 HpkeAead.CHACHA20_POLY_1305))
    DH_KEM_P256_HKDF_SHA256 HMAC_SHA256 CHACHA20_POLY1305 32.
(* @src rustls-aws-lc-rs/src/hpke.rs 94-108 DH_KEM_P384_HKDF_SHA384_AES_128 *)
Definition DH_KEM_P384_HKDF_SHA384_AES_128 : HpkeAwsLcRs.t :=
  HpkeAwsLcRs.mk (HpkeSuite.mk HpkeKem.DHKEM_P384_HKDF_SHA384
      (HpkeSymmetricCipherSuite.mk HpkeKdf.HKDF_SHA384 HpkeAead.AES_128_GCM))
    DH_KEM_P384_HKDF_SHA384 HMAC_SHA384 AES_128_GCM 16.
(* @src rustls-aws-lc-rs/src/hpke.rs 110-124 DH_KEM_P384_HKDF_SHA384_AES_256 *)
Definition DH_KEM_P384_HKDF_SHA384_AES_256 : HpkeAwsLcRs.t :=
  HpkeAwsLcRs.mk (HpkeSuite.mk HpkeKem.DHKEM_P384_HKDF_SHA384
      (HpkeSymmetricCipherSuite.mk HpkeKdf.HKDF_SHA384 HpkeAead.AES_256_GCM))
    DH_KEM_P384_HKDF_SHA384 HMAC_SHA384 AES_256_GCM 32.
(* @src rustls-aws-lc-rs/src/hpke.rs 126-142 DH_KEM_P384_HKDF_SHA384_CHACHA20_POLY1305 *)
Definition DH_KEM_P384_HKDF_SHA384_CHACHA20_POLY1305 : HpkeAwsLcRs.t :=
  HpkeAwsLcRs.mk (HpkeSuite.mk HpkeKem.DHKEM_P384_HKDF_SHA384
      (HpkeSymmetricCipherSuite.mk HpkeKdf.HKDF_SHA384 HpkeAead.CHACHA20_POLY_1305))
    DH_KEM_P384_HKDF_SHA384 HMAC_SHA384 CHACHA20_POLY1305 32.
(* @src rustls-aws-lc-rs/src/hpke.rs 144-158 DH_KEM_P521_HKDF_SHA512_AES_128 *)
Definition DH_KEM_P521_HKDF_SHA512_AES_128 : HpkeAwsLcRs.t :=
  HpkeAwsLcRs.mk (HpkeSuite.mk HpkeKem.DHKEM_P521_HKDF_SHA512
      (HpkeSymmetricCipherSuite.mk HpkeKdf.HKDF_SHA512 HpkeAead.AES_128_GCM))
    DH_KEM_P521_HKDF_SHA512 HMAC_SHA512 AES_128_GCM 16.
(* @src rustls-aws-lc-rs/src/hpke.rs 160-174 DH_KEM_P521_HKDF_SHA512_AES_256 *)
Definition DH_KEM_P521_HKDF_SHA512_AES_256 : HpkeAwsLcRs.t :=
  HpkeAwsLcRs.mk (HpkeSuite.mk HpkeKem.DHKEM_P521_HKDF_SHA512
      (HpkeSymmetricCipherSuite.mk HpkeKdf.HKDF_SHA512 HpkeAead.AES_256_GCM))
    DH_KEM_P521_HKDF_SHA512 HMAC_SHA512 AES_256_GCM 32.
(* @src rustls-aws-lc-rs/src/hpke.rs 176-192 DH_KEM_P521_HKDF_SHA512_CHACHA20_POLY1305 *)
Definition DH_KEM_P521_HKDF_SHA512_CHACHA20_POLY1305 : HpkeAwsLcRs.t :=
  HpkeAwsLcRs.mk (HpkeSuite.mk HpkeKem.DHKEM_P521_HKDF_SHA512
      (HpkeSymmetricCipherSuite.mk HpkeKdf.HKDF_SHA512 HpkeAead.CHACHA20_POLY_1305))
    DH_KEM_P521_HKDF_SHA512 HMAC_SHA512 CHACHA20_POLY1305 32.
(* @src rustls-aws-lc-rs/src/hpke.rs 194-208 DH_KEM_X25519_HKDF_SHA256_AES_128 *)
Definition DH_KEM_X25519_HKDF_SHA256_AES_128 : HpkeAwsLcRs.t :=
  HpkeAwsLcRs.mk (HpkeSuite.mk HpkeKem.DHKEM_X25519_HKDF_SHA256
      (HpkeSymmetricCipherSuite.mk HpkeKdf.HKDF_SHA256 HpkeAead.AES_128_GCM))
    DH_KEM_X25519_HKDF_SHA256 HMAC_SHA256 AES_128_GCM 16.
(* @src rustls-aws-lc-rs/src/hpke.rs 210-224 DH_KEM_X25519_HKDF_SHA256_AES_256 *)
Definition DH_KEM_X25519_HKDF_SHA256_AES_256 : HpkeAwsLcRs.t :=
  HpkeAwsLcRs.mk (HpkeSuite.mk HpkeKem.DHKEM_X25519_HKDF_SHA256
      (HpkeSymmetricCipherSuite.mk HpkeKdf.HKDF_SHA256 HpkeAead.AES_256_GCM))
    DH_KEM_X25519_HKDF_SHA256 HMAC_SHA256 AES_256_GCM 32.
(* @src rustls-aws-lc-rs/src/hpke.rs 226-242 DH_KEM_X25519_HKDF_SHA256_CHACHA20_POLY1305 *)
Definition DH_KEM_X25519_HKDF_SHA256_CHACHA20_POLY1305 : HpkeAwsLcRs.t :=
  HpkeAwsLcRs.mk (HpkeSuite.mk HpkeKem.DHKEM_X25519_HKDF_SHA256
      (HpkeSymmetricCipherSuite.mk HpkeKdf.HKDF_SHA256 HpkeAead.CHACHA20_POLY_1305))
    DH_KEM_X25519_HKDF_SHA256 HMAC_SHA256 CHACHA20_POLY1305 32.

(** Without the feature [fips]. *)
(* @src rustls-aws-lc-rs/src/hpke.rs 22-42 ALL_SUPPORTED_SUITES *)
Definition ALL_SUPPORTED_SUITES : list HpkeAwsLcRs.t :=
  [DH_KEM_P256_HKDF_SHA256_AES_128;
   DH_KEM_P256_HKDF_SHA256_AES_256;
   DH_KEM_P256_HKDF_SHA256_CHACHA20_POLY1305;
   DH_KEM_P384_HKDF_SHA384_AES_128;
   DH_KEM_P384_HKDF_SHA384_AES_256;
   DH_KEM_P384_HKDF_SHA384_CHACHA20_POLY1305;
   DH_KEM_P521_HKDF_SHA512_AES_128;
   DH_KEM_P521_HKDF_SHA512_AES_256;
   DH_KEM_P521_HKDF_SHA512_CHACHA20_POLY1305;
   DH_KEM_X25519_HKDF_SHA256_AES_128;
   DH_KEM_X25519_HKDF_SHA256_AES_256;
   DH_KEM_X25519_HKDF_SHA256_CHACHA20_POLY1305].
End suites.
