(* ===== verification/HpkeSpec.v ===== *)
(** * HPKE is that of RFC 9180, and Encrypted ClientHello is opened with it

    The contexts of [HpkeAwsLc] are those of RFC 9180; what a sealer seals the opener that
    was set up with the private key opens; and so does the server that has the private key
    of an ECH configuration with the hellos of a client. *)
From stdpp Require Import gmap.
From S2P Require Import Prelude Enums Errors Codec Records Cipher Extensions Payloads ServerHello ClientHello.
From S2P Require Import Messages Tls13Cipher Hkdf KeySchedule KeyScheduleSpec Sessions Verify Kx Transcript Outputs ClientConfig.
From S2P Require Import Ech Handlers ToyProvider EchSpec HpkeAwsLc.

(** ** RFC 9180 *)

Module Rfc9180.
(** Section 4.  A salt that is the empty string is [None]: HMAC pads its key with zeros. *)
Definition I2OSP (n : Z) (w : nat) : list u8 := be_bytes w n.

Definition LabeledExtract (h : Hmac.t) (suite_id : list u8) (salt : option (list u8)) (label : string)
    (ikm : list u8) : list u8 :=
  Rfc5869.extract h salt (byte_str "HPKE-v1" ++ suite_id ++ byte_str label ++ ikm).

Definition LabeledExpand (h : Hmac.t) (suite_id prk : list u8) (label : string) (info : list u8)
    (L : nat) : list u8 :=
  Rfc5869.expand (Hmac.with_key h prk)
    (I2OSP (Z.of_nat L) 2 ++ byte_str "HPKE-v1" ++ suite_id ++ byte_str label ++ info) L.

(** Section 4.1. *)
Definition ExtractAndExpand (h : Hmac.t) (kem_id : Z) (dh kem_context : list u8) (Nsecret : nat) : list u8 :=
  let suite_id := byte_str "KEM" ++ I2OSP kem_id 2 in
  let eae_prk := LabeledExtract h suite_id None "eae_prk" dh in
  LabeledExpand h suite_id eae_prk "shared_secret" kem_context Nsecret.

(** Section 5.1, in the mode without a pre-shared key. *)
Definition KeySchedule (h : Hmac.t) (kem_id kdf_id aead_id : Z) (shared_secret info : list u8) (Nk Nn : nat)
    : list u8 * list u8 :=
  let suite_id := byte_str "HPKE" ++ I2OSP kem_id 2 ++ I2OSP kdf_id 2 ++ I2OSP aead_id 2 in
  let psk_id_hash := LabeledExtract h suite_id None "psk_id_hash" [] in
  let info_hash := LabeledExtract h suite_id None "info_hash" info in
  let key_schedule_context := x00 :: psk_id_hash ++ info_hash in
  let secret := LabeledExtract h suite_id (Some shared_secret) "secret" [] in
  (LabeledExpand h suite_id secret "key" key_schedule_context Nk,
   LabeledExpand h suite_id secret "base_nonce" key_schedule_context Nn).

(** Section 5.2. *)
Definition ComputeNonce (base_nonce : list u8) (seq : Z) : list u8 :=
  zip_with u8_xor (I2OSP seq 12) base_nonce.
End Rfc9180.

(** ** Sealing and opening in order *)

(** The results of sealing messages, each with its additional data. *)
Fixpoint seal_all (msgs : list (list u8 * list u8)) (s : Sealer.t) : Sealer.t * list (result Error.t (list u8)) :=
  match msgs with
  | [] => (s, [])
  | (aad, plaintext) :: msgs =>
      let '(s, r) := Sealer.seal aad plaintext s in
      let '(s, rs) := seal_all msgs s in (s, r :: rs)
  end.

Fixpoint open_all (msgs : list (list u8 * list u8)) (o : Opener.t) : Opener.t * list (result Error.t (list u8)) :=
  match msgs with
  | [] => (o, [])
  | (aad, ciphertext) :: msgs =>
      let '(o, r) := Opener.open aad ciphertext o in
      let '(o, rs) := open_all msgs o in (o, r :: rs)
  end.

(** The last sequence number, which is not used. *)
Definition max_seq : Z := 2 ^ 96 - 1.

(** What makes a context usable. *)
Definition usable (ks : HpkeKeySchedule.t) : Prop :=
  length (HpkeKeySchedule.key ks) = Aead.key_len (HpkeKeySchedule.aead ks)
  ∧ length (HpkeKeySchedule.base_nonce ks) = NONCE_LEN
  ∧ (0 <= HpkeKeySchedule.seq_num ks <= max_seq)%Z.

Definition at_seq (ks : HpkeKeySchedule.t) (n : Z) : HpkeKeySchedule.t :=
  HpkeKeySchedule.mk (HpkeKeySchedule.aead ks) (HpkeKeySchedule.key ks) (HpkeKeySchedule.base_nonce ks) n.

Lemma compute_nonce_spec ks :
  HpkeKeySchedule.compute_nonce ks
  = Rfc9180.ComputeNonce (HpkeKeySchedule.base_nonce ks) (HpkeKeySchedule.seq_num ks).
Proof.
  unfold HpkeKeySchedule.compute_nonce, Rfc9180.ComputeNonce, Rfc9180.I2OSP, NONCE_LEN. cbv zeta.
  rewrite be_bytes_length. change 16 with (4 + 12) at 2. rewrite be_bytes_app.
  by rewrite drop_app_length' by by rewrite be_bytes_length.
Qed.

Lemma compute_nonce_inj base i j :
  length base = NONCE_LEN → (0 <= i < 2 ^ 96)%Z → (0 <= j < 2 ^ 96)%Z →
  Rfc9180.ComputeNonce base i = Rfc9180.ComputeNonce base j → i = j.
Proof.
  intros Hb Hi Hj H%xor_bytes_inj; [|unfold Rfc9180.I2OSP; rewrite be_bytes_length, Hb; done..].
  by apply be_bytes_inj in H.
Qed.

Lemma less_safe_ok ks : usable ks →
  less_safe (HpkeKeySchedule.aead ks) (HpkeKeySchedule.key ks)
  = Some (mk_key (HpkeKeySchedule.aead ks) (HpkeKeySchedule.key ks)).
Proof. intros [Hk _]. unfold less_safe. by rewrite decide_True. Qed.

Lemma increment_spec ks :
  HpkeKeySchedule.increment_seq_num ks
  = if decide (max_seq <= HpkeKeySchedule.seq_num ks)%Z then None
    else Some (at_seq ks (HpkeKeySchedule.seq_num ks + 1)).
Proof. done. Qed.

(** The AEAD of a context, at a sequence number. *)
Definition seal_at (ks : HpkeKeySchedule.t) (n : Z) (aad plaintext : list u8) : option (list u8) :=
  seal_append_tag (mk_key (HpkeKeySchedule.aead ks) (HpkeKeySchedule.key ks))
    (Rfc9180.ComputeNonce (HpkeKeySchedule.base_nonce ks) n) aad plaintext.

Definition open_at (ks : HpkeKeySchedule.t) (n : Z) (aad ciphertext : list u8) : option (list u8) :=
  open_in_place (mk_key (HpkeKeySchedule.aead ks) (HpkeKeySchedule.key ks))
    (Rfc9180.ComputeNonce (HpkeKeySchedule.base_nonce ks) n) aad ciphertext.

Lemma open_seal_at ks n aad plaintext c :
  seal_at ks n aad plaintext = Some c → open_at ks n aad c = Some plaintext.
Proof.
  unfold seal_at, open_at, seal_append_tag, open_in_place. cbn [algorithm key_bytes].
  destruct (Aead.seal _ _ _ _ _) as [in_out [tag|]] eqn:Hs; [|done]. intros [= <-].
  apply Aead.open_seal in Hs as [rest ->]. by rewrite take_app_length.
Qed.

Lemma length_seal_at ks n aad plaintext c :
  seal_at ks n aad plaintext = Some c → length c = length plaintext + Aead.tag_len (HpkeKeySchedule.aead ks).
Proof.
  unfold seal_at, seal_append_tag. cbn [algorithm key_bytes].
  destruct (Aead.seal _ _ _ _ _) as [in_out [tag|]] eqn:Hs; [|done]. intros [= <-].
  rewrite length_app, (Aead.seal_tag _ _ _ _ _ _ _ Hs). f_equal.
  by rewrite <- (Aead.seal_length (HpkeKeySchedule.aead ks) (HpkeKeySchedule.key ks)
    (Rfc9180.ComputeNonce (HpkeKeySchedule.base_nonce ks) n) aad plaintext), Hs.
Qed.

Lemma seal_spec ks aad plaintext : usable ks →
  Sealer.seal aad plaintext (Sealer.mk ks)
  = if decide (max_seq <= HpkeKeySchedule.seq_num ks)%Z then (Sealer.mk ks, Err Error.Other)
    else (Sealer.mk (at_seq ks (HpkeKeySchedule.seq_num ks + 1)),
          ok_or (seal_at ks (HpkeKeySchedule.seq_num ks) aad plaintext) Error.Other).
Proof.
  intros Hu. unfold Sealer.seal. cbn [Sealer.key_schedule]. cbv zeta.
  rewrite less_safe_ok, increment_spec, compute_nonce_spec by done. by case_decide.
Qed.

Lemma open_spec ks aad ciphertext plaintext : usable ks → (HpkeKeySchedule.seq_num ks < max_seq)%Z →
  open_at ks (HpkeKeySchedule.seq_num ks) aad ciphertext = Some plaintext →
  Opener.open aad ciphertext (Opener.mk ks)
  = (Opener.mk (at_seq ks (HpkeKeySchedule.seq_num ks + 1)), Ok plaintext).
Proof.
  intros Hu Hn Ho. unfold Opener.open. cbn [Opener.key_schedule]. cbv zeta.
  unfold open_at in Ho. rewrite less_safe_ok, compute_nonce_spec, Ho, increment_spec by done.
  by rewrite decide_False by lia.
Qed.

Lemma usable_next ks : usable ks → (HpkeKeySchedule.seq_num ks < max_seq)%Z →
  usable (at_seq ks (HpkeKeySchedule.seq_num ks + 1)).
Proof. intros (Hk & Hb & Hs) Hn. split_and!; [done..|cbn; lia|cbn; lia]. Qed.

(** The results of sealing at the sequence numbers from [n]. *)
Definition sealed_from (ks : HpkeKeySchedule.t) (n : Z) (msgs : list (list u8 * list u8))
    : list (result Error.t (list u8)) :=
  imap (λ i '(aad, plaintext),
    if decide (max_seq <= n + Z.of_nat i)%Z then Err Error.Other
    else ok_or (seal_at ks (n + Z.of_nat i) aad plaintext) Error.Other) msgs.

Lemma seal_all_spec ks msgs : usable ks →
  (seal_all msgs (Sealer.mk ks)).2 = sealed_from ks (HpkeKeySchedule.seq_num ks) msgs.
Proof.
  revert ks. induction msgs as [|[aad plaintext] msgs IH]; intros ks Hu; [done|].
  cbn [seal_all]. rewrite seal_spec by done. unfold sealed_from. cbn [imap].
  rewrite Z.add_0_r. case_decide as Hm.
  - specialize (IH ks Hu). destruct (seal_all msgs _) as [s rs]. cbn in IH |- *. f_equal. subst rs.
    apply imap_ext. intros i [? ?] _. cbn. by rewrite !decide_True by lia.
  - specialize (IH (at_seq ks (HpkeKeySchedule.seq_num ks + 1)) ltac:(apply usable_next; [done|lia])).
    destruct (seal_all msgs _) as [s rs]. cbn in IH |- *. f_equal. subst rs.
    apply imap_ext. intros i [? ?] _. cbn.
    by replace (HpkeKeySchedule.seq_num ks + Z.of_nat (S i))%Z
      with (HpkeKeySchedule.seq_num ks + 1 + Z.of_nat i)%Z by lia.
Qed.

Lemma open_all_sealed ks msgs cts : usable ks →
  (seal_all msgs (Sealer.mk ks)).2 = Ok <$> cts →
  (open_all (zip msgs.*1 cts) (Opener.mk ks)).2 = Ok <$> msgs.*2.
Proof.
  revert ks cts. induction msgs as [|[aad plaintext] msgs IH]; intros ks cts Hu; [done|].
  cbn [seal_all]. rewrite seal_spec by done. case_decide as Hm.
  { destruct (seal_all _ _). by destruct cts. }
  destruct (seal_all msgs _) as [s rs] eqn:Hs. destruct cts as [|c cts]; [done|]. cbn. intros [= Hc ->].
  destruct (seal_at _ _ _ _) as [c'|] eqn:Hc'; [injection Hc as ->|done].
  apply open_seal_at in Hc'. rewrite (open_spec _ _ _ plaintext) by (done || lia).
  specialize (IH (at_seq ks (HpkeKeySchedule.seq_num ks + 1)) cts ltac:(apply usable_next; [done|lia])).
  rewrite Hs in IH. specialize (IH eq_refl). destruct (open_all _ _). cbn in IH |- *. by rewrite IH.
Qed.

(** ** Setting contexts up *)

Section setup.
Context `{AwsLcLaws}.
Implicit Types (self : HpkeAwsLcRs.t).

(** What the definitions of the suites have in common. *)
Record suite_ok self : Prop := {
  suite_key_size : HpkeAwsLcRs.KEY_SIZE self = Aead.key_len (HpkeAwsLcRs.aead self);
  suite_tag_len : Aead.tag_len (HpkeAwsLcRs.aead self) = 16;
  suite_tag_known : aead_tag_len (HpkeSymmetricCipherSuite.aead_id (HpkeSuite.sym (HpkeAwsLcRs.suite self)))
                    = Some 16;
  suite_hash_len : 32 ≤ Hmac.hash_output_len (HpkeAwsLcRs.hkdf self);
  suite_kdf_size : DhKem.KDF_SIZE (HpkeAwsLcRs.dh_kem self)
                   = Hmac.hash_output_len (DhKem.hkdf (HpkeAwsLcRs.dh_kem self));
  suite_kem : DhKem.id (HpkeAwsLcRs.dh_kem self) = HpkeSuite.kem (HpkeAwsLcRs.suite self);
  suite_generator w w' pk sk :
    HpkeAwsLcRs.generate_key_pair self w = (w', Ok (pk, sk)) →
    ∃ k, key_algorithm k = DhKem.agreement_algorithm (HpkeAwsLcRs.dh_kem self)
         ∧ compute_public_key k = Some pk ∧ as_be_bytes k = Some sk;
}.

Lemma generate_key_pair_ok alg w w' pk k :
  generate_key_pair alg w = (w', Ok (pk, k)) → key_algorithm k = alg ∧ compute_public_key k = Some pk.
Proof.
  unfold generate_key_pair, unspecified_err. intros Hg. bind_inv.
  destruct (generate alg w) as [w1 r] eqn:Hgen. split; [|done].
  match goal with Hr : (_, ok_or r _) = _ |- _ => injection Hr as <- ?; bind_inv end.
  subst r. by eapply generate_algorithm.
Qed.

Lemma generate_raw_ok alg w w' pk sk :
  ('(public_key, private_key) ← generate_key_pair alg;
   raw_private_key ← lift (unspecified_err (as_be_bytes private_key));
   mret (public_key, raw_private_key)) w = (w', Ok (pk, sk)) →
  ∃ k, key_algorithm k = alg ∧ compute_public_key k = Some pk ∧ as_be_bytes k = Some sk.
Proof.
  unfold unspecified_err. intros Hg. bind_inv.
  match goal with x : _ * _ |- _ => destruct x as [pk' k] end. bind_inv.
  match goal with Hr : generate_key_pair _ _ = _ |- _ => apply generate_key_pair_ok in Hr as [? ?] end.
  by exists k.
Qed.

Lemma p_curve_ok alg w w' pk sk :
  generate_p_curve_key_pair alg w = (w', Ok (pk, sk)) →
  ∃ k, key_algorithm k = alg ∧ compute_public_key k = Some pk ∧ as_be_bytes k = Some sk.
Proof. unfold generate_p_curve_key_pair. case_decide; [done|]. apply generate_raw_ok. Qed.

Lemma x25519_ok w w' pk sk :
  generate_x25519_key_pair w = (w', Ok (pk, sk)) →
  ∃ k, key_algorithm k = Agreement.X25519 ∧ compute_public_key k = Some pk ∧ as_be_bytes k = Some sk.
Proof. apply generate_raw_ok. Qed.

Lemma supported_ok self : self ∈ ALL_SUPPORTED_SUITES → suite_ok self.
Proof.
  destruct hmac_lens as (H256 & H384 & H512), aead_key_lens as (K1 & K2 & K3), aead_tag_lens as (T1 & T2 & T3).
  assert (32 ≤ Hmac.hash_output_len HMAC_SHA256) as L256 by lia.
  assert (32 ≤ Hmac.hash_output_len HMAC_SHA384) as L384 by lia.
  assert (32 ≤ Hmac.hash_output_len HMAC_SHA512) as L512 by lia.
  intros Hin. unfold ALL_SUPPORTED_SUITES in Hin.
  do 12 (apply elem_of_cons in Hin as [->|Hin]; [split; cbn [HpkeAwsLcRs.KEY_SIZE HpkeAwsLcRs.aead];
    [by symmetry|done|reflexivity
    |first [exact L256|exact L384|exact L512]
    |by symmetry|reflexivity|intros w w' pk sk; first [apply p_curve_ok|apply x25519_ok]]|]).
  by apply elem_of_nil in Hin.
Qed.

Lemma extract_for_expand_spec h id salt label ikm :
  labeled_extract_for_expand h id salt label ikm
  = Ok (hmac_expander (Hmac.with_key h (Rfc5869.extract h salt
      (byte_str "HPKE-v1" ++ LabeledSuiteId.encoded id ++ Label.as_ref label ++ ikm)))).
Proof. apply HkdfUsingHmac.extract_secret_spec. Qed.

Lemma extract_for_prk_spec h id salt label ikm :
  labeled_extract_for_prk h id salt label ikm
  = Ok (Rfc5869.extract h salt
      (byte_str "HPKE-v1" ++ LabeledSuiteId.encoded id ++ Label.as_ref label ++ ikm)).
Proof. apply HkdfUsingHmac.extract_prk_spec. Qed.

Lemma labeled_expand_spec L id h prk label context :
  L ≤ 255 * Hmac.hash_output_len h →
  labeled_expand L id (hmac_expander (Hmac.with_key h prk)) label context
  = Ok (Rfc5869.expand (Hmac.with_key h prk)
          (Rfc9180.I2OSP (Z.of_nat L) 2 ++ byte_str "HPKE-v1" ++ LabeledSuiteId.encoded id
           ++ Label.as_ref label ++ context) L).
Proof.
  intros HL. unfold labeled_expand, expand. cbn [hmac_expander HkdfExpander.expand_slice].
  rewrite expand_slice_spec, Hmac.tag_len_eq, decide_True by done.
  cbn [concat]. rewrite app_nil_r, be_bytes_wrap by done. done.
Qed.

Lemma extract_and_expand_spec self dh context : suite_ok self →
  DhKem.extract_and_expand (HpkeAwsLcRs.dh_kem self) dh context
  = Ok (Rfc9180.ExtractAndExpand (DhKem.hkdf (HpkeAwsLcRs.dh_kem self))
          (HpkeKem.val (HpkeSuite.kem (HpkeAwsLcRs.suite self))) dh context
          (DhKem.KDF_SIZE (HpkeAwsLcRs.dh_kem self))).
Proof.
  intros Hok. unfold DhKem.extract_and_expand. cbv zeta. rewrite extract_for_expand_spec. step_ok.
  rewrite labeled_expand_spec by (rewrite (suite_kdf_size _ Hok); lia).
  unfold LabeledSuiteId.encoded. by rewrite (suite_kem _ Hok).
Qed.

(** The key and the base nonce that RFC 9180 derives for a suite. *)
Definition rfc_schedule self (shared_secret info : list u8) : list u8 * list u8 :=
  let suite := HpkeAwsLcRs.suite self in
  Rfc9180.KeySchedule (HpkeAwsLcRs.hkdf self) (HpkeKem.val (HpkeSuite.kem suite))
    (HpkeKdf.val (HpkeSymmetricCipherSuite.kdf_id (HpkeSuite.sym suite)))
    (HpkeAead.val (HpkeSymmetricCipherSuite.aead_id (HpkeSuite.sym suite)))
    shared_secret info (Aead.key_len (HpkeAwsLcRs.aead self)) 12.

Definition rfc_context self (shared_secret info : list u8) : HpkeKeySchedule.t :=
  let '(key, base_nonce) := rfc_schedule self shared_secret info in
  HpkeKeySchedule.mk (HpkeAwsLcRs.aead self) key base_nonce 0.

Lemma key_schedule_spec self shared_secret info : suite_ok self →
  HpkeAwsLcRs.key_schedule self shared_secret info = Ok (rfc_context self shared_secret info).
Proof.
  intros Hok. pose proof (Aead.key_len_max (HpkeAwsLcRs.aead self)). pose proof (suite_hash_len _ Hok).
  unfold HpkeAwsLcRs.key_schedule, HpkeAwsLcRs.key_schedule_labeled_expand. cbv zeta.
  rewrite !extract_for_prk_spec, extract_for_expand_spec. step_ok.
  rewrite (suite_key_size _ Hok), !labeled_expand_spec by (unfold NONCE_LEN; lia). step_ok.
  unfold rfc_context, rfc_schedule, Rfc9180.KeySchedule, Rfc9180.LabeledExtract, Rfc9180.LabeledExpand.
  cbn [Label.as_ref LabeledSuiteId.encoded app]. reflexivity.
Qed.

Lemma rfc_context_usable self shared_secret info :
  suite_ok self → usable (rfc_context self shared_secret info).
Proof.
  intros Hok. pose proof (Aead.key_len_max (HpkeAwsLcRs.aead self)). pose proof (suite_hash_len _ Hok).
  unfold usable, rfc_context, rfc_schedule, Rfc9180.KeySchedule, Rfc9180.LabeledExpand. cbv zeta.
  cbn [HpkeKeySchedule.key HpkeKeySchedule.aead HpkeKeySchedule.base_nonce HpkeKeySchedule.seq_num].
  unfold max_seq, NONCE_LEN. split_and!; [..|lia|lia]; apply length_expand; rewrite Hmac.tag_len_eq; lia.
Qed.

(** What a successful set up of a sealer did. *)
Lemma setup_sealer_ok self info pk w w' enc s : suite_ok self →
  HpkeAwsLcRs.setup_sealer self info pk w = (w', Ok (enc, s)) →
  ∃ k dh, key_algorithm k = DhKem.agreement_algorithm (HpkeAwsLcRs.dh_kem self)
    ∧ compute_public_key k = Some enc ∧ agree k (key_algorithm k) pk = Some dh
    ∧ s = Sealer.mk (rfc_context self (Rfc9180.ExtractAndExpand (DhKem.hkdf (HpkeAwsLcRs.dh_kem self))
            (HpkeKem.val (HpkeSuite.kem (HpkeAwsLcRs.suite self))) dh (enc ++ pk)
            (DhKem.KDF_SIZE (HpkeAwsLcRs.dh_kem self))) info).
Proof.
  intros Hok Hs. unfold HpkeAwsLcRs.setup_sealer, HpkeAwsLcRs.new_sealer, DhKem.encap, DhKem.encap_impl,
    unspecified_err in Hs. bind_inv.
  match goal with Hr : (let '(_, _) := ?g in _) = _ |- _ => destruct g as [w1 r] eqn:Hg; injection Hr as <- Hr; bind_inv end.
  subst r. match goal with Hr : DhKem.extract_and_expand _ _ _ = _ |- _ => rewrite extract_and_expand_spec in Hr by done; injection Hr as <- end.
  match goal with Hr : HpkeAwsLcRs.key_schedule _ _ _ = _ |- _ => rewrite key_schedule_spec in Hr by done; injection Hr as <- end.
  apply generate_algorithm in Hg as Halg. do 2 eexists. rewrite Halg. by split_and!.
Qed.

Lemma setup_opener_spec self info enc sk k pk dh : suite_ok self →
  key_algorithm k = DhKem.agreement_algorithm (HpkeAwsLcRs.dh_kem self) →
  compute_public_key k = Some pk → as_be_bytes k = Some sk →
  agree k (key_algorithm k) enc = Some dh →
  HpkeAwsLcRs.setup_opener self enc info sk
  = Ok (Opener.mk (rfc_context self (Rfc9180.ExtractAndExpand (DhKem.hkdf (HpkeAwsLcRs.dh_kem self))
          (HpkeKem.val (HpkeSuite.kem (HpkeAwsLcRs.suite self))) dh (enc ++ pk)
          (DhKem.KDF_SIZE (HpkeAwsLcRs.dh_kem self))) info)).
Proof.
  intros Hok Halg Hpk Hsk Hdh. apply from_as_be_bytes in Hsk. rewrite Halg in Hsk, Hdh.
  unfold HpkeAwsLcRs.setup_opener, HpkeAwsLcRs.new_opener, DhKem.decap, unspecified_err.
  rewrite Hsk. cbn [ok_or]. step_ok. rewrite Hpk. cbn [ok_or]. step_ok. rewrite Hdh. cbn [ok_or]. step_ok.
  rewrite extract_and_expand_spec by done. step_ok. by rewrite key_schedule_spec.
Qed.

(** The two ends have the same context. *)
Lemma contexts_agree self info pk sk w0 w1 w w' enc s :
  suite_ok self → HpkeAwsLcRs.generate_key_pair self w0 = (w1, Ok (pk, sk)) →
  HpkeAwsLcRs.setup_sealer self info pk w = (w', Ok (enc, s)) →
  ∃ ks, s = Sealer.mk ks ∧ HpkeAwsLcRs.setup_opener self enc info sk = Ok (Opener.mk ks)
        ∧ HpkeKeySchedule.aead ks = HpkeAwsLcRs.aead self ∧ usable ks.
Proof.
  intros Hok Hg Hs. apply (suite_generator _ Hok) in Hg as (k & Halg & Hpk & Hsk).
  apply (setup_sealer_ok _ _ _ _ _ _ _ Hok) in Hs as (e & dh & Hea & Henc & Hdh & ->).
  eexists. split; [reflexivity|]. split; [|split; [reflexivity|by apply rfc_context_usable]].
  apply (setup_opener_spec self info enc sk k pk dh); [done..|]. rewrite <- Hdh. apply agree_comm; congruence.
Qed.


(** C26. What is sealed is opened.  Let a key pair be generated for a supported suite.  When
    a sealer has been set up with the public key, an opener can be set up with the private
    key, the encapsulated secret and the same [info]; and if every one of a sequence of
    messages was sealed, then opening the ciphertexts in order, with the same additional
    data, gives the messages.  So does [open] with what [seal] returns. *)
Theorem hpke_roundtrip self pk sk w0 w1 :
  self ∈ ALL_SUPPORTED_SUITES →
  HpkeAwsLcRs.generate_key_pair self w0 = (w1, Ok (pk, sk)) →
  (∀ info w w' enc s, HpkeAwsLcRs.setup_sealer self info pk w = (w', Ok (enc, s)) →
     ∃ o, HpkeAwsLcRs.setup_opener self enc info sk = Ok o
       ∧ ∀ msgs cts, (seal_all msgs s).2 = Ok <$> cts → (open_all (zip msgs.*1 cts) o).2 = Ok <$> msgs.*2)
  ∧ ∀ info aad plaintext w w' enc ct, HpkeAwsLcRs.seal self info aad plaintext pk w = (w', Ok (enc, ct)) →
      HpkeAwsLcRs.open self enc info aad ct sk = Ok plaintext.
Proof.
  intros Hok%supported_ok Hg. split.
  - intros info w w' enc s Hs.
    destruct (contexts_agree _ _ _ _ _ _ _ _ _ _ Hok Hg Hs) as (ks & -> & Ho & _ & Hu).
    exists (Opener.mk ks). split; [done|]. intros msgs cts. by apply open_all_sealed.
  - intros info aad plaintext w w' enc ct Hs. unfold HpkeAwsLcRs.seal in Hs.
    apply action_bind_ok in Hs as (w2 & [enc' s] & Hs & Hseal).
    destruct (contexts_agree _ _ _ _ _ _ _ _ _ _ Hok Hg Hs) as (ks & -> & Ho & _ & Hu).
    destruct (Sealer.seal aad plaintext (Sealer.mk ks)) as [s' r] eqn:Hr. bind_inv.
    pose proof (open_all_sealed ks [(aad, plaintext)] [ct] Hu) as Hall. cbn [seal_all] in Hall.
    rewrite Hr in Hall. specialize (Hall eq_refl). cbn in Hall.
    unfold HpkeAwsLcRs.open. rewrite Ho. step_ok. destruct (Opener.open aad ct (Opener.mk ks)). by injection Hall.
Qed.
End setup.

(** ** Encrypted ClientHello *)

(** [Box<dyn HpkeSealer>]: sealers as the client holds them. *)
Class BoxedSealer `{AwsLc, !HpkeSealer} := {
  box_sealer : Sealer.t → hpke_sealer;
  hpke_seal_box aad plaintext s :
    hpke_seal aad plaintext (box_sealer s)
    = let '(s, r) := Sealer.seal aad plaintext s in (box_sealer s, r);
}.

(** A suite as [&dyn Hpke]. *)
Definition dyn_hpke `{BoxedSealer} (self : HpkeAwsLcRs.t) : Hpke.t :=
  Hpke.mk (HpkeSuite.kem (HpkeAwsLcRs.suite self)) (HpkeSuite.sym (HpkeAwsLcRs.suite self))
    (λ info pk, '(enc, s) ← HpkeAwsLcRs.setup_sealer self info pk; mret (enc, box_sealer s)).

Section ech.
Context `{ClientWorld, !AwsLc, !AwsLcLaws, !HpkeSealer, !BoxedSealer}.
Implicit Types (st : EchState.t) (h outer : ClientHelloPayload.t).

(** The extension of the outer hello. *)
Definition ech_outer h : option EncryptedClientHelloOuter.t :=
  match ClientExtensions.encrypted_client_hello (ClientHelloPayload.extensions h) with
  | Some (EncryptedClientHello.Outer o) => Some o
  | _ => None
  end.

(** The fields of the state that do not change. *)
Definition same_suite st st' : Prop :=
  EchState.cipher_suite st' = EchState.cipher_suite st ∧ EchState.config_id st' = EchState.config_id st
  ∧ EchState.enc_secret st' = EchState.enc_secret st ∧ EchState.sender st' = EchState.sender st.

Lemma encode_inner_same st outer is_retry resuming st' bs :
  EchState.encode_inner_hello st outer is_retry resuming = Ok (st', bs) → same_suite st st'.
Proof.
  unfold EchState.encode_inner_hello. intros He. bind_inv.
  destruct (EchState.inner_hello_of _ _ _) as [ih c]. bind_inv.
  match goal with x : EchState.t * _ |- _ => destruct x as [st1 ih1] end. bind_inv.
  destruct resuming; bind_inv; [|done]. by case_match; bind_inv.
Qed.

Lemma grease_psk_same st offer w w' st' offer' :
  EchState.grease_psk st offer w = (w', Ok (st', offer')) → same_suite st st'.
Proof.
  unfold EchState.grease_psk. intros Hg. apply action_bind_ok in Hg as (w1 & [s1 ids] & Hs & Hg). bind_inv.
  destruct (EchState.grease_psk_identities st); bind_inv; done.
Qed.

(** A state whose sealer has the context [ks] of a suite. *)
Definition seals_with (hpke : HpkeAwsLcRs.t) (ks : HpkeKeySchedule.t) st : Prop :=
  EchState.sender st = box_sealer (Sealer.mk ks) ∧ usable ks
  ∧ HpkeKeySchedule.aead ks = HpkeAwsLcRs.aead hpke
  ∧ EchState.cipher_suite st = HpkeSuite.sym (HpkeAwsLcRs.suite hpke).

(** A hello whose extension is opened by [o], to the inner hello, by which [o] becomes [o']. *)
Definition opens (o o' : Opener.t) st outer is_retry resuming h : Prop :=
  ∃ st' inner payload, EchState.encode_inner_hello st outer is_retry resuming = Ok (st', inner)
    ∧ ech_outer h = Some (EncryptedClientHelloOuter.mk (EchState.cipher_suite st) (EchState.config_id st)
        (mkSizedPayload (if is_retry then [] else EchState.enc_secret st)) (mkSizedPayload payload))
    ∧ Opener.open (get_encoding (visible h)) payload o = (o', Ok inner).

Lemma visible_outer_ext st st' enc payload zeros outer :
  length payload = length zeros → zeros = replicate (length zeros) x00 →
  EchState.cipher_suite st' = EchState.cipher_suite st → EchState.config_id st' = EchState.config_id st →
  visible (EchState.outer_hello_ext st' enc payload (EchState.outer_hello_ext st enc zeros outer))
  = EchState.outer_hello_ext st enc zeros outer.
Proof.
  intros Hl Hz Hcs Hid. unfold visible, EchState.outer_hello_ext. cbn -[replicate].
  rewrite Hl, <- Hz, Hcs, Hid. by destruct outer.
Qed.

Lemma ech_hello_opened hpke ks st outer is_retry resuming w w' st' h :
  suite_ok hpke → seals_with hpke ks st →
  EchState.ech_hello st outer is_retry resuming w = (w', Ok (st', h)) →
  let ks' := at_seq ks (HpkeKeySchedule.seq_num ks + 1) in
  seals_with hpke ks' st' ∧ opens (Opener.mk ks) (Opener.mk ks') st outer is_retry resuming h.
Proof.
  intros Hok (Hsend & Hu & Haead & Hsuite) He. unfold EchState.ech_hello in He.
  apply action_bind_ok in He as (? & [s1 inner] & Henc & He). apply lift_ok in Henc as [-> Henc].
  pose proof (encode_inner_same _ _ _ _ _ _ Henc) as (Hcs1 & Hid1 & Hes1 & Hse1).
  apply action_bind_ok in He as (? & tag & Ht & He). apply lift_ok in Ht as [-> Ht].
  rewrite Hcs1, Hsuite, (suite_tag_known _ Hok) in Ht. injection Ht as <-.
  apply action_bind_ok in He as (w1 & [s2 outer'] & Hpsk & He).
  assert (same_suite s1 s2) as (Hcs2 & Hid2 & Hes2 & Hse2).
  { destruct (ClientExtensions.preshared_key_offer _); bind_inv; [|done].
    match goal with x : EchState.t * _ |- _ => destruct x end. bind_inv. by eapply grease_psk_same. }
  rewrite Hse2, Hse1, Hsend, hpke_seal_box, seal_spec in He by done. case_decide as Hmax; [bind_inv; done|].
  bind_inv. match goal with Hs : seal_at _ _ _ _ = Some ?c |- _ =>
    apply length_seal_at in Hs as Hlen; apply open_seal_at in Hs as Hopen; rename c into payload end.
  split; [split; [done|split; [apply usable_next; [done|lia]|split; [done|]]];
    by rewrite <- Hsuite, <- Hcs1, <- Hcs2|].
  exists s1, inner, payload. split; [done|]. split.
  - unfold ech_outer, EchState.outer_hello_ext. cbn -[replicate]. by rewrite Hcs2, Hid2, Hes1, Hcs1, Hid1.
  - rewrite visible_outer_ext; [|by rewrite length_replicate, Hlen, Haead, (suite_tag_len _ Hok)
      |by rewrite length_replicate|done..].
    apply open_spec; [done|lia|done].
Qed.

Lemma ech_new_opened hpke (config : EchConfig.t) contents sk name auth sni w0 w1 w w' st :
  suite_ok hpke →
  EchConfig.config config = EchConfigPayload.V18 contents → EchConfig.suite config = dyn_hpke hpke →
  HpkeAwsLcRs.generate_key_pair hpke w0
    = (w1, Ok (sp_inner (HpkeKeyConfig.public_key (EchConfigContents.key_config contents)), sk)) →
  EchState.new config name auth sni w = (w', Ok st) →
  ∃ ks, seals_with hpke ks st
    ∧ HpkeAwsLcRs.setup_opener hpke (EchState.enc_secret st) (EchConfig.hpke_info config) sk = Ok (Opener.mk ks)
    ∧ EchState.config_id st = HpkeKeyConfig.config_id (EchConfigContents.key_config contents).
Proof.
  intros Hok Hc Hs Hg Hn. unfold EchState.new in Hn. rewrite Hc, Hs in Hn.
  apply action_bind_ok in Hn as (w2 & [enc boxed] & Hset & Hn). bind_inv.
  unfold dyn_hpke in Hset. cbn [Hpke.setup_sealer] in Hset.
  apply action_bind_ok in Hset as (w3 & [enc' s] & Hset & Hret). bind_inv.
  destruct (contexts_agree _ _ _ _ _ _ _ _ _ _ Hok Hg Hset) as (ks & -> & Ho & Ha & Hu).
  exists ks. done.
Qed.

(** C18. A server that has the private key opens Encrypted ClientHello.  Let a client follow
    an ECH configuration with a public key that was generated for a supported suite, and
    send an outer hello, and, after a HelloRetryRequest, another.  From the encapsulated
    secret in the extension of the first, and the private key, an opener is set up, to
    which the payload of the extension is a ciphertext of the inner hello, with the outer
    hello as additional data, in which zeros take the place of the payload.  It then opens
    the extension of the second hello, which does not have the encapsulated secret. *)
Theorem ech_hello_opens hpke (config : EchConfig.t) contents sk name auth sni w0 w1 w w' st
    outer resuming v v' st1 h :
  hpke ∈ ALL_SUPPORTED_SUITES →
  EchConfig.config config = EchConfigPayload.V18 contents → EchConfig.suite config = dyn_hpke hpke →
  HpkeAwsLcRs.generate_key_pair hpke w0
    = (w1, Ok (sp_inner (HpkeKeyConfig.public_key (EchConfigContents.key_config contents)), sk)) →
  EchState.new config name auth sni w = (w', Ok st) →
  EchState.ech_hello st outer false resuming v = (v', Ok (st1, h)) →
  ∃ o o1, HpkeAwsLcRs.setup_opener hpke (EchState.enc_secret st) (EchConfig.hpke_info config) sk = Ok o
    ∧ opens o o1 st outer false resuming h
    ∧ ∀ st1' outer2 resuming2 u u' st2 h2, same_suite st1 st1' →
        EchState.ech_hello st1' outer2 true resuming2 u = (u', Ok (st2, h2)) →
        ∃ o2, opens o1 o2 st1' outer2 true resuming2 h2.
Proof.
  intros Hok%supported_ok Hc Hs Hg Hn He.
  destruct (ech_new_opened _ _ _ _ _ _ _ _ _ _ _ _ Hok Hc Hs Hg Hn) as (ks & Hks & Ho & _).
  destruct (ech_hello_opened _ _ _ _ _ _ _ _ _ _ Hok Hks He) as [(Hse & Hrest) Hopen].
  exists (Opener.mk ks). eexists. split; [done|]. split; [exact Hopen|].
  intros st1' outer2 resuming2 u u' st2 h2 (Hcs & _ & _ & Hse') He2. eexists.
  eapply (ech_hello_opened hpke (at_seq ks _) _ _ _ _ _ _ _ _ Hok) in He2 as [_ Hop2]; [exact Hop2|].
  split; [by rewrite Hse'|]. by rewrite Hcs.
Qed.
End ech.

(** ** Examples *)

Lemma xor_bytes_comm (l k : list u8) : zip_with u8_xor l k = zip_with u8_xor k l.
Proof.
  revert k. induction l as [|x l IH]; intros [|y k]; try done. cbn. rewrite IH. f_equal.
  unfold u8_xor. by rewrite Z.lxor_comm.
Qed.

Module ToyHpke.
(** Keys are strings of 32 bytes, which are also the public keys; the agreement is their
    exclusive or. *)
#[global] Instance provider : Provider := {|
  enc := Tls13RecordEncrypter.t;
  dec := Tls13RecordDecrypter.t;
  quic_alg := Empty_set;
  packet_keys := unit;
  header_keys := unit;
  prf12 := Empty_set;
  aead12 := Empty_set;
  hpke_sealer := Sealer.t;
  world := nat;
  provider_quic := ToyClient.no_quic;
  provider_names := any_names;
|}.

Program Definition key (n : nat) (Hn : 0 < n ≤ Hmac.MAX_LEN) (k : list u8) : Hmac.Key :=
  Hmac.mkKey (λ a b c, be_bytes n (Toy.sum k + 7 * Toy.sum (a ++ concat b ++ c))) n _ _ _.
Next Obligation. intros. cbn [concat app]. by rewrite !app_nil_r. Qed.
Next Obligation. intros. apply be_bytes_length. Qed.
Next Obligation. done. Qed.
Definition hmac (n : nat) (Hn : 0 < n ≤ Hmac.MAX_LEN) : Hmac.t := Hmac.mk (key n Hn) n (λ _, eq_refl).

#[global] Instance awslc : AwsLc := {|
  private_key := Agreement.t * list u8;
  generate alg w := (S w, Some (alg, be_bytes 32 (Z.of_nat w)));
  from_private_key alg bytes := Some (alg, bytes);
  key_algorithm := fst;
  compute_public_key k := Some k.2;
  as_be_bytes k := Some k.2;
  agree k alg p := if decide (alg = k.1) then Some (zip_with u8_xor k.2 p) else None;
  HMAC_SHA256 := hmac 32 ltac:(unfold Hmac.MAX_LEN; lia);
  HMAC_SHA384 := hmac 48 ltac:(unfold Hmac.MAX_LEN; lia);
  HMAC_SHA512 := hmac 64 ltac:(unfold Hmac.MAX_LEN; lia);
  AES_128_GCM := ToyAead.aes_128;
  AES_256_GCM := ToyAead.aes_256;
  CHACHA20_POLY1305 := ToyAead.aes_256;
|}.

#[global] Instance laws : AwsLcLaws.
Proof.
  split; cbn; [by intros ????[= <- <-]|by intros [alg k] ? [= <-]| |done..].
  intros [a k1] [b k2] p1 p2; cbn. intros -> [= <-] [= <-]. rewrite !decide_True by done.
  f_equal. apply xor_bytes_comm.
Qed.

#[global] Instance sealer : HpkeSealer := λ aad plaintext s, Sealer.seal aad plaintext s.
#[global] Instance boxed : BoxedSealer.
Proof. refine {| box_sealer s := s |}. intros aad plaintext s. unfold hpke_seal, sealer. by destruct (Sealer.seal aad plaintext s). Defined.

Definition suite : HpkeAwsLcRs.t := DH_KEM_X25519_HKDF_SHA256_AES_128.
Definition info : list u8 := byte_str "Ode on a Grecian Urn".
Definition pk : list u8 := be_bytes 32 1.
Definition sk : list u8 := be_bytes 32 1.
Definition msgs : list (list u8 * list u8) :=
  [([xc0; xff; xee], [xf0; x0d]); ([], byte_str "second"); ([x01], [])].

#[global] Instance client_world : ClientWorld := {|
  client_random n w := (w, Some (replicate n x2a));
  clock w := (S w, Some (Z.of_nat w));
  set_kx_hint _ _ w := w;
  kx_hint _ w := (w, None);
  set_tls12_session _ _ w := w;
  tls12_session _ w := (w, None);
  remove_tls12_session _ w := w;
  ClientConfig.insert_tls13_ticket _ _ w := w;
  take_tls13_ticket _ w := (w, None);
  compression_for _ _ w := (w, None);
|}.

Definition contents : EchConfigContents.t :=
  EchConfigContents.mk
    (HpkeKeyConfig.mk x01 HpkeKem.DHKEM_X25519_HKDF_SHA256 (mkSizedPayload pk)
       [HpkeSymmetricCipherSuite.mk HpkeKdf.HKDF_SHA256 HpkeAead.AES_128_GCM])
    x40 (byte_str "cover.org") [].
Definition config : EchConfig.t := EchConfig.mk (EchConfigPayload.V18 contents) (dyn_hpke suite).
Definition name : ServerName.t := ServerName.DnsName (byte_str "example.org").
Definition hello : ClientHelloPayload.t :=
  ClientHelloPayload.mk ProtocolVersion.TLSv1_2 (Random.new (replicate 32 x01)) SessionId.empty
    [CipherSuite.TLS13_AES_128_GCM_SHA256] [Compression.Null]
    (Exts.set_server_name (Some (ServerNamePayload.SingleDnsName (byte_str "cover.org")))
       (ClientExtensions.with_meta 77 [] es_default)).

(** A first hello and one after a HelloRetryRequest. *)
Definition hellos : action world Error.t (EchState.t * EchState.t * ClientHelloPayload.t * ClientHelloPayload.t) :=
  st ← EchState.new config name false true;
  '(st1, h1) ← EchState.ech_hello st hello false None;
  '(_, h2) ← EchState.ech_hello st1 hello true None;
  mret (st, st1, h1, h2).

(** What the first messages are sealed to. *)
Definition sealed (s : Sealer.t) : option (list (list u8)) :=
  mapM (λ r, match r with Ok c => Some c | _ => None end) (seal_all msgs s).2.
End ToyHpke.

Lemma is_ok_run {S E A} (r : S * result E A) : is_ok r.2 = true → ∃ s a, r = (s, Ok a).
Proof. destruct r as [s [a|e|]]; try done. by exists s, a. Qed.

Lemma toy_suite_supported : ToyHpke.suite ∈ ALL_SUPPORTED_SUITES.
Proof. by apply (list_elem_of_lookup_2 _ 9). Qed.


Lemma hpke_roundtrip_witness :
  ∃ w' enc s cts o, HpkeAwsLcRs.setup_sealer ToyHpke.suite ToyHpke.info ToyHpke.pk 5 = (w', Ok (enc, s))
    ∧ ToyHpke.sealed s = Some cts
    ∧ HpkeAwsLcRs.setup_opener ToyHpke.suite enc ToyHpke.info ToyHpke.sk = Ok o
    ∧ (open_all (zip ToyHpke.msgs.*1 cts) o).2 = Ok <$> ToyHpke.msgs.*2.
Proof.
  destruct (hpke_roundtrip ToyHpke.suite ToyHpke.pk ToyHpke.sk 1 2 toy_suite_supported) as [Hrt _]; [done|].
  assert (∀ r, HpkeAwsLcRs.setup_sealer ToyHpke.suite ToyHpke.info ToyHpke.pk 5 = r →
    match r with (_, Ok (_, s)) => is_Some (ToyHpke.sealed s) | _ => False end) as Hex
    by (intros r <-; vm_compute; eauto).
  specialize (Hex _ eq_refl). destruct (HpkeAwsLcRs.setup_sealer _ _ _ _) as [w' [[enc s]| |]] eqn:Hs; [|done..].
  destruct Hex as [cts Hcts]. destruct (Hrt _ _ _ _ _ Hs) as (o & Ho & Hopen).
  exists w', enc, s, cts, o. split; [done|]. split; [done|]. split; [done|]. apply Hopen.
  revert Hcts. unfold ToyHpke.sealed. generalize (seal_all ToyHpke.msgs s).2 as rs. clear.
  intros rs Hcts. apply mapM_Some_1 in Hcts. induction Hcts as [|r c rs cs Hr _ IH]; [done|].
  cbn. rewrite IH. by destruct r; simplify_eq.
Defined.

Lemma toy_hellos w w' st st1 h1 h2 :
  ToyHpke.hellos w = (w', Ok (st, st1, h1, h2)) →
  ∃ w1 w2 st2, EchState.new ToyHpke.config ToyHpke.name false true w = (w1, Ok st)
    ∧ EchState.ech_hello st ToyHpke.hello false None w1 = (w2, Ok (st1, h1))
    ∧ EchState.ech_hello st1 ToyHpke.hello true None w2 = (w', Ok (st2, h2)).
Proof.
  unfold ToyHpke.hellos. intros Hr. apply action_bind_ok in Hr as (w1 & st' & Hn & Hr).
  apply action_bind_ok in Hr as (w2 & [st1' h1'] & He1 & Hr).
  apply action_bind_ok in Hr as (w3 & [st2 h2'] & He2 & Hr). injection Hr as <- <- <- <- <-. by exists w1, w2, st2.
Qed.

Lemma ech_hello_opens_witness :
  ∃ w' st st1 h1 h2 o o1 o2, ToyHpke.hellos 5 = (w', Ok (st, st1, h1, h2))
    ∧ HpkeAwsLcRs.setup_opener ToyHpke.suite (EchState.enc_secret st) (EchConfig.hpke_info ToyHpke.config)
        ToyHpke.sk = Ok o
    ∧ opens o o1 st ToyHpke.hello false None h1 ∧ opens o1 o2 st1 ToyHpke.hello true None h2.
Proof.
  pose proof (is_ok_run (ToyHpke.hellos 5)) as Hrun.
  destruct Hrun as (w' & [[[st st1] h1] h2] & Hrun); [by vm_compute|]. exists w', st, st1, h1, h2.
  pose proof (toy_hellos _ _ _ _ _ _ Hrun) as (w1 & w2 & st2 & Hn & He1 & He2).
  pose proof (ech_hello_opens ToyHpke.suite ToyHpke.config ToyHpke.contents ToyHpke.sk ToyHpke.name false true
    1 2 5 w1 st ToyHpke.hello None w1 w2 st1 h1 toy_suite_supported eq_refl eq_refl eq_refl Hn He1) as Hopen.
  destruct Hopen as (o & o1 & Ho & Ho1 & Hnext).
  assert (same_suite st1 st1) as Hsame by (split_and!; reflexivity).
  specialize (Hnext st1 ToyHpke.hello None w2 w' st2 h2 Hsame He2) as [o2 Ho2].
  exists o, o1, o2. exact (conj Hrun (conj Ho (conj Ho1 Ho2))).
Defined.
