(* ===== verification/ClientRun.v ===== *)
(** * Whole handshakes of a TLS 1.3 client

    From the first ClientHello ([ClientHs.start_handshake]) to application traffic: what
    the ServerHello may choose, and that the peer of a finished handshake is the one that
    was asked for. *)
From stdpp Require Import gmap.
From S2P Require Import Prelude Enums Errors Codec Records Extensions Payloads ServerHello ClientHello.
From S2P Require Import Messages Cipher Send Receive Connection Hkdf KeySchedule Sessions Compress Verify Kx.
From S2P Require Import QuicKeys Transcript Traffic Outputs ClientConfig Ech ClientHs13 ClientHs ClientAuth.
From S2P Require Import Handlers ToyProvider.

Section negotiation.
Context `{ClientWorld} `{!HpkeSealer} `{!ClientHandler12}.
Notation chs := (hs ClientSide.t).

Notation config_of st := (ClientHelloInput.config (ExpectServerHello.input st)).
Notation key_of st := (ClientHelloInput.session_key (ExpectServerHello.input st)).
Notation hello_of st := (ClientHelloInput.hello (ExpectServerHello.input st)).

(** What a client that sent the hello of [st] took from the ServerHello [sh]. *)
Record negotiated (st : ExpectServerHello.t) (sh : ServerHelloPayload.t)
    (ee : ExpectEncryptedExtensions) : Prop := {
  neg_version : server_version sh = ProtocolVersion.TLSv1_3;
  neg_config : HandshakeState.config (ee_hs ee) = config_of st;
  neg_suite : ServerHelloPayload.cipher_suite sh ∈ ClientHelloDetails.offered_cipher_suites (hello_of st)
    ∧ Tls13ProtocolSuite.suite (ee_suite ee)
        ∈ CryptoProvider.tls13_cipher_suites (ClientConfig.provider (config_of st))
    ∧ CipherSuiteCommon.suite (Tls13CipherSuite.common (Tls13ProtocolSuite.suite (ee_suite ee)))
      = ServerHelloPayload.cipher_suite sh;
  neg_retry_suite : ∀ prev, ExpectServerHello.suite st = Some prev →
    SupportedCipherSuite.suite prev = ServerHelloPayload.cipher_suite sh;
  neg_retry_version : ExpectServerHello.done_retry st = true →
    ServerExtensions.selected_version (ServerHelloPayload.extensions sh) = Some ProtocolVersion.TLSv1_3;
  neg_session_id : SessionId.eq (ServerHelloPayload.session_id sh)
    (ClientHelloInput.session_id (ExpectServerHello.input st)) = true;
  neg_compression : ServerHelloPayload.compression_method sh = Compression.Null;
  neg_extensions : ∀ e, e ∈ received_types (ServerHelloPayload.extensions sh) →
    (e ∈ ClientHelloDetails.sent_extensions (hello_of st) ∨ e = ExtensionType.RenegotiationInfo)
    ∧ (is_recognized e = true → e ∈ ALLOWED_PLAINTEXT_EXTS);
  neg_share : ∃ share offered,
    ServerExtensions.key_share (ServerHelloPayload.extensions sh) = Some share
    ∧ ExpectServerHello.offered_key_share st = Some offered
    ∧ KeyShareEntry.group share ∈ KeyShareEntry.group
        <$> offered_shares (config_of st) None (GroupAndKeyShare.share offered);
  neg_resumption : ∀ session, ee_resuming_session ee = Some session →
    ServerExtensions.preshared_key (ServerHelloPayload.extensions sh) = Some 0%Z
    ∧ resuming13 (ClientHelloInput.resuming (ExpectServerHello.input st)) = Some session
    ∧ is_Some (ExpectServerHello.early_data_key_schedule st);
  neg_early_data : ee_in_early_traffic ee = true → is_Some (ee_resuming_session ee);
  neg_name : ee_ech_status ee ≠ EchStatus.Rejected →
    ClientSessionKey.server_name (HandshakeState.session_key (ee_hs ee))
    = ClientSessionKey.server_name (key_of st);
}.

Lemma choice_ok config ours theirs (out out' : Out ClientSide.t) c :
  KeyExchangeChoice.new config ours theirs out = (out', Ok (Some c)) →
  KeyShareEntry.group theirs ∈ KeyShareEntry.group
    <$> offered_shares config None (GroupAndKeyShare.share ours).
Proof.
  unfold KeyExchangeChoice.new, offered_shares. cbn [mbind option_bind].
  rewrite (bool_decide_eq_false_2 (is_Some None)) by by intros [? [=]].
  case_decide as Hg; [intros _; rewrite fmap_cons; rewrite <- Hg; by left|].
  destruct (SupportedKxGroup.as_hybrid_checked _ _ _) as [[hybrid g]|]; [|done].
  destruct (HybridKeyExchange.component hybrid) as [cg cs]. cbn [fst].
  case_decide as Hc; [done|]. intros _. rewrite fmap_cons. right.
  cbn. rewrite <- Hc. by left.
Qed.

Lemma choose_psk_ok suite sh early session (out out' : Out ClientSide.t) ks b r :
  choose_psk suite sh early session out = (out', Ok (ks, b, r)) →
  (∀ s, r = Some s → ServerExtensions.preshared_key (ServerHelloPayload.extensions sh) = Some 0%Z
     ∧ session = Some s ∧ is_Some early)
  ∧ (b = true → is_Some r).
Proof.
  unfold choose_psk. intros Hc.
  destruct (ServerExtensions.preshared_key _) as [psk|], early as [[early b']|];
    try (bind_inv; split; [by intros ? [=]|done]); [].
  destruct session as [s|]; [|done]. destruct (Tls13CipherSuite.can_resume_from _ _); [|done]. bind_inv.
  match goal with H : bool_decide (psk ≠ 0%Z) = false |- _ =>
    apply bool_decide_eq_false, dec_stable in H as -> end.
  split; [by intros ? [= <-]|done].
Qed.

Lemma check_ech_ok ech_state status ks sh m hash tr rs hello key (out out' : Out ClientSide.t)
    status' tr' rs' hello' key' :
  check_ech ech_state status ks sh m hash tr rs hello key out
    = (out', Ok (status', tr', rs', hello', key')) →
  status' ≠ EchStatus.Rejected → ClientSessionKey.server_name key' = ClientSessionKey.server_name key.
Proof.
  unfold check_ech. intros Hc Hs. destruct ech_state as [ech|]; [|by bind_inv].
  destruct (Message.payload m); try done.
  apply action_bind_ok in Hc as (? & [name [acc|]] & Hconf & Hc); cbn in Hc; bind_inv; [|done].
  revert Hconf. unfold EchState.confirm_acceptance. case_decide; [done|]. intros Hconf. bind_inv.
  repeat case_decide; simplify_eq; done.
Qed.

Lemma handle_server_hello_ok suite sh input st (out out' : Out ClientSide.t) ee :
  handle_server_hello suite sh input st out = (out', Ok ee) →
  HandshakeState.config (ee_hs ee) = config_of st
  ∧ Tls13ProtocolSuite.suite (ee_suite ee) = suite
  ∧ SessionId.eq (ServerHelloPayload.session_id sh)
      (ClientHelloInput.session_id (ExpectServerHello.input st)) = true
  ∧ (∀ e, e ∈ received_types (ServerHelloPayload.extensions sh) → is_recognized e = true →
       e ∈ ALLOWED_PLAINTEXT_EXTS)
  ∧ (∃ share offered, ServerExtensions.key_share (ServerHelloPayload.extensions sh) = Some share
       ∧ ExpectServerHello.offered_key_share st = Some offered
       ∧ KeyShareEntry.group share ∈ KeyShareEntry.group
           <$> offered_shares (config_of st) None (GroupAndKeyShare.share offered))
  ∧ (∀ s, ee_resuming_session ee = Some s →
       ServerExtensions.preshared_key (ServerHelloPayload.extensions sh) = Some 0%Z
       ∧ resuming13 (ClientHelloInput.resuming (ExpectServerHello.input st)) = Some s
       ∧ is_Some (ExpectServerHello.early_data_key_schedule st))
  ∧ (ee_in_early_traffic ee = true → is_Some (ee_resuming_session ee))
  ∧ (ee_ech_status ee ≠ EchStatus.Rejected →
       ClientSessionKey.server_name (HandshakeState.session_key (ee_hs ee))
       = ClientSessionKey.server_name (key_of st)).
Proof.
  unfold handle_server_hello. intros Hh. handler_inv.
  repeat match goal with
  | H : protocol_suite _ _ = Ok _ |- _ => apply protocol_suite_ok in H
  | H : choose_psk _ _ _ _ _ = _ |- _ => apply choose_psk_ok in H as [? ?]
  | H : KeyExchangeChoice.new _ _ _ _ = _ |- _ => apply choice_ok in H
  | H : unwrap ?o = Ok _ |- _ => destruct o eqn:?; [injection H as <-|done]
  | H : negb _ = false |- _ => apply negb_false_iff in H
  end.
  cbn [ee_hs ee_suite ee_resuming_session ee_in_early_traffic ee_ech_status HandshakeState.config
    HandshakeState.session_key].
  split_and!; try done; eauto using check_ech_ok.
  intros e He Hr. match goal with H : existsb _ _ = false |- _ =>
    rewrite <- not_true_iff_false, existsb_exists in H; rename H into Hx end.
  apply dec_stable. intros Hn. apply Hx. exists e.
  by rewrite <- list_elem_of_In, Hr, bool_decide_eq_true_2.
Qed.

Lemma unsolicited_ok hello received allowed e :
  ClientHelloDetails.server_sent_unsolicited_extensions hello received allowed = false →
  e ∈ received → e ∈ ClientHelloDetails.sent_extensions hello ∨ e ∈ allowed.
Proof.
  unfold ClientHelloDetails.server_sent_unsolicited_extensions.
  rewrite <- not_true_iff_false, existsb_exists. intros Hx He.
  destruct (decide (e ∈ ClientHelloDetails.sent_extensions hello)) as [|Hs]; [by left|].
  destruct (decide (e ∈ allowed)) as [|Ha]; [by right|]. destruct Hx. exists e.
  by rewrite <- list_elem_of_In, !bool_decide_eq_true_2.
Qed.

Lemma handle_sh_negotiated st input (out out' : Out ClientSide.t) st13 :
  handle_sh st input out = (out', Ok (Tls13 st13)) →
  ∃ sh ee, input_payload input = Some (HandshakePayload.ServerHello sh)
    ∧ st13 = EncryptedExtensions ee ∧ negotiated st sh ee.
Proof.
  unfold handle_sh. intros Hh. bind_inv.
  match goal with H : match ?p with _ => _ end = Some _ |- _ => destruct p; simplify_eq end.
  match type of Hh with (if ?c then _ else _) _ = _ => destruct c eqn:Hv end;
    [|match type of Hh with (if ?c then _ else _) _ = _ => destruct c end;
      [unfold with_tls12, with_version in Hh; handler_inv|]; discriminate].
  apply andb_prop in Hv as [Hv%bool_decide_eq_true Hsup].
  unfold with_tls13, with_version in Hh. handler_inv.
  match goal with H : (if decide ?P then _ else _) = Some ?s |- _ =>
    destruct (decide P) as [Hoff|]; [apply list_find_elem in H as [Hprov Hid]|done] end.
  match goal with H : handle_server_hello _ _ _ _ _ = _ |- _ =>
    apply handle_server_hello_ok in H as (? & Hsu & ? & Hall & ? & ? & ? & ?) end.
  match goal with H : ClientHelloDetails.server_sent_unsolicited_extensions _ _ _ = false |- _ =>
    pose proof (λ e, unsolicited_ok _ _ _ e H) as Huns end.
  eexists _, _. split_and!; [done|done|]. split; try done.
  - rewrite Hsu. done.
  - intros prev Hp. match goal with H : from_option _ _ _ = false |- _ => rewrite Hp in H; cbn in H;
      apply bool_decide_eq_false, dec_stable in H as -> end. done.
  - intros Hd. match goal with H : _ && bool_decide (_ ≠ Some _) = false |- _ =>
      rewrite Hd in H; by apply bool_decide_eq_false, dec_stable in H end.
  - match goal with H : bool_decide (_ ≠ Compression.Null) = false |- _ =>
      by apply bool_decide_eq_false, dec_stable in H end.
  - intros e He. split; [|auto]. destruct (Huns e He) as [?|Ha]; [by left|].
    right. by apply list_elem_of_singleton in Ha.
Qed.

(** ** Retries *)

(** [next] continues the handshake of [input]. *)
Definition continues (input : ClientHelloInput.t) (next : ExpectServerHello.t) : Prop :=
  config_of next = ClientHelloInput.config input ∧ key_of next = ClientHelloInput.session_key input.

Lemma emit_hello_ok tb retryreq share extra suite input ech status (out out' : Out ClientSide.t) st :
  emit_client_hello_for_retry tb retryreq share extra suite input ech status out = (out', Ok st) →
  ∃ next, continues input next ∧ ExpectServerHello.suite next = suite
    ∧ ExpectServerHello.done_retry next = bool_decide (is_Some retryreq)
    ∧ (st = ServerHello next ∨ st = ServerHelloOrHelloRetryRequest next extra ∧ retryreq = None).
Proof.
  unfold emit_client_hello_for_retry. intros He. handler_inv.
  match goal with |- context [if ?c then ServerHelloOrHelloRetryRequest _ _ else _] =>
    destruct c eqn:Hr end.
  - apply andb_prop in Hr as [_ Hr%negb_true_iff]. apply bool_decide_eq_false in Hr.
    assert (retryreq = None) as -> by by destruct retryreq; [destruct Hr|].
    eexists (ExpectServerHello.mk _ _ _ _ _ _ _ _). split_and!; [..|right; by split]; done.
  - eexists (ExpectServerHello.mk _ _ _ _ _ _ _ _). split_and!; [..|by left]; done.
Qed.

Lemma retry_ok next extra input (out out' : Out ClientSide.t) st :
  handle_hello_retry_request next extra input out = (out', Ok st) →
  ∃ hrr next' cs, input_payload input = Some (HandshakePayload.HelloRetryRequest hrr)
    ∧ st = ServerHello next' ∧ continues (ExpectServerHello.input next) next'
    ∧ ExpectServerHello.done_retry next' = true
    ∧ ExpectServerHello.suite next' = Some cs
    ∧ SupportedCipherSuite.suite cs = HelloRetryRequest.cipher_suite hrr.
Proof.
  unfold handle_hello_retry_request. intros Hh. handler_inv.
  match goal with H : match ?p with _ => _ end = Some _ |- _ => destruct p; simplify_eq end.
  match goal with H : ClientConfig.find_cipher_suite _ _ = Some _ |- _ =>
    apply list_find_elem in H as [_ Hcs] end.
  match goal with H : emit_client_hello_for_retry _ _ _ _ _ _ _ _ _ = _ |- _ =>
    apply emit_hello_ok in H as (next' & Hc & Hs & Hd & [->|[_ [=]]]) end.
  eexists _, next', _. by split_and!.
Qed.

(** ** Runs *)

Fixpoint client_run (st : ClientState) (ins : list Input.t) : chs ClientState :=
  match ins with
  | [] => mret st
  | i :: ins =>
      st ← handle_client st i;
      st ← client_without_input st;
      client_run st ins
  end.

Lemma run_tls12 st ins (out out' : Out ClientSide.t) st' :
  client_run (Tls12 st) ins out = (out', Ok st') → ∃ st12, st' = Tls12 st12.
Proof.
  revert st out. induction ins as [|i ins IH]; intros st out Hr; cbn in Hr; bind_inv; [eauto|].
  cbn [client_without_input] in *. bind_inv. by eapply IH.
Qed.

Lemma run_tls13 st ins (out out' : Out ClientSide.t) st' :
  client_run (Tls13 st) ins out = (out', Ok st') →
  ∃ st13, st' = Tls13 st13 ∧ run13 st ins out = (out', Ok st13).
Proof.
  revert st out. induction ins as [|i ins IH]; intros st out Hr; cbn in Hr; bind_inv; [eauto|].
  cbn [client_without_input] in *. bind_inv.
  match goal with H : client_run _ _ _ = _ |- _ => apply IH in H as (st13 & -> & Hrun) end.
  exists st13. split; [done|]. cbn [run13]. unfold mbind, action_bind.
  repeat match goal with H : _ = (_, Ok _) |- _ => rewrite H; clear H end. done.
Qed.

Lemma with_version_ok {T} version (suites : list T) supported handler st sh input
    (out out' : Out ClientSide.t) st' :
  with_version version suites supported handler st sh input out = (out', Ok st') →
  ∃ suite self out1, handler suite sh input self out1 = (out', Ok st').
Proof. unfold with_version. intros Hw. bind_inv. eauto. Qed.

Lemma handle_sh_decides st input (out out' : Out ClientSide.t) st' :
  handle_sh st input out = (out', Ok st') → (∃ st12, st' = Tls12 st12) ∨ ∃ st13, st' = Tls13 st13.
Proof.
  unfold handle_sh. intros Hh. bind_inv.
  match type of Hh with (if ?c then _ else _) _ = _ => destruct c end;
    [|match type of Hh with (if ?c then _ else _) _ = _ => destruct c end; [bind_inv|done]];
    apply with_version_ok in Hh as (? & ? & ? & Hh); bind_inv; eauto.
Qed.

Lemma run_server_hello st ins (out out' : Out ClientSide.t) st13 id :
  client_run (ServerHello st) ins out = (out', Ok (Tls13 st13)) → peer_of st13 = Some id →
  ∃ i flight rest sh ee, ins = i :: flight ++ rest
    ∧ input_payload i = Some (HandshakePayload.ServerHello sh)
    ∧ negotiated st sh ee ∧ ee_ech_status ee ≠ EchStatus.Rejected ∧ authenticated ee flight id.
Proof.
  destruct ins as [|i ins]; intros Hr Hp; cbn in Hr; bind_inv; [discriminate|].
  match goal with H : handle_sh st i _ = _ |- _ =>
    rename H into Hh; destruct (handle_sh_decides _ _ _ _ _ Hh) as [[st12 ->]|[st0 ->]] end.
  - cbn in *. bind_inv. by match goal with H : client_run (Tls12 _) _ _ = _ |- _ => apply run_tls12 in H as [? [=]] end.
  - apply handle_sh_negotiated in Hh as (sh & ee & Hi & -> & Hn). cbn in *. bind_inv.
    match goal with H : client_run (Tls13 _) _ _ = _ |- _ => apply run_tls13 in H as (? & [= <-] & Hrun) end.
    apply (run13_knows ee ins []) in Hrun; [|done]. cbn [app] in Hrun.
    apply knows_peer with (id := id) in Hrun as (He & flight & rest & -> & Ha); [|done].
    exists i, flight, rest, sh, ee. done.
Qed.

(** At most one HelloRetryRequest, whose choice of suite binds. *)
Inductive retried : list Input.t → ExpectServerHello.t → Prop :=
| not_retried next : retried [] next
| retried_once r hrr cs next :
    input_payload r = Some (HandshakePayload.HelloRetryRequest hrr) →
    ExpectServerHello.done_retry next = true →
    ExpectServerHello.suite next = Some cs →
    SupportedCipherSuite.suite cs = HelloRetryRequest.cipher_suite hrr →
    retried [r] next.


(** The client takes the component of a hybrid for its share even if a HelloRetryRequest
    asked for the hybrid group, so that the second hello had a share of that alone. *)
Lemma unsent_component_accepted config hrr offered hybrid g theirs (out : Out ClientSide.t) :
  GroupAndKeyShare.share offered = StartedKeyExchange.Hybrid hybrid →
  SupportedKxGroup.as_hybrid_checked (StartedKeyExchange.Hybrid hybrid)
    (CryptoProvider.kx_groups (ClientConfig.provider config)) ProtocolVersion.TLSv1_3 = Some (hybrid, g) →
  is_Some (HelloRetryRequestExtensions.key_share (HelloRetryRequest.extensions hrr)) →
  (HybridKeyExchange.component hybrid).1
    ≠ ActiveKeyExchange.group (HybridKeyExchange.into_key_exchange hybrid) →
  KeyShareEntry.group theirs = (HybridKeyExchange.component hybrid).1 →
  KeyShareEntry.group theirs ∉ KeyShareEntry.group
    <$> offered_shares config (Some hrr) (GroupAndKeyShare.share offered)
  ∧ KeyExchangeChoice.new config offered theirs out
    = ((_ ← output (OutputEvent.KeyExchangeGroup g);
        mret (Some (KeyExchangeChoice.Component hybrid))) : chs (option KeyExchangeChoice.t)) out.
Proof.
  intros Hs Hc [group Hg] Hne Ht. split.
  - rewrite Hs. unfold offered_shares. cbn [mbind option_bind]. rewrite Hg.
    rewrite bool_decide_eq_true_2 by done. cbn. rewrite Ht. by intros ?%list_elem_of_singleton.
  - unfold KeyExchangeChoice.new. rewrite Hs. cbn [StartedKeyExchange.into_single].
    rewrite decide_False by congruence. by rewrite Hc, decide_False by (rewrite Ht; auto).
Qed.
End negotiation.

(** ** A run *)

Module ToyRun.
Import ToyClient.

#[global] Instance no_tls12 : ClientHandler12 := {|
  state12 := Empty_set;
  machine12 := {|
    Connection.handle (st : Empty_set) _ := match st with end;
    Connection.wants_input (st : Empty_set) := match st with end;
    Connection.handle_without_input (st : Empty_set) := match st with end;
    Connection.is_traffic (st : Empty_set) := match st with end;
    Connection.handle_decrypt_error (st : Empty_set) := match st with end;
  |};
  handle_server_hello12 suite _ _ _ := match (Tls12CipherSuite.prf_provider suite : Empty_set) with end;
|}.

Definition extra : ClientExtensionsInput.t := ClientExtensionsInput.mk None None.
Definition input : ClientHelloInput.t :=
  ClientHelloInput.mk config None (Random.new (replicate 32 x01)) false (ClientHelloDetails.new [] 5)
    Protocol.Tcp (SessionId.mk (replicate 32 x2a) 32) (ClientSessionKey.mk [] name) None.
Definition started := start_handshake input extra out.

Definition message (p : HandshakePayload.t) : Input.t :=
  Input.mk (Message.mk (EncodableVersion.Legacy ProtocolVersion.TLSv1_3)
    (MessagePayload.handshake (HandshakeMessagePayload.mk p))) true.

Definition server_hello : Input.t :=
  message (HandshakePayload.ServerHello (ServerHelloPayload.mk ProtocolVersion.TLSv1_2
    (Random.new (replicate 32 x02)) (SessionId.mk (replicate 32 x2a) 32)
    CipherSuite.TLS13_AES_128_GCM_SHA256 Compression.Null
    (ServerExtensions.mk None None None None None (Some (KeyShareEntry.new NamedGroup.X25519 [x33]))
       None None None None None (Some ProtocolVersion.TLSv1_3) None None None None ∅))).
Definition extensions : Input.t :=
  message (HandshakePayload.EncryptedExtensions
    (EncryptedExtensions.mk None None None None None None None None ∅)).
Definition certificates : Input.t :=
  message (HandshakePayload.CertificateTls13 (CertificatePayloadTls13.new [certificate] None)).

(** What an honest server derives from the hellos. *)
Definition after_hellos : option ExpectEncryptedExtensions :=
  match started with
  | (out, Ok st) =>
      match (client_run st [server_hello] out).2 with
      | Ok (Tls13 (EncryptedExtensions ee)) => Some ee
      | _ => None
      end
  | _ => None
  end.
Definition hashed (ins : list Input.t) : list u8 :=
  from_option (λ ee, hash_of (ee_hs ee) ins) [] after_hellos.
Definition verify : Input.t :=
  message (HandshakePayload.CertificateVerify (DigitallySignedStruct.mk SignatureScheme.ED25519
    (mkSizedPayload (x2b :: replicate 64 x20 ++ SERVER_CONSTANT ++ hashed [extensions; certificates])))).
Definition finished : Input.t :=
  message (HandshakePayload.Finished
    (match after_hellos with
     | Some ee =>
         match KeyScheduleHandshake.sign_server_finish (HandshakeState.key_schedule (ee_hs ee))
                 (hashed [extensions; certificates; verify]) with
         | Ok verify_data => verify_data
         | _ => []
         end
     | None => []
     end)).

Definition inputs : list Input.t := [server_hello; extensions; certificates; verify; finished].
Definition peer : Identity.t := Identity.X509 (CertificateIdentity.mk certificate []).
Definition peer_at_end : option Identity.t :=
  match started with
  | (out, Ok st) =>
      match (client_run st inputs out).2 with Ok (Tls13 st) => peer_of st | _ => None end
  | _ => None
  end.
End ToyRun.

Lemma toy_run : ∃ out0 st0 out' st,
  ToyRun.started = (out0, Ok st0) ∧ client_run st0 ToyRun.inputs out0 = (out', Ok (Tls13 st))
  ∧ peer_of st = Some ToyRun.peer.
Proof.
  assert (ToyRun.peer_at_end = Some ToyRun.peer) as Hr by by vm_compute.
  unfold ToyRun.peer_at_end in Hr. destruct ToyRun.started as [out0 [st0| |]]; [|done..].
  destruct (client_run st0 ToyRun.inputs out0) as [out' [st| |]] eqn:Hc; [|done..].
  destruct st; [done..|]. eauto 10.
Qed.

