(* ===== verification/ClientAuth12.v ===== *)
(** * Authentication of the server by a TLS 1.2 client

    A client of [ClientHs12] that reaches application traffic has been sent the messages of
    the server's flights, in order and each once; its verifier accepted the certificates for
    the name that was asked for; the key of that identity signed the parameters of the key
    exchange together with both randoms; and the Finished message is the MAC of all the
    messages of both sides, under the secret that the exchange gave.  Or else a session was
    resumed, and Finished shows that the server knows its secret. *)
From stdpp Require Import gmap.
From S2P Require Import Prelude Enums Errors Codec Records Extensions Payloads ServerHello ClientHello.
From S2P Require Import Messages Cipher Send Receive Connection Hkdf KeySchedule Sessions Compress Verify Kx.
From S2P Require Import QuicKeys Transcript Traffic Outputs ClientConfig Ech ClientHs13 ClientHs Tls12Secrets.
From S2P Require Import Handlers ClientHs12 ClientRun.
Import Client12.

(** ** What the server has to send *)

Section spec.
Context `{Tls12Provider} `{!ClientWorld}.

(** The handshake after the ServerHello. *)
Record Greeting := mk_greeting {
  g_hs : HandshakeState;
  g_randoms : ConnectionRandoms.t;
  g_suite : Tls12CipherSuite.t prf12 aead12;
  g_may_send_cert_status : bool;
  g_must_issue_new_ticket : bool;
  g_session : option session12;
}.
Implicit Types (g : Greeting).

(** Certificates, and the status of the first if it was announced. *)
Inductive certificates g (chain : CertificateChain.t) : list u8 → list Input.t → Prop :=
| certificates_only i : input_payload i = Some (HandshakePayload.Certificate chain) →
    certificates g chain [] [i]
| certificates_status i j status : g_may_send_cert_status g = true →
    input_payload i = Some (HandshakePayload.Certificate chain) →
    input_payload j = Some (HandshakePayload.CertificateStatus status) →
    certificates g chain (CertificateStatus.into_inner status) [i; j].

(** Then the parameters of the key exchange ... *)
Inductive parameters g chain ocsp (kx : ServerKeyExchange.t) : list Input.t → Prop :=
| parameters_of ins i opaque : certificates g chain ocsp ins →
    input_payload i = Some (HandshakePayload.ServerKeyExchange opaque) →
    ServerKeyExchangePayload.unwrap_given_kxa opaque (Tls12CipherSuite.kx (g_suite g)) = Some kx →
    parameters g chain ocsp kx (ins ++ [i]).

(** ... perhaps a request for certificates, and the end of the flight. *)
Inductive requested g chain ocsp kx : list Input.t → Prop :=
| not_requested ins : parameters g chain ocsp kx ins → requested g chain ocsp kx ins
| requested_by ins i req : parameters g chain ocsp kx ins →
    input_payload i = Some (HandshakePayload.CertificateRequest req) →
    requested g chain ocsp kx (ins ++ [i]).
Inductive server_flight g chain ocsp kx : list Input.t → Prop :=
| server_flight_done ins i : requested g chain ocsp kx ins →
    input_payload i = Some HandshakePayload.ServerHelloDone → Input.aligned_handshake i = true →
    server_flight g chain ocsp kx (ins ++ [i]).

(** The verifier accepts the certificates as those of [id] ... *)
Definition vouched12 g (chain : CertificateChain.t) (ocsp : list u8) (id : Identity.t) : Prop :=
  ∃ presented now,
    Identity.from_peer (CertificateChain.inner chain) CertificateType.X509 = Ok (Some presented)
    ∧ ServerVerifier.verify_identity (ClientConfig.verifier (config (g_hs g)))
        (ServerIdentity.mk presented (ClientSessionKey.server_name (session_key (g_hs g))) ocsp now) = Ok id.

(** ... whose key signed the parameters and both randoms. *)
Definition signed12 g (kx : ServerKeyExchange.t) (id : Identity.t) : Prop :=
  usable_for_signature_scheme12 (g_suite g) (DigitallySignedStruct.scheme (ServerKeyExchange.dss kx)) = true
  ∧ ServerVerifier.verify_tls12_signature (ClientConfig.verifier (config (g_hs g)))
      (SignatureVerificationInput.mk
         (ConnectionRandoms.client (g_randoms g) ++ ConnectionRandoms.server (g_randoms g)
          ++ ServerKeyExchangeParams.encode (ServerKeyExchange.params kx) [])
         (as_signer id) (ServerKeyExchange.dss kx)) = Ok tt.

(** What the client answers: its certificates, if they were asked for, its share of the key
    exchange, a proof, and Finished. *)
Inductive upto_kx (k : Message.t) : list Message.t → Prop :=
| upto_kx_only : upto_kx k [k]
| upto_kx_cert chain : upto_kx k [message12 (HandshakePayload.Certificate chain); k].
Inductive client_proof : list Message.t → Prop :=
| no_proof : client_proof []
| proof_by dss : client_proof [message12 (HandshakePayload.CertificateVerify dss)].
Definition client_finished (secrets : ConnectionSecrets.t) (tr0 : HandshakeHash.t) (ms : list Message.t)
    : Message.t :=
  message12 (HandshakePayload.Finished (ConnectionSecrets.client_verify_data secrets (hash_with tr0 ms))).

(** The secrets of the connection, after the messages [ins] of the server and all the
    messages [ms] of both sides, with the peer [id]. *)
Inductive agreed g : list Input.t → list Message.t → ConnectionSecrets.t → Identity.t → Prop :=
| agreed_full chain ocsp kx id group w w' started before proof ins secrets :
    g_session g = None →
    server_flight g chain ocsp kx ins →
    vouched12 g chain ocsp id →
    signed12 g kx id →
    find_group (config (g_hs g)) (ServerKeyExchange.params kx) = Ok group →
    SupportedKxGroup.start group w = (w', Ok started) →
    upto_kx (client_kx_message (Tls12CipherSuite.kx (g_suite g))
               (ActiveKeyExchange.pub_key (StartedKeyExchange.into_single started))) before →
    ConnectionSecrets.from_key_exchange (StartedKeyExchange.into_single started)
      (ServerKeyExchangeParams.pub_key (ServerKeyExchange.params kx))
      (if using_ems (g_hs g) then Some (hash_with (transcript (g_hs g)) (messages ins ++ before)) else None)
      (g_randoms g) (g_suite g) = Ok secrets →
    client_proof proof →
    agreed g ins ((messages ins ++ before ++ proof)
      ++ [client_finished secrets (transcript (g_hs g)) (messages ins ++ before ++ proof)]) secrets id
| agreed_resumed session :
    g_session g = Some session →
    agreed g [] [] (ConnectionSecrets.new_resume (g_randoms g) (g_suite g) (Tls12Session.master_secret session))
      (ClientSessionCommon.peer_identity (Tls12Session.common session)).

(** A new ticket, if it was announced. *)
Inductive ticketed g : list Input.t → Prop :=
| ticketed_none : g_must_issue_new_ticket g = false → ticketed g []
| ticketed_by i nst : g_must_issue_new_ticket g = true →
    input_payload i = Some (HandshakePayload.NewSessionTicket nst) → ticketed g [i].

(** The whole handshake: its last message is the MAC of all the others. *)
Inductive established g : list Input.t → Identity.t → Prop :=
| established_by ins ms secrets id ticket ccs i :
    agreed g ins ms secrets id →
    ticketed g ticket →
    is_ccs ccs →
    input_payload i = Some (HandshakePayload.Finished
      (ConnectionSecrets.server_verify_data secrets
         (hash_with (transcript (g_hs g)) (ms ++ messages ticket)))) →
    Input.aligned_handshake i = true →
    established g (ins ++ ticket ++ [ccs; i]) id.

(** A run: each message, then what the state does without input. *)
Fixpoint run12 (st : State) (ins : list Input.t) : hs ClientSide.t State :=
  match ins with
  | [] => mret st
  | i :: ins =>
      st ← handle st i;
      st ← handle_without_input st;
      run12 st ins
  end.
End spec.

(** ** What each state knows *)


Section steps.
Context `{Tls12Provider} `{!ClientWorld}.
Notation chs := (hs ClientSide.t).
Implicit Types (g : Greeting).

(** The handshake [g] with the messages [ms]. *)
Record follows12 g (ms : list Message.t) (hs : HandshakeState) : Prop := {
  follows12_config : config hs = config (g_hs g);
  follows12_key : session_key hs = session_key (g_hs g);
  follows12_ems : using_ems hs = using_ems (g_hs g);
  follows12_transcript : extends (transcript (g_hs g)) ms (transcript hs);
}.

Lemma follows12_nil g : follows12 g [] (g_hs g).
Proof. by split. Qed.

Lemma follows12_add g ins hs i :
  follows12 g (messages ins) hs → follows12 g (messages (ins ++ [i])) (add_message (Input.message i) hs).
Proof.
  intros [? ? ? ?]. split; [done..|]. unfold messages. rewrite fmap_app. cbn. by apply extends_add.
Qed.

(** The parts that the states of a full handshake carry along. *)
Definition on_course g (ins : list Input.t) (hs : HandshakeState) (randoms : ConnectionRandoms.t)
    (suite : Tls12CipherSuite.t prf12 aead12) (ticket : bool) : Prop :=
  g_session g = None ∧ follows12 g (messages ins) hs ∧ randoms = g_randoms g ∧ suite = g_suite g
  ∧ ticket = g_must_issue_new_ticket g.

Definition has_kx (kx : ServerKeyExchange.t) (details : ServerKxDetails) : Prop :=
  details = mk_kx (ServerKeyExchangeParams.encode (ServerKeyExchange.params kx) []) (ServerKeyExchange.dss kx).

Definition knows12 g (ins : list Input.t) (st : State) (peer : option Identity.t) : Prop :=
  match st with
  | Certificate st =>
      ins = [] ∧ on_course g [] (cert_hs st) (cert_randoms st) (cert_suite st) (cert_must_issue_new_ticket st)
      ∧ cert_may_send_cert_status st = g_may_send_cert_status g
  | CertificateStatusOrServerKx st =>
      g_may_send_cert_status g = true
      ∧ on_course g ins (status_hs st) (status_randoms st) (status_suite st) (status_must_issue_new_ticket st)
      ∧ ∃ i, ins = [i] ∧ input_payload i = Some (HandshakePayload.Certificate (status_server_cert_chain st))
  | ServerKx st =>
      on_course g ins (skx_hs st) (skx_randoms st) (skx_suite st) (skx_must_issue_new_ticket st)
      ∧ certificates g (ServerCertDetails.cert_chain (skx_server_cert st))
          (ServerCertDetails.ocsp_response (skx_server_cert st)) ins
  | ServerDoneOrCertReq st =>
      on_course g ins (docr_hs st) (docr_randoms st) (docr_suite st) (docr_must_issue_new_ticket st)
      ∧ ∃ kx, has_kx kx (docr_server_kx st)
        ∧ parameters g (ServerCertDetails.cert_chain (docr_server_cert st))
            (ServerCertDetails.ocsp_response (docr_server_cert st)) kx ins
  | ServerDone st =>
      on_course g ins (done_hs st) (done_randoms st) (done_suite st) (done_must_issue_new_ticket st)
      ∧ ∃ kx, has_kx kx (done_server_kx st)
        ∧ requested g (ServerCertDetails.cert_chain (done_server_cert st))
            (ServerCertDetails.ocsp_response (done_server_cert st)) kx ins
  | VerifyServerIdentity st =>
      on_course g ins (aw_hs st) (aw_randoms st) (aw_suite st) (aw_must_issue_new_ticket st)
      ∧ ∃ kx chain, has_kx kx (aw_server_kx st)
        ∧ server_flight g chain (aw_ocsp_response st) kx ins
        ∧ Identity.from_peer (CertificateChain.inner chain) CertificateType.X509
          = Ok (Some (aw_peer_identity st))
  | NewTicket st =>
      g_must_issue_new_ticket g = true
      ∧ ∃ ms, follows12 g ms (nst_hs st) ∧ agreed g ins ms (nst_secrets st) (nst_peer_identity st)
  | Ccs st =>
      ∃ pre ms ticket, ins = pre ++ ticket ∧ follows12 g (ms ++ messages ticket) (ccs_hs st)
        ∧ agreed g pre ms (ccs_secrets st) (ccs_peer_identity st) ∧ ticketed g ticket
  | Finished st =>
      ∃ pre ms ticket ccs, ins = pre ++ ticket ++ [ccs] ∧ is_ccs ccs
        ∧ follows12 g (ms ++ messages ticket) (fin_hs st)
        ∧ agreed g pre ms (fin_secrets st) (fin_peer_identity st) ∧ ticketed g ticket
  | Traffic _ =>
      ∃ flight rest id, ins = flight ++ rest ∧ established g flight id ∧ peer = Some id
  end.

Lemma handle_cert_knows12 g ins i st st' peer :
  knows12 g ins (Certificate st) peer → handle_cert st (Input.message i) = Ok st' → knows12 g (ins ++ [i]) st' peer.
Proof.
  intros (-> & (? & Hf & ? & ? & ?) & Hs) He. unfold handle_cert in He. bind_inv. payload_inv.
  assert (follows12 g (messages ([] ++ [i])) (add_message (Input.message i) (cert_hs st))) as Hf'
    by by apply follows12_add.
  destruct (cert_may_send_cert_status st) eqn:Hm.
  - split; [by rewrite <-Hs|]. split; [by split_and!|]. by exists i.
  - split; [by split_and!|]. by apply certificates_only.
Qed.

Lemma handle_server_kx_knows g ins i st st' peer :
  knows12 g ins (ServerKx st) peer → handle_server_kx st (Input.message i) = Ok st' →
  knows12 g (ins ++ [i]) st' peer.
Proof.
  intros ((? & Hf & ? & Hs & ?) & Hc) He. unfold handle_server_kx in He. bind_inv. payload_inv.
  split; [split_and!; [done|by apply follows12_add|done..]|]. eexists. split; [done|]. econstructor; [done..|].
  by rewrite <-Hs.
Qed.

Lemma handle_status_or_kx_knows g ins i st st' peer :
  knows12 g ins (CertificateStatusOrServerKx st) peer → handle_status_or_kx st (Input.message i) = Ok st' →
  knows12 g (ins ++ [i]) st' peer.
Proof.
  intros (Hm & Hc & j & -> & Hj) He. unfold handle_status_or_kx in He.
  destruct (handshake_payload _) as [[]|]; try done.
  - eapply handle_server_kx_knows; [|done]. split; [done|]. by apply certificates_only.
  - unfold handle_status in He. bind_inv. payload_inv. destruct Hc as (? & Hf & ? & ? & ?).
    split; [split_and!; [done|by apply follows12_add|done..]|]. by apply certificates_status.
Qed.

Lemma handle_server_done_knows g ins i st st' peer :
  knows12 g ins (ServerDone st) peer → handle_server_done st i = Ok st' → knows12 g (ins ++ [i]) st' peer.
Proof.
  intros ((? & Hf & ? & ? & ?) & kx & Hk & Hr) He. unfold handle_server_done in He.
  destruct (handshake_payload _) as [[]|] eqn:Hp; try done. bind_inv.
  split; [split_and!; [done|by apply follows12_add|done..]|].
  exists kx, (ServerCertDetails.cert_chain (done_server_cert st)). split; [done|]. split; [|by simplify_eq].
  constructor; [done..|]. unfold Input.check_aligned_handshake in *. by destruct (Input.aligned_handshake i).
Qed.

Lemma handle_done_or_request_knows g ins i st st' peer :
  knows12 g ins (ServerDoneOrCertReq st) peer → handle_done_or_request st i = Ok st' →
  knows12 g (ins ++ [i]) st' peer.
Proof.
  intros ((? & Hf & ? & ? & ?) & kx & Hk & Hr) He. unfold handle_done_or_request in He.
  assert (handle_server_done (mk_done (with_transcript (HandshakeHash.abandon_client_auth
      (transcript (docr_hs st))) (docr_hs st)) (docr_randoms st) (docr_suite st) (docr_server_cert st)
      (docr_server_kx st) None (docr_must_issue_new_ticket st)) i = Ok st' → knows12 g (ins ++ [i]) st' peer)
    as Hdone.
  { intros He'. eapply handle_server_done_knows; [|done]. split.
    - destruct Hf as [? ? ? ?]. split_and!; [done| |done..]. split; [done..|]. by apply extends_abandon.
    - exists kx. split; [done|]. by constructor. }
  destruct (handshake_payload _) as [[]|] eqn:Hp; try by apply Hdone.
  unfold handle_cert_request in He. bind_inv. payload_inv.
  split; [split_and!; [done|by apply follows12_add|done..]|]. exists kx. split; [done|].
  by eapply requested_by.
Qed.

Lemma handle_new_ticket_knows g ins i st st' peer :
  knows12 g ins (NewTicket st) peer → handle_new_ticket st (Input.message i) = Ok st' →
  knows12 g (ins ++ [i]) st' peer.
Proof.
  intros (Hm & ms & [? ? ? Hx] & Ha) He. unfold handle_new_ticket in He. bind_inv. payload_inv.
  exists ins, ms, [i]. split_and!; [done| |done|by eapply ticketed_by]. split; [done..|]. by apply extends_add.
Qed.

Lemma handle_ccs_knows g ins i st out out' st' peer peer' :
  knows12 g ins (Ccs st) peer → handle_ccs st i out = (out', Ok st') → knows12 g (ins ++ [i]) st' peer'.
Proof.
  intros (pre & ms & ticket & -> & Hf & Ha & Ht) He. unfold handle_ccs in He.
  destruct (Message.payload _) as [| | |[]|] eqn:Hp; try done. bind_inv.
  exists pre, ms, ticket, i. split; [by rewrite (assoc_L (++))|]. split; [|done]. split; [done|].
  unfold Input.check_aligned_handshake in *. by destruct (Input.aligned_handshake i).
Qed.

(** ** The client's flight *)

Lemma unwrap_kx opaque kxa kx :
  ServerKeyExchangePayload.unwrap_given_kxa opaque kxa = Some kx →
  ServerKeyExchangeParams.algorithm (ServerKeyExchange.params kx) = kxa
  ∧ ServerKeyExchangeParams.valid (ServerKeyExchange.params kx).
Proof. destruct opaque; [done|]. by intros (? & [? _] & _)%ServerKeyExchangePayload.unwrap_iff. Qed.

Lemma flight_params g chain ocsp kx ins :
  server_flight g chain ocsp kx ins →
  ServerKeyExchangeParams.algorithm (ServerKeyExchange.params kx) = Tls12CipherSuite.kx (g_suite g)
  ∧ ServerKeyExchangeParams.valid (ServerKeyExchange.params kx).
Proof.
  intros [ins1 i Hr _ _]. assert (∃ ins2, parameters g chain ocsp kx ins2) as [ins2 Hp]
    by (destruct Hr; by eexists). destruct Hp as [? ? ? _ _ Hu]. by eapply unwrap_kx.
Qed.

(** The parameters that were signed are those that are used. *)
Lemma decode_params params kxa p :
  ServerKeyExchangeParams.algorithm params = kxa → ServerKeyExchangeParams.valid params →
  decode_kx_params ServerKeyExchangeParams.decode kxa (ServerKeyExchangeParams.encode params []) = Ok p →
  p = params.
Proof.
  intros Ha Hv. unfold decode_kx_params.
  assert (ServerKeyExchangeParams.decode kxa (ServerKeyExchangeParams.encode params []) = Ok (params, [])) as ->.
  { apply ServerKeyExchangeParams.server_kx_iff. by rewrite app_nil_r. }
  step_ok. by intros [= <-].
Qed.

Lemma emit_client_kx_ok tr0 ms tr kxa pub (out out' : Out ClientSide.t) tr' :
  extends tr0 ms tr → emit_client_kx tr kxa pub out = (out', Ok tr') →
  extends tr0 (ms ++ [client_kx_message kxa pub]) tr'.
Proof. intros Hx He. unfold emit_client_kx in He. bind_inv. by apply extends_add. Qed.

Lemma emit_client_auth_ok tr0 ms tr auth (out out' : Out ClientSide.t) tr' :
  extends tr0 ms tr → emit_client_auth tr auth out = (out', Ok tr') →
  extends tr0 ms tr'
  ∨ ∃ chain, extends tr0 (ms ++ [message12 (HandshakePayload.Certificate chain)]) tr'.
Proof.
  intros Hx He. unfold emit_client_auth in He. destruct auth; [|bind_inv; by left].
  unfold emit_certificate in He. bind_inv. right. eexists. by apply extends_add.
Qed.

Lemma emit_proof_ok tr0 ms tr auth (out out' : Out ClientSide.t) tr' :
  extends tr0 ms tr → emit_proof tr auth out = (out', Ok tr') →
  ∃ proof, client_proof proof ∧ extends tr0 (ms ++ proof) tr'.
Proof.
  intros Hx He. unfold emit_proof in He.
  destruct auth as [[]|]; try (bind_inv; exists []; rewrite app_nil_r; by split; [constructor|]).
  unfold emit_certverify in He. cbn [HandshakeHash.take_handshake_buf] in He. bind_inv.
  eexists [_]. split; [by constructor|]. apply extends_add. by apply (extends_take _ _ _ Hx).
Qed.

Lemma emit_finished_ok tr0 ms secrets tr (out out' : Out ClientSide.t) tr' :
  extends tr0 ms tr → emit_finished secrets tr out = (out', Ok tr') →
  extends tr0 (ms ++ [client_finished secrets tr0 ms]) tr'.
Proof.
  intros Hx He. unfold emit_finished in He. bind_inv. unfold client_finished.
  rewrite <-(extends_hash _ _ _ Hx). by apply extends_add.
Qed.

Lemma upto_kx_ok tr0 ms tr auth kxa pub (out1 out1' out2 out2' : Out ClientSide.t) tr1 tr2 :
  extends tr0 ms tr → emit_client_auth tr auth out1 = (out1', Ok tr1) →
  emit_client_kx tr1 kxa pub out2 = (out2', Ok tr2) →
  ∃ before, upto_kx (client_kx_message kxa pub) before ∧ extends tr0 (ms ++ before) tr2.
Proof.
  intros Hx Ha Hk. apply (emit_client_auth_ok _ _ _ _ _ _ _ Hx) in Ha as [Hx1|(chain & Hx1)].
  - exists [client_kx_message kxa pub]. split; [constructor|]. by eapply emit_client_kx_ok.
  - eexists [_; client_kx_message kxa pub]. split; [by constructor|].
    apply (emit_client_kx_ok _ _ _ _ _ _ _ _ Hx1) in Hk. by rewrite <-(assoc_L (++)) in Hk.
Qed.

Lemma await_ticket_knows g ins ms hs secrets id resuming d peer :
  follows12 g ms hs → agreed g ins ms secrets id →
  knows12 g ins (await_ticket (g_must_issue_new_ticket g) hs secrets id resuming d) peer.
Proof.
  intros Hf Ha. unfold await_ticket. destruct (g_must_issue_new_ticket g) eqn:Hm.
  - split; [done|]. by exists ms.
  - exists ins, ms, []. cbn. rewrite !app_nil_r. split_and!; [done..|]. by constructor.
Qed.

Lemma verify_kx_signature_ok g kx st id :
  config (aw_hs st) = config (g_hs g) → aw_randoms st = g_randoms g → aw_suite st = g_suite g →
  has_kx kx (aw_server_kx st) → verify_kx_signature st id = Ok tt → signed12 g kx id.
Proof.
  intros Hc Hr Hs Hkx. unfold verify_kx_signature, signed12, has_kx in *. rewrite Hc, Hr, Hs, Hkx.
  cbn [kx_params kx_sig]. by destruct (usable_for_signature_scheme12 _ _).
Qed.

Lemma continue_with_knows g ins st id out out' st' peer peer' :
  knows12 g ins (VerifyServerIdentity st) peer →
  (∃ w w', verify_with_config st w = (w', Ok id)) →
  continue_with st id out = (out', Ok st') → knows12 g ins st' peer'.
Proof.
  intros ((Hsess & [Hc Hk He Hx] & Hr & Hs & Ht) & kx & chain & Hkx & Hfl & Hid) (w & w' & Hv) Hw.
  unfold verify_with_config, presented_identity in Hv. bind_inv.
  unfold continue_with in Hw. handler_inv.
  destruct (flight_params _ _ _ _ _ Hfl) as [Halg Hval].
  match goal with H : verify_kx_signature _ _ = Ok ?u |- _ => destruct u;
    pose proof (verify_kx_signature_ok g kx st id Hc Hr Hs Hkx H) as Hsig end.
  unfold has_kx in Hkx. match goal with H : decode_kx_params _ _ _ = Ok _ |- _ => rewrite Hkx, Hs in H; cbn [kx_params] in H;
    apply (decode_params _ _ _ Halg Hval) in H; subst end.
  match goal with H : on_world _ _ = _ |- _ => apply on_world_ok in H as (w1 & w1' & Hstart) end.
  match goal with Ha : emit_client_auth _ _ _ = _, Hb : emit_client_kx _ _ _ _ = _ |- _ =>
    rewrite Hs in Hb; destruct (upto_kx_ok _ _ _ _ _ _ _ _ _ _ _ _ Hx Ha Hb) as (before & Hbef & Hx1) end.
  match goal with H : emit_proof _ _ _ = _ |- _ =>
    apply (emit_proof_ok _ _ _ _ _ _ _ Hx1) in H as (proof & Hpr & Hx2) end.
  match goal with H : emit_finished _ _ _ = _ |- _ =>
    apply (emit_finished_ok _ _ _ _ _ _ _ Hx2) in H as Hx3 end.
  rewrite Ht. eapply await_ticket_knows; [by split; [..|exact Hx3]|].
  rewrite <-!(assoc_L (++) (messages ins) before proof). rewrite Hc, Hk in *. econstructor; try done.
  - by eexists _, _.
  - rewrite <-He, <-(extends_hash _ _ _ Hx1). congruence.
Qed.
(** ** Each step *)

Lemma answer_resumption_quiet st tr : quiet (answer_resumption st tr).
Proof. unfold answer_resumption, emit_ccs, emit_finished. eauto 20 with quiet. Qed.

Lemma handle_finished_knows12 g ins i st out out' st' peer :
  knows12 g ins (Finished st) peer → handle_finished st i out = (out', Ok st') →
  knows12 g (ins ++ [i]) st' (peer_in out').
Proof.
  intros (pre & ms & ticket & ccs & -> & Hccs & [_ _ _ Hx] & Ha & Ht) Hh. unfold handle_finished in Hh.
  handler_inv. payload_inv.
  match goal with H : bool_decide (_ ≠ _) = false |- _ => apply bool_decide_eq_false, dec_stable in H as <- end.
  match goal with H : Input.check_aligned_handshake i = _ |- _ => apply aligned_ok in H as Hal end.
  exists (pre ++ ticket ++ [ccs; i]), [], (fin_peer_identity st).
  split; [by rewrite app_nil_r, <-!(assoc_L (++))|]. split.
  - econstructor; try done. by rewrite <-(extends_hash _ _ _ Hx).
  - match goal with H : output (OutputEvent.PeerIdentity _) _ = _ |- _ => apply output_peer in H as <- end.
    follow_peer. congruence.
Qed.

Lemma traffic12_quiet st i : quiet (S:=ClientSide.t) (ClientTls12.handle st i).
Proof. unfold ClientTls12.handle. destruct (Message.payload _); eauto with quiet. Qed.

Lemma handle_knows12 g ins i st out out' st' :
  knows12 g ins st (peer_in out) → handle st i out = (out', Ok st') →
  knows12 g (ins ++ [i]) st' (peer_in out').
Proof.
  intros Hk Hh. destruct st as [st|st|st|st|st|st|st|st|st|st]; cbn [handle] in Hh; bind_inv.
  - by eapply handle_cert_knows12.
  - by eapply handle_status_or_kx_knows.
  - by eapply handle_server_kx_knows.
  - by eapply handle_done_or_request_knows.
  - by eapply handle_server_done_knows.
  - done.
  - by eapply handle_new_ticket_knows.
  - by eapply handle_ccs_knows.
  - by eapply handle_finished_knows12.
  - destruct Hk as (flight & rest & id & -> & He & Hp). exists flight, (rest ++ [i]), id.
    split; [by rewrite (assoc_L (++))|]. split; [done|]. rewrite <-Hp.
    match goal with H : ClientTls12.handle _ _ _ = _ |- _ => apply (quiet_eq _ _ _ _ H), traffic12_quiet end.
Qed.

Lemma without_input_knows12 g ins st out out' st' :
  knows12 g ins st (peer_in out) → handle_without_input st out = (out', Ok st') →
  knows12 g ins st' (peer_in out').
Proof.
  intros Hk Hh. destruct st; cbn [handle_without_input] in Hh; bind_inv; try done.
  match goal with H : on_world _ _ = _ |- _ => apply on_world_ok in H end. by eapply continue_with_knows.
Qed.

Lemma run12_knows g ins pre st out out' st' :
  knows12 g pre st (peer_in out) → run12 st ins out = (out', Ok st') →
  knows12 g (pre ++ ins) st' (peer_in out').
Proof.
  revert pre st out. induction ins as [|i ins IH]; intros pre st out Hk Hr; cbn [run12] in Hr; bind_inv.
  - by rewrite app_nil_r.
  - rewrite cons_middle, (assoc_L (++)). eapply IH; [|done]. eapply without_input_knows12; [|done].
    by eapply handle_knows12.
Qed.
End steps.

(** ** The ServerHello *)

Section hello.
Context `{Tls12Provider} `{!ClientWorld} `{!HpkeSealer}.
Notation chs := (hs ClientSide.t).
Notation config_of st := (ClientHelloInput.config (ExpectServerHello.input st)).
Notation hello_of st := (ClientHelloInput.hello (ExpectServerHello.input st)).

(** The session that a ServerHello resumes: the one that was offered, if its id is echoed. *)
Definition resumed12 (st : ExpectServerHello.t) (sh : ServerHelloPayload.t) : option session12 :=
  session ← resuming12 (ClientHelloInput.resuming (ExpectServerHello.input st));
  if SessionId.eq (Tls12Session.session_id session) (ServerHelloPayload.session_id sh)
  then Some session else None.

(** The handshake that starts with the ServerHello [sh] of the message [i]. *)
Definition greeting (st : ExpectServerHello.t) (suite : Tls12CipherSuite.t prf12 aead12)
    (sh : ServerHelloPayload.t) (i : Input.t) : Greeting :=
  let exts := ServerHelloPayload.extensions sh in
  let hash := CipherSuiteCommon.hash_provider (Tls12CipherSuite.common suite) in
  mk_greeting
    (mk_hs (config_of st) (ServerHelloPayload.session_id sh)
       (ClientHelloInput.session_key (ExpectServerHello.input st))
       (bool_decide (is_Some (ServerExtensions.extended_main_secret_ack exts)))
       (HandshakeHash.add_message (Input.message i)
          (HandshakeHashBuffer.start_hash (ExpectServerHello.transcript_buffer st) hash)))
    (ConnectionRandoms.new (ClientHelloInput.random (ExpectServerHello.input st)) (ServerHelloPayload.random sh))
    suite
    (bool_decide (is_Some (ServerExtensions.certificate_status_request_ack exts)))
    (bool_decide (is_Some (ServerExtensions.session_ticket_ack exts)))
    (resumed12 st sh).

(** What a client that sent the hello of [st] took from the ServerHello [sh]. *)
Record negotiated12 (st : ExpectServerHello.t) (suite : Tls12CipherSuite.t prf12 aead12)
    (sh : ServerHelloPayload.t) : Prop := {
  n12_version : server_version sh = ProtocolVersion.TLSv1_2
    ∧ ServerExtensions.selected_version (ServerHelloPayload.extensions sh) = None
    ∧ ClientConfig.supports_version (config_of st) ProtocolVersion.TLSv1_2
        (ClientHelloInput.protocol (ExpectServerHello.input st)) = true;
  n12_downgrade : ClientConfig.supports_version (config_of st) ProtocolVersion.TLSv1_3 Protocol.Tcp = true →
    drop 24 (Random.bytes (ServerHelloPayload.random sh)) ≠ DOWNGRADE_SENTINEL;
  n12_early_data : from_option snd false (ExpectServerHello.early_data_key_schedule st) = false;
  n12_suite : ServerHelloPayload.cipher_suite sh ∈ ClientHelloDetails.offered_cipher_suites (hello_of st)
    ∧ suite ∈ CryptoProvider.tls12_cipher_suites (ClientConfig.provider (config_of st))
    ∧ Tls12Session.suite_id suite = ServerHelloPayload.cipher_suite sh;
  n12_compression : ServerHelloPayload.compression_method sh = Compression.Null;
  n12_extensions : ∀ e, e ∈ received_types (ServerHelloPayload.extensions sh) →
    e ∈ ClientHelloDetails.sent_extensions (hello_of st) ∨ e = ExtensionType.RenegotiationInfo;
  n12_renegotiation : ∀ info,
    ServerExtensions.renegotiation_info (ServerHelloPayload.extensions sh) = Some info → sp_inner info = [];
  n12_ems : ClientConfig.require_ems (config_of st) = true →
    is_Some (ServerExtensions.extended_main_secret_ack (ServerHelloPayload.extensions sh));
  n12_resumed : ∀ session, resumed12 st sh = Some session →
    Tls12Session.suite_id (Tls12Session.suite session) = ServerHelloPayload.cipher_suite sh
    ∧ Tls12Session.extended_ms session
      = bool_decide (is_Some (ServerExtensions.extended_main_secret_ack (ServerHelloPayload.extensions sh)));
}.

Lemma resume_knows g suite session hs randoms ticket (out out' : Out ClientSide.t) st peer :
  hs = g_hs g → randoms = g_randoms g → suite = g_suite g → ticket = g_must_issue_new_ticket g →
  g_session g = Some session → resume suite session hs randoms ticket out = (out', Ok st) →
  Tls12Session.suite_id (Tls12Session.suite session) = Tls12Session.suite_id suite
  ∧ Tls12Session.extended_ms session = using_ems hs ∧ knows12 g [] st peer.
Proof.
  intros -> -> -> -> Hs Hr. unfold resume in Hr. handler_inv.
  repeat match goal with H : bool_decide (_ ≠ _) = false |- _ => apply bool_decide_eq_false, dec_stable in H end.
  split_and!; [done..|]. apply await_ticket_knows with (ms := []); [apply follows12_nil|]. by constructor.
Qed.

Lemma handle_server_hello12_ok suite sh i st (out out' : Out ClientSide.t) s12 peer :
  Client12.handle_server_hello suite sh i st out = (out', Ok s12) →
  (ClientConfig.supports_version (config_of st) ProtocolVersion.TLSv1_3 Protocol.Tcp = true →
     drop 24 (Random.bytes (ServerHelloPayload.random sh)) ≠ DOWNGRADE_SENTINEL)
  ∧ (∀ info, ServerExtensions.renegotiation_info (ServerHelloPayload.extensions sh) = Some info →
       sp_inner info = [])
  ∧ (ClientConfig.require_ems (config_of st) = true →
       is_Some (ServerExtensions.extended_main_secret_ack (ServerHelloPayload.extensions sh)))
  ∧ (∀ session, resumed12 st sh = Some session →
       Tls12Session.suite_id (Tls12Session.suite session) = Tls12Session.suite_id suite
       ∧ Tls12Session.extended_ms session
         = bool_decide (is_Some (ServerExtensions.extended_main_secret_ack (ServerHelloPayload.extensions sh))))
  ∧ knows12 (greeting st suite sh i) [] s12 peer.
Proof.
  unfold Client12.handle_server_hello. cbv zeta. intros Hh. bind_inv.
  match goal with H : _ && bool_decide (drop 24 _ = _) = false |- _ => rename H into Hd end.
  match goal with H : from_option _ _ _ = false |- _ => rename H into Hi end.
  match goal with H : _ && negb (bool_decide _) = false |- _ => rename H into He end.
  split; [by intros Hs; rewrite Hs in Hd; by apply bool_decide_eq_false in Hd|].
  split; [by intros info Hinfo; rewrite Hinfo in Hi; apply bool_decide_eq_false, dec_stable in Hi|].
  split; [by intros Hs; rewrite Hs in He; apply negb_false_iff, bool_decide_eq_true in He|].
  assert (resumed12 st sh = None → knows12 (greeting st suite sh i) []
    (Certificate (mk_cert (g_hs (greeting st suite sh i)) (g_randoms (greeting st suite sh i)) suite
       (g_may_send_cert_status (greeting st suite sh i)) (g_must_issue_new_ticket (greeting st suite sh i))
       (ServerExtensions.client_certificate_type (ServerHelloPayload.extensions sh)))) peer) as Hfull.
  { intros Hn. split; [done|]. split; [|done]. split_and!; [exact Hn|apply follows12_nil|done..]. }
  assert (resumed12 st sh = (session ← resuming12 (ClientHelloInput.resuming (ExpectServerHello.input st));
    if SessionId.eq (Tls12Session.session_id session) (ServerHelloPayload.session_id sh)
    then Some session else None)) as Hres by done.
  destruct (resuming12 _) as [session|]; cbn in Hres.
  - destruct (SessionId.eq (Tls12Session.session_id session) _); rewrite Hres in Hfull |- *.
    + apply (resume_knows (greeting st suite sh i)) with (peer := peer) in Hh as (? & ? & ?); try done.
      split; [|done]. by intros ? [= <-].
    + bind_inv. split; [done|]. by apply Hfull.
  - rewrite Hres in Hfull |- *. bind_inv. split; [done|]. by apply Hfull.
Qed.
(** ** Whole handshakes *)

Lemma handle_sh_negotiated12 st i (out out' : Out ClientSide.t) (s12 : State) peer :
  handle_sh st i out = (out', Ok (Tls12 s12)) →
  ∃ suite sh, input_payload i = Some (HandshakePayload.ServerHello sh)
    ∧ ExpectServerHello.done_retry st = false ∧ negotiated12 st suite sh
    ∧ knows12 (greeting st suite sh i) [] s12 peer.
Proof.
  unfold handle_sh. intros Hh. bind_inv. payload_inv.
  match type of Hh with (if ?c then _ else _) _ = _ => destruct c end;
    [unfold with_tls13, with_version in Hh; handler_inv; discriminate|].
  match type of Hh with (if ?c then _ else _) _ = _ => destruct c eqn:Hv end; [|discriminate].
  apply andb_prop in Hv as [Hv%bool_decide_eq_true Hsup]. unfold with_tls12, with_version in Hh. handler_inv.
  match goal with H : (if decide ?P then _ else _) = Some ?s |- _ =>
    destruct (decide P) as [Hoff|]; [apply list_find_elem in H as [Hprov Hid]|done] end.
  match goal with H : handle_server_hello12 _ _ _ _ _ = _ |- _ =>
    apply (handle_server_hello12_ok _ _ _ _ _ _ _ peer) in H as (Hdg & Hren & Hems & Hres & Hk) end.
  match goal with H : bool_decide (is_Some _) = false |- _ =>
    apply bool_decide_eq_false, eq_None_not_Some in H as Hsel; rewrite Hsel in * end.
  match goal with H : ClientHelloDetails.server_sent_unsolicited_extensions _ _ _ = false |- _ =>
    pose proof (λ e, unsolicited_ok _ _ _ e H) as Huns end.
  match goal with H : ExpectServerHello.done_retry st && _ = false |- _ => rename H into Hretry end.
  eexists _, _. split; [done|]. split; [by destruct (ExpectServerHello.done_retry st)|]. split; [|exact Hk].
  split; try done.
  - match goal with H : bool_decide (_ ≠ Compression.Null) = false |- _ =>
      by apply bool_decide_eq_false, dec_stable in H end.
  - intros e He. destruct (Huns e He) as [?|Ha]; [by left|]. right. by apply list_elem_of_singleton in Ha.
  - intros session Hs. destruct (Hres session Hs) as [-> ?]. done.
Qed.

Lemma run_tls12_states (st : State) ins (out out' : Out ClientSide.t) st' :
  client_run (Tls12 st) ins out = (out', Ok st') →
  ∃ s12 : State, st' = Tls12 s12 ∧ run12 st ins out = (out', Ok s12).
Proof.
  revert st out. induction ins as [|i ins IH]; intros st out Hr; cbn [client_run] in Hr; bind_inv; [eauto|].
  cbn [handle_client] in *. bind_inv. cbn [client_without_input] in *. bind_inv.
  match goal with H : client_run _ _ _ = _ |- _ => apply IH in H as (s12 & -> & Hrun) end.
  exists s12. split; [done|]. cbn [run12]. unfold mbind, action_bind.
  cbn [Connection.handle Connection.handle_without_input machine12 TLS12_HANDLER machine] in *.
  repeat match goal with H : _ = (_, Ok _) |- _ => rewrite H; clear H end. done.
Qed.

Lemma run_server_hello12 st ins (out out' : Out ClientSide.t) traffic :
  client_run (ServerHello st) ins out = (out', Ok (Tls12 (Traffic traffic))) →
  ∃ i flight rest suite sh id, ins = i :: flight ++ rest
    ∧ input_payload i = Some (HandshakePayload.ServerHello sh)
    ∧ ExpectServerHello.done_retry st = false ∧ negotiated12 st suite sh
    ∧ established (greeting st suite sh i) flight id ∧ peer_in out' = Some id.
Proof.
  destruct ins as [|i ins]; intros Hr; cbn [client_run] in Hr; bind_inv; [discriminate|].
  cbn [handle_client] in *.
  match goal with H : handle_sh st i _ = _ |- _ =>
    rename H into Hh; destruct (handle_sh_decides _ _ _ _ _ Hh) as [[s12 ->]|[st0 ->]] end.
  - match goal with H : client_without_input _ ?o = _ |- _ =>
      apply (handle_sh_negotiated12 _ _ _ _ _ (peer_in o)) in Hh as (suite & sh & Hi & Hd & Hn & Hk);
      rename H into Hw end.
    cbn [client_without_input] in Hw. bind_inv.
    match goal with H : Connection.handle_without_input _ _ = _ |- _ =>
      apply (without_input_knows12 _ _ _ _ _ _ Hk) in H as Hk2 end.
    match goal with H : client_run (Tls12 _) _ _ = _ |- _ => apply run_tls12_states in H as (? & [= <-] & Hrun) end.
    apply (run12_knows _ _ _ _ _ _ _ Hk2) in Hrun as (flight & rest & id & Hins & He & Hp).
    cbn [app] in Hins. subst ins. exists i, flight, rest, suite, sh, id. done.
  - cbn [client_without_input] in *. bind_inv.
    by match goal with H : client_run (Tls13 _) _ _ = _ |- _ => apply run_tls13 in H as (? & [=] & _) end.
Qed.

End hello.
