(* ===== verification/LimitedCache.v ===== *)
(** * Session caches ([rustls/src/limited_cache.rs], [rustls/src/{client,server}/handy.rs])

    A map of bounded size that forgets what was inserted first, and the stores of
    sessions that are made of it.  A store is shared by all connections of a
    configuration: every call holds its lock from beginning to end, so that a history of
    calls by several threads is a sequence of calls. *)
From stdpp Require Import gmap.
From S2P Require Import Prelude Enums Sessions.

Module LimitedCache.
(* @src rustls/src/limited_cache.rs 7-24 LimitedCache *)
Record t (K V : Type) `{Countable K} := mk {
  map : gmap K V;
  oldest : list K;
  max : nat;
}.
Arguments mk {K V _ _}.
Arguments map {K V _ _}.
Arguments oldest {K V _ _}.
Arguments max {K V _ _}.

Section methods.
Context {K V : Type} `{Countable K}.
Implicit Types (self : t K V) (k : K) (v : V).

(* @src rustls/src/limited_cache.rs 27-34 LimitedCache::new *)
Definition new (capacity_order_of_magnitude : nat) : t K V := mk ∅ [] capacity_order_of_magnitude.

(** What follows the insertion of a new key: [pop_front] and [map.remove]. *)
(* @src rustls/src/limited_cache.rs 52-56 LimitedCache::insert::match *)
Definition evict self : t K V :=
  if decide (max self < length (oldest self)) then
    match oldest self with
    | oldest_key :: rest => mk (delete oldest_key (map self)) rest (max self)
    | [] => self
    end
  else self.

(* @src rustls/src/limited_cache.rs 36-57 LimitedCache::insert *)
Definition insert k v self : t K V :=
  match map self !! k with
  | Some _ => mk (<[k := v]> (map self)) (oldest self) (max self)
  | None => evict (mk (<[k := v]> (map self)) (oldest self ++ [k]) (max self))
  end.

(** [get_mut(k)] followed by a use of the reference that leaves [f v] there and has a
    result. *)
(* @src rustls/src/limited_cache.rs 59-64 LimitedCache::get_mut *)
Definition get_mut {R} k (f : V → V * R) self : t K V * option R :=
  match map self !! k with
  | Some v => let '(v, r) := f v in (mk (<[k := v]> (map self)) (oldest self) (max self), Some r)
  | None => (self, None)
  end.

(* @src rustls/src/limited_cache.rs 66-71 LimitedCache::get *)
Definition get k self : option V := map self !! k.

(* @src rustls/src/limited_cache.rs 73-89 LimitedCache::remove *)
Definition remove k self : t K V * option V :=
  match map self !! k with
  | None => (self, None)
  | Some value =>
      (mk (delete k (map self))
          match list_find (λ item, item = k) (oldest self) with
          | Some (index, _) => delete index (oldest self)
          | None => oldest self
          end (max self), Some value)
  end.

(** [V::default()] is [d]. *)
(* @src rustls/src/limited_cache.rs 93-112 LimitedCache::get_or_insert_default_and_edit *)
Definition get_or_insert_default_and_edit (d : V) k (edit : V → V) self : t K V :=
  match map self !! k with
  | Some value => mk (<[k := edit value]> (map self)) (oldest self) (max self)
  | None => evict (mk (<[k := edit d]> (map self)) (oldest self ++ [k]) (max self))
  end.
End methods.
End LimitedCache.

(** ** A bounded queue

    The specification: the entries in the order of their insertion, at most [max] of
    them.  A new entry goes to the end and drives out the first if there are too many. *)
Module Queue.
Section queue.
Context {K V : Type} `{Countable K}.
Implicit Types (q : list (K * V)) (k : K) (v : V).

Definition get k q : option V := snd <$> (snd <$> list_find (λ e, e.1 = k) q).

(** The entry of [k], changed in place. *)
Definition update k (f : V → V) q : list (K * V) :=
  (λ e, if decide (e.1 = k) then (e.1, f e.2) else e) <$> q.

Definition push (max : nat) k v q : list (K * V) :=
  let q := q ++ [(k, v)] in if decide (max < length q) then tail q else q.

Definition insert (max : nat) k v q : list (K * V) :=
  match get k q with Some _ => update k (λ _, v) q | None => push max k v q end.

Definition remove k q : list (K * V) := filter (λ e, e.1 ≠ k) q.

Definition edit (max : nat) (d : V) k (f : V → V) q : list (K * V) :=
  match get k q with Some _ => update k f q | None => push max k (f d) q end.
End queue.
End Queue.

(** The operations, and what they return. *)
Inductive cache_op (K V : Type) :=
| OpInsert (k : K) (v : V)
| OpGet (k : K)
| OpModify (k : K) (f : V → V)
| OpRemove (k : K)
| OpEdit (d : V) (k : K) (f : V → V).
Arguments OpInsert {K V}.
Arguments OpGet {K V}.
Arguments OpModify {K V}.
Arguments OpRemove {K V}.
Arguments OpEdit {K V}.

Section refinement.
Context {K V : Type} `{Countable K}.
Implicit Types (c : LimitedCache.t K V) (q : list (K * V)) (k : K) (v : V).

(** A call returns the value that was there, if it returns one. *)
Definition cache_step (op : cache_op K V) c : LimitedCache.t K V * option V :=
  match op with
  | OpInsert k v => (LimitedCache.insert k v c, None)
  | OpGet k => (c, LimitedCache.get k c)
  | OpModify k f => LimitedCache.get_mut k (λ v, (f v, v)) c
  | OpRemove k => LimitedCache.remove k c
  | OpEdit d k f => (LimitedCache.get_or_insert_default_and_edit d k f c, None)
  end.

Definition queue_step (max : nat) (op : cache_op K V) q : list (K * V) * option V :=
  match op with
  | OpInsert k v => (Queue.insert max k v q, None)
  | OpGet k => (q, Queue.get k q)
  | OpModify k f => (Queue.update k f q, Queue.get k q)
  | OpRemove k => (Queue.remove k q, Queue.get k q)
  | OpEdit d k f => (Queue.edit max d k f q, None)
  end.

Fixpoint run_ops {S} (step : cache_op K V → S → S * option V) (ops : list (cache_op K V)) (s : S)
    : S * list (option V) :=
  match ops with
  | [] => (s, [])
  | op :: ops =>
      let '(s, r) := step op s in
      let '(s, rs) := run_ops step ops s in (s, r :: rs)
  end.

(** The cache holds the queue. *)
Definition holds c q : Prop :=
  LimitedCache.oldest c = q.*1 ∧ LimitedCache.map c = list_to_map q ∧ NoDup q.*1
  ∧ length q ≤ LimitedCache.max c.

Lemma queue_get q k : Queue.get k q = (list_to_map q : gmap K V) !! k.
Proof.
  induction q as [|[k' v'] q IH]; [done|]. unfold Queue.get in *. cbn. destruct (decide (k' = k)) as [->|Hk].
  - by rewrite lookup_insert_eq.
  - rewrite lookup_insert_ne by done. rewrite <- IH. by destruct (list_find _ q) as [[]|].
Qed.

Lemma update_keys k f q : (Queue.update k f q).*1 = q.*1.
Proof.
  unfold Queue.update. rewrite <- list_fmap_compose. apply list_fmap_ext. intros i e _. cbn.
  by destruct (decide _).
Qed.

Lemma update_map k f q v :
  (list_to_map q : gmap K V) !! k = Some v → NoDup q.*1 →
  (list_to_map (Queue.update k f q) : gmap K V) = <[k := f v]> (list_to_map q).
Proof.
  intros Hk Hd. apply map_eq. intros i. destruct (decide (i = k)) as [->|Hi].
  - rewrite lookup_insert_eq. apply elem_of_list_to_map_1; [by rewrite update_keys|].
    apply list_elem_of_fmap. exists (k, v). cbn. split; [by rewrite decide_True|].
    by apply elem_of_list_to_map_2.
  - rewrite lookup_insert_ne by done. clear Hk Hd. induction q as [|[k' v'] q IH]; [done|].
    cbn. destruct (decide (k' = k)) as [->|]; cbn; [by rewrite !lookup_insert_ne by done|].
    destruct (decide (k' = i)) as [->|]; [by rewrite !lookup_insert_eq|].
    by rewrite !lookup_insert_ne by done.
Qed.

Lemma holds_get c q k : holds c q → LimitedCache.map c !! k = Queue.get k q.
Proof. intros (_ & -> & _). by rewrite queue_get. Qed.

Lemma holds_update c q k f v :
  holds c q → Queue.get k q = Some v →
  holds (LimitedCache.mk (<[k := f v]> (LimitedCache.map c)) (LimitedCache.oldest c) (LimitedCache.max c))
    (Queue.update k f q).
Proof.
  intros (Ho & Hm & Hd & Hl) Hg. rewrite queue_get in Hg.
  repeat split; cbn; rewrite ?update_keys; try done.
  - by rewrite (update_map _ _ _ v), Hm.
  - unfold Queue.update. by rewrite length_fmap.
Qed.

Lemma holds_push c q k v :
  holds c q → Queue.get k q = None →
  holds (LimitedCache.evict (LimitedCache.mk (<[k := v]> (LimitedCache.map c))
           (LimitedCache.oldest c ++ [k]) (LimitedCache.max c)))
    (Queue.push (LimitedCache.max c) k v q).
Proof.
  intros (Ho & Hm & Hd & Hl) Hg. rewrite queue_get in Hg. apply not_elem_of_list_to_map_2 in Hg.
  assert (Hmap : (list_to_map (q ++ [(k, v)]) : gmap K V) = <[k := v]> (list_to_map q)).
  { by apply list_to_map_snoc. }
  assert (Hdup : NoDup (q ++ [(k, v)]).*1).
  { rewrite fmap_app. apply NoDup_app. split; [done|]. split; [|apply NoDup_singleton].
    intros x Hx Hx'%list_elem_of_singleton. by subst. }
  unfold LimitedCache.evict, Queue.push. cbn [LimitedCache.max LimitedCache.oldest LimitedCache.map].
  rewrite Ho, Hm, <- Hmap. assert (Hk : q.*1 ++ [k] = (q ++ [(k, v)]).*1) by (by rewrite fmap_app).
  assert (Hlen : length (q ++ [(k, v)]) ≤ S (LimitedCache.max c)) by (rewrite length_app; cbn; lia).
  rewrite Hk, length_fmap. clear Hmap Hk. revert Hlen Hdup. generalize (q ++ [(k, v)]). intros l Hlen Hdup.
  destruct (decide _); [|repeat split; cbn; try done; lia].
  destruct l as [|[k' v'] l]; [cbn in *; lia|]. cbn in Hdup, Hlen.
  apply NoDup_cons in Hdup as [Hk' Hdup]. repeat split; cbn; [|done|lia].
  apply delete_insert_id. by apply not_elem_of_list_to_map_1.
Qed.

Lemma remove_cons k e q :
  Queue.remove k (e :: q) = if decide (e.1 = k) then Queue.remove k q else e :: Queue.remove k q.
Proof.
  unfold Queue.remove. rewrite filter_cons. by destruct (decide (e.1 ≠ k)), (decide (e.1 = k)).
Qed.

Lemma remove_fresh k q : k ∉ q.*1 → Queue.remove k q = q.
Proof.
  induction q as [|e q IH]; [done|]. rewrite remove_cons, fmap_cons, not_elem_of_cons. intros [? ?].
  rewrite decide_False by done. by rewrite IH.
Qed.

Lemma remove_keys k q :
  NoDup q.*1 →
  match list_find (λ item, item = k) q.*1 with
  | Some (index, _) => delete index q.*1
  | None => q.*1
  end = (Queue.remove k q).*1.
Proof.
  induction q as [|e q IH]; [done|]. rewrite remove_cons. cbn [fmap list_fmap list_find].
  intros [Hk Hd]%NoDup_cons. destruct (decide (e.1 = k)) as [<-|Hne]; cbn.
  - by rewrite remove_fresh.
  - rewrite <- IH by done. by destruct (list_find _ _) as [[]|].
Qed.

Lemma remove_map k q :
  NoDup q.*1 → (list_to_map (Queue.remove k q) : gmap K V) = delete k (list_to_map q).
Proof.
  induction q as [|e q IH]; [intros; symmetry; apply delete_empty|]. rewrite remove_cons.
  intros [Hk Hd]%NoDup_cons. cbn [list_to_map foldr]. destruct (decide (e.1 = k)) as [<-|Hne]; cbn.
  - rewrite remove_fresh by done. by rewrite delete_insert_id by (by apply not_elem_of_list_to_map_1).
  - by rewrite delete_insert_ne, IH by done.
Qed.

Lemma remove_sublist k q : Queue.remove k q `sublist_of` q.
Proof. apply sublist_filter. Qed.

Lemma holds_remove c q k v :
  holds c q → Queue.get k q = Some v →
  holds (LimitedCache.remove k c).1 (Queue.remove k q).
Proof.
  intros Hh Hg. unfold LimitedCache.remove. rewrite (holds_get c q), Hg by done.
  destruct Hh as (Ho & Hm & Hd & Hl). cbn. rewrite Ho, remove_keys by done. repeat split; cbn.
  - by rewrite Hm, remove_map.
  - eapply sublist_NoDup; [done|]. apply fmap_sublist, remove_sublist.
  - etrans; [apply sublist_length, remove_sublist|done].
Qed.

Lemma update_absent k f q : Queue.get k q = None → Queue.update k f q = q.
Proof.
  rewrite queue_get. intros Hk%not_elem_of_list_to_map_2. unfold Queue.update.
  rewrite <- (list_fmap_id q) at 2. apply list_fmap_ext. intros i e He. apply decide_False.
  intros <-. apply Hk, list_elem_of_fmap. exists e. split; [done|]. by apply list_elem_of_lookup_2 in He.
Qed.

Lemma cache_max op c : LimitedCache.max (cache_step op c).1 = LimitedCache.max c.
Proof.
  assert (He : ∀ m o n, LimitedCache.max (LimitedCache.evict (K:=K) (V:=V) (LimitedCache.mk m o n)) = n).
  { intros m o n. unfold LimitedCache.evict. cbn. destruct (decide _); [|done]. by destruct o. }
  destruct op; cbn; unfold LimitedCache.insert, LimitedCache.get_mut, LimitedCache.remove,
    LimitedCache.get_or_insert_default_and_edit; destruct (LimitedCache.map c !! k); cbn; auto.
Qed.

Lemma cache_sim op c q :
  holds c q →
  holds (cache_step op c).1 (queue_step (LimitedCache.max c) op q).1
  ∧ (cache_step op c).2 = (queue_step (LimitedCache.max c) op q).2.
Proof.
  intros Hh. destruct op as [k v|k|k f|k|d k f]; cbn; unfold LimitedCache.insert, LimitedCache.get,
    LimitedCache.get_mut, LimitedCache.get_or_insert_default_and_edit, Queue.insert, Queue.edit;
    try rewrite (holds_get c q k) by done; destruct (Queue.get k q) as [w|] eqn:Hg; try done;
    cbn; split; try done; eauto using holds_update, holds_push.
  - apply (holds_update c q k (λ _, v) w); done.
  - by rewrite update_absent.
  - by eapply holds_remove.
  - unfold LimitedCache.remove. by rewrite (holds_get c q k), Hg.
  - unfold LimitedCache.remove. rewrite (holds_get c q k), Hg by done. cbn.
    rewrite remove_fresh; [done|]. rewrite queue_get in Hg. by apply not_elem_of_list_to_map_2.
  - unfold LimitedCache.remove. by rewrite (holds_get c q k), Hg.
Qed.
End refinement.

(** C30. A cache behaves as a queue of at most [n] entries from which the oldest is dropped:
    every call of every history returns what the queue has, and memory is bounded. *)
Theorem limited_cache_refines {K V} `{Countable K} (n : nat) (ops : list (cache_op K V)) :
  let '(c, results) := run_ops cache_step ops (LimitedCache.new n) in
  let '(q, results') := run_ops (queue_step n) ops [] in
  results = results'
  ∧ LimitedCache.map c = list_to_map q ∧ LimitedCache.oldest c = q.*1 ∧ NoDup q.*1 ∧ length q ≤ n.
Proof.
  assert (Hgen : ∀ c q, holds c q → LimitedCache.max c = n →
    (run_ops cache_step ops c).2 = (run_ops (queue_step n) ops q).2
    ∧ holds (run_ops cache_step ops c).1 (run_ops (queue_step n) ops q).1
    ∧ LimitedCache.max (run_ops cache_step ops c).1 = n).
  { induction ops as [|op ops IH]; intros c q Hh Hn; [done|]. cbn.
    pose proof (cache_sim op c q Hh) as [Hs Hr]. pose proof (cache_max op c) as Hm. rewrite Hn in *.
    destruct (cache_step op c) as [c' r], (queue_step n op q) as [q' r']. cbn in *. subst r'.
    destruct (IH c' q' Hs Hm) as (Hrs & Hh' & Hm').
    destruct (run_ops cache_step ops c'), (run_ops (queue_step n) ops q'). cbn in *. by subst. }
  destruct (Hgen (LimitedCache.new n) []) as (Hr & (Ho & Hmap & Hd & Hl) & Hm); [|done|].
  { repeat split; [constructor|cbn; lia]. }
  destruct (run_ops cache_step ops (LimitedCache.new n)), (run_ops (queue_step n) ops []). cbn in *.
  by rewrite Hm in Hl.
Qed.

(** ** Sessions of servers *)

#[global] Instance u8_countable : Countable u8.
Proof. apply (inj_countable' u8_to_Z u8_of_Z), u8_of_to_Z. Defined.

(** [NoServerSessionStorage] has no state; the methods return constants. *)
Module NoServerSessionStorage.
(* @src rustls/src/server/handy.rs 12-14 NoServerSessionStorage::put *)
Definition put (_ _ : list u8) : bool := false.
(* @src rustls/src/server/handy.rs 15-17 NoServerSessionStorage::get *)
Definition get (_ : list u8) : option (list u8) := None.
(* @src rustls/src/server/handy.rs 18-20 NoServerSessionStorage::take *)
Definition take (_ : list u8) : option (list u8) := None.
(* @src rustls/src/server/handy.rs 21-23 NoServerSessionStorage::can_cache *)
Definition can_cache : bool := false.
End NoServerSessionStorage.

(** A [ServerSessionKey] is the bytes it borrows. *)
Module ServerSessionMemoryCache.
(* @src rustls/src/server/handy.rs 35-40 ServerSessionMemoryCache *)
Definition t : Type := LimitedCache.t (list u8) (list u8).

(* @src rustls/src/server/handy.rs 43-50 ServerSessionMemoryCache::new *)
Definition new (size : nat) : t := LimitedCache.new size.

(* @src rustls/src/server/handy.rs 54-60 ServerSessionMemoryCache::put *)
Definition put (key value : list u8) (self : t) : t * bool := (LimitedCache.insert key value self, true).

(* @src rustls/src/server/handy.rs 62-68 ServerSessionMemoryCache::get *)
Definition get (key : list u8) (self : t) : option (list u8) := LimitedCache.get key self.

(* @src rustls/src/server/handy.rs 70-75 ServerSessionMemoryCache::take *)
Definition take (key : list u8) (self : t) : t * option (list u8) := LimitedCache.remove key self.

(* @src rustls/src/server/handy.rs 77-79 ServerSessionMemoryCache::can_cache *)
Definition can_cache (_ : t) : bool := true.
End ServerSessionMemoryCache.

(** ** Sessions of clients *)

(** [NoClientSessionStorage]: what is stored is forgotten. *)
Module NoClientSessionStorage.
(* @src rustls/src/client/handy.rs 16-18 NoClientSessionStorage::kx_hint *)
Definition kx_hint {SK} (_ : SK) : option NamedGroup.t := None.
(* @src rustls/src/client/handy.rs 22-24 NoClientSessionStorage::tls12_session *)
Definition tls12_session {SK S12} (_ : SK) : option S12 := None.
(* @src rustls/src/client/handy.rs 30-32 NoClientSessionStorage::take_tls13_ticket *)
Definition take_tls13_ticket {SK S13} (_ : SK) : option S13 := None.
End NoClientSessionStorage.

Definition MAX_TLS13_TICKETS_PER_SERVER : nat := 8.

Module ServerData.
(** [S12] and [S13] are the sessions of TLS 1.2 and of TLS 1.3. *)
(* @src rustls/src/client/handy.rs 47-55 ServerData *)
Record t (S12 S13 : Type) := mk {
  kx_hint : option NamedGroup.t;
  tls12 : option S12;
  tls13 : list S13;
}.
Arguments mk {S12 S13}.
Arguments kx_hint {S12 S13}.
Arguments tls12 {S12 S13}.
Arguments tls13 {S12 S13}.

(* @src rustls/src/client/handy.rs 57-65 Default_for_ServerData *)
Definition default {S12 S13} : t S12 S13 := mk None None [].

(** The edit of [insert_tls13_ticket]: a full deque, whose capacity is what it was made
    with, loses its first ticket. *)
(* @src rustls/src/client/handy.rs 139-144 ClientSessionMemoryCache::insert_tls13_ticket::closure *)
Definition push_ticket {S12 S13} (value : S13) (data : t S12 S13) : t S12 S13 :=
  let tickets :=
    if decide (length (tls13 data) = MAX_TLS13_TICKETS_PER_SERVER) then tail (tls13 data)
    else tls13 data in
  mk (kx_hint data) (tls12 data) (tickets ++ [value]).

(** [data.tls13.pop_back()]. *)
Definition pop_ticket {S12 S13} (data : t S12 S13) : t S12 S13 * option S13 :=
  (mk (kx_hint data) (tls12 data) (take (length (tls13 data) - 1) (tls13 data)), last (tls13 data)).
End ServerData.

Module ClientSessionMemoryCache.
Section methods.
Context {SK S12 S13 : Type} `{Countable SK}.

(* @src rustls/src/client/handy.rs 67-73 ClientSessionMemoryCache *)
Definition t : Type := LimitedCache.t SK (ServerData.t S12 S13).
Implicit Types (self : t) (key : SK).

(* @src rustls/src/client/handy.rs 76-93 ClientSessionMemoryCache::new *)
Definition new (size : nat) : t :=
  let max_servers :=
    (sat_add u64_MAX (Z.of_nat size) (Z.of_nat MAX_TLS13_TICKETS_PER_SERVER - 1)
     / Z.of_nat MAX_TLS13_TICKETS_PER_SERVER)%Z in
  LimitedCache.new (Z.to_nat max_servers).

Definition edit key (f : ServerData.t S12 S13 → ServerData.t S12 S13) self : t :=
  LimitedCache.get_or_insert_default_and_edit ServerData.default key f self.

(* @src rustls/src/client/handy.rs 97-102 ClientSessionMemoryCache::set_kx_hint *)
Definition set_kx_hint key (group : NamedGroup.t) self : t :=
  edit key (λ data, ServerData.mk (Some group) (ServerData.tls12 data) (ServerData.tls13 data)) self.

(* @src rustls/src/client/handy.rs 104-110 ClientSessionMemoryCache::kx_hint *)
Definition kx_hint key self : option NamedGroup.t := LimitedCache.get key self ≫= ServerData.kx_hint.

(* @src rustls/src/client/handy.rs 112-117 ClientSessionMemoryCache::set_tls12_session *)
Definition set_tls12_session key (value : S12) self : t :=
  edit key (λ data, ServerData.mk (ServerData.kx_hint data) (Some value) (ServerData.tls13 data)) self.

(* @src rustls/src/client/handy.rs 119-125 ClientSessionMemoryCache::tls12_session *)
Definition tls12_session key self : option S12 := LimitedCache.get key self ≫= ServerData.tls12.

(* @src rustls/src/client/handy.rs 127-133 ClientSessionMemoryCache::remove_tls12_session *)
Definition remove_tls12_session key self : t :=
  (LimitedCache.get_mut key (λ data,
     (ServerData.mk (ServerData.kx_hint data) None (ServerData.tls13 data), ServerData.tls12 data)) self).1.

(* @src rustls/src/client/handy.rs 135-145 ClientSessionMemoryCache::insert_tls13_ticket *)
Definition insert_tls13_ticket key (value : S13) self : t := edit key (ServerData.push_ticket value) self.

(* @src rustls/src/client/handy.rs 147-153 ClientSessionMemoryCache::take_tls13_ticket *)
Definition take_tls13_ticket key self : t * option S13 :=
  let '(self, r) := LimitedCache.get_mut key ServerData.pop_ticket self in (self, r ≫= id).
End methods.
Arguments t SK S12 S13 {_ _}.
End ClientSessionMemoryCache.

(** ** Sessions are used once *)

Section once.
Context {K V : Type} `{Countable K}.
Implicit Types (c : LimitedCache.t K V) (k : K) (v : V).

Lemma evict_lookup c k v :
  LimitedCache.map (LimitedCache.evict c) !! k = Some v → LimitedCache.map c !! k = Some v.
Proof.
  unfold LimitedCache.evict. destruct (decide _); [|done]. destruct (LimitedCache.oldest c); [done|].
  cbn. intros Hk%lookup_delete_Some. by destruct Hk.
Qed.

(** After an edit of [k], the entry of a key is as before, or edited, or evicted. *)
Lemma edit_lookup d k f c k' v :
  LimitedCache.map (LimitedCache.get_or_insert_default_and_edit d k f c) !! k' = Some v →
  (k' = k ∧ v = f (default d (LimitedCache.map c !! k))) ∨ LimitedCache.map c !! k' = Some v.
Proof.
  unfold LimitedCache.get_or_insert_default_and_edit. intros Hl.
  assert (Hl' : (<[k := f (default d (LimitedCache.map c !! k))]> (LimitedCache.map c)) !! k' = Some v).
  { destruct (LimitedCache.map c !! k); [done|]. by apply evict_lookup in Hl. }
  apply lookup_insert_Some in Hl' as [[<- <-]|[_ Hl']]; auto.
Qed.

Lemma insert_lookup k v c k' v' :
  LimitedCache.map (LimitedCache.insert k v c) !! k' = Some v' →
  (k' = k ∧ v' = v) ∨ LimitedCache.map c !! k' = Some v'.
Proof. apply (edit_lookup v k (λ _, v)). Qed.
End once.

(** What connections ask of the store of a server. *)
Inductive server_op :=
| Put (key value : list u8)
| Get (key : list u8)
| Take (key : list u8).
#[global] Instance server_op_eq_dec : EqDecision server_op.
Proof. solve_decision. Defined.

Definition server_call (op : server_op) (c : ServerSessionMemoryCache.t)
    : ServerSessionMemoryCache.t * option (list u8) :=
  match op with
  | Put key value => ((ServerSessionMemoryCache.put key value c).1, None)
  | Get key => (c, ServerSessionMemoryCache.get key c)
  | Take key => ServerSessionMemoryCache.take key c
  end.

(** The calls with their results. *)
Fixpoint server_history (ops : list server_op) (c : ServerSessionMemoryCache.t)
    : list (server_op * option (list u8)) :=
  match ops with
  | [] => []
  | op :: ops => let '(c, r) := server_call op c in (op, r) :: server_history ops c
  end.

Definition occurrences {A} `{EqDecision A} (x : A) (l : list A) : nat := length (filter (λ y, y = x) l).
#[global] Arguments occurrences : simpl never.

Lemma occurrences_cons {A} `{EqDecision A} (x y : A) l :
  occurrences x (y :: l) = (if decide (y = x) then 1 else 0) + occurrences x l.
Proof. unfold occurrences. rewrite filter_cons. by destruct (decide (y = x)). Qed.

Definition stored (key value : list u8) (c : ServerSessionMemoryCache.t) : nat :=
  if decide (LimitedCache.map c !! key = Some value) then 1 else 0.

Lemma server_call_stored key value op c :
  (if decide ((op, (server_call op c).2) = (Take key, Some value)) then 1 else 0)
  + stored key value (server_call op c).1
  ≤ (if decide (op = Put key value) then 1 else 0) + stored key value c.
Proof.
  unfold stored. destruct op as [k v|k|k]; cbn [server_call fst snd ServerSessionMemoryCache.put].
  - rewrite (decide_False (P := (Put k v, None) = _)) by done.
    destruct (decide (LimitedCache.map (LimitedCache.insert k v c) !! key = Some value)) as [Hl|]; [|lia].
    apply insert_lookup in Hl as [[<- <-]|Hl]; [rewrite decide_True by done; lia|].
    rewrite (decide_True (P := LimitedCache.map c !! key = _)) by done. lia.
  - repeat case_decide; simplify_eq; lia.
  - unfold ServerSessionMemoryCache.take, LimitedCache.remove. rewrite (decide_False (P := Take k = _)) by done.
    destruct (LimitedCache.map c !! k) as [v|] eqn:Hk; cbn; [|repeat case_decide; simplify_eq; lia].
    destruct (decide (k = key)) as [->|Hne].
    + rewrite (decide_False (P := delete key _ !! key = _)) by (by rewrite lookup_delete_eq).
      rewrite Hk. repeat case_decide; simplify_eq; lia.
    + rewrite lookup_delete_ne by done. repeat case_decide; simplify_eq; lia.
Qed.


(** What connections ask of the store of a client, where it changes. *)
Inductive client_op (SK S12 S13 : Type) :=
| SetKxHint (key : SK) (group : NamedGroup.t)
| SetTls12Session (key : SK) (value : S12)
| RemoveTls12Session (key : SK)
| InsertTls13Ticket (key : SK) (value : S13)
| TakeTls13Ticket (key : SK).
Arguments SetKxHint {SK S12 S13}.
Arguments SetTls12Session {SK S12 S13}.
Arguments RemoveTls12Session {SK S12 S13}.
Arguments InsertTls13Ticket {SK S12 S13}.
Arguments TakeTls13Ticket {SK S12 S13}.
#[global] Instance client_op_eq_dec `{EqDecision SK, EqDecision S12, EqDecision S13} :
  EqDecision (client_op SK S12 S13).
Proof. solve_decision. Defined.

Section client.
Context {SK S12 S13 : Type} `{Countable SK}.
Notation cache := (ClientSessionMemoryCache.t SK S12 S13).
Notation op := (client_op SK S12 S13).
Implicit Types (c : cache) (d : ServerData.t S12 S13).

Definition client_call (o : op) c : cache * option S13 :=
  match o with
  | SetKxHint key group => (ClientSessionMemoryCache.set_kx_hint key group c, None)
  | SetTls12Session key value => (ClientSessionMemoryCache.set_tls12_session key value c, None)
  | RemoveTls12Session key => (ClientSessionMemoryCache.remove_tls12_session key c, None)
  | InsertTls13Ticket key value => (ClientSessionMemoryCache.insert_tls13_ticket key value c, None)
  | TakeTls13Ticket key => ClientSessionMemoryCache.take_tls13_ticket key c
  end.

Fixpoint client_history (ops : list op) c : cache * list (op * option S13) :=
  match ops with
  | [] => (c, [])
  | o :: ops =>
      let '(c, r) := client_call o c in
      let '(c, log) := client_history ops c in (c, (o, r) :: log)
  end.

(** The call as an operation of the cache. *)
Definition cache_op_of (o : op) : cache_op SK (ServerData.t S12 S13) :=
  match o with
  | SetKxHint key group =>
      OpEdit ServerData.default key (λ d, ServerData.mk (Some group) (ServerData.tls12 d) (ServerData.tls13 d))
  | SetTls12Session key value =>
      OpEdit ServerData.default key (λ d, ServerData.mk (ServerData.kx_hint d) (Some value) (ServerData.tls13 d))
  | RemoveTls12Session key =>
      OpModify key (λ d, ServerData.mk (ServerData.kx_hint d) None (ServerData.tls13 d))
  | InsertTls13Ticket key value => OpEdit ServerData.default key (ServerData.push_ticket value)
  | TakeTls13Ticket key => OpModify key (λ d, (ServerData.pop_ticket d).1)
  end.

Lemma client_call_op o c : (client_call o c).1 = (cache_step (cache_op_of o) c).1.
Proof.
  destruct o; cbn; try done; unfold ClientSessionMemoryCache.remove_tls12_session,
    ClientSessionMemoryCache.take_tls13_ticket, LimitedCache.get_mut; by destruct (_ !! key).
Qed.

(** The entries after a call. *)
Lemma cache_step_lookup (o : cache_op SK (ServerData.t S12 S13)) c key d :
  LimitedCache.map (cache_step o c).1 !! key = Some d →
  LimitedCache.map c !! key = Some d
  ∨ match o with
    | OpInsert k v => key = k ∧ d = v
    | OpModify k f => key = k ∧ ∃ d', LimitedCache.map c !! k = Some d' ∧ d = f d'
    | OpEdit d' k f => key = k ∧ d = f (default d' (LimitedCache.map c !! k))
    | _ => False
    end.
Proof.
  destruct o as [k v|k|k f|k|d' k f]; cbn.
  - intros Hl%insert_lookup. tauto.
  - auto.
  - unfold LimitedCache.get_mut. destruct (LimitedCache.map c !! k) as [v|] eqn:Hk; cbn; [|auto].
    intros [[<- <-]|[_ Hl]]%lookup_insert_Some; [right; eauto|auto].
  - unfold LimitedCache.remove. destruct (LimitedCache.map c !! k) as [v|] eqn:Hk; cbn; [|auto].
    intros [_ Hl]%lookup_delete_Some. auto.
  - intros Hl%edit_lookup. tauto.
Qed.
End client.

Lemma occurrences_nil {A} `{EqDecision A} (x : A) : occurrences x [] = 0.
Proof. done. Qed.

Lemma occurrences_app {A} `{EqDecision A} (x : A) l l' :
  occurrences x (l ++ l') = occurrences x l + occurrences x l'.
Proof. unfold occurrences. by rewrite filter_app, length_app. Qed.

Section tickets.
Context {SK S12 S13 : Type} `{Countable SK, EqDecision S12, EqDecision S13}.
Notation cache := (ClientSessionMemoryCache.t SK S12 S13).
Notation op := (client_op SK S12 S13).
Implicit Types (c : cache) (d : ServerData.t S12 S13) (s : S13).

Lemma push_occurrences v d s :
  occurrences s (ServerData.tls13 (ServerData.push_ticket v d))
  ≤ (if decide (v = s) then 1 else 0) + occurrences s (ServerData.tls13 d).
Proof.
  cbn. rewrite occurrences_app, occurrences_cons.
  assert (occurrences s (tail (ServerData.tls13 d)) ≤ occurrences s (ServerData.tls13 d)).
  { destruct (ServerData.tls13 d); [done|]. rewrite occurrences_cons. cbn. lia. }
  rewrite occurrences_nil. destruct (decide (length _ = _)); lia.
Qed.

Lemma pop_occurrences d s :
  (if decide (last (ServerData.tls13 d) = Some s) then 1 else 0)
  + occurrences s (ServerData.tls13 (ServerData.pop_ticket d).1)
  = occurrences s (ServerData.tls13 d).
Proof.
  cbn. destruct (ServerData.tls13 d) as [|x l _] using rev_ind; [done|].
  rewrite last_snoc, length_app, Nat.add_sub, take_app_length, occurrences_app, occurrences_cons.
  rewrite ?occurrences_nil. repeat case_decide; simplify_eq; lia.
Qed.

Definition held (key : SK) s c : nat :=
  match LimitedCache.map c !! key with Some d => occurrences s (ServerData.tls13 d) | None => 0 end.

Lemma take_held k key s c :
  (if decide ((TakeTls13Ticket k : op, (ClientSessionMemoryCache.take_tls13_ticket k c).2)
              = (TakeTls13Ticket key, Some s)) then 1 else 0)
  + held key s (ClientSessionMemoryCache.take_tls13_ticket k c).1 ≤ held key s c.
Proof.
  unfold held, ClientSessionMemoryCache.take_tls13_ticket, LimitedCache.get_mut.
  destruct (LimitedCache.map c !! k) as [d|] eqn:Hk; cbn; [|by rewrite decide_False by (intros [=])].
  destruct (decide (k = key)) as [->|Hne].
  - rewrite Hk, lookup_insert_eq, <- (pop_occurrences d s). cbn. repeat case_decide; simplify_eq; lia.
  - rewrite decide_False by congruence. by rewrite lookup_insert_ne.
Qed.

Lemma client_call_held key s (o : op) c :
  (if decide ((o, (client_call o c).2) = (TakeTls13Ticket key, Some s)) then 1 else 0)
  + held key s (client_call o c).1
  ≤ (if decide (o = InsertTls13Ticket key s) then 1 else 0) + held key s c.
Proof.
  destruct o as [k g|k v|k|k v|k]; [..|cbn [client_call]; rewrite (decide_False (P := _ = InsertTls13Ticket _ _))
    by done; apply take_held]; (rewrite decide_False by (cbn; congruence)); rewrite client_call_op; unfold held;
    (destruct (LimitedCache.map (cache_step _ c).1 !! key) as [d|] eqn:Hl; [|lia]);
    apply cache_step_lookup in Hl as [->|Hl]; try lia; cbn [cache_op_of] in Hl.
  - destruct Hl as [<- ->]. destruct (LimitedCache.map c !! key); cbn; rewrite ?occurrences_nil; lia.
  - destruct Hl as [<- ->]. destruct (LimitedCache.map c !! key); cbn; rewrite ?occurrences_nil; lia.
  - destruct Hl as (<- & d' & -> & ->). cbn. lia.
  - destruct Hl as [<- ->]. etrans; [apply push_occurrences|].
    destruct (LimitedCache.map c !! key); cbn; rewrite ?occurrences_nil; repeat case_decide; simplify_eq; lia.
Qed.

Definition tickets_bounded c : Prop :=
  map_Forall (λ _ d, length (ServerData.tls13 d) ≤ MAX_TLS13_TICKETS_PER_SERVER) (LimitedCache.map c).

Lemma client_call_bounded (o : op) c : tickets_bounded c → tickets_bounded (client_call o c).1.
Proof.
  intros Hb key d. rewrite client_call_op. intros [Hl|Hl]%cache_step_lookup; [by eapply Hb|].
  assert (Hd : ∀ k, length (ServerData.tls13 (default ServerData.default (LimitedCache.map c !! k)))
               ≤ MAX_TLS13_TICKETS_PER_SERVER).
  { intros k. destruct (LimitedCache.map c !! k) as [d'|] eqn:Hk; [by apply (Hb k)|cbn; lia]. }
  destruct o as [k g|k v|k|k v|k]; cbn in Hl.
  - destruct Hl as [_ ->]. apply Hd.
  - destruct Hl as [_ ->]. apply Hd.
  - destruct Hl as (_ & d' & Hk & ->). by apply (Hb k) in Hk.
  - destruct Hl as [_ ->]. pose proof (Hd k) as Hk. cbn. rewrite length_app. cbn.
    destruct (decide _) as [He|]; [|unfold MAX_TLS13_TICKETS_PER_SERVER in *; lia].
    destruct (ServerData.tls13 _); cbn in *; unfold MAX_TLS13_TICKETS_PER_SERVER in *; lia.
  - destruct Hl as (_ & d' & Hk & ->). apply (Hb k) in Hk. cbn. rewrite length_take. lia.
Qed.
End tickets.

(** A client offers every ticket at most once; and the store is bounded, in servers and in
    tickets for each. *)
Theorem client_ticket_single_use {SK S12 S13} `{Countable SK, EqDecision S12, EqDecision S13}
    (size : nat) (ops : list (client_op SK S12 S13)) :
  let '(c, log) := client_history ops (ClientSessionMemoryCache.new size) in
  (∀ key s, occurrences (TakeTls13Ticket key, Some s) log ≤ occurrences (InsertTls13Ticket key s) ops)
  ∧ tickets_bounded c
  ∧ base.size (LimitedCache.map c) * 8 ≤ size + 7.
Proof.
  assert (Hgen : ∀ c q n, tickets_bounded c → holds c q → LimitedCache.max c = n →
    (∀ key s, occurrences (TakeTls13Ticket key, Some s) (client_history ops c).2
              ≤ occurrences (InsertTls13Ticket key s) ops + held key s c)
    ∧ tickets_bounded (client_history ops c).1
    ∧ ∃ q', holds (client_history ops c).1 q' ∧ LimitedCache.max (client_history ops c).1 = n).
  { induction ops as [|o ops IH]; intros c q n Hb Hh Hn; [split; [unfold occurrences; cbn; lia|by eauto]|].
    cbn [client_history]. pose proof (client_call_bounded o c Hb) as Hb'.
    pose proof (cache_sim (cache_op_of o) c q Hh) as [Hh' _]. pose proof (cache_max (cache_op_of o) c) as Hm.
    pose proof (λ key s, client_call_held key s o c) as Hs. rewrite <- client_call_op in Hh', Hm.
    destruct (client_call o c) as [c' r]. cbn [fst snd] in *.
    destruct (IH c' _ n Hb' Hh' (eq_trans Hm Hn)) as (Hu & Hb'' & Hq).
    destruct (client_history ops c') as [c'' log]. cbn [fst snd] in *. split; [|done].
    intros key s. rewrite !occurrences_cons. pose proof (Hs key s). pose proof (Hu key s). lia. }
  edestruct (Hgen (ClientSessionMemoryCache.new size) []) as (Hu & Hb & q & Hh & Hm).
  { apply map_Forall_empty. }
  { repeat split; [constructor|cbn; lia]. }
  { done. }
  destruct (client_history ops _) as [c log]. cbn [fst snd] in *. split; [|split; [done|]].
  - intros key s. pose proof (Hu key s) as Hk. unfold held in Hk. cbn in Hk. rewrite lookup_empty in Hk. lia.
  - destruct Hh as (_ & -> & Hd & Hl). rewrite Hm in Hl. cbn in Hl. rewrite map_size_list_to_map by done.
    unfold sat_add, MAX_TLS13_TICKETS_PER_SERVER in Hl.
    assert (Z.of_nat (length q) ≤ (Z.of_nat size + 7) / 8)%Z.
    { etrans; [apply inj_le, Hl|]. rewrite Z2Nat.id by (apply Z.div_pos; unfold u64_MAX; lia).
      apply Z.div_le_mono; lia. }
    pose proof (Z.mul_div_le (Z.of_nat size + 7) 8). lia.
Qed.
