(* ===== verification/Ticketer.v ===== *)
(** * Session tickets ([rustls/src/ticketer.rs], [rustls-ring/src/ticketer.rs],
    [rustls-aws-lc-rs/src/ticketer.rs])

    A ticket is a session of a server, encrypted so that the server need not store it.
    The keys are changed regularly by [TicketRotator], and made by one of the providers. *)
From stdpp Require Import gmap.
From S2P Require Import Prelude Enums Errors Codec Records Cipher Extensions Payloads Tls13Cipher.

(** ** The trait *)

(** [W] is the state of the random number generator.  A producer has a state of its own,
    of type [P]: [encrypt] changes it.  Lifetimes and times are in nanoseconds. *)
(* @src rustls/src/crypto/mod.rs 571-596 TicketProducer *)
Class TicketProducer (P W : Type) := {
  encrypt : P → list u8 → W → P * W * option (list u8);
  decrypt : P → list u8 → option (list u8);
  lifetime : P → Z;
}.

(** What a producer promises: [issued p c m] says that [p] has made the ticket [c] of the
    message [m].  Producers have names, and reject the tickets of others. *)
Class TicketProducerLaws (P W : Type) `{TicketProducer P W} := {
  producer_wf : P → Prop;
  issued : P → list u8 → list u8 → Prop;
  producer_name : P → list u8;
  encrypt_wf p m w : producer_wf p → producer_wf (encrypt p m w).1.1;
  encrypt_name p m w : producer_name (encrypt p m w).1.1 = producer_name p;
  encrypt_issued p m w c : producer_wf p → (encrypt p m w).2 = Some c → issued (encrypt p m w).1.1 c m;
  encrypt_keeps p m w c m' : issued p c m' → issued (encrypt p m w).1.1 c m';
  decrypt_issued p c m : issued p c m → decrypt p c = Some m;
  decrypt_foreign p q c m :
    producer_wf q → issued p c m → producer_name q ≠ producer_name p → decrypt q c = None;
}.

(** ** Rotation *)

Module Generation.
(* @src rustls/src/ticketer.rs 176-179 Generation *)
Record t (P : Type) := mk { producer : P; expires_at : Z }.
Arguments mk {P}.
Arguments producer {P}.
Arguments expires_at {P}.

(* @src rustls/src/ticketer.rs 182-184 Generation::in_grace_period *)
Definition in_grace_period {P} (self : t P) (now lifetime : Z) : bool :=
  bool_decide (now <= expires_at self + lifetime)%Z.
End Generation.

Module TicketRotatorState.
(* @src rustls/src/ticketer.rs 171-174 TicketRotatorState *)
Record t (P : Type) := mk { current : option (Generation.t P); previous : option (Generation.t P) }.
Arguments mk {P}.
Arguments current {P}.
Arguments previous {P}.
End TicketRotatorState.
Import TicketRotatorState.

Module TicketRotator.
Section methods.
Context {P W : Type} `{!TicketProducer P W}.

(** The lifetime and the generator do not change.  The generator does not panic, so that
    the lock is never poisoned. *)
Context (lifetime : Z) (generator : W → W * (Error.t + P)).
Notation state := (TicketRotatorState.t P).

(* @src rustls/src/ticketer.rs 21-46 TicketRotator::new *)
Definition new (now : Z) (w : W) : W * result Error.t state :=
  match generator w with
  | (w, inr producer) => (w, Ok (mk (Some (Generation.mk producer (now + lifetime))) None))
  | (w, inl e) => (w, Err e)
  end.

(** [match &read.current { Some(current) if now <= current.expires_at => .. }]. *)
Definition is_current (now : Z) (st : state) : bool :=
  match current st with
  | Some current => bool_decide (now <= Generation.expires_at current)%Z
  | None => false
  end.

(** The state that is read after the call.  The check under the read lock and that under
    the write lock are the same; a panic of the generator would poison the lock. *)
(* @src rustls/src/ticketer.rs 95-147 TicketRotator::maybe_roll *)
Definition maybe_roll (now : Z) (st : state) (w : W) : state * W :=
  if is_current now st then (st, w)
  else
    let '(w, made) := generator w in
    let next :=
      match made with
      | inr producer => Some (Generation.mk producer (now + lifetime)%Z)
      | inl _ => None
      end in
    let prev := current st in
    (mk next (match prev with Some _ => prev | None => previous st end), w).

Definition set_producer (p : P) (g : Generation.t P) : Generation.t P :=
  Generation.mk p (Generation.expires_at g).

(* @src rustls/src/ticketer.rs 48-68 TicketRotator::encrypt_at *)
Definition encrypt_at (message : list u8) (now : Z) (st : state) (w : W) : state * W * option (list u8) :=
  let '(st, w) := maybe_roll now st w in
  match current st with
  | Some current =>
      let '(p, w, r) := encrypt (Generation.producer current) message w in
      (mk (Some (set_producer p current)) (previous st), w, r)
  | None =>
      match previous st with
      | None => (st, w, None)
      | Some prev =>
          if negb (Generation.in_grace_period prev now lifetime) then (st, w, None)
          else
            let '(p, w, r) := encrypt (Generation.producer prev) message w in
            (mk None (Some (set_producer p prev)), w, r)
      end
  end.

(** After [maybe_roll]. *)
(* @src rustls/src/ticketer.rs 73-92 TicketRotator::decrypt_at::match *)
Definition decrypt_with (ciphertext : list u8) (now : Z) (st : state) : option (list u8) :=
  match (current ← current st; decrypt (Generation.producer current) ciphertext) with
  | Some plain => Some plain
  | None =>
      prev ← previous st;
      if negb (Generation.in_grace_period prev now lifetime) then None
      else decrypt (Generation.producer prev) ciphertext
  end.

(* @src rustls/src/ticketer.rs 70-93 TicketRotator::decrypt_at *)
Definition decrypt_at (ciphertext : list u8) (now : Z) (st : state) (w : W)
    : state * W * option (list u8) :=
  let '(st, w) := maybe_roll now st w in (st, w, decrypt_with ciphertext now st).
End methods.
End TicketRotator.

(** ** How long tickets can be used *)

(** Names of producers are never made twice: [name_used w n] says that the name [n] has
    been drawn before the state [w]. *)
Class FreshNames {P W} `{TicketProducerLaws P W} (generator : W → W * (Error.t + P)) := {
  name_used : W → list u8 → Prop;
  generator_wf w w' p : generator w = (w', inr p) → producer_wf p;
  generator_fresh w w' p : generator w = (w', inr p) → ¬ name_used w (producer_name p);
  generator_used w w' p : generator w = (w', inr p) → name_used w' (producer_name p);
  generator_keeps w n : name_used w n → name_used (generator w).1 n;
  encrypt_keeps_names p m w n : name_used w n → name_used (encrypt p m w).1.2 n;
}.

(** Calls of the threads that share a rotator, each with the time it was made at.  A roll
    alone is that of a call that another thread overtakes before it reads the state. *)
Inductive rotator_event := Roll | Encrypt (message : list u8) | Decrypt (ciphertext : list u8).

Section rotation.
Context {P W : Type} `{TicketProducerLaws P W}.
Context (L : Z) (generator : W → W * (Error.t + P)) `{!FreshNames generator} (HL : (0 <= L)%Z).
Notation state := (TicketRotatorState.t P).
Implicit Types (g : Generation.t P) (st : state).
Notation name g := (producer_name (Generation.producer g)).
Notation expires := Generation.expires_at.

Definition rotator_step (ev : Z * rotator_event) (s : state * W) : state * W :=
  match ev.2 with
  | Roll => TicketRotator.maybe_roll L generator ev.1 s.1 s.2
  | Encrypt m => (TicketRotator.encrypt_at L generator m ev.1 s.1 s.2).1
  | Decrypt c => (TicketRotator.decrypt_at L generator c ev.1 s.1 s.2).1
  end.

Definition rotator_run (evs : list (Z * rotator_event)) (s : state * W) : state * W :=
  foldl (λ s ev, rotator_step ev s) s evs.

(** Calls are made in the order of their times, from [from] to [until]. *)
Fixpoint in_order (from : Z) (evs : list (Z * rotator_event)) (until : Z) : Prop :=
  match evs with
  | [] => (from <= until)%Z
  | ev :: evs => (from <= ev.1)%Z ∧ in_order ev.1 evs until
  end.

(** Two generations of a state have different names, and the older one is out of its
    grace period before the newer one expires; the last one has expired at the time [now]
    if there is no new one. *)
Definition rotator_wf (now : Z) (s : state * W) : Prop :=
  (∀ g, current s.1 = Some g ∨ previous s.1 = Some g →
     producer_wf (Generation.producer g) ∧ name_used s.2 (name g))
  ∧ (∀ g g', current s.1 = Some g → previous s.1 = Some g' →
       name g ≠ name g' ∧ (expires g' + L < expires g)%Z)
  ∧ (∀ g, current s.1 = None → previous s.1 = Some g → (expires g < now)%Z).

(** What a call does to the state: it rolls, and may then use one of the producers. *)
Definition same_generation g g' : Prop :=
  name g' = name g ∧ expires g' = expires g
  ∧ (producer_wf (Generation.producer g) → producer_wf (Generation.producer g'))
  ∧ (∀ c m, issued (Generation.producer g) c m → issued (Generation.producer g') c m).

Definition used_producer (s s' : state * W) : Prop :=
  option_Forall2 same_generation (current s.1) (current s'.1)
  ∧ option_Forall2 same_generation (previous s.1) (previous s'.1)
  ∧ (∀ n, name_used s.2 n → name_used s'.2 n).

#[local] Instance same_generation_refl : Reflexive same_generation.
Proof. by intros g. Qed.

(** The generations of two states that differ by the use of a producer. *)
Lemma generation_back o o' g' :
  option_Forall2 same_generation o o' → o' = Some g' → ∃ g, o = Some g ∧ same_generation g g'.
Proof. intros [g g'' Hsame|] [=<-]. eauto. Qed.

Lemma generation_forth o o' g :
  option_Forall2 same_generation o o' → o = Some g → ∃ g', o' = Some g' ∧ same_generation g g'.
Proof. intros [g' g'' Hsame|] [=->]. eauto. Qed.

Lemma same_generation_encrypt g m w :
  same_generation g (TicketRotator.set_producer (encrypt (Generation.producer g) m w).1.1 g).
Proof.
  split; [apply encrypt_name|]. split; [done|]. split; [apply encrypt_wf|]. intros c m'. apply encrypt_keeps.
Qed.

Lemma encrypt_at_used m now st w :
  used_producer (TicketRotator.maybe_roll L generator now st w)
    (TicketRotator.encrypt_at L generator m now st w).1.
Proof.
  unfold TicketRotator.encrypt_at. destruct (TicketRotator.maybe_roll _ _ _ _ _) as [[c p] w'].
  assert (Hself : ∀ o, option_Forall2 same_generation o o) by (intros [g|]; by constructor).
  cbn [current previous]. destruct c as [g|]; [|destruct p as [g|]; [|by repeat split; cbn]].
  - pose proof (same_generation_encrypt g m w') as Hg.
    pose proof (λ n, encrypt_keeps_names (Generation.producer g) m w' n) as Hn.
    destruct (encrypt _ _ _) as [[q w''] r]. by repeat split; cbn; [constructor|..].
  - destruct (negb _); [by repeat split; cbn|]. pose proof (same_generation_encrypt g m w') as Hg.
    pose proof (λ n, encrypt_keeps_names (Generation.producer g) m w' n) as Hn.
    destruct (encrypt _ _ _) as [[q w''] r]. by repeat split; cbn; [..|constructor|].
Qed.

Lemma rotator_step_used ev s :
  used_producer (TicketRotator.maybe_roll L generator ev.1 s.1 s.2) (rotator_step ev s).
Proof.
  assert (Hr : ∀ s, used_producer s s).
  { intros [[c p] w]. repeat split; cbn; [..|done]; [destruct c|destruct p]; by constructor. }
  unfold rotator_step. destruct ev as [now [|m|c]]; cbn; [apply Hr|apply encrypt_at_used|].
  unfold TicketRotator.decrypt_at. destruct (TicketRotator.maybe_roll _ _ _ _ _). apply Hr.
Qed.

(** What is previous after a roll. *)
Definition demoted st : option (Generation.t P) :=
  match current st with Some _ => current st | None => previous st end.

Lemma demoted_expired τ now s g :
  rotator_wf τ s → (τ <= now)%Z → TicketRotator.is_current now s.1 = false →
  demoted s.1 = Some g → (expires g < now)%Z.
Proof.
  intros (_ & _ & Hp) Hle Hcur Hd. unfold demoted, TicketRotator.is_current in *.
  destruct (current s.1) as [g0|].
  - injection Hd as ->. apply bool_decide_eq_false in Hcur. lia.
  - pose proof (Hp g eq_refl Hd). lia.
Qed.

Lemma roll_wf τ now s :
  rotator_wf τ s → (τ <= now)%Z →
  rotator_wf now (TicketRotator.maybe_roll L generator now s.1 s.2).
Proof.
  intros Hwf Hle. pose proof (λ g, demoted_expired τ now s g Hwf Hle) as Hexp.
  destruct s as [st w], Hwf as (Hg & Hgg & Hp). cbn in *. unfold TicketRotator.maybe_roll.
  destruct (TicketRotator.is_current now st) eqn:Hcur.
  { split; [done|]. split; [done|]. intros g Hn Hs. pose proof (Hp g Hn Hs). lia. }
  pose proof (generator_keeps w) as Hk. destruct (generator w) as [w' made] eqn:Hgen. cbn in Hk.
  assert (Hprev : ∀ g, demoted st = Some g →
            producer_wf (Generation.producer g) ∧ name_used w (name g)).
  { intros g Hs. apply Hg. unfold demoted in Hs. destruct (current st); auto. }
  split; [|split]; cbn; fold (demoted st).
  - intros g [Hs|Hs]; [|destruct (Hprev g Hs); auto]. destruct made as [|p]; [done|]. injection Hs as <-. cbn.
    eauto using generator_wf, generator_used.
  - intros g g' Hs Hs'. destruct made as [|p]; [done|]. injection Hs as <-. cbn. split.
    + intros Hn. eapply generator_fresh; [done|]. rewrite Hn. by apply Hprev.
    + pose proof (Hexp g' eq_refl Hs'). lia.
  - intros g _ Hs. by apply Hexp.
Qed.

Lemma used_wf now s s' : rotator_wf now s → used_producer s s' → rotator_wf now s'.
Proof.
  intros (Hg & Hgg & Hp) (Hc & Hpr & Hn).
  split; [|split].
  - intros g' [Hs|Hs]; eapply generation_back in Hs as (g & Hs & Hname & _ & Hwf & _); [|done| |done];
      destruct (Hg g ltac:(auto)) as [Hw Hu]; rewrite Hname; auto.
  - intros g' g'' Hs Hs'. eapply generation_back in Hs as (g & Hs & -> & -> & _); [|done].
    eapply generation_back in Hs' as (h & Hs' & -> & -> & _); [|done]. by apply Hgg.
  - intros g' Hnone Hs'. eapply generation_back in Hs' as (h & Hs' & _ & -> & _); [|done]. apply Hp; [|done].
    rewrite Hnone in Hc. by inversion Hc.
Qed.

Lemma step_wf τ ev s : rotator_wf τ s → (τ <= ev.1)%Z → rotator_wf ev.1 (rotator_step ev s).
Proof. intros Hwf Hle. eapply used_wf; [by apply (roll_wf τ)|apply rotator_step_used]. Qed.

(** An invariant of all calls up to [until] holds after them. *)
Lemma run_invariant (I : Z → state * W → Prop) evs from until s :
  (∀ τ ev s, (τ <= ev.1 <= until)%Z → I τ s → I ev.1 (rotator_step ev s)) →
  in_order from evs until → I from s → ∃ τ, (from <= τ <= until)%Z ∧ I τ (rotator_run evs s).
Proof.
  intros Hstep. revert from s. induction evs as [|ev evs IH]; intros from s Hord Hi; cbn in *.
  - exists from. split; [lia|done].
  - destruct Hord as [Hle Hord].
    assert (Hu : (ev.1 <= until)%Z).
    { clear - Hord. revert Hord. generalize ev.1. induction evs as [|ev' evs IH]; intros z; cbn; [done|].
      intros [? ?%IH]. lia. }
    destruct (IH ev.1 (rotator_step ev s) Hord) as (τ & Hτ & Hrun); [by apply (Hstep from); [lia|]|].
    exists τ. split; [lia|done].
Qed.

(** A generation that has issued the ticket [c] is in the state, and expires at [e]. *)
Definition tracks (c m : list u8) (e : Z) (s : state * W) : Prop :=
  ∃ g, (current s.1 = Some g ∨ previous s.1 = Some g) ∧ expires g = e ∧ issued (Generation.producer g) c m.

Lemma roll_tracks τ now c m e s :
  rotator_wf τ s → (now <= e + L)%Z → tracks c m e s →
  tracks c m e (TicketRotator.maybe_roll L generator now s.1 s.2).
Proof.
  intros (_ & Hgg & _) Hle (g & Hg & <- & Hi). unfold TicketRotator.maybe_roll.
  destruct (TicketRotator.is_current now s.1) eqn:Hcur; [by exists g|].
  destruct (generator s.2) as [w' made]. exists g. split; [right|done]. cbn.
  unfold TicketRotator.is_current in Hcur. destruct (current s.1) as [g0|] eqn:Hc; [|naive_solver].
  destruct Hg as [[=<-]|Hg]; [done|]. pose proof (Hgg g0 g eq_refl Hg). apply bool_decide_eq_false in Hcur. lia.
Qed.

Lemma used_tracks c m e s s' : used_producer s s' → tracks c m e s → tracks c m e s'.
Proof.
  intros (Hc & Hp & _) (g & Hg & <- & Hi).
  destruct Hg as [Hg|Hg]; eapply generation_forth in Hg as (g' & Hg' & _ & He & _ & Hkeep); try done;
    exists g'; eauto.
Qed.

Lemma decrypt_tracked τ now c m e s :
  rotator_wf τ s → tracks c m e s → (now <= e + L)%Z →
  TicketRotator.decrypt_with L c now s.1 = Some m.
Proof.
  intros (Hwf & Hgg & _) (g & Hg & <- & Hi) Hle. unfold TicketRotator.decrypt_with.
  destruct Hg as [->|Hg]; cbn; [by rewrite (decrypt_issued _ c m)|].
  assert (Hcur : (current s.1 ≫= λ current, decrypt (Generation.producer current) c) = None).
  { destruct (current s.1) as [g0|]; [|done]. cbn. eapply decrypt_foreign; [|done|].
    - apply (Hwf g0). auto.
    - apply (Hgg g0 g); done. }
  rewrite Hcur, Hg. cbn. unfold Generation.in_grace_period. rewrite bool_decide_true by lia. cbn.
  by apply decrypt_issued.
Qed.

(** The name is taken, and its generation expires by [e]. *)
Definition expires_by (n : list u8) (e : Z) (s : state * W) : Prop :=
  name_used s.2 n
  ∧ ∀ g, current s.1 = Some g ∨ previous s.1 = Some g → name g = n → (expires g <= e)%Z.

Lemma roll_expires_by now n e s :
  expires_by n e s → expires_by n e (TicketRotator.maybe_roll L generator now s.1 s.2).
Proof.
  intros [Hu He]. unfold TicketRotator.maybe_roll. destruct (TicketRotator.is_current now s.1); [done|].
  pose proof (generator_keeps s.2 n Hu) as Hk. destruct (generator s.2) as [w' made] eqn:Hgen.
  split; [done|]. intros g [Hs|Hs] Hn; cbn in Hs.
  - destruct made as [|p]; [done|]. injection Hs as <-. cbn in Hn. subst n.
    exfalso. by eapply generator_fresh.
  - apply He; [|done]. destruct (current s.1); auto.
Qed.

Lemma used_expires_by n e s s' : used_producer s s' → expires_by n e s → expires_by n e s'.
Proof.
  intros (Hc & Hp & Hk) [Hu He]. split; [auto|]. intros g' Hg' Hn.
  destruct Hg' as [Hg|Hg]; eapply generation_back in Hg as (g & Hg & Hname & -> & _); try done;
    apply He; [auto|congruence|auto|congruence].
Qed.

Lemma step_expires_by ev n e s : expires_by n e s → expires_by n e (rotator_step ev s).
Proof. intros He. eapply used_expires_by; [apply rotator_step_used|by apply roll_expires_by]. Qed.

(** What is current after a roll has not expired. *)
Lemma roll_current now s g :
  current (TicketRotator.maybe_roll L generator now s.1 s.2).1 = Some g → (now <= expires g)%Z.
Proof.
  unfold TicketRotator.maybe_roll. destruct (TicketRotator.is_current now s.1) eqn:Hcur.
  - cbn. intros Hg. unfold TicketRotator.is_current in Hcur. rewrite Hg in Hcur.
    by apply bool_decide_eq_true in Hcur.
  - destruct (generator s.2) as [w' [|p]]; cbn; [done|]. intros [=<-]. cbn. lia.
Qed.

Lemma decrypt_expired now p c m e s :
  rotator_wf now s → issued p c m → expires_by (producer_name p) e s →
  (∀ g, current s.1 = Some g → (now <= expires g)%Z) → (e + L < now)%Z →
  TicketRotator.decrypt_with L c now s.1 = None.
Proof.
  intros (Hwf & _) Hi [_ He] Hcur Hlt. unfold TicketRotator.decrypt_with.
  assert (Hc : (current s.1 ≫= λ current, decrypt (Generation.producer current) c) = None).
  { destruct (current s.1) as [g|]; [|done]. cbn. eapply decrypt_foreign; [apply Hwf; auto|done|]. intros Hn.
    pose proof (He g (or_introl eq_refl) Hn). pose proof (Hcur g eq_refl). lia. }
  rewrite Hc. destruct (previous s.1) as [g|]; [|done]. cbn. unfold Generation.in_grace_period.
  case_bool_decide; [|done]. cbn. eapply decrypt_foreign; [apply Hwf; auto|done|]. intros Hn.
  pose proof (He g (or_intror eq_refl) Hn). lia.
Qed.

(** No generation was made after the time [now]. *)
Definition made_by (now : Z) (s : state * W) : Prop :=
  ∀ g, current s.1 = Some g ∨ previous s.1 = Some g → (expires g <= now + L)%Z.

Lemma roll_made_by τ now s :
  made_by τ s → (τ <= now)%Z → made_by now (TicketRotator.maybe_roll L generator now s.1 s.2).
Proof.
  intros Hm Hle. unfold TicketRotator.maybe_roll. destruct (TicketRotator.is_current now s.1).
  - intros g Hg. pose proof (Hm g Hg). lia.
  - destruct (generator s.2) as [w' made]. intros g [Hg|Hg]; cbn in Hg.
    + destruct made; [done|]. injection Hg as <-. cbn. lia.
    + assert (expires g <= τ + L)%Z; [|lia]. apply Hm. destruct (current s.1); auto.
Qed.

Lemma used_made_by now s s' : used_producer s s' → made_by now s → made_by now s'.
Proof.
  intros (Hc & Hp & _) Hm g' [Hg|Hg].
  - apply (generation_back _ _ _ Hc) in Hg as (g & Hg & _ & -> & _). auto.
  - apply (generation_back _ _ _ Hp) in Hg as (g & Hg & _ & -> & _). auto.
Qed.

(** The generation that issues a ticket, and its producer then. *)
Lemma encrypt_at_issued τ m now s st' w' c :
  rotator_wf τ s → made_by τ s → (τ <= now)%Z →
  TicketRotator.encrypt_at L generator m now s.1 s.2 = (st', w', Some c) →
  ∃ e p, tracks c m e (st', w') ∧ issued p c m ∧ expires_by (producer_name p) (now + L) (st', w')
    ∧ (is_Some (current st') → (now <= e)%Z).
Proof.
  intros Hwf Hm Hle Henc. pose proof (roll_wf τ now s Hwf Hle) as Hwf'.
  pose proof (roll_made_by τ now s Hm Hle) as Hm'. pose proof (roll_current now s) as Hcur.
  pose proof (encrypt_at_used m now s.1 s.2) as Hused. rewrite Henc in Hused. cbn [fst] in Hused.
  unfold TicketRotator.encrypt_at in Henc.
  destruct (TicketRotator.maybe_roll L generator now s.1 s.2) as [st w].
  assert (Hex : ∀ g, current st = Some g ∨ previous st = Some g →
            expires_by (name g) (now + L) (st', w')).
  { intros g Hg. eapply used_expires_by; [done|]. split; [by apply Hwf'|].
    intros g' Hg' _. by apply Hm'. }
  cbn [current previous] in *. destruct (current st) as [g|] eqn:Hc.
  - pose proof (encrypt_issued (Generation.producer g) m w c) as Hi.
    pose proof (encrypt_name (Generation.producer g) m w) as Hn.
    destruct (encrypt _ _ _) as [[p w''] r]. injection Henc as <- <- ->. cbn in *.
    exists (expires g), p. split; [|split; [|split]].
    + exists (TicketRotator.set_producer p g). split; [by left|]. split; [done|].
      apply Hi; [apply (proj1 Hwf' g); auto|done].
    + apply Hi; [apply (proj1 Hwf' g); auto|done].
    + rewrite Hn. auto.
    + intros _. auto.
  - destruct (previous st) as [g|] eqn:Hp; [|done]. destruct (negb _); [done|].
    pose proof (encrypt_issued (Generation.producer g) m w c) as Hi.
    pose proof (encrypt_name (Generation.producer g) m w) as Hn.
    destruct (encrypt _ _ _) as [[p w''] r]. injection Henc as <- <- ->. cbn in *.
    exists (expires g), p. split; [|split; [|split]].
    + exists (TicketRotator.set_producer p g). split; [by right|]. split; [done|].
      apply Hi; [apply (proj1 Hwf' g); auto|done].
    + apply Hi; [apply (proj1 Hwf' g); auto|done].
    + rewrite Hn. auto.
    + by intros [].
Qed.

Lemma rotator_new_wf now w w' st :
  TicketRotator.new L generator now w = (w', Ok st) → rotator_wf now (st, w') ∧ made_by now (st, w').
Proof.
  unfold TicketRotator.new. destruct (generator w) as [w1 [|p]] eqn:Hgen; [done|]. intros [= <- <-].
  split; [split; [|split]|]; cbn.
  - intros g [[=<-]|?]; [|done]. cbn. eauto using generator_wf, generator_used.
  - done.
  - done.
  - intros g [[=<-]|?]; [|done]. cbn. lia.
Qed.

End rotation.

(** ** The producers *)

(** [SystemRandom::new().fill(&mut buf)], of [ring] and of [aws-lc-rs], for a buffer of the
    given length. *)
Class SystemRandom (W : Type) := {
  system_fill : nat → W → W * option (list u8);
  system_fill_length n w v : (system_fill n w).2 = Some v → length v = n;
}.

Lemma split_at_checked_len {A} (l k : list A) n :
  length l = n → split_at_checked (l ++ k) n = Some (l, k).
Proof. intros Hn. by apply split_at_checked_Some. Qed.

Module AeadTicketer.
(** The algorithm is that of the key. *)
(* @src rustls-ring/src/ticketer.rs 14-31 AeadTicketer *)
Record t := mk { key : less_safe_key; key_name : list u8; maximum_ciphertext_len : nat }.

Section methods.
Context {W : Type} `{!SystemRandom W}.

(** [TICKETER_AEAD]. *)
Context (TICKETER_AEAD : Aead.t).

(* @src rustls-ring/src/ticketer.rs 34-54 AeadTicketer::new *)
Definition new (w : W) : W * result Error.t t :=
  match system_fill 32 w with
  | (w, None) => (w, Err Error.FailedToGetRandomBytes)
  | (w, Some key) =>
      match bind_key (E:=Error.t) TICKETER_AEAD key with
      | Ok key =>
          match system_fill 16 w with
          | (w, None) => (w, Err Error.FailedToGetRandomBytes)
          | (w, Some key_name) => (w, Ok (mk key key_name 0))
          end
      | _ => (w, Panic)
      end
  end.

(** [fetch_max] leaves the larger one. *)
(* @src rustls-ring/src/ticketer.rs 58-92 AeadTicketer::encrypt *)
Definition encrypt (self : t) (message : list u8) (w : W) : t * W * option (list u8) :=
  match system_fill 12 w with
  | (w, None) => (self, w, None)
  | (w, Some nonce_buf) =>
      let aad := key_name self in
      match Aead.seal (algorithm (key self)) (key_bytes (key self)) nonce_buf aad message with
      | (_, None) => (self, w, None)
      | (sealed, Some tag) =>
          let ciphertext := key_name self ++ nonce_buf ++ sealed ++ tag in
          (mk (key self) (key_name self) (Nat.max (maximum_ciphertext_len self) (length ciphertext)), w,
           Some ciphertext)
      end
  end.

(** The nonces of [ring] have [NONCE_LEN] bytes. *)
(* @src rustls-ring/src/ticketer.rs 94-136 AeadTicketer::decrypt *)
Definition decrypt (self : t) (ciphertext : list u8) : option (list u8) :=
  if decide (maximum_ciphertext_len self < length ciphertext) then None
  else
    '(alleged_key_name, ciphertext) ← split_at_checked ciphertext (length (key_name self));
    '(nonce, ciphertext) ← split_at_checked ciphertext NONCE_LEN;
    if decide (key_name self ≠ alleged_key_name) then None
    else
      match Aead.open_ (algorithm (key self)) (key_bytes (key self)) nonce alleged_key_name ciphertext with
      | (out, Some plain_len) => Some (take plain_len out)
      | (_, None) => None
      end.

(** [Duration::ZERO]. *)
#[global] Instance producer : TicketProducer t W := {|
  Ticketer.encrypt := encrypt;
  Ticketer.decrypt := decrypt;
  lifetime _ := 0%Z;
|}.

(** A ticket of [self]. *)
Definition issued_by (self : t) (c m : list u8) : Prop :=
  ∃ nonce sealed tag,
    c = key_name self ++ nonce ++ sealed ++ tag ∧ length (key_name self) = 16 ∧ length nonce = NONCE_LEN
    ∧ Aead.seal (algorithm (key self)) (key_bytes (key self)) nonce (key_name self) m = (sealed, Some tag)
    ∧ length c ≤ maximum_ciphertext_len self.

Lemma ticketer_decrypts self c m : issued_by self c m → decrypt self c = Some m.
Proof.
  intros (nonce & sealed & tag & -> & Hname & Hn & Hs & Hmax). unfold decrypt.
  rewrite decide_False by lia. rewrite split_at_checked_len by done. cbn [mbind option_bind].
  rewrite split_at_checked_len by done. cbn [mbind option_bind]. rewrite decide_False by auto.
  destruct (Aead.open_seal _ _ _ _ _ _ _ Hs) as [rest ->]. by rewrite take_app_length.
Qed.

Lemma ticketer_foreign p q c m :
  length (key_name q) = 16 → issued_by p c m → key_name q ≠ key_name p → decrypt q c = None.
Proof.
  intros Hq (nonce & sealed & tag & -> & Hname & _) Hne. unfold decrypt. case_decide; [done|].
  rewrite split_at_checked_len by congruence. cbn [mbind option_bind].
  destruct (split_at_checked _ NONCE_LEN) as [[]|]; [|done]. cbn. by rewrite decide_True.
Qed.

#[global] Instance producer_laws : TicketProducerLaws t W.
Proof.
  refine {| producer_wf p := length (key_name p) = 16; issued := issued_by; producer_name := key_name |};
    cbn [Ticketer.encrypt Ticketer.decrypt producer]; unfold encrypt.
  - intros p m w Hp. destruct (system_fill 12 w) as [w' [nonce|]]; [|done].
    by destruct (Aead.seal _ _ _ _ _) as [? []].
  - intros p m w. destruct (system_fill 12 w) as [w' [nonce|]]; [|done].
    by destruct (Aead.seal _ _ _ _ _) as [? []].
  - intros p m w c Hp. pose proof (system_fill_length 12 w) as Hn.
    destruct (system_fill 12 w) as [w' [nonce|]]; [|done].
    destruct (Aead.seal _ _ _ _ _) as [sealed [tag|]] eqn:Hs; [|done]. cbn. intros [= <-].
    exists nonce, sealed, tag. cbn. split; [done|]. split; [done|]. split; [by apply Hn|]. split; [done|lia].
  - intros p m w c m' Hi. destruct (system_fill 12 w) as [w' [nonce|]]; [|done].
    destruct (Aead.seal _ _ _ _ _) as [sealed [tag|]]; [|done].
    destruct Hi as (n & s & tg & ? & ? & ? & ? & ?). exists n, s, tg. cbn. repeat split; try done. lia.
  - apply ticketer_decrypts.
  - intros p q c m. apply ticketer_foreign.
Defined.

(** [AeadTicketer::new] as a generator: with keys of 32 bytes it does not panic. *)
Definition generator (w : W) : W * (Error.t + t) :=
  match new w with
  | (w, Ok p) => (w, inr p)
  | (w, Err e) => (w, inl e)
  | (w, Panic) => (w, inl Error.FailedToGetRandomBytes)
  end.

Lemma new_no_panic w : Aead.key_len TICKETER_AEAD = 32 → (new w).2 ≠ Panic.
Proof.
  intros Hk. unfold new, bind_key. pose proof (system_fill_length 32 w) as Hl.
  destruct (system_fill 32 w) as [w' [k|]]; [|done]. rewrite decide_True by (rewrite Hk; by apply Hl).
  by destruct (system_fill 16 w') as [? []].
Qed.
End methods.
End AeadTicketer.

(** The parts of [aws-lc-rs] that its ticketer uses: AES-256 in CBC mode, which draws its
    initialization vector, and HMAC-SHA256, with what the crate documents of them. *)
Record AwsLc (W : Type) := mkAwsLc {
  cbc_encrypt : list u8 → list u8 → W → W * option (list u8 * list u8);
  cbc_decrypt : list u8 → list u8 → list u8 → option (list u8);
  hmac_sign : list u8 → list u8 → list u8;
  cbc_iv_length key m w iv c : (cbc_encrypt key m w).2 = Some (iv, c) → length iv = 16;
  cbc_decrypts key m w iv c : (cbc_encrypt key m w).2 = Some (iv, c) → cbc_decrypt key iv c = Some m;
  hmac_length key data : length (hmac_sign key data) = 32;
}.
Arguments cbc_encrypt {W}.
Arguments cbc_decrypt {W}.
Arguments hmac_sign {W}.
Arguments cbc_iv_length {W}.
Arguments cbc_decrypts {W}.
Arguments hmac_length {W}.

Module Rfc5077Ticketer.
(** The two AES keys are made of the same bytes. *)
(* @src rustls-aws-lc-rs/src/ticketer.rs 19-26 Rfc5077Ticketer *)
Record t := mk { aes_key : list u8; hmac_key : list u8; key_name : list u8; maximum_ciphertext_len : nat }.

Section methods.
Context {W : Type} `{!SystemRandom W} (lib : AwsLc W).

(** [hmac::Key::generate] draws a key of 32 bytes; keys of the right length are accepted. *)
(* @src rustls-aws-lc-rs/src/ticketer.rs 29-68 Rfc5077Ticketer::new *)
Definition new (w : W) : W * result Error.t t :=
  match system_fill 32 w with
  | (w, None) => (w, Err Error.FailedToGetRandomBytes)
  | (w, Some aes_key) =>
      match system_fill 32 w with
      | (w, None) => (w, Err (Error.Other))
      | (w, Some hmac_key) =>
          match system_fill 16 w with
          | (w, None) => (w, Err Error.FailedToGetRandomBytes)
          | (w, Some key_name) => (w, Ok (mk aes_key hmac_key key_name 0))
          end
      end
  end.

(** What is authenticated: the name, the initialization vector, the length of the
    ciphertext in two bytes, and the ciphertext. *)
(* @src rustls-aws-lc-rs/src/ticketer.rs 89-98 Rfc5077Ticketer::encrypt::match *)
Definition hmac_data (key_name iv encrypted_state : list u8) : option (list u8) :=
  if decide (Z.of_nat (length encrypted_state) <= 0xffff)%Z
  then Some (key_name ++ iv ++ be_bytes 2 (Z.of_nat (length encrypted_state)) ++ encrypted_state)
  else None.

(* @src rustls-aws-lc-rs/src/ticketer.rs 72-119 Rfc5077Ticketer::encrypt *)
Definition encrypt (self : t) (message : list u8) (w : W) : t * W * option (list u8) :=
  match cbc_encrypt lib (aes_key self) message w with
  | (w, None) => (self, w, None)
  | (w, Some (iv, encrypted_state)) =>
      match hmac_data (key_name self) iv encrypted_state with
      | None => (self, w, None)
      | Some data =>
          let tag := hmac_sign lib (hmac_key self) data in
          let ciphertext := key_name self ++ iv ++ encrypted_state ++ tag in
          (mk (aes_key self) (hmac_key self) (key_name self)
              (Nat.max (maximum_ciphertext_len self) (length ciphertext)), w, Some ciphertext)
      end
  end.

(* @src rustls-aws-lc-rs/src/ticketer.rs 121-170 Rfc5077Ticketer::decrypt *)
Definition decrypt (self : t) (ciphertext : list u8) : option (list u8) :=
  if decide (maximum_ciphertext_len self < length ciphertext) then None
  else
    '(alleged_key_name, ciphertext) ← split_at_checked ciphertext (length (key_name self));
    '(iv, ciphertext) ← split_at_checked ciphertext 16;
    let tag_len := 32 in
    if decide (length ciphertext < tag_len) then None
    else
      '(enc_state, mac) ← split_at_checked ciphertext (length ciphertext - tag_len);
      data ← hmac_data alleged_key_name iv enc_state;
      if decide (hmac_sign lib (hmac_key self) data = mac)
      then cbc_decrypt lib (aes_key self) iv enc_state else None.

#[local] Instance producer : TicketProducer t W := {|
  Ticketer.encrypt := encrypt;
  Ticketer.decrypt := decrypt;
  lifetime _ := 0%Z;
|}.

(** A ticket is read by the ticketer that made it, also after it has made others. *)
Lemma rfc5077_roundtrip self m w c n :
  (encrypt self m w).2 = Some c → maximum_ciphertext_len (encrypt self m w).1.1 ≤ n →
  decrypt (mk (aes_key self) (hmac_key self) (key_name self) n) c = Some m.
Proof.
  unfold encrypt. pose proof (λ iv s, cbc_iv_length lib (aes_key self) m w iv s) as Hiv.
  pose proof (λ iv s, cbc_decrypts lib (aes_key self) m w iv s) as Hdec.
  destruct (cbc_encrypt lib (aes_key self) m w) as [w' [[iv s]|]]; [|done].
  destruct (hmac_data _ iv s) as [data|] eqn:Hd; [|done]. cbn in *. intros [= <-] Hn.
  unfold decrypt. cbn [maximum_ciphertext_len aes_key hmac_key key_name]. rewrite decide_False by lia.
  rewrite split_at_checked_len by done. cbn [mbind option_bind].
  rewrite split_at_checked_len by (by eapply Hiv). cbn [mbind option_bind].
  rewrite length_app, hmac_length, decide_False by lia.
  rewrite split_at_checked_len by lia. cbn [mbind option_bind]. rewrite Hd. cbn [mbind option_bind].
  rewrite decide_True by done. by apply Hdec.
Qed.
End methods.
End Rfc5077Ticketer.

(** ** An example

    A random number generator that counts, and fails at 100; an AEAD without a tag. *)
Module Counting.
#[export] Program Instance random : SystemRandom nat := {|
  system_fill n w := if decide (w < 100) then (S w, Some (replicate n (u8_of_Z (Z.of_nat w)))) else (w, None);
|}.
Next Obligation. cbn. intros n w v. case_decide; [|done]. intros [= <-]. apply length_replicate. Qed.

Program Definition aead : Aead.t := {|
  Aead.key_len := 32; Aead.tag_len := 0;
  Aead.seal _ _ _ m := (m, Some []); Aead.open_ _ _ _ c := (c, Some (length c));
|}.
Next Obligation. lia. Qed.
Next Obligation. lia. Qed.
Next Obligation. done. Qed.
Next Obligation. by intros ?????? [= <- <-]. Qed.
Next Obligation. done. Qed.
Next Obligation. intros ?????? [= <- <-]. cbn. lia. Qed.
Next Obligation. cbn. intros ?????? [= <- <-]. exists []. by rewrite !app_nil_r. Qed.

Definition generator : nat → nat * (Error.t + AeadTicketer.t) := AeadTicketer.generator aead.

Lemma generator_some w w' p :
  generator w = (w', inr p) →
  w' = S (S w) ∧ S w < 100 ∧ AeadTicketer.key_name p = replicate 16 (u8_of_Z (Z.of_nat (S w))).
Proof.
  unfold generator, AeadTicketer.generator, AeadTicketer.new. cbn [system_fill random].
  case_decide; [|done]. unfold bind_key. rewrite length_replicate, decide_True by done.
  case_decide; [|done]. intros [= <- <-]. split; [done|]. split; [done|]. reflexivity.
Qed.

Lemma byte_inj a b : a < 100 → b < 100 → u8_of_Z (Z.of_nat a) = u8_of_Z (Z.of_nat b) → a = b.
Proof.
  intros Ha Hb Hab%(f_equal u8_to_Z). rewrite !u8_to_of_Z, !Z.mod_small in Hab by (cbn; lia). lia.
Qed.

#[export] Instance fresh : FreshNames generator.
Proof.
  refine {| name_used w n := ∃ i, i < w ∧ n = replicate 16 (u8_of_Z (Z.of_nat i)) |}.
  - intros w w' p (_ & _ & Hn)%generator_some. cbn. by rewrite Hn.
  - intros w w' p (_ & Hw & Hn)%generator_some (i & Hi & He). cbn in He. rewrite Hn in He.
    injection He as He. assert (S w = i) by (apply byte_inj; [lia|lia|done]). lia.
  - intros w w' p (-> & _ & Hn)%generator_some. exists (S w). split; [lia|done].
  - intros w n (i & Hi & ->). exists i. split; [|done].
    unfold generator, AeadTicketer.generator, AeadTicketer.new. cbn [system_fill random].
    case_decide; [|cbn; lia]. unfold bind_key. rewrite length_replicate, decide_True by done.
    case_decide; cbn; lia.
  - intros p m w n (i & Hi & ->). exists i. split; [|done].
    cbn. unfold AeadTicketer.encrypt. cbn [system_fill random]. case_decide; [|done].
    destruct (Aead.seal _ _ _ _ _) as [? []]; cbn; lia.
Defined.

(** The ticket is made at time 15 by the second generation, which is replaced at 24. *)
Definition start : TicketRotatorState.t AeadTicketer.t :=
  match (TicketRotator.new 10 generator 0 0).2 with Ok st => st | _ => mk None None end.
Definition before : list (Z * rotator_event) := [(2%Z, Encrypt [x01]); (12%Z, Roll)].
Definition after : list (Z * rotator_event) := [(20%Z, Encrypt [x03]); (24%Z, Roll)].
Definition issue : TicketRotatorState.t AeadTicketer.t * nat * option (list u8) :=
  let s := rotator_run 10 generator before (start, 2) in
  TicketRotator.encrypt_at 10 generator [x02] 15 s.1 s.2.
Definition ticket : list u8 := default [] issue.2.
Definition later : TicketRotatorState.t AeadTicketer.t * nat := rotator_run 10 generator after issue.1.
End Counting.
Import Counting.

