(* ===== verification/ServerConfig.v ===== *)
(** * The configuration of a server ([rustls/src/server/config.rs])

    What a handshake reads of its configuration: the choices it leaves to the
    application, and the stores and clocks that it gives access to. *)
From stdpp Require Import gmap.
From S2P Require Import Prelude Enums Errors Codec Records Fragmenter Extensions Payloads ServerHello.
From S2P Require Import ClientHello Messages Receive Connection Hkdf KeySchedule Sessions Compress Verify Kx.
From S2P Require Import QuicKeys Transcript Outputs ClientConfig LimitedCache.

(** ** Objects of the configuration

    Trait objects whose methods reach outside the connection act on [world]. *)

Module StoresServerSessions.
Section trait.
Context `{Provider}.
(* @src rustls/src/server/config.rs 346-386 StoresServerSessions *)
Record t := mk {
  put : list u8 → list u8 → world → world * bool;
  get : list u8 → world → world * option (list u8);
  take : list u8 → world → world * option (list u8);
  can_cache : world → bool;
}.

(** A [ServerSessionMemoryCache] that is a part of the world. *)
Definition memory_cache (view : world → ServerSessionMemoryCache.t)
    (update : ServerSessionMemoryCache.t → world → world) : t :=
  mk (λ key value w,
        let '(c, r) := ServerSessionMemoryCache.put key value (view w) in (update c w, r))
     (λ key w, (w, ServerSessionMemoryCache.get key (view w)))
     (λ key w, let '(c, r) := ServerSessionMemoryCache.take key (view w) in (update c w, r))
     (λ w, ServerSessionMemoryCache.can_cache (view w)).
End trait.
End StoresServerSessions.

(** [Arc<dyn TicketProducer>]: [Ticketer] has its implementations. *)
Module TicketProducerObject.
Section trait.
Context `{Provider}.
Record t := mk {
  encrypt : list u8 → world → world * option (list u8);
  decrypt : list u8 → world → world * option (list u8);
  lifetime : Duration.t;
}.
End trait.
End TicketProducerObject.

(** The struct [ClientHello], which resolvers are given. *)
Module ReceivedHello.
(* @src rustls/src/server/config.rs 426-440 ClientHello *)
Record t := mk {
  server_name : option (list u8);
  signature_schemes : list SignatureScheme.t;
  alpn : option (list ApplicationProtocol.t);
  server_cert_types : option (list CertificateType.t);
  client_cert_types : option (list CertificateType.t);
  cipher_suites : list CipherSuite.t;
  certificate_authorities : option (list DistinguishedName.t);
  named_groups : option (list NamedGroup.t);
}.

(* @src rustls/src/server/config.rs 457-488 ClientHello::new *)
Definition new (payload : ClientHelloPayload.t) (signature_schemes : option (list SignatureScheme.t))
    (server_name : option (list u8)) (version : option ProtocolVersion.t) : t :=
  let e := ClientHelloPayload.extensions payload in
  mk server_name
     (match signature_schemes with
      | Some s => s
      | None => default [] (ClientExtensions.signature_schemes e)
      end)
     (ClientExtensions.protocols e)
     (ClientExtensions.server_certificate_types e)
     (ClientExtensions.client_certificate_types e)
     (ClientHelloPayload.cipher_suites payload)
     (if decide (version = Some ProtocolVersion.TLSv1_2) then None
      else ClientExtensions.certificate_authority_names e)
     (ClientExtensions.named_groups e).
End ReceivedHello.

Module ServerCredentialResolver.
(* @src rustls/src/server/config.rs 388-424 ServerCredentialResolver *)
Record t := mk {
  resolve : ReceivedHello.t → result Error.t SelectedCredential.t;
  supported_certificate_types : list CertificateType.t;
}.
End ServerCredentialResolver.

(** [SingleCredential] as the resolver of a server. *)
(* @src rustls/src/crypto/signer.rs 73-85 ServerCredentialResolver_for_SingleCredential *)
Definition server_resolver (self : SingleCredential.t) : ServerCredentialResolver.t :=
  ServerCredentialResolver.mk
    (λ client_hello,
       ok_or (Credentials.signer (SingleCredential.credentials self)
                (ReceivedHello.signature_schemes client_hello))
             (Error.PeerIncompatible PeerIncompatible.NoSignatureSchemesInCommon))
    (SingleCredential.types self).

(** ** Choices *)

Module Tls13Tickets.
(* @src rustls/src/server/config.rs 313-322 Tls13Tickets *)
Record t := mk { default : nat; max : nat }.

(* @src rustls/src/server/config.rs 325-337 Tls13Tickets::resolve *)
Definition resolve (self : t) (requested : option ClientTicketRequest.t) (resuming : bool) : nat :=
  match requested with
  | None => default self
  | Some req =>
      Nat.min (Z.to_nat (u8_to_Z (if resuming then ClientTicketRequest.resumption_count req
                                  else ClientTicketRequest.new_session_count req))) (max self)
  end.
End Tls13Tickets.

Module InvalidSniPolicy.
(* @src rustls/src/server/config.rs 579-607 InvalidSniPolicy *)
Inductive t := RejectAll | IgnoreIpAddresses | IgnoreAll.

(* @src rustls/src/server/config.rs 610-629 InvalidSniPolicy::accept *)
Definition accept `{!PkiTypes} (self : t) (payload : option ServerNamePayload.t)
    : result Error.t (option (list u8)) :=
  match payload with
  | None => Ok None
  | Some payload =>
      match ServerNamePayload.to_dns_name_normalized payload with
      | Some server_name => Ok (Some server_name)
      | None =>
          match self, payload with
          | IgnoreAll, _ => Ok None
          | IgnoreIpAddresses, ServerNamePayload.IpAddress => Ok None
          | _, _ => Err (Error.PeerMisbehaved PeerMisbehaved.ServerNameMustContainOneHostName)
          end
      end
  end.
End InvalidSniPolicy.

(** [Iterator::min_by_key]: the first of the least. *)
Fixpoint min_by_key {A} (key : A → nat) (l : list A) : option A :=
  match l with
  | [] => None
  | x :: l =>
      match min_by_key key l with
      | Some y => if decide (key y < key x) then Some y else Some x
      | None => Some x
      end
  end.

(** The pairs of a position in [server] and an element of [client]: those of [client] that
    are in [server], where they are there by [same]. *)
Definition positions {A B} (same : B → A → bool) (client : list A) (server : list B) : list (nat * A) :=
  omap (λ a, (λ '(pos, _), (pos, a)) <$> list_find (λ b, same b a = true) server) client.

(** [PreferServerOrder]. *)
Definition server_order {A B} (same : B → A → bool) (client : list A) (server : list B) : option A :=
  snd <$> min_by_key fst (positions same client server).

Module OfferedKxGroup.
Section group.
Context `{Provider}.
(* @src rustls/src/server/config.rs 934-945 OfferedKxGroup *)
Record t := mk { group : SupportedKxGroup.t world; has_key_share : bool }.
End group.
End OfferedKxGroup.

Section selectors.
Context `{Provider}.
Notation suite12 := (Tls12CipherSuite.t prf12 aead12).
Notation suite13 := (Tls13CipherSuite.t enc dec quic_alg).

(* @src rustls/src/server/config.rs 882-911 CipherSuiteSelector *)
Record CipherSuiteSelector := mk_suite_selector {
  select_tls12_cipher_suite : list suite12 → list suite12 → option suite12;
  select_tls13_cipher_suite : list suite13 → list suite13 → option suite13;
}.

(* @src rustls/src/server/config.rs 913-932 KeyExchangeSelector *)
Record KeyExchangeSelector := mk_kx_selector {
  select_key_exchange : list OfferedKxGroup.t → list (SupportedKxGroup.t world) →
    option (SupportedKxGroup.t world);
}.

(** [PartialEq] of suites. *)
Definition same_suite12 (a b : suite12) : bool :=
  bool_decide (CipherSuiteCommon.suite (Tls12CipherSuite.common a)
               = CipherSuiteCommon.suite (Tls12CipherSuite.common b)).
Definition same_suite13 (a b : suite13) : bool :=
  bool_decide (CipherSuiteCommon.suite (Tls13CipherSuite.common a)
               = CipherSuiteCommon.suite (Tls13CipherSuite.common b)).

(* @src rustls/src/server/config.rs 769-795 CipherSuiteSelector_for_PreferClientOrder *)
Definition PreferClientOrder_suites : CipherSuiteSelector :=
  mk_suite_selector (λ client _, head client) (λ client _, head client).

(* @src rustls/src/server/config.rs 759-767 KeyExchangeSelector_for_PreferClientOrder *)
Definition PreferClientOrder_kx : KeyExchangeSelector :=
  mk_kx_selector (λ client _, OfferedKxGroup.group <$> head client).

(* @src rustls/src/server/config.rs 820-852 CipherSuiteSelector_for_PreferServerOrder *)
Definition PreferServerOrder_suites : CipherSuiteSelector :=
  mk_suite_selector (server_order same_suite12) (server_order same_suite13).

(* @src rustls/src/server/config.rs 802-818 KeyExchangeSelector_for_PreferServerOrder *)
Definition PreferServerOrder_kx : KeyExchangeSelector :=
  mk_kx_selector (λ client server,
    OfferedKxGroup.group <$> server_order
      (λ ss offered, bool_decide (SupportedKxGroup.name ss
                                  = SupportedKxGroup.name (OfferedKxGroup.group offered)))
      client server).
End selectors.

(** Names are compared without regard to case. *)
Module ServerNameResolver.
(* @src rustls/src/server/handy.rs 166-171 ServerNameResolver *)
Record t := mk { by_name : list (list u8 * Credentials.t) }.

(* @src rustls/src/server/handy.rs 211-224 ServerNameResolver::resolve *)
Definition resolve `{!PkiTypes} (self : t) (client_hello : ReceivedHello.t)
    : result Error.t SelectedCredential.t :=
  match ReceivedHello.server_name client_hello with
  | None => Err (Error.PeerIncompatible PeerIncompatible.NoServerNameProvided)
  | Some name =>
      match list_find (λ e, dns_to_lowercase e.1 = dns_to_lowercase name) (by_name self) with
      | None => Err Error.NoSuitableCertificate
      | Some (_, (_, credentials)) =>
          ok_or (Credentials.signer credentials (ReceivedHello.signature_schemes client_hello))
                (Error.PeerIncompatible PeerIncompatible.NoSignatureSchemesInCommon)
      end
  end.
End ServerNameResolver.

(** ** The configuration *)

Module ServerConfig.
Section methods.
Context `{Provider}.

(** The key log is [will_log], its entries being kept with the outputs; the time provider
    and the compression cache are their methods. *)
(* @src rustls/src/server/config.rs 30-240 ServerConfig *)
Record t := mk {
  provider : CryptoProvider.t;
  cipher_suite_selector : CipherSuiteSelector;
  kx_selector : KeyExchangeSelector;
  max_fragment_size : option nat;
  session_storage : StoresServerSessions.t;
  ticketer : option TicketProducerObject.t;
  cert_resolver : ServerCredentialResolver.t;
  alpn_protocols : list ApplicationProtocol.t;
  verifier : ClientVerifier.t;
  will_log : string → bool;
  enable_secret_extraction : bool;
  max_early_data_size : Z;
  send_half_rtt_data : bool;
  send_tls13_tickets : Tls13Tickets.t;
  require_ems : bool;
  time_provider : world → world * option Z;
  cert_compressors : list CertCompressor.t;
  compression_for : CertCompressor.t → CertificatePayloadTls13.t → world →
    world * option CompressionCacheEntry.t;
  cert_decompressors : list CertDecompressor.t;
  invalid_sni_policy : InvalidSniPolicy.t;
}.

(* @src rustls/src/server/config.rs 302-304 ServerConfig::supports_version *)
Definition supports_version (self : t) (v : ProtocolVersion.t) (protocol : Protocol.t) : bool :=
  CryptoProvider.supports_version (provider self) v && Protocol.supports_version protocol v.

(* @src rustls/src/server/config.rs 306-310 ServerConfig::current_time *)
Definition current_time (self : t) : action world Error.t Z := λ w,
  match time_provider self w with
  | (w, now) => (w, ok_or now Error.FailedToGetCurrentTime)
  end.
End methods.
End ServerConfig.

(** ** What the choices promise *)

(** A selector promises to choose among the suites that the client offers. *)
Class SuiteSelectorLaws `{Provider} (s : CipherSuiteSelector) : Prop := {
  select_tls12_offered client server suite :
    select_tls12_cipher_suite s client server = Some suite → suite ∈ client;
  select_tls13_offered client server suite :
    select_tls13_cipher_suite s client server = Some suite → suite ∈ client;
}.

Lemma min_by_key_spec {A} (key : A → nat) l :
  match min_by_key key l with
  | Some x => x ∈ l ∧ Forall (λ y, key x ≤ key y) l
  | None => l = []
  end.
Proof.
  induction l as [|x l IH]; [done|]. cbn. destruct (min_by_key key l) as [y|].
  - destruct IH as [Hy Hl]. case_decide.
    + split; [by right|]. constructor; [lia|done].
    + split; [by left|]. constructor; [done|]. eapply Forall_impl; [done|]. cbn. lia.
  - subst. split; [by left|]. by repeat constructor.
Qed.

Lemma positions_elem {A B} (same : B → A → bool) client server pos a :
  (pos, a) ∈ positions same client server →
  a ∈ client ∧ ∃ b, server !! pos = Some b ∧ same b a = true
    ∧ ∀ j b', server !! j = Some b' → j < pos → same b' a = false.
Proof.
  intros (a' & Ha & He)%list_elem_of_omap. destruct (list_find _ server) as [[i b]|] eqn:Hf; [|done].
  injection He as <- <-. split; [done|]. apply list_find_Some in Hf as (Hb & Hs & Hlt). exists b.
  split; [done|]. split; [done|]. intros j b' Hj Hl. pose proof (Hlt j b' Hj Hl) as Hn.
  by destruct (same b' a').
Qed.

(** [PreferServerOrder] chooses what the client offers, and nothing that the server
    likes better is offered. *)
Lemma server_order_best {A B} (same : B → A → bool) (client : list A) (server : list B) a :
  server_order same client server = Some a →
  a ∈ client ∧ ∃ pos b, server !! pos = Some b ∧ same b a = true
    ∧ ∀ a' pos', a' ∈ client → pos' < pos → (∃ b', server !! pos' = Some b' ∧ same b' a' = true) → False.
Proof.
  unfold server_order. pose proof (min_by_key_spec fst (positions same client server)) as Hm.
  destruct (min_by_key _ _) as [[pos a']|]; [|done]. intros [= <-]. destruct Hm as [Hin Hall].
  apply positions_elem in Hin as (Ha & b & Hb & Hs & _). split; [done|]. exists pos, b. split; [done|].
  split; [done|]. intros a'' pos' Ha'' Hlt (b' & Hb' & Hs').
  destruct (list_find (λ b, same b a'' = true) server) as [[i c]|] eqn:Hf.
  - rewrite Forall_forall in Hall. assert (Hle : pos ≤ i).
    { apply (Hall (i, a'')). apply list_elem_of_omap. exists a''. split; [done|]. by rewrite Hf. }
    apply list_find_Some in Hf as (_ & _ & Hlow). pose proof (Hlow pos' b' Hb' ltac:(lia)). done.
  - apply list_find_None in Hf. rewrite Forall_forall in Hf.
    apply (Hf b'); [by eapply list_elem_of_lookup_2|done].
Qed.

#[global] Instance client_order_laws `{Provider} : SuiteSelectorLaws PreferClientOrder_suites.
Proof. split; intros [|x l] server suite; try done; intros [= <-]; by left. Qed.

#[global] Instance server_order_laws `{Provider} : SuiteSelectorLaws PreferServerOrder_suites.
Proof. split; intros client server suite Hs; by apply server_order_best in Hs as [? _]. Qed.
