(* ===== verification/ServerHs13.v ===== *)
(** * The TLS 1.3 server handshake ([rustls/src/server/tls13.rs], and the extensions of
    [rustls/src/server/hs.rs])

    From the ClientHello to application traffic: one definition per handler of a state.
    A handler consumes its state, so that it returns the next one. *)
From stdpp Require Import gmap.
From S2P Require Import Prelude Enums Errors Codec Records Fragmenter Deframer Extensions Payloads.
From S2P Require Import ServerHello ClientHello Messages Cipher Send Receive InputBuffer Connection.
From S2P Require Import ConnectionSpec Hkdf KeySchedule Sessions Compress Verify Kx QuicKeys Transcript.
From S2P Require Import Traffic Outputs ClientConfig Ech ClientHs13 LimitedCache ServerConfig.

(** ** Data *)

Module ServerExtensionsInput.
(** [TransportParameters] has one variant, [Quic]. *)
(* @src rustls/src/msgs/handshake.rs 387-391 ServerExtensionsInput *)
Record t := mk { transport_parameters : option Payload }.
End ServerExtensionsInput.

Module HandshakeHashOrBuffer.
(* @src rustls/src/server/hs.rs 907-910 HandshakeHashOrBuffer *)
Inductive t :=
| Buffer (inner : HandshakeHashBuffer.t)
| Hash (inner : HandshakeHash.t).

(* @src rustls/src/server/hs.rs 913-919 HandshakeHashOrBuffer::start *)
Definition start (self : t) (hash : KeySchedule.Hash.t) : result Error.t HandshakeHash.t :=
  match self with
  | Buffer inner => Ok (HandshakeHashBuffer.start_hash inner hash)
  | Hash inner =>
      if decide (HandshakeHash.algorithm inner = KeySchedule.Hash.algorithm hash) then Ok inner
      else Err (Error.PeerMisbehaved PeerMisbehaved.HandshakeHashVariedAfterRetry)
  end.
End HandshakeHashOrBuffer.

Module PreviousClientHello.
(* @src rustls/src/server/hs.rs 842-846 PreviousClientHello *)
Record t := mk { offered_psk : bool; suite : CipherSuite.t; group : NamedGroup.t }.
End PreviousClientHello.

(** [ClientHelloInput] of the server. *)
Module HelloInput.
(* @src rustls/src/server/hs.rs 860-865 ClientHelloInput *)
Record t := mk {
  message : Message.t;
  client_hello : ClientHelloPayload.t;
  sig_schemes : list SignatureScheme.t;
}.

Definition extensions (self : t) : ClientExtensions.t := ClientHelloPayload.extensions (client_hello self).

(* @src rustls/src/server/hs.rs 868-904 ClientHelloInput::from_input *)
Definition from_input (input : Input.t) : result Error.t t :=
  client_hello ← require_handshake_msg (Input.message input)
    (λ p, match p with HandshakePayload.ClientHello c => Some c | _ => None end) HandshakeType.ClientHello;
  if decide (Compression.Null ∉ ClientHelloPayload.compression_methods client_hello)
  then Err (Error.PeerIncompatible PeerIncompatible.NullCompressionRequired)
  else
    _ ← Input.check_aligned_handshake input;
    sig_schemes ← ok_or (ClientExtensions.signature_schemes (ClientHelloPayload.extensions client_hello))
      (Error.PeerIncompatible PeerIncompatible.SignatureAlgorithmsExtensionRequired);
    Ok (mk (Input.message input) client_hello sig_schemes).
End HelloInput.

Module ExpectClientHello.
Section data.
Context `{Provider}.
(* @src rustls/src/server/hs.rs 497-508 ExpectClientHello *)
Record t := mk {
  config : ServerConfig.t;
  protocol : Protocol.t;
  extra_exts : ServerExtensionsInput.t;
  transcript : HandshakeHashOrBuffer.t;
  session_id : SessionId.t;
  sni : option (list u8);
  resumption_data : list u8;
  using_ems : bool;
  previous_hello : option PreviousClientHello.t;
  send_tickets : nat;
}.

(* @src rustls/src/server/hs.rs 511-535 ExpectClientHello::new *)
Definition new (config : ServerConfig.t) (extra_exts : ServerExtensionsInput.t)
    (resumption_data : list u8) (protocol : Protocol.t) : t :=
  let transcript_buffer :=
    if ClientVerifier.offer_client_auth (ServerConfig.verifier config)
    then HandshakeHashBuffer.set_client_auth_enabled HandshakeHashBuffer.new
    else HandshakeHashBuffer.new in
  mk config protocol extra_exts (HandshakeHashOrBuffer.Buffer transcript_buffer) SessionId.empty None
     resumption_data false None 0.
End data.
End ExpectClientHello.

Module Server13.

(** The struct [HandshakeState]. *)
Section states.
Context `{Provider}.
Notation Schedule := (KeyScheduleTrafficWithClientFinishedPending.t enc dec quic_alg).

(* @src rustls/src/server/tls13.rs 1581-1589 HandshakeState *)
Record HandshakeState := mk_hs {
  config : ServerConfig.t;
  transcript : HandshakeHash.t;
  suite : Tls13CipherSuite.t enc dec quic_alg;
  alpn_protocol : option ApplicationProtocol.t;
  sni : option (list u8);
  resumption_data : list u8;
  send_tickets : nat;
}.
Definition with_transcript (v : HandshakeHash.t) (self : HandshakeState) : HandshakeState :=
  mk_hs (config self) v (suite self) (alpn_protocol self) (sni self) (resumption_data self)
    (send_tickets self).
Definition add_message (m : Message.t) (self : HandshakeState) : HandshakeState :=
  with_transcript (HandshakeHash.add_message m (transcript self)) self.
Definition abandon_client_auth (self : HandshakeState) : HandshakeState :=
  with_transcript (HandshakeHash.abandon_client_auth (transcript self)) self.

(* @src rustls/src/server/tls13.rs 928-931 ExpectAndSkipRejectedEarlyData *)
Record ExpectAndSkipRejectedEarlyData := mk_skip {
  skip_data_left : nat;
  next : ExpectClientHello.t;
}.

(** Three structs with the same fields, which differ in what they accept. *)
(* @src rustls/src/server/tls13.rs 1065-1069 ExpectCertificate *)
Record ExpectCertificate := mk_cert {
  cert_hs : HandshakeState;
  cert_key_schedule : Schedule;
  cert_expected_certificate_type : CertificateType.t;
}.

(* @src rustls/src/server/tls13.rs 1153-1158 AwaitClientIdentityVerification *)
Record AwaitClientIdentityVerification := mk_await {
  aw_hs : HandshakeState;
  aw_key_schedule : Schedule;
  aw_peer_identity : Identity.t;
}.

(* @src rustls/src/server/tls13.rs 1195-1199 ExpectCertificateVerify *)
Record ExpectCertificateVerify := mk_cv {
  cv_hs : HandshakeState;
  cv_key_schedule : Schedule;
  cv_peer_identity : Identity.t;
}.

(* @src rustls/src/server/tls13.rs 1245-1250 ExpectEarlyData *)
Record ExpectEarlyData := mk_early {
  early_hs : HandshakeState;
  early_key_schedule : Schedule;
  early_peer_identity : option Identity.t;
  remaining_length : nat;
}.

(* @src rustls/src/server/tls13.rs 1423-1427 ExpectFinished *)
Record ExpectFinished := mk_fin {
  fin_hs : HandshakeState;
  fin_key_schedule : Schedule;
  fin_peer_identity : option Identity.t;
}.

(** The states that [ServerState::Tls13] boxes, [VerifyClientIdentity], and the state after
    a HelloRetryRequest, which is one of [ServerState] itself. *)
Inductive State :=
| ClientHelloAgain (st : ExpectClientHello.t)
| SkipEarlyData (st : ExpectAndSkipRejectedEarlyData)
| CertificateOrCompressedCertificate (st : ExpectCertificate)
| Certificate (st : ExpectCertificate)
| VerifyClientIdentity (st : AwaitClientIdentityVerification)
| CertificateVerify (st : ExpectCertificateVerify)
| EarlyData (st : ExpectEarlyData)
| Finished (st : ExpectFinished)
| Traffic (st : ServerTls13.ExpectTraffic enc dec quic_alg)
| QuicTraffic (st : ServerTls13.ExpectQuicTraffic).
End states.

(** ** Extensions *)

Definition dns_name_eq `{!PkiTypes} (a b : list u8) : bool :=
  bool_decide (dns_to_lowercase a = dns_to_lowercase b).

(* @src rustls/src/server/hs.rs 354-363 CommonExtensions *)
Record CommonExtensions := mk_common {
  server_name_ack : option unit;
  selected_protocol : option SingleProtocolName.t;
  transport_parameters : option Payload;
}.

(* @src rustls/src/server/hs.rs 196-199 Tls13Extensions *)
Record Tls13Extensions := mk_exts {
  client_certificate_type : CertificateType.t;
  exts_alpn_protocol : option ApplicationProtocol.t;
}.

(** The first of our protocols that the client offers. *)
(* @src rustls/src/server/hs.rs 288-305 ExtensionProcessing::process_common::match *)
Definition choose_protocol (our_protocols : list ApplicationProtocol.t)
    (their_protocols : option (list ApplicationProtocol.t)) : result Error.t (option ApplicationProtocol.t) :=
  match their_protocols with
  | Some their_protocols =>
      match list_find (λ ours, ours ∈ their_protocols) our_protocols with
      | Some (_, selected_protocol) => Ok (Some selected_protocol)
      | None => match our_protocols with [] => Ok None | _ => Err Error.NoApplicationProtocol end
      end
  | None => Ok None
  end.

(* @src rustls/src/server/hs.rs 365-402 select_cert_type *)
Definition select_cert_type (client : option (list CertificateType.t)) (server : list CertificateType.t)
    : result Error.t CertificateType.t :=
  let bad := Err (Error.PeerIncompatible PeerIncompatible.IncorrectCertificateTypeExtension) in
  if decide (server = []) then Err (Error.ApiMisuse ApiMisuse.NoSupportedCertificateTypes)
  else
    match client with
    | Some client =>
        match list_find (λ ct, ct ∈ server) client with
        | Some (_, ct) => Ok ct
        | None => bad
        end
    | None => if decide (CertificateType.X509 ∈ server) then Ok CertificateType.X509 else bad
    end.

Section extensions.
Context `{Provider}.
Notation shs := (hs ServerSide.t).

(** QUIC needs a protocol if one was configured or offered, and the peer's parameters. *)
(* @src rustls/src/server/hs.rs 313-332 ExtensionProcessing::process_common::match *)
Definition process_quic (our_protocols : list ApplicationProtocol.t)
    (chosen_protocol : option ApplicationProtocol.t) (e : ClientExtensions.t) : shs unit :=
  quic ← has_quic;
  if quic : bool then
    _ ← refuse_if (bool_decide (chosen_protocol = None)
          && (bool_decide (our_protocols ≠ []) || bool_decide (is_Some (ClientExtensions.protocols e))))
          Error.NoApplicationProtocol;
    match ClientExtensions.transport_parameters e with
    | Some params => with_quic (modify (Quic.transport_parameters params))
    | None => fail (Error.PeerMisbehaved PeerMisbehaved.MissingQuicTransportParameters)
    end
  else mret tt.

(** Returns the protocol, the extensions and what is left of the OCSP response. *)
(* @src rustls/src/server/hs.rs 270-351 ExtensionProcessing::process_common *)
Definition process_common (config : ServerConfig.t) (hello : ClientHelloPayload.t)
    (extra_exts : ServerExtensionsInput.t) (ocsp_response : option (list u8))
    (resumedata : option CommonServerSessionValue.t)
    : shs (option ApplicationProtocol.t * CommonExtensions * option (list u8)) :=
  let e := ClientHelloPayload.extensions hello in
  let transport_parameters := ServerExtensionsInput.transport_parameters extra_exts in
  let our_protocols := ServerConfig.alpn_protocols config in
  chosen_protocol ← lift (choose_protocol our_protocols (ClientExtensions.protocols e));
  _ ← (match chosen_protocol with
       | Some protocol => output (OutputEvent.ApplicationProtocol protocol)
       | None => mret tt
       end);
  _ ← process_quic our_protocols chosen_protocol e;
  let for_resume := bool_decide (is_Some resumedata) in
  let server_name_ack :=
    match for_resume, ClientExtensions.server_name e with
    | false, Some (ServerNamePayload.SingleDnsName _) => Some tt
    | _, _ => None
    end in
  let ocsp_response :=
    if for_resume || bool_decide (ClientExtensions.certificate_status_request e = None)
    then None else ocsp_response in
  mret (chosen_protocol,
        mk_common server_name_ack (SingleProtocolName.new <$> chosen_protocol) transport_parameters,
        ocsp_response).

(** Also returns what is left of the OCSP response. *)
(* @src rustls/src/server/hs.rs 202-254 Tls13Extensions::new *)
Definition new_extensions (extra_exts : ServerExtensionsInput.t) (ocsp_response : option (list u8))
    (resumedata : option CommonServerSessionValue.t) (hello : ClientHelloPayload.t)
    (config : ServerConfig.t)
    : shs (Tls13Extensions * EncryptedExtensions.t * option (list u8)) :=
  let e := ClientHelloPayload.extensions hello in
  '(alpn_protocol, common, ocsp_response) ←
    process_common config hello extra_exts ocsp_response resumedata;
  expected_client_type ← lift (select_cert_type (ClientExtensions.client_certificate_types e)
    (ClientVerifier.supported_certificate_types (ServerConfig.verifier config)));
  expected_server_type ← lift (select_cert_type (ClientExtensions.server_certificate_types e)
    (ServerCredentialResolver.supported_certificate_types (ServerConfig.cert_resolver config)));
  let client_certificate_type :=
    if bool_decide (is_Some (ClientExtensions.client_certificate_types e))
       && ClientVerifier.offer_client_auth (ServerConfig.verifier config)
    then Some expected_client_type else None in
  let server_certificate_type :=
    if bool_decide (is_Some (ClientExtensions.server_certificate_types e))
    then Some expected_server_type else None in
  mret (mk_exts expected_client_type alpn_protocol,
        EncryptedExtensions.mk (server_name_ack common) (selected_protocol common)
          client_certificate_type server_certificate_type (transport_parameters common)
          None None None ∅,
        ocsp_response).
End extensions.

(** ** Resumption *)

Section psk.
Context `{Provider}.
Notation shs := (hs ServerSide.t).
Notation Suite := (Tls13ProtocolSuite.t enc dec quic_alg).

(** A method of a trait object, which cannot fail. *)
Definition call {A} (f : world → world * A) : action world Error.t A := λ w,
  match f w with (w, a) => (w, Ok a) end.

(* @src rustls/src/server/tls13.rs 449-452 PskAcceptance *)
Record PskAcceptance := mk_psk { index : nat; session : Tls13ServerSessionValue.t }.

(** Tickets are sealed, or keys of the store. *)
(* @src rustls/src/server/tls13.rs 1317-1322 Tls13ServerSessionValue::from_ticket::match *)
Definition open_ticket (config : ServerConfig.t) (identity : list u8) : world → world * option (list u8) :=
  match ServerConfig.ticketer config with
  | Some ticketer => TicketProducerObject.decrypt ticketer identity
  | None => StoresServerSessions.take (ServerConfig.session_storage config) identity
  end.

(* @src rustls/src/server/tls13.rs 1313-1329 Tls13ServerSessionValue::from_ticket *)
Definition from_ticket (id : PresharedKeyIdentity.t) (config : ServerConfig.t)
    : action world Error.t (option Tls13ServerSessionValue.t) :=
  plain ← call (open_ticket config (sp_inner (PresharedKeyIdentity.identity id)));
  match plain with
  | None => mret None
  | Some plain =>
      match (read_bytes plain : result InvalidMessage.t ServerSessionValue.t) with
      | Ok (ServerSessionValue.Tls13 tls13) => mret (Some tls13)
      | Panic => panic
      | _ => mret None
      end
  end.

(* @src rustls/src/server/tls13.rs 517-537 check_binder *)
Definition check_binder (transcript : HandshakeHash.t)
    (key_schedule : KeyScheduleEarly.t enc dec quic_alg) (client_hello : Message.t) (binder : list u8)
    : result Error.t bool :=
  match Message.payload client_hello with
  | MessagePayload.Handshake parsed encoded =>
      let binder_plaintext :=
        take (length encoded - HandshakeMessagePayload.total_binder_length parsed) encoded in
      let handshake_hash := HandshakeHash.hash_given transcript binder_plaintext in
      real_binder ← KeyScheduleEarly.resumption_psk_binder_key_and_sign_verify_data key_schedule
                      handshake_hash;
      Ok (bool_decide (real_binder = binder))
  | _ => Panic
  end.

(** The loop over the identities, [index] being that of the first. *)
(* @src rustls/src/server/tls13.rs 486-512 handle_psk_offer::for *)
Fixpoint try_identities (message : Message.t) (transcript : HandshakeHash.t) (sni : option (list u8))
    (suite : Suite) (config : ServerConfig.t) (now : Z) (binders : list PresharedKeyBinder.t)
    (index : nat) (identities : list PresharedKeyIdentity.t)
    : action world Error.t (option PskAcceptance) :=
  match identities with
  | [] => mret None
  | psk_id :: identities =>
      let continue :=
        try_identities message transcript sni suite config now binders (S index) identities in
      session ← from_ticket psk_id config;
      match session with
      | None => continue
      | Some session =>
          let session := Tls13ServerSessionValue.set_freshness session
                           (PresharedKeyIdentity.obfuscated_ticket_age psk_id) now in
          if negb (CommonServerSessionValue.can_resume dns_name_eq
                     (Tls13ServerSessionValue.common session)
                     (CipherSuiteCommon.suite (Tls13CipherSuite.common (Tls13ProtocolSuite.suite suite)))
                     sni)
          then continue
          else
            early ← lift (KeyScheduleEarly.new Side.Server suite
                            (sp_inner (Tls13ServerSessionValue.secret session)));
            binder ← lift (unwrap (binders !! index));
            good ← lift (check_binder transcript early message
                           (sp_inner (PresharedKeyBinder.inner binder)));
            _ ← refuse_if (negb good) (Error.PeerMisbehaved PeerMisbehaved.IncorrectBinder);
            mret (Some (mk_psk index session))
      end
  end.

(* @src rustls/src/server/tls13.rs 454-515 handle_psk_offer *)
Definition handle_psk_offer (input : HelloInput.t) (transcript : HandshakeHash.t)
    (sni : option (list u8)) (suite : Suite) (config : ServerConfig.t)
    : action world Error.t (option PskAcceptance) :=
  let e := HelloInput.extensions input in
  match ClientExtensions.preshared_key_offer e with
  | None => mret None
  | Some psk_offer =>
      let binders := PresharedKeyOffer.binders psk_offer in
      let identities := PresharedKeyOffer.identities psk_offer in
      _ ← refuse_if (bool_decide (ClientExtensions.preshared_key_modes e = None))
            (Error.PeerMisbehaved PeerMisbehaved.MissingPskModesExtension);
      _ ← refuse_if (bool_decide (length binders = 0))
            (Error.PeerMisbehaved PeerMisbehaved.MissingBinderInPskExtension);
      _ ← refuse_if (bool_decide (length binders ≠ length identities))
            (Error.PeerMisbehaved PeerMisbehaved.PskExtensionWithMismatchedIdsAndBinders);
      now ← ServerConfig.current_time config;
      try_identities (HelloInput.message input) transcript sni suite config now binders 0 identities
  end.

(** Resumption needs [psk_dhe_ke]; also the number of tickets to send. *)
(* @src rustls/src/server/tls13.rs 228-246 Handler::handle_client_hello::match *)
Definition willing_to_resume (config : ServerConfig.t) (e : ClientExtensions.t)
    (resuming : option PskAcceptance) : nat * option PskAcceptance :=
  if negb (default false (PskKeyExchangeModes.psk_dhe <$> ClientExtensions.preshared_key_modes e))
  then (0, None)
  else (Tls13Tickets.resolve (ServerConfig.send_tls13_tickets config)
          (ClientExtensions.ticket_request e) (bool_decide (is_Some resuming)), resuming).
End psk.

(** ** The server's messages *)

Section hello.
Context `{Provider}.
Notation shs := (hs ServerSide.t).
Notation Suite := (Tls13ProtocolSuite.t enc dec quic_alg).
Notation Handshake := (KeyScheduleHandshake.t enc dec quic_alg).

Definition legacy (version : ProtocolVersion.t) (payload : MessagePayload.t) : Message.t :=
  Message.mk (EncodableVersion.Legacy version) payload.

(* @src rustls/src/server/tls13.rs 639-645 emit_fake_ccs *)
Definition emit_fake_ccs : shs unit :=
  send_msg (legacy ProtocolVersion.TLSv1_3
              (MessagePayload.ChangeCipherSpec ChangeCipherSpecPayload.mk)) false.

(** The message that [emit_hello_retry_request] sends. *)
(* @src rustls/src/server/tls13.rs 654-670 emit_hello_retry_request::match *)
Definition retry_message (suite : Tls13CipherSuite.t enc dec quic_alg) (session_id : SessionId.t)
    (group : NamedGroup.t) : Message.t :=
  let req := HelloRetryRequest.mk ProtocolVersion.TLSv1_2 session_id
    (CipherSuiteCommon.suite (Tls13CipherSuite.common suite))
    (HelloRetryRequestExtensions.mk (Some group) None (Some ProtocolVersion.TLSv1_3) None None) in
  legacy ProtocolVersion.TLSv1_2
    (MessagePayload.handshake (HandshakeMessagePayload.mk (HandshakePayload.HelloRetryRequest req))).

(** Returns the transcript. *)
(* @src rustls/src/server/tls13.rs 647-676 emit_hello_retry_request *)
Definition emit_hello_retry_request (transcript : HandshakeHash.t)
    (suite : Tls13CipherSuite.t enc dec quic_alg) (session_id : SessionId.t) (group : NamedGroup.t)
    : shs HandshakeHash.t :=
  let m := retry_message suite session_id group in
  let transcript := HandshakeHash.rollup_for_hrr transcript in
  let transcript := HandshakeHash.add_message m transcript in
  _ ← send_msg m false;
  mret transcript.

(** The message that [emit_server_hello] sends. *)
(* @src rustls/src/server/tls13.rs 556-577 emit_server_hello::match *)
Definition server_hello_message (random : list u8) (suite : Tls13CipherSuite.t enc dec quic_alg)
    (session_id : SessionId.t) (ckx : CompletedKeyExchange.t) (resuming : option PskAcceptance)
    : Message.t :=
  let preshared_key := (λ r, wrapN 16 (Z.of_nat (index r))) <$> resuming in
  let extensions :=
    ServerExtensions.mk None None None None None
      (Some (KeyShareEntry.new (CompletedKeyExchange.group ckx) (CompletedKeyExchange.pub_key ckx)))
      preshared_key None None None None (Some ProtocolVersion.TLSv1_3) None None None None ∅ in
  legacy ProtocolVersion.TLSv1_2
    (MessagePayload.handshake (HandshakeMessagePayload.mk (HandshakePayload.ServerHello
       (ServerHelloPayload.mk ProtocolVersion.TLSv1_2 (Random.new random) session_id
          (CipherSuiteCommon.suite (Tls13CipherSuite.common suite)) Compression.Null extensions)))).

(** The start of the key schedule: early data keys if a session is resumed. *)
(* @src rustls/src/server/tls13.rs 585-614 emit_server_hello::match *)
Definition start_key_schedule (suite : Suite) (config : ServerConfig.t) (client_random : list u8)
    (client_hello_hash : list u8) (resuming : option PskAcceptance)
    : shs (KeySchedulePreHandshake.t enc dec quic_alg * option Exporter) :=
  match resuming with
  | Some resuming =>
      early_key_schedule ← lift (KeyScheduleEarly.new Side.Server suite
        (sp_inner (Tls13ServerSessionValue.secret (session resuming))));
      '(decrypter, secret) ← on_log (KeyScheduleEarly.client_early_decrypter early_key_schedule
        client_hello_hash (ServerConfig.will_log config) client_random);
      _ ← with_quic (modify (Quic.set_early_secret (Some secret)));
      _ ← set_record_decrypter decrypter;
      early_exporter ←
        (if decide (0 < ServerConfig.max_early_data_size config)%Z then
           exporter ← on_log (KeyScheduleEarly.early_exporter early_key_schedule client_hello_hash
                                (ServerConfig.will_log config) client_random);
           mret (Some (KeyScheduleExporter.derive exporter))
         else mret None);
      mret (KeySchedulePreHandshake.from early_key_schedule, early_exporter)
  | None =>
      ks ← lift (KeySchedulePreHandshake.new Side.Server suite);
      mret (ks, None)
  end.

(** Returns the transcript, too. *)
(* @src rustls/src/server/tls13.rs 539-637 emit_server_hello *)
Definition emit_server_hello (transcript : HandshakeHash.t) (randoms : ConnectionRandoms.t)
    (suite : Suite) (session_id : SessionId.t)
    (share_and_kxgroup : KeyShareEntry.t * SupportedKxGroup.t world) (resuming : option PskAcceptance)
    (config : ServerConfig.t) : shs (HandshakeHash.t * Handshake * option Exporter) :=
  let '(share, kxgroup) := share_and_kxgroup in
  ckx ← on_world (SupportedKxGroup.start_and_complete kxgroup (sp_inner (KeyShareEntry.payload share)));
  _ ← output (OutputEvent.KeyExchangeGroup kxgroup);
  let sh := server_hello_message (ConnectionRandoms.server randoms) (Tls13ProtocolSuite.suite suite)
              session_id ckx resuming in
  let client_hello_hash := HandshakeHash.hash_given transcript [] in
  let transcript := HandshakeHash.add_message sh transcript in
  _ ← send_msg sh false;
  '(key_schedule_pre_handshake, early_exporter) ←
    start_key_schedule suite config (ConnectionRandoms.client randoms) client_hello_hash resuming;
  key_schedule ← lift (KeySchedulePreHandshake.into_handshake key_schedule_pre_handshake
                         (SharedSecret.secret_bytes (CompletedKeyExchange.secret ckx)));
  let handshake_hash := HandshakeHash.current_hash transcript in
  secrets ← on_log (KeyScheduleHandshakeStart.derive_server_handshake_secrets key_schedule
                      handshake_hash (ServerConfig.will_log config) (ConnectionRandoms.client randoms));
  _ ← (match HandshakeSecrets.quic secrets with
       | Some update => with_quic (Quic.handshake_secrets update)
       | None => mret tt
       end);
  _ ← set_encrypter (HandshakeSecrets.cipher secrets);
  mret (transcript, HandshakeSecrets.key_schedule secrets, early_exporter).
End hello.

(** ** Early data *)

Module EarlyDataDecision.
(* @src rustls/src/server/tls13.rs 425-432 EarlyDataDecision *)
Inductive t :=
| Disabled
| RequestedButRejected
| Accepted (max_length : Z) (early_exporter : Exporter).
End EarlyDataDecision.

(* @src rustls/src/server/tls13.rs 434-447 max_early_data_size *)
Definition max_early_data_size (configured : Z) : nat :=
  if decide (configured ≠ 0)%Z then Z.to_nat configured else 16384.

Section flight.
Context `{Provider}.
Notation shs := (hs ServerSide.t).
Notation Handshake := (KeyScheduleHandshake.t enc dec quic_alg).
Notation Pending := (KeyScheduleTrafficWithClientFinishedPending.t enc dec quic_alg).

(** What early data needs of the request and the accepted session: stateful resumption
    with the first identity, fresh, of the same suite and protocol. *)
(* @src rustls/src/server/tls13.rs 700-728 decide_if_early_data_allowed::match *)
Definition early_data_acceptable (client_hello : ClientHelloPayload.t) (accept : PskAcceptance)
    (chosen_alpn_protocol : option ApplicationProtocol.t) (suite : Tls13CipherSuite.t enc dec quic_alg)
    (config : ServerConfig.t) : bool :=
  let early_data_requested :=
    bool_decide (is_Some (ClientExtensions.early_data_request (ClientHelloPayload.extensions client_hello))) in
  let common := Tls13ServerSessionValue.common (session accept) in
  let early_data_configured :=
    bool_decide (0 < ServerConfig.max_early_data_size config)%Z
    && negb (bool_decide (is_Some (ServerConfig.ticketer config))) in
  let early_data_possible :=
    early_data_requested
    && bool_decide (index accept = 0)
    && Tls13ServerSessionValue.is_fresh (session accept)
    && bool_decide (CommonServerSessionValue.cipher_suite common
                    = CipherSuiteCommon.suite (Tls13CipherSuite.common suite))
    && bool_decide (CommonServerSessionValue.alpn common = chosen_alpn_protocol) in
  early_data_configured && early_data_possible.

(* @src rustls/src/server/tls13.rs 678-745 decide_if_early_data_allowed *)
Definition decide_if_early_data_allowed (client_hello : ClientHelloPayload.t)
    (resuming : option PskAcceptance) (early_exporter : option Exporter)
    (chosen_alpn_protocol : option ApplicationProtocol.t) (suite : Tls13CipherSuite.t enc dec quic_alg)
    (config : ServerConfig.t) : shs EarlyDataDecision.t :=
  let rejected_or_disabled :=
    match ClientExtensions.early_data_request (ClientHelloPayload.extensions client_hello) with
    | Some _ => EarlyDataDecision.RequestedButRejected
    | None => EarlyDataDecision.Disabled
    end in
  match resuming with
  | None => mret rejected_or_disabled
  | Some accept =>
      let reject :=
        _ ← with_quic (modify (Quic.set_early_secret None)); mret rejected_or_disabled in
      match early_exporter with
      | Some early_exporter =>
          if early_data_acceptable client_hello accept chosen_alpn_protocol suite config
          then mret (EarlyDataDecision.Accepted (ServerConfig.max_early_data_size config) early_exporter)
          else reject
      | None => reject
      end
  end.

(** ** The server's flight *)

Definition with_early_data (ticket_request : option ServerTicketRequestHint.t) (ack : option unit)
    (e : EncryptedExtensions.t) : EncryptedExtensions.t :=
  EncryptedExtensions.mk (EncryptedExtensions.server_name_ack e) (EncryptedExtensions.selected_protocol e)
    (EncryptedExtensions.client_certificate_type e) (EncryptedExtensions.server_certificate_type e)
    (EncryptedExtensions.transport_parameters e) ack ticket_request
    (EncryptedExtensions.encrypted_client_hello_ack e) (EncryptedExtensions.unknown_extensions e).

(** Returns the flight and what is left of the OCSP response, too. *)
(* @src rustls/src/server/tls13.rs 747-792 emit_encrypted_extensions *)
Definition emit_encrypted_extensions (flight : HandshakeFlight.t)
    (suite : Tls13CipherSuite.t enc dec quic_alg) (ocsp_response : option (list u8))
    (hello : ClientHelloPayload.t) (resuming : option PskAcceptance) (early_exporter : option Exporter)
    (extra_exts : ServerExtensionsInput.t) (config : ServerConfig.t) (send_tickets : nat)
    : shs (HandshakeFlight.t * option (list u8) * Tls13Extensions * EarlyDataDecision.t) :=
  '(out, extensions, ocsp_response) ←
    new_extensions extra_exts ocsp_response
      ((λ r, Tls13ServerSessionValue.common (session r)) <$> resuming) hello config;
  let ticket_request :=
    match ClientExtensions.ticket_request (ClientHelloPayload.extensions hello) with
    | Some _ => Some (ServerTicketRequestHint.mk (u8_of_Z (Z.of_nat (Nat.min send_tickets 255))))
    | None => EncryptedExtensions.ticket_request extensions
    end in
  early_data ← decide_if_early_data_allowed hello resuming early_exporter (exts_alpn_protocol out) suite
                 config;
  let early_data_ack :=
    match early_data with
    | EarlyDataDecision.Accepted _ _ => Some tt
    | _ => EncryptedExtensions.early_data_ack extensions
    end in
  let ee := HandshakeMessagePayload.mk (HandshakePayload.EncryptedExtensions
              (with_early_data ticket_request early_data_ack extensions)) in
  mret (HandshakeFlight.add ee flight, ocsp_response, out, early_data).

(* @src rustls/src/server/tls13.rs 794-835 emit_certificate_req_tls13 *)
Definition emit_certificate_req_tls13 (flight : HandshakeFlight.t) (config : ServerConfig.t)
    : result Error.t (HandshakeFlight.t * bool) :=
  if negb (ClientVerifier.offer_client_auth (ServerConfig.verifier config)) then Ok (flight, false)
  else
    schemes ← ClientVerifier.supported_verify_schemes (ServerConfig.verifier config);
    authorities ← ClientVerifier.root_hint_subjects (ServerConfig.verifier config);
    let cr := CertificateRequestPayloadTls13.mk (mkSizedPayload [])
      (CertificateRequestExtensions.mk (Some schemes)
         (match authorities with [] => None | _ => Some authorities end)
         (match ServerConfig.cert_decompressors config with
          | [] => None
          | decomps => Some (CertDecompressor.algorithm <$> decomps)
          end)) in
    let creq := HandshakeMessagePayload.mk (HandshakePayload.CertificateRequestTls13 cr) in
    Ok (HandshakeFlight.add creq flight, true).

(* @src rustls/src/server/tls13.rs 837-844 emit_certificate_tls13 *)
Definition emit_certificate_tls13 (flight : HandshakeFlight.t) (payload : CertificatePayloadTls13.t)
    : HandshakeFlight.t :=
  HandshakeFlight.add (HandshakeMessagePayload.mk (HandshakePayload.CertificateTls13 payload)) flight.

Definition certificate_payload (signer : SelectedCredential.t) (ocsp_response : option (list u8))
    : CertificatePayloadTls13.t :=
  CertificatePayloadTls13.new (Identity.as_certificates (SelectedCredential.identity signer)) ocsp_response.

(* @src rustls/src/server/tls13.rs 846-868 emit_compressed_certificate_tls13 *)
Definition emit_compressed_certificate_tls13 (flight : HandshakeFlight.t) (config : ServerConfig.t)
    (signer : SelectedCredential.t) (ocsp_response : option (list u8)) (cert_compressor : CertCompressor.t)
    : action world Error.t HandshakeFlight.t :=
  let payload := certificate_payload signer ocsp_response in
  entry ← call (ServerConfig.compression_for config cert_compressor payload);
  mret (match entry with
        | None => emit_certificate_tls13 flight payload
        | Some entry =>
            HandshakeFlight.add (HandshakeMessagePayload.mk (HandshakePayload.CompressedCertificate
              (CompressionCacheEntry.compressed_cert_payload entry))) flight
        end).

(* @src rustls/src/server/tls13.rs 870-885 emit_certificate_verify_tls13 *)
Definition emit_certificate_verify_tls13 (flight : HandshakeFlight.t) (signer : Signer.t)
    : result Error.t HandshakeFlight.t :=
  message ← construct_server_verify_message
              (HandshakeHash.current_hash (HandshakeFlight.transcript flight));
  sig ← Signer.sign signer (VerifyMessage.as_ref message);
  let cv := DigitallySignedStruct.new (Signer.scheme signer) sig in
  Ok (HandshakeFlight.add (HandshakeMessagePayload.mk (HandshakePayload.CertificateVerify cv)) flight).

(** Returns the transcript, too. *)
(* @src rustls/src/server/tls13.rs 887-925 emit_finished_tls13 *)
Definition emit_finished_tls13 (flight : HandshakeFlight.t) (randoms : ConnectionRandoms.t)
    (key_schedule : Handshake) (config : ServerConfig.t) : shs (HandshakeHash.t * Pending) :=
  let handshake_hash := HandshakeHash.current_hash (HandshakeFlight.transcript flight) in
  verify_data ← lift (KeyScheduleHandshake.sign_server_finish key_schedule handshake_hash);
  let fin := HandshakeMessagePayload.mk (HandshakePayload.Finished verify_data) in
  let flight := HandshakeFlight.add fin flight in
  let hash_at_server_fin := HandshakeHash.current_hash (HandshakeFlight.transcript flight) in
  _ ← HandshakeFlight.finish true flight;
  secrets ← on_log (KeyScheduleHandshake.into_traffic_with_client_finished_pending key_schedule
                      hash_at_server_fin (ServerConfig.will_log config)
                      (ConnectionRandoms.client randoms));
  _ ← set_encrypter (ServerTrafficSecrets.encrypter secrets);
  _ ← (match ServerTrafficSecrets.quic secrets with
       | Some update => with_quic (Quic.traffic_secrets update)
       | None => mret tt
       end);
  mret (HandshakeFlight.transcript flight, ServerTrafficSecrets.key_schedule secrets).
End flight.

(** ** ClientHello *)

Section client_hello.
Context `{Provider} `{!SecureRandom}.
Notation shs := (hs ServerSide.t).
Notation Handshake := (KeyScheduleHandshake.t enc dec quic_alg).
Notation Pending := (KeyScheduleTrafficWithClientFinishedPending.t enc dec quic_alg).

(* @src rustls/src/server/hs.rs 812-817 ExpectClientHello::randoms *)
Definition randoms (input : HelloInput.t) : action world Error.t ConnectionRandoms.t :=
  server ← random_new;
  mret (ConnectionRandoms.new (ClientHelloPayload.random (HelloInput.client_hello input)) server).

(** What a ClientHello must satisfy on its own; returns the key shares. *)
(* @src rustls/src/server/tls13.rs 98-125 Handler::handle_client_hello::match *)
Definition check_hello (hello : ClientHelloPayload.t) : result Error.t (list KeyShareEntry.t) :=
  if decide (length (ClientHelloPayload.compression_methods hello) ≠ 1)
  then misbehaved PeerMisbehaved.OfferedIncorrectCompressions
  else
    shares_ext ← ok_or (ClientExtensions.key_shares (ClientHelloPayload.extensions hello))
                   (Error.PeerIncompatible PeerIncompatible.KeyShareExtensionRequired);
    if ClientHelloPayload.has_keyshare_extension_with_duplicates hello
    then misbehaved PeerMisbehaved.OfferedDuplicateKeyShares
    else if ClientHelloPayload.has_certificate_compression_extension_with_duplicates hello
    then misbehaved PeerMisbehaved.OfferedDuplicateCertificateCompressions
    else Ok shares_ext.

(** What it must satisfy after a retry. *)
(* @src rustls/src/server/tls13.rs 145-161 Handler::handle_client_hello::match *)
Definition check_second_hello (previous_hello : option PreviousClientHello.t) (e : ClientExtensions.t)
    : result Error.t unit :=
  match previous_hello with
  | None => Ok tt
  | Some prior =>
      if decide (is_Some (ClientExtensions.early_data_request e))
      then misbehaved PeerMisbehaved.EarlyDataAttemptedInSecondClientHello
      else if PreviousClientHello.offered_psk prior
              && bool_decide (ClientExtensions.preshared_key_offer e = None)
      then misbehaved PeerMisbehaved.MissingPskExtensionInSecondClientHello
      else Ok tt
  end.

(** Our preference decides. *)
(* @src rustls/src/server/tls13.rs 127-138 Handler::handle_client_hello::match *)
Definition choose_compressor (config : ServerConfig.t) (e : ClientExtensions.t) : option CertCompressor.t :=
  offered ← ClientExtensions.certificate_compression_algorithms e;
  snd <$> list_find (λ compressor, CertCompressor.algorithm compressor ∈ offered)
            (ServerConfig.cert_compressors config).

(** No share for the group that was chosen: ask for one. *)
(* @src rustls/src/server/tls13.rs 168-213 Handler::handle_client_hello::match *)
Definition request_retry (suite : Tls13CipherSuite.t enc dec quic_alg) (group : NamedGroup.t)
    (input : HelloInput.t) (st : ExpectClientHello.t) (transcript : HandshakeHash.t) : shs State :=
  let hello := HelloInput.client_hello input in
  let e := HelloInput.extensions input in
  let transcript := HandshakeHash.add_message (HelloInput.message input) transcript in
  _ ← refuse_if (bool_decide (is_Some (ExpectClientHello.previous_hello st)))
        (Error.PeerMisbehaved PeerMisbehaved.RefusedToFollowHelloRetryRequest);
  transcript ← emit_hello_retry_request transcript suite (ClientHelloPayload.session_id hello) group;
  _ ← (if negb (Protocol.is_quic (ExpectClientHello.protocol st)) then emit_fake_ccs else mret tt);
  let skip_early_data :=
    max_early_data_size (ServerConfig.max_early_data_size (ExpectClientHello.config st)) in
  let next :=
    ExpectClientHello.mk (ExpectClientHello.config st) (ExpectClientHello.protocol st)
      (ExpectClientHello.extra_exts st) (HandshakeHashOrBuffer.Hash transcript) SessionId.empty
      (ExpectClientHello.sni st) (ExpectClientHello.resumption_data st) false
      (Some (PreviousClientHello.mk
               (bool_decide (is_Some (ClientExtensions.preshared_key_offer e)))
               (CipherSuiteCommon.suite (Tls13CipherSuite.common suite)) group))
      (ExpectClientHello.send_tickets st) in
  mret (if decide (is_Some (ClientExtensions.early_data_request e))
        then SkipEarlyData (mk_skip skip_early_data next) else ClientHelloAgain next).

(** Our certificate and its proof, unless a session is resumed; whether the client is asked
    for its own. *)
(* @src rustls/src/server/tls13.rs 305-329 Handler::handle_client_hello::match *)
Definition emit_authentication (flight : HandshakeFlight.t) (config : ServerConfig.t)
    (signer : SelectedCredential.t) (ocsp_response : option (list u8))
    (cert_compressor : option CertCompressor.t) (full_handshake : bool) : shs (HandshakeFlight.t * bool) :=
  if full_handshake then
    '(flight, client_auth) ← lift (emit_certificate_req_tls13 flight config);
    flight ← (match cert_compressor with
              | Some compressor =>
                  on_world (emit_compressed_certificate_tls13 flight config signer ocsp_response compressor)
              | None => mret (emit_certificate_tls13 flight (certificate_payload signer ocsp_response))
              end);
    flight ← lift (emit_certificate_verify_tls13 flight (SelectedCredential.signer signer));
    mret (flight, client_auth)
  else mret (flight, false).

(** The keys of the client's next messages: those of the handshake, unless early data comes
    first.  Returns the most that may come. *)
(* @src rustls/src/server/tls13.rs 331-356 Handler::handle_client_hello::match *)
Definition set_next_decrypter (key_schedule : Handshake) (config : ServerConfig.t)
    (doing_early_data : EarlyDataDecision.t) : shs (option Z) :=
  match doing_early_data with
  | EarlyDataDecision.Disabled =>
      _ ← Output.on_recv (KeyScheduleHandshake.set_handshake_decrypter key_schedule None);
      mret None
  | EarlyDataDecision.RequestedButRejected =>
      _ ← Output.on_recv (KeyScheduleHandshake.set_handshake_decrypter key_schedule
            (Some (max_early_data_size (ServerConfig.max_early_data_size config))));
      mret None
  | EarlyDataDecision.Accepted max_length early_exporter =>
      _ ← output (OutputEvent.EarlyExporter early_exporter);
      mret (Some max_length)
  end.

(* @src rustls/src/server/tls13.rs 384-419 Handler::handle_client_hello::match *)
Definition after_hello (hs : HandshakeState) (key_schedule : Pending) (doing_client_auth : bool)
    (client_type : CertificateType.t) (early_data_max_length : option Z) (protocol : Protocol.t)
    (resuming : option PskAcceptance) : State :=
  let peer_identity :=
    psk ← resuming; CommonServerSessionValue.peer_identity (Tls13ServerSessionValue.common (session psk)) in
  if doing_client_auth then
    let next := mk_cert hs key_schedule client_type in
    match ServerConfig.cert_decompressors (config hs) with
    | [] => Certificate next
    | _ => CertificateOrCompressedCertificate next
    end
  else
    match early_data_max_length, Protocol.is_quic protocol with
    | Some max_length, false =>
        EarlyData (mk_early hs key_schedule peer_identity (Z.to_nat max_length))
    | _, _ => Finished (mk_fin hs key_schedule peer_identity)
    end.

(** The handshake goes on with a share of the client's. *)
(* @src rustls/src/server/tls13.rs 215-382 Handler::handle_client_hello::match *)
Definition accept_hello (suite : Tls13CipherSuite.t enc dec quic_alg)
    (chosen_share_and_kxg : KeyShareEntry.t * SupportedKxGroup.t world) (signer : SelectedCredential.t)
    (input : HelloInput.t) (st : ExpectClientHello.t) (randoms : ConnectionRandoms.t)
    (transcript : HandshakeHash.t) : shs State :=
  let hello := HelloInput.client_hello input in
  let e := HelloInput.extensions input in
  let config := ExpectClientHello.config st in
  let protocol := ExpectClientHello.protocol st in
  let done_retry := bool_decide (is_Some (ExpectClientHello.previous_hello st)) in
  suite ← lift (protocol_suite suite protocol);
  resuming ← on_world (handle_psk_offer input transcript (ExpectClientHello.sni st) suite config);
  let '(send_tickets, resuming) := willing_to_resume config e resuming in
  _ ← (match resuming with
       | Some psk => emit (Event.ResumptionData (sp_inner (CommonServerSessionValue.application_data
                             (Tls13ServerSessionValue.common (session psk)))))
       | None => mret tt
       end);
  let full_handshake := bool_decide (resuming = None) in
  let transcript := HandshakeHash.add_message (HelloInput.message input) transcript in
  '(transcript, key_schedule, early_exporter) ←
    emit_server_hello transcript randoms suite (ClientHelloPayload.session_id hello) chosen_share_and_kxg
      resuming config;
  _ ← (if negb done_retry && negb (Protocol.is_quic protocol) then emit_fake_ccs else mret tt);
  _ ← output (OutputEvent.HandshakeKind (handshake_kind (negb full_handshake) done_retry));
  let flight := HandshakeFlight.new transcript in
  '(flight, ocsp_response, exts, doing_early_data) ←
    emit_encrypted_extensions flight (Tls13ProtocolSuite.suite suite) (SelectedCredential.ocsp signer)
      hello resuming early_exporter (ExpectClientHello.extra_exts st) config send_tickets;
  '(flight, doing_client_auth) ←
    emit_authentication flight config signer ocsp_response (choose_compressor config e) full_handshake;
  early_data_max_length ← set_next_decrypter key_schedule config doing_early_data;
  '(transcript, key_schedule_traffic) ← emit_finished_tls13 flight randoms key_schedule config;
  _ ← (if negb doing_client_auth && ServerConfig.send_half_rtt_data config
       then Output.on_send (on_self SendPath.start_traffic) else mret tt);
  let hs := mk_hs config transcript (Tls13ProtocolSuite.suite suite) (exts_alpn_protocol exts)
              (ExpectClientHello.sni st) (ExpectClientHello.resumption_data st) send_tickets in
  mret (after_hello hs key_schedule_traffic doing_client_auth (client_certificate_type exts)
          early_data_max_length protocol resuming).

(* @src rustls/src/server/tls13.rs 84-420 Handler::handle_client_hello *)
Definition handle_client_hello (suite : Tls13CipherSuite.t enc dec quic_alg)
    (kx_group : SupportedKxGroup.t world) (signer : SelectedCredential.t) (input : HelloInput.t)
    (st : ExpectClientHello.t) : shs State :=
  randoms ← on_world (randoms input);
  transcript ← lift (HandshakeHashOrBuffer.start (ExpectClientHello.transcript st)
                       (CipherSuiteCommon.hash_provider (Tls13CipherSuite.common suite)));
  shares_ext ← lift (check_hello (HelloInput.client_hello input));
  _ ← lift (check_second_hello (ExpectClientHello.previous_hello st) (HelloInput.extensions input));
  match list_find (λ share, KeyShareEntry.group share = SupportedKxGroup.name kx_group) shares_ext with
  | None => request_retry suite (SupportedKxGroup.name kx_group) input st transcript
  | Some (_, share) => accept_hello suite (share, kx_group) signer input st randoms transcript
  end.
End client_hello.

(** ** The client's flight *)

Section client_flight.
Context `{Provider} `{!SecureRandom}.
Notation shs := (hs ServerSide.t).

(* @src rustls/src/server/tls13.rs 1081-1134 ExpectCertificate::handle_certificate *)
Definition handle_certificate (self : ExpectCertificate) (certp : CertificatePayloadTls13.t)
    : result Error.t State :=
  if decide (sp_inner (CertificatePayloadTls13.context certp) ≠ [])
  then Err (Error.InvalidMessage InvalidMessage.InvalidCertRequest)
  else if existsb (λ e, negb (only_contains (CertificateEntry.extensions e) []))
            (CertificatePayloadTls13.entries certp)
  then misbehaved PeerMisbehaved.UnsolicitedCertExtension
  else
    let client_cert := CertificatePayloadTls13.into_certificate_chain certp in
    let mandatory := ClientVerifier.client_auth_mandatory (ServerConfig.verifier (config (cert_hs self))) in
    peer_identity ← Identity.from_peer (CertificateChain.inner client_cert)
                      (cert_expected_certificate_type self);
    match peer_identity with
    | None =>
        if negb mandatory
        then Ok (Finished (mk_fin (abandon_client_auth (cert_hs self)) (cert_key_schedule self) None))
        else misbehaved PeerMisbehaved.NoCertificatesPresented
    | Some peer_identity =>
        Ok (VerifyClientIdentity (mk_await (cert_hs self) (cert_key_schedule self) peer_identity))
    end.

Definition cert_add_message (m : Message.t) (self : ExpectCertificate) : ExpectCertificate :=
  mk_cert (add_message m (cert_hs self)) (cert_key_schedule self) (cert_expected_certificate_type self).

(* @src rustls/src/server/tls13.rs 1072-1079 ExpectCertificate::handle_input *)
Definition handle_cert (self : ExpectCertificate) (message : Message.t) : result Error.t State :=
  let self := cert_add_message message self in
  certp ← require_handshake_msg message
    (λ p, match p with HandshakePayload.CertificateTls13 c => Some c | _ => None end)
    HandshakeType.Certificate;
  handle_certificate self certp.

(* @src rustls/src/server/tls13.rs 1018-1062 ExpectCompressedCertificate::handle_input *)
Definition handle_compressed_cert (self : ExpectCertificate) (message : Message.t)
    : result Error.t State :=
  let self := cert_add_message message self in
  compressed_cert ← require_handshake_msg message
    (λ p, match p with HandshakePayload.CompressedCertificate c => Some c | _ => None end)
    HandshakeType.CompressedCertificate;
  let selected_decompressor :=
    snd <$> list_find (λ item, CertDecompressor.algorithm item
                               = CompressedCertificatePayload.alg compressed_cert)
              (ServerConfig.cert_decompressors (config (cert_hs self))) in
  match selected_decompressor with
  | None => misbehaved PeerMisbehaved.SelectedUnofferedCertCompression
  | Some decompressor =>
      let uncompressed_len := CompressedCertificatePayload.uncompressed_len compressed_cert in
      if decide (CERTIFICATE_MAX_SIZE_LIMIT < uncompressed_len)%Z
      then Err (Error.InvalidMessage InvalidMessage.CertificatePayloadTooLarge)
      else
        match CertDecompressor.decompress_into decompressor
                (sp_inner (CompressedCertificatePayload.compressed compressed_cert))
                (Z.to_nat uncompressed_len) with
        | None => misbehaved PeerMisbehaved.InvalidCertCompression
        | Some decompress_buffer =>
            cert_payload ← map_err Error.InvalidMessage (read_bytes decompress_buffer);
            handle_certificate self cert_payload
        end
  end.

(* @src rustls/src/server/tls13.rs 967-1002 ExpectCertificateOrCompressedCertificate::handle *)
Definition handle_cocc (self : ExpectCertificate) (message : Message.t) : result Error.t State :=
  match handshake_payload message with
  | Some (HandshakePayload.CertificateTls13 _) => handle_cert self message
  | Some (HandshakePayload.CompressedCertificate _) => handle_compressed_cert self message
  | _ => Err (inappropriate_handshake_message (Message.payload message) [ContentType.Handshake]
                [HandshakeType.Certificate; HandshakeType.CompressedCertificate])
  end.

(* @src rustls/src/server/tls13.rs 1161-1166 AwaitClientIdentityVerification::presented_identity *)
Definition presented_identity (self : AwaitClientIdentityVerification)
    : action world Error.t ClientIdentity.t :=
  now ← ServerConfig.current_time (config (aw_hs self));
  mret (ClientIdentity.mk (aw_peer_identity self) now).

(* @src rustls/src/server/tls13.rs 1168-1173 AwaitClientIdentityVerification::verify_with_config *)
Definition verify_with_config (self : AwaitClientIdentityVerification)
    : action world Error.t Identity.t :=
  identity ← presented_identity self;
  lift (ClientVerifier.verify_identity (ServerConfig.verifier (config (aw_hs self))) identity).

(* @src rustls/src/server/tls13.rs 1175-1186 AwaitClientIdentityVerification::continue_with *)
Definition continue_with (self : AwaitClientIdentityVerification) (peer_identity : Identity.t)
    : result Error.t State :=
  Ok (CertificateVerify (mk_cv (aw_hs self) (aw_key_schedule self) peer_identity)).

(* @src rustls/src/server/tls13.rs 1202-1233 ExpectCertificateVerify::handle *)
Definition handle_cv (self : ExpectCertificateVerify) (message : Message.t) : result Error.t State :=
  signature ← require_handshake_msg message
    (λ p, match p with HandshakePayload.CertificateVerify c => Some c | _ => None end)
    HandshakeType.CertificateVerify;
  let handshake_hash := HandshakeHash.current_hash (transcript (cv_hs self)) in
  let hs := abandon_client_auth (cv_hs self) in
  verify_message ← construct_client_verify_message handshake_hash;
  _ ← ClientVerifier.verify_tls13_signature (ServerConfig.verifier (config hs))
        (SignatureVerificationInput.mk (VerifyMessage.as_ref verify_message)
           (as_signer (cv_peer_identity self)) signature);
  let hs := add_message message hs in
  Ok (Finished (mk_fin hs (cv_key_schedule self) (Some (cv_peer_identity self)))).

(* @src rustls/src/server/tls13.rs 1253-1294 ExpectEarlyData::handle *)
Definition handle_early (self : ExpectEarlyData) (input : Input.t) : shs State :=
  match Message.payload (Input.message input) with
  | MessagePayload.ApplicationData payload =>
      if decide (remaining_length self < length payload)
      then fail (Error.PeerMisbehaved PeerMisbehaved.TooMuchEarlyDataReceived)
      else
        _ ← Output.received_plaintext (DataKind.Early payload);
        mret (EarlyData (mk_early (early_hs self) (early_key_schedule self) (early_peer_identity self)
                           (remaining_length self - length payload)))
  | MessagePayload.Handshake (HandshakeMessagePayload.mk HandshakePayload.EndOfEarlyData) _ =>
      _ ← lift (Input.check_aligned_handshake input);
      _ ← Output.on_recv (KeyScheduleTrafficWithClientFinishedPending.update_decrypter
                            (early_key_schedule self));
      mret (Finished (mk_fin (add_message (Input.message input) (early_hs self))
                        (early_key_schedule self) (early_peer_identity self)))
  | payload =>
      fail (inappropriate_handshake_message payload [ContentType.ApplicationData; ContentType.Handshake]
              [HandshakeType.EndOfEarlyData])
  end.
End client_flight.

(** ** Finished *)

Section finished.
Context `{Provider} `{!SecureRandom}.
Notation shs := (hs ServerSide.t).
Notation Resumption := (KeyScheduleResumption.t enc dec quic_alg).

(** The ticket for a session, and its lifetime: sealed, or the key of the store. *)
(* @src rustls/src/server/tls13.rs 1460-1477 ExpectFinished::emit_ticket::match *)
Definition ticket_for (config : ServerConfig.t) (plain : list u8)
    : action world Error.t (option (list u8 * Duration.t)) :=
  match ServerConfig.ticketer config with
  | Some ticketer =>
      ticket ← call (TicketProducerObject.encrypt ticketer plain);
      mret ((λ ticket, (ticket, TicketProducerObject.lifetime ticketer)) <$> ticket)
  | None =>
      id ← random_array 32;
      stored ← call (StoresServerSessions.put (ServerConfig.session_storage config) id plain);
      mret (if stored : bool then Some (id, Duration.from_secs (24 * 60 * 60)) else None)
  end.

(** Returns the flight. *)
(* @src rustls/src/server/tls13.rs 1430-1499 ExpectFinished::emit_ticket *)
Definition emit_ticket (flight : HandshakeFlight.t) (suite : Tls13CipherSuite.t enc dec quic_alg)
    (peer_identity : option Identity.t) (chosen_alpn_protocol : option ApplicationProtocol.t)
    (sni : option (list u8)) (resumption_data : list u8) (resumption : Resumption)
    (config : ServerConfig.t) : action world Error.t HandshakeFlight.t :=
  nonce ← random_array 32;
  age_add ← random_u32;
  now ← ServerConfig.current_time config;
  secret ← lift (KeyScheduleResumption.derive_ticket_psk resumption nonce);
  let plain := get_encoding (ServerSessionValue.Tls13 (Tls13ServerSessionValue.new
    (CommonServerSessionValue.new sni (CipherSuiteCommon.suite (Tls13CipherSuite.common suite))
       peer_identity chosen_alpn_protocol resumption_data now)
    (OkmBlock.as_ref secret) age_add)) in
  ticket ← ticket_for config plain;
  mret (match ticket with
        | None => flight
        | Some (ticket, lifetime) =>
            let payload := NewSessionTicketPayloadTls13.new lifetime age_add nonce ticket in
            let extensions :=
              if bool_decide (0 < ServerConfig.max_early_data_size config)%Z
                 && bool_decide (ServerConfig.ticketer config = None)
              then NewSessionTicketExtensions.mk (Some (ServerConfig.max_early_data_size config))
              else NewSessionTicketPayloadTls13.extensions payload in
            let payload :=
              NewSessionTicketPayloadTls13.mk (NewSessionTicketPayloadTls13.lifetime payload)
                (NewSessionTicketPayloadTls13.age_add payload) (NewSessionTicketPayloadTls13.nonce payload)
                (NewSessionTicketPayloadTls13.ticket payload) extensions in
            HandshakeFlight.add (HandshakeMessagePayload.mk
              (HandshakePayload.NewSessionTicketTls13 payload)) flight
        end).

(** [send_tickets] of them. *)
(* @src rustls/src/server/tls13.rs 1536-1547 ExpectFinished::handle::for *)
Fixpoint emit_tickets (n : nat) (self : ExpectFinished) (resumption : Resumption)
    (flight : HandshakeFlight.t) : action world Error.t HandshakeFlight.t :=
  match n with
  | 0 => mret flight
  | S n =>
      let hs := fin_hs self in
      flight ← emit_ticket flight (suite hs) (fin_peer_identity self) (alpn_protocol hs) (sni hs)
                 (resumption_data hs) resumption (config hs);
      emit_tickets n self resumption flight
  end.

(* @src rustls/src/server/tls13.rs 1503-1572 ExpectFinished::handle *)
Definition handle_finished (self : ExpectFinished) (input : Input.t) : shs State :=
  let hs := fin_hs self in
  finished ← lift (require_handshake_msg (Input.message input)
                     (λ p, match p with HandshakePayload.Finished f => Some f | _ => None end)
                     HandshakeType.Finished);
  let handshake_hash := HandshakeHash.current_hash (transcript hs) in
  _ ← lift (Input.check_aligned_handshake input);
  '(key_schedule_before_finished, expect_verify_data) ←
    Output.on_recv (KeyScheduleTrafficWithClientFinishedPending.sign_client_finish
                      (fin_key_schedule self) handshake_hash);
  _ ← refuse_if (bool_decide (expect_verify_data ≠ finished))
        (Error.PeerMisbehaved PeerMisbehaved.IncorrectFinished);
  let hs := add_message (Input.message input) hs in
  '(key_schedule_traffic, exporter, resumption) ←
    lift (KeyScheduleBeforeFinished.into_traffic key_schedule_before_finished
            (HandshakeHash.current_hash (transcript hs)));
  let flight := HandshakeFlight.new (transcript hs) in
  flight ← on_world (emit_tickets (send_tickets hs) self resumption flight);
  _ ← HandshakeFlight.finish true flight;
  let '(key_schedule_send, key_schedule_recv) := KeyScheduleTraffic.split key_schedule_traffic in
  _ ← (match fin_peer_identity self with
       | Some identity => output (OutputEvent.PeerIdentity identity)
       | None => mret tt
       end);
  _ ← output (OutputEvent.Exporter (KeyScheduleExporter.derive exporter));
  _ ← Output.on_send (on_self (SendPath.update_key_schedule key_schedule_send));
  _ ← start_traffic;
  mret (if KeyScheduleTrafficReceive.is_quic key_schedule_recv
        then QuicTraffic ServerTls13.mk_quic
        else Traffic (ServerTls13.mk (ServerConfig.enable_secret_extraction (config hs)) key_schedule_recv
                        TrafficTemperCounters.default)).
End finished.
End Server13.
