(* ===== verification/ServerHs.v ===== *)
(** * Starting a server handshake ([rustls/src/server/hs.rs], [rustls/src/suites.rs])

    The ClientHello, the choice of configuration, version, credentials, cipher suite and key
    exchange group, after which the handshake is of TLS 1.3 ([ServerHs13]) or of TLS 1.2. *)
From stdpp Require Import gmap.
From S2P Require Import Prelude Enums Errors Codec Records Fragmenter Deframer Extensions Payloads.
From S2P Require Import ServerHello ClientHello Messages Cipher Send Receive InputBuffer Connection.
From S2P Require Import ConnectionSpec Hkdf KeySchedule Sessions Compress Verify Kx QuicKeys Transcript.
From S2P Require Import Traffic Outputs ClientConfig Ech ClientHs13 LimitedCache ServerConfig ServerHs13.
From S2P Require Import Tls12Secrets.

(** ** States *)

(** [dyn ServerHandler<Tls12CipherSuite>], and the states of TLS 1.2 that it leads to. *)
Class ServerHandler12 `{Provider} := {
  server_state12 : Type;
  server_machine12 :: StateMachine server_state12 dec enc sched (Join.t ServerSide.t);
  handle_client_hello12 : Tls12CipherSuite.t prf12 aead12 → SupportedKxGroup.t world →
    SelectedCredential.t → HelloInput.t → ExpectClientHello.t → hs ServerSide.t server_state12;
}.

(** The struct [ReadClientHello]. *)
Module ReadClientHello.
(* @src rustls/src/server/hs.rs 408-411 ReadClientHello *)
Record t := mk { protocol : Protocol.t; resumption_data : list u8 }.

(* @src rustls/src/server/hs.rs 414-419 ReadClientHello::new *)
Definition new (protocol : Protocol.t) : t := mk protocol [].
End ReadClientHello.

Module ChooseConfig.
(* @src rustls/src/server/hs.rs 450-454 ChooseConfig *)
Record t := mk { protocol : Protocol.t; resumption_data : list u8; client_hello : Input.t }.

(** [unreachable!]. *)
(* @src rustls/src/server/hs.rs 467-483 ChooseConfig::client_hello *)
Definition received_hello `{!PkiTypes} (self : t) : result Error.t ReceivedHello.t :=
  match handshake_payload (Input.message (client_hello self)) with
  | Some (HandshakePayload.ClientHello client_hello) =>
      let server_name := ClientExtensions.server_name (ClientHelloPayload.extensions client_hello)
                         ≫= ServerNamePayload.to_dns_name_normalized in
      Ok (ReceivedHello.new client_hello None server_name None)
  | _ => Panic
  end.
End ChooseConfig.

Module ServerState.
Section states.
Context `{ServerHandler12}.
(** [VerifyClientIdentity] is in [Server13.State] and in [server_state12]. *)
(* @src rustls/src/server/hs.rs 37-55 ServerState *)
Inductive t :=
| ReadClientHello (st : ReadClientHello.t)
| ChooseConfig (st : ChooseConfig.t)
| ClientHello (st : ExpectClientHello.t)
| Tls12 (st : server_state12)
| Tls13 (st : Server13.State).

Definition from13 (st : Server13.State) : t :=
  match st with
  | Server13.ClientHelloAgain st => ClientHello st
  | st => Tls13 st
  end.

Definition with_resumption_data (data : list u8) (self : ExpectClientHello.t) : ExpectClientHello.t :=
  ExpectClientHello.mk (ExpectClientHello.config self) (ExpectClientHello.protocol self)
    (ExpectClientHello.extra_exts self) (ExpectClientHello.transcript self)
    (ExpectClientHello.session_id self) (ExpectClientHello.sni self) data
    (ExpectClientHello.using_ems self) (ExpectClientHello.previous_hello self)
    (ExpectClientHello.send_tickets self).

(* @src rustls/src/server/hs.rs 58-65 ServerState::set_resumption_data *)
Definition set_resumption_data (resumption_data : list u8) : action t Error.t unit := λ self,
  match self with
  | ReadClientHello e => (ReadClientHello (ReadClientHello.mk (ReadClientHello.protocol e) resumption_data), Ok tt)
  | ChooseConfig e =>
      (ChooseConfig (ChooseConfig.mk (ChooseConfig.protocol e) resumption_data (ChooseConfig.client_hello e)),
       Ok tt)
  | ClientHello e => (ClientHello (with_resumption_data resumption_data e), Ok tt)
  | _ => (self, Err (Error.ApiMisuse ApiMisuse.ResumptionDataProvidedTooLate))
  end.
End states.
End ServerState.

(** ** The trait [Suite] *)

(** A version's cipher suites: the trait [Suite], the suites of a provider and the method of a
    selector that are of the version. *)
(* @src rustls/src/suites.rs 107-127 Suite *)
Class Suite `{ServerHandler12} (T : Type) := {
  VERSION : ProtocolVersion.t;
  common : T → CipherSuiteCommon.t;
  usable_for_protocol : T → Protocol.t → bool;
  usable_for_signature_scheme : T → SignatureScheme.t → bool;
  usable_for_kx_algorithm : T → KeyExchangeAlgorithm.t → bool;
  provider_suites : CryptoProvider.t → list T;
  select : CipherSuiteSelector → list T → list T → option T;
  into_supported : T → SupportedCipherSuite.t;
  server_handler : T → SupportedKxGroup.t world → SelectedCredential.t → HelloInput.t →
    ExpectClientHello.t → hs ServerSide.t ServerState.t;
}.

Definition suite_name `{Suite T} (self : T) : CipherSuite.t := CipherSuiteCommon.suite (common self).

Section suites.
Context `{ServerHandler12} `{!SecureRandom}.

(* @src rustls/src/tls13/mod.rs 103-131 Suite_for_Tls13CipherSuite *)
#[global] Instance suite13 : Suite (Tls13CipherSuite.t enc dec quic_alg) := {|
  VERSION := ProtocolVersion.TLSv1_3;
  common := Tls13CipherSuite.common;
  usable_for_protocol s proto :=
    match proto with
    | Protocol.Tcp => true
    | Protocol.Quic _ => bool_decide (is_Some (Tls13CipherSuite.quic s))
    end;
  usable_for_signature_scheme _ scheme := supported_in_tls13 scheme;
  usable_for_kx_algorithm _ _ := true;
  provider_suites := CryptoProvider.tls13_cipher_suites;
  select := select_tls13_cipher_suite;
  into_supported := SupportedCipherSuite.Tls13;
  server_handler suite kx_group credentials input st :=
    st ← Server13.handle_client_hello suite kx_group credentials input st;
    mret (ServerState.from13 st);
|}.

(* @src rustls/src/tls12.rs 89-125 Suite_for_Tls12CipherSuite *)
#[global] Instance suite12 : Suite (Tls12CipherSuite.t prf12 aead12) := {|
  VERSION := ProtocolVersion.TLSv1_2;
  common := Tls12CipherSuite.common;
  usable_for_protocol _ proto := match proto with Protocol.Tcp => true | Protocol.Quic _ => false end;
  usable_for_signature_scheme := usable_for_signature_scheme12;
  usable_for_kx_algorithm s kxa := bool_decide (Tls12CipherSuite.kx s = kxa);
  provider_suites := CryptoProvider.tls12_cipher_suites;
  select := select_tls12_cipher_suite;
  into_supported := SupportedCipherSuite.Tls12;
  server_handler suite kx_group credentials input st :=
    st ← handle_client_hello12 suite kx_group credentials input st;
    mret (ServerState.Tls12 st);
|}.
End suites.

(** ** Choosing a suite and a group *)

Section choose.
Context `{ServerHandler12} `{!SecureRandom} `{!Suite T}.
Notation shs := (hs ServerSide.t).

(** Which key exchange algorithms the groups in common allow: ECDHE, DHE, and whether DHE is
    offered. *)
(* @src rustls/src/server/hs.rs 690-710 ExpectClientHello::choose_suite_and_kx_group::for *)
Definition possible_kx (provider : CryptoProvider.t) (client_groups : list NamedGroup.t)
    : bool * bool * bool :=
  foldl (λ '(ecdhe_possible, ffdhe_possible, ffdhe_offered) offered_group,
    let supported := bool_decide (is_Some (CryptoProvider.find_kx_group provider offered_group VERSION)) in
    match key_exchange_algorithm offered_group with
    | KeyExchangeAlgorithm.DHE => (ecdhe_possible, ffdhe_possible || supported, true)
    | KeyExchangeAlgorithm.ECDHE => (ecdhe_possible || supported, ffdhe_possible, ffdhe_offered)
    end) (false, false, false) client_groups.

(** The client's suites that we have and can use. *)
(* @src rustls/src/server/hs.rs 737-752 ExpectClientHello::choose_suite_and_kx_group::match *)
Definition usable_suites (protocol : Protocol.t) (suites : list T) (sig_scheme : SignatureScheme.t)
    (ecdhe_possible ffdhe_possible : bool) (client_suites : list CipherSuite.t) : list T :=
  omap (λ name,
    '(_, suite) ← list_find (λ ss, suite_name ss = name) suites;
    if usable_for_signature_scheme suite sig_scheme
       && usable_for_protocol suite protocol
       && (ecdhe_possible && usable_for_kx_algorithm suite KeyExchangeAlgorithm.ECDHE
           || ffdhe_possible && usable_for_kx_algorithm suite KeyExchangeAlgorithm.DHE)
    then Some suite else None) client_suites.

(** The client's groups that we have and that fit the suite. *)
(* @src rustls/src/server/hs.rs 762-780 ExpectClientHello::choose_suite_and_kx_group::closure *)
Definition offered_kx_groups (provider : CryptoProvider.t) (suite : T) (client_groups : list NamedGroup.t)
    (client_shares : list KeyShareEntry.t) : list OfferedKxGroup.t :=
  omap (λ name,
    group ← CryptoProvider.find_kx_group provider name VERSION;
    if usable_for_kx_algorithm suite (key_exchange_algorithm (SupportedKxGroup.name group))
    then Some (OfferedKxGroup.mk group
           (bool_decide (VERSION = ProtocolVersion.TLSv1_3)
            && existsb (λ share, bool_decide (KeyShareEntry.group share = SupportedKxGroup.name group))
                 client_shares))
    else None) client_groups.

(** After a retry the group is the one that was asked for. *)
(* @src rustls/src/server/hs.rs 782-794 ExpectClientHello::choose_suite_and_kx_group::match *)
Definition select_group (config : ServerConfig.t) (previous_hello : option PreviousClientHello.t)
    (offered : list OfferedKxGroup.t) : result Error.t (option (SupportedKxGroup.t world)) :=
  match previous_hello with
  | Some previous =>
      match list_find (λ offer, SupportedKxGroup.name (OfferedKxGroup.group offer)
                                = PreviousClientHello.group previous) offered with
      | Some (_, offer) => Ok (Some (OfferedKxGroup.group offer))
      | None => misbehaved PeerMisbehaved.RefusedToFollowHelloRetryRequest
      end
  | None =>
      Ok (chosen ← select_key_exchange (ServerConfig.kx_selector config) offered
                     (CryptoProvider.kx_groups (ServerConfig.provider config));
          if existsb (λ offer, bool_decide (SupportedKxGroup.name (OfferedKxGroup.group offer)
                                            = SupportedKxGroup.name chosen)) offered
          then Some chosen else None)
  end.

(* @src rustls/src/server/hs.rs 676-810 ExpectClientHello::choose_suite_and_kx_group *)
Definition choose_suite_and_kx_group (self : ExpectClientHello.t) (suites : list T)
    (sig_scheme : SignatureScheme.t) (client_groups : list NamedGroup.t)
    (client_shares : list KeyShareEntry.t) (client_suites : list CipherSuite.t)
    : result Error.t (T * SupportedKxGroup.t world) :=
  let config := ExpectClientHello.config self in
  let provider := ServerConfig.provider config in
  let no_groups := Err (Error.PeerIncompatible PeerIncompatible.NoKxGroupsInCommon) in
  let '(ecdhe_possible, ffdhe_possible, ffdhe_offered) := possible_kx provider client_groups in
  let first_supported_dhe_kxg :=
    if decide (VERSION = ProtocolVersion.TLSv1_2)
    then snd <$> list_find (λ skxg, key_exchange_algorithm (SupportedKxGroup.name skxg)
                                    = KeyExchangeAlgorithm.DHE) (CryptoProvider.kx_groups provider)
    else None in
  let ffdhe_possible :=
    ffdhe_possible || (negb ffdhe_offered && bool_decide (is_Some first_supported_dhe_kxg)) in
  if negb ecdhe_possible && negb ffdhe_possible then no_groups
  else
    suite ← ok_or (select (ServerConfig.cipher_suite_selector config)
                     (usable_suites (ExpectClientHello.protocol self) suites sig_scheme ecdhe_possible
                        ffdhe_possible client_suites) suites)
              (Error.PeerIncompatible PeerIncompatible.NoCipherSuitesInCommon);
    let offered := offered_kx_groups provider suite client_groups client_shares in
    selected ← select_group config (ExpectClientHello.previous_hello self) offered;
    match selected with
    | Some skxg => Ok (suite, skxg)
    | None =>
        if bool_decide (VERSION = ProtocolVersion.TLSv1_2) && bool_decide (length offered = 0)
           && usable_for_kx_algorithm suite KeyExchangeAlgorithm.DHE
        then
          match first_supported_dhe_kxg with
          | Some skxg => Ok (suite, skxg)
          | None => no_groups
          end
        else no_groups
    end.
End choose.

(** ** ClientHello *)

Section hello.
Context `{ServerHandler12} `{!SecureRandom}.
Notation shs := (hs ServerSide.t).

(** The schemes that credentials are chosen for. *)
(* @src rustls/src/server/hs.rs 608-626 ExpectClientHello::with_version::match *)
Definition usable_schemes `{!Suite T} (suites : list T) (client_hello : ClientHelloPayload.t)
    (sig_schemes : list SignatureScheme.t) : list SignatureScheme.t :=
  let client_suites :=
    filter (λ scs, suite_name scs ∈ ClientHelloPayload.cipher_suites client_hello) suites in
  if decide (VERSION = ProtocolVersion.TLSv1_2)
  then filter (λ scheme, existsb (λ suite, usable_for_signature_scheme suite scheme) client_suites = true)
         sig_schemes
  else if decide (VERSION = ProtocolVersion.TLSv1_3)
  then filter (λ scheme, supported_in_tls13 scheme = true) sig_schemes
  else sig_schemes.

Definition same_name (a b : option (list u8)) : bool :=
  match a, b with
  | Some a, Some b => Server13.dns_name_eq a b
  | None, None => true
  | _, _ => false
  end.

Definition with_sni (sni : option (list u8)) (self : ExpectClientHello.t) : ExpectClientHello.t :=
  ExpectClientHello.mk (ExpectClientHello.config self) (ExpectClientHello.protocol self)
    (ExpectClientHello.extra_exts self) (ExpectClientHello.transcript self)
    (ExpectClientHello.session_id self) sni (ExpectClientHello.resumption_data self)
    (ExpectClientHello.using_ems self) (ExpectClientHello.previous_hello self)
    (ExpectClientHello.send_tickets self).

(** The name is that of the first hello. *)
(* @src rustls/src/server/hs.rs 592-601 ExpectClientHello::with_version::match *)
Definition name_differs (self : ExpectClientHello.t) (name : option ServerNamePayload.t) : bool :=
  bool_decide (is_Some (ExpectClientHello.previous_hello self))
  && negb (same_name (ExpectClientHello.sni self) (name ≫= ServerNamePayload.to_dns_name_normalized)).

(** The suite is that of the HelloRetryRequest. *)
(* @src rustls/src/server/hs.rs 656-666 ExpectClientHello::with_version::match *)
Definition suite_differs `{!Suite T} (self : ExpectClientHello.t) (suite : T) : bool :=
  match ExpectClientHello.previous_hello self with
  | Some previous => bool_decide (PreviousClientHello.suite previous ≠ suite_name suite)
  | None => false
  end.

(* @src rustls/src/server/hs.rs 574-674 ExpectClientHello::with_version *)
Definition with_version T `{!Suite T} (self : ExpectClientHello.t) (input : HelloInput.t)
    : shs ServerState.t :=
  let config := ExpectClientHello.config self in
  let client_hello := HelloInput.client_hello input in
  let e := HelloInput.extensions input in
  _ ← output (OutputEvent.ProtocolVersion VERSION);
  sni ← lift (InvalidSniPolicy.accept (ServerConfig.invalid_sni_policy config)
                (ClientExtensions.server_name e));
  _ ← emit (Event.ReceivedServerName sni);
  _ ← refuse_if (name_differs self (ClientExtensions.server_name e))
        (Error.PeerMisbehaved PeerMisbehaved.ServerNameDifferedOnRetry);
  let suites := provider_suites (T:=T) (ServerConfig.provider config) in
  let sig_schemes := usable_schemes suites client_hello (HelloInput.sig_schemes input) in
  credentials ← lift (ServerCredentialResolver.resolve (ServerConfig.cert_resolver config)
    (ReceivedHello.new client_hello (Some sig_schemes) sni (Some VERSION)));
  let self := with_sni sni self in
  '(suite, skxg) ← lift (choose_suite_and_kx_group self suites
    (Signer.scheme (SelectedCredential.signer credentials))
    (default [] (ClientExtensions.named_groups e)) (default [] (ClientExtensions.key_shares e))
    (ClientHelloPayload.cipher_suites client_hello));
  _ ← refuse_if (suite_differs self suite)
        (Error.PeerMisbehaved PeerMisbehaved.CipherSuiteDifferedOnRetry);
  _ ← output (OutputEvent.CipherSuite (into_supported suite));
  server_handler suite skxg credentials input self.

Notation Suite12 := (Tls12CipherSuite.t prf12 aead12).
Notation Suite13 := (Tls13CipherSuite.t enc dec quic_alg).

(* @src rustls/src/server/hs.rs 537-572 ExpectClientHello::with_input *)
Definition with_input (self : ExpectClientHello.t) (input : HelloInput.t) : shs ServerState.t :=
  let config := ExpectClientHello.config self in
  let protocol := ExpectClientHello.protocol self in
  let incompatible e := fail (Error.PeerIncompatible e) in
  let tls13_enabled := ServerConfig.supports_version config ProtocolVersion.TLSv1_3 protocol in
  let tls12_enabled :=
    ServerConfig.supports_version config ProtocolVersion.TLSv1_2 protocol
    && negb (bool_decide (is_Some (ExpectClientHello.previous_hello self))) in
  match ClientExtensions.supported_versions (HelloInput.extensions input) with
  | Some versions =>
      if SupportedProtocolVersions.tls13 versions && tls13_enabled then with_version Suite13 self input
      else if negb (SupportedProtocolVersions.tls12 versions) || negb tls12_enabled
      then incompatible PeerIncompatible.Tls12NotOfferedOrEnabled
      else if Protocol.is_quic protocol then incompatible PeerIncompatible.Tls13RequiredForQuic
      else with_version Suite12 self input
  | None =>
      if decide (ProtocolVersion.val (ClientHelloPayload.client_version (HelloInput.client_hello input))
                 < ProtocolVersion.val ProtocolVersion.TLSv1_2)%Z
      then incompatible PeerIncompatible.Tls12NotOffered
      else if Protocol.is_quic protocol then incompatible PeerIncompatible.Tls13RequiredForQuic
      else if negb tls12_enabled && tls13_enabled
      then incompatible PeerIncompatible.SupportedVersionsExtensionRequired
      else with_version Suite12 self input
  end.

(* @src rustls/src/server/hs.rs 821-828 ExpectClientHello::handle *)
Definition handle_hello (self : ExpectClientHello.t) (input : Input.t) : shs ServerState.t :=
  input ← lift (HelloInput.from_input input);
  with_input self input.

(* @src rustls/src/server/hs.rs 421-436 ReadClientHello::handle *)
Definition read_hello (self : ReadClientHello.t) (input : Input.t) : shs ServerState.t :=
  _ ← lift (HelloInput.from_input input);
  mret (ServerState.ChooseConfig (ChooseConfig.mk (ReadClientHello.protocol self)
          (ReadClientHello.resumption_data self) input)).

(* @src rustls/src/server/hs.rs 457-465 ChooseConfig::use_config *)
Definition use_config (self : ChooseConfig.t) (config : ServerConfig.t)
    (extra_exts : ServerExtensionsInput.t) : shs ServerState.t :=
  input ← lift (HelloInput.from_input (ChooseConfig.client_hello self));
  with_input (ExpectClientHello.new config extra_exts (ChooseConfig.resumption_data self)
                (ChooseConfig.protocol self)) input.

(* @src rustls/src/server/tls13.rs 934-951 ExpectAndSkipRejectedEarlyData::handle *)
Definition skip_early_data (self : Server13.ExpectAndSkipRejectedEarlyData) (input : Input.t)
    : shs ServerState.t :=
  let left := Server13.skip_data_left self in
  match Message.payload (Input.message input) with
  | MessagePayload.ApplicationData skip_data =>
      if decide (length skip_data ≤ left)
      then mret (ServerState.Tls13 (Server13.SkipEarlyData
             (Server13.mk_skip (left - length skip_data) (Server13.next self))))
      else handle_hello (Server13.next self) input
  | _ => handle_hello (Server13.next self) input
  end.

(** [State::handle] of the states of TLS 1.3. *)
Definition handle13 (self : Server13.State) (input : Input.t) : shs ServerState.t :=
  let message := Input.message input in
  let next m := st ← m; mret (ServerState.from13 st) in
  match self with
  | Server13.ClientHelloAgain st => handle_hello st input
  | Server13.SkipEarlyData st => skip_early_data st input
  | Server13.CertificateOrCompressedCertificate st => next (lift (Server13.handle_cocc st message))
  | Server13.Certificate st => next (lift (Server13.handle_cert st message))
  | Server13.VerifyClientIdentity _ => fail (Error.Unreachable "state cannot process a message")
  | Server13.CertificateVerify st => next (lift (Server13.handle_cv st message))
  | Server13.EarlyData st => next (Server13.handle_early st input)
  | Server13.Finished st => next (Server13.handle_finished st input)
  | Server13.Traffic st =>
      st ← ServerTls13.handle st input; mret (ServerState.Tls13 (Server13.Traffic st))
  | Server13.QuicTraffic st =>
      st ← ServerTls13.handle_quic st input; mret (ServerState.Tls13 (Server13.QuicTraffic st))
  end.

(* @src rustls/src/server/hs.rs 69-79 ServerState::handle *)
Definition handle_server (self : ServerState.t) (input : Input.t) : shs ServerState.t :=
  match self with
  | ServerState.ReadClientHello r => read_hello r input
  | ServerState.ChooseConfig _ => fail (Error.Unreachable "state cannot process a message")
  | ServerState.ClientHello e => handle_hello e input
  | ServerState.Tls12 sm => st ← handle sm input; mret (ServerState.Tls12 st)
  | ServerState.Tls13 sm => handle13 sm input
  end.

(* @src rustls/src/server/hs.rs 81-83 ServerState::wants_input *)
Definition server_wants_input (self : ServerState.t) : bool :=
  match self with
  | ServerState.ChooseConfig _ => false
  | ServerState.Tls13 (Server13.VerifyClientIdentity _) => false
  | ServerState.Tls12 st => wants_input st
  | _ => true
  end.

(* @src rustls/src/server/hs.rs 85-93 ServerState::handle_without_input *)
Definition server_without_input (self : ServerState.t) : shs ServerState.t :=
  match self with
  | ServerState.Tls13 (Server13.VerifyClientIdentity vci) =>
      verified ← on_world (Server13.verify_with_config vci);
      st ← lift (Server13.continue_with vci verified);
      mret (ServerState.from13 st)
  | ServerState.Tls12 st => st ← handle_without_input st; mret (ServerState.Tls12 st)
  | _ => mret self
  end.

(* @src rustls/src/server/hs.rs 95-100 ServerState::is_traffic *)
Definition server_is_traffic (self : ServerState.t) : bool :=
  match self with
  | ServerState.Tls13 (Server13.Traffic _) | ServerState.Tls13 (Server13.QuicTraffic _) => true
  | ServerState.Tls12 st => is_traffic st
  | _ => false
  end.

(** Among the states of TLS 1.3 none does anything. *)
(* @src rustls/src/server/hs.rs 102-106 ServerState::handle_decrypt_error *)
Definition server_decrypt_error (self : ServerState.t) (x : Join.t ServerSide.t) : Join.t ServerSide.t :=
  match self with
  | ServerState.Tls12 sm => Connection.handle_decrypt_error sm x
  | _ => x
  end.

#[global] Instance server_machine : StateMachine ServerState.t dec enc sched (Join.t ServerSide.t) := {|
  Connection.handle := handle_server;
  Connection.wants_input := server_wants_input;
  Connection.handle_without_input := server_without_input;
  Connection.is_traffic := server_is_traffic;
  Connection.handle_decrypt_error := server_decrypt_error;
|}.
End hello.
