(* ===== verification/ServerHs12.v ===== *)
(** * The TLS 1.2 server handshake ([rustls/src/server/tls12.rs], and the extensions of
    [rustls/src/server/hs.rs])

    From the ClientHello to application traffic: one definition per handler of a state.
    A handler consumes its state, so that it returns the next one. *)
From stdpp Require Import gmap.
From S2P Require Import Prelude Enums Errors Codec Records Fragmenter Deframer Extensions Payloads.
From S2P Require Import ServerHello ClientHello Messages Cipher Send Receive InputBuffer Connection.
From S2P Require Import ConnectionSpec Hkdf KeySchedule Sessions Compress Verify Kx QuicKeys Transcript.
From S2P Require Import Traffic Outputs ClientConfig Ech ClientHs13 LimitedCache ServerConfig ServerHs13.
From S2P Require Import ServerHs Tls12Secrets.

(** ** Key exchange parameters *)

(* @src rustls/src/msgs/handshake.rs 890-898 ServerEcdhParams::new *)
Definition ServerEcdhParams_new (kx : ActiveKeyExchange.t) : ServerEcdhParams.t :=
  ServerEcdhParams.mk (EcParameters.mk ECCurveType.NamedCurve (ActiveKeyExchange.group kx))
    (mkSizedPayload (ActiveKeyExchange.pub_key kx)).

(* @src rustls/src/msgs/handshake.rs 929-939 ServerDhParams::new *)
Definition ServerDhParams_new (kx : ActiveKeyExchange.t) : result Error.t ServerDhParams.t :=
  match ActiveKeyExchange.ffdhe_group kx with
  | None => Panic
  | Some params =>
      Ok (ServerDhParams.mk (mkSizedPayload (FfdheGroup.p params)) (mkSizedPayload (FfdheGroup.g params))
            (mkSizedPayload (ActiveKeyExchange.pub_key kx)))
  end.

(* @src rustls/src/msgs/handshake.rs 969-974 ServerKeyExchangeParams::new *)
Definition ServerKeyExchangeParams_new (kx : ActiveKeyExchange.t)
    : result Error.t ServerKeyExchangeParams.t :=
  match key_exchange_algorithm (ActiveKeyExchange.group kx) with
  | KeyExchangeAlgorithm.DHE => params ← ServerDhParams_new kx; Ok (ServerKeyExchangeParams.Dh params)
  | KeyExchangeAlgorithm.ECDHE => Ok (ServerKeyExchangeParams.Ecdh (ServerEcdhParams_new kx))
  end.

Module Server12.

(** ** States *)

Section states.
Context `{Tls12Provider}.
Notation Suite := (Tls12CipherSuite.t prf12 aead12).

(* @src rustls/src/server/tls12.rs 1076-1085 HandshakeState *)
Record HandshakeState := mk_hs {
  config : ServerConfig.t;
  transcript : HandshakeHash.t;
  session_id : SessionId.t;
  alpn_protocol : option ApplicationProtocol.t;
  sni : option (list u8);
  resumption_data : list u8;
  using_ems : bool;
  send_ticket : bool;
}.
Definition with_transcript (v : HandshakeHash.t) (self : HandshakeState) : HandshakeState :=
  mk_hs (config self) v (session_id self) (alpn_protocol self) (sni self) (resumption_data self)
    (using_ems self) (send_ticket self).
Definition add_message (m : Message.t) (self : HandshakeState) : HandshakeState :=
  with_transcript (HandshakeHash.add_message m (transcript self)) self.

(* @src rustls/src/server/tls12.rs 1153-1156 GroupAndKeyExchange *)
Record GroupAndKeyExchange := mk_kx { group : SupportedKxGroup.t world; kx : ActiveKeyExchange.t }.

(* @src rustls/src/server/tls12.rs 499-505 ExpectCertificate *)
Record ExpectCertificate := mk_cert {
  cert_hs : HandshakeState;
  cert_randoms : ConnectionRandoms.t;
  cert_suite : Suite;
  cert_server_kx : GroupAndKeyExchange;
}.

(* @src rustls/src/server/tls12.rs 562-569 AwaitClientIdentityVerification *)
Record AwaitClientIdentityVerification := mk_await {
  aw_hs : HandshakeState;
  aw_randoms : ConnectionRandoms.t;
  aw_suite : Suite;
  aw_server_kx : GroupAndKeyExchange;
  aw_peer_identity : Identity.t;
}.

(* @src rustls/src/server/tls12.rs 608-615 ExpectClientKx *)
Record ExpectClientKx := mk_ckx {
  ckx_hs : HandshakeState;
  ckx_randoms : ConnectionRandoms.t;
  ckx_suite : Suite;
  ckx_server_kx : GroupAndKeyExchange;
  ckx_peer_identity : option Identity.t;
}.

(* @src rustls/src/server/tls12.rs 678-683 ExpectCertificateVerify *)
Record ExpectCertificateVerify := mk_cv {
  cv_hs : HandshakeState;
  cv_secrets : ConnectionSecrets.t;
  cv_peer_identity : Identity.t;
}.

(* @src rustls/src/server/tls12.rs 734-740 ExpectCcs *)
Record ExpectCcs := mk_ccs {
  ccs_hs : HandshakeState;
  ccs_secrets : ConnectionSecrets.t;
  ccs_peer_identity : option Identity.t;
  ccs_resuming_decrypter : option dec;
}.

(* @src rustls/src/server/tls12.rs 949-955 ExpectFinished *)
Record ExpectFinished := mk_fin {
  fin_hs : HandshakeState;
  fin_secrets : ConnectionSecrets.t;
  fin_peer_identity : option Identity.t;
  fin_resuming : bool;
  fin_pending_encrypter : option enc;
}.

(** The states that [ServerState::Tls12] boxes, and [VerifyClientIdentity]. *)
Inductive State :=
| Certificate (st : ExpectCertificate)
| VerifyClientIdentity (st : AwaitClientIdentityVerification)
| ClientKx (st : ExpectClientKx)
| CertificateVerify (st : ExpectCertificateVerify)
| Ccs (st : ExpectCcs)
| Finished (st : ExpectFinished)
| Traffic (st : ServerTls12.ExpectTraffic).
End states.

(** ** Messages *)

Section emit.
Context `{Tls12Provider} `{!SecureRandom}.
Notation shs := (hs ServerSide.t).
Notation Suite := (Tls12CipherSuite.t prf12 aead12).

(* @src rustls/src/server/hs.rs 119-122 Tls12Extensions *)
Record Tls12Extensions := mk_exts { exts_alpn_protocol : option ApplicationProtocol.t; exts_send_ticket : bool }.

(** Also returns what is left of the OCSP response. *)
(* @src rustls/src/server/hs.rs 125-193 Tls12Extensions::new *)
Definition new_extensions (extra_exts : ServerExtensionsInput.t) (ocsp_response : option (list u8))
    (resumedata : option CommonServerSessionValue.t) (hello : ClientHelloPayload.t) (using_ems : bool)
    (config : ServerConfig.t) : shs (Tls12Extensions * ServerExtensions.t * option (list u8)) :=
  let e := ClientHelloPayload.extensions hello in
  '(alpn_protocol, common, ocsp_response) ←
    Server13.process_common config hello extra_exts ocsp_response resumedata;
  let renegotiation_info := ClientExtensions.renegotiation_info e in
  _ ← refuse_if (from_option (λ info, bool_decide (sp_inner info ≠ [])) false renegotiation_info)
        (Error.PeerMisbehaved PeerMisbehaved.NonEmptyRenegotiationInfo);
  let renegotiation_info :=
    if bool_decide (is_Some renegotiation_info)
       || bool_decide (CipherSuite.TLS_EMPTY_RENEGOTIATION_INFO_SCSV
                       ∈ ClientHelloPayload.cipher_suites hello)
    then Some (mkSizedPayload []) else None in
  let send_ticket := bool_decide (is_Some (ClientExtensions.session_ticket e))
                     && bool_decide (is_Some (ServerConfig.ticketer config)) in
  let session_ticket_ack := if send_ticket then Some tt else None in
  let extended_main_secret_ack := if using_ems then Some tt else None in
  let certificate_status_request_ack :=
    match ocsp_response with Some (_ :: _) => Some tt | _ => None end in
  mret (mk_exts alpn_protocol send_ticket,
        ServerExtensions.mk None (Server13.server_name_ack common) session_ticket_ack renegotiation_info
          (Server13.selected_protocol common) None None None None extended_main_secret_ack
          certificate_status_request_ack None (Server13.transport_parameters common) None None None ∅,
        ocsp_response).

(* @src rustls/src/server/tls12.rs 380-415 emit_server_hello *)
Definition emit_server_hello (flight : HandshakeFlight.t) (config : ServerConfig.t)
    (session_id : SessionId.t) (suite : Suite) (using_ems : bool) (ocsp_response : option (list u8))
    (hello : ClientHelloPayload.t) (resumedata : option CommonServerSessionValue.t)
    (randoms : ConnectionRandoms.t) (extra_exts : ServerExtensionsInput.t)
    : shs (HandshakeFlight.t * Tls12Extensions * option (list u8)) :=
  '(out, extensions, ocsp_response) ←
    new_extensions extra_exts ocsp_response resumedata hello using_ems config;
  let sh := HandshakeMessagePayload.mk (HandshakePayload.ServerHello
    (ServerHelloPayload.mk ProtocolVersion.TLSv1_2 (Random.new (ConnectionRandoms.server randoms))
       session_id (CipherSuiteCommon.suite (Tls12CipherSuite.common suite)) Compression.Null extensions)) in
  mret (HandshakeFlight.add sh flight, out, ocsp_response).

(* @src rustls/src/server/tls12.rs 417-421 emit_certificate *)
Definition emit_certificate (flight : HandshakeFlight.t) (credentials : SelectedCredential.t)
    : HandshakeFlight.t :=
  HandshakeFlight.add (HandshakeMessagePayload.mk
    (HandshakePayload.Certificate (from_signer credentials))) flight.

(* @src rustls/src/server/tls12.rs 423-427 emit_cert_status *)
Definition emit_cert_status (flight : HandshakeFlight.t) (ocsp : list u8) : HandshakeFlight.t :=
  HandshakeFlight.add (HandshakeMessagePayload.mk
    (HandshakePayload.CertificateStatus (CertificateStatus.new ocsp))) flight.

(** [None] and [Some([])] have nothing to staple. *)
(* @src rustls/src/server/tls12.rs 169-172 handle_client_hello::match *)
Definition staple (flight : HandshakeFlight.t) (ocsp_response : option (list u8)) : HandshakeFlight.t :=
  match ocsp_response with
  | None | Some [] => flight
  | Some response => emit_cert_status flight response
  end.

(* @src rustls/src/server/tls12.rs 429-458 emit_server_kx *)
Definition emit_server_kx (flight : HandshakeFlight.t) (selected_group : SupportedKxGroup.t world)
    (credentials : Signer.t) (randoms : ConnectionRandoms.t)
    : action world Error.t (HandshakeFlight.t * GroupAndKeyExchange) :=
  started ← SupportedKxGroup.start selected_group;
  let kx := StartedKeyExchange.into_single started in
  kx_params ← lift (ServerKeyExchangeParams_new kx);
  let msg := ServerKeyExchangeParams.encode kx_params
               (ConnectionRandoms.client randoms ++ ConnectionRandoms.server randoms) in
  sig ← lift (Signer.sign credentials msg);
  let skx := ServerKeyExchangePayload.Known (ServerKeyExchange.mk kx_params
               (DigitallySignedStruct.new (Signer.scheme credentials) sig)) in
  mret (HandshakeFlight.add (HandshakeMessagePayload.mk (HandshakePayload.ServerKeyExchange skx)) flight,
        mk_kx selected_group kx).

(** Also returns whether a certificate is requested. *)
(* @src rustls/src/server/tls12.rs 460-492 emit_certificate_req *)
Definition emit_certificate_req (flight : HandshakeFlight.t) (config : ServerConfig.t)
    : result Error.t (HandshakeFlight.t * bool) :=
  let client_auth := ServerConfig.verifier config in
  if negb (ClientVerifier.offer_client_auth client_auth) then Ok (flight, false)
  else
    verify_schemes ← ClientVerifier.supported_verify_schemes client_auth;
    names ← ClientVerifier.root_hint_subjects client_auth;
    let cr := CertificateRequestPayload.mk
      [ClientCertificateType.RSASign; ClientCertificateType.ECDSASign]
      (filter (λ scheme, is_Some (scheme_algorithm scheme)) verify_schemes) names in
    Ok (HandshakeFlight.add (HandshakeMessagePayload.mk (HandshakePayload.CertificateRequest cr)) flight, true).

(* @src rustls/src/server/tls12.rs 494-496 emit_server_hello_done *)
Definition emit_server_hello_done (flight : HandshakeFlight.t) : HandshakeFlight.t :=
  HandshakeFlight.add (HandshakeMessagePayload.mk HandshakePayload.ServerHelloDone) flight.

(** What is kept of a session. *)
(* @src rustls/src/server/tls12.rs 882-894 emit_ticket::match *)
Definition session_value (secrets : ConnectionSecrets.t) (using_ems : bool)
    (peer_identity : option Identity.t) (alpn_protocol : option ApplicationProtocol.t)
    (sni : option (list u8)) (resumption_data : list u8) (now : Z) : ServerSessionValue.t :=
  ServerSessionValue.Tls12 (Tls12ServerSessionValue.mk
    (CommonServerSessionValue.new sni
       (CipherSuiteCommon.suite (Tls12CipherSuite.common (ConnectionSecrets.suite secrets)))
       peer_identity alpn_protocol resumption_data now)
    (ConnectionSecrets.master_secret secrets) using_ems).

(** These send a message and return the transcript with it. *)
(* @src rustls/src/server/tls12.rs 870-916 emit_ticket *)
Definition emit_ticket (secrets : ConnectionSecrets.t) (transcript : HandshakeHash.t) (using_ems : bool)
    (peer_identity : option Identity.t) (alpn_protocol : option ApplicationProtocol.t)
    (sni : option (list u8)) (resumption_data : list u8) (ticketer : TicketProducerObject.t) (now : Z)
    : shs HandshakeHash.t :=
  let plain := get_encoding
    (session_value secrets using_ems peer_identity alpn_protocol sni resumption_data now) in
  ticket ← on_world (Server13.call (TicketProducerObject.encrypt ticketer plain));
  let m := message12 (HandshakePayload.NewSessionTicket (NewSessionTicketPayload.new
             (TicketProducerObject.lifetime ticketer) (default [] ticket))) in
  _ ← send_msg m false;
  mret (HandshakeHash.add_message m transcript).

(* @src rustls/src/server/tls12.rs 918-926 emit_ccs *)
Definition emit_ccs : shs unit :=
  send_msg (Message.mk (EncodableVersion.Legacy ProtocolVersion.TLSv1_2)
              (MessagePayload.ChangeCipherSpec ChangeCipherSpecPayload.mk)) false.

(* @src rustls/src/server/tls12.rs 928-947 emit_finished *)
Definition emit_finished (secrets : ConnectionSecrets.t) (transcript : HandshakeHash.t)
    : shs HandshakeHash.t :=
  let vh := HandshakeHash.current_hash transcript in
  let f := message12 (HandshakePayload.Finished (ConnectionSecrets.server_verify_data secrets vh)) in
  _ ← send_msg f true;
  mret (HandshakeHash.add_message f transcript).
End emit.

(** ** ClientHello *)

Section client_hello.
Context `{Tls12Provider} `{!SecureRandom}.
Notation shs := (hs ServerSide.t).
Notation Suite := (Tls12CipherSuite.t prf12 aead12).

(** The encoded session of a ticket that decrypts or, without a ticket, of the store; and
    whether there was a ticket. *)
(* @src rustls/src/server/tls12.rs 220-251 check_session::match *)
Definition find_session (hello : ClientHelloPayload.t) (config : ServerConfig.t)
    : action world Error.t (bool * option (list u8)) :=
  match ClientExtensions.session_ticket (ClientHelloPayload.extensions hello) with
  | Some (ClientSessionTicket.Offer ticket) =>
      match ServerConfig.ticketer config with
      | Some ticketer =>
          data ← Server13.call (TicketProducerObject.decrypt ticketer ticket);
          mret (true, data)
      | None => mret (true, None)
      end
  | _ =>
      let session_id := ClientHelloPayload.session_id hello in
      if negb (SessionId.is_empty session_id)
      then
        data ← Server13.call (StoresServerSessions.get (ServerConfig.session_storage config)
                                (SessionId.as_ref session_id));
        mret (false, data)
      else mret (false, None)
  end.

(* @src rustls/src/server/tls12.rs 212-271 check_session *)
Definition check_session (hello : ClientHelloPayload.t) (sni : option (list u8)) (using_ems : bool)
    (suite : Suite) (config : ServerConfig.t)
    : action world Error.t (bool * option Tls12ServerSessionValue.t) :=
  '(ticket, encoded) ← find_session hello config;
  match encoded with
  | None => mret (ticket, None)
  | Some encoded =>
      match (read_bytes encoded : result InvalidMessage.t ServerSessionValue.t) with
      | Ok (ServerSessionValue.Tls12 session) =>
          let extended_ms := Tls12ServerSessionValue.extended_ms session in
          if negb (CommonServerSessionValue.can_resume Server13.dns_name_eq
                     (Tls12ServerSessionValue.common session)
                     (CipherSuiteCommon.suite (Tls12CipherSuite.common suite)) sni)
          then mret (ticket, None)
          else if Bool.eqb extended_ms using_ems || extended_ms && negb using_ems
          then mret (ticket, Some session)
          else mret (ticket, None)
      | Panic => panic
      | _ => mret (ticket, None)
      end
  end.

(** A new ticket, if it was announced and there is a ticketer; returns the transcript. *)
(* @src rustls/src/server/tls12.rs 341-358 start_resumption::match *)
Definition send_ticket_now (hs : HandshakeState) (secrets : ConnectionSecrets.t)
    (peer_identity : option Identity.t) : shs HandshakeHash.t :=
  if send_ticket hs then
    now ← on_world (ServerConfig.current_time (config hs));
    match ServerConfig.ticketer (config hs) with
    | Some ticketer =>
        emit_ticket secrets (transcript hs) (using_ems hs) peer_identity (alpn_protocol hs) (sni hs)
          (resumption_data hs) ticketer now
    | None => mret (transcript hs)
    end
  else mret (transcript hs).

(* @src rustls/src/server/tls12.rs 273-378 start_resumption *)
Definition start_resumption (suite : Suite) (using_ems : bool) (input : HelloInput.t)
    (sni : option (list u8)) (resumption_data : list u8) (transcript : HandshakeHash.t)
    (randoms : ConnectionRandoms.t) (extra_exts : ServerExtensionsInput.t) (config : ServerConfig.t)
    (resumedata : Tls12ServerSessionValue.t) : shs State :=
  _ ← refuse_if (Tls12ServerSessionValue.extended_ms resumedata && negb using_ems)
        (Error.PeerMisbehaved PeerMisbehaved.ResumptionAttemptedWithVariedEms);
  let hello := HelloInput.client_hello input in
  let common := Tls12ServerSessionValue.common resumedata in
  let session_id := ClientHelloPayload.session_id hello in
  '(flight, exts, _) ←
    emit_server_hello (HandshakeFlight.new transcript) config session_id suite using_ems None hello
      (Some common) randoms extra_exts;
  _ ← HandshakeFlight.finish false flight;
  let hs := mk_hs config (HandshakeFlight.transcript flight) session_id (exts_alpn_protocol exts) sni
              resumption_data using_ems (exts_send_ticket exts) in
  let secrets :=
    ConnectionSecrets.new_resume randoms suite (Tls12ServerSessionValue.master_secret resumedata) in
  _ ← log_master_secret secrets;
  _ ← output (OutputEvent.HandshakeKind HandshakeKind.Resumed);
  _ ← emit (Event.ResumptionData (sp_inner (CommonServerSessionValue.application_data common)));
  let peer_identity := CommonServerSessionValue.peer_identity common in
  tr ← send_ticket_now hs secrets peer_identity;
  _ ← emit_ccs;
  '(dec, encrypter) ← lift (ConnectionSecrets.make_cipher_pair secrets Side.Server);
  _ ← set_encrypter (Encrypter.mk encrypter (CipherSuiteCommon.confidentiality_limit
                                               (Tls12CipherSuite.common suite)));
  tr ← emit_finished secrets tr;
  mret (Ccs (mk_ccs (with_transcript tr hs) secrets peer_identity (Some dec))).

(** The session is named, if it may be resumed by its name. *)
(* @src rustls/src/server/tls12.rs 141-146 handle_client_hello::match *)
Definition choose_session_id (config : ServerConfig.t) (session_id : SessionId.t) (ticket_received : bool)
    : action world Error.t SessionId.t :=
  can_cache ← gets (StoresServerSessions.can_cache (ServerConfig.session_storage config));
  if negb can_cache then mret SessionId.empty
  else if SessionId.is_empty session_id && negb ticket_received then session_id_random
  else mret session_id.

(** If TLS 1.3 is enabled, the server random says so. *)
(* @src rustls/src/server/tls12.rs 103-111 handle_client_hello::match *)
Definition mark_downgrade (config : ServerConfig.t) (randoms : ConnectionRandoms.t) : ConnectionRandoms.t :=
  match CryptoProvider.tls13_cipher_suites (ServerConfig.provider config) with
  | [] => randoms
  | _ => ConnectionRandoms.mk (ConnectionRandoms.client randoms)
           (take 24 (ConnectionRandoms.server randoms) ++ DOWNGRADE_SENTINEL)
  end.

(** A full handshake. *)
(* @src rustls/src/server/tls12.rs 139-206 handle_client_hello::match *)
Definition start_full (suite : Suite) (kx_group : SupportedKxGroup.t world)
    (credentials : SelectedCredential.t) (input : HelloInput.t) (st : ExpectClientHello.t)
    (using_ems : bool) (transcript : HandshakeHash.t) (randoms : ConnectionRandoms.t)
    (ticket_received : bool) : shs State :=
  let config := ExpectClientHello.config st in
  session_id ← on_world (choose_session_id config (ExpectClientHello.session_id st) ticket_received);
  _ ← output (OutputEvent.HandshakeKind HandshakeKind.Full);
  '(flight, exts, ocsp_response) ←
    emit_server_hello (HandshakeFlight.new transcript) config session_id suite using_ems
      (SelectedCredential.ocsp credentials) (HelloInput.client_hello input) None randoms
      (ExpectClientHello.extra_exts st);
  let flight := staple (emit_certificate flight credentials) ocsp_response in
  '(flight, server_kx) ←
    on_world (emit_server_kx flight kx_group (SelectedCredential.signer credentials) randoms);
  '(flight, doing_client_auth) ← lift (emit_certificate_req flight config);
  let flight := emit_server_hello_done flight in
  _ ← HandshakeFlight.finish false flight;
  let hs := mk_hs config (HandshakeFlight.transcript flight) session_id (exts_alpn_protocol exts)
              (ExpectClientHello.sni st) (ExpectClientHello.resumption_data st) using_ems
              (exts_send_ticket exts) in
  mret (if doing_client_auth : bool then Certificate (mk_cert hs randoms suite server_kx)
        else ClientKx (mk_ckx hs randoms suite server_kx None)).

(* @src rustls/src/server/tls12.rs 61-207 handle_client_hello *)
Definition handle_client_hello (suite : Suite) (kx_group : SupportedKxGroup.t world)
    (credentials : SelectedCredential.t) (input : HelloInput.t) (st : ExpectClientHello.t) : shs State :=
  let config := ExpectClientHello.config st in
  let e := HelloInput.extensions input in
  randoms ← on_world (Server13.randoms input);
  transcript ← lift (HandshakeHashOrBuffer.start (ExpectClientHello.transcript st)
                       (CipherSuiteCommon.hash_provider (Tls12CipherSuite.common suite)));
  let transcript := HandshakeHash.add_message (HelloInput.message input) transcript in
  let ems_requested := bool_decide (is_Some (ClientExtensions.extended_main_secret_request e)) in
  _ ← refuse_if (negb ems_requested && ServerConfig.require_ems config)
        (Error.PeerIncompatible PeerIncompatible.ExtendedMainSecretExtensionRequired);
  let using_ems := ems_requested || ExpectClientHello.using_ems st in
  _ ← refuse_if (negb (from_option SupportedEcPointFormats.uncompressed true
                         (ClientExtensions.ec_point_formats e)))
        (Error.PeerIncompatible PeerIncompatible.UncompressedEcPointsRequired);
  let randoms := mark_downgrade config randoms in
  '(ticket_received, resume_data) ←
    on_world (check_session (HelloInput.client_hello input) (ExpectClientHello.sni st) using_ems suite config);
  match resume_data with
  | Some data =>
      start_resumption suite using_ems input (ExpectClientHello.sni st)
        (ExpectClientHello.resumption_data st) transcript randoms (ExpectClientHello.extra_exts st) config data
  | None => start_full suite kx_group credentials input st using_ems transcript randoms ticket_received
  end.
End client_hello.

(** ** The client's flight *)

Section flight.
Context `{Tls12Provider}.
Notation shs := (hs ServerSide.t).

(* @src rustls/src/server/tls12.rs 508-553 ExpectCertificate::handle *)
Definition handle_cert (self : ExpectCertificate) (message : Message.t) : result Error.t State :=
  let hs := add_message message (cert_hs self) in
  cert_chain ← require_handshake_msg message
    (λ p, match p with HandshakePayload.Certificate c => Some c | _ => None end)
    HandshakeType.Certificate;
  let mandatory := ClientVerifier.client_auth_mandatory (ServerConfig.verifier (config hs)) in
  identity ← Identity.from_peer (CertificateChain.inner cert_chain) CertificateType.X509;
  match identity with
  | None =>
      if mandatory then misbehaved PeerMisbehaved.NoCertificatesPresented
      else
        let hs := with_transcript (HandshakeHash.abandon_client_auth (transcript hs)) hs in
        Ok (ClientKx (mk_ckx hs (cert_randoms self) (cert_suite self) (cert_server_kx self) None))
  | Some identity =>
      Ok (VerifyClientIdentity (mk_await hs (cert_randoms self) (cert_suite self) (cert_server_kx self)
                                  identity))
  end.

(* @src rustls/src/server/tls12.rs 572-577 AwaitClientIdentityVerification::presented_identity *)
Definition presented_identity (self : AwaitClientIdentityVerification)
    : action world Error.t ClientIdentity.t :=
  now ← ServerConfig.current_time (config (aw_hs self));
  mret (ClientIdentity.mk (aw_peer_identity self) now).

(* @src rustls/src/server/tls12.rs 579-584 AwaitClientIdentityVerification::verify_with_config *)
Definition verify_with_config (self : AwaitClientIdentityVerification) : action world Error.t Identity.t :=
  identity ← presented_identity self;
  lift (ClientVerifier.verify_identity (ServerConfig.verifier (config (aw_hs self))) identity).

(* @src rustls/src/server/tls12.rs 586-599 AwaitClientIdentityVerification::continue_with *)
Definition continue_with (self : AwaitClientIdentityVerification) (peer_identity : Identity.t) : State :=
  ClientKx (mk_ckx (aw_hs self) (aw_randoms self) (aw_suite self) (aw_server_kx self) (Some peer_identity)).

(* @src rustls/src/server/tls12.rs 618-669 ExpectClientKx::handle *)
Definition handle_client_kx (self : ExpectClientKx) (message : Message.t) : shs State :=
  client_kx ← lift (require_handshake_msg message
    (λ p, match p with HandshakePayload.ClientKeyExchange k => Some k | _ => None end)
    HandshakeType.ClientKeyExchange);
  let hs := add_message message (ckx_hs self) in
  let ems_seed := if using_ems hs then Some (HandshakeHash.current_hash (transcript hs)) else None in
  peer_kx_params ← lift (decode_kx_params ClientKeyExchangeParams.decode
                           (Tls12CipherSuite.kx (ckx_suite self)) client_kx);
  secrets ← lift (ConnectionSecrets.from_key_exchange (kx (ckx_server_kx self))
                    (ClientKeyExchangeParams.pub_key peer_kx_params) ems_seed (ckx_randoms self)
                    (ckx_suite self));
  _ ← output (OutputEvent.KeyExchangeGroup (group (ckx_server_kx self)));
  _ ← log_master_secret secrets;
  mret (match ckx_peer_identity self with
        | Some peer_identity => CertificateVerify (mk_cv hs secrets peer_identity)
        | None => Ccs (mk_ccs hs secrets None None)
        end).

(* @src rustls/src/server/tls12.rs 686-725 ExpectCertificateVerify::handle *)
Definition handle_cv (self : ExpectCertificateVerify) (message : Message.t) : result Error.t State :=
  signature ← require_handshake_msg message
    (λ p, match p with HandshakePayload.CertificateVerify c => Some c | _ => None end)
    HandshakeType.CertificateVerify;
  let '(tr, msgs) := HandshakeHash.take_handshake_buf (transcript (cv_hs self)) in
  match msgs with
  | None => Err (Error.Unreachable "client authentication not set up")
  | Some msgs =>
      _ ← ClientVerifier.verify_tls12_signature (ServerConfig.verifier (config (cv_hs self)))
            (SignatureVerificationInput.mk msgs (as_signer (cv_peer_identity self)) signature);
      let hs := add_message message (with_transcript tr (cv_hs self)) in
      Ok (Ccs (mk_ccs hs (cv_secrets self) (Some (cv_peer_identity self)) None))
  end.

(* @src rustls/src/server/tls12.rs 743-785 ExpectCcs::handle *)
Definition handle_ccs (self : ExpectCcs) (input : Input.t) : shs State :=
  match Message.payload (Input.message input) with
  | MessagePayload.ChangeCipherSpec _ =>
      _ ← lift (Input.check_aligned_handshake input);
      '(decrypter, pending_encrypter) ←
        (match ccs_resuming_decrypter self with
         | Some dec => mret (dec, None)
         | None =>
             '(dec, enc) ← lift (ConnectionSecrets.make_cipher_pair (ccs_secrets self) Side.Server);
             mret (dec, Some enc)
         end);
      _ ← set_record_decrypter decrypter;
      mret (Finished (mk_fin (ccs_hs self) (ccs_secrets self) (ccs_peer_identity self)
                        (negb (bool_decide (is_Some pending_encrypter))) pending_encrypter))
  | payload => fail (inappropriate_message payload [ContentType.ChangeCipherSpec])
  end.
End flight.

(** ** The end of the handshake *)

Section finished.
Context `{Tls12Provider}.
Notation shs := (hs ServerSide.t).

(** A full handshake with a name is kept. *)
(* @src rustls/src/server/tls12.rs 984-1008 handle::match *)
Definition save_session (self : ExpectFinished) : action world Error.t unit :=
  let hs := fin_hs self in
  if negb (fin_resuming self) && negb (SessionId.is_empty (session_id hs)) then
    now ← ServerConfig.current_time (config hs);
    let value := session_value (fin_secrets self) (using_ems hs) (fin_peer_identity self)
                   (alpn_protocol hs) (sni hs) (resumption_data hs) now in
    _ ← Server13.call (StoresServerSessions.put (ServerConfig.session_storage (config hs))
                         (SessionId.as_ref (session_id hs)) (get_encoding value));
    mret tt
  else mret tt.

(** Our change of ciphers and Finished, unless they were sent before the client's. *)
(* @src rustls/src/server/tls12.rs 1014-1043 handle::match *)
Definition answer (self : ExpectFinished) (hs : HandshakeState) : shs unit :=
  match fin_pending_encrypter self with
  | None => mret tt
  | Some encrypter =>
      if fin_resuming self then panic
      else
        tr ← send_ticket_now hs (fin_secrets self) (fin_peer_identity self);
        _ ← emit_ccs;
        _ ← set_encrypter (Encrypter.mk encrypter (CipherSuiteCommon.confidentiality_limit
              (Tls12CipherSuite.common (ConnectionSecrets.suite (fin_secrets self)))));
        _ ← emit_finished (fin_secrets self) tr;
        mret tt
  end.

(* @src rustls/src/server/tls12.rs 958-1067 ExpectFinished::handle *)
Definition handle_finished (self : ExpectFinished) (input : Input.t) : shs State :=
  let hs := fin_hs self in
  let secrets := fin_secrets self in
  finished ← lift (require_handshake_msg (Input.message input)
                     (λ p, match p with HandshakePayload.Finished f => Some f | _ => None end)
                     HandshakeType.Finished);
  _ ← lift (Input.check_aligned_handshake input);
  let vh := HandshakeHash.current_hash (transcript hs) in
  _ ← refuse_if (bool_decide (ConnectionSecrets.client_verify_data secrets vh ≠ finished))
        (Error.PeerMisbehaved PeerMisbehaved.IncorrectFinished);
  _ ← on_world (save_session self);
  let hs := add_message (Input.message input) hs in
  _ ← answer self hs;
  _ ← (match fin_peer_identity self with
       | Some identity => output (OutputEvent.PeerIdentity identity)
       | None => mret tt
       end);
  extracted_secrets ←
    (if ServerConfig.enable_secret_extraction (config hs)
     then r ← capture (lift (ConnectionSecrets.extract_secrets secrets Side.Server)); mret (Some r)
     else mret None);
  _ ← output (OutputEvent.ExtendedMainSecret (using_ems hs));
  _ ← output (OutputEvent.Exporter (ConnectionSecrets.into_exporter secrets));
  _ ← start_traffic;
  mret (Traffic (ServerTls12.mk extracted_secrets)).
End finished.

(** ** The states together *)

Section machine.
Context `{Tls12Provider} `{!SecureRandom}.
Notation shs := (hs ServerSide.t).

(** [State::handle] of each state. *)
Definition handle (self : State) (input : Input.t) : shs State :=
  let message := Input.message input in
  match self with
  | Certificate st => lift (handle_cert st message)
  | VerifyClientIdentity _ => fail (Error.Unreachable "state cannot process a message")
  | ClientKx st => handle_client_kx st message
  | CertificateVerify st => lift (handle_cv st message)
  | Ccs st => handle_ccs st input
  | Finished st => handle_finished st input
  | Traffic st => st ← ServerTls12.handle st input; mret (Traffic st)
  end.

Definition handle_without_input (self : State) : shs State :=
  match self with
  | VerifyClientIdentity vci =>
      verified ← on_world (verify_with_config vci);
      mret (continue_with vci verified)
  | _ => mret self
  end.

#[export] Instance machine : StateMachine State dec enc sched (Join.t ServerSide.t) := {|
  Connection.handle := handle;
  Connection.wants_input self := match self with VerifyClientIdentity _ => false | _ => true end;
  Connection.handle_without_input := handle_without_input;
  Connection.is_traffic self := match self with Traffic _ => true | _ => false end;
  Connection.handle_decrypt_error _ j := j;
|}.

#[export] Instance TLS12_HANDLER : ServerHandler12 := {|
  server_state12 := State;
  server_machine12 := machine;
  handle_client_hello12 := handle_client_hello;
|}.
End machine.
End Server12.
