(* ===== verification/ServerAuth.v ===== *)
(** * What a TLS 1.3 server knows of its client

    A server of [ServerHs] that reaches application traffic chose among what the ClientHello
    offers, the same after a HelloRetryRequest; it resumes a session only if the client has
    shown that it knows its secret; the identity that it reports was verified and signed the
    transcript, or is that of the session; and the Finished message is the MAC of the
    transcript under the client's handshake secret. *)
From stdpp Require Import gmap.
From S2P Require Import Prelude Enums Errors Codec Records Extensions Payloads ServerHello ClientHello.
From S2P Require Import Messages Cipher Send Receive Connection Hkdf KeySchedule Sessions Compress Verify Kx.
From S2P Require Import QuicKeys Transcript Traffic Outputs ClientConfig Ech ClientHs13 Handlers ServerConfig.
From S2P Require Import ServerHs13 ServerHs.
Import Server13.

Section spec.
Context `{ServerHandler12} `{!SecureRandom}.
Notation shs := (hs ServerSide.t).
Notation Suite13 := (Tls13CipherSuite.t enc dec quic_alg).
Notation ProtocolSuite := (Tls13ProtocolSuite.t enc dec quic_alg).
Notation Pending := (KeyScheduleTrafficWithClientFinishedPending.t enc dec quic_alg).
Notation suite_id s := (CipherSuiteCommon.suite (Tls13CipherSuite.common s)).

(** ** The hello *)

(** A session that the client may resume: it named its ticket, and the binder is the MAC,
    under the session's secret, of the transcript up to the binders. *)
Record resumes (config : ServerConfig.t) (input : HelloInput.t) (transcript : HandshakeHash.t)
    (sni : option (list u8)) (suite : ProtocolSuite) (psk : PskAcceptance) : Prop := {
  resumes_mode : ∃ modes, ClientExtensions.preshared_key_modes (HelloInput.extensions input) = Some modes
    ∧ PskKeyExchangeModes.psk_dhe modes = true;
  resumes_ticket : ∃ offer id binder plain value now w w',
    ClientExtensions.preshared_key_offer (HelloInput.extensions input) = Some offer
    ∧ PresharedKeyOffer.identities offer !! index psk = Some id
    ∧ PresharedKeyOffer.binders offer !! index psk = Some binder
    ∧ open_ticket config (sp_inner (PresharedKeyIdentity.identity id)) w = (w', Some plain)
    ∧ read_bytes plain = Ok (ServerSessionValue.Tls13 value)
    ∧ session psk = Tls13ServerSessionValue.set_freshness value
                      (PresharedKeyIdentity.obfuscated_ticket_age id) now
    ∧ CommonServerSessionValue.cipher_suite (Tls13ServerSessionValue.common value)
      = suite_id (Tls13ProtocolSuite.suite suite)
    ∧ same_name (CommonServerSessionValue.sni (Tls13ServerSessionValue.common value)) sni = true
    ∧ ∃ early parsed encoded,
        Message.payload (HelloInput.message input) = MessagePayload.Handshake parsed encoded
        ∧ KeyScheduleEarly.new Side.Server suite (sp_inner (Tls13ServerSessionValue.secret value)) = Ok early
        ∧ KeyScheduleEarly.resumption_psk_binder_key_and_sign_verify_data early
            (HandshakeHash.hash_given transcript
               (take (length encoded - HandshakeMessagePayload.total_binder_length parsed) encoded))
          = Ok (sp_inner (PresharedKeyBinder.inner binder));
}.

(** What the server holds once it has sent its flight; [ac_early] is the early data that it
    takes itself, QUIC's being none of its business. *)
Record Accepted := mk_accepted {
  ac_hs : HandshakeState;
  ac_schedule : Pending;
  ac_resuming : option PskAcceptance;
  ac_client_auth : bool;
  ac_type : CertificateType.t;
  ac_early : option Z;
}.
Implicit Types (a : Accepted).

Notation verifier_of a := (ServerConfig.verifier (config (ac_hs a))).

Definition resumed_peer a : option Identity.t :=
  psk ← ac_resuming a; CommonServerSessionValue.peer_identity (Tls13ServerSessionValue.common (session psk)).

(** The choices of a server in the state [st] that accepted the hello [input]. *)
Record chosen (st : ExpectClientHello.t) (input : HelloInput.t) a : Prop := {
  chosen_config : config (ac_hs a) = ExpectClientHello.config st;
  chosen_suite : suite (ac_hs a)
      ∈ CryptoProvider.tls13_cipher_suites (ServerConfig.provider (ExpectClientHello.config st))
    ∧ suite_id (suite (ac_hs a)) ∈ ClientHelloPayload.cipher_suites (HelloInput.client_hello input);
  chosen_share : ∃ groups shares share,
    ClientExtensions.named_groups (HelloInput.extensions input) = Some groups
    ∧ ClientExtensions.key_shares (HelloInput.extensions input) = Some shares
    ∧ share ∈ shares ∧ KeyShareEntry.group share ∈ groups
    ∧ is_Some (CryptoProvider.find_kx_group (ServerConfig.provider (ExpectClientHello.config st))
                 (KeyShareEntry.group share) ProtocolVersion.TLSv1_3)
    ∧ ∀ previous, ExpectClientHello.previous_hello st = Some previous →
        PreviousClientHello.group previous = KeyShareEntry.group share;
  chosen_retry : ∀ previous, ExpectClientHello.previous_hello st = Some previous →
    PreviousClientHello.suite previous = suite_id (suite (ac_hs a))
    ∧ same_name (ExpectClientHello.sni st)
        (ClientExtensions.server_name (HelloInput.extensions input)
         ≫= ServerNamePayload.to_dns_name_normalized) = true
    ∧ ClientExtensions.early_data_request (HelloInput.extensions input) = None
    ∧ (PreviousClientHello.offered_psk previous = true →
       is_Some (ClientExtensions.preshared_key_offer (HelloInput.extensions input)));
  chosen_name : InvalidSniPolicy.accept (ServerConfig.invalid_sni_policy (ExpectClientHello.config st))
      (ClientExtensions.server_name (HelloInput.extensions input)) = Ok (sni (ac_hs a));
  chosen_protocol : ∀ protocol, alpn_protocol (ac_hs a) = Some protocol →
    protocol ∈ ServerConfig.alpn_protocols (ExpectClientHello.config st)
    ∧ ∃ offered, ClientExtensions.protocols (HelloInput.extensions input) = Some offered
        ∧ protocol ∈ offered;
  chosen_session : ∀ psk, ac_resuming a = Some psk →
    ∃ transcript s, HandshakeHashOrBuffer.start (ExpectClientHello.transcript st)
        (CipherSuiteCommon.hash_provider (Tls13CipherSuite.common (suite (ac_hs a)))) = Ok transcript
      ∧ protocol_suite (suite (ac_hs a)) (ExpectClientHello.protocol st) = Ok s
      ∧ resumes (ExpectClientHello.config st) input transcript (sni (ac_hs a)) s psk;
  chosen_client_auth : ac_client_auth a
    = bool_decide (ac_resuming a = None) && ClientVerifier.offer_client_auth (verifier_of a);
  chosen_early_data : ∀ max, ac_early a = Some max →
    max = ServerConfig.max_early_data_size (ExpectClientHello.config st)
    ∧ ∃ psk, ac_resuming a = Some psk
      ∧ early_data_acceptable (HelloInput.client_hello input) psk (alpn_protocol (ac_hs a))
          (suite (ac_hs a)) (ExpectClientHello.config st) = true;
}.

Definition carries_data (i : Input.t) (data : list u8) : Prop :=
  Message.payload (Input.message i) = MessagePayload.ApplicationData data.

(** The hellos: one, or two with data in between that the server skips, no more than it
    might have asked for. *)
Inductive greeted (st0 : ExpectClientHello.t) : list Input.t → ExpectClientHello.t → HelloInput.t → Prop :=
| greeted_once i input : HelloInput.from_input i = Ok input → greeted st0 [i] st0 input
| greeted_again i1 input1 skipped datas st1 i2 input2 :
    HelloInput.from_input i1 = Ok input1 →
    Forall2 carries_data skipped datas →
    length (concat datas)
      ≤ max_early_data_size (ServerConfig.max_early_data_size (ExpectClientHello.config st0)) →
    (datas ≠ [] → is_Some (ClientExtensions.early_data_request (HelloInput.extensions input1))) →
    is_Some (ExpectClientHello.previous_hello st1) →
    ExpectClientHello.config st1 = ExpectClientHello.config st0 →
    ExpectClientHello.protocol st1 = ExpectClientHello.protocol st0 →
    InvalidSniPolicy.accept (ServerConfig.invalid_sni_policy (ExpectClientHello.config st0))
      (ClientExtensions.server_name (HelloInput.extensions input1)) = Ok (ExpectClientHello.sni st1) →
    HelloInput.from_input i2 = Ok input2 →
    greeted st0 (i1 :: skipped ++ [i2]) st1 input2.

(** ** The client's flight *)

(** The hash of the transcript after more messages. *)
Definition transcript_hash (hs : HandshakeState) (ins : list Input.t) : list u8 :=
  Hash.hash (HandshakeHash.provider (transcript hs))
    (HandshakeHash.ctx (transcript hs) ++ concat ((λ i, transcript_bytes (Input.message i)) <$> ins)).

(** Certificates as the server asks for them. *)
Definition certificates a (i : Input.t) (chain : CertificatePayloadTls13.t) : Prop :=
  presents (ServerConfig.cert_decompressors (config (ac_hs a))) i chain
  ∧ sp_inner (CertificatePayloadTls13.context chain) = []
  ∧ Forall (λ e, only_contains (CertificateEntry.extensions e) [] = true)
      (CertificatePayloadTls13.entries chain).

Definition presented a (chain : CertificatePayloadTls13.t) : result Error.t (option Identity.t) :=
  Identity.from_peer (CertificateChain.inner (CertificatePayloadTls13.into_certificate_chain chain))
    (ac_type a).

(** The messages before Finished, and the peer that they show. *)
Inductive client_flight a : list Input.t → option Identity.t → Prop :=
| flight_empty : ac_client_auth a = false → ac_early a = None → client_flight a [] (resumed_peer a)
| flight_early_data max early datas e :
    ac_client_auth a = false → ac_early a = Some max →
    Forall2 carries_data early datas → length (concat datas) ≤ Z.to_nat max →
    input_payload e = Some HandshakePayload.EndOfEarlyData → Input.aligned_handshake e = true →
    client_flight a (early ++ [e]) (resumed_peer a)
| flight_anonymous i chain :
    ac_client_auth a = true → ClientVerifier.client_auth_mandatory (verifier_of a) = false →
    certificates a i chain → presented a chain = Ok None →
    client_flight a [i] None
| flight_certificate i icv chain identity now id dss :
    ac_client_auth a = true → certificates a i chain → presented a chain = Ok (Some identity) →
    ClientVerifier.verify_identity (verifier_of a) (ClientIdentity.mk identity now) = Ok id →
    input_payload icv = Some (HandshakePayload.CertificateVerify dss) →
    ClientVerifier.verify_tls13_signature (verifier_of a)
      (SignatureVerificationInput.mk
         (replicate 64 x20 ++ CLIENT_CONSTANT ++ transcript_hash (ac_hs a) [i]) (as_signer id) dss) = Ok tt →
    client_flight a [i; icv] (Some id).

(** With Finished, the MAC of the transcript. *)
Inductive finished a : list Input.t → option Identity.t → Prop :=
| finished_by ins i peer verify_data :
    client_flight a ins peer →
    KeyScheduleSuite.sign_finish (KeyScheduleTrafficWithClientFinishedPending.inner (ac_schedule a))
      (KeyScheduleTrafficWithClientFinishedPending.handshake_client_traffic_secret (ac_schedule a))
      (transcript_hash (ac_hs a) ins) = Ok verify_data →
    input_payload i = Some (HandshakePayload.Finished verify_data) → Input.aligned_handshake i = true →
    finished a (ins ++ [i]) peer.

(** A run: each message, then what the state does without input. *)
Fixpoint server_run (st : ServerState.t) (ins : list Input.t) : shs ServerState.t :=
  match ins with
  | [] => mret st
  | i :: ins =>
      st ← handle_server st i;
      st ← server_without_input st;
      server_run st ins
  end.
End spec.

Section steps.
Context `{ServerHandler12} `{!SecureRandom}.
Notation shs := (hs ServerSide.t).

Lemma accept_hello_quiet suite share signer input st rs tr :
  quiet (accept_hello suite share signer input st rs tr).
Proof.
  unfold accept_hello, emit_server_hello, start_key_schedule, emit_fake_ccs, emit_encrypted_extensions,
    new_extensions, process_common, process_quic, decide_if_early_data_allowed, emit_authentication,
    set_next_decrypter, emit_finished_tls13.
  eauto 100 with quiet.
Qed.

(** ** What each state knows *)

Notation Pending := (KeyScheduleTrafficWithClientFinishedPending.t enc dec quic_alg).
Implicit Types (a : Accepted).

(** [hs] continues [hs0] with the messages [ins]. *)
Record follows (hs0 : HandshakeState) (ins : list Input.t) (hs : HandshakeState) : Prop := {
  follows_config : config hs = config hs0;
  follows_provider : HandshakeHash.provider (transcript hs) = HandshakeHash.provider (transcript hs0);
  follows_ctx : HandshakeHash.ctx (transcript hs) = HandshakeHash.ctx (transcript hs0)
    ++ concat ((λ i, transcript_bytes (Input.message i)) <$> ins);
}.

Lemma follows_nil hs : follows hs [] hs.
Proof. split; [done..|]. cbn. by rewrite app_nil_r. Qed.

Lemma follows_add hs0 ins hs i :
  follows hs0 ins hs → follows hs0 (ins ++ [i]) (add_message (Input.message i) hs).
Proof.
  intros [Hc Hp Hx]. split; [done|cbn..]; [by rewrite add_message_provider|].
  rewrite add_message_ctx, Hx, fmap_app, concat_app. cbn. by rewrite app_nil_r, (assoc_L (++)).
Qed.

Lemma follows_abandon hs0 ins hs : follows hs0 ins hs → follows hs0 ins (abandon_client_auth hs).
Proof. by intros []. Qed.

Lemma follows_data hs0 ins hs i data :
  follows hs0 ins hs → carries_data i data → follows hs0 (ins ++ [i]) hs.
Proof.
  intros [Hc Hp Hx] Hd. split; [done..|]. rewrite Hx, fmap_app, concat_app. cbn.
  unfold transcript_bytes at 3. by rewrite Hd, !app_nil_r.
Qed.

Lemma follows_hash hs0 ins hs :
  follows hs0 ins hs → HandshakeHash.current_hash (transcript hs) = transcript_hash hs0 ins.
Proof. intros [_ Hp Hx]. unfold HandshakeHash.current_hash, transcript_hash. by rewrite Hp, Hx. Qed.

Definition knows_client a (ins : list Input.t) (st : State) (peer : option Identity.t) : Prop :=
  match st with
  | ClientHelloAgain _ | SkipEarlyData _ => False
  | CertificateOrCompressedCertificate st | Certificate st =>
      peer = None ∧ ins = [] ∧ ac_client_auth a = true ∧ cert_hs st = ac_hs a
      ∧ cert_key_schedule st = ac_schedule a ∧ cert_expected_certificate_type st = ac_type a
  | VerifyClientIdentity st =>
      peer = None ∧ ∃ i chain, ins = [i] ∧ ac_client_auth a = true ∧ certificates a i chain
        ∧ presented a chain = Ok (Some (aw_peer_identity st))
        ∧ follows (ac_hs a) ins (aw_hs st) ∧ aw_key_schedule st = ac_schedule a
  | CertificateVerify st =>
      peer = None ∧ ∃ i chain identity now, ins = [i] ∧ ac_client_auth a = true ∧ certificates a i chain
        ∧ presented a chain = Ok (Some identity)
        ∧ ClientVerifier.verify_identity (ServerConfig.verifier (config (ac_hs a)))
            (ClientIdentity.mk identity now) = Ok (cv_peer_identity st)
        ∧ follows (ac_hs a) ins (cv_hs st) ∧ cv_key_schedule st = ac_schedule a
  | EarlyData st =>
      peer = None ∧ ∃ max datas, ac_client_auth a = false ∧ ac_early a = Some max
        ∧ Forall2 carries_data ins datas
        ∧ length (concat datas) + remaining_length st = Z.to_nat max
        ∧ follows (ac_hs a) ins (early_hs st) ∧ early_key_schedule st = ac_schedule a
        ∧ early_peer_identity st = resumed_peer a
  | Finished st =>
      peer = None ∧ client_flight a ins (fin_peer_identity st)
      ∧ follows (ac_hs a) ins (fin_hs st) ∧ fin_key_schedule st = ac_schedule a
  | Traffic _ | QuicTraffic _ => ∃ flight rest, ins = flight ++ rest ∧ finished a flight peer
  end.

Lemma handle_certificate_knows a i st chain st' :
  ac_client_auth a = true → follows (ac_hs a) [i] (cert_hs st) → cert_key_schedule st = ac_schedule a →
  cert_expected_certificate_type st = ac_type a →
  presents (ServerConfig.cert_decompressors (config (ac_hs a))) i chain →
  handle_certificate st chain = Ok st' → knows_client a [i] st' None.
Proof.
  intros Ha Hf Hk Ht Hp. unfold handle_certificate. case_decide as Hc; [done|].
  destruct (existsb _ _) eqn:Hx; [done|]. intros Hh. bind_inv.
  assert (certificates a i chain) as Hcert.
  { split_and!; [done|done|]. apply Forall_forall. intros e He.
    apply not_false_iff_true. intros Hn. apply not_true_iff_false in Hx. apply Hx.
    apply existsb_exists. exists e. by rewrite <- list_elem_of_In, Hn. }
  rewrite Ht in *. destruct (_ : option Identity.t) as [id|]; bind_inv.
  - split; [done|]. exists i, chain. done.
  - rewrite (follows_config _ _ _ Hf) in Hh.
    destruct (ClientVerifier.client_auth_mandatory _) eqn:Hm; [done|]. injection Hh as <-.
    split_and!; [done| |by apply follows_abandon|done]. by econstructor.
Qed.

Lemma handle_cert_client a i st st' peer :
  knows_client a [] (Certificate st) peer → handle_cert st (Input.message i) = Ok st' →
  knows_client a [i] st' None.
Proof.
  intros (_ & _ & Ha & Hs & Hk & Ht) Hh. unfold handle_cert in Hh. bind_inv.
  match goal with H : match ?p with _ => _ end = Some _ |- _ => destruct p; simplify_eq end.
  eapply (handle_certificate_knows _ _ (cert_add_message (Input.message i) st)); [done| |done..|by apply presents_open|done].
  cbn. rewrite Hs. apply (follows_add _ []), follows_nil.
Qed.

Lemma handle_compressed_cert_client a i st st' peer :
  knows_client a [] (Certificate st) peer → handle_compressed_cert st (Input.message i) = Ok st' →
  knows_client a [i] st' None.
Proof.
  intros (_ & _ & Ha & Hs & Hk & Ht) Hh. unfold handle_compressed_cert in Hh. bind_inv.
  match goal with H : match ?p with _ => _ end = Some _ |- _ => destruct p; simplify_eq end.
  destruct (list_find _ _) as [[k d]|] eqn:Hf; [|done]. cbn [fmap option_fmap option_map snd] in Hh.
  case_decide; [done|]. destruct (CertDecompressor.decompress_into _ _ _) eqn:Hd; [|done]. bind_inv.
  apply list_find_Some in Hf as (Hi & Hal & _). cbn in Hi. rewrite Hs in Hi.
  match goal with H : map_err _ _ = Ok _ |- _ => rename H into Hm end.
  destruct (read_bytes _) eqn:Hb in Hm; simplify_eq/=.
  eapply (handle_certificate_knows _ _ (cert_add_message (Input.message i) st)); [done| |done..| |done].
  - cbn. rewrite Hs. apply (follows_add _ []), follows_nil.
  - eapply presents_compressed; eauto; [by eapply list_elem_of_lookup_2|lia].
Qed.

Lemma handle_cv_client a ins i st st' peer :
  knows_client a ins (CertificateVerify st) peer → handle_cv st (Input.message i) = Ok st' →
  knows_client a (ins ++ [i]) st' None.
Proof.
  intros (_ & j & chain & identity & now & -> & Ha & Hc & Hp & Hv & Hf & Hk) Hh.
  unfold handle_cv in Hh. bind_inv.
  match goal with H : match ?p with _ => _ end = Some _ |- _ => destruct p; simplify_eq end.
  match goal with H : construct_client_verify_message _ = _ |- _ => apply client_verify_message_ok in H as Hm end.
  rewrite Hm, (follows_hash _ _ _ Hf) in *.
  split_and!; [done| |by apply follows_add, follows_abandon|done].
  cbn in *. rewrite (follows_config _ _ _ Hf) in *. eapply flight_certificate; try done.
  match goal with u : () |- _ => by destruct u end.
Qed.

Lemma verify_client a ins st (w w' : world) id st' :
  knows_client a ins (VerifyClientIdentity st) None → verify_with_config st w = (w', Ok id) →
  continue_with st id = Ok st' → knows_client a ins st' None.
Proof.
  intros (_ & i & chain & -> & Ha & Hc & Hp & Hf & Hk) Hv Hw.
  unfold verify_with_config, presented_identity in Hv. bind_inv. unfold continue_with in Hw. bind_inv.
  split; [done|]. rewrite (follows_config _ _ _ Hf) in *. exists i, chain, (aw_peer_identity st). eauto 10.
Qed.

Lemma handle_early_client a ins i st out out' st' peer :
  knows_client a ins (EarlyData st) peer → handle_early st i out = (out', Ok st') →
  knows_client a (ins ++ [i]) st' None.
Proof.
  intros (_ & max & datas & Ha & He & Hd & Hl & Hf & Hk & Hp) Hh. unfold handle_early in Hh.
  destruct (Message.payload (Input.message i)) as [|[[]]| | |] eqn:Hm; try done.
  - bind_inv. split_and!; [done| |by apply follows_add|done]. cbn [fin_peer_identity]. rewrite Hp.
    eapply flight_early_data; try done; [lia| |].
    + unfold input_payload, handshake_payload. by rewrite Hm.
    + match goal with H : Input.check_aligned_handshake i = _ |- _ =>
        unfold Input.check_aligned_handshake in H; by destruct (Input.aligned_handshake i) end.
  - case_decide as Hlt; [done|]. bind_inv. split; [done|].
    exists max, (datas ++ [x]). cbn [early_hs early_key_schedule early_peer_identity remaining_length].
    split_and!; try done.
    + apply Forall2_app; [done|]. by repeat constructor.
    + rewrite concat_app, length_app. cbn. rewrite app_nil_r. lia.
    + by eapply follows_data.
Qed.

Lemma sign_client_finish_ok (ks : Pending) hash (out out' : Out ServerSide.t) before tag :
  Output.on_recv (KeyScheduleTrafficWithClientFinishedPending.sign_client_finish ks hash) out
    = (out', Ok (before, tag)) →
  KeyScheduleSuite.sign_finish (KeyScheduleTrafficWithClientFinishedPending.inner ks)
    (KeyScheduleTrafficWithClientFinishedPending.handshake_client_traffic_secret ks) hash = Ok tag.
Proof.
  intros (recv & Hs)%on_recv_ok. unfold KeyScheduleTrafficWithClientFinishedPending.sign_client_finish in Hs.
  by bind_inv.
Qed.

Lemma handle_finished_client a ins i st out out' st' :
  knows_client a ins (Finished st) (peer_in out) → handle_finished st i out = (out', Ok st') →
  knows_client a (ins ++ [i]) st' (peer_in out').
Proof.
  intros (Hn & Hfl & Hf & Hk) Hh. unfold handle_finished in Hh. handler_inv.
  match goal with H : match ?p with HandshakePayload.HelloRequest => _ | _ => _ end = Some _ |- _ =>
    destruct p; simplify_eq end.
  match goal with H : bool_decide (_ ≠ _) = false |- _ => apply bool_decide_eq_false, dec_stable in H as -> end.
  match goal with H : Output.on_recv _ _ = _ |- _ => pose proof (sign_client_finish_ok _ _ _ _ _ _ H) as Hs end.
  assert (peer_in out' = fin_peer_identity st) as ->.
  { destruct (fin_peer_identity st);
      [match goal with H : output (OutputEvent.PeerIdentity _) _ = _ |- _ => apply output_peer in H end|bind_inv];
      follow_peer; congruence. }
  rewrite Hk, (follows_hash _ _ _ Hf) in Hs.
  assert (finished a (ins ++ [i]) (fin_peer_identity st)).
  { econstructor; try done. match goal with H : Input.check_aligned_handshake i = _ |- _ =>
      unfold Input.check_aligned_handshake in H; by destruct (Input.aligned_handshake i) end. }
  destruct (KeyScheduleTrafficReceive.is_quic _); exists (ins ++ [i]), []; by rewrite app_nil_r.
Qed.

Lemma traffic_quiet (st : ServerTls13.ExpectTraffic enc dec quic_alg) i :
  quiet (S:=ServerSide.t) (ServerTls13.handle st i).
Proof.
  unfold ServerTls13.handle, ServerTls13.handle_key_update.
  destruct (Message.payload _) as [|[[]]| | |]; eauto 20 with quiet.
Qed.

Lemma handle_early_quiet st i : quiet (handle_early st i).
Proof. unfold handle_early. destruct (Message.payload _) as [|[[]]| | |]; eauto 20 with quiet. Qed.

(** Each message after the hello. *)
Lemma handle13_client a ins i st out out' st' :
  knows_client a ins st (peer_in out) → handle13 st i out = (out', Ok st') →
  ∃ s13, st' = ServerState.Tls13 s13 ∧ knows_client a (ins ++ [i]) s13 (peer_in out').
Proof.
  assert (∀ s peer, knows_client a (ins ++ [i]) s peer →
    ∃ s13, ServerState.from13 s = ServerState.Tls13 s13 ∧ knows_client a (ins ++ [i]) s13 peer) as Hfrom.
  { intros s peer Hs. destruct s; cbn [ServerState.from13]; try done; by eexists. }
  intros Hk Hh. destruct st as [| |st|st|st|st|st|st|st|st]; cbn [handle13] in Hh; try done; bind_inv.
  - destruct Hk as (Hn & -> & Hk). rewrite Hn. apply Hfrom. unfold handle_cocc in *.
    destruct (handshake_payload _) as [[]|]; try done;
      [eapply handle_cert_client|eapply handle_compressed_cert_client]; try done; by split.
  - pose proof Hk as (Hn & -> & _). rewrite Hn in *. apply Hfrom. by eapply handle_cert_client.
  - pose proof Hk as (Hn & _). rewrite Hn in *. apply Hfrom. by eapply handle_cv_client.
  - pose proof Hk as (Hn & _). apply Hfrom.
    match goal with H : handle_early _ _ _ = _ |- _ =>
      rewrite (quiet_eq _ _ _ _ H (handle_early_quiet _ _)), Hn end. by eapply handle_early_client.
  - apply Hfrom. by eapply handle_finished_client.
  - destruct Hk as (flight & rest & -> & Hk). eexists. split; [done|]. exists flight, (rest ++ [i]).
    split; [by rewrite (assoc_L (++))|]. match goal with H : ServerTls13.handle _ _ _ = _ |- _ =>
      by rewrite (quiet_eq _ _ _ _ H (traffic_quiet _ _)) end.
Qed.

(** Without input, an identity is verified. *)
Lemma without_input_client a ins st out out' st' :
  knows_client a ins st (peer_in out) → server_without_input (ServerState.Tls13 st) out = (out', Ok st') →
  ∃ s13, st' = ServerState.Tls13 s13 ∧ knows_client a ins s13 (peer_in out').
Proof.
  intros Hk Hh. destruct st; cbn [server_without_input] in Hh; bind_inv; try done; try by eexists.
  match goal with H : on_world _ _ = _ |- _ =>
    pose proof (quiet_eq _ _ _ _ H (quiet_world _)) as Hp; apply on_world_ok in H as (? & ? & ?) end.
  rewrite Hp. pose proof Hk as (Hn & _). rewrite Hn in *.
  match goal with H : continue_with _ _ = Ok _ |- _ => pose proof H as Hc; unfold continue_with in Hc end.
  bind_inv. eexists. split; [done|]. by eapply verify_client.
Qed.

Lemma run_client a ins pre st out out' st' :
  knows_client a pre st (peer_in out) → server_run (ServerState.Tls13 st) ins out = (out', Ok st') →
  ∃ s13, st' = ServerState.Tls13 s13 ∧ knows_client a (pre ++ ins) s13 (peer_in out').
Proof.
  revert pre st out. induction ins as [|i ins IH]; intros pre st out Hk Hr; cbn [server_run] in Hr; bind_inv.
  - exists st. by rewrite app_nil_r.
  - match goal with H : handle_server _ _ _ = _ |- _ =>
      apply (handle13_client a pre) in H as (s1 & -> & Hk1); [|done] end.
    match goal with H : server_without_input _ _ = _ |- _ =>
      apply (without_input_client a (pre ++ [i])) in H as (s2 & -> & Hk2); [|done] end.
    rewrite cons_middle, (assoc_L (++)). by eapply IH.
Qed.

Lemma run_tls12_server st ins (out out' : Out ServerSide.t) st' :
  server_run (ServerState.Tls12 st) ins out = (out', Ok st') → ∃ st12, st' = ServerState.Tls12 st12.
Proof.
  revert st out. induction ins as [|i ins IH]; intros st out Hr; cbn in Hr; bind_inv; [eauto|].
  cbn [server_without_input] in *. bind_inv. by eapply IH.
Qed.

(** ** Accepting a hello *)

Lemma choose_protocol_ok ours theirs p :
  choose_protocol ours theirs = Ok (Some p) → p ∈ ours ∧ ∃ offered, theirs = Some offered ∧ p ∈ offered.
Proof.
  unfold choose_protocol. destruct theirs as [theirs|]; [|done].
  destruct (list_find _ _) as [[k q]|] eqn:Hf; [|by destruct ours]. intros [= ->].
  apply list_find_Some in Hf as (Hk & Hq & _). split; [by eapply list_elem_of_lookup_2|eauto].
Qed.

Lemma check_binder_ok tr (early : KeyScheduleEarly.t enc dec quic_alg) m binder :
  check_binder tr early m binder = Ok true →
  ∃ parsed encoded, Message.payload m = MessagePayload.Handshake parsed encoded
    ∧ KeyScheduleEarly.resumption_psk_binder_key_and_sign_verify_data early
        (HandshakeHash.hash_given tr
           (take (length encoded - HandshakeMessagePayload.total_binder_length parsed) encoded)) = Ok binder.
Proof.
  unfold check_binder. destruct (Message.payload m) as [|parsed encoded| | |]; try done.
  intros Hc. bind_inv. match goal with H : Ok _ = Ok true |- _ => injection H as ?%bool_decide_eq_true end.
  subst. eauto.
Qed.

Lemma from_ticket_ok id config (w w' : world) value :
  from_ticket id config w = (w', Ok (Some value)) →
  ∃ plain, open_ticket config (sp_inner (PresharedKeyIdentity.identity id)) w = (w', Some plain)
    ∧ read_bytes plain = Ok (ServerSessionValue.Tls13 value).
Proof.
  unfold from_ticket, call, mbind, action_bind. destruct (open_ticket _ _ w) as [w1 [plain|]]; [|done].
  destruct (read_bytes plain) as [[]| |] eqn:Hr; try done. intros [= <- <-]. by exists plain.
Qed.

Notation suite_id s := (CipherSuiteCommon.suite (Tls13CipherSuite.common s)).

Lemma can_resume_ok common suite sni :
  CommonServerSessionValue.can_resume dns_name_eq common suite sni = true →
  CommonServerSessionValue.cipher_suite common = suite
  ∧ same_name (CommonServerSessionValue.sni common) sni = true.
Proof.
  unfold CommonServerSessionValue.can_resume. intros [?%bool_decide_eq_true ?]%andb_prop. split; [done|].
  unfold same_name. by destruct (CommonServerSessionValue.sni common), sni.
Qed.

(** The identity [id] named the session that is resumed. *)
Definition names_session (m : Message.t) tr sni suite config now
    (binders : list PresharedKeyBinder.t) id psk : Prop :=
  ∃ binder plain value w1 w2, binders !! index psk = Some binder
    ∧ open_ticket config (sp_inner (PresharedKeyIdentity.identity id)) w1 = (w2, Some plain)
    ∧ read_bytes plain = Ok (ServerSessionValue.Tls13 value)
    ∧ session psk = Tls13ServerSessionValue.set_freshness value
                      (PresharedKeyIdentity.obfuscated_ticket_age id) now
    ∧ CommonServerSessionValue.can_resume dns_name_eq (Tls13ServerSessionValue.common value)
        (suite_id (Tls13ProtocolSuite.suite suite)) sni = true
    ∧ ∃ early, KeyScheduleEarly.new Side.Server suite
                 (sp_inner (Tls13ServerSessionValue.secret value)) = Ok early
        ∧ check_binder tr early m (sp_inner (PresharedKeyBinder.inner binder)) = Ok true.

Lemma try_identities_ok m tr sni suite config now binders ids idx (w w' : world) psk :
  try_identities m tr sni suite config now binders idx ids w = (w', Ok (Some psk)) →
  ∃ k id, index psk = idx + k ∧ ids !! k = Some id
    ∧ names_session m tr sni suite config now binders id psk.
Proof.
  revert idx w. induction ids as [|id ids IH]; intros idx w; [done|]. cbn [try_identities]. intros Ht.
  assert (∀ w1, try_identities m tr sni suite config now binders (S idx) ids w1 = (w', Ok (Some psk)) →
    ∃ k id', index psk = idx + k ∧ (id :: ids) !! k = Some id'
      ∧ names_session m tr sni suite config now binders id' psk) as Hcont.
  { intros w1 (k & id' & Hi & Hk & Hn)%IH. exists (S k), id'. split_and!; [lia|done..]. }
  apply action_bind_ok in Ht as (w1 & [value|] & Hf & Ht); [|by eapply Hcont].
  apply from_ticket_ok in Hf as (plain & Ho & Hr).
  destruct (CommonServerSessionValue.can_resume _ _ _ _) eqn:Hc in Ht; [|by eapply Hcont].
  cbn [negb] in Ht. bind_inv.
  match goal with H : unwrap ?o = Ok _ |- _ => destruct o eqn:Hb; [injection H as <-|done] end.
  match goal with H : negb _ = false |- _ => apply negb_false_iff in H as -> end.
  exists 0, id. split_and!; [cbn; lia|done|]. by repeat eexists.
Qed.

Lemma handle_psk_offer_ok input tr sni suite config (w w' : world) psk :
  handle_psk_offer input tr sni suite config w = (w', Ok (Some psk)) →
  ∃ offer id now, ClientExtensions.preshared_key_offer (HelloInput.extensions input) = Some offer
    ∧ PresharedKeyOffer.identities offer !! index psk = Some id
    ∧ names_session (HelloInput.message input) tr sni suite config now (PresharedKeyOffer.binders offer)
        id psk.
Proof.
  unfold handle_psk_offer. destruct (ClientExtensions.preshared_key_offer _) as [offer|]; [|done].
  intros Hh. bind_inv.
  match goal with H : try_identities _ _ _ _ _ _ _ _ _ _ = _ |- _ =>
    apply try_identities_ok in H as (k & id & Hi & Hk & Hn) end.
  exists offer, id. rewrite Hi. eauto.
Qed.

(** [resuming] is what is left of an offer. *)
Lemma resumption_ok input tr sni suite config (w w' : world) offered tickets psk :
  handle_psk_offer input tr sni suite config w = (w', Ok offered) →
  willing_to_resume config (HelloInput.extensions input) offered = (tickets, Some psk) →
  resumes config input tr sni suite psk.
Proof.
  unfold willing_to_resume. intros Hh Hw.
  destruct (ClientExtensions.preshared_key_modes _) as [modes|] eqn:Hm; [cbn in Hw|done].
  destruct (PskKeyExchangeModes.psk_dhe modes) eqn:Hd; [|done]. injection Hw as _ ->.
  apply handle_psk_offer_ok in Hh as (offer & id & now & Ho & Hi & binder & plain & value & w1 & w2 & Hn).
  destruct Hn as (Hb & Hop & Hr & Hs & (Hsu & Hsn)%can_resume_ok & early & He & Hcb%check_binder_ok).
  destruct Hcb as (parsed & encoded & Hp & Hsig).
  split; [eauto|]. exists offer, id, binder, plain, value, now, w1, w2. split_and!; try done.
  by exists early, parsed, encoded.
Qed.

Lemma early_data_ok hello resuming exporter alpn suite config (out out' : Out ServerSide.t) max ex :
  decide_if_early_data_allowed hello resuming exporter alpn suite config out
    = (out', Ok (EarlyDataDecision.Accepted max ex)) →
  max = ServerConfig.max_early_data_size config
  ∧ ∃ psk, resuming = Some psk ∧ early_data_acceptable hello psk alpn suite config = true.
Proof.
  unfold decide_if_early_data_allowed. intros Hd.
  destruct resuming as [psk|], exporter as [ex'|], (ClientExtensions.early_data_request _);
    try (bind_inv; done); destruct (early_data_acceptable _ _ _ _ _) eqn:He; bind_inv; simplify_eq; eauto.
Qed.

Lemma emit_encrypted_extensions_ok flight suite ocsp hello resuming exporter extra config tickets
    (out out' : Out ServerSide.t) flight' ocsp' exts decision :
  emit_encrypted_extensions flight suite ocsp hello resuming exporter extra config tickets out
    = (out', Ok (flight', ocsp', exts, decision)) →
  choose_protocol (ServerConfig.alpn_protocols config)
    (ClientExtensions.protocols (ClientHelloPayload.extensions hello)) = Ok (exts_alpn_protocol exts)
  ∧ ∀ max ex, decision = EarlyDataDecision.Accepted max ex →
      max = ServerConfig.max_early_data_size config
      ∧ ∃ psk, resuming = Some psk
        ∧ early_data_acceptable hello psk (exts_alpn_protocol exts) suite config = true.
Proof.
  unfold emit_encrypted_extensions, new_extensions, process_common. intros Hh. handler_inv.
  split; [done|]. intros max ex ->. by eapply early_data_ok.
Qed.

Lemma emit_authentication_ok flight config signer ocsp compressor full (out out' : Out ServerSide.t)
    flight' auth :
  emit_authentication flight config signer ocsp compressor full out = (out', Ok (flight', auth)) →
  auth = full && ClientVerifier.offer_client_auth (ServerConfig.verifier config).
Proof.
  unfold emit_authentication, emit_certificate_req_tls13. intros Hh. destruct full; handler_inv; [|done].
  destruct (ClientVerifier.offer_client_auth _); cbn [negb] in *; bind_inv; simplify_eq; done.
Qed.

Lemma set_next_decrypter_ok ks config decision (out out' : Out ServerSide.t) max :
  set_next_decrypter ks config decision out = (out', Ok (Some max)) →
  ∃ ex, decision = EarlyDataDecision.Accepted max ex.
Proof. unfold set_next_decrypter. intros Hh. destruct decision; bind_inv; simplify_eq; eauto. Qed.

(** What a hello that is accepted leads to, the choice of suite and group apart. *)
Record admitted (st : ExpectClientHello.t) (suite0 : Tls13CipherSuite.t enc dec quic_alg)
    (input : HelloInput.t) (tr : HandshakeHash.t) a : Prop := {
  admitted_config : config (ac_hs a) = ExpectClientHello.config st;
  admitted_suite : suite (ac_hs a) = suite0;
  admitted_sni : sni (ac_hs a) = ExpectClientHello.sni st;
  admitted_alpn : choose_protocol (ServerConfig.alpn_protocols (ExpectClientHello.config st))
    (ClientExtensions.protocols (HelloInput.extensions input)) = Ok (alpn_protocol (ac_hs a));
  admitted_session psk : ac_resuming a = Some psk →
    ∃ s, protocol_suite suite0 (ExpectClientHello.protocol st) = Ok s
      ∧ resumes (ExpectClientHello.config st) input tr (ExpectClientHello.sni st) s psk;
  admitted_auth : ac_client_auth a = bool_decide (ac_resuming a = None)
    && ClientVerifier.offer_client_auth (ServerConfig.verifier (ExpectClientHello.config st));
  admitted_early max : ac_early a = Some max →
    max = ServerConfig.max_early_data_size (ExpectClientHello.config st)
    ∧ ∃ psk, ac_resuming a = Some psk
      ∧ early_data_acceptable (HelloInput.client_hello input) psk (alpn_protocol (ac_hs a)) suite0
          (ExpectClientHello.config st) = true;
}.

Lemma after_hello_knows a protocol early :
  ac_early a = (if Protocol.is_quic protocol then None else early) →
  knows_client a [] (after_hello (ac_hs a) (ac_schedule a) (ac_client_auth a) (ac_type a) early protocol
                       (ac_resuming a)) None.
Proof.
  intros He. unfold after_hello. cbv zeta. destruct (ac_client_auth a) eqn:Ha.
  - destruct (ServerConfig.cert_decompressors _); by split_and!.
  - pose proof (follows_nil (ac_hs a)) as Hn. pose proof (flight_empty a Ha) as Hf.
    destruct early as [max|], (Protocol.is_quic protocol);
      try (split_and!; [done|by apply Hf|done..]).
    split; [done|]. exists max, []. by split_and!.
Qed.

Lemma accept_hello_ok suite0 share signer input st rs tr (out out' : Out ServerSide.t) s13 :
  accept_hello suite0 share signer input st rs tr out = (out', Ok s13) →
  ∃ a, admitted st suite0 input tr a ∧ knows_client a [] s13 None.
Proof.
  unfold accept_hello. intros Hh. handler_inv.
  repeat match goal with
  | H : on_world (handle_psk_offer _ _ _ _ _) _ = _ |- _ => apply on_world_ok in H as (? & ? & Hpsk)
  | H : emit_encrypted_extensions _ _ _ _ _ _ _ _ _ _ = _ |- _ =>
      apply emit_encrypted_extensions_ok in H as [Halpn Hearly]
  | H : emit_authentication _ _ _ _ _ _ _ = _ |- _ => apply emit_authentication_ok in H as Hauth
  | H : protocol_suite _ _ = Ok _ |- _ => pose proof H as Hps; apply protocol_suite_ok in H as Hsu; clear H
  | H : set_next_decrypter _ _ ?d _ = (_, Ok ?m) |- _ =>
      assert (∀ max, m = Some max → ∃ ex, d = EarlyDataDecision.Accepted max ex) as Hmax
        by (intros max ->; by eapply set_next_decrypter_ok); clear H
  end.
  match goal with |- context [after_hello ?hs ?ks ?auth ?ty ?early ?protocol ?resuming] =>
    exists (mk_accepted hs ks resuming auth ty (if Protocol.is_quic protocol then None else early)) end.
  split; [|by apply after_hello_knows]. split; try done; cbn.
  - intros psk ->. eexists. split; [done|]. by eapply resumption_ok.
  - intros max Hm. destruct (Protocol.is_quic _); [done|]. destruct (Hmax max Hm) as [ex Hd].
    rewrite <- Hsu. by eapply Hearly.
Qed.

(** ** Retries *)

(** The state after a HelloRetryRequest for the group [group]. *)
Record retrying (st : ExpectClientHello.t) (input : HelloInput.t) (s13 : State)
    (st1 : ExpectClientHello.t) : Prop := {
  retrying_first : ExpectClientHello.previous_hello st = None;
  retrying_previous : is_Some (ExpectClientHello.previous_hello st1);
  retrying_config : ExpectClientHello.config st1 = ExpectClientHello.config st;
  retrying_protocol : ExpectClientHello.protocol st1 = ExpectClientHello.protocol st;
  retrying_sni : ExpectClientHello.sni st1 = ExpectClientHello.sni st;
  retrying_state : s13 = ClientHelloAgain st1
    ∨ is_Some (ClientExtensions.early_data_request (HelloInput.extensions input))
      ∧ s13 = SkipEarlyData (mk_skip (max_early_data_size
                (ServerConfig.max_early_data_size (ExpectClientHello.config st))) st1);
}.

Lemma request_retry_ok suite group input st tr (out out' : Out ServerSide.t) s13 :
  request_retry suite group input st tr out = (out', Ok s13) → ∃ st1, retrying st input s13 st1.
Proof.
  unfold request_retry. intros Hh. bind_inv.
  match goal with H : bool_decide (is_Some _) = false |- _ =>
    apply bool_decide_eq_false, eq_None_not_Some in H end.
  match goal with |- context [ClientHelloAgain ?st1] => exists st1 end.
  case_decide; split; eauto.
Qed.

Lemma request_retry_quiet suite group input st tr : quiet (request_retry suite group input st tr).
Proof. unfold request_retry, emit_hello_retry_request, emit_fake_ccs. eauto 30 with quiet. Qed.

Lemma check_hello_ok hello shares :
  check_hello hello = Ok shares → ClientExtensions.key_shares (ClientHelloPayload.extensions hello) = Some shares.
Proof.
  unfold check_hello. case_decide; [done|]. intros Hh. bind_inv.
  destruct (ClientHelloPayload.has_keyshare_extension_with_duplicates _); [done|].
  destruct (ClientHelloPayload.has_certificate_compression_extension_with_duplicates _); [done|]. by bind_inv.
Qed.

Lemma check_second_hello_ok previous e u :
  check_second_hello previous e = Ok u → ∀ prior, previous = Some prior →
  ClientExtensions.early_data_request e = None
  ∧ (PreviousClientHello.offered_psk prior = true → is_Some (ClientExtensions.preshared_key_offer e)).
Proof.
  intros Hc prior ->. unfold check_second_hello in Hc. case_decide as He; [done|].
  split; [by apply eq_None_not_Some|]. intros Ho. rewrite Ho in Hc. cbn in Hc.
  apply not_eq_None_Some. intros Hn. by rewrite bool_decide_eq_true_2 in Hc.
Qed.

Lemma handle_client_hello_ok suite kx signer input st (out out' : Out ServerSide.t) s13 :
  handle_client_hello suite kx signer input st out = (out', Ok s13) →
  peer_in out' = peer_in out
  ∧ ((∃ st1, retrying st input s13 st1)
     ∨ ∃ a tr shares share, admitted st suite input tr a ∧ knows_client a [] s13 None
         ∧ HandshakeHashOrBuffer.start (ExpectClientHello.transcript st)
             (CipherSuiteCommon.hash_provider (Tls13CipherSuite.common suite)) = Ok tr
         ∧ ClientExtensions.key_shares (HelloInput.extensions input) = Some shares
         ∧ share ∈ shares ∧ KeyShareEntry.group share = SupportedKxGroup.name kx
         ∧ ∀ prior, ExpectClientHello.previous_hello st = Some prior →
             ClientExtensions.early_data_request (HelloInput.extensions input) = None
             ∧ (PreviousClientHello.offered_psk prior = true →
                is_Some (ClientExtensions.preshared_key_offer (HelloInput.extensions input)))).
Proof.
  unfold handle_client_hello. intros Hh. bind_inv.
  match goal with H : on_world _ _ = _ |- _ => apply quiet_eq in H as Hw; [|apply quiet_world] end.
  rewrite <- Hw. destruct (list_find _ _) as [[k share]|] eqn:Hf.
  - split; [by eapply quiet_eq, accept_hello_quiet|]. right.
    match goal with H : accept_hello _ _ _ _ _ _ _ _ = _ |- _ => apply accept_hello_ok in H as (a & ? & ?) end.
    apply list_find_Some in Hf as (Hk & Hg & _).
    match goal with H : check_hello _ = _ |- _ => apply check_hello_ok in H end.
    eexists a, _, _, share. split_and!; try done; [by eapply list_elem_of_lookup_2|].
    by eapply check_second_hello_ok.
  - split; [by eapply quiet_eq, request_retry_quiet|]. left. by eapply request_retry_ok.
Qed.

(** ** Choices *)

Lemma find_kx_group_name provider name v g :
  CryptoProvider.find_kx_group provider name v = Some g → SupportedKxGroup.name g = name.
Proof. unfold CryptoProvider.find_kx_group. case_match; [done|]. by intros [_ ?]%list_find_elem. Qed.

Lemma offered_kx_ok `{!Suite T} provider (suite : T) groups shares offer :
  offer ∈ offered_kx_groups provider suite groups shares →
  SupportedKxGroup.name (OfferedKxGroup.group offer) ∈ groups
  ∧ is_Some (CryptoProvider.find_kx_group provider (SupportedKxGroup.name (OfferedKxGroup.group offer)) VERSION).
Proof.
  intros (name & Hn & Ho)%list_elem_of_omap. destruct (CryptoProvider.find_kx_group _ name _) as [g|] eqn:Hg;
    [cbn in Ho|done]. case_match; [|done]. injection Ho as <-. cbn.
  rewrite (find_kx_group_name _ _ _ _ Hg). eauto.
Qed.

Lemma select_group_ok `{!Suite T} config previous provider (suite : T) groups shares kx :
  select_group config previous (offered_kx_groups provider suite groups shares) = Ok (Some kx) →
  SupportedKxGroup.name kx ∈ groups
  ∧ is_Some (CryptoProvider.find_kx_group provider (SupportedKxGroup.name kx) VERSION)
  ∧ ∀ prior, previous = Some prior → PreviousClientHello.group prior = SupportedKxGroup.name kx.
Proof.
  unfold select_group. destruct previous as [prior|].
  - destruct (list_find _ _) as [[k offer]|] eqn:Hf; [|done]. intros [= <-].
    apply list_find_Some in Hf as (Hk & Hg & _). apply list_elem_of_lookup_2, offered_kx_ok in Hk as [? ?].
    split_and!; [done..|]. by intros ? [= <-].
  - intros Hs. injection Hs as (c & Hc & Hs)%bind_Some. destruct (existsb _ _) eqn:Hx; [|done].
    injection Hs as <-. apply existsb_exists in Hx as (offer & Ho%list_elem_of_In & Hn%bool_decide_eq_true).
    apply offered_kx_ok in Ho as [? ?]. rewrite Hn in *. by split_and!.
Qed.

(** The group is one that the client names or, in TLS 1.2 with a client that names none of
    finite fields, one of those. *)
Lemma choose_ok `{!Suite T} self scheme groups shares client_suites (suites : list T) suite kx :
  (∀ client server s, select (ServerConfig.cipher_suite_selector (ExpectClientHello.config self))
     client server = Some s → s ∈ client) →
  choose_suite_and_kx_group self suites scheme groups shares client_suites = Ok (suite, kx) →
  suite ∈ suites ∧ suite_name suite ∈ client_suites ∧ usable_for_signature_scheme suite scheme = true
  ∧ ((SupportedKxGroup.name kx ∈ groups
      ∧ is_Some (CryptoProvider.find_kx_group (ServerConfig.provider (ExpectClientHello.config self))
                   (SupportedKxGroup.name kx) VERSION)
      ∧ ∀ prior, ExpectClientHello.previous_hello self = Some prior →
          PreviousClientHello.group prior = SupportedKxGroup.name kx)
     ∨ VERSION = ProtocolVersion.TLSv1_2 ∧ usable_for_kx_algorithm suite KeyExchangeAlgorithm.DHE = true
       ∧ kx ∈ CryptoProvider.kx_groups (ServerConfig.provider (ExpectClientHello.config self))
       ∧ key_exchange_algorithm (SupportedKxGroup.name kx) = KeyExchangeAlgorithm.DHE).
Proof.
  intros Hl. unfold choose_suite_and_kx_group.
  destruct (possible_kx _ groups) as [[ecdhe ffdhe] offered]. case_match; [done|]. intros Hc. bind_inv.
  match goal with H : select _ _ _ = Some ?s |- _ => apply Hl in H as Hs end.
  apply list_elem_of_omap in Hs as (name & Hn & Hs).
  apply bind_Some in Hs as ([k s] & Hf & Hs).
  destruct (usable_for_signature_scheme s scheme) eqn:Hsig; [cbn in Hs|done].
  case_match; [|done]. injection Hs as ->. apply list_find_Some in Hf as (Hk & Hi & _). cbn in Hi.
  match goal with H : select_group _ _ _ = Ok ?g |- _ => destruct g as [kx'|] end.
  - match goal with H : select_group _ _ _ = _ |- _ => apply select_group_ok in H as (? & ? & ?) end.
    injection Hc as -> ->. split_and!; [by eapply list_elem_of_lookup_2|by rewrite Hi|done|]. by left.
  - destruct (bool_decide (VERSION = ProtocolVersion.TLSv1_2)) eqn:Hv; [apply bool_decide_eq_true in Hv|done].
    match type of Hc with (if ?c then _ else _) = _ => destruct c eqn:Hu; [|done] end.
    apply andb_prop in Hu as [_ Hu].
    match type of Hc with match ?o with _ => _ end = _ => destruct o as [g|] eqn:Hg; [|done] end.
    rewrite decide_True in Hg by done. apply list_find_elem in Hg as [? ?]. injection Hc as -> ->.
    split_and!; [by eapply list_elem_of_lookup_2|by rewrite Hi|done|]. right. done.
Qed.

Notation Suite13 := (Tls13CipherSuite.t enc dec quic_alg).

(** The choices, put together. *)
Lemma chosen_intro st input name tr a shares share :
  admitted (with_sni name st) (suite (ac_hs a)) input tr a →
  InvalidSniPolicy.accept (ServerConfig.invalid_sni_policy (ExpectClientHello.config st))
    (ClientExtensions.server_name (HelloInput.extensions input)) = Ok name →
  name_differs st (ClientExtensions.server_name (HelloInput.extensions input)) = false →
  suite (ac_hs a) ∈ CryptoProvider.tls13_cipher_suites (ServerConfig.provider (ExpectClientHello.config st)) →
  suite_id (suite (ac_hs a)) ∈ ClientHelloPayload.cipher_suites (HelloInput.client_hello input) →
  suite_differs (with_sni name st) (suite (ac_hs a)) = false →
  KeyShareEntry.group share ∈ default [] (ClientExtensions.named_groups (HelloInput.extensions input)) →
  is_Some (CryptoProvider.find_kx_group (ServerConfig.provider (ExpectClientHello.config st))
             (KeyShareEntry.group share) ProtocolVersion.TLSv1_3) →
  (∀ prior, ExpectClientHello.previous_hello st = Some prior →
     PreviousClientHello.group prior = KeyShareEntry.group share) →
  HandshakeHashOrBuffer.start (ExpectClientHello.transcript st)
    (CipherSuiteCommon.hash_provider (Tls13CipherSuite.common (suite (ac_hs a)))) = Ok tr →
  ClientExtensions.key_shares (HelloInput.extensions input) = Some shares → share ∈ shares →
  (∀ prior, ExpectClientHello.previous_hello st = Some prior →
     ClientExtensions.early_data_request (HelloInput.extensions input) = None
     ∧ (PreviousClientHello.offered_psk prior = true →
        is_Some (ClientExtensions.preshared_key_offer (HelloInput.extensions input)))) →
  chosen st input a.
Proof.
  intros [Hc _ Hn Halpn Hs Hauth Hearly] Hsni Hname Hsuite Hoff Hdiff Hg Hfind Hprior Htr Hshares Hshare Hsecond.
  split; try done.
  - destruct (ClientExtensions.named_groups _) as [groups|]; [|by apply elem_of_nil in Hg].
    exists groups, shares, share. by split_and!.
  - intros prior Hp. destruct (Hsecond prior Hp) as [? ?]. split_and!; try done.
    + unfold suite_differs in Hdiff. cbn in Hdiff. rewrite Hp in Hdiff.
      by apply bool_decide_eq_false, dec_stable in Hdiff.
    + unfold name_differs in Hname. rewrite Hp in Hname. by apply negb_false_iff in Hname.
  - by rewrite Hn.
  - intros p Hp. rewrite Hp in Halpn. by apply choose_protocol_ok in Halpn.
  - intros psk (s & ? & ?)%Hs. rewrite Hn. eauto.
  - by rewrite Hauth, Hc.
Qed.

Lemma with_version_client st input (out out' : Out ServerSide.t) st' :
  SuiteSelectorLaws (ServerConfig.cipher_suite_selector (ExpectClientHello.config st)) →
  with_version Suite13 st input out = (out', Ok st') →
  peer_in out' = peer_in out
  ∧ ∃ s13, st' = ServerState.from13 s13
    ∧ ((∃ sni st1, InvalidSniPolicy.accept (ServerConfig.invalid_sni_policy (ExpectClientHello.config st))
                     (ClientExtensions.server_name (HelloInput.extensions input)) = Ok sni
           ∧ retrying (with_sni sni st) input s13 st1)
       ∨ ∃ a, chosen st input a ∧ knows_client a [] s13 None).
Proof.
  intros Hl. unfold with_version. intros Hh. handler_inv. cbn [server_handler suite13] in *. bind_inv.
  match goal with H : handle_client_hello _ _ _ _ _ _ = _ |- _ =>
    apply handle_client_hello_ok in H as [Hp Hcase] end.
  split.
  { follow_peer. congruence. }
  eexists. split; [done|].
  match goal with H : InvalidSniPolicy.accept _ _ = Ok ?sni |- _ => rename H into Hsni end.
  match goal with H : choose_suite_and_kx_group _ _ _ _ _ _ = _ |- _ =>
    apply choose_ok in H as (Hsuite & Hoff & _ & [(Hg & Hfind & Hprior)|[[=] _]]);
      [|apply select_tls13_offered] end.
  destruct Hcase as [(st1 & Hr)|(a & tr & shares & share & Ha & Hk & Htr & Hshares & Hshare & Hsg & Hsecond)];
    [left; eauto|]. right. exists a. split; [|done].
  pose proof (admitted_suite _ _ _ _ _ Ha). subst. rewrite <- Hsg in *. by eapply chosen_intro.
Qed.

(** ** Runs *)

Definition in_traffic (st : State) : bool :=
  match st with Traffic _ | QuicTraffic _ => true | _ => false end.

(** A hello leads to TLS 1.2, to a retry or to a handshake of TLS 1.3. *)
Lemma handle_hello_client st i (out out' : Out ServerSide.t) st' :
  SuiteSelectorLaws (ServerConfig.cipher_suite_selector (ExpectClientHello.config st)) →
  handle_hello st i out = (out', Ok st') →
  (∃ st12, st' = ServerState.Tls12 st12)
  ∨ peer_in out' = peer_in out ∧ ∃ input, HelloInput.from_input i = Ok input
    ∧ ((∃ name s13 st1, InvalidSniPolicy.accept
            (ServerConfig.invalid_sni_policy (ExpectClientHello.config st))
            (ClientExtensions.server_name (HelloInput.extensions input)) = Ok name
          ∧ retrying (with_sni name st) input s13 st1 ∧ st' = ServerState.from13 s13)
       ∨ ∃ a s13, chosen st input a ∧ knows_client a [] s13 None ∧ st' = ServerState.Tls13 s13).
Proof.
  intros Hl Hh. unfold handle_hello in Hh. bind_inv.
  assert (with_version (Tls12CipherSuite.t prf12 aead12) st x0 out = (out', Ok st') →
    ∃ st12, st' = ServerState.Tls12 st12) as H12.
  { unfold with_version. intros Hm. handler_inv. cbn [server_handler suite12] in *. bind_inv. eauto. }
  match goal with |- ?G => assert (with_version Suite13 st x0 out = (out', Ok st') → G) as H13 end.
  { intros Hw. apply with_version_client in Hw as (Hp & s13 & -> & Hc); [|done]. right. split; [exact Hp|].
    exists x0. split; [done|]. destruct Hc as [(name & st1 & Hn & Hr)|(a & Hch & Hk)].
    - left. exists name, s13, st1. done.
    - right. exists a, s13. split_and!; [done..|]. by destruct s13. }
  unfold with_input in Hh. destruct (ClientExtensions.supported_versions _) as [versions|];
    repeat case_match; try done; eauto.
Qed.

(** From the server's flight to traffic. *)
Lemma run_accepted a s13 ins (out out' : Out ServerSide.t) st :
  knows_client a [] s13 (peer_in out) → in_traffic st = true →
  (st ← server_without_input (ServerState.Tls13 s13); server_run st ins) out
    = (out', Ok (ServerState.Tls13 st)) →
  ∃ flight rest, ins = flight ++ rest ∧ finished a flight (peer_in out').
Proof.
  intros Hk Ht Hr. bind_inv.
  match goal with H : server_without_input _ _ = _ |- _ =>
    apply (without_input_client a []) in H as (s2 & -> & Hk2); [|done] end.
  apply (run_client a ins []) in Hr as (s3 & [= <-] & Hk3); [|done]. by destruct st.
Qed.

(** The rest of a run, with no more retries. *)
Definition concluded (st : ExpectClientHello.t) (ins : list Input.t) (peer : option Identity.t) : Prop :=
  ∃ i input a flight rest, ins = i :: flight ++ rest ∧ HelloInput.from_input i = Ok input
    ∧ chosen st input a ∧ finished a flight peer.

Lemma run_last_hello st i ins (out out' : Out ServerSide.t) s13 :
  SuiteSelectorLaws (ServerConfig.cipher_suite_selector (ExpectClientHello.config st)) →
  is_Some (ExpectClientHello.previous_hello st) → peer_in out = None → in_traffic s13 = true →
  (st' ← handle_hello st i; st' ← server_without_input st'; server_run st' ins) out
    = (out', Ok (ServerState.Tls13 s13)) →
  concluded st (i :: ins) (peer_in out').
Proof.
  intros Hl [prior Hprev] Hp Ht Hr. apply action_bind_ok in Hr as (out1 & st1 & Hh & Hr).
  apply handle_hello_client in Hh
    as [[st12 ->]|(Hp1 & input & Hi & [(name & s & st2 & _ & Hretry & _)|(a & s & Hc & Hk & ->)])]; [..|done].
  - cbn [server_without_input] in Hr. bind_inv. by apply run_tls12_server in Hr as [? [=]].
  - pose proof (retrying_first _ _ _ _ Hretry) as Hn. cbn in Hn. congruence.
  - rewrite <- Hp, <- Hp1 in Hk. eapply run_accepted in Hr as (flight & rest & -> & Hf); [|done..].
    by exists i, input, a, flight, rest.
Qed.

(** Data between the hellos. *)
Lemma skip_early_data_cases left st i :
  (∃ data, carries_data i data ∧ length data ≤ left
     ∧ skip_early_data (mk_skip left st) i
       = mret (ServerState.Tls13 (SkipEarlyData (mk_skip (left - length data) st))))
  ∨ skip_early_data (mk_skip left st) i = handle_hello st i.
Proof.
  unfold skip_early_data, carries_data.
  destruct (Message.payload (Input.message i)) as [| | | |data]; auto. cbn. case_decide; [left|by right]. eauto.
Qed.

Lemma run_skipping left st ins (out out' : Out ServerSide.t) s13 :
  SuiteSelectorLaws (ServerConfig.cipher_suite_selector (ExpectClientHello.config st)) →
  is_Some (ExpectClientHello.previous_hello st) → peer_in out = None → in_traffic s13 = true →
  server_run (ServerState.Tls13 (SkipEarlyData (mk_skip left st))) ins out
    = (out', Ok (ServerState.Tls13 s13)) →
  ∃ skipped datas ins', ins = skipped ++ ins' ∧ Forall2 carries_data skipped datas
    ∧ length (concat datas) ≤ left ∧ concluded st ins' (peer_in out').
Proof.
  intros Hl Hprev Hp Ht. revert left. induction ins as [|i ins IH]; intros left Hr.
  { cbn in Hr. injection Hr as <- <-. done. }
  cbn [server_run handle_server handle13] in Hr.
  destruct (skip_early_data_cases left st i) as [(data & Hd & Hle & Heq)|Heq]; rewrite Heq in Hr.
  - cbn [mbind action_bind mret action_ret server_without_input] in Hr.
    apply IH in Hr as (skipped & datas & ins' & -> & Hf & Hlen & Hc).
    exists (i :: skipped), (data :: datas), ins'. split_and!; [done|by constructor| |done].
    cbn. rewrite length_app. lia.
  - exists [], [], (i :: ins). split_and!; [done|constructor|cbn; lia|]. by eapply run_last_hello.
Qed.

Lemma run_retry st0 input st1 s13 ins (out out' : Out ServerSide.t) s :
  SuiteSelectorLaws (ServerConfig.cipher_suite_selector (ExpectClientHello.config st1)) →
  retrying st0 input s st1 → peer_in out = None → in_traffic s13 = true →
  server_run (ServerState.from13 s) ins out = (out', Ok (ServerState.Tls13 s13)) →
  ∃ skipped datas ins', ins = skipped ++ ins' ∧ Forall2 carries_data skipped datas
    ∧ length (concat datas)
      ≤ max_early_data_size (ServerConfig.max_early_data_size (ExpectClientHello.config st0))
    ∧ (datas ≠ [] → is_Some (ClientExtensions.early_data_request (HelloInput.extensions input)))
    ∧ concluded st1 ins' (peer_in out').
Proof.
  intros Hl [_ Hprev _ _ _ [->|[He ->]]] Hp Ht Hr.
  - destruct ins as [|i ins]; [discriminate|].
    exists [], [], (i :: ins). split_and!; [done|constructor|cbn; lia|done|]. by eapply run_last_hello.
  - apply run_skipping in Hr as (skipped & datas & ins' & -> & Hf & Hlen & Hc); [|done..].
    by exists skipped, datas, ins'.
Qed.

End steps.
