(* ===== verification/ServerAuth12.v ===== *)
(** * Authentication of the client by a TLS 1.2 server

    A server of [ServerHs12] that reaches application traffic has been sent one ClientHello
    and the messages of the client's flight, in order and each once; an identity that it
    reports was accepted by the verifier, and its key signed all the messages up to the
    key exchange; and Finished is the MAC of all the messages of both sides, under the
    secret of the key exchange or of the session that is resumed. *)
From stdpp Require Import gmap.
From S2P Require Import Prelude Enums Errors Codec Records Fragmenter Deframer Extensions Payloads.
From S2P Require Import ServerHello ClientHello Messages Cipher Send Receive InputBuffer Connection.
From S2P Require Import ConnectionSpec Hkdf KeySchedule Sessions Compress Verify Kx QuicKeys Transcript.
From S2P Require Import Traffic Outputs ClientConfig Ech ClientHs13 Handlers LimitedCache ServerConfig.
From S2P Require Import ServerHs13 ServerHs Tls12Secrets ServerHs12 ServerAuth.
Import Server12.

(** What is signed is what is hashed. *)
Definition buffered (tr : HandshakeHash.t) : Prop :=
  ∀ buf, HandshakeHash.client_auth tr = Some buf → buf = HandshakeHash.ctx tr.

Lemma buffered_raw buf tr : buffered tr → buffered (HandshakeHash.add_raw buf tr).
Proof. intros Hb buf'. cbn. intros (b & Hc & ->)%fmap_Some. by rewrite (Hb _ Hc). Qed.
Lemma buffered_add m tr : buffered tr → buffered (HandshakeHash.add_message m tr).
Proof. intros Hb. destruct (add_message_raw m tr) as [->|[-> _]]; [by apply buffered_raw|done]. Qed.
Lemma buffered_none tr : HandshakeHash.client_auth tr = None → buffered tr.
Proof. intros Hn buf. by rewrite Hn. Qed.
#[export] Hint Resolve buffered_raw buffered_add buffered_none : core.

(** ** What the client has to send *)

Section spec.
Context `{Tls12Provider} `{!SecureRandom}.

(** A handshake in full, with or without a request for certificates, or a resumption. *)
Inductive Agreement :=
| Full (kx : GroupAndKeyExchange) (client_auth : bool)
| Resumption (session : Tls12ServerSessionValue.t).

(** What the server holds once it has sent its flight. *)
Record Accepted12 := mk_accepted12 {
  a_hs : HandshakeState;
  a_randoms : ConnectionRandoms.t;
  a_suite : Tls12CipherSuite.t prf12 aead12;
  a_agreement : Agreement;
}.
Implicit Types (a : Accepted12).
Notation verifier_of a := (ServerConfig.verifier (config (a_hs a))).

(** What the client shows if it is asked for certificates. *)
Definition certificate_of (i : Input.t) (identity : option Identity.t) : Prop :=
  ∃ chain, input_payload i = Some (HandshakePayload.Certificate chain)
    ∧ Identity.from_peer (CertificateChain.inner chain) CertificateType.X509 = Ok identity.
Inductive showed a : bool → list Input.t → option Identity.t → Prop :=
| showed_unasked : showed a false [] None
| showed_nothing c : ClientVerifier.client_auth_mandatory (verifier_of a) = false →
    certificate_of c None → showed a true [c] None
| showed_identity c presented now id : certificate_of c (Some presented) →
    ClientVerifier.verify_identity (verifier_of a) (ClientIdentity.mk presented now) = Ok id →
    showed a true [c] (Some id).

(** The secrets that the client's share gives. *)
Definition keyed a (kx : GroupAndKeyExchange) (pre : list Input.t) (i : Input.t)
    (secrets : ConnectionSecrets.t) : Prop :=
  ∃ payload params, input_payload i = Some (HandshakePayload.ClientKeyExchange payload)
    ∧ decode_kx_params ClientKeyExchangeParams.decode (Tls12CipherSuite.kx (a_suite a)) payload = Ok params
    ∧ ConnectionSecrets.from_key_exchange (Server12.kx kx) (ClientKeyExchangeParams.pub_key params)
        (if using_ems (a_hs a) then Some (hash_with (transcript (a_hs a)) (messages (pre ++ [i]))) else None)
        (a_randoms a) (a_suite a) = Ok secrets.

(** The messages before the change of ciphers, and the peer that they prove. *)
Inductive flight12 a : list Input.t → ConnectionSecrets.t → option Identity.t → Prop :=
| flight12_resumed session : a_agreement a = Resumption session →
    flight12 a [] (ConnectionSecrets.new_resume (a_randoms a) (a_suite a)
                     (Tls12ServerSessionValue.master_secret session))
      (CommonServerSessionValue.peer_identity (Tls12ServerSessionValue.common session))
| flight12_anonymous kx auth pre i secrets : a_agreement a = Full kx auth →
    showed a auth pre None → keyed a kx pre i secrets → flight12 a (pre ++ [i]) secrets None
| flight12_signed kx auth pre i v id dss secrets : a_agreement a = Full kx auth →
    showed a auth pre (Some id) → keyed a kx pre i secrets →
    input_payload v = Some (HandshakePayload.CertificateVerify dss) →
    ClientVerifier.verify_tls12_signature (verifier_of a)
      (SignatureVerificationInput.mk
         (HandshakeHash.ctx (transcript (a_hs a)) ++ concat (transcript_bytes <$> messages (pre ++ [i])))
         (as_signer id) dss) = Ok tt →
    flight12 a ((pre ++ [i]) ++ [v]) secrets (Some id).

Inductive finished12 a : list Input.t → option Identity.t → Prop :=
| finished12_by ins secrets peer ccs i : flight12 a ins secrets peer → is_ccs ccs →
    input_payload i = Some (HandshakePayload.Finished
      (ConnectionSecrets.client_verify_data secrets (hash_with (transcript (a_hs a)) (messages ins)))) →
    Input.aligned_handshake i = true →
    finished12 a (ins ++ [ccs; i]) peer.

(** ** The hello *)

(** A session that the client named: its ticket was opened or, without a ticket, it is in
    the store under the session id. *)
Record resumes12 (config : ServerConfig.t) (hello : ClientHelloPayload.t) (name : option (list u8))
    (using_ems : bool) (suite : Tls12CipherSuite.t prf12 aead12) (session : Tls12ServerSessionValue.t)
    : Prop := {
  resumes12_found : ∃ encoded (w w' : world),
    read_bytes encoded = Ok (ServerSessionValue.Tls12 session)
    ∧ ((∃ ticket ticketer,
          ClientExtensions.session_ticket (ClientHelloPayload.extensions hello)
            = Some (ClientSessionTicket.Offer ticket)
          ∧ ServerConfig.ticketer config = Some ticketer
          ∧ TicketProducerObject.decrypt ticketer ticket w = (w', Some encoded))
       ∨ SessionId.is_empty (ClientHelloPayload.session_id hello) = false
         ∧ StoresServerSessions.get (ServerConfig.session_storage config)
             (SessionId.as_ref (ClientHelloPayload.session_id hello)) w = (w', Some encoded));
  resumes12_suite : CommonServerSessionValue.cipher_suite (Tls12ServerSessionValue.common session)
    = CipherSuiteCommon.suite (Tls12CipherSuite.common suite);
  resumes12_name : same_name (CommonServerSessionValue.sni (Tls12ServerSessionValue.common session)) name = true;
  resumes12_ems : Tls12ServerSessionValue.extended_ms session = using_ems;
}.

(** The choices of a server in the state [st] that accepted the hello [input]. *)
Record chosen12 (st : ExpectClientHello.t) (input : HelloInput.t) a : Prop := {
  chosen12_config : config (a_hs a) = ExpectClientHello.config st;
  chosen12_offered :
    match ClientExtensions.supported_versions (HelloInput.extensions input) with
    | Some versions => SupportedProtocolVersions.tls12 versions = true
    | None => (ProtocolVersion.val ProtocolVersion.TLSv1_2
               ≤ ProtocolVersion.val (ClientHelloPayload.client_version (HelloInput.client_hello input)))%Z
    end;
  chosen12_best : ∀ versions,
    ClientExtensions.supported_versions (HelloInput.extensions input) = Some versions →
    SupportedProtocolVersions.tls13 versions
    && ServerConfig.supports_version (ExpectClientHello.config st) ProtocolVersion.TLSv1_3
         (ExpectClientHello.protocol st) = false;
  chosen12_downgrade :
    CryptoProvider.tls13_cipher_suites (ServerConfig.provider (ExpectClientHello.config st)) ≠ [] →
    ∃ random, ConnectionRandoms.server (a_randoms a) = take 24 random ++ DOWNGRADE_SENTINEL;
  chosen12_random : ConnectionRandoms.client (a_randoms a)
    = Random.bytes (ClientHelloPayload.random (HelloInput.client_hello input));
  chosen12_suite : a_suite a
      ∈ CryptoProvider.tls12_cipher_suites (ServerConfig.provider (ExpectClientHello.config st))
    ∧ CipherSuiteCommon.suite (Tls12CipherSuite.common (a_suite a))
      ∈ ClientHelloPayload.cipher_suites (HelloInput.client_hello input);
  chosen12_group : ∀ kx auth, a_agreement a = Full kx auth →
    SupportedKxGroup.name (group kx)
        ∈ default [] (ClientExtensions.named_groups (HelloInput.extensions input))
      ∧ is_Some (CryptoProvider.find_kx_group (ServerConfig.provider (ExpectClientHello.config st))
                   (SupportedKxGroup.name (group kx)) ProtocolVersion.TLSv1_2)
    ∨ Tls12CipherSuite.kx (a_suite a) = KeyExchangeAlgorithm.DHE
      ∧ group kx ∈ CryptoProvider.kx_groups (ServerConfig.provider (ExpectClientHello.config st))
      ∧ key_exchange_algorithm (SupportedKxGroup.name (group kx)) = KeyExchangeAlgorithm.DHE;
  chosen12_auth : ∀ kx auth, a_agreement a = Full kx auth →
    auth = ClientVerifier.offer_client_auth (verifier_of a);
  chosen12_ems : using_ems (a_hs a)
      = bool_decide (is_Some (ClientExtensions.extended_main_secret_request (HelloInput.extensions input)))
    ∧ (ServerConfig.require_ems (ExpectClientHello.config st) = true → using_ems (a_hs a) = true);
  chosen12_name : InvalidSniPolicy.accept (ServerConfig.invalid_sni_policy (ExpectClientHello.config st))
      (ClientExtensions.server_name (HelloInput.extensions input)) = Ok (sni (a_hs a));
  chosen12_protocol : ∀ protocol, alpn_protocol (a_hs a) = Some protocol →
    protocol ∈ ServerConfig.alpn_protocols (ExpectClientHello.config st)
    ∧ ∃ offered, ClientExtensions.protocols (HelloInput.extensions input) = Some offered
        ∧ protocol ∈ offered;
  chosen12_session : ∀ session, a_agreement a = Resumption session →
    resumes12 (ExpectClientHello.config st) (HelloInput.client_hello input) (sni (a_hs a))
      (using_ems (a_hs a)) (a_suite a) session;
  chosen12_transcript : transcript_bytes (HelloInput.message input)
    `prefix_of` HandshakeHash.ctx (transcript (a_hs a));
}.
End spec.

(** ** What each state knows *)

Section steps.
Context `{Tls12Provider} `{!SecureRandom}.
Notation shs := (hs ServerSide.t).
Implicit Types (a : Accepted12).

(** [hs] continues the handshake of [a] with the messages [ins]. *)
Record follows_client a (ins : list Input.t) (hs : HandshakeState) : Prop := {
  follows_client_config : config hs = config (a_hs a);
  follows_client_ems : using_ems hs = using_ems (a_hs a);
  follows_client_transcript : extends (transcript (a_hs a)) (messages ins) (transcript hs);
  follows_client_buffered : buffered (transcript hs);
}.

Lemma follows_client_add a ins hs i :
  follows_client a ins hs → follows_client a (ins ++ [i]) (add_message (Input.message i) hs).
Proof.
  intros [? ? Hx Hb]. split; [done..| |by apply buffered_add]. unfold messages. rewrite fmap_app.
  by apply extends_add.
Qed.

Definition on_course12 a (ins : list Input.t) (kx : GroupAndKeyExchange) (auth : bool)
    (hs : HandshakeState) (randoms : ConnectionRandoms.t) (suite : Tls12CipherSuite.t prf12 aead12) : Prop :=
  a_agreement a = Full kx auth ∧ follows_client a ins hs ∧ randoms = a_randoms a ∧ suite = a_suite a.

Definition knows_client12 a (ins : list Input.t) (st : State) (peer : option Identity.t) : Prop :=
  match st with
  | Certificate st =>
      peer = None ∧ ins = []
      ∧ on_course12 a [] (cert_server_kx st) true (cert_hs st) (cert_randoms st) (cert_suite st)
  | VerifyClientIdentity st =>
      peer = None ∧ on_course12 a ins (aw_server_kx st) true (aw_hs st) (aw_randoms st) (aw_suite st)
      ∧ ∃ c, ins = [c] ∧ certificate_of c (Some (aw_peer_identity st))
  | ClientKx st =>
      peer = None ∧ ∃ auth, on_course12 a ins (ckx_server_kx st) auth (ckx_hs st) (ckx_randoms st) (ckx_suite st)
        ∧ showed a auth ins (ckx_peer_identity st)
  | CertificateVerify st =>
      peer = None ∧ follows_client a ins (cv_hs st)
      ∧ ∃ kx auth pre i, ins = pre ++ [i] ∧ a_agreement a = Full kx auth
        ∧ showed a auth pre (Some (cv_peer_identity st)) ∧ keyed a kx pre i (cv_secrets st)
  | Ccs st =>
      peer = None ∧ follows_client a ins (ccs_hs st) ∧ flight12 a ins (ccs_secrets st) (ccs_peer_identity st)
  | Finished st =>
      peer = None ∧ ∃ pre ccs, ins = pre ++ [ccs] ∧ is_ccs ccs ∧ follows_client a pre (fin_hs st)
        ∧ flight12 a pre (fin_secrets st) (fin_peer_identity st)
  | Traffic _ => ∃ flight rest, ins = flight ++ rest ∧ finished12 a flight peer
  end.

Lemma handle_cert_client12 a ins i st st' peer :
  knows_client12 a ins (Certificate st) peer → handle_cert st (Input.message i) = Ok st' →
  knows_client12 a (ins ++ [i]) st' peer.
Proof.
  intros (-> & -> & Ha & Hf & Hr & Hs) Hh. unfold handle_cert in Hh. bind_inv. payload_inv.
  apply (follows_client_add _ _ _ i) in Hf. cbn [config add_message with_transcript] in Hh.
  destruct x0 as [identity|].
  - bind_inv. split; [done|]. split; [by split_and!|]. exists i. split; [done|]. by eexists.
  - destruct (ClientVerifier.client_auth_mandatory _) eqn:Hm; bind_inv; [done|]. split; [done|]. exists true.
    destruct Hf as [Hc ? ? ?]. split.
    + split_and!; [done| |done..]. split; [done..|by apply extends_abandon|by apply buffered_none].
    + cbn in Hc. rewrite Hc in Hm. apply showed_nothing; [done|]. by eexists.
Qed.

Lemma handle_client_kx_knows a ins i st (out out' : Out ServerSide.t) st' :
  knows_client12 a ins (ClientKx st) (peer_in out) →
  handle_client_kx st (Input.message i) out = (out', Ok st') →
  knows_client12 a (ins ++ [i]) st' (peer_in out').
Proof.
  intros (Hp & auth & (Ha & Hf & Hr & Hs) & Hsh) Hh. unfold handle_client_kx in Hh. bind_inv. payload_inv.
  apply (follows_client_add _ _ _ i) in Hf. pose proof Hf as [_ He Hx _].
  match goal with H : ConnectionSecrets.from_key_exchange _ _ _ _ _ = Ok ?s |- _ =>
    assert (keyed a (ckx_server_kx st) ins i s) as Hk end.
  { eexists _, _. split; [done|]. rewrite <-Hs, <-Hr, <-He, <-(extends_hash _ _ _ Hx). by split. }
  unfold log_master_secret in *. follow_peer. assert (peer_in out' = None) as Hp' by congruence.
  destruct (ckx_peer_identity st) as [id|].
  - split; [done|]. split; [done|]. by eexists _, auth, ins, i.
  - split; [done|]. split; [done|]. by eapply flight12_anonymous.
Qed.

Lemma handle_cv_client12 a ins i st st' peer :
  knows_client12 a ins (CertificateVerify st) peer → handle_cv st (Input.message i) = Ok st' →
  knows_client12 a (ins ++ [i]) st' peer.
Proof.
  intros (-> & Hf & kx & auth & pre & ik & -> & Ha & Hsh & Hk) Hh. unfold handle_cv in Hh. bind_inv. payload_inv.
  pose proof Hf as [Hc He [Hxp Hxc] Hb]. unfold HandshakeHash.take_handshake_buf in Hh.
  destruct (HandshakeHash.client_auth _) as [buf|] eqn:Hbuf; [|done]. bind_inv.
  match goal with H : ClientVerifier.verify_tls12_signature _ _ = Ok ?u |- _ => destruct u;
    rewrite (Hb _ Hbuf), Hxc, Hc in H end.
  split; [done|]. split; [|by eapply flight12_signed].
  apply (follows_client_add _ _ (with_transcript _ (cv_hs st))).
  split; [done..| |by apply buffered_none]. by split.
Qed.

Lemma handle_ccs_client12 a ins i st (out out' : Out ServerSide.t) st' :
  knows_client12 a ins (Ccs st) (peer_in out) → handle_ccs st i out = (out', Ok st') →
  knows_client12 a (ins ++ [i]) st' (peer_in out').
Proof.
  intros (Hp & Hf & Hfl) Hh. unfold handle_ccs in Hh.
  destruct (Message.payload _) as [| | |[]|] eqn:Hpl; try done. handler_inv.
  match goal with H : Input.check_aligned_handshake i = _ |- _ => apply aligned_ok in H as Hal end.
  split; [|by exists ins, i].
  match goal with H : match ccs_resuming_decrypter st with _ => _ end _ = _ |- _ =>
    destruct (ccs_resuming_decrypter st); handler_inv end; follow_peer; congruence.
Qed.

Lemma send_ticket_quiet hs secrets peer : quiet (send_ticket_now hs secrets peer).
Proof. unfold send_ticket_now, emit_ticket. eauto 20 with quiet. Qed.

Lemma answer_quiet st hs : quiet (answer st hs).
Proof.
  unfold answer, emit_ccs, emit_finished. pose proof send_ticket_quiet. eauto 20 with quiet.
Qed.

Lemma handle_finished_client12 a ins i st (out out' : Out ServerSide.t) st' :
  knows_client12 a ins (Finished st) (peer_in out) → handle_finished st i out = (out', Ok st') →
  knows_client12 a (ins ++ [i]) st' (peer_in out').
Proof.
  intros (Hp & pre & ccs & -> & Hccs & [_ _ Hx _] & Hfl) Hh. unfold handle_finished in Hh.
  handler_inv. payload_inv.
  match goal with H : bool_decide (_ ≠ _) = false |- _ => apply bool_decide_eq_false, dec_stable in H as <- end.
  match goal with H : Input.check_aligned_handshake i = _ |- _ => apply aligned_ok in H as Hal end.
  assert (peer_in out' = fin_peer_identity st) as ->.
  { destruct (fin_peer_identity st);
      [match goal with H : output (OutputEvent.PeerIdentity _) _ = _ |- _ => apply output_peer in H end|bind_inv];
      match goal with H : answer _ _ _ = _ |- _ => apply quiet_eq in H; [|apply answer_quiet] end;
      follow_peer; congruence. }
  exists (pre ++ [ccs; i]), []. split; [by rewrite app_nil_r, <-(assoc_L (++))|].
  econstructor; try done. by rewrite <-(extends_hash _ _ _ Hx).
Qed.

Lemma server_traffic12_quiet st i : quiet (S:=ServerSide.t) (ServerTls12.handle st i).
Proof. unfold ServerTls12.handle. destruct (Message.payload _); eauto with quiet. Qed.

(** Each message after the hello. *)
Lemma handle_client12 a ins i st (out out' : Out ServerSide.t) st' :
  knows_client12 a ins st (peer_in out) → handle st i out = (out', Ok st') →
  knows_client12 a (ins ++ [i]) st' (peer_in out').
Proof.
  intros Hk Hh. destruct st; cbn [handle] in Hh; bind_inv; try done.
  - by eapply handle_cert_client12.
  - by eapply handle_client_kx_knows.
  - by eapply handle_cv_client12.
  - by eapply handle_ccs_client12.
  - by eapply handle_finished_client12.
  - destruct Hk as (flight & rest & -> & Hk). exists flight, (rest ++ [i]).
    split; [by rewrite (assoc_L (++))|]. match goal with H : ServerTls12.handle _ _ _ = _ |- _ =>
      by rewrite (quiet_eq _ _ _ _ H (server_traffic12_quiet _ _)) end.
Qed.

Lemma without_input_client12 a ins st (out out' : Out ServerSide.t) st' :
  knows_client12 a ins st (peer_in out) → handle_without_input st out = (out', Ok st') →
  knows_client12 a ins st' (peer_in out').
Proof.
  intros Hk Hh. destruct st; cbn [handle_without_input] in Hh; bind_inv; try done.
  destruct Hk as (Hp & Hc & c & -> & Hcert).
  match goal with H : on_world _ _ = _ |- _ =>
    rewrite <-(quiet_eq _ _ _ _ H (quiet_world _)) in Hp; apply on_world_ok in H as (w & w' & Hv) end.
  unfold verify_with_config, presented_identity in Hv. bind_inv.
  split; [done|]. exists true. split; [done|]. destruct Hc as (_ & [Hcfg _ _ _] & _).
  eapply showed_identity; [done|]. by rewrite <-Hcfg.
Qed.
End steps.

(** ** Accepting a hello *)

Section accept.
Context `{Tls12Provider} `{!SecureRandom}.
Notation shs := (hs ServerSide.t).
Notation Suite := (Tls12CipherSuite.t prf12 aead12).
Implicit Types (a : Accepted12).

(** A transcript with more in it. *)
Definition grown (tr0 tr : HandshakeHash.t) : Prop :=
  HandshakeHash.ctx tr0 `prefix_of` HandshakeHash.ctx tr ∧ (buffered tr0 → buffered tr).

Lemma grown_refl tr : grown tr tr.
Proof. by split. Qed.
Lemma grown_flight tr0 p flight :
  grown tr0 (HandshakeFlight.transcript flight) →
  grown tr0 (HandshakeFlight.transcript (HandshakeFlight.add p flight)).
Proof. intros [? ?]. split; [by apply prefix_app_r|]. intros. apply buffered_raw. auto. Qed.
Lemma grown_message tr0 m tr : grown tr0 tr → grown tr0 (HandshakeHash.add_message m tr).
Proof. intros [? ?]. split; [rewrite add_message_ctx; by apply prefix_app_r|auto]. Qed.
Lemma grown_staple tr0 flight ocsp :
  grown tr0 (HandshakeFlight.transcript flight) → grown tr0 (HandshakeFlight.transcript (staple flight ocsp)).
Proof. destruct ocsp as [[|]|]; [done| |done]. apply grown_flight. Qed.
#[local] Hint Resolve grown_refl grown_flight grown_message grown_staple : core.

Lemma emit_server_hello_ok flight config sid suite ems ocsp hello resumed randoms extra
    (out out' : Out ServerSide.t) flight' exts ocsp' :
  emit_server_hello flight config sid suite ems ocsp hello resumed randoms extra out
    = (out', Ok (flight', exts, ocsp')) →
  Server13.choose_protocol (ServerConfig.alpn_protocols config)
    (ClientExtensions.protocols (ClientHelloPayload.extensions hello)) = Ok (exts_alpn_protocol exts)
  ∧ peer_in out' = peer_in out ∧ ∃ p, flight' = HandshakeFlight.add p flight.
Proof.
  unfold emit_server_hello, new_extensions, Server13.process_common, Server13.process_quic. intros Hh. handler_inv.
  split; [done|]. split; [|by eexists]. follow_peer. congruence.
Qed.

Lemma send_ticket_grown hs secrets peer (out out' : Out ServerSide.t) tr :
  send_ticket_now hs secrets peer out = (out', Ok tr) → grown (transcript hs) tr.
Proof.
  unfold send_ticket_now, emit_ticket. intros Hh. destruct (send_ticket hs); [|bind_inv; auto].
  bind_inv. destruct (ServerConfig.ticketer _); bind_inv; auto.
Qed.

(** What a hello that is accepted leads to, the choice of version, suite and group apart. *)
Record admitted12 (st : ExpectClientHello.t) (suite : Suite) (skxg : SupportedKxGroup.t world)
    (input : HelloInput.t) a : Prop := {
  admitted12_config : config (a_hs a) = ExpectClientHello.config st;
  admitted12_suite : a_suite a = suite;
  admitted12_group kx auth : a_agreement a = Full kx auth → group kx = skxg;
  admitted12_auth kx auth : a_agreement a = Full kx auth →
    auth = ClientVerifier.offer_client_auth (ServerConfig.verifier (ExpectClientHello.config st));
  admitted12_sni : sni (a_hs a) = ExpectClientHello.sni st;
  admitted12_alpn : Server13.choose_protocol (ServerConfig.alpn_protocols (ExpectClientHello.config st))
    (ClientExtensions.protocols (HelloInput.extensions input)) = Ok (alpn_protocol (a_hs a));
}.

(** Also what a part of the handler is given. *)
Record given12 (ems : bool) (tr : HandshakeHash.t) (randoms : ConnectionRandoms.t) a : Prop := {
  given12_ems : using_ems (a_hs a) = ems;
  given12_randoms : a_randoms a = randoms;
  given12_transcript : grown tr (transcript (a_hs a));
}.

Lemma emit_certificate_req_ok tr0 flight config flight' auth :
  emit_certificate_req flight config = Ok (flight', auth) → grown tr0 (HandshakeFlight.transcript flight) →
  auth = ClientVerifier.offer_client_auth (ServerConfig.verifier config)
  ∧ grown tr0 (HandshakeFlight.transcript flight').
Proof.
  unfold emit_certificate_req. intros Hh Hg.
  destruct (ClientVerifier.offer_client_auth _); cbn [negb] in Hh; bind_inv; simplify_eq; auto.
Qed.

Lemma full_knows hs randoms suite kx (auth : bool) :
  buffered (transcript hs) →
  knows_client12 (mk_accepted12 hs randoms suite (Full kx auth)) []
    (if auth then Certificate (mk_cert hs randoms suite kx) else ClientKx (mk_ckx hs randoms suite kx None)) None.
Proof.
  intros Hb. assert (follows_client (mk_accepted12 hs randoms suite (Full kx auth)) [] hs)
    by by split; [done..|apply extends_nil|].
  destruct auth; split; [done| |done|exists false]; by split_and!; try constructor.
Qed.

Lemma start_full_ok suite skxg credentials input st ems tr randoms ticket (out out' : Out ServerSide.t) s12 :
  start_full suite skxg credentials input st ems tr randoms ticket out = (out', Ok s12) → buffered tr →
  peer_in out' = peer_in out
  ∧ ∃ a kx auth, a_agreement a = Full kx auth ∧ admitted12 st suite skxg input a ∧ given12 ems tr randoms a
    ∧ knows_client12 a [] s12 None.
Proof.
  unfold start_full. intros Hh Hb. handler_inv.
  match goal with H : emit_server_hello _ _ _ _ _ _ _ _ _ _ _ = _ |- _ =>
    apply emit_server_hello_ok in H as (Halpn & Hp & p & ->) end.
  split; [follow_peer; congruence|].
  match goal with H : on_world (emit_server_kx _ _ _ _) _ = _ |- _ =>
    apply on_world_ok in H as (w & w' & Hkx); unfold emit_server_kx in Hkx; bind_inv end.
  match goal with H : emit_certificate_req _ _ = Ok (_, ?b) |- _ =>
    apply (emit_certificate_req_ok tr) in H as [-> Hg]; [|unfold emit_certificate; auto 10] end.
  match goal with |- context [Certificate (mk_cert ?hs ?rs ?su ?kx)] =>
    exists (mk_accepted12 hs rs su (Full kx (ClientVerifier.offer_client_auth
      (ServerConfig.verifier (ExpectClientHello.config st))))), kx; eexists end.
  apply (grown_flight _ (HandshakeMessagePayload.mk HandshakePayload.ServerHelloDone)) in Hg.
  split; [done|]. split; [split; try done; by intros ? ? [= <- <-]|]. split; [by split|].
  apply full_knows. by apply Hg.
Qed.
Lemma call_ok {A} (f : world → world * A) w w' x : Server13.call f w = (w', Ok x) → f w = (w', x).
Proof. unfold Server13.call. destruct (f w). by intros [= -> ->]. Qed.

Lemma find_session_ok hello config (w w' : world) ticket encoded :
  find_session hello config w = (w', Ok (ticket, Some encoded)) →
  (∃ t ticketer, ClientExtensions.session_ticket (ClientHelloPayload.extensions hello)
       = Some (ClientSessionTicket.Offer t)
     ∧ ServerConfig.ticketer config = Some ticketer
     ∧ TicketProducerObject.decrypt ticketer t w = (w', Some encoded))
  ∨ SessionId.is_empty (ClientHelloPayload.session_id hello) = false
    ∧ StoresServerSessions.get (ServerConfig.session_storage config)
        (SessionId.as_ref (ClientHelloPayload.session_id hello)) w = (w', Some encoded).
Proof.
  unfold find_session. intros Hf.
  destruct (ClientExtensions.session_ticket _) as [[|t]|]; [right|left|right];
    [destruct (SessionId.is_empty _); [done|]|
     destruct (ServerConfig.ticketer config) as [ticketer|]; [|done]|
     destruct (SessionId.is_empty _); [done|]]; cbn [negb] in Hf; bind_inv;
    match goal with H : Server13.call _ _ = _ |- _ => apply call_ok in H end; eauto.
Qed.

Lemma check_session_ok hello name ems suite config (w w' : world) ticket session :
  check_session hello name ems suite config w = (w', Ok (ticket, Some session)) →
  Tls12ServerSessionValue.extended_ms session && negb ems = false →
  resumes12 config hello name ems suite session.
Proof.
  unfold check_session. intros Hc He. apply action_bind_ok in Hc as (w1 & [b [encoded|]] & Hf & Hc); [|done].
  apply find_session_ok in Hf. destruct (read_bytes encoded) as [[value|]| |] eqn:Hr; try done.
  destruct (CommonServerSessionValue.can_resume _ _ _ _) eqn:Hcr; [cbn [negb] in Hc|done].
  apply can_resume_ok in Hcr as [? ?].
  destruct (Bool.eqb _ _ || _) eqn:Hx; [|done]. injection Hc as <- <- <-. rewrite He, orb_false_r in Hx.
  apply Bool.eqb_prop in Hx. split; eauto.
Qed.

Lemma start_resumption_ok suite ems input st tr randoms session (out out' : Out ServerSide.t) s12 :
  start_resumption suite ems input (ExpectClientHello.sni st) (ExpectClientHello.resumption_data st) tr randoms
    (ExpectClientHello.extra_exts st) (ExpectClientHello.config st) session out = (out', Ok s12) →
  buffered tr →
  peer_in out' = peer_in out ∧ Tls12ServerSessionValue.extended_ms session && negb ems = false
  ∧ ∃ a, a_agreement a = Resumption session ∧ (∀ skxg, admitted12 st suite skxg input a)
    ∧ given12 ems tr randoms a ∧ knows_client12 a [] s12 None.
Proof.
  unfold start_resumption. intros Hh Hb. handler_inv.
  match goal with H : emit_server_hello _ _ _ _ _ _ _ _ _ _ _ = _ |- _ =>
    apply emit_server_hello_ok in H as (Halpn & Hp & p & ->) end.
  match goal with H : send_ticket_now _ _ _ _ = _ |- _ =>
    pose proof (send_ticket_grown _ _ _ _ _ _ H) as Hg;
    pose proof (quiet_eq _ _ _ _ H (send_ticket_quiet _ _ _)) as Hq; clear H end.
  match goal with H : emit_finished _ _ _ = _ |- _ => unfold emit_finished in H end. bind_inv.
  split; [unfold log_master_secret, emit_ccs in *; follow_peer; congruence|]. split; [done|].
  match goal with |- context [Ccs (mk_ccs ?hs ?s _ _)] =>
    exists (mk_accepted12 hs randoms suite (Resumption session)); assert (grown tr (transcript hs)) as Hgr end.
  { apply grown_message. destruct Hg as [Hg1 Hg2]. cbn [transcript] in Hg1, Hg2. split.
    - etrans; [|exact Hg1]. by apply (grown_flight tr p (HandshakeFlight.new tr)).
    - intros _. apply Hg2. by apply (grown_flight tr p (HandshakeFlight.new tr)). }
  split; [done|]. split; [by split|]. split; [by split|].
  split; [done|]. split; [|by constructor]. split; [done..|apply extends_nil|]. by apply Hgr.
Qed.

Lemma mark_downgrade_ok config randoms :
  (CryptoProvider.tls13_cipher_suites (ServerConfig.provider config) ≠ [] →
   ∃ random, ConnectionRandoms.server (mark_downgrade config randoms) = take 24 random ++ DOWNGRADE_SENTINEL)
  ∧ ConnectionRandoms.client (mark_downgrade config randoms) = ConnectionRandoms.client randoms.
Proof. unfold mark_downgrade. destruct (CryptoProvider.tls13_cipher_suites _); split; eauto; done. Qed.

(** Of the first hello. *)
Lemma handle_client_hello12_ok suite skxg credentials input st buffer (out out' : Out ServerSide.t) s12 :
  ExpectClientHello.transcript st = HandshakeHashOrBuffer.Buffer buffer →
  HandshakeHashBuffer.buffer buffer = [] → ExpectClientHello.using_ems st = false →
  handle_client_hello suite skxg credentials input st out = (out', Ok s12) →
  peer_in out' = peer_in out
  ∧ ∃ a ems tr rs, admitted12 st suite skxg input a
    ∧ given12 ems (HandshakeHash.add_message (HelloInput.message input) tr)
        (mark_downgrade (ExpectClientHello.config st) rs) a
    ∧ HandshakeHash.ctx tr = []
    ∧ ConnectionRandoms.client rs = Random.bytes (ClientHelloPayload.random (HelloInput.client_hello input))
    ∧ ems = bool_decide (is_Some (ClientExtensions.extended_main_secret_request (HelloInput.extensions input)))
    ∧ (ServerConfig.require_ems (ExpectClientHello.config st) = true → ems = true)
    ∧ (∀ session, a_agreement a = Resumption session →
         resumes12 (ExpectClientHello.config st) (HelloInput.client_hello input) (ExpectClientHello.sni st)
           ems suite session)
    ∧ knows_client12 a [] s12 None.
Proof.
  intros Htr Hbuf Hems Hh. unfold handle_client_hello in Hh. rewrite Htr, Hems in Hh.
  cbn [HandshakeHashOrBuffer.start] in Hh. handler_inv.
  match goal with H : on_world (Server13.randoms _) _ = (_, Ok ?rs) |- _ =>
    assert (ConnectionRandoms.client rs
            = Random.bytes (ClientHelloPayload.random (HelloInput.client_hello input))) as Hrs
      by (apply on_world_ok in H as (? & ? & Hr); unfold Server13.randoms in Hr; by bind_inv);
    pose proof (quiet_eq _ _ _ _ H (quiet_world _)) as Hq1; clear H end.
  match goal with H : on_world (check_session _ _ _ _ _) _ = _ |- _ =>
    pose proof (quiet_eq _ _ _ _ H (quiet_world _)) as Hq2; apply on_world_ok in H as (w & w' & Hcs) end.
  rewrite orb_false_r in *. rewrite <-Hq1, <-Hq2.
  assert (buffered (HandshakeHash.add_message (HelloInput.message input)
    (HandshakeHashBuffer.start_hash buffer (CipherSuiteCommon.hash_provider (Tls12CipherSuite.common suite))))) as Hb.
  { apply buffered_add. intros buf. cbn. destruct (HandshakeHashBuffer.client_auth_enabled buffer); by intros [= <-]. }
  match goal with H : negb (bool_decide _) && ServerConfig.require_ems _ = false |- _ => rename H into Hreq end.
  assert (ServerConfig.require_ems (ExpectClientHello.config st) = true → bool_decide (is_Some
    (ClientExtensions.extended_main_secret_request (HelloInput.extensions input))) = true) as Hreq'
    by (intros Hc; rewrite Hc, andb_true_r in Hreq; by apply negb_false_iff in Hreq).
  match type of Hcs with _ = (_, Ok (_, ?d)) => destruct d as [session|] end.
  - apply start_resumption_ok in Hh as (? & He & a & Ha & ? & ? & ?); [|done]. split; [done|].
    eapply check_session_ok in Hcs; [|done]. eexists a, _, _, _. split_and!; try done; [].
    intros s Hs. congruence.
  - apply start_full_ok in Hh as (? & a & kx & auth & Ha & ? & ? & ?); [|done]. split; [done|].
    eexists a, _, _, _. split_and!; try done; []. intros s Hs. congruence.
Qed.
End accept.

(** ** Runs *)

Section runs.
Context `{Tls12Provider} `{!SecureRandom}.
Notation shs := (hs ServerSide.t).
Notation Suite12 := (Tls12CipherSuite.t prf12 aead12).
Notation Suite13 := (Tls13CipherSuite.t enc dec quic_alg).
Notation enabled13 st := (ServerConfig.supports_version (ExpectClientHello.config st) ProtocolVersion.TLSv1_3
  (ExpectClientHello.protocol st)).

(** The client offers TLS 1.2 and not a better version that the server has. *)
Definition offers12 (st : ExpectClientHello.t) (input : HelloInput.t) : Prop :=
  match ClientExtensions.supported_versions (HelloInput.extensions input) with
  | Some versions => SupportedProtocolVersions.tls12 versions = true
      ∧ SupportedProtocolVersions.tls13 versions && enabled13 st = false
  | None => (ProtocolVersion.val ProtocolVersion.TLSv1_2
             ≤ ProtocolVersion.val (ClientHelloPayload.client_version (HelloInput.client_hello input)))%Z
  end.

Lemma with_version_client12 config extra data protocol input (out out' : Out ServerSide.t) st' :
  let st := ExpectClientHello.new config extra data protocol in
  SuiteSelectorLaws (ServerConfig.cipher_suite_selector config) → offers12 st input →
  with_version Suite12 st input out = (out', Ok st') →
  peer_in out' = peer_in out
  ∧ ∃ (s12 : State) a, st' = ServerState.Tls12 s12 ∧ chosen12 st input a ∧ knows_client12 a [] s12 None.
Proof.
  intros st Hl Hof. unfold with_version. intros Hh. handler_inv. cbn [server_handler suite12] in *. bind_inv.
  match goal with H : choose_suite_and_kx_group _ _ _ _ _ _ = _ |- _ =>
    apply choose_ok in H as (Hsuite & Hoff & _ & Hg); [|apply select_tls12_offered] end.
  match goal with H : handle_client_hello12 _ _ _ _ _ _ = _ |- _ =>
    apply (handle_client_hello12_ok _ _ _ _ _
      (if ClientVerifier.offer_client_auth (ServerConfig.verifier config)
       then HandshakeHashBuffer.set_client_auth_enabled HandshakeHashBuffer.new else HandshakeHashBuffer.new))
      in H as (Hp & a & ems & tr & rs & [Hc Hs Hgr Hau Hsn Halpn] & [Hge Hgrs [Hgt _]] & Hctx & Hrs & Hem & Hreq & Hses & Hk);
      [|done|by destruct (ClientVerifier.offer_client_auth _)|done] end.
  split; [follow_peer; congruence|]. eexists _, a. split; [done|]. split; [|done].
  pose proof (mark_downgrade_ok config rs) as [Hmd Hmc]. unfold offers12 in Hof.
  rewrite add_message_ctx, Hctx in Hgt. cbn [app] in Hgt. destruct Hs. split; try done.
  - destruct (ClientExtensions.supported_versions _); [by destruct Hof|done].
  - intros versions Hv. rewrite Hv in Hof. by destruct Hof.
  - by rewrite Hgrs.
  - rewrite Hgrs. cbn. by rewrite Hmc, Hrs.
  - intros kx auth Ha. rewrite (Hgr _ _ Ha). destruct Hg as [(? & ? & _)|(_ & Hd & ? & ?)]; [by left|right].
    cbn in Hd. by apply bool_decide_eq_true in Hd.
  - by rewrite Hc.
  - split; [congruence|]. intros Hr. rewrite Hge. by apply Hreq.
  - by rewrite Hsn.
  - intros q Hq. rewrite Hq in Halpn. by apply choose_protocol_ok in Halpn.
  - intros session Ha. rewrite Hsn, Hge. by apply Hses.
Qed.
(** A hello leads to TLS 1.3 or, if no retry was asked for, to TLS 1.2. *)
Lemma hello_versions st i (out out' : Out ServerSide.t) st' :
  handle_hello st i out = (out', Ok st') →
  ∃ input, HelloInput.from_input i = Ok input
    ∧ (enabled13 st = true ∧ with_version Suite13 st input out = (out', Ok st')
       ∨ offers12 st input ∧ (enabled13 st = true → ExpectClientHello.previous_hello st = None)
         ∧ with_version Suite12 st input out = (out', Ok st')).
Proof.
  unfold handle_hello, with_input, offers12. intros Hh. bind_inv. eexists. split; [done|].
  destruct (ClientExtensions.supported_versions _) as [versions|].
  - destruct (SupportedProtocolVersions.tls13 versions && enabled13 st) eqn:H13; [left|right].
    + apply andb_prop in H13 as [_ ?]. done.
    + destruct (SupportedProtocolVersions.tls12 versions); [|done].
      destruct (ServerConfig.supports_version _ ProtocolVersion.TLSv1_2 _); [|done].
      destruct (ExpectClientHello.previous_hello st); [done|].
      rewrite (bool_decide_eq_false_2 (is_Some None)) in Hh by by intros [? [=]]. cbn [negb orb andb] in Hh.
      by destruct (Protocol.is_quic _).
  - right. case_decide as Hv; [done|]. destruct (Protocol.is_quic _); [done|]. split; [lia|].
    destruct (ExpectClientHello.previous_hello st) as [prior|].
    + rewrite (bool_decide_eq_true_2 (is_Some (Some prior))) in Hh by eauto. cbn [negb] in Hh.
      rewrite andb_false_r in Hh. cbn [negb andb] in Hh. by destruct (enabled13 st).
    + by destruct (negb _ && _).
Qed.

Lemma with_version_retry st input (out out' : Out ServerSide.t) st' :
  with_version Suite13 st input out = (out', Ok st') →
  peer_in out' = peer_in out ∧ ∃ s13, st' = ServerState.from13 s13
    ∧ ((∃ name st1, retrying (with_sni name st) input s13 st1) ∨ ∃ a, knows_client a [] s13 None).
Proof.
  unfold with_version. intros Hh. handler_inv. cbn [server_handler suite13] in *. bind_inv.
  match goal with H : Server13.handle_client_hello _ _ _ _ _ _ = _ |- _ =>
    apply handle_client_hello_ok in H as [Hp [(st1 & Hr)|(a & _ & _ & _ & _ & Hk & _)]] end;
    (split; [follow_peer; congruence|]); eexists; (split; [done|]); eauto.
Qed.

(** A handshake of TLS 1.3 stays one. *)
Lemma run_tls13_server a s13 ins (out out' : Out ServerSide.t) st :
  knows_client a [] s13 None → peer_in out = None →
  (st ← server_without_input (ServerState.from13 s13); server_run st ins) out = (out', Ok st) →
  ∃ s, st = ServerState.Tls13 s.
Proof.
  intros Hk Hp Hr. rewrite <-Hp in Hk. assert (ServerState.from13 s13 = ServerState.Tls13 s13) as Heq
    by by destruct s13. rewrite Heq in Hr. bind_inv.
  match goal with H : server_without_input _ _ = _ |- _ =>
    apply (without_input_client a []) in H as (s2 & -> & Hk2); [|done] end.
  apply (run_client a ins []) in Hr as (s3 & -> & _); [|done]. eauto.
Qed.

Lemma run_hello_again st i ins (out out' : Out ServerSide.t) s12 :
  is_Some (ExpectClientHello.previous_hello st) → enabled13 st = true → peer_in out = None →
  (st' ← handle_hello st i; st' ← server_without_input st'; server_run st' ins) out
    ≠ (out', Ok (ServerState.Tls12 s12)).
Proof.
  intros [prior Hprev] H13 Hp Hr. apply action_bind_ok in Hr as (out1 & st1 & Hh & Hr).
  apply hello_versions in Hh as (input & _ & [(_ & Hw)|(_ & Hn & _)]); [|specialize (Hn H13); congruence].
  apply with_version_retry in Hw as (Hp1 & s13 & -> & [(name & st2 & Hret)|(a & Hk)]).
  - pose proof (retrying_first _ _ _ _ Hret) as Hn. cbn in Hn. congruence.
  - rewrite Hp in Hp1. by apply (run_tls13_server a) in Hr as [? [=]].
Qed.

Lemma run_skip12 left st ins (out out' : Out ServerSide.t) s12 :
  is_Some (ExpectClientHello.previous_hello st) → enabled13 st = true → peer_in out = None →
  server_run (ServerState.Tls13 (Server13.SkipEarlyData (Server13.mk_skip left st))) ins out
    ≠ (out', Ok (ServerState.Tls12 s12)).
Proof.
  intros Hprev H13 Hp. revert left. induction ins as [|i ins IH]; intros left Hr; [discriminate|].
  cbn [server_run handle_server handle13] in Hr.
  destruct (skip_early_data_cases left st i) as [(data & _ & _ & Heq)|Heq]; rewrite Heq in Hr.
  - exact (IH _ Hr).
  - by eapply run_hello_again.
Qed.

Lemma run_retried12 st0 input st1 s ins (out out' : Out ServerSide.t) s12 :
  retrying st0 input s st1 → enabled13 st0 = true → peer_in out = None →
  server_run (ServerState.from13 s) ins out ≠ (out', Ok (ServerState.Tls12 s12)).
Proof.
  intros [_ Hprev Hc Hpr _ Hs] H13 Hp Hr. rewrite <-Hc, <-Hpr in H13. destruct Hs as [->|[_ ->]].
  - destruct ins as [|i ins]; [discriminate|]. exact (run_hello_again _ _ _ _ _ _ Hprev H13 Hp Hr).
  - by eapply run_skip12.
Qed.

Lemma run_client12 a ins pre (st : State) (out out' : Out ServerSide.t) st' :
  knows_client12 a pre st (peer_in out) → server_run (ServerState.Tls12 st) ins out = (out', Ok st') →
  ∃ s12 : State, st' = ServerState.Tls12 s12 ∧ knows_client12 a (pre ++ ins) s12 (peer_in out').
Proof.
  revert pre st out. induction ins as [|i ins IH]; intros pre st out Hk Hr; cbn [server_run] in Hr; bind_inv.
  - exists st. by rewrite app_nil_r.
  - cbn [handle_server] in *. bind_inv. cbn [server_without_input] in *. bind_inv.
    rewrite cons_middle, (assoc_L (++)). eapply IH; [|done].
    match goal with Hh : Connection.handle _ _ _ = _, Hw : Connection.handle_without_input _ _ = _ |- _ =>
      apply (handle_client12 _ _ _ _ _ _ _ Hk) in Hh; exact (without_input_client12 _ _ _ _ _ _ Hh Hw) end.
Qed.

End runs.
