(* ===== verification/Termination.v ===== *)
(** * Handshakes end

    Each message that a handshake does not refuse brings it closer to application traffic,
    whatever the peer sends: a client is there, or has failed, after nine messages, and a
    server after six that are not application data (which it may have to skip, or take
    as early data, before that).  The longest handshakes are those of TLS 1.2. *)
From stdpp Require Import gmap.
From S2P Require Import Prelude Enums Errors Codec Records Fragmenter Deframer Extensions Payloads.
From S2P Require Import ServerHello ClientHello Messages Cipher Send Receive InputBuffer Connection.
From S2P Require Import ConnectionSpec Hkdf KeySchedule Sessions Compress Verify Kx QuicKeys Transcript.
From S2P Require Import Traffic Outputs ClientConfig Ech ClientHs13 Tls12Secrets Handlers ClientHs ClientHs12.
From S2P Require Import ClientAuth ClientRun ClientAuth12 LimitedCache ServerConfig ServerHs13 ServerHs ServerHs12.
From S2P Require Import ServerAuth ServerAuth12.

(** ** Clients *)

Section client.
Context `{Tls12Provider} `{!ClientWorld} `{!HpkeSealer}.
#[local] Existing Instance Client12.TLS12_HANDLER.

(** How many messages a state may yet take before traffic. *)
Definition rank12 (st : Client12.State) : nat :=
  match st with
  | Client12.Certificate _ => 8
  | Client12.CertificateStatusOrServerKx _ => 7
  | Client12.ServerKx _ => 6
  | Client12.ServerDoneOrCertReq _ => 5
  | Client12.ServerDone _ => 4
  | Client12.VerifyServerIdentity _ | Client12.NewTicket _ => 3
  | Client12.Ccs _ => 2
  | Client12.Finished _ => 1
  | Client12.Traffic _ => 0
  end.
Definition rank13 (st : State13) : nat :=
  match st with
  | EncryptedExtensions _ => 5
  | CertificateOrCompressedCertificateOrCertReq _ | CertificateOrCertReq _ => 4
  | CertificateOrCompressedCertificate _ | Certificate _ => 3
  | CertificateVerify _ => 2
  | VerifyServerIdentity _ | Finished _ => 1
  | Traffic13 _ | QuicTraffic13 _ => 0
  end.
Definition client_rank (st : ClientState) : nat :=
  match st with
  | ServerHelloOrHelloRetryRequest _ _ => 9
  | ServerHello st => if ExpectServerHello.done_retry st then 6 else 9
  | Tls12 st => rank12 st
  | Tls13 st => rank13 st
  end.

Lemma await_ticket_rank b hs secrets id resuming d :
  rank12 (Client12.await_ticket b hs secrets id resuming d) ≤ 3.
Proof. destruct b; cbn; lia. Qed.

Lemma server_done_rank st i st' : Client12.handle_server_done st i = Ok st' → rank12 st' = 3.
Proof. unfold Client12.handle_server_done. intros Hh. destruct (handshake_payload _) as [[]|]; try done. by bind_inv. Qed.

Lemma server_kx_rank st m st' : Client12.handle_server_kx st m = Ok st' → rank12 st' = 5.
Proof. unfold Client12.handle_server_kx. intros Hh. by bind_inv. Qed.

Lemma handle12_rank st i (out out' : Out ClientSide.t) st' :
  Client12.handle st i out = (out', Ok st') → rank12 st' ≤ pred (rank12 st).
Proof.
  intros Hh. destruct st; cbn [Client12.handle] in Hh; bind_inv; try done.
  - unfold Client12.handle_cert in Hh. bind_inv. by destruct (Client12.cert_may_send_cert_status _); cbn; lia.
  - unfold Client12.handle_status_or_kx in Hh. destruct (handshake_payload _) as [[]|]; try done.
    + apply server_kx_rank in Hh as ->. cbn. lia.
    + unfold Client12.handle_status in Hh. by bind_inv.
  - by apply server_kx_rank in Hh as ->.
  - unfold Client12.handle_done_or_request in Hh.
    destruct (handshake_payload _) as [[]|]; try (apply server_done_rank in Hh as ->; cbn; lia).
    unfold Client12.handle_cert_request in Hh. by bind_inv.
  - by apply server_done_rank in Hh as ->.
  - unfold Client12.handle_new_ticket in Hh. by bind_inv.
  - unfold Client12.handle_ccs in Hh. destruct (Message.payload _); try done. by bind_inv.
  - unfold Client12.handle_finished in Hh. by bind_inv.
Qed.

Lemma without_input12_rank st (out out' : Out ClientSide.t) st' :
  Client12.handle_without_input st out = (out', Ok st') → rank12 st' ≤ rank12 st.
Proof.
  intros Hh. destruct st; cbn [Client12.handle_without_input] in Hh; bind_inv; try done.
  unfold Client12.continue_with in Hh. handler_inv. apply await_ticket_rank.
Qed.

Lemma cert_rank st m st' : handle_cert st m = Ok st' → rank13 st' = 2.
Proof. unfold handle_cert, handle_cert_payload. intros Hh. bind_inv. case_decide; [done|]. by bind_inv. Qed.

Lemma compressed_cert_rank st m st' : handle_compressed_cert st m = Ok st' → rank13 st' = 2.
Proof.
  unfold handle_compressed_cert, handle_cert_payload. intros Hh. bind_inv.
  repeat (case_match; try done). bind_inv. case_decide; [done|]. by bind_inv.
Qed.

Lemma cert_request_rank st offered m st' : handle_cert_request st offered m = Ok st' → rank13 st' = 3.
Proof.
  unfold handle_cert_request. intros Hh. bind_inv. do 2 (case_decide; [done|]). bind_inv. by destruct offered.
Qed.

Lemma handle13_rank st i (out out' : Out ClientSide.t) st' :
  ClientHs13.handle13 st i out = (out', Ok st') → rank13 st' ≤ pred (rank13 st).
Proof.
  intros Hh. destruct st; cbn [ClientHs13.handle13] in Hh; bind_inv; try done.
  - unfold handle_ee in Hh. bind_inv. destruct (ee_resuming_session _); bind_inv; [cbn; lia|].
    match goal with |- context [if ?c then _ else _] => destruct c end; done.
  - unfold handle_coccocr in Hh. destruct (handshake_payload _) as [[]|]; try done;
      first [apply cert_rank in Hh as ->|apply compressed_cert_rank in Hh as ->|apply cert_request_rank in Hh as ->];
      cbn; lia.
  - unfold handle_cocc in Hh. destruct (handshake_payload _) as [[]|]; try done;
      first [apply cert_rank in Hh as ->|apply compressed_cert_rank in Hh as ->]; done.
  - unfold handle_cocr in Hh. destruct (handshake_payload _) as [[]|]; try done;
      first [apply cert_rank in Hh as ->|apply cert_request_rank in Hh as ->]; cbn; lia.
  - by apply cert_rank in Hh as ->.
  - unfold handle_cv in Hh. by bind_inv.
  - unfold handle_finished in Hh. handler_inv. repeat match goal with
      | H : context [let '(_, _) := ?p in _] |- _ => destruct p eqn:?; bind_inv end.
    by destruct (KeyScheduleTrafficReceive.is_quic _).
Qed.

Lemma without_input13_rank st (out out' : Out ClientSide.t) st' :
  handle13_without_input st out = (out', Ok st') → rank13 st' ≤ rank13 st.
Proof.
  intros Hh. destruct st; cbn [handle13_without_input] in Hh; bind_inv; try done.
  unfold continue_with in Hh. by bind_inv.
Qed.

Lemma handle_sh_rank st i (out out' : Out ClientSide.t) st' :
  handle_sh st i out = (out', Ok st') → client_rank st' ≤ if ExpectServerHello.done_retry st then 5 else 8.
Proof.
  intros Hh. pose proof Hh as [[st12 ->]|[st13 ->]]%handle_sh_decides.
  - apply (handle_sh_negotiated12 _ _ _ _ _ None) in Hh as (_ & _ & _ & -> & _).
    destruct st12; cbn; lia.
  - apply handle_sh_negotiated in Hh as (sh & ee & _ & -> & _). destruct (ExpectServerHello.done_retry st); cbn; lia.
Qed.

(** Each message is progress. *)
Lemma handle_client_rank st i (out out' : Out ClientSide.t) st' :
  handle_client st i out = (out', Ok st') → client_rank st' ≤ pred (client_rank st).
Proof.
  intros Hh. destruct st; cbn [handle_client] in Hh; bind_inv.
  - apply handle_sh_rank in Hh. cbn [client_rank]. destruct (ExpectServerHello.done_retry st); cbn; lia.
  - unfold handle_sh_or_hrr in Hh. destruct (handshake_payload _) as [[]|]; try done.
    + apply handle_sh_rank in Hh. destruct (ExpectServerHello.done_retry next); cbn; lia.
    + apply retry_ok in Hh as (? & ? & ? & _ & -> & _ & Hd & _). cbn. rewrite Hd. lia.
  - match goal with H : Connection.handle _ _ _ = _ |- _ => exact (handle12_rank _ _ _ _ _ H) end.
  - by eapply handle13_rank.
Qed.

Lemma client_run_rank st ins (out out' : Out ClientSide.t) st' :
  client_run st ins out = (out', Ok st') → client_rank st' ≤ client_rank st - length ins.
Proof.
  revert st out. induction ins as [|i ins IH]; intros st out Hr; cbn [client_run] in Hr; bind_inv; [cbn [length]; lia|].
  match goal with H : handle_client _ _ _ = _ |- _ => apply handle_client_rank in H as Hle end.
  match goal with H : client_without_input ?s1 _ = (_, Ok ?s2) |- _ =>
    assert (client_rank s2 ≤ client_rank s1) as Hw end.
  { match goal with H : client_without_input ?s _ = _ |- _ => destruct s; cbn [client_without_input] in H end;
      bind_inv; try done; [|by eapply without_input13_rank].
    match goal with H : Connection.handle_without_input _ _ = _ |- _ => exact (without_input12_rank _ _ _ _ H) end. }
  apply IH in Hr. cbn [length]. lia.
Qed.

(** C7. The handshake of a client ends: whatever the server sends, after nine messages that
    the client has not refused it is in application traffic. *)
Theorem client_handshake_ends input extra (out0 out out' : Out ClientSide.t) st0 ins st :
  start_handshake input extra out0 = (out, Ok st0) →
  client_run st0 ins out = (out', Ok st) → 9 ≤ length ins →
  client_is_traffic st = true.
Proof.
  unfold start_handshake. intros Hs Hr Hl. bind_inv. apply emit_hello_ok in Hs as (next & _ & _ & _ & Hst).
  assert (client_rank st0 ≤ 9) as Hrank
    by (destruct Hst as [->|[-> _]]; cbn; [destruct (ExpectServerHello.done_retry next)|]; lia).
  apply client_run_rank in Hr. assert (client_rank st = 0) as Hz by lia.
  destruct st as [st| |[]|[]]; try done. cbn in Hz. by destruct (ExpectServerHello.done_retry st).
Qed.
End client.

(** ** Servers *)

Section server.
Context `{Tls12Provider} `{!SecureRandom}.
#[local] Existing Instance Server12.TLS12_HANDLER.

Definition server_rank12 (st : Server12.State) : nat :=
  match st with
  | Server12.Certificate _ => 5
  | Server12.VerifyClientIdentity _ | Server12.ClientKx _ => 4
  | Server12.CertificateVerify _ => 3
  | Server12.Ccs _ => 2
  | Server12.Finished _ => 1
  | Server12.Traffic _ => 0
  end.

(** A second hello is the last, and of TLS 1.3. *)
Definition hello_rank (st : ExpectClientHello.t) : nat :=
  if bool_decide (is_Some (ExpectClientHello.previous_hello st))
     && ServerConfig.supports_version (ExpectClientHello.config st) ProtocolVersion.TLSv1_3
          (ExpectClientHello.protocol st)
  then 4 else 6.
Definition server_rank13 (st : Server13.State) : nat :=
  match st with
  | Server13.ClientHelloAgain st => hello_rank st
  | Server13.SkipEarlyData st => hello_rank (Server13.next st)
  | Server13.CertificateOrCompressedCertificate _ | Server13.Certificate _ => 3
  | Server13.VerifyClientIdentity _ | Server13.CertificateVerify _ | Server13.EarlyData _ => 2
  | Server13.Finished _ => 1
  | Server13.Traffic _ | Server13.QuicTraffic _ => 0
  end.
Definition server_rank (st : ServerState.t) : nat :=
  match st with
  | ServerState.ReadClientHello _ => 8
  | ServerState.ChooseConfig _ => 7
  | ServerState.ClientHello st => hello_rank st
  | ServerState.Tls12 st => server_rank12 st
  | ServerState.Tls13 st => server_rank13 st
  end.

Lemma from13_rank st : server_rank (ServerState.from13 st) = server_rank13 st.
Proof. by destruct st. Qed.

Definition is_data (i : Input.t) : bool :=
  match Message.payload (Input.message i) with MessagePayload.ApplicationData _ => true | _ => false end.

Lemma server_handle12_rank st i (out out' : Out ServerSide.t) st' :
  Server12.handle st i out = (out', Ok st') → server_rank12 st' ≤ pred (server_rank12 st).
Proof.
  intros Hh. destruct st; cbn [Server12.handle] in Hh; bind_inv; try done.
  - unfold Server12.handle_cert in Hh. bind_inv. repeat case_match; bind_inv; try done.
  - unfold Server12.handle_client_kx in Hh. bind_inv. by destruct (Server12.ckx_peer_identity _); cbn; lia.
  - unfold Server12.handle_cv in Hh. bind_inv.
    destruct (HandshakeHash.take_handshake_buf _) as [tr [msgs|]]; [|done]. by bind_inv.
  - unfold Server12.handle_ccs in Hh. destruct (Message.payload _); try done. by handler_inv.
  - unfold Server12.handle_finished in Hh. by bind_inv.
Qed.

Lemma server_without_input12_rank st (out out' : Out ServerSide.t) st' :
  Server12.handle_without_input st out = (out', Ok st') → server_rank12 st' ≤ server_rank12 st.
Proof. intros Hh. destruct st; cbn [Server12.handle_without_input] in Hh; bind_inv; done. Qed.

Lemma client_hello12_rank suite kx credentials input st (out out' : Out ServerSide.t) st' :
  Server12.handle_client_hello suite kx credentials input st out = (out', Ok st') → server_rank12 st' ≤ 5.
Proof.
  unfold Server12.handle_client_hello, Server12.start_resumption, Server12.start_full. intros Hh. handler_inv.
  match type of Hh with match ?d with _ => _ end _ = _ => destruct d end; handler_inv; [cbn; lia|].
  match goal with |- context [if ?c then _ else _] => destruct c end; cbn; lia.
Qed.

(** A hello leads to a retry, if it is the first, or past the hellos. *)
Lemma hello_rank_ok st i (out out' : Out ServerSide.t) st' :
  handle_hello st i out = (out', Ok st') → server_rank st' ≤ pred (hello_rank st).
Proof.
  intros Hh. apply hello_versions in Hh as (input & _ & [(H13 & Hw)|(_ & Hn & Hw)]).
  - apply with_version_retry in Hw as (_ & s13 & -> & [(name & st1 & [Hn [prior Hp] Hc Hpr _ Hs])|(a & Hk)]);
      rewrite from13_rank; unfold hello_rank; rewrite H13, andb_true_r.
    + cbn in Hn, Hc, Hpr. rewrite Hn, (bool_decide_eq_false_2 (is_Some None)) by by intros [? [=]].
      assert (hello_rank st1 = 4) as H4.
      { unfold hello_rank. by rewrite Hc, Hpr, H13, Hp, bool_decide_eq_true_2 by eauto. }
      destruct Hs as [->|[_ ->]]; cbn [server_rank13 Server13.next]; lia.
    + destruct s13; try done; cbn; destruct (bool_decide _); cbn; lia.
  - unfold with_version in Hw. handler_inv. cbn [server_handler suite12] in Hw. bind_inv.
    match goal with H : handle_client_hello12 _ _ _ _ _ _ = _ |- _ =>
      apply client_hello12_rank in H; cbn [server_rank] end.
    unfold hello_rank. destruct (ServerConfig.supports_version _ _ _); [rewrite Hn by done|rewrite andb_false_r; done].
    by rewrite bool_decide_eq_false_2 by by intros [? [=]].
Qed.

Lemma handle_certificate_rank st chain st' :
  Server13.handle_certificate st chain = Ok st' → server_rank13 st' ≤ 2.
Proof.
  unfold Server13.handle_certificate. intros Hh. do 2 (case_match; [done|]). bind_inv.
  repeat case_match; bind_inv; try done; cbn; lia.
Qed.

Lemma server_cert_rank st m st' : Server13.handle_cert st m = Ok st' → server_rank13 st' ≤ 2.
Proof. unfold Server13.handle_cert. intros Hh. bind_inv. by eapply handle_certificate_rank. Qed.

Lemma server_cocc_rank st m st' : Server13.handle_cocc st m = Ok st' → server_rank13 st' ≤ 2.
Proof.
  unfold Server13.handle_cocc. intros Hh. destruct (handshake_payload m) as [[]|]; try done;
    [by eapply server_cert_rank|].
  unfold Server13.handle_compressed_cert in Hh. bind_inv. repeat (case_match; try done). bind_inv.
  by eapply handle_certificate_rank.
Qed.

Lemma server_handle13_rank st i (out out' : Out ServerSide.t) st' :
  handle13 st i out = (out', Ok st') →
  server_rank st' ≤ (if is_data i then server_rank13 st else pred (server_rank13 st)).
Proof.
  intros Hh. assert (server_rank st' ≤ pred (server_rank13 st)
    ∨ is_data i = true ∧ server_rank st' ≤ server_rank13 st) as [?|[-> ?]]; [|destruct (is_data i); lia|done].
  destruct st; cbn [handle13] in Hh; bind_inv; rewrite ?from13_rank; try done.
  - left. by apply hello_rank_ok in Hh.
  - destruct st as [left st]. unfold skip_early_data in Hh. unfold is_data.
    destruct (Message.payload _); try (left; by apply hello_rank_ok in Hh).
    case_decide; [|left; by apply hello_rank_ok in Hh]. bind_inv. by right.
  - left. by eapply server_cocc_rank.
  - left. by eapply server_cert_rank.
  - left. match goal with H : Server13.handle_cv _ _ = _ |- _ => unfold Server13.handle_cv in H end. by bind_inv.
  - match goal with H : Server13.handle_early _ _ _ = _ |- _ => unfold Server13.handle_early in H; rename H into He end.
    unfold is_data. destruct (Message.payload _) as [|[[]]| | |]; try done; [left; by bind_inv|].
    case_decide; [done|]. bind_inv. by right.
  - left. match goal with H : Server13.handle_finished _ _ _ = _ |- _ => unfold Server13.handle_finished in H end.
    handler_inv. by destruct (KeyScheduleTrafficReceive.is_quic _).
  - by left.
Qed.

Lemma handle_server_rank st i (out out' : Out ServerSide.t) st' :
  handle_server st i out = (out', Ok st') →
  server_rank st' ≤ (if is_data i then server_rank st else pred (server_rank st)).
Proof.
  intros Hh. destruct st; cbn [handle_server] in Hh; try done; [| | |by eapply server_handle13_rank].
  - unfold read_hello in Hh. bind_inv. destruct (is_data i); cbn; lia.
  - apply hello_rank_ok in Hh. destruct (is_data i); cbn [server_rank]; lia.
  - bind_inv. match goal with H : Connection.handle _ _ _ = _ |- _ => apply server_handle12_rank in H end.
    destruct (is_data i); cbn [server_rank]; lia.
Qed.

Lemma server_without_input_rank st (out out' : Out ServerSide.t) st' :
  server_without_input st out = (out', Ok st') → server_rank st' ≤ server_rank st.
Proof.
  intros Hh. destruct st as [| | |st|st]; cbn [server_without_input] in Hh; bind_inv; try done.
  - match goal with H : Connection.handle_without_input _ _ = _ |- _ =>
      exact (server_without_input12_rank _ _ _ _ H) end.
  - destruct st; bind_inv; try done. by match goal with H : Server13.continue_with _ _ = _ |- _ => injection H as <- end.
Qed.

(** The messages that are not application data. *)
Definition others (ins : list Input.t) : list Input.t := filter (λ i, is_data i = false) ins.

Lemma server_run_rank st ins (out out' : Out ServerSide.t) st' :
  server_run st ins out = (out', Ok st') → server_rank st' ≤ server_rank st - length (others ins).
Proof.
  revert st out. induction ins as [|i ins IH]; intros st out Hr; cbn [server_run] in Hr; bind_inv;
    [change (length (others [])) with 0; lia|].
  match goal with H : handle_server _ _ _ = _ |- _ => apply handle_server_rank in H as Hle end.
  match goal with H : server_without_input _ _ = _ |- _ => apply server_without_input_rank in H as Hw end.
  apply IH in Hr. unfold others in *. rewrite filter_cons. destruct (is_data i); case_decide; try done;
    cbn [length]; lia.
Qed.

(** C8. The handshake of a server ends: whatever the client sends, after six messages other
    than application data that the server has not refused it is in application traffic. *)
Theorem server_handshake_ends config extra data protocol ins (out out' : Out ServerSide.t) st :
  server_run (ServerState.ClientHello (ExpectClientHello.new config extra data protocol)) ins out
    = (out', Ok st) →
  6 ≤ length (others ins) → server_is_traffic st = true.
Proof.
  intros Hr Hl. apply server_run_rank in Hr. assert (server_rank st = 0) as Hz by (cbn in Hr; lia).
  destruct st as [| |st|[]|[]]; try done; unfold server_rank, server_rank13, hello_rank in Hz; by case_match.
Qed.
End server.
