(* ===== verification/Exchange.v ===== *)
(** * Clients and servers together

    A client of [ClientHs] and a server of [ServerHs], with the cryptography of [ToyProvider],
    exchange the bytes of whole handshakes. *)
From stdpp Require Import gmap.
From S2P Require Import Prelude Enums Errors Codec Records Fragmenter Deframer Extensions Payloads.
From S2P Require Import ServerHello ClientHello Messages Cipher Send Receive InputBuffer Connection.
From S2P Require Import ConnectionSpec Tls13Cipher Hkdf KeySchedule KeyScheduleSpec Tls13Suites Sessions.
From S2P Require Import Compress Verify Kx QuicKeys Transcript Traffic Outputs ClientConfig Ech ClientHs13.
From S2P Require Import Handlers EndToEnd ClientHs ToyProvider ClientAuth ClientRun LimitedCache ServerConfig.
From S2P Require Import ServerHs13 ServerHs ServerAuth.

#[local] Existing Instances SliceInput.input SliceInput.laws.

(** ** Bytes between the two *)

Section peers.
Context `{Provider} {St X : Type} `{!StateMachine St dec enc sched X}.
Notation Peer := (MessageIter.t SliceInput.t St dec enc sched X).

Definition take_tls (it : Peer) : Peer * list u8 :=
  let out := MessageIter.output it in
  (MessageIter.mk (MessageIter.input it) (MessageIter.state it)
     (Output.mk (Output.recv out) (Output.send out) [] (Output.other out) (Output.received out)
        (Output.send_required out)),
   Output.tls out).
Definition deliver (bs : list u8) (it : Peer) : Peer * list u8 :=
  (MessageHandler.handle_all
    (MessageIter.mk (ToyConnection.refill bs (MessageIter.input it)) (MessageIter.state it)
       (MessageIter.output it), [])).1.
Definition say (text : string) (it : Peer) : Peer :=
  (Connection_.write (OutboundPlain.Single (byte_str text)) it).1.
End peers.

Module ToyServer.
Import ToyClient ToyRun.

#[global] Instance no_server12 : ServerHandler12 := {|
  server_state12 := Empty_set;
  server_machine12 := {|
    Connection.handle (st : Empty_set) _ := match st with end;
    Connection.wants_input (st : Empty_set) := match st with end;
    Connection.handle_without_input (st : Empty_set) := match st with end;
    Connection.is_traffic (st : Empty_set) := match st with end;
    Connection.handle_decrypt_error (st : Empty_set) := match st with end;
  |};
  handle_client_hello12 suite _ _ _ _ := match (Tls12CipherSuite.prf_provider suite : Empty_set) with end;
|}.

(** The signature scheme of [ToyClient.verifier]. *)
Definition signer : Signer.t := Signer.mk (λ message, Ok (x2b :: message)) SignatureScheme.ED25519.
Definition credential (cert : CertificateDer) : SelectedCredential.t :=
  SelectedCredential.mk (Identity.X509 (CertificateIdentity.mk cert [])) signer None.

(** No sessions are stored. *)
Definition storage : StoresServerSessions.t :=
  StoresServerSessions.mk (λ _ _ w, (w, false)) (λ _ w, (w, None)) (λ _ w, (w, None)) (λ _, false).

(** Clients may present the certificate [2c]. *)
Definition client_certificate : CertificateDer := mkCertificateDer [x2c].
Definition client_identity : Identity.t := Identity.X509 (CertificateIdentity.mk client_certificate []).
Definition client_verifier : ClientVerifier.t := ClientVerifier.mk
  (λ presented,
     match ClientIdentity.identity presented with
     | Identity.X509 (CertificateIdentity.mk end_entity []) =>
         if decide (der end_entity = [x2c])
         then Ok (ClientIdentity.identity presented)
         else Err (Error.General "unknown certificate")
     | _ => Err (Error.General "unknown certificate")
     end)
  (ServerVerifier.verify_tls12_signature verifier) (ServerVerifier.verify_tls13_signature verifier)
  (Ok []) true true (Ok [SignatureScheme.ED25519]) [CertificateType.X509].

Definition server_config (v : ClientVerifier.t) : ServerConfig.t :=
  ServerConfig.mk (CryptoProvider.mk [] [tls13] [toy_group NamedGroup.X25519])
    PreferServerOrder_suites PreferServerOrder_kx None storage None
    (ServerCredentialResolver.mk (λ _, Ok (credential certificate)) [CertificateType.X509]) []
    v (λ _, false) false 0 false (Tls13Tickets.mk 0 0) false (λ w, (S w, Some (Z.of_nat w))) [] (λ _ _ w, (w, None)) []
    InvalidSniPolicy.RejectAll.

Definition server_out : Out ServerSide.t :=
  Output.mk (ReceivePath.new Side.Server) SendPath.default []
    (Join.mk ConnectionOutputs.default None (ServerSide.mk None None) [] 40) None false.

Definition client_config : ClientConfig.t :=
  ClientConfig.mk true Tls12Resumption.Disabled true (λ _, false) false false false None
    (CryptoProvider.mk [] [tls13] [toy_group NamedGroup.X25519]) verifier
    (ClientCredentialResolver.mk (λ _, Some (credential client_certificate)) [CertificateType.X509]) [] [] [] None.
Definition client_input : ClientHelloInput.t :=
  ClientHelloInput.mk client_config None (Random.new (replicate 32 x01)) false (ClientHelloDetails.new [] 5)
    Protocol.Tcp (SessionId.mk (replicate 32 x2a) 32) (ClientSessionKey.mk [] name) None.

(** ** The messages of a client *)

Definition server_extra : ServerExtensionsInput.t := ServerExtensionsInput.mk None.
Definition start : ServerState.t :=
  ServerState.ClientHello
    (ExpectClientHello.new (server_config client_verifier) server_extra [] Protocol.Tcp).

(** The hello of the client model, off the wire. *)
Definition hello : Input.t :=
  match Message.try_from (Record_.new ContentType.Handshake
          (EncodableVersion.Legacy ProtocolVersion.TLSv1_2)
          (drop 5 (Output.tls (start_handshake client_input extra out).1))) with
  | Ok m => Input.mk m true
  | _ => message (HandshakePayload.HelloRequest)
  end.
Definition certificate_msg : Input.t :=
  message (HandshakePayload.CertificateTls13 (CertificatePayloadTls13.new [client_certificate] None)).

(** What an honest client derives from the hellos. *)
Definition expects_certificate (st : result Error.t ServerState.t) : option Server13.ExpectCertificate :=
  match st with
  | Ok (ServerState.Tls13 (Server13.Certificate st)) => Some st
  | _ => None
  end.
Definition after_hello : option Server13.ExpectCertificate :=
  expects_certificate (server_run start [hello] server_out).2.
Definition hash_with (ins : list Input.t) : list u8 :=
  from_option (λ st, transcript_hash (Server13.cert_hs st) ins) [] after_hello.
Definition verify_msg : Input.t :=
  message (HandshakePayload.CertificateVerify (DigitallySignedStruct.mk SignatureScheme.ED25519
    (mkSizedPayload (x2b :: replicate 64 x20 ++ CLIENT_CONSTANT ++ hash_with [certificate_msg])))).
Definition finish_with (hash : list u8) (st : Server13.ExpectCertificate) : list u8 :=
  let ks := Server13.cert_key_schedule st in
  match KeyScheduleSuite.sign_finish (KeyScheduleTrafficWithClientFinishedPending.inner ks)
          (KeyScheduleTrafficWithClientFinishedPending.handshake_client_traffic_secret ks) hash with
  | Ok verify_data => verify_data
  | _ => []
  end.
Definition finished_msg : Input.t :=
  message (HandshakePayload.Finished
    (from_option (finish_with (hash_with [certificate_msg; verify_msg])) [] after_hello)).
Definition client_messages : list Input.t := [hello; certificate_msg; verify_msg; finished_msg].

Definition traffic_with (r : Out ServerSide.t * result Error.t ServerState.t)
    : option (bool * option Identity.t) :=
  match r with
  | (out, Ok (ServerState.Tls13 st)) => Some (in_traffic st, peer_in out)
  | _ => None
  end.

(** ** A joint handshake *)

Notation Client := (MessageIter.t SliceInput.t ClientState dec enc sched (Join.t ClientSide.t)).
Notation Server := (MessageIter.t SliceInput.t ServerState.t dec enc sched (Join.t ServerSide.t)).

Definition client : Client :=
  let '(out, st) := start_handshake client_input extra out in
  MessageIter.mk (SliceInput.new []) st out.
Definition server : Server := MessageIter.mk (SliceInput.new []) (Ok start) server_out.

(** Both hellos and the server's flight; then the client's. *)
Definition join (c : Client) (s : Server) : Client * Server :=
  let '(c, bs) := take_tls c in
  let '(s, _) := deliver bs s in
  let '(s, bs) := take_tls s in
  let '(c, _) := deliver bs c in
  let '(c, bs) := take_tls c in
  let '(s, _) := deliver bs s in
  (c, s).

Definition client_done (it : Client) : option Identity.t :=
  match MessageIter.state it with
  | Ok (Tls13 st) => peer_of st
  | _ => None
  end.
Definition server_done (it : Server) : option Identity.t :=
  match MessageIter.state it with
  | Ok (ServerState.Tls13 st) => if in_traffic st then peer_in (MessageIter.output it) else None
  | _ => None
  end.

(** What the application at each end then hears of the other. *)
Definition talk (ends : Client * Server) : list u8 * list u8 :=
  let '(c, s) := ends in
  let '(c, bs) := take_tls (say "hello server" c) in
  let '(s, to_server) := deliver bs s in
  let '(s, bs) := take_tls (say "hello client" s) in
  let '(c, to_client) := deliver bs c in
  (to_server, to_client).
End ToyServer.

(** ** They meet *)

Import ToyServer.

Lemma traffic_with_inv r b peer :
  traffic_with r = Some (b, peer) →
  ∃ out st, r = (out, Ok (ServerState.Tls13 st)) ∧ in_traffic st = b ∧ peer_in out = peer.
Proof. destruct r as [out [[| | | |st]| |]]; cbn [traffic_with]; intros [=]. eauto. Qed.


(** Each end has authenticated the other ... *)
Example joint_handshake :
  let '(c, s) := join client server in
  client_done c = Some ToyRun.peer ∧ server_done s = Some client_identity.
Proof. by vm_compute. Qed.

(** ... and hears what the other says. *)
Example joint_data : talk (join client server) = (byte_str "hello server", byte_str "hello client").
Proof. by vm_compute. Qed.
