(* ===== verification/Exchange12.v ===== *)
(** * TLS 1.2 clients and servers together

    A client of [ClientHs12] and a server of [ServerHs12], with the record protection of
    [Tls12Cipher] over a toy AEAD, exchange the bytes of whole handshakes: in full, with
    certificates on both sides, and then resuming the session. *)
From stdpp Require Import gmap.
From S2P Require Import Prelude Enums Errors Codec Records Fragmenter Deframer Extensions Payloads.
From S2P Require Import ServerHello ClientHello Messages Cipher Send Receive InputBuffer Connection.
From S2P Require Import ConnectionSpec Tls13Cipher Hkdf KeySchedule KeyScheduleSpec Tls13Suites Sessions.
From S2P Require Import Compress Verify Kx QuicKeys Transcript Traffic Outputs ClientConfig Ech ClientHs13.
From S2P Require Import Tls12Secrets Tls12Cipher Handlers EndToEnd ClientHs ClientHs12 ToyProvider ClientAuth.
From S2P Require Import ClientRun ClientAuth12 LimitedCache ServerConfig ServerHs13 ServerHs ServerHs12.
From S2P Require Import ServerAuth ServerAuth12 Termination Exchange.

(** ** A toy provider *)

Module ToyWithin.
(** The plaintext is moved to the front, and what was there is left behind it. *)
Definition shift_open (k : less_safe_key) (nonce aad in_out : list u8) (start : nat) : list u8 * option nat :=
  let '(p, r) := Aead.open_ (algorithm k) (key_bytes k) nonce aad (drop start in_out) in
  (p ++ take start in_out, r).

Lemma shift_open_length k nonce aad in_out start :
  length (shift_open k nonce aad in_out start).1 = length in_out.
Proof.
  unfold shift_open. pose proof (Aead.open_length (algorithm k) (key_bytes k) nonce aad (drop start in_out)) as Hl.
  destruct (Aead.open_ _ _ _ _ _) as [p r]. cbn [fst] in *. rewrite length_app, Hl, length_drop, length_take. lia.
Qed.

Lemma shift_open_shifts k nonce aad in_out start :
  start ≤ length in_out →
  let '(p, r) := Aead.open_ (algorithm k) (key_bytes k) nonce aad (drop start in_out) in
  (shift_open k nonce aad in_out start).2 = r
  ∧ ∀ n, r = Some n → take n (shift_open k nonce aad in_out start).1 = take n p.
Proof.
  intros Hs. unfold shift_open.
  pose proof (Aead.open_length (algorithm k) (key_bytes k) nonce aad (drop start in_out)) as Hl.
  destruct (Aead.open_ _ _ _ _ _) as [p r] eqn:Ho. split; [done|]. intros n ->.
  apply Aead.open_plain in Ho as Hn. cbn [fst] in *. apply take_app_le. lia.
Qed.

#[global] Instance within : OpenWithin := {|
  open_within := shift_open;
  open_within_length := shift_open_length;
  open_within_shifts := shift_open_shifts;
|}.
End ToyWithin.

Module Toy12.
Import ToyClient ToyServer.

(** A clock, the session of the client and the sessions of the server. *)
Record World := mk_world {
  now : nat;
  session : option (Tls12Session.t Hmac.t RingAead12.t);
  sessions : ServerSessionMemoryCache.t;
}.
Definition tick (w : World) : World := mk_world (S (now w)) (session w) (sessions w).
Definition set_session (s : option (Tls12Session.t Hmac.t RingAead12.t)) (w : World) : World :=
  mk_world (now w) s (sessions w).

#[local] Existing Instance any_names.
#[global] Instance provider : Provider := ring_provider Empty_set unit unit unit World.
#[global] Instance provider12 : Tls12Provider :=
  ring_tls12 Empty_set unit unit unit World.

#[global] Instance client_world : ClientWorld := {|
  client_random n w := (w, Some (replicate n x2a));
  clock w := (tick w, Some (Z.of_nat (now w)));
  set_kx_hint _ _ w := w;
  kx_hint _ w := (w, None);
  set_tls12_session _ s w := set_session (Some s) w;
  tls12_session _ w := (w, session w);
  remove_tls12_session _ w := set_session None w;
  ClientConfig.insert_tls13_ticket _ _ w := w;
  take_tls13_ticket _ w := (w, None);
  compression_for _ _ w := (w, None);
|}.
#[global] Instance sealer : HpkeSealer := λ _ plaintext s, (s, Ok (plaintext ++ replicate 16 x2a)).

Definition suites : list (Tls12CipherSuite.t prf12 aead12) :=
  ALL_TLS12_CIPHER_SUITES Toy.hash Toy.hash Toy.hmac Toy.hmac ToyAead.aes_256 ToyAead.aes_256 ToyAead.aes_128.
Definition group : SupportedKxGroup.t World :=
  let start w := (tick w, Ok (StartedKeyExchange.Single (toy_exchange NamedGroup.X25519 (now w)))) in
  SupportedKxGroup.mk start (SupportedKxGroup.default_start_and_complete start) None NamedGroup.X25519.
Definition crypto : CryptoProvider.t := CryptoProvider.mk suites [] [group].

Definition server_config : ServerConfig.t :=
  ServerConfig.mk crypto PreferServerOrder_suites PreferServerOrder_kx None
    (StoresServerSessions.memory_cache sessions (λ c w, mk_world (now w) (session w) c)) None
    (ServerCredentialResolver.mk (λ _, Ok (credential certificate)) [CertificateType.X509]) []
    client_verifier (λ _, false) true 0 false (Tls13Tickets.mk 0 0) true
    (λ w, (tick w, Some (Z.of_nat (now w)))) [] (λ _ _ w, (w, None)) [] InvalidSniPolicy.RejectAll.
Definition client_config : ClientConfig.t :=
  ClientConfig.mk true Tls12Resumption.SessionIdOnly true (λ _, false) true false true None crypto verifier
    (ClientCredentialResolver.mk (λ _, Some (credential client_certificate)) [CertificateType.X509]) [] [] [] None.

(** ** Bytes between the two *)

#[local] Existing Instances SliceInput.input SliceInput.laws.
#[local] Existing Instances Client12.TLS12_HANDLER Server12.TLS12_HANDLER.

Notation Client := (MessageIter.t SliceInput.t ClientState dec enc sched (Join.t ClientSide.t)).
Notation Server := (MessageIter.t SliceInput.t ServerState.t dec enc sched (Join.t ServerSide.t)).

Definition new_world : World := mk_world 7 None (ServerSessionMemoryCache.new 16).
Definition client_out (w : World) : Out ClientSide.t :=
  Output.mk (ReceivePath.new Side.Client) SendPath.default []
    (Join.mk ConnectionOutputs.default None ClientSide.default [] w) None false.
Definition server_out (w : World) : Out ServerSide.t :=
  Output.mk (ReceivePath.new Side.Server) SendPath.default []
    (Join.mk ConnectionOutputs.default None (ServerSide.mk None None) [] w) None false.

Definition no_extensions : ClientExtensionsInput.t := ClientExtensionsInput.mk None None.
Definition connect : hs ClientSide.t ClientState :=
  input ← client_hello_input name no_extensions Protocol.Tcp client_config;
  start_handshake input no_extensions.
Definition client (w : World) : Client :=
  let '(out, st) := connect (client_out w) in MessageIter.mk (SliceInput.new []) st out.

Definition accept : ServerState.t :=
  ServerState.ClientHello
    (ExpectClientHello.new server_config (ServerExtensionsInput.mk None) [] Protocol.Tcp).
Definition server (w : World) : Server := MessageIter.mk (SliceInput.new []) (Ok accept) (server_out w).

(** A flight of the client, then one of the server. *)
Definition trip (ends : Client * Server) : Client * Server :=
  let '(c, s) := ends in
  let '(c, bs) := take_tls c in
  let '(s, _) := deliver bs s in
  let '(s, bs) := take_tls s in
  let '(c, _) := deliver bs c in
  (c, s).
Definition join (w1 w2 : World) : Client * Server :=
  let '(c, s) := trip (trip (client w1, server w2)) in
  let '(c, bs) := take_tls c in
  let '(s, _) := deliver bs s in
  (c, s).

Definition kind {S} (out : Out S) : option HandshakeKind.t :=
  ConnectionOutputs.handshake_kind (Join.outputs (Output.other out)).
Definition client_done (it : Client) : option (Identity.t * HandshakeKind.t) :=
  match MessageIter.state it with
  | Ok (Tls12 (Client12.Traffic _)) =>
      peer ← peer_in (MessageIter.output it); k ← kind (MessageIter.output it); Some (peer, k)
  | _ => None
  end.
Definition server_done (it : Server) : option (Identity.t * HandshakeKind.t) :=
  match MessageIter.state it with
  | Ok (ServerState.Tls12 (Server12.Traffic _)) =>
      peer ← peer_in (MessageIter.output it); k ← kind (MessageIter.output it); Some (peer, k)
  | _ => None
  end.

(** What the application at each end then hears of the other. *)
Definition talk (ends : Client * Server) : list u8 * list u8 :=
  let '(c, s) := ends in
  let '(c, bs) := take_tls (say "hello server" c) in
  let '(s, to_server) := deliver bs s in
  let '(s, bs) := take_tls (say "hello client" s) in
  let '(c, to_client) := deliver bs c in
  (to_server, to_client).

Definition again (ends : Client * Server) : Client * Server :=
  let '(c, s) := ends in
  join (Join.outside (Output.other (MessageIter.output c)))
    (Join.outside (Output.other (MessageIter.output s))).
Definition first : Client * Server := join new_world new_world.

(** ** The messages of honest peers *)

Definition arrives (p : HandshakePayload.t) : Input.t := Input.mk (message12 p) true.
Definition change_ciphers : Input.t :=
  Input.mk (Message.mk (EncodableVersion.Legacy ProtocolVersion.TLSv1_2)
    (MessagePayload.ChangeCipherSpec ChangeCipherSpecPayload.mk)) true.

(** To a client. *)
Definition client_start : Out ClientSide.t * result Error.t ClientHelloInput.t :=
  client_hello_input name no_extensions Protocol.Tcp client_config (client_out new_world).
Definition server_random : list u8 := replicate 32 x05.
Definition server_hello : Input.t :=
  arrives (HandshakePayload.ServerHello (ServerHelloPayload.mk ProtocolVersion.TLSv1_2
    (Random.new server_random) SessionId.empty CipherSuite.TLS_ECDHE_ECDSA_WITH_AES_256_GCM_SHA384
    Compression.Null
    (ServerExtensions.mk None None None None None None None None None (Some tt) None None None None None
       None ∅))).
Definition certificate_msg : Input.t :=
  arrives (HandshakePayload.Certificate (CertificateChain.mk [certificate])).
Definition kx_params : ServerKeyExchangeParams.t :=
  ServerKeyExchangeParams.Ecdh (ServerEcdhParams_new (toy_exchange NamedGroup.X25519 77)).
Definition key_exchange : Input.t :=
  arrives (HandshakePayload.ServerKeyExchange (ServerKeyExchangePayload.Unknown
    (ServerKeyExchange.encode (ServerKeyExchange.mk kx_params (DigitallySignedStruct.new SignatureScheme.ED25519
      (x2b :: replicate 32 x2a ++ server_random ++ ServerKeyExchangeParams.encode kx_params []))) []))).
Definition hello_done : Input.t := arrives HandshakePayload.ServerHelloDone.

(** The flight, with the server's Finished for the state that the client is in. *)
Definition flight : list Input.t := [server_hello; certificate_msg; key_exchange; hello_done; change_ciphers].
Definition server_finished (st : result Error.t ClientState) : Input.t :=
  match st with
  | Ok (Tls12 (Client12.Finished st)) =>
      arrives (HandshakePayload.Finished (ConnectionSecrets.server_verify_data (Client12.fin_secrets st)
        (HandshakeHash.current_hash (Client12.transcript (Client12.fin_hs st)))))
  | _ => arrives HandshakePayload.HelloRequest
  end.
Definition run_from (st : Out ClientSide.t * result Error.t ClientState) (ins : list Input.t)
    : Out ClientSide.t * result Error.t ClientState :=
  match st with (out, Ok st) => client_run st ins out | r => r end.
Definition start_from (st : Out ClientSide.t * result Error.t ClientHelloInput.t)
    : Out ClientSide.t * result Error.t ClientState :=
  match st with
  | (out, Ok input) => start_handshake input no_extensions out
  | (out, Err e) => (out, Err e)
  | (out, Panic) => (out, Panic)
  end.
Definition to_client : list Input.t :=
  flight ++ [server_finished (run_from (start_from client_start) flight).2].
Definition client_traffic (r : Out ClientSide.t * result Error.t ClientState) : option (option Identity.t) :=
  match r with
  | (out, Ok (Tls12 (Client12.Traffic _))) => Some (peer_in out)
  | _ => None
  end.

(** To a server. *)
Definition client_hello : Input.t :=
  match Message.try_from (Record_.new ContentType.Handshake
          (EncodableVersion.Legacy ProtocolVersion.TLSv1_2)
          (drop 5 (Output.tls (start_from client_start).1))) with
  | Ok m => Input.mk m true
  | _ => arrives HandshakePayload.HelloRequest
  end.
Definition answer : list Input.t :=
  [client_hello; arrives (HandshakePayload.Certificate (CertificateChain.mk [client_certificate]));
   Input.mk (Client12.client_kx_message KeyExchangeAlgorithm.ECDHE [x44]) true].
Definition serve (ins : list Input.t) : Out ServerSide.t * result Error.t ServerState.t :=
  server_run accept ins (server_out new_world).
Definition proof (st : result Error.t ServerState.t) : Input.t :=
  match st with
  | Ok (ServerState.Tls12 (Server12.CertificateVerify st)) =>
      arrives (HandshakePayload.CertificateVerify (DigitallySignedStruct.new SignatureScheme.ED25519
        (x2b :: HandshakeHash.ctx (Server12.transcript (Server12.cv_hs st)))))
  | _ => arrives HandshakePayload.HelloRequest
  end.
Definition client_finished (st : result Error.t ServerState.t) : Input.t :=
  match st with
  | Ok (ServerState.Tls12 (Server12.Finished st)) =>
      arrives (HandshakePayload.Finished (ConnectionSecrets.client_verify_data (Server12.fin_secrets st)
        (HandshakeHash.current_hash (Server12.transcript (Server12.fin_hs st)))))
  | _ => arrives HandshakePayload.HelloRequest
  end.
Definition proved : list Input.t := answer ++ [proof (serve answer).2; change_ciphers].
Definition to_server : list Input.t := proved ++ [client_finished (serve proved).2].
Definition server_traffic (r : Out ServerSide.t * result Error.t ServerState.t) : option (option Identity.t) :=
  match r with
  | (out, Ok (ServerState.Tls12 (Server12.Traffic _))) => Some (peer_in out)
  | _ => None
  end.
End Toy12.

(** ** They meet *)

Import Toy12.
#[local] Existing Instances Client12.TLS12_HANDLER Server12.TLS12_HANDLER.

Lemma client_traffic_inv r peer :
  client_traffic r = Some peer →
  ∃ out traffic, r = (out, Ok (Tls12 (Client12.Traffic traffic))) ∧ peer_in out = peer.
Proof. destruct r as [out [[| |[]|]| |]]; cbn [client_traffic]; intros [=]. eauto. Qed.

Lemma run_from_inv s ins out' st' :
  run_from (start_from s) ins = (out', Ok st') →
  ∃ out0 input out st0, s = (out0, Ok input) ∧ start_handshake input no_extensions out0 = (out, Ok st0)
    ∧ client_run st0 ins out = (out', Ok st').
Proof.
  destruct s as [out0 [input| |]]; [|done..]. cbn [start_from].
  destruct (start_handshake input no_extensions out0) as [out [st0| |]] eqn:Hs; [|done..]. eauto 10.
Qed.


Lemma server_traffic_inv r peer :
  server_traffic r = Some peer →
  ∃ out traffic, r = (out, Ok (ServerState.Tls12 (Server12.Traffic traffic))) ∧ peer_in out = peer.
Proof. destruct r as [out [[| | |[]|]| |]]; cbn [server_traffic]; intros [=]. eauto. Qed.


(** With application data after the handshake. *)
Definition longer : list Input.t :=
  to_client ++ replicate 3 (Input.mk (Message.mk (EncodableVersion.Legacy ProtocolVersion.TLSv1_2)
    (MessagePayload.ApplicationData [x2a])) true).

Lemma client_handshake_ends_witness :
  ∃ out st, run_from (start_from client_start) longer = (out, Ok st) ∧ client_is_traffic st = true.
Proof.
  assert (∀ ins, is_Some (client_traffic (run_from (start_from client_start) ins)) → 9 ≤ length ins →
    ∃ out st, run_from (start_from client_start) ins = (out, Ok st) ∧ client_is_traffic st = true) as Hs.
  { intros ins [peer Hr] Hl. apply client_traffic_inv in Hr as (out' & traffic & Hr & _).
    eexists _, _. split; [exact Hr|]. apply run_from_inv in Hr as (out0 & input & out & st0 & _ & Hs & Hr).
    exact (client_handshake_ends input no_extensions out0 out out' st0 ins _ Hs Hr Hl). }
  apply (Hs longer); [vm_compute; eauto|]. vm_compute. lia.
Defined.

Lemma server_handshake_ends_witness :
  ∃ out st, serve to_server = (out, Ok st) ∧ server_is_traffic st = true.
Proof.
  assert (∀ ins, is_Some (server_traffic (serve ins)) → 6 ≤ length (others ins) →
    ∃ out st, serve ins = (out, Ok st) ∧ server_is_traffic st = true) as Hs.
  { intros ins [peer Hr] Hl. apply server_traffic_inv in Hr as (out' & traffic & Hr & _).
    eexists _, _. split; [exact Hr|].
    exact (server_handshake_ends server_config (ServerExtensionsInput.mk None) [] Protocol.Tcp ins
             (server_out new_world) out' _ Hr Hl). }
  apply (Hs to_server); [vm_compute; eauto|]. vm_compute. lia.
Defined.

Lemma tls12_ends_agree_witness :
  let client_kx := toy_exchange NamedGroup.X25519 3 in
  let server_kx := toy_exchange NamedGroup.X25519 5 in
  let randoms := ConnectionRandoms.mk (replicate 32 x01) (replicate 32 x02) in
  let suite := TLS_ECDHE_ECDSA_WITH_AES_128_GCM_SHA256 Toy.hash Toy.hmac ToyAead.aes_128 in
  ∃ s cd ce sd se tx rx,
    ConnectionSecrets.from_key_exchange client_kx (ActiveKeyExchange.pub_key server_kx) None randoms suite = Ok s
    ∧ ConnectionSecrets.from_key_exchange server_kx (ActiveKeyExchange.pub_key client_kx) None randoms suite = Ok s
    ∧ ConnectionSecrets.make_cipher_pair s Side.Client = Ok (cd, ce)
    ∧ ConnectionSecrets.make_cipher_pair s Side.Server = Ok (sd, se)
    ∧ protects ce sd ∧ protects se cd
    ∧ ConnectionSecrets.extract_secrets s Side.Client = Ok (PartiallyExtractedSecrets.mk tx rx)
    ∧ ConnectionSecrets.extract_secrets s Side.Server = Ok (PartiallyExtractedSecrets.mk rx tx).
Proof.
  intros client_kx server_kx randoms suite.
  apply (tls12_ends_agree Empty_set unit unit unit World client_kx server_kx (ActiveKeyExchange.pub_key client_kx)
    (ActiveKeyExchange.pub_key server_kx) (SharedSecret.from [x06]) (SharedSecret.from [x06]) None randoms suite).
  - split; [reflexivity|]. left. reflexivity.
  - reflexivity.
  - reflexivity.
  - reflexivity.
Defined.

(** Each end has authenticated the other ... *)
Example joint_handshake12 :
  client_done first.1 = Some (ToyRun.peer, HandshakeKind.Full)
  ∧ server_done first.2 = Some (ToyServer.client_identity, HandshakeKind.Full).
Proof. by vm_compute. Qed.

(** ... and hears what the other says ... *)
Example joint_data12 : talk first = (byte_str "hello server", byte_str "hello client").
Proof. by vm_compute. Qed.

(** ... and again, when the client comes back for the session. *)
Example joint_resumption12 :
  client_done (again first).1 = Some (ToyRun.peer, HandshakeKind.Resumed)
  ∧ server_done (again first).2 = Some (ToyServer.client_identity, HandshakeKind.Resumed)
  ∧ talk (again first) = (byte_str "hello server", byte_str "hello client").
Proof. by vm_compute. Qed.
