(* ===== verification/Split.v ===== *)
(** * Connections split by direction ([rustls/src/conn/split.rs])

    After the handshake a connection can be split into a half that sends and a half that
    receives, for two threads.  The sending half is behind a lock, because what is received
    can make the connection send: such bytes are put aside, in a buffer that goes out first
    when the sender is used next.  A method of the sender holds the lock all the time; the
    receiver takes it when it first needs it and keeps it until it returns.  So the calls
    happen one after the other, in the order in which they get the lock, and a run is a
    sequence of calls of the two halves on the state that they share.

    The halves do what the connection would have done ([joined_step]), and the receiver
    says when the sender has something to flush. *)
From stdpp Require Import gmap.
From S2P Require Import Prelude Enums Errors Codec Records Fragmenter Deframer Extensions Payloads.
From S2P Require Import ServerHello ClientHello Messages Cipher Send Receive InputBuffer Connection.
From S2P Require Import ConnectionSpec Hkdf Tls13Cipher KeySchedule Sessions Traffic EndToEnd.

(** ** The sending half *)

Module SendInner.
(* @src rustls/src/conn/split.rs 206-209 SendInner *)
Record t (E K : Type) := mk { send : SendPath.t E K; aside_buffer : list u8 }.
Arguments mk {E K}.
Arguments send {E K}.
Arguments aside_buffer {E K}.

Section methods.
Context {E K : Type}.

(** [pump] and then a method of [send], which appends to [tls]. *)
(* @src rustls/src/conn/split.rs 212-215 SendInner::pump *)
Definition pump : action (t E K * list u8) Error.t unit := λ '(self, tls),
  ((mk (send self) [], tls ++ aside_buffer self), Ok tt).

(* @src rustls/src/conn/split.rs 217-219 SendInner::pending_send_data *)
Definition pending_send_data (self : t E K) : bool :=
  negb (bool_decide (aside_buffer self = [])) || SendPath.has_queued_key_update (send self).

(** [inner.send.m(tls)]. *)
Definition on_send {A} (m : action (SendPath.t E K * list u8) Error.t A)
    : action (t E K * list u8) Error.t A := λ '(self, tls),
  match m (send self, tls) with
  | ((send, tls), r) => ((mk send (aside_buffer self), tls), r)
  end.
End methods.
End SendInner.

Module SendTraffic.
Section methods.
Context {E K : Type} `{!RecordEncrypter E, !TrafficSend K E, !PkiTypes}.

(* @src rustls/src/conn/split.rs 133-154 SendTraffic::write *)
Definition write (application_data : OutboundPlain.t) : action (SendInner.t E K * list u8) Error.t unit :=
  _ ← SendInner.pump;
  _ ← SendInner.on_send (SendPath.send_appdata_encrypt (DataKind.Traffic application_data));
  mret tt.

(* @src rustls/src/conn/split.rs 156-166 SendTraffic::close *)
Definition close : action (SendInner.t E K * list u8) Error.t unit :=
  _ ← SendInner.pump;
  SendInner.on_send SendPath.send_close_notify.

(* @src rustls/src/conn/split.rs 168-196 SendTraffic::refresh_traffic_keys *)
Definition refresh_traffic_keys : action (SendInner.t E K * list u8) Error.t unit :=
  _ ← SendInner.pump;
  SendInner.on_send SendPath.refresh_traffic_keys.
End methods.
End SendTraffic.

(** ** The receiving half *)

Module ReceiveTraffic.
(** The lock is a part of the state of a run.  The events that the state machine emits
    are discarded: they stay in [other], where nothing looks for them, with what lies
    outside the connection. *)
(* @src rustls/src/conn/split.rs 232-240 ReceiveTraffic *)
Record t (St D X : Type) := mk {
  state : St;
  recv : ReceivePath.t D;
  other : X;
  pending_flush_sender : bool;
}.
Arguments mk {St D X}.
Arguments state {St D X}.
Arguments recv {St D X}.
Arguments other {St D X}.
Arguments pending_flush_sender {St D X}.

Definition with_pending {St D X} (v : bool) (self : t St D X) : t St D X :=
  mk (state self) (recv self) (other self) v.
End ReceiveTraffic.

(** [FlushSender] and [ReceivedApplicationData] are their fields; the input buffer that
    the latter borrows is passed to [into_next]. *)
Module ReceiveTrafficState.
(* @src rustls/src/conn/split.rs 360-417 ReceiveTrafficState *)
Inductive t (St D X : Type) :=
  | ReadMore (rt : ReceiveTraffic.t St D X)
  | FlushSender (rt : ReceiveTraffic.t St D X)
  | Available (data : Payload) (pending_discard : nat) (rt : ReceiveTraffic.t St D X)
  | CloseNotify.
Arguments ReadMore {St D X}.
Arguments FlushSender {St D X}.
Arguments Available {St D X}.
Arguments CloseNotify {St D X}.

(* @src rustls/src/conn/split.rs 490-496 FlushSender::into_next *)
Definition flushed {St D X} (rt : ReceiveTraffic.t St D X) : t St D X :=
  if ReceivePath.has_received_close_notify (ReceiveTraffic.recv rt) then CloseNotify else ReadMore rt.

(** [if take(&mut rt.pending_flush_sender)] and what follows. *)
(* @src rustls/src/conn/split.rs 335-342 ReceiveTraffic::read *)
Definition after_read {St D X} (rt : ReceiveTraffic.t St D X) : t St D X :=
  if ReceiveTraffic.pending_flush_sender rt
  then FlushSender (ReceiveTraffic.with_pending false rt)
  else flushed rt.

(* @src rustls/src/conn/split.rs 460-477 ReceivedApplicationData::into_next *)
Definition into_next {St D X I} `{!TlsInputBuffer I} (pending_discard : nat) (rt : ReceiveTraffic.t St D X)
    (input : I) : result Error.t (I * t St D X) :=
  input ← discard_front pending_discard input;
  Ok (input, after_read rt).
End ReceiveTrafficState.

Section read.
Context {I St D E K X : Type} `{!TlsInputBuffer I, !StateMachine St D E K X}.
Context `{!RecordDecrypter D, !RecordEncrypter E, !TrafficSend K E, !PkiTypes}.
Notation Iter := (MessageIter.t I St D E K X).

(** The connection that [MessageIter] sees: what it sends goes to the aside buffer, and
    [send_required] is that of the [SendAdapter]. *)
(* @src rustls/src/conn/split.rs 266-284 ReceiveTraffic::read *)
Definition adapted (rt : ReceiveTraffic.t St D X) (inner : SendInner.t E K) (input : I) : Iter :=
  MessageIter.mk input (Ok (ReceiveTraffic.state rt))
    (Output.mk (ReceiveTraffic.recv rt) (SendInner.send inner) (SendInner.aside_buffer inner)
       (ReceiveTraffic.other rt) None false).

Definition inner_of (it : Iter) : SendInner.t E K :=
  SendInner.mk (Output.send (MessageIter.output it)) (Output.tls (MessageIter.output it)).

(** The receiver is consumed by an error. *)
(* @src rustls/src/conn/split.rs 243-343 ReceiveTraffic::read *)
Definition read (self : ReceiveTraffic.t St D X)
    : action (SendInner.t E K * I) Error.t (ReceiveTrafficState.t St D X) := λ '(inner, input),
  match MessageIter.next MessageIterMode.All false (adapted self inner input) with
  | (it, Err e) => ((inner_of it, MessageIter.input it), Err e)
  | (it, Panic) => ((inner_of it, MessageIter.input it), Panic)
  | (it, Ok received_plain) =>
      match MessageIter.state it with
      | Ok state =>
          let out := MessageIter.output it in
          let '(d, n) := Deframer.take_discard (ReceivePath.deframer (Output.recv out)) in
          let rt := ReceiveTraffic.mk state (ReceivePath.with_deframer d (Output.recv out)) (Output.other out)
                      (ReceiveTraffic.pending_flush_sender self || Output.send_required out) in
          match received_plain with
          | Some data => ((inner_of it, MessageIter.input it), Ok (ReceiveTrafficState.Available data n rt))
          | None =>
              match discard_front n (MessageIter.input it) with
              | Ok input => ((inner_of it, input), Ok (ReceiveTrafficState.after_read rt))
              | Err e => ((inner_of it, MessageIter.input it), Err e)
              | Panic => ((inner_of it, MessageIter.input it), Panic)
              end
          end
      | _ => ((inner_of it, MessageIter.input it), Panic)
      end
  end.

(** The halves; the outputs of the connection are those at the time. *)
(* @src rustls/src/conn/split.rs 101-124 SplitConnection::try_from *)
Definition try_from (conn : Iter) : result Error.t (SendInner.t E K * ReceiveTraffic.t St D X) :=
  let out := MessageIter.output conn in
  if negb (SendPath.may_send_application_data (Output.send out)
           && ReceivePath.may_receive_application_data (Output.recv out))
  then Err (Error.ApiMisuse ApiMisuse.SplitDuringHandshake)
  else
    state ← MessageIter.state conn;
    Ok (SendInner.mk (Output.send out) [],
        ReceiveTraffic.mk state (Output.recv out) (Output.other out) false).
End read.

(** ** Runs *)

Module SplitOp.
Inductive t := Read | Write (data : OutboundPlain.t) | RefreshTrafficKeys | Close.
End SplitOp.

(** What a call returns; [flush] is whether the receiver said [FlushSender]. *)
Module Outcome.
Inductive t :=
  | Received (r : result Error.t (option Payload)) (flush : bool)
  | Sent (r : result Error.t unit).

(** What a connection that is not split returns. *)
Definition unsplit (self : t) : t :=
  match self with Received r _ => Received r false | Sent r => Sent r end.
End Outcome.

Section runs.
Context {I St D E K X : Type} `{!TlsInputBuffer I, !StateMachine St D E K X}.
Context `{!RecordDecrypter D, !RecordEncrypter E, !TrafficSend K E, !PkiTypes}.
Notation Iter := (MessageIter.t I St D E K X).

(** The halves, the input buffer, and the bytes that the sender was given to send.  The
    receiver is gone after an error or the end of the stream. *)
Record Split := mk_split {
  inner : SendInner.t E K;
  receiver : option (ReceiveTraffic.t St D X);
  input : I;
  wire : list u8;
}.

(** The receiver after [FlushSender], too. *)
Definition settle (st : ReceiveTrafficState.t St D X) : option (ReceiveTraffic.t St D X) * bool :=
  match st with
  | ReceiveTrafficState.ReadMore rt | ReceiveTrafficState.Available _ _ rt => (Some rt, false)
  | ReceiveTrafficState.FlushSender rt =>
      (match ReceiveTrafficState.flushed rt with ReceiveTrafficState.ReadMore rt => Some rt | _ => None end, true)
  | ReceiveTrafficState.CloseNotify => (None, false)
  end.

(** [read], and [into_next] when the data was looked at. *)
Definition split_read (rt : ReceiveTraffic.t St D X) (inner : SendInner.t E K) (input : I)
    : SendInner.t E K * option (ReceiveTraffic.t St D X) * I * Outcome.t :=
  match read rt (inner, input) with
  | ((inner, input), Ok (ReceiveTrafficState.Available data n rt)) =>
      match ReceiveTrafficState.into_next n rt input with
      | Ok (input, st) =>
          let '(receiver, flush) := settle st in
          (inner, receiver, input, Outcome.Received (Ok (Some data)) flush)
      | Err e => (inner, None, input, Outcome.Received (Err e) false)
      | Panic => (inner, None, input, Outcome.Received Panic false)
      end
  | ((inner, input), Ok st) =>
      let '(receiver, flush) := settle st in
      (inner, receiver, input, Outcome.Received (Ok None) flush)
  | ((inner, input), Err e) => (inner, None, input, Outcome.Received (Err e) false)
  | ((inner, input), Panic) => (inner, None, input, Outcome.Received Panic false)
  end.

Definition sender_call (op : SplitOp.t) : action (SendInner.t E K * list u8) Error.t unit :=
  match op with
  | SplitOp.Read => mret tt
  | SplitOp.Write data => SendTraffic.write data
  | SplitOp.RefreshTrafficKeys => SendTraffic.refresh_traffic_keys
  | SplitOp.Close => SendTraffic.close
  end.

Definition split_step (op : SplitOp.t) (s : Split) : Split * Outcome.t :=
  match op with
  | SplitOp.Read =>
      match receiver s with
      | None => (s, Outcome.Received (Ok None) false)
      | Some rt =>
          let '(inner, receiver, input, r) := split_read rt (inner s) (input s) in
          (mk_split inner receiver input (wire s), r)
      end
  | _ =>
      let '((inner, wire), r) := sender_call op (inner s, wire s) in
      (mk_split inner (receiver s) (input s) wire, Outcome.Sent r)
  end.

(** The same calls on the connection, which is read until an error or its end. *)
Definition connection_call (op : SplitOp.t) : action (SendPath.t E K * list u8) Error.t unit :=
  match op with
  | SplitOp.Read => mret tt
  | SplitOp.Write data => discard (SendPath.send_appdata_encrypt (DataKind.Traffic data))
  | SplitOp.RefreshTrafficKeys => SendPath.refresh_traffic_keys
  | SplitOp.Close => SendPath.send_close_notify
  end.

Definition joined_read (it : Iter) : Iter * bool * Outcome.t :=
  match MessageIter.next MessageIterMode.All false it with
  | (it, Ok payload) =>
      match MessageHandler.drop it with
      | Ok it =>
          (it, negb (ReceivePath.has_received_close_notify (Output.recv (MessageIter.output it))),
           Outcome.Received (Ok payload) false)
      | Err e => (it, false, Outcome.Received (Err e) false)
      | Panic => (it, false, Outcome.Received Panic false)
      end
  | (it, Err e) => (it, false, Outcome.Received (Err e) false)
  | (it, Panic) => (it, false, Outcome.Received Panic false)
  end.

Definition joined_step (op : SplitOp.t) (s : Iter * bool) : (Iter * bool) * Outcome.t :=
  let '(it, alive) := s in
  match op with
  | SplitOp.Read =>
      if alive then let '(it, alive, r) := joined_read it in ((it, alive), r)
      else ((it, false), Outcome.Received (Ok None) false)
  | _ =>
      let '(out, r) := Output.on_send (connection_call op) (MessageIter.output it) in
      ((MessageIter.mk (MessageIter.input it) (MessageIter.state it) out, alive), Outcome.Sent r)
  end.

(** Runs of either kind, with what the calls returned. *)
Fixpoint run {S} (step : SplitOp.t → S → S * Outcome.t) (ops : list SplitOp.t) (s : S) : S * list Outcome.t :=
  match ops with
  | [] => (s, [])
  | op :: ops =>
      let '(s, r) := step op s in
      let '(s, rs) := run step ops s in (s, r :: rs)
  end.
End runs.
Arguments Split : clear implicits.

(** ** Methods of the send path append *)

Create HintDb appends.

Section appends.
Context {S : Type}.

(** What is in the output buffer is left alone, and nothing depends on it. *)
Definition appends {A} (m : action (S * list u8) Error.t A) : Prop :=
  ∀ self pre tls, m (self, pre ++ tls) =
    let '((self', tls'), r) := m (self, tls) in ((self', pre ++ tls'), r).

Lemma appends_ret A (a : A) : appends (mret a).
Proof. done. Qed.
Lemma appends_fail A e : appends (fail (A:=A) e).
Proof. done. Qed.
Lemma appends_lift A (r : result Error.t A) : appends (lift r).
Proof. done. Qed.
Lemma appends_gets A B (g : S → A) (f : A → action (S * list u8) Error.t B) :
  (∀ a, appends (f a)) → appends (a ← gets (λ s, g s.1); f a).
Proof. intros Hf self pre tls. apply Hf. Qed.
Lemma appends_bind A B (m : action (S * list u8) Error.t A) (f : A → action (S * list u8) Error.t B) :
  appends m → (∀ a, appends (f a)) → appends (m ≫= f).
Proof.
  intros Hm Hf self pre tls. unfold mbind, action_bind. rewrite Hm.
  destruct (m (self, tls)) as [[self' tls'] [a|e|]]; [apply Hf|done..].
Qed.
Lemma appends_modify (f : S → S) : appends (modify (λ '(self, tls), (f self, tls))).
Proof. done. Qed.
Lemma appends_if A (b : bool) (m n : action (S * list u8) Error.t A) :
  appends m → appends n → appends (if b then m else n).
Proof. by destruct b. Qed.
End appends.
#[export] Hint Resolve appends_ret appends_fail appends_lift appends_gets appends_bind appends_modify : appends.
#[export] Hint Resolve appends_if : appends.

Section send_appends.
Context {E K : Type} `{!RecordEncrypter E, !TrafficSend K E, !PkiTypes}.

Lemma encrypt_outgoing_eq plain (self : Encrypting.t E K) tls :
  Encrypting.encrypt_outgoing plain (self, tls) =
  let '((self', out), r) := Encrypting.encrypt_outgoing_into plain (self, replicate (HEADER_SIZE
      + Encrypting.encrypted_len self (OutboundPlain.len (Record_.payload plain))) x00) in
  match r with
  | Ok written => ((self', tls ++ take written out), Ok tt)
  | Err e => ((self', tls ++ out), Err e)
  | Panic => ((self', tls ++ out), Panic)
  end.
Proof.
  unfold Encrypting.encrypt_outgoing. cbv zeta. rewrite drop_app_length, take_app_length.
  destruct (Encrypting.encrypt_outgoing_into _ _) as [[self' out] [w|e|]]; [|done..]. by rewrite take_app_add.
Qed.

Lemma appends_encrypt_outgoing plain : appends (S:=Encrypting.t E K) (Encrypting.encrypt_outgoing plain).
Proof.
  intros self pre tls. rewrite !encrypt_outgoing_eq.
  destruct (Encrypting.encrypt_outgoing_into _ _) as [[self' out] [w|e|]]; by rewrite <- (assoc_L (++)).
Qed.

Lemma appends_write_key_update : appends (S:=Encrypting.t E K) Encrypting.write_key_update.
Proof.
  intros self pre tls. unfold Encrypting.write_key_update, KeyUpdateRemote.write.
  destruct (Encrypting.key_update_remote self); [done|]. by rewrite <- (assoc_L (++)).
Qed.
Hint Resolve appends_encrypt_outgoing appends_write_key_update : appends.

Lemma appends_send_short_self m : appends (send_short_self (E:=E) (K:=K) m).
Proof.
  intros self pre tls. rewrite !send_short_self_eq. by apply appends_bind; auto with appends.
Qed.
Hint Resolve appends_send_short_self : appends.

Lemma appends_request : appends (send_key_update_request (E:=E) (K:=K)).
Proof.
  unfold send_key_update_request. apply appends_gets. intros [ks|]; [|auto with appends].
  apply appends_bind; [auto with appends|]. intros _. apply appends_gets. intros [ks'|]; [|auto with appends].
  apply appends_bind; [auto with appends|]. intros [e k]. by intros self pre tls.
Qed.
Hint Resolve appends_request : appends.

Lemma appends_encrypt_each iter : appends (encrypt_each (E:=E) (K:=K) iter).
Proof.
  induction iter as [|r iter IH]; cbn [encrypt_each]; [auto with appends|].
  apply (appends_gets _ _ id). intros self. apply appends_bind; [|auto with appends]. case_decide; auto with appends.
Qed.
Hint Resolve appends_encrypt_each : appends.

Lemma appends_encrypt_records iter : appends (encrypt_records (E:=E) (K:=K) iter).
Proof.
  unfold encrypt_records. apply (appends_gets _ _ id). intros self. repeat case_decide; auto with appends.
Qed.
Hint Resolve appends_encrypt_records : appends.

Lemma appends_on_encrypting A e (m : action (Encrypting.t E K * list u8) Error.t A) :
  appends m → appends (SendPath.on_encrypting e m).
Proof.
  intros Hm self pre tls. unfold SendPath.on_encrypting. rewrite Hm. by destruct (m (e, tls)) as [[] ?].
Qed.
Hint Resolve appends_on_encrypting : appends.

Lemma encode_unencrypted_app r pre tls : encode_unencrypted r (pre ++ tls) = pre ++ encode_unencrypted r tls.
Proof. unfold encode_unencrypted. by rewrite !copy_to_vec_flat, <- !(assoc_L (++)). Qed.

Lemma appends_alert level desc : appends (S:=SendPath.t E K) (SendPath.send_alert level desc).
Proof.
  intros self pre tls. unfold SendPath.send_alert, send_short. cbv zeta.
  destruct (SendPath.encrypt_state self) as [|e|]; [by rewrite encode_unencrypted_app| |done].
  assert (appends (_ ← Encrypting.write_key_update; Encrypting.encrypt_outgoing (K:=K)
    (borrow_outbound (Message.to_record (Message.build_alert level desc))))) as Hs by auto with appends.
  rewrite Hs. by match goal with |- context [?m (e, tls)] => destruct (m (e, tls)) as [[] ?] end.
Qed.
Hint Resolve appends_alert : appends.

Lemma appends_close_notify : appends (S:=SendPath.t E K) SendPath.send_close_notify.
Proof. unfold SendPath.send_close_notify. apply (appends_gets _ _ id). auto with appends. Qed.
Hint Resolve appends_close_notify : appends.

Lemma appends_exhausted b : appends (S:=SendPath.t E K) (SendPath.close_if_exhausted b).
Proof. unfold SendPath.close_if_exhausted. auto with appends. Qed.
Hint Resolve appends_exhausted : appends.

Lemma appends_appdata payload : appends (S:=SendPath.t E K) (SendPath.send_appdata_encrypt payload).
Proof.
  unfold SendPath.send_appdata_encrypt. destruct (match payload with DataKind.Early _ => _ | _ => _ end) as [early p].
  apply (appends_gets _ _ id). intros self. repeat case_match; auto 6 with appends.
Qed.

Lemma fold_unencrypted_app rs pre tls :
  fold_left (λ tls r, encode_unencrypted r tls) rs (pre ++ tls)
  = pre ++ fold_left (λ tls r, encode_unencrypted r tls) rs tls.
Proof.
  revert tls. induction rs as [|r rs IH]; intros tls; [done|]. cbn [fold_left]. by rewrite encode_unencrypted_app, IH.
Qed.

Lemma appends_msg m b : appends (S:=SendPath.t E K) (SendPath.send_msg m b).
Proof.
  unfold SendPath.send_msg. apply (appends_gets _ _ id). intros self. cbv zeta.
  assert (∀ (f : SendPath.t E K → list (Record_.t OutboundPlain.t)), appends (modify (λ '(self, tls),
    (self, fold_left (λ tls r, encode_unencrypted r tls) (f self) tls)))) as Hplain
    by (intros f self' pre tls; unfold modify; by rewrite fold_unencrypted_app).
  repeat case_match; auto 6 with appends.
Qed.

Lemma appends_refresh : appends (S:=SendPath.t E K) SendPath.refresh_traffic_keys.
Proof.
  unfold SendPath.refresh_traffic_keys. apply (appends_gets _ _ id). intros self. repeat case_match; auto with appends.
Qed.

Lemma appends_on_self A (m : action (SendPath.t E K) Error.t A) : appends (on_self m).
Proof. intros self pre tls. unfold on_self. by destruct (m self). Qed.
End send_appends.
#[export] Hint Resolve appends_alert appends_close_notify appends_appdata appends_msg appends_refresh : appends.
#[export] Hint Resolve appends_on_self : appends.

(** ** What is received does to the sender *)

Create HintDb relayed.

Section relayed.
Context {D E K X : Type}.
Notation Out := (Output.t D E K X).
Implicit Types (out : Out).

(** More bytes before those to be sent, and perhaps a call that may send. *)
Definition shift (pre : list u8) (b : bool) out : Out :=
  Output.mk (Output.recv out) (Output.send out) (pre ++ Output.tls out) (Output.other out)
    (Output.received out) (b || Output.send_required out).

(** Nothing was sent or queued, and nothing may have been before. *)
Definition unsent out out' : Prop :=
  Output.send_required out = false ∧ Output.tls out' = Output.tls out
  ∧ SendPath.has_queued_key_update (Output.send out') = SendPath.has_queued_key_update (Output.send out).

Lemma unsent_trans out out' out'' : unsent out out' → unsent out' out'' → unsent out out''.
Proof. intros (? & ? & ?) (? & ? & ?). split_and!; congruence. Qed.

(** A part of a handler: it only appends to the bytes to be sent; and unless it notes that
    something may have to be sent, it leaves them and the queued key update alone. *)
Record relayed {A} (m : action Out Error.t A) : Prop := {
  relay_shift pre b out : m (shift pre b out) = (shift pre b (m out).1, (m out).2);
  relay_noted out : Output.send_required (m out).1 = false → unsent out (m out).1;
}.

Lemma relayed_lift A (r : result Error.t A) : relayed (lift r).
Proof. by split. Qed.
Lemma relayed_ret A (a : A) : relayed (mret a).
Proof. by split. Qed.
Lemma relayed_fail A e : relayed (fail (A:=A) e).
Proof. by split. Qed.

Lemma relayed_bind A B (m : action Out Error.t A) (f : A → action Out Error.t B) :
  relayed m → (∀ a, relayed (f a)) → relayed (m ≫= f).
Proof.
  intros [Hs Hn] Hf. split.
  - intros pre b out. unfold mbind, action_bind. rewrite Hs.
    destruct (m out) as [out' [a|e|]]; cbn [fst snd]; [|done..]. apply Hf.
  - intros out Hb. unfold mbind, action_bind in *. specialize (Hn out).
    destruct (m out) as [out' [a|e|]]; cbn [fst snd] in *; [|by apply Hn..].
    apply (relay_noted _ (Hf a)) in Hb. eapply unsent_trans; [apply Hn, Hb|done].
Qed.

Lemma relayed_if A (b : bool) (m n : action Out Error.t A) :
  relayed m → relayed n → relayed (if b then m else n).
Proof. by destruct b. Qed.
Lemma relayed_decide A (P : Prop) `{Decision P} (m n : action Out Error.t A) :
  relayed m → relayed n → relayed (if decide P then m else n).
Proof. by destruct (decide P). Qed.

Lemma relayed_ignore_err A (m : action Out Error.t A) : relayed m → relayed (ignore_err m).
Proof.
  intros [Hs Hn]. split.
  - intros pre b out. unfold ignore_err. rewrite Hs. by destruct (m out) as [out' [a|e|]].
  - intros out. unfold ignore_err. specialize (Hn out). by destruct (m out) as [out' [a|e|]].
Qed.

Lemma relayed_on_recv A (m : action (ReceivePath.t D) Error.t A) : relayed (Output.on_recv m).
Proof.
  split; [intros pre b out|intros out]; unfold Output.on_recv; cbn [shift Output.recv];
    by destruct (m (Output.recv out)).
Qed.

Lemma relayed_gets_recv A (f : ReceivePath.t D → action Out Error.t A) :
  (∀ self, relayed (f self)) → relayed (self ← gets Output.recv; f self).
Proof. intros Hf. split; [intros pre b out|intros out]; apply (Hf (Output.recv out)). Qed.

Lemma relayed_on_sending A (m : action (SendPath.t E K * list u8) Error.t A) :
  appends m → relayed (Output.on_sending m).
Proof.
  intros Hm. split; [intros pre b out|intros out]; unfold Output.on_sending, Output.on_send; cbn [shift].
  - cbn. rewrite Hm. destruct (m _) as [[s tls] r]. unfold shift. cbn. by rewrite orb_true_r.
  - cbn. by destruct (m _) as [[s tls] r].
Qed.

Lemma relayed_on_self A (m : action (SendPath.t E K) Error.t A) :
  (∀ self, SendPath.has_queued_key_update (m self).1 = SendPath.has_queued_key_update self) →
  relayed (Output.on_send (on_self m)).
Proof.
  intros Hm. split; [intros pre b out|intros out]; unfold Output.on_send, on_self; cbn.
  - by destruct (m (Output.send out)).
  - specialize (Hm (Output.send out)). by destruct (m (Output.send out)).
Qed.

Lemma relayed_plaintext p : relayed (Output.received_plaintext p).
Proof. by split. Qed.
Lemma relayed_other A (m : action X Error.t A) : relayed (on_other m).
Proof. split; [intros pre b out|intros out]; unfold on_other; cbn; by destruct (m (Output.other out)). Qed.
End relayed.
#[export] Hint Resolve relayed_lift relayed_ret relayed_fail relayed_bind relayed_if relayed_decide : relayed.
#[export] Hint Resolve relayed_ignore_err relayed_on_recv relayed_on_sending relayed_plaintext relayed_other : relayed.

Lemma note_response_queued {E K} (self : SendPath.t E K) :
  SendPath.has_queued_key_update (SendPath.note_key_update_response self).1
  = SendPath.has_queued_key_update self.
Proof.
  unfold SendPath.note_key_update_response, SendPath.has_queued_key_update.
  destruct (SendPath.encrypt_state self) as [|e|] eqn:He; cbn; rewrite ?He; try done.
  destruct (Encrypting.key_update_local e); cbn; by rewrite ?He.
Qed.
#[export] Hint Resolve note_response_queued relayed_on_self : relayed.

(** State machines whose handlers are so. *)
Class RelayLaws (St D E K X : Type) `{StateMachine St D E K X} : Prop := {
  handle_relayed st i : relayed (handle st i);
  handle_without_input_relayed st : relayed (handle_without_input st);
}.

Section traffic.
Context {E D Q X SK : Type} `{!RecordEncrypter E, !PkiTypes, !ClientEnv X SK (Tls13Session.t E D Q)}.
Notation K := (KeyScheduleTrafficSend.t E D Q).

#[global] Instance server_tls13_relay : RelayLaws (ServerTls13.ExpectTraffic E D Q) D E K X.
Proof.
  split; [|intros; apply relayed_ret]. intros st i. cbn. unfold ServerTls13.handle, ServerTls13.handle_key_update.
  repeat case_match; auto 8 with relayed appends.
Qed.

#[global] Instance client_tls13_relay : RelayLaws (ClientTls13.ExpectTraffic E D Q SK) D E K X.
Proof.
  split; [|intros; apply relayed_ret]. intros st i. cbn.
  unfold ClientTls13.handle, ClientTls13.handle_key_update, ClientTls13.handle_new_ticket_tls13.
  repeat case_match; auto 8 with relayed appends.
Qed.

#[global] Instance server_tls12_relay K' : RelayLaws ServerTls12.ExpectTraffic D E K' X.
Proof. split; [|intros; apply relayed_ret]. intros st i. cbn. unfold ServerTls12.handle. case_match; auto with relayed. Qed.
#[global] Instance client_tls12_relay K' : RelayLaws ClientTls12.ExpectTraffic D E K' X.
Proof. split; [|intros; apply relayed_ret]. intros st i. cbn. unfold ClientTls12.handle. case_match; auto with relayed. Qed.
End traffic.

(** ** The loop *)

Section loop.
Context {I St D E K X : Type} `{!TlsInputBuffer I, !StateMachine St D E K X, !RelayLaws St D E K X}.
Context `{!RecordDecrypter D, !RecordEncrypter E, !TrafficSend K E, !PkiTypes}.
Notation Iter := (MessageIter.t I St D E K X).
Notation Out := (Output.t D E K X).
Implicit Types (out : Out) (it : Iter).

Lemma relayed_fatal_alert e : relayed (D:=D) (E:=E) (K:=K) (X:=X) (maybe_send_fatal_alert e).
Proof. unfold maybe_send_fatal_alert. destruct (alert_of_error e); auto with relayed appends. Qed.
Hint Resolve relayed_fatal_alert : relayed.

Lemma relayed_reject m : relayed (D:=D) (E:=E) (K:=K) (X:=X) (reject_renegotiation_request m).
Proof.
  unfold reject_renegotiation_request. apply relayed_gets_recv. intros self. auto 8 with relayed appends.
Qed.
Hint Resolve relayed_reject : relayed.

Lemma relayed_receive_record r aligned : relayed (D:=D) (E:=E) (K:=K) (X:=X) (receive_record r aligned).
Proof.
  unfold receive_record. apply relayed_bind; [auto with relayed|]. intros []; [auto with relayed|].
  apply relayed_bind; [auto with relayed|]. intros m. destruct (Message.payload m); auto with relayed.
Qed.
Hint Resolve relayed_receive_record : relayed.

Lemma relayed_report A (m : action Out Error.t A) : relayed m → relayed (report m).
Proof.
  intros [Hs Hn].
  assert (∀ e, relayed (_ ← ignore_err (maybe_send_fatal_alert e); fail (A:=A) e)) as Hr
    by (intros; auto with relayed).
  split; [intros pre b out|intros out]; unfold report.
  - rewrite Hs. destruct (m out) as [out' [a|e|]]; cbn [fst snd]; [done| |done]. apply (Hr e).
  - specialize (Hn out). destruct (m out) as [out' [a|e|]]; cbn [fst snd] in *; [done| |done].
    intros Hb%(relay_noted _ (Hr e)). eapply unsent_trans; [apply Hn, Hb|done].
Qed.
Hint Resolve relayed_report : relayed.

Lemma relayed_dispatch mode st record aligned : relayed (MessageIter.dispatch mode st record aligned).
Proof.
  unfold MessageIter.dispatch. apply relayed_bind; [auto 6 with relayed appends|]. intros _.
  apply relayed_if; [auto 6 with relayed appends|]. apply relayed_bind.
  - apply relayed_report, relayed_bind; [auto with relayed|]. intros []; [apply handle_relayed|auto with relayed].
  - intros st'. apply relayed_if; [apply relayed_report, handle_without_input_relayed|auto with relayed].
Qed.

Definition shift_iter (pre : list u8) (b : bool) it : Iter :=
  MessageIter.mk (MessageIter.input it) (MessageIter.state it) (shift pre b (MessageIter.output it)).

Lemma next_loop_shift pre b fuel mode early st input out :
  MessageIter.next_loop fuel mode early st input (shift pre b out)
  = (λ '(it, r), (shift_iter pre b it, r)) <$> MessageIter.next_loop fuel mode early st input out.
Proof.
  revert st input out. induction fuel as [|fuel IH]; intros st input out; [done|].
  cbn [MessageIter.next_loop]. destruct (negb _); [done|].
  destruct (slice_mut input) as [buffer|e|]; [|done..]. cbn [shift Output.recv].
  destruct (ReceivePath.deframe _) as [[recv buffer'] [[record|]|e|]]; [|done| |done].
  - change (Output.with_recv recv (shift pre b out)) with (shift pre b (Output.with_recv recv out)).
    rewrite (relay_shift _ (relayed_dispatch _ _ _ _)).
    destruct (MessageIter.dispatch _ _ _ _ _) as [out' [st'|e|]]; [|done..]. cbn [fst snd shift Output.recv].
    destruct (ReceivePath.has_received_close_notify _).
    + unfold MessageIter.ignore_rest. cbn [shift Output.recv].
      destruct (Deframer.take_discard _) as [d n]. by destruct (_ ← _; _) as [[]| |].
    + change (Output.with_received None (shift pre b out')) with (shift pre b (Output.with_received None out')).
      change (Output.received (shift pre b out')) with (Output.received out').
      destruct (Output.received out') as [[p|p]|], early; try done; (destruct (_ && _); [done|apply IH]).
  - change (Output.with_recv recv (shift pre b out)) with (shift pre b (Output.with_recv recv out)).
    rewrite (relay_shift _ (relayed_ignore_err _ _ (relayed_fatal_alert e))).
    destruct (ignore_err _ _) as [out' [[]|e'|]]; try done; cbn [fst snd]; by destruct e.
Qed.

Lemma next_shift pre b mode early it :
  MessageIter.next mode early (shift_iter pre b it)
  = let '(it', r) := MessageIter.next mode early it in (shift_iter pre b it', r).
Proof.
  unfold MessageIter.next. cbn [shift_iter MessageIter.state MessageIter.input MessageIter.output].
  destruct (MessageIter.state it); [|done..].
  change (Output.with_received None (shift pre b (MessageIter.output it)))
    with (shift pre b (Output.with_received None (MessageIter.output it))).
  rewrite next_loop_shift. by destruct (MessageIter.next_loop _ _ _ _ _ _) as [[]|].
Qed.

Lemma next_loop_noted fuel mode early st input out it r :
  MessageIter.next_loop fuel mode early st input out = Some (it, r) →
  (is_ok r = true → is_ok (MessageIter.state it) = true)
  ∧ (Output.send_required (MessageIter.output it) = false → unsent out (MessageIter.output it)).
Proof.
  revert st input out. induction fuel as [|fuel IH]; intros st input out; [done|].
  cbn [MessageIter.next_loop]. destruct (negb _); [by intros [= <- <-]|].
  destruct (slice_mut input) as [buffer|e|]; [|by intros [= <- <-]..].
  destruct (ReceivePath.deframe _) as [[recv buffer'] [[record|]|e|]]; [|by intros [= <- <-]| |by intros [= <- <-]].
  - pose proof (relay_noted _ (relayed_dispatch mode st record (Deframer.aligned (ReceivePath.deframer recv)))
      (Output.with_recv recv out)) as Hn.
    destruct (MessageIter.dispatch _ _ _ _ _) as [out' [st'|e|]]; [|by intros [= <- <-]..]. cbn [fst] in Hn.
    destruct (ReceivePath.has_received_close_notify _).
    + unfold MessageIter.ignore_rest. destruct (Deframer.take_discard _) as [d n].
      by destruct (_ ← _; _) as [[]| |]; intros [= <- <-].
    + destruct (Output.received out') as [[p|p]|], early; try (by intros [= <- <-]);
        (destruct (_ && _); [by intros [= <- <-]|]);
        (intros [Hok Hrest]%IH; split; [done|intros Hb; specialize (Hrest Hb)];
         eapply unsent_trans; [apply Hn, Hrest|done]).
  - pose proof (relay_noted _ (relayed_ignore_err _ _ (relayed_fatal_alert e)) (Output.with_recv recv out)) as Hn.
    destruct (ignore_err _ _) as [out' [[]|e'|]]; cbn [fst] in Hn; intros [= <- <-]; (split; [done|]);
      cbn [MessageIter.output]; try done; by destruct e.
Qed.

Lemma next_noted mode early it it' r :
  MessageIter.next mode early it = (it', r) →
  (is_ok r = true → is_ok (MessageIter.state it') = true)
  ∧ (Output.send_required (MessageIter.output it') = false → unsent (MessageIter.output it) (MessageIter.output it')).
Proof.
  unfold MessageIter.next. destruct (MessageIter.state it) eqn:Hs; [|by intros [= <- <-]..].
  match goal with |- default _ ?l = _ → _ => destruct l as [[it1 r1]|] eqn:Hl end; [|by intros [= <- <-]].
  intros [= <- <-]. by apply next_loop_noted in Hl.
Qed.
End loop.

(** ** The halves do what the connection does *)

Section refinement.
Context {I St D E K X : Type} `{!TlsInputBuffer I, !StateMachine St D E K X, !RelayLaws St D E K X}.
Context `{!RecordDecrypter D, !RecordEncrypter E, !TrafficSend K E, !PkiTypes}.
Notation Iter := (MessageIter.t I St D E K X).
Notation Split := (Split I St D E K X).
Implicit Types (it : Iter) (s : Split) (rt : ReceiveTraffic.t St D X).

(** A connection that has sent [pre] more than another, and is the same otherwise. *)
Definition alike (pre : list u8) it it' : Prop :=
  let out := MessageIter.output it in
  let out' := MessageIter.output it' in
  MessageIter.input it = MessageIter.input it' ∧ MessageIter.state it = MessageIter.state it'
  ∧ Output.recv out = Output.recv out' ∧ Output.send out = Output.send out'
  ∧ Output.tls out = pre ++ Output.tls out' ∧ Output.other out = Output.other out'.

Lemma next_alike pre it it' mode early :
  alike pre it it' → Output.send_required (MessageIter.output it') = false →
  let '(a, r) := MessageIter.next mode early it in
  let '(a', r') := MessageIter.next mode early it' in r = r' ∧ alike pre a a'.
Proof.
  destruct it as [i st [recv send tls other rc b]], it' as [i' st' [recv' send' tls' other' rc' b']].
  intros (Hi & Hst & Hr & Hs & Ht & Ho) Hb. cbn in Hi, Hst, Hr, Hs, Ht, Ho, Hb. subst.
  unfold MessageIter.next. cbn [MessageIter.state MessageIter.input MessageIter.output].
  destruct st' as [st|e|]; [|by split_and!..].
  assert (∀ rc rc', Output.with_received None (Output.mk recv' send' (pre ++ tls') other' rc b)
    = shift pre b (Output.with_received None (Output.mk recv' send' tls' other' rc' false))) as Heq
    by (intros; unfold shift; cbn; by rewrite orb_false_r).
  rewrite (Heq rc rc'), next_loop_shift. by destruct (MessageIter.next_loop _ _ _ _ _ _) as [[]|]; split_and!.
Qed.

(** The halves and the connection. *)
Definition joins s (js : Iter * bool) : Prop :=
  let '(it, alive) := js in
  let out := MessageIter.output it in
  MessageIter.input it = input s ∧ Output.send out = SendInner.send (inner s)
  ∧ Output.tls out = wire s ++ SendInner.aside_buffer (inner s)
  ∧ match receiver s with
    | Some rt => alive = true ∧ MessageIter.state it = Ok (ReceiveTraffic.state rt)
        ∧ Output.recv out = ReceiveTraffic.recv rt ∧ Output.other out = ReceiveTraffic.other rt
        ∧ ReceiveTraffic.pending_flush_sender rt = false
    | None => alive = false
    end.

Lemma joins_alike s it alive rt : joins s (it, alive) → receiver s = Some rt →
  alive = true ∧ ReceiveTraffic.pending_flush_sender rt = false
  ∧ alike (wire s) it (adapted rt (inner s) (input s)).
Proof. intros (Hi & Hs & Ht & Hr) Hrt. rewrite Hrt in Hr. destruct Hr as (? & ? & ? & ? & ?). by split_and!. Qed.

(** The receiver that is left after a read, and what is noted. *)
Lemma settle_after rt : ReceiveTraffic.pending_flush_sender rt = false →
  ∀ b, settle (ReceiveTrafficState.after_read (ReceiveTraffic.with_pending b rt))
  = (if ReceivePath.has_received_close_notify (ReceiveTraffic.recv rt) then None else Some rt, b).
Proof.
  intros Hp b. unfold ReceiveTrafficState.after_read, ReceiveTrafficState.flushed.
  destruct rt as [st recv other p]. cbn in *. subst p. destruct b; cbn;
    unfold ReceiveTrafficState.flushed; cbn; by destruct (ReceivePath.has_received_close_notify recv).
Qed.

(** [split_read] is a turn of the connection, with what the [SendAdapter] noted. *)
Definition read_result (it : Iter) (r : result Error.t (option Payload))
    : SendInner.t E K * option (ReceiveTraffic.t St D X) * I * Outcome.t :=
  match r with
  | Ok payload =>
      match MessageHandler.drop it, MessageIter.state it with
      | Ok it', Ok st =>
          let out := MessageIter.output it' in
          (inner_of it, if ReceivePath.has_received_close_notify (Output.recv out) then None
                        else Some (ReceiveTraffic.mk st (Output.recv out) (Output.other out) false),
           MessageIter.input it', Outcome.Received (Ok payload) (Output.send_required out))
      | Err e, _ => (inner_of it, None, MessageIter.input it, Outcome.Received (Err e) false)
      | _, _ => (inner_of it, None, MessageIter.input it, Outcome.Received Panic false)
      end
  | Err e => (inner_of it, None, MessageIter.input it, Outcome.Received (Err e) false)
  | Panic => (inner_of it, None, MessageIter.input it, Outcome.Received Panic false)
  end.

Lemma split_read_spec rt inner input : ReceiveTraffic.pending_flush_sender rt = false →
  split_read rt inner input
  = let '(it, r) := MessageIter.next MessageIterMode.All false (adapted rt inner input) in read_result it r.
Proof.
  intros Hp. unfold split_read, read. rewrite Hp.
  destruct (MessageIter.next _ _ _) as [it [payload|e|]] eqn:Hn; [|done..].
  apply next_noted in Hn as [Hok _]. specialize (Hok eq_refl). unfold read_result, MessageHandler.drop.
  destruct (MessageIter.state it) as [st|e|]; [|done..]. cbn [orb].
  destruct (Deframer.take_discard _) as [d n].
  pose proof (settle_after (ReceiveTraffic.mk st (ReceivePath.with_deframer d (Output.recv (MessageIter.output it)))
    (Output.other (MessageIter.output it)) false) eq_refl (Output.send_required (MessageIter.output it))) as Hset.
  unfold ReceiveTraffic.with_pending in Hset. cbn [ReceiveTraffic.state ReceiveTraffic.recv ReceiveTraffic.other] in Hset.
  destruct payload as [data|].
  - unfold ReceiveTrafficState.into_next. destruct (discard_front n _); [|done..]. step_ok. by rewrite Hset.
  - destruct (discard_front n _); [|done..]. step_ok. revert Hset.
    destruct (ReceiveTrafficState.after_read _) as [rt'|rt'|data n' rt'|] eqn:Ha; cbn; intros [= <- <-]; try done.
    revert Ha. unfold ReceiveTrafficState.after_read, ReceiveTrafficState.flushed. by repeat case_match.
Qed.

Lemma joins_read s it alive rt : joins s (it, alive) → receiver s = Some rt →
  let '(inner', receiver', input', r) := split_read rt (inner s) (input s) in
  let '(it', alive', r') := joined_read it in
  joins (mk_split inner' receiver' input' (wire s)) (it', alive') ∧ Outcome.unsplit r = r'.
Proof.
  intros Hj Hrt. destruct (joins_alike _ _ _ _ Hj Hrt) as (_ & Hp & Hal).
  rewrite split_read_spec by done. pose proof (next_alike _ _ _ MessageIterMode.All false Hal eq_refl) as Hn.
  unfold joined_read. destruct (MessageIter.next _ _ it) as [a r]. destruct (MessageIter.next _ _ _) as [a' r'] eqn:Hna.
  apply next_noted in Hna as [Hok _]. destruct Hn as [-> (Hi & Hst & Hr & Hs & Ht & Ho)].
  destruct r' as [payload|e|]; cbn [read_result]; [|by split_and!..].
  specialize (Hok eq_refl). unfold MessageHandler.drop. rewrite Hr, Hi, Hst.
  destruct (Deframer.take_discard _) as [d n].
  destruct (discard_front n _) as [i|e|]; [|by split_and!..]. step_ok.
  destruct (MessageIter.state a') as [st|e|]; [|done..]. cbn.
  split; [|done]. destruct (ReceivePath.has_received_close_notify _); by split_and!.
Qed.

Lemma pump_call {A} (m : action (SendPath.t E K * list u8) Error.t A) (i : SendInner.t E K) tls :
  (_ ← SendInner.pump; SendInner.on_send m) (i, tls)
  = let '((send, tls), r) := m (SendInner.send i, tls ++ SendInner.aside_buffer i) in
    ((SendInner.mk send [], tls), r).
Proof. done. Qed.

Lemma sender_call_spec op (i : SendInner.t E K) tls : op ≠ SplitOp.Read →
  sender_call op (i, tls)
  = let '((send, tls), r) := connection_call op (SendInner.send i, tls ++ SendInner.aside_buffer i) in
    ((SendInner.mk send [], tls), r).
Proof.
  intros Hop. destruct op; [done|..|apply pump_call|apply pump_call].
  cbn [sender_call connection_call]. unfold SendTraffic.write, discard, mbind, action_bind, SendInner.pump, SendInner.on_send.
  cbn [SendInner.send SendInner.aside_buffer]. by destruct (SendPath.send_appdata_encrypt _ _) as [[] [| |]].
Qed.

Lemma joins_step op s js : joins s js →
  joins (split_step op s).1 (joined_step op js).1
  ∧ Outcome.unsplit (split_step op s).2 = (joined_step op js).2.
Proof.
  destruct js as [it alive]. intros Hj.
  assert (op = SplitOp.Read ∨ op ≠ SplitOp.Read) as [->|Hop] by (destruct op; auto).
  - unfold split_step, joined_step. destruct (receiver s) as [rt|] eqn:Hrt.
    + pose proof (joins_read _ _ _ _ Hj Hrt) as Hr. destruct (joins_alike _ _ _ _ Hj Hrt) as (-> & _ & _).
      destruct (split_read _ _ _) as [[[? ?] ?] ?], (joined_read it) as [[? ?] ?]. done.
    + pose proof Hj as (_ & _ & _ & Ha). rewrite Hrt in Ha. subst alive. by split.
  - destruct Hj as (Hi & Hs & Ht & Hr).
    pose proof (sender_call_spec op (inner s) (wire s) Hop) as Hc. rewrite <- Hs, <- Ht in Hc.
    assert (split_step op s = let '((i, w), r) := sender_call op (inner s, wire s) in
      (mk_split i (receiver s) (input s) w, Outcome.Sent r)) as -> by by destruct op.
    assert (joined_step op (it, alive) =
      let '(out, r) := Output.on_send (connection_call op) (MessageIter.output it) in
      ((MessageIter.mk (MessageIter.input it) (MessageIter.state it) out, alive), Outcome.Sent r)) as ->
      by by destruct op.
    rewrite Hc. unfold Output.on_send. destruct (connection_call op _) as [[send tls] r].
    split; [|done]. split_and!; [done|done|cbn; by rewrite app_nil_r|done].
Qed.

Lemma joins_run ops s js : joins s js →
  joins (run split_step ops s).1 (run joined_step ops js).1
  ∧ Outcome.unsplit <$> (run split_step ops s).2 = (run joined_step ops js).2.
Proof.
  revert s js. induction ops as [|op ops IH]; intros s js Hj; [done|]. cbn [run].
  destruct (joins_step op s js Hj) as [Hj' Hr].
  destruct (split_step op s) as [s1 r1], (joined_step op js) as [js1 r2]. cbn [fst snd] in Hj', Hr.
  destruct (IH _ _ Hj') as [Hj2 Hrs].
  destruct (run split_step ops s1), (run joined_step ops js1). split; [done|]. cbn in *. congruence.
Qed.
End refinement.

(** ** The sender does not queue key updates *)

Section idle.
Context {E K : Type} `{!RecordEncrypter E, !TrafficSend K E, !PkiTypes}.

Definition enc_idle (s : Encrypting.t E K * list u8) : Prop :=
  Encrypting.key_update_remote s.1 = KeyUpdateRemote.Idle.
Definition path_idle (s : SendPath.t E K * list u8) : Prop := SendPath.has_queued_key_update s.1 = false.

Lemma idle_outgoing plain : keeps enc_idle (Encrypting.encrypt_outgoing plain).
Proof.
  intros [self tls] Hi. rewrite encrypt_outgoing_eq. unfold Encrypting.encrypt_outgoing_into.
  repeat case_match; simplify_eq; done.
Qed.
Lemma idle_write_key_update : keeps enc_idle Encrypting.write_key_update.
Proof. intros [self tls] Hi. unfold Encrypting.write_key_update. rewrite Hi. done. Qed.
#[local] Hint Resolve keeps_bind idle_outgoing idle_write_key_update : keeps.

Lemma idle_send_short_self m : keeps enc_idle (send_short_self m).
Proof. eapply keeps_ext; [apply send_short_self_eq|]. auto with keeps. Qed.
#[local] Hint Resolve idle_send_short_self : keeps.

Lemma idle_request : keeps enc_idle send_key_update_request.
Proof.
  unfold send_key_update_request. apply keeps_bind; [auto with keeps|]. intros [k|]; [|auto with keeps].
  apply keeps_bind; [auto with keeps|]. intros _. apply keeps_bind; [auto with keeps|]. intros [k'|]; [|auto with keeps].
  apply keeps_bind; [auto with keeps|]. intros [e k2]. by intros [].
Qed.
#[local] Hint Resolve idle_request : keeps.

Lemma idle_encrypt_each iter : keeps enc_idle (encrypt_each iter).
Proof.
  induction iter as [|r iter IH]; cbn [encrypt_each]; [auto with keeps|].
  apply keeps_bind; [auto with keeps|]. intros self. apply keeps_bind; [|auto with keeps]. case_decide; auto with keeps.
Qed.
#[local] Hint Resolve idle_encrypt_each : keeps.

Lemma idle_encrypt_records iter : keeps enc_idle (encrypt_records iter).
Proof.
  unfold encrypt_records. apply keeps_bind; [auto with keeps|]. intros self. repeat case_decide; auto with keeps.
Qed.
#[local] Hint Resolve idle_encrypt_records : keeps.

Lemma path_idle_encrypting self tls e :
  SendPath.encrypt_state self = EncryptionState.Encrypting e → path_idle (self, tls) → enc_idle (e, tls).
Proof.
  unfold path_idle, enc_idle, SendPath.has_queued_key_update. cbn [fst]. intros ->.
  by destruct (Encrypting.key_update_remote e).
Qed.

Lemma idle_on_encrypting {A} e (m : action (Encrypting.t E K * list u8) Error.t A) self tls :
  keeps enc_idle m → enc_idle (e, tls) → path_idle (SendPath.on_encrypting e m (self, tls)).1.
Proof.
  intros Hm He. specialize (Hm _ He). unfold SendPath.on_encrypting. destruct (m (e, tls)) as [[e' tls'] r].
  unfold path_idle, SendPath.has_queued_key_update. cbn in *. by rewrite Hm.
Qed.

Lemma idle_alert level desc : keeps path_idle (SendPath.send_alert level desc).
Proof.
  intros [self tls] Hi. unfold SendPath.send_alert.
  destruct (SendPath.encrypt_state self) as [|e|] eqn:He; [|pose proof (path_idle_encrypting _ _ _ He Hi) as Hei|].
  - cbn [send_short]. unfold path_idle, SendPath.has_queued_key_update. cbn. case_decide; cbn; by rewrite ?He.
  - pose proof (idle_send_short_self (Message.build_alert level desc) (e, tls) Hei) as Hk. unfold send_short_self in Hk.
    destruct (send_short _ (Some e, tls)) as [[[e'|] tls'] r]; unfold path_idle, SendPath.has_queued_key_update;
      cbn [fst]; case_decide; cbn; try done; by rewrite ?He, ?Hk.
  - unfold path_idle, SendPath.has_queued_key_update. cbn. by rewrite He.
Qed.
#[local] Hint Resolve idle_alert : keeps.

Lemma idle_close_notify : keeps path_idle SendPath.send_close_notify.
Proof.
  unfold SendPath.send_close_notify. apply keeps_bind; [auto with keeps|]. intros self.
  destruct (SendPath.has_sent_close_notify self); [auto with keeps|].
  apply keeps_bind; [|auto with keeps]. apply keeps_modify. by intros [].
Qed.
#[local] Hint Resolve idle_close_notify : keeps.

Lemma idle_appdata payload : keeps path_idle (SendPath.send_appdata_encrypt payload).
Proof.
  unfold SendPath.send_appdata_encrypt. destruct (match payload with DataKind.Early _ => _ | _ => _ end) as [early p].
  apply keeps_gets_bind. intros self tls Hp. repeat case_match; try done.
  match goal with He : SendPath.encrypt_state self = _ |- _ => pose proof (path_idle_encrypting _ _ _ He Hp) as Hei end.
  unfold mbind at 1, action_bind at 1. match goal with |- context [SendPath.on_encrypting ?e ?m (self, tls)] =>
    pose proof (idle_on_encrypting e m self tls) as Ho end.
  destruct (SendPath.on_encrypting _ _ _) as [s [b|err|]]; [|apply Ho; auto with keeps..].
  assert (keeps path_idle (_ ← SendPath.close_if_exhausted b; mret (M:=action _ _) (OutboundPlain.len p))) as Hc
    by (destruct b; cbn [SendPath.close_if_exhausted]; auto with keeps).
  apply Hc, Ho; auto with keeps.
Qed.

Lemma idle_refresh : keeps path_idle SendPath.refresh_traffic_keys.
Proof.
  unfold SendPath.refresh_traffic_keys. apply keeps_gets_bind. intros self tls Hp. repeat case_match; try done.
  apply idle_on_encrypting; [auto with keeps|]. by eapply path_idle_encrypting.
Qed.
End idle.

(** ** The halves of a connection *)

Section theorems.
Context {I St D E K X : Type} `{!TlsInputBuffer I, !StateMachine St D E K X, !RelayLaws St D E K X}.
Context `{!RecordDecrypter D, !RecordEncrypter E, !TrafficSend K E, !PkiTypes}.
Notation Iter := (MessageIter.t I St D E K X).
Notation Split := (Split I St D E K X).
Implicit Types (conn : Iter) (s : Split) (rt : ReceiveTraffic.t St D X).

(** The halves of [conn], after the bytes that it had sent. *)
Definition halves conn (i : SendInner.t E K) rt : Split :=
  mk_split i (Some rt) (MessageIter.input conn) (Output.tls (MessageIter.output conn)).

Lemma joins_halves conn i rt : try_from conn = Ok (i, rt) → joins (halves conn i rt) (conn, true).
Proof.
  unfold try_from. destruct (negb _); [done|]. destruct (MessageIter.state conn) as [st|e|] eqn:Hst; [|done..].
  step_ok. intros [= <- <-]. unfold joins, halves. cbn. by rewrite app_nil_r, Hst.
Qed.


(** What the sender sends, it flushes. *)
Lemma idle_call op : keeps path_idle (connection_call (E:=E) (K:=K) op).
Proof.
  destruct op; cbn [connection_call]; [apply keeps_ret| |apply idle_refresh|apply idle_close_notify].
  apply keeps_bind; [apply idle_appdata|intros; apply keeps_ret].
Qed.

Lemma sender_not_pending op s : op ≠ SplitOp.Read → SendInner.pending_send_data (inner s) = false →
  SendInner.pending_send_data (inner (split_step op s).1) = false.
Proof.
  intros Hop Hp. apply orb_false_iff in Hp as [Ha Hq].
  pose proof (sender_call_spec op (inner s) (wire s) Hop) as Hc.
  pose proof (idle_call op (SendInner.send (inner s), wire s ++ SendInner.aside_buffer (inner s))) as Hi.
  assert (split_step op s = let '((i, w), r) := sender_call op (inner s, wire s) in
    (mk_split i (receiver s) (input s) w, Outcome.Sent r)) as -> by by destruct op.
  rewrite Hc. destruct (connection_call op _) as [[send tls] r]. by apply Hi.
Qed.

(** A read that does not ask for a flush leaves the sender alone. *)
Lemma read_unflushed s rt r : receiver s = Some rt → ReceiveTraffic.pending_flush_sender rt = false →
  (split_step SplitOp.Read s).2 = Outcome.Received (Ok r) false →
  SendInner.pending_send_data (inner (split_step SplitOp.Read s).1) = SendInner.pending_send_data (inner s).
Proof.
  intros Hrt Hp. unfold split_step. rewrite Hrt, split_read_spec by done.
  destruct (MessageIter.next _ _ _) as [it o] eqn:Hn. apply next_noted in Hn as [_ Hn].
  destruct o as [payload|e|]; cbn [read_result]; [|done..]. unfold MessageHandler.drop.
  destruct (Deframer.take_discard _) as [d n]. destruct (discard_front n _) as [i|e|]; [|done..]. step_ok.
  destruct (MessageIter.state it); [|done..]. cbn. intros [= _ Hb]. destruct (Hn Hb) as (_ & Ht & Hq).
  unfold SendInner.pending_send_data, inner_of. cbn in *. by rewrite Ht, Hq.
Qed.

Lemma split_read_received s s' rt r : receiver s = Some rt → split_step SplitOp.Read s ≠ (s', Outcome.Sent r).
Proof.
  unfold split_step, split_read. intros ->. destruct (read _ _) as [[i inp] [[]| |]]; try done; cbn; try by case_match.
  destruct (ReceiveTrafficState.into_next _ _ _) as [[? ?]| |]; [|done..]. by destruct (settle _).
Qed.

(** C16.  The receiver says when the sender has to be flushed.  At any time after a
    connection was split, if the sender has nothing to flush, and has something after a
    call, then that call was a read of the receiving half, and the read either failed
    (which ends the receiver) or said [FlushSender].  So what a received record makes the
    connection send (a key update that the peer asked for, an alert) is never left behind
    without notice. *)
Theorem split_pending_noticed conn i rt ops op : try_from conn = Ok (i, rt) →
  let s := (run split_step ops (halves conn i rt)).1 in
  let '(s', outcome) := split_step op s in
  SendInner.pending_send_data (inner s) = false → SendInner.pending_send_data (inner s') = true →
  op = SplitOp.Read ∧ ∃ r flush, outcome = Outcome.Received r flush ∧ (flush = true ∨ is_ok r = false).
Proof.
  intros Hs%joins_halves. destruct (joins_run ops _ _ Hs) as [Hj _].
  destruct (run split_step _ _) as [s rs], (run joined_step _ _) as [[conn' alive] rs']. cbn [fst] in *.
  assert (op = SplitOp.Read ∨ op ≠ SplitOp.Read) as [->|Hop] by (destruct op; auto).
  - pose proof (read_unflushed s) as Hu. destruct (receiver s) as [rt'|] eqn:Hrt.
    + destruct (joins_alike _ _ _ _ Hj Hrt) as (_ & Hp & _).
      destruct (split_step _ s) as [s' [[r|e|] []|r]] eqn:Hst; intros Hno Hyes; cbn in Hu; eauto 8.
      * specialize (Hu rt' r eq_refl Hp eq_refl). congruence.
      * by destruct (split_read_received s _ _ _ Hrt Hst).
    + unfold split_step. rewrite Hrt. congruence.
  - pose proof (sender_not_pending op s Hop) as Hn. destruct (split_step op s). cbn in Hn. intros ?%Hn. congruence.
Qed.
End theorems.

(** ** A run *)

(** The server's end of a connection, with all that its client sent in the input buffer:
    data, a request to update the keys, and data. *)
Module ToySplit.
Notation K := ToyConnection.K.

Definition conn `{!PkiTypes} : MessageIter.t SliceInput.t
    (ServerTls13.ExpectTraffic Tls13RecordEncrypter.t Tls13RecordDecrypter.t Empty_set)
    Tls13RecordDecrypter.t Tls13RecordEncrypter.t K unit :=
  MessageIter.mk (SliceInput.new ToyConnection.final.2) (Ok ToyConnection.st)
    (Output.mk ToyConnection.recv ToyConnection.path [x17] tt None false).

Definition inner : SendInner.t Tls13RecordEncrypter.t K := SendInner.mk ToyConnection.path [].
Definition receiver : ReceiveTraffic.t
    (ServerTls13.ExpectTraffic Tls13RecordEncrypter.t Tls13RecordDecrypter.t Empty_set)
    Tls13RecordDecrypter.t unit :=
  ReceiveTraffic.mk ToyConnection.st ToyConnection.recv tt false.

Definition write (text : string) : SplitOp.t := SplitOp.Write (OutboundPlain.Single (byte_str text)).
Definition ops : list SplitOp.t :=
  [SplitOp.Read; write "one"; SplitOp.Read; SplitOp.Read; write "two"; SplitOp.RefreshTrafficKeys;
   SplitOp.Read; SplitOp.Close; write "three"; SplitOp.Read].
End ToySplit.

#[local] Existing Instances SliceInput.input SliceInput.laws.

Lemma toy_splits : let _ := any_names in try_from ToySplit.conn = Ok (ToySplit.inner, ToySplit.receiver).
Proof. intros names. reflexivity. Qed.

(** The client had asked for the keys to be updated: the receiver says so with the first
    data, and the writer's first record goes out after the answer. *)
Example toy_split_run : let _ := any_names in
  let '(s, outcomes) := run split_step ToySplit.ops (halves ToySplit.conn ToySplit.inner ToySplit.receiver) in
  outcomes =
    [Outcome.Received (Ok (Some (byte_str "hello"))) true; Outcome.Sent (Ok tt);
     Outcome.Received (Ok (Some (byte_str "a longer text, in fragments"))) false;
     Outcome.Received (Ok None) false; Outcome.Sent (Ok tt); Outcome.Sent (Ok tt);
     Outcome.Received (Ok None) false; Outcome.Sent (Ok tt);
     Outcome.Sent (Err (Error.ApiMisuse ApiMisuse.WriteAfterSendPathClosed));
     Outcome.Received (Ok None) false]
  ∧ SendInner.aside_buffer (inner s) = [].
Proof. intros names. by vm_compute. Qed.

(** A key update that is queued does not keep a connection from being split. *)
Example split_with_queued : let _ := any_names in
  let conn := fst (fst (joined_read ToySplit.conn)) in
  SendPath.has_queued_key_update (Output.send (MessageIter.output conn)) = true ∧ is_ok (try_from conn) = true.
Proof. intros names. by vm_compute. Qed.


Lemma split_pending_noticed_witness : let _ := any_names in
  let '(s', outcome) := split_step SplitOp.Read (halves ToySplit.conn ToySplit.inner ToySplit.receiver) in
  SendInner.pending_send_data (inner s') = true
  ∧ ∃ r flush, outcome = Outcome.Received r flush ∧ (flush = true ∨ is_ok r = false).
Proof.
  intros names. pose proof (split_pending_noticed ToySplit.conn _ _ [] SplitOp.Read toy_splits) as Hn.
  cbn [run fst] in Hn.
  assert (SendInner.pending_send_data
    (inner (split_step SplitOp.Read (halves ToySplit.conn ToySplit.inner ToySplit.receiver)).1) = true) as Hy
    by by vm_compute.
  destruct (split_step _ _) as [s' outcome]. split; [exact Hy|]. exact (proj2 (Hn eq_refl Hy)).
Defined.
