(* ===== verification/Connections.v ===== *)
(** * Connections

    What the connection layer promises as a whole, with the TLS 1.3 connection of
    [EndToEnd] for an example. *)
From stdpp Require Import gmap.
From S2P Require Import Prelude Enums Errors Codec Records Fragmenter Deframer Extensions Payloads.
From S2P Require Import ServerHello ClientHello Messages Send SendFlow Receive ReceiveSpec InputBuffer.
From S2P Require Import Connection ConnectionSpec ConnectionInv Cipher Hkdf Tls13Cipher KeySchedule.
From S2P Require Import KeyScheduleSpec Tls13Suites Sessions Traffic EndToEnd.

(** ** Records *)

(** C23. TLS 1.3 records make the round trip: what the encrypter of one end makes of a
    record, framed and followed by anything, is read back as one record and decrypted at
    the other end, with the same key, IV and sequence number, to the same content type
    and bytes; and the encrypted payload is as long as was announced. *)
Theorem tls13_record_roundtrip (e e' : Tls13RecordEncrypter.t) (d : Tls13RecordDecrypter.t)
    (r : Record_.t OutboundPlain.t) (seq : Z) (body : list u8) (c : Record_.t (list u8)) (rest : list u8) :
  same_keys e d → carried r → EncodableVersion.encode (Record_.version r) = ProtocolVersion.TLSv1_2 →
  Tls13RecordEncrypter.encrypt e r seq
    (replicate (Tls13RecordEncrypter.encrypted_payload_len e (OutboundPlain.len (Record_.payload r))) x00)
  = (e', body, Ok c) →
  let n := length (OutboundPlain.flat (Record_.payload r)) in
  length (Record_.payload c) = Tls13RecordEncrypter.encrypted_payload_len e n ∧
  Record_read (wire_header c ++ Record_.payload c ++ rest)
  = Ok (Record_.new ContentType.ApplicationData legacy12 (Record_.payload c), rest) ∧
  ∃ payload,
    Tls13RecordDecrypter.decrypt d
      (Record_.new ContentType.ApplicationData legacy12 (Record_.payload c)) seq
    = (d, payload, Ok (Record_.new (Record_.typ r) legacy13 (mkRange 0 n))) ∧
    take n payload = OutboundPlain.flat (Record_.payload r).
Proof.
  intros Hk Hr Hv He n. pose proof (tls13_payload_length _ _ _ _ _ _ _ (proj1 Hr) He) as Hlen.
  rewrite len_flat in Hlen by apply Hr.
  apply (tls13_pairs e d) in He as (_ & Ht & Hver & more & Hd); [|done..].
  split; [done|]. rewrite (assoc_L (++)). split.
  - apply frame_read; [done|congruence|]. pose proof Hr as (Hwf & Hmax & _). rewrite len_flat in Hmax by done.
    rewrite Hlen. unfold Tls13RecordEncrypter.encrypted_payload_len.
    pose proof (Aead.tag_len_max (algorithm (Tls13RecordEncrypter.enc_key e))).
    unfold MAX_PAYLOAD. unfold MAX_FRAGMENT_LEN in Hmax. lia.
  - eexists. split; [apply Hd|]. apply take_app_length.
Qed.

Definition toy_encrypter : Tls13RecordEncrypter.t := Tls13RecordEncrypter.mk ToyConnection.key ToyConnection.iv.
Definition toy_decrypter : Tls13RecordDecrypter.t := Tls13RecordDecrypter.mk ToyConnection.key ToyConnection.iv.
Definition toy_record : Record_.t OutboundPlain.t :=
  Record_.new ContentType.Alert legacy12 (OutboundPlain.Single [x01; x00]).
Definition toy_sealed : Record_.t (list u8) :=
  Record_.new ContentType.ApplicationData legacy12 [x01; x00; x15; x81].

Lemma toy_encrypts :
  Tls13RecordEncrypter.encrypt toy_encrypter toy_record 5
    (replicate (Tls13RecordEncrypter.encrypted_payload_len toy_encrypter
       (OutboundPlain.len (Record_.payload toy_record))) x00)
  = (toy_encrypter, Record_.payload toy_sealed, Ok toy_sealed).
Proof.
  assert ((Tls13RecordEncrypter.encrypt toy_encrypter toy_record 5
    (replicate (Tls13RecordEncrypter.encrypted_payload_len toy_encrypter
       (OutboundPlain.len (Record_.payload toy_record))) x00)).2 = Ok toy_sealed) as Hc.
  { by vm_compute. }
  destruct (Tls13RecordEncrypter.encrypt _ _ _ _) as [[e' body] r] eqn:He. cbn [snd] in Hc. subst r.
  pose proof (tls13_encrypt_inv _ _ _ _ _ _ _ He) as (-> & Hl & _ & _ & Hp & _).
  rewrite length_replicate in Hl. cbn in Hl, Hp. do 4 (destruct body as [|? body]; [done|]).
  destruct body; [|done]. injection Hp as <- <- <- <-. reflexivity.
Qed.

Lemma tls13_record_roundtrip_witness :
  Record_read (wire_header toy_sealed ++ Record_.payload toy_sealed ++ [x17])
  = Ok (Record_.new ContentType.ApplicationData legacy12 (Record_.payload toy_sealed), [x17]).
Proof.
  destruct (tls13_record_roundtrip toy_encrypter toy_encrypter toy_decrypter toy_record 5
    (Record_.payload toy_sealed) toy_sealed [x17]) as (_ & H & _);
    [by split| |done|exact toy_encrypts|exact H].
  unfold carried. cbn. by split_and!.
Defined.

(** ** The stream *)

Section connections.
Context {I St D E K X : Type} `{!TlsInputBuffer I, !TlsInputBufferLaws I}.
Context `{!StateMachine St D E K X, !StateMachineLaws St D E K X}.
Context `{!RecordDecrypter D, !RecordDecrypterLaws D, !RecordEncrypter E, !TrafficSend K E, !PkiTypes}.
Notation Iter := (MessageIter.t I St D E K X).

(** C13. The connection is a function of the byte stream: with any input buffer and any
    state machine that keeps to their contracts, [handle_all] comes to an end and does
    what the specification does with the pending handshake messages and the unread bytes
    - the same application data, the same result, the same state machine, the same
    answers to the peer - and without an error leaves a connection that is in order and
    stands for the specification's. *)
Theorem handle_all_stream (it : Iter) (buf : list u8) (Hok : conn_ok it) :
  let '((it', data), r) := MessageHandler.handle_all (it, buf) in
  let '((s', data'), r') := StreamConn.handle_all (stream_of_conn it, buf) in
  r = r' ∧ data = data' ∧
  (r ≠ Panic → MessageIter.state it' = StreamConn.state s' ∧
     set_deframer Deframer.default (MessageIter.output it') = StreamConn.output s') ∧
  (is_ok r = true → stream_of_conn it' = s' ∧ open (MessageIter.input it') (MessageIter.output it')) ∧
  MessageHandler.handle_loop (length (held (MessageIter.input it))) (MessageHandler.new it) buf ≠ None.
Proof.
  destruct (conn_ok_linked it Hok) as [Hl Hc].
  pose proof (handle_all_refines it _ buf Hl Hc) as Hh.
  pose proof (handle_loop_refines (length (held (MessageIter.input it))) it _ buf Hl Hc) as Ht.
  destruct (stream_handle_total _ (stream_of_conn it) buf (linked_size _ _ Hl)) as [Hnn _].
  destruct (MessageHandler.handle_all _) as [[it' data] r], (StreamConn.handle_all _) as [[s' data'] r'].
  destruct Hh as (Hr & Hd & Hs & Hl'). split_and!; [done..| |].
  - intros Hisok. destruct (Hl' Hisok) as [Hlink _]. by split; [apply linked_stream|apply Hlink].
  - intros Hn. rewrite Hn in Ht. by destruct (StreamConn.handle_loop _ _ _).
Qed.

(** C12. It does not matter how the transport cuts the stream: two ways of reading the
    same bytes, piece by piece and handling each, give the application the same data and
    the same result, the peer the same answers, and the connection the same state, keys
    and sequence numbers; and without an error the same is left to be handled. *)
Theorem receive_chunks (refill : list u8 → I → I)
    (refill_held : ∀ bs i, input_ok i → input_ok (refill bs i) ∧ held (refill bs i) = held i ++ bs)
    (chunks chunks' : list (list u8)) (it : Iter) (buf : list u8) :
  chunks ≠ [] → chunks' ≠ [] → concat chunks = concat chunks' → conn_ok it →
  let '((it1, data1), r1) := receive_all refill chunks (it, buf) in
  let '((it2, data2), r2) := receive_all refill chunks' (it, buf) in
  r1 = r2 ∧ data1 = data2 ∧
  (r1 ≠ Panic → MessageIter.state it1 = MessageIter.state it2 ∧
     set_deframer Deframer.default (MessageIter.output it1) =
     set_deframer Deframer.default (MessageIter.output it2)) ∧
  (is_ok r1 = true → stream_of_conn it1 = stream_of_conn it2).
Proof.
  intros Hne Hne' Hcc Hok. destruct (conn_ok_linked it Hok) as [Hl Hc].
  pose proof (receive_all_refines refill refill_held chunks it _ buf Hl Hc) as H1.
  pose proof (receive_all_refines refill refill_held chunks' it _ buf Hl Hc) as H2.
  assert (outcome (stream_receive chunks (stream_of_conn it, buf))
    = outcome (stream_receive chunks' (stream_of_conn it, buf))) as Hs.
  { destruct chunks as [|x xs], chunks' as [|y ys]; [done..|].
    rewrite (stream_receive_concat x xs), (stream_receive_concat y ys) by done. by rewrite Hcc. }
  unfold outcome in Hs. destruct (receive_all _ chunks _) as [[it1 d1] r1], (receive_all _ chunks' _) as [[it2 d2] r2].
  destruct (stream_receive chunks _) as [[s1 b1] q1], (stream_receive chunks' _) as [[s2 b2] q2].
  cbn [fst snd] in Hs. destruct H1 as (-> & -> & H1 & L1), H2 as (-> & -> & H2 & L2).
  assert (q1 = q2) as <- by congruence. split_and!; [done|congruence|..].
  - intros Hnp. destruct (H1 Hnp), (H2 Hnp). split; congruence.
  - intros Hq. rewrite (linked_stream _ _ (L1 Hq)), (linked_stream _ _ (L2 Hq)).
    rewrite Hq in Hs. destruct s1, s2. cbn in Hs. congruence.
Qed.
End connections.

Section examples.
#[local] Existing Instances SliceInput.input SliceInput.laws.

Lemma toy_conn_ok : conn_ok ToyConnection.conn.
Proof. split; [|done]. split; [apply le_n|]. apply settled_default. Qed.

Lemma toy_refill bs i :
  input_ok i → input_ok (ToyConnection.refill bs i) ∧ held (ToyConnection.refill bs i) = held i ++ bs.
Proof.
  unfold input_ok, held. cbn. unfold SliceInput.ok. cbn. intros Hi.
  rewrite length_app, drop_app_le by done. split; [lia|done].
Qed.

(** A connection that has received the example's bytes. *)
Definition toy_full `{!PkiTypes} := MessageIter.mk (SliceInput.new (ToyConnection.final.2))
  (MessageIter.state ToyConnection.conn) (MessageIter.output ToyConnection.conn).

Lemma handle_all_stream_witness : let _ := any_names in
  (MessageHandler.handle_all (toy_full, [])).1.2 = (StreamConn.handle_all (stream_of_conn toy_full, [])).1.2 ∧
  (StreamConn.handle_all (stream_of_conn toy_full, [])).1.2 = byte_str "helloa longer text, in fragments".
Proof.
  intros names. split; [|by vm_compute].
  pose proof (handle_all_stream toy_full []) as H. specialize (H ltac:(split; [|done]; split; [apply Nat.le_0_l|apply settled_default])).
  destruct (MessageHandler.handle_all _) as [[? ?] ?], (StreamConn.handle_all _) as [[? ?] ?]. apply H.
Defined.

Lemma receive_chunks_witness : let _ := any_names in
  let bytes := ToyConnection.final.2 in
  (receive_all ToyConnection.refill [take 3 bytes; []; drop 3 bytes] (ToyConnection.conn, [])).1.2
  = (receive_all ToyConnection.refill [take 40 bytes; drop 40 bytes] (ToyConnection.conn, [])).1.2.
Proof.
  intros names bytes.
  pose proof (receive_chunks ToyConnection.refill toy_refill [take 3 bytes; []; drop 3 bytes]
    [take 40 bytes; drop 40 bytes] ToyConnection.conn []) as H.
  specialize (H ltac:(done) ltac:(done) ltac:(cbn [concat]; by rewrite !app_nil_r, app_nil_l, !take_drop) toy_conn_ok).
  clearbody bytes. destruct (receive_all _ _ _) as [[? ?] ?], (receive_all _ [take 40 bytes; _] _) as [[? ?] ?]. apply H.
Defined.
End examples.

(** ** The life of a connection *)

Section lives.
Context {St D E K X : Type} `{!StateMachine St D E K X, !StateMachineLaws St D E K X}.
Context `{!RecordDecrypter D, !RecordDecrypterLaws D, !RecordEncrypter E, !TrafficSend K E, !PkiTypes}.
#[local] Existing Instances VecInput.input VecInput.laws.

(** C14. Over the life of a connection with a [VecInput], whatever the application calls
    and the transport delivers, in any order: the buffer and the deframer stay
    consistent, so that the loops of [handle_all] and [process] end.  An error is for
    good, and so is the end of the stream: from then on the state machine stays as it
    is, and [handle_all] delivers no more data and returns that error or that end. *)
Theorem connection_sound (it it' : MessageIter.t VecInput.t St D E K X) :
  rtc api_step it it' → sound it →
  sound it' ∧
  (∀ buf, let fuel := length (held (MessageIter.input it')) in
     MessageHandler.handle_loop fuel (MessageHandler.new it') buf ≠ None ∧
     Connection_.process_loop fuel it' ≠ None) ∧
  (stopped it → still it it' ∧
     ∀ buf, ∃ it2, MessageHandler.handle_all (it', buf) = ((it2, buf), verdict (IoState.mk true) it)).
Proof.
  intros Hrtc Hs. destruct (history_sound it it' Hrtc Hs) as [Hs' Hst]. split_and!; [done|..].
  - intros buf fuel. subst fuel. pose proof (sound_enough it' Hs') as He. split.
    + by destruct (handle_loop_sound _ it' buf Hs' He) as (? & ? & ? & -> & _).
    + by destruct (process_loop_sound _ it' Hs' He) as (? & ? & -> & _).
  - intros Hstop. destruct (Hst Hstop) as [Heq Hc]. split; [done|]. intros buf.
    assert (stopped it') as Hstop'.
    { destruct Hstop as [[e He]|Hcl]; [left; exists e; congruence|right; by apply Hc]. }
    destruct (handle_all_stopped it' buf Hs' Hstop') as (it2 & -> & _). exists it2.
    unfold verdict. by rewrite Heq.
Qed.
End lives.

(** A peer that says goodbye, in a sealed alert, and goes on sending. *)
Definition toy_live : MessageIter.t VecInput.t
    (ServerTls13.ExpectTraffic Tls13RecordEncrypter.t Tls13RecordDecrypter.t Empty_set)
    Tls13RecordDecrypter.t Tls13RecordEncrypter.t ToyConnection.K unit :=
  MessageIter.mk VecInput.default (MessageIter.state ToyConnection.conn) (MessageIter.output ToyConnection.conn).

Definition toy_transport (n : nat) : result unit (list u8) :=
  Ok (take n (wire_header toy_sealed ++ Record_.payload toy_sealed ++ [x17; x03; x03])).

Definition toy_read (it : MessageIter.t VecInput.t
    (ServerTls13.ExpectTraffic Tls13RecordEncrypter.t Tls13RecordDecrypter.t Empty_set)
    Tls13RecordDecrypter.t Tls13RecordEncrypter.t ToyConnection.K unit) :=
  MessageIter.mk (VecInput.read toy_transport (MessageIter.input it)).1 (MessageIter.state it) (MessageIter.output it).

Section live_example.
#[local] Existing Instances VecInput.input VecInput.laws any_names.

Definition toy_closed := (MessageHandler.handle_all (toy_read toy_live, [])).1.1.

Example toy_closes :
  (MessageHandler.handle_all (toy_read toy_live, [])).2 = Ok (IoState.mk true) ∧ closed toy_closed ∧
  held (MessageIter.input (toy_read toy_closed)) = [].
Proof. by vm_compute. Qed.

Lemma toy_live_sound : sound toy_live.
Proof.
  split; [apply le_n|]. split; [|by left]. split; [apply le_n|]. apply settled_default.
Qed.

Lemma toy_read_step it : VecInput.ok (MessageIter.input it) → api_step it (toy_read it).
Proof.
  intros Hok. unfold toy_read.
  pose proof (vec_read_result toy_transport (MessageIter.input it) Hok ltac:(done)) as Hnp.
  destruct (VecInput.read toy_transport (MessageIter.input it)) as [i r] eqn:Hr.
  apply (step_read toy_transport it i r); [|done..]. intros n bs [= <-]. rewrite length_take. lia.
Qed.

Lemma toy_closed_sound : sound toy_closed.
Proof.
  pose proof (api_sound _ _ (toy_read_step toy_live (le_n _)) toy_live_sound) as [Hs _].
  pose proof (handle_all_sound (toy_read toy_live) [] Hs) as Ha. pose proof (proj1 toy_closes) as Hr.
  unfold toy_closed. destruct (MessageHandler.handle_all _) as [[it' data] r]. cbn [fst snd] in *.
  by subst r.
Qed.

Lemma connection_sound_witness :
  sound (toy_read toy_closed) ∧
  ∃ it2, MessageHandler.handle_all (toy_read toy_closed, [])
    = ((it2, []), verdict (IoState.mk true) toy_closed).
Proof.
  pose proof (toy_closed_sound : sound toy_closed) as Hs0. pose proof (proj1 (proj2 toy_closes)) as Hc.
  pose proof (toy_read_step toy_closed (proj1 Hs0)) as Hstep.
  destruct (connection_sound toy_closed (toy_read toy_closed) (rtc_once _ _ Hstep) Hs0) as (Hs & _ & Hst).
  split; [exact Hs|]. exact (proj2 (Hst (or_intror Hc)) []).
Defined.
End live_example.
